(* ===== verification/_CoqProject ===== *)
-Q . S2P
Prelude.v
CStr.v
Perm.v
USys.v
Auth.v
Mem.v
BufIface.v
Lock.v
Bio.v
Log.v
LogBio.v
Pipe.v
Ptable.v
File.v
Proc.v
Txn.v
Fs.v
FsAlloc.v
FsInode.v
FsData.v
FsDir.v
FsPath.v
FsBio.v
Grep.v
Sh.v
Sysfile.v
SysOps.v
SysBio.v
Kalloc.v
Vm.v
VmSpace.v
VmUser.v
VmGrow.v
VmCopy.v
VmMove.v
Syscall.v
Exec.v
VmDemo.v
Accounts.v
AcctView.v
Passwd.v
Useradd.v
Getty.v
Chown.v
AcctHost.v
Umalloc.v
Format.v
Console.v
ConsoleOut.v
ConsoleIn.v
Tty.v
Printf.v
Mkfs.v
MkfsBuild.v
MkfsFiles.v
MkfsTree.v
MkfsImage.v
Ide.v
IdeQueue.v
Tools.v
ToolsOut.v
Trap.v
TrapProps.v
Sched.v
Mp.v
Apic.v
Boot.v
Start.v
