(* ===== verification/Prelude.v ===== *)
(** * A verification library for xv6 with users and groups

    The repository is the xv6 teaching kernel for the 32-bit PC, extended
    with users, groups, file modes and a login program, together with its user
    programs and the builder of its disk image.  This library models the
    program as Rocq functions, one for each C function that is modelled and
    with the same name where Rocq allows it, and proves that the parts do what
    they are for.

    ** The parts of the program and where they are modelled

    Disk and file system.  A block goes through four layers, each written
    against an interface that the one below implements:
    - the disk: [Bio] has the memory disk of kernel/memide.c, [Ide] the
      driver of kernel/ide.c with its queue, its interrupt and the controller,
      with the theorems in [IdeQueue];
    - the buffer cache, kernel/bio.c: [Bio] (the ring of buffers in order of
      use), an instance of the interface [BufIface];
    - the log, kernel/log.c: [Log], over [BufIface]; [LogBio] runs it on [Bio];
      [Txn] is what it promises to its clients, a transaction on blocks, with
      the proof that the log keeps the promise;
    - the file system, kernel/fs.c: [Fs] has the functions, over [Txn];
      [FsAlloc], [FsInode], [FsData], [FsDir] and [FsPath] have the theorems on
      the free map, inodes, contents, directories and paths, and [FsBio] a
      small disk on which they are all applied.
    The calls on files of kernel/sysfile.c and kernel/file.c are in [Sysfile],
    with theorems in [SysOps] and runs in [SysBio]; the permission checks and
    file modes (also those of user/chmod.c, user/ls.c) are in [Perm].  The image
    that the kernel mounts is made by tools/mkfs.c: [Mkfs], with the theorems
    in [MkfsBuild] (blocks), [MkfsFiles] (files), [MkfsTree] (the tree) and
    [MkfsImage].

    Processes.  [Ptable] has the process table and the routines of
    kernel/proc.c that touch nothing else, with the user and group ids; [File]
    the file table and descriptors of kernel/file.c; [Proc] has [fork], [exit]
    and [userinit] and the theorems; [Pipe] is kernel/pipe.c; [Lock] is
    kernel/spinlock.c and kernel/sleeplock.c; [Sched] has the scheduler of
    kernel/proc.c on several processors, with the routines that use
    [ptable.lock] as lists of instructions; [Trap] is kernel/trap.c, with the
    clock, kernel/sysproc.c and the numbers of the system calls, and
    [TrapProps] has its theorems.

    Memory.  [Kalloc] is kernel/kalloc.c; [Vm] is kernel/vm.c, with theorems in
    [VmSpace], [VmUser], [VmGrow] (also [growproc] and [sys_sbrk]), [VmCopy] and
    [VmMove]; [Syscall] is kernel/syscall.c, the arguments of system calls
    (also those of [sys_exec]) read through the page table; [Exec] is kernel/exec.c; [VmDemo] is a machine on
    which the theorems are applied.

    Console.  [Console] is kernel/console.c, kernel/kbd.c, kernel/uart.c and the
    console calls of kernel/sysfile.c, with the devices as part of the state;
    [ConsoleOut], [ConsoleIn] and [Tty] have the theorems on the screen, the
    line discipline and reading.  [Format] is what the two formatted printers
    share, and [Printf] is user/printf.c.

    Start-up.  [Boot] is the loader bootloader/bootmain.c and the first page
    directory of kernel/main.c, [Start] its [startothers], [Mp] the search for the processors in
    kernel/mp.c and [mycpu], [Apic] the interrupt controllers and the clock
    chip of kernel/ioapic.c and kernel/lapic.c.

    User programs.  [CStr] has the string routines of user/ulib.c and
    kernel/string.c.  [USys] is the system-call interface of the programs, a
    class with laws; [Auth] is user/auth.c, [Grep] user/grep.c, [Sh] user/sh.c,
    [Umalloc] user/umalloc.c, [Tools] the small programs
    (cat, wc, echo, ls and others), with theorems in [ToolsOut].  [Accounts] has the
    account programs (useradd, groupadd, passwd, chown, chgrp, getty, init)
    over a class of further system calls; [AcctView] has its laws and
    [Passwd], [Useradd], [Getty], [Chown] the theorems; [AcctHost] applies them
    to the repository's own /etc/passwd and /etc/group.

    [Mem] has the words of memory, and this file the generic part: machine
    integers, the monad of code that can stop, its total-correctness
    judgement [wp], and lemmas on lists and integers.

    ** How the code is modelled

    Integers are in [Z] and brought back to their width ([u8], [u16], [u32],
    [s16], [s32]) wherever the code can leave it.  Stateful code is a function
    [S -> outcome S A] ([M]): it returns, or it stops because it exits, panics,
    sleeps for ever or does what C leaves undefined (an access outside an
    object in particular).  [wp m s Q] says that [m] returns from [s] with a
    result and state that satisfy [Q]: theorems on what a function computes
    also show that it returns.  Where several activities interleave (locks, pipes, the
    process table, the processors, the console, the disk driver) each runs from one point
    where it can lose the processor to the next, and the system is a step
    relation, with invariants by rule induction.  What a program leaves
    uninitialised is a parameter of the functions that read it.

    Loops that are not structural have fuel.  The bound is a quantity of the
    state (the length of the line, list, file or range that the loop consumes)
    or the size of a hardware table, so that running out is not a case of the
    theorems: they show that the functions return.  Where the code can loop
    for ever, running out of fuel is a result of its own.

    ** What is proved

    - Crash safety: a transaction is on the disk entirely or not at all after
      a crash at any point, also when recovery itself is interrupted again and
      again ([Log]); operations that log fewer blocks than are reserved for
      them, as those of filewrite do, have room in the log; and the file
      system's view of blocks is that of a transaction ([Txn]).
    - File system: what is written is read back and nothing else changes,
      allocation gives free blocks only, directories are maps and paths are
      resolved through them without leaking references; mkfs makes an image
      that satisfies the hypotheses of these theorems.
    - Disk driver: requests are served in the order they were made, each gets
      the data of its sector, and none is forgotten.
    - Memory: pages are neither lost nor shared by the operations on address
      spaces; fork copies; arguments outside the process are refused; exec
      builds the stack a program expects.
    - Processes: the table is a tree, wait returns the children that have
      exited, wake-ups are not lost, only root changes its ids, spin locks
      exclude each other; a process runs on one processor at a time, the code
      that switches between processes keeps the rules of its locks, and a
      processor takes up each other process at most once before one that waits;
      a killed process does not return to its program; sleep does not end
      before its ticks have passed, and then the process is runnable.
    - Console: the screen shows what is written, a reader gets the line that
      was typed and edited, and is woken for it.
    - Start-up: the loader puts every segment of the kernel in place, the
      processors of the machine are found, told apart and started with stacks
      of their own, interrupts go where the drivers send them, and the clock is read consistently.
    - User programs: the parser of the shell inverts printing, grep decides
      its patterns, malloc serves requests from disjoint memory, atoi
      reads back what printf writes, wc counts and ls lists what is there, a login succeeds exactly with the right password, and
      the account programs change their line of the files and no other.

    The models also show defects of the code, as theorems about it and as runs
    of it: open with O_CREATE waits for ever for its own lock, fork gives the
    child the ids of the slot's last user and not the parent's, an unsigned
    check lets useradd make a second root, and others.

    ** What is not modelled

    The assembly files (boot sector, entry, context switch, trap vectors), the
    order of the initialisations in main, and the loading of segment, interrupt
    and page-table registers: they only write processor registers.  The initialisers that
    name locks or set up a device once ([uartinit], [consoleinit], [iinit]).
    user/usertests.c, user/forktest.c and user/stressfs.c, which are tests.
    Concurrency within a step: a routine that holds its lock from its first
    access to its last is one step, which is what the lock is for. *)

From Stdlib Require Export ZArith Lia.
From stdpp Require Export base gmap list strings numbers.

#[global] Open Scope Z_scope.

#[global] Arguments Z.testbit : simpl never.
#[global] Arguments Z.land : simpl never.
#[global] Arguments Z.lor : simpl never.
#[global] Arguments Z.shiftl : simpl never.
#[global] Arguments Z.shiftr : simpl never.
#[global] Arguments Z.pow : simpl never.
#[global] Arguments Z.modulo : simpl never.
#[global] Arguments Z.div : simpl never.

(** ** Machine integers

    A C [uint] is an integer in [0, 2^32), an [int] one in [-2^31, 2^31);
    arithmetic is done in [Z] and brought back to the width by these two
    functions. *)

Definition u32 (x : Z) : Z := x mod 2 ^ 32.

Definition s32 (x : Z) : Z := (x + 2 ^ 31) mod 2 ^ 32 - 2 ^ 31.

Definition u8 (x : Z) : Z := x mod 256.

Definition u16 (x : Z) : Z := x mod 2 ^ 16.

Definition s16 (x : Z) : Z := (x + 2 ^ 15) mod 2 ^ 16 - 2 ^ 15.

Definition byte (x : Z) : Prop := 0 <= x < 256.

(** ** Outcomes

    Code that can stop without returning is a function from the state to an
    [outcome]: it returns a value and a state, or it stops in a state for one
    of the reasons of [stop]. *)

Inductive stop : Type :=
  | Exited                      (* a user program called exit() *)
  | Panicked (msg : string)     (* the kernel called panic(msg) *)
  | Sleeping (chan : string)    (* the process waits in sleep(chan) *)
  | Undefined.                  (* behaviour C leaves undefined *)

Inductive outcome (S A : Type) : Type :=
  | Ret (a : A) (s : S)
  | Stop (r : stop) (s : S).
Arguments Ret {S A} a s.
Arguments Stop {S A} r s.

Definition M (S A : Type) : Type := S -> outcome S A.

Definition ret {S A} (a : A) : M S A := fun s => Ret a s.

Definition halt {S A} (r : stop) : M S A := fun s => Stop r s.

Definition bind {S A B} (m : M S A) (f : A -> M S B) : M S B :=
  fun s => match m s with
           | Ret a s' => f a s'
           | Stop r s' => Stop r s'
           end.

Definition gets {S A} (f : S -> A) : M S A := fun s => Ret (f s) s.

Definition modify {S} (f : S -> S) : M S unit := fun s => Ret tt (f s).

(** A computation that may be undefined, as a step of the monad. *)
Definition lift {S A} (o : option A) : M S A :=
  match o with
  | Some a => ret a
  | None => halt Undefined
  end.

Declare Scope outcome_scope.
Delimit Scope outcome_scope with outcome.
Notation "'let!' x := e 'in' k" := (bind e (fun x => k))
  (at level 10, x binder, e at level 99, k at level 200)
  : outcome_scope.
Notation "e 'then!' k" := (bind e (fun _ => k))
  (at level 100, right associativity) : outcome_scope.
#[global] Open Scope outcome_scope.

(** [wp m s Q]: from [s], [m] returns, and its value and final state satisfy
    [Q].  It is total: panics, sleeps, exits and undefined behaviour are all
    excluded. *)
Definition wp {S A} (m : M S A) (s : S) (Q : A -> S -> Prop) : Prop :=
  match m s with
  | Ret a s' => Q a s'
  | Stop _ _ => False
  end.

Section wp_rules.
Context {S A B : Type}.
Implicit Types (m : M S A) (f : A -> M S B) (s : S).

Lemma wp_ret (a : A) s (Q : A -> S -> Prop) : Q a s -> wp (ret a) s Q.
Proof. done. Qed.

Lemma wp_bind m f s (Q : B -> S -> Prop) :
  wp m s (fun a s' => wp (f a) s' Q) -> wp (bind m f) s Q.
Proof. unfold wp, bind. by destruct (m s). Qed.

Lemma wp_mono m s (P Q : A -> S -> Prop) :
  wp m s P -> (forall a s', P a s' -> Q a s') -> wp m s Q.
Proof. unfold wp. destruct (m s); naive_solver. Qed.

Lemma wp_gets (g : S -> A) s (Q : A -> S -> Prop) : Q (g s) s -> wp (gets g) s Q.
Proof. done. Qed.

Lemma wp_lift (o : option A) a s (Q : A -> S -> Prop) :
  o = Some a -> Q a s -> wp (lift o) s Q.
Proof. by intros ->. Qed.

Lemma wp_iff m s (Q : A -> S -> Prop) :
  wp m s Q <-> exists a s', m s = Ret a s' /\ Q a s'.
Proof.
  unfold wp. destruct (m s) as [a s1|r s1]; split; try done.
  - by exists a, s1.
  - by intros (? & ? & [= <- <-] & ?).
  - by intros (? & ? & ? & ?).
Qed.

Lemma bind_ret_eq m f s a s' : m s = Ret a s' -> bind m f s = f a s'.
Proof. unfold bind. by intros ->. Qed.

Lemma bind_stop_eq m f s r s' : m s = Stop r s' -> bind m f s = Stop r s'.
Proof. unfold bind. by intros ->. Qed.
End wp_rules.

Lemma wp_modify {S} (g : S -> S) (s : S) (Q : unit -> S -> Prop) :
  Q tt (g s) -> wp (modify g) s Q.
Proof. done. Qed.

Lemma bind_gets {S A B} (g : S -> A) (f : A -> M S B) s : bind (gets g) f s = f (g s) s.
Proof. done. Qed.

Lemma bind_modify {S B} (g : S -> S) (f : unit -> M S B) s : bind (modify g) f s = f tt (g s).
Proof. done. Qed.

Lemma bind_assoc {S A B C} (m : M S A) (f : A -> M S B) (g : B -> M S C) s :
  bind (bind m f) g s = bind m (fun a => bind (f a) g) s.
Proof. unfold bind. by destruct (m s). Qed.

(** ** Arithmetic at machine width *)

Lemma u32_small x : 0 <= x < 2 ^ 32 -> u32 x = x.
Proof. apply Z.mod_small. Qed.

Lemma u32_bounds x : 0 <= u32 x < 2 ^ 32.
Proof. apply Z.mod_pos_bound. lia. Qed.

Lemma s32_small x : - 2 ^ 31 <= x < 2 ^ 31 -> s32 x = x.
Proof. intros H. unfold s32. rewrite Z.mod_small; lia. Qed.

Lemma s32_bounds x : - 2 ^ 31 <= s32 x < 2 ^ 31.
Proof. unfold s32. pose proof (Z.mod_pos_bound (x + 2 ^ 31) (2 ^ 32)). lia. Qed.

Lemma u32_idemp x : u32 (u32 x) = u32 x.
Proof. apply u32_small, u32_bounds. Qed.

Lemma land_pow2_testbit x k : 0 <= k -> (Z.land x (2 ^ k) =? 0) = negb (Z.testbit x k).
Proof.
  intros Hk. destruct (Z.testbit x k) eqn:E.
  - apply Z.eqb_neq. intros H. apply (f_equal (fun z => Z.testbit z k)) in H.
    rewrite Z.land_spec, Z.pow2_bits_true, E, Z.bits_0 in H by lia. done.
  - apply Z.eqb_eq. apply Z.bits_inj'. intros i Hi.
    rewrite Z.land_spec, Z.bits_0, Z.pow2_bits_eqb by lia.
    destruct (Z.eqb_spec k i) as [->|]; [by rewrite E|by rewrite andb_false_r].
Qed.

(** ** Objects in memory

    An object of memory is the list of its bytes; a load or a store outside
    it is undefined. *)

Definition store {A} (m : list A) (i : nat) (v : A) : option (list A) :=
  if decide (i < length m)%nat then Some (<[i := v]> m) else None.

Lemma store_in {A} (m : list A) i v :
  (i < length m)%nat -> store m i v = Some (<[i := v]> m).
Proof. intros. unfold store. by rewrite decide_True. Qed.

Lemma store_app {A} (l : list A) x k v :
  store (l ++ x :: k) (length l) v = Some (l ++ v :: k).
Proof.
  rewrite store_in by (rewrite length_app; simpl; lia).
  f_equal. rewrite insert_app_r_alt by lia. by rewrite Nat.sub_diag.
Qed.

Lemma obind_some {A B} (x : A) (f : A -> option B) : Some x ≫= f = f x.
Proof. done. Qed.

Lemma lookup_mid {A} (l : list A) x k : (l ++ x :: k) !! length l = Some x.
Proof. by apply list_lookup_middle. Qed.

Lemma store_length {A} (m m' : list A) i v : store m i v = Some m' -> length m' = length m.
Proof. unfold store. case_decide; intros; simplify_eq. apply length_insert. Qed.

Lemma alter_insert {A} (f : A -> A) (l : list A) i x :
  l !! i = Some x -> alter f i l = <[i := f x]> l.
Proof.
  revert i. induction l as [|y l IH]; intros [|i] H; simplify_eq/=; [done|].
  f_equal. by apply IH.
Qed.

(** [splice m i l]: the object [m] with [l] written over it from offset [i]. *)
Definition splice {A} (m : list A) (i : nat) (l : list A) : list A :=
  take i m ++ l ++ drop (i + length l) m.

Section splice.
Context {A : Type}.
Implicit Types (m l : list A) (i j : nat).

Lemma splice_nil m i : splice m i [] = m.
Proof. unfold splice. simpl. rewrite Nat.add_0_r. apply take_drop. Qed.

Lemma splice_whole m l : length l = length m -> splice m 0 l = l.
Proof. intros H. unfold splice. rewrite drop_ge by (simpl; lia). by rewrite app_nil_r. Qed.

Lemma splice_length m i l :
  (i + length l <= length m)%nat -> length (splice m i l) = length m.
Proof. unfold splice. rewrite !length_app, length_take, length_drop. lia. Qed.

Lemma lookup_splice_in m i l j :
  (i + length l <= length m)%nat -> (i <= j < i + length l)%nat ->
  splice m i l !! j = l !! (j - i)%nat.
Proof.
  intros. unfold splice.
  rewrite lookup_app_r, length_take by (rewrite length_take; lia).
  rewrite lookup_app_l by lia. f_equal. lia.
Qed.

Lemma lookup_splice_out m i l j :
  (i + length l <= length m)%nat -> (j < i \/ i + length l <= j)%nat ->
  splice m i l !! j = m !! j.
Proof.
  intros Hl [Hj|Hj]; unfold splice.
  - rewrite lookup_app_l, lookup_take_lt by (try rewrite length_take; lia). done.
  - rewrite !lookup_app_r, lookup_drop by (rewrite !length_take; lia).
    f_equal. rewrite length_take. lia.
Qed.

Lemma splice_app l k r x : length k = length x -> splice (l ++ k ++ r) (length l) x = l ++ x ++ r.
Proof.
  intros Hk. unfold splice. rewrite take_app_length. do 2 f_equal.
  rewrite (app_assoc l), <- Hk, <- length_app. apply drop_app_length.
Qed.

(** One store followed by a splice to its right. *)
Lemma splice_cons m i x l :
  (i < length m)%nat -> splice (<[i := x]> m) (S i) l = splice m i (x :: l).
Proof.
  intros Hi. unfold splice.
  rewrite (take_S_r _ _ x) by (by apply list_lookup_insert_eq).
  rewrite take_insert_ge by lia. rewrite drop_insert_lt by lia.
  rewrite <- app_assoc. simpl. by rewrite Nat.add_succ_r.
Qed.

(** A splice followed by one store to its right. *)
Lemma splice_snoc m i x l :
  (i + length l < length m)%nat ->
  <[(i + length l)%nat := x]> (splice m i l) = splice m i (l ++ [x]).
Proof.
  intros Hi. apply list_eq. intros j.
  destruct (decide (j = i + length l)%nat) as [->|Hj].
  - rewrite list_lookup_insert_eq by (rewrite splice_length; lia).
    rewrite lookup_splice_in by (rewrite length_app; simpl; lia).
    rewrite lookup_app_r by lia. by replace (_ - _)%nat with O by lia.
  - rewrite list_lookup_insert_ne by lia.
    destruct (decide (i <= j < i + length l)%nat).
    + rewrite !lookup_splice_in by (try rewrite length_app; simpl; lia).
      rewrite lookup_app_l by lia. done.
    + rewrite !lookup_splice_out by (try rewrite length_app; simpl; lia). done.
Qed.
End splice.

Lemma size_union_le (X Y : gset Z) : (size (X ∪ Y) <= size X + size Y)%nat.
Proof.
  rewrite size_union_alt. assert (size (Y ∖ X) <= size Y)%nat by (apply subseteq_size; set_solver). lia.
Qed.

(** ** Automation *)

Create HintDb xv6.
Create Rewrite HintDb xv6.
#[export] Hint Resolve u32_bounds s32_bounds wp_ret wp_gets : xv6.
#[export] Hint Rewrite u32_idemp @length_insert @length_app @length_take @length_drop
  @length_replicate : xv6.

(** Case analysis on the condition of the first [if] or [match] of the goal,
    reflecting boolean comparisons on [Z] to propositions. *)
Ltac bsplit :=
  match goal with
  | |- context [Z.eqb ?a ?b] => destruct (Z.eqb_spec a b)
  | |- context [Z.ltb ?a ?b] => destruct (Z.ltb_spec a b)
  | |- context [Z.leb ?a ?b] => destruct (Z.leb_spec a b)
  end.

Ltac bsplit_in H :=
  match type of H with
  | context [Z.eqb ?a ?b] => destruct (Z.eqb_spec a b)
  | context [Z.ltb ?a ?b] => destruct (Z.ltb_spec a b)
  | context [Z.leb ?a ?b] => destruct (Z.leb_spec a b)
  end.

(** A decidable closed goal, by evaluation. *)
Ltac by_decide := refine (bool_decide_unpack _ _); vm_compute; exact I.

(** Step through a monadic program under [wp]. *)
Ltac wp_step :=
  match goal with
  | |- wp (bind _ _) _ _ => apply wp_bind
  | |- wp (ret _) _ _ => apply wp_ret
  | |- wp (gets _) _ _ => apply wp_gets
  | |- wp (modify _) _ _ => apply wp_modify
  end.
Ltac wp_steps := repeat wp_step.
