(* ===== verification/CStr.v ===== *)
(** * C strings and memory blocks

    The string routines of [user/ulib.c] and [kernel/string.c].

    A [char *] that is only read is the list of the bytes from the pointer to
    the end of its object, so [s++] is the tail of the list; a [char *] that is
    written is an object (the list of its bytes) and an offset.  A routine
    returns [None] when it loads or stores outside the object.  Bytes are
    integers in [0, 256). *)

From S2P Require Import Prelude.

(** The bytes of a C string literal, without its terminator. *)
Fixpoint chars (s : string) : list Z :=
  match s with
  | EmptyString => []
  | String a s' => Z.of_nat (Ascii.nat_of_ascii a) :: chars s'
  end.

Definition NUL : Z := 0.
Definition NL : Z := 10.
Definition COLON : Z := 58.
Definition SLASH : Z := 47.
Definition MINUS : Z := 45.

(** ** Reading strings *)

Fixpoint strlen (s : list Z) : option nat :=
  match s with
  | [] => None
  | c :: s' => if c =? 0 then Some O else S <$> strlen s'
  end.

Fixpoint strcmp (p q : list Z) : option Z :=
  match p, q with
  | a :: p', b :: q' =>
      if negb (a =? 0) && (a =? b) then strcmp p' q' else Some (a - b)
  | _, _ => None
  end.

Fixpoint strncmp (p q : list Z) (n : nat) : option Z :=
  match n with
  | O => Some 0
  | S n' =>
      match p, q with
      | a :: p', b :: q' =>
          if negb (a =? 0) && (a =? b) then strncmp p' q' n' else Some (a - b)
      | _, _ => None
      end
  end.

(** The offset of the first [c], or [None] for a null pointer. *)
Fixpoint strchr (s : list Z) (c : Z) : option (option nat) :=
  match s with
  | [] => None
  | x :: s' =>
      if x =? 0 then Some None
      else if x =? c then Some (Some O)
      else r ← strchr s' c; Some (fmap (M:=option) S r)
  end.

Fixpoint strspn (s1 s2 : list Z) : option nat :=
  match s1 with
  | [] => None
  | x :: s1' =>
      if x =? 0 then Some O
      else r ← strchr s2 x;
           match r with
           | Some _ => S <$> strspn s1' s2
           | None => Some O
           end
  end.

Fixpoint strcspn (s1 s2 : list Z) : option nat :=
  match s1 with
  | [] => None
  | x :: s1' =>
      if x =? 0 then Some O
      else r ← strchr s2 x;
           match r with
           | Some _ => Some O
           | None => S <$> strcspn s1' s2
           end
  end.

(** The inner loop of [strstr]: does [pattern] occur at the head of [str]? *)
Fixpoint strstr_here (str pattern : list Z) : option bool :=
  match str, pattern with
  | c :: str', q :: pattern' =>
      if negb (c =? 0) && negb (q =? 0) && (c =? q)
      then strstr_here str' pattern' else Some (q =? 0)
  | _, _ => None
  end.

Fixpoint strstr (str substr : list Z) : option (option nat) :=
  match str with
  | [] => None
  | c :: str' =>
      if c =? 0 then Some None
      else here ← strstr_here str substr;
           if here : bool then Some (Some O)
           else r ← strstr str' substr; Some (fmap (M:=option) S r)
  end.

Fixpoint atoi_loop (s : list Z) (n isnum : Z) : option Z :=
  match s with
  | [] => None
  | c :: s' =>
      if (48 <=? c) && (c <=? 57)
      then atoi_loop s' (s32 (s32 (n * 10) + c - 48)) 1
      else Some (if negb (isnum =? -1) then n else -1)
  end.

Definition atoi (s : list Z) : option Z := atoi_loop s 0 (-1).

Fixpoint memcmp (s1 s2 : list Z) (n : nat) : option Z :=
  match n with
  | O => Some 0
  | S n' =>
      match s1, s2 with
      | a :: s1', b :: s2' =>
          if negb (a =? b) then Some (a - b) else memcmp s1' s2' n'
      | _, _ => None
      end
  end.

(** ** Writing strings

    [d] is the object written and [i] the offset of the pointer in it; the
    source is another object. *)

Fixpoint strcpy (d : list Z) (i : nat) (t : list Z) : option (list Z) :=
  match t with
  | [] => None
  | c :: t' =>
      d' ← store d i c;
      if c =? 0 then Some d' else strcpy d' (S i) t'
  end.

Fixpoint zerofill (d : list Z) (i n : nat) : option (list Z) :=
  match n with
  | O => Some d
  | S n' => d' ← store d i 0; zerofill d' (S i) n'
  end.

Fixpoint strncpy (d : list Z) (i : nat) (t : list Z) (n : nat) : option (list Z) :=
  match n with
  | O => Some d
  | S n' =>
      match t with
      | [] => None
      | c :: t' =>
          d' ← store d i c;
          if c =? 0 then zerofill d' (S i) n' else strncpy d' (S i) t' n'
      end
  end.

(** The copy loop of [safestrcpy] with [k] more tests [--n > 0] to pass; it
    ends with the store [*s = 0]. *)
Fixpoint safestrcpy_loop (d : list Z) (i : nat) (t : list Z) (k : nat) : option (list Z) :=
  match k with
  | O => store d i 0
  | S k' =>
      match t with
      | [] => None
      | c :: t' =>
          d' ← store d i c;
          if c =? 0 then store d' (S i) 0 else safestrcpy_loop d' (S i) t' k'
      end
  end.

Definition safestrcpy (d : list Z) (i : nat) (t : list Z) (n : Z) : option (list Z) :=
  if n <=? 0 then Some d else safestrcpy_loop d i t (Z.to_nat (n - 1)).

Definition strcat (d : list Z) (i : nat) (src : list Z) : option (list Z) :=
  n ← strlen (drop i d);
  strcpy d (i + n) src.

(** The result is [None] for a null pointer, else the object written. *)
Definition substring (input : list Z) (offset len : Z) (dest : list Z)
    : option (option (list Z)) :=
  input_len ← strlen input;
  if Z.of_nat input_len <? s32 (offset + len) then Some None
  else if offset <? 0 then None
  else d ← strncpy dest 0 (drop (Z.to_nat offset) input) (Z.to_nat len); Some (Some d).

(** The swap loop of [strrev]; [j - i] halves the fuel needed, [length d] is
    enough. *)
Fixpoint strrev_loop (fuel : nat) (d : list Z) (i j : Z) : option (list Z) :=
  match fuel with
  | O => None
  | S fuel' =>
      if i <? j then
        a ← d !! Z.to_nat i;
        b ← d !! Z.to_nat j;
        d1 ← store d (Z.to_nat i) b;
        d2 ← store d1 (Z.to_nat j) a;
        strrev_loop fuel' d2 (i + 1) (j - 1)
      else Some d
  end.

Definition strrev (d : list Z) : option (list Z) :=
  len ← strlen d;
  strrev_loop (S (length d)) d 0 (Z.of_nat len - 1).

Definition itoa_digit (rem : Z) : Z := u8 (if 9 <? rem then rem - 10 + 97 else rem + 48).

(** The digit loop of [itoa]: [num / base] is C's division, which truncates.
    For a base of at least 2 the loop runs at most 32 times on an [int]. *)
Fixpoint itoa_loop (fuel : nat) (str : list Z) (i : nat) (num base : Z)
    : option (list Z * nat) :=
  match fuel with
  | O => None
  | S fuel' =>
      if num =? 0 then Some (str, i)
      else if base =? 0 then None
      else
        str' ← store str i (itoa_digit (Z.rem num base));
        itoa_loop fuel' str' (S i) (Z.quot num base) base
  end.

Definition itoa (num : Z) (str : list Z) (base : Z) : option (list Z) :=
  if num =? 0 then
    s1 ← store str 0 48;
    store s1 1 0
  else
    let neg := (num <? 0) && (base =? 10) in
    let num1 := if neg then s32 (- num) else num in
    '(s1, i) ← itoa_loop 33 str 0 num1 base;
    if neg : bool then
      s2 ← store s1 i MINUS;
      s3 ← store s2 (S i) 0;
      strrev s3
    else
      s3 ← store s1 i 0;
      strrev s3.

(** ** [strtok]

    [p] is the static pointer of [strtok], as an offset in the object [buf]
    ([None] is the null pointer) and [str] its argument.  The result is the
    object, the new static pointer and the offset of the token. *)
Definition strtok (buf : list Z) (p str : option nat) (delim : list Z)
    : option (list Z * option nat * option nat) :=
  match (match str with Some _ => str | None => p end) with
  | None => Some (buf, None, None)
  | Some p0 =>
      n ← strspn (drop p0 buf) delim;
      let s := (p0 + n)%nat in
      m ← strcspn (drop s buf) delim;
      let q := (s + m)%nat in
      if decide (q = s) then Some (buf, None, None)
      else
        c ← buf !! q;
        if c =? 0 then Some (buf, None, Some s)
        else buf' ← store buf q 0; Some (buf', Some (S q), Some s)
  end.

(** ** Kernel memory blocks

    Source and destination of [memmove] are offsets in one object, so that
    they may overlap. *)

(** [while(n-- > 0) *d++ = *s++], from offsets [d] and [s]. *)
Fixpoint copy_up (m : list Z) (d s n : nat) : option (list Z) :=
  match n with
  | O => Some m
  | S n' => c ← m !! s; m' ← store m d c; copy_up m' (S d) (S s) n'
  end.

(** [while(n-- > 0) *--d = *--s], from [d = d0 + n] and [s = s0 + n]. *)
Fixpoint copy_down (m : list Z) (d0 s0 n : nat) : option (list Z) :=
  match n with
  | O => Some m
  | S n' => c ← m !! (s0 + n')%nat; m' ← store m (d0 + n')%nat c; copy_down m' d0 s0 n'
  end.

Definition memmove (m : list Z) (d s n : nat) : option (list Z) :=
  if decide (s < d /\ d < s + n)%nat then copy_down m d s n else copy_up m d s n.

(** The [memmove] of [user/ulib.c] copies upwards in every case. *)
Definition umemmove (m : list Z) (d s : nat) (n : Z) : option (list Z) :=
  copy_up m d s (Z.to_nat n).

(** [stosb] and [stosl] store [cnt] bytes or little-endian words. *)
Fixpoint stosb (m : list Z) (d : nat) (c : Z) (cnt : nat) : option (list Z) :=
  match cnt with
  | O => Some m
  | S k => m' ← store m d (u8 c); stosb m' (S d) c k
  end.

Fixpoint stosl (m : list Z) (d : nat) (w : Z) (cnt : nat) : option (list Z) :=
  match cnt with
  | O => Some m
  | S k =>
      m0 ← store m d (u8 w);
      m1 ← store m0 (d + 1)%nat (u8 (Z.shiftr w 8));
      m2 ← store m1 (d + 2)%nat (u8 (Z.shiftr w 16));
      m3 ← store m2 (d + 3)%nat (u8 (Z.shiftr w 24));
      stosl m3 (d + 4)%nat w k
  end.

(** The kernel's [memset]; [addr] is the address of offset [d] of the object,
    which only decides between byte and word stores. *)
Definition memset (addr : Z) (m : list Z) (d : nat) (c : Z) (n : nat) : option (list Z) :=
  if (Z.rem (s32 addr) 4 =? 0) && (Z.of_nat n mod 4 =? 0) then
    let c' := Z.land c 255 in
    stosl m d (Z.lor (Z.lor (Z.lor (u32 (Z.shiftl c' 24)) (Z.shiftl c' 16)) (Z.shiftl c' 8)) c')
      (n / 4)
  else stosb m d c n.

(** The user's [memset] always stores bytes. *)
Definition umemset (m : list Z) (d : nat) (c : Z) (n : nat) : option (list Z) :=
  stosb m d c n.

(** ** Strings in memory

    [nonul l]: [l] holds no terminator, so [l ++ 0 :: r] is an object holding
    the C string [l]. *)
Definition nonul (l : list Z) : Prop := Forall (fun c => c <> 0) l.

(** The C string that starts at offset [i] of an object. *)
Fixpoint upto_nul (s : list Z) : list Z :=
  match s with
  | [] => []
  | c :: s' => if c =? 0 then [] else c :: upto_nul s'
  end.

Definition cstr (m : list Z) (i : nat) : list Z := upto_nul (drop i m).

#[export] Instance nonul_dec l : Decision (nonul l).
Proof. unfold nonul. apply _. Defined.

Lemma nonul_app l k : nonul (l ++ k) <-> nonul l /\ nonul k.
Proof. apply Forall_app. Qed.

Lemma nonul_cons c l : nonul (c :: l) <-> c <> 0 /\ nonul l.
Proof. apply Forall_cons_iff. Qed.

Lemma nonul_zero l : nonul l -> 0 ∉ l.
Proof. induction 1; set_solver. Qed.

Lemma upto_nul_app l r : nonul l -> upto_nul (l ++ 0 :: r) = l.
Proof.
  induction 1 as [|c l Hc _ IH]; simpl; [done|].
  bsplit; [done|]. by rewrite IH.
Qed.

Lemma upto_nul_nonul s : nonul (upto_nul s).
Proof.
  induction s as [|c s IH]; simpl; [constructor|].
  bsplit; constructor; done.
Qed.

Lemma strlen_app l r : nonul l -> strlen (l ++ 0 :: r) = Some (length l).
Proof.
  induction 1 as [|c l Hc _ IH]; simpl; [done|].
  bsplit; [done|]. by rewrite IH.
Qed.

(** ** Comparison *)

Lemma strcmp_eq l k r r' :
  nonul l -> nonul k ->
  exists d, strcmp (l ++ 0 :: r) (k ++ 0 :: r') = Some d /\ (d = 0 <-> l = k).
Proof.
  intros Hl. revert k. induction Hl as [|a l Ha _ IH]; intros k Hk.
  - destruct Hk as [|b k Hb Hk]; simpl; eexists; (split; [done|]); split; (done || lia).
  - destruct Hk as [|b k Hb Hk]; simpl.
    + bsplit; [done|]. eexists; split; [done|]. split; (done || lia).
    + destruct (Z.eqb_spec a 0); [done|]. simpl. destruct (Z.eqb_spec a b) as [->|Hab].
      * destruct (IH k Hk) as (d & -> & Hd). exists d; split; [done|]. naive_solver.
      * eexists; split; [done|]. split; [lia|naive_solver].
Qed.

(** ** Spans *)

(** Whether a non-zero byte is one of the delimiters [D]. *)
Lemma strchr_mem D r c :
  nonul D -> c <> 0 ->
  exists o, strchr (D ++ 0 :: r) c = Some o /\ (is_Some o <-> c ∈ D).
Proof.
  intros HD Hc. induction HD as [|x D Hx _ IH]; simpl.
  - exists None. split; [done|]. split; [by intros []|set_solver].
  - bsplit; [done|]. bsplit.
    + subst. exists (Some O). split; [done|]. split; [set_solver|by eexists].
    + destruct IH as (o & -> & Ho). exists (S <$> o). split; [done|].
      rewrite fmap_is_Some, Ho. set_solver.
Qed.

Lemma strspn_app D r l c s :
  nonul D -> nonul l -> Forall (fun x => x ∈ D) l -> c ∉ D ->
  strspn (l ++ c :: s) (D ++ 0 :: r) = Some (length l).
Proof.
  intros HD Hl HlD Hc. induction Hl as [|x l Hx _ IH]; simpl.
  - bsplit; [done|]. destruct (strchr_mem D r c HD) as (o & -> & Ho); [done|].
    destruct o; [exfalso; apply Hc, Ho; by eexists|done].
  - bsplit; [done|]. apply Forall_cons_iff in HlD as [HxD HlD].
    destruct (strchr_mem D r x HD) as (o & -> & Ho); [done|].
    destruct o; simpl; [by rewrite IH|]. apply Ho in HxD as [? [=]].
Qed.

Lemma strcspn_app D r l c s :
  nonul D -> nonul l -> Forall (fun x => x ∉ D) l -> (c = 0 \/ c ∈ D) ->
  strcspn (l ++ c :: s) (D ++ 0 :: r) = Some (length l).
Proof.
  intros HD Hl HlD Hc. induction Hl as [|x l Hx _ IH]; simpl.
  - bsplit; [done|]. destruct (strchr_mem D r c HD) as (o & -> & Ho); [done|].
    destruct o; [done|]. destruct Hc as [|Hc]; [done|]. apply Ho in Hc as [? [=]].
  - bsplit; [done|]. apply Forall_cons_iff in HlD as [HxD HlD].
    destruct (strchr_mem D r x HD) as (o & -> & Ho); [done|].
    destruct o; simpl; [exfalso; apply HxD, Ho; by eexists|by rewrite IH].
Qed.

(** ** Tokens *)

Lemma strspn_tok D r seps tok s :
  nonul D -> nonul seps -> Forall (fun x => x ∈ D) seps ->
  tok <> [] -> Forall (fun x => x ∉ D) tok ->
  strspn (seps ++ tok ++ s) (D ++ 0 :: r) = Some (length seps).
Proof.
  intros HD Hs HsD Hne HtD. destruct tok as [|t tok]; [done|].
  apply strspn_app; try done. by apply Forall_cons_iff in HtD as [? _].
Qed.

(** One call of [strtok] at offset [length pre]: it skips the delimiters
    [seps], returns the token [tok] and overwrites the delimiter after it,
    unless the token ends the string. *)
Lemma strtok_tok D r pre seps tok d rest p str :
  nonul D -> nonul seps -> Forall (fun x => x ∈ D) seps ->
  tok <> [] -> nonul tok -> Forall (fun x => x ∉ D) tok -> (d = 0 \/ d ∈ D) ->
  (match str with Some _ => str | None => p end) = Some (length pre) ->
  strtok (pre ++ seps ++ tok ++ d :: rest) p str (D ++ 0 :: r) =
  Some (pre ++ seps ++ tok ++ 0 :: rest,
        if d =? 0 then None else Some (S (length pre + length seps + length tok)),
        Some (length pre + length seps)%nat).
Proof.
  intros HD Hs HsD Hne Ht HtD Hd Hp. unfold strtok. rewrite Hp.
  rewrite drop_app_length, strspn_tok by done. simpl mbind.
  rewrite <- length_app.
  rewrite (app_assoc pre seps (tok ++ d :: rest)), drop_app_length.
  rewrite strcspn_app by done. simpl mbind.
  rewrite decide_False by (destruct tok; simpl; [done|lia]).
  rewrite (app_assoc (pre ++ seps)), <- length_app.
  rewrite lookup_mid. simpl mbind.
  bsplit; [by subst; rewrite <- !app_assoc|].
  rewrite store_app. simpl. by rewrite <- !app_assoc.
Qed.

(** Only delimiters are left. *)
Lemma strtok_end D r pre seps rest p str :
  nonul D -> nonul seps -> Forall (fun x => x ∈ D) seps ->
  (match str with Some _ => str | None => p end) = Some (length pre) ->
  strtok (pre ++ seps ++ 0 :: rest) p str (D ++ 0 :: r) =
  Some (pre ++ seps ++ 0 :: rest, None, None).
Proof.
  intros HD Hs HsD Hp. unfold strtok. rewrite Hp.
  rewrite drop_app_length.
  rewrite (strspn_app D r seps 0 rest) by
    (try done; by apply nonul_zero).
  simpl mbind. rewrite <- length_app, (app_assoc pre), drop_app_length.
  simpl. by rewrite decide_True by lia.
Qed.

(** ** Copies *)

Lemma strcpy_app d i t r :
  nonul t -> (i + length t < length d)%nat ->
  strcpy d i (t ++ 0 :: r) = Some (splice d i (t ++ [0])).
Proof.
  intros Ht. revert d i. induction Ht as [|c t Hc _ IH]; intros d i Hi; simpl in *.
  - rewrite store_in by lia. simpl. rewrite <- splice_cons, splice_nil by lia. done.
  - rewrite store_in by lia. simpl. bsplit; [done|].
    rewrite IH, splice_cons by (rewrite ?length_insert; lia). done.
Qed.

Lemma zerofill_splice d i n :
  (i + n <= length d)%nat -> zerofill d i n = Some (splice d i (replicate n 0)).
Proof.
  revert d i. induction n as [|n IH]; intros d i Hi; simpl.
  - by rewrite splice_nil.
  - rewrite store_in by lia. simpl.
    rewrite IH, splice_cons by (rewrite ?length_insert; lia). done.
Qed.

(** [strncpy] writes exactly [n] bytes: the first [n] of the string padded
    with zeros.  Nothing outside them changes, and the copy is not terminated
    when the string has [n] bytes or more. *)
Theorem strncpy_pads d i t r n :
  nonul t -> (i + n <= length d)%nat ->
  strncpy d i (t ++ 0 :: r) n = Some (splice d i (take n (t ++ replicate n 0))).
Proof.
  intros Ht. revert d i n. induction Ht as [|c t Hc Ht IH]; intros d i n Hi.
  - destruct n as [|n]; simpl; [by rewrite splice_nil|].
    rewrite store_in by lia. simpl.
    rewrite zerofill_splice, splice_cons by (rewrite ?length_insert; lia).
    by rewrite take_replicate, Nat.min_id.
  - destruct n as [|n]; simpl; [by rewrite splice_nil|].
    rewrite store_in by lia. simpl. bsplit; [done|].
    rewrite IH, splice_cons by (rewrite ?length_insert; lia).
    change (0 :: replicate n 0) with (replicate (S n) 0).
    do 3 f_equal. rewrite !take_app, !take_replicate. do 2 f_equal. lia.
Qed.

Lemma safestrcpy_loop_spec d i t r k :
  nonul t -> (i + k < length d)%nat ->
  exists z, safestrcpy_loop d i (t ++ 0 :: r) k = Some (splice d i (take k t ++ replicate z 0)) /\
    (1 <= z)%nat /\ (length (take k t) + z <= S k)%nat.
Proof.
  intros Ht. revert d i k. induction Ht as [|c t Hc Ht IH]; intros d i k Hi.
  - destruct k as [|k]; simpl; rewrite store_in by lia; simpl.
    + exists 1%nat. simpl. rewrite <- splice_cons, splice_nil by lia. auto with lia.
    + rewrite store_in by (rewrite length_insert; lia).
      exists 2%nat. simpl. rewrite <- !splice_cons, splice_nil by (rewrite ?length_insert; lia).
      split; [done|lia].
  - destruct k as [|k]; simpl; rewrite store_in by lia; simpl.
    + exists 1%nat. simpl. rewrite <- splice_cons, splice_nil by lia. auto with lia.
    + bsplit; [done|].
      destruct (IH (<[i:=c]> d) (S i) k) as (z & -> & ? & ?); [rewrite length_insert; lia|].
      exists z. rewrite splice_cons by lia. split; [done|]. simpl. lia.
Qed.

Lemma cstr_splice d i l z :
  nonul l -> (1 <= z)%nat -> (i + length l + z <= length d)%nat ->
  cstr (splice d i (l ++ replicate z 0)) i = l.
Proof.
  intros Hl Hz Hi. unfold cstr, splice.
  rewrite drop_app_length' by (rewrite length_take; lia).
  rewrite <- app_assoc. destruct z as [|z]; [lia|]. simpl. by apply upto_nul_app.
Qed.

Lemma strncpy_pads_witness :
  strncpy (replicate 6 7) 1 (chars "ab" ++ [0]) 4 = Some [7; 97; 98; 0; 0; 7].
Proof. rewrite (strncpy_pads (replicate 6 7) 1 (chars "ab") [] 4); [reflexivity|by_decide|simpl; lia]. Defined.

(** [safestrcpy] always leaves a terminated string: the first [n - 1]
    bytes of the source, and it writes nothing outside the [n] bytes of the
    destination. *)
Theorem safestrcpy_terminates d i t r n :
  nonul t -> 0 < n -> Z.of_nat i + n <= Z.of_nat (length d) ->
  exists d', safestrcpy d i (t ++ 0 :: r) n = Some d' /\
    cstr d' i = take (Z.to_nat (n - 1)) t /\
    length d' = length d /\
    forall j, (j < i)%nat \/ Z.of_nat i + n <= Z.of_nat j -> d' !! j = d !! j.
Proof.
  intros Ht Hn Hi. unfold safestrcpy. bsplit; [lia|].
  destruct (safestrcpy_loop_spec d i t r (Z.to_nat (n - 1))) as (z & -> & ? & Hz); [done|lia|].
  eexists; split; [done|].
  assert (i + length (take (Z.to_nat (n - 1)) t ++ replicate z 0%Z) <= length d)%nat.
  { rewrite length_app, length_replicate. lia. }
  split; [|split].
  - apply cstr_splice; [by apply Forall_take|done|]. lia.
  - by apply splice_length.
  - intros j Hj. apply lookup_splice_out; [done|].
    rewrite length_app, length_replicate in *. lia.
Qed.

Lemma safestrcpy_terminates_witness :
  exists d', safestrcpy (replicate 6 7) 1 (chars "abcd" ++ [0]) 3 = Some d' /\ cstr d' 1 = chars "ab".
Proof.
  destruct (safestrcpy_terminates (replicate 6 7) 1 (chars "abcd") [] 3) as (d' & E & H & _);
    [by_decide|lia|simpl; lia|]. exists d'. split; [exact E|exact H].
Defined.

Lemma strcat_app pre a z src r :
  nonul a -> nonul src -> (length src <= length z)%nat ->
  strcat (pre ++ a ++ 0 :: z) (length pre) (src ++ 0 :: r) =
  Some (pre ++ a ++ src ++ 0 :: drop (length src) z).
Proof.
  intros Ha Hs Hz. unfold strcat. rewrite drop_app_length, strlen_app by done. simpl.
  rewrite strcpy_app by (try done; rewrite !length_app; simpl; lia).
  f_equal. rewrite <- length_app, (app_assoc pre a (0 :: z)).
  rewrite <- (take_drop (length src) z) at 1.
  rewrite (app_comm_cons (take _ _)).
  rewrite splice_app by (rewrite length_app; simpl; rewrite length_take; lia).
  by rewrite <- !app_assoc.
Qed.

(** ** Block moves *)

(** The [n] bytes at offset [s]. *)
Definition slice (m : list Z) (s n : nat) : list Z := take n (drop s m).

Lemma slice_length m s n : (s + n <= length m)%nat -> length (slice m s n) = n.
Proof. unfold slice. rewrite length_take, length_drop. lia. Qed.

Lemma lookup_slice m s n j : (j < n)%nat -> slice m s n !! j = m !! (s + j)%nat.
Proof. intros. unfold slice. by rewrite lookup_take_lt, lookup_drop. Qed.

Lemma slice_S m s n c :
  m !! s = Some c -> slice m s (S n) = c :: slice m (S s) n.
Proof. intros Hc. unfold slice. by rewrite (drop_S _ _ _ Hc). Qed.

Lemma slice_S_r m s n c :
  m !! (s + n)%nat = Some c -> slice m s (S n) = slice m s n ++ [c].
Proof. intros Hc. unfold slice. apply take_S_r. by rewrite lookup_drop. Qed.

(** Copying upwards is correct when the destination does not start inside
    the source. *)
Lemma copy_up_splice m d s n :
  (d <= s \/ s + n <= d)%nat -> (d + n <= length m)%nat -> (s + n <= length m)%nat ->
  copy_up m d s n = Some (splice m d (slice m s n)).
Proof.
  revert m d s. induction n as [|n IH]; intros m d s Hov Hd Hs; simpl.
  - unfold slice. by rewrite take_0, splice_nil.
  - destruct (lookup_lt_is_Some_2 m s) as [c Hc]; [lia|]. rewrite Hc. simpl.
    rewrite store_in by lia. simpl.
    rewrite IH by (rewrite ?length_insert; lia).
    rewrite splice_cons by lia. rewrite (slice_S _ _ _ _ Hc). do 3 f_equal.
    unfold slice. destruct (decide (d < S s)%nat).
    + by rewrite drop_insert_lt by lia.
    + rewrite drop_insert_ge by lia. rewrite take_insert_ge by lia. done.
Qed.

(** Copying downwards is correct when it does not end below the source. *)
Lemma copy_down_splice m d s n :
  (s <= d)%nat -> (d + n <= length m)%nat ->
  copy_down m d s n = Some (splice m d (slice m s n)).
Proof.
  revert m. induction n as [|n IH]; intros m Hov Hd; simpl.
  - unfold slice. by rewrite take_0, splice_nil.
  - destruct (lookup_lt_is_Some_2 m (s + n)) as [c Hc]; [lia|]. rewrite Hc. simpl.
    rewrite store_in by lia. simpl. rewrite IH by (rewrite ?length_insert; lia).
    rewrite (slice_S_r _ _ _ _ Hc). f_equal.
    assert (slice (<[(d + n)%nat:=c]> m) s n = slice m s n) as ->.
    { apply list_eq. intros j. destruct (decide (j < n)%nat).
      - rewrite !lookup_slice, list_lookup_insert_ne by lia. done.
      - rewrite !lookup_ge_None_2; [done| |]; rewrite slice_length; rewrite ?length_insert; lia. }
    assert (length (slice m s n) = n) as Hlen by (apply slice_length; lia).
    rewrite <- (splice_snoc m d c) by lia. rewrite Hlen.
    apply list_eq. intros j.
    destruct (decide (d <= j < d + n)%nat).
    + rewrite list_lookup_insert_ne by lia.
      rewrite !lookup_splice_in by (rewrite ?length_insert, ?Hlen; lia). done.
    + rewrite lookup_splice_out by (rewrite ?length_insert, ?Hlen; lia).
      destruct (decide (j = d + n)%nat) as [->|].
      * rewrite !list_lookup_insert_eq by (rewrite ?splice_length, ?Hlen; lia). done.
      * rewrite !list_lookup_insert_ne by lia.
        rewrite lookup_splice_out by (rewrite ?Hlen; lia). done.
Qed.

(** The kernel's [memmove] copies the [n] source bytes as they were before
    the call, whatever the overlap of source and destination, and changes
    nothing else. *)
Theorem memmove_overlap m d s n :
  (d + n <= length m)%nat -> (s + n <= length m)%nat ->
  memmove m d s n = Some (splice m d (slice m s n)).
Proof.
  intros Hd Hs. unfold memmove. case_decide.
  - apply copy_down_splice; lia.
  - destruct n as [|n]; [simpl; unfold slice; by rewrite take_0, splice_nil|].
    apply copy_up_splice; lia.
Qed.

Lemma memmove_overlap_witness :
  memmove [1; 2; 3; 4; 5] 1 0 4 = Some [1; 1; 2; 3; 4].
Proof. rewrite (memmove_overlap [1; 2; 3; 4; 5] 1 0 4); [reflexivity|simpl; lia|simpl; lia]. Defined.

(** The [memmove] of the user library loses bytes when the destination starts
    inside the source. *)
Example umemmove_overlap : umemmove [1; 2; 3; 4; 5] 1 0 4 = Some [1; 1; 1; 1; 1].
Proof. reflexivity. Qed.

(** ** Fills *)

Lemma stosb_splice m d c n :
  (d + n <= length m)%nat -> stosb m d c n = Some (splice m d (replicate n (u8 c))).
Proof.
  revert m d. induction n as [|n IH]; intros m d Hd; simpl; [by rewrite splice_nil|].
  rewrite store_in by lia. simpl.
  rewrite IH, splice_cons by (rewrite ?length_insert; lia). done.
Qed.

Lemma stosl_splice m d w c n :
  u8 w = c -> u8 (Z.shiftr w 8) = c -> u8 (Z.shiftr w 16) = c -> u8 (Z.shiftr w 24) = c ->
  (d + 4 * n <= length m)%nat ->
  stosl m d w n = Some (splice m d (replicate (4 * n) c)).
Proof.
  intros H0 H1 H2 H3. revert m d. induction n as [|n IH]; intros m d Hd; [by simpl; rewrite splice_nil|].
  cbn [stosl]. rewrite H0, H1, H2, H3.
  do 4 (rewrite store_in by (rewrite ?length_insert; lia); simpl mbind).
  rewrite IH by (rewrite !length_insert; lia).
  replace (4 * S n)%nat with (S (S (S (S (4 * n))))) by lia.
  cbn [replicate]. rewrite <- !splice_cons by (rewrite ?length_insert; lia).
  do 2 f_equal; lia || (rewrite !(Nat.add_comm d); done).
Qed.

Lemma u8_word c k :
  0 <= c < 256 -> (k = 0 \/ k = 8 \/ k = 16 \/ k = 24) ->
  u8 (Z.shiftr (Z.lor (Z.lor (Z.lor (u32 (Z.shiftl c 24)) (Z.shiftl c 16)) (Z.shiftl c 8)) c) k) = c.
Proof.
  intros Hc Hk. unfold u8, u32. change 256 with (2 ^ 8).
  apply Z.bits_inj'. intros i Hi.
  destruct (Z.lt_ge_cases i 8).
  - rewrite Z.mod_pow2_bits_low, Z.shiftr_spec, !Z.lor_spec by lia.
    rewrite Z.mod_pow2_bits_low, !Z.shiftl_spec by lia.
    destruct Hk as [->|[->|[->| ->]]];
    repeat match goal with
    | |- context [Z.testbit c ?j] =>
        lazymatch j with i => fail | _ => idtac end;
        first [ rewrite (Z.testbit_neg_r c j) by lia
              | replace j with i by lia
              | assert (Z.testbit c j = false) as -> by
                  (apply Z.bits_above_log2; [lia|];
                   destruct (Z.eq_dec c 0) as [->|]; [simpl; lia|];
                   apply Z.log2_lt_pow2; [lia|];
                   apply Z.lt_le_trans with (2 ^ 8); [lia|apply Z.pow_le_mono_r; lia]) ]
    end; simpl; rewrite ?orb_false_r; done.
  - rewrite Z.mod_pow2_bits_high by lia. symmetry.
    apply Z.bits_above_log2; [lia|].
    destruct (Z.eq_dec c 0) as [->|]; [simpl; lia|].
    apply Z.log2_lt_pow2; [lia|].
    apply Z.lt_le_trans with (2 ^ 8); [lia|apply Z.pow_le_mono_r; lia].
Qed.

(** The kernel's [memset] stores the low byte of [c] in each of the [n]
    bytes, on the path that stores words as on the one that stores bytes. *)
Theorem memset_fills addr m d c n :
  (d + n <= length m)%nat ->
  memset addr m d c n = Some (splice m d (replicate n (u8 c))).
Proof.
  intros Hd. unfold memset. destruct (_ && _) eqn:E; [|by apply stosb_splice].
  apply andb_prop in E as [_ Hn]. apply Z.eqb_eq in Hn.
  assert (Z.land c 255 = u8 c) as ->.
  { change 255 with (Z.ones 8). rewrite Z.land_ones by lia. done. }
  assert (0 <= u8 c < 256) by (unfold u8; apply Z.mod_pos_bound; lia).
  assert (n = 4 * (n / 4))%nat as Hn4.
  { change 4 with (Z.of_nat 4) in Hn. rewrite <- Nat2Z.inj_mod in Hn.
    pose proof (Nat.div_mod_eq n 4). lia. }
  rewrite (stosl_splice _ _ _ (u8 c)); [by rewrite <- Hn4| | | | |lia];
    [|apply u8_word; lia..].
  rewrite <- (u8_word (u8 c) 0) at 5 by lia. by rewrite Z.shiftr_0_r.
Qed.

Lemma memset_fills_witness :
  memset 4096 [9; 9; 9; 9; 9] 0 511 4 = Some [255; 255; 255; 255; 9].
Proof. rewrite (memset_fills 4096 [9; 9; 9; 9; 9] 0 511 4); [reflexivity|simpl; lia]. Defined.

(** ** Decimal numbers *)

Definition digit (d : Z) : Prop := 0 <= d < 10.

(** The value of a list of digits, most significant first, after [n]. *)
Definition decimal (n : Z) (ds : list Z) : Z := fold_left (fun n d => n * 10 + d) ds n.

Definition ascii_digits (ds : list Z) : list Z := map (fun d => d + 48) ds.

Lemma decimal_le n ds : 0 <= n -> Forall digit ds -> n <= decimal n ds.
Proof.
  intros Hn Hd. revert n Hn. induction Hd as [|d ds Hd _ IH]; intros n Hn; [apply Z.le_refl|].
  unfold digit in Hd. change (decimal n (d :: ds)) with (decimal (n * 10 + d) ds).
  specialize (IH (n * 10 + d)). lia.
Qed.

Lemma atoi_loop_digits ds c r n i :
  Forall digit ds -> 0 <= n -> decimal n ds < 2 ^ 31 -> ~ (48 <= c <= 57) ->
  atoi_loop (ascii_digits ds ++ c :: r) n i =
  Some (if bool_decide (ds = []) && (i =? -1) then -1 else decimal n ds).
Proof.
  intros Hd. revert n i. induction Hd as [|d ds Hd Hds IH]; intros n i Hn Hv Hc; simpl.
  - destruct (Z.leb_spec 48 c), (Z.leb_spec c 57); simpl; try lia; by destruct (i =? -1).
  - unfold digit in Hd. destruct (Z.leb_spec 48 (d + 48)), (Z.leb_spec (d + 48) 57); try lia.
    change (decimal n (d :: ds)) with (decimal (n * 10 + d) ds) in *. simpl.
    pose proof (decimal_le (n * 10 + d) ds ltac:(lia) Hds).
    rewrite (s32_small (n * 10)), s32_small by lia.
    replace (n * 10 + (d + 48) - 48) with (n * 10 + d) by lia.
    rewrite IH by (try done; lia). by rewrite andb_false_r.
Qed.

Lemma atoi_digits ds c r :
  ds <> [] -> Forall digit ds -> decimal 0 ds < 2 ^ 31 -> ~ (48 <= c <= 57) ->
  atoi (ascii_digits ds ++ c :: r) = Some (decimal 0 ds).
Proof.
  intros Hne Hd Hv Hc. unfold atoi. rewrite atoi_loop_digits by (done || lia).
  by rewrite bool_decide_false.
Qed.

(** [atoi] is -1 exactly when the string does not start with a digit. *)
Lemma atoi_not_number c r : ~ (48 <= c <= 57) -> atoi (c :: r) = Some (-1).
Proof. intros Hc. apply (atoi_loop_digits [] c r 0 (-1)); [constructor|lia|simpl; lia|done]. Qed.

(** The digits of a positive number, least significant first, as [itoa]
    produces them. *)
Fixpoint rdigits (fuel : nat) (n : Z) : list Z :=
  match fuel with
  | O => []
  | S k => if n =? 0 then [] else Z.rem n 10 :: rdigits k (Z.quot n 10)
  end.

Lemma rdigits_digit fuel n : 0 <= n -> Forall digit (rdigits fuel n).
Proof.
  revert n. induction fuel as [|k IH]; intros n Hn; simpl; [constructor|].
  bsplit; constructor.
  - unfold digit. rewrite Z.rem_mod_nonneg by lia. apply Z.mod_pos_bound. lia.
  - apply IH. apply Z.quot_pos; lia.
Qed.

Lemma decimal_app n ds es : decimal n (ds ++ es) = decimal (decimal n ds) es.
Proof. apply fold_left_app. Qed.

Lemma quot10_lt n k : 0 < n < 2 ^ Z.of_nat (S k) -> 0 <= Z.quot n 10 < 2 ^ Z.of_nat k.
Proof.
  intros Hn. rewrite Z.quot_div_nonneg by lia.
  rewrite Nat2Z.inj_succ, Z.pow_succ_r in Hn by lia.
  split; [apply Z.div_pos; lia|]. apply Z.div_lt_upper_bound; lia.
Qed.

Lemma rdigits_value fuel n : 0 <= n < 2 ^ Z.of_nat fuel -> decimal 0 (rev (rdigits fuel n)) = n.
Proof.
  revert n. induction fuel as [|k IH]; intros n Hn; simpl.
  - change (2 ^ Z.of_nat 0) with 1 in Hn. unfold decimal. simpl. lia.
  - bsplit; [by subst|]. simpl. rewrite decimal_app, IH by (apply quot10_lt; lia).
    unfold decimal. simpl. pose proof (Z.quot_rem n 10). lia.
Qed.

Lemma rdigits_nonempty k n : n <> 0 -> rdigits (S k) n <> [].
Proof. intros. simpl. by bsplit. Qed.

Lemma rdigits_length fuel n k : 0 <= n < 10 ^ Z.of_nat k -> (length (rdigits fuel n) <= k)%nat.
Proof.
  revert n k. induction fuel as [|f IH]; intros n k Hn; simpl; [lia|].
  bsplit; simpl; [lia|].
  destruct k as [|k]; [change (10 ^ Z.of_nat 0) with 1 in Hn; lia|].
  apply le_n_S, IH. rewrite Nat2Z.inj_succ, Z.pow_succ_r in Hn by lia.
  rewrite Z.quot_div_nonneg by lia.
  split; [apply Z.div_pos; lia|]. apply Z.div_lt_upper_bound; lia.
Qed.

Lemma itoa_loop_digits fuel str i n :
  0 <= n < 2 ^ Z.of_nat fuel -> (i + length (rdigits fuel n) <= length str)%nat ->
  itoa_loop (S fuel) str i n 10 =
  Some (splice str i (ascii_digits (rdigits fuel n)), (i + length (rdigits fuel n))%nat).
Proof.
  revert str i n. induction fuel as [|f IH]; intros str i n Hn Hi.
  - change (2 ^ Z.of_nat 0) with 1 in Hn. assert (n = 0) as -> by lia. simpl.
    by rewrite splice_nil, Nat.add_0_r.
  - remember (S f) as g. cbn [itoa_loop]. subst g. simpl in *.
    bsplit; [simpl; by rewrite splice_nil, Nat.add_0_r|]. simpl in *.
    rewrite store_in by lia. simpl.
    rewrite (IH (<[i := itoa_digit (Z.rem n 10)]> str) (S i)); cycle 1.
    { apply quot10_lt. lia. }
    { rewrite length_insert. lia. }
    rewrite splice_cons by lia. rewrite Nat.add_succ_r. do 4 f_equal.
    unfold itoa_digit, u8. rewrite Z.rem_mod_nonneg by lia.
    pose proof (Z.mod_pos_bound n 10 ltac:(lia)). bsplit; [lia|]. by rewrite Z.mod_small by lia.
Qed.

Lemma strrev_loop_rev fuel a mid b :
  (length mid < fuel)%nat ->
  strrev_loop fuel (a ++ mid ++ b) (Z.of_nat (length a)) (Z.of_nat (length a + length mid) - 1) =
  Some (a ++ rev mid ++ b).
Proof.
  revert a mid b. induction fuel as [|k IH]; intros a mid b Hf; [lia|]. cbn [strrev_loop].
  destruct mid as [|x mid]; [simpl; bsplit; [lia|done]|].
  destruct mid as [|y mid'] using rev_ind; [simpl; bsplit; [lia|done]|]. clear IHmid'.
  rewrite length_cons, length_app in *. simpl length in *. bsplit; [|lia].
  assert (Z.to_nat (Z.of_nat (length a + S (length mid' + 1)) - 1) = length (a ++ x :: mid')) as ->
    by (rewrite length_app; simpl; lia).
  replace (a ++ (x :: mid' ++ [y]) ++ b) with (a ++ x :: mid' ++ y :: b)
    by (simpl; by rewrite <- app_assoc).
  rewrite Nat2Z.id, lookup_mid. simpl mbind.
  replace (a ++ x :: mid' ++ y :: b) with ((a ++ x :: mid') ++ y :: b) by (by rewrite <- app_assoc).
  rewrite lookup_mid. simpl mbind.
  rewrite <- (app_assoc a (x :: mid') (y :: b)), <- app_comm_cons, store_app. simpl mbind.
  rewrite app_comm_cons, app_assoc.
  replace (length (a ++ x :: mid')) with (length (a ++ y :: mid')) by (rewrite !length_app; done).
  rewrite store_app. simpl mbind.
  specialize (IH (a ++ [y]) mid' (x :: b)).
  rewrite length_app in IH. simpl length in IH.
  replace ((a ++ y :: mid') ++ x :: b) with ((a ++ [y]) ++ mid' ++ x :: b)
    by (rewrite <- !app_assoc; done).
  replace (Z.of_nat (length a) + 1) with (Z.of_nat (length a + 1)) by lia.
  replace (Z.of_nat (length a + S (length mid' + 1)) - 1 - 1)
    with (Z.of_nat (length a + 1 + length mid') - 1) by lia.
  rewrite IH by lia. f_equal. simpl. rewrite rev_app_distr. simpl.
  by rewrite <- !app_assoc.
Qed.

Lemma strrev_app l r : nonul l -> strrev (l ++ 0 :: r) = Some (rev l ++ 0 :: r).
Proof.
  intros Hl. unfold strrev. rewrite strlen_app, obind_some by done.
  apply (strrev_loop_rev (S (length (l ++ 0 :: r))) [] l (0 :: r)). rewrite length_app. lia.
Qed.

Lemma ascii_digits_nonul ds : Forall digit ds -> nonul (ascii_digits ds).
Proof. induction 1 as [|d ds Hd _ IH]; simpl; constructor; [unfold digit in Hd; lia|done]. Qed.

(** [itoa] in base 10 on a positive number: its digits, terminated. *)
Lemma itoa_positive n str :
  0 < n < 2 ^ 31 -> (S (length (rdigits 32 n)) <= length str)%nat ->
  itoa n str 10 = Some (splice str 0 (ascii_digits (rev (rdigits 32 n)) ++ [0])).
Proof.
  intros Hn Hl. unfold itoa.
  rewrite (proj2 (Z.eqb_neq n 0)), (proj2 (Z.ltb_ge n 0)) by lia. cbn [andb].
  rewrite (itoa_loop_digits 32 str 0 n), obind_some by (change (Z.of_nat 32) with 32; lia).
  set (ds := rdigits 32 n) in *.
  assert (length (ascii_digits ds) = length ds) as Hlen by apply length_map.
  rewrite store_in, obind_some by (rewrite splice_length; lia).
  rewrite <- Hlen.
  rewrite splice_snoc by lia. unfold splice at 1. simpl.
  rewrite <- app_assoc. simpl.
  rewrite strrev_app by (apply ascii_digits_nonul, rdigits_digit; lia).
  unfold splice, ascii_digits. simpl. rewrite map_rev, <- app_assoc.
  rewrite !length_app, length_rev, length_map. done.
Qed.

Lemma two_digits : (2 ^ 31 < 10 ^ 10)%Z.
Proof. lia. Qed.

Lemma itoa_total n str :
  0 <= n < 2 ^ 31 -> (11 <= length str)%nat ->
  exists ds, itoa n str 10 = Some (splice str 0 (ascii_digits ds ++ [0])) /\
    ds <> [] /\ Forall digit ds /\ decimal 0 ds = n /\ (length ds <= 10)%nat.
Proof.
  intros Hn Hl. destruct (Z.eq_dec n 0) as [->|Hne].
  - exists [0]. split.
    { unfold itoa. simpl. rewrite store_in by lia. simpl. rewrite store_in by (rewrite length_insert; lia).
      rewrite <- !splice_cons, splice_nil by (rewrite ?length_insert; lia). done. }
    repeat split; try done; [|simpl; lia]. constructor; [unfold digit; lia|constructor].
  - assert (length (rdigits 32 n) <= 10)%nat.
    { apply rdigits_length. pose proof two_digits. change (Z.of_nat 10) with 10. lia. }
    exists (rev (rdigits 32 n)). split; [apply itoa_positive; lia|].
    split; [|split; [|split]].
    + intros E. apply (f_equal (@length Z)) in E. rewrite length_rev in E.
      by apply (rdigits_nonempty 31 n) in Hne; destruct (rdigits 32 n).
    + apply Forall_rev, rdigits_digit. lia.
    + apply rdigits_value. change (Z.of_nat 32) with 32. lia.
    + by rewrite length_rev.
Qed.

(** [atoi] reads back what [itoa] writes in base 10, for every
    non-negative [int], in a buffer of at least 11 bytes. *)
Theorem atoi_itoa n str :
  0 <= n < 2 ^ 31 -> (11 <= length str)%nat ->
  exists str', itoa n str 10 = Some str' /\ atoi str' = Some n.
Proof.
  intros Hn Hl. destruct (itoa_total n str Hn Hl) as (ds & -> & Hne & Hd & Hv & _).
  eexists; split; [done|]. unfold splice. simpl. rewrite <- app_assoc. simpl.
  rewrite atoi_digits by (done || lia). by rewrite Hv.
Qed.

Lemma atoi_itoa_witness :
  exists str', itoa 1000 (replicate 11 7) 10 = Some str' /\ atoi str' = Some 1000.
Proof. apply (atoi_itoa 1000 (replicate 11 7)); [lia|simpl; lia]. Defined.

(** ** Search *)

Lemma strstr_here_prefix l k r r' :
  nonul l -> nonul k ->
  exists b, strstr_here (l ++ 0 :: r) (k ++ 0 :: r') = Some b /\ (b = true <-> k `prefix_of` l).
Proof.
  intros Hl Hk. revert l Hl. induction Hk as [|q k Hq _ IH]; intros l Hl.
  - destruct l as [|c l]; simpl; [|rewrite andb_false_r]; exists true; split; try done;
      split; try done; intros _; apply prefix_nil.
  - destruct Hl as [|c l Hc Hl]; simpl.
    + exists false. rewrite (proj2 (Z.eqb_neq q 0)) by done. split; [done|].
      split; [done|]. by intros []%prefix_nil_not.
    + rewrite (proj2 (Z.eqb_neq c 0)), (proj2 (Z.eqb_neq q 0)) by done. simpl.
      destruct (Z.eqb_spec c q) as [->|Hne].
      * destruct (IH l Hl) as (b & -> & Hb). exists b. split; [done|].
        rewrite Hb. split; [apply prefix_cons|apply prefix_cons_inv_2].
      * exists false. split; [done|]. split; [done|].
        intros Hp. by apply prefix_cons_inv_1 in Hp.
Qed.

(** [strstr] on a non-empty pattern returns the offset of the leftmost
    occurrence, and a null pointer exactly when there is none. *)
Theorem strstr_leftmost l k r r' :
  nonul l -> nonul k -> k <> [] ->
  exists o, strstr (l ++ 0 :: r) (k ++ 0 :: r') = Some o /\
    match o with
    | Some i => k `prefix_of` drop i l /\ forall j, (j < i)%nat -> ~ k `prefix_of` drop j l
    | None => forall j, ~ k `prefix_of` drop j l
    end.
Proof.
  intros Hl Hk Hne. induction Hl as [|c l Hc Hl IH].
  - exists None. split; [done|]. intros j. rewrite drop_nil. intros Hp%prefix_nil_inv. done.
  - cbn [app strstr]. rewrite (proj2 (Z.eqb_neq c 0)) by done.
    destruct (strstr_here_prefix (c :: l) k r r') as (b & E & Hb); [by constructor|done|].
    cbn [app] in E. rewrite E, obind_some. destruct b.
    + exists (Some O). split; [done|]. split; [by apply Hb|lia].
    + destruct IH as (o & -> & Ho). rewrite obind_some.
      assert (~ k `prefix_of` c :: l) by (rewrite <- Hb; done).
      eexists; split; [done|]. destruct o as [i|]; simpl.
      * destruct Ho as [Hi Hj]. split; [done|]. intros [|j] ?; [done|]. apply Hj. lia.
      * intros [|j]; [done|]. apply Ho.
Qed.

Lemma strstr_leftmost_witness :
  exists o, strstr (chars "root:x:0" ++ [0]) (chars "x:" ++ [0]) = Some o /\ o = Some 5%nat.
Proof.
  destruct (strstr_leftmost (chars "root:x:0") (chars "x:") [] []) as (o & E & _); [by_decide|by_decide|done|].
  exists o. split; [exact E|]. vm_compute in E. congruence.
Defined.

(** ** Tokens of a whole string *)

(** The tokens [strtok] returns when it is called until it returns null. *)
Fixpoint tokens (fuel : nat) (buf : list Z) (p str : option nat) (delim : list Z)
    : option (list (list Z)) :=
  match fuel with
  | O => None
  | S fuel' =>
      '(buf', p', t) ← strtok buf p str delim;
      match t with
      | None => Some []
      | Some i => rest ← tokens fuel' buf' p' None delim; Some (cstr buf' i :: rest)
      end
  end.

(** The maximal runs of bytes that are not in [D]; [cur] is the run read so
    far. *)
Fixpoint words (D cur l : list Z) : list (list Z) :=
  match l with
  | [] => if decide (cur = []) then [] else [cur]
  | c :: l' =>
      if decide (c ∈ D) then
        if decide (cur = []) then words D [] l' else cur :: words D [] l'
      else words D (cur ++ [c]) l'
  end.

Lemma words_seps D seps l : Forall (fun x => x ∈ D) seps -> words D [] (seps ++ l) = words D [] l.
Proof. induction 1 as [|x seps Hx _ IH]; simpl; [done|]. by rewrite decide_True. Qed.

Lemma words_tok D cur tok l :
  Forall (fun x => x ∉ D) tok -> words D cur (tok ++ l) = words D (cur ++ tok) l.
Proof.
  intros Ht. revert cur. induction Ht as [|x tok Hx _ IH]; intros cur; simpl; [by rewrite app_nil_r|].
  rewrite decide_False, IH by done. by rewrite <- app_assoc.
Qed.

Lemma split_run (P : Z -> Prop) `{!forall x, Decision (P x)} l :
  exists a b, l = a ++ b /\ Forall P a /\ match b with [] => True | c :: _ => ~ P c end.
Proof.
  induction l as [|x l (a & b & -> & Ha & Hb)]; [by exists [], []|].
  destruct (decide (P x)).
  - exists (x :: a), b. repeat split; [by constructor|done].
  - by exists [], (x :: a ++ b).
Qed.

Lemma tokens_words D r fuel pre l rest p str :
  nonul D -> nonul l -> (length l < fuel)%nat ->
  (match str with Some _ => str | None => p end) = Some (length pre) ->
  tokens fuel (pre ++ l ++ 0 :: rest) p str (D ++ 0 :: r) = Some (words D [] l).
Proof.
  intros HD. revert pre l p str. induction fuel as [|fuel IH]; intros pre l p str Hl Hf Hp; [lia|].
  destruct (split_run (fun x => x ∈ D) l) as (seps & l1 & -> & Hs & Hl1).
  destruct (split_run (fun x => x ∉ D) l1) as (tok & l2 & -> & Ht & Hl2).
  rewrite !nonul_app in Hl. destruct Hl as (Hns & Hnt & Hn2).
  rewrite words_seps, words_tok by done. rewrite !length_app in Hf. simpl app at 3.
  cbn [tokens]. destruct (decide (tok = [])) as [->|Htne].
  { destruct l2 as [|c l2]; [|by destruct Hl2].
    rewrite !app_nil_r, strtok_end by done. done. }
  rewrite <- !app_assoc. destruct l2 as [|d l2].
  - rewrite (app_nil_l (0 :: rest)), strtok_tok by auto. simpl Z.eqb. cbv iota. rewrite obind_some.
    destruct fuel as [|fuel]; [destruct tok; simpl in *; [done|lia]|].
    cbn [tokens]. unfold strtok at 1. rewrite !obind_some. simpl. rewrite decide_False by done.
    unfold cstr. rewrite <- length_app, (app_assoc pre), drop_app_length. by rewrite upto_nul_app.
  - assert (d ∈ D) by (destruct (decide (d ∈ D)); [done|by destruct Hl2]).
    rewrite nonul_cons in Hn2. destruct Hn2 as [Hd Hn2].
    rewrite <- app_comm_cons, strtok_tok by auto.
    rewrite (proj2 (Z.eqb_neq d 0)) by done. rewrite obind_some. simpl in Hf.
    specialize (IH (pre ++ seps ++ tok ++ [0]) l2
      (Some (S (length pre + length seps + length tok))) None Hn2).
    rewrite <- !app_assoc in IH. simpl in IH. rewrite IH; [|lia|].
    2: { rewrite !length_app. simpl. f_equal. lia. }
    simpl. rewrite decide_True by done. rewrite decide_False by done.
    unfold cstr. rewrite <- length_app, (app_assoc pre), drop_app_length. by rewrite upto_nul_app.
Qed.

(** Calling [strtok] on a string until it returns null yields exactly the
    maximal runs of bytes that are not delimiters, in order; the calls never
    leave the buffer and end after at most one call per byte and one more. *)
Theorem strtok_splits D r l rest :
  nonul D -> nonul l ->
  tokens (S (length l)) (l ++ 0 :: rest) None (Some O) (D ++ 0 :: r) = Some (words D [] l).
Proof. intros HD Hl. apply (tokens_words D r _ [] l); [done|done|lia|done]. Qed.

Lemma strtok_splits_witness :
  tokens 9 (chars "a::bc:d;" ++ [0]) None (Some O) (chars ":;" ++ [0]) =
  Some [chars "a"; chars "bc"; chars "d"].
Proof.
  apply (strtok_splits (chars ":;") [] (chars "a::bc:d;") []); by_decide.
Defined.
