(* ===== verification/Perm.v ===== *)
(** * Modes and permission checks

    The mode bits of an inode and everything that reads or changes them:
    [int_to_bin_digit] ([kernel/exec.c], [user/ls.c]), the checks that
    [sys_open], [sys_mknod] and [sys_chdir] make ([kernel/sysfile.c]), the mode
    arithmetic of [chmod] ([user/chmod.c]) and the printer of [ls -l]
    ([user/ls.c]).

    An inode's [mode], [uid] and [gid] are [uint]s; a process's [uid] and [euid]
    are [int]s, converted to [uint] when they are compared with them. *)

From S2P Require Import Prelude CStr.

(** ** Digits of a mode *)

(** [out[i] = (in & mask) ? 1 : 0; in <<= 1], [n] times. *)
Fixpoint int_to_bin_loop (n : nat) (inp mask : Z) : list Z :=
  match n with
  | O => []
  | S n' =>
      (if negb (Z.land inp mask =? 0) then 1 else 0)
        :: int_to_bin_loop n' (u32 (Z.shiftl inp 1)) mask
  end.

Definition int_to_bin_digit (inp : Z) (count : nat) : list Z :=
  int_to_bin_loop count inp (u32 (Z.shiftl 1 (Z.of_nat count - 1))).

(** [if (!bits[k])], on the array that [int_to_bin_digit] filled. *)
Definition unset (bits : list Z) (k : nat) : bool :=
  match bits !! k with Some b => b =? 0 | None => true end.

Definition USER_R_BIT : nat := 1.
Definition USER_W_BIT : nat := 2.
Definition USER_X_BIT : nat := 3.
Definition GROUP_R_BIT : nat := 4.
Definition GROUP_W_BIT : nat := 5.
Definition GROUP_X_BIT : nat := 6.
Definition OTHER_R_BIT : nat := 7.
Definition OTHER_W_BIT : nat := 8.
Definition OTHER_X_BIT : nat := 9.

Definition O_RDONLY : Z := 0.
Definition O_WRONLY : Z := 1.
Definition O_RDWR : Z := 2.
Definition O_CREATE : Z := 512.

(** ** The check of [sys_open]

    The value of [invalid] when [sys_open] tests it, for an inode with [mode]
    and owner [ip_uid], a process with [euid] and the argument [omode]. *)
Definition open_invalid (omode mode ip_uid euid : Z) : bool :=
  let bits := int_to_bin_digit mode 10 in
  let fileowner := ip_uid =? u32 euid in
  let groupmember := false in
  let other := negb fileowner && negb groupmember in
  let invalid :=
    if omode =? O_RDWR then
      if fileowner then unset bits USER_R_BIT || unset bits USER_W_BIT
      else if groupmember then unset bits GROUP_R_BIT || unset bits GROUP_W_BIT
      else if other then unset bits OTHER_R_BIT || unset bits GROUP_W_BIT
      else false
    else if omode =? O_RDONLY then
      if fileowner then unset bits USER_R_BIT
      else if groupmember then unset bits GROUP_R_BIT
      else if other then unset bits OTHER_R_BIT
      else false
    else if omode =? O_WRONLY then
      if fileowner then unset bits USER_W_BIT
      else if groupmember then unset bits GROUP_W_BIT
      else if other then unset bits OTHER_W_BIT
      else false
    else false in
  if euid =? 0 then false else invalid.

(** [f->readable] and [f->writable] of the file that [sys_open] returns. *)
Definition open_readable (omode : Z) : bool := Z.land omode O_WRONLY =? 0.

Definition open_writable (omode : Z) : bool :=
  negb (Z.land omode O_WRONLY =? 0) || negb (Z.land omode O_RDWR =? 0).

(** ** The checks of [sys_mknod] and [sys_chdir] *)

Definition mknod_invalid (mode ip_uid euid : Z) : bool :=
  let bits := int_to_bin_digit mode 10 in
  let fileowner := ip_uid =? u32 euid in
  let groupmember := false in
  let other := negb fileowner && negb groupmember in
  let invalid :=
    if fileowner then unset bits USER_W_BIT
    else if groupmember then unset bits GROUP_W_BIT
    else if other then unset bits OTHER_W_BIT
    else false in
  if euid =? 0 then false else invalid.

Definition chdir_invalid (mode ip_uid euid : Z) : bool :=
  let bits := int_to_bin_digit mode 10 in
  let fileowner := ip_uid =? u32 euid in
  let groupmember := false in
  let other := negb fileowner && negb groupmember in
  let invalid :=
    if fileowner then unset bits USER_X_BIT
    else if groupmember then unset bits GROUP_X_BIT
    else if other then unset bits OTHER_X_BIT
    else false in
  if euid =? 0 then false else invalid.

(** ** [chmod] *)

(** [pow] recurses on [y / 2]; a [uint] is halved at most 32 times. *)
Fixpoint pow_fuel (fuel : nat) (x y : Z) : Z :=
  match fuel with
  | O => 1
  | S k =>
      if y =? 0 then 1
      else if y mod 2 =? 0 then s32 (pow_fuel k x (y / 2) * pow_fuel k x (y / 2))
      else s32 (s32 (x * pow_fuel k x (y / 2)) * pow_fuel k x (y / 2))
  end.

Definition pow (x y : Z) : Z := pow_fuel 33 x y.

(** [while(oct != 0) { dec += (oct%10) * pow(8,i); ++i; oct /= 10; }]; an
    [int] has at most 10 decimal digits. *)
Fixpoint octtodec_loop (fuel : nat) (oct dec i : Z) : Z :=
  match fuel with
  | O => dec
  | S k =>
      if oct =? 0 then dec
      else octtodec_loop k (Z.quot oct 10) (s32 (dec + s32 (Z.rem oct 10 * pow 8 i))) (i + 1)
  end.

Definition octtodec (oct : Z) : Z := octtodec_loop 11 oct 0 0.

Definition ADD_ALL_READ : Z := 292.
Definition ADD_ALL_WRITE : Z := 146.
Definition ADD_ALL_EXEC : Z := 73.
Definition ADD_U_READ : Z := 256.
Definition ADD_U_WRITE : Z := 128.
Definition ADD_U_EXEC : Z := 64.
Definition ADD_G_READ : Z := 32.
Definition ADD_G_WRITE : Z := 16.
Definition ADD_G_EXEC : Z := 8.
Definition ADD_O_READ : Z := 4.
Definition ADD_O_WRITE : Z := 2.
Definition ADD_O_EXEC : Z := 1.
Definition REM_ALL_READ : Z := 219.
Definition REM_ALL_WRITE : Z := 365.
Definition REM_ALL_EXEC : Z := 438.
Definition REM_U_READ : Z := 255.
Definition REM_U_WRITE : Z := 383.
Definition REM_U_EXEC : Z := 447.
Definition REM_G_READ : Z := 479.
Definition REM_G_WRITE : Z := 495.
Definition REM_G_EXEC : Z := 503.
Definition REM_O_READ : Z := 507.
Definition REM_O_WRITE : Z := 509.
Definition REM_O_EXEC : Z := 510.

Definition ch_a : Z := 97.
Definition ch_u : Z := 117.
Definition ch_g : Z := 103.
Definition ch_o : Z := 111.
Definition ch_r : Z := 114.
Definition ch_w : Z := 119.
Definition ch_x : Z := 120.
Definition ch_plus : Z := 43.
Definition ch_minus : Z := 45.

(** The new mode for a symbolic argument such as [g+w]. *)
Definition chmod_symbolic (whom symbol perm mode : Z) : Z :=
  if symbol =? ch_plus then
    if whom =? ch_a then
      if perm =? ch_r then Z.lor mode ADD_ALL_READ
      else if perm =? ch_w then Z.lor mode ADD_ALL_WRITE
      else if perm =? ch_x then Z.lor mode ADD_ALL_EXEC else mode
    else if whom =? ch_u then
      if perm =? ch_r then Z.lor mode ADD_U_READ
      else if perm =? ch_w then Z.lor mode ADD_U_WRITE
      else if perm =? ch_x then Z.lor mode ADD_U_EXEC else mode
    else if whom =? ch_g then
      if perm =? ch_r then Z.lor mode ADD_G_READ
      else if perm =? ch_w then Z.lor mode ADD_G_WRITE
      else if perm =? ch_x then Z.lor mode ADD_G_EXEC else mode
    else if whom =? ch_o then
      if perm =? ch_r then Z.lor mode ADD_O_READ
      else if perm =? ch_w then Z.lor mode ADD_O_WRITE
      else if perm =? ch_x then Z.lor mode ADD_O_EXEC else mode
    else mode
  else if symbol =? ch_minus then
    if whom =? ch_a then
      if perm =? ch_r then Z.land mode REM_ALL_READ
      else if perm =? ch_w then Z.land mode REM_ALL_WRITE
      else if perm =? ch_x then Z.land mode REM_ALL_EXEC else mode
    else if whom =? ch_u then
      if perm =? ch_r then Z.land mode REM_U_READ
      else if perm =? ch_w then Z.land mode REM_U_WRITE
      else if perm =? ch_x then Z.land mode REM_U_EXEC else mode
    else if whom =? ch_g then
      if perm =? ch_r then Z.land mode REM_G_READ
      else if perm =? ch_w then Z.land mode REM_G_WRITE
      else if perm =? ch_x then Z.land mode REM_G_EXEC else mode
    else if whom =? ch_o then
      if perm =? ch_r then Z.land mode REM_O_READ
      else if perm =? ch_w then Z.land mode REM_O_WRITE
      else if perm =? ch_x then Z.land mode REM_O_EXEC else mode
    else mode
  else mode.

(** ** [ls -l] *)

(** The characters that [printperm] prints. *)
Definition printperm (mode : Z) (dir : bool) : list Z :=
  let bits := int_to_bin_digit mode 10 in
  let ch k c := if unset bits k then ch_minus else c in
  [ if dir then 100 else ch_minus;
    ch 1%nat ch_r; ch 2%nat ch_w; ch 3%nat ch_x;
    ch 4%nat ch_r; ch 5%nat ch_w; ch 6%nat ch_x;
    ch 7%nat ch_r; ch 8%nat ch_w; ch 9%nat ch_x;
    32 ].

(** ** What the bits of a mode mean *)

Inductive who : Type := User | Group | Other.
Inductive access : Type := Read | Write | Exec.

#[export] Instance who_eq_dec : EqDecision who.
Proof. solve_decision. Defined.
#[export] Instance access_eq_dec : EqDecision access.
Proof. solve_decision. Defined.

(** The position of a permission in a mode: [rwxrwxrwx] from bit 8 down. *)
Definition bitpos (w : who) (a : access) : Z :=
  3 * (match w with User => 2 | Group => 1 | Other => 0 end) +
  (match a with Read => 2 | Write => 1 | Exec => 0 end).

Definition allows (mode : Z) (w : who) (a : access) : bool := Z.testbit mode (bitpos w a).

(** The class the checks put a process in: the kernel never tests group
    membership. *)
Definition class_of (ip_uid euid : Z) : who := if ip_uid =? u32 euid then User else Other.

Lemma bitpos_range w a : 0 <= bitpos w a < 9.
Proof. destruct w, a; unfold bitpos; lia. Qed.

Lemma bitpos_inj w a w' a' : bitpos w a = bitpos w' a' -> w = w' /\ a = a'.
Proof. destruct w, a, w', a'; unfold bitpos; intros; (lia || done). Qed.

Lemma bitpos_surj i : 0 <= i < 9 -> exists w a, i = bitpos w a.
Proof.
  intros Hi. unfold bitpos.
  assert (i = 0 \/ i = 1 \/ i = 2 \/ i = 3 \/ i = 4 \/ i = 5 \/ i = 6 \/ i = 7 \/ i = 8)
    as Hcases by lia.
  repeat destruct Hcases as [->|Hcases]; [..|subst i];
    first [ by exists Other, Exec | by exists Other, Write | by exists Other, Read
          | by exists Group, Exec | by exists Group, Write | by exists Group, Read
          | by exists User, Exec | by exists User, Write | by exists User, Read ].
Qed.

(** ** Digits *)

Lemma int_to_bin_loop_lookup n inp k j :
  0 <= k < 32 -> (j < n)%nat -> Z.of_nat j <= k ->
  int_to_bin_loop n inp (2 ^ k) !! j = Some (if Z.testbit inp (k - Z.of_nat j) then 1 else 0).
Proof.
  intros Hk. revert inp j. induction n as [|n IH]; intros inp j Hj Hjk; [lia|].
  destruct j as [|j]; simpl.
  - rewrite land_pow2_testbit by lia. rewrite Z.sub_0_r. by destruct (Z.testbit inp k).
  - rewrite IH by lia. unfold u32. rewrite Z.mod_pow2_bits_low, Z.shiftl_spec by lia.
    by replace (k - Z.of_nat j - 1) with (k - Z.of_nat (S j)) by lia.
Qed.

(** [int_to_bin_digit] writes the [count] low bits of its argument, most
    significant first, for every width up to that of a [uint]. *)
Theorem int_to_bin_digit_bits inp count j :
  (count <= 32)%nat -> (j < count)%nat ->
  int_to_bin_digit inp count !! j =
  Some (if Z.testbit inp (Z.of_nat count - 1 - Z.of_nat j) then 1 else 0).
Proof.
  intros Hc Hj. unfold int_to_bin_digit.
  assert (u32 (Z.shiftl 1 (Z.of_nat count - 1)) = 2 ^ (Z.of_nat count - 1)) as ->.
  { rewrite Z.shiftl_1_l. apply u32_small.
    split; [apply Z.pow_nonneg; lia|apply Z.pow_lt_mono_r; lia]. }
  apply int_to_bin_loop_lookup; lia.
Qed.

Lemma int_to_bin_digit_bits_witness :
  int_to_bin_digit 420 10 !! 1%nat = Some 1 /\ int_to_bin_digit 420 10 !! 3%nat = Some 0.
Proof.
  split; [rewrite (int_to_bin_digit_bits 420 10 1)|rewrite (int_to_bin_digit_bits 420 10 3)];
    (reflexivity || lia).
Defined.

Lemma unset_bit mode k : (k < 10)%nat ->
  unset (int_to_bin_digit mode 10) k = negb (Z.testbit mode (9 - Z.of_nat k)).
Proof.
  intros Hk. unfold unset, int_to_bin_digit.
  change (u32 (Z.shiftl 1 (Z.of_nat 10 - 1))) with (2 ^ 9).
  rewrite int_to_bin_loop_lookup by lia. by destruct (Z.testbit _ _).
Qed.

(** The index in the array of bits of each permission. *)
Definition bit_index (w : who) (a : access) : nat := Z.to_nat (9 - bitpos w a).

Lemma unset_allows mode w a :
  unset (int_to_bin_digit mode 10) (bit_index w a) = negb (allows mode w a).
Proof.
  pose proof (bitpos_range w a). unfold bit_index, allows. rewrite unset_bit by lia.
  do 2 f_equal. lia.
Qed.

Ltac unset_bits :=
  change USER_R_BIT with (bit_index User Read); change USER_W_BIT with (bit_index User Write);
  change USER_X_BIT with (bit_index User Exec); change GROUP_R_BIT with (bit_index Group Read);
  change GROUP_W_BIT with (bit_index Group Write); change GROUP_X_BIT with (bit_index Group Exec);
  change OTHER_R_BIT with (bit_index Other Read); change OTHER_W_BIT with (bit_index Other Write);
  change OTHER_X_BIT with (bit_index Other Exec); rewrite ?unset_allows.

Lemma orb_negb_false a b : negb a || negb b = false <-> a = true /\ b = true.
Proof. destruct a, b; simpl; intuition discriminate. Qed.

(** ** The policy of [sys_open] *)

(** The documented policy: the owner of an inode has the rights of the user
    class, a process with the inode's group in its list those of the group
    class, another process those of the other class; root reads and writes
    every file. *)
Definition documented_class (ip_uid ip_gid euid : Z) (gids : list Z) : who :=
  if ip_uid =? u32 euid then User else if existsb (fun g => ip_gid =? u32 g) gids then Group else Other.

Definition granted (omode mode ip_uid ip_gid euid : Z) (gids : list Z) : Prop :=
  euid = 0 \/
  let w := documented_class ip_uid ip_gid euid gids in
  (open_readable omode = true -> allows mode w Read = true) /\
  (open_writable omode = true -> allows mode w Write = true).

(** C13. The check of [sys_open] on an existing inode is the documented policy of
    owner, group and others for root, for the owner, and for processes outside
    the file's group that open for reading only or writing only: they pass
    exactly when their class has every right that the returned file will have.
    (The other two cases, a member of the group and a stranger that opens for
    both, the code decides differently: [open_group_ignored],
    [open_rdwr_other].) *)
Theorem open_check_policy omode mode ip_uid ip_gid euid gids :
  omode = O_RDONLY \/ omode = O_WRONLY \/ omode = O_RDWR ->
  euid = 0 \/ documented_class ip_uid ip_gid euid gids = User \/
    (documented_class ip_uid ip_gid euid gids = Other /\ omode <> O_RDWR) ->
  open_invalid omode mode ip_uid euid = false <-> granted omode mode ip_uid ip_gid euid gids.
Proof.
  intros Ho Hc. unfold open_invalid, granted, documented_class in *. destruct (Z.eqb_spec euid 0) as [->|He]; [tauto|].
  destruct Hc as [Hc|Hc]; [done|]. unset_bits.
  destruct Ho as [->|[->| ->]]; cbn [Z.eqb Pos.eqb O_RDONLY O_WRONLY O_RDWR]; destruct (ip_uid =? u32 euid); try destruct (existsb _ gids);
    try (exfalso; naive_solver); simpl; rewrite ?negb_false_iff, ?orb_negb_false; intuition (discriminate || auto).
Qed.

(** The owner of a file with mode 0640 writes it; a user outside its group
    does not read it. *)
Lemma open_check_policy_witness :
  open_invalid O_RDWR 416 1000 100 = true /\ open_invalid O_RDONLY 416 1000 1001 <> false /\ open_invalid O_RDWR 416 1000 1000 = false.
Proof.
  split; [reflexivity|]. split.
  - rewrite (open_check_policy O_RDONLY 416 1000 100 1001 [50; 51]); [|left; reflexivity|right; right; split; [reflexivity|discriminate]].
    intros [H|[H _]]; [discriminate|]. discriminate (H eq_refl).
  - apply (open_check_policy O_RDWR 416 1000 100 1000 []); [right; right; reflexivity|right; left; reflexivity|].
    right. split; intros _; reflexivity.
Defined.

(** A member of the file's group is refused the rights of the group: with mode
    0640 a member may read, and the check denies it. *)
Example open_group_ignored :
  granted O_RDONLY 416 1000 100 1001 [100] /\ open_invalid O_RDONLY 416 1000 1001 = true.
Proof. split; [|reflexivity]. right. split; intros H; [reflexivity|discriminate H]. Qed.

(** For both reading and writing, a process that is neither root nor the
    owner is let in by the read bit of the others and the write bit of the
    group: the write bit of the others is not looked at. *)
Theorem open_rdwr_other mode ip_uid euid :
  euid <> 0 -> ip_uid <> u32 euid ->
  open_invalid O_RDWR mode ip_uid euid = false <->
    allows mode Other Read = true /\ allows mode Group Write = true.
Proof.
  intros He Hu. unfold open_invalid.
  rewrite (proj2 (Z.eqb_neq euid 0)), (proj2 (Z.eqb_neq ip_uid (u32 euid))) by done.
  unset_bits. simpl. apply orb_negb_false.
Qed.

(** With mode 0664 a stranger opens another user's file for writing; with
    mode 0606, which grants it, the stranger is refused. *)
Lemma open_rdwr_other_witness :
  open_invalid O_RDWR 436 1000 1001 = false /\ allows 436 Other Write = false /\
  open_invalid O_RDWR 390 1000 1001 <> false /\ allows 390 Other Write = true.
Proof.
  assert (1000 <> u32 1001) by (vm_compute; lia).
  split; [|split; [reflexivity|split; [|reflexivity]]].
  - apply (open_rdwr_other 436 1000 1001); [lia|done|split; reflexivity].
  - rewrite (open_rdwr_other 390 1000 1001) by (lia || done). intros [_ [=]].
Defined.

(** The check knows only the open modes 0, 1 and 2: any other value of
    [omode] passes it, whatever the mode, the owner and the caller are. *)
Theorem open_unchecked omode mode ip_uid euid :
  omode <> O_RDONLY -> omode <> O_WRONLY -> omode <> O_RDWR ->
  open_invalid omode mode ip_uid euid = false.
Proof.
  intros H0 H1 H2. unfold open_invalid.
  rewrite (proj2 (Z.eqb_neq _ _) H0), (proj2 (Z.eqb_neq _ _) H1), (proj2 (Z.eqb_neq _ _) H2).
  by destruct (euid =? 0).
Qed.

(** [omode = 6] makes a file readable and writable for everybody. *)
Lemma open_unchecked_witness :
  open_invalid 6 0 0 1000 = false /\ open_readable 6 = true /\ open_writable 6 = true.
Proof. split; [apply (open_unchecked 6 0 0 1000); discriminate|split; reflexivity]. Defined.

(** Root passes the checks of open, mknod and chdir, and for other
    processes mknod asks for the write bit and chdir for the execute bit of
    the process's class. *)
Theorem mknod_chdir_policy mode ip_uid euid omode :
  (mknod_invalid mode ip_uid euid = false <->
     euid = 0 \/ allows mode (class_of ip_uid euid) Write = true) /\
  (chdir_invalid mode ip_uid euid = false <->
     euid = 0 \/ allows mode (class_of ip_uid euid) Exec = true) /\
  open_invalid omode mode ip_uid 0 = false.
Proof.
  unfold mknod_invalid, chdir_invalid, class_of. unset_bits.
  split; [|split; [|done]]; destruct (Z.eqb_spec euid 0) as [->|He];
    try (split; [by left|done]);
    destruct (ip_uid =? u32 euid); simpl; rewrite negb_false_iff; intuition (discriminate || auto).
Qed.

(** ** [chmod] *)

(** The classes a letter of the argument stands for, and the permission. *)
Definition whom_selects (whom : Z) (w : who) : bool :=
  (whom =? ch_a) || (whom =? match w with User => ch_u | Group => ch_g | Other => ch_o end).

Definition perm_char (a : access) : Z :=
  match a with Read => ch_r | Write => ch_w | Exec => ch_x end.

Definition chmod_args_ok (whom symbol perm : Z) : bool :=
  ((whom =? ch_u) || (whom =? ch_g) || (whom =? ch_o) || (whom =? ch_a)) &&
  ((symbol =? ch_plus) || (symbol =? ch_minus)) &&
  ((perm =? ch_r) || (perm =? ch_w) || (perm =? ch_x)).

(** The 24 combinations of the arguments that [chmod] accepts. *)
Lemma chmod_args_cases (P : Z -> Z -> Z -> Prop) :
  (forall whom symbol perm, In whom [ch_u; ch_g; ch_o; ch_a] -> In symbol [ch_plus; ch_minus] ->
     In perm [ch_r; ch_w; ch_x] -> P whom symbol perm) ->
  forall whom symbol perm, chmod_args_ok whom symbol perm = true -> P whom symbol perm.
Proof.
  intros HP whom symbol perm. unfold chmod_args_ok.
  rewrite !andb_true_iff, !orb_true_iff, !Z.eqb_eq.
  intros [[Hw Hs] Hp]. apply HP; simpl; intuition auto.
Qed.

(** A symbolic [chmod] sets (with +) or clears (with -) exactly the
    permission named, for exactly the classes named, and leaves the other
    permission bits of the mode as they were. *)
Theorem chmod_symbolic_bits whom symbol perm mode w a :
  chmod_args_ok whom symbol perm = true ->
  allows (chmod_symbolic whom symbol perm mode) w a =
  if whom_selects whom w && (perm =? perm_char a) then symbol =? ch_plus else allows mode w a.
Proof.
  revert whom symbol perm. refine (chmod_args_cases _ _). intros whom symbol perm Hw Hs Hp.
  unfold allows. pose proof (bitpos_range w a).
  destruct Hw as [<-|[<-|[<-|[<-|[]]]]], Hs as [<-|[<-|[]]], Hp as [<-|[<-|[<-|[]]]];
    unfold chmod_symbolic; cbn -[Z.testbit bitpos];
    rewrite ?Z.lor_spec, ?Z.land_spec; destruct (Z.testbit mode (bitpos w a));
    destruct w, a; reflexivity.
Qed.

Lemma chmod_symbolic_bits_witness :
  allows (chmod_symbolic ch_g ch_plus ch_w 420) Group Write = true /\
  allows (chmod_symbolic ch_a ch_minus ch_r 420) Other Read = false /\
  allows (chmod_symbolic ch_a ch_minus ch_r 420) User Write = true.
Proof.
  rewrite (chmod_symbolic_bits ch_g ch_plus ch_w 420 Group Write) by reflexivity.
  rewrite (chmod_symbolic_bits ch_a ch_minus ch_r 420 Other Read) by reflexivity.
  rewrite (chmod_symbolic_bits ch_a ch_minus ch_r 420 User Write) by reflexivity.
  repeat split; reflexivity.
Defined.

(** The value of octal digits, most significant first. *)
Definition octal (n : Z) (ds : list Z) : Z := fold_left (fun n d => n * 8 + d) ds n.

Lemma pow8 i : 0 <= i <= 10 -> pow 8 i = 8 ^ i.
Proof.
  intros Hi. assert (i = 0 \/ i = 1 \/ i = 2 \/ i = 3 \/ i = 4 \/ i = 5 \/ i = 6 \/ i = 7 \/
    i = 8 \/ i = 9 \/ i = 10) as H by lia.
  repeat destruct H as [->|H]; [..|subst]; reflexivity.
Qed.

Lemma octal_snoc ds d : octal 0 (ds ++ [d]) = octal 0 ds * 8 + d.
Proof. unfold octal. by rewrite fold_left_app. Qed.

Lemma decimal_snoc ds d : decimal 0 (ds ++ [d]) = decimal 0 ds * 10 + d.
Proof. unfold decimal. by rewrite fold_left_app. Qed.

Lemma octal_bounds ds : Forall digit ds -> 0 <= octal 0 ds <= decimal 0 ds.
Proof.
  intros Hd. induction ds as [|d ds IH] using rev_ind; [unfold octal, decimal; simpl; lia|].
  apply Forall_app in Hd as [Hds Hd]. apply Forall_inv in Hd. unfold digit in Hd.
  rewrite octal_snoc, decimal_snoc. specialize (IH Hds). lia.
Qed.

Lemma octtodec_loop_octal fuel ds dec i :
  (length ds < fuel)%nat -> Forall digit ds -> 0 <= i -> i + Z.of_nat (length ds) <= 10 ->
  0 <= dec -> dec + 8 ^ i * octal 0 ds < 2 ^ 31 ->
  octtodec_loop fuel (decimal 0 ds) dec i = dec + 8 ^ i * octal 0 ds.
Proof.
  revert fuel dec i. induction ds as [|d ds IH] using rev_ind; intros fuel dec i Hf Hd Hi Hl Hdec Hov.
  - destruct fuel; [lia|]. unfold decimal, octal. simpl. lia.
  - apply Forall_app in Hd as [Hds Hd]. apply Forall_inv in Hd. unfold digit in Hd.
    rewrite length_app in *. simpl length in *. destruct fuel as [|fuel]; [lia|]. simpl.
    pose proof (octal_bounds ds Hds).
    rewrite octal_snoc, decimal_snoc in *.
    destruct (Z.eqb_spec (decimal 0 ds * 10 + d) 0) as [E|E].
    { assert (octal 0 ds = 0) as -> by lia. assert (d = 0) as -> by lia. lia. }
    rewrite Z.quot_div_nonneg, Z.rem_mod_nonneg by lia.
    rewrite Z.div_add_l, (Z.div_small d 10), Z.add_0_r by lia.
    assert ((decimal 0 ds * 10 + d) mod 10 = d) as ->
      by (rewrite Z.add_comm, Z.mod_add, Z.mod_small; lia).
    rewrite pow8 by lia. assert (0 < 8 ^ i) by (apply Z.pow_pos_nonneg; lia).
    rewrite (s32_small (d * 8 ^ i)), s32_small by nia.
    rewrite IH; rewrite ?Z.pow_add_r, ?Z.pow_1_r by lia; try done; try nia; lia.
Qed.

(** [chmod] reads a numeric mode in octal: the decimal number its digits
    spell for [atoi] becomes the number they spell in base 8, for every number
    of up to ten digits that an [int] holds. *)
Theorem octtodec_octal ds :
  Forall digit ds -> (length ds <= 10)%nat -> decimal 0 ds < 2 ^ 31 ->
  octtodec (decimal 0 ds) = octal 0 ds.
Proof.
  intros Hd Hl Hv. unfold octtodec. pose proof (octal_bounds ds Hd).
  rewrite octtodec_loop_octal; try done; rewrite ?Z.pow_0_r; lia.
Qed.

Lemma octtodec_octal_witness : octtodec 755 = 493.
Proof.
  apply (octtodec_octal [7; 5; 5]); [|simpl; lia|vm_compute; reflexivity].
  repeat (constructor; [unfold digit; lia|]). constructor.
Defined.

(** ** [ls -l] *)

Definition mark (b : bool) (c : Z) : Z := if negb b then ch_minus else c.

Lemma mark_inj c x y : c <> ch_minus -> mark x c = mark y c -> x = y.
Proof. unfold mark. intros Hc E. destruct x, y; simpl in E; congruence. Qed.

Lemma printperm_allows mode dir :
  printperm mode dir =
  [ if dir then 100 else ch_minus;
    mark (allows mode User Read) ch_r; mark (allows mode User Write) ch_w;
    mark (allows mode User Exec) ch_x;
    mark (allows mode Group Read) ch_r; mark (allows mode Group Write) ch_w;
    mark (allows mode Group Exec) ch_x;
    mark (allows mode Other Read) ch_r; mark (allows mode Other Write) ch_w;
    mark (allows mode Other Exec) ch_x; 32 ].
Proof. unfold printperm. rewrite !unset_bit by lia. reflexivity. Qed.

(** What [ls -l] prints tells two modes apart exactly when they differ in
    a permission bit. *)
Theorem printperm_faithful m1 m2 dir :
  printperm m1 dir = printperm m2 dir <-> forall w a, allows m1 w a = allows m2 w a.
Proof.
  rewrite !printperm_allows. split.
  - intros E. injection E as E1 E2 E3 E4 E5 E6 E7 E8 E9. intros w a.
    destruct w, a; (eapply mark_inj; [|eassumption]; done).
  - intros E. by rewrite !E.
Qed.
