(* ===== verification/USys.v ===== *)
(** * The system calls seen by user programs

    User programs reach the kernel through the stubs of [user/usys.S], and the
    heap through [malloc] of [user/umalloc.c].  [Syscalls] is the interface
    they are written against, for a type [W] of the world outside the program;
    [SyscallLaws] is what their proofs rely on.  [toy] is a small world that
    satisfies the laws, in which the programs can be run. *)

From S2P Require Import Prelude CStr.

Class Syscalls (W : Type) : Type := {
  u_open : list Z -> Z -> M W Z;
  (** the count returned and the bytes stored at the start of the buffer *)
  u_read : Z -> Z -> M W (Z * list Z);
  u_write : Z -> list Z -> M W Z;
  u_close : Z -> M W Z;
  u_printf : list Z -> M W unit;
  (** whether the pointer returned is not null *)
  u_malloc : Z -> M W bool
}.

(** [close], [printf] and [malloc] return: a descriptor that is not open is an
    error value of [close], and the laws are for programs that do not exhaust
    their heap. *)
Class SyscallLaws (W : Type) `{Syscalls W} : Prop := {
  close_returns fd w : exists r w', u_close fd w = Ret r w';
  printf_returns s w : exists w', u_printf s w = Ret tt w';
  malloc_returns n w : exists w', u_malloc n w = Ret true w'
}.

(** [opens_and_reads w path n data]: in the world [w], opening [path] for
    reading gives a descriptor, and reading [n] bytes from it gives [data]. *)
Definition opens_and_reads {W} `{Syscalls W} (w : W) (path : list Z) (n : Z) (data : list Z)
    : Prop :=
  exists fd w1 w2, 0 <= fd /\ u_open path 0 w = Ret fd w1 /\
    u_read fd n w1 = Ret (Z.of_nat (length data), data) w2.

(** ** A world with files in memory *)

Record toy : Type := {
  toy_files : gmap (list Z) (list Z);
  toy_fds : list (option (list Z * nat));
  toy_out : list Z
}.

Definition toy_open (path : list Z) (omode : Z) : M toy Z := fun w =>
  match toy_files w !! path with
  | None => Ret (-1) w
  | Some _ =>
      Ret (Z.of_nat (length (toy_fds w)))
        {| toy_files := toy_files w; toy_fds := toy_fds w ++ [Some (path, O)]; toy_out := toy_out w |}
  end.

Definition toy_read (fd n : Z) : M toy (Z * list Z) := fun w =>
  match toy_fds w !! Z.to_nat fd with
  | Some (Some (path, off)) =>
      let data := take (Z.to_nat n) (drop off (default [] (toy_files w !! path))) in
      Ret (Z.of_nat (length data), data)
        {| toy_files := toy_files w;
           toy_fds := <[Z.to_nat fd := Some (path, (off + length data)%nat)]> (toy_fds w);
           toy_out := toy_out w |}
  | _ => Ret (-1, []) w
  end.

Definition toy_write (fd : Z) (data : list Z) : M toy Z := fun w =>
  match toy_fds w !! Z.to_nat fd with
  | Some (Some (path, off)) =>
      let old := default [] (toy_files w !! path) in
      Ret (Z.of_nat (length data))
        {| toy_files := <[path := take off old ++ data ++ drop (off + length data) old]> (toy_files w);
           toy_fds := <[Z.to_nat fd := Some (path, (off + length data)%nat)]> (toy_fds w);
           toy_out := toy_out w |}
  | _ => Ret (-1) w
  end.

Definition toy_close (fd : Z) : M toy Z := fun w =>
  match toy_fds w !! Z.to_nat fd with
  | Some (Some _) =>
      Ret 0 {| toy_files := toy_files w; toy_fds := <[Z.to_nat fd := None]> (toy_fds w);
               toy_out := toy_out w |}
  | _ => Ret (-1) w
  end.

Definition toy_printf (s : list Z) : M toy unit := fun w =>
  Ret tt {| toy_files := toy_files w; toy_fds := toy_fds w; toy_out := toy_out w ++ s |}.

#[export] Instance toy_syscalls : Syscalls toy := {
  u_open := toy_open; u_read := toy_read; u_write := toy_write; u_close := toy_close;
  u_printf := toy_printf; u_malloc _ := ret true
}.

#[export] Instance toy_laws : SyscallLaws toy.
Proof.
  split; simpl.
  - intros fd w. unfold toy_close. destruct (toy_fds w !! Z.to_nat fd) as [[?|]|]; eauto.
  - intros s w. unfold toy_printf. eauto.
  - intros n w. unfold ret. eauto.
Qed.
