(* ===== verification/Auth.v ===== *)
(** * The user database

    [user/auth.c]: the routines that look users and groups up in /etc/passwd
    and /etc/group, and [uidtodir] of [user/getty.c].

    Every routine reads at most 2048 bytes of the file into a buffer on its
    stack, whose previous contents are the parameter [junk], and walks the
    tokens that [strtok] finds in it. *)

From Stdlib Require Import Sorted.
From S2P Require Import Prelude CStr USys.

Definition BUFSZ : nat := 2048.

(** A [uint] routine returns [NULL] (zero) for a file it cannot read. *)
Definition NULLu : Z := 0.
Definition minus1u : Z := 4294967295.

Definition etc_passwd : list Z := chars "/etc/passwd".
Definition etc_group : list Z := chars "/etc/group".

Definition delim_colon : list Z := [COLON; 0].
Definition delim_nl : list Z := [NL; 0].

Section Auth.
Context {W : Type} `{Syscalls W}.

(** [while(tok != NULL) { body; tok = strtok(NULL, ...); counter++ }]: the
    token after the field [nlfield] ends at a newline, the others at a
    colon, and the counter goes back to zero at [period].  [body] gets the
    counter, the buffer, the offset of the token and the local variables; it
    returns from the routine with [inr].  [fin] is the return after the
    loop.  Each iteration consumes a byte, so [S (length buf)] iterations
    are enough. *)
Fixpoint tok_loop {St A : Type} (fuel : nat) (nlfield period : Z)
    (body : Z -> list Z -> nat -> St -> M W (St + A)) (fin : St -> A)
    (buf : list Z) (p tok : option nat) (counter : Z) (st : St) : M W A :=
  match fuel with
  | O => halt Undefined
  | S fuel' =>
      match tok with
      | None => ret (fin st)
      | Some i =>
          let! r := body counter buf i st in
          match r with
          | inr a => ret a
          | inl st' =>
              let! t := lift (strtok buf p None
                                (if counter =? nlfield then delim_nl else delim_colon)) in
              let '(buf', p', tok') := t in
              let counter' := if counter + 1 =? period then 0 else counter + 1 in
              tok_loop fuel' nlfield period body fin buf' p' tok' counter' st'
          end
      end
  end.

(** Open and read the file, walk the tokens, close the descriptor.  A failed
    read returns without closing it. *)
Definition walk {St A : Type} (path : list Z) (cannot : list Z) (nlfield period : Z)
    (junk : list Z) (null : A)
    (body : Z -> list Z -> nat -> St -> M W (St + A)) (fin : St -> A) (st : St) : M W A :=
  let! fd := u_open path 0 in
  if fd <? 0 then u_printf (cannot ++ [NL]) then! ret null
  else
    let! nd := u_read fd (Z.of_nat BUFSZ) in
    let '(n, data) := nd in
    if n <=? 0 then ret null
    else
      let buff := splice junk 0 data in
      let! t := lift (strtok buff None (Some O) delim_colon) in
      let '(buf, p, tok) := t in
      let! r := tok_loop (S (length buff)) nlfield period body fin buf p tok 0 st in
      u_close fd then!
      ret r.

(** [x = malloc(strlen(tok)+1); strcpy(x, tok)]. *)
Definition save_tok (buf : list Z) (i : nat) : M W (list Z) :=
  let! n := lift (strlen (drop i buf)) in
  let! ok := u_malloc (Z.of_nat n + 1) in
  if ok : bool then lift (strcpy (replicate (S n) 0) 0 (drop i buf)) else halt Undefined.

(** [strcmp(name, tok) == 0]. *)
Definition same_tok (name : list Z) (buf : list Z) (i : nat) : M W bool :=
  let! d := lift (strcmp name (drop i buf)) in
  ret (d =? 0).

Definition tok_atoi (buf : list Z) (i : nat) : M W Z := lift (atoi (drop i buf)).

Definition uidtouser (junk : list Z) (uid : Z) : M W (option (list Z)) :=
  walk etc_passwd (chars "uidtouser: cannot open /etc/passwd") 4 6 junk None
    (fun counter buf i user =>
       let! user := if counter =? 0 then let! s := save_tok buf i in ret (Some s)
                    else ret user in
       if counter =? 2 then
         let! v := tok_atoi buf i in
         if u32 v =? uid then ret (inr user) else ret (inl user)
       else ret (inl user))
    (fun _ => None) None.

Definition gidtogroup (junk : list Z) (gid : Z) : M W (option (list Z)) :=
  walk etc_group (chars "gidtogroup: cannot open /etc/group") 1 3 junk None
    (fun counter buf i group =>
       let! group := if counter =? 0 then let! s := save_tok buf i in ret (Some s)
                     else ret group in
       if counter =? 1 then
         let! v := tok_atoi buf i in
         if u32 v =? gid then ret (inr group) else ret (inl group)
       else ret (inl group))
    (fun _ => None) None.

Definition nextuid (junk : list Z) : M W Z :=
  walk etc_passwd (chars "nextuid: cannot open /etc/passwd") 4 6 junk NULLu
    (fun counter buf i minuid =>
       if counter =? 2 then
         let! curruid := tok_atoi buf i in
         if (1000 <=? curruid) && (u32 curruid =? minuid) then ret (inl (u32 (minuid + 1)))
         else ret (inl minuid)
       else ret (inl minuid))
    (fun minuid => minuid) 1000.

Definition nextgid (junk : list Z) : M W Z :=
  walk etc_group (chars "nextuid: cannot open /etc/group") 1 3 junk NULLu
    (fun counter buf i mingid =>
       if counter =? 1 then
         let! currgid := tok_atoi buf i in
         if (1000 <=? currgid) && (u32 currgid =? mingid) then ret (inl (u32 (mingid + 1)))
         else ret (inl mingid)
       else ret (inl mingid))
    (fun mingid => mingid) 1000.

Definition validateuid (junk : list Z) (uid : Z) : M W Z :=
  walk etc_passwd (chars "nextuid: cannot open /etc/passwd") 4 6 junk NULLu
    (fun counter buf i (st : unit) =>
       if counter =? 2 then
         let! v := tok_atoi buf i in
         if uid =? u32 v then ret (inr minus1u) else ret (inl st)
       else ret (inl st))
    (fun _ => 0) tt.

Definition validategid (junk : list Z) (gid : Z) : M W Z :=
  walk etc_group (chars "nextuid: cannot open /etc/group") 1 3 junk NULLu
    (fun counter buf i (st : unit) =>
       if counter =? 1 then
         let! v := tok_atoi buf i in
         if gid =? u32 v then ret (inr minus1u) else ret (inl st)
       else ret (inl st))
    (fun _ => 0) tt.

(** [strcmp(pass, _pass)] when no password token has been seen would read
    through a null pointer. *)
Definition validateuserpass (junk : list Z) (uid : Z) (pass : list Z) : M W Z :=
  walk etc_passwd (chars "uidtouser: cannot open /etc/passwd") 4 6 junk NULLu
    (fun counter buf i _pass =>
       let! _pass := if counter =? 1 then let! s := save_tok buf i in ret (Some s)
                     else ret _pass in
       if counter =? 2 then
         let! v := tok_atoi buf i in
         if u32 v =? uid then
           let! p := lift _pass in
           let! same := lift (strcmp pass p) in
           ret (inr (if same =? 0 then 1 else 0))
         else ret (inl _pass)
       else ret (inl _pass))
    (fun _ => 0) None.

Definition uidtopass (junk : list Z) (uid : Z) : M W (option (list Z)) :=
  walk etc_passwd (chars "uidtopass: cannot open /etc/passwd") 4 6 junk None
    (fun counter buf i pass =>
       let! pass := if counter =? 1 then let! s := save_tok buf i in ret (Some s)
                    else ret pass in
       if counter =? 2 then
         let! v := tok_atoi buf i in
         if u32 v =? uid then ret (inr pass) else ret (inl pass)
       else ret (inl pass))
    (fun _ => None) None.

Definition usertouid (junk : list Z) (name : list Z) : M W Z :=
  walk etc_passwd (chars "uidtopass: cannot open /etc/passwd") 4 6 junk NULLu
    (fun counter buf i found =>
       let! found := if counter =? 0 then
                       let! same := same_tok name buf i in ret (if same then 1 else found)
                     else ret found in
       if counter =? 2 then
         let! v := tok_atoi buf i in
         if negb (found =? 0) then ret (inr (u32 v)) else ret (inl found)
       else ret (inl found))
    (fun _ => minus1u) 0.

Definition grouptogid (junk : list Z) (group : list Z) : M W Z :=
  walk etc_group (chars "nextuid: cannot open /etc/group") 1 3 junk NULLu
    (fun counter buf i found =>
       let! found := if counter =? 0 then
                       let! same := same_tok group buf i in ret (if same then 1 else found)
                     else ret found in
       if counter =? 1 then
         if negb (found =? 0) then let! v := tok_atoi buf i in ret (inr (u32 v))
         else ret (inl found)
       else ret (inl found))
    (fun _ => minus1u) 0.

Definition gidexists (junk : list Z) (gid : Z) : M W Z :=
  walk etc_group (chars "nextuid: cannot open /etc/group") 1 3 junk NULLu
    (fun counter buf i (st : unit) =>
       if counter =? 1 then
         let! v := tok_atoi buf i in
         if gid =? u32 v then ret (inr 1) else ret (inl st)
       else ret (inl st))
    (fun _ => minus1u) tt.

Definition uidtogid (junk : list Z) (uid : Z) : M W Z :=
  walk etc_passwd (chars "nextuid: cannot open /etc/passwd") 4 6 junk NULLu
    (fun counter buf i found =>
       let! found := if counter =? 2 then
                       let! v := tok_atoi buf i in ret (if uid =? u32 v then 1 else found)
                     else ret found in
       if counter =? 3 then
         if negb (found =? 0) then let! v := tok_atoi buf i in ret (inr (u32 v))
         else ret (inl found)
       else ret (inl found))
    (fun _ => minus1u) 0.

Definition uidtodir (junk : list Z) (uid : Z) : M W (option (list Z)) :=
  walk etc_passwd (chars "uidtopass: cannot open /etc/passwd") 4 6 junk None
    (fun counter buf i found =>
       let! found := if counter =? 2 then
                       let! v := tok_atoi buf i in ret (if u32 v =? uid then 1 else found)
                     else ret found in
       if counter =? 5 then
         if negb (found =? 0) then let! dir := save_tok buf i in ret (inr (Some dir))
         else ret (inl found)
       else ret (inl found))
    (fun _ => None) 0.

(** The descriptor is closed and [strlen] applied to the buffer that was
    read. *)
Definition filelen (path cannot junk : list Z) : M W Z :=
  let! fd := u_open path 0 in
  if fd <? 0 then u_printf (cannot ++ [NL]) then! ret NULLu
  else
    let! nd := u_read fd (Z.of_nat BUFSZ) in
    let '(n, data) := nd in
    if n <=? 0 then ret NULLu
    else
      u_close fd then!
      let! len := lift (strlen (splice junk 0 data)) in
      ret (Z.of_nat len).

Definition passwdlen (junk : list Z) : M W Z :=
  filelen etc_passwd (chars "passwdlen: cannot open /etc/passwd") junk.

Definition grouplen (junk : list Z) : M W Z :=
  filelen etc_group (chars "grouplen: cannot open /etc/group") junk.
End Auth.

(** ** The files as tables

    A line of /etc/passwd is [name:pass:uid:gid:gecos:dir] and a line of
    /etc/group is [name:gid:members], with the numbers as [itoa] writes them. *)

Record pw_entry : Type := {
  pw_name : list Z; pw_pass : list Z; pw_uid : Z; pw_gid : Z;
  pw_gecos : list Z; pw_dir : list Z
}.

Record gr_entry : Type := { gr_name : list Z; gr_gid : Z; gr_members : list Z }.

Definition dec (n : Z) : list Z :=
  ascii_digits (if n =? 0 then [0] else rev (rdigits 32 n)).

(** The fields of a line with the value of [counter] at which they are seen. *)
Definition pw_fields (e : pw_entry) : list (Z * list Z) :=
  [ (0, pw_name e); (1, pw_pass e); (2, dec (pw_uid e)); (3, dec (pw_gid e));
    (4, pw_gecos e); (5, pw_dir e) ].

Definition gr_fields (g : gr_entry) : list (Z * list Z) :=
  [ (0, gr_name g); (1, dec (gr_gid g)); (2, gr_members g) ].

(** The byte that ends the field seen at [counter]. *)
Definition ender (nlfield counter : Z) : Z :=
  if counter =? nlfield + 1 then NL else COLON.

Fixpoint text (nlfield : Z) (fields : list (Z * list Z)) : list Z :=
  match fields with
  | [] => []
  | (c, fld) :: r => fld ++ ender nlfield c :: text nlfield r
  end.

Definition pw_file (db : list pw_entry) : list Z := text 4 (flat_map pw_fields db).
Definition gr_file (db : list gr_entry) : list Z := text 1 (flat_map gr_fields db).

(** A field can be written if it is not empty and holds neither a terminator
    nor the byte that ends it. *)
Definition ok_field (d : Z) (fld : list Z) : Prop := fld <> [] /\ nonul fld /\ d ∉ fld.

Definition ok_num (n : Z) : Prop := 0 <= n < 2 ^ 31.

Definition wf_pw (e : pw_entry) : Prop :=
  ok_field COLON (pw_name e) /\ ok_field COLON (pw_pass e) /\ ok_num (pw_uid e) /\
  ok_num (pw_gid e) /\ ok_field COLON (pw_gecos e) /\ ok_field NL (pw_dir e).

Definition wf_gr (g : gr_entry) : Prop :=
  ok_field COLON (gr_name g) /\ ok_num (gr_gid g) /\ ok_field NL (gr_members g).

#[export] Instance ok_field_dec d fld : Decision (ok_field d fld).
Proof. unfold ok_field. apply _. Defined.
#[export] Instance ok_num_dec n : Decision (ok_num n).
Proof. unfold ok_num. apply _. Defined.
#[export] Instance wf_pw_dec e : Decision (wf_pw e).
Proof. unfold wf_pw. apply _. Defined.
#[export] Instance wf_gr_dec g : Decision (wf_gr g).
Proof. unfold wf_gr. apply _. Defined.

(** The fields carry the counters the loop gives them, starting at [c]. *)
Fixpoint chain (nlfield period c : Z) (fields : list (Z * list Z)) : Prop :=
  match fields with
  | [] => True
  | (c', fld) :: r =>
      c' = c /\ ok_field (ender nlfield c) fld /\
      chain nlfield period (if c + 1 =? period then 0 else c + 1) r
  end.

(** What a routine that computes [f] from the counter and the field does with
    a list of fields. *)
Fixpoint run {St A : Type} (f : Z -> list Z -> St -> St + A) (fields : list (Z * list Z))
    (st : St) : St + A :=
  match fields with
  | [] => inl st
  | (c, fld) :: r => match f c fld st with inr a => inr a | inl st' => run f r st' end
  end.

Definition result {St A : Type} (fin : St -> A) (r : St + A) : A :=
  match r with inr a => a | inl st => fin st end.

Lemma run_app {St A} (f : Z -> list Z -> St -> St + A) l k st :
  run f (l ++ k) st = match run f l st with inr a => inr a | inl st' => run f k st' end.
Proof. revert st. induction l as [|[c fld] l IH]; intros st; simpl; [done|]. by destruct (f c fld st). Qed.

(** ** Numbers *)

Lemma dec_digits n : ok_num n ->
  exists ds, dec n = ascii_digits ds /\ ds <> [] /\ Forall digit ds /\ decimal 0 ds = n.
Proof.
  unfold ok_num, dec. intros Hn. bsplit.
  - subst. exists [0]. repeat split; [done|]. constructor; [unfold digit; lia|constructor].
  - exists (rev (rdigits 32 n)). repeat split.
    + intros E. apply (f_equal (@length Z)) in E. rewrite length_rev in E.
      by apply (rdigits_nonempty 31 n) in n0; destruct (rdigits 32 n).
    + apply Forall_rev, rdigits_digit. lia.
    + apply rdigits_value. change (Z.of_nat 32) with 32. lia.
Qed.

Lemma dec_atoi n r : ok_num n -> atoi (dec n ++ 0 :: r) = Some n.
Proof.
  intros Hn. destruct (dec_digits n Hn) as (ds & -> & Hne & Hd & Hv).
  unfold ok_num in Hn. rewrite atoi_digits by (done || lia). by rewrite Hv.
Qed.

Lemma dec_field n : ok_num n -> ok_field COLON (dec n).
Proof.
  intros Hn. destruct (dec_digits n Hn) as (ds & -> & Hne & Hd & _). split; [|split].
  - by destruct ds.
  - by apply ascii_digits_nonul.
  - clear Hne. induction Hd as [|d ds Hd _ IH]; [set_solver|]. simpl.
    unfold digit, COLON in *. rewrite not_elem_of_cons. split; [lia|done].
Qed.

Lemma pw_chain e r : wf_pw e -> chain 4 6 0 r -> chain 4 6 0 (pw_fields e ++ r).
Proof.
  intros (H0 & H1 & H2 & H3 & H4 & H5) Hr. simpl.
  repeat (split; [reflexivity|split; [first [done | by apply dec_field]|]]). done.
Qed.

Lemma gr_chain g r : wf_gr g -> chain 1 3 0 r -> chain 1 3 0 (gr_fields g ++ r).
Proof.
  intros (H0 & H1 & H2) Hr. simpl.
  repeat (split; [reflexivity|split; [first [done | by apply dec_field]|]]). done.
Qed.

Lemma pw_db_chain db : Forall wf_pw db -> chain 4 6 0 (flat_map pw_fields db).
Proof. induction 1; simpl; [done|]. by apply (pw_chain x). Qed.

Lemma gr_db_chain db : Forall wf_gr db -> chain 1 3 0 (flat_map gr_fields db).
Proof. induction 1; simpl; [done|]. by apply (gr_chain x). Qed.

Lemma text_nonul nlfield period c fields : chain nlfield period c fields -> nonul (text nlfield fields).
Proof.
  revert c. induction fields as [|[c' fld] r IH]; intros c; simpl; [constructor|].
  intros (-> & (_ & Hn & _) & Hr). apply Forall_app. split; [done|]. constructor; [|by eapply IH].
  unfold ender. destruct (c =? _); unfold NL, COLON; lia.
Qed.

Lemma pw_file_nonul db : Forall wf_pw db -> nonul (pw_file db).
Proof. intros. by eapply text_nonul, pw_db_chain. Qed.

Lemma gr_file_nonul db : Forall wf_gr db -> nonul (gr_file db).
Proof. intros. by eapply text_nonul, gr_db_chain. Qed.

Lemma ok_field_app d fld r : ok_field d fld -> fld ++ r <> [].
Proof. by destruct fld; intros []. Qed.

Lemma pw_file_ne db : Forall wf_pw db -> db <> [] -> pw_file db <> [].
Proof. destruct 1 as [|e db [He _]]; [done|]. intros _. by eapply ok_field_app. Qed.

Lemma gr_file_ne db : Forall wf_gr db -> db <> [] -> gr_file db <> [].
Proof. destruct 1 as [|e db [He _]]; [done|]. intros _. by eapply ok_field_app. Qed.

(** ** The loop over the tokens of a table *)

Definition atoi_val (fld : list Z) : Z := default 0 (atoi (fld ++ [0])).

Lemma atoi_loop_cut fld r n i :
  exists v, atoi_loop (fld ++ [0]) n i = Some v /\ atoi_loop (fld ++ 0 :: r) n i = Some v.
Proof.
  revert n i. induction fld as [|c fld IH]; intros n i; simpl; [by eexists|].
  destruct (_ && _); [apply IH|by eexists].
Qed.

Lemma atoi_cut fld r : atoi (fld ++ 0 :: r) = Some (atoi_val fld).
Proof.
  unfold atoi_val, atoi. by destruct (atoi_loop_cut fld r 0 (-1)) as (v & -> & ->).
Qed.

Lemma atoi_val_dec n : ok_num n -> atoi_val (dec n) = n.
Proof. intros Hn. unfold atoi_val. by rewrite dec_atoi. Qed.

Lemma u32_num n : ok_num n -> u32 n = n.
Proof. unfold ok_num. intros. apply u32_small. lia. Qed.

#[export] Hint Rewrite atoi_val_dec u32_num using assumption : xv6.

Lemma strtok_field d pre fld rest p str :
  d <> 0 -> ok_field d fld ->
  (match str with Some _ => str | None => p end) = Some (length pre) ->
  strtok (pre ++ fld ++ d :: rest) p str [d; 0] =
  Some (pre ++ fld ++ 0 :: rest, Some (S (length pre + length fld)), Some (length pre)).
Proof.
  intros Hd (Hne & Hnn & Hdf) Hp.
  pose proof (strtok_tok [d] [] pre [] fld d rest p str) as E. simpl in E.
  rewrite E; try done.
  - rewrite (proj2 (Z.eqb_neq d 0)) by done. by rewrite Nat.add_0_r.
  - by constructor.
  - constructor.
  - apply Forall_forall. intros x Hx. apply list_elem_of_In in Hx. set_solver.
  - right. set_solver.
Qed.

Lemma strtok_none d pre rest p str :
  d <> 0 -> (match str with Some _ => str | None => p end) = Some (length pre) ->
  strtok (pre ++ 0 :: rest) p str [d; 0] = Some (pre ++ 0 :: rest, None, None).
Proof.
  intros Hd Hp. apply (strtok_end [d] [] pre [] rest); try done; by constructor.
Qed.

Lemma text_length nl fields : (length fields <= length (text nl fields))%nat.
Proof.
  induction fields as [|[c x] fields IH]; simpl; [lia|]. rewrite length_app. simpl. lia.
Qed.

Lemma ender_nz nl c : ender nl c <> 0.
Proof. unfold ender, NL, COLON. by bsplit. Qed.

(** Reading [path] into the stack buffer leaves the string [t] in it: the
    bytes read start with [t], and the next byte of the buffer is zero.  It
    is a byte of the file when the file has zeros after its text; otherwise
    it is what the stack held, since the routines do not terminate the
    string they read. *)
Definition reads_text {W} `{Syscalls W} (w : W) (path junk t : list Z) : Prop :=
  exists data, opens_and_reads w path (Z.of_nat BUFSZ) data /\ t `prefix_of` data /\
    splice junk 0 data !! length t = Some 0.

Lemma text_in_buffer (junk t data : list Z) :
  t `prefix_of` data -> splice junk 0 data !! length t = Some 0 ->
  exists junk', splice junk 0 data = t ++ 0 :: junk'.
Proof.
  intros [k ->] Hz. unfold splice in *. simpl in *. rewrite <- app_assoc in *.
  rewrite lookup_app_r, Nat.sub_diag in Hz by lia.
  destruct (k ++ drop (length (t ++ k)) junk) as [|z r] eqn:E; simplify_eq/=. by exists r.
Qed.

(** The delimiter of the call made after [counter] is the byte that ends the
    next field. *)
Lemma delim_next nl period c :
  0 <= c -> 0 <= nl -> nl + 1 < period ->
  (if c =? nl then delim_nl else delim_colon) =
  [ender nl (if c + 1 =? period then 0 else c + 1); 0].
Proof.
  intros. unfold ender, delim_nl, delim_colon.
  destruct (Z.eqb_spec c nl), (Z.eqb_spec (c + 1) period);
    match goal with |- context [if ?a =? ?b then _ else _] => destruct (Z.eqb_spec a b) end;
    (done || lia).
Qed.

Section TokLoop.
Context {W : Type} `{SyscallLaws W} {St A : Type}.
Context (nl period : Z) (Hnl : 0 <= nl) (Hperiod : nl + 1 < period).
Context (body : Z -> list Z -> nat -> St -> M W (St + A)) (f : Z -> list Z -> St -> St + A).

(** The body computes [f] of the counter and the token, on local variables
    that satisfy an invariant [I] at each value of the counter. *)
Definition computes_inv (I : Z -> St -> Prop) : Prop :=
  forall c fld buf i st w r, nonul fld -> drop i buf = fld ++ 0 :: r -> I c st ->
    (exists w', body c buf i st w = Ret (f c fld st) w') /\
    forall st', f c fld st = inl st' -> I (if c + 1 =? period then 0 else c + 1) st'.

Definition computes : Prop :=
  forall c fld buf i st w r, nonul fld -> drop i buf = fld ++ 0 :: r ->
    exists w', body c buf i st w = Ret (f c fld st) w'.

Lemma computes_trivial : computes -> computes_inv (fun _ _ => True).
Proof. intros Hc c fld buf i st w r Hn Hd _. split; [by eapply Hc|done]. Qed.

Context (I : Z -> St -> Prop) (Hbody : computes_inv I) (fin : St -> A).

Lemma tok_loop_run fields fuel pre c fld junk st w :
  0 <= c -> nonul fld -> I c st ->
  chain nl period (if c + 1 =? period then 0 else c + 1) fields ->
  (S (length fields) < fuel)%nat ->
  exists w', tok_loop fuel nl period body fin (pre ++ fld ++ 0 :: text nl fields ++ 0 :: junk)
      (Some (S (length pre + length fld))) (Some (length pre)) c st w =
    Ret (result fin (run f ((c, fld) :: fields) st)) w'.
Proof.
  revert fuel pre c fld st w.
  induction fields as [|[c1 fld1] fields IH]; intros fuel pre c fld st w Hc Hn HI Hch Hf;
    (destruct fuel as [|fuel]; [simpl in Hf; lia|]); cbn [tok_loop run text] in *.
  - destruct (Hbody c fld (pre ++ fld ++ 0 :: 0 :: junk) (length pre) st w (0 :: junk)) as [[w1 E1] _];
      [done|by rewrite drop_app_length|done|].
    cbn [app]. rewrite (bind_ret_eq _ _ _ _ _ E1).
    destruct (f c fld st) as [st'|a]; [|by exists w1].
    rewrite (delim_next nl period c) by lia.
    replace (pre ++ fld ++ 0 :: 0 :: junk) with ((pre ++ fld ++ [0]) ++ 0 :: junk)
      by (by rewrite <- !app_assoc).
    rewrite strtok_none by (apply ender_nz || (rewrite !length_app; simpl; f_equal; lia)).
    destruct fuel as [|fuel]; [simpl in Hf; lia|]. by exists w1.
  - destruct Hch as (-> & Hok & Hch).
    set (c1 := if c + 1 =? period then 0 else c + 1) in *.
    destruct (Hbody c fld (pre ++ fld ++ 0 :: (fld1 ++ ender nl c1 :: text nl fields) ++ 0 :: junk)
      (length pre) st w ((fld1 ++ ender nl c1 :: text nl fields) ++ 0 :: junk)) as [[w1 E1] HI'];
      [done|by rewrite drop_app_length|done|].
    rewrite (bind_ret_eq _ _ _ _ _ E1). destruct (f c fld st) as [st'|a]; [|by exists w1].
    rewrite (delim_next nl period c) by lia. fold c1.
    replace (pre ++ fld ++ 0 :: (fld1 ++ ender nl c1 :: text nl fields) ++ 0 :: junk)
      with ((pre ++ fld ++ [0]) ++ fld1 ++ ender nl c1 :: (text nl fields ++ 0 :: junk))
      by (by rewrite <- !app_assoc).
    rewrite strtok_field by
      (done || apply ender_nz || (rewrite !length_app; simpl; f_equal; lia)).
    apply IH; [unfold c1; bsplit; lia|apply Hok|by apply HI'|done|simpl in Hf; lia].
Qed.

(** The routine on a file that is a non-empty table: it returns what [f]
    computes from the fields, and closes the file. *)
Lemma walk_run path cannot junk null st w fields :
  fields <> [] -> I 0 st -> chain nl period 0 fields ->
  reads_text w path junk (text nl fields) ->
  exists w', walk path cannot nl period junk null body fin st w =
    Ret (result fin (run f fields st)) w'.
Proof.
  intros Hne HI Hch (data & (fd & w1 & w2 & Hfd & Eo & Er) & Hp & Hz).
  destruct fields as [|[c fld] fields]; [done|]. destruct Hch as (-> & Hok & Hch).
  destruct (text_in_buffer _ _ _ Hp Hz) as [junk' Hbuf]. apply prefix_length in Hp.
  unfold walk. rewrite (bind_ret_eq _ _ _ _ _ Eo).
  rewrite (proj2 (Z.ltb_ge fd 0)) by lia. rewrite (bind_ret_eq _ _ _ _ _ Er).
  cbn [text] in *. set (rest := text nl fields) in *.
  assert (0 < length (fld ++ ender nl 0 :: rest))%nat by (rewrite length_app; simpl; lia).
  rewrite (proj2 (Z.leb_gt (Z.of_nat _) 0)) by lia.
  rewrite Hbuf, <- app_assoc. cbn [app].
  assert (delim_colon = [ender nl 0; 0]) as ->.
  { unfold ender. by destruct (Z.eqb_spec 0 (nl + 1)); [lia|]. }
  pose proof (strtok_field (ender nl 0) [] fld (rest ++ 0 :: junk') None (Some O) (ender_nz nl 0) Hok eq_refl)
    as Et. simpl in Et. rewrite Et. cbn [lift].
  unfold bind at 1, ret at 1.
  destruct (tok_loop_run fields (S (length (fld ++ ender nl 0 :: rest ++ 0 :: junk'))) [] 0 fld junk' st w2)
    as [w3 E3]; [lia|apply Hok|done|done| |].
  { rewrite length_app. simpl. rewrite length_app. simpl.
    pose proof (text_length nl fields) as Hlen. fold rest in Hlen. lia. }
  simpl app in E3. simpl length in E3. fold rest in E3. rewrite (bind_ret_eq _ _ _ _ _ E3).
  destruct (close_returns fd w3) as (r & w4 & E4). rewrite (bind_ret_eq _ _ _ _ _ E4). by exists w4.
Qed.
End TokLoop.

(** ** What the bodies compute *)

Section Bodies.
Context {W : Type} `{SyscallLaws W}.

Lemma save_tok_returns buf i fld r (w : W) :
  nonul fld -> drop i buf = fld ++ 0 :: r ->
  exists w', save_tok buf i w = Ret (fld ++ [0]) w'.
Proof.
  intros Hn Hd. unfold save_tok. rewrite Hd, strlen_app by done. cbn [lift].
  unfold bind at 1, ret at 1.
  destruct (malloc_returns (Z.of_nat (length fld) + 1) w) as [w1 E1].
  rewrite (bind_ret_eq _ _ _ _ _ E1).
  rewrite strcpy_app by (try done; rewrite length_replicate; lia). exists w1. cbn [lift].
  assert (splice (replicate (S (length fld)) 0) 0 (fld ++ [0]) = fld ++ [0]) as ->; [|done].
  unfold splice. rewrite drop_ge by (rewrite length_app, length_replicate; simpl; lia).
  rewrite app_nil_r. done.
Qed.

Lemma tok_atoi_returns buf i fld r (w : W) :
  drop i buf = fld ++ 0 :: r -> tok_atoi buf i w = Ret (atoi_val fld) w.
Proof. intros Hd. unfold tok_atoi. by rewrite Hd, atoi_cut. Qed.

Lemma same_tok_returns name r' buf i fld r (w : W) :
  nonul name -> nonul fld -> drop i buf = fld ++ 0 :: r ->
  same_tok (name ++ 0 :: r') buf i w = Ret (bool_decide (name = fld)) w.
Proof.
  intros Hn Hf Hd. unfold same_tok. rewrite Hd.
  destruct (strcmp_eq name fld r' r Hn Hf) as (d & -> & Hd0). cbn [lift].
  unfold bind, ret. destruct (Z.eqb_spec d 0); case_bool_decide; tauto.
Qed.
End Bodies.

(** Run a body step by step; the goal is [exists w', body ... w = Ret ... w']. *)
Ltac body_step :=
  match goal with
  | Hn : nonul ?fld, Hd : drop ?i ?buf = ?fld ++ 0 :: ?r |- context [bind (save_tok ?buf ?i) _ ?w] =>
      let w1 := fresh "w" in let E := fresh "E" in
      destruct (save_tok_returns buf i fld r w Hn Hd) as [w1 E];
      rewrite (bind_ret_eq _ _ _ _ _ E); clear E
  | Hd : drop ?i ?buf = ?fld ++ 0 :: ?r |- context [bind (tok_atoi ?buf ?i) _ ?w] =>
      rewrite (bind_ret_eq _ _ _ _ _ (tok_atoi_returns buf i fld r w Hd))
  | Hn : nonul ?fld, Hd : drop ?i ?buf = ?fld ++ 0 :: ?r, Hm : nonul ?name
    |- context [bind (same_tok (?name ++ 0 :: ?r') ?buf ?i) _ ?w] =>
      rewrite (bind_ret_eq _ _ _ _ _ (same_tok_returns name r' buf i fld r w Hm Hn Hd))
  | |- context [bind (bind _ _) _ _] => unfold bind at 1
  | |- context [bind (ret ?x) ?k ?w] => change (bind (ret x) k w) with (k x w); cbv beta
  | |- context [Z.leb ?c ?d] => destruct (Z.leb_spec c d)
  | |- context [Z.eqb ?c (Z.pos ?k)] => destruct (Z.eqb_spec c (Z.pos k))
  | |- context [Z.eqb ?c 0] => destruct (Z.eqb_spec c 0)
  | |- context [Z.eqb ?c ?d] => destruct (Z.eqb_spec c d)
  end.

Ltac solve_body :=
  intros ? ? ? ? ? ? ? ? ?; repeat first [body_step | progress (cbn [negb andb])]; simpl; try lia; eauto.

(** Whether two strings are equal, as a condition of a search. *)
Definition named (name : list Z) (e : pw_entry) : bool := bool_decide (name = pw_name e).
Definition has_uid (uid : Z) (e : pw_entry) : bool := pw_uid e =? uid.
Definition gnamed (name : list Z) (g : gr_entry) : bool := bool_decide (name = gr_name g).
Definition has_gid (gid : Z) (g : gr_entry) : bool := gr_gid g =? gid.

Definition f_usertouid (name : list Z) (c : Z) (fld : list Z) (found : Z) : Z + Z :=
  let found := if c =? 0 then if bool_decide (name = fld) then 1 else found else found in
  if c =? 2 then if negb (found =? 0) then inr (u32 (atoi_val fld)) else inl found
  else inl found.

Definition f_save (field : Z) (uid : Z) (c : Z) (fld : list Z) (st : option (list Z))
    : option (list Z) + option (list Z) :=
  let st := if c =? field then Some (fld ++ [0]) else st in
  if c =? 2 then if u32 (atoi_val fld) =? uid then inr st else inl st else inl st.

Lemma run_usertouid name db :
  Forall wf_pw db ->
  result (fun _ => minus1u) (run (f_usertouid name) (flat_map pw_fields db) 0) =
  match find (named name) db with Some e => pw_uid e | None => minus1u end.
Proof.
  induction 1 as [|e db (_ & _ & Hu & _) _ IH]; [done|]. cbn [flat_map]. rewrite run_app.
  unfold f_usertouid at 1, named. simpl. case_bool_decide; simpl; [|done].
  by autorewrite with xv6.
Qed.

Definition field_of (field : Z) (e : pw_entry) : list Z :=
  if field =? 0 then pw_name e else pw_pass e.

Lemma run_save field uid db st :
  field = 0 \/ field = 1 -> Forall wf_pw db ->
  result (fun _ => None) (run (f_save field uid) (flat_map pw_fields db) st) =
  match find (has_uid uid) db with Some e => Some (field_of field e ++ [0]) | None => None end.
Proof.
  intros Hf Hdb. revert st. induction Hdb as [|e db (_ & _ & Hu & _) _ IH]; intros st; [done|].
  cbn [flat_map]. rewrite run_app. unfold has_uid at 1. simpl.
  destruct Hf as [->| ->]; unfold f_save at 1; simpl; autorewrite with xv6;
    destruct (pw_uid e =? uid); simpl; (done || apply IH).
Qed.

(** The first line with [uid], if any, decides what a routine that reads a
    later field than the uid returns. *)
Definition f_after {B : Type} (field : Z) (val : list Z -> B) (uid : Z) (c : Z) (fld : list Z)
    (found : Z) : Z + B :=
  let found := if c =? 2 then if u32 (atoi_val fld) =? uid then 1 else found else found in
  if c =? field then if negb (found =? 0) then inr (val fld) else inl found else inl found.

Definition later_field (field : Z) (e : pw_entry) : list Z :=
  if field =? 3 then dec (pw_gid e) else pw_dir e.

Lemma run_after {B} field (val : list Z -> B) none uid db :
  field = 3 \/ field = 5 -> Forall wf_pw db ->
  result (fun _ => none) (run (f_after field val uid) (flat_map pw_fields db) 0) =
  match find (has_uid uid) db with Some e => val (later_field field e) | None => none end.
Proof.
  intros Hf. induction 1 as [|e db (_ & _ & Hu & Hg & _) _ IH]; [done|].
  cbn [flat_map]. rewrite run_app. unfold has_uid at 1. simpl.
  destruct Hf as [->| ->]; unfold f_after at 1; simpl; autorewrite with xv6;
    destruct (pw_uid e =? uid); simpl; (done || apply IH).
Qed.

(** The saved password is an object: the string and its terminator. *)
Definition f_validateuserpass (uid : Z) (pass : list Z) (c : Z) (fld : list Z)
    (st : option (list Z)) : option (list Z) + Z :=
  let st := if c =? 1 then Some (fld ++ [0]) else st in
  if c =? 2 then
    if u32 (atoi_val fld) =? uid
    then inr (if bool_decide (st = Some (pass ++ [0])) then 1 else 0) else inl st
  else inl st.

Definition f_next (field : Z) (c : Z) (fld : list Z) (m : Z) : Z + Z :=
  if c =? field then
    if (1000 <=? atoi_val fld) && (u32 (atoi_val fld) =? m) then inl (u32 (m + 1)) else inl m
  else inl m.

Definition f_member (field : Z) (hit : Z) (id : Z) (c : Z) (fld : list Z) (st : unit) : unit + Z :=
  if c =? field then if id =? u32 (atoi_val fld) then inr hit else inl st else inl st.

(** The search for a free id: one pass, in the order of the file. *)
Definition next_id (ids : list Z) : Z :=
  fold_left (fun m u => if (1000 <=? u) && (u =? m) then m + 1 else m) ids 1000.

Lemma next_id_bound ids m : Forall ok_num ids -> 0 <= m <= 2 ^ 31 ->
  0 <= fold_left (fun m u => if (1000 <=? u) && (u =? m) then m + 1 else m) ids m <= 2 ^ 31.
Proof.
  intros Hi. revert m. induction Hi as [|u ids Hu _ IH]; intros m Hm; simpl; [lia|].
  apply IH. unfold ok_num in Hu. destruct (Z.eqb_spec u m), (1000 <=? u); simpl; lia.
Qed.

Lemma run_nextuid db m :
  Forall wf_pw db -> 0 <= m <= 2 ^ 31 ->
  result (fun m => m) (run (f_next 2) (flat_map pw_fields db) m) =
  fold_left (fun m u => if (1000 <=? u) && (u =? m) then m + 1 else m) (map pw_uid db) m.
Proof.
  intros Hdb. revert m. induction Hdb as [|e db (_ & _ & Hu & _) _ IH]; intros m Hm; [done|].
  cbn [flat_map]. rewrite run_app. unfold f_next at 1. simpl. autorewrite with xv6.
  unfold ok_num in Hu.
  destruct (Z.eqb_spec (pw_uid e) m), (Z.leb_spec 1000 (pw_uid e)); simpl;
    rewrite ?u32_small by lia; apply IH; lia.
Qed.

Lemma run_nextgid db m :
  Forall wf_gr db -> 0 <= m <= 2 ^ 31 ->
  result (fun m => m) (run (f_next 1) (flat_map gr_fields db) m) =
  fold_left (fun m u => if (1000 <=? u) && (u =? m) then m + 1 else m) (map gr_gid db) m.
Proof.
  intros Hdb. revert m. induction Hdb as [|e db (_ & Hu & _) _ IH]; intros m Hm; [done|].
  cbn [flat_map]. rewrite run_app. unfold f_next at 1. simpl. autorewrite with xv6.
  unfold ok_num in Hu.
  destruct (Z.eqb_spec (gr_gid e) m), (Z.leb_spec 1000 (gr_gid e)); simpl;
    rewrite ?u32_small by lia; apply IH; lia.
Qed.

Lemma run_uid_member hit miss id db :
  Forall wf_pw db ->
  result (fun _ => miss) (run (f_member 2 hit id) (flat_map pw_fields db) tt) =
  if existsb (Z.eqb id) (map pw_uid db) then hit else miss.
Proof.
  induction 1 as [|e db (_ & _ & Hu & _) _ IH]; [done|]. cbn [flat_map]. rewrite run_app.
  unfold f_member at 1. simpl. autorewrite with xv6. destruct (id =? pw_uid e); simpl; done.
Qed.

Lemma run_gid_member hit miss id db :
  Forall wf_gr db ->
  result (fun _ => miss) (run (f_member 1 hit id) (flat_map gr_fields db) tt) =
  if existsb (Z.eqb id) (map gr_gid db) then hit else miss.
Proof.
  induction 1 as [|e db (_ & Hu & _) _ IH]; [done|]. cbn [flat_map]. rewrite run_app.
  unfold f_member at 1. simpl. autorewrite with xv6. destruct (id =? gr_gid e); simpl; done.
Qed.

Lemma run_validateuserpass uid pass db st :
  Forall wf_pw db ->
  result (fun _ => 0) (run (f_validateuserpass uid pass) (flat_map pw_fields db) st) =
  match find (has_uid uid) db with
  | Some e => if bool_decide (pw_pass e = pass) then 1 else 0
  | None => 0
  end.
Proof.
  intros Hdb. revert st. induction Hdb as [|e db (_ & _ & Hu & _) _ IH]; intros st; [done|].
  cbn [flat_map]. rewrite run_app. unfold f_validateuserpass at 1, has_uid at 1. simpl.
  autorewrite with xv6. destruct (pw_uid e =? uid); simpl; [|apply IH].
  repeat case_bool_decide; simplify_list_eq; congruence.
Qed.

Definition f_grouptogid (name : list Z) (c : Z) (fld : list Z) (found : Z) : Z + Z :=
  let found := if c =? 0 then if bool_decide (name = fld) then 1 else found else found in
  if c =? 1 then if negb (found =? 0) then inr (u32 (atoi_val fld)) else inl found
  else inl found.

Lemma run_grouptogid name db :
  Forall wf_gr db ->
  result (fun _ => minus1u) (run (f_grouptogid name) (flat_map gr_fields db) 0) =
  match find (gnamed name) db with Some g => gr_gid g | None => minus1u end.
Proof.
  induction 1 as [|g db (_ & Hu & _) _ IH]; [done|]. cbn [flat_map]. rewrite run_app.
  unfold f_grouptogid at 1, gnamed at 1. simpl. case_bool_decide; simpl; [|done].
  by autorewrite with xv6.
Qed.

Definition f_gidtogroup (gid : Z) (c : Z) (fld : list Z) (st : option (list Z))
    : option (list Z) + option (list Z) :=
  let st := if c =? 0 then Some (fld ++ [0]) else st in
  if c =? 1 then if u32 (atoi_val fld) =? gid then inr st else inl st else inl st.

Lemma run_gidtogroup gid db st :
  Forall wf_gr db ->
  result (fun _ => None) (run (f_gidtogroup gid) (flat_map gr_fields db) st) =
  match find (has_gid gid) db with Some g => Some (gr_name g ++ [0]) | None => None end.
Proof.
  intros Hdb. revert st. induction Hdb as [|g db (_ & Hu & _) _ IH]; intros st; [done|].
  cbn [flat_map]. rewrite run_app. unfold f_gidtogroup at 1, has_gid at 1. simpl.
  autorewrite with xv6. destruct (gr_gid g =? gid); simpl; (done || apply IH).
Qed.

(** ** The routines on a well-formed database *)

(** In the world [w] the file is the table [db], of at least one line, and it
    is read as a string. *)
Definition passwd_is {W} `{Syscalls W} (w : W) (junk : list Z) (db : list pw_entry) : Prop :=
  db <> [] /\ Forall wf_pw db /\
  reads_text w etc_passwd junk (pw_file db).

Definition group_is {W} `{Syscalls W} (w : W) (junk : list Z) (db : list gr_entry) : Prop :=
  db <> [] /\ Forall wf_gr db /\
  reads_text w etc_group junk (gr_file db).

Lemma returns_as {W A} (m : M W A) w a b :
  (exists w', m w = Ret a w') -> a = b -> exists w', m w = Ret b w'.
Proof. by intros ? <-. Qed.

Lemma find_wf {E} (wf : E -> Prop) p (db : list E) e :
  Forall wf db -> find p db = Some e -> wf e.
Proof. intros Hdb [Hin _]%find_some. rewrite Forall_forall in Hdb. by apply Hdb. Qed.

(** [n] is the least id from 1000 on that is not in [ids]. *)
Definition least_free (n : Z) (ids : list Z) : Prop :=
  1000 <= n /\ ~ In n ids /\ forall u, 1000 <= u < n -> In u ids.

Abbreviation next_step := (fun m u => if (1000 <=? u) && (u =? m) then m + 1 else m).

Lemma next_step_stays ids m : Forall (fun u => m < u) ids -> fold_left next_step ids m = m.
Proof.
  induction 1 as [|u ids Hu _ IH]; simpl; [done|].
  destruct (Z.eqb_spec u m); [lia|]. by rewrite andb_false_r.
Qed.

Lemma next_step_sorted ids m :
  StronglySorted Z.le ids -> 1000 <= m ->
  let n := fold_left next_step ids m in
  m <= n /\ ~ In n ids /\ forall u, m <= u < n -> In u ids.
Proof.
  intros Hs. revert m. induction Hs as [|u ids Hs IH Hu]; intros m Hm; simpl.
  - repeat split; [lia|tauto|lia].
  - destruct (Z.eqb_spec u m) as [->|Hne].
    + rewrite (proj2 (Z.leb_le 1000 m)) by lia. simpl.
      destruct (IH (m + 1)) as (H1 & H2 & H3); [lia|]. repeat split; [lia| |].
      * intros [E|Hin]; [lia|done].
      * intros v Hv. destruct (Z.eq_dec m v); [by left|right; apply H3; lia].
    + rewrite andb_false_r. destruct (IH m Hm) as (H1 & H2 & H3). repeat split; [done| |].
      * intros [E|Hin]; [|done]. destruct (Z.lt_ge_cases m u); [|lia].
        rewrite next_step_stays in E; [lia|].
        eapply Forall_impl; [|exact Hu]. simpl. lia.
      * intros v Hv. right. by apply H3.
Qed.

Lemma next_id_sorted ids : StronglySorted Z.le ids -> least_free (next_id ids) ids.
Proof. intros Hs. by apply next_step_sorted. Qed.

Section Lookups.
Context {W : Type} `{SyscallLaws W}.

Lemma pw_walk_inv {St A} body (f : Z -> list Z -> St -> St + A) I fin cannot junk null st (w : W) db :
  computes_inv 6 body f I -> I 0 st -> passwd_is w junk db ->
  exists w', walk etc_passwd cannot 4 6 junk null body fin st w =
    Ret (result fin (run f (flat_map pw_fields db) st)) w'.
Proof.
  intros Hb HI (Hne & Hwf & Ho). eapply walk_run; try done.
  - destruct db; done.
  - by apply pw_db_chain.
Qed.

Lemma pw_walk {St A} body (f : Z -> list Z -> St -> St + A) fin cannot junk null st (w : W) db :
  computes body f -> passwd_is w junk db ->
  exists w', walk etc_passwd cannot 4 6 junk null body fin st w =
    Ret (result fin (run f (flat_map pw_fields db) st)) w'.
Proof. intros Hb Hw. eapply pw_walk_inv; [by apply computes_trivial|done|done]. Qed.

Lemma gr_walk {St A} body (f : Z -> list Z -> St -> St + A) fin cannot junk null st (w : W) db :
  computes body f -> group_is w junk db ->
  exists w', walk etc_group cannot 1 3 junk null body fin st w =
    Ret (result fin (run f (flat_map gr_fields db) st)) w'.
Proof.
  intros Hb (Hne & Hwf & Ho).
  eapply walk_run; [lia|lia|by apply computes_trivial| |done|by apply gr_db_chain|done..].
  destruct db; done.
Qed.

Lemma filelen_text path cannot junk (w : W) (t : list Z) :
  t <> [] -> nonul t -> reads_text w path junk t ->
  exists w', filelen path cannot junk w = Ret (Z.of_nat (length t)) w'.
Proof.
  intros Hne Hn (data & (fd & w1 & w2 & Hfd & Ho & Hr) & Hp & Hz). unfold filelen.
  destruct (text_in_buffer _ _ _ Hp Hz) as [junk' Hbuf]. apply prefix_length in Hp.
  rewrite (bind_ret_eq _ _ _ _ _ Ho), (proj2 (Z.ltb_ge fd 0)) by done.
  rewrite (bind_ret_eq _ _ _ _ _ Hr).
  destruct (Z.leb_spec (Z.of_nat (length data)) 0) as [Hl|_];
    [destruct t; simpl in *; [done|lia]|].
  destruct (close_returns fd w2) as (r & w3 & E). rewrite (bind_ret_eq _ _ _ _ _ E).
  exists w3. rewrite Hbuf, strlen_app by done. done.
Qed.

(** On a well-formed /etc/passwd, [usertouid] returns the uid of the first
    line with the name, and -1 (as a [uint]) if no line has it. *)
Theorem usertouid_lookup (w : W) junk db name r :
  nonul name -> passwd_is w junk db ->
  exists w', usertouid junk (name ++ 0 :: r) w =
    Ret (match find (named name) db with Some e => pw_uid e | None => minus1u end) w'.
Proof.
  intros Hm Hw. assert (Forall wf_pw db) as Hdb by apply Hw.
  eapply returns_as; [eapply (pw_walk _ (f_usertouid name)); [|done]|by apply run_usertouid].
  unfold computes, f_usertouid. solve_body.
Qed.
(** On a well-formed /etc/passwd, the lookups by uid all answer from the
    first line with the uid: its name, its password, its gid and its home
    directory; without such a line they return null or -1. *)
Theorem uid_lookups (w : W) junk db uid :
  passwd_is w junk db ->
  let line := find (has_uid uid) db in
  (exists w', uidtouser junk uid w =
     Ret (match line with Some e => Some (pw_name e ++ [0]) | None => None end) w') /\
  (exists w', uidtopass junk uid w =
     Ret (match line with Some e => Some (pw_pass e ++ [0]) | None => None end) w') /\
  (exists w', uidtogid junk uid w =
     Ret (match line with Some e => pw_gid e | None => minus1u end) w') /\
  (exists w', uidtodir junk uid w =
     Ret (match line with Some e => Some (pw_dir e ++ [0]) | None => None end) w').
Proof.
  intros Hw line. assert (Forall wf_pw db) as Hdb by apply Hw. subst line. repeat split.
  - eapply returns_as; [eapply (pw_walk _ (f_save 0 uid)); [|done]|apply (run_save 0); auto].
    unfold computes, f_save. solve_body.
  - eapply returns_as; [eapply (pw_walk _ (f_save 1 uid)); [|done]|apply (run_save 1); auto].
    unfold computes, f_save. solve_body.
  - eapply returns_as.
    + eapply (pw_walk _ (f_after 3 (fun fld => u32 (atoi_val fld)) uid)); [|done].
      unfold computes, f_after. solve_body.
    + rewrite run_after by auto.
      destruct (find (has_uid uid) db) as [e|] eqn:E; [|done].
      destruct (find_wf wf_pw _ _ _ Hdb E) as (_ & _ & _ & Hg & _).
      unfold later_field. simpl. by autorewrite with xv6.
  - eapply returns_as.
    + eapply (pw_walk _ (f_after 5 (fun fld => Some (fld ++ [0])) uid)); [|done].
      unfold computes, f_after. solve_body.
    + by rewrite run_after by auto.
Qed.

Lemma validateuserpass_returns (w : W) junk db uid pass r :
  nonul pass -> passwd_is w junk db ->
  exists w', validateuserpass junk uid (pass ++ 0 :: r) w =
    Ret (match find (has_uid uid) db with
         | Some e => if bool_decide (pw_pass e = pass) then 1 else 0
         | None => 0
         end) w'.
Proof.
  intros Hm Hw. assert (Forall wf_pw db) as Hdb by apply Hw.
  eapply returns_as; [|by apply (run_validateuserpass uid pass db None)].
  eapply (pw_walk_inv _ (f_validateuserpass uid pass)
    (fun c st => 2 <= c -> exists x, st = Some (x ++ [0]) /\ nonul x)); [|lia|done].
  intros c fld buf i st w0 r0 Hn Hd HI. unfold f_validateuserpass. split.
  - repeat first [body_step | progress (cbn [negb andb])]; simpl; try lia; eauto; subst.
    destruct HI as (x & -> & Hx); [lia|]. cbn [lift].
    unfold bind at 1, ret at 1.
    destruct (strcmp_eq pass x r [] Hm Hx) as (d & -> & Hd0). exists w0. cbn.
    destruct (Z.eqb_spec d 0) as [Hz|Hz]; case_bool_decide as Hb; try done; exfalso.
    + apply Hb. do 2 f_equal. symmetry. by apply Hd0.
    + apply Hz, Hd0. by simplify_list_eq.
  - repeat (bsplit; try lia); intros st' E; simplify_eq; intros; try lia; eauto;
      apply HI; lia.
Qed.

(** [validateuserpass] accepts a password exactly when it is the one of
    the first line with the uid; an unknown uid is refused. *)
Theorem validateuserpass_correct (w : W) junk db uid pass r :
  nonul pass -> passwd_is w junk db ->
  exists w', validateuserpass junk uid (pass ++ 0 :: r) w =
    Ret (match find (has_uid uid) db with
         | Some e => if bool_decide (pw_pass e = pass) then 1 else 0
         | None => 0
         end) w'.
Proof. apply validateuserpass_returns. Qed.

Lemma nextuid_pass (w : W) junk db :
  passwd_is w junk db -> exists w', nextuid junk w = Ret (next_id (map pw_uid db)) w'.
Proof.
  intros Hw. assert (Forall wf_pw db) as Hdb by apply Hw.
  eapply returns_as; [eapply (pw_walk _ (f_next 2)); [|done]|apply run_nextuid; [done|lia]].
  unfold computes, f_next. solve_body.
Qed.

Lemma nextgid_pass (w : W) junk db :
  group_is w junk db -> exists w', nextgid junk w = Ret (next_id (map gr_gid db)) w'.
Proof.
  intros Hw. assert (Forall wf_gr db) as Hdb by apply Hw.
  eapply returns_as; [eapply (gr_walk _ (f_next 1)); [|done]|apply run_nextgid; [done|lia]].
  unfold computes, f_next. solve_body.
Qed.

(** When the uids of a well-formed /etc/passwd are in ascending order,
    [nextuid] returns the least uid from 1000 on that no line has; likewise
    [nextgid] for /etc/group. *)
Theorem next_ids_free (w : W) junk pdb gdb :
  passwd_is w junk pdb -> StronglySorted Z.le (map pw_uid pdb) ->
  group_is w junk gdb -> StronglySorted Z.le (map gr_gid gdb) ->
  exists w1 w2 uid gid,
    nextuid junk w = Ret uid w1 /\ least_free uid (map pw_uid pdb) /\
    nextgid junk w = Ret gid w2 /\ least_free gid (map gr_gid gdb).
Proof.
  intros Hp Hps Hg Hgs.
  destruct (nextuid_pass w junk pdb Hp) as [w1 E1], (nextgid_pass w junk gdb Hg) as [w2 E2].
  exists w1, w2, (next_id (map pw_uid pdb)), (next_id (map gr_gid gdb)).
  repeat split; try done; by apply next_id_sorted.
Qed.

Lemma validateuid_pass (w : W) junk db id : passwd_is w junk db ->
  exists w', validateuid junk id w = Ret (if existsb (Z.eqb id) (map pw_uid db) then minus1u else 0) w'.
Proof.
  intros Hp. assert (Forall wf_pw db) by apply Hp.
  eapply returns_as; [|by apply run_uid_member]. eapply pw_walk; [|done]. unfold computes, f_member. solve_body.
Qed.

(** On a well-formed database, [validateuid], [validategid] and
    [gidexists] tell exactly whether a line has the id. *)
Theorem id_membership (w : W) junk pdb gdb id :
  passwd_is w junk pdb -> group_is w junk gdb ->
  (exists w', validateuid junk id w =
     Ret (if existsb (Z.eqb id) (map pw_uid pdb) then minus1u else 0) w') /\
  (exists w', validategid junk id w =
     Ret (if existsb (Z.eqb id) (map gr_gid gdb) then minus1u else 0) w') /\
  (exists w', gidexists junk id w =
     Ret (if existsb (Z.eqb id) (map gr_gid gdb) then 1 else minus1u) w').
Proof.
  intros Hp Hg. assert (Forall wf_gr gdb) by apply Hg. split; [by apply validateuid_pass|].
  split; (eapply returns_as; [|by apply run_gid_member]); (eapply gr_walk; [|done]);
    unfold computes, f_member; solve_body.
Qed.

(** On a well-formed /etc/group, [grouptogid] and [gidtogroup] answer from
    the first line with the name or the gid. *)
Theorem group_lookups (w : W) junk db name r gid :
  nonul name -> group_is w junk db ->
  (exists w', grouptogid junk (name ++ 0 :: r) w =
     Ret (match find (gnamed name) db with Some g => gr_gid g | None => minus1u end) w') /\
  (exists w', gidtogroup junk gid w =
     Ret (match find (has_gid gid) db with Some g => Some (gr_name g ++ [0]) | None => None end) w').
Proof.
  intros Hm Hw. assert (Forall wf_gr db) as Hdb by apply Hw. split.
  - eapply returns_as; [eapply (gr_walk _ (f_grouptogid name)); [|done]|by apply run_grouptogid].
    unfold computes, f_grouptogid. solve_body.
  - eapply returns_as; [eapply (gr_walk _ (f_gidtogroup gid)); [|done]|by apply run_gidtogroup].
    unfold computes, f_gidtogroup. solve_body.
Qed.

(** [passwdlen] and [grouplen] return the lengths of well-formed files. *)
Theorem file_lengths (w : W) junk pdb gdb :
  passwd_is w junk pdb -> group_is w junk gdb ->
  (exists w', passwdlen junk w = Ret (Z.of_nat (length (pw_file pdb))) w') /\
  (exists w', grouplen junk w = Ret (Z.of_nat (length (gr_file gdb))) w').
Proof.
  intros (Hne & Hwf & Ho) (Hne' & Hwf' & Ho'). split.
  - apply filelen_text; auto using pw_file_ne, pw_file_nonul.
  - apply filelen_text; auto using gr_file_ne, gr_file_nonul.
Qed.

(** When /etc/passwd cannot be opened no password is accepted, but
    [usertouid] answers 0 for every name: the superuser's uid. *)
Theorem passwd_unreadable (w w1 : W) junk fd name uid pass :
  u_open etc_passwd 0 w = Ret fd w1 -> fd < 0 ->
  (exists w', validateuserpass junk uid pass w = Ret 0 w') /\
  (exists w', uidtouser junk uid w = Ret None w') /\
  (exists w', usertouid junk name w = Ret 0 w').
Proof.
  intros Ho Hfd. unfold validateuserpass, uidtouser, usertouid, walk.
  repeat split; rewrite (bind_ret_eq _ _ _ _ _ Ho), (proj2 (Z.ltb_lt fd 0)) by done;
    match goal with |- context [u_printf ?s] => destruct (printf_returns s w1) as [w2 E] end;
    rewrite (bind_ret_eq _ _ _ _ _ E); by exists w2.
Qed.
End Lookups.

(** ** Two accounts in a concrete world *)

Definition root_line : pw_entry :=
  {| pw_name := chars "root"; pw_pass := chars "password"; pw_uid := 0; pw_gid := 0;
     pw_gecos := chars "Superuser"; pw_dir := chars "/home/root" |}.

Definition user_line (name : string) (uid : Z) : pw_entry :=
  {| pw_name := chars name; pw_pass := chars "secret"; pw_uid := uid; pw_gid := 1000;
     pw_gecos := chars "User"; pw_dir := chars "/home" |}.

Definition group_line (name : string) (gid : Z) : gr_entry :=
  {| gr_name := chars name; gr_gid := gid; gr_members := chars name |}.

Definition two_users : list pw_entry := [root_line; user_line "ana" 1000].
Definition two_groups : list gr_entry := [group_line "root" 0; group_line "staff" 1000].

Definition clean : list Z := replicate BUFSZ 0.

Definition etc_world (pdb : list pw_entry) (gdb : list gr_entry) : toy :=
  {| toy_files := <[etc_passwd := pw_file pdb]> {[etc_group := gr_file gdb]};
     toy_fds := []; toy_out := [] |}.

Definition no_files : toy := {| toy_files := empty; toy_fds := []; toy_out := [] |}.

Lemma two_users_is : passwd_is (etc_world two_users two_groups) clean two_users.
Proof.
  split; [done|]. split; [by_decide|]. exists (pw_file two_users). split; [|split; [done|by_decide]].
  eexists 0, _, _. split; [done|]. split; vm_compute; reflexivity.
Qed.

Lemma two_groups_is : group_is (etc_world two_users two_groups) clean two_groups.
Proof.
  split; [done|]. split; [by_decide|]. exists (gr_file two_groups). split; [|split; [done|by_decide]].
  eexists 0, _, _. split; [done|]. split; vm_compute; reflexivity.
Qed.

Lemma usertouid_lookup_witness :
  exists w', usertouid clean (chars "ana" ++ [0]) (etc_world two_users two_groups) = Ret 1000 w'.
Proof.
  apply (usertouid_lookup _ clean two_users (chars "ana") []); [by_decide|].
  apply two_users_is.
Defined.

Lemma uid_lookups_witness :
  exists w', uidtogid clean 1000 (etc_world two_users two_groups) = Ret 1000 w'.
Proof. apply (uid_lookups _ clean two_users 1000 two_users_is). Defined.

Lemma validateuserpass_correct_witness :
  (exists w', validateuserpass clean 1000 (chars "secret" ++ [0]) (etc_world two_users two_groups)
    = Ret 1 w') /\
  (exists w', validateuserpass clean 0 (chars "secret" ++ [0]) (etc_world two_users two_groups)
    = Ret 0 w').
Proof.
  split.
  - destruct (validateuserpass_correct _ clean two_users 1000 (chars "secret") []
      ltac:(by_decide) two_users_is) as [w' E].
    exists w'. rewrite E. vm_compute. reflexivity.
  - destruct (validateuserpass_correct _ clean two_users 0 (chars "secret") []
      ltac:(by_decide) two_users_is) as [w' E].
    exists w'. rewrite E. vm_compute. reflexivity.
Defined.

Lemma next_ids_free_witness :
  exists w1 w2 uid gid,
    nextuid clean (etc_world two_users two_groups) = Ret uid w1 /\
    least_free uid (map pw_uid two_users) /\
    nextgid clean (etc_world two_users two_groups) = Ret gid w2 /\
    least_free gid (map gr_gid two_groups).
Proof.
  apply next_ids_free; [apply two_users_is| |apply two_groups_is|];
    repeat constructor; simpl; lia.
Defined.

Lemma id_membership_witness :
  exists w', validateuid clean 1000 (etc_world two_users two_groups) = Ret minus1u w'.
Proof. apply (id_membership _ clean two_users two_groups 1000 two_users_is two_groups_is). Defined.

Lemma group_lookups_witness :
  exists w', grouptogid clean (chars "staff" ++ [0]) (etc_world two_users two_groups) = Ret 1000 w'.
Proof.
  apply (group_lookups _ clean two_groups (chars "staff") [] 1000); [by_decide|].
  apply two_groups_is.
Defined.

Lemma file_lengths_witness :
  exists w', grouplen clean (etc_world two_users two_groups) = Ret 29 w'.
Proof. apply (file_lengths _ clean two_users two_groups two_users_is two_groups_is). Defined.

Lemma passwd_unreadable_witness :
  exists w', usertouid clean (chars "ana" ++ [0]) no_files = Ret 0 w'.
Proof.
  apply (passwd_unreadable no_files no_files clean (-1) (chars "ana" ++ [0]) 0 []);
    [reflexivity|lia].
Defined.

(** One pass in file order is not enough when the uids are not sorted: after
    the lines of uids 1001 and 1000, [nextuid] proposes 1001 again. *)
Example nextuid_unsorted :
  exists w', nextuid clean (etc_world [user_line "bo" 1001; user_line "ana" 1000] two_groups)
    = Ret 1001 w'.
Proof. eexists. vm_compute. reflexivity. Qed.
