(* ===== verification/Mem.v ===== *)
(** * Words in memory

    Integers stored in the bytes of an object, least significant byte first,
    as the x86 does: the fields of the on-disk structures of [kernel/fs.h]
    and of the log header of [kernel/log.c] are read and written through
    these. *)

From S2P Require Import Prelude.

(** The [n] low bytes of [x]. *)
Fixpoint le_bytes (n : nat) (x : Z) : list Z :=
  match n with
  | O => []
  | S n' => x mod 256 :: le_bytes n' (x / 256)
  end.

Fixpoint le_value (l : list Z) : Z :=
  match l with
  | [] => 0
  | b :: l' => b + 256 * le_value l'
  end.

Definition load (n : nat) (m : list Z) (o : nat) : option Z :=
  if decide (o + n <= length m)%nat then Some (le_value (take n (drop o m))) else None.

Definition put (n : nat) (m : list Z) (o : nat) (x : Z) : option (list Z) :=
  if decide (o + n <= length m)%nat then Some (splice m o (le_bytes n x)) else None.

Definition bytes (l : list Z) : Prop := Forall byte l.

#[export] Instance byte_dec x : Decision (byte x).
Proof. unfold byte. apply _. Defined.
#[export] Instance bytes_dec l : Decision (bytes l).
Proof. unfold bytes. apply _. Defined.

Lemma le_bytes_length n x : length (le_bytes n x) = n.
Proof. revert x. induction n; intros x; simpl; auto. Qed.

Lemma le_bytes_bytes n x : bytes (le_bytes n x).
Proof.
  revert x. induction n; intros x; simpl; constructor; [|apply IHn].
  apply Z.mod_pos_bound. lia.
Qed.

Lemma le_value_bytes n x : le_value (le_bytes n x) = x mod 2 ^ (8 * Z.of_nat n).
Proof.
  revert x. induction n as [|n IH]; intros x.
  - by rewrite Z.mod_1_r.
  - cbn [le_bytes le_value]. rewrite IH.
    replace (2 ^ (8 * Z.of_nat (S n))) with (256 * 2 ^ (8 * Z.of_nat n)).
    + rewrite Z.rem_mul_r by lia. lia.
    + replace (8 * Z.of_nat (S n)) with (8 + 8 * Z.of_nat n) by lia.
      by rewrite Z.pow_add_r by lia.
Qed.

Lemma le_value_bounds l : bytes l -> 0 <= le_value l < 2 ^ (8 * Z.of_nat (length l)).
Proof.
  induction 1 as [|b l Hb _ IH]; [cbn; lia|]. cbn [le_value length].
  replace (8 * Z.of_nat (S (length l))) with (8 + 8 * Z.of_nat (length l)) by lia.
  rewrite Z.pow_add_r by lia. change (2 ^ 8) with 256. unfold byte in Hb. nia.
Qed.

Section mem.
Implicit Types (m : list Z) (n k o p : nat).

Lemma load_in n m o : (o + n <= length m)%nat -> load n m o = Some (le_value (take n (drop o m))).
Proof. intros. unfold load. by rewrite decide_True. Qed.

Lemma put_in n m o x :
  (o + n <= length m)%nat -> put n m o x = Some (splice m o (le_bytes n x)).
Proof. intros. unfold put. by rewrite decide_True. Qed.

Lemma put_some n m o x m' :
  put n m o x = Some m' -> (o + n <= length m)%nat /\ m' = splice m o (le_bytes n x).
Proof. unfold put. case_decide; intros; by simplify_eq. Qed.

Lemma put_length n m o x m' : put n m o x = Some m' -> length m' = length m.
Proof.
  intros [Ho ->]%put_some. apply splice_length. by rewrite le_bytes_length.
Qed.

Lemma slice_splice_same m o l :
  (o + length l <= length m)%nat -> take (length l) (drop o (splice m o l)) = l.
Proof.
  intros Hl. unfold splice. rewrite drop_app_ge by (rewrite length_take; lia).
  rewrite length_take. replace (o - o `min` length m)%nat with O by lia.
  apply take_app_length.
Qed.

Lemma slice_splice_other m o l n p :
  (o + length l <= length m)%nat -> (p + n <= o \/ o + length l <= p)%nat ->
  take n (drop p (splice m o l)) = take n (drop p m).
Proof.
  intros Hl Hd. apply list_eq. intros i.
  destruct (decide (i < n)%nat); [|rewrite !lookup_take_ge by lia; done].
  rewrite !lookup_take_lt, !lookup_drop by lia. apply lookup_splice_out; lia.
Qed.

(** What was stored is loaded back, and the other words are untouched. *)
Lemma load_put_same n m o x m' :
  put n m o x = Some m' -> load n m' o = Some (x mod 2 ^ (8 * Z.of_nat n)).
Proof.
  intros [Ho ->]%put_some. rewrite load_in by (rewrite splice_length; rewrite ?le_bytes_length; lia).
  rewrite <- (le_bytes_length n x) at 1. rewrite slice_splice_same by (by rewrite le_bytes_length).
  by rewrite le_value_bytes.
Qed.

Lemma load_put_other n k m o p x m' :
  put n m o x = Some m' -> (p + k <= o \/ o + n <= p)%nat -> load k m' p = load k m p.
Proof.
  intros Hp Hd. pose proof (put_length _ _ _ _ _ Hp) as Hlen.
  apply put_some in Hp as [Ho ->]. unfold load. rewrite Hlen.
  case_decide; [|done]. rewrite slice_splice_other by (rewrite le_bytes_length; lia). done.
Qed.

Lemma splice_bytes m o l : bytes m -> bytes l -> bytes (splice m o l).
Proof.
  intros Hm Hl. unfold splice, bytes. rewrite !Forall_app.
  split; [by apply Forall_take|]. split; [done|by apply Forall_drop].
Qed.

Lemma put_bytes n m o x m' : bytes m -> put n m o x = Some m' -> bytes m'.
Proof. intros Hm [_ ->]%put_some. apply splice_bytes; [done|apply le_bytes_bytes]. Qed.

Lemma load_bounds n m o x : bytes m -> load n m o = Some x -> 0 <= x < 2 ^ (8 * Z.of_nat n).
Proof.
  intros Hm. unfold load. case_decide; intros; simplify_eq.
  pose proof (le_value_bounds (take n (drop o m))) as Hb.
  rewrite length_take, length_drop in Hb.
  replace (n `min` (length m - o))%nat with n in Hb by lia.
  apply Hb. by apply Forall_take, Forall_drop.
Qed.
End mem.

#[export] Hint Rewrite le_bytes_length : xv6.
