(* ===== verification/BufIface.v ===== *)
(** * The buffer cache as its clients see it

    [BufCache] lists the operations of [kernel/bio.c] and the accesses to the
    members of a locked buffer that the log and the file system make;
    [BufCacheLaws] is what they may rely on.  The laws are stated over five
    observations of the cache: the disk, the contents of every block as a
    reader of the cache sees them, the buffers that are locked, the blocks
    whose buffers are dirty, and the writes the disk has received in order.
    [Bio] implements the interface. *)

From S2P Require Import Prelude.

Definition BSIZE : nat := 512.
Definition NBUF : nat := 30.
Definition ROOTDEV : Z := 1.
Definition FSSIZE : Z := 2000.

Abbreviation block := (list Z).

Definition blocks_wf (d : list block) : Prop := Forall (fun b => length b = BSIZE) d.

(** Lookup and update of a block by number. *)
Abbreviation at_ n := (Z.to_nat n) (only parsing).

(** The disk after some writes. *)
Definition replay (ws : list (Z * block)) (d : list block) : list block :=
  fold_left (fun d w => <[at_ w.1 := w.2]> d) ws d.

Section replay.
Implicit Types (ws : list (Z * block)) (d : list block).

Lemma replay_app ws ws' d : replay (ws ++ ws') d = replay ws' (replay ws d).
Proof. apply fold_left_app. Qed.

Lemma replay_length ws d : length (replay ws d) = length d.
Proof.
  revert d. induction ws as [|w ws IH]; intros d; simpl; [done|]. by rewrite IH, length_insert.
Qed.

Lemma replay_other ws d n : n ∉ (fun w => at_ w.1) <$> ws -> replay ws d !! n = d !! n.
Proof.
  revert d. induction ws as [|w ws IH]; intros d; simpl; [done|].
  intros [Hw Hn]%not_elem_of_cons. rewrite IH by done. by rewrite list_lookup_insert_ne.
Qed.

(** A block that is written with one value only. *)
Lemma replay_written ws d n v :
  (n < length d)%nat -> n ∈ (fun w => at_ w.1) <$> ws ->
  (forall w, w ∈ ws -> at_ w.1 = n -> w.2 = v) -> replay ws d !! n = Some v.
Proof.
  revert d. induction ws as [|w ws IH]; intros d Hn Hin Hv; simpl in *; [set_solver|].
  destruct (decide (n ∈ (fun w => at_ w.1) <$> ws)) as [Hi|Hi].
  - apply IH; [by rewrite length_insert|done|]. intros w' Hw'. apply Hv. set_solver.
  - rewrite replay_other by done. assert (n = at_ w.1) as -> by set_solver.
    rewrite list_lookup_insert_eq by done. f_equal. apply Hv; set_solver.
Qed.

(** A block that is written does not depend on what was there. *)
Lemma replay_base ws d d' n :
  length d = length d' -> n ∈ (fun w => at_ w.1) <$> ws -> replay ws d !! n = replay ws d' !! n.
Proof.
  revert d d'. induction ws as [|w ws IH]; intros d d' Hl Hin; simpl in *; [set_solver|].
  destruct (decide (n ∈ (fun w => at_ w.1) <$> ws)) as [Hi|Hi].
  - apply IH; [by rewrite !length_insert|done].
  - rewrite !replay_other by done. assert (n = at_ w.1) as -> by set_solver.
    destruct (decide (at_ w.1 < length d)%nat).
    + rewrite !list_lookup_insert_eq; [done|lia|lia].
    + rewrite !lookup_ge_None_2; [done|rewrite length_insert; lia|rewrite length_insert; lia].
Qed.

(** Replaying some of the writes first changes nothing. *)
Lemma replay_again ws k d : replay ws (replay (take k ws) d) = replay ws d.
Proof.
  apply list_eq. intros n. destruct (decide (n ∈ (fun w => at_ w.1) <$> ws)) as [Hi|Hi].
  - apply replay_base; [apply replay_length|done].
  - rewrite !replay_other; [done|done| |done]. intros Hn. apply Hi.
    apply list_elem_of_fmap in Hn as (w & -> & Hw%subseteq_take). apply list_elem_of_fmap. by exists w.
Qed.

(** A block has its old value or one that was written. *)
Lemma replay_value ws d n :
  replay ws d !! n = d !! n \/ exists w, w ∈ ws /\ at_ w.1 = n /\ replay ws d !! n = Some w.2.
Proof.
  revert d. induction ws as [|w ws IH]; intros d; simpl; [by left|].
  destruct (IH (<[at_ w.1 := w.2]> d)) as [->|(w' & Hw' & Hn & ->)]; [|right; set_solver].
  destruct (decide (at_ w.1 = n)) as [<-|Hne]; [|left; by rewrite list_lookup_insert_ne].
  destruct (decide (at_ w.1 < length d)%nat).
  - right. exists w. rewrite list_lookup_insert_eq by done. set_solver.
  - left. rewrite !lookup_ge_None_2; [done|lia|rewrite length_insert; lia].
Qed.

Lemma replay_wf ws d :
  blocks_wf d -> Forall (fun w => length w.2 = BSIZE) ws -> blocks_wf (replay ws d).
Proof.
  intros Hd Hw. revert d Hd. induction Hw as [|w ws Hw _ IH]; intros d Hd; simpl; [done|].
  apply IH. by apply Forall_insert.
Qed.
End replay.

Class BufCache (S : Type) : Type := {
  bread : Z -> Z -> M S nat;
  bwrite : nat -> M S unit;
  brelse : nat -> M S unit;
  b_data_of : nat -> S -> option block;         (* b->data *)
  b_blockno_of : nat -> S -> option Z;          (* b->blockno *)
  set_data : nat -> block -> S -> S;            (* stores into b->data *)
  set_dirty : nat -> S -> S                     (* b->flags |= B_DIRTY *)
}.

Class CacheView (S : Type) : Type := {
  cache_ok : S -> Prop;
  disk : S -> list block;
  view : S -> list block;
  held : S -> gmap nat Z;
  pinned : S -> gset Z;
  written : S -> list (Z * block)
}.

(** The blocks whose buffers cannot be recycled. *)
Definition busy {S} `{CacheView S} (s : S) : gset Z := pinned s ∪ map_img (held s).

(** The cache can serve [b]: it is certainly cached, or a buffer is free. *)
Definition room {S} `{CacheView S} (s : S) (b : Z) : Prop :=
  b ∈ pinned s \/ (size (busy s) < NBUF)%nat.

Lemma room_idle {S} `{CacheView S} (s : S) b : held s = ∅ -> pinned s = ∅ -> room s b.
Proof.
  intros Hh Hp. right. unfold busy. rewrite Hh, Hp, map_img_empty.
  rewrite (left_id_L ∅ (∪)), size_empty. unfold NBUF. lia.
Qed.

(** A well-formed cache with the given observations. *)
Record looks {S} `{CacheView S} (s : S) (d v : list block) (h : gmap nat Z) (p : gset Z)
    (w : list (Z * block)) : Prop := {
  lk_ok : cache_ok s;
  lk_disk : disk s = d;
  lk_view : view s = v;
  lk_held : held s = h;
  lk_pinned : pinned s = p;
  lk_written : written s = w
}.

Class BufCacheLaws (S : Type) `{BufCache S, CacheView S} : Prop := {
  view_length s : cache_ok s -> length (view s) = length (disk s);
  disk_wf s : cache_ok s -> blocks_wf (disk s);
  view_wf s : cache_ok s -> blocks_wf (view s);
  held_range s h b : cache_ok s -> held s !! h = Some b -> 0 <= b < Z.of_nat (length (disk s));
  view_data s h b : cache_ok s -> held s !! h = Some b -> b_data_of h s = view s !! at_ b;
  view_blockno s h b : cache_ok s -> held s !! h = Some b -> b_blockno_of h s = Some b;
  (** a block that no buffer is dirty for or holds is read from the disk *)
  view_clean s b :
    cache_ok s -> 0 <= b -> b ∉ busy s -> view s !! at_ b = disk s !! at_ b;
  bread_law s b :
    cache_ok s -> 0 <= b < Z.of_nat (length (disk s)) -> b ∉ (map_img (held s) : gset Z) ->
    room s b ->
    wp (bread ROOTDEV b) s (fun h s' =>
      held s !! h = None /\
      looks s' (disk s) (view s) (<[h := b]> (held s)) (pinned s) (written s));
  set_data_law s h b d :
    cache_ok s -> held s !! h = Some b -> length d = BSIZE ->
    looks (set_data h d s) (disk s) (<[at_ b := d]> (view s)) (held s) (pinned s) (written s);
  set_dirty_law s h b :
    cache_ok s -> held s !! h = Some b ->
    looks (set_dirty h s) (disk s) (view s) (held s) ({[b]} ∪ pinned s) (written s);
  bwrite_law s h b d :
    cache_ok s -> held s !! h = Some b -> view s !! at_ b = Some d ->
    wp (bwrite h) s (fun _ s' =>
      looks s' (<[at_ b := d]> (disk s)) (view s) (held s) (pinned s ∖ {[b]})
        (written s ++ [(b, d)]));
  brelse_law s h b :
    cache_ok s -> held s !! h = Some b -> b ∈ pinned s \/ view s !! at_ b = disk s !! at_ b ->
    wp (brelse h) s (fun _ s' =>
      looks s' (disk s) (view s) (delete h (held s)) (pinned s) (written s))
}.
