(* ===== verification/Lock.v ===== *)
(** * Spin locks and sleep locks ([kernel/spinlock.c], [kernel/sleeplock.c])

    Part one is one spin lock shared by several processors, as a step
    relation: each atomic access to the lock word is a step, and
    [pushcli]/[popcli] keep the interrupt flag of the processor.  Part two is
    the sleep lock seen by the one process that runs. *)

From S2P Require Import Prelude.

Module Spinlock.
(** ** Interrupt nesting *)

Record cpu : Type := { ncli : Z; intena : bool; iflag : bool }.

(** [eflags = readeflags(); cli(); if(ncli == 0) intena = eflags & FL_IF; ncli += 1] *)
Definition pushcli (c : cpu) : cpu :=
  {| ncli := ncli c + 1;
     intena := if ncli c =? 0 then iflag c else intena c;
     iflag := false |}.

Definition popcli (c : cpu) : cpu + string :=
  if iflag c then inr "popcli - interruptible"%string
  else if ncli c - 1 <? 0 then inr "popcli"%string
  else inl {| ncli := ncli c - 1; intena := intena c;
              iflag := if (ncli c - 1 =? 0) && intena c then true else iflag c |}.

(** Interrupts are off while some lock is held. *)
Definition cpu_ok (c : cpu) : Prop := 0 <= ncli c /\ (0 < ncli c -> iflag c = false).

Lemma cpu_eq c d : ncli c = ncli d -> intena c = intena d -> iflag c = iflag d -> c = d.
Proof. destruct c, d. simpl. congruence. Qed.

(** ** One spin lock and its processors *)

Record spinlock : Type := { locked : Z; lcpu : option nat }.

Definition initlock : spinlock := {| locked := 0; lcpu := None |}.

(** Where a processor is in [acquire] and [release]: outside, spinning on
    [xchg], after the [xchg] that returned 0, in the critical section, or
    between [lk->cpu = 0] and the store that frees the lock. *)
Inductive pc : Type := Out | Spin | Got | In | Clear | Panic (msg : string).

Record mach : Type := { lk : spinlock; cpus : list (cpu * pc) }.

(** [lock->locked && lock->cpu == mycpu()] *)
Definition holding_val (l : spinlock) (i : nat) : bool :=
  negb (locked l =? 0) && bool_decide (lcpu l = Some i).

(** [holding]: the comparison between a [pushcli] and a [popcli]. *)
Definition holding (l : spinlock) (i : nat) (c : cpu) : (cpu * bool) + string :=
  match popcli (pushcli c) with
  | inl c' => inl (c', holding_val l i)
  | inr msg => inr msg
  end.

(** From the call of [acquire] to its loop. *)
Definition acquire_enter (l : spinlock) (i : nat) (c : cpu) : cpu * pc :=
  let c1 := pushcli c in
  match holding l i c1 with
  | inr msg => (c1, Panic msg)
  | inl (c2, true) => (c2, Panic "acquire")
  | inl (c2, false) => (c2, Spin)
  end.

(** [xchg(&lk->locked, 1)] and the test of the value it returns. *)
Definition acquire_xchg (l : spinlock) : spinlock * pc :=
  ({| locked := 1; lcpu := lcpu l |}, if locked l =? 0 then Got else Spin).

Definition acquire_record (l : spinlock) (i : nat) : spinlock :=
  {| locked := locked l; lcpu := Some i |}.

(** From the call of [release] to [lk->cpu = 0]. *)
Definition release_enter (l : spinlock) (i : nat) (c : cpu) : spinlock * (cpu * pc) :=
  match holding l i c with
  | inr msg => (l, (c, Panic msg))
  | inl (c1, false) => (l, (c1, Panic "release"))
  | inl (c1, true) => ({| locked := locked l; lcpu := None |}, (c1, Clear))
  end.

(** The store that frees the lock, and [popcli]. *)
Definition release_store (l : spinlock) (c : cpu) : spinlock * (cpu * pc) :=
  ({| locked := 0; lcpu := lcpu l |},
   match popcli c with inl c' => (c', Out) | inr msg => (c, Panic msg) end).

(** A processor takes one step; [acquire] and [release] may be called both
    with and without the lock. *)
Inductive step : mach -> mach -> Prop :=
  | s_acquire l cs i c p :
      cs !! i = Some (c, p) -> p = Out \/ p = In ->
      step {| lk := l; cpus := cs |} {| lk := l; cpus := <[i := acquire_enter l i c]> cs |}
  | s_xchg l cs i c :
      cs !! i = Some (c, Spin) ->
      step {| lk := l; cpus := cs |}
           {| lk := (acquire_xchg l).1; cpus := <[i := (c, (acquire_xchg l).2)]> cs |}
  | s_record l cs i c :
      cs !! i = Some (c, Got) ->
      step {| lk := l; cpus := cs |} {| lk := acquire_record l i; cpus := <[i := (c, In)]> cs |}
  | s_release l cs i c p :
      cs !! i = Some (c, p) -> p = Out \/ p = In ->
      step {| lk := l; cpus := cs |}
           {| lk := (release_enter l i c).1; cpus := <[i := (release_enter l i c).2]> cs |}
  | s_store l cs i c :
      cs !! i = Some (c, Clear) ->
      step {| lk := l; cpus := cs |}
           {| lk := (release_store l c).1; cpus := <[i := (release_store l c).2]> cs |}.

Definition reaches : mach -> mach -> Prop := rtc step.

(** The processor owns the lock word. *)
Definition owns (p : pc) : bool :=
  match p with Got | In | Clear => true | _ => false end.

(** The initial state: the lock is free and nobody is in it; the processors
    may hold other locks. *)
Definition quiet (m : mach) : Prop :=
  lk m = initlock /\ Forall (fun cp => cpu_ok cp.1 /\ cp.2 = Out) (cpus m).

(** A processor that called [acquire] while holding the lock stopped. *)
Definition stopped (p : pc) : Prop := match p with Panic _ => True | _ => False end.

(** The invariant: the interrupt flag is off inside, the lock word is 1
    exactly while somebody owns it or an owner stopped in [acquire], and the
    recorded processor is the one in the critical section. *)
Record lock_inv (m : mach) : Prop := {
  li_cpu i c p : cpus m !! i = Some (c, p) -> cpu_ok c /\ (p <> Out -> ~ stopped p -> 0 < ncli c);
  li_word : locked (lk m) = 0 \/ locked (lk m) = 1;
  li_owned i c p : cpus m !! i = Some (c, p) -> owns p = true -> locked (lk m) = 1;
  li_unique i j c d p q : cpus m !! i = Some (c, p) -> cpus m !! j = Some (d, q) ->
    owns p = true -> owns q = true -> i = j;
  li_in i c : cpus m !! i = Some (c, In) -> lcpu (lk m) = Some i;
  li_rec i : lcpu (lk m) = Some i -> locked (lk m) = 1 /\
    (exists c p, cpus m !! i = Some (c, p) /\ (p = In \/ stopped p)) /\
    forall j c q, cpus m !! j = Some (c, q) -> owns q = true -> j = i /\ q = In
}.

Lemma pushcli_ok c : cpu_ok c -> cpu_ok (pushcli c) /\ 0 < ncli (pushcli c).
Proof. unfold cpu_ok. simpl. intros [? ?]. repeat split; lia. Qed.

(** A [popcli] that matches a [pushcli] puts the flag and the depth back. *)
Lemma pop_push c : cpu_ok c -> exists c', popcli (pushcli c) = inl c' /\
  ncli c' = ncli c /\ iflag c' = iflag c /\ (0 < ncli c -> intena c' = intena c).
Proof.
  intros [Hn Hi]. unfold popcli. simpl. destruct (Z.ltb_spec (ncli c + 1 - 1) 0); [lia|].
  eexists. split; [done|]. simpl. split; [lia|].
  destruct (Z.eqb_spec (ncli c + 1 - 1) 0); destruct (Z.eqb_spec (ncli c) 0); try lia; simpl.
  - split; [by destruct (iflag c)|lia].
  - split; [symmetry; apply Hi; lia|done].
Qed.

Lemma popcli_ok c : cpu_ok c -> 0 < ncli c ->
  exists c', popcli c = inl c' /\ cpu_ok c' /\ ncli c' = ncli c - 1.
Proof.
  intros [Hn Hi] Hp. unfold popcli. rewrite Hi by done.
  destruct (Z.ltb_spec (ncli c - 1) 0); [lia|]. eexists. split; [done|].
  unfold cpu_ok. simpl. split; [|done]. split; [lia|]. intros.
  destruct (Z.eqb_spec (ncli c - 1) 0); [lia|done].
Qed.

Lemma holding_ok l i c : cpu_ok c -> exists c', holding l i c = inl (c', holding_val l i) /\
  cpu_ok c' /\ ncli c' = ncli c.
Proof.
  intros Hc. destruct (pop_push c Hc) as (c' & E & Hn & Hi & _). unfold holding. rewrite E.
  exists c'. split; [done|]. unfold cpu_ok in *. rewrite Hn, Hi. done.
Qed.

Lemma acquire_enter_ok l i c : cpu_ok c ->
  exists c', cpu_ok c' /\ 0 < ncli c' /\
    acquire_enter l i c = (c', if holding_val l i then Panic "acquire" else Spin).
Proof.
  intros Hc. destruct (pushcli_ok c Hc) as [H1 H2]. unfold acquire_enter.
  destruct (holding_ok l i (pushcli c) H1) as (c' & -> & H3 & H4).
  exists c'. split; [done|]. split; [lia|]. by destruct (holding_val l i).
Qed.

Lemma release_enter_ok l i c : cpu_ok c ->
  exists c', cpu_ok c' /\ ncli c' = ncli c /\
    release_enter l i c =
      if holding_val l i then ({| locked := locked l; lcpu := None |}, (c', Clear))
      else (l, (c', Panic "release")).
Proof.
  intros Hc. unfold release_enter.
  destruct (holding_ok l i c Hc) as (c' & -> & H3 & H4). exists c'.
  by destruct (holding_val l i).
Qed.

Lemma holding_val_true l i : holding_val l i = true <-> locked l <> 0 /\ lcpu l = Some i.
Proof.
  unfold holding_val. rewrite andb_true_iff, negb_true_iff, Z.eqb_neq, bool_decide_eq_true. done.
Qed.

(** Case analysis on a lookup after one processor moved. *)
Ltac split_cpus :=
  repeat match goal with
  | H : <[_ := _]> _ !! _ = Some _ |- _ =>
      apply list_lookup_insert_Some in H as [(? & ? & ?)|(? & ?)]; simplify_eq
  end.

(** A processor moves without touching ownership of the lock. *)
Lemma inv_move l cs i c p c' p' :
  lock_inv {| lk := l; cpus := cs |} -> cs !! i = Some (c, p) ->
  cpu_ok c' -> (p' <> Out -> ~ stopped p' -> 0 < ncli c') ->
  owns p' = false -> (lcpu l = Some i -> stopped p') ->
  lock_inv {| lk := l; cpus := <[i := (c', p')]> cs |}.
Proof.
  intros [H1 H2 H3 H4 H5 H6] Hi Hc Hn Ho Hs. split; cbn [lk cpus] in *.
  - intros. split_cpus; eauto.
  - done.
  - intros. split_cpus; try congruence; eauto.
  - intros. split_cpus; try congruence; eauto.
  - intros. split_cpus; try done; eauto.
  - intros j Hj. destruct (H6 j Hj) as (Hl & (d & q & Hq & Hin) & Hall). split; [done|]. split.
    + destruct (decide (i = j)) as [->|Hne].
      * exists c', p'. rewrite list_lookup_insert_eq by (by eapply lookup_lt_Some). auto.
      * exists d, q. by rewrite list_lookup_insert_ne.
    + intros. split_cpus; try congruence; eauto.
Qed.

Lemma inv_xchg l cs i c :
  lock_inv {| lk := l; cpus := cs |} -> cs !! i = Some (c, Spin) ->
  lock_inv {| lk := (acquire_xchg l).1; cpus := <[i := (c, (acquire_xchg l).2)]> cs |}.
Proof.
  intros Hinv Hi. pose proof Hinv as [H1 H2 H3 H4 H5 H6]. cbn [lk cpus] in *.
  assert (Hc := H1 _ _ _ Hi). unfold acquire_xchg. cbn [fst snd].
  destruct (Z.eqb_spec (locked l) 0) as [Hz|Hz].
  - assert (Hnone : lcpu l = None) by (destruct (lcpu l) eqn:E; [destruct (H6 _ eq_refl); lia|done]).
    assert (Hno : forall j d q, cs !! j = Some (d, q) -> owns q = false).
    { intros j d q Hj. destruct (owns q) eqn:E; [|done]. specialize (H3 _ _ _ Hj E). lia. }
    split; cbn [lk cpus locked lcpu].
    + intros. split_cpus; [|eauto]. naive_solver.
    + auto.
    + auto.
    + intros. split_cpus; try done; exfalso;
      match goal with
      | H : cs !! _ = Some (_, ?q), E : owns ?q = true |- _ => by rewrite (Hno _ _ _ H) in E
      end.
    + intros. split_cpus. by eapply H5.
    + intros j Hj. congruence.
  - assert (Hl : locked l = 1) by (destruct H2; lia).
    assert (E : {| locked := 1; lcpu := lcpu l |} = l) by (destruct l; simpl in *; by subst).
    rewrite E. eapply inv_move; [done|done|apply Hc| |done|].
    + intros. by apply Hc.
    + intros Hq. destruct (H6 _ Hq) as (_ & (d & q & Hq' & Hin) & _). simplify_eq. by destruct Hin.
Qed.

Lemma inv_record l cs i c :
  lock_inv {| lk := l; cpus := cs |} -> cs !! i = Some (c, Got) ->
  lock_inv {| lk := acquire_record l i; cpus := <[i := (c, In)]> cs |}.
Proof.
  intros [H1 H2 H3 H4 H5 H6] Hi. cbn [lk cpus] in *.
  assert (Hu : forall j d q, cs !! j = Some (d, q) -> owns q = true -> j = i)
    by (intros; by eapply H4).
  assert (Hlt := lookup_lt_Some _ _ _ Hi). assert (Hc := H1 _ _ _ Hi).
  split; cbn [lk cpus acquire_record locked lcpu].
  - intros. split_cpus; [|eauto]. naive_solver.
  - done.
  - intros. by eapply (H3 i).
  - intros. split_cpus; try done; [symmetry| |]; eauto.
  - intros j d Hj. split_cpus; [done|]. f_equal. symmetry. by eapply Hu.
  - intros j [= <-]. split; [by eapply (H3 i)|]. split.
    + exists c, In. rewrite list_lookup_insert_eq by done. auto.
    + intros. split_cpus; try done; exfalso; eauto.
Qed.

Lemma inv_clear l cs i c c' :
  lock_inv {| lk := l; cpus := cs |} -> cs !! i = Some (c, In) -> cpu_ok c' -> 0 < ncli c' ->
  lock_inv {| lk := {| locked := locked l; lcpu := None |}; cpus := <[i := (c', Clear)]> cs |}.
Proof.
  intros [H1 H2 H3 H4 H5 H6] Hi Hc Hn. cbn [lk cpus] in *.
  assert (Hl := H3 _ _ _ Hi eq_refl). split; cbn [lk cpus locked lcpu].
  - intros. split_cpus; eauto.
  - done.
  - done.
  - intros. split_cpus; try done; [symmetry| |]; eauto.
  - intros j d Hj. split_cpus. exfalso. assert (j = i) by (by eapply H4). done.
  - done.
Qed.

Lemma inv_store l cs i c c' :
  lock_inv {| lk := l; cpus := cs |} -> cs !! i = Some (c, Clear) -> cpu_ok c' ->
  lock_inv {| lk := {| locked := 0; lcpu := lcpu l |}; cpus := <[i := (c', Out)]> cs |}.
Proof.
  intros [H1 H2 H3 H4 H5 H6] Hi Hc. cbn [lk cpus] in *.
  assert (Hnone : lcpu l = None).
  { destruct (lcpu l) as [j|] eqn:E; [|done]. destruct (H6 _ eq_refl) as (_ & _ & Hall).
    by destruct (Hall _ _ _ Hi). }
  assert (Hno : forall j d q, i <> j -> cs !! j = Some (d, q) -> owns q = true -> False)
    by (intros j d q Hj E Ho; by apply Hj, (H4 _ _ _ _ _ _ Hi E)).
  split; cbn [lk cpus locked lcpu].
  - intros. split_cpus; [by split|eauto].
  - auto.
  - intros. split_cpus; try done; exfalso; eauto.
  - intros. split_cpus; try done; exfalso; eauto.
  - intros j d Hj. split_cpus. exfalso. eauto.
  - intros. congruence.
Qed.

Lemma inv_step m m' : lock_inv m -> step m m' -> lock_inv m'.
Proof.
  intros Hinv Hs. destruct Hs as [l cs i c p Hi Hp|l cs i c Hi|l cs i c Hi|l cs i c p Hi Hp|l cs i c Hi];
    pose proof Hinv as [H1 _ _ _ H5 H6]; cbn [lk cpus] in *; destruct (H1 _ _ _ Hi) as [Hc Hn].
  - destruct (acquire_enter_ok l i c Hc) as (c' & Hc' & Hn' & ->).
    eapply inv_move; [done|done|done|done|by destruct (holding_val l i)|].
    intros Hl. rewrite (proj2 (holding_val_true l i)); [done|].
    destruct (H6 _ Hl) as [-> _]. done.
  - by apply inv_xchg.
  - by apply inv_record.
  - destruct (release_enter_ok l i c Hc) as (c' & Hc' & Hn' & ->).
    destruct (holding_val l i) eqn:Eh; cbn [fst snd].
    + apply holding_val_true in Eh as [_ Hl].
      destruct (H6 _ Hl) as (_ & (d & q & Hq & Hin) & _). rewrite Hi in Hq. injection Hq as <- <-.
      assert (p = In) as -> by (destruct Hp as [->| ->]; [destruct Hin; done|done]).
      eapply inv_clear; [done|done|done|]. rewrite Hn'. apply Hn; [done|by intros []].
    + eapply inv_move; [done|done|done| |done|done]. intros _ Hst. by destruct Hst.
  - destruct (popcli_ok c Hc) as (c' & E & Hc' & _); [apply Hn; [done|by intros []]|].
    unfold release_store. rewrite E. by eapply inv_store.
Qed.

Lemma quiet_lock_inv m : quiet m -> lock_inv m.
Proof.
  intros [Hl Hq]. rewrite Forall_lookup in Hq.
  assert (H : forall i c p, cpus m !! i = Some (c, p) -> cpu_ok c /\ p = Out)
    by (intros i c p Hi; by apply (Hq _ _ Hi)).
  split; rewrite ?Hl; simpl; auto; intros;
    repeat match goal with E : cpus m !! _ = Some _ |- _ => apply H in E as [? ?] end;
    subst; done.
Qed.

Lemma reaches_inv m m' : quiet m -> reaches m m' -> lock_inv m'.
Proof.
  intros Hq Hr. apply quiet_lock_inv in Hq. revert Hq. induction Hr; [done|]. eauto using inv_step.
Qed.

(** C23. Mutual exclusion of the spin lock: whatever the processors do, two of
    them are never between the [xchg] of [acquire] that got the lock and the
    store of [release] that frees it, and a processor that is inside runs
    with interrupts off. *)
Theorem mutual_exclusion m m' i j c d p q :
  quiet m -> reaches m m' ->
  cpus m' !! i = Some (c, p) -> cpus m' !! j = Some (d, q) -> owns p = true -> owns q = true ->
  i = j /\ iflag c = false.
Proof.
  intros Hq Hr Hi Hj Hp Ho. destruct (reaches_inv m m' Hq Hr) as [H1 _ _ H4 _ _].
  split; [by eapply H4|]. destruct (H1 _ _ _ Hi) as [[_ Hc] Hn]. apply Hc, Hn; destruct p; try done; by intros [].
Qed.

(** [acquire] panics exactly for the processor that is already in the
    critical section, and [release] exactly for one that is not. *)
Theorem lock_panics m m' i c p :
  quiet m -> reaches m m' -> cpus m' !! i = Some (c, p) -> p = Out \/ p = In ->
  (stopped (acquire_enter (lk m') i c).2 <-> p = In) /\
  (stopped (release_enter (lk m') i c).2.2 <-> p = Out).
Proof.
  intros Hq Hr Hi Hp. destruct (reaches_inv m m' Hq Hr) as [H1 H2 H3 H4 H5 H6].
  destruct (H1 _ _ _ Hi) as [Hc _].
  destruct (acquire_enter_ok (lk m') i c Hc) as (c1 & _ & _ & ->).
  destruct (release_enter_ok (lk m') i c Hc) as (c2 & _ & _ & ->).
  assert (Hh : holding_val (lk m') i = true <-> p = In).
  { rewrite holding_val_true. split.
    - intros [_ Hl]. destruct (H6 _ Hl) as (_ & (d & q & Hq' & Hin) & _). simplify_eq.
      destruct Hp as [->|]; [destruct Hin|]; done.
    - intros ->. rewrite (H5 _ _ Hi), (H3 _ _ _ Hi) by done. done. }
  destruct (holding_val (lk m') i); simpl; destruct Hp as [->| ->]; intuition congruence.
Qed.

(** A processor that takes a free lock and releases it gets back its
    interrupt flag and its nesting depth. *)
Theorem acquire_release_balanced l i c :
  cpu_ok c -> locked l = 0 -> lcpu l = None ->
  exists c1 c2 c3,
    acquire_enter l i c = (c1, Spin) /\ (acquire_xchg l).2 = Got /\
    let l1 := acquire_record (acquire_xchg l).1 i in
    release_enter l1 i c1 = ({| locked := 1; lcpu := None |}, (c2, Clear)) /\
    release_store {| locked := 1; lcpu := None |} c2 = (initlock, (c3, Out)) /\
    ncli c3 = ncli c /\ iflag c3 = iflag c.
Proof.
  intros Hc Hl Hn. pose proof (pushcli_ok c Hc) as [Hp Hpn].
  destruct (pop_push _ Hp) as (c1 & E1 & N1 & I1 & A1).
  assert (Hc1 : cpu_ok c1) by (unfold cpu_ok in *; by rewrite N1, I1).
  destruct (pop_push _ Hc1) as (c2 & E2 & N2 & I2 & A2).
  destruct (pop_push _ Hc) as (c3 & E3 & N3 & I3 & _).
  assert (c1 = pushcli c) as -> by (apply cpu_eq; auto).
  assert (c2 = pushcli c) as -> by (apply cpu_eq; auto).
  exists (pushcli c), (pushcli c), c3.
  unfold acquire_enter, release_enter, release_store, holding, holding_val.
  rewrite E1. cbn [acquire_xchg acquire_record locked lcpu fst snd]. rewrite Hl, E3. simpl.
  rewrite bool_decide_eq_true_2 by done. done.
Qed.

(** ** Witnesses *)

Definition idle_cpu : cpu := {| ncli := 0; intena := false; iflag := true |}.
Definition two_cpus : mach := {| lk := initlock; cpus := [(idle_cpu, Out); (idle_cpu, Out)] |}.
Definition busy_cpu : cpu := {| ncli := 1; intena := true; iflag := false |}.

(** Both processors call [acquire]; the first gets the lock. *)
Definition contended : mach :=
  {| lk := {| locked := 1; lcpu := Some 0%nat |}; cpus := [(busy_cpu, In); (busy_cpu, Spin)] |}.

Lemma contended_reached : reaches two_cpus contended.
Proof.
  eapply rtc_l; [apply (s_acquire _ _ 0 idle_cpu Out); [done|by left]|].
  eapply rtc_l; [apply (s_acquire _ _ 1 idle_cpu Out); [done|by left]|].
  eapply rtc_l; [apply (s_xchg _ _ 0 busy_cpu); done|].
  eapply rtc_l; [apply (s_xchg _ _ 1 busy_cpu); done|].
  eapply rtc_l; [apply (s_record _ _ 0 busy_cpu); done|]. apply rtc_refl.
Qed.

Lemma two_cpus_quiet : quiet two_cpus.
Proof. split; [done|]. repeat constructor; simpl; lia. Qed.

Lemma mutual_exclusion_witness : 0%nat = 0%nat /\ iflag busy_cpu = false.
Proof.
  apply (mutual_exclusion two_cpus contended 0 0 busy_cpu busy_cpu In In two_cpus_quiet
           contended_reached); reflexivity.
Defined.

Lemma lock_panics_witness :
  stopped (acquire_enter (lk contended) 0 busy_cpu).2 <-> In = In.
Proof.
  apply (lock_panics two_cpus contended 0 busy_cpu In two_cpus_quiet contended_reached);
    [reflexivity|by right].
Defined.

Lemma acquire_release_balanced_witness :
  exists c1, acquire_enter initlock 1 idle_cpu = (c1, Spin).
Proof.
  destruct (acquire_release_balanced initlock 1 idle_cpu) as (c1 & c2 & c3 & H & _);
    [split; simpl; lia|done|done|]. by exists c1.
Defined.

End Spinlock.

(** ** Sleep locks

    The fields of [struct sleeplock]; [pid] is the pid of the process that
    runs.  [acquiresleep] of a lock that is taken puts the process to sleep,
    which is the [None] of the model: its caller stops there. *)

Record sleeplock : Type := { sl_locked : bool; sl_pid : Z }.

Definition initsleeplock : sleeplock := {| sl_locked := false; sl_pid := 0 |}.

Definition acquiresleep (pid : Z) (l : sleeplock) : option sleeplock :=
  if sl_locked l then None else Some {| sl_locked := true; sl_pid := pid |}.

Definition releasesleep (l : sleeplock) : sleeplock := {| sl_locked := false; sl_pid := 0 |}.

Definition holdingsleep (pid : Z) (l : sleeplock) : bool := sl_locked l && (sl_pid l =? pid).
