(* ===== verification/Bio.v ===== *)
(** * The buffer cache ([kernel/bio.c]) over the memory disk ([kernel/memide.c])

    The [NBUF] buffers are numbered from 0 and [HEAD] is the number of
    [bcache.head]; the [prev] and [next] members of all of them are two
    arrays, [bprev] and [bnext].  The state also has the disk, the pid of the
    running process, and the writes the disk has received ([wlog], which the
    code does not keep: crash theorems are about its prefixes).  The code is
    modelled as one process runs it: a buffer locked by nobody else is the
    case in which [bget] returns. *)

From S2P Require Import Prelude BufIface Lock.

Definition B_VALID : Z := 2.
Definition B_DIRTY : Z := 4.

Record buf : Type := {
  b_flags : Z;
  b_dev : Z;
  b_blockno : Z;
  b_lock : sleeplock;
  b_refcnt : Z;
  b_data : block
}.

Record bstate : Type := {
  bufs : list buf;
  bprev : list nat;
  bnext : list nat;
  mypid : Z;
  memdisk : list block;
  wlog : list (Z * block)
}.

Definition HEAD : nat := NBUF.

(** ** Access to the members *)

Definition with_bufs (s : bstate) (l : list buf) : bstate :=
  {| bufs := l; bprev := bprev s; bnext := bnext s; mypid := mypid s; memdisk := memdisk s;
     wlog := wlog s |}.

Definition getb (i : nat) : M bstate buf := fun s => lift (bufs s !! i) s.

(** [f] says what the assignment does to the buffer. *)
Definition setb (i : nat) (f : buf -> buf) : M bstate unit := fun s =>
  match bufs s !! i with
  | Some b => Ret tt (with_bufs s (<[i := f b]> (bufs s)))
  | None => Stop Undefined s
  end.

Definition get_next (i : nat) : M bstate nat := fun s => lift (bnext s !! i) s.
Definition get_prev (i : nat) : M bstate nat := fun s => lift (bprev s !! i) s.

Definition set_next (i j : nat) : M bstate unit := fun s =>
  match store (bnext s) i j with
  | Some l => Ret tt {| bufs := bufs s; bprev := bprev s; bnext := l; mypid := mypid s;
                        memdisk := memdisk s; wlog := wlog s |}
  | None => Stop Undefined s
  end.

Definition set_prev (i j : nat) : M bstate unit := fun s =>
  match store (bprev s) i j with
  | Some l => Ret tt {| bufs := bufs s; bprev := l; bnext := bnext s; mypid := mypid s;
                        memdisk := memdisk s; wlog := wlog s |}
  | None => Stop Undefined s
  end.

Definition with_flags (fl : Z) (b : buf) : buf :=
  {| b_flags := fl; b_dev := b_dev b; b_blockno := b_blockno b; b_lock := b_lock b;
     b_refcnt := b_refcnt b; b_data := b_data b |}.
Definition with_lock (l : sleeplock) (b : buf) : buf :=
  {| b_flags := b_flags b; b_dev := b_dev b; b_blockno := b_blockno b; b_lock := l;
     b_refcnt := b_refcnt b; b_data := b_data b |}.
Definition with_refcnt (n : Z) (b : buf) : buf :=
  {| b_flags := b_flags b; b_dev := b_dev b; b_blockno := b_blockno b; b_lock := b_lock b;
     b_refcnt := n; b_data := b_data b |}.
Definition with_data (d : block) (b : buf) : buf :=
  {| b_flags := b_flags b; b_dev := b_dev b; b_blockno := b_blockno b; b_lock := b_lock b;
     b_refcnt := b_refcnt b; b_data := d |}.

(** ** The code *)

(** One iteration of the loop of [binit]. *)
Definition binit_insert (b : nat) : M bstate unit :=
  let! n := get_next HEAD in
  set_next b n then!
  set_prev b HEAD then!
  setb b (with_lock initsleeplock) then!
  let! n := get_next HEAD in
  set_prev n b then!
  set_next HEAD b.

Fixpoint binit_loop (n : nat) (b : nat) : M bstate unit :=
  match n with
  | O => ret tt
  | S n' => binit_insert b then! binit_loop n' (S b)
  end.

Definition binit : M bstate unit :=
  set_prev HEAD HEAD then!
  set_next HEAD HEAD then!
  binit_loop NBUF 0.

Definition acquire_buf (i : nat) : M bstate unit :=
  let! b := getb i in
  let! pid := gets mypid in
  match acquiresleep pid (b_lock b) with
  | Some l => setb i (with_lock l)
  | None => halt (Sleeping "buffer")
  end.

(** The loop over the list from its most recently used end, until a buffer
    of the block is met; [None] is the end of the loop. *)
Fixpoint bget_cached (fuel : nat) (dev blockno : Z) (b : nat) : M bstate (option nat) :=
  match fuel with
  | O => halt Undefined
  | S fuel' =>
      if Nat.eqb b HEAD then ret None
      else
        let! x := getb b in
        if (b_dev x =? dev) && (b_blockno x =? blockno) then ret (Some b)
        else let! n := get_next b in bget_cached fuel' dev blockno n
  end.

(** The loop from the other end, until a buffer that can be recycled. *)
Fixpoint bget_unused (fuel : nat) (b : nat) : M bstate (option nat) :=
  match fuel with
  | O => halt Undefined
  | S fuel' =>
      if Nat.eqb b HEAD then ret None
      else
        let! x := getb b in
        if (b_refcnt x =? 0) && (Z.land (b_flags x) B_DIRTY =? 0) then ret (Some b)
        else let! p := get_prev b in bget_unused fuel' p
  end.

(** The list has [NBUF] elements and the head, so that many steps reach the
    head. *)
Definition bget (dev blockno : Z) : M bstate nat :=
  let! first := get_next HEAD in
  let! r := bget_cached (S NBUF) dev blockno first in
  match r with
  | Some b =>
      setb b (fun x => with_refcnt (u32 (b_refcnt x + 1)) x) then!
      acquire_buf b then!
      ret b
  | None =>
      let! last := get_prev HEAD in
      let! r := bget_unused (S NBUF) last in
      match r with
      | Some b =>
          setb b (fun x => {| b_flags := 0; b_dev := dev; b_blockno := blockno;
                              b_lock := b_lock x; b_refcnt := 1; b_data := b_data x |}) then!
          acquire_buf b then!
          ret b
      | None => halt (Panicked "bget: no buffers")
      end
  end.

(** [iderw] of memide.c; the block is the unit of [memmove]. *)
Definition iderw (i : nat) : M bstate unit := fun s =>
  match bufs s !! i with
  | None => Stop Undefined s
  | Some b =>
      if negb (holdingsleep (mypid s) (b_lock b)) then Stop (Panicked "iderw: buf not locked") s
      else if Z.land (b_flags b) (Z.lor B_VALID B_DIRTY) =? B_VALID
      then Stop (Panicked "iderw: nothing to do") s
      else if negb (b_dev b =? 1) then Stop (Panicked "iderw: request not for disk 1") s
      else if Z.of_nat (length (memdisk s)) <=? b_blockno b
      then Stop (Panicked "iderw: block out of range") s
      else if negb (Z.land (b_flags b) B_DIRTY =? 0) then
        let fl := Z.lor (Z.land (b_flags b) (Z.lnot B_DIRTY)) B_VALID in
        Ret tt {| bufs := <[i := with_flags fl b]> (bufs s); bprev := bprev s; bnext := bnext s;
                  mypid := mypid s;
                  memdisk := <[Z.to_nat (b_blockno b) := b_data b]> (memdisk s);
                  wlog := wlog s ++ [(b_blockno b, b_data b)] |}
      else
        match memdisk s !! Z.to_nat (b_blockno b) with
        | None => Stop Undefined s
        | Some d =>
            Ret tt (with_bufs s
                      (<[i := with_flags (Z.lor (b_flags b) B_VALID) (with_data d b)]> (bufs s)))
        end
  end.

Definition bread_ (dev blockno : Z) : M bstate nat :=
  let! b := bget dev blockno in
  let! x := getb b in
  (if Z.land (b_flags x) B_VALID =? 0 then iderw b else ret tt) then!
  ret b.

Definition holding_buf (i : nat) : M bstate bool :=
  let! b := getb i in
  let! pid := gets mypid in
  ret (holdingsleep pid (b_lock b)).

Definition bwrite_ (b : nat) : M bstate unit :=
  let! h := holding_buf b in
  if negb h then halt (Panicked "bwrite")
  else
    setb b (fun x => with_flags (Z.lor (b_flags x) B_DIRTY) x) then!
    iderw b.

(** The six assignments that move a buffer to the front of the list. *)
Definition relink (b : nat) : M bstate unit :=
  let! n := get_next b in
  let! p := get_prev b in
  set_prev n p then!
  let! p := get_prev b in
  let! n := get_next b in
  set_next p n then!
  let! n := get_next HEAD in
  set_next b n then!
  set_prev b HEAD then!
  let! n := get_next HEAD in
  set_prev n b then!
  set_next HEAD b.

Definition brelse_ (b : nat) : M bstate unit :=
  let! h := holding_buf b in
  if negb h then halt (Panicked "brelse")
  else
    setb b (fun x => with_lock (releasesleep (b_lock x)) x) then!
    setb b (fun x => with_refcnt (u32 (b_refcnt x - 1)) x) then!
    let! x := getb b in
    if b_refcnt x =? 0 then relink b else ret tt.

#[export] Instance bio_ops : BufCache bstate := {
  bread := bread_; bwrite := bwrite_; brelse := brelse_;
  b_data_of i s := b_data <$> bufs s !! i;
  b_blockno_of i s := b_blockno <$> bufs s !! i;
  set_data i d s := with_bufs s (alter (with_data d) i (bufs s));
  set_dirty i s := with_bufs s (alter (fun b => with_flags (Z.lor (b_flags b) B_DIRTY) b) i (bufs s))
}.

(** ** The list of buffers *)

(** Consecutive elements point to each other. *)
Fixpoint linked (nx pv : list nat) (l : list nat) : Prop :=
  match l with
  | x :: (y :: _) as r => nx !! x = Some y /\ pv !! y = Some x /\ linked nx pv r
  | _ => True
  end.

(** The circular list through the head, most recently used first. *)
Definition ring (nx pv : list nat) (l : list nat) : Prop := linked nx pv (HEAD :: l ++ [HEAD]).

Section links.
Implicit Types (nx pv l : list nat).

Lemma linked_app nx pv xs y zs :
  linked nx pv (xs ++ y :: zs) <-> linked nx pv (xs ++ [y]) /\ linked nx pv (y :: zs).
Proof.
  induction xs as [|x xs IH]; [simpl; tauto|].
  destruct xs as [|x' xs]; simpl in *; [tauto|]. rewrite IH. tauto.
Qed.

Lemma linked_cons nx pv x y zs :
  nx !! x = Some y -> pv !! y = Some x -> linked nx pv (y :: zs) -> linked nx pv (x :: y :: zs).
Proof. done. Qed.

Lemma linked_next nx pv xs y x j :
  x ∉ xs -> linked nx pv (xs ++ [y]) -> linked (<[x := j]> nx) pv (xs ++ [y]).
Proof.
  induction xs as [|a xs IH]; [done|]. intros Hx%not_elem_of_cons.
  destruct xs as [|b xs]; simpl in *; intros (H1 & H2 & H3).
  - rewrite list_lookup_insert_ne by naive_solver. done.
  - rewrite list_lookup_insert_ne by naive_solver. split; [done|]. split; [done|]. naive_solver.
Qed.

Lemma linked_prev nx pv x l y j :
  y ∉ l -> linked nx pv (x :: l) -> linked nx (<[y := j]> pv) (x :: l).
Proof.
  revert x. induction l as [|a l IH]; [done|]. intros x Hy%not_elem_of_cons (H1 & H2 & H3).
  apply linked_cons; [done| |naive_solver]. rewrite list_lookup_insert_ne by naive_solver. done.
Qed.

Lemma linked_reverse nx pv l : linked nx pv l -> linked pv nx (reverse l).
Proof.
  induction l as [|x l IH]; [done|]. destruct l as [|y l]; [done|].
  intros (H1 & H2 & H3). apply IH in H3. rewrite reverse_cons in H3.
  rewrite !reverse_cons, <- app_assoc. simpl. apply linked_app. by split.
Qed.

Lemma ring_reverse nx pv l : ring nx pv l -> ring pv nx (reverse l).
Proof.
  intros H%linked_reverse. unfold ring.
  by rewrite reverse_cons, reverse_app in H.
Qed.

Lemma ring_first nx pv l : ring nx pv l -> exists n, nx !! HEAD = Some n /\ pv !! n = Some HEAD.
Proof.
  unfold ring. destruct (l ++ [HEAD]) as [|n Y] eqn:E; [by destruct l|]. simpl. naive_solver.
Qed.

(** The four assignments that put [i] after the head. *)
Lemma ring_push nx pv l i n :
  ring nx pv l -> i ∉ l -> i <> HEAD -> HEAD ∉ l -> NoDup l ->
  nx !! HEAD = Some n -> length nx = S NBUF -> length pv = S NBUF -> (i < NBUF)%nat ->
  (n < S NBUF)%nat ->
  <[i := n]> nx !! HEAD = Some n /\
  ring (<[HEAD := i]> (<[i := n]> nx)) (<[n := i]> (<[i := HEAD]> pv)) (i :: l).
Proof.
  intros Hr Hi Hne Hh Hnd Hn Hln Hlp Hib Hnb. unfold ring in *. unfold HEAD in *. split.
  { by rewrite list_lookup_insert_ne. }
  destruct (l ++ [NBUF]) as [|n' Y] eqn:E; [by destruct l|].
  destruct Hr as (Hn' & Hp & HY). rewrite Hn in Hn'. injection Hn' as <-.
  assert (HN : n ∉ Y).
  { destruct l as [|n' l]; simpl in E; injection E as <- <-; [set_solver|].
    apply list.NoDup_cons in Hnd as [??]. set_solver. }
  assert (Hin : i <> n).
  { destruct l; simpl in E; injection E as <- _; [done|set_solver]. }
  simpl. rewrite E.
  rewrite list_lookup_insert_eq by (rewrite length_insert; lia).
  rewrite (list_lookup_insert_ne _ n) by done. rewrite list_lookup_insert_eq by lia.
  split; [done|]. split; [done|].
  rewrite list_lookup_insert_ne, list_lookup_insert_eq by lia.
  rewrite list_lookup_insert_eq by (rewrite length_insert; lia).
  split; [done|]. split; [done|]. rewrite <- E. 
  apply linked_next; [done|]. apply linked_next; [done|]. rewrite E.
  apply linked_prev; [done|]. apply linked_prev; [|done].
  intros HiY. assert (Hx : i ∈ n :: Y) by set_solver. rewrite <- E in Hx. set_solver.
Qed.

(** The two assignments that take [i] out of the list. *)
Lemma ring_unlink nx pv l1 i l2 :
  ring nx pv (l1 ++ i :: l2) -> NoDup (HEAD :: l1 ++ i :: l2) ->
  length nx = S NBUF -> length pv = S NBUF ->
  exists n p, nx !! i = Some n /\ pv !! i = Some p /\
    <[n := p]> pv !! i = Some p /\ (n < S NBUF)%nat /\ (p < S NBUF)%nat /\
    ring (<[p := n]> nx) (<[n := p]> pv) (l1 ++ l2).
Proof.
  intros Hr Hnd Hln Hlp. unfold ring in *.
  destruct (exists_last (l := HEAD :: l1)) as (X & A & EX); [done|].
  destruct (l2 ++ [HEAD]) as [|C Y] eqn:EY; [by destruct l2|].
  assert (E : HEAD :: (l1 ++ i :: l2) ++ [HEAD] = X ++ A :: i :: C :: Y).
  { rewrite <- app_assoc. simpl. rewrite EY, app_comm_cons, EX, <- app_assoc. done. }
  rewrite E in Hr. apply linked_app in Hr as [HX (H1 & H2 & H3 & H4 & HY)].
  apply list.NoDup_cons in Hnd as [Hh Hnd]. apply list.NoDup_app in Hnd as (Hnd1 & Hd & Hnd2).
  apply list.NoDup_cons in Hnd2 as [Hi Hnd2].
  assert (HAX : A ∉ X).
  { assert (NoDup (X ++ [A])) as Hx.
    { rewrite <- EX. apply list.NoDup_cons. split; [set_solver|done]. }
    apply list.NoDup_app in Hx as (_ & Hx & _). set_solver. }
  assert (HCl : C = HEAD \/ C ∈ l2) by (destruct l2; simpl in EY; set_solver).
  assert (HAl : A = HEAD \/ A ∈ l1).
  { assert (A ∈ X ++ [A]) as Hx by set_solver. rewrite <- EX in Hx. set_solver. }
  assert (HCY : C ∉ Y).
  { destruct l2 as [|c l2]; simpl in EY; injection EY as <- <-; [set_solver|].
    apply list.NoDup_cons in Hnd2 as [??]. set_solver. }
  exists C, A. split; [done|]. split; [done|].
  rewrite list_lookup_insert_ne by (destruct HCl; set_solver).
  split; [done|]. split; [rewrite <- Hlp; by eapply lookup_lt_Some|].
  split; [rewrite <- Hln; by eapply lookup_lt_Some|].
  rewrite <- app_assoc, EY, app_comm_cons, EX, <- app_assoc. apply linked_app. split.
  - apply linked_next; [done|]. rewrite <- EX in *. apply linked_prev; [|done].
    intros Hc. destruct HCl; set_solver.
  - apply linked_cons.
    + rewrite list_lookup_insert_eq; [done|]. by eapply lookup_lt_Some.
    + rewrite list_lookup_insert_eq; [done|]. by eapply lookup_lt_Some.
    + apply linked_prev; [done|]. rewrite <- EY in *. apply linked_next; [|done].
      intros Ha. destruct HAl; set_solver.
Qed.
End links.

(** ** The invariant and the observations *)

Definition dirty (b : buf) : bool := negb (Z.land (b_flags b) B_DIRTY =? 0).
Definition is_locked (b : buf) : bool := sl_locked (b_lock b).
Definition holds (n : Z) (b : buf) : bool := (b_dev b =? 1) && (b_blockno b =? n).

(** A buffer is unused since boot, or holds a block of the disk; a locked one
    is locked by the running process, and a clean one that nobody has locked
    agrees with the disk. *)
Definition fresh_buf (b : buf) : Prop :=
  b_dev b = 0 /\ b_flags b = 0 /\ is_locked b = false /\ b_refcnt b = 0.

Definition used_buf (pid : Z) (d : list block) (b : buf) : Prop :=
  b_dev b = 1 /\ 0 <= b_blockno b < Z.of_nat (length d) /\
  (b_flags b = 2 \/ b_flags b = 6) /\
  (if is_locked b then sl_pid (b_lock b) = pid /\ b_refcnt b = 1
   else b_refcnt b = 0 /\ (b_flags b = 2 -> d !! at_ (b_blockno b) = Some (b_data b))).

Definition buf_ok (pid : Z) (d : list block) (b : buf) : Prop :=
  length (b_data b) = BSIZE /\ (fresh_buf b \/ used_buf pid d b).

Definition unique (l : list buf) : Prop :=
  forall i j x y n, l !! i = Some x -> l !! j = Some y ->
    holds n x = true -> holds n y = true -> i = j.

Record bio_ok (s : bstate) : Prop := {
  bo_len : length (bufs s) = NBUF;
  bo_next : length (bnext s) = S NBUF;
  bo_prev : length (bprev s) = S NBUF;
  bo_ring : exists l, l ≡ₚ seq 0 NBUF /\ ring (bnext s) (bprev s) l;
  bo_disk : blocks_wf (memdisk s);
  bo_buf : forall i b, bufs s !! i = Some b -> buf_ok (mypid s) (memdisk s) b;
  bo_uniq : unique (bufs s)
}.

Definition cached (l : list buf) (n : Z) : option buf := find (holds n) l.

Definition view_of (l : list buf) (d : list block) : list block :=
  imap (fun n blk => match cached l (Z.of_nat n) with Some b => b_data b | None => blk end) d.

Definition held_of (l : list buf) : gmap nat Z :=
  omap (fun b => if is_locked b then Some (b_blockno b) else None) (map_seq 0 l).

Definition pinned_of (l : list buf) : gset Z :=
  list_to_set (b_blockno <$> filter (fun b => dirty b = true) l).

#[export] Instance bio_view : CacheView bstate := {
  cache_ok := bio_ok;
  disk := memdisk;
  view s := view_of (bufs s) (memdisk s);
  held s := held_of (bufs s);
  pinned s := pinned_of (bufs s);
  written := wlog
}.

Section observations.
Implicit Types (l : list buf) (d : list block).

Lemma holds_true n x : holds n x = true <-> b_dev x = 1 /\ b_blockno x = n.
Proof. unfold holds. rewrite andb_true_iff, !Z.eqb_eq. done. Qed.

Lemma cached_some l n x :
  unique l -> cached l n = Some x <-> exists i, l !! i = Some x /\ holds n x = true.
Proof.
  intros Hu. unfold cached. split.
  - intros [Hin Hh]%find_some. apply list_elem_of_In, list_elem_of_lookup in Hin as [i Hi]. eauto.
  - intros (i & Hi & Hh). destruct (find (holds n) l) as [y|] eqn:E.
    + apply find_some in E as [Hin Hy]. apply list_elem_of_In, list_elem_of_lookup in Hin as [j Hj].
      assert (i = j) as <- by eauto. congruence.
    + rewrite (find_none _ _ E x) in Hh; [done|]. by eapply list_elem_of_In, list_elem_of_lookup_2.
Qed.

Lemma cached_none l n :
  cached l n = None <-> forall i x, l !! i = Some x -> holds n x = false.
Proof.
  unfold cached. split.
  - intros E i x Hi. apply (find_none _ _ E). by eapply list_elem_of_In, list_elem_of_lookup_2.
  - intros Hn. destruct (find (holds n) l) as [y|] eqn:E; [|done].
    apply find_some in E as [Hin Hy]. apply list_elem_of_In, list_elem_of_lookup in Hin as [j Hj].
    by rewrite (Hn _ _ Hj) in Hy.
Qed.

Lemma view_lookup l d n :
  view_of l d !! n =
  match d !! n with
  | Some blk => Some (match cached l (Z.of_nat n) with Some b => b_data b | None => blk end)
  | None => None
  end.
Proof. unfold view_of. rewrite list_lookup_imap. by destruct (d !! n). Qed.

Lemma view_of_length l d : length (view_of l d) = length d.
Proof. apply length_imap. Qed.

Lemma held_lookup l i :
  held_of l !! i = match l !! i with
                   | Some b => if is_locked b then Some (b_blockno b) else None
                   | None => None
                   end.
Proof.
  unfold held_of. rewrite lookup_omap, lookup_map_seq_0. by destruct (l !! i).
Qed.

Lemma held_some l i n :
  held_of l !! i = Some n <-> exists x, l !! i = Some x /\ is_locked x = true /\ b_blockno x = n.
Proof.
  rewrite held_lookup. split.
  - destruct (l !! i) as [x|]; [destruct (is_locked x) eqn:E|]; intros; simplify_eq; eauto.
  - by intros (x & -> & -> & ->).
Qed.

Lemma pinned_elem l n :
  n ∈ pinned_of l <-> exists i x, l !! i = Some x /\ dirty x = true /\ b_blockno x = n.
Proof.
  unfold pinned_of. rewrite elem_of_list_to_set, list_elem_of_fmap. split.
  - intros (x & -> & [Hd Hin]%list_elem_of_filter). apply list_elem_of_lookup in Hin as [i Hi]. eauto.
  - intros (i & x & Hi & Hd & <-). exists x. split; [done|]. apply list_elem_of_filter.
    split; [done|]. by eapply list_elem_of_lookup_2.
Qed.

(** One buffer changes but keeps its block. *)
Lemma unique_keep l i x x' :
  unique l -> l !! i = Some x -> b_dev x' = b_dev x -> b_blockno x' = b_blockno x ->
  unique (<[i := x']> l).
Proof.
  intros Hu Hi Hd Hb j k y z n Hj Hk Hy Hz.
  assert (Hx : holds n x' = true -> holds n x = true) by (unfold holds; by rewrite Hd, Hb).
  apply list_lookup_insert_Some in Hj as [(<- & <- & _)|[? Hj]],
    Hk as [(<- & <- & _)|[? Hk]]; eauto.
Qed.

Lemma cached_keep l i x x' n :
  unique l -> l !! i = Some x -> b_dev x' = b_dev x -> b_blockno x' = b_blockno x ->
  cached (<[i := x']> l) n = if holds n x then Some x' else cached l n.
Proof.
  intros Hu Hi Hd Hb. assert (Hlt := lookup_lt_Some _ _ _ Hi).
  assert (Hx : holds n x' = holds n x) by (unfold holds; by rewrite Hd, Hb).
  assert (Hu' := unique_keep l i x x' Hu Hi Hd Hb).
  destruct (holds n x) eqn:E.
  - apply cached_some; [done|]. exists i. by rewrite list_lookup_insert_eq.
  - destruct (cached l n) as [y|] eqn:Ec.
    + apply cached_some in Ec as (j & Hj & Hh); [|done]. apply cached_some; [done|].
      exists j. rewrite list_lookup_insert_ne; [done|]. intros <-. congruence.
    + rewrite cached_none in *. intros j y Hj.
      apply list_lookup_insert_Some in Hj as [(<- & <- & _)|[? Hj]]; [congruence|eauto].
Qed.
End observations.

Section updates.
Implicit Types (l : list buf) (d : list block).

Lemma view_keep l d d' i x x' :
  unique l -> l !! i = Some x -> b_dev x = 1 -> 0 <= b_blockno x < Z.of_nat (length d) ->
  b_dev x' = b_dev x -> b_blockno x' = b_blockno x ->
  length d' = length d -> (forall n, n <> at_ (b_blockno x) -> d' !! n = d !! n) ->
  view_of (<[i := x']> l) d' = <[at_ (b_blockno x) := b_data x']> (view_of l d).
Proof.
  intros Hu Hi Hdev Hb Hd' Hb' Hlen Hd. apply list_eq. intros n.
  rewrite view_lookup, (cached_keep l i x x') by done.
  destruct (decide (n = at_ (b_blockno x))) as [->|Hn].
  - rewrite list_lookup_insert_eq by (rewrite view_of_length; lia).
    rewrite (proj2 (holds_true _ x)) by lia.
    destruct (lookup_lt_is_Some_2 d' (at_ (b_blockno x))) as [? ->]; [lia|done].
  - rewrite list_lookup_insert_ne, view_lookup, Hd by done.
    destruct (holds (Z.of_nat n) x) eqn:E; [|done]. apply holds_true in E. lia.
Qed.

(** Writing back what is already there. *)
Lemma view_same l d i x x' :
  unique l -> l !! i = Some x -> b_dev x = 1 -> 0 <= b_blockno x < Z.of_nat (length d) ->
  b_dev x' = b_dev x -> b_blockno x' = b_blockno x -> b_data x' = b_data x ->
  view_of (<[i := x']> l) d = view_of l d.
Proof.
  intros Hu Hi Hdev Hb Hd Hb' Hdata. rewrite (view_keep l d d i x x') by done.
  apply list_insert_id. rewrite view_lookup, Hdata.
  destruct (lookup_lt_is_Some_2 d (at_ (b_blockno x))) as [? ->]; [lia|].
  rewrite (proj2 (cached_some l _ x Hu)); [done|]. exists i. split; [done|].
  apply holds_true. lia.
Qed.

Lemma held_keep l i x x' :
  l !! i = Some x -> is_locked x' = is_locked x -> b_blockno x' = b_blockno x ->
  held_of (<[i := x']> l) = held_of l.
Proof.
  intros Hi Hl Hb. apply map_eq. intros j. rewrite !held_lookup.
  destruct (decide (i = j)) as [<-|]; [|by rewrite list_lookup_insert_ne].
  rewrite list_lookup_insert_eq by (by eapply lookup_lt_Some). by rewrite Hi, Hl, Hb.
Qed.

Lemma held_lock l i x x' :
  l !! i = Some x -> is_locked x' = true ->
  held_of (<[i := x']> l) = <[i := b_blockno x']> (held_of l).
Proof.
  intros Hi Hl. apply map_eq. intros j. rewrite held_lookup.
  destruct (decide (i = j)) as [<-|].
  - rewrite list_lookup_insert_eq by (by eapply lookup_lt_Some). by rewrite lookup_insert_eq, Hl.
  - rewrite list_lookup_insert_ne, lookup_insert_ne by done. by rewrite held_lookup.
Qed.

Lemma held_unlock l i x x' :
  l !! i = Some x -> is_locked x' = false ->
  held_of (<[i := x']> l) = delete i (held_of l).
Proof.
  intros Hi Hl. apply map_eq. intros j. rewrite held_lookup.
  destruct (decide (i = j)) as [<-|].
  - rewrite list_lookup_insert_eq by (by eapply lookup_lt_Some). by rewrite lookup_delete_eq, Hl.
  - rewrite list_lookup_insert_ne, lookup_delete_ne by done. by rewrite held_lookup.
Qed.

Lemma pinned_keep l i x x' :
  l !! i = Some x -> dirty x' = dirty x -> (dirty x = true -> b_blockno x' = b_blockno x) ->
  pinned_of (<[i := x']> l) = pinned_of l.
Proof.
  intros Hi Hl Hb. apply set_eq. intros n. rewrite !pinned_elem. split.
  - intros (j & y & Hj & Hy & <-).
    apply list_lookup_insert_Some in Hj as [(<- & <- & _)|[? Hj]]; [|eauto].
    exists i, x. rewrite Hl in Hy. split; [done|]. split; [done|]. symmetry. auto.
  - intros (j & y & Hj & Hy & <-). destruct (decide (i = j)) as [<-|].
    + simplify_eq. exists i, x'. rewrite list_lookup_insert_eq by (by eapply lookup_lt_Some).
      split; [done|]. split; [congruence|auto].
    + exists j, y. by rewrite list_lookup_insert_ne.
Qed.

Lemma pinned_set l i x x' :
  l !! i = Some x -> dirty x' = true -> b_blockno x' = b_blockno x ->
  pinned_of (<[i := x']> l) = {[b_blockno x]} ∪ pinned_of l.
Proof.
  intros Hi Hl Hb. apply set_eq. intros n. rewrite elem_of_union, elem_of_singleton, !pinned_elem.
  split.
  - intros (j & y & Hj & Hy & <-).
    apply list_lookup_insert_Some in Hj as [(<- & <- & _)|[? Hj]]; [by left|right; eauto].
  - intros [->|(j & y & Hj & Hy & <-)].
    + exists i, x'. by rewrite list_lookup_insert_eq by (by eapply lookup_lt_Some).
    + destruct (decide (i = j)) as [<-|].
      * simplify_eq. exists i, x'. by rewrite list_lookup_insert_eq by (by eapply lookup_lt_Some).
      * exists j, y. by rewrite list_lookup_insert_ne.
Qed.

Lemma pinned_clear l i x x' :
  unique l -> l !! i = Some x -> b_dev x = 1 ->
  (forall j y, l !! j = Some y -> dirty y = true -> b_dev y = 1) -> dirty x' = false ->
  pinned_of (<[i := x']> l) = pinned_of l ∖ {[b_blockno x]}.
Proof.
  intros Hu Hi Hdev Hone Hl. apply set_eq. intros n.
  rewrite elem_of_difference, elem_of_singleton, !pinned_elem. split.
  - intros (j & y & Hj & Hy & <-).
    apply list_lookup_insert_Some in Hj as [(<- & <- & _)|[Hne Hj]]; [congruence|].
    split; [eauto|]. intros E. apply Hne.
    apply (Hu i j x y (b_blockno x)); [done|done| |]; apply holds_true; eauto.
  - intros [(j & y & Hj & Hy & <-) Hne]. exists j, y. rewrite list_lookup_insert_ne; [done|].
    intros <-. simplify_eq.
Qed.

(** The invariant, when one buffer changes but keeps its block. *)
Lemma bio_ok_keep (s s' : bstate) i x x' :
  bio_ok s -> bufs s !! i = Some x -> b_dev x = 1 ->
  bufs s' = <[i := x']> (bufs s) -> b_dev x' = b_dev x -> b_blockno x' = b_blockno x ->
  mypid s' = mypid s -> buf_ok (mypid s) (memdisk s') x' ->
  blocks_wf (memdisk s') -> length (memdisk s') = length (memdisk s) ->
  (forall n, n <> at_ (b_blockno x) -> memdisk s' !! n = memdisk s !! n) ->
  length (bnext s') = S NBUF -> length (bprev s') = S NBUF ->
  (exists r, r ≡ₚ seq 0 NBUF /\ ring (bnext s') (bprev s') r) ->
  bio_ok s'.
Proof.
  intros [H1 H2 H3 H4 H5 H6 H7] Hi Hdev Eb Hd Hb Hpid Hx Hwf Hlen Hother Hn Hp Hr.
  split; try done; rewrite ?Eb.
  - by rewrite length_insert.
  - intros j y Hj. rewrite Hpid. apply list_lookup_insert_Some in Hj as [(<- & <- & _)|[Hne Hj]]; [done|].
    destruct (H6 _ _ Hj) as [Hl [Hf|(Hy1 & Hy2 & Hy3 & Hy4)]]; (split; [done|]); [by left|right].
    unfold used_buf. rewrite Hlen. split; [done|]. split; [done|]. split; [done|].
    destruct (is_locked y); [done|]. split; [by apply Hy4|]. intros Hfl.
    rewrite Hother; [by apply Hy4|]. intros E. apply Hne.
    apply (H7 i j x y (b_blockno x)); [done|done| |]; apply holds_true; [done|].
    split; [done|]. destruct (H6 _ _ Hi) as [_ [(Hf & _)|(_ & Hrg & _)]]; lia.
  - by eapply unique_keep.
Qed.
End updates.

(** ** The laws *)

(** What the lock table says of a held buffer. *)
Lemma held_buf s i n :
  bio_ok s -> held_of (bufs s) !! i = Some n ->
  exists x, bufs s !! i = Some x /\ is_locked x = true /\ b_blockno x = n /\
    length (b_data x) = BSIZE /\ used_buf (mypid s) (memdisk s) x.
Proof.
  intros Hok (x & Hi & Hl & <-)%held_some. exists x.
  destruct (bo_buf s Hok _ _ Hi) as [Hlen [(_ & _ & Hf & _)|Hu]]; [congruence|done].
Qed.

Lemma dirty_dev s j y : bio_ok s -> bufs s !! j = Some y -> dirty y = true -> b_dev y = 1.
Proof.
  intros Hok Hj. destruct (bo_buf s Hok _ _ Hj) as [_ [(_ & Hf & _)|(Hd & _)]]; [|done].
  unfold dirty. by rewrite Hf.
Qed.

Lemma bio_view_clean s n :
  bio_ok s -> 0 <= n -> n ∉ busy s -> view s !! at_ n = disk s !! at_ n.
Proof.
  intros Hok Hn Hb. simpl. rewrite view_lookup.
  destruct (memdisk s !! at_ n) as [blk|] eqn:Ed; [|done]. f_equal.
  rewrite Z2Nat.id by done. destruct (cached (bufs s) n) as [x|] eqn:Ec; [|done].
  apply cached_some in Ec as (i & Hi & [Hdev <-]%holds_true); [|by apply bo_uniq].
  unfold busy in Hb. apply not_elem_of_union in Hb as [Hp Hh]. cbn [pinned held bio_view] in *.
  destruct (bo_buf s Hok _ _ Hi) as [_ [(Hf & _)|(_ & _ & Hfl & Hl)]]; [congruence|].
  destruct (is_locked x) eqn:El.
  - exfalso. apply Hh, elem_of_map_img. exists i. apply held_some. eauto.
  - destruct Hl as [_ Hc]. destruct Hfl as [Hfl|Hfl].
    + rewrite Hc in Ed by done. by simplify_eq.
    + exfalso. apply Hp, pinned_elem. exists i, x. unfold dirty. by rewrite Hfl.
Qed.

Lemma bio_set_data s i n d :
  bio_ok s -> held s !! i = Some n -> length d = BSIZE ->
  looks (set_data i d s) (disk s) (<[at_ n := d]> (view s)) (held s) (pinned s) (written s).
Proof.
  intros Hok Hh Hd. destruct (held_buf s i n Hok Hh) as (x & Hi & Hl & <- & Hlen & Hu).
  destruct Hu as (Hdev & Hrg & Hfl & Hlk). rewrite Hl in Hlk.
  assert (E : bufs (set_data i d s) = <[i := with_data d x]> (bufs s))
    by (simpl; by rewrite (alter_insert _ _ _ x)).
  split; cbn [cache_ok disk view held pinned written bio_view]; rewrite ?E; try done.
  - eapply (bio_ok_keep s _ i x (with_data d x)); try done; try apply Hok.
    split; [done|]. right. repeat split; simpl; try done; try lia.
    change (is_locked (with_data d x)) with (is_locked x). by rewrite Hl.
  - by rewrite (view_keep _ (memdisk s) _ i x) by (try done; apply Hok).
  - by apply (held_keep _ _ x).
  - by apply (pinned_keep _ _ x).
Qed.

Lemma bio_set_dirty s i n :
  bio_ok s -> held s !! i = Some n ->
  looks (set_dirty i s) (disk s) (view s) (held s) ({[n]} ∪ pinned s) (written s).
Proof.
  intros Hok Hh. destruct (held_buf s i n Hok Hh) as (x & Hi & Hl & <- & Hlen & Hu).
  destruct Hu as (Hdev & Hrg & Hfl & Hlk). rewrite Hl in Hlk.
  set (x' := with_flags (Z.lor (b_flags x) B_DIRTY) x).
  assert (Hf' : b_flags x' = 6) by (unfold x'; simpl; by destruct Hfl as [-> | ->]).
  assert (E : bufs (set_dirty i s) = <[i := x']> (bufs s))
    by (simpl; by rewrite (alter_insert _ _ _ x)).
  split; cbn [cache_ok disk view held pinned written bio_view]; rewrite ?E; try done.
  - eapply (bio_ok_keep s _ i x x'); try done; try apply Hok.
    split; [done|]. right. repeat split; try done; try apply Hrg; [by right|].
    change (is_locked x') with (is_locked x). by rewrite Hl.
  - rewrite (view_same _ (memdisk s) i x) by (try done; apply Hok). done.
  - by apply (held_keep _ _ x).
  - apply (pinned_set _ _ x); try done. unfold dirty. by rewrite Hf'.
Qed.

Lemma setb_eq s i f x :
  bufs s !! i = Some x -> setb i f s = Ret tt (with_bufs s (<[i := f x]> (bufs s))).
Proof. unfold setb. by intros ->. Qed.

Lemma getb_eq s i x : bufs s !! i = Some x -> getb i s = Ret x s.
Proof. unfold getb. by intros ->. Qed.

Lemma holding_buf_eq s i x :
  bufs s !! i = Some x -> holding_buf i s = Ret (holdingsleep (mypid s) (b_lock x)) s.
Proof. intros Hi. unfold holding_buf. by rewrite (bind_ret_eq _ _ _ _ _ (getb_eq _ _ _ Hi)). Qed.

Lemma held_holding s x :
  is_locked x = true -> sl_pid (b_lock x) = mypid s -> holdingsleep (mypid s) (b_lock x) = true.
Proof. unfold holdingsleep, is_locked. intros -> ->. by rewrite Z.eqb_refl. Qed.

(** [iderw] of a dirty buffer writes it. *)
Lemma iderw_write s i x :
  bufs s !! i = Some x -> is_locked x = true -> sl_pid (b_lock x) = mypid s ->
  b_flags x = 6 -> b_dev x = 1 -> b_blockno x < Z.of_nat (length (memdisk s)) ->
  iderw i s = Ret tt {| bufs := <[i := with_flags 2 x]> (bufs s); bprev := bprev s;
                        bnext := bnext s; mypid := mypid s;
                        memdisk := <[at_ (b_blockno x) := b_data x]> (memdisk s);
                        wlog := wlog s ++ [(b_blockno x, b_data x)] |}.
Proof.
  intros Hi Hl Hp Hf Hd Hb. unfold iderw. rewrite Hi, held_holding, Hf, Hd by done. simpl.
  destruct (Z.leb_spec (Z.of_nat (length (memdisk s))) (b_blockno x)); [lia|done].
Qed.

(** [iderw] of a recycled buffer reads it. *)
Lemma iderw_read s i x d :
  bufs s !! i = Some x -> is_locked x = true -> sl_pid (b_lock x) = mypid s ->
  b_flags x = 0 -> b_dev x = 1 -> 0 <= b_blockno x -> memdisk s !! at_ (b_blockno x) = Some d ->
  iderw i s = Ret tt (with_bufs s (<[i := with_flags 2 (with_data d x)]> (bufs s))).
Proof.
  intros Hi Hl Hp Hf Hd Hb Hm. unfold iderw. rewrite Hi, held_holding, Hf, Hd, Hm by done. simpl.
  apply lookup_lt_Some in Hm.
  destruct (Z.leb_spec (Z.of_nat (length (memdisk s))) (b_blockno x)); [lia|done].
Qed.

Lemma bio_bwrite s i n d :
  bio_ok s -> held s !! i = Some n -> view s !! at_ n = Some d ->
  wp (bwrite i) s (fun _ s' =>
    looks s' (<[at_ n := d]> (disk s)) (view s) (held s) (pinned s ∖ {[n]})
      (written s ++ [(n, d)])).
Proof.
  intros Hok Hh Hv. destruct (held_buf s i n Hok Hh) as (x & Hi & Hl & <- & Hlen & Hu).
  pose proof Hu as (Hdev & Hrg & Hfl & Hlk). rewrite Hl in Hlk. destruct Hlk as [Hpid Href].
  assert (Hd : d = b_data x).
  { cbn [view bio_view] in Hv. rewrite view_lookup in Hv.
    rewrite (proj2 (cached_some (bufs s) _ x (bo_uniq s Hok))) in Hv.
    - destruct (memdisk s !! _); by simplify_eq.
    - exists i. split; [done|]. apply holds_true. lia. }
  subst d. cbn [bwrite bio_ops]. unfold bwrite_. apply wp_iff.
  rewrite (bind_ret_eq _ _ _ _ _ (holding_buf_eq _ _ _ Hi)), held_holding by done.
  cbn [negb]. rewrite (bind_ret_eq _ _ _ _ _ (setb_eq _ _ _ _ Hi)).
  set (x1 := with_flags (Z.lor (b_flags x) B_DIRTY) x).
  rewrite (iderw_write _ i x1); simpl; try done;
    [|by rewrite list_lookup_insert_eq by (by eapply lookup_lt_Some)
     |by destruct Hfl as [-> | ->]|lia].
  eexists _, _. split; [done|]. rewrite list_insert_insert_eq.
  set (x2 := with_flags 2 x1).
  split; cbn [cache_ok disk view held pinned written bio_view bufs memdisk wlog]; try done.
  - eapply (bio_ok_keep s _ i x x2); try done; simpl; try apply Hok.
    + split; [done|]. right. split; [done|]. rewrite length_insert. split; [done|].
      split; [by left|]. change (is_locked x2) with (is_locked x). by rewrite Hl.
    + apply Forall_insert; [apply Hok|done].
    + by rewrite length_insert.
    + intros m Hm. by rewrite list_lookup_insert_ne.
  - rewrite (view_keep _ (memdisk s) _ i x); try done; try apply Hok.
    + by apply list_insert_id.
    + by rewrite length_insert.
    + intros m Hm. by rewrite list_lookup_insert_ne.
  - by apply (held_keep _ _ x).
  - apply pinned_clear; try done; [apply Hok|]. intros j y Hj Hy. by eapply dirty_dev.
Qed.

Definition with_links (s : bstate) (nx pv : list nat) : bstate :=
  {| bufs := bufs s; bprev := pv; bnext := nx; mypid := mypid s; memdisk := memdisk s;
     wlog := wlog s |}.

Section link_rules.
Context {A : Type}.
Implicit Types (s : bstate) (k : unit -> M bstate A) (f : nat -> M bstate A).

Lemma set_next_bind s i j k : (i < length (bnext s))%nat ->
  bind (set_next i j) k s = k tt (with_links s (<[i := j]> (bnext s)) (bprev s)).
Proof. intros Hi. unfold bind, set_next. by rewrite store_in. Qed.

Lemma set_prev_bind s i j k : (i < length (bprev s))%nat ->
  bind (set_prev i j) k s = k tt (with_links s (bnext s) (<[i := j]> (bprev s))).
Proof. intros Hi. unfold bind, set_prev. by rewrite store_in. Qed.

Lemma get_next_bind s i j f : bnext s !! i = Some j -> bind (get_next i) f s = f j s.
Proof. unfold bind, get_next. by intros ->. Qed.

Lemma get_prev_bind s i j f : bprev s !! i = Some j -> bind (get_prev i) f s = f j s.
Proof. unfold bind, get_prev. by intros ->. Qed.

Lemma getb_bind s i x (f : buf -> M bstate A) : bufs s !! i = Some x -> bind (getb i) f s = f x s.
Proof. unfold bind, getb. by intros ->. Qed.

Lemma setb_bind s i x g k : bufs s !! i = Some x ->
  bind (setb i g) k s = k tt (with_bufs s (<[i := g x]> (bufs s))).
Proof. unfold bind, setb. by intros ->. Qed.
End link_rules.

Ltac in_range := simpl; rewrite ?length_insert; unfold HEAD in *; lia.

Lemma seq_perm_head l : l ≡ₚ seq 0 NBUF -> NoDup (HEAD :: l).
Proof.
  intros Hp. apply list.NoDup_cons. rewrite Hp. split; [|apply NoDup_seq].
  rewrite elem_of_seq. unfold HEAD. lia.
Qed.

Lemma seq_perm_elem l i : l ≡ₚ seq 0 NBUF -> (i < NBUF)%nat -> exists l1 l2, l = l1 ++ i :: l2.
Proof. intros Hp Hi. apply list_elem_of_split. rewrite Hp, elem_of_seq. lia. Qed.

(** The buffer moves to the front; the others keep their order. *)
Lemma relink_front s l1 i l2 :
  length (bnext s) = S NBUF -> length (bprev s) = S NBUF ->
  l1 ++ i :: l2 ≡ₚ seq 0 NBUF -> ring (bnext s) (bprev s) (l1 ++ i :: l2) ->
  exists nx pv, relink i s = Ret tt (with_links s nx pv) /\
    length nx = S NBUF /\ length pv = S NBUF /\ ring nx pv (i :: l1 ++ l2).
Proof.
  intros Hn Hp Hperm Hr. pose proof (seq_perm_head _ Hperm) as Hnd.
  assert (Hi : (i < NBUF)%nat).
  { assert (i ∈ seq 0 NBUF) as Hin by (rewrite <- Hperm; set_solver).
    apply elem_of_seq in Hin. lia. }
  destruct (ring_unlink _ _ _ _ _ Hr Hnd Hn Hp) as (n & p & H1 & H2 & H3 & Hn' & Hp' & Hr').
  destruct (ring_first _ _ _ Hr') as (h & Eh & Hh%lookup_lt_Some).
  rewrite length_insert, Hp in Hh.
  apply list.NoDup_cons in Hnd as [Hhead Hnd]. apply list.NoDup_app in Hnd as (Hd1 & Hd2 & Hd3).
  apply list.NoDup_cons in Hd3 as [Hd3 Hd4].
  destruct (ring_push _ _ (l1 ++ l2) i h Hr') as [H4 H5]; try done;
    [set_solver|unfold HEAD; lia|set_solver|
     |by rewrite length_insert|by rewrite length_insert|].
  { apply list.NoDup_app. split; [done|]. split; [|done]. set_solver. }
  eexists _, _. split; [|split; [|split; [|exact H5]]]; [|by rewrite !length_insert..].
  unfold relink. rewrite (get_next_bind _ _ n), (get_prev_bind _ _ p) by done.
  rewrite set_prev_bind by in_range. rewrite (get_prev_bind _ _ p), (get_next_bind _ _ n) by done.
  rewrite set_next_bind by in_range. rewrite (get_next_bind _ _ h) by done.
  rewrite set_next_bind, set_prev_bind by in_range. rewrite (get_next_bind _ _ h) by done.
  rewrite set_prev_bind by in_range. unfold set_next. by rewrite store_in by in_range.
Qed.

Lemma bio_brelse s i n :
  bio_ok s -> held s !! i = Some n -> n ∈ pinned s \/ view s !! at_ n = disk s !! at_ n ->
  wp (brelse i) s (fun _ s' =>
    looks s' (disk s) (view s) (delete i (held s)) (pinned s) (written s)).
Proof.
  intros Hok Hh Hclean. destruct (held_buf s i n Hok Hh) as (x & Hi & Hl & <- & Hlen & Hu).
  pose proof Hu as (Hdev & Hrg & Hfl & Hlk). rewrite Hl in Hlk. destruct Hlk as [Hpid Href].
  assert (Hib := lookup_lt_Some _ _ _ Hi).
  set (x2 := with_refcnt 0 (with_lock initsleeplock x)).
  set (s1 := with_bufs s (<[i := x2]> (bufs s))).
  destruct (bo_ring s Hok) as (l & Hperm & Hring).
  destruct (seq_perm_elem l i Hperm) as (l1 & l2 & ->); [by rewrite <- (bo_len s Hok)|].
  destruct (relink_front s1 l1 i l2) as (nx & pv & Hre & Hnx & Hpv & Hr'); try done; try apply Hok.
  cbn [brelse bio_ops]. unfold brelse_. apply wp_iff.
  exists tt, (with_links s1 nx pv). split.
  { rewrite (bind_ret_eq _ _ _ _ _ (holding_buf_eq _ _ _ Hi)), held_holding by done. cbn [negb].
    rewrite (setb_bind _ _ x) by done.
    rewrite (setb_bind _ _ (with_lock initsleeplock x)) by (simpl; by rewrite list_lookup_insert_eq).
    simpl. rewrite Href, list_insert_insert_eq.
    rewrite (getb_bind _ _ x2) by (simpl; by rewrite list_lookup_insert_eq). exact Hre. }
  assert (Hdirty : dirty x2 = dirty x) by done.
  assert (Hc : dirty x = false -> memdisk s !! at_ (b_blockno x) = Some (b_data x)).
  { intros Hd. cbn [disk view pinned bio_view] in Hclean. destruct Hclean as [Hp|Hv].
    - apply pinned_elem in Hp as (j & y & Hj & Hy & E).
      assert (i = j) as <-; [|congruence].
      apply (bo_uniq s Hok i j x y (b_blockno x)); try done; apply holds_true; [done|].
      split; [by eapply dirty_dev|done].
    - rewrite <- Hv, view_lookup.
      destruct (lookup_lt_is_Some_2 (memdisk s) (at_ (b_blockno x))) as [? ->]; [lia|].
      rewrite (proj2 (cached_some (bufs s) _ x (bo_uniq s Hok))); [done|].
      exists i. split; [done|]. apply holds_true. lia. }
  split; cbn [cache_ok disk view held pinned written bio_view with_links bufs memdisk wlog s1 with_bufs];
    try done.
  - eapply (bio_ok_keep s _ i x x2); try done; try apply Hok.
    + split; [done|]. right. split; [done|]. split; [done|]. split; [done|].
      split; [done|]. intros Hf. apply Hc. unfold dirty. simpl in Hf. by rewrite Hf.
    + exists (i :: l1 ++ l2). split; [|done]. by rewrite <- Hperm, Permutation_middle.
  - by apply (view_same _ _ _ x); try apply Hok.
  - by eapply held_unlock.
  - by apply (pinned_keep _ _ x).
Qed.

(** ** [bget] *)

Definition matches (l : list buf) (dev n : Z) (i : nat) : bool :=
  match l !! i with Some x => (b_dev x =? dev) && (b_blockno x =? n) | None => false end.

Definition recyclable (l : list buf) (i : nat) : bool :=
  match l !! i with Some x => (b_refcnt x =? 0) && (Z.land (b_flags x) B_DIRTY =? 0) | None => false end.

Lemma bget_cached_find dev n s l fuel i :
  Forall (fun j => j < length (bufs s))%nat l -> HEAD ∉ l -> (length l < fuel)%nat ->
  linked (bnext s) (bprev s) (l ++ [HEAD]) -> head (l ++ [HEAD]) = Some i ->
  bget_cached fuel dev n i s = Ret (find (matches (bufs s) dev n) l) s.
Proof.
  revert fuel i. induction l as [|j l IH]; intros fuel i Hin Hh Hf Hl Hi; simplify_eq/=;
    (destruct fuel as [|fuel]; [lia|]); cbn [bget_cached].
  - rewrite Nat.eqb_refl. done.
  - apply Forall_cons_iff in Hin as [Hj Hin]. apply not_elem_of_cons in Hh as [Hne Hh].
    rewrite (proj2 (Nat.eqb_neq i HEAD)) by done.
    destruct (lookup_lt_is_Some_2 _ _ Hj) as [x Hx].
    rewrite (getb_bind _ _ x) by done. unfold matches at 1. rewrite Hx.
    destruct (_ && _); [done|].
    destruct (l ++ [HEAD]) as [|k Y] eqn:E; [by destruct l|]. destruct Hl as (H1 & H2 & H3).
    rewrite (get_next_bind _ _ k) by done. apply IH; rewrite ?E; try done; lia.
Qed.

Lemma bget_unused_find s l fuel i :
  Forall (fun j => j < length (bufs s))%nat l -> HEAD ∉ l -> (length l < fuel)%nat ->
  linked (bprev s) (bnext s) (l ++ [HEAD]) -> head (l ++ [HEAD]) = Some i ->
  bget_unused fuel i s = Ret (find (recyclable (bufs s)) l) s.
Proof.
  revert fuel i. induction l as [|j l IH]; intros fuel i Hin Hh Hf Hl Hi; simplify_eq/=;
    (destruct fuel as [|fuel]; [lia|]); cbn [bget_unused].
  - rewrite Nat.eqb_refl. done.
  - apply Forall_cons_iff in Hin as [Hj Hin]. apply not_elem_of_cons in Hh as [Hne Hh].
    rewrite (proj2 (Nat.eqb_neq i HEAD)) by done.
    destruct (lookup_lt_is_Some_2 _ _ Hj) as [x Hx].
    rewrite (getb_bind _ _ x) by done. unfold recyclable at 1. rewrite Hx.
    destruct (_ && _); [done|].
    destruct (l ++ [HEAD]) as [|k Y] eqn:E; [by destruct l|]. destruct Hl as (H1 & H2 & H3).
    rewrite (get_prev_bind _ _ k) by done. apply IH; rewrite ?E; try done; lia.
Qed.

(** A clean buffer that nobody has locked takes over block [n]. *)
Section evict.
Context (s : bstate) (i : nat) (x x' : buf) (n : Z) (d : block).
Hypothesis (Hok : bio_ok s) (Hi : bufs s !! i = Some x).
Hypothesis (Hunl : is_locked x = false) (Hcl : dirty x = false).
Hypothesis (Hnone : cached (bufs s) n = None).
Hypothesis (Hn : 0 <= n) (Hd : memdisk s !! at_ n = Some d).
Hypothesis (Hdev' : b_dev x' = 1) (Hb' : b_blockno x' = n) (Hdata' : b_data x' = d).
Hypothesis (Hfl' : b_flags x' = 2).

Lemma evict_unique : unique (<[i := x']> (bufs s)).
Proof.
  intros j k y z m Hj Hk Hy Hz. pose proof (proj1 (cached_none _ _) Hnone) as Hno.
  assert (Hm : holds m x' = true -> m = n) by (intros [_ <-]%holds_true; done).
  apply list_lookup_insert_Some in Hj as [(<- & <- & _)|[? Hj]],
    Hk as [(<- & <- & _)|[? Hk]]; [done| | |by eapply (bo_uniq s Hok)];
    assert (m = n) as -> by auto.
  - by rewrite (Hno _ _ Hk) in Hz.
  - by rewrite (Hno _ _ Hj) in Hy.
Qed.

Lemma evict_cached m :
  cached (<[i := x']> (bufs s)) m =
  if m =? n then Some x' else if holds m x then None else cached (bufs s) m.
Proof.
  pose proof evict_unique as Hu. pose proof (lookup_lt_Some _ _ _ Hi) as Hlt.
  destruct (Z.eqb_spec m n) as [->|Hne].
  { apply cached_some; [done|]. exists i. rewrite list_lookup_insert_eq by done.
    split; [done|]. by apply holds_true. }
  assert (Hx' : holds m x' = false).
  { apply not_true_iff_false. intros [_ E]%holds_true. congruence. }
  destruct (holds m x) eqn:E; [|destruct (cached (bufs s) m) as [y|] eqn:Ec].
  - apply cached_none. intros j y Hj.
    apply list_lookup_insert_Some in Hj as [(<- & <- & _)|[Hne' Hj]]; [done|].
    apply not_true_iff_false. intros Hy. by apply Hne', (bo_uniq s Hok i j x y m).
  - apply cached_some in Ec as (j & Hj & Hh); [|by apply bo_uniq]. apply cached_some; [done|].
    exists j. rewrite list_lookup_insert_ne; [done|]. intros <-. congruence.
  - rewrite cached_none in *. intros j y Hj.
    apply list_lookup_insert_Some in Hj as [(<- & <- & _)|[Hne' Hj]]; eauto.
Qed.

(** The buffer that was there agreed with the disk. *)
Lemma evict_clean m : holds m x = true -> memdisk s !! at_ m = Some (b_data x).
Proof using Hok Hi Hunl Hcl.
  intros [Hdev <-]%holds_true.
  destruct (bo_buf s Hok _ _ Hi) as [_ [(Hf & _)|(_ & _ & Hfl & Hl)]]; [congruence|].
  rewrite Hunl in Hl. apply Hl. destruct Hfl as [|Hfl]; [done|].
  unfold dirty in Hcl. by rewrite Hfl in Hcl.
Qed.

Lemma evict_view : view_of (<[i := x']> (bufs s)) (memdisk s) = view_of (bufs s) (memdisk s).
Proof.
  apply list_eq. intros m. rewrite !view_lookup, evict_cached.
  destruct (memdisk s !! m) as [blk|] eqn:Em; [|done]. f_equal.
  destruct (Z.eqb_spec (Z.of_nat m) n) as [E|Hne].
  - pose proof Hd as Hd1. rewrite <- E, Nat2Z.id in Hd1. rewrite E, Hnone. congruence.
  - destruct (holds (Z.of_nat m) x) eqn:E; [|done].
    pose proof (evict_clean _ E) as Hc. rewrite Nat2Z.id in Hc.
    rewrite (proj2 (cached_some (bufs s) _ x (bo_uniq s Hok))); [congruence|eauto].
Qed.

Lemma evict_ok :
  is_locked x' = true -> sl_pid (b_lock x') = mypid s -> b_refcnt x' = 1 ->
  bio_ok (with_bufs s (<[i := x']> (bufs s))).
Proof.
  intros H1 H2 H3. split; cbn [bufs bnext bprev memdisk mypid with_bufs]; try apply Hok.
  - rewrite length_insert. apply Hok.
  - intros j y Hj. apply list_lookup_insert_Some in Hj as [(<- & <- & _)|[_ Hj]];
      [|by eapply (bo_buf s Hok)].
    split.
    + rewrite Hdata'. pose proof (bo_disk s Hok) as Hwf. unfold blocks_wf in Hwf.
      rewrite Forall_lookup in Hwf. by apply (Hwf _ _ Hd).
    + right. split; [done|]. apply lookup_lt_Some in Hd. split; [lia|]. split; [by left|].
      by rewrite H1.
  - apply evict_unique.
Qed.
End evict.

Lemma busy_free s :
  bio_ok s -> (size (busy s) < NBUF)%nat ->
  exists i x, bufs s !! i = Some x /\ b_refcnt x = 0 /\ dirty x = false /\ is_locked x = false.
Proof.
  intros Hok Hsz.
  destruct (decide (Exists (fun x => is_locked x = false /\ dirty x = false) (bufs s))) as [He|He].
  - apply list.Exists_exists in He as (x & Hin & Hl & Hd). apply list_elem_of_lookup in Hin as [i Hi].
    exists i, x. repeat split; try done.
    destruct (bo_buf s Hok _ _ Hi) as [_ [(_ & _ & _ & Hr)|(_ & _ & _ & Hu)]]; [done|].
    rewrite Hl in Hu. apply Hu.
  - exfalso. apply (Nat.lt_irrefl NBUF). eapply Nat.le_lt_trans; [|exact Hsz].
    rewrite <- (bo_len s Hok), <- (length_fmap b_blockno), <- (size_list_to_set (C := gset Z)).
    + apply subseteq_size. intros n. rewrite elem_of_list_to_set, list_elem_of_fmap.
      intros (x & -> & Hin). apply list_elem_of_lookup in Hin as [i Hi]. apply elem_of_union.
      destruct (is_locked x) eqn:El; [right|destruct (dirty x) eqn:Ed; [left|]].
      * apply elem_of_map_img. exists i. apply held_some. eauto.
      * apply pinned_elem. eauto.
      * exfalso. apply He, list.Exists_exists. exists x. split; [by eapply list_elem_of_lookup_2|done].
    + apply NoDup_alt. intros i j n Hi Hj.
      rewrite list_lookup_fmap in Hi, Hj.
      destruct (bufs s !! i) as [x|] eqn:Ex; [|done]. destruct (bufs s !! j) as [y|] eqn:Ey; [|done].
      simplify_eq/=. assert (Hused : forall k z, bufs s !! k = Some z -> b_dev z = 1).
      { intros k z Hk. destruct (bo_buf s Hok _ _ Hk) as [_ [(_ & Hf & Hl & _)|(Hd & _)]]; [|done].
        exfalso. apply He, list.Exists_exists. exists z. split; [by eapply list_elem_of_lookup_2|].
        split; [done|]. unfold dirty. by rewrite Hf. }
      apply (bo_uniq s Hok i j x y (b_blockno x)); try done; apply holds_true; eauto.
Qed.

(** Locking a free buffer. *)
Definition take_lock (s : bstate) (x : buf) : buf :=
  with_lock {| sl_locked := true; sl_pid := mypid s |} x.

Lemma acquire_buf_eq s i x :
  bufs s !! i = Some x -> is_locked x = false ->
  acquire_buf i s = Ret tt (with_bufs s (<[i := take_lock s x]> (bufs s))).
Proof.
  intros Hi Hl. unfold acquire_buf. rewrite (getb_bind _ _ x) by done.
  rewrite bind_gets. unfold acquiresleep.
  unfold is_locked in Hl. rewrite Hl. by rewrite (setb_eq _ _ _ x).
Qed.

Section ring_search.
Context (s : bstate) (l : list nat).
Hypothesis (Hok : bio_ok s) (Hperm : l ≡ₚ seq 0 NBUF) (Hring : ring (bnext s) (bprev s) l).

Lemma ring_all : Forall (fun j => j < length (bufs s))%nat l.
Proof.
  rewrite Hperm, (bo_len s Hok), Forall_lookup. intros i j Hi%list_elem_of_lookup_2.
  apply elem_of_seq in Hi. lia.
Qed.

Lemma ring_len : length l = NBUF.
Proof. rewrite Hperm. apply length_seq. Qed.

Lemma search_cached n : exists first, bnext s !! HEAD = Some first /\
  bget_cached (S NBUF) 1 n first s = Ret (find (matches (bufs s) 1 n) l) s.
Proof.
  pose proof (seq_perm_head _ Hperm) as [Hh _]%list.NoDup_cons.
  unfold ring in Hring. destruct (l ++ [HEAD]) as [|f Y] eqn:E; [by destruct l|].
  destruct Hring as (H1 & _ & H3). exists f. split; [done|].
  apply bget_cached_find; rewrite ?E, ?ring_len; try done; [apply ring_all|lia].
Qed.

Lemma search_unused : exists last, bprev s !! HEAD = Some last /\
  bget_unused (S NBUF) last s = Ret (find (recyclable (bufs s)) (reverse l)) s.
Proof.
  pose proof (seq_perm_head _ Hperm) as [Hh _]%list.NoDup_cons.
  pose proof (ring_reverse _ _ _ Hring) as Hr. unfold ring in Hr.
  destruct (reverse l ++ [HEAD]) as [|f Y] eqn:E; [by destruct (reverse l)|].
  destruct Hr as (H1 & _ & H3). exists f. split; [done|].
  apply bget_unused_find; rewrite ?E, ?length_reverse, ?ring_len; try done;
    [|by rewrite elem_of_reverse|lia].
  apply Forall_reverse, ring_all.
Qed.

Lemma search_elem i x : bufs s !! i = Some x -> i ∈ l.
Proof.
  intros Hi%lookup_lt_Some. rewrite Hperm, elem_of_seq. rewrite (bo_len s Hok) in Hi. lia.
Qed.

Lemma find_cached_none n : find (matches (bufs s) 1 n) l = None -> cached (bufs s) n = None.
Proof.
  intros Hf. apply cached_none. intros i x Hi.
  pose proof (find_none _ _ Hf i) as Hn. unfold matches in Hn. rewrite Hi in Hn.
  apply Hn, list_elem_of_In. by eapply search_elem.
Qed.

Lemma find_unused_some i x :
  bufs s !! i = Some x -> b_refcnt x = 0 -> dirty x = false ->
  exists j, find (recyclable (bufs s)) (reverse l) = Some j.
Proof.
  intros Hi Hr Hd. destruct (find _ _) as [j|] eqn:Hf; [eauto|].
  pose proof (find_none _ _ Hf i) as Hn. unfold recyclable in Hn. rewrite Hi, Hr in Hn.
  unfold dirty in Hd. apply negb_false_iff in Hd. rewrite Hd in Hn. exfalso.
  discriminate Hn. apply list_elem_of_In, elem_of_reverse. by eapply search_elem.
Qed.
End ring_search.

Lemma bread_hit s i x n :
  bio_ok s -> bufs s !! i = Some x -> holds n x = true -> n ∉ (map_img (held s) : gset Z) ->
  let s' := with_bufs s (<[i := take_lock s (with_refcnt 1 x)]> (bufs s)) in
  held s !! i = None /\
  looks s' (disk s) (view s) (<[i := n]> (held s)) (pinned s) (written s).
Proof.
  intros Hok Hi [Hdev <-]%holds_true Hh s'.
  destruct (bo_buf s Hok _ _ Hi) as [Hlen [(Hf & _)|(_ & Hrg & Hfl & Hlk)]]; [congruence|].
  assert (Hl : is_locked x = false).
  { apply not_true_iff_false. intros E. apply Hh, elem_of_map_img. exists i.
    apply held_some. eauto. }
  split. { cbn [held bio_view]. by rewrite held_lookup, Hi, Hl. }
  set (x' := take_lock s (with_refcnt 1 x)) in *.
  split; cbn [cache_ok disk view held pinned written bio_view bufs memdisk wlog s' with_bufs]; try done.
  - eapply (bio_ok_keep s _ i x x'); try done; try apply Hok. split; [done|]. by right.
  - by apply (view_same _ _ _ x); try apply Hok.
  - by rewrite (held_lock _ _ x x').
  - by apply (pinned_keep _ _ x).
Qed.

Lemma bread_miss s i x n d :
  bio_ok s -> bufs s !! i = Some x -> is_locked x = false -> dirty x = false ->
  cached (bufs s) n = None -> 0 <= n -> memdisk s !! at_ n = Some d ->
  let x' := {| b_flags := 2; b_dev := 1; b_blockno := n; b_data := d; b_refcnt := 1;
               b_lock := {| sl_locked := true; sl_pid := mypid s |} |} in
  let s' := with_bufs s (<[i := x']> (bufs s)) in
  held s !! i = None /\
  looks s' (disk s) (view s) (<[i := n]> (held s)) (pinned s) (written s).
Proof.
  intros Hok Hi Hl Hd Hc Hn Hm x' s'.
  split. { cbn [held bio_view]. by rewrite held_lookup, Hi, Hl. }
  split; cbn [cache_ok disk view held pinned written bio_view bufs memdisk wlog s' with_bufs]; try done.
  - by apply (evict_ok s i x' n d).
  - by apply (evict_view s i x x' n d).
  - by rewrite (held_lock _ _ x x').
  - apply (pinned_keep _ _ x); [done|by rewrite Hd|congruence].
Qed.

(** The two ways through [bread]. *)
Lemma bread_hit_run s i x n :
  bio_ok s -> bufs s !! i = Some x -> holds n x = true -> is_locked x = false ->
  bind (setb i (fun x => with_refcnt (u32 (b_refcnt x + 1)) x) then! acquire_buf i then! ret i)
    (fun b => let! x := getb b in
              (if Z.land (b_flags x) B_VALID =? 0 then iderw b else ret tt) then! ret b) s
  = Ret i (with_bufs s (<[i := take_lock s (with_refcnt 1 x)]> (bufs s))).
Proof.
  intros Hok Hi [Hdev Hb]%holds_true Hl. pose proof (lookup_lt_Some _ _ _ Hi) as Hlt.
  destruct (bo_buf s Hok _ _ Hi) as [Hlen [(Hf & _)|(_ & Hrg & Hfl & Hlk)]]; [congruence|].
  rewrite Hl in Hlk. destruct Hlk as [Href _].
  rewrite bind_assoc, (setb_bind _ _ x) by done. rewrite Href, bind_assoc.
  erewrite bind_ret_eq by (apply acquire_buf_eq;
    [simpl; by rewrite list_lookup_insert_eq|done]).
  simpl. rewrite list_insert_insert_eq.
  unfold bind at 1, ret at 1. rewrite (getb_bind _ _ (take_lock s (with_refcnt 1 x)))
    by (simpl; by rewrite list_lookup_insert_eq).
  simpl. by destruct Hfl as [-> | ->].
Qed.

Lemma bread_miss_run s i x n d :
  bio_ok s -> bufs s !! i = Some x -> is_locked x = false -> 0 <= n ->
  memdisk s !! at_ n = Some d ->
  bind (setb i (fun x => {| b_flags := 0; b_dev := 1; b_blockno := n;
                            b_lock := b_lock x; b_refcnt := 1; b_data := b_data x |}) then!
        acquire_buf i then! ret i)
    (fun b => let! x := getb b in
              (if Z.land (b_flags x) B_VALID =? 0 then iderw b else ret tt) then! ret b) s
  = Ret i (with_bufs s (<[i :=
      {| b_flags := 2; b_dev := 1; b_blockno := n; b_data := d; b_refcnt := 1;
         b_lock := {| sl_locked := true; sl_pid := mypid s |} |}]> (bufs s))).
Proof.
  intros Hok Hi Hl Hn Hd. pose proof (lookup_lt_Some _ _ _ Hi) as Hlt.
  rewrite bind_assoc, (setb_bind _ _ x) by done. rewrite bind_assoc.
  erewrite bind_ret_eq by (apply acquire_buf_eq;
    [simpl; by rewrite list_lookup_insert_eq|done]).
  cbn [with_bufs bufs]. rewrite list_insert_insert_eq. unfold bind at 1, ret at 1.
  erewrite getb_bind by (simpl; by rewrite list_lookup_insert_eq).
  cbn [take_lock with_lock b_flags]. change (Z.land 0 B_VALID =? 0) with true. cbv iota.
  erewrite bind_ret_eq; [reflexivity|].
  erewrite (iderw_read _ i _ d);
    [|simpl; by rewrite list_lookup_insert_eq|done|done|done|done|done|done].
  simpl. by rewrite list_insert_insert_eq.
Qed.

Lemma bio_bread s n :
  bio_ok s -> 0 <= n < Z.of_nat (length (disk s)) -> n ∉ (map_img (held s) : gset Z) -> room s n ->
  wp (bread ROOTDEV n) s (fun h s' =>
    held s !! h = None /\
    looks s' (disk s) (view s) (<[h := n]> (held s)) (pinned s) (written s)).
Proof.
  intros Hok Hn Hh Hroom. destruct (bo_ring s Hok) as (l & Hperm & Hring).
  cbn [bread bio_ops]. unfold bread_, ROOTDEV, bget. apply wp_iff.
  destruct (search_cached s l Hok Hperm Hring n) as (f & Hf & Es). rewrite !bind_assoc.
  rewrite (get_next_bind _ _ f), bind_assoc, (bind_ret_eq _ _ _ _ _ Es) by done.
  destruct (find (matches (bufs s) 1 n) l) as [i|] eqn:Efind.
  - apply find_some in Efind as [_ Hm]. unfold matches in Hm.
    destruct (bufs s !! i) as [x|] eqn:Hi; [|done].
    pose proof (bread_hit s i x n Hok Hi Hm Hh) as Hpost. eexists i, _. split; [|exact Hpost].
    apply (bread_hit_run s i x n Hok Hi Hm). destruct Hpost as [Hl _].
    cbn [held bio_view] in Hl. rewrite held_lookup, Hi in Hl. by destruct (is_locked x).
  - pose proof (find_cached_none s l Hok Hperm n Efind) as Hc.
    assert (Hsz : (size (busy s) < NBUF)%nat).
    { destruct Hroom as [Hp|]; [|done]. exfalso.
      apply pinned_elem in Hp as (j & y & Hj & Hy & E).
      pose proof (proj1 (cached_none _ _) Hc _ _ Hj) as Hno.
      rewrite (proj2 (holds_true n y)) in Hno; [done|]. split; [by eapply dirty_dev|done]. }
    destruct (busy_free s Hok Hsz) as (j & y & Hj & Hr & Hd & _).
    destruct (find_unused_some s l Hok Hperm j y Hj Hr Hd) as (i & Hfi).
    destruct (search_unused s l Hok Hperm Hring) as (f' & Hf' & Es').
    rewrite bind_assoc, (get_prev_bind _ _ f'), bind_assoc, (bind_ret_eq _ _ _ _ _ Es'), Hfi by done.
    apply find_some in Hfi as [_ Hrec]. unfold recyclable in Hrec.
    destruct (bufs s !! i) as [x|] eqn:Hi; [|done].
    apply andb_true_iff in Hrec as [Hx1%Z.eqb_eq Hx2].
    destruct (lookup_lt_is_Some_2 (memdisk s) (at_ n)) as [d Hdn]; [simpl in Hn; lia|].
    assert (Hl : is_locked x = false).
    { destruct (bo_buf s Hok _ _ Hi) as [_ [(_ & _ & Hl & _)|(_ & _ & _ & Hu)]]; [done|].
      destruct (is_locked x); [lia|done]. }
    eexists i, _. split; [apply (bread_miss_run s i x n d); (done || lia)|].
    apply (bread_miss s i x n d); try done; [|lia]. unfold dirty. by rewrite Hx2.
Qed.

#[export] Instance bio_laws : BufCacheLaws bstate.
Proof.
  split.
  - intros s _. apply view_of_length.
  - intros s Hok. apply Hok.
  - intros s Hok. unfold blocks_wf. apply Forall_lookup. intros n b. simpl. rewrite view_lookup.
    destruct (memdisk s !! n) as [blk|] eqn:E; [|done]. intros [= <-].
    destruct (cached (bufs s) (Z.of_nat n)) as [x|] eqn:Ec.
    + apply cached_some in Ec as (i & Hi & _); [|by apply bo_uniq]. by apply (bo_buf s Hok _ _ Hi).
    + pose proof (bo_disk s Hok) as Hwf. unfold blocks_wf in Hwf. rewrite Forall_lookup in Hwf.
      by apply (Hwf n).
  - intros s h b Hok Hh. destruct (held_buf s h b Hok Hh) as (x & _ & _ & <- & _ & Hu). apply Hu.
  - intros s h b Hok Hh. destruct (held_buf s h b Hok Hh) as (x & Hi & Hl & <- & Hlen & Hu).
    simpl. rewrite Hi, view_lookup. destruct Hu as (Hdev & Hrg & _).
    destruct (lookup_lt_is_Some_2 (memdisk s) (at_ (b_blockno x))) as [? ->]; [lia|].
    rewrite (proj2 (cached_some (bufs s) _ x (bo_uniq s Hok))); [done|].
    exists h. split; [done|]. apply holds_true. lia.
  - intros s h b Hok Hh. destruct (held_buf s h b Hok Hh) as (x & Hi & _ & <- & _). simpl. by rewrite Hi.
  - apply bio_view_clean.
  - apply bio_bread.
  - apply bio_set_data.
  - apply bio_set_dirty.
  - apply bio_bwrite.
  - apply bio_brelse.
Qed.

(** ** Properties *)

(** The kernel's zeroed memory before [binit]. *)
Definition zero_buf : buf :=
  {| b_flags := 0; b_dev := 0; b_blockno := 0; b_lock := initsleeplock; b_refcnt := 0;
     b_data := replicate BSIZE 0 |}.

Definition boot (pid : Z) (d : list block) : bstate :=
  {| bufs := replicate NBUF zero_buf; bprev := replicate (S NBUF) O; bnext := replicate (S NBUF) O;
     mypid := pid; memdisk := d; wlog := [] |}.

Lemma zero_bufs_none n : cached (replicate NBUF zero_buf) n = None.
Proof. apply cached_none. intros i x [-> _]%lookup_replicate. done. Qed.

Lemma binit_run pid d : exists nx pv,
  binit (boot pid d) = Ret tt (with_links (boot pid d) nx pv) /\
  length nx = S NBUF /\ length pv = S NBUF /\ ring nx pv (reverse (seq 0 NBUF)).
Proof.
  eexists _, _. split; [vm_compute; reflexivity|]. split; [reflexivity|]. split; [reflexivity|].
  vm_compute. repeat split.
Qed.

Lemma boot_view d : view_of (replicate NBUF zero_buf) d = d.
Proof.
  apply list_eq. intros n. rewrite view_lookup, zero_bufs_none. by destruct (d !! n).
Qed.

Lemma boot_held : held_of (replicate NBUF zero_buf) = ∅.
Proof.
  apply map_eq. intros i. rewrite held_lookup, lookup_empty.
  destruct (replicate NBUF zero_buf !! i) as [x|] eqn:Ei; [|done].
  by apply lookup_replicate in Ei as [-> _].
Qed.

Lemma boot_pinned : pinned_of (replicate NBUF zero_buf) = ∅.
Proof.
  apply set_eq. intros n. rewrite pinned_elem. split; [|set_solver].
  by intros (i & x & [-> _]%lookup_replicate & Hd & _).
Qed.

Lemma boot_ok pid d nx pv :
  blocks_wf d -> length nx = S NBUF -> length pv = S NBUF -> ring nx pv (reverse (seq 0 NBUF)) ->
  bio_ok (with_links (boot pid d) nx pv).
Proof.
  intros Hd Hn Hp Hr. split; cbn [bufs bnext bprev memdisk mypid with_links boot]; try done.
  - exists (reverse (seq 0 NBUF)). split; [apply reverse_Permutation|done].
  - intros i b [-> _]%lookup_replicate. split; [done|]. by left.
  - intros i j x y n [-> _]%lookup_replicate. done.
Qed.

Lemma boot_state pid d : blocks_wf d ->
  exists s, binit (boot pid d) = Ret tt s /\ cache_ok s /\ disk s = d /\ view s = d /\
    held s = ∅ /\ pinned s = ∅ /\ written s = [].
Proof.
  intros Hd. destruct (binit_run pid d) as (nx & pv & E & Hn & Hp & Hr).
  exists (with_links (boot pid d) nx pv). split; [exact E|].
  split; [by apply boot_ok|]. split; [reflexivity|]. split; [apply boot_view|].
  split; [apply boot_held|]. split; [apply boot_pinned|reflexivity].
Qed.

(** [binit] turns zeroed memory into a well-formed, empty cache: a
    circular list of all the buffers, in which every block reads as the disk
    has it, nothing is locked and nothing is dirty. *)
Theorem binit_correct pid d :
  blocks_wf d ->
  wp binit (boot pid d) (fun _ s =>
    cache_ok s /\ disk s = d /\ view s = d /\ held s = ∅ /\ pinned s = ∅ /\ written s = []).
Proof.
  intros Hd. destruct (boot_state pid d Hd) as (s & E & H). unfold wp. rewrite E. exact H.
Qed.

Lemma binit_correct_witness :
  wp binit (boot 1 [replicate BSIZE 7]) (fun _ s => view s = [replicate BSIZE 7]).
Proof.
  eapply wp_mono; [apply (binit_correct 1 [replicate BSIZE 7]); by_decide|].
  intros ? s (_ & _ & H & _). exact H.
Defined.

(** C26. [bread] of a block that is not locked returns a buffer that was free,
    locked for the caller and holding the block's contents, without a write
    to the disk or a change of any block's contents, as long as the block is
    cached dirty or fewer than [NBUF] blocks are dirty or locked. *)
Theorem bread_correct s n :
  cache_ok s -> 0 <= n < Z.of_nat (length (disk s)) -> n ∉ (map_img (held s) : gset Z) -> room s n ->
  wp (bread_ ROOTDEV n) s (fun b s' =>
    cache_ok s' /\ held s !! b = None /\ held s' = <[b := n]> (held s) /\
    b_data_of b s' = view s !! at_ n /\
    view s' = view s /\ disk s' = disk s /\ pinned s' = pinned s /\ written s' = written s).
Proof.
  intros Hok Hn Hh Hr. eapply wp_mono; [by apply bio_bread|].
  intros b s' (Hb & [H1 H2 H3 H4 H5 H6]). split_and!; try done.
  rewrite (view_data s' b n), H3; [done|done|]. by rewrite H4, lookup_insert_eq.
Qed.

(** [bread] of a block that is not cached panics when every buffer is
    referenced or dirty. *)
Theorem bread_no_buffers s n :
  cache_ok s -> cached (bufs s) n = None ->
  Forall (fun b => b_refcnt b <> 0 \/ dirty b = true) (bufs s) ->
  exists s', bread ROOTDEV n s = Stop (Panicked "bget: no buffers") s'.
Proof.
  intros Hok Hc Hall. destruct (bo_ring s Hok) as (l & Hperm & Hring).
  cbn [bread bio_ops]. unfold bread_, ROOTDEV, bget.
  destruct (search_cached s l Hok Hperm Hring n) as (f & Hf & Es). rewrite !bind_assoc.
  rewrite (get_next_bind _ _ f), bind_assoc, (bind_ret_eq _ _ _ _ _ Es) by done.
  destruct (find (matches (bufs s) 1 n) l) as [i|] eqn:Efind.
  { apply find_some in Efind as [_ Hm]. unfold matches in Hm.
    destruct (bufs s !! i) as [x|] eqn:Hi; [|done].
    pose proof (proj1 (cached_none _ _) Hc _ _ Hi) as Hno. unfold holds in Hno. congruence. }
  destruct (search_unused s l Hok Hperm Hring) as (f' & Hf' & Es').
  rewrite bind_assoc, (get_prev_bind _ _ f'), bind_assoc, (bind_ret_eq _ _ _ _ _ Es') by done.
  destruct (find (recyclable (bufs s)) (reverse l)) as [i|] eqn:E; [|by eexists].
  apply find_some in E as [_ Hm]. unfold recyclable in Hm.
  destruct (bufs s !! i) as [x|] eqn:Hi; [|done]. rewrite Forall_lookup in Hall.
  apply andb_true_iff in Hm as [Hm1%Z.eqb_eq Hm2]. destruct (Hall _ _ Hi) as [?|Hd]; [done|].
  unfold dirty in Hd. by rewrite Hm2 in Hd.
Qed.

(** A cache that holds block 0 locked, to run [bread] on. *)
Definition small_disk : list block := [replicate BSIZE 0; replicate BSIZE 7].

Lemma bread_correct_witness : exists s, binit (boot 1 small_disk) = Ret tt s /\
  wp (bread ROOTDEV 1) s (fun b s' => b_data_of b s' = Some (replicate BSIZE 7)).
Proof.
  destruct (boot_state 1 small_disk) as (s & E & Hok & Hd & Hv & Hh & Hp & _); [by_decide|].
  exists s. split; [exact E|]. eapply wp_mono.
  - refine (bread_correct s 1 Hok _ _ _).
    { rewrite Hd. change (length small_disk) with 2%nat. lia. }
    { rewrite Hh, map_img_empty. apply not_elem_of_empty. }
    by apply room_idle.
  - intros b s' (_ & _ & _ & -> & _). by rewrite Hv.
Defined.

(** All the buffers are dirty with blocks 0 to 29 of a disk of 31 blocks. *)
Definition full_cache : bstate :=
  {| bufs := (fun n => {| b_flags := 6; b_dev := 1; b_blockno := Z.of_nat n; b_lock := initsleeplock;
                          b_refcnt := 0; b_data := replicate BSIZE 0 |}) <$> seq 0 NBUF;
     bprev := (fun n => if Nat.eqb n 0 then HEAD else pred n) <$> seq 0 (S NBUF);
     bnext := (fun n => if Nat.eqb n HEAD then O else S n) <$> seq 0 (S NBUF);
     mypid := 1; memdisk := replicate (S NBUF) (replicate BSIZE 0); wlog := [] |}.

Lemma full_cache_ok : bio_ok full_cache.
Proof.
  split.
  - reflexivity.
  - reflexivity.
  - reflexivity.
  - exists (seq 0 NBUF). split; [done|]. vm_compute. repeat split.
  - apply Forall_replicate. reflexivity.
  - intros i b Hi. cbn [full_cache bufs] in Hi. rewrite list_lookup_fmap in Hi.
    destruct (seq 0 NBUF !! i) as [n|] eqn:En; [|done]. injection Hi as <-.
    apply lookup_seq in En as [-> Hlt]. split; [reflexivity|]. right.
    split; [done|]. split; [cbn [b_blockno full_cache memdisk]; rewrite length_replicate; unfold NBUF in *; lia|]. split; [by right|]. by split.
  - intros i j x y n Hi Hj [_ Hx]%holds_true [_ Hy]%holds_true. cbn [full_cache bufs] in *.
    rewrite list_lookup_fmap in Hi, Hj.
    destruct (seq 0 NBUF !! i) as [a|] eqn:Ea; [|done]. injection Hi as <-.
    destruct (seq 0 NBUF !! j) as [b|] eqn:Eb; [|done]. injection Hj as <-.
    apply lookup_seq in Ea as [-> _], Eb as [-> _]. simpl in *. lia.
Qed.

Lemma bread_no_buffers_witness :
  exists s', bread ROOTDEV 30 full_cache = Stop (Panicked "bget: no buffers") s'.
Proof. apply (bread_no_buffers full_cache 30 full_cache_ok); [reflexivity|by_decide]. Defined.
