(* ===== verification/Log.v ===== *)
(** * The log ([kernel/log.c])

    The log is modelled over any buffer cache that satisfies [BufCacheLaws].
    Its state is the cache and the fields of [struct log]; [install_trans],
    [read_head], [write_head], [recover_from_log], [begin_op], [end_op],
    [write_log], [commit] and [log_write] are the functions of the source.

    A crash leaves on the disk a prefix of the writes that were under way,
    and the reboot runs [recover_from_log].  The crash theorems say what the
    disk then holds, for every such prefix. *)

From S2P Require Import Prelude Mem BufIface.

Definition LOGSIZE : nat := 30.
Definition MAXOPBLOCKS : Z := 10.

Record log : Type := {
  l_start : Z;
  l_size : Z;
  l_outstanding : Z;
  l_committing : Z;
  l_dev : Z;
  l_n : Z;               (* lh.n *)
  l_block : list Z       (* lh.block *)
}.

Definition with_n (l : log) (n : Z) : log :=
  {| l_start := l_start l; l_size := l_size l; l_outstanding := l_outstanding l;
     l_committing := l_committing l; l_dev := l_dev l; l_n := n; l_block := l_block l |}.
Definition with_block (l : log) (b : list Z) : log :=
  {| l_start := l_start l; l_size := l_size l; l_outstanding := l_outstanding l;
     l_committing := l_committing l; l_dev := l_dev l; l_n := l_n l; l_block := b |}.
Definition with_outstanding (l : log) (n : Z) : log :=
  {| l_start := l_start l; l_size := l_size l; l_outstanding := n;
     l_committing := l_committing l; l_dev := l_dev l; l_n := l_n l; l_block := l_block l |}.
Definition with_committing (l : log) (n : Z) : log :=
  {| l_start := l_start l; l_size := l_size l; l_outstanding := l_outstanding l;
     l_committing := n; l_dev := l_dev l; l_n := l_n l; l_block := l_block l |}.

Record lstate (S : Type) : Type := { cache : S; lg : log }.
Arguments cache {S} _.
Arguments lg {S} _.
Arguments Build_lstate {S} _ _.

Section code.
Context {S : Type} `{BufCache S}.

(** A step of the cache, and an assignment to the log. *)
Definition onc {A} (m : M S A) : M (lstate S) A := fun s =>
  match m (cache s) with
  | Ret a c => Ret a {| cache := c; lg := lg s |}
  | Stop r c => Stop r {| cache := c; lg := lg s |}
  end.

Definition setl (f : log -> log) : M (lstate S) unit :=
  modify (fun s => {| cache := cache s; lg := f (lg s) |}).

Definition getl {A} (f : log -> A) : M (lstate S) A := gets (fun s => f (lg s)).

Definition data_of (b : nat) : M (lstate S) block := onc (fun c => lift (b_data_of b c) c).
Definition store_data (b : nat) (d : block) : M (lstate S) unit := onc (modify (set_data b d)).

(** [log.lh.block[i]] *)
Definition lh_block (i : nat) : M (lstate S) Z := fun s => lift (l_block (lg s) !! i) s.

Definition set_lh_block (i : nat) (b : Z) : M (lstate S) unit := fun s =>
  match store (l_block (lg s)) i b with
  | Some l => Ret tt {| cache := cache s; lg := with_block (lg s) l |}
  | None => Stop Undefined s
  end.

(** [for (tail = 0; tail < log.lh.n; tail++)]: [n] is what is left of [lh.n],
    which the body does not change. *)
Fixpoint install_loop (n tail : nat) : M (lstate S) unit :=
  match n with
  | O => ret tt
  | Datatypes.S n' =>
      let! dev := getl l_dev in
      let! start := getl l_start in
      let! lbuf := onc (bread dev (start + Z.of_nat tail + 1)) in
      let! home := lh_block tail in
      let! dbuf := onc (bread dev (u32 home)) in
      let! d := data_of lbuf in
      store_data dbuf d then!
      onc (bwrite dbuf) then!
      onc (brelse lbuf) then!
      onc (brelse dbuf) then!
      install_loop n' (Datatypes.S tail)
  end.

Definition install_trans : M (lstate S) unit :=
  let! n := getl l_n in install_loop (Z.to_nat n) 0.

(** The header block is [int n] and then [int block[LOGSIZE]]. *)
Fixpoint read_head_loop (n i : nat) (d : block) : M (lstate S) unit :=
  match n with
  | O => ret tt
  | Datatypes.S n' =>
      let! b := lift (load 4 d (4 + 4 * i)) in
      set_lh_block i (s32 b) then!
      read_head_loop n' (Datatypes.S i) d
  end.

Definition read_head : M (lstate S) unit :=
  let! dev := getl l_dev in
  let! start := getl l_start in
  let! buf := onc (bread dev start) in
  let! d := data_of buf in
  let! n := lift (load 4 d 0) in
  setl (fun l => with_n l (s32 n)) then!
  let! n := getl l_n in
  read_head_loop (Z.to_nat n) 0 d then!
  onc (brelse buf).

Fixpoint write_head_loop (n i : nat) (buf : nat) : M (lstate S) unit :=
  match n with
  | O => ret tt
  | Datatypes.S n' =>
      let! b := lh_block i in
      let! d := data_of buf in
      let! d' := lift (put 4 d (4 + 4 * i) b) in
      store_data buf d' then!
      write_head_loop n' (Datatypes.S i) buf
  end.

Definition write_head : M (lstate S) unit :=
  let! dev := getl l_dev in
  let! start := getl l_start in
  let! buf := onc (bread dev start) in
  let! n := getl l_n in
  let! d := data_of buf in
  let! d' := lift (put 4 d 0 n) in
  store_data buf d' then!
  write_head_loop (Z.to_nat n) 0 buf then!
  onc (bwrite buf) then!
  onc (brelse buf).

Definition recover_from_log : M (lstate S) unit :=
  read_head then!
  install_trans then!
  setl (fun l => with_n l 0) then!
  write_head.

(** One test of the loop of [begin_op]; both [sleep]s wait for a wakeup, after
    which the loop tests again. *)
Definition begin_op : M (lstate S) unit :=
  let! l := getl id in
  if negb (l_committing l =? 0) then halt (Sleeping "log")
  else if Z.of_nat LOGSIZE <? l_n l + (l_outstanding l + 1) * MAXOPBLOCKS
  then halt (Sleeping "log")
  else setl (fun l => with_outstanding l (l_outstanding l + 1)).

Fixpoint write_log_loop (n tail : nat) : M (lstate S) unit :=
  match n with
  | O => ret tt
  | Datatypes.S n' =>
      let! dev := getl l_dev in
      let! start := getl l_start in
      let! to_ := onc (bread dev (start + Z.of_nat tail + 1)) in
      let! home := lh_block tail in
      let! from := onc (bread dev (u32 home)) in
      let! d := data_of from in
      store_data to_ d then!
      onc (bwrite to_) then!
      onc (brelse from) then!
      onc (brelse to_) then!
      write_log_loop n' (Datatypes.S tail)
  end.

Definition write_log : M (lstate S) unit :=
  let! n := getl l_n in write_log_loop (Z.to_nat n) 0.

Definition commit : M (lstate S) unit :=
  let! n := getl l_n in
  if 0 <? n then
    write_log then!
    write_head then!
    install_trans then!
    setl (fun l => with_n l 0) then!
    write_head
  else ret tt.

Definition end_op : M (lstate S) unit :=
  setl (fun l => with_outstanding l (l_outstanding l - 1)) then!
  let! l := getl id in
  if negb (l_committing l =? 0) then halt (Panicked "log.committing")
  else if l_outstanding l =? 0 then
    setl (fun l => with_committing l 1) then!
    commit then!
    setl (fun l => with_committing l 0)
  else ret tt.

(** The index at which the block number is, or [lh.n]. *)
Fixpoint log_find (n i : nat) (b : Z) (blocks : list Z) : option nat :=
  match n with
  | O => Some i
  | Datatypes.S n' =>
      match blocks !! i with
      | None => None
      | Some x => if u32 x =? b then Some i else log_find n' (Datatypes.S i) b blocks
      end
  end.

Definition log_write (h : nat) : M (lstate S) unit :=
  let! l := getl id in
  if (Z.of_nat LOGSIZE <=? l_n l) || (l_size l - 1 <=? l_n l)
  then halt (Panicked "too big a transaction")
  else if l_outstanding l <? 1 then halt (Panicked "log_write outside of trans")
  else
    let! b := onc (fun c => lift (b_blockno_of h c) c) in
    let! i := lift (log_find (Z.to_nat (l_n l)) 0 b (l_block l)) in
    set_lh_block i (s32 b) then!
    (if Z.of_nat i =? l_n l then setl (fun l => with_n l (l_n l + 1)) else ret tt) then!
    onc (modify (set_dirty h)).
End code.

(** ** The loops *)

Lemma img_one (h : nat) (b : Z) : map_img (<[h := b]> (∅ : gmap nat Z)) = ({[b]} : gset Z).
Proof. rewrite insert_empty. apply map_img_singleton_L. Qed.

Lemma size_one (p : gset Z) b : (size (p ∪ {[b]}) <= Datatypes.S (size p))%nat.
Proof.
  rewrite size_union_alt.
  assert (size (({[b]} : gset Z) ∖ p) <= size ({[b]} : gset Z))%nat as Hs
    by (apply subseteq_size; set_solver).
  rewrite size_singleton in Hs. lia.
Qed.

(** Two blocks are locked, the second is written with the data of the first,
    and both are released: the body of both loops. *)
Lemma released_both (h1 h2 : nat) (a b : Z) :
  h1 <> h2 -> delete h2 (delete h1 (<[h2 := b]> (<[h1 := a]> (∅ : gmap nat Z)))) = ∅.
Proof.
  intros Hne. apply map_eq. intros k. rewrite lookup_empty.
  destruct (decide (k = h2)) as [->|]; [by rewrite lookup_delete_eq|].
  rewrite lookup_delete_ne by done.
  destruct (decide (k = h1)) as [->|]; [by rewrite lookup_delete_eq|].
  rewrite lookup_delete_ne by done. by rewrite !lookup_insert_ne.
Qed.

Section loops.
Context {S : Type} {ops : BufCache S} {cv : CacheView S} {laws : BufCacheLaws S}.
Implicit Types (c : S) (l : log) (d v : list block) (p : gset Z) (w : list (Z * block)).

Lemma wp_onc {A} (m : M S A) s (Q : A -> lstate S -> Prop) :
  wp m (cache s) (fun a c => Q a {| cache := c; lg := lg s |}) -> wp (onc m) s Q.
Proof. unfold wp, onc. by destruct (m (cache s)). Qed.

Lemma wp_onc_law {A} (m : M S A) s (P : A -> S -> Prop) (Q : A -> lstate S -> Prop) :
  wp m (cache s) P -> (forall a c, P a c -> Q a {| cache := c; lg := lg s |}) -> wp (onc m) s Q.
Proof. intros Hm HPQ. apply wp_onc. by eapply wp_mono. Qed.

Lemma wp_data c l h b d v hd p w x Q :
  looks c d v hd p w -> hd !! h = Some b -> v !! at_ b = Some x ->
  Q x {| cache := c; lg := l |} -> wp (data_of h) {| cache := c; lg := l |} Q.
Proof.
  intros [H1 H2 H3 H4 H5 H6] Hh Hv HQ. apply wp_onc. unfold wp. simpl.
  rewrite (view_data c h b), H3, Hv; [done|done|]. by rewrite H4.
Qed.

Lemma wp_store c l h b d v hd p w x Q :
  looks c d v hd p w -> hd !! h = Some b -> length x = BSIZE ->
  (forall c', looks c' d (<[at_ b := x]> v) hd p w -> Q tt {| cache := c'; lg := l |}) ->
  wp (store_data h x) {| cache := c; lg := l |} Q.
Proof.
  intros [H1 H2 H3 H4 H5 H6] Hh Hx HQ. apply wp_onc. unfold wp. simpl. apply HQ.
  pose proof (set_data_law c h b x H1) as Hl. rewrite H2, H3, H4, H5, H6 in Hl. by apply Hl.
Qed.

Lemma wp_bread c l b d v hd p w Q :
  looks c d v hd p w -> 0 <= b < Z.of_nat (length d) -> b ∉ (map_img hd : gset Z) ->
  b ∈ p \/ (size (p ∪ map_img hd) < NBUF)%nat ->
  (forall h c', hd !! h = None -> looks c' d v (<[h := b]> hd) p w -> Q h {| cache := c'; lg := l |}) ->
  wp (onc (bread ROOTDEV b)) {| cache := c; lg := l |} Q.
Proof.
  intros [H1 H2 H3 H4 H5 H6] Hb Hh Hr HQ. eapply wp_onc_law.
  - apply bread_law; simpl; rewrite ?H2, ?H4; try done. unfold room, busy. by rewrite H4, H5.
  - simpl. intros h c'. rewrite H2, H3, H4, H5, H6. intros [Hn Hc]. by apply HQ.
Qed.

Lemma wp_bwrite c l h b d v hd p w x Q :
  looks c d v hd p w -> hd !! h = Some b -> v !! at_ b = Some x ->
  (forall c', looks c' (<[at_ b := x]> d) v hd (p ∖ {[b]}) (w ++ [(b, x)]) ->
    Q tt {| cache := c'; lg := l |}) ->
  wp (onc (bwrite h)) {| cache := c; lg := l |} Q.
Proof.
  intros [H1 H2 H3 H4 H5 H6] Hh Hv HQ. eapply wp_onc_law.
  - apply (bwrite_law c h b x); rewrite ?H3, ?H4; done.
  - simpl. intros [] c'. rewrite H2, H3, H4, H5, H6. apply HQ.
Qed.

Lemma wp_brelse c l h b d v hd p w Q :
  looks c d v hd p w -> hd !! h = Some b -> b ∈ p \/ v !! at_ b = d !! at_ b ->
  (forall c', looks c' d v (delete h hd) p w -> Q tt {| cache := c'; lg := l |}) ->
  wp (onc (brelse h)) {| cache := c; lg := l |} Q.
Proof.
  intros [H1 H2 H3 H4 H5 H6] Hh Hv HQ. eapply wp_onc_law.
  - apply (brelse_law c h b); rewrite ?H2, ?H3, ?H4, ?H5; done.
  - simpl. intros [] c'. rewrite H2, H3, H4, H5, H6. apply HQ.
Qed.

Lemma looks_length c d v hd p w : looks c d v hd p w -> length v = length d.
Proof. intros [H1 <- <- _ _ _]. by apply view_length. Qed.

Lemma looks_clean c d v p w b :
  looks c d v ∅ p w -> 0 <= b -> b ∉ p -> v !! at_ b = d !! at_ b.
Proof.
  intros [H1 <- <- H4 H5 _] Hb Hp. apply view_clean; try done. unfold busy.
  rewrite H4, H5, map_img_empty. set_solver.
Qed.

Lemma looks_view_wf c d v hd p w : looks c d v hd p w -> blocks_wf v.
Proof. intros [H1 _ <- _ _ _]. by apply view_wf. Qed.

Lemma looks_disk_wf c d v hd p w : looks c d v hd p w -> blocks_wf d.
Proof. intros [H1 <- _ _ _ _]. by apply disk_wf. Qed.

Lemma blocks_at d n : blocks_wf d -> 0 <= n < Z.of_nat (length d) ->
  exists x, d !! at_ n = Some x /\ length x = BSIZE.
Proof.
  intros Hd Hn. destruct (lookup_lt_is_Some_2 d (at_ n)) as [x Hx]; [lia|]. exists x.
  split; [done|]. unfold blocks_wf in Hd. rewrite Forall_lookup in Hd. by eapply Hd.
Qed.

(** One iteration of [install_trans]. *)
Lemma wp_install_body c l n t a home d v p w x Q :
  looks c d v ∅ p w -> l_dev l = ROOTDEV -> a = l_start l + Z.of_nat t + 1 ->
  l_block l !! t = Some home -> u32 home = home ->
  0 <= a < Z.of_nat (length d) -> 0 <= home < Z.of_nat (length d) -> a <> home ->
  a ∉ p -> (size p < NBUF)%nat -> home ∈ p \/ (Datatypes.S (size p) < NBUF)%nat ->
  v !! at_ a = Some x ->
  (forall c', looks c' (<[at_ home := x]> d) (<[at_ home := x]> v) ∅ (p ∖ {[home]}) (w ++ [(home, x)]) ->
     wp (install_loop n (Datatypes.S t)) {| cache := c'; lg := l |} Q) ->
  wp (install_loop (Datatypes.S n) t) {| cache := c; lg := l |} Q.
Proof.
  intros Hc Hdev -> Hhome Hu Ha Hb Hne Hap Hsz Hroom Hx HQ. cbn [install_loop].
  set (a := l_start l + Z.of_nat t + 1) in *.
  assert (Hclean : v !! at_ a = d !! at_ a) by (eapply looks_clean; (done || lia)).
  assert (Hlen : length x = BSIZE) by
    (pose proof (looks_view_wf _ _ _ _ _ _ Hc) as Hwf; unfold blocks_wf in Hwf;
     rewrite Forall_lookup in Hwf; by eapply Hwf).
  pose proof (looks_length _ _ _ _ _ _ Hc) as Hvd.
  do 2 (apply wp_bind, wp_gets). cbn [lg]. rewrite Hdev. fold a.
  apply wp_bind. eapply wp_bread; [exact Hc|done|rewrite map_img_empty; set_solver| |].
  { right. rewrite map_img_empty, (right_id_L ∅ (∪)). done. }
  intros h1 c1 _ Hc1. apply wp_bind. unfold wp at 1. unfold lh_block. cbn [lg]. rewrite Hhome. simpl.
  rewrite Hu. apply wp_bind. eapply wp_bread; [exact Hc1|done|rewrite img_one; set_solver| |].
  { destruct Hroom; [by left|right]. rewrite img_one. pose proof (size_one p a). lia. }
  intros h2 c2 Hh2 Hc2. assert (h1 <> h2).
  { intros ->. by rewrite lookup_insert_eq in Hh2. }
  apply wp_bind. eapply wp_data; [exact Hc2| |exact Hx|];
    [by rewrite lookup_insert_ne, lookup_insert_eq|].
  apply wp_bind. eapply wp_store; [exact Hc2|by rewrite lookup_insert_eq|done|].
  intros c3 Hc3. apply wp_bind. eapply wp_bwrite; [exact Hc3|by rewrite lookup_insert_eq| |].
  { rewrite list_lookup_insert_eq; [done|lia]. }
  intros c4 Hc4. apply wp_bind. eapply (wp_brelse _ _ _ a); [exact Hc4| | |].
  { by rewrite lookup_insert_ne, lookup_insert_eq. }
  { right. rewrite !list_lookup_insert_ne by lia. done. }
  intros c5 Hc5. apply wp_bind. eapply (wp_brelse _ _ _ home); [exact Hc5| | |].
  { rewrite lookup_delete_ne by done. by rewrite lookup_insert_eq. }
  { right. rewrite !list_lookup_insert_eq by lia. done. }
  intros c6 Hc6. apply HQ. by rewrite released_both in Hc6.
Qed.

(** One iteration of [write_log]. *)
Lemma wp_write_log_body c l n t a home d v p w x Q :
  looks c d v ∅ p w -> l_dev l = ROOTDEV -> a = l_start l + Z.of_nat t + 1 ->
  l_block l !! t = Some home -> u32 home = home ->
  0 <= a < Z.of_nat (length d) -> 0 <= home < Z.of_nat (length d) -> a <> home ->
  a ∉ p -> (size p < NBUF)%nat -> home ∈ p ->
  v !! at_ home = Some x ->
  (forall c', looks c' (<[at_ a := x]> d) (<[at_ a := x]> v) ∅ p (w ++ [(a, x)]) ->
     wp (write_log_loop n (Datatypes.S t)) {| cache := c'; lg := l |} Q) ->
  wp (write_log_loop (Datatypes.S n) t) {| cache := c; lg := l |} Q.
Proof.
  intros Hc Hdev -> Hhome Hu Ha Hb Hne Hap Hsz Hroom Hx HQ. cbn [write_log_loop].
  set (a := l_start l + Z.of_nat t + 1) in *.
  assert (Hlen : length x = BSIZE) by
    (pose proof (looks_view_wf _ _ _ _ _ _ Hc) as Hwf; unfold blocks_wf in Hwf;
     rewrite Forall_lookup in Hwf; by eapply Hwf).
  pose proof (looks_length _ _ _ _ _ _ Hc) as Hvd.
  do 2 (apply wp_bind, wp_gets). cbn [lg]. rewrite Hdev. fold a.
  apply wp_bind. eapply wp_bread; [exact Hc|done|rewrite map_img_empty; set_solver| |].
  { right. rewrite map_img_empty, (right_id_L ∅ (∪)). done. }
  intros h1 c1 _ Hc1. apply wp_bind. unfold wp at 1. unfold lh_block. cbn [lg]. rewrite Hhome. simpl.
  rewrite Hu. apply wp_bind. eapply wp_bread; [exact Hc1|done|rewrite img_one; set_solver|by left|].
  intros h2 c2 Hh2 Hc2. assert (h1 <> h2).
  { intros ->. by rewrite lookup_insert_eq in Hh2. }
  apply wp_bind. eapply wp_data; [exact Hc2|by rewrite lookup_insert_eq|exact Hx|].
  apply wp_bind. eapply (wp_store _ _ _ a); [exact Hc2| |done|].
  { by rewrite lookup_insert_ne, lookup_insert_eq. }
  intros c3 Hc3. apply wp_bind. eapply (wp_bwrite _ _ _ a); [exact Hc3| | |].
  { by rewrite lookup_insert_ne, lookup_insert_eq. }
  { rewrite list_lookup_insert_eq; [done|lia]. }
  intros c4 Hc4. rewrite (difference_disjoint_L p {[a]}) in Hc4 by set_solver.
  apply wp_bind. eapply (wp_brelse _ _ _ home); [exact Hc4|by rewrite lookup_insert_eq|by left|].
  intros c5 Hc5. apply wp_bind. eapply (wp_brelse _ _ _ a); [exact Hc5| | |].
  { rewrite lookup_delete_ne by done. by rewrite lookup_insert_ne, lookup_insert_eq. }
  { right. rewrite !list_lookup_insert_eq by lia. done. }
  intros c6 Hc6. apply HQ. rewrite delete_delete, released_both in Hc6; done.
Qed.
End loops.

(** ** The two copies, as lists of writes *)

Definition bget_ (v : list block) (n : Z) : block := default [] (v !! at_ n).

(** Writes that copy the log blocks from [start + t + 1] to the homes. *)
Fixpoint installs (v : list block) (start : Z) (t : nat) (homes : list Z) : list (Z * block) :=
  match homes with
  | [] => []
  | h :: r => (h, bget_ v (start + Z.of_nat t + 1)) :: installs v start (S t) r
  end.

(** Writes that copy the homes to the log blocks. *)
Fixpoint log_writes (v : list block) (start : Z) (t : nat) (homes : list Z) : list (Z * block) :=
  match homes with
  | [] => []
  | h :: r => (start + Z.of_nat t + 1, bget_ v h) :: log_writes v start (S t) r
  end.

Definition in_log (l : log) (b : Z) : Prop := l_start l <= b < l_start l + l_size l.

(** A block of the disk outside the log. *)
Definition home_ok (l : log) (len : nat) (b : Z) : Prop := 0 <= b < Z.of_nat len /\ ~ in_log l b.

Definition homes (l : log) : list Z := take (Z.to_nat (l_n l)) (l_block l).

(** The log is inside the disk, in front of at least one block. *)
Record geometry (l : log) (len : nat) : Prop := {
  ge_dev : l_dev l = ROOTDEV;
  ge_start : 0 <= l_start l;
  ge_size : 1 <= l_size l;
  ge_end : l_start l + l_size l <= Z.of_nat len;
  ge_len : Z.of_nat len < 2 ^ 31;
  ge_block : length (l_block l) = LOGSIZE
}.

(** The blocks listed in the log header fit in the log and are outside it. *)
Record logged_ok (l : log) (len : nat) : Prop := {
  lo_n : 0 <= l_n l <= Z.of_nat LOGSIZE;
  lo_fits : l_n l <= l_size l - 1;
  lo_homes : Forall (home_ok l len) (homes l)
}.

Lemma homes_length l len : geometry l len -> logged_ok l len -> length (homes l) = Z.to_nat (l_n l).
Proof. intros Hg Hl. unfold homes. rewrite length_take, (ge_block _ _ Hg). pose proof (lo_n _ _ Hl). lia. Qed.

Lemma u32_home l len b : geometry l len -> home_ok l len b -> u32 b = b.
Proof. intros Hg [Hb _]. apply u32_small. pose proof (ge_len _ _ Hg). lia. Qed.

Section copies.
Context {S : Type} {ops : BufCache S} {cv : CacheView S} {laws : BufCacheLaws S}.
Implicit Types (c : S) (l : log) (d v : list block) (p : gset Z) (w : list (Z * block)).

Lemma bget_some v n x : v !! at_ n = Some x -> bget_ v n = x.
Proof. unfold bget_. by intros ->. Qed.

Lemma installs_insert v l t hs b x :
  ~ in_log l b -> 0 <= b -> 0 <= l_start l -> Z.of_nat t + Z.of_nat (length hs) <= l_size l - 1 ->
  installs (<[at_ b := x]> v) (l_start l) t hs = installs v (l_start l) t hs.
Proof.
  intros Hb Hb0 Hs. revert t. induction hs as [|h hs IH]; intros t Ht; [done|]. simpl in *.
  rewrite IH by lia. do 2 f_equal. unfold bget_. rewrite list_lookup_insert_ne; [done|].
  unfold in_log in Hb. lia.
Qed.

Lemma log_writes_insert v start t hs a x :
  (forall h, h ∈ hs -> at_ h <> a) -> log_writes (<[a := x]> v) start t hs = log_writes v start t hs.
Proof.
  revert t. induction hs as [|h hs IH]; intros t Hne; [done|]. simpl. rewrite IH by set_solver.
  do 2 f_equal. unfold bget_. rewrite list_lookup_insert_ne; [done|]. symmetry. apply Hne. set_solver.
Qed.

Lemma wp_install_loop hs c l t d v p w (Q : unit -> lstate S -> Prop) :
  looks c d v ∅ p w -> geometry l (length d) -> Forall (home_ok l (length d)) hs ->
  hs = take (length hs) (drop t (l_block l)) ->
  Z.of_nat t + Z.of_nat (length hs) <= l_size l - 1 ->
  (forall b, b ∈ p -> ~ in_log l b) ->
  (Datatypes.S (size p) < NBUF)%nat \/ (size p < NBUF)%nat /\ (forall h, h ∈ hs -> h ∈ p) ->
  let ws := installs v (l_start l) t hs in
  (forall c', looks c' (replay ws d) (replay ws v) ∅ (p ∖ list_to_set hs) (w ++ ws) ->
    Q tt {| cache := c'; lg := l |}) ->
  wp (install_loop (length hs) t) {| cache := c; lg := l |} Q.
Proof.
  revert c t d v p w. induction hs as [|h hs IH]; intros c t d v p w Hc Hg Hhs Hblk Ht Hp Hsz ws HQ.
  { apply wp_ret, HQ. simpl. by rewrite app_nil_r, difference_empty_L. }
  apply Forall_cons_iff in Hhs as [Hh Hhs]. simpl length in *.
  assert (Hlook : l_block l !! t = Some h).
  { rewrite <- (Nat.add_0_r t), <- lookup_drop. destruct (drop t (l_block l)); [done|].
    simpl in Hblk. by injection Hblk as <- _. }
  pose proof (looks_length _ _ _ _ _ _ Hc) as Hvd. destruct Hg as [G1 G2 G3 G4 G5 G6].
  assert (Ha : in_log l (l_start l + Z.of_nat t + 1)) by (unfold in_log; lia).
  destruct (lookup_lt_is_Some_2 v (at_ (l_start l + Z.of_nat t + 1))) as [x Hx]; [unfold in_log in Ha; lia|].
  destruct Hh as [Hh1 Hh2].
  eapply (wp_install_body c l _ t _ h d v p w x); try done.
  - apply u32_small. lia.
  - unfold in_log in Ha. lia.
  - intros E. by rewrite E in Ha.
  - intros E. by apply (Hp _ E).
  - destruct Hsz; lia.
  - destruct Hsz as [?|[_ Hin]]; [by right|left]. apply Hin. set_solver.
  - intros c' Hc'. eapply IH; [exact Hc'| | | | | | |].
    + by rewrite length_insert.
    + by rewrite length_insert.
    + rewrite (drop_S _ _ _ Hlook) in Hblk. simpl in Hblk. by injection Hblk.
    + lia.
    + set_solver.
    + left. assert (p ∖ {[h]} ⊆ p) as Hsub%subseteq_size by set_solver.
      destruct Hsz as [?|[? Hin]]; [lia|].
      assert (p ∖ {[h]} ⊂ p) as Hss%subset_size by (specialize (Hin h); set_solver). lia.
    + intros c'' Hc''. apply HQ. subst ws. simpl. rewrite (bget_some _ _ _ Hx).
      rewrite installs_insert in Hc'' by (done || lia).
      rewrite <- app_assoc in Hc''. simpl in Hc''.
      rewrite difference_difference_l_L in Hc''. exact Hc''.
Qed.

Lemma wp_write_log_loop hs c l t d v p w (Q : unit -> lstate S -> Prop) :
  looks c d v ∅ p w -> geometry l (length d) -> Forall (home_ok l (length d)) hs ->
  hs = take (length hs) (drop t (l_block l)) ->
  Z.of_nat t + Z.of_nat (length hs) <= l_size l - 1 ->
  (forall b, b ∈ p -> ~ in_log l b) -> (size p < NBUF)%nat -> (forall h, h ∈ hs -> h ∈ p) ->
  let ws := log_writes v (l_start l) t hs in
  (forall c', looks c' (replay ws d) (replay ws v) ∅ p (w ++ ws) -> Q tt {| cache := c'; lg := l |}) ->
  wp (write_log_loop (length hs) t) {| cache := c; lg := l |} Q.
Proof.
  revert c t d v w. induction hs as [|h hs IH]; intros c t d v w Hc Hg Hhs Hblk Ht Hp Hsz Hin ws HQ.
  { apply wp_ret, HQ. simpl. by rewrite app_nil_r. }
  pose proof Hhs as Hall. apply Forall_cons_iff in Hhs as [Hh Hhs]. simpl length in *.
  assert (Hlook : l_block l !! t = Some h).
  { rewrite <- (Nat.add_0_r t), <- lookup_drop. destruct (drop t (l_block l)); [done|].
    simpl in Hblk. by injection Hblk as <- _. }
  pose proof (looks_length _ _ _ _ _ _ Hc) as Hvd. destruct Hg as [G1 G2 G3 G4 G5 G6].
  assert (Ha : in_log l (l_start l + Z.of_nat t + 1)) by (unfold in_log; lia).
  destruct Hh as [Hh1 Hh2]. destruct (lookup_lt_is_Some_2 v (at_ h)) as [x Hx]; [lia|].
  eapply (wp_write_log_body c l _ t _ h d v p w x); try done.
  - apply u32_small. lia.
  - unfold in_log in Ha. lia.
  - intros E. by rewrite E in Ha.
  - intros E. by apply (Hp _ E).
  - apply Hin. set_solver.
  - intros c' Hc'. eapply IH; [exact Hc'| | | | |done|done| |].
    + by rewrite length_insert.
    + by rewrite length_insert.
    + rewrite (drop_S _ _ _ Hlook) in Hblk. simpl in Hblk. by injection Hblk.
    + lia.
    + set_solver.
    + intros c'' Hc''. apply HQ. subst ws. simpl. rewrite (bget_some _ _ _ Hx).
      rewrite log_writes_insert, <- app_assoc in Hc''; [exact Hc''|].
      intros k Hk E. rewrite list.Forall_forall in Hhs. destruct (Hhs k Hk) as [Hk1 Hk2].
      apply Hk2. unfold in_log in *. lia.
Qed.
End copies.

(** ** The header block *)

(** The block encodes the list of home blocks. *)
Definition header_is (x : block) (hs : list Z) : Prop :=
  length x = BSIZE /\ load 4 x 0 = Some (Z.of_nat (length hs)) /\
  forall i h, hs !! i = Some h -> load 4 x (4 + 4 * i) = Some h.

Lemma put_word x o b x' : put 4 x o b = Some x' -> 0 <= b < 2 ^ 32 -> load 4 x' o = Some b.
Proof. intros Hp Hb. rewrite (load_put_same _ _ _ _ _ Hp). f_equal. by apply Z.mod_small. Qed.

Section header.
Context {S : Type} {ops : BufCache S} {cv : CacheView S} {laws : BufCacheLaws S}.
Implicit Types (c : S) (l : log) (d v : list block) (p : gset Z) (w : list (Z * block)).

(** The loop of [write_head] fills in the words from [i] on. *)
Lemma wp_write_head_loop r c l i h b d v hd p w x (Q : unit -> lstate S -> Prop) :
  looks c d v hd p w -> hd !! h = Some b -> 0 <= b < Z.of_nat (length d) ->
  v !! at_ b = Some x -> length x = BSIZE ->
  (i + length r <= LOGSIZE)%nat -> r = take (length r) (drop i (l_block l)) ->
  Forall (fun y => 0 <= y < 2 ^ 31) r ->
  (forall c' x', looks c' d (<[at_ b := x']> v) hd p w -> length x' = BSIZE ->
     (forall o, (o + 4 <= 4 + 4 * i)%nat -> load 4 x' o = load 4 x o) ->
     (forall j y, r !! j = Some y -> load 4 x' (4 + 4 * (i + j)) = Some y) ->
     Q tt {| cache := c'; lg := l |}) ->
  wp (write_head_loop (length r) i h) {| cache := c; lg := l |} Q.
Proof.
  revert c i v x. induction r as [|y r IH]; intros c i v x Hc Hh Hb Hx Hlx Hi Hblk Hr HQ.
  { apply wp_ret, (HQ c x); try done. by rewrite list_insert_id. }
  apply Forall_cons_iff in Hr as [Hy Hr]. simpl length in *.
  assert (Hlook : l_block l !! i = Some y).
  { rewrite <- (Nat.add_0_r i), <- lookup_drop. destruct (drop i (l_block l)); [done|].
    simpl in Hblk. by injection Hblk as <- _. }
  cbn [write_head_loop]. apply wp_bind. unfold wp at 1, lh_block. cbn [lg]. rewrite Hlook. simpl.
  apply wp_bind. eapply wp_data; [exact Hc|exact Hh|exact Hx|].
  apply wp_bind. unfold LOGSIZE, BSIZE in *.
  eapply wp_lift; [apply put_in; lia|].
  set (x1 := splice x (4 + 4 * i) (le_bytes 4 y)).
  assert (Hp : put 4 x (4 + 4 * i) y = Some x1) by (apply put_in; lia).
  assert (Hlx1 : length x1 = 512%nat) by (by rewrite (put_length _ _ _ _ _ Hp)).
  pose proof (looks_length _ _ _ _ _ _ Hc) as Hvd.
  apply wp_bind. eapply wp_store; [exact Hc|exact Hh|done|]. intros c1 Hc1.
  eapply (IH c1 (Datatypes.S i) _ x1); [exact Hc1|done|done| |done|lia| |done|].
  - rewrite list_lookup_insert_eq; [done|lia].
  - rewrite (drop_S _ _ _ Hlook) in Hblk. simpl in Hblk. by injection Hblk.
  - intros c' x' Hc' Hlx' Hlow Hhigh. rewrite list_insert_insert_eq in Hc'.
    apply (HQ c' x'); try done.
    + intros o Ho. rewrite Hlow by lia. eapply load_put_other; [exact Hp|lia].
    + intros [|j] z Hj; simpl in Hj.
      * injection Hj as <-. rewrite Nat.add_0_r, Hlow by lia. eapply put_word; [exact Hp|lia].
      * rewrite <- (Hhigh j z Hj). do 2 f_equal. lia.
Qed.

Lemma wp_write_head c l d v p w (Q : unit -> lstate S -> Prop) :
  looks c d v ∅ p w -> geometry l (length d) -> logged_ok l (length d) ->
  l_start l ∉ p -> (size p < NBUF)%nat ->
  (forall c' x, header_is x (homes l) ->
     looks c' (<[at_ (l_start l) := x]> d) (<[at_ (l_start l) := x]> v) ∅ p (w ++ [(l_start l, x)]) ->
     Q tt {| cache := c'; lg := l |}) ->
  wp write_head {| cache := c; lg := l |} Q.
Proof.
  intros Hc Hg Hl Hsp Hsz HQ. pose proof (looks_length _ _ _ _ _ _ Hc) as Hvd.
  pose proof (homes_length _ _ Hg Hl) as Hlen. pose proof Hg as [G1 G2 G3 G4 G5 G6].
  pose proof Hl as [L1 L2 L3]. set (b := l_start l) in *.
  destruct (blocks_at v b (looks_view_wf _ _ _ _ _ _ Hc)) as (x0 & Hx0 & Hlx0); [lia|].
  unfold write_head. do 2 (apply wp_bind, wp_gets). cbn [lg]. rewrite G1. fold b.
  apply wp_bind. eapply wp_bread; [exact Hc|lia|rewrite map_img_empty; set_solver| |].
  { right. rewrite map_img_empty, (right_id_L ∅ (∪)). done. }
  intros h c1 _ Hc1. apply wp_bind, wp_gets. cbn [lg].
  apply wp_bind. eapply wp_data; [exact Hc1|by rewrite lookup_insert_eq|exact Hx0|].
  apply wp_bind. eapply wp_lift; [apply put_in; unfold BSIZE in *; lia|].
  set (x1 := splice x0 0 (le_bytes 4 (l_n l))).
  assert (Hp : put 4 x0 0 (l_n l) = Some x1) by (apply put_in; unfold BSIZE in *; lia).
  assert (Hlx1 : length x1 = BSIZE) by (by rewrite (put_length _ _ _ _ _ Hp)).
  apply wp_bind. eapply wp_store; [exact Hc1|by rewrite lookup_insert_eq|done|]. intros c2 Hc2.
  apply wp_bind. rewrite <- Hlen.
  eapply (wp_write_head_loop _ _ _ 0 h b _ _ _ _ _ x1);
    [exact Hc2|by rewrite lookup_insert_eq|lia| |done| | | |].
  { rewrite list_lookup_insert_eq; [done|lia]. }
  { rewrite Hlen. lia. }
  { unfold homes at 1. by rewrite Hlen. }
  { eapply Forall_impl; [|exact L3]. intros y [Hy _]. lia. }
  intros c3 x3 Hc3 Hlx3 Hlow Hhigh. rewrite list_insert_insert_eq in Hc3.
  apply wp_bind. eapply (wp_bwrite _ _ _ b); [exact Hc3|by rewrite lookup_insert_eq| |].
  { rewrite list_lookup_insert_eq; [done|lia]. }
  intros c4 Hc4. rewrite (difference_disjoint_L p {[b]}) in Hc4 by set_solver.
  eapply (wp_brelse _ _ _ b); [exact Hc4|by rewrite lookup_insert_eq| |].
  { right. rewrite !list_lookup_insert_eq by lia. done. }
  intros c5 Hc5. rewrite delete_insert_eq, delete_empty in Hc5. apply (HQ c5 x3); [|done].
  split; [done|]. split.
  - rewrite (Hlow 0%nat), Hlen, Z2Nat.id by lia. eapply put_word; [exact Hp|].
    unfold LOGSIZE in *. lia.
  - intros i y Hi. by rewrite <- (Hhigh i y Hi).
Qed.

Lemma wp_read_head_loop r c l i x (Q : unit -> lstate S -> Prop) :
  (i + length r <= length (l_block l))%nat ->
  (forall j y, r !! j = Some y -> 0 <= y < 2 ^ 31 /\ load 4 x (4 + 4 * (i + j)) = Some y) ->
  Q tt {| cache := c; lg := with_block l (splice (l_block l) i r) |} ->
  wp (read_head_loop (length r) i x) {| cache := c; lg := l |} Q.
Proof.
  revert i l. induction r as [|y r IH]; intros i l Hi Hr HQ.
  { apply wp_ret. rewrite splice_nil in HQ. by destruct l. }
  simpl length in *. cbn [read_head_loop]. destruct (Hr 0%nat y) as [Hy Hload]; [done|].
  rewrite Nat.add_0_r in Hload. apply wp_bind. eapply wp_lift; [exact Hload|].
  apply wp_bind. unfold wp at 1, set_lh_block. cbn [lg]. rewrite store_in by lia. cbn [cache].
  apply IH; cbn [l_block with_block].
  - rewrite length_insert. lia.
  - intros j z Hj. replace (Datatypes.S i + j)%nat with (i + Datatypes.S j)%nat by lia. by apply Hr.
  - rewrite splice_cons, s32_small by lia. exact HQ.
Qed.

Lemma wp_read_head c l d v p w hs x (Q : unit -> lstate S -> Prop) :
  looks c d v ∅ p w -> geometry l (length d) -> l_start l ∉ p -> (size p < NBUF)%nat ->
  v !! at_ (l_start l) = Some x -> header_is x hs -> (length hs <= LOGSIZE)%nat ->
  Forall (fun y => 0 <= y < 2 ^ 31) hs ->
  (forall c', looks c' d v ∅ p w ->
     Q tt {| cache := c';
             lg := with_block (with_n l (Z.of_nat (length hs))) (splice (l_block l) 0 hs) |}) ->
  wp read_head {| cache := c; lg := l |} Q.
Proof.
  intros Hc Hg Hsp Hsz Hx (Hlx & Hn & Hload) Hle Hhs HQ. pose proof Hg as [G1 G2 G3 G4 G5 G6].
  unfold read_head. do 2 (apply wp_bind, wp_gets). cbn [lg]. rewrite G1.
  apply wp_bind. eapply wp_bread; [exact Hc|lia|rewrite map_img_empty; set_solver| |].
  { right. rewrite map_img_empty, (right_id_L ∅ (∪)). done. }
  intros h c1 _ Hc1. apply wp_bind. eapply wp_data; [exact Hc1|by rewrite lookup_insert_eq|exact Hx|].
  apply wp_bind. eapply wp_lift; [exact Hn|]. apply wp_bind, wp_modify, wp_bind, wp_gets. cbn [lg cache].
  cbn [l_n with_n]. unfold LOGSIZE in *. rewrite s32_small, Nat2Z.id by lia.
  apply wp_bind, wp_read_head_loop; cbn [l_block with_n]; [lia| |].
  { intros j y Hj. split; [|by apply Hload]. rewrite Forall_lookup in Hhs. by eapply Hhs. }
  eapply (wp_brelse _ _ _ (l_start l)); [exact Hc1|by rewrite lookup_insert_eq| |].
  { right. eapply looks_clean; [exact Hc|lia|done]. }
  intros c2 Hc2. rewrite delete_insert_eq, delete_empty in Hc2. by apply HQ.
Qed.
End header.

(** ** Recovery, as a function of the disk *)

(** The blocks a header lists. *)
Definition decode (x : block) : list Z :=
  (fun i => s32 (default 0 (load 4 x (4 + 4 * i)))) <$> seq 0 (Z.to_nat (s32 (default 0 (load 4 x 0)))).

(** The disk with the logged blocks copied to their homes. *)
Definition recovered (start : Z) (d : list block) : list block :=
  replay (installs d start 0 (decode (bget_ d start))) d.

Lemma decode_header x hs :
  header_is x hs -> (length hs <= LOGSIZE)%nat -> Forall (fun y => 0 <= y < 2 ^ 31) hs -> decode x = hs.
Proof.
  intros (_ & Hn & Hload) Hle Hhs. unfold decode. rewrite Hn. simpl default.
  unfold LOGSIZE in *. rewrite s32_small, Nat2Z.id by lia.
  apply list_eq. intros i. rewrite list_lookup_fmap.
  destruct (hs !! i) as [y|] eqn:Hi.
  - rewrite lookup_seq_lt by (by eapply lookup_lt_Some).
    change (Some (s32 (default 0 (load 4 x (4 + 4 * i)))) = Some y).
    rewrite (Hload _ _ Hi). simpl. f_equal. apply s32_small.
    rewrite Forall_lookup in Hhs. pose proof (Hhs _ _ Hi). lia.
  - apply lookup_ge_None in Hi. by rewrite lookup_seq_ge.
Qed.

(** The same contents outside the log. *)
Definition same_homes (l : log) (d d' : list block) : Prop :=
  length d = length d' /\ forall b, home_ok l (length d) b -> d !! at_ b = d' !! at_ b.

Definition home_writes (v : list block) (hs : list Z) : list (Z * block) :=
  (fun h => (h, bget_ v h)) <$> hs.

Lemma installs_ext l D d t hs :
  (forall b, in_log l b -> bget_ D b = bget_ d b) -> 0 <= l_start l ->
  Z.of_nat t + Z.of_nat (length hs) <= l_size l - 1 ->
  installs D (l_start l) t hs = installs d (l_start l) t hs.
Proof.
  intros HD Hs. revert t. induction hs as [|h hs IH]; intros t Ht; simpl in *; [done|].
  rewrite HD by (unfold in_log; lia). f_equal. apply IH. lia.
Qed.

Section writes.
Implicit Types (d v : list block) (hs : list Z).

Lemma installs_home_writes d v start t hs :
  (forall i h, hs !! i = Some h -> bget_ d (start + Z.of_nat (t + i) + 1) = bget_ v h) ->
  installs d start t hs = home_writes v hs.
Proof.
  revert t. induction hs as [|h hs IH]; intros t Hd; [done|]. simpl.
  pose proof (Hd 0%nat h eq_refl) as H0. rewrite Nat.add_0_r in H0. rewrite H0. f_equal.
  apply IH. intros i k Hi. rewrite <- (Hd (S i) k Hi). do 3 f_equal. lia.
Qed.

Lemma log_writes_addr v start t hs w :
  w ∈ log_writes v start t hs -> start + Z.of_nat t + 1 <= w.1 <= start + Z.of_nat (t + length hs).
Proof.
  revert t. induction hs as [|h hs IH]; intros t; simpl; [set_solver|].
  intros [->|Hw]%elem_of_cons; [simpl; lia|]. apply IH in Hw. lia.
Qed.

Lemma log_writes_lookup d v start t hs i h :
  0 <= start -> start + Z.of_nat (t + length hs) < Z.of_nat (length d) -> hs !! i = Some h ->
  bget_ (replay (log_writes v start t hs) d) (start + Z.of_nat (t + i) + 1) = bget_ v h.
Proof.
  intros Hs. revert t i d. induction hs as [|k hs IH]; intros t i d Hlen Hi; [done|].
  simpl in Hlen. destruct i as [|i]; simpl in *.
  - injection Hi as ->. unfold bget_ at 1. rewrite replay_other.
    + rewrite Nat.add_0_r, list_lookup_insert_eq; [done|lia].
    + rewrite list_elem_of_fmap. intros (w & Hw & Hin%log_writes_addr). lia.
  - replace (t + S i)%nat with (S t + i)%nat by lia. apply IH; [|done].
    rewrite length_insert. lia.
Qed.

Lemma home_writes_in d v hs b :
  0 <= b < Z.of_nat (length d) -> length v = length d -> Forall (fun h => 0 <= h) hs -> b ∈ hs ->
  replay (home_writes v hs) d !! at_ b = v !! at_ b.
Proof.
  intros Hb Hlen Hhs Hin. destruct (lookup_lt_is_Some_2 v (at_ b)) as [x Hx]; [lia|]. rewrite Hx.
  apply replay_written; [lia| |].
  - unfold home_writes. rewrite <- list_fmap_compose. apply list_elem_of_fmap. by exists b.
  - intros w (h & -> & Hh)%list_elem_of_fmap E. simpl in *. rewrite list.Forall_forall in Hhs.
    pose proof (Hhs h Hh). assert (h = b) as -> by lia. by apply bget_some.
Qed.

Lemma home_writes_out d v hs b :
  0 <= b -> Forall (fun h => 0 <= h) hs -> b ∉ hs -> replay (home_writes v hs) d !! at_ b = d !! at_ b.
Proof.
  intros Hb Hhs Hin. apply replay_other. unfold home_writes. rewrite <- list_fmap_compose.
  intros (h & E & Hh)%list_elem_of_fmap. simpl in E. rewrite list.Forall_forall in Hhs.
  pose proof (Hhs h Hh). assert (h = b) as -> by lia. done.
Qed.
End writes.

(** ** Crashes during a commit *)

(** The writes of [commit], with the two headers. *)
Definition commit_writes (v : list block) (start : Z) (hs : list Z) (h1 h0 : block) : list (Z * block) :=
  log_writes v start 0 hs ++ (start, h1) :: home_writes v hs ++ [(start, h0)].

Lemma same_homes_refl l d : same_homes l d d.
Proof. done. Qed.

Lemma same_homes_trans l d1 d2 d3 : same_homes l d1 d2 -> same_homes l d2 d3 -> same_homes l d1 d3.
Proof.
  intros [H1 H2] [H3 H4]. split; [congruence|]. intros b Hb. rewrite H2 by done. apply H4.
  by rewrite <- H1.
Qed.

(** Writes inside the log do not change the homes. *)
Lemma log_area_writes l d ws :
  0 <= l_start l -> (forall w, w ∈ ws -> in_log l w.1) -> same_homes l (replay ws d) d.
Proof.
  intros Hs Hws. split; [apply replay_length|]. intros b [Hb Hlog]. apply replay_other.
  intros (w & E & Hw)%list_elem_of_fmap. specialize (Hws w Hw). unfold in_log in *. lia.
Qed.

Lemma recovered_clean l D : header_is (bget_ D (l_start l)) [] -> recovered (l_start l) D = D.
Proof. intros Hx. unfold recovered. rewrite (decode_header _ [] Hx); [done|simpl; lia|done]. Qed.

Lemma start_lookup l (d D : list block) x :
  geometry l (length d) -> length D = length d -> bget_ (<[at_ (l_start l) := x]> D) (l_start l) = x.
Proof.
  intros Hg HD. apply bget_some. rewrite list_lookup_insert_eq; [done|]. destruct Hg. lia.
Qed.

Section crash.
Context (l : log) (d v : list block) (hs : list Z) (h1 h0 : block).
Let start := l_start l.
Hypothesis (Hg : geometry l (length d)) (Hlen : length v = length d).
Hypothesis (Hhs : Forall (home_ok l (length d)) hs).
Hypothesis (Hfit : Z.of_nat (length hs) <= l_size l - 1) (Hmax : (length hs <= LOGSIZE)%nat).
Hypothesis (Hclean : header_is (bget_ d start) []).
Hypothesis (Hh1 : header_is h1 hs) (Hh0 : header_is h0 []).
Hypothesis (Hv : forall b, home_ok l (length d) b -> b ∉ hs -> v !! at_ b = d !! at_ b).

Lemma homes_nonneg : Forall (fun h => 0 <= h) hs.
Proof. eapply Forall_impl; [|exact Hhs]. by intros h [[??] _]. Qed.

Lemma homes_small : Forall (fun y => 0 <= y < 2 ^ 31) hs.
Proof. eapply Forall_impl; [|exact Hhs]. intros h [? _]. pose proof (ge_len _ _ Hg). lia. Qed.

(** With the header on the disk and the log blocks in place, recovery makes
    the homes what the commit wants. *)
Lemma recovered_committed D :
  length D = length d -> bget_ D start = h1 ->
  (forall i h, hs !! i = Some h -> bget_ D (start + Z.of_nat i + 1) = bget_ v h) ->
  (forall b, home_ok l (length d) b -> b ∉ hs -> D !! at_ b = d !! at_ b) ->
  same_homes l (recovered start D) v.
Proof.
  intros HD Hhd Hlogs Hout. unfold recovered. rewrite Hhd, (decode_header h1 hs) by auto using homes_small.
  rewrite (installs_home_writes D v start 0 hs) by (intros i h Hi; by apply Hlogs).
  split; [rewrite replay_length; congruence|]. rewrite replay_length, HD. intros b Hb.
  destruct (decide (b ∈ hs)) as [Hin|Hin].
  - apply home_writes_in; [rewrite HD; apply Hb|congruence|apply homes_nonneg|done].
  - rewrite home_writes_out, Hout, Hv; try done; [apply Hb|apply homes_nonneg].
Qed.

Lemma writes_keep_start ws D :
  (forall w, w ∈ ws -> start < w.1 \/ (0 <= w.1 /\ ~ in_log l w.1)) ->
  bget_ (replay ws D) start = bget_ D start.
Proof.
  intros Hws. unfold bget_. rewrite replay_other; [done|].
  intros (w & E & Hw)%list_elem_of_fmap. specialize (Hws w Hw). destruct Hg. unfold in_log, start in *. lia.
Qed.

Lemma home_writes_range w : w ∈ home_writes v hs -> 0 <= w.1 /\ ~ in_log l w.1.
Proof.
  intros (h & -> & Hh)%list_elem_of_fmap. rewrite list.Forall_forall in Hhs.
  destruct (Hhs h Hh) as [[??]?]. done.
Qed.

(** A crash before the header is written. *)
Lemma crash_before k :
  let D := replay (take k (log_writes v start 0 hs)) d in same_homes l (recovered start D) d.
Proof.
  intros D. assert (Hw : forall w, w ∈ take k (log_writes v start 0 hs) ->
    start + 1 <= w.1 <= start + Z.of_nat (length hs)).
  { intros w Hin%subseteq_take%log_writes_addr. simpl in Hin. lia. }
  rewrite (recovered_clean l).
  - apply log_area_writes; [apply Hg|]. intros w Hin%Hw. unfold in_log, start in *. lia.
  - unfold D. rewrite writes_keep_start; [done|]. intros w Hin%Hw. lia.
Qed.

(** A crash after the header is written, before it is cleared. *)
Lemma crash_after j :
  let D := replay (take j (home_writes v hs))
             (<[at_ start := h1]> (replay (log_writes v start 0 hs) d)) in
  same_homes l (recovered start D) v.
Proof.
  intros D. pose proof Hg as [G1 G2 G3 G4 G5 G6].
  assert (Hlog : forall w, w ∈ log_writes v start 0 hs -> in_log l w.1 /\ start < w.1).
  { intros w Hin%log_writes_addr. unfold in_log, start in *. simpl in Hin. lia. }
  assert (Hhome : forall w, w ∈ take j (home_writes v hs) -> 0 <= w.1 /\ ~ in_log l w.1).
  { intros w Hin%subseteq_take. by apply home_writes_range. }
  apply recovered_committed.
  - unfold D. by rewrite replay_length, length_insert, replay_length.
  - unfold D. rewrite writes_keep_start by (intros w Hw; right; by apply Hhome).
    apply (start_lookup l d); [done|]. by rewrite replay_length.
  - intros i h Hi. unfold D, bget_ at 1. rewrite replay_other.
    + rewrite list_lookup_insert_ne by (unfold start; lia).
      apply (log_writes_lookup d v start 0 hs i h); [done| |done]. unfold start. simpl. lia.
    + intros (w & E & Hw)%list_elem_of_fmap. apply Hhome in Hw as [Hw1 Hw2].
      apply lookup_lt_Some in Hi. unfold in_log, start in *. lia.
  - intros b Hb Hout. unfold D. rewrite replay_other.
    + rewrite list_lookup_insert_ne by (destruct Hb; unfold in_log, start in *; lia).
      apply (log_area_writes l d); [done|by intros w Hw; apply Hlog|].
      by rewrite replay_length.
    + intros (w & E & Hw%subseteq_take)%list_elem_of_fmap.
      apply list_elem_of_fmap in Hw as (h & -> & Hh). simpl in E.
      rewrite list.Forall_forall in Hhs. destruct (Hhs h Hh), Hb. assert (h = b) as -> by lia. done.
Qed.

(** A crash after the header is cleared: nothing is left to recover. *)
Lemma crash_done :
  let D := replay (commit_writes v start hs h1 h0) d in same_homes l (recovered start D) v.
Proof.
  intros D. pose proof (crash_after (length (home_writes v hs))) as [Ha Hb].
  rewrite take_ge in Ha, Hb by done.
  assert (E : D = <[at_ start := h0]> (replay (home_writes v hs)
             (<[at_ start := h1]> (replay (log_writes v start 0 hs) d)))).
  { unfold D, commit_writes. rewrite replay_app. cbn [replay fold_left fst snd].
    change (fold_left _ ?ws ?x) with (replay ws x). by rewrite replay_app. }
  rewrite (recovered_clean l) by
    (rewrite E; unfold start; rewrite (start_lookup l d) by (by rewrite ?replay_length, ?length_insert, ?replay_length); done).
  split; [unfold D; rewrite replay_length; congruence|].
  intros b Hb'. unfold D in Hb'. rewrite replay_length in Hb'. rewrite E.
  rewrite list_lookup_insert_ne by (destruct Hb', Hg; unfold in_log, start in *; lia).
  destruct (decide (b ∈ hs)) as [Hin|Hin].
  - apply home_writes_in; [|by rewrite length_insert, replay_length|apply homes_nonneg|done].
    rewrite length_insert, replay_length. apply Hb'.
  - rewrite home_writes_out; [|apply Hb'|apply homes_nonneg|done]. rewrite Hv by done.
    rewrite list_lookup_insert_ne by (destruct Hb', Hg; unfold in_log, start in *; lia).
    apply (log_area_writes l d); [apply Hg| |by rewrite replay_length].
    intros w Hw%log_writes_addr. destruct Hg. unfold in_log, start in *. simpl in Hw. lia.
Qed.

Lemma commit_crash k :
  let D := replay (take k (commit_writes v start hs h1 h0)) d in
  same_homes l (recovered start D) (if decide (k <= length hs)%nat then d else v).
Proof.
  intros D. unfold D, commit_writes.
  assert (Hl : length (log_writes v start 0 hs) = length hs).
  { generalize 0%nat. clear -hs. induction hs; intros t; simpl; auto. }
  case_decide as Hk.
  - rewrite take_app_le by lia. apply crash_before.
  - rewrite take_app_ge by lia. rewrite Hl.
    destruct (k - length hs)%nat as [|j] eqn:Ej; [lia|]. simpl take. rewrite replay_app.
    cbn [replay fold_left fst snd]. change (fold_left _ ?ws ?x) with (replay ws x).
    destruct (decide (j <= length (home_writes v hs))%nat).
    + rewrite take_app_le by lia. apply crash_after.
    + rewrite (take_ge _ j) by (rewrite length_app; simpl; lia).
      pose proof crash_done as Hd. unfold commit_writes in Hd. rewrite replay_app in Hd. exact Hd.
Qed.
End crash.

(** ** [commit] and [recover_from_log] *)

(** Between transactions' steps: the pinned blocks are the logged ones, and
    the header on the disk is empty.  [mkfs] makes the log of [LOGSIZE] =
    [NBUF] blocks. *)
Record log_inv {S} `{CacheView S} (s : lstate S) : Prop := {
  li_geo : geometry (lg s) (length (disk (cache s)));
  li_small : l_size (lg s) <= Z.of_nat NBUF;
  li_logged : logged_ok (lg s) (length (disk (cache s)));
  li_cache : cache_ok (cache s);
  li_pinned : pinned (cache s) = list_to_set (homes (lg s));
  li_clean : header_is (bget_ (disk (cache s)) (l_start (lg s))) []
}.

Lemma geometry_with_n l n len : geometry l len -> geometry (with_n l n) len.
Proof. intros [????? ?]. by split. Qed.

Lemma logged_zero l len : geometry l len -> logged_ok (with_n l 0) len.
Proof.
  intros Hg. pose proof (ge_size _ _ Hg). split; simpl; [lia|lia|]. constructor.
Qed.

Lemma homes_nodes l len b : logged_ok l len -> b ∈ (list_to_set (homes l) : gset Z) -> ~ in_log l b.
Proof.
  intros Hl Hb%elem_of_list_to_set. pose proof (lo_homes _ _ Hl) as Hh.
  rewrite list.Forall_forall in Hh. by apply Hh.
Qed.

Lemma size_list_le (l : list Z) : (size (list_to_set l : gset Z) <= length l)%nat.
Proof.
  induction l as [|x l IH]; [done|]. cbn [list_to_set length].
  rewrite (union_comm_L {[x]}). pose proof (size_one (list_to_set l) x). lia.
Qed.

Section commit.
Context {S : Type} {ops : BufCache S} {cv : CacheView S} {laws : BufCacheLaws S}.
Implicit Types (c : S) (l : log) (d v : list block) (p : gset Z) (w : list (Z * block)).

Lemma pinned_size l len :
  geometry l len -> logged_ok l len -> l_size l <= Z.of_nat NBUF ->
  (size (list_to_set (homes l) : gset Z) < NBUF)%nat.
Proof.
  intros Hg Hl Hs. eapply Nat.le_lt_trans; [apply size_list_le|].
  rewrite (homes_length _ _ Hg Hl). pose proof (lo_fits _ _ Hl). pose proof (lo_n _ _ Hl). lia.
Qed.

Lemma wp_commit c l d v w (Q : unit -> lstate S -> Prop) :
  let hs := homes l in
  looks c d v ∅ (list_to_set hs) w -> geometry l (length d) -> logged_ok l (length d) ->
  l_size l <= Z.of_nat NBUF -> 0 < l_n l ->
  (forall c' h1 h0, header_is h1 hs -> header_is h0 [] ->
     looks c' (replay (commit_writes v (l_start l) hs h1 h0) d)
              (replay (commit_writes v (l_start l) hs h1 h0) v) ∅ ∅
              (w ++ commit_writes v (l_start l) hs h1 h0) ->
     Q tt {| cache := c'; lg := with_n l 0 |}) ->
  wp commit {| cache := c; lg := l |} Q.
Proof.
  intros hs Hc Hg Hl Hs Hn HQ. pose proof (pinned_size _ _ Hg Hl Hs) as Hsz. fold hs in Hsz.
  pose proof (homes_length _ _ Hg Hl) as Hlen. fold hs in Hlen.
  pose proof (looks_length _ _ _ _ _ _ Hc) as Hvd. pose proof Hl as [L1 L2 L3].
  assert (Hhs : hs = take (length hs) (drop 0 (l_block l))) by (rewrite Hlen; done).
  assert (Hstart : l_start l ∉ (list_to_set hs : gset Z)).
  { intros Hin. apply (homes_nodes _ _ _ Hl Hin). destruct Hg. unfold in_log. lia. }
  unfold commit. apply wp_bind, wp_gets. cbn [lg]. rewrite (proj2 (Z.ltb_lt 0 (l_n l)) Hn).
  apply wp_bind. unfold write_log. apply wp_bind, wp_gets. cbn [lg]. rewrite <- Hlen.
  eapply (wp_write_log_loop hs c l 0); [exact Hc|done|done|done|lia| |done| |].
  { intros b. by apply homes_nodes with (len := length d). }
  { intros h Hh. by apply elem_of_list_to_set. }
  intros c1 Hc1. set (A := log_writes v (l_start l) 0 hs) in *.
  apply wp_bind. eapply wp_write_head;
    [exact Hc1|by rewrite replay_length|by rewrite replay_length|done|done|].
  intros c2 h1 Hh1 Hc2. apply wp_bind. unfold install_trans. apply wp_bind, wp_gets. cbn [lg].
  rewrite <- Hlen. eapply (wp_install_loop hs c2 l 0);
    [exact Hc2|by rewrite length_insert, replay_length|by rewrite length_insert, replay_length
    |done|lia| | |].
  { intros b. by apply homes_nodes with (len := length d). }
  { right. split; [done|]. intros h Hh. by apply elem_of_list_to_set. }
  intros c3 Hc3. rewrite (installs_home_writes _ v) in Hc3.
  2: { intros i h Hi. unfold bget_ at 1. rewrite list_lookup_insert_ne by (destruct Hg; lia).
       apply (log_writes_lookup v v); [apply Hg| |done]. destruct Hg. simpl. lia. }
  rewrite difference_diag_L in Hc3.
  apply wp_bind, wp_modify. cbn [cache lg]. pose proof (geometry_with_n _ 0 _ Hg) as Hg0.
  eapply wp_write_head; [exact Hc3| | |set_solver|rewrite size_empty; unfold NBUF; lia|].
  { by rewrite replay_length, length_insert, replay_length. }
  { rewrite replay_length, length_insert, replay_length. by apply logged_zero. }
  intros c4 h0 Hh0 Hc4. apply (HQ c4 h1 h0); [done|done|].
  unfold commit_writes. fold A. rewrite !replay_app. cbn [replay fold_left fst snd].
  change (fold_left _ ?ws ?x) with (replay ws x). rewrite !replay_app.
  cbn [replay fold_left fst snd l_start with_n] in Hc4 |- *.
  change (fold_left _ ?ws ?x) with (replay ws x).
  rewrite <- !app_assoc in Hc4. exact Hc4.
Qed.

(** A disk whose header lists blocks that recovery can install. *)
Definition recoverable l (d : list block) (hs : list Z) : Prop :=
  header_is (bget_ d (l_start l)) hs /\ (length hs <= LOGSIZE)%nat /\
  Z.of_nat (length hs) <= l_size l - 1 /\ Forall (home_ok l (length d)) hs.

Lemma recoverable_decode l d hs :
  geometry l (length d) -> recoverable l d hs -> decode (bget_ d (l_start l)) = hs.
Proof.
  intros Hg (H1 & H2 & H3 & H4). apply decode_header; [done|done|].
  eapply Forall_impl; [|exact H4]. intros y [Hy _]. destruct Hg. lia.
Qed.

Lemma wp_recover c l d w hs (Q : unit -> lstate S -> Prop) :
  looks c d d ∅ ∅ w -> geometry l (length d) -> recoverable l d hs ->
  (forall c' l' h0, header_is h0 [] -> geometry l' (length d) -> logged_ok l' (length d) ->
     l_n l' = 0 -> l_start l' = l_start l -> l_size l' = l_size l ->
     let d' := <[at_ (l_start l) := h0]> (recovered (l_start l) d) in
     looks c' d' d' ∅ ∅ (w ++ installs d (l_start l) 0 hs ++ [(l_start l, h0)]) ->
     Q tt {| cache := c'; lg := l' |}) ->
  wp recover_from_log {| cache := c; lg := l |} Q.
Proof.
  intros Hc Hg Hrec HQ. pose proof (recoverable_decode _ _ _ Hg Hrec) as Hdec.
  destruct Hrec as (Hhd & Hmax & Hfit & Hhs). pose proof Hg as [G1 G2 G3 G4 G5 G6].
  assert (Hsmall : Forall (fun y => 0 <= y < 2 ^ 31) hs).
  { eapply Forall_impl; [|exact Hhs]. intros y [Hy _]. lia. }
  unfold recover_from_log. apply wp_bind. eapply wp_read_head;
    [exact Hc|done|set_solver|rewrite size_empty; unfold NBUF; lia| |exact Hhd|done|done|].
  { unfold bget_. destruct (lookup_lt_is_Some_2 d (at_ (l_start l))) as [x ->]; [lia|done]. }
  intros c1 Hc1. set (l1 := with_block _ _).
  assert (Hg1 : geometry l1 (length d)).
  { split; try done. unfold l1. cbn [l_block with_block]. by rewrite splice_length by lia. }
  assert (Hb1 : hs = take (length hs) (drop 0 (l_block l1))).
  { unfold l1. cbn [l_block with_block]. unfold splice.
    by rewrite drop_0, take_0, app_nil_l, take_app_length. }
  apply wp_bind. unfold install_trans. apply wp_bind, wp_gets. cbn [lg l1 l_n with_block with_n].
  rewrite Nat2Z.id. eapply (wp_install_loop hs c1 l1 0);
    [exact Hc1|done|done|done|simpl; lia|set_solver|left; rewrite size_empty; unfold NBUF; lia|].
  intros c2 Hc2. apply wp_bind, wp_modify. cbn [cache lg].
  rewrite difference_disjoint_L in Hc2 by set_solver. cbn [l1 l_start with_block with_n] in Hc2.
  assert (E : replay (installs d (l_start l) 0 hs) d = recovered (l_start l) d)
    by (unfold recovered; by rewrite Hdec).
  rewrite E in Hc2. pose proof (geometry_with_n _ 0 _ Hg1) as Hg2.
  assert (Hlen : length (recovered (l_start l) d) = length d) by apply replay_length.
  eapply wp_write_head; [exact Hc2| | |set_solver|rewrite size_empty; unfold NBUF; lia|].
  { by rewrite Hlen. }
  { rewrite Hlen. by apply logged_zero. }
  intros c3 h0 Hh0 Hc3. apply (HQ c3 _ h0); try done; [by apply logged_zero|].
  by rewrite <- app_assoc in Hc3.
Qed.

(** Recovery interrupted after any number of its writes starts over. *)
Lemma recover_crash l d hs h0 k :
  geometry l (length d) -> recoverable l d hs -> header_is h0 [] ->
  let ws := installs d (l_start l) 0 hs ++ [(l_start l, h0)] in
  let D := replay (take k ws) d in
  same_homes l (recovered (l_start l) D) (recovered (l_start l) d).
Proof.
  intros Hg Hrec Hh0 ws D. pose proof (recoverable_decode _ _ _ Hg Hrec) as Hdec.
  destruct Hrec as (Hhd & Hmax & Hfit & Hhs). pose proof Hg as [G1 G2 G3 G4 G5 G6].
  set (I := installs d (l_start l) 0 hs) in *.
  assert (Hrecd : recovered (l_start l) d = replay I d) by (unfold recovered; by rewrite Hdec).
  assert (HI : forall w : Z * block, w ∈ I -> 0 <= w.1 /\ ~ in_log l w.1).
  { unfold I. generalize 0%nat. clear -Hhs. induction Hhs as [|h hs [[??]?] _ IH]; intros t w; simpl;
      [set_solver|]. intros [->|Hw]%elem_of_cons; [done|by eapply IH]. }
  destruct (decide (k <= length I)%nat).
  - unfold D, ws. rewrite take_app_le by done.
    assert (Hkeep : forall b, in_log l b -> bget_ (replay (take k I) d) b = bget_ d b).
    { intros b Hb. unfold bget_. rewrite replay_other; [done|].
      intros (w & E & Hw%subseteq_take)%list_elem_of_fmap. apply HI in Hw. unfold in_log in *. lia. }
    unfold recovered at 1. rewrite Hkeep by (unfold in_log; lia). rewrite Hdec.
    assert (E : installs (replay (take k I) d) (l_start l) 0 hs = I).
    { apply (installs_ext l); [done|done|simpl; lia]. }
    rewrite E, replay_again, Hrecd. apply same_homes_refl.
  - unfold D. rewrite take_ge by (unfold ws; rewrite length_app; simpl; lia).
    assert (E : replay ws d = <[at_ (l_start l) := h0]> (replay I d))
      by (unfold ws; by rewrite replay_app).
    rewrite (recovered_clean l); rewrite E.
    + rewrite Hrecd. split; [by rewrite length_insert|]. rewrite length_insert, replay_length.
      intros b [Hb Hl]. rewrite list_lookup_insert_ne; [done|]. unfold in_log in *. lia.
    + rewrite (start_lookup l d); [done|done|]. apply replay_length.
Qed.
End commit.

(** ** Properties of the log *)

(** The log structure [initlog] sets up at boot, for a disk laid out as [l]
    says: the in-memory header is not read from the disk yet. *)
Definition boot_log (l : log) : log :=
  {| l_start := l_start l; l_size := l_size l; l_outstanding := 0; l_committing := 0;
     l_dev := l_dev l; l_n := 0; l_block := replicate LOGSIZE 0 |}.

Lemma boot_geometry l len : geometry l len -> geometry (boot_log l) len.
Proof. intros [????? ?]. by split. Qed.

Section properties.
Context {S : Type} {ops : BufCache S} {cv : CacheView S} {laws : BufCacheLaws S}.
Implicit Types (s : lstate S) (c : S) (l : log) (d v : list block).

Lemma inv_looks s :
  log_inv s -> held (cache s) = ∅ ->
  looks (cache s) (disk (cache s)) (view (cache s)) ∅ (list_to_set (homes (lg s))) (written (cache s)).
Proof. intros [????? ?] Hh. by split. Qed.

(** The home blocks that are not logged read as the disk has them. *)
Lemma inv_unlogged s b :
  log_inv s -> held (cache s) = ∅ -> home_ok (lg s) (length (disk (cache s))) b -> b ∉ homes (lg s) ->
  view (cache s) !! at_ b = disk (cache s) !! at_ b.
Proof.
  intros Hi Hh [Hb _] Hn. eapply looks_clean; [by apply inv_looks|lia|].
  by rewrite elem_of_list_to_set.
Qed.

Lemma wp_commit_inv s (Q : unit -> lstate S -> Prop) :
  log_inv s -> held (cache s) = ∅ -> 0 < l_n (lg s) ->
  let d := disk (cache s) in
  let v := view (cache s) in
  (forall c' h1 h0, header_is h1 (homes (lg s)) -> header_is h0 [] ->
     let ws := commit_writes v (l_start (lg s)) (homes (lg s)) h1 h0 in
     looks c' (replay ws d) (replay ws v) ∅ ∅ (written (cache s) ++ ws) ->
     Q tt {| cache := c'; lg := with_n (lg s) 0 |}) ->
  wp commit s Q.
Proof.
  intros Hi Hh Hn d v HQ. destruct s as [c l]. pose proof (inv_looks _ Hi Hh) as Hc.
  destruct Hi as [H1 H2 H3 H4 H5 H6]. by eapply wp_commit.
Qed.

(** The crash lemma for the writes of a commit that starts in [s]. *)
Lemma inv_crash s h1 h0 k :
  log_inv s -> held (cache s) = ∅ -> header_is h1 (homes (lg s)) -> header_is h0 [] ->
  let l := lg s in
  let ws := commit_writes (view (cache s)) (l_start l) (homes l) h1 h0 in
  let D := replay (take k ws) (disk (cache s)) in
  same_homes l (recovered (l_start l) D)
    (if decide (k <= length (homes l))%nat then disk (cache s) else view (cache s)).
Proof.
  intros Hi Hh Hh1 Hh0 l ws D. pose proof Hi as [H1 H2 H3 H4 H5 H6].
  pose proof (homes_length _ _ H1 H3) as Hl. destruct H3 as [L1 L2 L3].
  apply commit_crash; try done; [by apply view_length|unfold l; lia|unfold l; lia|].
  intros b Hb Hn. by apply inv_unlogged.
Qed.

(** The header that a crashed commit leaves can be recovered. *)
Lemma crash_recoverable s h1 h0 k :
  log_inv s -> held (cache s) = ∅ -> header_is h1 (homes (lg s)) -> header_is h0 [] ->
  let l := lg s in
  let ws := commit_writes (view (cache s)) (l_start l) (homes l) h1 h0 in
  let D := replay (take k ws) (disk (cache s)) in
  exists hs, recoverable l D hs.
Proof.
  intros Hi Hh Hh1 Hh0 l ws D. pose proof Hi as [H1 H2 H3 H4 H5 H6].
  pose proof (homes_length _ _ H1 H3) as Hl. pose proof H3 as [L1 L2 L3]. pose proof H1 as [G1 G2 G3 G4 G5 G6].
  assert (HlD : length D = length (disk (cache s))) by apply replay_length.
  assert (Hhd : header_is (bget_ D (l_start l)) [] \/ header_is (bget_ D (l_start l)) (homes l)).
  { destruct (replay_value (take k ws) (disk (cache s)) (at_ (l_start l))) as [E|(w & Hw & Ha & E)].
    - left. unfold bget_, D. by rewrite E.
    - unfold D. rewrite (bget_some _ _ _ E). apply subseteq_take in Hw. unfold ws, commit_writes in Hw.
      rewrite elem_of_app, elem_of_cons, elem_of_app in Hw.
      destruct Hw as [Hw%log_writes_addr|[->|[Hw|Hw]]].
      + unfold l in *. lia.
      + by right.
      + apply list_elem_of_fmap in Hw as (h & -> & Hin). rewrite list.Forall_forall in L3.
        destruct (L3 h Hin) as [? Hlog]. simpl in Ha. exfalso. apply Hlog. unfold in_log, l in *. lia.
      + apply list_elem_of_singleton in Hw as ->. by left. }
  destruct Hhd as [Hhd|Hhd]; [exists []|exists (homes l)]; (split; [done|]); rewrite HlD.
  - simpl. unfold l. split; [lia|]. split; [lia|constructor].
  - unfold l in *. split; [lia|]. split; [lia|done].
Qed.

Lemma same_homes_geo l l' d d' :
  l_start l' = l_start l -> l_size l' = l_size l -> same_homes l d d' -> same_homes l' d d'.
Proof.
  intros E1 E2 [H1 H2]. split; [done|]. intros b [Hb Hl]. apply H2. split; [done|].
  unfold in_log in *. by rewrite <- E1, <- E2.
Qed.

(** C1. Commits are atomic and durable across crashes.  [commit] writes the
    disk some number of times; if the machine stops after any number [k] of
    these writes, the reboot's [recover_from_log] returns, and then every
    block outside the log holds either, for all blocks, what the disk held
    before the commit, or, for all blocks, what the transaction made of it.
    It is the new contents once the header is written, in particular when
    all the writes happened. *)
Theorem commit_atomic s :
  log_inv s -> held (cache s) = ∅ -> 0 < l_n (lg s) ->
  let l := lg s in
  wp commit s (fun _ s' => exists ws,
    written (cache s') = written (cache s) ++ ws /\
    disk (cache s') = replay ws (disk (cache s)) /\
    forall k c0, let D := replay (take k ws) (disk (cache s)) in
      looks c0 D D ∅ ∅ [] ->
      wp recover_from_log {| cache := c0; lg := boot_log l |} (fun _ s2 =>
        log_inv s2 /\ l_n (lg s2) = 0 /\
        same_homes l (view (cache s2))
          (if decide (k <= length (homes l))%nat then disk (cache s) else view (cache s)))).
Proof.
  intros Hi Hh Hn l. eapply wp_commit_inv; [done|done|done|].
  intros c' h1 h0 Hh1 Hh0 ws [E1 E2 E3 E4 E5 E6].
  eexists. split; [exact E6|]. split; [exact E2|]. intros k c0 D Hc0.
  pose proof (inv_crash s h1 h0 k Hi Hh Hh1 Hh0) as Hcr.
  destruct (crash_recoverable s h1 h0 k Hi Hh Hh1 Hh0) as [hs Hrec].
  fold l in Hcr, Hrec. fold D in Hcr, Hrec.
  assert (HlD : length D = length (disk (cache s))) by apply replay_length.
  pose proof (li_geo _ Hi) as Hg. rewrite <- HlD in Hg. apply boot_geometry in Hg. fold l in Hg.
  eapply (wp_recover c0 (boot_log l) D [] hs); [exact Hc0|exact Hg|exact Hrec|].
  intros c2 l2 h2 Hh2 Hg2 Hl2 Hn2 Hs2 Hz2 d' Hc2. destruct Hc2 as [F1 F2 F3 F4 F5 F6].
  assert (Hld : length d' = length D) by (unfold d'; rewrite length_insert; apply replay_length).
  split_and!; [|done|].
  - split; cbn [lg cache]; rewrite ?F2, ?Hld; try done.
    + rewrite Hz2. apply Hi.
    + rewrite F5. unfold homes. by rewrite Hn2.
    + rewrite Hs2. unfold d'. rewrite (start_lookup _ D); [done|done|apply replay_length].
  - cbn [cache]. rewrite F3. eapply same_homes_trans; [|exact Hcr].
    split; [unfold d'; by rewrite length_insert|]. intros b [Hb Hlog]. unfold d'.
    rewrite list_lookup_insert_ne; [done|]. destruct Hg. cbn [boot_log l_start l_size] in *.
    unfold in_log in *. lia.
Qed.

(** A run of recovery from a boot on the disk [D], with the contents of the
    disk in the end. *)
Lemma wp_recover_boot c l D hs :
  looks c D D ∅ ∅ [] -> geometry l (length D) -> recoverable l D hs -> l_size l <= Z.of_nat NBUF ->
  wp recover_from_log {| cache := c; lg := boot_log l |} (fun _ s' =>
    log_inv s' /\ l_n (lg s') = 0 /\ same_homes l (view (cache s')) (recovered (l_start l) D) /\
    exists h0, header_is h0 [] /\ written (cache s') = installs D (l_start l) 0 hs ++ [(l_start l, h0)]).
Proof.
  intros Hc Hg Hrec Hsz. pose proof (boot_geometry _ _ Hg) as Hgb. eapply (wp_recover c (boot_log l) D [] hs); [exact Hc|exact Hgb|exact Hrec|].
  intros c2 l2 h2 Hh2 Hg2 Hl2 Hn2 Hs2 Hz2 d' [F1 F2 F3 F4 F5 F6].
  assert (Hld : length d' = length D) by (unfold d'; rewrite length_insert; apply replay_length).
  split_and!; [|done| |by exists h2].
  - split; cbn [lg cache]; rewrite ?F2, ?Hld; try done.
    + by rewrite Hz2.
    + rewrite F5. unfold homes. by rewrite Hn2.
    + rewrite Hs2. unfold d'. rewrite (start_lookup _ D); [done|done|apply replay_length].
  - cbn [cache]. rewrite F3. split; [unfold d'; by rewrite length_insert|]. intros b [Hb Hlog]. unfold d'.
    rewrite list_lookup_insert_ne; [done|]. destruct Hg. cbn [boot_log l_start l_size] in *. unfold in_log in *. lia.
Qed.

(** The header that an interrupted recovery leaves can be recovered. *)
Lemma recover_recoverable l d hs h0 k :
  geometry l (length d) -> recoverable l d hs -> header_is h0 [] ->
  exists hs', recoverable l (replay (take k (installs d (l_start l) 0 hs ++ [(l_start l, h0)])) d) hs'.
Proof.
  intros Hg (Hhd & Hmax & Hfit & Hhs) Hh0. pose proof Hg as [G1 G2 G3 G4 G5 G6].
  set (ws := installs d (l_start l) 0 hs ++ _). set (D := replay _ d).
  assert (HlD : length D = length d) by apply replay_length.
  assert (HI : forall t (w : Z * block), w ∈ installs d (l_start l) t hs -> 0 <= w.1 /\ ~ in_log l w.1).
  { clear -Hhs. induction Hhs as [|h hs [[??]?] _ IH]; intros t w; simpl; [set_solver|]. intros [->|Hw]%elem_of_cons; [done|by eapply IH]. }
  assert (Hd : header_is (bget_ D (l_start l)) [] \/ header_is (bget_ D (l_start l)) hs).
  { destruct (replay_value (take k ws) d (at_ (l_start l))) as [E|(w & Hw & Ha & E)].
    - right. unfold bget_, D. by rewrite E.
    - left. unfold D. rewrite (bget_some _ _ _ E). apply subseteq_take in Hw. unfold ws in Hw. apply elem_of_app in Hw as [Hw|Hw].
      + apply HI in Hw as [Hw0 Hw]. exfalso. apply Hw. unfold in_log. lia.
      + by apply list_elem_of_singleton in Hw as ->. }
  destruct Hd as [Hd|Hd]; [exists []|exists hs]; (split; [done|]); rewrite HlD; [|done].
  simpl. split; [lia|]. split; [lia|constructor].
Qed.

(** The disks that boots on [d] leave when each of them stops after some of
    the writes of its recovery. *)
Inductive interrupted l : list block -> list block -> Prop :=
  | in_none d : interrupted l d d
  | in_crash d c s' k D :
      looks c d d ∅ ∅ [] -> recover_from_log {| cache := c; lg := boot_log l |} = Ret tt s' ->
      interrupted l (replay (take k (written (cache s'))) d) D -> interrupted l d D.

Lemma interrupted_same l d hs D :
  geometry l (length d) -> recoverable l d hs -> l_size l <= Z.of_nat NBUF -> interrupted l d D ->
  length D = length d /\ (exists hs', recoverable l D hs') /\ same_homes l (recovered (l_start l) D) (recovered (l_start l) d).
Proof.
  intros Hg Hrec Hsz Hin. revert hs Hg Hrec. induction Hin as [d|d c s' k D Hc Er Hin IH]; intros hs Hg Hrec.
  { split; [done|]. split; [by exists hs|apply same_homes_refl]. }
  destruct (proj1 (wp_iff _ _ _) (wp_recover_boot c l d hs Hc Hg Hrec Hsz)) as ([] & s2 & E2 & _ & _ & _ & h0 & Hh0 & Hw).
  rewrite Er in E2. injection E2 as <-. rewrite Hw in Hin, IH.
  destruct (recover_recoverable l d hs h0 k Hg Hrec Hh0) as [hs' Hrec'].
  destruct (IH hs') as (I1 & I2 & I3); [by rewrite replay_length|done|]. rewrite replay_length in I1. split; [done|]. split; [done|].
  eapply same_homes_trans; [exact I3|]. by eapply recover_crash.
Qed.

Lemma installs_addr d start t hs w : w ∈ installs d start t hs -> w.1 ∈ hs.
Proof.
  revert t. induction hs as [|x hs IH]; intros t Hw; simpl in Hw; [set_solver|].
  apply elem_of_cons in Hw as [->|Hw]; [by left|]. right. by eapply IH.
Qed.

(** Where the blocks of the log end up: the last entry of a block counts. *)
Lemma replay_installs d start hs t D i h :
  hs !! i = Some h -> (forall j, (i < j)%nat -> hs !! j <> Some h) -> Forall (fun b => 0 <= b) hs -> (at_ h < length D)%nat ->
  replay (installs d start t hs) D !! at_ h = Some (bget_ d (start + Z.of_nat (t + i) + 1)).
Proof.
  revert i t D. induction hs as [|b hs IH]; intros i t D Hi Hlast Hhs HD; [done|]. apply Forall_cons_iff in Hhs as [Hb Hhs].
  cbn [installs replay fold_left fst snd]. change (fold_left _ ?ws ?x) with (replay ws x). destruct i as [|i].
  - injection Hi as ->. rewrite replay_other; [by rewrite list_lookup_insert_eq, Nat.add_0_r|].
    intros (w & Ew & Hw%installs_addr)%list_elem_of_fmap. rewrite list.Forall_forall in Hhs. specialize (Hhs _ Hw).
    apply list_elem_of_lookup in Hw as [j Hj]. apply (Hlast (Datatypes.S j)); [lia|]. rewrite lookup_cons, Hj. f_equal. lia.
  - replace (t + Datatypes.S i)%nat with (Datatypes.S t + i)%nat by lia. apply IH; [done| |done|by rewrite length_insert].
    intros j Hj. apply (Hlast (Datatypes.S j)). lia.
Qed.

(** C2. Recovery can be interrupted, any number of times.  On a disk whose header
    lists blocks that the log holds, each boot may stop after any number of the
    disk writes of its [recover_from_log]; the next boot's [recover_from_log]
    still returns with an empty log, and then every listed block holds what the
    log held for it before the first boot, and every other block outside the
    log is what it was. *)
Theorem recovery_restartable c l d hs D :
  geometry l (length d) -> recoverable l d hs -> l_size l <= Z.of_nat NBUF ->
  interrupted l d D -> looks c D D ∅ ∅ [] ->
  wp recover_from_log {| cache := c; lg := boot_log l |} (fun _ s' =>
    log_inv s' /\ l_n (lg s') = 0 /\
    (forall i h, hs !! i = Some h -> (forall j, (i < j)%nat -> hs !! j <> Some h) ->
       view (cache s') !! at_ h = Some (bget_ d (l_start l + Z.of_nat i + 1))) /\
    (forall b, home_ok l (length d) b -> b ∉ hs -> view (cache s') !! at_ b = d !! at_ b)).
Proof.
  intros Hg Hrec Hsz Hin Hc. destruct (interrupted_same l d hs D Hg Hrec Hsz Hin) as (HlD & [hs' Hrec'] & Hsame).
  assert (HgD : geometry l (length D)) by (by rewrite HlD).
  eapply wp_mono; [apply (wp_recover_boot c l D hs' Hc HgD Hrec' Hsz)|]. intros _ s' (H1 & H2 & H3 & _). split; [done|]. split; [done|].
  pose proof (same_homes_trans _ _ _ _ H3 Hsame) as [Hl Hv]. unfold recovered in Hv, Hl. rewrite (recoverable_decode _ _ _ Hg Hrec) in Hv, Hl.
  rewrite replay_length in Hl. rewrite Hl in Hv. destruct Hrec as (_ & _ & _ & Hhs). rewrite list.Forall_forall in Hhs. split.
  - intros i h Hi Hlast. rewrite Hv by (apply Hhs; by eapply list_elem_of_lookup_2). apply (replay_installs d _ hs 0); [done..| |].
    + apply list.Forall_forall. intros b Hb. by apply Hhs.
    + destruct (Hhs h (list_elem_of_lookup_2 _ _ _ Hi)) as [? _]. lia.
  - intros b Hb Hnot. rewrite Hv by done. apply replay_other. intros (w & Ew & Hw%installs_addr)%list_elem_of_fmap. apply Hnot.
    destruct (Hhs _ Hw) as [? _]. destruct Hb as [? _]. replace b with w.1 by lia. done.
Qed.

Lemma with_n_same_homes l n d d' : same_homes (with_n l n) d d' <-> same_homes l d d'.
Proof. done. Qed.

(** The writes of a commit leave the homes of a view as they are. *)
Lemma commit_keeps_view s h1 h0 :
  log_inv s -> held (cache s) = ∅ ->
  let ws := commit_writes (view (cache s)) (l_start (lg s)) (homes (lg s)) h1 h0 in
  same_homes (lg s) (replay ws (view (cache s))) (view (cache s)).
Proof.
  intros Hi Hh ws. pose proof Hi as [H1 H2 H3 H4 H5 H6].
  pose proof (homes_length _ _ H1 H3) as Hl. pose proof H3 as [L1 L2 L3]. pose proof H1 as [G1 G2 G3 G4 G5 G6].
  pose proof (view_length _ H4) as Hvl.
  split; [apply replay_length|]. rewrite replay_length. intros b [Hb Hlog].
  destruct (replay_value ws (view (cache s)) (at_ b)) as [E|(w & Hw & Ha & E)]; [done|].
  rewrite E. unfold ws, commit_writes in Hw. rewrite elem_of_app, elem_of_cons, elem_of_app in Hw.
  destruct Hw as [Hw%log_writes_addr|[->|[Hw|Hw]]].
  - exfalso. apply Hlog. unfold in_log. simpl in *. lia.
  - exfalso. apply Hlog. unfold in_log. simpl in *. lia.
  - apply list_elem_of_fmap in Hw as (h & -> & Hin). rewrite list.Forall_forall in L3.
    destruct (L3 h Hin) as [? _]. simpl in Ha. assert (h = b) as -> by lia. simpl.
    unfold bget_. destruct (lookup_lt_is_Some_2 (view (cache s)) (at_ b)) as [x ->]; [lia|done].
  - apply list_elem_of_singleton in Hw as ->. exfalso. apply Hlog. unfold in_log. simpl in *. lia.
Qed.

Lemma commit_done s h1 h0 c' :
  log_inv s -> held (cache s) = ∅ -> header_is h1 (homes (lg s)) -> header_is h0 [] ->
  let ws := commit_writes (view (cache s)) (l_start (lg s)) (homes (lg s)) h1 h0 in
  looks c' (replay ws (disk (cache s))) (replay ws (view (cache s))) ∅ ∅ (written (cache s) ++ ws) ->
  log_inv {| cache := c'; lg := with_n (lg s) 0 |} /\
  same_homes (lg s) (disk c') (view (cache s)) /\ same_homes (lg s) (view c') (view (cache s)).
Proof.
  intros Hi Hh Hh1 Hh0 ws [F1 F2 F3 F4 F5 F6].
  pose proof (inv_crash s h1 h0 (Datatypes.S (length ws)) Hi Hh Hh1 Hh0) as Hcr. cbv zeta in Hcr. fold ws in Hcr.
  pose proof Hi as [H1 H2 H3 H4 H5 H6].
  rewrite take_ge in Hcr by lia. rewrite decide_False in Hcr.
  2: { unfold ws, commit_writes. rewrite length_app. simpl. rewrite length_app. unfold home_writes.
       rewrite length_fmap. simpl. lia. }
  assert (Hst : bget_ (replay ws (disk (cache s))) (l_start (lg s)) = h0).
  { unfold ws, commit_writes. rewrite replay_app. cbn [replay fold_left fst snd].
    change (fold_left _ ?ws ?x) with (replay ws x). rewrite replay_app.
    apply (start_lookup _ (disk (cache s))); [done|].
    by rewrite replay_length, length_insert, replay_length. }
  rewrite (recovered_clean (lg s)) in Hcr by (by rewrite Hst).
  split; [|split].
  - split; cbn [lg cache]; rewrite ?F2, ?replay_length; try done; [|by apply logged_zero|by cbn [l_start with_n]; rewrite Hst].
    by apply geometry_with_n.
  - by rewrite F2.
  - rewrite F3. by apply commit_keeps_view.
Qed.

Lemma wp_end_op s :
  log_inv s -> held (cache s) = ∅ -> l_committing (lg s) = 0 -> 1 <= l_outstanding (lg s) ->
  wp end_op s (fun _ s' =>
    log_inv s' /\ held (cache s') = ∅ /\ l_outstanding (lg s') = l_outstanding (lg s) - 1 /\ l_committing (lg s') = 0 /\
    same_homes (lg s) (view (cache s')) (view (cache s)) /\
    if l_outstanding (lg s) =? 1
    then l_n (lg s') = 0 /\ same_homes (lg s) (disk (cache s')) (view (cache s))
    else l_n (lg s') = l_n (lg s) /\ disk (cache s') = disk (cache s)).
Proof.
  intros Hi Hh Hcm Hout. unfold end_op. apply wp_bind, wp_modify, wp_bind, wp_gets.
  cbn [lg cache id l_committing with_outstanding l_outstanding]. rewrite Hcm. simpl negb. cbv iota.
  assert (Hi' : log_inv {| cache := cache s; lg := with_outstanding (lg s) (l_outstanding (lg s) - 1) |}).
  { destruct Hi as [[] ? [] ? ? ?]. by repeat (split; try done). }
  destruct (Z.eqb_spec (l_outstanding (lg s)) 1) as [E|E].
  2: { rewrite (proj2 (Z.eqb_neq _ 0)) by lia. apply wp_ret. cbn [lg cache]. split_and!; done. }
  rewrite E, Z.sub_diag, Z.eqb_refl in *. apply wp_bind, wp_modify, wp_bind. cbn [lg cache].
  set (s1 := {| cache := cache s; lg := with_committing (with_outstanding (lg s) 0) 1 |}).
  assert (Hi1 : log_inv s1) by (destruct Hi' as [[] ? [] ? ? ?]; by repeat (split; try done)).
  destruct (Z.ltb_spec 0 (l_n (lg s))) as [Hn|Hn].
  - eapply (wp_commit_inv s1); [done|done|done|]. intros c' h1 h0 Hh1 Hh0 ws Hc'.
    destruct (commit_done s1 h1 h0 c' Hi1 Hh Hh1 Hh0 Hc') as (Hj & Hd & Hv).
    apply wp_modify. cbn [lg cache]. split_and!; try done; [|apply (lk_held _ _ _ _ _ _ Hc')].
    destruct Hj as [[] ? [] ? ? ?]. by repeat (split; try done).
  - unfold commit. apply wp_bind, wp_gets. cbn [lg s1 l_n with_committing with_outstanding].
    rewrite (proj2 (Z.ltb_ge 0 _)) by done. apply wp_ret, wp_modify. cbn [lg cache].
    pose proof (lo_n _ _ (li_logged _ Hi)). split_and!; try done; [|simpl; lia|].
    + destruct Hi1 as [[] ? [] ? ? ?]. by repeat (split; try done).
    + split; [symmetry; by apply view_length, Hi|]. intros b Hb. symmetry. apply (inv_unlogged s); try done.
      unfold homes. replace (Z.to_nat (l_n (lg s))) with 0%nat by lia. set_solver.
Qed.

(** [end_op] of the last operation of a transaction commits it: it returns
    with an empty log, no pinned block, and every home block on the disk as
    the transaction left it; [end_op] of another operation only counts it
    out. *)
Theorem end_op_commits s :
  log_inv s -> held (cache s) = ∅ -> l_committing (lg s) = 0 -> 1 <= l_outstanding (lg s) ->
  wp end_op s (fun _ s' =>
    log_inv s' /\ l_outstanding (lg s') = l_outstanding (lg s) - 1 /\ l_committing (lg s') = 0 /\
    same_homes (lg s) (view (cache s')) (view (cache s)) /\
    if l_outstanding (lg s) =? 1
    then l_n (lg s') = 0 /\ same_homes (lg s) (disk (cache s')) (view (cache s))
    else l_n (lg s') = l_n (lg s) /\ disk (cache s') = disk (cache s)).
Proof.
  intros Hi Hh Hcm Hout. eapply wp_mono; [apply (wp_end_op s Hi Hh Hcm Hout)|].
  intros _ s' (H1 & _ & H2 & H3 & H4 & H5). done.
Qed.

Lemma log_find_spec n i b blocks :
  (i + n <= length blocks)%nat ->
  exists j, log_find n i b blocks = Some (i + j)%nat /\ (j <= n)%nat /\
    (forall k x, (k < j)%nat -> blocks !! (i + k)%nat = Some x -> u32 x <> b) /\
    ((j < n)%nat -> exists x, blocks !! (i + j)%nat = Some x /\ u32 x = b).
Proof.
  revert i. induction n as [|n IH]; intros i Hi; simpl.
  - exists 0%nat. rewrite Nat.add_0_r. repeat split; lia.
  - destruct (lookup_lt_is_Some_2 blocks i) as [x Hx]; [lia|]. rewrite Hx.
    destruct (Z.eqb_spec (u32 x) b) as [E|E].
    + exists 0%nat. rewrite Nat.add_0_r. repeat split; [lia|lia|]. intros _. eauto.
    + destruct (IH (Datatypes.S i)) as (j & -> & Hj & H1 & H2); [lia|]. exists (Datatypes.S j).
      split; [f_equal; lia|]. split; [lia|]. split.
      * intros [|k] y Hk Hy; [rewrite Nat.add_0_r in Hy; congruence|].
        apply (H1 k); [lia|]. by rewrite <- Hy; f_equal; lia.
      * intros Hlt. destruct H2 as (y & Hy & Ey); [lia|]. exists y. split; [|done].
        rewrite <- Hy. f_equal. lia.
Qed.

(** Appending a block number to the in-memory header. *)
Lemma log_append l len b :
  geometry l len -> logged_ok l len -> l_n l < Z.of_nat LOGSIZE -> l_n l < l_size l - 1 ->
  home_ok l len b ->
  let l1 := with_block l (<[Z.to_nat (l_n l) := b]> (l_block l)) in
  let l' := with_n l1 (l_n l1 + 1) in
  geometry l' len /\ logged_ok l' len /\ homes l' = homes l ++ [b].
Proof.
  intros [G1 G2 G3 G4 G5 G6] [L1 L2 L3] Hn Hs Hb l1 l'.
  assert (Hh : homes l' = homes l ++ [b]).
  { unfold homes. cbn [l_n l_block l' l1 with_n with_block].
    replace (Z.to_nat (l_n l + 1)) with (Datatypes.S (Z.to_nat (l_n l))) by lia.
    rewrite (take_S_r _ _ b) by (rewrite list_lookup_insert_eq; [done|lia]).
    by rewrite take_insert_ge by lia. }
  split; [|split; [|done]].
  - split; cbn [l_dev l_start l_size l_block l' l1 with_n with_block]; try done. by rewrite length_insert.
  - split; [simpl; lia|simpl; lia|]. rewrite Hh. apply Forall_app.
    split; [done|]. constructor; [done|constructor].
Qed.

Definition log_full (l : log) : Prop := Z.of_nat LOGSIZE <= l_n l \/ l_size l - 1 <= l_n l.

(** The fields that [log_write] does not touch. *)
Definition same_place (l l' : log) : Prop :=
  l_start l' = l_start l /\ l_size l' = l_size l /\ l_dev l' = l_dev l /\
  l_outstanding l' = l_outstanding l /\ l_committing l' = l_committing l.

Lemma wp_log_write s h b :
  log_inv s -> held (cache s) !! h = Some b -> home_ok (lg s) (length (disk (cache s))) b ->
  ~ log_full (lg s) -> 1 <= l_outstanding (lg s) ->
  wp (log_write h) s (fun _ s' =>
    log_inv s' /\ held (cache s') = held (cache s) /\ same_place (lg s) (lg s') /\
    homes (lg s') = (if decide (b ∈ homes (lg s)) then homes (lg s) else homes (lg s) ++ [b]) /\
    view (cache s') = view (cache s) /\ disk (cache s') = disk (cache s) /\
    written (cache s') = written (cache s)).
Proof.
  destruct s as [c l]. cbn [lg cache]. intros Hi Hh Hb Hnf Ho. pose proof Hi as [H1 H2 H3 H4 H5 H6].
  cbn [lg cache] in *. pose proof H1 as [G1 G2 G3 G4 G5 G6]. pose proof H3 as [L1 L2 L3].
  unfold log_full, LOGSIZE in *. unfold log_write, getl. apply wp_bind, wp_gets. unfold id. cbn [lg].
  rewrite (proj2 (orb_false_iff _ _)) by (split; apply Z.leb_gt; unfold LOGSIZE; lia).
  rewrite (proj2 (Z.ltb_ge _ _)) by done.
  apply wp_bind, wp_onc. unfold wp at 1. cbn [cache]. rewrite (view_blockno _ _ _ H4 Hh). cbn [lift ret].
  destruct (log_find_spec (Z.to_nat (l_n l)) 0 b (l_block l)) as (j & Hj & Hjn & Hmiss & Hhit); [lia|].
  apply wp_bind. eapply wp_lift; [exact Hj|]. simpl. pose proof Hb as [Hb1 Hb2].
  apply wp_bind. unfold wp at 1, set_lh_block. cbn [lg]. rewrite store_in by lia.
  rewrite s32_small by lia. pose proof (set_dirty_law _ _ _ H4 Hh) as [F1 F2 F3 F4 F5 F6].
  assert (Hhomes : forall k x, homes l !! k = Some x -> u32 x = x).
  { intros k x Hk. rewrite Forall_lookup in L3. destruct (L3 _ _ Hk). apply u32_small. lia. }
  destruct (decide (j < Z.to_nat (l_n l))%nat) as [Hlt|Hge]; apply wp_bind.
  - destruct (Hhit Hlt) as (x & Hx & Ex).
    assert (Hk : homes l !! j = Some x) by (unfold homes; by rewrite lookup_take_lt).
    assert (x = b) as -> by (rewrite <- Ex; symmetry; by eapply Hhomes).
    rewrite list_insert_id by done. rewrite (proj2 (Z.eqb_neq _ _)) by lia.
    apply wp_ret, wp_onc, wp_modify. cbn [lg cache].
    assert (Hin : b ∈ homes l) by (by eapply list_elem_of_lookup_2).
    rewrite decide_True by done. replace (with_block l (l_block l)) with l by (by destruct l).
    split_and!; try done. split; cbn [lg cache]; rewrite ?F2; try done. rewrite F5, H5. set_solver.
  - replace j with (Z.to_nat (l_n l)) in * by lia. rewrite (proj2 (Z.eqb_eq _ _)) by lia.
    apply wp_modify, wp_onc, wp_modify. cbn [lg cache]. assert (Hout : b ∉ homes l).
    { intros (k & Hk)%list_elem_of_lookup. pose proof (Hhomes _ _ Hk) as Eu.
      apply lookup_take_Some in Hk as [Hk Hkn]. by eapply Hmiss. }
    destruct (log_append l _ b H1 H3) as (A1 & A2 & A3); [unfold LOGSIZE; lia|lia|done|].
    rewrite decide_False by done. split_and!; try done.
    split; cbn [lg cache]; rewrite ?F2; try done.
    rewrite F5, H5, A3, list_to_set_app_L. simpl. set_solver.
Qed.

(** [log_write] of a locked home block, inside a transaction with room in
    the log, records the block once, pins its buffer, and changes no block's
    contents and nothing on the disk; [log_write] panics outside a
    transaction or when the log is full. *)
Theorem log_write_records s h b :
  log_inv s -> held (cache s) !! h = Some b -> home_ok (lg s) (length (disk (cache s))) b ->
  let l := lg s in
  (log_full l -> log_write h s = Stop (Panicked "too big a transaction") s) /\
  (~ log_full l -> l_outstanding l < 1 ->
   log_write h s = Stop (Panicked "log_write outside of trans") s) /\
  (~ log_full l -> 1 <= l_outstanding l ->
   wp (log_write h) s (fun _ s' =>
     log_inv s' /\ held (cache s') = held (cache s) /\ same_place l (lg s') /\
     homes (lg s') = (if decide (b ∈ homes l) then homes l else homes l ++ [b]) /\
     view (cache s') = view (cache s) /\ disk (cache s') = disk (cache s) /\
     written (cache s') = written (cache s))).
Proof.
  intros Hi Hh Hb l. split_and!; [| |intros; by apply wp_log_write];
    unfold log_write, getl; rewrite bind_gets; unfold id; fold l.
  - intros Hf. rewrite (proj2 (orb_true_iff _ _)); [done|]. rewrite !Z.leb_le. exact Hf.
  - intros Hf Ho. rewrite (proj2 (orb_false_iff _ _)).
    + by rewrite (proj2 (Z.ltb_lt _ _)).
    + rewrite !Z.leb_gt. unfold log_full in Hf. lia.
Qed.
End properties.

(** ** Reservations

    Several operations run between [begin_op] and [end_op] at the same time;
    [begin_op] reserves [MAXOPBLOCKS] blocks for each, and each logs at most
    one fewer, since the log has a header block too.  A state of the system is
    the state of the log and, for each operation under way, the number of
    blocks it may still log. *)

Section reservations.
Context {S : Type} {ops : BufCache S}.
Implicit Types (s : lstate S) (act : list Z).

Definition final {A} (o : outcome (lstate S) A) : lstate S :=
  match o with Ret _ s => s | Stop _ s => s end.

(** A computation that does not assign to [log]. *)
Definition keeps {A} (m : M (lstate S) A) : Prop := forall s, lg (final (m s)) = lg s.

Lemma keeps_ret {A} (a : A) : keeps (ret a).
Proof. done. Qed.

Lemma keeps_gets {A} (f : lstate S -> A) : keeps (gets f).
Proof. done. Qed.

Lemma keeps_onc {A} (m : M S A) : keeps (onc m).
Proof. intros s. unfold onc. by destruct (m (cache s)). Qed.

Lemma keeps_lift {A} (o : option A) : keeps (lift o).
Proof. by destruct o. Qed.

Lemma keeps_lh_block i : keeps (lh_block i).
Proof. intros s. unfold lh_block. apply keeps_lift. Qed.

Lemma keeps_bind {A B} (m : M (lstate S) A) (f : A -> M (lstate S) B) :
  keeps m -> (forall a, keeps (f a)) -> keeps (bind m f).
Proof.
  intros Hm Hf s. unfold bind. specialize (Hm s). destruct (m s) as [a s1|r s1]; [|done].
  simpl in Hm. by rewrite (Hf a s1).
Qed.

Hint Resolve keeps_ret keeps_gets keeps_onc keeps_lift keeps_lh_block keeps_bind : xv6.

Lemma keeps_install n t : keeps (install_loop n t).
Proof.
  revert t. induction n as [|n IH]; intros t; cbn [install_loop]; [apply keeps_ret|].
  unfold getl, data_of, store_data. repeat (apply keeps_bind; [|intros ?]); auto with xv6.
Qed.

Lemma keeps_write_log n t : keeps (write_log_loop n t).
Proof.
  revert t. induction n as [|n IH]; intros t; cbn [write_log_loop]; [apply keeps_ret|].
  unfold getl, data_of, store_data. repeat (apply keeps_bind; [|intros ?]); auto with xv6.
Qed.

Lemma keeps_write_head_loop n i b : keeps (write_head_loop n i b).
Proof.
  revert i. induction n as [|n IH]; intros i; cbn [write_head_loop]; [apply keeps_ret|].
  unfold data_of, store_data. repeat (apply keeps_bind; [|intros ?]); auto with xv6.
Qed.

Lemma keeps_write_head : keeps write_head.
Proof.
  unfold write_head, getl, data_of, store_data. repeat (apply keeps_bind; [|intros ?]); auto with xv6.
  apply keeps_write_head_loop.
Qed.

(** [commit] only resets [lh.n]. *)
Lemma commit_log s s' : commit s = Ret tt s' ->
  lg s' = (if 0 <? l_n (lg s) then with_n (lg s) 0 else lg s).
Proof.
  unfold commit, getl. rewrite bind_gets. destruct (0 <? l_n (lg s)); [|by intros [= <-]].
  assert (K1 : keeps write_log).
  { unfold write_log, getl. apply keeps_bind; [apply keeps_gets|intros]. apply keeps_write_log. }
  assert (K2 : keeps install_trans).
  { unfold install_trans, getl. apply keeps_bind; [apply keeps_gets|intros]. apply keeps_install. }
  specialize (K1 s). unfold bind at 1. destruct (write_log s) as [[] s1|]; [|done].
  pose proof (keeps_write_head s1) as K3. unfold bind at 1. destruct (write_head s1) as [[] s2|]; [|done].
  specialize (K2 s2). unfold bind at 1. destruct (install_trans s2) as [[] s3|]; [|done].
  unfold setl. rewrite bind_modify. intros E.
  pose proof (keeps_write_head {| cache := cache s3; lg := with_n (lg s3) 0 |}) as K4.
  rewrite E in K4. simpl in *. congruence.
Qed.

Inductive rstep : lstate S * list Z -> lstate S * list Z -> Prop :=
  | r_begin s s' act :
      begin_op s = Ret tt s' -> rstep (s, act) (s', MAXOPBLOCKS - 1 :: act)
  | r_log s s' act1 m act2 h :
      0 < m -> log_write h s = Ret tt s' ->
      rstep (s, act1 ++ m :: act2)
            (s', act1 ++ (m - (l_n (lg s') - l_n (lg s))) :: act2)
  | r_end s s' act1 m act2 :
      end_op s = Ret tt s' -> rstep (s, act1 ++ m :: act2) (s', act1 ++ act2)
  | r_cache s c act : rstep (s, act) ({| cache := c; lg := lg s |}, act).

Definition total (act : list Z) : Z := foldr Z.add 0 act.

Record reserved (x : lstate S * list Z) : Prop := {
  rs_n : 0 <= l_n (lg x.1);
  rs_count : l_outstanding (lg x.1) = Z.of_nat (length x.2);
  rs_budget : Forall (fun m => 0 <= m < MAXOPBLOCKS) x.2;
  rs_fits : l_n (lg x.1) + total x.2 < Z.of_nat LOGSIZE;
  rs_size : Z.of_nat LOGSIZE <= l_size (lg x.1)
}.

Lemma total_app a b : total (a ++ b) = total a + total b.
Proof. induction a; simpl; lia. Qed.

Lemma total_max act : Forall (fun m => 0 <= m < MAXOPBLOCKS) act ->
  0 <= total act <= Z.of_nat (length act) * (MAXOPBLOCKS - 1).
Proof. induction 1; simpl in *; lia. Qed.

(** [log_write] adds at most one block. *)
Lemma log_write_log h s s' : log_write h s = Ret tt s' ->
  l_outstanding (lg s') = l_outstanding (lg s) /\ l_size (lg s') = l_size (lg s) /\ l_n (lg s) <= l_n (lg s') <= l_n (lg s) + 1.
Proof.
  unfold log_write, getl. rewrite bind_gets. unfold id.
  destruct (_ || _); [done|]. destruct (_ <? _); [done|].
  pose proof (keeps_onc (fun c => lift (b_blockno_of h c) c) s) as K.
  unfold bind at 1. destruct (onc _ s) as [b s1|]; [|done]. simpl in K.
  destruct (log_find _ _ _ _) as [i|]; [|done]. cbn [lift]. unfold bind at 1, ret at 1.
  unfold bind at 1, set_lh_block. destruct (store _ _ _) as [blk|]; [|done].
  unfold bind. destruct (Z.of_nat i =? l_n (lg s)); cbn; intros [= <-]; simpl; rewrite <- K; lia.
Qed.

Lemma end_op_log s s' : end_op s = Ret tt s' ->
  l_outstanding (lg s') = l_outstanding (lg s) - 1 /\ l_size (lg s') = l_size (lg s) /\ (l_n (lg s') = l_n (lg s) \/ l_n (lg s') = 0).
Proof.
  unfold end_op, getl, setl. rewrite bind_modify, bind_gets. unfold id. cbn [lg cache].
  destruct (negb _); [done|]. destruct (_ =? 0).
  - rewrite bind_modify. cbn [lg cache]. unfold bind at 1. destruct (commit _) as [[] s1|] eqn:E; [|done].
    apply commit_log in E. cbn [lg] in E. intros [= <-]. cbn [lg l_outstanding l_n with_committing].
    rewrite E. destruct (0 <? _); simpl; auto.
  - intros [= <-]. simpl. auto.
Qed.

Lemma reserved_step x y : reserved x -> rstep x y -> reserved y.
Proof.
  intros [H1 H2 H3 H4 H0] Hs. destruct Hs as [s s' act E|s s' act1 m act2 h Hm E|s s' act1 m act2 E|s c act];
    cbn [fst snd] in *.
  - unfold begin_op, getl in E. rewrite bind_gets in E. unfold id in E.
    destruct (negb _); [done|].
    destruct (Z.ltb_spec (Z.of_nat LOGSIZE) (l_n (lg s) + (l_outstanding (lg s) + 1) * MAXOPBLOCKS));
      [done|]. injection E as <-. pose proof (total_max _ H3).
    split; simpl; [done|lia|constructor; [unfold MAXOPBLOCKS; lia|done]| |done].
    fold (total act). unfold MAXOPBLOCKS in *. lia.
  - apply log_write_log in E as (E1 & E0 & E2). apply Forall_app in H3 as [H3 H5].
    apply Forall_cons_iff in H5 as [H5 H6]. rewrite total_app in H4. simpl in H4.
    split; cbn [fst snd].
    + lia.
    + rewrite E1, H2, !length_app. done.
    + apply Forall_app. split; [done|]. constructor; [lia|done].
    + rewrite total_app. simpl. fold (total act2) in *. lia.
    + lia.
  - apply end_op_log in E as (E1 & E0 & E2). apply Forall_app in H3 as [H3 H5].
    apply Forall_cons_iff in H5 as [H5 H6]. rewrite total_app in H4. simpl in H4. fold (total act2) in H4.
    pose proof (total_max _ H3). pose proof (total_max _ H6).
    split; cbn [fst snd].
    + lia.
    + rewrite E1, H2, !length_app. simpl. lia.
    + by apply Forall_app.
    + rewrite total_app. lia.
    + lia.
  - by split.
Qed.

(** C4. The reservations of [begin_op] are enough on a disk with the log that
    [mkfs] makes, [LOGSIZE] blocks, for operations that log at most
    [MAXOPBLOCKS] - 1 new blocks each: from an empty log, however operations
    begin, log blocks and end, an operation that has logged fewer does not find
    the log full.  (With [MAXOPBLOCKS] blocks each it can; see
    [log_full_panic].) *)
Theorem reservation_suffices s y act1 m act2 h :
  l_n (lg s) = 0 -> l_outstanding (lg s) = 0 -> Z.of_nat LOGSIZE <= l_size (lg s) ->
  rtc rstep (s, []) y -> y.2 = act1 ++ m :: act2 -> 0 < m ->
  forall msg s', log_write h y.1 <> Stop (Panicked msg) s'.
Proof.
  intros Hn Ho Hsize Hr Hy Hm msg s'. assert (Hry : reserved y).
  { assert (Hx : reserved (s, [])) by (split; cbn [fst snd]; rewrite ?Hn, ?Ho; simpl; (done || constructor)).
    clear -Hx Hr. induction Hr; eauto using reserved_step. }
  destruct Hry as [H1 H2 H3 H4 H0]. rewrite Hy in *. apply Forall_app in H3 as [H3 H5].
  apply Forall_cons_iff in H5 as [H5 H6]. rewrite total_app in H4. simpl in H4. fold (total act2) in H4.
  pose proof (total_max _ H3). pose proof (total_max _ H6). rewrite length_app in H2. simpl in H2.
  unfold log_write, getl. rewrite bind_gets. unfold id.
  rewrite (proj2 (orb_false_iff _ _)) by (split; apply Z.leb_gt; lia).
  rewrite (proj2 (Z.ltb_ge _ _)) by lia. destruct y as [s1 act]. cbn [fst] in *.
  unfold bind at 1, onc. destruct (b_blockno_of h (cache s1)) as [b|]; [|done]. cbn.
  destruct (log_find _ _ _ _) as [i|]; [|done]. cbn. unfold bind, set_lh_block.
  destruct (store _ _ _) as [blk|]; [|done]. by destruct (_ =? _).
Qed.
End reservations.
