(* ===== verification/LogBio.v ===== *)
(** * The log over the buffer cache

    The log of [Log] runs over the cache of [Bio]: concrete states on which
    the theorems of [Log] apply, and the full log of a disk made by [mkfs]. *)

From S2P Require Import Prelude Mem BufIface Lock Bio Log.

Abbreviation kstate := (lstate bstate).

(** A disk of 8 zeroed blocks with a log of 4 blocks at block 1. *)
Definition tiny_disk : list block := replicate 8 (replicate BSIZE 0).

Definition tiny_log : log :=
  {| l_start := 1; l_size := 4; l_outstanding := 1; l_committing := 0; l_dev := 1; l_n := 0;
     l_block := replicate LOGSIZE 0 |}.

Lemma tiny_geometry : geometry tiny_log (length tiny_disk).
Proof. split; simpl; (done || lia). Qed.

Lemma zero_header : header_is (replicate BSIZE 0) [].
Proof. split; [done|]. split; [by vm_compute|done]. Qed.

Lemma tiny_start : exists c : bstate,
  looks c tiny_disk tiny_disk ∅ ∅ [] /\ log_inv {| cache := c; lg := tiny_log |}.
Proof.
  destruct (boot_state 1 tiny_disk) as (c & _ & Hok & Hd & Hv & Hh & Hp & Hw); [by_decide|].
  exists c. split; [by split|]. split; cbn [cache lg]; rewrite ?Hd; try done.
Qed.

Definition sevens : block := replicate BSIZE 7.

(** After a transaction has changed block 6 and released it. *)
Lemma tiny_logged : exists s : kstate,
  log_inv s /\ held (cache s) = ∅ /\ l_committing (lg s) = 0 /\ l_outstanding (lg s) = 1 /\
  0 < l_n (lg s) /\ view (cache s) !! 6%nat = Some sevens.
Proof.
  destruct tiny_start as (c & Hc & Hi).
  assert (Hrun : wp (let! b := onc (bread ROOTDEV 6) in
                     store_data b sevens then! log_write b then! onc (brelse b))
    {| cache := c; lg := tiny_log |} (fun _ s => log_inv s /\ held (cache s) = ∅ /\
      l_committing (lg s) = 0 /\ l_outstanding (lg s) = 1 /\
      0 < l_n (lg s) /\ view (cache s) !! 6%nat = Some sevens)).
  { apply wp_bind. eapply wp_bread; [exact Hc|vm_compute; done| | |].
    { rewrite map_img_empty. apply not_elem_of_empty. }
    { right. rewrite map_img_empty, (left_id_L ∅ (∪)), size_empty. unfold NBUF. lia. }
    intros h c1 _ Hc1. apply wp_bind. eapply wp_store; [exact Hc1|by rewrite lookup_insert_eq|done|].
    intros c2 Hc2. apply wp_bind. pose proof Hc2 as [E1 E2 E3 E4 E5 E6].
    assert (Hi2 : log_inv {| cache := c2; lg := tiny_log |}).
    { destruct Hi as [I1 I2 I3 I4 I5 I6]. destruct Hc as [D1 D2 D3 D4 D5 D6]. cbn [cache lg] in *.
      split; cbn [cache lg]; rewrite ?E2, <- ?D2; done. }
    eapply wp_mono; [apply (wp_log_write _ h 6 Hi2)|].
    { cbn [cache]. by rewrite E4, lookup_insert_eq. }
    { split; [cbn [cache]; rewrite E2; vm_compute; done|]. unfold in_log. simpl. lia. }
    { unfold log_full, LOGSIZE. cbn. lia. }
    { simpl. lia. }
    intros [] s3 (Hi3 & Hh3 & (_ & _ & _ & Ho3 & Hc3) & Hhom & Hv3 & Hd3 & Hw3).
    cbn [cache lg] in *. rewrite E4 in Hh3. rewrite decide_False in Hhom by (simpl; set_solver).
    assert (Hp : (6 : Z) ∈ pinned (cache s3)).
    { rewrite (li_pinned _ Hi3), Hhom. simpl. set_solver. }
    destruct s3 as [c3 l3]. cbn [cache lg] in *.
    eapply (wp_brelse c3 l3 h 6 (disk c3) (view c3) (held c3) (pinned c3) (written c3));
      [split; try done; apply Hi3|by rewrite Hh3, lookup_insert_eq|by left|].
    intros c4 [F1 F2 F3 F4 F5 F6]. cbn [cache lg]. rewrite Hh3, delete_insert_eq, delete_empty in F4.
    split_and!; try done.
    - destruct Hi3 as [I1 I2 I3 I4 I5 I6]. cbn [cache lg] in *.
      split; cbn [cache lg]; rewrite ?F2; try done. by rewrite F5.
    - destruct (Z.lt_trichotomy (l_n l3) 0) as [|[E|]]; [|rewrite E in *|done].
      + pose proof (lo_n _ _ (li_logged _ Hi3)). simpl in *. lia.
      + unfold homes in Hhom. by rewrite E in Hhom.
    - rewrite F3, Hv3, E3. by vm_compute. }
  apply wp_iff in Hrun as (_ & s & _ & H). by exists s.
Qed.

Lemma commit_atomic_witness : exists s : kstate, log_inv s /\
  wp commit s (fun _ s' => exists ws, written (cache s') = written (cache s) ++ ws /\
    forall k c0, let D := replay (take k ws) (disk (cache s)) in
      looks c0 D D ∅ ∅ [] ->
      wp recover_from_log {| cache := c0; lg := boot_log (lg s) |} (fun _ s2 =>
        same_homes (lg s) (view (cache s2))
          (if decide (k <= length (homes (lg s)))%nat then disk (cache s) else view (cache s)))).
Proof.
  destruct tiny_logged as (s & Hi & Hh & _ & _ & Hn & _). exists s. split; [done|].
  eapply wp_mono; [apply (commit_atomic s Hi Hh Hn)|].
  intros [] s' (ws & Hw & _ & Hc). exists ws. split; [done|]. intros k c0 D Hc0.
  eapply wp_mono; [apply (Hc k c0 Hc0)|]. by intros ? s2 (_ & _ & Hs).
Defined.

(** The machine stopped after the header was written: it lists block 6, and
    the first block of the log has its new contents. *)
Definition crashed_disk : list block :=
  <[2%nat := sevens]> (<[1%nat := [1; 0; 0; 0; 6; 0; 0; 0] ++ replicate (BSIZE - 8) 0]> tiny_disk).

Lemma crashed_recoverable : recoverable tiny_log crashed_disk [6].
Proof.
  split; [|split; [vm_compute; lia|split; [vm_compute; congruence|]]].
  - split; [reflexivity|]. split; [reflexivity|]. intros [|i] h [= <-]. reflexivity.
  - constructor; [|constructor]. split; [vm_compute; done|]. unfold in_log. simpl. lia.
Qed.

Lemma boot_looks d : blocks_wf d -> exists c : bstate, looks c d d ∅ ∅ [].
Proof. intros Hd. destruct (boot_state 1 d Hd) as (c & _ & H1 & H2 & H3 & H4 & H5 & H6). exists c. by split. Qed.

(** A boot stops after the first write of its recovery, which installs block
    6; the next one gets the header cleared too. *)
Lemma crashed_again : exists c : bstate,
  interrupted (S := bstate) tiny_log crashed_disk (<[6%nat := sevens]> crashed_disk) /\
  looks c (<[6%nat := sevens]> crashed_disk) (<[6%nat := sevens]> crashed_disk) ∅ ∅ [].
Proof.
  destruct (boot_looks crashed_disk) as [c0 Hc0]; [by_decide|]. destruct (boot_looks (<[6%nat := sevens]> crashed_disk)) as [c Hc]; [by_decide|].
  exists c. split; [|done].
  destruct (proj1 (wp_iff _ _ _) (wp_recover_boot c0 tiny_log crashed_disk [6] Hc0 tiny_geometry crashed_recoverable ltac:(vm_compute; congruence)))
    as ([] & s' & E & _ & _ & _ & h0 & _ & Hw).
  eapply (in_crash tiny_log crashed_disk c0 s' 1); [done..|]. rewrite Hw. apply in_none.
Qed.

Lemma recovery_restartable_witness : exists c : bstate,
  looks c (<[6%nat := sevens]> crashed_disk) (<[6%nat := sevens]> crashed_disk) ∅ ∅ [] /\
  wp recover_from_log {| cache := c; lg := boot_log tiny_log |} (fun _ s' => l_n (lg s') = 0 /\ view (cache s') !! 6%nat = Some sevens).
Proof.
  destruct crashed_again as (c & Hin & Hc). exists c. split; [exact Hc|].
  eapply wp_mono; [apply (recovery_restartable c tiny_log crashed_disk [6] _ tiny_geometry crashed_recoverable ltac:(vm_compute; congruence) Hin Hc)|].
  intros [] s' (_ & Hn & Hv & _). split; [exact Hn|]. apply (Hv 0%nat 6 eq_refl). intros [|[|j]] Hj; [lia|done|done].
Defined.

Lemma end_op_commits_witness : exists s : kstate,
  view (cache s) !! 6%nat = Some sevens /\
  wp end_op s (fun _ s' => l_n (lg s') = 0 /\ same_homes (lg s) (disk (cache s')) (view (cache s))).
Proof.
  destruct tiny_logged as (s & Hi & Hh & Hc & Ho & Hn & Hv). exists s. split; [done|].
  eapply wp_mono; [apply (end_op_commits s Hi Hh Hc); lia|].
  intros [] s' (_ & _ & _ & _ & H). by rewrite Ho in H.
Defined.

Lemma tiny_locked : exists (c : bstate) h, held c !! h = Some 6 /\ disk c = tiny_disk /\
  log_inv {| cache := c; lg := tiny_log |}.
Proof.
  destruct tiny_start as (c & Hc & Hi). pose proof Hc as [C1 C2 C3 C4 C5 C6].
  assert (Hr : wp (bread ROOTDEV 6) c (fun h c' =>
    looks c' (disk c) (view c) (<[h := 6]> (held c)) (pinned c) (written c))).
  { eapply wp_mono; [apply bread_law|by intros h c' [_ H]]; [done| | |by apply room_idle].
    - rewrite C2. vm_compute. done.
    - rewrite C4, map_img_empty. apply not_elem_of_empty. }
  apply wp_iff in Hr as (h & c' & _ & [F1 F2 F3 F4 F5 F6]). exists c', h.
  split; [by rewrite F4, lookup_insert_eq|]. split; [congruence|].
  destruct Hi as [I1 I2 I3 I4 I5 I6]. cbn [cache lg] in *.
  split; cbn [cache lg]; rewrite ?F2; try done. by rewrite F5.
Qed.

Lemma log_write_records_witness : exists (s : kstate) h,
  wp (log_write h) s (fun _ s' => log_inv s' /\ homes (lg s') = [6]).
Proof.
  destruct tiny_locked as (c & h & Hh & Hd & Hi). exists {| cache := c; lg := tiny_log |}, h.
  eapply wp_mono.
  - apply (log_write_records {| cache := c; lg := tiny_log |} h 6 Hi Hh).
    + split; [cbn [cache]; rewrite Hd; vm_compute; done|]. unfold in_log. simpl. lia.
    + unfold log_full, LOGSIZE. cbn. lia.
    + cbn. lia.
  - intros [] s' (Hi' & _ & _ & Hhom & _). split; [done|].
    rewrite decide_False in Hhom by (simpl; set_solver). exact Hhom.
Defined.

(** ** The full log

    [mkfs] gives the log [LOGSIZE] blocks, one of which is the header. *)

Definition mkfs_log : log :=
  {| l_start := 2; l_size := Z.of_nat LOGSIZE; l_outstanding := 0; l_committing := 0; l_dev := 1;
     l_n := 0; l_block := replicate LOGSIZE 0 |}.

(** An operation that logs these blocks. *)
Fixpoint log_all (bs : list Z) : M kstate unit :=
  match bs with
  | [] => ret tt
  | b :: r =>
      let! h := onc (bread ROOTDEV b) in
      log_write h then!
      onc (brelse h) then!
      log_all r
  end.

Definition booted : kstate :=
  match binit (boot 1 (replicate 100 (replicate BSIZE 0))) with
  | Ret _ c | Stop _ c => {| cache := c; lg := mkfs_log |}
  end.

(** Two operations have begun on it, and the second has logged block 40. *)
Definition logged_once : option (kstate * nat) :=
  match (begin_op then! begin_op) booted with
  | Ret _ s =>
      match onc (bread ROOTDEV 40) s with
      | Ret h s1 => match log_write h s1 with Ret _ s2 => Some (s2, h) | Stop _ _ => None end
      | Stop _ _ => None
      end
  | Stop _ _ => None
  end.

Lemma lg_booted : lg booted = mkfs_log.
Proof. unfold booted. by destruct (binit _). Qed.

Lemma logged_once_reached s h : logged_once = Some (s, h) -> exists m, 0 < m /\ rtc rstep (booted, []) (s, [m; MAXOPBLOCKS - 1]).
Proof.
  unfold logged_once. pose proof lg_booted as Hl. destruct booted as [c l]. cbn [lg] in Hl. subst l.
  destruct ((begin_op then! begin_op) _) as [[] s0|] eqn:E0; [|done]. unfold bind in E0. destruct (begin_op _) as [[] s1|] eqn:E1; [|done].
  destruct (onc (bread ROOTDEV 40) s0) as [h0 s2|] eqn:E2; [|done]. destruct (log_write h0 s2) as [[] s3|] eqn:E3; [|done]. intros [= -> ->].
  exists (MAXOPBLOCKS - 1 - (l_n (lg s) - l_n (lg s2))). apply log_write_log in E3 as Hn. split; [unfold MAXOPBLOCKS; lia|].
  eapply rtc_l; [by apply r_begin|]. eapply rtc_l; [by apply r_begin|]. unfold onc in E2. destruct (bread ROOTDEV 40 (cache s0)) as [h1 c1|] eqn:Eb; [|done].
  injection E2 as -> <-. eapply rtc_l; [by apply (r_cache s0 c1)|]. apply rtc_once.
  apply (r_log {| cache := c1; lg := lg s0 |} s [] (MAXOPBLOCKS - 1) [MAXOPBLOCKS - 1] h); [unfold MAXOPBLOCKS; lia|done].
Qed.

(** The second operation can log another block. *)
Lemma reservation_suffices_witness : exists s h, logged_once = Some (s, h) /\ l_n (lg s) = 1 /\ l_size (lg booted) = Z.of_nat LOGSIZE /\
  forall msg s', log_write h s <> Stop (Panicked msg) s'.
Proof.
  assert (E : option_map (fun x => l_n (lg x.1)) logged_once = Some 1) by (vm_compute; reflexivity).
  pose proof logged_once_reached as R. revert E R. generalize logged_once. intros [[s h]|] E R; [|discriminate].
  injection E as E. destruct (R s h eq_refl) as (m & Hm & Hr). exists s, h. split; [reflexivity|]. split; [exact E|]. split; [rewrite lg_booted; reflexivity|].
  apply (reservation_suffices booted (s, [m; MAXOPBLOCKS - 1]) [] m [MAXOPBLOCKS - 1] h);
    [rewrite lg_booted; reflexivity|rewrite lg_booted; reflexivity|rewrite lg_booted; vm_compute; congruence|exact Hr|reflexivity|exact Hm].
Defined.

(** The check of [log_write] is stricter than the reservation of
    [begin_op]: three operations that each log [MAXOPBLOCKS] blocks, which
    [begin_op] admits together, panic the kernel on a log of the size [mkfs]
    makes. *)
Theorem log_full_panic :
  exists s', (begin_op then! begin_op then! begin_op then!
              log_all (Z.of_nat <$> seq 40 10) then!
              log_all (Z.of_nat <$> seq 50 10) then!
              log_all (Z.of_nat <$> seq 60 10)) booted
             = Stop (Panicked "too big a transaction") s'.
Proof. eexists. vm_compute. reflexivity. Qed.
