(* ===== verification/Pipe.v ===== *)
(** * Pipes ([kernel/pipe.c])

    A pipe is shared by the processes that read and write it.  Between two
    [sleep]s a process holds [p->lock], so a step of the system is one
    process running [pipewrite] or [piperead] until it returns or sleeps; a
    process that is woken goes on from the test it slept in.  The bytes put
    in and taken out are recorded to state what a pipe promises. *)

From S2P Require Import Prelude.

Definition PIPESIZE : Z := 512.

Record pipe : Type := {
  p_data : list Z;
  nread : Z;
  nwrite : Z;
  readopen : bool;
  writeopen : bool
}.

(** The fields as [pipealloc] sets them, over the page [kalloc] returned. *)
Definition pipealloc_init (page : list Z) : pipe :=
  {| p_data := page; nread := 0; nwrite := 0; readopen := true; writeopen := true |}.

(** [p->data[p->nwrite++ % PIPESIZE] = b] *)
Definition put_byte (p : pipe) (b : Z) : pipe :=
  {| p_data := <[Z.to_nat (nwrite p mod PIPESIZE) := b]> (p_data p);
     nread := nread p; nwrite := u32 (nwrite p + 1);
     readopen := readopen p; writeopen := writeopen p |}.

(** [p->data[p->nread++ % PIPESIZE]] *)
Definition get_byte (p : pipe) : Z * pipe :=
  (default 0 (p_data p !! Z.to_nat (nread p mod PIPESIZE)),
   {| p_data := p_data p; nread := u32 (nread p + 1); nwrite := nwrite p;
      readopen := readopen p; writeopen := writeopen p |}).

Definition full (p : pipe) : bool := nwrite p =? u32 (nread p + PIPESIZE).
Definition empty_ (p : pipe) : bool := nread p =? nwrite p.

(** How a run of one of the routines ends. *)
Inductive ending (A : Type) : Type :=
  | Returns (r : Z)
  | Sleeps (a : A).
Arguments Returns {A} r.
Arguments Sleeps {A} a.

(** [pipewrite] from the loop with [rest] still to be written, [n] being its
    argument.  The [bool] tells whether readers were woken. *)
Fixpoint pipewrite (killed : bool) (p : pipe) (rest : list Z) (n : Z)
    : pipe * ending (list Z) * bool :=
  match rest with
  | [] => (p, Returns n, true)
  | b :: r =>
      if full p then
        if negb (readopen p) || killed then (p, Returns (-1), false)
        else (p, Sleeps rest, true)
      else pipewrite killed (put_byte p b) r n
  end.

(** The copy loop of [piperead]: at most [n] bytes. *)
Fixpoint piperead_copy (p : pipe) (n : nat) : pipe * list Z :=
  match n with
  | O => (p, [])
  | S n' =>
      if empty_ p then (p, [])
      else let '(b, p1) := get_byte p in
           let '(p2, l) := piperead_copy p1 n' in (p2, b :: l)
  end.

(** [piperead] from its first test: the bytes stored at [addr], and whether
    writers were woken. *)
Definition piperead (killed : bool) (p : pipe) (n : nat) : pipe * ending nat * list Z * bool :=
  if empty_ p && writeopen p then
    if killed then (p, Returns (-1), [], false) else (p, Sleeps n, [], false)
  else let '(p', l) := piperead_copy p n in (p', Returns (Z.of_nat (length l)), l, true).

(** The new state, whether readers and writers were woken, and whether the
    page was freed. *)
Definition pipeclose (p : pipe) (writable : bool) : pipe * bool * bool * bool :=
  let p' := {| p_data := p_data p; nread := nread p; nwrite := nwrite p;
               readopen := if writable then readopen p else false;
               writeopen := if writable then false else writeopen p |} in
  (p', writable, negb writable, negb (readopen p') && negb (writeopen p')).

(** ** The ring buffer as a queue *)

(** The number of bytes in the pipe, and the bytes, oldest first. *)
Definition count (p : pipe) : Z := u32 (nwrite p - nread p).

Definition queue (p : pipe) : list Z :=
  (fun k => default 0 (p_data p !! Z.to_nat ((nread p + Z.of_nat k) mod PIPESIZE)))
    <$> seq 0 (Z.to_nat (count p)).

Record pipe_ok (p : pipe) : Prop := {
  po_data : (Z.to_nat PIPESIZE <= length (p_data p))%nat;
  po_read : 0 <= nread p < 2 ^ 32;
  po_write : 0 <= nwrite p < 2 ^ 32;
  po_count : count p <= PIPESIZE
}.

Lemma count_bounds p : 0 <= count p < 2 ^ 32.
Proof. apply u32_bounds. Qed.

(** The distance between the two counters, without the wrap-around. *)
Lemma count_cases p : pipe_ok p ->
  nwrite p = nread p + count p \/ nwrite p = nread p + count p - 2 ^ 32.
Proof.
  intros [H1 H2 H3 H4]. unfold count, u32 in *.
  destruct (Z.le_gt_cases (nread p) (nwrite p)).
  - left. rewrite Z.mod_small; lia.
  - right. rewrite <- (Z.mod_add _ 1), Z.mod_small by lia. lia.
Qed.

Lemma wrap_mod a : (a - 2 ^ 32) mod PIPESIZE = a mod PIPESIZE.
Proof.
  replace (a - 2 ^ 32) with (a + (- 2 ^ 23) * PIPESIZE) by (unfold PIPESIZE; lia).
  apply Z.mod_add. unfold PIPESIZE. lia.
Qed.

Lemma nwrite_mod p : pipe_ok p -> nwrite p mod PIPESIZE = (nread p + count p) mod PIPESIZE.
Proof. intros Hp. destruct (count_cases p Hp) as [-> | ->]; [done|apply wrap_mod]. Qed.

Lemma u32_mod a : u32 a mod PIPESIZE = a mod PIPESIZE.
Proof.
  unfold u32. rewrite (Z.mod_eq a (2 ^ 32)) by lia.
  replace (a - 2 ^ 32 * (a / 2 ^ 32)) with (a + (- 2 ^ 23 * (a / 2 ^ 32)) * PIPESIZE)
    by (unfold PIPESIZE; lia).
  apply Z.mod_add. unfold PIPESIZE. lia.
Qed.

Lemma full_count p : pipe_ok p -> full p = true <-> count p = PIPESIZE.
Proof.
  intros Hp. destruct (count_cases p Hp) as [E|E]; destruct Hp as [H1 H2 H3 H4];
    pose proof (count_bounds p); unfold full; rewrite Z.eqb_eq; unfold PIPESIZE in *;
    (destruct (Z.lt_ge_cases (nread p + 512) (2 ^ 32));
      [rewrite u32_small by lia
      |unfold u32; rewrite <- (Z.mod_add _ (-1)), Z.mod_small by lia]); lia.
Qed.

Lemma empty_count p : pipe_ok p -> empty_ p = true <-> count p = 0.
Proof.
  intros Hp. destruct (count_cases p Hp) as [E|E]; destruct Hp as [H1 H2 H3 H4];
    unfold empty_, PIPESIZE in *; rewrite Z.eqb_eq; lia.
Qed.

Lemma not_true {b : bool} {P : Prop} : (b = true <-> P) -> b = false -> ~ P.
Proof. intros H E. rewrite <- H, E. done. Qed.

Lemma count_put p b : pipe_ok p -> full p = false -> count (put_byte p b) = count p + 1.
Proof.
  intros Hp Hf. pose proof (not_true (full_count p Hp) Hf) as Hc.
  destruct Hp as [H1 H2 H3 H4]. pose proof (count_bounds p). unfold count in *. simpl.
  unfold u32, PIPESIZE in *. rewrite Zminus_mod_idemp_l.
  replace (nwrite p + 1 - nread p) with (nwrite p - nread p + 1) by lia.
  rewrite <- Z.add_mod_idemp_l by lia. rewrite Z.mod_small; lia.
Qed.

Lemma count_get p : pipe_ok p -> empty_ p = false -> count (get_byte p).2 = count p - 1.
Proof.
  intros Hp He. pose proof (not_true (empty_count p Hp) He) as Hc.
  destruct Hp as [H1 H2 H3 H4]. pose proof (count_bounds p). unfold count in *. simpl.
  unfold u32, PIPESIZE in *. rewrite Zminus_mod_idemp_r.
  replace (nwrite p - (nread p + 1)) with (nwrite p - nread p - 1) by lia.
  rewrite <- Zminus_mod_idemp_l. rewrite Z.mod_small; lia.
Qed.

Lemma put_ok p b : pipe_ok p -> full p = false -> pipe_ok (put_byte p b).
Proof.
  intros Hp Hf. pose proof (not_true (full_count p Hp) Hf). pose proof (count_put p b Hp Hf) as Hc.
  destruct Hp as [H1 H2 H3 H4].
  split; rewrite ?Hc; simpl; [by rewrite length_insert|done|apply u32_bounds|lia].
Qed.

Lemma get_ok p : pipe_ok p -> empty_ p = false -> pipe_ok (get_byte p).2.
Proof.
  intros Hp He. pose proof (count_get p Hp He) as Hc. destruct Hp as [H1 H2 H3 H4].
  split; rewrite ?Hc; simpl; [done|apply u32_bounds|done|lia].
Qed.

(** Distinct bytes of the queue are in distinct cells. *)
Lemma slot_ne a j k :
  0 <= j < PIPESIZE -> 0 <= k < PIPESIZE -> j <> k -> (a + j) mod PIPESIZE <> (a + k) mod PIPESIZE.
Proof.
  intros Hj Hk Hne E. unfold PIPESIZE in *.
  pose proof (Z.div_mod (a + j) 512 ltac:(lia)). pose proof (Z.div_mod (a + k) 512 ltac:(lia)). lia.
Qed.

Lemma queue_put p b : pipe_ok p -> full p = false -> queue (put_byte p b) = queue p ++ [b].
Proof.
  intros Hp Hf. pose proof (not_true (full_count p Hp) Hf) as Hc. pose proof (count_bounds p).
  pose proof (nwrite_mod p Hp) as Hw. unfold queue. rewrite count_put by done.
  replace (Z.to_nat (count p + 1)) with (Z.to_nat (count p) + 1)%nat by lia.
  destruct Hp as [H1 H2 H3 H4]. rewrite seq_app, fmap_app. simpl. f_equal.
  - apply list_fmap_ext. intros i k [-> Hk]%lookup_seq. f_equal. simpl.
    rewrite list_lookup_insert_ne; [done|]. rewrite Hw. intros E.
    apply (slot_ne (nread p) (count p) (Z.of_nat i)); try (unfold PIPESIZE in *; lia).
    pose proof (Z.mod_pos_bound (nread p + count p) PIPESIZE ltac:(unfold PIPESIZE; lia)).
    pose proof (Z.mod_pos_bound (nread p + Z.of_nat i) PIPESIZE ltac:(unfold PIPESIZE; lia)). lia.
  - f_equal. rewrite Z2Nat.id, <- Hw by lia. rewrite list_lookup_insert_eq; [done|].
    pose proof (Z.mod_pos_bound (nwrite p) PIPESIZE ltac:(unfold PIPESIZE; lia)). lia.
Qed.

Lemma queue_get p : pipe_ok p -> empty_ p = false -> queue p = (get_byte p).1 :: queue (get_byte p).2.
Proof.
  intros Hp He. pose proof (not_true (empty_count p Hp) He) as Hc. pose proof (count_bounds p).
  unfold queue. rewrite count_get by done.
  replace (Z.to_nat (count p)) with (S (Z.to_nat (count p - 1))) by lia. simpl.
  rewrite Z.add_0_r. f_equal. rewrite <- fmap_S_seq, <- list_fmap_compose.
  apply list_fmap_ext. intros i k _. simpl. do 2 f_equal.
  rewrite (Zplus_mod (u32 _)), u32_mod, <- Zplus_mod. do 2 f_equal. lia.
Qed.

Lemma queue_length p : length (queue p) = Z.to_nat (count p).
Proof. unfold queue. by rewrite length_fmap, length_seq. Qed.

Lemma queue_nil p : pipe_ok p -> queue p = [] <-> empty_ p = true.
Proof.
  intros Hp. rewrite (empty_count p Hp). pose proof (count_bounds p).
  rewrite <- length_zero_iff_nil, queue_length. lia.
Qed.

Lemma queue_full p : pipe_ok p -> Z.of_nat (length (queue p)) = PIPESIZE <-> full p = true.
Proof.
  intros Hp. rewrite (full_count p Hp), queue_length. pose proof (count_bounds p). lia.
Qed.

Lemma init_ok page : (Z.to_nat PIPESIZE <= length page)%nat -> pipe_ok (pipealloc_init page).
Proof. intros H. split; simpl; [done|lia|lia|]. by vm_compute. Qed.

(** What one run of [pipewrite] does: it puts in a prefix of what it was
    asked to write, and stops early only when the pipe is full. *)
Lemma pipewrite_run killed p rest n : pipe_ok p ->
  exists done_ left_, rest = done_ ++ left_ /\
    let '(p', e, woke) := pipewrite killed p rest n in
    pipe_ok p' /\ queue p' = queue p ++ done_ /\
    readopen p' = readopen p /\ writeopen p' = writeopen p /\
    match e with
    | Returns r => (r = n /\ left_ = [] /\ woke = true) \/
        (r = -1 /\ left_ <> [] /\ full p' = true /\ (readopen p' = false \/ killed = true) /\ woke = false)
    | Sleeps l => l = left_ /\ left_ <> [] /\ full p' = true /\ readopen p' = true /\ killed = false /\
        woke = true
    end.
Proof.
  revert p. induction rest as [|b r IH]; intros p Hp; cbn [pipewrite].
  { exists [], []. split; [done|]. rewrite app_nil_r. split_and!; auto 10. }
  destruct (full p) eqn:Ef.
  - exists [], (b :: r). split; [done|].
    destruct (readopen p) eqn:Er, killed; cbn; rewrite app_nil_r, ?Er; split_and!; auto 10.
  - destruct (IH (put_byte p b)) as (d & l & -> & H); [by apply put_ok|].
    exists (b :: d), l. split; [done|].
    destruct (pipewrite killed (put_byte p b) (d ++ l) n) as [[p' e] woke].
    rewrite queue_put, <- app_assoc in H by done. exact H.
Qed.

(** The copy loop takes the oldest bytes, as many as it can. *)
Lemma piperead_copy_run p n : pipe_ok p ->
  let '(p', l) := piperead_copy p n in
  pipe_ok p' /\ queue p = l ++ queue p' /\ length l = Nat.min n (length (queue p)) /\
  readopen p' = readopen p /\ writeopen p' = writeopen p.
Proof.
  revert p. induction n as [|n IH]; intros p Hp; cbn [piperead_copy]; [done|].
  destruct (empty_ p) eqn:Ee.
  - rewrite (proj2 (queue_nil p Hp) Ee). done.
  - destruct (get_byte p) as [b p1] eqn:Eg. pose proof (get_ok p Hp Ee) as H1.
    pose proof (queue_get p Hp Ee) as H2. rewrite Eg in H1, H2. cbn [fst snd] in H1, H2.
    specialize (IH p1 H1). destruct (piperead_copy p1 n) as [p2 l].
    destruct IH as (I1 & I2 & I3 & I4 & I5). unfold get_byte in Eg. injection Eg as _ <-.
    rewrite H2, I2. simpl. rewrite length_app. split_and!; try done.
    simpl in *. rewrite I2, length_app in I3. lia.
Qed.

(** ** Processes sharing a pipe *)

Inductive role : Type :=
  | Writer (rest : list Z) (n : Z)
  | Reader (n : nat).

Record thread : Type := { t_role : role; t_asleep : bool; t_killed : bool }.

Definition is_reader (t : thread) : bool := match t_role t with Reader _ => true | _ => false end.

(** [wakeup(&p->nread)] and [wakeup(&p->nwrite)]. *)
Definition wakeup (readers : bool) (ts : list thread) : list thread :=
  (fun t => if Bool.eqb (is_reader t) readers
            then {| t_role := t_role t; t_asleep := false; t_killed := t_killed t |} else t) <$> ts.

Record sys : Type := {
  pp : pipe;
  threads : list thread;
  put_in : list Z;     (* bytes put in the pipe so far *)
  taken : list Z       (* bytes read from the pipe so far *)
}.

Definition wake_if (b readers : bool) (ts : list thread) : list thread :=
  if b then wakeup readers ts else ts.

(** A process calls [pipewrite] or [piperead], or runs in one of them. *)
Inductive run_step : sys -> sys -> Prop :=
  | st_call_write s addr :
      writeopen (pp s) = true ->
      run_step s {| pp := pp s; put_in := put_in s; taken := taken s;
                    threads := threads s ++
                      [{| t_role := Writer addr (Z.of_nat (length addr)); t_asleep := false;
                          t_killed := false |}] |}
  | st_call_read s n :
      readopen (pp s) = true ->
      run_step s {| pp := pp s; put_in := put_in s; taken := taken s;
                    threads := threads s ++
                      [{| t_role := Reader n; t_asleep := false; t_killed := false |}] |}
  | st_write s i rest n killed p' e woke :
      threads s !! i = Some {| t_role := Writer rest n; t_asleep := false; t_killed := killed |} ->
      pipewrite killed (pp s) rest n = (p', e, woke) ->
      run_step s
        {| pp := p';
           threads := match e with
                      | Returns _ => delete i (wake_if woke true (threads s))
                      | Sleeps l => <[i := {| t_role := Writer l n; t_asleep := true; t_killed := killed |}]>
                                      (wake_if woke true (threads s))
                      end;
           put_in := put_in s ++ take (length (queue p') - length (queue (pp s))) rest;
           taken := taken s |}
  | st_read s i n killed p' e l woke :
      threads s !! i = Some {| t_role := Reader n; t_asleep := false; t_killed := killed |} ->
      piperead killed (pp s) n = (p', e, l, woke) ->
      run_step s
        {| pp := p';
           threads := match e with
                      | Returns _ => delete i (wake_if woke false (threads s))
                      | Sleeps m => <[i := {| t_role := Reader m; t_asleep := true; t_killed := killed |}]>
                                      (wake_if woke false (threads s))
                      end;
           put_in := put_in s;
           taken := taken s ++ l |}
  | st_close s writable p' wr ww freed :
      (** the last descriptor of an end is closed when nobody uses the end *)
      Forall (fun t => is_reader t = writable) (threads s) ->
      pipeclose (pp s) writable = (p', wr, ww, freed) ->
      run_step s {| pp := p'; threads := wake_if ww false (wake_if wr true (threads s));
                    put_in := put_in s; taken := taken s |}.

(** [kill] sets [killed] and wakes the process. *)
Inductive kill_step : sys -> sys -> Prop :=
  | st_kill s i t :
      threads s !! i = Some t ->
      kill_step s {| pp := pp s; put_in := put_in s; taken := taken s;
                     threads := <[i := {| t_role := t_role t; t_asleep := false; t_killed := true |}]>
                                  (threads s) |}.

Definition any_step (s s' : sys) : Prop := run_step s s' \/ kill_step s s'.

Definition start (page : list Z) : sys :=
  {| pp := pipealloc_init page; threads := []; put_in := []; taken := [] |}.

Definition fifo (s : sys) : Prop := pipe_ok (pp s) /\ put_in s = taken s ++ queue (pp s).

Lemma close_facts p writable p' wr ww freed :
  pipeclose p writable = (p', wr, ww, freed) -> pipe_ok p ->
  pipe_ok p' /\ queue p' = queue p /\ full p' = full p /\ empty_ p' = empty_ p.
Proof. intros [= <- _ _ _] [H1 H2 H3 H4]. done. Qed.

Lemma fifo_step s s' : fifo s -> any_step s s' -> fifo s'.
Proof.
  intros [Hp Hf] [Hs|Hs]; [|by destruct Hs].
  destruct Hs as [s addr Ho|s n Ho|s i rest n killed p' e woke Hi E|s i n killed p' e l woke Hi E
                 |s writable p' wr ww freed Ht E]; [done|done| | |].
  - destruct (pipewrite_run killed (pp s) rest n Hp) as (d & l & -> & H). rewrite E in H.
    destruct H as (H1 & H2 & _). split; [done|]. cbn [pp put_in taken].
    rewrite H2, Hf, length_app. replace (_ + _ - _)%nat with (length d) by lia.
    by rewrite take_app_length, app_assoc.
  - unfold piperead in E. pose proof (piperead_copy_run (pp s) n Hp) as Hr.
    destruct (piperead_copy (pp s) n) as [p2 l2]. destruct Hr as (R1 & R2 & _).
    destruct (empty_ (pp s) && writeopen (pp s)); [destruct killed|]; injection E as <- <- <- <-;
      (split; [done|]); cbn [pp put_in taken]; rewrite ?app_nil_r; [done|done|].
    by rewrite Hf, R2, app_assoc.
  - destruct (close_facts _ _ _ _ _ _ E Hp) as (C1 & C2 & _). split; [done|].
    cbn [pp put_in taken]. by rewrite C2.
Qed.

(** C27. A pipe is a first-in first-out queue: however its readers and writers
    interleave, and whether or not some are killed, the bytes read so far
    followed by those still in the buffer are exactly the bytes written so
    far, in order; the buffer never holds more than [PIPESIZE]. *)
Theorem pipe_fifo page s :
  (Z.to_nat PIPESIZE <= length page)%nat -> rtc any_step (start page) s ->
  put_in s = taken s ++ queue (pp s) /\ Z.of_nat (length (queue (pp s))) <= PIPESIZE.
Proof.
  intros Hpage Hr. assert (Hf : fifo s).
  { assert (H0 : fifo (start page)) by (split; [by apply init_ok|done]).
    revert H0. induction Hr; [done|]. eauto using fifo_step. }
  destruct Hf as [Hp Hf]. split; [done|]. rewrite queue_length.
  pose proof (po_count _ Hp). pose proof (count_bounds (pp s)). lia.
Qed.

(** ** No lost wakeups *)

(** A process that is not killed sleeps only while it has to wait. *)
Definition waits (p : pipe) (t : thread) : Prop :=
  t_killed t = false /\
  (if is_reader t then readopen p = true else writeopen p = true) /\
  (t_asleep t = true ->
   if is_reader t then empty_ p = true /\ writeopen p = true else full p = true /\ readopen p = true).

Definition no_lost_wakeup (s : sys) : Prop := pipe_ok (pp s) /\ Forall (waits (pp s)) (threads s).

Lemma elem_wake b r ts t' : t' ∈ wake_if b r ts ->
  exists t, t ∈ ts /\ t_role t' = t_role t /\ t_killed t' = t_killed t /\
    (t_asleep t' = true -> t_asleep t = true /\ (b = true -> is_reader t <> r)).
Proof.
  unfold wake_if, wakeup. destruct b; [|exists t'; by auto].
  intros (t & -> & Ht)%list_elem_of_fmap. exists t. split; [done|].
  destruct (Bool.eqb (is_reader t) r) eqn:E; [done|]. apply eqb_false_iff in E. auto.
Qed.

(** The threads after a step that changes the pipe to [p'] and wakes readers
    or writers as told. *)
Lemma waits_wake p p' b r ts :
  Forall (waits p) ts ->
  (forall t, t ∈ ts -> if is_reader t then readopen p' = true else writeopen p' = true) ->
  (forall t, t ∈ ts -> t_asleep t = true -> (b = true -> is_reader t <> r) ->
    if is_reader t then empty_ p' = true /\ writeopen p' = true else full p' = true /\ readopen p' = true) ->
  Forall (waits p') (wake_if b r ts).
Proof.
  intros Hts Hopen Hs. rewrite list.Forall_forall in *. intros t' Ht'.
  destruct (elem_wake _ _ _ _ Ht') as (t & Ht & E1 & E2 & E3).
  assert (Er : is_reader t' = is_reader t) by (unfold is_reader; by rewrite E1).
  destruct (Hts t Ht) as (W1 & _). split; [congruence|]. rewrite Er. split; [by apply Hopen|].
  intros Ha. apply E3 in Ha as [Ha Hb]. by apply Hs.
Qed.

Lemma full_stays p p' d : pipe_ok p -> pipe_ok p' -> queue p' = queue p ++ d -> full p = true -> full p' = true.
Proof.
  intros Hp Hp' Hq Hf. apply (queue_full p Hp) in Hf. apply (queue_full p' Hp').
  pose proof (po_count _ Hp'). pose proof (count_bounds p'). pose proof (queue_length p') as E.
  assert (length (queue p') = length (queue p) + length d)%nat as E' by (by rewrite Hq, length_app).
  lia.
Qed.

Lemma lost_write s i rest n p' e woke :
  no_lost_wakeup s ->
  threads s !! i = Some {| t_role := Writer rest n; t_asleep := false; t_killed := false |} ->
  pipewrite false (pp s) rest n = (p', e, woke) ->
  pipe_ok p' /\ Forall (waits p') (wake_if woke true (threads s)) /\
  match e with Sleeps _ => full p' = true /\ readopen p' = true /\ writeopen p' = true | _ => True end.
Proof.
  intros [Hp Ht] Hi E. destruct (pipewrite_run false (pp s) rest n Hp) as (d & l & -> & H).
  rewrite E in H. destruct H as (H1 & H2 & H3 & H4 & H5). split; [done|].
  pose proof (proj1 (Forall_lookup _ _) Ht _ _ Hi) as (_ & Hwo & _). simpl in Hwo. split.
  - eapply waits_wake; [exact Ht| |].
    + intros t Hin. rewrite list.Forall_forall in Ht. destruct (Ht t Hin) as (_ & Ho & _).
      rewrite H3, H4. done.
    + intros t Hin Ha Hw. rewrite list.Forall_forall in Ht. destruct (Ht t Hin) as (_ & Ho & Hs).
      specialize (Hs Ha). destruct (is_reader t) eqn:Er.
      * exfalso. destruct e as [r|m].
        -- destruct H5 as [(_ & _ & ->)|(_ & _ & _ & [Hro|?] & _)]; [by apply Hw| |done].
           congruence.
        -- destruct H5 as (_ & _ & _ & _ & _ & ->). by apply Hw.
      * rewrite H3. split; [|apply Hs]. by eapply full_stays; [exact Hp| | |apply Hs].
  - destruct e; [done|]. destruct H5 as (_ & _ & ? & ? & _). by rewrite H4.
Qed.

Lemma lost_read s i n p' e l woke :
  no_lost_wakeup s ->
  threads s !! i = Some {| t_role := Reader n; t_asleep := false; t_killed := false |} ->
  piperead false (pp s) n = (p', e, l, woke) ->
  pipe_ok p' /\ Forall (waits p') (wake_if woke false (threads s)) /\
  match e with Sleeps _ => empty_ p' = true /\ writeopen p' = true /\ readopen p' = true | _ => True end.
Proof.
  intros [Hp Ht] Hi E. unfold piperead in E. pose proof (piperead_copy_run (pp s) n Hp) as Hr.
  pose proof (proj1 (Forall_lookup _ _) Ht _ _ Hi) as (_ & Hro & _). simpl in Hro.
  destruct (empty_ (pp s) && writeopen (pp s)) eqn:Ee.
  - apply andb_true_iff in Ee as [? ?]. injection E as <- <- <- <-. done.
  - destruct (piperead_copy (pp s) n) as [p2 l2]. destruct Hr as (R1 & R2 & R3 & R4 & R5).
    injection E as <- <- <- <-. split; [done|]. split; [|done].
    rewrite list.Forall_forall in Ht. eapply waits_wake; [by apply list.Forall_forall| |].
    + intros t Hin. destruct (Ht t Hin) as (_ & Ho & _). by rewrite R4, R5.
    + intros t Hin Ha Hw. destruct (Ht t Hin) as (_ & Ho & Hs). specialize (Hs Ha).
      destruct (is_reader t); [|by destruct (Hw eq_refl)].
      destruct Hs as [Hs1 Hs2]. by rewrite Hs1, Hs2 in Ee.
Qed.

Lemma lost_step s s' : no_lost_wakeup s -> run_step s s' -> no_lost_wakeup s'.
Proof.
  intros Hn Hs. pose proof Hn as [Hp Ht].
  destruct Hs as [s addr Ho|s n Ho|s i rest n killed p' e woke Hi E|s i n killed p' e l woke Hi E
                 |s writable p' wr ww freed Hall E].
  - split; [done|]. apply Forall_app. split; [done|]. constructor; [|done]. by split.
  - split; [done|]. apply Forall_app. split; [done|]. constructor; [|done]. by split.
  - pose proof (proj1 (Forall_lookup _ _) Ht _ _ Hi) as [Hk _]. simpl in Hk. subst killed.
    destruct (lost_write s i rest n p' e woke Hn Hi E) as (P1 & P2 & P3). split; [done|].
    cbn [pp threads]. destruct e; [by apply Forall_delete|]. apply Forall_insert; [done|]. unfold waits. simpl. tauto.
  - pose proof (proj1 (Forall_lookup _ _) Ht _ _ Hi) as [Hk _]. simpl in Hk. subst killed.
    destruct (lost_read s i n p' e l woke Hn Hi E) as (P1 & P2 & P3). split; [done|].
    cbn [pp threads]. destruct e; [by apply Forall_delete|]. apply Forall_insert; [done|]. unfold waits. simpl. tauto.
  - destruct (close_facts _ _ _ _ _ _ E Hp) as (C1 & _ & C3 & C4). split; [done|]. cbn [pp threads].
    injection E as <- <- <- <-. rewrite list.Forall_forall in Hall, Ht. cbn [negb].
    destruct writable; cbn [negb]; change (wake_if false ?r ?l) with l;
      (eapply waits_wake; [by apply list.Forall_forall| |]);
      intros t Hin; pose proof (Hall t Hin) as Er; destruct (Ht t Hin) as (_ & Ho & _);
      rewrite Er in *; cbn; try done; intros _ Hw; by destruct (Hw eq_refl).
Qed.

(** C28. Without kills no wakeup is lost: in every reachable state a reader
    sleeps only while the pipe is empty and its write end is open, and a
    writer only while the pipe is full and its read end is open. *)
Theorem pipe_no_lost_wakeup page s t :
  (Z.to_nat PIPESIZE <= length page)%nat -> rtc run_step (start page) s ->
  t ∈ threads s -> t_asleep t = true ->
  if is_reader t then queue (pp s) = [] /\ writeopen (pp s) = true
  else Z.of_nat (length (queue (pp s))) = PIPESIZE /\ readopen (pp s) = true.
Proof.
  intros Hpage Hr Hin Ha. assert (Hn : no_lost_wakeup s).
  { assert (H0 : no_lost_wakeup (start page)) by (split; [by apply init_ok|constructor]).
    revert H0. clear -Hr. induction Hr; [done|]. eauto using lost_step. }
  destruct Hn as [Hp Ht]. rewrite list.Forall_forall in Ht. destruct (Ht t Hin) as (_ & _ & Hs).
  specialize (Hs Ha). destruct (is_reader t); destruct Hs; split; try done.
  - by apply queue_nil.
  - by apply queue_full.
Qed.

(** A reader goes to sleep on an empty pipe; a writer of 513 bytes is killed
    and then runs. *)
Definition page0 : list Z := replicate 512 0.

Lemma sleeping_reader : rtc run_step (start page0)
  {| pp := pipealloc_init page0; put_in := []; taken := [];
     threads := [{| t_role := Reader 1; t_asleep := true; t_killed := false |}] |}.
Proof.
  eapply rtc_l; [by apply (st_call_read _ 1)|].
  eapply rtc_l; [by apply (st_read _ 0 1 false (pipealloc_init page0) (Sleeps 1%nat) [] false)|]. apply rtc_refl.
Qed.

(** A killed writer can strand a reader: [pipewrite] returns -1 from a
    full pipe without waking the readers, so that a reader sleeps on although
    the pipe holds bytes for it. *)
Theorem killed_writer_strands_reader :
  exists s t, rtc any_step (start page0) s /\ t ∈ threads s /\
    is_reader t = true /\ t_asleep t = true /\ t_killed t = false /\
    Z.of_nat (length (queue (pp s))) = PIPESIZE /\ writeopen (pp s) = true.
Proof.
  set (rd := {| t_role := Reader 1; t_asleep := true; t_killed := false |}).
  set (p' := (pipewrite true (pipealloc_init page0) (replicate 513 7) 513).1.1).
  exists {| pp := p'; threads := [rd]; put_in := replicate 512 7; taken := [] |}, rd.
  split; [|split; [constructor|split_and!; vm_compute; reflexivity]].
  assert (Hsub : forall x y, rtc run_step x y -> rtc any_step x y).
  { intros x y. apply rtc_subrel. intros a b. by left. }
  etransitivity; [apply Hsub, sleeping_reader|].
  eapply rtc_l; [left; by apply (st_call_write _ (replicate 513 7))|].
  eapply rtc_l; [right; by apply (st_kill _ 1)|].
  eapply rtc_l; [left; apply (st_write _ 1 (replicate 513 7) 513 true p' (Returns (-1)) false);
    [done|vm_compute; reflexivity]|].
  replace (take _ _) with (replicate 512 7) by (vm_compute; reflexivity). apply rtc_refl.
Qed.

Lemma pipe_fifo_witness :
  let s := {| pp := pipealloc_init page0; put_in := []; taken := [];
              threads := [{| t_role := Reader 1; t_asleep := true; t_killed := false |}] |} in
  put_in s = taken s ++ queue (pp s) /\ Z.of_nat (length (queue (pp s))) <= PIPESIZE.
Proof.
  apply (pipe_fifo page0); [vm_compute; lia|]. eapply rtc_subrel; [|exact sleeping_reader].
  intros a b. by left.
Defined.

Lemma pipe_no_lost_wakeup_witness :
  queue (pipealloc_init page0) = [] /\ writeopen (pipealloc_init page0) = true.
Proof.
  apply (pipe_no_lost_wakeup page0 _ {| t_role := Reader 1; t_asleep := true; t_killed := false |}
    ltac:(vm_compute; lia) sleeping_reader); [set_solver|done].
Defined.
