(* ===== verification/Ptable.v ===== *)
(** * The process table ([kernel/proc.c], with the credentials of [proc.h])

    The state of the kernel that [proc.c], [file.c] and the descriptor calls
    of [sysfile.c] share: the process table, the file table, the reference
    counts of the in-core inodes, and the pipes.  A process is named by its
    slot of [ptable.proc].  Here are the routines that only touch the process
    table; each runs with [ptable.lock] held and is one step.

    [sched] is where a process gives up the processor: a routine that calls
    it stops there, with the state it leaves, and the scheduler's choice is a
    step of its own. *)

From S2P Require Import Prelude CStr Pipe.

Definition NPROC : nat := 64.
Definition NOFILE : nat := 16.
Definition NFILE : nat := 100.
Definition NGIDS : nat := 32.

Inductive procstate : Type := UNUSED | EMBRYO | SLEEPING | RUNNABLE | RUNNING | ZOMBIE.

#[export] Instance procstate_eq_dec : EqDecision procstate.
Proof. solve_decision. Defined.

(** What a process can sleep on: a process structure (in [wait]), one of the
    two counters of a pipe, or another address. *)
Inductive chan : Type :=
  | ChProc (p : nat)
  | ChPipe (id : nat) (nread : bool)
  | ChAddr (a : Z).

#[export] Instance chan_eq_dec : EqDecision chan.
Proof. solve_decision. Defined.

Record proc : Type := {
  p_state : procstate;
  p_pid : Z;
  p_parent : option nat;
  p_chan : option chan;
  p_killed : bool;
  p_ofile : list (option nat);
  p_cwd : option nat;
  p_name : list Z;
  p_uid : Z;
  p_euid : Z;
  p_gids : list Z;
  p_sz : Z;
  p_kstack : bool;          (* whether it has a kernel stack *)
  p_pgdir : bool            (* whether it has a page table *)
}.

Inductive ftype : Type := FD_NONE | FD_PIPE | FD_INODE.

Record file : Type := {
  f_type : ftype;
  f_ref : Z;
  f_readable : bool;
  f_writable : bool;
  f_pipe : option nat;
  f_ip : option nat;
  f_off : Z
}.

Record kst : Type := {
  procs : list proc;
  nextpid : Z;
  initproc : option nat;
  files : list file;
  irefs : list Z;
  pipes : gmap nat pipe
}.

(** ** Access to the fields *)

Definition with_procs (s : kst) (l : list proc) : kst :=
  {| procs := l; nextpid := nextpid s; initproc := initproc s; files := files s;
     irefs := irefs s; pipes := pipes s |}.

Definition with_files (s : kst) (l : list file) : kst :=
  {| procs := procs s; nextpid := nextpid s; initproc := initproc s; files := l;
     irefs := irefs s; pipes := pipes s |}.

Definition with_irefs (s : kst) (l : list Z) : kst :=
  {| procs := procs s; nextpid := nextpid s; initproc := initproc s; files := files s;
     irefs := l; pipes := pipes s |}.

Definition with_pipes (s : kst) (l : gmap nat pipe) : kst :=
  {| procs := procs s; nextpid := nextpid s; initproc := initproc s; files := files s;
     irefs := irefs s; pipes := l |}.

Definition getp (i : nat) : M kst proc := fun s => lift (procs s !! i) s.

Definition setp (i : nat) (f : proc -> proc) : M kst unit := fun s =>
  match procs s !! i with
  | Some p => Ret tt (with_procs s (<[i := f p]> (procs s)))
  | None => Stop Undefined s
  end.

Definition set_state (st : procstate) (p : proc) : proc :=
  {| p_state := st; p_pid := p_pid p; p_parent := p_parent p; p_chan := p_chan p;
     p_killed := p_killed p; p_ofile := p_ofile p; p_cwd := p_cwd p; p_name := p_name p;
     p_uid := p_uid p; p_euid := p_euid p; p_gids := p_gids p; p_sz := p_sz p;
     p_kstack := p_kstack p; p_pgdir := p_pgdir p |}.
Definition set_pid (n : Z) (p : proc) : proc :=
  {| p_state := p_state p; p_pid := n; p_parent := p_parent p; p_chan := p_chan p;
     p_killed := p_killed p; p_ofile := p_ofile p; p_cwd := p_cwd p; p_name := p_name p;
     p_uid := p_uid p; p_euid := p_euid p; p_gids := p_gids p; p_sz := p_sz p;
     p_kstack := p_kstack p; p_pgdir := p_pgdir p |}.
Definition set_parent (q : option nat) (p : proc) : proc :=
  {| p_state := p_state p; p_pid := p_pid p; p_parent := q; p_chan := p_chan p;
     p_killed := p_killed p; p_ofile := p_ofile p; p_cwd := p_cwd p; p_name := p_name p;
     p_uid := p_uid p; p_euid := p_euid p; p_gids := p_gids p; p_sz := p_sz p;
     p_kstack := p_kstack p; p_pgdir := p_pgdir p |}.
Definition set_chan (c : option chan) (p : proc) : proc :=
  {| p_state := p_state p; p_pid := p_pid p; p_parent := p_parent p; p_chan := c;
     p_killed := p_killed p; p_ofile := p_ofile p; p_cwd := p_cwd p; p_name := p_name p;
     p_uid := p_uid p; p_euid := p_euid p; p_gids := p_gids p; p_sz := p_sz p;
     p_kstack := p_kstack p; p_pgdir := p_pgdir p |}.
Definition set_killed (b : bool) (p : proc) : proc :=
  {| p_state := p_state p; p_pid := p_pid p; p_parent := p_parent p; p_chan := p_chan p;
     p_killed := b; p_ofile := p_ofile p; p_cwd := p_cwd p; p_name := p_name p;
     p_uid := p_uid p; p_euid := p_euid p; p_gids := p_gids p; p_sz := p_sz p;
     p_kstack := p_kstack p; p_pgdir := p_pgdir p |}.
Definition set_ofile (l : list (option nat)) (p : proc) : proc :=
  {| p_state := p_state p; p_pid := p_pid p; p_parent := p_parent p; p_chan := p_chan p;
     p_killed := p_killed p; p_ofile := l; p_cwd := p_cwd p; p_name := p_name p;
     p_uid := p_uid p; p_euid := p_euid p; p_gids := p_gids p; p_sz := p_sz p;
     p_kstack := p_kstack p; p_pgdir := p_pgdir p |}.
Definition set_cwd (ip : option nat) (p : proc) : proc :=
  {| p_state := p_state p; p_pid := p_pid p; p_parent := p_parent p; p_chan := p_chan p;
     p_killed := p_killed p; p_ofile := p_ofile p; p_cwd := ip; p_name := p_name p;
     p_uid := p_uid p; p_euid := p_euid p; p_gids := p_gids p; p_sz := p_sz p;
     p_kstack := p_kstack p; p_pgdir := p_pgdir p |}.
Definition set_name (n : list Z) (p : proc) : proc :=
  {| p_state := p_state p; p_pid := p_pid p; p_parent := p_parent p; p_chan := p_chan p;
     p_killed := p_killed p; p_ofile := p_ofile p; p_cwd := p_cwd p; p_name := n;
     p_uid := p_uid p; p_euid := p_euid p; p_gids := p_gids p; p_sz := p_sz p;
     p_kstack := p_kstack p; p_pgdir := p_pgdir p |}.
Definition set_ids (uid euid : Z) (p : proc) : proc :=
  {| p_state := p_state p; p_pid := p_pid p; p_parent := p_parent p; p_chan := p_chan p;
     p_killed := p_killed p; p_ofile := p_ofile p; p_cwd := p_cwd p; p_name := p_name p;
     p_uid := uid; p_euid := euid; p_gids := p_gids p; p_sz := p_sz p;
     p_kstack := p_kstack p; p_pgdir := p_pgdir p |}.
Definition set_gids (l : list Z) (p : proc) : proc :=
  {| p_state := p_state p; p_pid := p_pid p; p_parent := p_parent p; p_chan := p_chan p;
     p_killed := p_killed p; p_ofile := p_ofile p; p_cwd := p_cwd p; p_name := p_name p;
     p_uid := p_uid p; p_euid := p_euid p; p_gids := l; p_sz := p_sz p;
     p_kstack := p_kstack p; p_pgdir := p_pgdir p |}.
Definition set_mem (sz : Z) (kstack pgdir : bool) (p : proc) : proc :=
  {| p_state := p_state p; p_pid := p_pid p; p_parent := p_parent p; p_chan := p_chan p;
     p_killed := p_killed p; p_ofile := p_ofile p; p_cwd := p_cwd p; p_name := p_name p;
     p_uid := p_uid p; p_euid := p_euid p; p_gids := p_gids p; p_sz := sz;
     p_kstack := kstack; p_pgdir := pgdir |}.

Definition in_state (st : procstate) (p : proc) : bool := bool_decide (p_state p = st).

(** The first slot from [i] on that satisfies the test. *)
Fixpoint first_slot (test : proc -> bool) (l : list proc) (i : nat) : option nat :=
  match l with
  | [] => None
  | p :: r => if test p then Some i else first_slot test r (S i)
  end.

(** ** The routines *)

(** [kstack_ok] is whether [kalloc] has a page for the kernel stack.  The trap
    frame and the context are set up on that page. *)
Definition allocproc (kstack_ok : bool) : M kst (option nat) :=
  let! l := gets procs in
  match first_slot (in_state UNUSED) l 0 with
  | None => ret None
  | Some i =>
      let! pid := gets nextpid in
      setp i (fun p => set_pid pid (set_state EMBRYO p)) then!
      modify (fun s => {| procs := procs s; nextpid := s32 (nextpid s + 1); initproc := initproc s;
                          files := files s; irefs := irefs s; pipes := pipes s |}) then!
      if kstack_ok then
        setp i (fun p => set_mem (p_sz p) true (p_pgdir p) p) then! ret (Some i)
      else
        setp i (fun p => set_state UNUSED (set_mem (p_sz p) false (p_pgdir p) p)) then! ret None
  end.

Definition wake_on (c : chan) (p : proc) : proc :=
  if in_state SLEEPING p && bool_decide (p_chan p = Some c) then set_state RUNNABLE p else p.

Definition wakeup1 (c : chan) : M kst unit :=
  modify (fun s => with_procs s (wake_on c <$> procs s)).

(** One pass of [wait] over the table: whether [cur] has children, and its
    first zombie child. *)
Fixpoint wait_scan (cur : nat) (l : list proc) (i : nat) (havekids : bool) : bool * option nat :=
  match l with
  | [] => (havekids, None)
  | p :: r =>
      if bool_decide (p_parent p = Some cur) then
        if in_state ZOMBIE p then (true, Some i) else wait_scan cur r (S i) true
      else wait_scan cur r (S i) havekids
  end.

(** The fields [wait] resets. *)
Definition reap (p : proc) : proc :=
  set_state UNUSED (set_killed false (set_name (<[0%nat := 0]> (p_name p)) (set_parent None
    (set_pid 0 (set_mem (p_sz p) false false p))))).

Definition sleep (cur : nat) (c : chan) : M kst unit :=
  setp cur (fun p => set_state SLEEPING (set_chan (Some c) p)).

(** The loop of [wait] until it returns or sleeps, which is [None]. *)
Definition wait (cur : nat) : M kst (option Z) :=
  let! l := gets procs in
  let! me := getp cur in
  match wait_scan cur l 0 false with
  | (_, Some i) =>
      let! p := getp i in
      setp i reap then!
      ret (Some (p_pid p))
  | (havekids, None) =>
      if negb havekids || p_killed me then ret (Some (-1))
      else sleep cur (ChProc cur) then! ret None
  end.

(** The scheduler starts a runnable process, which continues after the
    [sched] it stopped in; [sleep] then resets [chan]. *)
Definition schedule (i : nat) : M kst unit :=
  let! p := getp i in
  if in_state RUNNABLE p then
    setp i (set_state RUNNING) then!
    setp i (set_chan None)
  else halt Undefined.

Definition yield (cur : nat) : M kst unit := setp cur (set_state RUNNABLE).

Definition kill (pid : Z) : M kst Z :=
  let! l := gets procs in
  match first_slot (fun p => p_pid p =? pid) l 0 with
  | Some i =>
      setp i (set_killed true) then!
      setp i (fun p => if in_state SLEEPING p then set_state RUNNABLE p else p) then!
      ret 0
  | None => ret (-1)
  end.

(** ** Credentials ([kernel/sysfile.c]) *)

Definition sys_getuid (cur : nat) : M kst Z := let! p := getp cur in ret (p_uid p).
Definition sys_geteuid (cur : nat) : M kst Z := let! p := getp cur in ret (p_euid p).

(** The argument is [None] when [argint] cannot fetch it, and [uid] is then
    not initialised; the call ends without a return statement when it
    succeeds, and [r] is the value it happens to return. *)
Definition sys_setuid (cur : nat) (arg : option Z) (r : Z) : M kst Z :=
  let! p := getp cur in
  if negb (p_uid p =? 0) then ret (-1)
  else
    let! uid := lift arg in
    setp cur (set_ids uid uid) then!
    ret r.

(** [rgids] are the words at the user's pointer, of which [argptr] has checked
    that two are there; storing past [gids] is undefined. *)
Fixpoint setgroups_loop (n : nat) (i : nat) (rgids : list Z) (gids : list Z) : option (list Z) :=
  match n with
  | O => Some gids
  | S n' =>
      match rgids !! i, store gids i (default 0 (rgids !! i)) with
      | Some _, Some gids' => setgroups_loop n' (S i) rgids gids'
      | _, _ => None
      end
  end.

Definition sys_setgroups (cur : nat) (ngroups : option Z) (rgids : option (list Z)) : M kst Z :=
  let! p := getp cur in
  if negb (p_uid p =? 0) then ret (-1)
  else
    match ngroups, rgids with
    | Some n, Some l =>
        let! g := lift (setgroups_loop (Z.to_nat n) 0 l (p_gids p)) in
        let k := Z.to_nat n in
        setp cur (set_gids (take k g ++ replicate (NGIDS - k) (-1))) then!
        ret 0
    | _, _ => ret (-1)
    end.
