(* ===== verification/File.v ===== *)
(** * Open files ([kernel/file.c], [pipealloc] of [kernel/pipe.c], and the
    descriptor calls of [kernel/sysfile.c])

    The file table and its reference counts.  Of the in-core inodes only the
    reference counts matter here; what [iput] does when it drops the last one
    is the file system's. *)

From S2P Require Import Prelude CStr Pipe Ptable.

Definition set_ref (n : Z) (f : file) : file :=
  {| f_type := f_type f; f_ref := n; f_readable := f_readable f; f_writable := f_writable f;
     f_pipe := f_pipe f; f_ip := f_ip f; f_off := f_off f |}.

Definition set_type (t : ftype) (f : file) : file :=
  {| f_type := t; f_ref := f_ref f; f_readable := f_readable f; f_writable := f_writable f;
     f_pipe := f_pipe f; f_ip := f_ip f; f_off := f_off f |}.

Definition pipe_end (id : nat) (writable : bool) (f : file) : file :=
  {| f_type := FD_PIPE; f_ref := f_ref f; f_readable := negb writable; f_writable := writable;
     f_pipe := Some id; f_ip := f_ip f; f_off := f_off f |}.

Definition getf (i : nat) : M kst file := fun s => lift (files s !! i) s.

Definition setf (i : nat) (g : file -> file) : M kst unit := fun s =>
  match files s !! i with
  | Some f => Ret tt (with_files s (<[i := g f]> (files s)))
  | None => Stop Undefined s
  end.

Fixpoint first_free (l : list file) (i : nat) : option nat :=
  match l with
  | [] => None
  | f :: r => if f_ref f =? 0 then Some i else first_free r (S i)
  end.

Definition filealloc : M kst (option nat) :=
  let! l := gets files in
  match first_free l 0 with
  | Some i => setf i (set_ref 1) then! ret (Some i)
  | None => ret None
  end.

Definition filedup (i : nat) : M kst unit :=
  let! f := getf i in
  if f_ref f <? 1 then halt (Panicked "filedup")
  else setf i (set_ref (f_ref f + 1)).

Definition add_iref (ip : nat) (d : Z) : M kst unit := fun s =>
  match irefs s !! ip with
  | Some n => Ret tt (with_irefs s (<[ip := n + d]> (irefs s)))
  | None => Stop Undefined s
  end.

Definition idup (ip : nat) : M kst unit := add_iref ip 1.
Definition iput (ip : nat) : M kst unit := add_iref ip (-1).

(** [pipeclose] on the table of pipes, with its wakeups. *)
Definition close_pipe (id : nat) (writable : bool) : M kst unit := fun s =>
  match pipes s !! id with
  | None => Stop Undefined s
  | Some p =>
      let '(p', wr, ww, freed) := pipeclose p writable in
      wakeup1 (ChPipe id writable)
        (with_pipes s (if freed then delete id (pipes s) else <[id := p']> (pipes s)))
  end.

Definition fileclose (i : nat) : M kst unit :=
  let! f := getf i in
  if f_ref f <? 1 then halt (Panicked "fileclose")
  else if 0 <? f_ref f - 1 then setf i (set_ref (f_ref f - 1))
  else
    setf i (fun f => set_type FD_NONE (set_ref 0 f)) then!
    match f_type f with
    | FD_PIPE => let! id := lift (f_pipe f) in close_pipe id (f_writable f)
    | FD_INODE => let! ip := lift (f_ip f) in iput ip
    | FD_NONE => ret tt
    end.

(** [page] is the page [kalloc] returns, or [None]. *)
Definition pipealloc (page : option (list Z)) : M kst (option (nat * nat)) :=
  let! f0 := filealloc in
  match f0 with
  | None => ret None
  | Some f0 =>
      let! f1 := filealloc in
      match f1, page with
      | Some f1, Some page =>
          let! ps := gets pipes in
          let id := fresh (dom ps) in
          modify (fun s => with_pipes s (<[id := pipealloc_init page]> (pipes s))) then!
          setf f0 (pipe_end id false) then!
          setf f1 (pipe_end id true) then!
          ret (Some (f0, f1))
      | Some f1, None => fileclose f0 then! fileclose f1 then! ret None
      | None, _ => fileclose f0 then! ret None
      end
  end.

(** ** Descriptors *)

Definition argfd (cur : nat) (fd : Z) : M kst (option nat) :=
  if (fd <? 0) || (Z.of_nat NOFILE <=? fd) then ret None
  else let! p := getp cur in lift (p_ofile p !! Z.to_nat fd).

Fixpoint first_fd (l : list (option nat)) (i : nat) : option nat :=
  match l with
  | [] => None
  | None :: _ => Some i
  | Some _ :: r => first_fd r (S i)
  end.

Definition fdalloc (cur : nat) (f : nat) : M kst Z :=
  let! p := getp cur in
  match first_fd (p_ofile p) 0 with
  | Some fd =>
      setp cur (fun p => set_ofile (<[fd := Some f]> (p_ofile p)) p) then!
      ret (Z.of_nat fd)
  | None => ret (-1)
  end.

(** [myproc()->ofile[fd] = 0] *)
Definition clear_fd (cur : nat) (fd : Z) : M kst unit :=
  setp cur (fun p => set_ofile (<[Z.to_nat fd := None]> (p_ofile p)) p).

Definition sys_dup (cur : nat) (fd : Z) : M kst Z :=
  let! f := argfd cur fd in
  match f with
  | None => ret (-1)
  | Some f =>
      let! fd' := fdalloc cur f in
      if fd' <? 0 then ret (-1)
      else filedup f then! ret fd'
  end.

Definition sys_close (cur : nat) (fd : Z) : M kst Z :=
  let! f := argfd cur fd in
  match f with
  | None => ret (-1)
  | Some f =>
      clear_fd cur fd then!
      fileclose f then!
      ret 0
  end.

(** The two descriptors are stored at the user's pointer, which [argptr] has
    checked when [ptr_ok]. *)
Definition sys_pipe (cur : nat) (ptr_ok : bool) (page : option (list Z)) : M kst (Z * option (Z * Z)) :=
  if negb ptr_ok then ret (-1, None)
  else
    let! r := pipealloc page in
    match r with
    | None => ret (-1, None)
    | Some (rf, wf) =>
        let! fd0 := fdalloc cur rf in
        let! fd1 := if fd0 <? 0 then ret (-1) else fdalloc cur wf in
        if (fd0 <? 0) || (fd1 <? 0) then
          (if 0 <=? fd0 then clear_fd cur fd0 else ret tt) then!
          fileclose rf then!
          fileclose wf then!
          ret (-1, None)
        else ret (0, Some (fd0, fd1))
    end.
