(* ===== verification/Proc.v ===== *)
(** * Creating and ending processes ([fork], [exit] and [userinit] of
    [kernel/proc.c])

    These use the file table as well as the process table.  The theorems are
    about sequences of the kernel's operations from boot: reference counts,
    the tree of processes, [wait] and [exit], and the credentials.  [fork] and
    [exit] are one operation each; the steps of the processors inside them,
    from one lock to the next, are in [Sched]. *)

From S2P Require Import Prelude CStr Pipe Ptable File.

(** [np->ofile[i] = filedup(curproc->ofile[i])] for the open descriptors, from
    descriptor [i] on. *)
Fixpoint dup_files (np : nat) (l : list (option nat)) (i : nat) : M kst unit :=
  match l with
  | [] => ret tt
  | None :: r => dup_files np r (S i)
  | Some f :: r =>
      filedup f then!
      setp np (fun p => set_ofile (<[i := Some f]> (p_ofile p)) p) then!
      dup_files np r (S i)
  end.

(** [kstack_ok] and [copy_ok] are whether [kalloc] and [copyuvm] succeed. *)
Definition fork (cur : nat) (kstack_ok copy_ok : bool) : M kst Z :=
  let! r := allocproc kstack_ok in
  match r with
  | None => ret (-1)
  | Some np =>
      if copy_ok then
        let! me := getp cur in
        setp np (fun p => set_parent (Some cur) (set_mem (p_sz me) (p_kstack p) true p)) then!
        dup_files np (p_ofile me) 0 then!
        (match p_cwd me with Some ip => idup ip | None => halt Undefined end) then!
        setp np (set_cwd (p_cwd me)) then!
        let! p := getp np in
        let! nm := lift (safestrcpy (p_name p) 0 (p_name me) 16) in
        setp np (set_name nm) then!
        let! p := getp np in
        setp np (set_state RUNNABLE) then!
        ret (p_pid p)
      else
        setp np (fun p => set_state UNUSED (set_mem (p_sz p) false false p)) then!
        ret (-1)
  end.

(** The loop that closes the files of a process, from descriptor [fd] on. *)
Fixpoint close_files (cur : nat) (n fd : nat) : M kst unit :=
  match n with
  | O => ret tt
  | S n' =>
      let! p := getp cur in
      let! f := lift (p_ofile p !! fd) in
      (match f with
       | Some f => fileclose f then! setp cur (fun p => set_ofile (<[fd := None]> (p_ofile p)) p)
       | None => ret tt
       end) then!
      close_files cur n' (S fd)
  end.

(** The loop of [exit] over the table, from slot [i] on: the children of [cur]
    get [init] as their parent, and [init] is woken for each that is a
    zombie. *)
Fixpoint pass_children (cur : nat) (n i : nat) : M kst unit :=
  match n with
  | O => ret tt
  | S n' =>
      let! p := getp i in
      (if bool_decide (p_parent p = Some cur) then
         let! init := gets initproc in
         setp i (set_parent init) then!
         let! p := getp i in
         if in_state ZOMBIE p
         then match init with Some q => wakeup1 (ChProc q) | None => ret tt end
         else ret tt
       else ret tt) then!
      pass_children cur n' (S i)
  end.

(** [exit] up to its [sched], where the process stops for good. *)
Definition exit (cur : nat) : M kst unit :=
  let! init := gets initproc in
  if bool_decide (init = Some cur) then halt (Panicked "init exiting")
  else
    close_files cur NOFILE 0 then!
    let! p := getp cur in
    (match p_cwd p with Some ip => iput ip | None => halt Undefined end) then!
    setp cur (set_cwd None) then!
    (match p_parent p with Some q => wakeup1 (ChProc q) | None => ret tt end) then!
    pass_children cur NPROC 0 then!
    setp cur (set_state ZOMBIE).

(** [root] is the inode [namei] finds for "/", with a reference. *)
Definition userinit (kstack_ok pgdir_ok : bool) (root : nat) : M kst unit :=
  let! r := allocproc kstack_ok in
  match r with
  | None => halt Undefined
  | Some i =>
      modify (fun s => {| procs := procs s; nextpid := nextpid s; initproc := Some i;
                          files := files s; irefs := irefs s; pipes := pipes s |}) then!
      if negb pgdir_ok then halt (Panicked "userinit: out of memory?")
      else
        let! p := getp i in
        let! nm := lift (safestrcpy (p_name p) 0 (chars "initcode" ++ [0]) 16) in
        setp i (fun p => set_name nm (set_mem 4096 (p_kstack p) true p)) then!
        idup root then!
        setp i (set_cwd (Some root)) then!
        setp i (set_state RUNNABLE)
  end.

(** ** Loops as maps over the table *)

Lemma getp_bind {A} s i p (f : proc -> M kst A) : procs s !! i = Some p -> bind (getp i) f s = f p s.
Proof. unfold bind, getp. by intros ->. Qed.

Lemma setp_bind {A} s i p g (k : unit -> M kst A) : procs s !! i = Some p ->
  bind (setp i g) k s = k tt (with_procs s (<[i := g p]> (procs s))).
Proof. unfold bind, setp. by intros ->. Qed.

Lemma setp_eq s i p g : procs s !! i = Some p ->
  setp i g s = Ret tt (with_procs s (<[i := g p]> (procs s))).
Proof. unfold setp. by intros ->. Qed.

Definition reparent (cur : nat) (init : option nat) (p : proc) : proc :=
  if bool_decide (p_parent p = Some cur) then set_parent init p else p.

Definition orphan_zombie (cur : nat) (p : proc) : bool :=
  bool_decide (p_parent p = Some cur) && in_state ZOMBIE p.

Definition wake_init (b : bool) (init : option nat) (p : proc) : proc :=
  match init with Some q => if b then wake_on (ChProc q) p else p | None => p end.

Lemma wake_on_parent c p : p_parent (wake_on c p) = p_parent p.
Proof. unfold wake_on. by destruct (_ && _). Qed.

Lemma wake_on_zombie c p : in_state ZOMBIE (wake_on c p) = in_state ZOMBIE p.
Proof.
  unfold wake_on. destruct (_ && _) eqn:E; [|done]. apply andb_true_iff in E as [E _].
  unfold in_state in *. apply bool_decide_eq_true in E. simpl. by rewrite E.
Qed.

Lemma wake_on_twice c p : wake_on c (wake_on c p) = wake_on c p.
Proof.
  unfold wake_on at 2 3. destruct (in_state SLEEPING p && bool_decide (p_chan p = Some c)) eqn:E;
    [reflexivity|]. unfold wake_on. by rewrite E.
Qed.

Lemma wake_reparent c cur init p : reparent cur init (wake_on c p) = wake_on c (reparent cur init p).
Proof.
  unfold reparent. rewrite wake_on_parent. case_bool_decide; [|done].
  unfold wake_on. simpl. unfold in_state. simpl. by destruct (_ && _).
Qed.

Lemma wake_init_twice a b init p :
  wake_init a init (wake_init b init p) = wake_init (a || b) init p.
Proof. destruct init as [q|], a, b; simpl; rewrite ?wake_on_twice; done. Qed.

Lemma wake_init_reparent b init cur p :
  reparent cur init (wake_init b init p) = wake_init b init (reparent cur init p).
Proof. destruct init, b; simpl; rewrite ?wake_reparent; done. Qed.

Lemma orphan_wake_init cur b init p : orphan_zombie cur (wake_init b init p) = orphan_zombie cur p.
Proof.
  unfold orphan_zombie. destruct init, b; simpl; rewrite ?wake_on_parent, ?wake_on_zombie; done.
Qed.

Lemma with_procs_id s : with_procs s (procs s) = s.
Proof. by destruct s. Qed.

Lemma wake_init_false init (l : list proc) : wake_init false init <$> l = l.
Proof. rewrite <- (list_fmap_id l) at 2. apply list_fmap_ext. intros. by destruct init. Qed.

(** One iteration of the loop of [exit]. *)
Lemma pass_child cur l1 p l2 s (k : M kst unit) :
  procs s = l1 ++ p :: l2 ->
  let init := initproc s in
  bind (if bool_decide (p_parent p = Some cur) then
          let! init := gets initproc in
          setp (length l1) (set_parent init) then!
          let! p := getp (length l1) in
          if in_state ZOMBIE p
          then match init with Some q => wakeup1 (ChProc q) | None => ret tt end
          else ret tt
        else ret tt) (fun _ => k) s
  = k (with_procs s (wake_init (orphan_zombie cur p) init <$> (l1 ++ reparent cur init p :: l2))).
Proof.
  intros Hs init. unfold orphan_zombie, reparent.
  destruct (bool_decide (p_parent p = Some cur)) eqn:Epar; simpl.
  - rewrite !bind_assoc, bind_gets. fold init.
    assert (Hins : <[length l1 := set_parent init p]> (procs s) = l1 ++ set_parent init p :: l2).
    { rewrite Hs, insert_app_r_alt by lia. by rewrite Nat.sub_diag. }
    rewrite bind_assoc, (setp_bind _ _ p) by (rewrite Hs; apply lookup_mid). rewrite Hins.
    rewrite bind_assoc, (getp_bind _ _ (set_parent init p)) by apply lookup_mid.
    change (in_state ZOMBIE (set_parent init p)) with (in_state ZOMBIE p).
    destruct (in_state ZOMBIE p); [|by rewrite wake_init_false].
    destruct init as [q|]; [done|]. unfold bind, ret. do 2 f_equal.
    rewrite <- (list_fmap_id (l1 ++ _)) at 1. by apply list_fmap_ext.
  - rewrite wake_init_false, <- Hs, with_procs_id. done.
Qed.

Lemma existsb_fmap {A} (f : A -> A) (g : A -> bool) (l : list A) :
  (forall x, g (f x) = g x) -> existsb g (f <$> l) = existsb g l.
Proof. intros H. induction l as [|x l IH]; [done|]. cbn. f_equal; [apply H|apply IH]. Qed.

Lemma pass_children_map cur n l1 l2 s :
  length l2 = n -> procs s = l1 ++ l2 ->
  let b := existsb (orphan_zombie cur) l2 in
  let init := initproc s in
  pass_children cur n (length l1) s =
  Ret tt (with_procs s (wake_init b init <$> (l1 ++ (reparent cur init <$> l2)))).
Proof.
  revert l1 l2 s. induction n as [|n IH]; intros l1 l2 s Hn Hs b init.
  { apply nil_length_inv in Hn as ->. simpl. unfold b. rewrite app_nil_r in *. simpl existsb.
    rewrite wake_init_false, <- Hs. by rewrite with_procs_id. }
  destruct l2 as [|p l2]; [done|]. injection Hn as Hn. cbn [pass_children].
  rewrite (getp_bind _ _ p), (pass_child cur l1 p l2) by (rewrite ?Hs; done || apply lookup_mid).
  fold init. set (z := orphan_zombie cur p). set (s1 := with_procs s _).
  replace (S (length l1)) with (length (wake_init z init <$> l1 ++ [reparent cur init p]))
    by (rewrite length_fmap, length_app; simpl; lia).
  rewrite (IH _ (wake_init z init <$> l2)).
  - rewrite existsb_fmap by (intros; apply orphan_wake_init). unfold s1. cbn [initproc with_procs].
    fold init. unfold ret. f_equal. unfold with_procs at 1. cbn. unfold b. cbn [existsb].
    unfold with_procs. f_equal. rewrite !fmap_app, <- !list_fmap_compose. simpl.
    rewrite <- app_assoc. fold z. f_equal; [|simpl; f_equal].
    + apply list_fmap_ext. intros i x _. simpl. by rewrite wake_init_twice, orb_comm.
    + by rewrite wake_init_twice, orb_comm.
    + rewrite <- !list_fmap_compose. apply list_fmap_ext. intros i x _. simpl.
      by rewrite wake_init_reparent, wake_init_twice, orb_comm.
  - by rewrite length_fmap.
  - unfold s1. simpl. rewrite <- fmap_app, <- app_assoc. done.
Qed.

(** ** Operations that leave the process tree alone *)

(** The process may only have been woken; its files may have changed. *)
Definition calm (p p' : proc) : Prop :=
  p_pid p' = p_pid p /\ p_parent p' = p_parent p /\ p_chan p' = p_chan p /\
  p_killed p' = p_killed p /\ p_uid p' = p_uid p /\ p_euid p' = p_euid p /\ p_gids p' = p_gids p /\
  (p_state p' = p_state p \/ p_state p = SLEEPING /\ p_state p' = RUNNABLE).

Definition quiet {A} (m : M kst A) : Prop := forall s a s', m s = Ret a s' ->
  Forall2 calm (procs s) (procs s') /\ nextpid s' = nextpid s /\ initproc s' = initproc s.

Lemma calm_refl p : calm p p.
Proof. by repeat split; left. Qed.

Lemma calm_trans p q r : calm p q -> calm q r -> calm p r.
Proof.
  intros (H1 & H2 & H3 & H4 & H5 & H6 & H7 & H8) (G1 & G2 & G3 & G4 & G5 & G6 & G7 & G8).
  repeat split; try congruence.
  destruct H8 as [E|[E E']], G8 as [F|[F F']]; try (left; congruence); right; split; congruence.
Qed.

Lemma calm_refl_list l : Forall2 calm l l.
Proof. apply Forall_Forall2_diag, Forall_true. intros. apply calm_refl. Qed.

Lemma calm_trans_list l1 l2 l3 : Forall2 calm l1 l2 -> Forall2 calm l2 l3 -> Forall2 calm l1 l3.
Proof.
  intros H1. revert l3. induction H1; inversion 1; subst; constructor; eauto using calm_trans.
Qed.

Lemma quiet_same {A} (m : M kst A) :
  (forall s a s', m s = Ret a s' -> procs s' = procs s /\ nextpid s' = nextpid s /\ initproc s' = initproc s) ->
  quiet m.
Proof. intros H s a s' E. destruct (H s a s' E) as (-> & -> & ->). split; [apply calm_refl_list|done]. Qed.

Lemma quiet_ret {A} (a : A) : quiet (ret a).
Proof. apply quiet_same. by intros s b s' [= <- <-]. Qed.

Lemma quiet_gets {A} (f : kst -> A) : quiet (gets f).
Proof. apply quiet_same. by intros s b s' [= <- <-]. Qed.

Lemma quiet_halt {A} r : quiet (halt (A := A) r).
Proof. by intros s a s'. Qed.

Lemma quiet_lift {A} (o : option A) : quiet (lift o).
Proof. destruct o; [apply quiet_ret|apply quiet_halt]. Qed.

Lemma quiet_getp i : quiet (getp i).
Proof. intros s a s' E. unfold getp in E. by eapply quiet_lift. Qed.

Lemma quiet_getf i : quiet (getf i).
Proof. intros s a s' E. unfold getf in E. by eapply quiet_lift. Qed.

Lemma quiet_bind {A B} (m : M kst A) (f : A -> M kst B) :
  quiet m -> (forall a, quiet (f a)) -> quiet (bind m f).
Proof.
  intros Hm Hf s b s' E. unfold bind in E. destruct (m s) as [a s1|] eqn:E1; [|done].
  destruct (Hm _ _ _ E1) as (C1 & N1 & I1), (Hf _ _ _ _ E) as (C2 & N2 & I2).
  split; [by eapply calm_trans_list|]. split; congruence.
Qed.

Lemma quiet_setf i g : quiet (setf i g).
Proof.
  apply quiet_same. intros s a s' E. unfold setf in E. destruct (files s !! i); [|done].
  by injection E as _ <-.
Qed.

Lemma quiet_add_iref i d : quiet (add_iref i d).
Proof.
  apply quiet_same. intros s a s' E. unfold add_iref in E. destruct (irefs s !! i); [|done].
  by injection E as _ <-.
Qed.

Lemma quiet_setp i f : (forall p, calm p (f p)) -> quiet (setp i f).
Proof.
  intros Hf s a s' E. unfold setp in E. destruct (procs s !! i) as [p|] eqn:Hp; [|done].
  injection E as _ <-. split; [|done]. simpl.
  apply Forall2_same_length_lookup_2; [by rewrite length_insert|]. intros j x y Hx Hy.
  apply list_lookup_insert_Some in Hy as [(<- & <- & _)|[_ Hy]]; simplify_eq; [apply Hf|apply calm_refl].
Qed.

Lemma wake_calm c p : calm p (wake_on c p).
Proof.
  unfold wake_on. destruct (_ && _) eqn:E; [|apply calm_refl].
  apply andb_true_iff in E as [E _]. apply bool_decide_eq_true in E. repeat split. by right.
Qed.

Lemma quiet_wakeup1 c : quiet (wakeup1 c).
Proof.
  intros s a s' [= _ <-]. split; [|done]. simpl. apply Forall2_fmap_r, Forall_Forall2_diag, Forall_true.
  intros p. apply wake_calm.
Qed.

Lemma quiet_fileclose i : quiet (fileclose i).
Proof.
  unfold fileclose. apply quiet_bind; [apply quiet_getf|]. intros f.
  destruct (f_ref f <? 1); [apply quiet_halt|]. destruct (0 <? f_ref f - 1); [apply quiet_setf|].
  apply quiet_bind; [apply quiet_setf|]. intros _.
  destruct (f_type f); [apply quiet_ret| |].
  - apply quiet_bind; [apply quiet_lift|]. intros id s a s' E. unfold close_pipe in E.
    destruct (pipes s !! id) as [p|]; [|done]. destruct (pipeclose p (f_writable f)) as [[[p' wr] ww] fr].
    by apply quiet_wakeup1 in E.
  - apply quiet_bind; [apply quiet_lift|]. intros ip. apply quiet_add_iref.
Qed.

Lemma quiet_filedup i : quiet (filedup i).
Proof.
  unfold filedup. apply quiet_bind; [apply quiet_getf|]. intros f.
  destruct (_ <? _); [apply quiet_halt|apply quiet_setf].
Qed.

Lemma quiet_ofile i g : quiet (setp i (fun p => set_ofile (g p) p)).
Proof. apply quiet_setp. intros p. by repeat split; left. Qed.

Lemma quiet_cwd i c : quiet (setp i (set_cwd c)).
Proof. apply quiet_setp. intros p. by repeat split; left. Qed.

Lemma quiet_name i nm : quiet (setp i (set_name nm)).
Proof. apply quiet_setp. intros p. by repeat split; left. Qed.

Lemma quiet_dup_files np l i : quiet (dup_files np l i).
Proof.
  revert i. induction l as [|[f|] l IH]; intros i; cbn [dup_files]; [apply quiet_ret| |apply IH].
  apply quiet_bind; [apply quiet_filedup|]. intros _. apply quiet_bind; [apply quiet_ofile|]. auto.
Qed.

Lemma quiet_close_files cur n fd : quiet (close_files cur n fd).
Proof.
  revert fd. induction n as [|n IH]; intros fd; cbn [close_files]; [apply quiet_ret|].
  apply quiet_bind; [apply quiet_getp|]. intros p. apply quiet_bind; [apply quiet_lift|]. intros f.
  apply quiet_bind; [|auto]. destruct f; [|apply quiet_ret].
  apply quiet_bind; [apply quiet_fileclose|]. intros _. apply quiet_ofile.
Qed.

Lemma quiet_fdalloc cur f : quiet (fdalloc cur f).
Proof.
  unfold fdalloc. apply quiet_bind; [apply quiet_getp|]. intros p.
  destruct (first_fd _ _); [|apply quiet_ret]. apply quiet_bind; [apply quiet_ofile|]. intros _. apply quiet_ret.
Qed.

Lemma quiet_argfd cur fd : quiet (argfd cur fd).
Proof.
  unfold argfd. destruct (_ || _); [apply quiet_ret|]. apply quiet_bind; [apply quiet_getp|].
  intros p. apply quiet_lift.
Qed.

Lemma quiet_filealloc : quiet filealloc.
Proof.
  unfold filealloc. apply quiet_bind; [apply quiet_gets|]. intros l. destruct (first_free _ _); [|apply quiet_ret].
  apply quiet_bind; [apply quiet_setf|]. intros _. apply quiet_ret.
Qed.

#[export] Hint Resolve quiet_ret quiet_gets quiet_halt quiet_lift quiet_getp quiet_setf quiet_fileclose
  quiet_filedup quiet_ofile quiet_fdalloc quiet_argfd quiet_filealloc : xv6.

Lemma quiet_sys_dup cur fd : quiet (sys_dup cur fd).
Proof.
  unfold sys_dup. apply quiet_bind; [auto with xv6|]. intros [f|]; [|auto with xv6].
  apply quiet_bind; [auto with xv6|]. intros fd'. destruct (_ <? _); [auto with xv6|].
  apply quiet_bind; auto with xv6.
Qed.

Lemma quiet_sys_close cur fd : quiet (sys_close cur fd).
Proof.
  unfold sys_close, clear_fd. apply quiet_bind; [auto with xv6|]. intros [f|]; [|auto with xv6].
  repeat (apply quiet_bind; [auto with xv6|intros ?]). auto with xv6.
Qed.

Lemma quiet_pipealloc page : quiet (pipealloc page).
Proof.
  unfold pipealloc. apply quiet_bind; [auto with xv6|]. intros [f0|]; [|auto with xv6].
  apply quiet_bind; [auto with xv6|]. intros [f1|]; [|apply quiet_bind; auto with xv6].
  destruct page as [page|]; [|repeat (apply quiet_bind; [auto with xv6|intros ?]); auto with xv6].
  apply quiet_bind; [auto with xv6|]. intros ps. apply quiet_bind.
  - apply quiet_same. by intros s a s' [= _ <-].
  - intros _. repeat (apply quiet_bind; [auto with xv6|intros ?]). auto with xv6.
Qed.

Lemma quiet_sys_pipe cur ok page : quiet (sys_pipe cur ok page).
Proof.
  unfold sys_pipe, clear_fd. destruct ok; cbn [negb]; [|auto with xv6].
  apply quiet_bind; [apply quiet_pipealloc|]. intros [[rf wf]|]; [|auto with xv6].
  apply quiet_bind; [auto with xv6|]. intros fd0. apply quiet_bind.
  - destruct (_ <? _); auto with xv6.
  - intros fd1. destruct (_ || _); [|auto with xv6]. apply quiet_bind.
    + destruct (_ <=? _); auto with xv6.
    + intros _. repeat (apply quiet_bind; [auto with xv6|intros ?]). auto with xv6.
Qed.

Definition calmly (s s' : kst) : Prop :=
  Forall2 calm (procs s) (procs s') /\ nextpid s' = nextpid s /\ initproc s' = initproc s.

Lemma calmly_refl s : calmly s s.
Proof. split; [apply calm_refl_list|done]. Qed.

Lemma calmly_trans s1 s2 s3 : calmly s1 s2 -> calmly s2 s3 -> calmly s1 s3.
Proof.
  intros (C1 & N1 & I1) (C2 & N2 & I2). split; [by eapply calm_trans_list|]. split; congruence.
Qed.

Lemma quiet_inv {A B} (m : M kst A) (f : A -> M kst B) s r s' :
  quiet m -> bind m f s = Ret r s' -> exists a s1, m s = Ret a s1 /\ calmly s s1 /\ f a s1 = Ret r s'.
Proof.
  intros Hm E. unfold bind in E. destruct (m s) as [a s1|] eqn:E1; [|done]. exists a, s1.
  split; [done|]. split; [by eapply Hm|done].
Qed.

Lemma calmly_lookup s s' i p : calmly s s' -> procs s !! i = Some p ->
  exists p', procs s' !! i = Some p' /\ calm p p'.
Proof. intros (C & _) Hi. by apply (Forall2_lookup_l _ _ _ _ _ C). Qed.

Lemma calmly_lookup_r s s' i p' : calmly s s' -> procs s' !! i = Some p' ->
  exists p, procs s !! i = Some p /\ calm p p'.
Proof. intros (C & _) Hi. by apply (Forall2_lookup_r _ _ _ _ _ C). Qed.

(** ** What [allocproc] and [fork] do to the table *)

Lemma first_slot_some test l i k :
  first_slot test l i = Some k ->
  exists j p, k = (i + j)%nat /\ l !! j = Some p /\ test p = true.
Proof.
  revert i. induction l as [|p l IH]; intros i; simpl; [done|].
  destruct (test p) eqn:E.
  - intros [= <-]. exists 0%nat, p. split; [lia|done].
  - intros (j & q & -> & Hj & Hq)%IH. exists (S j), q. split; [lia|done].
Qed.

Lemma first_slot_none test l i p j :
  first_slot test l i = None -> l !! j = Some p -> test p = false.
Proof.
  revert i j. induction l as [|q l IH]; intros i j; simpl; [done|].
  destruct (test q) eqn:E; [done|]. destruct j; simpl; [by intros _ [= ->]|]. apply IH.
Qed.

Lemma in_state_true st p : in_state st p = true <-> p_state p = st.
Proof. apply bool_decide_eq_true. Qed.

(** [np] is a new child of [cur] in the slot of [p0]. *)
Record forked (s s' : kst) (cur np : nat) (p0 p' : proc) : Prop := {
  fk_slot : procs s !! np = Some p0;
  fk_unused : p_state p0 = UNUSED;
  fk_new : procs s' !! np = Some p';
  fk_state : p_state p' = RUNNABLE;
  fk_pid : p_pid p' = nextpid s;
  fk_parent : p_parent p' = Some cur;
  fk_ids : p_uid p' = p_uid p0 /\ p_euid p' = p_euid p0 /\ p_gids p' = p_gids p0;
  fk_killed : p_killed p' = p_killed p0;
  fk_chan : p_chan p' = p_chan p0;
  fk_length : length (procs s') = length (procs s);
  fk_others j p : j <> np -> procs s' !! j = Some p -> exists q, procs s !! j = Some q /\ calm q p;
  fk_next : nextpid s' = s32 (nextpid s + 1);
  fk_init : initproc s' = initproc s
}.

(** A fork that failed: at most a free slot was touched. *)
Record fork_failed (s s' : kst) : Prop := {
  ff_length : length (procs s') = length (procs s);
  ff_others j p : procs s' !! j = Some p -> exists q, procs s !! j = Some q /\
    (p = q \/ p_state p = UNUSED /\ p_state q = UNUSED /\ p_parent p = p_parent q /\
              p_uid p = p_uid q /\ p_euid p = p_euid q);
  ff_next : nextpid s' = nextpid s \/ nextpid s' = s32 (nextpid s + 1);
  ff_init : initproc s' = initproc s
}.

Definition embryo (s : kst) (kstack : bool) (p0 : proc) : proc :=
  set_mem (p_sz p0) kstack (p_pgdir p0) (set_pid (nextpid s) (set_state EMBRYO p0)).

Definition bump (s : kst) (l : list proc) : kst :=
  {| procs := l; nextpid := s32 (nextpid s + 1); initproc := initproc s; files := files s;
     irefs := irefs s; pipes := pipes s |}.

Lemma allocproc_run ok s r s' :
  allocproc ok s = Ret r s' ->
  (r = None /\ (s' = s \/ exists np p0, procs s !! np = Some p0 /\ p_state p0 = UNUSED /\
     s' = bump s (<[np := set_state UNUSED (embryo s false p0)]> (procs s)))) \/
  (exists np p0, r = Some np /\ procs s !! np = Some p0 /\ p_state p0 = UNUSED /\
     s' = bump s (<[np := embryo s true p0]> (procs s))).
Proof.
  unfold allocproc. rewrite bind_gets. destruct (first_slot _ _ _) as [np|] eqn:E; [|intros [= <- <-]; by auto].
  apply first_slot_some in E as (j & p0 & -> & Hp & Hst%in_state_true). simpl. rewrite bind_gets.
  rewrite (setp_bind _ _ p0), bind_modify by done.
  assert (Hlt : (j < length (procs s))%nat) by (by eapply lookup_lt_Some).
  destruct ok; (erewrite setp_bind by (simpl; by rewrite list_lookup_insert_eq));
    cbn; rewrite list_insert_insert_eq; intros [= <- <-]; [right|left].
  - exists j, p0. done.
  - split; [done|]. right. exists j, p0. done.
Qed.

Lemma fork_run cur k c s r s' :
  fork cur k c s = Ret r s' -> (exists p, procs s !! cur = Some p /\ p_state p <> UNUSED) ->
  (r = -1 /\ fork_failed s s') \/ (r = nextpid s /\ exists np p0 p', forked s s' cur np p0 p').
Proof.
  intros E (me0 & Hme0 & Hst0). unfold fork in E. unfold bind at 1 in E.
  destruct (allocproc k s) as [o s1|] eqn:Ea; [|done].
  apply allocproc_run in Ea as [[-> Hs1]|(np & p0 & -> & Hp0 & Hu & ->)].
  { injection E as <- <-. left. split; [done|].
    destruct Hs1 as [->|(np & p0 & Hp0 & Hu & ->)]; [split; eauto|].
    split; simpl; [by rewrite length_insert| |auto|done]. intros j p Hj.
    apply list_lookup_insert_Some in Hj as [(<- & <- & _)|[_ Hj]]; [|eauto].
    exists p0. split; [done|]. right. simpl. auto. }
  assert (Hlt : (np < length (procs s))%nat) by (by eapply lookup_lt_Some).
  assert (Hne : cur <> np) by (intros ->; congruence).
  destruct c.
  2: { left. erewrite setp_bind in E by (simpl; by rewrite list_lookup_insert_eq).
       cbn in E. rewrite list_insert_insert_eq in E. injection E as <- <-. split; [done|].
       split; simpl; [by rewrite length_insert| |auto|done]. intros j p Hj.
       apply list_lookup_insert_Some in Hj as [(<- & <- & _)|[_ Hj]]; [|eauto].
       exists p0. split; [done|]. right. simpl. auto. }
  right. erewrite getp_bind in E by (simpl; by rewrite list_lookup_insert_ne).
  erewrite setp_bind in E by (simpl; by rewrite list_lookup_insert_eq). cbn in E.
  rewrite list_insert_insert_eq in E.
  set (p1 := set_parent (Some cur) (set_mem (p_sz me0) true true (embryo s true p0))) in *.
  set (s1 := with_procs _ _) in E.
  assert (Hs1 : forall s2, calmly s1 s2 -> setp np (set_state RUNNABLE) s2 = Ret tt s' ->
            exists p', forked s s' cur np p0 p').
  { intros s2 Hc E2. destruct (calmly_lookup s1 s2 np p1 Hc) as (p2 & Hp2 & Hcalm).
    { simpl. by rewrite list_lookup_insert_eq. }
    rewrite (setp_eq _ _ _ _ Hp2) in E2. injection E2 as <-.
    assert (Hlen : length (procs s2) = length (procs s)).
    { destruct Hc as (C & _). apply Forall2_length in C. simpl in C. by rewrite length_insert in C. }
    destruct Hcalm as (K1 & K2 & K3 & K4 & K5 & K6 & K7 & _).
    destruct Hc as (C & N & I). exists (set_state RUNNABLE p2).
    split; cbn [procs with_procs nextpid initproc]; try done.
    - rewrite list_lookup_insert_eq; [done|lia].
    - by rewrite length_insert.
    - intros j p Hj Hp. rewrite list_lookup_insert_ne in Hp by done.
      destruct (Forall2_lookup_r _ _ _ _ _ C Hp) as (q & Hq & Hcal). exists q. split; [|done].
      simpl in Hq. by rewrite list_lookup_insert_ne in Hq. }
  apply quiet_inv in E as (? & s2 & _ & C2 & E); [|apply quiet_dup_files].
  apply quiet_inv in E as (? & s3 & _ & C3 & E);
    [|destruct (p_cwd me0); [apply quiet_add_iref|apply quiet_halt]].
  apply quiet_inv in E as (? & s4 & _ & C4 & E); [|apply quiet_cwd].
  apply quiet_inv in E as (? & s5 & _ & C5 & E); [|apply quiet_getp].
  apply quiet_inv in E as (? & s6 & _ & C6 & E); [|apply quiet_lift].
  apply quiet_inv in E as (? & s7 & _ & C7 & E); [|apply quiet_name].
  apply quiet_inv in E as (q & s8 & Hq & C8 & E); [|apply quiet_getp].
  assert (Hcal : calmly s1 s8) by (do 6 (eapply calmly_trans; [eassumption|]); done).
  unfold bind in E. destruct (setp np (set_state RUNNABLE) s8) as [[] s9|] eqn:E9; [|done].
  injection E as <- <-. destruct (Hs1 s8 Hcal E9) as (p' & Hf). split; [|eauto].
  destruct (calmly_lookup s1 s8 np p1 Hcal) as (p2 & Hp2 & Hcalm).
  { simpl. by rewrite list_lookup_insert_eq. }
  assert (s7 = s8 /\ procs s7 !! np = Some q) as [-> Hq7].
  { unfold getp, lift, ret, halt in Hq. destruct (procs s7 !! np); by simplify_eq. }
  rewrite Hp2 in Hq7. injection Hq7 as <-. destruct Hcalm as (-> & _). done.
Qed.

(** ** What [exit] does to the table *)

(** The process in slot [q] does not sleep in [wait]. *)
Definition awake (s : kst) (q : nat) : Prop :=
  forall p, procs s !! q = Some p -> p_state p = SLEEPING -> p_chan p <> Some (ChProc q).

Record exited (s s' : kst) (cur : nat) (p p' : proc) : Prop := {
  ex_old : procs s !! cur = Some p;
  ex_new : procs s' !! cur = Some p';
  ex_zombie : p_state p' = ZOMBIE;
  ex_pid : p_pid p' = p_pid p;
  ex_ids : p_uid p' = p_uid p /\ p_euid p' = p_euid p /\ p_gids p' = p_gids p;
  ex_parent : p_parent p' = p_parent (reparent cur (initproc s) p);
  ex_length : length (procs s') = length (procs s);
  ex_others j q' : j <> cur -> procs s' !! j = Some q' ->
    exists q, procs s !! j = Some q /\ calm (reparent cur (initproc s) q) q';
  ex_wakes q : p_parent p = Some q -> awake s' q;
  ex_wakes_init i j q : initproc s = Some i -> procs s !! j = Some q ->
    p_parent q = Some cur -> p_state q = ZOMBIE -> awake s' i;
  ex_next : nextpid s' = nextpid s;
  ex_init : initproc s' = initproc s
}.

Lemma wake_on_awake c p : p_state (wake_on c p) = SLEEPING -> p_chan (wake_on c p) <> Some c.
Proof.
  unfold wake_on. destruct (in_state SLEEPING p) eqn:E; simpl.
  - case_bool_decide; [done|]. intros _. done.
  - apply bool_decide_eq_false in E. congruence.
Qed.

(** Being awake survives the quiet operations. *)
Lemma awake_calm p p' c : calm p p' ->
  (p_state p = SLEEPING -> p_chan p <> Some c) -> p_state p' = SLEEPING -> p_chan p' <> Some c.
Proof.
  intros (_ & _ & Hc & _ & _ & _ & _ & [Hs|[_ Hs]]) Ha; [|congruence]. rewrite Hc, Hs. done.
Qed.

Lemma reparent_calm cur init p q : calm p q -> calm (reparent cur init p) (reparent cur init q).
Proof.
  intros (H1 & H2 & H3 & H4 & H5 & H6 & H7 & H8). unfold reparent. rewrite H2.
  case_bool_decide; repeat split; done.
Qed.

Lemma wake_init_calm b init p : calm p (wake_init b init p).
Proof. destruct init, b; simpl; try apply calm_refl. apply wake_calm. Qed.

(** What the loop over the children makes of a process. *)
Definition handed (cur : nat) (s s4 : kst) (p : proc) : proc :=
  wake_init (existsb (orphan_zombie cur) (procs s4)) (initproc s) (reparent cur (initproc s) p).

Lemma handed_calm cur s s4 p q : calm p q -> calm (reparent cur (initproc s) p) (handed cur s s4 q).
Proof. intros C. eapply calm_trans; [by apply reparent_calm|apply wake_init_calm]. Qed.

Lemma exit_shape cur s s' :
  exit cur s = Ret tt s' -> length (procs s) = NPROC ->
  initproc s <> Some cur /\ exists p p4 s4, procs s !! cur = Some p /\ procs s4 !! cur = Some p4 /\
    calmly s s4 /\ (forall q, p_parent p = Some q -> awake s4 q) /\
    s' = with_procs s4 (<[cur := set_state ZOMBIE (handed cur s s4 p4)]> (handed cur s s4 <$> procs s4)).
Proof.
  intros E Hlen. unfold exit in E. rewrite bind_gets in E. case_bool_decide as Hi; [done|].
  split; [done|].
  apply quiet_inv in E as (? & s1 & _ & C1 & E); [|apply quiet_close_files].
  unfold bind at 1, getp at 1 in E. destruct (procs s1 !! cur) as [p1|] eqn:Hp1; [|done]. cbn [lift ret] in E.
  apply quiet_inv in E as (? & s2 & _ & C2 & E);
    [|destruct (p_cwd p1); [apply quiet_add_iref|apply quiet_halt]].
  apply quiet_inv in E as (? & s3 & _ & C3 & E); [|apply quiet_cwd].
  assert (C13 : calmly s1 s3) by (by eapply calmly_trans).
  destruct (calmly_lookup_r s s1 cur p1 C1 Hp1) as (p & Hp & Hcal).
  assert (C03 : calmly s s3) by (by eapply calmly_trans).
  set (w := match p_parent p1 with Some q => wakeup1 (ChProc q) | None => ret tt end) in E.
  assert (Hw : exists s4, w s3 = Ret tt s4 /\ calmly s3 s4 /\
            forall q, p_parent p1 = Some q -> awake s4 q).
  { unfold w. destruct (p_parent p1) as [q|].
    - eexists. split; [done|]. split; [by eapply quiet_wakeup1|]. intros ? [= <-] z Hz.
      simpl in Hz. rewrite list_lookup_fmap in Hz. destruct (procs s3 !! q); simplify_eq/=.
      apply wake_on_awake.
    - exists s3. split; [done|]. split; [apply calmly_refl|done]. }
  destruct Hw as (s4 & Ew & C4 & Haw). unfold bind at 1 in E. rewrite Ew in E.
  assert (C04 : calmly s s4) by (by eapply calmly_trans). pose proof C04 as (L4 & N4 & I4).
  assert (Hl4 : length (procs s4) = NPROC) by (rewrite <- Hlen; symmetry; by eapply Forall2_length).
  unfold bind at 1 in E. pose proof (pass_children_map cur NPROC [] (procs s4) s4 Hl4 eq_refl) as Hpc.
  cbn [length app] in Hpc. rewrite Hpc, I4 in E. clear Hpc.
  destruct (calmly_lookup s s4 cur p C04 Hp) as (p4 & Hp4 & Hcal4).
  erewrite setp_eq in E by (simpl; rewrite !list_lookup_fmap, Hp4; done). injection E as <-.
  exists p, p4, s4. split_and!; [done..| |].
  - intros q Hq. apply Haw. destruct Hcal as (_ & -> & _). done.
  - unfold handed. cbn [procs with_procs nextpid initproc]. f_equal. f_equal. by rewrite <- list_fmap_compose.
Qed.

Lemma exit_run cur s s' :
  exit cur s = Ret tt s' -> length (procs s) = NPROC ->
  initproc s <> Some cur /\ exists p p', exited s s' cur p p'.
Proof.
  intros E Hlen. destruct (exit_shape cur s s' E Hlen) as (Hi & p & p4 & s4 & Hp & Hp4 & C04 & Haw & ->).
  split; [done|]. exists p, (set_state ZOMBIE (handed cur s s4 p4)). pose proof C04 as (L4 & N4 & I4).
  assert (Hlk : forall j q', j <> cur ->
    <[cur := set_state ZOMBIE (handed cur s s4 p4)]> (handed cur s s4 <$> procs s4) !! j = Some q' ->
    exists q4, procs s4 !! j = Some q4 /\ q' = handed cur s s4 q4).
  { intros j q' Hj Hq. rewrite list_lookup_insert_ne, !list_lookup_fmap in Hq by done.
    destruct (procs s4 !! j) as [q4|]; [|done]. injection Hq as <-. eauto. }
  destruct (calmly_lookup s s4 cur p C04 Hp) as (p4' & Hp4' & Hcal). assert (p4' = p4) as -> by congruence.
  pose proof (handed_calm cur s s4 p p4 Hcal) as (K1 & K2 & _ & _ & K5 & K6 & K7 & _).
  pose proof (lookup_lt_Some _ _ _ Hp4) as Hlt.
  split; cbn [procs with_procs nextpid initproc]; try done.
  - rewrite list_lookup_insert_eq; [done|]. by rewrite !length_fmap.
  - simpl. rewrite K1. unfold reparent. by case_bool_decide.
  - simpl. rewrite K5, K6, K7. unfold reparent. by case_bool_decide.
  - rewrite length_insert, !length_fmap. symmetry. by eapply Forall2_length.
  - intros j q' Hj (q4 & Hq4 & ->)%Hlk; [|done].
    destruct (calmly_lookup_r s s4 j q4 C04 Hq4) as (q & Hq & Hcq). exists q. split; [done|].
    by apply handed_calm.
  - intros q Hq z Hz Hst. cbn [procs with_procs] in Hz. destruct (decide (q = cur)) as [->|Hne].
    { rewrite list_lookup_insert_eq in Hz by (by rewrite !length_fmap). by injection Hz as <-. }
    destruct (Hlk q z Hne Hz) as (q4 & Hq4 & ->). revert Hst. eapply awake_calm; [apply wake_init_calm|].
    unfold reparent. case_bool_decide; apply (Haw q Hq q4 Hq4).
  - intros i j q Hini Hj Hpar Hz z Hlz Hst. cbn [procs with_procs] in Hlz.
    assert (Hb : existsb (orphan_zombie cur) (procs s4) = true).
    { destruct (calmly_lookup s s4 j q C04 Hj) as (q4 & Hq4 & (_ & J2 & _ & _ & _ & _ & _ & J8)).
      apply existsb_exists. exists q4. split; [by eapply list_elem_of_In, list_elem_of_lookup_2|].
      unfold orphan_zombie. rewrite J2, Hpar, bool_decide_eq_true_2 by done. simpl.
      apply in_state_true. destruct J8 as [J8|[J8 _]]; congruence. }
    destruct (decide (i = cur)) as [->|Hne]; [done|].
    destruct (Hlk i z Hne Hlz) as (q4 & Hq4 & ->). unfold handed in *. rewrite Hb, Hini in Hst |- *. simpl in *.
    by apply wake_on_awake.
Qed.

(** ** The process tree *)

Definition alive (p : proc) : Prop :=
  p_state p = SLEEPING \/ p_state p = RUNNABLE \/ p_state p = RUNNING.

Record tree (s : kst) : Prop := {
  tr_length : length (procs s) = NPROC;
  tr_init : exists i p, initproc s = Some i /\ procs s !! i = Some p /\ alive p /\ p_parent p = None;
  tr_embryo i p : procs s !! i = Some p -> p_state p <> EMBRYO;
  tr_unused i p : procs s !! i = Some p -> p_state p = UNUSED -> p_parent p = None;
  tr_parent i p q : procs s !! i = Some p -> p_parent p = Some q ->
    q <> i /\ exists pq, procs s !! q = Some pq /\ alive pq;
  tr_orphan i p : procs s !! i = Some p -> p_state p <> UNUSED -> p_parent p = None ->
    initproc s = Some i;
  tr_pid i p : procs s !! i = Some p -> p_state p <> UNUSED -> 1 <= p_pid p < nextpid s;
  tr_distinct i j p q : procs s !! i = Some p -> procs s !! j = Some q ->
    p_state p <> UNUSED -> p_state q <> UNUSED -> p_pid p = p_pid q -> i = j;
  tr_wait i p c : procs s !! i = Some p -> p_state p = SLEEPING -> p_chan p = Some (ChProc c) ->
    c = i /\ forall j q, procs s !! j = Some q -> p_parent q = Some i -> p_state q <> ZOMBIE
}.

Lemma alive_not_unused p : alive p -> p_state p <> UNUSED /\ p_state p <> ZOMBIE.
Proof. intros [H|[H|H]]; rewrite H; done. Qed.

(** What a step may do to a process without disturbing the tree. *)
Definition keeps (p p' : proc) : Prop :=
  (p_pid p' = p_pid p \/ p_state p' = UNUSED) /\ p_parent p' = p_parent p /\ (alive p -> alive p') /\
  (p_state p' = UNUSED <-> p_state p = UNUSED) /\ (p_state p' = EMBRYO -> p_state p = EMBRYO) /\
  (p_state p' = ZOMBIE -> p_state p = ZOMBIE).

Lemma alive_calm p p' : calm p p' -> alive p -> alive p'.
Proof.
  intros (_ & _ & _ & _ & _ & _ & _ & [E|[_ E]]) Ha; unfold alive in *; rewrite E; auto.
Qed.

Lemma calm_state p p' st : calm p p' -> st <> RUNNABLE -> p_state p' = st -> p_state p = st.
Proof. intros (_ & _ & _ & _ & _ & _ & _ & [E|[_ E]]) Hst Hp; congruence. Qed.

Lemma calm_not_unused p p' : calm p p' -> p_state p' <> UNUSED -> p_state p <> UNUSED.
Proof. intros (_ & _ & _ & _ & _ & _ & _ & [E|[E _]]) Hst; congruence. Qed.

Lemma calm_keeps p p' : calm p p' -> keeps p p'.
Proof.
  intros Hc. pose proof Hc as (E1 & E2 & _). unfold keeps. split_and!; auto.
  - by apply alive_calm.
  - split; [by apply calm_state|]. destruct Hc as (_ & _ & _ & _ & _ & _ & _ & [E|[E _]]); congruence.
  - by apply calm_state.
  - by apply calm_state.
Qed.

(** A process that sleeps in [wait] sleeps on itself and has no zombie child. *)
Definition waits_well (s : kst) (i : nat) (p : proc) : Prop :=
  forall c, p_state p = SLEEPING -> p_chan p = Some (ChProc c) ->
  c = i /\ forall j q, procs s !! j = Some q -> p_parent q = Some i -> p_state q <> ZOMBIE.

Lemma tree_frame s s' :
  tree s -> length (procs s') = length (procs s) -> initproc s' = initproc s -> nextpid s <= nextpid s' ->
  (forall j p', procs s' !! j = Some p' ->
    exists p, procs s !! j = Some p /\ keeps p p' /\ waits_well s j p') ->
  tree s'.
Proof.
  intros T L I N H.
  assert (F : forall j p, procs s !! j = Some p -> exists p', procs s' !! j = Some p' /\ keeps p p').
  { intros j p Hj. destruct (lookup_lt_is_Some_2 (procs s') j) as [p' Hp'].
    { rewrite L. by eapply lookup_lt_Some. }
    destruct (H j p' Hp') as (q & Hq & Hk & _). exists p'. split; [done|congruence]. }
  split.
  - rewrite L. apply T.
  - destruct (tr_init s T) as (i & p & Hi & Hp & Ha & Hr). destruct (F i p Hp) as (p' & Hp' & (_ & K & A & _)).
    exists i, p'. rewrite I, K. auto.
  - intros i p' Hp' E. destruct (H _ _ Hp') as (p & Hp & (_ & _ & _ & _ & K & _) & _).
    apply (tr_embryo s T _ _ Hp). auto.
  - intros i p' Hp' Hu. destruct (H _ _ Hp') as (p & Hp & (_ & K & _ & U & _) & _).
    rewrite K. apply (tr_unused s T _ _ Hp). by apply U.
  - intros i p' q Hp' Hpar. destruct (H _ _ Hp') as (p & Hp & (_ & K & _) & _). rewrite K in Hpar.
    destruct (tr_parent s T _ _ _ Hp Hpar) as (Hqi & pq & Hq & Ha). destruct (F q pq Hq) as (pq' & Hq' & (_ & _ & A & _)).
    split; [done|]. exists pq'. auto.
  - intros i p' Hp' Hu Hpar. destruct (H _ _ Hp') as (p & Hp & (_ & K & _ & U & _) & _). rewrite K in Hpar.
    rewrite I. apply (tr_orphan s T _ _ Hp); [by rewrite <- U|done].
  - intros i p' Hp' Hu. destruct (H _ _ Hp') as (p & Hp & ([->|?] & _ & _ & U & _) & _); [|done].
    assert (p_state p <> UNUSED) as Hv by (by rewrite <- U). pose proof (tr_pid s T _ _ Hp Hv). lia.
  - intros i j p' q' Hp' Hq' Hu Hv E. destruct (H _ _ Hp') as (p & Hp & ([E1|?] & _ & _ & U & _) & _); [|done].
    destruct (H _ _ Hq') as (q & Hq & ([E2|?] & _ & _ & V & _) & _); [|done].
    apply (tr_distinct s T i j p q); [done|done|by rewrite <- U|by rewrite <- V|congruence].
  - intros i p' c Hp' Hs Hch. destruct (H _ _ Hp') as (p & Hp & K & W).
    destruct (W c Hs Hch) as [-> Hz]. split; [done|].
    intros j q' Hq' Hpar Hzq. destruct (H _ _ Hq') as (q & Hq & (_ & K' & _ & _ & _ & Z') & _).
    rewrite K' in Hpar. apply (Hz j q Hq Hpar). auto.
Qed.

Lemma tree_waits s i p : tree s -> procs s !! i = Some p -> waits_well s i p.
Proof. intros T Hp c. by apply (tr_wait s T i p c). Qed.

Lemma waits_calm s i p p' : waits_well s i p -> calm p p' -> waits_well s i p'.
Proof.
  intros W Hc c Hs Hch. apply W; [by eapply calm_state|]. destruct Hc as (_ & _ & E & _). congruence.
Qed.

Lemma tree_calm s s' : tree s -> calmly s s' -> tree s'.
Proof.
  intros T C. pose proof C as (L & N & I). apply (tree_frame s); [done| |done|lia|].
  - symmetry. by eapply Forall2_length.
  - intros j p' Hp'. destruct (calmly_lookup_r _ _ _ _ C Hp') as (p & Hp & Hc).
    exists p. split_and!; [done|by apply calm_keeps|]. eapply waits_calm; [by apply tree_waits|done].
Qed.

Lemma tree_fork_failed s s' : tree s -> fork_failed s s' -> 0 < nextpid s < 2 ^ 31 - 1 -> tree s'.
Proof.
  intros T [F1 F2 F3 F4] Hn. apply (tree_frame s); [done|done|done| |].
  - destruct F3 as [->| ->]; [lia|]. rewrite s32_small; lia.
  - intros j p' Hp'. destruct (F2 _ _ Hp') as (p & Hp & [->|(U & V & E & _)]); exists p.
    + split; [done|]. split; [apply calm_keeps, calm_refl|by apply tree_waits].
    + split; [done|]. split; [|intros c; congruence]. unfold keeps, alive. rewrite U, V. naive_solver.
Qed.

(** Changing one process. *)
Lemma tree_setp s i f a s' :
  tree s -> setp i f s = Ret a s' ->
  (forall p, procs s !! i = Some p -> keeps p (f p) /\ waits_well s i (f p)) -> tree s'.
Proof.
  intros T E H. unfold setp in E. destruct (procs s !! i) as [p|] eqn:Hp; [|done]. injection E as _ <-.
  apply (tree_frame s); [done|apply length_insert|done|simpl; lia|].
  simpl. intros j p'. rewrite list_lookup_insert_Some. intros [(<- & <- & _)|[Hj Hp']].
  - exists p. split; [done|]. by apply H.
  - exists p'. split; [done|]. split; [apply calm_keeps, calm_refl|by apply tree_waits].
Qed.

Lemma tree_fork s s' cur np p0 p' pc :
  tree s -> forked s s' cur np p0 p' -> procs s !! cur = Some pc -> alive pc -> 0 < nextpid s < 2 ^ 31 - 1 ->
  tree s'.
Proof.
  intros T F Hcur Hal Hn. pose proof F as [F1 F2 F3 F4 F5 F6 F7 F7b F7c F8 F9 F10 F11].
  rewrite s32_small in F10 by lia.
  assert (Hne : cur <> np) by (intros ->; rewrite F1 in Hcur; injection Hcur as <-; by apply alive_not_unused in Hal as [? _]).
  assert (Hback : forall j p, procs s' !! j = Some p -> (j = np /\ p = p') \/
            (j <> np /\ exists q, procs s !! j = Some q /\ calm q p)).
  { intros j p Hj. destruct (decide (j = np)) as [->|Hjn]; [left|right; eauto].
    rewrite F3 in Hj. by injection Hj as <-. }
  assert (Hfwd : forall j p, j <> np -> procs s !! j = Some p -> exists q, procs s' !! j = Some q /\ calm p q).
  { intros j p Hj Hp. destruct (lookup_lt_is_Some_2 (procs s') j) as [q Hq].
    { rewrite F8. by eapply lookup_lt_Some. }
    destruct (F9 j q Hj Hq) as (q' & Hq' & Hc). rewrite Hp in Hq'. injection Hq' as <-. eauto. }
  assert (Hpid : forall j q, procs s !! j = Some q -> p_state q <> UNUSED -> p_pid q <> nextpid s)
    by (intros j q Hq Hu; pose proof (tr_pid s T _ _ Hq Hu); lia).
  split.
  - rewrite F8. apply T.
  - destruct (tr_init s T) as (i & p & Hi & Hp & Ha & Hr). rewrite F11.
    assert (i <> np) by (intros ->; rewrite F1 in Hp; injection Hp as <-; by apply alive_not_unused in Ha as [? _]).
    destruct (Hfwd i p) as (q & Hq & Hc); [done|done|]. exists i, q. pose proof Hc as (_ & -> & _).
    split_and!; [done|done|by eapply alive_calm|done].
  - intros j p [[-> ->]|(_ & q & Hq & Hc)]%Hback; [congruence|]. intros E.
    apply (tr_embryo s T _ _ Hq). by eapply calm_state.
  - intros j p [[-> ->]|(_ & q & Hq & Hc)]%Hback Hu; [congruence|].
    pose proof Hc as (_ & -> & _). apply (tr_unused s T _ _ Hq). by eapply calm_state.
  - intros j p r Hj Hpar. apply Hback in Hj as [[-> ->]|(_ & q & Hq & Hc)].
    + rewrite F6 in Hpar. injection Hpar as <-. destruct (Hfwd cur pc) as (x & Hx & Hcx); [done|done|].
      split; [done|]. eauto using alive_calm.
    + pose proof Hc as (_ & E & _). rewrite E in Hpar. destruct (tr_parent s T _ _ _ Hq Hpar) as (Hrj & pq & Hpq & Ha).
      assert (r <> np) by (intros ->; rewrite F1 in Hpq; injection Hpq as <-; by apply alive_not_unused in Ha as [? _]).
      destruct (Hfwd r pq) as (x & Hx & Hcx); [done|done|]. split; [done|]. eauto using alive_calm.
  - intros j p [[-> ->]|(_ & q & Hq & Hc)]%Hback Hu Hpar; [congruence|]. rewrite F11.
    pose proof Hc as (_ & E & _). rewrite E in Hpar. apply (tr_orphan s T _ _ Hq); [by eapply calm_not_unused|done].
  - intros j p [[-> ->]|(_ & q & Hq & Hc)]%Hback Hu; [rewrite F5, F10; lia|].
    pose proof Hc as (-> & _). pose proof (tr_pid s T _ _ Hq (calm_not_unused _ _ Hc Hu)). lia.
  - intros j k p q Hj Hk Hu Hv E.
    apply Hback in Hj as [[-> ->]|(Hjn & p1 & Hp1 & Hc)], Hk as [[-> ->]|(Hkn & q1 & Hq1 & Hd)]; [done| | |].
    + exfalso. pose proof Hd as (E' & _). apply (Hpid _ _ Hq1); [by eapply calm_not_unused|congruence].
    + exfalso. pose proof Hc as (E' & _). apply (Hpid _ _ Hp1); [by eapply calm_not_unused|congruence].
    + apply (tr_distinct s T j k p1 q1); eauto using calm_not_unused.
      destruct Hc as (E1 & _), Hd as (E2 & _). congruence.
  - intros j p c Hj Hs Hch. apply Hback in Hj as [[-> ->]|(Hjn & q & Hq & Hc)]; [congruence|].
    pose proof Hc as (_ & _ & E & _). rewrite E in Hch.
    destruct (tr_wait s T j q c Hq) as [-> Hz]; [by eapply calm_state|done|]. split; [done|].
    intros k r Hk Hpar Hzr. apply Hback in Hk as [[-> ->]|(Hkn & r1 & Hr1 & Hd)]; [congruence|].
    pose proof Hd as (_ & E' & _). rewrite E' in Hpar. apply (Hz k r1 Hr1 Hpar). by eapply calm_state.
Qed.

Lemma reparent_same cur init p : p_pid (reparent cur init p) = p_pid p /\
  p_state (reparent cur init p) = p_state p /\ p_chan (reparent cur init p) = p_chan p.
Proof. unfold reparent. by destruct (bool_decide _). Qed.

Lemma reparent_parent cur init p :
  p_parent p = Some cur /\ p_parent (reparent cur init p) = init \/
  p_parent p <> Some cur /\ p_parent (reparent cur init p) = p_parent p.
Proof. unfold reparent. case_bool_decide; auto. Qed.

Lemma exited_back s s' cur p0 p0' j q' : exited s s' cur p0 p0' -> p_state p0 <> UNUSED ->
  procs s' !! j = Some q' ->
  exists q, procs s !! j = Some q /\ p_pid q' = p_pid q /\ (p_state q' = UNUSED <-> p_state q = UNUSED) /\
    p_parent q' = p_parent (reparent cur (initproc s) q) /\
    (j = cur /\ p_state q' = ZOMBIE \/ j <> cur /\ calm (reparent cur (initproc s) q) q').
Proof.
  intros X U Hj. destruct (decide (j = cur)) as [->|Hjc].
  - exists p0. destruct X. assert (q' = p0') as -> by congruence. split_and!; [done|done| |done|by left].
    split; congruence.
  - destruct (ex_others _ _ _ _ _ X j q' Hjc Hj) as (q & Hq & C). exists q.
    destruct (reparent_same cur (initproc s) q) as (R1 & R2 & R3). pose proof C as (C1 & C2 & _).
    split_and!; [done|congruence| |done|by right]. rewrite <- R2. apply (calm_keeps _ _ C).
Qed.

Lemma exited_alive s s' cur p0 p0' j q : exited s s' cur p0 p0' -> j <> cur ->
  procs s !! j = Some q -> alive q -> exists q', procs s' !! j = Some q' /\ alive q' /\
    p_parent q' = p_parent (reparent cur (initproc s) q).
Proof.
  intros X Hj Hq Ha. destruct (lookup_lt_is_Some_2 (procs s') j) as [q' Hq'].
  { rewrite (ex_length _ _ _ _ _ X). by eapply lookup_lt_Some. }
  destruct (ex_others _ _ _ _ _ X j q' Hj Hq') as (r & Hr & C). assert (r = q) as -> by congruence.
  exists q'. split_and!; [done| |apply C]. eapply alive_calm; [done|].
  destruct (reparent_same cur (initproc s) q) as (_ & R2 & _). unfold alive. by rewrite R2.
Qed.

(** Nobody sleeps in [wait] while it has a zombie child, after an [exit]. *)
Lemma exited_waits s s' cur p0 p0' j q' c : tree s -> exited s s' cur p0 p0' -> p_state p0 = RUNNING ->
  procs s' !! j = Some q' -> p_state q' = SLEEPING -> p_chan q' = Some (ChProc c) ->
  c = j /\ forall k r, procs s' !! k = Some r -> p_parent r = Some j -> p_state r <> ZOMBIE.
Proof.
  intros T X Hrun Hj Hs Hch.
  destruct (exited_back _ _ _ _ _ _ _ X ltac:(congruence) Hj) as (q & Hq & _ & _ & _ & [[_ ?]|[Hjc C]]);
    [congruence|].
  destruct (reparent_same cur (initproc s) q) as (_ & R2 & R3). pose proof C as (_ & _ & C3 & _).
  destruct (tr_wait s T j q c Hq) as [-> Hz]; [rewrite <- R2; by eapply calm_state|congruence|].
  split; [done|]. intros k r Hk Hpar Hzr.
  destruct (exited_back _ _ _ _ _ _ _ X ltac:(congruence) Hk) as (r0 & Hr0 & _ & _ & E & Hcase).
  rewrite E in Hpar. destruct Hcase as [[-> _]|[Hkc D]].
  - assert (r0 = p0) as -> by (destruct X; congruence).
    destruct (reparent_parent cur (initproc s) p0) as [[Hself _]|[_ Hsame]].
    + by destruct (tr_parent s T _ _ _ Hr0 Hself) as [? _].
    + rewrite Hsame in Hpar. by apply (ex_wakes _ _ _ _ _ X j Hpar q' Hj).
  - assert (p_state r0 = ZOMBIE) as Hz0.
    { destruct (reparent_same cur (initproc s) r0) as (_ & <- & _). by eapply calm_state. }
    destruct (reparent_parent cur (initproc s) r0) as [[Hchild Hi]|[_ Hsame]].
    + rewrite Hi in Hpar. by apply (ex_wakes_init _ _ _ _ _ X j k r0 Hpar Hr0 Hchild Hz0 q' Hj).
    + rewrite Hsame in Hpar. by apply (Hz k r0 Hr0 Hpar).
Qed.

Lemma tree_exit s s' cur p0 p0' :
  tree s -> exited s s' cur p0 p0' -> initproc s <> Some cur -> p_state p0 = RUNNING -> tree s'.
Proof.
  intros T X Hni Hrun. assert (Hu : p_state p0 <> UNUSED) by congruence.
  pose proof (fun j q' => exited_back s s' cur p0 p0' j q' X Hu) as B.
  destruct (tr_init s T) as (i & pi & Hi & Hpi & Hai & Hri).
  assert (i <> cur) by congruence. split.
  - rewrite (ex_length _ _ _ _ _ X). apply T.
  - destruct (exited_alive _ _ _ _ _ i pi X) as (q' & Hq' & Ha & E); [done..|].
    exists i, q'. rewrite (ex_init _ _ _ _ _ X), E. split_and!; [done..|].
    destruct (reparent_parent cur (initproc s) pi) as [[? _]|[_ ->]]; [congruence|done].
  - intros j q' Hq' Ez. destruct (B j q' Hq') as (q & Hq & _ & _ & _ & [[_ ?]|[_ C]]); [congruence|].
    apply (tr_embryo s T _ _ Hq). destruct (reparent_same cur (initproc s) q) as (_ & <- & _).
    by eapply calm_state.
  - intros j q' Hq' Ez. destruct (B j q' Hq') as (q & Hq & _ & U & E & _). apply U in Ez.
    pose proof (tr_unused s T _ _ Hq Ez). rewrite E.
    destruct (reparent_parent cur (initproc s) q) as [[? _]|[_ ->]]; congruence.
  - intros j q' r Hq' Hpar. destruct (B j q' Hq') as (q & Hq & _ & _ & E & _). rewrite E in Hpar.
    destruct (reparent_parent cur (initproc s) q) as [[Hch Hin]|[Hnc Hin]]; rewrite Hin in Hpar.
    + assert (r = i) as -> by congruence. split; [intros ->; congruence|].
      destruct (exited_alive _ _ _ _ _ i pi X) as (x & Hx & Ha & _); [done..|]. eauto.
    + destruct (tr_parent s T _ _ _ Hq Hpar) as (Hrj & pr & Hr & Ha). split; [done|].
      destruct (exited_alive _ _ _ _ _ r pr X) as (x & Hx & Hax & _); [congruence|done..|]. eauto.
  - intros j q' Hq' Hu' Hpar. destruct (B j q' Hq') as (q & Hq & _ & U & E & _). rewrite (ex_init _ _ _ _ _ X).
    rewrite E in Hpar. destruct (reparent_parent cur (initproc s) q) as [[_ Hin]|[_ Hin]]; [congruence|].
    apply (tr_orphan s T _ _ Hq); [by rewrite <- U|congruence].
  - intros j q' Hq' Hu'. destruct (B j q' Hq') as (q & Hq & -> & U & _). rewrite (ex_next _ _ _ _ _ X).
    apply (tr_pid s T _ _ Hq). by rewrite <- U.
  - intros j k q' r' Hq' Hr' Hu' Hv' E. destruct (B j q' Hq') as (q & Hq & E1 & U & _).
    destruct (B k r' Hr') as (r & Hr & E2 & V & _).
    apply (tr_distinct s T j k q r); [done|done|by rewrite <- U|by rewrite <- V|congruence].
  - intros j q' c. by apply (exited_waits s s' cur p0 p0').
Qed.

(** ** [wait] *)

Lemma wait_scan_none cur l i b hk :
  wait_scan cur l i b = (hk, None) ->
  (forall j p, l !! j = Some p -> p_parent p = Some cur -> p_state p <> ZOMBIE) /\
  (hk = true <-> b = true \/ exists j p, l !! j = Some p /\ p_parent p = Some cur).
Proof.
  revert i b. induction l as [|p r IH]; intros i b E; cbn [wait_scan] in E.
  - injection E as <-. split; [done|]. split; [by left|]. intros [?|(j & q & Hj & _)]; [done|by rewrite lookup_nil in Hj].
  - case_bool_decide as Hp.
    + destruct (in_state ZOMBIE p) eqn:Hz; [done|]. apply IH in E as [H1 H2]. split.
      * intros [|j] q Hj Hq; [|by eapply H1]. injection Hj as <-. intros Hs. apply in_state_true in Hs. congruence.
      * rewrite H2. split; [|by left]. intros _. right. by exists 0%nat, p.
    + apply IH in E as [H1 H2]. split.
      * intros [|j] q Hj Hq; [|by eapply H1]. by injection Hj as <-.
      * rewrite H2. split; (intros [?|(j & q & Hj & Hq)]; [by left|right]).
        -- by exists (S j), q.
        -- destruct j; [by injection Hj as <-|]. by exists j, q.
Qed.

Lemma wait_scan_some cur l i b hk k :
  wait_scan cur l i b = (hk, Some k) ->
  exists p, (i <= k)%nat /\ l !! (k - i)%nat = Some p /\ p_parent p = Some cur /\ p_state p = ZOMBIE /\
    forall j q, (j < k - i)%nat -> l !! j = Some q -> p_parent q = Some cur -> p_state q <> ZOMBIE.
Proof.
  revert i b. induction l as [|p r IH]; intros i b E; cbn [wait_scan] in E; [done|].
  assert (Hrec : forall b', wait_scan cur r (S i) b' = (hk, Some k) ->
    (p_parent p = Some cur -> p_state p <> ZOMBIE) ->
    exists p0, (i <= k)%nat /\ (p :: r) !! (k - i)%nat = Some p0 /\ p_parent p0 = Some cur /\ p_state p0 = ZOMBIE /\
      forall j q, (j < k - i)%nat -> (p :: r) !! j = Some q -> p_parent q = Some cur -> p_state q <> ZOMBIE).
  { intros b' E' Hno. destruct (IH _ _ E') as (p0 & Hk & Hl & Hpar & Hz & Hlt). exists p0.
    replace (k - i)%nat with (S (k - S i)) by lia. split_and!; [lia|done|done|done|].
    intros [|j] q Hj Hq; [by injection Hq as <-|]. apply (Hlt j); [lia|done]. }
  case_bool_decide as Hp; [|by apply (Hrec b)].
  destruct (in_state ZOMBIE p) eqn:Hz.
  - injection E as <- <-. exists p. rewrite Nat.sub_diag. apply in_state_true in Hz.
    split_and!; [lia|done|done|done|]. lia.
  - apply (Hrec true); [done|]. intros _ Hs. apply in_state_true in Hs. congruence.
Qed.

(** The slot of a process that is gone: free, without pid, parent, kill flag,
    name, stack and page table; its old credentials and the rest stay in it. *)
Record freed (p p' : proc) : Prop := {
  fr_state : p_state p' = UNUSED;
  fr_pid : p_pid p' = 0;
  fr_parent : p_parent p' = None;
  fr_killed : p_killed p' = false;
  fr_name : p_name p' = <[0%nat := 0]> (p_name p);
  fr_memory : p_kstack p' = false /\ p_pgdir p' = false /\ p_sz p' = p_sz p;
  fr_ids : p_uid p' = p_uid p /\ p_euid p' = p_euid p /\ p_gids p' = p_gids p;
  fr_rest : p_chan p' = p_chan p /\ p_ofile p' = p_ofile p /\ p_cwd p' = p_cwd p
}.

Lemma freed_reap p p' : freed p p' <-> p' = reap p.
Proof.
  split; [|intros ->; by split]. intros [H1 H2 H3 H4 H5 (H6 & H7 & H8) (H9 & H10 & H11) (H12 & H13 & H14)].
  destruct p, p'. cbn in *. by subst.
Qed.

(** The three outcomes of [wait]. *)
Inductive wait_result (cur : nat) (s : kst) : option Z -> kst -> Prop :=
  | wait_reaps k p p' :
      procs s !! k = Some p -> p_parent p = Some cur -> p_state p = ZOMBIE ->
      (forall j q, (j < k)%nat -> procs s !! j = Some q -> p_parent q = Some cur -> p_state q <> ZOMBIE) ->
      freed p p' ->
      wait_result cur s (Some (p_pid p)) (with_procs s (<[k := p']> (procs s)))
  | wait_fails me :
      procs s !! cur = Some me ->
      (forall j q, procs s !! j = Some q -> p_parent q = Some cur -> p_state q <> ZOMBIE) ->
      p_killed me = true \/ (forall j q, procs s !! j = Some q -> p_parent q <> Some cur) ->
      wait_result cur s (Some (-1)) s
  | wait_sleeps me :
      procs s !! cur = Some me -> p_killed me = false ->
      (forall j q, procs s !! j = Some q -> p_parent q = Some cur -> p_state q <> ZOMBIE) ->
      (exists j q, procs s !! j = Some q /\ p_parent q = Some cur) ->
      wait_result cur s None
        (with_procs s (<[cur := set_state SLEEPING (set_chan (Some (ChProc cur)) me)]> (procs s))).

Lemma wait_run cur s me : procs s !! cur = Some me ->
  exists r s', wait cur s = Ret r s' /\ wait_result cur s r s'.
Proof.
  intros Hme. unfold wait. rewrite bind_gets, (getp_bind _ _ _ _ Hme).
  destruct (wait_scan cur (procs s) 0 false) as [hk [k|]] eqn:E.
  - apply wait_scan_some in E as (p & _ & Hk & Hpar & Hz & Hlt). rewrite Nat.sub_0_r in Hk, Hlt.
    rewrite (getp_bind _ _ _ _ Hk), (setp_bind _ _ _ _ _ Hk). do 2 eexists. split; [done|].
    apply wait_reaps; [done..|]. by apply freed_reap.
  - apply wait_scan_none in E as [Hz Hkids]. destruct hk; simpl.
    + destruct (p_killed me) eqn:Hkl.
      * do 2 eexists. split; [done|]. eapply wait_fails; eauto.
      * unfold sleep. rewrite (setp_bind _ _ _ _ _ Hme). do 2 eexists. split; [done|].
        apply wait_sleeps; [done..|]. destruct Hkids as [Hk _]. by destruct (Hk eq_refl).
    + do 2 eexists. split; [done|]. eapply wait_fails; [done|done|right]. intros j q Hj Hq.
      assert (false = true); [|done]. apply Hkids. right. by exists j, q.
Qed.

Lemma tree_reap s k p cur : tree s -> procs s !! k = Some p -> p_parent p = Some cur -> p_state p = ZOMBIE ->
  tree (with_procs s (<[k := reap p]> (procs s))).
Proof.
  intros T Hk Hpar Hz.
  assert (Hnp : forall j q, procs s !! j = Some q -> p_parent q <> Some k).
  { intros j q Hj Hq. destruct (tr_parent s T _ _ _ Hj Hq) as (_ & x & Hx & Ha).
    apply alive_not_unused in Ha as [_ Ha]. congruence. }
  assert (B : forall j q, <[k:=reap p]> (procs s) !! j = Some q ->
            j = k /\ q = reap p \/ j <> k /\ procs s !! j = Some q).
  { intros j q. rewrite list_lookup_insert_Some. naive_solver. }
  assert (F : forall j q, procs s !! j = Some q -> alive q -> j <> k /\ <[k:=reap p]> (procs s) !! j = Some q).
  { intros j q Hj Ha. apply alive_not_unused in Ha as [_ Ha]. assert (j <> k) by congruence.
    by rewrite list_lookup_insert_ne. }
  split; cbn [procs with_procs nextpid initproc].
  - rewrite length_insert. apply T.
  - destruct (tr_init s T) as (i & q & Hi & Hq & Ha & Hr). destruct (F _ _ Hq Ha). by exists i, q.
  - intros j q [[-> ->]|[_ Hq]]%B; [done|]. by apply (tr_embryo s T j).
  - intros j q [[-> ->]|[_ Hq]]%B Hu; [done|]. by apply (tr_unused s T j).
  - intros j q r [[-> ->]|[_ Hq]]%B Hr; [done|]. destruct (tr_parent s T _ _ _ Hq Hr) as (Hn & x & Hx & Ha).
    split; [done|]. destruct (F _ _ Hx Ha). by exists x.
  - intros j q [[-> ->]|[_ Hq]]%B Hu Hr; [done|]. by apply (tr_orphan s T j q).
  - intros j q [[-> ->]|[_ Hq]]%B Hu; [done|]. by apply (tr_pid s T j q).
  - intros i j q r [[-> ->]|[_ Hq]]%B [[-> ->]|[_ Hr]]%B Hu Hv E; try done. by apply (tr_distinct s T i j q r).
  - intros j q c [[-> ->]|[_ Hq]]%B Hs Hch; [done|]. destruct (tr_wait s T _ _ _ Hq Hs Hch) as [-> Hw].
    split; [done|]. intros i r [[-> ->]|[_ Hr]]%B Hri; [done|]. by apply (Hw i).
Qed.

(** ** Runs of the kernel

    A step is one operation by a running process, a wakeup, or a choice of the
    scheduler.  Operations that panic are not steps. *)

Definition running (s : kst) (cur : nat) : Prop :=
  exists p, procs s !! cur = Some p /\ p_state p = RUNNING.

Inductive kstep (s s' : kst) : Prop :=
  | k_fork cur k c r : running s cur -> fork cur k c s = Ret r s' -> kstep s s'
  | k_exit cur : running s cur -> exit cur s = Ret tt s' -> kstep s s'
  | k_wait cur r : running s cur -> wait cur s = Ret r s' -> kstep s s'
  | k_sleep cur c : running s cur -> (forall q, c <> ChProc q) -> sleep cur c s = Ret tt s' -> kstep s s'
  | k_yield cur : running s cur -> yield cur s = Ret tt s' -> kstep s s'
  | k_kill pid r : kill pid s = Ret r s' -> kstep s s'
  | k_setuid cur a v r : running s cur -> sys_setuid cur a v s = Ret r s' -> kstep s s'
  | k_setgroups cur n l r : running s cur -> sys_setgroups cur n l s = Ret r s' -> kstep s s'
  | k_dup cur fd r : running s cur -> sys_dup cur fd s = Ret r s' -> kstep s s'
  | k_close cur fd r : running s cur -> sys_close cur fd s = Ret r s' -> kstep s s'
  | k_pipe cur ok page r : running s cur -> sys_pipe cur ok page s = Ret r s' -> kstep s s'
  | k_wakeup c : wakeup1 c s = Ret tt s' -> kstep s s'
  | k_schedule i : schedule i s = Ret tt s' -> kstep s s'.

(** The tables at boot: static data, so all zero, but for the reference that
    [namei] takes on the root directory. *)
Definition zero_proc : proc :=
  {| p_state := UNUSED; p_pid := 0; p_parent := None; p_chan := None; p_killed := false;
     p_ofile := replicate NOFILE None; p_cwd := None; p_name := replicate 16 0;
     p_uid := 0; p_euid := 0; p_gids := replicate NGIDS 0; p_sz := 0; p_kstack := false; p_pgdir := false |}.

Definition zero_file : file :=
  {| f_type := FD_NONE; f_ref := 0; f_readable := false; f_writable := false;
     f_pipe := None; f_ip := None; f_off := 0 |}.

Definition NINODE : nat := 50.

Definition zero_tables : kst :=
  {| procs := replicate NPROC zero_proc; nextpid := 1; initproc := None;
     files := replicate NFILE zero_file; irefs := replicate NINODE 0; pipes := ∅ |}.

Definition after {S A} (o : outcome S A) : S := match o with Ret _ s | Stop _ s => s end.

Definition booted : kst := after (userinit true true 0 zero_tables).

Lemma quiet_tree {A} (m : M kst A) s a s' : quiet m -> m s = Ret a s' -> tree s -> tree s' /\ nextpid s' = nextpid s.
Proof. intros Q E T. pose proof (Q _ _ _ E) as C. split; [by eapply tree_calm|apply C]. Qed.

Lemma setp_next i f s a s' : setp i f s = Ret a s' -> nextpid s' = nextpid s.
Proof. unfold setp. destruct (procs s !! i); [|done]. by injection 1 as _ <-. Qed.

(** A change of state between the three states of a living process. *)
Lemma keeps_alive p st : alive p -> st = SLEEPING \/ st = RUNNABLE \/ st = RUNNING ->
  forall p', p_state p' = st -> p_pid p' = p_pid p -> p_parent p' = p_parent p -> keeps p p'.
Proof.
  intros Ha Hst p' E E1 E2. pose proof (alive_not_unused p Ha) as [H1 H2]. unfold keeps, alive.
  rewrite E. split_and!; [by left|done|done| | |]; destruct Hst as [->|[->| ->]]; naive_solver.
Qed.

Lemma keeps_state p p' : p_state p' = p_state p -> p_pid p' = p_pid p -> p_parent p' = p_parent p -> keeps p p'.
Proof. intros E E1 E2. unfold keeps, alive. rewrite E. naive_solver. Qed.

Lemma waits_well_not s i p : p_state p <> SLEEPING -> waits_well s i p.
Proof. intros H c Hs. done. Qed.

Lemma waits_well_state s i p p' : waits_well s i p -> p_state p' = p_state p -> p_chan p' = p_chan p ->
  waits_well s i p'.
Proof. intros W E1 E2 c. rewrite E1, E2. apply W. Qed.

Lemma setp_inv {A} i f (k : unit -> M kst A) s a s' : bind (setp i f) k s = Ret a s' ->
  exists s1, setp i f s = Ret tt s1 /\ k tt s1 = Ret a s'.
Proof. unfold bind. destruct (setp i f s) as [[] s1|] eqn:E; [|done]. eauto. Qed.

Lemma getp_inv {A} i (k : proc -> M kst A) s a s' : bind (getp i) k s = Ret a s' ->
  exists p, procs s !! i = Some p /\ k p s = Ret a s'.
Proof. unfold bind, getp, lift. destruct (procs s !! i) as [p|]; [|done]. eauto. Qed.

Lemma lift_inv {A B} (o : option B) (k : B -> M kst A) s a s' : bind (lift o) k s = Ret a s' ->
  exists b, o = Some b /\ k b s = Ret a s'.
Proof. unfold bind, lift. destruct o as [b|]; [|done]. eauto. Qed.

Lemma tree_living s i f a s' : tree s -> setp i f s = Ret a s' -> (exists p, procs s !! i = Some p /\ alive p) ->
  (forall p, (p_state (f p) = RUNNABLE \/ p_state (f p) = RUNNING \/
              p_state (f p) = SLEEPING /\ forall q, p_chan (f p) <> Some (ChProc q)) /\
             p_pid (f p) = p_pid p /\ p_parent (f p) = p_parent p) -> tree s'.
Proof.
  intros T E (p & Hp & Ha) H. apply (tree_setp s i f a s' T E). intros q Hq.
  assert (q = p) as -> by congruence. destruct (H p) as (Hst & H1 & H2). split.
  - eapply (keeps_alive p _ Ha); [|done..]. naive_solver.
  - intros c Hs Hch. destruct Hst as [?|[?|[_ Hn]]]; [congruence..|]. by apply Hn in Hch.
Qed.

Lemma tree_same s i f a s' : tree s -> setp i f s = Ret a s' ->
  (forall p, p_state (f p) = p_state p /\ p_pid (f p) = p_pid p /\ p_parent (f p) = p_parent p /\
             p_chan (f p) = p_chan p) -> tree s'.
Proof.
  intros T E H. apply (tree_setp s i f a s' T E). intros p Hp. destruct (H p) as (H1 & H2 & H3 & H4).
  split; [by apply keeps_state|]. by apply (waits_well_state s i p); [apply tree_waits| |].
Qed.

Lemma setp_lookup i f s a s' p : setp i f s = Ret a s' -> procs s !! i = Some p -> procs s' !! i = Some (f p).
Proof.
  unfold setp. intros E Hp. rewrite Hp in E. injection E as _ <-. simpl.
  apply list_lookup_insert_eq. by eapply lookup_lt_Some.
Qed.

Lemma tree_kill pid s r s' : tree s -> kill pid s = Ret r s' -> tree s' /\ nextpid s' = nextpid s.
Proof.
  intros T E. unfold kill in E. rewrite bind_gets in E.
  destruct (first_slot _ _ _) as [i|]; [|by injection E as _ <-].
  apply setp_inv in E as (s1 & E1 & E). apply setp_inv in E as (s2 & E2 & E). injection E as _ <-.
  assert (T1 : tree s1) by (eapply tree_same; eauto; intros; done).
  split; [|by rewrite (setp_next _ _ _ _ _ E2), (setp_next _ _ _ _ _ E1)].
  apply (tree_setp s1 i _ tt s2 T1 E2). intros p Hp. destruct (in_state SLEEPING p) eqn:Hs.
  - apply in_state_true in Hs. split; [|by apply waits_well_not].
    eapply (keeps_alive p); [by left|right; by left|done..].
  - split; [by apply keeps_state|by apply tree_waits].
Qed.

Lemma tree_schedule i s a s' : tree s -> schedule i s = Ret a s' -> tree s' /\ nextpid s' = nextpid s.
Proof.
  intros T E. unfold schedule in E. apply getp_inv in E as (p & Hp & E).
  destruct (in_state RUNNABLE p) eqn:Hr; [|done]. apply in_state_true in Hr.
  apply setp_inv in E as (s1 & E1 & E2). split; [|by rewrite (setp_next _ _ _ _ _ E2), (setp_next _ _ _ _ _ E1)].
  assert (T1 : tree s1).
  { apply (tree_living _ _ _ _ _ T E1); [exists p; split; [done|right; by left]|]. intros. simpl. auto. }
  pose proof (setp_lookup _ _ _ _ _ _ E1 Hp) as Hp1.
  apply (tree_setp _ _ _ _ _ T1 E2). intros q Hq. rewrite Hp1 in Hq. injection Hq as <-.
  split; [by apply keeps_state|by apply waits_well_not].
Qed.

Lemma tree_wait_step cur s r s' : tree s -> running s cur -> wait cur s = Ret r s' ->
  tree s' /\ nextpid s' = nextpid s.
Proof.
  intros T (me & Hme & Hrun) E. destruct (wait_run cur s me Hme) as (r' & s1 & E' & W).
  rewrite E in E'. injection E' as <- <-. destruct W as [k p p' Hk Hpar Hz _ Hfr|me' _ _ _|me' Hme' _ Hz _].
  - apply freed_reap in Hfr as ->. split; [by eapply tree_reap|done].
  - done.
  - split; [|done]. assert (me' = me) as -> by congruence.
    apply (tree_setp s cur _ _ _ T (setp_eq s cur me (fun p => set_state SLEEPING (set_chan _ p)) Hme)).
     intros q Hq. assert (q = me) as -> by congruence.
    split; [apply (keeps_alive me SLEEPING); [right; by right|by left|done..]|].
    intros c _ Hc. injection Hc as <-. done.
Qed.

Lemma tree_step s s' : tree s -> 0 < nextpid s < 2 ^ 31 - 1 -> kstep s s' ->
  tree s' /\ nextpid s <= nextpid s' <= nextpid s + 1.
Proof.
  intros T Hn K.
  assert (Hsame : tree s' /\ nextpid s' = nextpid s -> tree s' /\ nextpid s <= nextpid s' <= nextpid s + 1)
    by (intros [? ->]; split; [done|lia]).
  destruct K as [cur k c r R E|cur R E|cur r R E|cur c R Hc E|cur R E|pid r E|cur a v r R E|cur n l r R E
    |cur fd r R E|cur fd r R E|cur ok page r R E|c E|i E].
  - destruct R as (pc & Hpc & Hrun).
    destruct (fork_run cur k c s r s' E) as [[_ F]|(_ & np & p0 & p' & F)]; [exists pc; split; congruence| |].
    + split; [by eapply tree_fork_failed|]. destruct (ff_next _ _ F) as [->| ->]; [lia|].
      rewrite s32_small; lia.
    + split; [by eapply tree_fork; [| | |right; right|]|]. rewrite (fk_next _ _ _ _ _ _ F), s32_small; lia.
  - destruct (exit_run cur s s' E (tr_length s T)) as (Hi & p & p' & X). apply Hsame.
    destruct R as (q & Hq & Hrun). assert (p = q) as -> by (pose proof (ex_old _ _ _ _ _ X); congruence).
    split; [by eapply tree_exit|apply X].
  - apply Hsame. by eapply tree_wait_step.
  - apply Hsame. split; [|by eapply setp_next]. destruct R as (p & Hp & Hrun).
    apply (tree_living _ _ _ _ _ T E); [exists p; split; [done|right; by right]|].
    intros q. simpl. split; [|done]. right. right. split; [done|]. intros x Hx. injection Hx as Hx. by apply (Hc x).
  - apply Hsame. split; [|by eapply setp_next]. destruct R as (p & Hp & Hrun).
    apply (tree_living _ _ _ _ _ T E); [exists p; split; [done|right; by right]|]. intros q. simpl. auto.
  - apply Hsame. by eapply tree_kill.
  - apply Hsame. unfold sys_setuid in E. apply getp_inv in E as (p & Hp & E).
    destruct (negb _); [by injection E as _ <-|]. apply lift_inv in E as (u & _ & E).
    apply setp_inv in E as (s1 & E & E2). injection E2 as _ <-.
    split; [|by eapply setp_next]. apply (tree_same _ _ _ _ _ T E). done.
  - apply Hsame. unfold sys_setgroups in E. apply getp_inv in E as (p & Hp & E).
    destruct (negb _); [by injection E as _ <-|]. destruct n as [n|], l as [l|]; try by injection E as _ <-.
    apply lift_inv in E as (u & _ & E). apply setp_inv in E as (s1 & E & E2). injection E2 as _ <-.
    split; [|by eapply setp_next]. apply (tree_same _ _ _ _ _ T E). done.
  - apply Hsame. eapply quiet_tree; [apply quiet_sys_dup|done|done].
  - apply Hsame. eapply quiet_tree; [apply quiet_sys_close|done|done].
  - apply Hsame. eapply quiet_tree; [apply quiet_sys_pipe|done|done].
  - apply Hsame. eapply quiet_tree; [apply quiet_wakeup1|done|done].
  - apply Hsame. by eapply tree_schedule.
Qed.

(** ** Boot *)

Lemma booted_run : userinit true true 0 zero_tables = Ret tt booted.
Proof. vm_compute. reflexivity. Qed.

Lemma booted_procs : procs booted =
  {| p_state := RUNNABLE; p_pid := 1; p_parent := None; p_chan := None; p_killed := false;
     p_ofile := replicate NOFILE None; p_cwd := Some 0%nat; p_name := chars "initcode" ++ replicate 8 0;
     p_uid := 0; p_euid := 0; p_gids := replicate NGIDS 0; p_sz := 4096; p_kstack := true; p_pgdir := true |}
  :: replicate 63 zero_proc.
Proof. vm_compute. reflexivity. Qed.

Lemma booted_rest j p : procs booted !! S j = Some p -> p = zero_proc.
Proof. rewrite booted_procs. cbn [lookup list_lookup]. by intros [-> _]%lookup_replicate. Qed.

Lemma booted_first p : procs booted !! 0%nat = Some p ->
  p_state p = RUNNABLE /\ p_pid p = 1 /\ p_parent p = None.
Proof. rewrite booted_procs. by intros [= <-]. Qed.

Lemma tree_booted : tree booted.
Proof.
  assert (Hu : forall j p, procs booted !! j = Some p -> p_state p <> UNUSED ->
            j = 0%nat /\ p_state p = RUNNABLE /\ p_pid p = 1 /\ p_parent p = None).
  { intros [|j] p Hp Hs; [split; [done|by apply booted_first]|]. by apply booted_rest in Hp as ->. }
  assert (Hp : forall j p, procs booted !! j = Some p -> p_parent p = None).
  { intros [|j] p Hp; [by apply booted_first|]. by apply booted_rest in Hp as ->. }
  assert (Hs : forall j p, procs booted !! j = Some p -> p_state p = UNUSED \/ p_state p = RUNNABLE).
  { intros [|j] p Hj; [right; by apply booted_first|left]. by apply booted_rest in Hj as ->. }
  split.
  - by rewrite booted_procs.
  - exists 0%nat. eexists. split; [vm_compute; reflexivity|]. rewrite booted_procs. split; [done|].
    split; [|done]. right. by left.
  - intros i p Hi. destruct (Hs i p Hi) as [->| ->]; done.
  - intros i p Hi _. by eapply Hp.
  - intros i p q Hi Hq. apply Hp in Hi. congruence.
  - intros i p Hi Hn _. destruct (Hu i p Hi Hn) as (-> & _). by vm_compute.
  - intros i p Hi Hn. destruct (Hu i p Hi Hn) as (_ & _ & -> & _).
    assert (nextpid booted = 2) as -> by (vm_compute; reflexivity). lia.
  - intros i j p q Hi Hj Hn Hm _. destruct (Hu i p Hi Hn) as [-> _]. by destruct (Hu j q Hj Hm) as [-> _].
  - intros i p c Hi Hsl _. destruct (Hs i p Hi); congruence.
Qed.

Lemma run_tree n s : nsteps kstep n booted s -> Z.of_nat n < 2 ^ 31 - 3 ->
  tree s /\ 0 < nextpid s <= 2 + Z.of_nat n.
Proof.
  revert s. induction n as [|n IH]; intros s Hs Hn.
  - inversion Hs; subst. split; [apply tree_booted|]. assert (nextpid booted = 2) as -> by (vm_compute; reflexivity). lia.
  - apply nsteps_inv_r in Hs as (s1 & Hs1 & K). destruct (IH s1 Hs1) as [T Hp]; [lia|].
    destruct (tree_step s1 s T ltac:(lia) K) as [T' Hp']. split; [done|lia].
Qed.

(** ** The properties *)

(** C19. The process tree.  After any sequence of forks, exits, waits, sleeps,
    wakeups, kills, credential and descriptor calls and scheduling choices
    from boot (shorter than the range of [nextpid]): the initial process is
    alive; every other process has a parent, which is alive; free slots have
    no parent; live pids are distinct and positive; and no process sleeps in
    [wait] while one of its children is a zombie, so no exit is missed. *)
Theorem process_tree n s :
  nsteps kstep n booted s -> Z.of_nat n < 2 ^ 31 - 3 -> tree s.
Proof. intros Hs Hn. by destruct (run_tree n s Hs Hn). Qed.

(** The run in which init is scheduled, forks and waits. *)
Definition run1 : kst := after (schedule 0 booted).
Definition run2 : kst := after (fork 0 true true run1).
Definition run3 : kst := after (wait 0 run2).

Lemma run1_step : kstep booted run1.
Proof. apply (k_schedule _ _ 0). vm_compute. reflexivity. Qed.

Lemma running_intro s cur : (exists p, procs s !! cur = Some p /\ in_state RUNNING p = true) -> running s cur.
Proof. intros (p & Hp & E). exists p. split; [done|by apply in_state_true]. Qed.

Ltac at_slot := apply running_intro; eexists; split; [vm_compute; reflexivity|vm_compute; reflexivity].

Lemma run2_step : kstep run1 run2.
Proof. eapply (k_fork _ _ 0 true true); [at_slot|vm_compute; reflexivity]. Qed.

Lemma run3_step : kstep run2 run3.
Proof. eapply (k_wait _ _ 0); [at_slot|vm_compute; reflexivity]. Qed.

Lemma process_tree_witness : nsteps kstep 3 booted run3 /\ tree run3.
Proof.
  assert (H : nsteps kstep 3 booted run3).
  { eapply nsteps_l; [apply run1_step|]. eapply nsteps_l; [apply run2_step|].
    eapply nsteps_l; [apply run3_step|]. constructor. }
  split; [exact H|]. apply (process_tree 3 run3 H). reflexivity.
Defined.

(** C20. [wait].  Called by a process of the table, it returns, in one of three
    ways: it takes the first of its children that is a zombie, returns that
    child's pid and frees the slot, which then has no pid, parent, kill flag,
    name, stack or page table, changing nothing else; it returns -1 when
    it has no zombie child and either no child at all or the kill flag; or it
    goes to sleep on its own process structure, when it has children and none
    is a zombie. *)
Theorem wait_correct cur s me :
  procs s !! cur = Some me -> exists r s', wait cur s = Ret r s' /\ wait_result cur s r s'.
Proof. apply wait_run. Qed.

(** [exit] wakes its parent.  When a child of [q] exits while [q] sleeps in
    [wait], then afterwards [q] is runnable, its next [wait] returns a pid
    without sleeping, and the child, now a zombie, is still its child. *)
Theorem exit_wakes_wait cur q s s' p pq :
  tree s -> running s cur -> exit cur s = Ret tt s' ->
  procs s !! cur = Some p -> p_parent p = Some q -> procs s !! q = Some pq ->
  p_state pq = SLEEPING -> p_chan pq = Some (ChProc q) ->
  exists p' pq', procs s' !! cur = Some p' /\ p_state p' = ZOMBIE /\ p_parent p' = Some q /\
    procs s' !! q = Some pq' /\ p_state pq' = RUNNABLE /\
    exists pid s2, wait q s' = Ret (Some pid) s2 /\ pid <> -1.
Proof.
  intros T (p1 & Hp1 & Hrun) E Hp Hpar Hq Hs Hch. assert (p1 = p) as -> by congruence. clear Hp1.
  destruct (exit_run cur s s' E (tr_length s T)) as (Hi & p1 & p' & X).
  assert (p1 = p) as -> by (pose proof (ex_old _ _ _ _ _ X); congruence).
  destruct (tr_parent s T _ _ _ Hp Hpar) as [Hqc _].
  destruct (exited_alive _ _ _ _ _ q pq X) as (pq' & Hpq' & Ha & Hr); [done|done|by left|].
  assert (Hpp : p_parent p' = Some q).
  { rewrite (ex_parent _ _ _ _ _ X). destruct (reparent_parent cur (initproc s) p) as [[? _]|[_ ->]]; congruence. }
  pose proof (ex_new _ _ _ _ _ X) as Hnew. pose proof (ex_zombie _ _ _ _ _ X) as Hz.
  exists p', pq'. split_and!; [done..| |].
  - destruct (ex_others _ _ _ _ _ X q pq' Hqc Hpq') as (q0 & Hq0 & C). assert (q0 = pq) as -> by congruence.
    destruct (reparent_same cur (initproc s) pq) as (_ & R2 & R3). pose proof C as (_ & _ & C3 & _ & _ & _ & _ & C8).
    destruct C8 as [C8|[_ C8]]; [|done]. exfalso.
    apply (ex_wakes _ _ _ _ _ X q Hpar pq' Hpq'); congruence.
  - destruct (wait_run q s' pq' Hpq') as (r & s2 & Ew & W).
    pose proof (tree_exit _ _ _ _ _ T X Hi Hrun) as T'.
    destruct W as [k pk pk' Hk Hkp Hkz _ _|me _ Hno _|me _ _ Hno _].
    + eexists _, _. split; [exact Ew|]. pose proof (tr_pid s' T' k pk Hk ltac:(congruence)). lia.
    + by destruct (Hno cur p' Hnew Hpp).
    + by destruct (Hno cur p' Hnew Hpp).
Qed.

(** The child runs and exits. *)
Definition run4 : kst := after (schedule 1 run3).

Lemma run4_step : kstep run3 run4.
Proof. apply (k_schedule _ _ 1). vm_compute. reflexivity. Qed.

Lemma run4_tree : tree run4.
Proof.
  assert (H : nsteps kstep 4 booted run4).
  { eapply nsteps_l; [apply run1_step|]. eapply nsteps_l; [apply run2_step|].
    eapply nsteps_l; [apply run3_step|]. eapply nsteps_l; [apply run4_step|]. constructor. }
  apply (run_tree 4 run4 H). lia.
Qed.

Lemma exit_wakes_wait_witness : exists pid s2, wait 0 (after (exit 1 run4)) = Ret (Some pid) s2 /\ pid <> -1.
Proof.
  assert (H1 : exists p, procs run4 !! 1%nat = Some p /\ p_parent p = Some 0%nat)
    by (eexists; split; vm_compute; reflexivity).
  destruct H1 as (p & Hp & Hpar).
  assert (H0 : exists pq, procs run4 !! 0%nat = Some pq /\ p_state pq = SLEEPING /\ p_chan pq = Some (ChProc 0))
    by (eexists; split; [vm_compute; reflexivity|]; split; vm_compute; reflexivity).
  destruct H0 as (pq & Hq & Hs & Hc).
  destruct (exit_wakes_wait 1 0 run4 (after (exit 1 run4)) p pq) as (p' & pq' & _ & _ & _ & _ & _ & H);
    [apply run4_tree|at_slot|vm_compute; reflexivity|done..|exact H].
Defined.

(** ** Credentials *)

Definition ids (p : proc) : Z * Z * list Z := (p_uid p, p_euid p, p_gids p).

Lemma calm_ids p p' : calm p p' -> ids p' = ids p.
Proof. intros (_ & _ & _ & _ & E1 & E2 & E3 & _). unfold ids. congruence. Qed.

Lemma quiet_ids {A} (m : M kst A) s a s' j p p' : quiet m -> m s = Ret a s' ->
  procs s !! j = Some p -> procs s' !! j = Some p' -> ids p' = ids p.
Proof.
  intros Q E Hp Hp'. destruct (calmly_lookup s s' j p) as (q & Hq & C); [by eapply Q|done|].
  assert (q = p') as -> by congruence. by apply calm_ids.
Qed.

Lemma setp_ids i f s a s' j p p' : setp i f s = Ret a s' -> (forall p, ids (f p) = ids p) ->
  procs s !! j = Some p -> procs s' !! j = Some p' -> ids p' = ids p.
Proof.
  unfold setp. intros E Hf Hp Hp'. destruct (procs s !! i) as [q|] eqn:Hq; [|done]. injection E as _ <-.
  simpl in Hp'. apply list_lookup_insert_Some in Hp' as [(<- & <- & _)|[_ Hp']]; [|congruence].
  rewrite Hf. congruence.
Qed.

Lemma setp2_ids i f g s s1 a s' j p p' : setp i f s = Ret tt s1 -> setp i g s1 = Ret a s' ->
  (forall p, ids (f p) = ids p) -> (forall p, ids (g p) = ids p) ->
  procs s !! j = Some p -> procs s' !! j = Some p' -> ids p' = ids p.
Proof.
  intros E1 E2 Hf Hg Hp Hp'. destruct (lookup_lt_is_Some_2 (procs s1) j) as [p1 Hp1].
  { unfold setp in E1. destruct (procs s !! i); [|done]. injection E1 as <-. simpl.
    rewrite length_insert. by eapply lookup_lt_Some. }
  rewrite (setp_ids _ _ _ _ _ _ _ _ E2 Hg Hp1 Hp'). by apply (setp_ids i f s tt s1 j p p1 E1 Hf).
Qed.

Lemma fork_ids cur k c s r s' j p p' : running s cur -> fork cur k c s = Ret r s' ->
  procs s !! j = Some p -> procs s' !! j = Some p' -> p_state p <> UNUSED -> ids p' = ids p.
Proof.
  intros (pc & Hpc & Hrun) E Hp Hp' Hu.
  destruct (fork_run cur k c s r s' E) as [[_ F]|(_ & np & p0 & p1 & F)]; [exists pc; split; congruence| |].
  - destruct (ff_others _ _ F _ _ Hp') as (q & Hq & [->|(_ & U & _)]); congruence.
  - destruct (decide (j = np)) as [->|Hj]; [destruct F; congruence|].
    destruct (fk_others _ _ _ _ _ _ F _ _ Hj Hp') as (q & Hq & C). rewrite (calm_ids _ _ C). congruence.
Qed.

Lemma exit_ids cur s s' j p p' : length (procs s) = NPROC -> exit cur s = Ret tt s' ->
  procs s !! j = Some p -> procs s' !! j = Some p' -> ids p' = ids p.
Proof.
  intros L E Hp Hp'. destruct (exit_run cur s s' E L) as (Hi & q & q' & X).
  destruct (decide (j = cur)) as [->|Hj].
  - destruct X as [X1 X2 _ _ (I1 & I2 & I3)]. unfold ids. congruence.
  - destruct (ex_others _ _ _ _ _ X _ _ Hj Hp') as (x & Hx & C). rewrite (calm_ids _ _ C).
    assert (x = p) as -> by congruence. unfold reparent. by case_bool_decide.
Qed.

Lemma wait_ids cur s r s' j p p' : running s cur -> wait cur s = Ret r s' ->
  procs s !! j = Some p -> procs s' !! j = Some p' -> ids p' = ids p.
Proof.
  intros (me & Hme & _) E Hp Hp'. destruct (wait_run cur s me Hme) as (r' & s1 & E' & W).
  rewrite E in E'. injection E' as <- <-. destruct W as [k q q' Hk _ _ _ Hfr|? _ _ _|q Hq _ _ _].
  - apply freed_reap in Hfr as ->. by apply (setp_ids k reap _ _ _ _ _ _ (setp_eq _ _ _ _ Hk)) with (2 := Hp) (3 := Hp').
  - congruence.
  - by apply (setp_ids cur _ _ _ _ _ _ _
      (setp_eq _ _ _ (fun p => set_state SLEEPING (set_chan (Some (ChProc cur)) p)) Hq)) with (2 := Hp) (3 := Hp').
Qed.

(** The credential calls change their caller, which must have user id 0. *)
Lemma root_setp cur f q s s1 j p p' : running s cur -> procs s !! cur = Some q -> (p_uid q =? 0) = true ->
  setp cur f s = Ret tt s1 -> procs s !! j = Some p -> procs s1 !! j = Some p' -> ids p' <> ids p ->
  p_uid p = 0 /\ p_state p = RUNNING.
Proof.
  intros (q' & Hq' & Hrun) Hq Hz%Z.eqb_eq E1 Hp Hp' Hne. assert (q' = q) as -> by congruence.
  rewrite (setp_eq _ _ _ _ Hq) in E1. injection E1 as <-. simpl in Hp'.
  apply list_lookup_insert_Some in Hp' as [(-> & _ & _)|[_ Hp']]; [|congruence].
  by assert (q = p) as -> by congruence.
Qed.

(** C21. Only root changes credentials.  Over any single step of the kernel, if
    the user id, the effective user id or the groups of an existing process
    change, then that process was running with user id 0 before the step. *)
Theorem ids_only_root s s' j p p' :
  tree s -> kstep s s' -> procs s !! j = Some p -> procs s' !! j = Some p' ->
  p_state p <> UNUSED -> ids p' <> ids p -> p_uid p = 0 /\ p_state p = RUNNING.
Proof.
  intros T K Hp Hp' Hu Hne.
  destruct K as [cur k c r R E|cur R E|cur r R E|cur c R Hc E|cur R E|pid r E|cur a v r R E|cur n l r R E
    |cur fd r R E|cur fd r R E|cur ok page r R E|c E|i E].
  - by destruct Hne; eapply fork_ids.
  - by destruct Hne; eapply exit_ids; [apply T|..].
  - by destruct Hne; eapply wait_ids.
  - by destruct Hne; eapply setp_ids; [exact E|..].
  - by destruct Hne; eapply setp_ids; [exact E|..].
  - destruct Hne. unfold kill in E. rewrite bind_gets in E.
    destruct (first_slot _ _ _) as [i|]; [|injection E; congruence].
    apply setp_inv in E as (s1 & E1 & E). apply setp_inv in E as (s2 & E2 & E). injection E as _ <-.
    eapply setp2_ids; [exact E1|exact E2|done| |done|done]. intros x. simpl. by destruct (in_state SLEEPING x).
  - unfold sys_setuid in E. apply getp_inv in E as (q & Hq & E).
    destruct (p_uid q =? 0) eqn:Hz; simpl in E; [|injection E; congruence].
    apply lift_inv in E as (u & _ & E). apply setp_inv in E as (s1 & E1 & E). injection E as _ <-.
    by eapply root_setp.
  - unfold sys_setgroups in E. apply getp_inv in E as (q & Hq & E).
    destruct (p_uid q =? 0) eqn:Hz; simpl in E; [|injection E; congruence].
    destruct n as [n|], l as [l|]; try (injection E; congruence).
    apply lift_inv in E as (u & _ & E). apply setp_inv in E as (s1 & E1 & E). injection E as _ <-.
    by eapply root_setp.
  - by destruct Hne; eapply quiet_ids; [apply quiet_sys_dup|..].
  - by destruct Hne; eapply quiet_ids; [apply quiet_sys_close|..].
  - by destruct Hne; eapply quiet_ids; [apply quiet_sys_pipe|..].
  - by destruct Hne; eapply quiet_ids; [apply quiet_wakeup1|..].
  - destruct Hne. unfold schedule in E. apply getp_inv in E as (q & Hq & E).
    destruct (in_state RUNNABLE q); [|done]. apply setp_inv in E as (s1 & E1 & E2).
    by eapply setp2_ids; [exact E1|exact E2|..].
Qed.

(** The child makes itself user 1000, then forks. *)
Definition run5 : kst := after (sys_setuid 1 (Some 1000) 0 run4).
Definition run6 : kst := after (fork 1 true true run5).

Lemma ids_only_root_witness :
  exists p p', procs run4 !! 1%nat = Some p /\ procs run5 !! 1%nat = Some p' /\ p_uid p' = 1000 /\
    p_uid p = 0 /\ p_state p = RUNNING.
Proof.
  assert (H : exists p, procs run4 !! 1%nat = Some p /\ in_state UNUSED p = false /\ p_uid p = 0)
    by (eexists; split_and!; vm_compute; reflexivity).
  assert (H' : exists p', procs run5 !! 1%nat = Some p' /\ p_uid p' = 1000)
    by (eexists; split_and!; vm_compute; reflexivity).
  destruct H as (p & Hp & Hu & Hz), H' as (p' & Hp' & Hz'). exists p, p'. split_and!; [done..| |].
  all: destruct (ids_only_root run4 run5 1 p p') as [G1 G2];
    [apply run4_tree|eapply (k_setuid _ _ 1 (Some 1000) 0); [at_slot|vm_compute; reflexivity]|done|done| | |done].
  all: try (intros E; apply in_state_true in E; congruence); intros [= E _ _]; congruence.
Defined.

(** C22. The credentials of a forked process are not its parent's.  A fork that
    returns a pid takes a free slot of the table and makes it a runnable child
    of the caller with that pid; the user id, the effective user id, the groups
    and the kill flag of the child are those the slot had, whoever used it
    before.  In particular the child of any process is root when the slot has
    root's ids. *)
Theorem fork_takes_slot cur k c s r s' :
  running s cur -> fork cur k c s = Ret r s' -> r <> -1 ->
  exists np p0 p', procs s !! np = Some p0 /\ p_state p0 = UNUSED /\ procs s' !! np = Some p' /\
    p_state p' = RUNNABLE /\ p_pid p' = r /\ p_parent p' = Some cur /\
    ids p' = ids p0 /\ p_killed p' = p_killed p0.
Proof.
  intros (pc & Hpc & Hrun) E Hr.
  destruct (fork_run cur k c s r s' E) as [[-> _]|(-> & np & p0 & p' & F)]; [exists pc; split; congruence|done|].
  exists np, p0, p'. destruct F as [F1 F2 F3 F4 F5 F6 (I1 & I2 & I3) F7 _ _ _ _ _]. unfold ids.
  split_and!; try done. congruence.
Qed.

Definition uid_at (s : kst) (i : nat) : option Z := p_uid <$> procs s !! i.
Definition parent_at (s : kst) (i : nat) : option nat := procs s !! i ≫= p_parent.
Definition killed_at (s : kst) (i : nat) : option bool := p_killed <$> procs s !! i.

(** A child of an ordinary user that is root.  From boot, a process that has
    made itself user 1000 forks, and the kernel gives the child user id 0: a
    slot that has not been used before is zero. *)
Example forked_child_is_root :
  uid_at run5 1 = Some 1000 /\ fork 1 true true run5 = Ret 3 run6 /\
  parent_at run6 2 = Some 1%nat /\ uid_at run6 2 = Some 0.
Proof. vm_compute. split_and!; reflexivity. Qed.

(** The parent is user 1000, and the free slot root's. *)
Lemma fork_takes_slot_witness : uid_at run5 1 = Some 1000 /\ uid_at run6 2 = Some 0 /\
  exists np p0 p', procs run5 !! np = Some p0 /\ p_state p0 = UNUSED /\ procs run6 !! np = Some p' /\
    p_state p' = RUNNABLE /\ p_pid p' = 3 /\ p_parent p' = Some 1%nat /\
    ids p' = ids p0 /\ p_killed p' = p_killed p0.
Proof.
  split; [vm_compute; reflexivity|]. split; [vm_compute; reflexivity|].
  apply (fork_takes_slot 1 true true run5 3 run6); [at_slot|vm_compute; reflexivity|done].
Defined.

(** The child has exited and its parent, run again, waits for it. *)
Definition run7 : kst := after (schedule 0 (after (exit 1 run4))).

Lemma wait_correct_witness : exists r s', wait 0 run7 = Ret r s' /\ wait_result 0 run7 r s' /\
  r = Some 2 /\ p_state <$> procs s' !! 1%nat = Some UNUSED /\ p_pid <$> procs s' !! 1%nat = Some 0.
Proof.
  assert (C : match wait 0 run7 with
    | Ret r s' => r = Some 2 /\ p_state <$> procs s' !! 1%nat = Some UNUSED /\ p_pid <$> procs s' !! 1%nat = Some 0
    | Stop _ _ => False
    end) by (vm_compute; split_and!; reflexivity).
  assert (H : exists me, procs run7 !! 0%nat = Some me) by (eexists; vm_compute; reflexivity). destruct H as [me H].
  destruct (wait_correct 0 run7 me H) as (r & s' & E & W). rewrite E in C. exists r, s'. split; [exact E|]. split; [exact W|exact C].
Defined.

(** [kill(0)] succeeds and marks a free slot.  No process has pid 0, but
    free slots do: from boot, [kill(0)] returns 0, and the next process that
    is created starts with the kill flag set. *)
Theorem kill_zero_poisons :
  let s1 := after (kill 0 run1) in
  let s2 := after (fork 0 true true s1) in
  kill 0 run1 = Ret 0 s1 /\ fork 0 true true s1 = Ret 2 s2 /\
  killed_at run2 1 = Some false /\ killed_at s2 1 = Some true.
Proof. vm_compute. split_and!; reflexivity. Qed.
