(* ===== verification/Txn.v ===== *)
(** * Blocks inside a transaction

    What the log promises to the file system: the interface through which
    [kernel/fs.c] reads and changes blocks between [begin_op] and [end_op],
    and the proof that [kernel/log.c] over the buffer cache implements it.
    Also [readsb] of [kernel/fs.c] and [initlog] of [kernel/log.c], which use
    the cache directly. *)

From S2P Require Import Prelude Mem BufIface Log.

Class TxnOps (T : Type) : Type := {
  tx_bread : Z -> Z -> M T nat;
  tx_brelse : nat -> M T unit;
  tx_log_write : nat -> M T unit;
  tx_data : nat -> M T block;              (* reads b->data *)
  tx_store : nat -> block -> M T unit;     (* stores into b->data *)
  tx_begin_op : M T unit;
  tx_end_op : M T unit
}.

#[export] Instance log_txn_ops {S : Type} `{BufCache S} : TxnOps (lstate S) := {
  tx_bread dev b := onc (bread dev b);
  tx_brelse b := onc (brelse b);
  tx_log_write := log_write;
  tx_data := data_of;
  tx_store := store_data;
  tx_begin_op := begin_op;
  tx_end_op := end_op
}.

(** ** The super block *)

Record superblock : Type := {
  sb_size : Z;
  sb_nblocks : Z;
  sb_ninodes : Z;
  sb_nlog : Z;
  sb_logstart : Z;
  sb_inodestart : Z;
  sb_bmapstart : Z
}.

(** The bytes of a [struct superblock]. *)
Definition superblock_of (d : block) : option superblock :=
  size ← load 4 d 0; nblocks ← load 4 d 4; ninodes ← load 4 d 8; nlog ← load 4 d 12;
  logstart ← load 4 d 16; inodestart ← load 4 d 20; bmapstart ← load 4 d 24;
  Some {| sb_size := size; sb_nblocks := nblocks; sb_ninodes := ninodes; sb_nlog := nlog;
          sb_logstart := logstart; sb_inodestart := inodestart; sb_bmapstart := bmapstart |}.

Definition readsb {T : Type} `{TxnOps T} (dev : Z) : M T superblock :=
  let! bp := tx_bread dev 1 in
  let! d := tx_data bp in
  let! sb := lift (superblock_of d) in
  tx_brelse bp then!
  ret sb.

(** [sizeof(struct logheader)] is 124, less than [BSIZE]. *)
Definition initlog {S : Type} `{BufCache S} (dev : Z) : M (lstate S) unit :=
  let! sb := readsb dev in
  setl (fun l => {| l_start := s32 (sb_logstart sb); l_size := s32 (sb_nlog sb);
                    l_outstanding := l_outstanding l; l_committing := l_committing l;
                    l_dev := dev; l_n := l_n l; l_block := l_block l |}) then!
  recover_from_log.

(** The layout of the disk for the log: the blocks from [tg_lo] on can be
    logged, and a transaction holds [tg_cap] of them; [tg_ops] operations are
    open in it. *)
Record tgeo : Type := { tg_lo : Z; tg_cap : nat; tg_ops : Z }.

(** [txn g s v h u L]: in state [s] a transaction is open in which the blocks
    have the contents [v], the buffers [h] are locked, the blocks [u] have
    been changed and not yet logged, and the blocks [L] have been logged. *)
Class TxnView (T : Type) : Type := {
  txn : tgeo -> T -> list block -> gmap nat Z -> gset Z -> gset Z -> Prop
}.

Abbreviation img h := (map_img h : gset Z).

Class TxnLaws (T : Type) `{TxnOps T, TxnView T} : Prop := {
  txn_wf g s v h u L : txn g s v h u L -> blocks_wf v;
  txn_cap g s v h u L : txn g s v h u L -> (tg_cap g < NBUF)%nat;
  txn_logged g s v h u L : txn g s v h u L -> (size L <= tg_cap g)%nat;
  txn_bread g s v h u L n :
    txn g s v h u L -> 0 <= n < Z.of_nat (length v) -> n ∉ img h -> (size (L ∪ img h) < NBUF)%nat ->
    wp (tx_bread ROOTDEV n) s (fun b s' => h !! b = None /\ txn g s' v (<[b := n]> h) u L);
  txn_data g s v h u L b n d :
    txn g s v h u L -> h !! b = Some n -> v !! at_ n = Some d ->
    wp (tx_data b) s (fun x s' => x = d /\ s' = s);
  txn_store g s v h u L b n d :
    txn g s v h u L -> h !! b = Some n -> length d = BSIZE ->
    wp (tx_store b d) s (fun _ s' => txn g s' (<[at_ n := d]> v) h ({[n]} ∪ u) L);
  txn_log_write g s v h u L b n :
    txn g s v h u L -> h !! b = Some n -> tg_lo g <= n -> (size L < tg_cap g)%nat ->
    wp (tx_log_write b) s (fun _ s' => txn g s' v h (u ∖ {[n]}) ({[n]} ∪ L));
  txn_brelse g s v h u L b n :
    txn g s v h u L -> h !! b = Some n -> n ∉ u ->
    wp (tx_brelse b) s (fun _ s' => txn g s' v (delete b h) u L)
}.

(** ** The log implements the interface *)

Section log_txn.
Context {S : Type} {ops : BufCache S} {cv : CacheView S} {laws : BufCacheLaws S}.
Implicit Types (s : lstate S) (v : list block) (h : gmap nat Z) (u L : gset Z).

Record log_txn_at (g : tgeo) s v h u L : Prop := {
  lt_inv : log_inv s;
  lt_view : view (cache s) = v;
  lt_held : held (cache s) = h;
  lt_logged : L = list_to_set (homes (lg s));
  lt_nodup : NoDup (homes (lg s));
  lt_out : l_outstanding (lg s) = tg_ops g;
  lt_open : 1 <= tg_ops g;
  lt_quiet : l_committing (lg s) = 0;
  lt_lo : l_start (lg s) + l_size (lg s) <= tg_lo g;
  lt_cap : tg_cap g = Z.to_nat (l_size (lg s) - 1);
  lt_clean b n : h !! b = Some n -> n ∉ u -> n ∈ L \/ v !! at_ n = disk (cache s) !! at_ n
}.

#[export] Instance log_txn_view : TxnView (lstate S) := { txn := log_txn_at }.

Lemma log_txn_size g s v h u L : log_txn_at g s v h u L ->
  size L = Z.to_nat (l_n (lg s)) /\ Z.of_nat (size L) = l_n (lg s) /\ l_size (lg s) <= Z.of_nat NBUF.
Proof.
  intros [H1 H2 H3 -> H5 H6 Ho Hq H7 H8 H9]. rewrite size_list_to_set by done.
  destruct H1 as [G1 G2 G3 G4 G5 G6]. rewrite (homes_length _ _ G1 G3). pose proof (lo_n _ _ G3). lia.
Qed.

Lemma log_bread_law g s v h u L n :
  log_txn_at g s v h u L -> 0 <= n < Z.of_nat (length v) -> n ∉ img h -> (size (L ∪ img h) < NBUF)%nat ->
  wp (onc (bread ROOTDEV n)) s (fun b s' => h !! b = None /\ log_txn_at g s' v (<[b := n]> h) u L).
Proof.
  intros H Hn Hh Hr. destruct s as [c l]. pose proof H as [H1 H2 H3 H4 H5 H6 Ho Hq H7 H8 H9].
  pose proof H1 as [G1 G2 G3 G4 G5 G6]. cbn [cache lg] in *.
  assert (Hk : looks c (disk c) v h L (written c)) by (split; try done; congruence).
  eapply wp_bread; [exact Hk| |done|by right|].
  { rewrite <- (view_length c) by done. by rewrite H2. }
  intros b c' Hb K. pose proof K as [K1 K2 K3 K4 K5 K6]. split; [done|].
  split; cbn [cache lg]; try done.
  - split; cbn [cache lg]; rewrite ?K2; try done. congruence.
  - intros b' n' Hb' Hu. rewrite K2. destruct (decide (b' = b)) as [->|Hne].
    + rewrite lookup_insert_eq in Hb'. injection Hb' as <-. destruct (decide (n ∈ L)) as [|Hl]; [by left|].
      right. rewrite <- H2. apply view_clean; [done|lia|]. unfold busy. rewrite H3, G5, <- H4. set_solver.
    + rewrite lookup_insert_ne in Hb' by done. by apply (H9 b').
Qed.

Lemma log_store_law g s v h u L b n d :
  log_txn_at g s v h u L -> h !! b = Some n -> length d = BSIZE ->
  wp (store_data b d) s (fun _ s' => log_txn_at g s' (<[at_ n := d]> v) h ({[n]} ∪ u) L).
Proof.
  intros H Hb Hd. destruct s as [c l]. pose proof H as [H1 H2 H3 H4 H5 H6 Ho Hq H7 H8 H9].
  pose proof H1 as [G1 G2 G3 G4 G5 G6]. cbn [cache lg] in *.
  assert (Hk : looks c (disk c) v h L (written c)) by (split; try done; congruence).
  eapply wp_store; [exact Hk|exact Hb|done|]. intros c' [K1 K2 K3 K4 K5 K6].
  split; cbn [cache lg]; try done; try congruence.
  - split; cbn [cache lg]; rewrite ?K2; try done. congruence.
  - intros b' n' Hb' Hu. rewrite K2. assert (n' <> n) by set_solver.
    destruct (H9 b' n' Hb') as [|E]; [set_solver|by left|right]. rewrite list_lookup_insert_ne; [done|].
    assert (0 <= n) by (apply (held_range c b n G4); by rewrite H3).
    assert (0 <= n') by (apply (held_range c b' n' G4); by rewrite H3). lia.
Qed.

Lemma log_log_write_law g s v h u L b n :
  log_txn_at g s v h u L -> h !! b = Some n -> tg_lo g <= n -> (size L < tg_cap g)%nat ->
  wp (log_write b) s (fun _ s' => log_txn_at g s' v h (u ∖ {[n]}) ({[n]} ∪ L)).
Proof.
  intros H Hb Hlo Hsz. pose proof (log_txn_size _ _ _ _ _ _ H) as (Z1 & Z2 & Z3).
  pose proof H as [H1 H2 H3 H4 H5 H6 Ho Hq H7 H8 H9].
  pose proof (li_geo _ H1) as G. pose proof (ge_start _ _ G). pose proof (ge_size _ _ G).
  assert (Hbh : held (cache s) !! b = Some n) by (by rewrite H3).
  eapply wp_mono; [apply (wp_log_write s b n); [done|done| | |lia]|].
  - split; [apply (held_range _ b n (li_cache _ H1) Hbh)|]. unfold in_log. lia.
  - unfold log_full, LOGSIZE. unfold NBUF in Z3. lia.
  - intros [] s' (I & Hh' & (P1 & P2 & P3 & P4 & P5) & Hhom & Hv & Hd & Hw).
    assert (HL : list_to_set (homes (lg s')) = {[n]} ∪ L).
    { rewrite Hhom. case_decide as Hin.
      - rewrite H4. set_solver.
      - rewrite list_to_set_app_L, H4. simpl. set_solver. }
    split; try done; try congruence.
    + rewrite Hhom. case_decide; [done|]. apply list.NoDup_app. split_and!; [done|set_solver|apply NoDup_singleton].
    + intros b' n' Hb' Hu. rewrite Hd. destruct (decide (n' = n)) as [->|]; [left; set_solver|].
      destruct (H9 b' n' Hb') as [|E]; [set_solver|left; set_solver|by right].
Qed.

Lemma log_brelse_law g s v h u L b n :
  log_txn_at g s v h u L -> h !! b = Some n -> n ∉ u ->
  wp (onc (brelse b)) s (fun _ s' => log_txn_at g s' v (delete b h) u L).
Proof.
  intros H Hb Hu. destruct s as [c l]. pose proof H as [H1 H2 H3 H4 H5 H6 Ho Hq H7 H8 H9].
  pose proof H1 as [G1 G2 G3 G4 G5 G6]. cbn [cache lg] in *.
  assert (Hk : looks c (disk c) v h L (written c)) by (split; try done; congruence).
  eapply wp_brelse; [exact Hk|exact Hb|by apply (H9 b)|].
  intros c' [K1 K2 K3 K4 K5 K6]. split; cbn [cache lg]; try done.
  - split; cbn [cache lg]; rewrite ?K2; try done. congruence.
  - intros b' n' Hb' Hu'. rewrite K2. apply (H9 b'); [|done]. by apply lookup_delete_Some in Hb' as [_ ?].
Qed.

#[export] Instance log_txn_laws : TxnLaws (lstate S).
Proof.
  split; cbn [txn log_txn_view tx_bread tx_brelse tx_log_write tx_data tx_store log_txn_ops].
  - intros g s v h u L [H1 <- _ _ _ _ _ _ _ _ _]. apply view_wf, H1.
  - intros g s v h u L H. pose proof (log_txn_size _ _ _ _ _ _ H) as (_ & _ & Hs).
    rewrite (lt_cap _ _ _ _ _ _ H). pose proof (ge_size _ _ (li_geo _ (lt_inv _ _ _ _ _ _ H))).
    unfold NBUF in *. lia.
  - intros g s v h u L H. pose proof (log_txn_size _ _ _ _ _ _ H) as (Hs & _).
    rewrite (lt_cap _ _ _ _ _ _ H). pose proof (lo_fits _ _ (li_logged _ (lt_inv _ _ _ _ _ _ H))). lia.
  - apply log_bread_law.
  - intros g s v h u L b n d H Hb Hd. destruct s as [c l]. pose proof H as [H1 H2 H3 H4 _ _ _ _ _ _ _].
    eapply (wp_data c l b n (disk c) v h (pinned c) (written c)); [split; try done; apply H1|done|done|done].
  - apply log_store_law.
  - apply log_log_write_law.
  - apply log_brelse_law.
Qed.

(** Between operations: nothing is logged, open or locked. *)
Record log_idle (g : tgeo) s v : Prop := {
  id_inv : log_inv s;
  id_view : view (cache s) = v;
  id_held : held (cache s) = ∅;
  id_n : l_n (lg s) = 0;
  id_out : l_outstanding (lg s) = 0;
  id_quiet : l_committing (lg s) = 0;
  id_lo : l_start (lg s) + l_size (lg s) <= tg_lo g;
  id_cap : tg_cap g = Z.to_nat (l_size (lg s) - 1);
  id_ops : tg_ops g = 1
}.

Lemma begin_op_opens g s v : log_idle g s v -> wp begin_op s (fun _ s' => log_txn_at g s' v ∅ ∅ ∅).
Proof.
  intros [H1 H2 H3 H4 H5 H6 H7 H8 H9]. unfold begin_op. apply wp_bind, wp_gets. unfold id.
  rewrite H6, H4, H5. simpl negb. cbv iota. rewrite (proj2 (Z.ltb_ge _ _)) by (by vm_compute).
  apply wp_modify. cbn [lg cache].
  assert (Hh : homes (with_outstanding (lg s) (l_outstanding (lg s) + 1)) = []) by (unfold homes; cbn; by rewrite H4).
  split; cbn [lg cache with_outstanding l_outstanding l_committing l_start l_size]; rewrite ?Hh; try done; try lia; [|constructor].
  destruct H1 as [[] ? [] ? ? ?]. by repeat (split; try done).
Qed.

Lemma end_op_closes g s v L : log_txn_at g s v ∅ ∅ L -> tg_ops g = 1 ->
  wp end_op s (fun _ s' =>
    log_inv s' /\ held (cache s') = ∅ /\ l_n (lg s') = 0 /\ l_outstanding (lg s') = 0 /\
    (forall b, tg_lo g <= b < Z.of_nat (length v) -> disk (cache s') !! at_ b = v !! at_ b)).
Proof.
  intros H Ho1. pose proof H as [H1 H2 H3 H4 H5 H6 Ho Hq H7 H8 H9].
  eapply wp_mono; [apply (wp_end_op s); [done|done|done|lia]|].
  intros [] s' (I & Hh & Ho' & _ & _ & Hend). rewrite H6, Ho1, Z.eqb_refl in Hend. destruct Hend as [Hn [Hl Hd]].
  split_and!; try done; [lia|]. intros b Hb. rewrite <- H2. apply Hd.
  pose proof (ge_start _ _ (li_geo _ H1)). pose proof (ge_size _ _ (li_geo _ H1)). rewrite Hl, H2. split; [|unfold in_log]; lia.
Qed.

(** C3. What a system call changes through the interface of the log is on the
    disk when it returns: between [begin_op] and [end_op] on an idle log, a
    body that obeys the interface and turns the blocks [v] into [v'], with
    every change logged and every buffer released, leaves exactly the file
    system blocks of [v'] on the disk, an empty log and nothing open. *)
Theorem transaction_commits {A} g s v v' (body : M (lstate S) A) :
  log_idle g s v -> length v' = length v ->
  (forall s0, txn g s0 v ∅ ∅ ∅ -> wp body s0 (fun _ s1 => exists L, txn g s1 v' ∅ ∅ L)) ->
  wp (tx_begin_op then! body then! tx_end_op) s (fun _ s' =>
    log_inv s' /\ held (cache s') = ∅ /\ l_n (lg s') = 0 /\ l_outstanding (lg s') = 0 /\
    (forall b, tg_lo g <= b < Z.of_nat (length v) -> disk (cache s') !! at_ b = v' !! at_ b)).
Proof.
  intros Hi Hlen Hbody. pose proof (id_ops _ _ _ Hi) as Hops. apply wp_bind.
  eapply wp_mono; [apply (begin_op_opens g s v Hi)|]. intros [] s0 H0. apply wp_bind.
  eapply wp_mono; [apply (Hbody s0 H0)|]. intros x s1 [L H1].
  eapply wp_mono; [apply (end_op_closes g s1 v' L H1 Hops)|].
  intros [] s' (I & Hh & Hn & Ho & Hb). split_and!; try done. rewrite <- Hlen. intros b Hb'. by apply Hb.
Qed.
End log_txn.
