(* ===== verification/Fs.v ===== *)
(** * The file system ([kernel/fs.c])

    The block allocator, the inodes and their cache, the contents of files,
    directories and path names, over the transaction interface of [Txn].  The
    state is that of the transaction, the super block and the inode cache; an
    inode is named by its index in [icache.inode].

    Locks are sleep locks: taking one that is held stops the caller.  The
    device functions of [devsw] are arguments of [readi] and [writei].  The
    bytes that [readi] copies to its destination are its result, and [None]
    stands for the result -1. *)

From S2P Require Import Prelude CStr Mem BufIface Lock Txn.

Definition ROOTINO : Z := 1.
Definition NDIRECT : nat := 12.
Definition NINDIRECT : nat := 128.
Definition MAXFILE : Z := 140.
Definition IPB : Z := 4.
Definition BPB : Z := 4096.
Definition DIRSIZ : nat := 14.
Definition DESIZE : Z := 16.
Definition NINODE : nat := 50.
Definition NDEV : Z := 10.
Definition T_DIR : Z := 1.
Definition T_FILE : Z := 2.
Definition T_DEV : Z := 3.

(** ** On disk and in memory *)

(** The fields of [struct dinode], which occupies 128 bytes. *)
Record dinode : Type := {
  di_type : Z;
  di_major : Z;
  di_minor : Z;
  di_nlink : Z;
  di_size : Z;
  di_addrs : list Z;
  di_mode : Z;
  di_uid : Z;
  di_gid : Z
}.

Record inode : Type := {
  i_dev : Z;
  i_inum : Z;
  i_ref : Z;
  i_lock : sleeplock;
  i_valid : bool;
  i_disk : dinode          (* the copy of the fields on disk *)
}.

Record fs (T : Type) : Type := {
  tx : T;
  sb : superblock;
  icache : list inode;
  fs_pid : Z               (* the process that runs *)
}.
Arguments tx {T} _.
Arguments sb {T} _.
Arguments icache {T} _.
Arguments fs_pid {T} _.
Arguments Build_fs {T} _ _ _ _.

Definition set_disk (d : dinode) (ip : inode) : inode :=
  {| i_dev := i_dev ip; i_inum := i_inum ip; i_ref := i_ref ip; i_lock := i_lock ip;
     i_valid := i_valid ip; i_disk := d |}.
Definition set_iref (n : Z) (ip : inode) : inode :=
  {| i_dev := i_dev ip; i_inum := i_inum ip; i_ref := n; i_lock := i_lock ip;
     i_valid := i_valid ip; i_disk := i_disk ip |}.
Definition set_ilock (l : sleeplock) (ip : inode) : inode :=
  {| i_dev := i_dev ip; i_inum := i_inum ip; i_ref := i_ref ip; i_lock := l;
     i_valid := i_valid ip; i_disk := i_disk ip |}.
Definition set_valid (b : bool) (ip : inode) : inode :=
  {| i_dev := i_dev ip; i_inum := i_inum ip; i_ref := i_ref ip; i_lock := i_lock ip;
     i_valid := b; i_disk := i_disk ip |}.

Definition di_with_type (t : Z) (d : dinode) : dinode :=
  {| di_type := t; di_major := di_major d; di_minor := di_minor d; di_nlink := di_nlink d;
     di_size := di_size d; di_addrs := di_addrs d; di_mode := di_mode d; di_uid := di_uid d;
     di_gid := di_gid d |}.
Definition di_with_nlink (n : Z) (d : dinode) : dinode :=
  {| di_type := di_type d; di_major := di_major d; di_minor := di_minor d; di_nlink := n;
     di_size := di_size d; di_addrs := di_addrs d; di_mode := di_mode d; di_uid := di_uid d;
     di_gid := di_gid d |}.
Definition di_with_dev (major minor : Z) (d : dinode) : dinode :=
  {| di_type := di_type d; di_major := major; di_minor := minor; di_nlink := di_nlink d;
     di_size := di_size d; di_addrs := di_addrs d; di_mode := di_mode d; di_uid := di_uid d;
     di_gid := di_gid d |}.
Definition di_with_size (n : Z) (d : dinode) : dinode :=
  {| di_type := di_type d; di_major := di_major d; di_minor := di_minor d; di_nlink := di_nlink d;
     di_size := n; di_addrs := di_addrs d; di_mode := di_mode d; di_uid := di_uid d;
     di_gid := di_gid d |}.
Definition di_with_addrs (l : list Z) (d : dinode) : dinode :=
  {| di_type := di_type d; di_major := di_major d; di_minor := di_minor d; di_nlink := di_nlink d;
     di_size := di_size d; di_addrs := l; di_mode := di_mode d; di_uid := di_uid d;
     di_gid := di_gid d |}.
Definition di_with_owner (mode uid gid : Z) (d : dinode) : dinode :=
  {| di_type := di_type d; di_major := di_major d; di_minor := di_minor d; di_nlink := di_nlink d;
     di_size := di_size d; di_addrs := di_addrs d; di_mode := mode; di_uid := uid; di_gid := gid |}.

(** The [n] words of an array at offset [o]. *)
Fixpoint load_words (n : nat) (d : block) (o : nat) : option (list Z) :=
  match n with
  | O => Some []
  | S n' => x ← load 4 d o; l ← load_words n' d (o + 4); Some (x :: l)
  end.

Fixpoint put_words (l : list Z) (d : block) (o : nat) : option block :=
  match l with
  | [] => Some d
  | x :: l' => d' ← put 4 d o x; put_words l' d' (o + 4)
  end.

(** The reads of [ilock] and the writes of [iupdate], at offset [o]. *)
Definition dinode_at (d : block) (o : nat) : option dinode :=
  type ← load 2 d o; major ← load 2 d (o + 2); minor ← load 2 d (o + 4);
  nlink ← load 2 d (o + 6); size ← load 4 d (o + 8);
  mode ← load 4 d (o + 64); uid ← load 4 d (o + 68); gid ← load 4 d (o + 72);
  addrs ← load_words (S NDIRECT) d (o + 12);
  Some {| di_type := s16 type; di_major := s16 major; di_minor := s16 minor; di_nlink := s16 nlink;
          di_size := size; di_addrs := addrs; di_mode := mode; di_uid := uid; di_gid := gid |}.

Definition put_dinode (i : dinode) (d : block) (o : nat) : option block :=
  d ← put 2 d o (di_type i); d ← put 2 d (o + 2) (di_major i); d ← put 2 d (o + 4) (di_minor i);
  d ← put 2 d (o + 6) (di_nlink i); d ← put 4 d (o + 8) (di_size i);
  d ← put 4 d (o + 64) (di_mode i); d ← put 4 d (o + 68) (di_uid i); d ← put 4 d (o + 72) (di_gid i);
  put_words (di_addrs i) d (o + 12).

Definition IBLOCK (i : Z) (b : superblock) : Z := u32 (i / IPB + sb_inodestart b).
Definition BBLOCK (b : Z) (s : superblock) : Z := u32 (b / BPB + sb_bmapstart s).
Definition ioff (i : Z) : nat := Z.to_nat (128 * (i mod IPB)).

Section fs.
Context {T : Type} `{TxnOps T}.

Definition ontx {A} (m : M T A) : M (fs T) A := fun s =>
  match m (tx s) with
  | Ret a t => Ret a {| tx := t; sb := sb s; icache := icache s; fs_pid := fs_pid s |}
  | Stop r t => Stop r {| tx := t; sb := sb s; icache := icache s; fs_pid := fs_pid s |}
  end.

Definition bread dev b : M (fs T) nat := ontx (tx_bread dev b).
Definition brelse b : M (fs T) unit := ontx (tx_brelse b).
Definition log_write b : M (fs T) unit := ontx (tx_log_write b).
Definition bdata b : M (fs T) block := ontx (tx_data b).
Definition bstore b d : M (fs T) unit := ontx (tx_store b d).

Definition geti (i : nat) : M (fs T) inode := fun s => lift (icache s !! i) s.

Definition seti (i : nat) (f : inode -> inode) : M (fs T) unit := fun s =>
  match icache s !! i with
  | Some ip => Ret tt {| tx := tx s; sb := sb s; icache := <[i := f ip]> (icache s); fs_pid := fs_pid s |}
  | None => Stop Undefined s
  end.

Definition setd (i : nat) (f : dinode -> dinode) : M (fs T) unit :=
  seti i (fun ip => set_disk (f (i_disk ip)) ip).

(** ** Blocks *)

Definition bzero (dev bno : Z) : M (fs T) unit :=
  let! bp := bread dev bno in
  bstore bp (replicate BSIZE 0) then!
  log_write bp then!
  brelse bp.

(** The inner loop of [balloc], with at most [n] bits to look at. *)
Fixpoint balloc_bits (n : nat) (dev b bi : Z) (bp : nat) : M (fs T) (option Z) :=
  match n with
  | O => ret None
  | S n' =>
      let! s := gets sb in
      if b + bi <? sb_size s then
        let m := Z.shiftl 1 (bi mod 8) in
        let! d := bdata bp in
        let! x := lift (d !! at_ (bi / 8)) in
        if Z.land x m =? 0 then
          let! d' := lift (store d (at_ (bi / 8)) (u8 (Z.lor x m))) in
          bstore bp d' then!
          log_write bp then!
          brelse bp then!
          bzero dev (b + bi) then!
          ret (Some (b + bi))
        else balloc_bits n' dev b (bi + 1) bp
      else ret None
  end.

Fixpoint balloc_loop (fuel : nat) (dev b : Z) : M (fs T) Z :=
  match fuel with
  | O => halt Undefined
  | S fuel' =>
      let! s := gets sb in
      if b <? sb_size s then
        let! bp := bread dev (BBLOCK b s) in
        let! r := balloc_bits (Z.to_nat BPB) dev b 0 bp in
        match r with
        | Some a => ret a
        | None => brelse bp then! balloc_loop fuel' dev (b + BPB)
        end
      else halt (Panicked "balloc: out of blocks")
  end.

Definition balloc (dev : Z) : M (fs T) Z :=
  let! s := gets sb in balloc_loop (S (Z.to_nat (sb_size s))) dev 0.

Definition bfree (dev b : Z) : M (fs T) unit :=
  let! s := gets sb in
  let! bp := bread dev (BBLOCK b s) in
  let bi := b mod BPB in
  let m := Z.shiftl 1 (bi mod 8) in
  let! d := bdata bp in
  let! x := lift (d !! at_ (bi / 8)) in
  if Z.land x m =? 0 then halt (Panicked "freeing free block")
  else
    let! d' := lift (store d (at_ (bi / 8)) (u8 (Z.land x (Z.lnot m)))) in
    bstore bp d' then!
    log_write bp then!
    brelse bp.

(** ** Inodes *)

(** The loop of [iget] over the cache: the entry of the inode, or the first
    entry that is free. *)
Fixpoint iget_scan (l : list inode) (i : nat) (dev inum : Z) (empty : option nat)
    : nat + option nat :=
  match l with
  | [] => inr empty
  | ip :: r =>
      if (0 <? i_ref ip) && (i_dev ip =? dev) && (i_inum ip =? inum) then inl i
      else
        iget_scan r (S i) dev inum
          (match empty with Some e => Some e | None => if i_ref ip =? 0 then Some i else None end)
  end.

Definition iget (dev inum : Z) : M (fs T) nat :=
  let! l := gets icache in
  match iget_scan l 0 dev inum None with
  | inl i => seti i (fun ip => set_iref (i_ref ip + 1) ip) then! ret i
  | inr None => halt (Panicked "iget: no inodes")
  | inr (Some i) =>
      seti i (fun ip => {| i_dev := dev; i_inum := inum; i_ref := 1; i_lock := i_lock ip;
                           i_valid := false; i_disk := i_disk ip |}) then!
      ret i
  end.

Definition idup (i : nat) : M (fs T) nat :=
  seti i (fun ip => set_iref (i_ref ip + 1) ip) then! ret i.

Fixpoint ialloc_loop (fuel : nat) (dev type uid mode inum : Z) : M (fs T) nat :=
  match fuel with
  | O => halt Undefined
  | S fuel' =>
      let! s := gets sb in
      if inum <? sb_ninodes s then
        let! bp := bread dev (IBLOCK inum s) in
        let! d := bdata bp in
        let! t := lift (load 2 d (ioff inum)) in
        if s16 t =? 0 then
          let d := splice d (ioff inum) (replicate 128 0) in
          let! d := lift (put 2 d (ioff inum) type) in
          let! d := lift (put 4 d (ioff inum + 64) mode) in
          let! d := lift (put 4 d (ioff inum + 68) uid) in
          bstore bp d then!
          log_write bp then!
          brelse bp then!
          iget dev inum
        else
          brelse bp then!
          ialloc_loop fuel' dev type uid mode (inum + 1)
      else halt (Panicked "ialloc: no inodes")
  end.

Definition ialloc (dev type uid mode : Z) : M (fs T) nat :=
  let! s := gets sb in ialloc_loop (S (Z.to_nat (sb_ninodes s))) dev type uid mode 1.

Definition iupdate (i : nat) : M (fs T) unit :=
  let! ip := geti i in
  let! s := gets sb in
  let! bp := bread (i_dev ip) (IBLOCK (i_inum ip) s) in
  let! d := bdata bp in
  let! d' := lift (put_dinode (i_disk ip) d (ioff (i_inum ip))) in
  bstore bp d' then!
  log_write bp then!
  brelse bp.

Definition acquire_inode (i : nat) : M (fs T) unit :=
  let! ip := geti i in
  let! pid := gets fs_pid in
  match acquiresleep pid (i_lock ip) with
  | Some l => seti i (set_ilock l)
  | None => halt (Sleeping "inode")
  end.

Definition ilock (i : nat) : M (fs T) unit :=
  let! ip := geti i in
  if i_ref ip <? 1 then halt (Panicked "ilock")
  else
    acquire_inode i then!
    if i_valid ip then ret tt
    else
      let! s := gets sb in
      let! bp := bread (i_dev ip) (IBLOCK (i_inum ip) s) in
      let! d := bdata bp in
      let! di := lift (dinode_at d (ioff (i_inum ip))) in
      setd i (fun _ => di) then!
      brelse bp then!
      seti i (set_valid true) then!
      if di_type di =? 0 then halt (Panicked "ilock: no type") else ret tt.

Definition iunlock (i : nat) : M (fs T) unit :=
  let! ip := geti i in
  let! pid := gets fs_pid in
  if negb (holdingsleep pid (i_lock ip)) || (i_ref ip <? 1) then halt (Panicked "iunlock")
  else seti i (fun ip => set_ilock (releasesleep (i_lock ip)) ip).

(** The direct blocks of [itrunc], from [j] on. *)
Fixpoint trunc_direct (n : nat) (i j : nat) : M (fs T) unit :=
  match n with
  | O => ret tt
  | S n' =>
      let! ip := geti i in
      let! a := lift (di_addrs (i_disk ip) !! j) in
      (if a =? 0 then ret tt
       else
         bfree (i_dev ip) a then!
         setd i (fun d => di_with_addrs (<[j := 0]> (di_addrs d)) d)) then!
      trunc_direct n' i (S j)
  end.

(** The blocks listed in the indirect block. *)
Fixpoint trunc_indirect (n : nat) (dev : Z) (bp j : nat) : M (fs T) unit :=
  match n with
  | O => ret tt
  | S n' =>
      let! d := bdata bp in
      let! a := lift (load 4 d (4 * j)) in
      (if a =? 0 then ret tt else bfree dev a) then!
      trunc_indirect n' dev bp (S j)
  end.

Definition itrunc (i : nat) : M (fs T) unit :=
  trunc_direct NDIRECT i 0 then!
  let! ip := geti i in
  let! a := lift (di_addrs (i_disk ip) !! NDIRECT) in
  (if a =? 0 then ret tt
   else
     let! bp := bread (i_dev ip) a in
     trunc_indirect NINDIRECT (i_dev ip) bp 0 then!
     brelse bp then!
     bfree (i_dev ip) a then!
     setd i (fun d => di_with_addrs (<[NDIRECT := 0]> (di_addrs d)) d)) then!
  setd i (di_with_size 0) then!
  iupdate i.

Definition iput (i : nat) : M (fs T) unit :=
  acquire_inode i then!
  let! ip := geti i in
  (if i_valid ip && (di_nlink (i_disk ip) =? 0) && (i_ref ip =? 1) then
     itrunc i then!
     setd i (di_with_type 0) then!
     iupdate i then!
     seti i (set_valid false)
   else ret tt) then!
  seti i (fun ip => set_ilock (releasesleep (i_lock ip)) ip) then!
  seti i (fun ip => set_iref (i_ref ip - 1) ip).

Definition iunlockput (i : nat) : M (fs T) unit := iunlock i then! iput i.

(** ** Contents *)

(** Entry [bn] of the indirect block at [addr]. *)
Definition bmap_entry (dev addr bn : Z) : M (fs T) Z :=
  let! bp := bread dev addr in
  let! d := bdata bp in
  let! addr := lift (load 4 d (4 * at_ bn)) in
  let! addr :=
    if addr =? 0 then
      let! addr := balloc dev in
      let! d := bdata bp in
      let! d' := lift (put 4 d (4 * at_ bn) addr) in
      bstore bp d' then!
      log_write bp then!
      ret addr
    else ret addr in
  brelse bp then!
  ret addr.

Definition bmap (i : nat) (bn : Z) : M (fs T) Z :=
  let! ip := geti i in
  if bn <? Z.of_nat NDIRECT then
    let! addr := lift (di_addrs (i_disk ip) !! at_ bn) in
    if addr =? 0 then
      let! addr := balloc (i_dev ip) in
      setd i (fun d => di_with_addrs (<[at_ bn := addr]> (di_addrs d)) d) then!
      ret addr
    else ret addr
  else
    let bn := bn - Z.of_nat NDIRECT in
    if bn <? Z.of_nat NINDIRECT then
      let! addr := lift (di_addrs (i_disk ip) !! NDIRECT) in
      if addr =? 0 then
        let! addr := balloc (i_dev ip) in
        setd i (fun d => di_with_addrs (<[NDIRECT := addr]> (di_addrs d)) d) then!
        bmap_entry (i_dev ip) addr bn
      else bmap_entry (i_dev ip) addr bn
    else halt (Panicked "bmap: out of range").

(** [struct stat], with its [short mode]. *)
Record stat : Type := {
  st_dev : Z;
  st_ino : Z;
  st_type : Z;
  st_nlink : Z;
  st_size : Z;
  st_mode : Z;
  st_uid : Z;
  st_gid : Z
}.

Definition stati (i : nat) : M (fs T) stat :=
  let! ip := geti i in
  let d := i_disk ip in
  ret {| st_dev := s32 (i_dev ip); st_ino := i_inum ip; st_type := di_type d; st_nlink := di_nlink d;
         st_size := di_size d; st_mode := s16 (di_mode d); st_uid := di_uid d; st_gid := di_gid d |}.

(** The functions of a device driver. *)
Record driver : Type := {
  dev_read : option (nat -> Z -> M (fs T) (option (list Z)));
  dev_write : option (nat -> list Z -> M (fs T) Z)
}.

Variable devsw : list driver.

Definition dev_entry (major : Z) : option driver :=
  if (major <? 0) || (NDEV <=? major) then None else devsw !! at_ major.

(** The loop of [readi], with [n] bytes left to copy from [off]; the bytes
    copied. *)
Fixpoint readi_loop (fuel : nat) (i : nat) (off n : Z) : M (fs T) (list Z) :=
  match fuel with
  | O => halt Undefined
  | S fuel' =>
      if 0 <? n then
        let! a := bmap i (off / Z.of_nat BSIZE) in
        let! ip := geti i in
        let! bp := bread (i_dev ip) a in
        let o := off mod Z.of_nat BSIZE in
        let m := Z.min n (Z.of_nat BSIZE - o) in
        let! d := bdata bp in
        let chunk := take (at_ m) (drop (at_ o) d) in
        brelse bp then!
        let! rest := readi_loop fuel' i (off + m) (n - m) in
        ret (chunk ++ rest)
      else ret []
  end.

Definition readi (i : nat) (off n : Z) : M (fs T) (option (list Z)) :=
  let! ip := geti i in
  let d := i_disk ip in
  if di_type d =? T_DEV then
    match dev_entry (di_major d) ≫= dev_read with
    | Some f => f i n
    | None => ret None
    end
  else if (di_size d <? off) || (u32 (off + n) <? off) then ret None
  else
    let n := if di_size d <? u32 (off + n) then di_size d - off else n in
    let! l := readi_loop (S (at_ n)) i off n in
    ret (Some l).

(** The body of the loop of [writei]: [m] bytes of [src] go to [off]. *)
Definition writei_block (i : nat) (off m : Z) (src : list Z) : M (fs T) unit :=
  let! a := bmap i (off / Z.of_nat BSIZE) in
  let! ip := geti i in
  let! bp := bread (i_dev ip) a in
  let! d := bdata bp in
  bstore bp (splice d (at_ (off mod Z.of_nat BSIZE)) (take (at_ m) src)) then!
  log_write bp then!
  brelse bp.

(** The loop of [writei], with the bytes [src] left to copy to [off]; the
    final value of [off]. *)
Fixpoint writei_loop (fuel : nat) (i : nat) (off : Z) (src : list Z) : M (fs T) Z :=
  match fuel with
  | O => halt Undefined
  | S fuel' =>
      if 0 <? Z.of_nat (length src) then
        let m := Z.min (Z.of_nat (length src)) (Z.of_nat BSIZE - off mod Z.of_nat BSIZE) in
        writei_block i off m src then!
        writei_loop fuel' i (off + m) (drop (at_ m) src)
      else ret off
  end.

(** [src] holds the [n] bytes at the source pointer. *)
Definition writei (i : nat) (src : list Z) (off : Z) : M (fs T) Z :=
  let n := Z.of_nat (length src) in
  let! ip := geti i in
  let d := i_disk ip in
  if di_type d =? T_DEV then
    match dev_entry (di_major d) ≫= dev_write with
    | Some f => f i src
    | None => ret (-1)
    end
  else if (di_size d <? off) || (u32 (off + n) <? off) then ret (-1)
  else if MAXFILE * Z.of_nat BSIZE <? u32 (off + n) then ret (-1)
  else
    let! off := writei_loop (S (length src)) i off src in
    let! ip := geti i in
    (if (0 <? n) && (di_size (i_disk ip) <? off) then
       setd i (di_with_size off) then!
       iupdate i
     else ret tt) then!
    ret n.

(** ** Directories *)

Definition namecmp (s t : list Z) : option Z := strncmp s t DIRSIZ.

(** The entry at an offset: its inode number and its name. *)
Definition read_dirent (i : nat) (off : Z) (msg : string) : M (fs T) (Z * list Z) :=
  let! r := readi i off DESIZE in
  match r with
  | Some l =>
      if Z.of_nat (length l) =? DESIZE then
        let! inum := lift (load 2 l 0) in ret (inum, drop 2 l)
      else halt (Panicked msg)
  | None => halt (Panicked msg)
  end.

(** The loop of [dirlookup] from offset [off]. *)
Fixpoint dirlookup_loop (fuel : nat) (i : nat) (name : list Z) (off : Z) : M (fs T) (option (nat * Z)) :=
  match fuel with
  | O => halt Undefined
  | S fuel' =>
      let! dp := geti i in
      if off <? di_size (i_disk dp) then
        let! de := read_dirent i off "dirlookup read" in
        if de.1 =? 0 then dirlookup_loop fuel' i name (off + DESIZE)
        else
          let! c := lift (namecmp name de.2) in
          if c =? 0 then
            let! ip := iget (i_dev dp) de.1 in
            ret (Some (ip, off))
          else dirlookup_loop fuel' i name (off + DESIZE)
      else ret None
  end.

Definition dirlookup (i : nat) (name : list Z) : M (fs T) (option (nat * Z)) :=
  let! dp := geti i in
  if negb (di_type (i_disk dp) =? T_DIR) then halt (Panicked "dirlookup not DIR")
  else dirlookup_loop (S (at_ (di_size (i_disk dp)))) i name 0.

(** The loop of [dirlink]: the offset of an empty entry, or of the end. *)
Fixpoint dirlink_loop (fuel : nat) (i : nat) (off : Z) : M (fs T) Z :=
  match fuel with
  | O => halt Undefined
  | S fuel' =>
      let! dp := geti i in
      if off <? di_size (i_disk dp) then
        let! de := read_dirent i off "dirlink read" in
        if de.1 =? 0 then ret off else dirlink_loop fuel' i (off + DESIZE)
      else ret off
  end.

Definition dirlink (i : nat) (name : list Z) (inum : Z) : M (fs T) Z :=
  let! r := dirlookup i name in
  match r with
  | Some (ip, _) => iput ip then! ret (-1)
  | None =>
      let! dp := geti i in
      let! off := dirlink_loop (S (at_ (di_size (i_disk dp)))) i 0 in
      let! nm := lift (strncpy (replicate DIRSIZ 0) 0 name DIRSIZ) in
      let! w := writei i (le_bytes 2 inum ++ nm) off in
      if negb (w =? DESIZE) then halt (Panicked "dirlink") else ret 0
  end.

(** ** Paths *)

Fixpoint skip_slashes (path : list Z) : list Z :=
  match path with
  | c :: r => if c =? SLASH then skip_slashes r else path
  | [] => []
  end.

(** The length of the element at the front of a path. *)
Fixpoint elem_len (path : list Z) : nat :=
  match path with
  | c :: r => if (c =? SLASH) || (c =? 0) then O else S (elem_len r)
  | [] => O
  end.

(** The rest of the path and the new contents of [name]; [None] for a null
    pointer. *)
Definition skipelem (path name : list Z) : option (list Z * list Z) :=
  let path := skip_slashes path in
  match path with
  | [] => None
  | c :: _ =>
      if c =? 0 then None
      else
        let len := elem_len path in
        let name :=
          if (DIRSIZ <=? len)%nat then splice name 0 (take DIRSIZ path)
          else splice name 0 (take len path ++ [0]) in
        Some (skip_slashes (drop len path), name)
  end.

(** The loop of [namex]. *)
Fixpoint namex_loop (fuel : nat) (i : nat) (path name : list Z) (parent : bool)
    : M (fs T) (option nat * list Z) :=
  match fuel with
  | O => halt Undefined
  | S fuel' =>
      match skipelem path name with
      | Some (path, name) =>
          ilock i then!
          let! ip := geti i in
          if negb (di_type (i_disk ip) =? T_DIR) then iunlockput i then! ret (None, name)
          else if parent && bool_decide (path !! 0%nat = Some 0) then iunlock i then! ret (Some i, name)
          else
            let! next := dirlookup i name in
            match next with
            | None => iunlockput i then! ret (None, name)
            | Some (next, _) =>
                iunlockput i then!
                namex_loop fuel' next path name parent
            end
      | None =>
          if parent then iput i then! ret (None, name)
          else ret (Some i, name)
      end
  end.

(** [cwd] is the current directory of the process; [path] is terminated. *)
Definition namex (cwd : nat) (path : list Z) (parent : bool) (name : list Z)
    : M (fs T) (option nat * list Z) :=
  let! i := if bool_decide (path !! 0%nat = Some SLASH) then iget ROOTDEV ROOTINO else idup cwd in
  namex_loop (S (length path)) i path name parent.

Definition namei (cwd : nat) (path : list Z) : M (fs T) (option nat) :=
  let! r := namex cwd path false (replicate DIRSIZ 0) in ret r.1.

Definition nameiparent (cwd : nat) (path name : list Z) : M (fs T) (option nat * list Z) :=
  namex cwd path true name.
End fs.
