(* ===== verification/FsAlloc.v ===== *)
(** * Correctness of the block allocator ([bzero], [balloc], [bfree] of
    [kernel/fs.c])

    The free bit map is a set of used blocks: [balloc] returns the first
    block that is not in it, adds it and zeroes its contents; [bfree] takes a
    block out.  Here are also the rules for the block operations that the
    other files on the file system use. *)

From S2P Require Import Prelude Mem BufIface Lock Txn Fs.

(** ** Sets of locked and logged blocks *)

Lemma size_insert_le (L : gset Z) n : (size ({[n]} ∪ L) <= S (size L))%nat.
Proof.
  rewrite size_union_alt. rewrite size_singleton.
  assert (size (L ∖ {[n]}) <= size L)%nat by (apply subseteq_size; set_solver). lia.
Qed.

Lemma img_size (h : gmap nat Z) : (size (img h) <= size h)%nat.
Proof.
  induction h as [|k x h Hk IH] using map_ind.
  - by rewrite map_img_empty_L, !size_empty.
  - rewrite map_img_insert_notin_L, map_size_insert_None by done.
    pose proof (size_insert_le (img h) x). lia.
Qed.

Lemma img_insert (h : gmap nat Z) b n : h !! b = None -> img (<[b := n]> h) = {[n]} ∪ img h.
Proof. apply map_img_insert_notin_L. Qed.

Section rules.
Context {T : Type} {ops : TxnOps T} {tv : TxnView T} {laws : TxnLaws T}.
Implicit Types (s : fs T) (t : T) (v : list block) (h : gmap nat Z) (L : gset Z) (g : tgeo).

Definition with_tx s t : fs T := {| tx := t; sb := sb s; icache := icache s; fs_pid := fs_pid s |}.

Lemma with_tx_tx s : with_tx s (tx s) = s.
Proof. by destruct s. Qed.

Lemma wp_ontx {A} (m : M T A) s (P : A -> T -> Prop) (Q : A -> fs T -> Prop) :
  wp m (tx s) P -> (forall a t, P a t -> Q a (with_tx s t)) -> wp (ontx m) s Q.
Proof. unfold wp, ontx. intros Hm HPQ. destruct (m (tx s)); [by apply HPQ|done]. Qed.

(** There is a free buffer: at most one is locked and the log is not full, or
    none is locked. *)
Definition can_read g h L : Prop := (size L + size h <= tg_cap g)%nat.

Lemma wp_fbread g s v h L n Q :
  txn g (tx s) v h ∅ L -> 0 <= n < Z.of_nat (length v) -> n ∉ img h -> can_read g h L ->
  (forall b t, h !! b = None -> txn g t v (<[b := n]> h) ∅ L -> Q b (with_tx s t)) ->
  wp (bread ROOTDEV n) s Q.
Proof.
  intros Ht Hn Hh Hr HQ. eapply wp_ontx; [eapply txn_bread; try done|].
  - pose proof (txn_cap _ _ _ _ _ _ Ht). pose proof (size_union_le L (img h)). pose proof (img_size h).
    unfold can_read in Hr. lia.
  - intros b t [Hb Ht']. by apply HQ.
Qed.

Lemma wp_fdata g s v h u L b n d Q :
  txn g (tx s) v h u L -> h !! b = Some n -> v !! at_ n = Some d -> Q d s -> wp (bdata b) s Q.
Proof.
  intros Ht Hb Hd HQ. eapply wp_ontx; [by eapply txn_data|]. intros x t [-> ->].
  by rewrite with_tx_tx.
Qed.

Lemma wp_fbrelse g s v h L b n Q :
  txn g (tx s) v (<[b := n]> h) ∅ L -> h !! b = None ->
  (forall t, txn g t v h ∅ L -> Q tt (with_tx s t)) -> wp (brelse b) s Q.
Proof.
  intros Ht Hb HQ. eapply wp_ontx; [eapply txn_brelse; [exact Ht|by rewrite lookup_insert_eq|set_solver]|].
  intros [] t Ht'. rewrite delete_insert_id in Ht' by done. by apply HQ.
Qed.

(** [store; log_write]: the block is changed inside the transaction. *)
Lemma wp_logged {A} g s v h L b n d (k : M (fs T) A) (Q : A -> fs T -> Prop) :
  txn g (tx s) v h ∅ L -> h !! b = Some n -> length d = BSIZE -> tg_lo g <= n -> (size L < tg_cap g)%nat ->
  (forall t, txn g t (<[at_ n := d]> v) h ∅ ({[n]} ∪ L) -> wp k (with_tx s t) Q) ->
  wp (bstore b d then! log_write b then! k) s Q.
Proof.
  intros Ht Hb Hd Hlo Hsz HQ. apply wp_bind. eapply wp_ontx; [by eapply txn_store|].
  intros [] t1 Ht1. apply wp_bind. eapply wp_ontx; [by eapply txn_log_write|].
  intros [] t2 Ht2. apply HQ. by replace (({[n]} ∪ ∅) ∖ {[n]}) with (∅ : gset Z) in Ht2 by set_solver.
Qed.

(** [store; log_write; brelse]. *)
Lemma wp_write_back {A} g s v h L b n d (k : M (fs T) A) (Q : A -> fs T -> Prop) :
  txn g (tx s) v (<[b := n]> h) ∅ L -> h !! b = None -> length d = BSIZE -> tg_lo g <= n ->
  (size L < tg_cap g)%nat ->
  (forall t, txn g t (<[at_ n := d]> v) h ∅ ({[n]} ∪ L) -> wp k (with_tx s t) Q) ->
  wp (bstore b d then! log_write b then! brelse b then! k) s Q.
Proof.
  intros Ht Hb Hd Hlo Hsz HQ. eapply wp_logged; try done; [by rewrite lookup_insert_eq|].
  intros t1 Ht1. apply wp_bind. eapply wp_fbrelse; [exact Ht1|done|]. intros t2 Ht2.
  by apply HQ.
Qed.

Lemma wp_write_last g s v h L b n d (Q : unit -> fs T -> Prop) :
  txn g (tx s) v (<[b := n]> h) ∅ L -> h !! b = None -> length d = BSIZE -> tg_lo g <= n ->
  (size L < tg_cap g)%nat ->
  (forall t, txn g t (<[at_ n := d]> v) h ∅ ({[n]} ∪ L) -> Q tt (with_tx s t)) ->
  wp (bstore b d then! log_write b then! brelse b) s Q.
Proof.
  intros Ht Hb Hd Hlo Hsz HQ. eapply wp_logged; try done; [by rewrite lookup_insert_eq|].
  intros t1 Ht1. eapply wp_fbrelse; [exact Ht1|done|]. intros t2 Ht2. by apply HQ.
Qed.
End rules.

(** ** The layout of the disk *)

(** The block where the data begin. *)
Definition data_start (s : superblock) : Z := sb_bmapstart s + (sb_size s - 1) / BPB + 1.

(** [mkfs] puts the log, the inodes, the bit map and the data in this order,
    and the disk has at least the blocks the super block speaks of. *)
Record fs_geo (g : tgeo) (s : superblock) (len : nat) : Prop := {
  fg_lo : 2 <= tg_lo g <= sb_inodestart s;
  fg_ninodes : 1 < sb_ninodes s;
  fg_inodes : sb_inodestart s + (sb_ninodes s - 1) / IPB < sb_bmapstart s;
  fg_bmap : data_start s <= sb_size s;
  fg_size : 0 < sb_size s <= Z.of_nat len;
  fg_len : Z.of_nat len < 2 ^ 31
}.

(** The bit of a block in the free bit map. *)
Definition bit_of (d : block) (bi : Z) : bool :=
  match d !! at_ (bi / 8) with Some x => Z.testbit x (bi mod 8) | None => false end.

Definition used (v : list block) (s : superblock) (b : Z) : bool :=
  match v !! at_ (BBLOCK b s) with Some d => bit_of d (b mod BPB) | None => false end.

(** The blocks in front of the data are never free. *)
Definition meta_used (v : list block) (s : superblock) : Prop :=
  forall b, 0 <= b < data_start s -> used v s b = true.

Lemma bblock_range g s len b : fs_geo g s len -> 0 <= b < sb_size s ->
  BBLOCK b s = b / BPB + sb_bmapstart s /\ sb_bmapstart s <= BBLOCK b s < data_start s /\
  tg_lo g <= BBLOCK b s /\ 0 <= BBLOCK b s < Z.of_nat len.
Proof.
  intros [G1 G2 G3 G4 G5 G6] Hb. unfold BBLOCK, data_start in *.
  assert (0 <= b / BPB <= (sb_size s - 1) / BPB).
  { split; [apply Z.div_pos; unfold BPB; lia|]. apply Z.div_le_mono; unfold BPB; lia. }
  assert (0 <= (sb_ninodes s - 1) / IPB) by (apply Z.div_pos; unfold IPB; lia).
  rewrite u32_small by lia. lia.
Qed.

(** Setting or clearing bit [bi] of a block of the map. *)
Definition set_bit (d : block) (bi : Z) (x : bool) : block :=
  match d !! at_ (bi / 8) with
  | Some y => <[at_ (bi / 8) := u8 (if x then Z.lor y (2 ^ (bi mod 8)) else Z.land y (Z.lnot (2 ^ (bi mod 8))))]> d
  | None => d
  end.

Lemma set_bit_length d bi x : length (set_bit d bi x) = length d.
Proof. unfold set_bit. destruct (d !! _); [apply length_insert|done]. Qed.

Lemma testbit_u8 x k : 0 <= k < 8 -> Z.testbit (u8 x) k = Z.testbit x k.
Proof. intros Hk. unfold u8. change 256 with (2 ^ 8). rewrite Z.mod_pow2_bits_low by lia. done. Qed.

Lemma bit_of_set d bi x bj : length d = BSIZE -> 0 <= bi < BPB -> 0 <= bj < BPB ->
  bit_of (set_bit d bi x) bj = if decide (bi = bj) then x else bit_of d bj.
Proof.
  intros Hd Hi Hj. unfold bit_of, set_bit, BPB in *.
  pose proof (Z.mod_pos_bound bi 8 ltac:(lia)) as Mi. pose proof (Z.mod_pos_bound bj 8 ltac:(lia)) as Mj.
  pose proof (Z.div_mod bi 8 ltac:(lia)) as Di. pose proof (Z.div_mod bj 8 ltac:(lia)) as Dj.
  destruct (lookup_lt_is_Some_2 d (at_ (bi / 8))) as [y Hy]; [rewrite Hd; unfold BSIZE; lia|]. rewrite Hy.
  destruct (decide (bi / 8 = bj / 8)) as [E|E].
  - rewrite <- E, list_lookup_insert_eq, Hy by (by eapply lookup_lt_Some). rewrite testbit_u8 by lia.
    destruct x; rewrite ?Z.lor_spec, ?Z.land_spec, ?Z.lnot_spec, Z.pow2_bits_eqb by lia;
      destruct (decide (bi = bj)) as [->|Hne].
    + by rewrite Z.eqb_refl, orb_true_r.
    + rewrite (proj2 (Z.eqb_neq _ _)) by lia. by rewrite orb_false_r.
    + by rewrite Z.eqb_refl, andb_false_r.
    + rewrite (proj2 (Z.eqb_neq _ _)) by lia. by rewrite andb_true_r.
  - rewrite decide_False by (intros ->; done). rewrite list_lookup_insert_ne by lia. done.
Qed.

Lemma div_mod_eq a b m : 0 < m -> a / m = b / m -> a mod m = b mod m -> a = b.
Proof. intros Hm E1 E2. rewrite (Z.div_mod a m), (Z.div_mod b m) by lia. congruence. Qed.

(** Changing the bit of [b] in the map changes [used] at [b] only. *)
Lemma used_set g s v b x d : fs_geo g s (length v) -> blocks_wf v -> 0 <= b < sb_size s ->
  v !! at_ (BBLOCK b s) = Some d ->
  forall b', 0 <= b' < sb_size s ->
  used (<[at_ (BBLOCK b s) := set_bit d (b mod BPB) x]> v) s b' = if decide (b = b') then x else used v s b'.
Proof.
  intros G Hwf Hb Hd b' Hb'. pose proof (bblock_range _ _ _ _ G Hb) as (E & R1 & R2 & R3).
  pose proof (bblock_range _ _ _ _ G Hb') as (E' & R1' & R2' & R3').
  pose proof (Z.mod_pos_bound b BPB ltac:(unfold BPB; lia)). pose proof (Z.mod_pos_bound b' BPB ltac:(unfold BPB; lia)).
  assert (length d = BSIZE) as Hl by (unfold blocks_wf in Hwf; rewrite Forall_lookup in Hwf; by eapply Hwf).
  unfold used. destruct (decide (BBLOCK b s = BBLOCK b' s)) as [Eb|Eb].
  - rewrite <- Eb, list_lookup_insert_eq, Hd by lia. rewrite bit_of_set by done.
    destruct (decide (b = b')) as [->|Hne]; [by rewrite decide_True|]. rewrite decide_False; [done|].
    intros Em. apply Hne. apply (div_mod_eq _ _ BPB); [unfold BPB; lia| |done]. lia.
  - rewrite decide_False by (by intros ->). rewrite list_lookup_insert_ne by lia. done.
Qed.

(** ** [balloc] *)

(** [balloc] took block [b]: it was the first free one, and is now used and
    zero. *)
Record allocated (s : superblock) (v v' : list block) (b : Z) : Prop := {
  al_range : data_start s <= b < sb_size s;
  al_free : used v s b = false;
  al_first b' : 0 <= b' < b -> used v s b' = true;
  al_view : exists d, v !! at_ (BBLOCK b s) = Some d /\
    v' = <[at_ b := replicate BSIZE 0]> (<[at_ (BBLOCK b s) := set_bit d (b mod BPB) true]> v)
}.

Section allocated.
Context (g : tgeo) (s : superblock) (v v' : list block) (b : Z).
Hypotheses (G : fs_geo g s (length v)) (Hwf : blocks_wf v) (Ha : allocated s v v' b).

Lemma allocated_length : length v' = length v.
Proof. destruct Ha as [_ _ _ (d & _ & ->)]. by rewrite !length_insert. Qed.

Lemma allocated_range : 0 < data_start s /\ 0 <= b < sb_size s /\ BBLOCK b s < data_start s /\
  tg_lo g <= b /\ at_ b <> at_ (BBLOCK b s) /\ (at_ b < length v)%nat.
Proof.
  pose proof (al_range _ _ _ _ Ha). destruct G as [G1 G2 G3 G4 G5 G6].
  assert (0 <= (sb_ninodes s - 1) / IPB) by (apply Z.div_pos; unfold IPB; lia).
  assert (0 <= (sb_size s - 1) / BPB) by (apply Z.div_pos; unfold BPB, data_start in *; lia).
  unfold data_start in *. assert (0 <= b < sb_size s) as Hb by lia.
  pose proof (bblock_range _ _ _ _ G Hb) as (E & R1 & R2 & R3). unfold data_start in *. lia.
Qed.

Lemma allocated_zero : v' !! at_ b = Some (replicate BSIZE 0).
Proof.
  pose proof allocated_range as (_ & _ & _ & _ & _ & Hlt). destruct Ha as [_ _ _ (d & _ & ->)].
  apply list_lookup_insert_eq. by rewrite length_insert.
Qed.

Lemma allocated_other n : 0 <= n -> n <> b -> n <> BBLOCK b s -> v' !! at_ n = v !! at_ n.
Proof.
  intros Hn H1 H2. pose proof allocated_range as (_ & Hb & _).
  pose proof (bblock_range _ _ _ _ G Hb) as (_ & _ & _ & R).
  destruct Ha as [_ _ _ (d & _ & ->)]. rewrite !list_lookup_insert_ne; [done|lia|lia].
Qed.

Lemma allocated_used b' : 0 <= b' < sb_size s ->
  used v' s b' = if decide (b = b') then true else used v s b'.
Proof.
  intros Hb'. pose proof allocated_range as (_ & Hb & Hlt & _ & Hne & Hl).
  pose proof (bblock_range _ _ _ _ G Hb') as (_ & R' & _ & R'').
  pose proof (al_range _ _ _ _ Ha). destruct Ha as [_ _ _ (d & Hd & ->)].
  unfold used at 1. rewrite list_lookup_insert_ne by lia.
  exact (used_set g s v b true d G Hwf Hb Hd b' Hb').
Qed.

Lemma allocated_meta : meta_used v s -> meta_used v' s.
Proof.
  intros Hm b' Hb'. pose proof (fg_bmap _ _ _ G). rewrite allocated_used by lia. case_decide; [done|]. by apply Hm.
Qed.
End allocated.

Section alloc.
Context {T : Type} {ops : TxnOps T} {tv : TxnView T} {laws : TxnLaws T}.
Implicit Types (s : fs T) (t : T) (v : list block) (h : gmap nat Z) (L : gset Z) (g : tgeo).

Lemma blocks_len v n d : blocks_wf v -> v !! n = Some d -> length d = BSIZE.
Proof. unfold blocks_wf. rewrite Forall_lookup. eauto. Qed.

Lemma wp_bzero g s v h L n (Q : unit -> fs T -> Prop) :
  txn g (tx s) v h ∅ L -> 0 <= n < Z.of_nat (length v) -> n ∉ img h -> tg_lo g <= n ->
  can_read g h L -> (size L < tg_cap g)%nat ->
  (forall t, txn g t (<[at_ n := replicate BSIZE 0]> v) h ∅ ({[n]} ∪ L) -> Q tt (with_tx s t)) ->
  wp (bzero ROOTDEV n) s Q.
Proof.
  intros Ht Hn Hh Hlo Hr Hsz HQ. unfold bzero. apply wp_bind. eapply wp_fbread; try done.
  intros b t Hb Ht'. eapply wp_write_last; [exact Ht'|done|by rewrite length_replicate|done|done|].
  intros t2 Ht2. by apply HQ.
Qed.

(** The buffers that are locked during an allocation are of data blocks. *)
Definition held_data (s : superblock) v h : Prop :=
  forall n, n ∈ img h -> data_start s <= n /\ used v s n = true.

Lemma wp_balloc_bits n g s v h L b bi bp :
  let q := sb s in
  txn g (tx s) v (<[bp := BBLOCK b q]> h) ∅ L -> h !! bp = None -> fs_geo g q (length v) ->
  meta_used v q -> held_data q v h -> (size L + size h + 2 <= tg_cap g)%nat ->
  0 <= b < sb_size q -> b mod BPB = 0 -> 0 <= bi -> Z.of_nat n + bi = BPB ->
  (forall b', 0 <= b' < b + bi -> b' < sb_size q -> used v q b' = true) ->
  wp (balloc_bits n ROOTDEV b bi bp) s (fun r s' =>
    match r with
    | Some a => exists v' t, s' = with_tx s t /\ allocated q v v' a /\
        txn g t v' h ∅ ({[a]} ∪ ({[BBLOCK a q]} ∪ L))
    | None => s' = s /\ forall b', 0 <= b' < b + BPB -> b' < sb_size q -> used v q b' = true
    end).
Proof.
  intros q Ht Hbp G Hm Hh Hsz Hb Hb0 Hbi Hn Hused. revert bi Hbi Hn Hused.
  induction n as [|n IH]; intros bi Hbi Hn Hused; cbn [balloc_bits].
  { apply wp_ret. split; [done|]. by replace (b + BPB) with (b + bi) by lia. }
  apply wp_bind, wp_gets. fold q. bsplit; [|apply wp_ret; split; [done|]; intros b' ? ?; apply Hused; lia].
  pose proof (txn_wf _ _ _ _ _ _ Ht) as Hwf.
  pose proof (bblock_range _ _ _ _ G Hb) as (Eb & R1 & R2 & R3).
  assert (Ediv : (b + bi) / BPB = b / BPB).
  { symmetry. apply (Z.div_unique_pos _ _ _ bi); [unfold BPB in *; lia|].
    pose proof (Z.div_mod b BPB ltac:(unfold BPB; lia)). lia. }
  assert (Emod : (b + bi) mod BPB = bi).
  { rewrite Z.add_mod, Hb0, Z.add_0_l, Z.mod_mod, Z.mod_small by (unfold BPB in *; lia). done. }
  assert (Ebb : BBLOCK (b + bi) q = BBLOCK b q) by (unfold BBLOCK; by rewrite Ediv).
  destruct (lookup_lt_is_Some_2 v (at_ (BBLOCK b q))) as [d Hd]; [lia|].
  pose proof (blocks_len _ _ _ Hwf Hd) as Hlen.
  apply wp_bind. eapply wp_fdata; [exact Ht|by rewrite lookup_insert_eq|exact Hd|].
  assert (Hi : (at_ (bi / 8) < length d)%nat).
  { rewrite Hlen. assert (bi / 8 < 512) by (apply Z.div_lt_upper_bound; unfold BPB in *; lia).
    unfold BSIZE. assert (0 <= bi / 8) by (apply Z.div_pos; lia). lia. }
  destruct (lookup_lt_is_Some_2 d (at_ (bi / 8)) Hi) as [x Hx].
  apply wp_bind. eapply wp_lift; [exact Hx|].
  pose proof (Z.mod_pos_bound bi 8 ltac:(lia)) as Hk.
  rewrite Z.shiftl_1_l, land_pow2_testbit by lia.
  assert (Eu : used v q (b + bi) = Z.testbit x (bi mod 8)).
  { unfold used. rewrite Ebb, Hd, Emod. unfold bit_of. by rewrite Hx. }
  destruct (Z.testbit x (bi mod 8)) eqn:Ebit; cbn [negb].
  - apply IH; [lia|lia|]. intros b' H1 H2. destruct (decide (b' = b + bi)) as [->|]; [done|apply Hused; lia].
  - apply wp_bind. eapply wp_lift; [by apply store_in|].
    assert (Eset : <[at_ (bi / 8) := u8 (Z.lor x (2 ^ (bi mod 8)))]> d = set_bit d ((b + bi) mod BPB) true)
      by (unfold set_bit; by rewrite Emod, Hx).
    rewrite Eset. eapply wp_write_back; [exact Ht|done|by rewrite set_bit_length|done|lia|].
    intros t1 Ht1. assert (Hds : data_start q <= b + bi).
    { destruct (decide (data_start q <= b + bi)); [done|]. rewrite (Hm (b + bi)) in Eu by lia. done. }
    pose proof (size_insert_le L (BBLOCK b q)) as Hs1. destruct G as [G1 G2 G3 G4 G5 G6].
    apply wp_bind. eapply wp_bzero; [exact Ht1| | | | | |].
    + rewrite length_insert. lia.
    + intros Hin. destruct (Hh _ Hin). congruence.
    + lia.
    + unfold can_read. lia.
    + lia.
    + intros t2 Ht2. apply wp_ret. eexists _, t2. split; [done|]. rewrite Ebb. split; [|exact Ht2].
      split; [lia|done|intros b' Hb'; apply Hused; lia|]. rewrite Ebb. by exists d.
Qed.

Definition full_map (v : list block) (s : superblock) : Prop := forall b, 0 <= b < sb_size s -> used v s b = true.

Lemma run_balloc fuel g s v h L b :
  let q := sb s in
  txn g (tx s) v h ∅ L -> fs_geo g q (length v) ->
  meta_used v q -> held_data q v h -> (size L + size h + 2 <= tg_cap g)%nat ->
  0 <= b -> b mod BPB = 0 -> Z.max 0 (sb_size q - b) < Z.of_nat fuel ->
  (forall b', 0 <= b' < b -> b' < sb_size q -> used v q b' = true) ->
  (exists s', balloc_loop fuel ROOTDEV b s = Stop (Panicked "balloc: out of blocks") s' /\ full_map v q) \/
  wp (balloc_loop fuel ROOTDEV b) s (fun a s' =>
    exists v' t, s' = with_tx s t /\ allocated q v v' a /\ txn g t v' h ∅ ({[a]} ∪ ({[BBLOCK a q]} ∪ L))).
Proof.
  revert s b. induction fuel as [|fuel IH]; intros s b q Ht G Hm Hh Hsz H0 Hb0 Hf Hu; [lia|].
  unfold wp. cbn [balloc_loop]. rewrite bind_gets. fold q. destruct (Z.ltb_spec b (sb_size q)) as [l|l].
  2: { left. exists s. split; [done|]. intros b' Hb'. apply Hu; lia. }
  pose proof (bblock_range _ _ _ _ G (conj H0 l)) as (Eb & R1 & R2 & R3).
  assert (Hr : wp (bread ROOTDEV (BBLOCK b q)) s (fun bp s1 => exists t, s1 = with_tx s t /\ h !! bp = None /\
            txn g t v (<[bp := BBLOCK b q]> h) ∅ L)).
  { eapply wp_fbread; [exact Ht|done| |unfold can_read; lia|eauto].
    intros Hin. destruct (Hh _ Hin). lia. }
  apply wp_iff in Hr as (bp & s1 & E1 & t & -> & Hbp & Ht1). rewrite (bind_ret_eq _ _ _ _ _ E1).
  pose proof (wp_balloc_bits (Z.to_nat BPB) g (with_tx s t) v h L b 0 bp Ht1 Hbp G Hm Hh Hsz
    (conj H0 l) Hb0 ltac:(lia) ltac:(unfold BPB; lia) ltac:(intros; apply Hu; lia)) as Hw.
  apply wp_iff in Hw as (r & s2 & E2 & Hr). cbn [sb with_tx] in Hr. fold q in Hr.
  destruct r as [a|].
  - right. destruct Hr as (v' & t2 & -> & Ha & Ht2). rewrite (bind_ret_eq _ _ _ _ _ E2).
    exists v', t2. done.
  - destruct Hr as [-> Hall]. rewrite (bind_ret_eq _ _ _ _ _ E2).
    assert (Hb : wp (brelse bp) (with_tx s t) (fun _ s3 => exists t3, s3 = with_tx s t3 /\ txn g t3 v h ∅ L)).
    { eapply wp_fbrelse; [exact Ht1|done|]. intros t3 Ht3. by exists t3. }
    apply wp_iff in Hb as ([] & s3 & E3 & t3 & -> & Ht3).
    destruct (IH (with_tx s t3) (b + BPB) Ht3 G Hm Hh Hsz) as [(s' & E & Hfull)|Hw]; try done.
    + unfold BPB. lia.
    + rewrite Z.add_mod, Hb0, Z.mod_same by (unfold BPB; lia). done.
    + cbn [sb with_tx]. fold q. unfold BPB. lia.
    + left. exists s'. split; [|done]. by rewrite (bind_ret_eq _ _ _ _ _ E3).
    + right. unfold wp in Hw. by rewrite (bind_ret_eq _ _ _ _ _ E3).
Qed.

Lemma wp_balloc g s v h L :
  let q := sb s in
  txn g (tx s) v h ∅ L -> fs_geo g q (length v) ->
  meta_used v q -> held_data q v h -> (size L + size h + 2 <= tg_cap g)%nat -> ~ full_map v q ->
  wp (balloc ROOTDEV) s (fun a s' =>
    exists v' t, s' = with_tx s t /\ allocated q v v' a /\ txn g t v' h ∅ ({[a]} ∪ ({[BBLOCK a q]} ∪ L))).
Proof.
  intros q Ht G Hm Hh Hsz Hnf. unfold balloc. apply wp_bind, wp_gets.
  destruct (run_balloc (S (Z.to_nat (sb_size (sb s)))) g s v h L 0) as [(s' & _ & Hf)|Hw];
    try done; try lia.
Qed.

Lemma balloc_full g s v h L :
  let q := sb s in
  txn g (tx s) v h ∅ L -> fs_geo g q (length v) ->
  meta_used v q -> held_data q v h -> (size L + size h + 2 <= tg_cap g)%nat -> full_map v q ->
  exists s', balloc ROOTDEV s = Stop (Panicked "balloc: out of blocks") s'.
Proof.
  intros q Ht G Hm Hh Hsz Hf. unfold balloc. rewrite bind_gets.
  destruct (run_balloc (S (Z.to_nat (sb_size (sb s)))) g s v h L 0) as [(s' & E & _)|Hw];
    try done; try lia; [by exists s'|].
  exfalso. apply wp_iff in Hw as (a & s' & _ & v' & t & _ & Ha & _).
  pose proof (allocated_range g q v v' a G Ha) as (_ & Hr & _).
  pose proof (al_free _ _ _ _ Ha). specialize (Hf a Hr). unfold q in *. congruence.
Qed.

(** ** [bfree] *)

Lemma wp_bfree g s v h L b (Q : unit -> fs T -> Prop) :
  let q := sb s in
  txn g (tx s) v h ∅ L -> fs_geo g q (length v) -> held_data q v h ->
  (size L + size h < tg_cap g)%nat -> 0 <= b < sb_size q -> used v q b = true ->
  (forall d t, v !! at_ (BBLOCK b q) = Some d ->
     txn g t (<[at_ (BBLOCK b q) := set_bit d (b mod BPB) false]> v) h ∅ ({[BBLOCK b q]} ∪ L) ->
     Q tt (with_tx s t)) ->
  wp (bfree ROOTDEV b) s Q.
Proof.
  intros q Ht G Hh Hsz Hb Hu HQ. unfold bfree. apply wp_bind, wp_gets. fold q.
  pose proof (bblock_range _ _ _ _ G Hb) as (Eb & R1 & R2 & R3).
  apply wp_bind. eapply wp_fbread; [exact Ht|done| |unfold can_read; lia|].
  { intros Hin. destruct (Hh _ Hin). lia. }
  intros bp t Hbp Ht1. pose proof (txn_wf _ _ _ _ _ _ Ht) as Hwf.
  destruct (lookup_lt_is_Some_2 v (at_ (BBLOCK b q))) as [d Hd]; [lia|].
  pose proof (blocks_len _ _ _ Hwf Hd) as Hlen.
  apply wp_bind. eapply wp_fdata; [exact Ht1|by rewrite lookup_insert_eq|exact Hd|].
  pose proof (Z.mod_pos_bound b BPB ltac:(unfold BPB; lia)) as Hmod.
  unfold used in Hu. rewrite Hd in Hu. unfold bit_of in Hu.
  destruct (d !! at_ (b mod BPB / 8)) as [x|] eqn:Hx; [|done].
  apply wp_bind. eapply wp_lift; [done|].
  pose proof (Z.mod_pos_bound (b mod BPB) 8 ltac:(lia)) as Hk.
  rewrite Z.shiftl_1_l, land_pow2_testbit by lia. rewrite Hu. cbn [negb].
  apply wp_bind. eapply wp_lift; [apply store_in; by eapply lookup_lt_Some|].
  assert (Eset : <[at_ (b mod BPB / 8) := u8 (Z.land x (Z.lnot (2 ^ (b mod BPB mod 8))))]> d =
                 set_bit d (b mod BPB) false) by (unfold set_bit; by rewrite Hx).
  rewrite Eset.
  eapply wp_write_last; [exact Ht1|done|by rewrite set_bit_length|done|lia|].
  intros t2 Ht2. by apply (HQ d).
Qed.

Lemma bfree_free g s v h L b :
  let q := sb s in
  txn g (tx s) v h ∅ L -> fs_geo g q (length v) -> held_data q v h ->
  (size L + size h < tg_cap g)%nat -> 0 <= b < sb_size q -> used v q b = false ->
  exists s', bfree ROOTDEV b s = Stop (Panicked "freeing free block") s'.
Proof.
  intros q Ht G Hh Hsz Hb Hu. unfold bfree. rewrite bind_gets. fold q.
  pose proof (bblock_range _ _ _ _ G Hb) as (Eb & R1 & R2 & R3).
  pose proof (txn_wf _ _ _ _ _ _ Ht) as Hwf.
  destruct (lookup_lt_is_Some_2 v (at_ (BBLOCK b q))) as [d Hd]; [lia|].
  pose proof (blocks_len _ _ _ Hwf Hd) as Hlen.
  assert (Hr : wp (let! bp := bread ROOTDEV (BBLOCK b q) in let! d := bdata bp in ret (bp, d)) s
            (fun r s1 => r.2 = d)).
  { apply wp_bind. eapply wp_fbread; [exact Ht|done| |unfold can_read; lia|].
    { intros Hin. destruct (Hh _ Hin). lia. }
    intros bp t Hbp Ht1. apply wp_bind. eapply wp_fdata; [exact Ht1|by rewrite lookup_insert_eq|exact Hd|done]. }
  apply wp_iff in Hr as (r & s1 & E1 & Er). unfold bind at 1 in E1.
  destruct (bread ROOTDEV (BBLOCK b q) s) as [bp s2|] eqn:E2; [|done]. rewrite (bind_ret_eq _ _ _ _ _ E2).
  unfold bind at 1 in E1. destruct (bdata bp s2) as [d' s3|] eqn:E3; [|done]. rewrite (bind_ret_eq _ _ _ _ _ E3).
  injection E1 as <- <-. cbn [snd] in Er. subst d'. exists s3.
  pose proof (Z.mod_pos_bound b BPB ltac:(unfold BPB; lia)) as Hmod.
  destruct (lookup_lt_is_Some_2 d (at_ (b mod BPB / 8))) as [x Hx].
  { rewrite Hlen. assert (b mod BPB / 8 < 512) by (apply Z.div_lt_upper_bound; unfold BPB in *; lia).
    unfold BSIZE. assert (0 <= b mod BPB / 8) by (apply Z.div_pos; lia). lia. }
  unfold used in Hu. rewrite Hd in Hu. unfold bit_of in Hu. rewrite Hx in Hu |- *.
  pose proof (Z.mod_pos_bound (b mod BPB) 8 ltac:(lia)) as Hk.
  unfold bind at 1. cbn [lift ret]. rewrite Z.shiftl_1_l, land_pow2_testbit by lia. by rewrite Hu.
Qed.

(** C8. [balloc] takes the first free block: the block was free and all below
    it are in use; afterwards it is in use and zeroed, no other bit of the map
    has changed, and no other block outside the map has. *)
Theorem balloc_allocates g s v h L :
  let q := sb s in
  txn g (tx s) v h ∅ L -> fs_geo g q (length v) -> meta_used v q -> held_data q v h ->
  (size L + size h + 2 <= tg_cap g)%nat -> ~ full_map v q ->
  exists b v' t, balloc ROOTDEV s = Ret b (with_tx s t) /\ txn g t v' h ∅ ({[b]} ∪ ({[BBLOCK b q]} ∪ L)) /\
    data_start q <= b < sb_size q /\ used v q b = false /\ (forall a, 0 <= a < b -> used v q a = true) /\
    v' !! at_ b = Some (replicate BSIZE 0) /\
    (forall a, 0 <= a < sb_size q -> used v' q a = if decide (b = a) then true else used v q a) /\
    (forall n, 0 <= n -> n <> b -> n <> BBLOCK b q -> v' !! at_ n = v !! at_ n).
Proof.
  intros q Ht G Hm Hh Hsz Hnf. pose proof (wp_balloc g s v h L Ht G Hm Hh Hsz Hnf) as H.
  apply wp_iff in H as (b & s' & E & v' & t & -> & A & Ht'). exists b, v', t. pose proof (txn_wf _ _ _ _ _ _ Ht) as Hwf.
  split; [done|]. split; [done|]. split; [apply A|]. split; [apply A|]. split; [apply A|].
  split; [by eapply allocated_zero|]. split; intros; [by eapply allocated_used|by eapply allocated_other].
Qed.

(** [bfree] of a block in use makes exactly that block free, and of a
    block that is free it panics. *)
Theorem bfree_frees g s v h L b :
  let q := sb s in
  txn g (tx s) v h ∅ L -> fs_geo g q (length v) -> held_data q v h ->
  (size L + size h < tg_cap g)%nat -> 0 <= b < sb_size q ->
  if used v q b then
    exists v' t, bfree ROOTDEV b s = Ret tt (with_tx s t) /\ txn g t v' h ∅ ({[BBLOCK b q]} ∪ L) /\
      (forall a, 0 <= a < sb_size q -> used v' q a = if decide (b = a) then false else used v q a) /\
      (forall n, 0 <= n -> n <> BBLOCK b q -> v' !! at_ n = v !! at_ n)
  else exists s', bfree ROOTDEV b s = Stop (Panicked "freeing free block") s'.
Proof.
  intros q Ht G Hh Hsz Hb. destruct (used v q b) eqn:Hu; [|by eapply bfree_free].
  assert (H : wp (bfree ROOTDEV b) s (fun _ s' => exists d t, v !! at_ (BBLOCK b q) = Some d /\ s' = with_tx s t /\
    txn g t (<[at_ (BBLOCK b q) := set_bit d (b mod BPB) false]> v) h ∅ ({[BBLOCK b q]} ∪ L))).
  { eapply wp_bfree; try done. intros d t Hd Ht'. by exists d, t. }
  apply wp_iff in H as ([] & s' & E & d & t & Hd & -> & Ht'). eexists _, t. split; [done|]. split; [exact Ht'|].
  pose proof (bblock_range _ _ _ _ G Hb) as (_ & R1 & R2 & R3). pose proof (txn_wf _ _ _ _ _ _ Ht) as Hwf. split; intros.
  - by eapply used_set.
  - rewrite list_lookup_insert_ne; [done|]. pose proof (fg_lo _ _ _ G). lia.
Qed.
End alloc.
