(* ===== verification/FsInode.v ===== *)
(** * Correctness of the inode layer ([ialloc], [iupdate], [iget], [ilock],
    [iput] of [kernel/fs.c])

    The on-disk inodes are an array of records: [iupdate] writes an element
    and [ilock] reads it back.  The inode cache has at most one entry for an
    inode. *)

From S2P Require Import Prelude Mem BufIface Lock Txn Fs FsAlloc.

(** ** The encoding of inodes *)

Definition short (x : Z) : Prop := - 2 ^ 15 <= x < 2 ^ 15.
Definition word (x : Z) : Prop := 0 <= x < 2 ^ 32.

(** The fields fit their C types. *)
Record wf_dinode (i : dinode) : Prop := {
  wd_type : short (di_type i);
  wd_major : short (di_major i);
  wd_minor : short (di_minor i);
  wd_nlink : short (di_nlink i);
  wd_size : word (di_size i);
  wd_addrs : Forall word (di_addrs i);
  wd_length : length (di_addrs i) = S NDIRECT;
  wd_mode : word (di_mode i);
  wd_uid : word (di_uid i);
  wd_gid : word (di_gid i)
}.

Lemma s16_u16 x : short x -> s16 (x mod 2 ^ 16) = x.
Proof.
  unfold short, s16. intros Hx. rewrite Z.add_mod_idemp_l by lia. rewrite Z.mod_small; lia.
Qed.

Lemma put_succeeds n m o x : (o + n <= length m)%nat -> exists m', put n m o x = Some m' /\ length m' = length m.
Proof.
  intros Ho. destruct (put n m o x) as [m'|] eqn:E.
  - exists m'. split; [done|]. by eapply put_length.
  - unfold put in E. by rewrite decide_True in E.
Qed.

Lemma load_words_other n k m o p x m' :
  put k m o x = Some m' -> (p + 4 * n <= o \/ o + k <= p)%nat -> load_words n m' p = load_words n m p.
Proof.
  intros E. revert p. induction n as [|n IH]; intros p Hp; cbn [load_words]; [done|].
  rewrite (load_put_other _ 4 _ _ p _ _ E) by lia. destruct (load 4 m p); [|done]. cbn. rewrite IH by lia. done.
Qed.

Lemma put_words_ok l m o : (o + 4 * length l <= length m)%nat ->
  exists m', put_words l m o = Some m' /\ length m' = length m /\
    (forall k p, (p + k <= o \/ o + 4 * length l <= p)%nat -> load k m' p = load k m p) /\
    (Forall word l -> load_words (length l) m' o = Some l).
Proof.
  revert m o. induction l as [|x l IH]; intros m o Ho; cbn [put_words length] in *.
  { exists m. split_and!; try done. }
  destruct (put_succeeds 4 m o x) as (m1 & E1 & L1); [lia|]. rewrite E1. cbn.
  destruct (IH m1 (o + 4)%nat) as (m2 & E2 & L2 & O2 & W2); [lia|].
  exists m2. split_and!; [done|congruence| |].
  - intros k p Hp. rewrite O2 by lia. apply (load_put_other _ _ _ _ _ _ _ E1). lia.
  - intros [Hx Hl]%Forall_cons_iff. cbn [load_words]. rewrite O2 by lia.
    rewrite (load_put_same _ _ _ _ _ E1). cbn. rewrite W2 by done. cbn. f_equal. f_equal.
    apply Z.mod_small. exact Hx.
Qed.

Lemma load_words_ext n m m' o : (forall p, (o <= p)%nat -> (p + 4 <= o + 4 * n)%nat -> load 4 m' p = load 4 m p) ->
  load_words n m' o = load_words n m o.
Proof.
  revert o. induction n as [|n IH]; intros o H; cbn [load_words]; [done|].
  rewrite H by lia. destruct (load 4 m o); [|done]. cbn. rewrite IH; [done|]. intros p H1 H2. apply H; lia.
Qed.

(** [dinode_at] depends on the loads inside the record only. *)
Lemma dinode_at_ext m m' o :
  (forall k p, (o <= p)%nat -> (p + k <= o + 76)%nat -> load k m' p = load k m p) -> dinode_at m' o = dinode_at m o.
Proof.
  intros H. unfold dinode_at. rewrite !H by lia.
  rewrite (load_words_ext (S NDIRECT) m m' (o + 12)); [done|].
  intros p H1 H2. apply H; unfold NDIRECT in *; lia.
Qed.

Lemma bind_some {A B} (o : option A) (f : A -> option B) b :
  o ≫= f = Some b -> exists a, o = Some a /\ f a = Some b.
Proof. destruct o; [|done]. eauto. Qed.

(** Writing an inode and reading it back gives the same inode, and changes
    nothing outside the 76 bytes of its fields. *)
Lemma put_dinode_ok i d o : wf_dinode i -> (o + 128 <= length d)%nat ->
  exists d', put_dinode i d o = Some d' /\ length d' = length d /\ dinode_at d' o = Some i /\
    forall k p, (p + k <= o \/ o + 76 <= p)%nat -> load k d' p = load k d p.
Proof.
  intros [W1 W2 W3 W4 W5 W6 W7 W8 W9 W10] Ho. unfold put_dinode.
  destruct (put_succeeds 2 d o (di_type i)) as (d1 & E1 & L1); [lia|]. rewrite E1, obind_some.
  destruct (put_succeeds 2 d1 (o + 2) (di_major i)) as (d2 & E2 & L2); [lia|]. rewrite E2, obind_some.
  destruct (put_succeeds 2 d2 (o + 4) (di_minor i)) as (d3 & E3 & L3); [lia|]. rewrite E3, obind_some.
  destruct (put_succeeds 2 d3 (o + 6) (di_nlink i)) as (d4 & E4 & L4); [lia|]. rewrite E4, obind_some.
  destruct (put_succeeds 4 d4 (o + 8) (di_size i)) as (d5 & E5 & L5); [lia|]. rewrite E5, obind_some.
  destruct (put_succeeds 4 d5 (o + 64) (di_mode i)) as (d6 & E6 & L6); [lia|]. rewrite E6, obind_some.
  destruct (put_succeeds 4 d6 (o + 68) (di_uid i)) as (d7 & E7 & L7); [lia|]. rewrite E7, obind_some.
  destruct (put_succeeds 4 d7 (o + 72) (di_gid i)) as (d8 & E8 & L8); [lia|]. rewrite E8, obind_some.
  destruct (put_words_ok (di_addrs i) d8 (o + 12)) as (d9 & E9 & L9 & O9 & V9); [rewrite W7; unfold NDIRECT; lia|].
  rewrite W7 in *. specialize (V9 W6). exists d9. split; [done|]. split; [congruence|].
  assert (Hall : forall k p, (p + k <= o \/ o + 76 <= p)%nat -> load k d9 p = load k d p).
  { intros k p Hp. rewrite O9 by (unfold NDIRECT; lia).
    rewrite (load_put_other _ _ _ _ _ _ _ E8), (load_put_other _ _ _ _ _ _ _ E7), (load_put_other _ _ _ _ _ _ _ E6),
      (load_put_other _ _ _ _ _ _ _ E5), (load_put_other _ _ _ _ _ _ _ E4), (load_put_other _ _ _ _ _ _ _ E3),
      (load_put_other _ _ _ _ _ _ _ E2), (load_put_other _ _ _ _ _ _ _ E1) by lia. done. }
  split; [|exact Hall]. unfold dinode_at. rewrite V9, !O9 by (unfold NDIRECT; lia).
  rewrite (load_put_same _ _ _ _ _ E8).
  rewrite !(load_put_other _ _ _ _ _ _ _ E8) by lia. rewrite (load_put_same _ _ _ _ _ E7).
  rewrite !(load_put_other _ _ _ _ _ _ _ E7) by lia. rewrite (load_put_same _ _ _ _ _ E6).
  rewrite !(load_put_other _ _ _ _ _ _ _ E6) by lia. rewrite (load_put_same _ _ _ _ _ E5).
  rewrite !(load_put_other _ _ _ _ _ _ _ E5) by lia. rewrite (load_put_same _ _ _ _ _ E4).
  rewrite !(load_put_other _ _ _ _ _ _ _ E4) by lia. rewrite (load_put_same _ _ _ _ _ E3).
  rewrite !(load_put_other _ _ _ _ _ _ _ E3) by lia. rewrite (load_put_same _ _ _ _ _ E2).
  rewrite !(load_put_other _ _ _ _ _ _ _ E2) by lia. rewrite (load_put_same _ _ _ _ _ E1).
  cbn [mbind option_bind]. change (8 * Z.of_nat 2) with 16. change (8 * Z.of_nat 4) with 32.
  rewrite !s16_u16, !Z.mod_small by done. by destruct i.
Qed.

(** An inode written to its place in a block is read back as it was, and
    nothing outside its 128 bytes changes. *)
Theorem dinode_roundtrip i d o : wf_dinode i -> (o + 128 <= length d)%nat ->
  exists d', put_dinode i d o = Some d' /\ dinode_at d' o = Some i /\ length d' = length d /\
    forall k p, (p + k <= o \/ o + 128 <= p)%nat -> load k d' p = load k d p.
Proof.
  intros Hw Ho. destruct (put_dinode_ok i d o Hw Ho) as (d' & E & Hl & Hat & Hout). exists d'.
  split_and!; try done. intros k p Hp. apply Hout. lia.
Qed.


(** ** The array of inodes on disk *)

Definition disk_inode (v : list block) (q : superblock) (i : Z) : option dinode :=
  v !! at_ (IBLOCK i q) ≫= fun d => dinode_at d (ioff i).

Lemma iblock_range g q len i : fs_geo g q len -> 0 <= i < sb_ninodes q ->
  IBLOCK i q = i / IPB + sb_inodestart q /\ sb_inodestart q <= IBLOCK i q < sb_bmapstart q /\
  tg_lo g <= IBLOCK i q /\ 0 <= IBLOCK i q < Z.of_nat len.
Proof.
  intros [G1 G2 G3 G4 G5 G6] Hi. unfold IBLOCK.
  assert (0 <= i / IPB <= (sb_ninodes q - 1) / IPB).
  { split; [apply Z.div_pos; unfold IPB; lia|]. apply Z.div_le_mono; unfold IPB; lia. }
  assert (0 <= (sb_size q - 1) / BPB) by (apply Z.div_pos; unfold BPB; lia).
  unfold data_start in G4. rewrite u32_small by lia. lia.
Qed.

Lemma ioff_range i : (ioff i + 128 <= BSIZE)%nat.
Proof. unfold ioff, IPB, BSIZE. pose proof (Z.mod_pos_bound i 4). lia. Qed.

(** Inode [i] was written to the disk, and nothing else. *)
Record inode_written (q : superblock) (v v' : list block) (i : Z) (di : dinode) : Prop := {
  iw_length : length v' = length v;
  iw_this : disk_inode v' q i = Some di;
  iw_others j : 0 <= j < sb_ninodes q -> j <> i -> disk_inode v' q j = disk_inode v q j;
  iw_blocks n : 0 <= n -> n <> IBLOCK i q -> v' !! at_ n = v !! at_ n
}.

Lemma put_inode_written g q v i di d d' :
  fs_geo g q (length v) -> 0 <= i < sb_ninodes q -> v !! at_ (IBLOCK i q) = Some d ->
  length d' = length d -> dinode_at d' (ioff i) = Some di ->
  (forall k p, (p + k <= ioff i \/ ioff i + 128 <= p)%nat -> load k d' p = load k d p) ->
  inode_written q v (<[at_ (IBLOCK i q) := d']> v) i di.
Proof.
  intros G Hi Hd Hl Hat Hout. pose proof (iblock_range _ _ _ _ G Hi) as (E & _ & _ & R).
  pose proof (lookup_lt_Some _ _ _ Hd) as Hlt. split.
  - apply length_insert.
  - unfold disk_inode. by rewrite list_lookup_insert_eq.
  - intros j Hj Hne. unfold disk_inode. pose proof (iblock_range _ _ _ _ G Hj) as (E' & _ & _ & R').
    destruct (decide (IBLOCK j q = IBLOCK i q)) as [Eb|Eb].
    + rewrite Eb, list_lookup_insert_eq, Hd by done. cbn. apply dinode_at_ext.
      intros k p H1 H2. apply Hout. assert (i mod IPB <> j mod IPB).
      { intros Em. apply Hne. apply (div_mod_eq _ _ IPB); [unfold IPB; lia|lia|done]. }
      unfold ioff in *. pose proof (Z.mod_pos_bound i IPB ltac:(unfold IPB; lia)).
      pose proof (Z.mod_pos_bound j IPB ltac:(unfold IPB; lia)). lia.
    + rewrite list_lookup_insert_ne by lia. done.
  - intros n Hn Hne. apply list_lookup_insert_ne. lia.
Qed.

Section iupdate.
Context {T : Type} {ops : TxnOps T} {tv : TxnView T} {laws : TxnLaws T}.
Implicit Types (s : fs T) (t : T) (v : list block) (L : gset Z) (g : tgeo) (ip : inode).

Lemma wp_geti s i ip (Q : inode -> fs T -> Prop) : icache s !! i = Some ip -> Q ip s -> wp (geti i) s Q.
Proof. unfold wp, geti. by intros ->. Qed.

Lemma wp_iupdate g s v L i ip (Q : unit -> fs T -> Prop) :
  txn g (tx s) v ∅ ∅ L -> fs_geo g (sb s) (length v) -> icache s !! i = Some ip -> i_dev ip = ROOTDEV ->
  0 <= i_inum ip < sb_ninodes (sb s) -> wf_dinode (i_disk ip) -> (size L < tg_cap g)%nat ->
  (forall v' t, inode_written (sb s) v v' (i_inum ip) (i_disk ip) ->
     txn g t v' ∅ ∅ ({[IBLOCK (i_inum ip) (sb s)]} ∪ L) -> Q tt (with_tx s t)) ->
  wp (iupdate i) s Q.
Proof.
  intros Ht G Hip Hdev Hn Hw Hsz HQ. pose proof (iblock_range _ _ _ _ G Hn) as (E & _ & R1 & R2).
  unfold iupdate. apply wp_bind. eapply wp_geti; [exact Hip|]. apply wp_bind, wp_gets. rewrite Hdev.
  apply wp_bind. eapply wp_fbread; [exact Ht|done| | |].
  { rewrite map_img_empty_L. set_solver. }
  { unfold can_read. rewrite map_size_empty. lia. }
  intros bp t1 Hbp Ht1. destruct (lookup_lt_is_Some_2 v (at_ (IBLOCK (i_inum ip) (sb s)))) as [d Hd]; [lia|].
  pose proof (blocks_len _ _ _ (txn_wf _ _ _ _ _ _ Ht) Hd) as Hlen.
  apply wp_bind. eapply wp_fdata; [exact Ht1|by rewrite lookup_insert_eq|exact Hd|].
  pose proof (ioff_range (i_inum ip)) as Hoff.
  destruct (put_dinode_ok (i_disk ip) d (ioff (i_inum ip)) Hw ltac:(lia)) as (d' & Hput & Hl & Hat & Hout).
  apply wp_bind. eapply wp_lift; [exact Hput|].
  eapply wp_write_last; [exact Ht1|done|congruence|done|done|]. intros t2 Ht2. eapply HQ; [|exact Ht2].
  eapply put_inode_written; try done. intros k p Hp. apply Hout. lia.
Qed.
End iupdate.

(** ** The inode cache *)

(** At most one entry is in use for an inode, and a valid one agrees with
    the disk. *)
Record icache_ok (v : list block) (q : superblock) (l : list inode) : Prop := {
  ic_length : length l = NINODE;
  ic_ref i ip : l !! i = Some ip -> 0 <= i_ref ip;
  ic_unique i j ip jp : l !! i = Some ip -> l !! j = Some jp -> 0 < i_ref ip -> 0 < i_ref jp ->
    i_dev ip = i_dev jp -> i_inum ip = i_inum jp -> i = j;
  ic_valid i ip : l !! i = Some ip -> 0 < i_ref ip -> i_valid ip = true ->
    disk_inode v q (i_inum ip) = Some (i_disk ip)
}.

Definition is_entry (dev inum : Z) (ip : inode) : Prop := 0 < i_ref ip /\ i_dev ip = dev /\ i_inum ip = inum.

Lemma iget_scan_ok l i dev inum e :
  match iget_scan l i dev inum e with
  | inl k => exists ip, (i <= k)%nat /\ l !! (k - i)%nat = Some ip /\ is_entry dev inum ip
  | inr r => (forall k ip, l !! k = Some ip -> ~ is_entry dev inum ip) /\
      match r with
      | Some k => e = Some k \/ exists ip, (i <= k)%nat /\ l !! (k - i)%nat = Some ip /\ i_ref ip = 0
      | None => e = None /\ forall k ip, l !! k = Some ip -> i_ref ip <> 0
      end
  end.
Proof.
  revert i e. induction l as [|ip l IH]; intros i e; cbn [iget_scan].
  { split; [intros k ip H; by rewrite lookup_nil in H|]. destruct e; [by left|]. split; [done|].
    intros k ip H. by rewrite lookup_nil in H. }
  destruct (_ && _ && _) eqn:E.
  - apply andb_true_iff in E as [[E1%Z.ltb_lt E2%Z.eqb_eq]%andb_true_iff E3%Z.eqb_eq].
    exists ip. rewrite Nat.sub_diag. done.
  - set (e' := match e with Some x => Some x | None => if i_ref ip =? 0 then Some i else None end).
    assert (Hno : ~ is_entry dev inum ip).
    { intros (E1 & E2 & E3). rewrite (proj2 (Z.ltb_lt _ _) E1), (proj2 (Z.eqb_eq _ _) E2), (proj2 (Z.eqb_eq _ _) E3) in E.
      done. }
    specialize (IH (S i) e'). destruct (iget_scan l (S i) dev inum e') as [k|r].
    + destruct IH as (jp & Hk & Hl & He). exists jp. split; [lia|]. split; [|done].
      by replace (k - i)%nat with (S (k - S i)) by lia.
    + destruct IH as [Hall Hr]. split.
      { intros [|k] jp Hk; [by injection Hk as <-|]. by eapply Hall. }
      destruct r as [k|].
      * destruct Hr as [He|(jp & Hk & Hl & Hz)].
        -- unfold e' in He. destruct e as [x|]; [by left|]. destruct (Z.eqb_spec (i_ref ip) 0); [|done].
           injection He as <-. right. exists ip. by rewrite Nat.sub_diag.
        -- right. exists jp. split; [lia|]. split; [|done]. by replace (k - i)%nat with (S (k - S i)) by lia.
      * destruct Hr as [He Hz]. unfold e' in He. destruct e; [done|]. destruct (Z.eqb_spec (i_ref ip) 0); [done|].
        split; [done|]. intros [|k] jp Hk; [by injection Hk as <-|]. by eapply Hz.
Qed.

Section iget.
Context {T : Type} {ops : TxnOps T} {tv : TxnView T} {laws : TxnLaws T}.
Implicit Types (s : fs T) (t : T) (v : list block) (L : gset Z) (g : tgeo) (ip : inode).

Definition with_ic s (l : list inode) : fs T := {| tx := tx s; sb := sb s; icache := l; fs_pid := fs_pid s |}.

Lemma wp_seti s i ip f (Q : unit -> fs T -> Prop) :
  icache s !! i = Some ip -> Q tt (with_ic s (<[i := f ip]> (icache s))) -> wp (seti i f) s Q.
Proof. unfold wp, seti. by intros ->. Qed.

(** A free entry, set up for an inode. *)
Definition fresh_inode (dev inum : Z) (ip : inode) : inode :=
  {| i_dev := dev; i_inum := inum; i_ref := 1; i_lock := i_lock ip; i_valid := false; i_disk := i_disk ip |}.

(** What [iget] does to the cache. *)
Inductive got (dev inum : Z) (l : list inode) : nat -> list inode -> Prop :=
  | got_cached i ip : l !! i = Some ip -> is_entry dev inum ip ->
      got dev inum l i (<[i := set_iref (i_ref ip + 1) ip]> l)
  | got_fresh i ip : l !! i = Some ip -> i_ref ip = 0 -> (forall j jp, l !! j = Some jp -> ~ is_entry dev inum jp) ->
      got dev inum l i (<[i := fresh_inode dev inum ip]> l).

Lemma iget_run dev inum s :
  (exists i l, iget dev inum s = Ret i (with_ic s l) /\ got dev inum (icache s) i l) \/
  iget dev inum s = Stop (Panicked "iget: no inodes") s /\
    forall k ip, icache s !! k = Some ip -> i_ref ip <> 0 /\ ~ is_entry dev inum ip.
Proof.
  unfold iget. rewrite bind_gets. pose proof (iget_scan_ok (icache s) 0 dev inum None) as H.
  destruct (iget_scan (icache s) 0 dev inum None) as [k|[k|]].
  - destruct H as (ip & _ & Hk & He). rewrite Nat.sub_0_r in Hk. left. unfold bind, seti. rewrite Hk.
    eexists k, _. split; [done|]. by apply got_cached.
  - destruct H as [Hno [?|(ip & _ & Hk & Hz)]]; [done|]. rewrite Nat.sub_0_r in Hk. left. unfold bind, seti. rewrite Hk.
    eexists k, _. split; [done|]. by apply (got_fresh _ _ _ k ip).
  - destruct H as [Hno [_ Hz]]. right. split; [done|]. intros k ip Hk. split; [by eapply Hz|by eapply Hno].
Qed.

Lemma got_entry dev inum l i l' : got dev inum l i l' -> exists ip, l' !! i = Some ip /\ is_entry dev inum ip.
Proof.
  intros [i' ip Hi (E1 & E2 & E3)|i' ip Hi Hz Hno]; pose proof (lookup_lt_Some _ _ _ Hi) as Hlt.
  - exists (set_iref (i_ref ip + 1) ip). rewrite list_lookup_insert_eq by done. split; [done|]. split; simpl; [lia|done].
  - exists (fresh_inode dev inum ip). rewrite list_lookup_insert_eq by done. done.
Qed.

Lemma got_ok dev inum v q l i l' : icache_ok v q l -> got dev inum l i l' -> icache_ok v q l'.
Proof.
  intros [I1 I2 I3 I4] Hg. destruct Hg as [i ip Hi He|i ip Hi Hz Hno].
  - assert (B : forall j jp, <[i := set_iref (i_ref ip + 1) ip]> l !! j = Some jp -> exists kp,
      l !! j = Some kp /\ i_dev jp = i_dev kp /\ i_inum jp = i_inum kp /\ (0 < i_ref jp -> 0 < i_ref kp) /\
      0 <= i_ref jp /\ i_valid jp = i_valid kp /\ i_disk jp = i_disk kp).
    { intros j jp Hj. apply list_lookup_insert_Some in Hj as [(<- & <- & _)|[_ Hj]].
      - destruct He as (E1 & _). exists ip. simpl. split_and!; (done || lia).
      - exists jp. split_and!; try done. by eapply I2. }
    split.
    + by rewrite length_insert.
    + intros j jp Hj. destruct (B j jp Hj) as (kp & _ & _ & _ & _ & H & _). done.
    + intros j k jp kp Hj Hk H1 H2 E1 E2. destruct (B j jp Hj) as (jq & Hjq & A1 & A2 & A3 & _).
      destruct (B k kp Hk) as (kq & Hkq & B1 & B2 & B3 & _). apply (I3 j k jq kq); auto; congruence.
    + intros j jp Hj H1 H2. destruct (B j jp Hj) as (kp & Hk & _ & A2 & A3 & _ & A5 & A6).
      rewrite A2, A6. apply (I4 j kp); auto. congruence.
  - assert (B : forall j jp, <[i := fresh_inode dev inum ip]> l !! j = Some jp ->
      j = i /\ jp = fresh_inode dev inum ip \/ j <> i /\ l !! j = Some jp).
    { intros j jp Hj. apply list_lookup_insert_Some in Hj as [(<- & <- & _)|[Hn Hj]]; auto. }
    split.
    + by rewrite length_insert.
    + intros j jp [[-> ->]|[_ Hj]]%B; [simpl; lia|by eapply I2].
    + intros j k jp kp [[-> ->]|[Nj Hj]]%B [[-> ->]|[Nk Hk]]%B H1 H2 E1 E2; [done| | |by apply (I3 j k jp kp)].
      * destruct (Hno k kp Hk). simpl in *. by split.
      * destruct (Hno j jp Hj). simpl in *. by split.
    + intros j jp [[-> ->]|[_ Hj]]%B H1 H2; [done|by apply (I4 j)].
Qed.

(** [iget] keeps at most one entry for an inode: it returns the entry that
    the cache has for it, or else a free one that becomes the entry, and the
    cache stays well formed; it panics exactly when the inode is not in the
    cache and no entry is free. *)
Theorem iget_unique dev inum v q s :
  icache_ok v q (icache s) ->
  (exists i l, iget dev inum s = Ret i (with_ic s l) /\ icache_ok v q l /\
     (exists ip, l !! i = Some ip /\ is_entry dev inum ip) /\
     (forall j jp, l !! j = Some jp -> is_entry dev inum jp -> j = i) /\
     (forall j, j <> i -> l !! j = icache s !! j)) \/
  iget dev inum s = Stop (Panicked "iget: no inodes") s /\
    forall k ip, icache s !! k = Some ip -> i_ref ip <> 0 /\ ~ is_entry dev inum ip.
Proof.
  intros I. destruct (iget_run dev inum s) as [(i & l & E & Hg)|H]; [left|by right]. exists i, l.
  pose proof (got_ok _ _ _ _ _ _ _ I Hg) as I'. destruct (got_entry _ _ _ _ _ Hg) as (ip & Hi & E1 & E2 & E3).
  split; [done|]. split; [done|]. split; [by exists ip|]. split.
  - intros j jp Hj (J1 & J2 & J3). apply (ic_unique _ _ _ I' j i jp ip); congruence.
  - intros j Hne. destruct Hg; by rewrite list_lookup_insert_ne.
Qed.

End iget.

Lemma load_some n d o : (o + n <= length d)%nat -> exists x, load n d o = Some x.
Proof. intros H. rewrite load_in by done. eauto. Qed.

Lemma load_words_some n d o : (o + 4 * n <= length d)%nat -> exists l, load_words n d o = Some l /\ length l = n.
Proof.
  revert o. induction n as [|n IH]; intros o H; cbn [load_words]; [by exists []|].
  destruct (load_some 4 d o) as [x ->]; [lia|]. destruct (IH (o + 4)%nat) as (l & E & Hl); [lia|].
  cbn [mbind option_bind]. rewrite E. exists (x :: l). split; [done|]. simpl. lia.
Qed.

(** Every slot of a block of inodes decodes, and its type is the first word. *)
Lemma dinode_at_type d o : (o + 128 <= length d)%nat ->
  exists di t, dinode_at d o = Some di /\ load 2 d o = Some t /\ di_type di = s16 t.
Proof.
  intros H. unfold dinode_at.
  destruct (load_some 2 d o) as [t ->]; [lia|]. destruct (load_some 2 d (o + 2)) as [x1 ->]; [lia|].
  destruct (load_some 2 d (o + 4)) as [x2 ->]; [lia|]. destruct (load_some 2 d (o + 6)) as [x3 ->]; [lia|].
  destruct (load_some 4 d (o + 8)) as [x4 ->]; [lia|]. destruct (load_some 4 d (o + 64)) as [x5 ->]; [lia|].
  destruct (load_some 4 d (o + 68)) as [x6 ->]; [lia|]. destruct (load_some 4 d (o + 72)) as [x7 ->]; [lia|].
  destruct (load_words_some (S NDIRECT) d (o + 12)) as (l & -> & _); [unfold NDIRECT; lia|].
  cbn [mbind option_bind]. eexists _, t. split_and!; done.
Qed.

(** The inode that [ialloc] writes. *)
Definition new_dinode (type uid mode : Z) : dinode :=
  {| di_type := type; di_major := 0; di_minor := 0; di_nlink := 0; di_size := 0;
     di_addrs := replicate (S NDIRECT) 0; di_mode := mode; di_uid := uid; di_gid := 0 |}.

Lemma load_splice_zeros n d o k p : (o + k <= length d)%nat -> (o <= p)%nat -> (p + n <= o + k)%nat ->
  load n (splice d o (replicate k 0)) p = Some 0.
Proof.
  intros Ho Hp Hn. rewrite load_in by (rewrite splice_length by (rewrite length_replicate; lia); lia).
  f_equal. assert (E : take n (drop p (splice d o (replicate k 0))) = replicate n 0).
  { apply list_eq. intros j. destruct (decide (j < n)%nat) as [Hj|Hj].
    - rewrite lookup_take_lt, lookup_drop by done.
      rewrite lookup_splice_in by (rewrite length_replicate; lia).
      rewrite !lookup_replicate_2 by lia. done.
    - rewrite lookup_take_ge by lia. symmetry. apply lookup_ge_None_2. rewrite length_replicate. lia. }
  rewrite E. clear E Hn. induction n as [|n IH]; [done|]. simpl. by rewrite IH.
Qed.

Lemma load_words_zeros n m o : (forall p, (o <= p)%nat -> (p + 4 <= o + 4 * n)%nat -> load 4 m p = Some 0) ->
  load_words n m o = Some (replicate n 0).
Proof.
  revert o. induction n as [|n IH]; intros o H; cbn [load_words replicate]; [done|].
  rewrite H by lia. cbn [mbind option_bind]. rewrite IH; [done|]. intros p H1 H2. apply H; lia.
Qed.

Lemma new_inode_at d o type uid mode : short type -> word uid -> word mode -> (o + 128 <= length d)%nat ->
  exists d1 d2 d3, put 2 (splice d o (replicate 128 0)) o type = Some d1 /\ put 4 d1 (o + 64) mode = Some d2 /\
    put 4 d2 (o + 68) uid = Some d3 /\ length d3 = length d /\ dinode_at d3 o = Some (new_dinode type uid mode) /\
    forall k p, (p + k <= o \/ o + 128 <= p)%nat -> load k d3 p = load k d p.
Proof.
  intros Ht Hu Hm Ho. assert (Hl : length (splice d o (replicate 128 0)) = length d)
    by (apply splice_length; rewrite length_replicate; lia).
  destruct (put_succeeds 2 (splice d o (replicate 128 0)) o type) as (d1 & E1 & L1); [lia|].
  destruct (put_succeeds 4 d1 (o + 64) mode) as (d2 & E2 & L2); [lia|].
  destruct (put_succeeds 4 d2 (o + 68) uid) as (d3 & E3 & L3); [lia|].
  exists d1, d2, d3. split_and!; try done; try congruence.
  - assert (Hz : forall k p, (o + 2 <= p)%nat -> (p + k <= o + 64)%nat \/ (o + 72 <= p)%nat -> (p + k <= o + 128)%nat ->
              load k d3 p = Some 0).
    { intros k p H1 H2 H3. rewrite (load_put_other _ _ _ _ _ _ _ E3), (load_put_other _ _ _ _ _ _ _ E2),
        (load_put_other _ _ _ _ _ _ _ E1) by lia. apply load_splice_zeros; lia. }
    assert (H2 : load 2 d3 o = Some (type mod 2 ^ (8 * Z.of_nat 2))).
    { rewrite (load_put_other _ _ _ _ _ _ _ E3), (load_put_other _ _ _ _ _ _ _ E2) by lia.
      apply (load_put_same _ _ _ _ _ E1). }
    assert (H64 : load 4 d3 (o + 64) = Some (mode mod 2 ^ (8 * Z.of_nat 4))).
    { rewrite (load_put_other _ _ _ _ _ _ _ E3) by lia. apply (load_put_same _ _ _ _ _ E2). }
    unfold dinode_at. rewrite H2, H64, (load_put_same _ _ _ _ _ E3), (Hz 2%nat (o + 2)%nat), (Hz 2%nat (o + 4)%nat),
      (Hz 2%nat (o + 6)%nat), (Hz 4%nat (o + 8)%nat), (Hz 4%nat (o + 72)%nat) by lia.
    rewrite load_words_zeros by (intros p Hp1 Hp2; apply Hz; unfold NDIRECT in *; lia).
    cbn [mbind option_bind]. change (8 * Z.of_nat 2) with 16. change (8 * Z.of_nat 4) with 32.
    rewrite s16_u16, !Z.mod_small by done. done.
  - intros k p Hp. rewrite (load_put_other _ _ _ _ _ _ _ E3), (load_put_other _ _ _ _ _ _ _ E2),
      (load_put_other _ _ _ _ _ _ _ E1) by lia.
    unfold load. rewrite Hl. case_decide; [|done]. f_equal. f_equal.
    apply slice_splice_other; rewrite length_replicate; lia.
Qed.

Section inode_ops.
Context {T : Type} {ops : TxnOps T} {tv : TxnView T} {laws : TxnLaws T}.
Implicit Types (s : fs T) (t : T) (v : list block) (L : gset Z) (g : tgeo) (ip : inode).

(** Reading the block of an inode. *)
Lemma wp_inode_block {A} g s v L inum (k : nat -> block -> M (fs T) A) (Q : A -> fs T -> Prop) :
  txn g (tx s) v ∅ ∅ L -> fs_geo g (sb s) (length v) -> 0 <= inum < sb_ninodes (sb s) ->
  (forall bp d t, v !! at_ (IBLOCK inum (sb s)) = Some d -> length d = BSIZE ->
     txn g t v (<[bp := IBLOCK inum (sb s)]> ∅) ∅ L -> wp (k bp d) (with_tx s t) Q) ->
  wp (let! bp := bread ROOTDEV (IBLOCK inum (sb s)) in let! d := bdata bp in k bp d) s Q.
Proof.
  intros Ht G Hn HQ. pose proof (iblock_range _ _ _ _ G Hn) as (E & _ & R1 & R2).
  apply wp_bind. eapply wp_fbread; [exact Ht|done| | |].
  { rewrite map_img_empty_L. set_solver. }
  { unfold can_read. rewrite map_size_empty. pose proof (txn_logged _ _ _ _ _ _ Ht). lia. }
  intros bp t1 Hbp Ht1. destruct (lookup_lt_is_Some_2 v (at_ (IBLOCK inum (sb s)))) as [d Hd]; [lia|].
  pose proof (blocks_len _ _ _ (txn_wf _ _ _ _ _ _ Ht) Hd) as Hlen.
  apply wp_bind. eapply wp_fdata; [exact Ht1|by rewrite lookup_insert_eq|exact Hd|]. by apply HQ.
Qed.

Definition inode_free v (q : superblock) (j : Z) : Prop := exists di, disk_inode v q j = Some di /\ di_type di = 0.

(** The cache has a free entry. *)
Definition room_for_inode s : Prop := exists k ip, icache s !! k = Some ip /\ i_ref ip = 0.

Lemma wp_iget dev inum s (Q : nat -> fs T -> Prop) :
  room_for_inode s -> (forall i l, got dev inum (icache s) i l -> Q i (with_ic s l)) -> wp (iget dev inum) s Q.
Proof.
  intros (k & ip & Hk & Hz) HQ. destruct (iget_run dev inum s) as [(i & l & E & Hg)|[_ Hno]].
  - unfold wp. rewrite E. by apply HQ.
  - by destruct (Hno k ip Hk).
Qed.

(** What [ialloc] does: the first free inode is written to the disk as a new
    one, and the cache has an entry for it. *)
Definition iallocated g s v L (type uid mode : Z) (i : nat) (s' : fs T) : Prop :=
  exists inum v' t l, 1 <= inum < sb_ninodes (sb s) /\ inode_free v (sb s) inum /\
    (forall j, 1 <= j < inum -> ~ inode_free v (sb s) j) /\
    inode_written (sb s) v v' inum (new_dinode type uid mode) /\
    txn g t v' ∅ ∅ ({[IBLOCK inum (sb s)]} ∪ L) /\ got ROOTDEV inum (icache s) i l /\
    s' = with_ic (with_tx s t) l.

Lemma wp_ialloc_loop fuel g s v L type uid mode inum :
  txn g (tx s) v ∅ ∅ L -> fs_geo g (sb s) (length v) -> (size L < tg_cap g)%nat -> room_for_inode s ->
  short type -> word uid -> word mode -> 1 <= inum ->
  (forall j, 1 <= j < inum -> ~ inode_free v (sb s) j) ->
  (exists j, inum <= j < sb_ninodes (sb s) /\ inode_free v (sb s) j) ->
  sb_ninodes (sb s) - inum < Z.of_nat fuel ->
  wp (ialloc_loop fuel ROOTDEV type uid mode inum) s (iallocated g s v L type uid mode).
Proof.
  intros Ht G Hsz Hroom Hty Hu Hmo. revert s inum Ht G Hroom. induction fuel as [|fuel IH];
    intros s inum Ht G Hroom H1 Hno (j & Hj & Hfree) Hf; [lia|].
  cbn [ialloc_loop]. apply wp_bind, wp_gets. rewrite (proj2 (Z.ltb_lt _ _)) by lia.
  apply (wp_inode_block g s v L inum); [done|done|lia|]. intros bp d t1 Hd Hlen Ht1.
  pose proof (ioff_range inum) as Hoff. assert (Hin : 0 <= inum < sb_ninodes (sb s)) by lia.
  pose proof (iblock_range _ _ _ _ G Hin) as (E & _ & R1 & R2).
  destruct (dinode_at_type d (ioff inum)) as (di & ty & Hat & Hload & Ety); [lia|].
  assert (Hdi : disk_inode v (sb s) inum = Some di) by (unfold disk_inode; by rewrite Hd, obind_some).
  apply wp_bind. eapply wp_lift; [exact Hload|]. rewrite <- Ety. destruct (Z.eqb_spec (di_type di) 0) as [E0|E0].
  - destruct (new_inode_at d (ioff inum) type uid mode Hty Hu Hmo ltac:(lia))
      as (d1 & d2 & d3 & P1 & P2 & P3 & Hl3 & Hat3 & Hout).
    apply wp_bind. eapply wp_lift; [exact P1|]. apply wp_bind. eapply wp_lift; [exact P2|].
    apply wp_bind. eapply wp_lift; [exact P3|].
    eapply wp_write_back; [exact Ht1|done|congruence|done|done|]. intros t2 Ht2.
    apply wp_iget; [done|]. intros i l Hg. eexists inum, _, t2, l. split_and!; try done; try lia.
    + by exists di.
    + eapply put_inode_written; try done.
  - apply wp_bind. eapply wp_fbrelse; [exact Ht1|done|]. intros t2 Ht2.
    assert (Hbusy : ~ inode_free v (sb s) inum) by (intros (x & Hx & Hx0); congruence).
    eapply wp_mono; [apply (IH (with_tx s t2) (inum + 1)); try done|].
    + lia.
    + intros j' Hj'. destruct (decide (j' = inum)) as [->|]; [done|apply Hno; lia].
    + exists j. split; [|done]. destruct (decide (j = inum)) as [->|]; [done|cbn [sb with_tx]; lia].
    + cbn [sb with_tx]. lia.
    + intros i s' (m & v' & t & l & A). exists m, v', t, l. exact A.
Qed.

Lemma wp_ialloc g s v L type uid mode :
  txn g (tx s) v ∅ ∅ L -> fs_geo g (sb s) (length v) -> (size L < tg_cap g)%nat -> room_for_inode s ->
  short type -> word uid -> word mode -> (exists j, 1 <= j < sb_ninodes (sb s) /\ inode_free v (sb s) j) ->
  wp (ialloc ROOTDEV type uid mode) s (iallocated g s v L type uid mode).
Proof.
  intros. unfold ialloc. apply wp_bind, wp_gets. eapply wp_ialloc_loop; try done; lia.
Qed.

(** ** Locking *)

Definition unlocked ip : Prop := sl_locked (i_lock ip) = false.

(** The entry after [ilock]. *)
Definition locked_inode (pid : Z) (di : dinode) ip : inode :=
  {| i_dev := i_dev ip; i_inum := i_inum ip; i_ref := i_ref ip;
     i_lock := {| sl_locked := true; sl_pid := pid |}; i_valid := true; i_disk := di |}.

Lemma wp_acquire_inode s i ip (Q : unit -> fs T -> Prop) :
  icache s !! i = Some ip -> unlocked ip ->
  Q tt (with_ic s (<[i := set_ilock {| sl_locked := true; sl_pid := fs_pid s |} ip]> (icache s))) ->
  wp (acquire_inode i) s Q.
Proof.
  intros Hi Hu HQ. unfold acquire_inode. apply wp_bind. eapply wp_geti; [exact Hi|]. apply wp_bind, wp_gets.
  unfold acquiresleep. rewrite Hu. by eapply wp_seti.
Qed.

Lemma wp_ilock g s v L i ip di (Q : unit -> fs T -> Prop) :
  txn g (tx s) v ∅ ∅ L -> fs_geo g (sb s) (length v) -> icache s !! i = Some ip -> 1 <= i_ref ip -> unlocked ip ->
  i_dev ip = ROOTDEV -> 0 <= i_inum ip < sb_ninodes (sb s) ->
  (if i_valid ip then di = i_disk ip else disk_inode v (sb s) (i_inum ip) = Some di /\ di_type di <> 0) ->
  (forall t, txn g t v ∅ ∅ L ->
     Q tt (with_ic (with_tx s t) (<[i := locked_inode (fs_pid s) di ip]> (icache s)))) ->
  wp (ilock i) s Q.
Proof.
  intros Ht G Hi Hr Hu Hdev Hn Hdi HQ. pose proof (lookup_lt_Some _ _ _ Hi) as Hlt.
  unfold ilock. apply wp_bind. eapply wp_geti; [exact Hi|]. rewrite (proj2 (Z.ltb_ge _ _)) by lia.
  apply wp_bind. eapply wp_acquire_inode; [exact Hi|done|].
  destruct (i_valid ip) eqn:Hv.
  - apply wp_ret. subst di. replace (set_ilock _ ip) with (locked_inode (fs_pid s) (i_disk ip) ip).
    + specialize (HQ (tx s) Ht). by rewrite with_tx_tx in HQ.
    + unfold locked_inode, set_ilock. by rewrite Hv.
  - destruct Hdi as [Hdi Hty]. apply wp_bind, wp_gets. cbn [sb with_ic]. rewrite Hdev.
    set (s1 := with_ic s _). apply (wp_inode_block g s1 v L (i_inum ip)); [done|done|done|].
    intros bp d t1 Hd Hlen Ht1. unfold disk_inode in Hdi. cbn [sb s1 with_ic] in Hd. rewrite Hd, obind_some in Hdi.
    apply wp_bind. eapply wp_lift; [exact Hdi|]. apply wp_bind. unfold setd.
    eapply wp_seti; [cbn [icache with_tx s1 with_ic]; by apply list_lookup_insert_eq|].
    apply wp_bind. eapply wp_fbrelse; [exact Ht1|done|]. intros t2 Ht2.
    apply wp_bind. eapply wp_seti; [cbn; rewrite list_insert_insert_eq; by apply list_lookup_insert_eq|].
    rewrite (proj2 (Z.eqb_neq _ _) Hty). apply wp_ret. cbn. rewrite !list_insert_insert_eq.
    by apply (HQ t2 Ht2).
Qed.

Lemma wp_iunlock s i ip (Q : unit -> fs T -> Prop) :
  icache s !! i = Some ip -> i_lock ip = {| sl_locked := true; sl_pid := fs_pid s |} -> 1 <= i_ref ip ->
  Q tt (with_ic s (<[i := set_ilock initsleeplock ip]> (icache s))) -> wp (iunlock i) s Q.
Proof.
  intros Hi Hl Hr HQ. unfold iunlock. apply wp_bind. eapply wp_geti; [exact Hi|]. apply wp_bind, wp_gets.
  rewrite Hl. unfold holdingsleep. cbn [sl_locked sl_pid andb]. rewrite Z.eqb_refl. cbn [negb orb].
  rewrite (proj2 (Z.ltb_ge _ _)) by lia. by eapply wp_seti.
Qed.

(** [iput] when the inode has links or other references. *)
Lemma wp_iput_keep s i ip (Q : unit -> fs T -> Prop) :
  icache s !! i = Some ip -> unlocked ip ->
  (i_valid ip = false \/ di_nlink (i_disk ip) <> 0 \/ i_ref ip <> 1) ->
  Q tt (with_ic s (<[i := set_iref (i_ref ip - 1) (set_ilock initsleeplock ip)]> (icache s))) ->
  wp (iput i) s Q.
Proof.
  intros Hi Hu Hk HQ. pose proof (lookup_lt_Some _ _ _ Hi) as Hlt. unfold iput. apply wp_bind.
  eapply wp_acquire_inode; [exact Hi|done|]. apply wp_bind.
  eapply wp_geti; [by apply list_lookup_insert_eq|]. cbn [i_valid set_ilock i_disk i_ref].
  replace (i_valid ip && (di_nlink (i_disk ip) =? 0) && (i_ref ip =? 1)) with false.
  2: { symmetry. destruct Hk as [->|[H|H]]; [done| |].
       - rewrite (proj2 (Z.eqb_neq _ _) H). by rewrite andb_false_r.
       - rewrite (proj2 (Z.eqb_neq _ _) H). by rewrite andb_false_r. }
  apply wp_bind, wp_ret. apply wp_bind. eapply wp_seti; [by apply list_lookup_insert_eq|].
  cbn [icache with_ic]. rewrite list_insert_insert_eq.
  eapply wp_seti; [by apply list_lookup_insert_eq|]. cbn [icache with_ic]. rewrite list_insert_insert_eq. exact HQ.
Qed.
End inode_ops.
