(* ===== verification/FsData.v ===== *)
(** * Correctness of the contents of files ([bmap], [readi], [writei] of
    [kernel/fs.c])

    An inode stands for an array of bytes, spread over direct blocks and the
    blocks listed in an indirect block; a block that is not allocated reads
    as zeros.  [bmap] allocates without changing the array; [readi] returns a
    part of it and [writei] overwrites one, growing the file as needed, and
    neither changes a block of another file. *)

From S2P Require Import Prelude Mem BufIface Lock Txn Fs FsAlloc FsInode.

(** ** The blocks and the bytes of a file *)

Definition ind_of (di : dinode) : Z := default 0 (di_addrs di !! NDIRECT).

(** The address of block [bn], or 0. *)
Definition addr_of (v : list block) (di : dinode) (bn : Z) : Z :=
  if bn <? Z.of_nat NDIRECT then default 0 (di_addrs di !! at_ bn)
  else if ind_of di =? 0 then 0
  else default 0 (v !! at_ (ind_of di) ≫= fun d => load 4 d (4 * at_ (bn - Z.of_nat NDIRECT))).

Definition byte_at (v : list block) (di : dinode) (k : Z) : Z :=
  let a := addr_of v di (k / Z.of_nat BSIZE) in
  if a =? 0 then 0 else default 0 (v !! at_ a ≫= fun d => d !! at_ (k mod Z.of_nat BSIZE)).

(** The blocks that belong to a file. *)
Definition own (v : list block) (di : dinode) (n : Z) : Prop :=
  n <> 0 /\ (n = ind_of di \/ exists bn, 0 <= bn < MAXFILE /\ n = addr_of v di bn).

(** An allocated data block. *)
Definition data_ok (q : superblock) (v : list block) (a : Z) : Prop :=
  data_start q <= a < sb_size q /\ used v q a = true.

(** The blocks of the file are allocated, and none is used twice. *)
Record file_ok (q : superblock) (v : list block) (di : dinode) : Prop := {
  fo_wf : wf_dinode di;
  fo_data n : own v di n -> data_ok q v n;
  fo_inj bn bn' : 0 <= bn < MAXFILE -> 0 <= bn' < MAXFILE ->
    addr_of v di bn <> 0 -> addr_of v di bn = addr_of v di bn' -> bn = bn';
  fo_ind bn : 0 <= bn < MAXFILE -> addr_of v di bn <> 0 -> addr_of v di bn <> ind_of di
}.

Definition same_fields (di di' : dinode) : Prop :=
  di_type di' = di_type di /\ di_major di' = di_major di /\ di_minor di' = di_minor di /\
  di_nlink di' = di_nlink di /\ di_mode di' = di_mode di /\ di_uid di' = di_uid di /\ di_gid di' = di_gid di.

(** How an operation on a file may change the blocks and the inode. *)
Record evolves (q : superblock) (v : list block) (di : dinode) (v' : list block) (di' : dinode) : Prop := {
  ev_length : length v' = length v;
  ev_file : file_ok q v' di';
  ev_used b : 0 <= b < sb_size q -> used v q b = true -> used v' q b = true;
  ev_frame n : 0 <= n < sb_size q -> used v q n = true -> ~ own v di n ->
    (n < sb_bmapstart q \/ data_start q <= n) -> v' !! at_ n = v !! at_ n;
  ev_addr bn : 0 <= bn < MAXFILE -> addr_of v di bn <> 0 -> addr_of v' di' bn = addr_of v di bn;
  ev_own n : own v' di' n -> own v di n \/ used v q n = false;
  ev_fields : same_fields di di'
}.

Lemma ind_in v di n : n <> 0 -> n = ind_of di -> own v di n.
Proof. intros H1 H2. split; [done|by left]. Qed.

Lemma addr_in v di bn : 0 <= bn < MAXFILE -> addr_of v di bn <> 0 -> own v di (addr_of v di bn).
Proof. intros H1 H2. split; [done|]. right. by exists bn. Qed.

Lemma evolves_refl q v di : file_ok q v di -> evolves q v di v di.
Proof. intros F. split; try done. by left. Qed.

Lemma own_range q v di n : 0 < data_start q -> file_ok q v di -> own v di n ->
  0 <= n < sb_size q /\ data_start q <= n /\ used v q n = true.
Proof. intros H0 F Ho. destruct (fo_data _ _ _ F n Ho). split_and!; (done || lia). Qed.

Lemma evolves_trans q v di v1 di1 v2 di2 : 0 < data_start q ->
  evolves q v di v1 di1 -> evolves q v1 di1 v2 di2 -> evolves q v di v2 di2.
Proof.
  intros H0 A B. split.
  - rewrite (ev_length _ _ _ _ _ B). apply A.
  - apply B.
  - intros b Hb Hu. by apply (ev_used _ _ _ _ _ B), (ev_used _ _ _ _ _ A).
  - intros n Hn Hu Ho Hr. rewrite (ev_frame _ _ _ _ _ B); [by apply (ev_frame _ _ _ _ _ A)|done|by apply (ev_used _ _ _ _ _ A)| |done].
    intros Ho1. destruct (ev_own _ _ _ _ _ A n Ho1); [done|congruence].
  - intros bn Hbn Ha. pose proof (ev_addr _ _ _ _ _ A bn Hbn Ha) as E.
    rewrite (ev_addr _ _ _ _ _ B); [done|done|congruence].
  - intros n Hn. destruct (ev_own _ _ _ _ _ B n Hn) as [Ho|Hu]; [by apply (ev_own _ _ _ _ _ A)|].
    right. destruct (used v q n) eqn:E; [|done].
    destruct (own_range _ _ _ _ H0 (ev_file _ _ _ _ _ B) Hn) as (Hr & _).
    rewrite (ev_used _ _ _ _ _ A n Hr E) in Hu. done.
  - destruct (ev_fields _ _ _ _ _ A) as (?&?&?&?&?&?&?), (ev_fields _ _ _ _ _ B) as (?&?&?&?&?&?&?).
    unfold same_fields. split_and!; congruence.
Qed.

Lemma load_zeros n k o : (o + n <= k)%nat -> load n (replicate k 0) o = Some 0.
Proof.
  intros Ho. rewrite load_in by (rewrite length_replicate; lia).
  rewrite drop_replicate, take_replicate. f_equal.
  induction (n `min` (k - o))%nat as [|m IH]; [done|]. simpl. by rewrite IH.
Qed.

Lemma block_range k : 0 <= k < MAXFILE * Z.of_nat BSIZE -> 0 <= k / Z.of_nat BSIZE < MAXFILE.
Proof.
  intros Hk. split; [apply Z.div_pos; unfold BSIZE; lia|].
  apply Z.div_lt_upper_bound; unfold BSIZE, MAXFILE in *; lia.
Qed.

Lemma offset_range k : 0 <= k mod Z.of_nat BSIZE < Z.of_nat BSIZE.
Proof. apply Z.mod_pos_bound. unfold BSIZE. lia. Qed.

Section grow.
Context (g : tgeo) (q : superblock) (v : list block) (di : dinode).
Hypotheses (G : fs_geo g q (length v)) (Hwf : blocks_wf v) (F : file_ok q v di).

Lemma data_start_pos : 0 < data_start q /\ 0 < sb_bmapstart q <= data_start q /\ tg_lo g <= sb_bmapstart q.
Proof.
  destruct G as [G1 G2 G3 G4 G5 G6]. unfold data_start.
  assert (0 <= (sb_ninodes q - 1) / IPB) by (apply Z.div_pos; unfold IPB; lia).
  assert (0 <= (sb_size q - 1) / BPB) by (apply Z.div_pos; unfold BPB; lia). lia.
Qed.

(** A free block [a] was added to the file as block [bn]. *)
Lemma grow_data v' di' a bn :
  length v' = length v -> wf_dinode di' -> same_fields di di' ->
  data_start q <= a < sb_size q -> used v q a = false ->
  (forall b, 0 <= b < sb_size q -> used v' q b = if decide (a = b) then true else used v q b) ->
  0 <= bn < MAXFILE -> addr_of v di bn = 0 -> ind_of di' = ind_of di ->
  (forall bn', 0 <= bn' < MAXFILE -> addr_of v' di' bn' = if decide (bn' = bn) then a else addr_of v di bn') ->
  (forall n, 0 <= n < sb_size q -> used v q n = true -> (n <> 0 -> n <> ind_of di) -> (n < sb_bmapstart q \/ data_start q <= n) ->
    v' !! at_ n = v !! at_ n) ->
  v' !! at_ a = Some (replicate BSIZE 0) ->
  evolves q v di v' di' /\ forall k, 0 <= k < MAXFILE * Z.of_nat BSIZE -> byte_at v' di' k = byte_at v di k.
Proof.
  intros Hlen Hwd Hsf Har Haf Hu Hbn H0 Hind Haddr Hfr Hz. destruct data_start_pos as [D0 D1].
  assert (Hna : forall n, own v di n -> n <> a).
  { intros n Ho ->. destruct (own_range _ _ _ _ D0 F Ho) as (_ & _ & E). congruence. }
  assert (Hown : forall n, own v' di' n -> n = a \/ own v di n).
  { intros n [Hn [->|(bn' & Hb' & ->)]].
    - right. apply ind_in; [done|]. congruence.
    - rewrite Haddr in * by done. case_decide; [by left|right]. by apply addr_in. }
  split; [split|].
  - done.
  - split; [done| | |].
    + intros n [->|Ho]%Hown.
      * split; [lia|]. rewrite Hu by lia. by rewrite decide_True.
      * destruct (own_range _ _ _ _ D0 F Ho) as (R1 & R2 & R3). split; [lia|]. rewrite Hu by done. by case_decide.
    + intros b1 b2 Hb1 Hb2. rewrite !Haddr by done. intros Hn E.
      destruct (decide (b1 = bn)) as [->|N1], (decide (b2 = bn)) as [->|N2]; try done.
      * destruct (Hna (addr_of v di b2)); [apply addr_in; congruence|done].
      * destruct (Hna (addr_of v di b1)); [by apply addr_in|done].
      * by apply (fo_inj _ _ _ F).
    + intros b1 Hb1. rewrite Haddr, Hind by done. case_decide; [|by apply (fo_ind _ _ _ F)].
      intros _ ->. destruct (Hna (ind_of di)); [|done]. apply ind_in; [lia|done].
  - intros b Hb Hub. rewrite Hu by done. by case_decide.
  - intros n Hn Hun Ho Hr. apply Hfr; try done. intros Hn0 ->. apply Ho. by apply ind_in.
  - intros b1 Hb1 Hn. rewrite Haddr by done. rewrite decide_False; [done|]. intros ->. done.
  - intros n [->|Ho]%Hown; [by right|by left].
  - done.
  - intros k Hk. unfold byte_at.
    pose proof (block_range k Hk) as Hb.
    rewrite Haddr by done. case_decide as E.
    + rewrite E, H0. rewrite (proj2 (Z.eqb_neq a 0)) by lia. cbn [Z.eqb]. rewrite Hz, obind_some.
      rewrite lookup_replicate_2; [done|]. pose proof (offset_range k). lia.
    + destruct (Z.eqb_spec (addr_of v di (k / Z.of_nat BSIZE)) 0) as [|Hn]; [done|].
      pose proof (addr_in v di _ Hb Hn) as Ho. destruct (own_range _ _ _ _ D0 F Ho) as (R1 & R2 & R3).
      rewrite Hfr; [done|done|done|intros _; by apply (fo_ind _ _ _ F)|lia].
Qed.

(** A free block [a] became the indirect block of the file. *)
Lemma grow_ind v' di' a :
  length v' = length v -> wf_dinode di' -> same_fields di di' ->
  data_start q <= a < sb_size q -> used v q a = false ->
  (forall b, 0 <= b < sb_size q -> used v' q b = if decide (a = b) then true else used v q b) ->
  ind_of di = 0 -> ind_of di' = a ->
  (forall bn', 0 <= bn' < MAXFILE -> addr_of v' di' bn' = addr_of v di bn') ->
  (forall n, 0 <= n < sb_size q -> used v q n = true -> (n < sb_bmapstart q \/ data_start q <= n) ->
    v' !! at_ n = v !! at_ n) ->
  evolves q v di v' di' /\ forall k, 0 <= k < MAXFILE * Z.of_nat BSIZE -> byte_at v' di' k = byte_at v di k.
Proof.
  intros Hlen Hwd Hsf Har Haf Hu Hi0 Hind Haddr Hfr. destruct data_start_pos as [D0 D1].
  assert (Hna : forall n, own v di n -> n <> a).
  { intros n Ho ->. destruct (own_range _ _ _ _ D0 F Ho) as (_ & _ & E). congruence. }
  assert (Hown : forall n, own v' di' n -> n = a \/ own v di n).
  { intros n [Hn [->|(bn' & Hb' & ->)]]; [by left|].
    rewrite Haddr in * by done. right. by apply addr_in. }
  split; [split|].
  - done.
  - split; [done| | |].
    + intros n [->|Ho]%Hown.
      * split; [lia|]. rewrite Hu by lia. by rewrite decide_True.
      * destruct (own_range _ _ _ _ D0 F Ho) as (R1 & R2 & R3). split; [lia|]. rewrite Hu by done. by case_decide.
    + intros b1 b2 Hb1 Hb2. rewrite !Haddr by done. by apply (fo_inj _ _ _ F).
    + intros b1 Hb1. rewrite Haddr, Hind by done. intros Hn. apply Hna. by apply addr_in.
  - intros b Hb Hub. rewrite Hu by done. by case_decide.
  - intros n Hn Hun Ho Hr. by apply Hfr.
  - intros b1 Hb1 Hn. by apply Haddr.
  - intros n [->|Ho]%Hown; [by right|by left].
  - done.
  - intros k Hk. unfold byte_at.
    pose proof (block_range k Hk) as Hb.
    rewrite Haddr by done.
    destruct (Z.eqb_spec (addr_of v di (k / Z.of_nat BSIZE)) 0) as [|Hn]; [done|].
    pose proof (addr_in v di _ Hb Hn) as Ho. destruct (own_range _ _ _ _ D0 F Ho) as (R1 & R2 & R3).
    rewrite Hfr; [done|done|done|lia].
Qed.
End grow.

(** ** Counting free blocks and log space *)

Definition nfree (v : list block) (q : superblock) : nat :=
  length (filter (fun b => used v q b = false) (seqZ 0 (sb_size q))).

Lemma filter_same {A} (f f' : A -> bool) (l : list A) :
  (forall b, b ∈ l -> f' b = f b) -> filter (fun b => f' b = false) l = filter (fun b => f b = false) l.
Proof.
  induction l as [|x l IH]; intros Hf; [done|]. rewrite !filter_cons, IH by (intros; apply Hf; by right).
  rewrite (Hf x) by left. done.
Qed.

Lemma filter_count (f f' : Z -> bool) (a : Z) (l : list Z) :
  NoDup l -> a ∈ l -> f a = false -> (forall b, b ∈ l -> f' b = if decide (a = b) then true else f b) ->
  S (length (filter (fun b => f' b = false) l)) = length (filter (fun b => f b = false) l).
Proof.
  intros Hnd. induction Hnd as [|x l Hx Hnd IH]; intros Ha Hfa Hf; [by apply elem_of_nil in Ha|].
  rewrite !filter_cons. destruct (decide (a = x)) as [<-|Hne].
  - assert (f' a = true) as E by (rewrite Hf by left; by rewrite decide_True).
    rewrite (decide_False (P := f' a = false)) by congruence. rewrite (decide_True (P := f a = false)) by done.
    simpl. f_equal. f_equal. apply filter_same. intros b Hb. rewrite Hf by (by right).
    rewrite decide_False; [done|]. intros ->. done.
  - assert (f' x = f x) as E by (rewrite Hf by left; by rewrite decide_False). rewrite E.
    apply elem_of_cons in Ha as [?|Ha]; [done|]. specialize (IH Ha Hfa (fun b Hb => Hf b ltac:(by right))).
    case_decide; simpl; lia.
Qed.

Lemma nfree_take v v' q a : 0 <= a < sb_size q -> used v q a = false ->
  (forall b, 0 <= b < sb_size q -> used v' q b = if decide (a = b) then true else used v q b) ->
  S (nfree v' q) = nfree v q.
Proof.
  intros Ha Hu Hall. apply (filter_count (used v q) (used v' q) a).
  - apply NoDup_seqZ.
  - apply elem_of_seqZ. lia.
  - done.
  - intros b Hb%elem_of_seqZ. apply Hall. lia.
Qed.

Lemma nfree_pos v q : (0 < nfree v q)%nat -> ~ full_map v q.
Proof.
  intros H Hf. unfold nfree in H. destruct (filter _ _) as [|b l] eqn:E; [simpl in H; lia|].
  assert (b ∈ filter (fun b => used v q b = false) (seqZ 0 (sb_size q))) as Hb by (rewrite E; left).
  apply list_elem_of_filter in Hb as [Hb1 Hb2%elem_of_seqZ]. rewrite Hf in Hb1; [done|lia].
Qed.

(** The indirect block that is still to be allocated. *)
Definition no_ind (di : dinode) : nat := if ind_of di =? 0 then 1 else 0.

(** The blocks that are logged or, being the map or the indirect block, will
    be at the first allocation. *)
Definition counted (q : superblock) (L : gset Z) (di : dinode) : gset Z :=
  L ∪ {[sb_bmapstart q]} ∪ (if ind_of di =? 0 then ∅ else {[ind_of di]}).

Definition cost (q : superblock) (L : gset Z) (di : dinode) : nat := (size (counted q L di) + no_ind di)%nat.

Lemma size_cost q L di : (size L <= cost q L di)%nat.
Proof.
  unfold cost. assert (size L <= size (counted q L di))%nat; [|lia].
  apply subseteq_size. unfold counted. set_solver.
Qed.

Lemma cost_step q L L' di a : (L' ⊆ {[a]} ∪ counted q L di) -> (cost q L' di <= S (cost q L di))%nat.
Proof.
  intros Hs. unfold cost. pose proof (size_insert_le (counted q L di) a).
  assert (size (counted q L' di) <= size ({[a]} ∪ counted q L di))%nat; [|lia].
  apply subseteq_size. unfold counted in *. set_solver.
Qed.

Lemma cost_ind q L L' di di' : ind_of di = 0 -> ind_of di' <> 0 ->
  (L' ⊆ {[ind_of di']} ∪ counted q L di) -> (cost q L' di' <= cost q L di)%nat.
Proof.
  intros H0 H1 Hs. unfold cost, no_ind. rewrite H0, (proj2 (Z.eqb_neq _ _) H1). cbn [Z.eqb].
  pose proof (size_insert_le (counted q L di) (ind_of di')).
  assert (size (counted q L' di') <= size ({[ind_of di']} ∪ counted q L di))%nat; [|lia].
  apply subseteq_size. unfold counted in *. rewrite (proj2 (Z.eqb_neq _ _) H1). set_solver.
Qed.

(** ** [bmap] *)

Definition with_di {T} (s : fs T) (t : T) (i : nat) (ip : inode) (di : dinode) : fs T :=
  {| tx := t; sb := sb s; icache := <[i := set_disk di ip]> (icache s); fs_pid := fs_pid s |}.

Lemma wf_addrs di l : wf_dinode di -> length l = S NDIRECT -> Forall word l -> wf_dinode (di_with_addrs l di).
Proof. intros [W1 W2 W3 W4 W5 W6 W7 W8 W9 W10] Hl Hw. by split. Qed.

Lemma wf_size di n : wf_dinode di -> word n -> wf_dinode (di_with_size n di).
Proof. intros [W1 W2 W3 W4 W5 W6 W7 W8 W9 W10] Hl. by split. Qed.

Lemma addr_of_direct v di bn : 0 <= bn < Z.of_nat NDIRECT -> addr_of v di bn = default 0 (di_addrs di !! at_ bn).
Proof. intros H. unfold addr_of. by rewrite (proj2 (Z.ltb_lt _ _)) by lia. Qed.

Lemma addr_of_indirect v di bn : Z.of_nat NDIRECT <= bn -> ind_of di <> 0 ->
  addr_of v di bn = default 0 (v !! at_ (ind_of di) ≫= fun d => load 4 d (4 * at_ (bn - Z.of_nat NDIRECT))).
Proof.
  intros H Hi. unfold addr_of. rewrite (proj2 (Z.ltb_ge _ _)) by lia. by rewrite (proj2 (Z.eqb_neq _ _)).
Qed.

Lemma addr_of_none v di bn : Z.of_nat NDIRECT <= bn -> ind_of di = 0 -> addr_of v di bn = 0.
Proof. intros H Hi. unfold addr_of. rewrite (proj2 (Z.ltb_ge _ _)) by lia. by rewrite Hi. Qed.

Lemma addr_of_same v v' di di' bn : ind_of di' = ind_of di ->
  (ind_of di <> 0 -> v' !! at_ (ind_of di) = v !! at_ (ind_of di)) ->
  (bn < Z.of_nat NDIRECT -> di_addrs di' !! at_ bn = di_addrs di !! at_ bn) -> addr_of v' di' bn = addr_of v di bn.
Proof.
  intros Hi Hv Hd. unfold addr_of. destruct (Z.ltb_spec bn (Z.of_nat NDIRECT)); [by rewrite Hd|].
  rewrite Hi. destruct (Z.eqb_spec (ind_of di) 0); [done|]. by rewrite Hv.
Qed.

Section taken.
Context (g : tgeo) (q : superblock) (v v' : list block) (di : dinode) (a : Z).
Hypotheses (G : fs_geo g q (length v)) (Hwf : blocks_wf v) (F : file_ok q v di) (Ha : allocated q v v' a).

Lemma taken_word : word a.
Proof.
  pose proof (allocated_range g q v v' a G Ha) as (_ & H & _). pose proof (fg_size _ _ _ G).
  pose proof (fg_len _ _ _ G). unfold word. lia.
Qed.

(** Used blocks other than those of the bit map keep their contents. *)
Lemma taken_keeps n : 0 <= n < sb_size q -> used v q n = true -> n < sb_bmapstart q \/ data_start q <= n ->
  v' !! at_ n = v !! at_ n.
Proof.
  intros Hn Hu Hr. pose proof (allocated_range g q v v' a G Ha) as (D0 & Hb & _).
  pose proof (bblock_range _ _ _ _ G Hb) as (_ & R & _).
  apply (allocated_other g q v v' a G Ha); [lia| |lia]. intros ->. pose proof (al_free _ _ _ _ Ha). congruence.
Qed.

Lemma taken_ind : ind_of di <> 0 -> v' !! at_ (ind_of di) = v !! at_ (ind_of di) /\ ind_of di <> a /\
  data_start q <= ind_of di < sb_size q.
Proof.
  intros Hi. pose proof (data_start_pos g q v G) as [D0 _].
  destruct (own_range _ _ _ (ind_of di) D0 F) as (R1 & R2 & R3); [by apply ind_in|].
  split; [apply taken_keeps; auto|]. split; [|lia]. intros E. pose proof (al_free _ _ _ _ Ha). congruence.
Qed.

Lemma taken_direct bn :
  let di' := di_with_addrs (<[at_ bn := a]> (di_addrs di)) di in
  0 <= bn < Z.of_nat NDIRECT -> addr_of v di bn = 0 ->
  evolves q v di v' di' /\ (forall k, 0 <= k < MAXFILE * Z.of_nat BSIZE -> byte_at v' di' k = byte_at v di k) /\
  addr_of v' di' bn = a /\ ind_of di' = ind_of di.
Proof.
  intros di' Hbn H0. pose proof (fo_wf _ _ _ F) as W. pose proof (wd_length _ W) as HL.
  assert (Hi : ind_of di' = ind_of di).
  { unfold ind_of, di'. cbn [di_addrs di_with_addrs]. rewrite list_lookup_insert_ne; [done|]. unfold NDIRECT in *. lia. }
  assert (Hadd : forall bn', 0 <= bn' < MAXFILE ->
            addr_of v' di' bn' = if decide (bn' = bn) then a else addr_of v di bn').
  { intros bn' Hb'. destruct (decide (bn' = bn)) as [->|Hne].
    - rewrite addr_of_direct by done. unfold di'. cbn [di_addrs di_with_addrs].
      rewrite list_lookup_insert_eq; [done|]. rewrite HL. unfold NDIRECT in *. lia.
    - apply addr_of_same; [done|by intros [? _]%taken_ind|]. intros Hlt. unfold di'. cbn [di_addrs di_with_addrs].
      rewrite list_lookup_insert_ne; [done|]. unfold NDIRECT in *. lia. }
  pose proof (allocated_range g q v v' a G Ha) as (D0 & Hr & _).
  assert (Hm : 0 <= bn < MAXFILE) by (unfold NDIRECT, MAXFILE in *; lia).
  destruct (grow_data g q v di G F v' di' a bn) as [E B]; try done.
  - by apply (allocated_length q v v' a).
  - apply wf_addrs; [done|by rewrite length_insert|]. apply Forall_insert; [apply W|apply taken_word].
  - apply Ha.
  - apply Ha.
  - by apply (allocated_used g).
  - intros n Hn Hu _ Hd. by apply taken_keeps.
  - by apply (allocated_zero g q v v' a).
  - split_and!; try done. rewrite Hadd by done. by rewrite decide_True.
Qed.

Lemma taken_indirect :
  let di' := di_with_addrs (<[NDIRECT := a]> (di_addrs di)) di in
  ind_of di = 0 ->
  evolves q v di v' di' /\ (forall k, 0 <= k < MAXFILE * Z.of_nat BSIZE -> byte_at v' di' k = byte_at v di k) /\
  ind_of di' = a.
Proof.
  intros di' H0. pose proof (fo_wf _ _ _ F) as W. pose proof (wd_length _ W) as HL.
  pose proof (allocated_range g q v v' a G Ha) as (D0 & Hr & _). pose proof (al_range _ _ _ _ Ha).
  assert (Hi : ind_of di' = a).
  { unfold ind_of, di'. cbn [di_addrs di_with_addrs]. rewrite list_lookup_insert_eq; [done|]. rewrite HL. lia. }
  assert (Hadd : forall bn', 0 <= bn' < MAXFILE -> addr_of v' di' bn' = addr_of v di bn').
  { intros bn' Hb'. destruct (decide (bn' < Z.of_nat NDIRECT)) as [Hlt|Hge].
    - rewrite !addr_of_direct by lia. unfold di'. cbn [di_addrs di_with_addrs].
      rewrite list_lookup_insert_ne; [done|]. unfold NDIRECT in *. lia.
    - rewrite (addr_of_none v) by (done || lia). rewrite addr_of_indirect, Hi by (rewrite ?Hi; lia).
      rewrite (allocated_zero g q v v' a), obind_some by done. rewrite load_zeros; [done|].
      unfold MAXFILE, NDIRECT, BSIZE in *. lia. }
  destruct (grow_ind g q v di G F v' di' a) as [E B]; try done.
  - by apply (allocated_length q v v' a).
  - apply wf_addrs; [done|by rewrite length_insert|]. apply Forall_insert; [apply W|apply taken_word].
  - apply Ha.
  - by apply (allocated_used g).
  - intros n Hn Hu Hd. by apply taken_keeps.
Qed.

Lemma taken_slot bn d d' :
  let v2 := <[at_ (ind_of di) := d']> v' in
  Z.of_nat NDIRECT <= bn < MAXFILE -> ind_of di <> 0 -> addr_of v di bn = 0 ->
  v !! at_ (ind_of di) = Some d -> put 4 d (4 * at_ (bn - Z.of_nat NDIRECT)) a = Some d' ->
  evolves q v di v2 di /\ (forall k, 0 <= k < MAXFILE * Z.of_nat BSIZE -> byte_at v2 di k = byte_at v di k) /\
  addr_of v2 di bn = a.
Proof.
  intros v2 Hbn Hi H0 Hd Hput. pose proof (fo_wf _ _ _ F) as W.
  pose proof (allocated_range g q v v' a G Ha) as (D0 & Hr & Hbb & _ & _ & Hlt). pose proof (al_range _ _ _ _ Ha).
  destruct (taken_ind Hi) as (Ki & Kne & Kr). pose proof (allocated_length q v v' a Ha) as Hlen.
  assert (Hil : (at_ (ind_of di) < length v')%nat) by (rewrite Hlen; by eapply lookup_lt_Some).
  assert (Hv2 : v2 !! at_ (ind_of di) = Some d') by (by apply list_lookup_insert_eq).
  assert (Hadd : forall bn', 0 <= bn' < MAXFILE ->
            addr_of v2 di bn' = if decide (bn' = bn) then a else addr_of v di bn').
  { intros bn' Hb'. destruct (decide (bn' < Z.of_nat NDIRECT)) as [Hl|Hge].
    - rewrite decide_False by lia. by rewrite !addr_of_direct by lia.
    - rewrite !addr_of_indirect, Hv2, Hd, !obind_some by (done || lia). destruct (decide (bn' = bn)) as [->|Hne].
      + rewrite (load_put_same _ _ _ _ _ Hput). apply Z.mod_small, taken_word.
      + rewrite (load_put_other _ _ _ _ _ _ _ Hput); [done|]. lia. }
  assert (Hv2n : forall n, 0 <= n -> n <> ind_of di -> v2 !! at_ n = v' !! at_ n)
    by (intros n Hn Hne; apply list_lookup_insert_ne; lia).
  destruct (grow_data g q v di G F v2 di a bn) as [E B]; try done; try lia.
  - unfold v2. by rewrite length_insert.
  - apply Ha.
  - intros b Hb. unfold used at 1. pose proof (bblock_range _ _ _ _ G Hb) as (_ & R1 & _ & R3).
    rewrite Hv2n by lia. by apply (allocated_used g q v v' a G Hwf Ha).
  - intros n Hn Hu Hne Hrr. destruct (decide (n = 0)) as [->|].
    + rewrite Hv2n by (try lia; congruence). by apply taken_keeps.
    + rewrite Hv2n by (try lia; by apply Hne). by apply taken_keeps.
  - rewrite Hv2n by (try lia; congruence). by apply (allocated_zero g q v v' a).
  - split_and!; try done. rewrite Hadd by lia. by rewrite decide_True.
Qed.
End taken.

(** A transaction in which inode [i] of the cache is a well-formed file. *)
Record file_at {T} `{TxnView T} (g : tgeo) (s : fs T) (v : list block) (L : gset Z) (i : nat) (ip : inode)
    : Prop := {
  fa_txn : txn g (tx s) v ∅ ∅ L;
  fa_geo : fs_geo g (sb s) (length v);
  fa_map : sb_size (sb s) <= BPB;
  fa_meta : meta_used v (sb s);
  fa_inode : icache s !! i = Some ip;
  fa_dev : i_dev ip = ROOTDEV;
  fa_file : file_ok (sb s) v (i_disk ip)
}.

Lemma bblock_one g q len b : fs_geo g q len -> sb_size q <= BPB -> 0 <= b < sb_size q -> BBLOCK b q = sb_bmapstart q.
Proof.
  intros G Hm Hb. destruct (bblock_range _ _ _ _ G Hb) as (-> & _). rewrite Z.div_small; lia.
Qed.

Section bmap.
Context {T : Type} {ops : TxnOps T} {tv : TxnView T} {laws : TxnLaws T}.
Implicit Types (s : fs T) (t : T) (v : list block) (L : gset Z) (g : tgeo) (ip : inode).

Lemma with_di_same s t i ip : icache s !! i = Some ip -> with_di s t i ip (i_disk ip) = with_tx s t.
Proof.
  intros H. unfold with_di, with_tx. f_equal. apply list_insert_id. rewrite H. f_equal. by destruct ip.
Qed.

Lemma with_di_tx s t t' i ip di : with_tx (with_di s t i ip di) t' = with_di s t' i ip di.
Proof. done. Qed.

Lemma with_di_di s t t' i ip di di' : with_di (with_di s t i ip di) t' i (set_disk di ip) di' = with_di s t' i ip di'.
Proof. unfold with_di. simpl. f_equal. rewrite list_insert_insert_eq. done. Qed.


Lemma wp_setd s i ip f (Q : unit -> fs T -> Prop) :
  icache s !! i = Some ip -> Q tt (with_di s (tx s) i ip (f (i_disk ip))) -> wp (setd i f) s Q.
Proof. unfold wp, setd, seti. by intros ->. Qed.

(** What [bmap] does: it returns the address of block [bn], allocating it,
    and the indirect block, where there is none. *)
Definition mapped g s v L i ip (bn : Z) (a : Z) (s' : fs T) : Prop :=
  exists v' L' t di', let q := sb s in let di := i_disk ip in
    s' = with_di s t i ip di' /\ txn g t v' ∅ ∅ L' /\ meta_used v' q /\ evolves q v di v' di' /\
    di_size di' = di_size di /\
    (forall k, 0 <= k < MAXFILE * Z.of_nat BSIZE -> byte_at v' di' k = byte_at v di k) /\
    a = addr_of v' di' bn /\ a <> 0 /\ (addr_of v di bn <> 0 -> di' = di) /\
    (cost q ({[a]} ∪ L') di' <= S (cost q L di))%nat /\
    (nfree v q + no_ind di' <= nfree v' q + no_ind di + 1)%nat.

Lemma mapped_old g s v L i ip bn a : file_at g s v L i ip ->
  a = addr_of v (i_disk ip) bn -> a <> 0 -> mapped g s v L i ip bn a s.
Proof.
  intros FA -> Ha. exists v, L, (tx s), (i_disk ip). split_and!; try done; try apply FA.
  - rewrite with_di_same by apply FA. by rewrite with_tx_tx.
  - apply evolves_refl, FA.
  - apply cost_step with (a := addr_of v (i_disk ip) bn). unfold counted. set_solver.
  - lia.
Qed.

Lemma balloc_file g s v L di h (Q : Z -> fs T -> Prop) :
  txn g (tx s) v h ∅ L -> fs_geo g (sb s) (length v) -> sb_size (sb s) <= BPB -> meta_used v (sb s) ->
  held_data (sb s) v h -> (size h <= 1)%nat -> (cost (sb s) L di + 3 <= tg_cap g)%nat ->
  (0 < nfree v (sb s))%nat ->
  (forall a v' t, allocated (sb s) v v' a -> txn g t v' h ∅ ({[a]} ∪ ({[sb_bmapstart (sb s)]} ∪ L)) ->
     S (nfree v' (sb s)) = nfree v (sb s) -> meta_used v' (sb s) -> Q a (with_tx s t)) ->
  wp (balloc ROOTDEV) s Q.
Proof.
  intros Ht G Hone Hm Hh Hsz Hc Hf HQ. pose proof (size_cost (sb s) L di).
  pose proof (txn_wf _ _ _ _ _ _ Ht) as Hwf.
  eapply wp_mono; [apply (wp_balloc g s v h L); try done; [lia|by apply nfree_pos]|].
  intros a s' (v' & t & -> & Ha & Ht'). pose proof (allocated_range g _ v v' a G Ha) as (_ & Hr & _).
  rewrite (bblock_one g _ _ a G Hone Hr) in Ht'. apply (HQ a v' t); try done.
  - apply (nfree_take _ _ _ a Hr); [apply Ha|]. by apply (allocated_used g).
  - by apply (allocated_meta g _ v v' a).
Qed.

Lemma bmap_direct g s v L i ip bn :
  file_at g s v L i ip -> 0 <= bn < Z.of_nat NDIRECT ->
  (cost (sb s) L (i_disk ip) + 3 <= tg_cap g)%nat -> (no_ind (i_disk ip) < nfree v (sb s))%nat ->
  wp (bmap i bn) s (mapped g s v L i ip bn).
Proof.
  intros FA Hbn Hc Hf. pose proof FA as [Ht G Hone Hm Hip Hdev F]. pose proof (txn_wf _ _ _ _ _ _ Ht) as Hwf.
  set (di := i_disk ip) in *. unfold bmap. apply wp_bind. eapply wp_geti; [exact Hip|].
  rewrite (proj2 (Z.ltb_lt bn _)) by lia. fold di.
  destruct (lookup_lt_is_Some_2 (di_addrs di) (at_ bn)) as [a Ea].
  { rewrite (wd_length _ (fo_wf _ _ _ F)). unfold NDIRECT in *. lia. }
  assert (Eaddr : addr_of v di bn = a) by (rewrite addr_of_direct by done; by rewrite Ea).
  apply wp_bind. eapply wp_lift; [exact Ea|]. destruct (Z.eqb_spec a 0) as [E0|E0].
  2: { apply wp_ret, mapped_old; [done|exact (eq_sym Eaddr)|done]. }
  rewrite E0 in Eaddr. clear a Ea E0. apply wp_bind. rewrite Hdev.
  eapply (balloc_file g s v L di ∅ _ Ht G Hone Hm); [| |done|lia|].
  - intros n Hn. by rewrite map_img_empty_L in Hn.
  - rewrite map_size_empty. lia.
  - intros a v' t Ha Ht' Hnf Hm'. apply wp_bind. eapply wp_setd; [exact Hip|]. apply wp_ret.
    destruct (taken_direct g _ v v' di a G Hwf F Ha bn Hbn Eaddr) as (E & B & Ea' & Ei). fold di.
    eexists v', _, t, _. split_and!; try done.
    + pose proof (al_range _ _ _ _ Ha). pose proof (data_start_pos g _ v G). lia.
    + etransitivity; [|apply (cost_step (sb s) L ({[a]} ∪ ({[sb_bmapstart (sb s)]} ∪ L)) di a)];
        [|unfold counted; set_solver].
      unfold cost, no_ind, counted. rewrite Ei. apply Nat.add_le_mono_r. apply subseteq_size. set_solver.
    + unfold no_ind in *. rewrite Ei. fold di. lia.
Qed.

Lemma bmap_entry_ok g s v L i ip bn :
  file_at g s v L i ip -> Z.of_nat NDIRECT <= bn < MAXFILE -> ind_of (i_disk ip) <> 0 ->
  (cost (sb s) L (i_disk ip) + 3 <= tg_cap g)%nat -> (0 < nfree v (sb s))%nat ->
  wp (bmap_entry ROOTDEV (ind_of (i_disk ip)) (bn - Z.of_nat NDIRECT)) s (mapped g s v L i ip bn).
Proof.
  intros FA Hbn Hi Hc Hf. pose proof FA as [Ht G Hone Hm Hip Hdev F]. pose proof (txn_wf _ _ _ _ _ _ Ht) as Hwf.
  set (di := i_disk ip) in *. set (q := sb s) in *. pose proof (data_start_pos g q v G) as [D0 D1].
  destruct (own_range q v di (ind_of di) D0 F) as (R1 & R2 & R3); [by apply ind_in|].
  pose proof (fg_size _ _ _ G) as Hsz. pose proof (size_cost q L di) as Hsl.
  destruct (lookup_lt_is_Some_2 v (at_ (ind_of di))) as [d Hd]; [lia|].
  pose proof (blocks_len _ _ _ Hwf Hd) as Hlen.
  assert (Hoff : (4 * at_ (bn - Z.of_nat NDIRECT) + 4 <= length d)%nat).
  { rewrite Hlen. unfold BSIZE, MAXFILE, NDIRECT in *. lia. }
  unfold bmap_entry. apply wp_bind. eapply wp_fbread; [exact Ht|lia| | |].
  { rewrite map_img_empty_L. set_solver. }
  { unfold can_read. rewrite map_size_empty. lia. }
  intros bp t1 Hbp Ht1. apply wp_bind.
  eapply wp_fdata; [exact Ht1|by rewrite lookup_insert_eq|exact Hd|].
  destruct (load 4 d (4 * at_ (bn - Z.of_nat NDIRECT))) as [a|] eqn:Ea; [|by rewrite load_in in Ea].
  assert (Eaddr : addr_of v di bn = a) by (rewrite addr_of_indirect by lia; by rewrite Hd, obind_some, Ea).
  apply wp_bind. eapply wp_lift; [done|]. apply wp_bind. destruct (Z.eqb_spec a 0) as [E0|E0].
  2: { apply wp_ret. apply wp_bind. eapply wp_fbrelse; [exact Ht1|done|]. intros t2 Ht2. apply wp_ret.
       apply (mapped_old g (with_tx s t2) v L i ip bn); [by split|exact (eq_sym Eaddr)|done]. }
  rewrite E0 in Eaddr, Ea. clear a E0. apply wp_bind.
  eapply (balloc_file g (with_tx s t1) v L di _ _ Ht1 G Hone Hm); [| |done|done|].
  { intros n. rewrite img_insert, map_img_empty_L by done. rewrite (right_id_L ∅ (∪)), elem_of_singleton.
    intros ->. split; [exact R2|exact R3]. }
  { rewrite map_size_insert_None, map_size_empty by done. lia. }
  intros a v' t2 Ha Ht2 Hnf Hm'. cbn [sb with_tx] in *. fold q in Ha, Ht2, Hnf, Hm'.
  destruct (taken_ind g q v v' di a G F Ha Hi) as (Ki & Kne & _).
  destruct (put_succeeds 4 d (4 * at_ (bn - Z.of_nat NDIRECT)) a Hoff) as (d' & Hput & Hl').
  apply wp_bind. eapply wp_fdata; [exact Ht2|by rewrite lookup_insert_eq|by rewrite Ki|].
  apply wp_bind. eapply wp_lift; [exact Hput|].
  set (L1 := {[a]} ∪ ({[sb_bmapstart q]} ∪ L)) in *.
  assert (Hc1 : (cost q ({[ind_of di]} ∪ L1) di <= S (cost q L di))%nat).
  { apply (cost_step q L _ di a). unfold L1, counted. rewrite (proj2 (Z.eqb_neq _ _) Hi). set_solver. }
  assert (Hs1 : (size L1 <= cost q ({[ind_of di]} ∪ L1) di)%nat).
  { etransitivity; [|apply size_cost]. apply subseteq_size. set_solver. }
  eapply wp_logged; [exact Ht2|by rewrite lookup_insert_eq|congruence| |lia|].
  { lia. }
  intros t3 Ht3. apply wp_ret. apply wp_bind. eapply wp_fbrelse; [exact Ht3|done|]. intros t4 Ht4. apply wp_ret.
  destruct (taken_slot g q v v' di a G Hwf F Ha bn d d' Hbn Hi Eaddr Hd Hput) as (E & B & Ea').
  exists (<[at_ (ind_of di) := d']> v'), ({[ind_of di]} ∪ L1), t4, di. fold q di.
  pose proof (al_range _ _ _ _ Ha) as Hra.
  assert (Hused : forall b, 0 <= b < sb_size q -> used (<[at_ (ind_of di) := d']> v') q b = used v' q b).
  { intros b Hb. unfold used. pose proof (bblock_range _ _ _ _ G Hb) as (_ & Q1 & _ & Q2).
    rewrite list_lookup_insert_ne; [done|]. lia. }
  split_and!; try done.
  - cbn [with_tx tx]. unfold di. rewrite with_di_same; done.
  - intros b Hb. rewrite Hused by (pose proof (fg_bmap _ _ _ G); lia). by apply Hm'.
  - lia.
  - etransitivity; [|exact Hc1]. unfold cost. apply Nat.add_le_mono_r, subseteq_size. unfold counted, L1. set_solver.
  - unfold nfree in *. rewrite (filter_same (used v' q) (used (<[at_ (ind_of di) := d']> v') q)); [lia|].
    intros b Hb%elem_of_seqZ. apply Hused. lia.
Qed.

Lemma file_at_di g s v L i ip v' L' t di' :
  file_at g s v L i ip -> txn g t v' ∅ ∅ L' -> meta_used v' (sb s) -> length v' = length v ->
  file_ok (sb s) v' di' -> file_at g (with_di s t i ip di') v' L' i (set_disk di' ip).
Proof.
  intros [Ht G Hone Hm Hip Hdev F] Ht' Hm' Hl F'. split; cbn [with_di tx sb icache]; try done.
  - by rewrite Hl.
  - apply list_lookup_insert_eq. by eapply lookup_lt_Some.
Qed.

Lemma bmap_indirect g s v L i ip bn :
  file_at g s v L i ip -> Z.of_nat NDIRECT <= bn < MAXFILE ->
  (cost (sb s) L (i_disk ip) + 3 <= tg_cap g)%nat -> (no_ind (i_disk ip) < nfree v (sb s))%nat ->
  wp (bmap i bn) s (mapped g s v L i ip bn).
Proof.
  intros FA Hbn Hc Hf. pose proof FA as [Ht G Hone Hm Hip Hdev F]. pose proof (txn_wf _ _ _ _ _ _ Ht) as Hwf.
  set (di := i_disk ip) in *. set (q := sb s) in *. unfold bmap. apply wp_bind. eapply wp_geti; [exact Hip|].
  rewrite (proj2 (Z.ltb_ge bn _)) by lia. fold di.
  rewrite (proj2 (Z.ltb_lt _ (Z.of_nat NINDIRECT))) by (unfold MAXFILE, NDIRECT, NINDIRECT in *; lia).
  destruct (lookup_lt_is_Some_2 (di_addrs di) NDIRECT) as [a Ea].
  { rewrite (wd_length _ (fo_wf _ _ _ F)). lia. }
  assert (Ei : ind_of di = a) by (unfold ind_of; by rewrite Ea).
  apply wp_bind. eapply wp_lift; [exact Ea|]. rewrite Hdev. destruct (Z.eqb_spec a 0) as [E0|E0].
  2: { rewrite <- Ei in E0 |- *. apply bmap_entry_ok; try done. fold q. lia. }
  rewrite E0 in Ei. clear a Ea E0. apply wp_bind.
  assert (Hno : no_ind di = 1%nat) by (unfold no_ind; by rewrite Ei).
  eapply (balloc_file g s v L di ∅ _ Ht G Hone Hm); [| |done|fold q; lia|].
  { intros n Hn. by rewrite map_img_empty_L in Hn. }
  { rewrite map_size_empty. lia. }
  intros a v' t Ha Ht' Hnf Hm'. fold q in Ha, Ht', Hnf, Hm'. apply wp_bind. eapply wp_setd; [exact Hip|]. fold di.
  set (di1 := di_with_addrs (<[NDIRECT := a]> (di_addrs di)) di).
  destruct (taken_indirect g q v v' di a G Hwf F Ha Ei) as (E1 & B1 & I1). fold di1 in E1, B1, I1.
  pose proof (al_range _ _ _ _ Ha) as Hra. pose proof (data_start_pos g q v G) as [D0 D1].
  assert (Hn1 : ind_of di1 <> 0) by (rewrite I1; lia).
  assert (Hc1 : (cost q ({[a]} ∪ ({[sb_bmapstart q]} ∪ L)) di1 <= cost q L di)%nat).
  { apply cost_ind; [done|done|]. rewrite I1. unfold counted. set_solver. }
  assert (FA1 : file_at g (with_di s t i ip di1) v' ({[a]} ∪ ({[sb_bmapstart q]} ∪ L)) i (set_disk di1 ip)).
  { apply (file_at_di g s v L i ip); try done; [by rewrite (ev_length _ _ _ _ _ E1)|apply E1]. }
  eapply wp_mono.
  { pose proof (bmap_entry_ok g (with_di s t i ip di1) v' _ i (set_disk di1 ip) bn FA1 Hbn Hn1) as Hw.
    cbn [i_disk set_disk] in Hw. rewrite I1 in Hw. apply Hw; cbn [sb with_di]; fold q; lia. }
  intros b s' (v2 & L2 & t2 & di2 & -> & Ht2 & Hm2 & E2 & S2 & B2 & Eb & Hb0 & Hd2 & Hc2 & Hf2).
  cbn [i_disk set_disk sb with_di] in *. fold q in Hm2, E2, Hc2, Hf2.
  assert (Hi2 : no_ind di1 = 0%nat) by (unfold no_ind; by rewrite (proj2 (Z.eqb_neq _ _) Hn1)).
  exists v2, L2, t2, di2. fold q di. split_and!; try done.
  - by rewrite with_di_di.
  - by eapply evolves_trans.
  - intros k Hk. by rewrite B2, B1.
  - intros Hn. destruct Hn. by apply addr_of_none; [lia|].
  - lia.
  - lia.
Qed.
End bmap.

(** ** Overwriting a block of a file *)

Section overwrite.
Context (g : tgeo) (q : superblock) (v : list block) (di : dinode) (bn : Z) (d' : block).
Hypotheses (G : fs_geo g q (length v)) (F : file_ok q v di) (Hbn : 0 <= bn < MAXFILE)
  (Ha : addr_of v di bn <> 0).
Let a := addr_of v di bn.
Let v' := <[at_ a := d']> v.

Lemma overwrite_range : data_start q <= a < sb_size q /\ 0 < data_start q /\ a <> ind_of di /\
  (at_ a < length v)%nat /\ tg_lo g <= a.
Proof.
  pose proof (data_start_pos g q v G) as (D0 & D1 & D2). pose proof (fg_size _ _ _ G).
  destruct (own_range q v di a D0 F) as (R1 & R2 & R3); [by apply addr_in|].
  split_and!; try lia. by apply (fo_ind _ _ _ F).
Qed.

Lemma overwrite_used b : 0 <= b < sb_size q -> used v' q b = used v q b.
Proof.
  intros Hb. pose proof overwrite_range. pose proof (bblock_range _ _ _ _ G Hb) as (_ & Q1 & _ & Q2).
  unfold used, v'. rewrite list_lookup_insert_ne; [done|]. lia.
Qed.

Lemma overwrite_addr bn' : addr_of v' di bn' = addr_of v di bn'.
Proof.
  apply addr_of_same; [done| |done]. intros Hi. pose proof overwrite_range as (R1 & R2 & R3 & R4 & R5).
  destruct (own_range q v di (ind_of di) R2 F) as (Q1 & _); [by apply ind_in|].
  unfold v'. apply list_lookup_insert_ne. lia.
Qed.

Lemma overwrite_own n : own v' di n <-> own v di n.
Proof.
  unfold own. split; intros [Hn [H|(b & Hb & H)]]; (split; [done|]); [by left| |by left|];
    right; exists b; (split; [done|]); by rewrite overwrite_addr in *.
Qed.

Lemma overwrite_evolves : evolves q v di v' di.
Proof.
  pose proof overwrite_range as (R1 & R2 & R3 & R4 & R5). split.
  - apply length_insert.
  - split; [apply F| | |].
    + intros n [Hr Hu]%overwrite_own%(fo_data _ _ _ F). split; [done|]. by rewrite overwrite_used by lia.
    + intros b1 b2 H1 H2. rewrite !overwrite_addr. by apply (fo_inj _ _ _ F).
    + intros b1 H1. rewrite overwrite_addr. by apply (fo_ind _ _ _ F).
  - intros b Hb Hu. by rewrite overwrite_used.
  - intros n Hn Hu Ho Hr. unfold v'. apply list_lookup_insert_ne.
    intros E. apply Ho. assert (n = a) as -> by lia. by apply addr_in.
  - intros b1 H1 H2. apply overwrite_addr.
  - intros n Ho. left. by apply overwrite_own.
  - by repeat split.
Qed.

Lemma overwrite_byte k : 0 <= k < MAXFILE * Z.of_nat BSIZE ->
  byte_at v' di k = if decide (k / Z.of_nat BSIZE = bn) then default 0 (d' !! at_ (k mod Z.of_nat BSIZE))
                    else byte_at v di k.
Proof.
  intros Hk. pose proof overwrite_range as (R1 & R2 & R3 & R4 & R5). pose proof (block_range k Hk) as Hb.
  unfold byte_at. rewrite overwrite_addr. case_decide as E.
  - rewrite E, (proj2 (Z.eqb_neq _ _) Ha). unfold v'. fold a. by rewrite list_lookup_insert_eq, obind_some by done.
  - destruct (Z.eqb_spec (addr_of v di (k / Z.of_nat BSIZE)) 0) as [|Hn]; [done|].
    destruct (own_range q v di _ R2 F (addr_in _ _ _ Hb Hn)) as (Q1 & _).
    unfold v'. rewrite list_lookup_insert_ne; [done|]. intros Ee. apply E. symmetry.
    apply (fo_inj _ _ _ F bn (k / Z.of_nat BSIZE)); try done. fold a. lia.
Qed.

Lemma overwrite_meta : meta_used v q -> meta_used v' q.
Proof. intros Hm b Hb. pose proof overwrite_range. rewrite overwrite_used by lia. by apply Hm. Qed.

Lemma overwrite_nfree : nfree v' q = nfree v q.
Proof.
  unfold nfree. f_equal. apply filter_same. intros b Hb%elem_of_seqZ. apply overwrite_used. lia.
Qed.
End overwrite.

(** ** [readi] *)

(** A file without holes: every block below its size is allocated. *)
Record whole (q : superblock) (v : list block) (di : dinode) : Prop := {
  wh_file : file_ok q v di;
  wh_size : 0 <= di_size di <= MAXFILE * Z.of_nat BSIZE;
  wh_holes k : 0 <= k < di_size di -> addr_of v di (k / Z.of_nat BSIZE) <> 0
}.

Section rw.
Context {T : Type} {ops : TxnOps T} {tv : TxnView T} {laws : TxnLaws T}.
Implicit Types (s : fs T) (t : T) (v : list block) (L : gset Z) (g : tgeo) (ip : inode).

Lemma wp_bmap g s v L i ip bn :
  file_at g s v L i ip -> 0 <= bn < MAXFILE ->
  (cost (sb s) L (i_disk ip) + 3 <= tg_cap g)%nat -> (no_ind (i_disk ip) < nfree v (sb s))%nat ->
  wp (bmap i bn) s (mapped g s v L i ip bn).
Proof.
  intros FA Hbn Hc Hf. destruct (decide (bn < Z.of_nat NDIRECT)).
  - by apply bmap_direct; [|lia|..].
  - by apply bmap_indirect; [|lia|..].
Qed.

(** A block that is there is found without changing anything. *)
Lemma wp_bmap_old g s v L i ip bn (Q : Z -> fs T -> Prop) :
  file_at g s v L i ip -> 0 <= bn < MAXFILE -> addr_of v (i_disk ip) bn <> 0 ->
  (forall t, txn g t v ∅ ∅ L -> Q (addr_of v (i_disk ip) bn) (with_tx s t)) -> wp (bmap i bn) s Q.
Proof.
  intros FA Hbn Ha HQ. pose proof FA as [Ht G Hone Hm Hip Hdev F]. pose proof (txn_wf _ _ _ _ _ _ Ht) as Hwf.
  set (di := i_disk ip) in *. unfold bmap. apply wp_bind. eapply wp_geti; [exact Hip|]. fold di.
  pose proof (wd_length _ (fo_wf _ _ _ F)) as HL.
  destruct (Z.ltb_spec bn (Z.of_nat NDIRECT)).
  - destruct (lookup_lt_is_Some_2 (di_addrs di) (at_ bn)) as [a Ea]; [rewrite HL; unfold NDIRECT in *; lia|].
    rewrite addr_of_direct, Ea in Ha, HQ by lia. change (default 0 (Some a)) with a in *.
    apply wp_bind. eapply wp_lift; [exact Ea|]. rewrite (proj2 (Z.eqb_neq _ _) Ha). apply wp_ret.
    rewrite <- (with_tx_tx s). by apply HQ.
  - rewrite (proj2 (Z.ltb_lt _ (Z.of_nat NINDIRECT))) by (unfold MAXFILE, NDIRECT, NINDIRECT in *; lia).
    destruct (lookup_lt_is_Some_2 (di_addrs di) NDIRECT) as [a Ea]; [rewrite HL; lia|].
    assert (Ei : ind_of di = a) by (unfold ind_of; by rewrite Ea).
    assert (Hi : ind_of di <> 0) by (intros Hi; apply Ha; by apply addr_of_none).
    apply wp_bind. eapply wp_lift; [exact Ea|]. rewrite <- Ei, (proj2 (Z.eqb_neq _ _) Hi), Hdev.
    destruct (data_start_pos g _ v G) as (D0 & _). pose proof (fg_size _ _ _ G).
    destruct (own_range _ v di (ind_of di) D0 F) as (R1 & R2 & R3); [by apply ind_in|].
    destruct (lookup_lt_is_Some_2 v (at_ (ind_of di))) as [d Hd]; [lia|].
    rewrite addr_of_indirect, Hd, obind_some in Ha, HQ by done.
    destruct (load 4 d (4 * at_ (bn - Z.of_nat NDIRECT))) as [b|] eqn:Eb; [|done].
    change (default 0 (Some b)) with b in *.
    unfold bmap_entry. apply wp_bind. eapply wp_fbread; [exact Ht|lia| | |].
    { rewrite map_img_empty_L. set_solver. }
    { unfold can_read. rewrite map_size_empty. pose proof (txn_logged _ _ _ _ _ _ Ht). lia. }
    intros bp t1 Hbp Ht1. apply wp_bind. eapply wp_fdata; [exact Ht1|by rewrite lookup_insert_eq|exact Hd|].
    apply wp_bind. eapply wp_lift; [exact Eb|]. rewrite (proj2 (Z.eqb_neq _ _) Ha).
    apply wp_bind, wp_ret, wp_bind. eapply wp_fbrelse; [exact Ht1|done|]. intros t2 Ht2. apply wp_ret. by apply HQ.
Qed.

Lemma same_block off j : 0 <= off -> 0 <= j -> off mod Z.of_nat BSIZE + j < Z.of_nat BSIZE ->
  (off + j) / Z.of_nat BSIZE = off / Z.of_nat BSIZE /\ (off + j) mod Z.of_nat BSIZE = off mod Z.of_nat BSIZE + j.
Proof.
  intros H0 Hj H. pose proof (offset_range off). pose proof (Z.div_mod off (Z.of_nat BSIZE) ltac:(unfold BSIZE; lia)).
  assert (E : (off + j) / Z.of_nat BSIZE = off / Z.of_nat BSIZE).
  { symmetry. apply (Z.div_unique_pos _ _ _ (off mod Z.of_nat BSIZE + j)); lia. }
  split; [done|]. rewrite Z.mod_eq, E by (unfold BSIZE; lia). lia.
Qed.

(** The part of a block that [readi] copies in one iteration. *)
Lemma chunk_bytes v di off m d : 0 <= off -> 0 <= m <= Z.of_nat BSIZE - off mod Z.of_nat BSIZE ->
  addr_of v di (off / Z.of_nat BSIZE) <> 0 -> v !! at_ (addr_of v di (off / Z.of_nat BSIZE)) = Some d ->
  length d = BSIZE ->
  take (at_ m) (drop (at_ (off mod Z.of_nat BSIZE)) d) = byte_at v di <$> seqZ off m.
Proof.
  intros H0 Hm Ha Hd Hlen. pose proof (offset_range off) as Ho. apply list_eq. intros j.
  rewrite list_lookup_fmap. destruct (decide (j < at_ m)%nat) as [Hj|Hj].
  - rewrite lookup_take_lt, lookup_drop by done. rewrite lookup_seqZ_lt by lia. simpl.
    destruct (same_block off (Z.of_nat j)) as [E1 E2]; [lia|lia|lia|].
    unfold byte_at. rewrite E1, E2, (proj2 (Z.eqb_neq _ _) Ha), Hd, obind_some.
    replace (at_ (off mod Z.of_nat BSIZE + Z.of_nat j)) with (at_ (off mod Z.of_nat BSIZE) + j)%nat by lia.
    destruct (lookup_lt_is_Some_2 d (at_ (off mod Z.of_nat BSIZE) + j)) as [x Hx]; [lia|]. by rewrite Hx.
  - rewrite lookup_take_ge by lia. rewrite lookup_seqZ_ge by lia. done.
Qed.

Lemma seqZ_split off n m : 0 <= m <= n -> seqZ off n = seqZ off m ++ seqZ (off + m) (n - m).
Proof. intros H. rewrite <- seqZ_app by lia. f_equal. lia. Qed.

Lemma wp_readi_loop fuel g s v L i ip off n :
  file_at g s v L i ip -> whole (sb s) v (i_disk ip) ->
  0 <= off -> 0 <= n -> off + n <= di_size (i_disk ip) -> n < Z.of_nat fuel ->
  wp (readi_loop fuel i off n) s (fun l s' =>
    l = byte_at v (i_disk ip) <$> seqZ off n /\ exists t, s' = with_tx s t /\ txn g t v ∅ ∅ L).
Proof.
  revert s off n. induction fuel as [|fuel IH]; intros s off n FA W H0 Hn Hsz Hf; [lia|].
  cbn [readi_loop]. destruct (Z.ltb_spec 0 n) as [Hp|Hp].
  2: { apply wp_ret. assert (n = 0) as -> by lia. split; [done|]. exists (tx s). rewrite with_tx_tx. split; [done|apply FA]. }
  pose proof FA as [Ht G Hone Hm Hip Hdev F]. pose proof (txn_wf _ _ _ _ _ _ Ht) as Hwf.
  pose proof (wh_size _ _ _ W) as Hws. pose proof (wh_holes _ _ _ W off ltac:(lia)) as Ha.
  pose proof (block_range off ltac:(lia)) as Hbn. pose proof (offset_range off) as Ho.
  destruct (overwrite_range g _ v (i_disk ip) _ G F Hbn Ha) as (R1 & R2 & R3 & R4 & R5).
  apply wp_bind. eapply wp_bmap_old; [exact FA|done|done|]. intros t1 Ht1.
  apply wp_bind. eapply wp_geti; [exact Hip|]. rewrite Hdev.
  apply wp_bind. eapply wp_fbread; [exact Ht1|lia| | |].
  { rewrite map_img_empty_L. set_solver. }
  { unfold can_read. rewrite map_size_empty. pose proof (txn_logged _ _ _ _ _ _ Ht). lia. }
  intros bp t2 Hbp Ht2. destruct (lookup_lt_is_Some_2 v _ R4) as [d Hd]. pose proof (blocks_len _ _ _ Hwf Hd) as Hlen.
  apply wp_bind. eapply wp_fdata; [exact Ht2|by rewrite lookup_insert_eq|exact Hd|].
  apply wp_bind. eapply wp_fbrelse; [exact Ht2|done|]. intros t3 Ht3.
  set (m := Z.min n (Z.of_nat BSIZE - off mod Z.of_nat BSIZE)).
  apply wp_bind. eapply wp_mono.
  { apply (IH (with_tx s t3)); [by split|done|lia|lia|lia|lia]. }
  intros l s' (-> & t & -> & Ht'). apply wp_ret. split; [|by exists t].
  rewrite (chunk_bytes v (i_disk ip) off m d) by (done || lia).
  rewrite (seqZ_split off n m) by lia. by rewrite fmap_app.
Qed.

Variable devsw : list (driver (T := T)).

Lemma sum_overflows off n : 0 <= off < 2 ^ 32 -> 0 <= n < 2 ^ 32 ->
  (u32 (off + n) <? off) = negb (off + n <? 2 ^ 32).
Proof.
  intros Ho Hn. unfold u32. destruct (Z.ltb_spec (off + n) (2 ^ 32)); cbn [negb].
  - rewrite Z.mod_small by lia. apply Z.ltb_ge. lia.
  - replace ((off + n) mod 2 ^ 32) with (off + n - 2 ^ 32); [apply Z.ltb_lt; lia|].
    apply (Z.mod_unique_pos _ _ 1); lia.
Qed.

Definition read_result v (di : dinode) (off n : Z) : option (list Z) :=
  if decide (off <= di_size di /\ off + n < 2 ^ 32)
  then Some (byte_at v di <$> seqZ off (Z.min n (di_size di - off)))
  else None.

Lemma wp_readi g s v L i ip off n :
  file_at g s v L i ip -> whole (sb s) v (i_disk ip) -> di_type (i_disk ip) <> T_DEV ->
  0 <= off < 2 ^ 32 -> 0 <= n < 2 ^ 32 ->
  wp (readi devsw i off n) s (fun r s' =>
    r = read_result v (i_disk ip) off n /\ exists t, s' = with_tx s t /\ txn g t v ∅ ∅ L).
Proof.
  intros FA W Ht Ho Hn. pose proof FA as [Htx G Hone Hm Hip Hdev F]. unfold readi, read_result.
  apply wp_bind. eapply wp_geti; [exact Hip|]. rewrite (proj2 (Z.eqb_neq _ _) Ht), sum_overflows by done.
  set (di := i_disk ip) in *. pose proof (wh_size _ _ _ W) as Hws.
  assert (Hnop : exists t, s = with_tx s t /\ txn g t v ∅ ∅ L) by (exists (tx s); by rewrite with_tx_tx).
  destruct (Z.ltb_spec (di_size di) off) as [Hl|Hl]; cbn [orb].
  { apply wp_ret. by rewrite decide_False by lia. }
  destruct (Z.ltb_spec (off + n) (2 ^ 32)) as [Hv|Hv]; cbn [negb].
  2: { apply wp_ret. by rewrite decide_False by lia. }
  rewrite decide_True by lia. rewrite u32_small by lia.
  set (m := if di_size di <? off + n then di_size di - off else n).
  assert (Em : m = Z.min n (di_size di - off)) by (unfold m; destruct (Z.ltb_spec (di_size di) (off + n)); lia).
  apply wp_bind. eapply wp_mono; [apply (wp_readi_loop _ g s v L i ip off m); try done; fold di; lia|].
  intros l s' (-> & Hs'). apply wp_ret. by rewrite Em.
Qed.

(** [readi] of a file or directory without holes.  It fails when [off] is
    past the end of the file or [off + n] overflows, and otherwise returns
    the bytes of the file from [off] on, as many as asked for or as there are
    up to the end; it changes no block. *)
Theorem readi_reads g s v L i ip off n :
  file_at g s v L i ip -> whole (sb s) v (i_disk ip) -> di_type (i_disk ip) <> T_DEV ->
  0 <= off < 2 ^ 32 -> 0 <= n < 2 ^ 32 ->
  wp (readi devsw i off n) s (fun r s' => (exists t, s' = with_tx s t /\ txn g t v ∅ ∅ L) /\
    r = read_result v (i_disk ip) off n).
Proof. intros. eapply wp_mono; [by apply wp_readi|]. naive_solver. Qed.

(** ** [writei] *)

(** The number of blocks that the [n] bytes from [off] on touch. *)
Definition touched (off n : Z) : nat :=
  if n <=? 0 then O else Z.to_nat ((off + n - 1) / Z.of_nat BSIZE - off / Z.of_nat BSIZE + 1).

Lemma touched_step off n : 0 <= off -> 0 < n ->
  let m := Z.min n (Z.of_nat BSIZE - off mod Z.of_nat BSIZE) in
  touched off n = S (touched (off + m) (n - m)).
Proof.
  intros H0 Hn m. pose proof (offset_range off) as Ho.
  pose proof (Z.div_mod off (Z.of_nat BSIZE) ltac:(unfold BSIZE; lia)) as Hdm.
  unfold touched. rewrite (proj2 (Z.leb_gt n 0)) by lia.
  destruct (Z.leb_spec (n - m) 0) as [Hl|Hl].
  - assert (m = n) by lia. replace (off + n - 1) with (off + (n - 1)) by lia.
    destruct (same_block off (n - 1)) as [-> _]; [lia|lia|lia|]. rewrite Z.sub_diag. done.
  - assert (Em : m = Z.of_nat BSIZE - off mod Z.of_nat BSIZE) by lia.
    assert (E : (off + m) / Z.of_nat BSIZE = off / Z.of_nat BSIZE + 1).
    { symmetry. apply (Z.div_unique_pos _ _ _ 0); lia. }
    rewrite E. replace (off + m + (n - m) - 1) with (off + n - 1) by lia.
    assert (off / Z.of_nat BSIZE + 1 <= (off + n - 1) / Z.of_nat BSIZE).
    { rewrite <- E. apply Z.div_le_mono; [unfold BSIZE|]; lia. }
    lia.
Qed.

(** [src] was written over the bytes of the file from [off] on. *)
Definition over (v : list block) (di : dinode) (off : Z) (src : list Z) (k : Z) : Z :=
  if decide (off <= k < off + Z.of_nat (length src)) then default 0 (src !! at_ (k - off)) else byte_at v di k.

Record wrote g s v L i ip (off : Z) (src : list Z) (s' : fs T) v' L' (di' : dinode) : Prop := {
  wr_state : exists t, s' = with_di s t i ip di' /\ txn g t v' ∅ ∅ L';
  wr_meta : meta_used v' (sb s);
  wr_evolves : evolves (sb s) v (i_disk ip) v' di';
  wr_size : di_size di' = di_size (i_disk ip);
  wr_bytes k : 0 <= k < MAXFILE * Z.of_nat BSIZE -> byte_at v' di' k = over v (i_disk ip) off src k;
  wr_same : (forall k, off <= k < off + Z.of_nat (length src) -> addr_of v (i_disk ip) (k / Z.of_nat BSIZE) <> 0) ->
    di' = i_disk ip;
  wr_there k : off <= k < off + Z.of_nat (length src) -> addr_of v' di' (k / Z.of_nat BSIZE) <> 0;
  wr_cost : (cost (sb s) L' di' <= cost (sb s) L (i_disk ip) + touched off (Z.of_nat (length src)))%nat;
  wr_free : (nfree v (sb s) + no_ind di' <=
             nfree v' (sb s) + no_ind (i_disk ip) + touched off (Z.of_nat (length src)))%nat
}.

Lemma wrote_nothing g s v L i ip off : file_at g s v L i ip -> wrote g s v L i ip off [] s v L (i_disk ip).
Proof.
  intros FA. pose proof FA as [Ht G Hone Hm Hip Hdev F]. split; try done.
  - exists (tx s). rewrite with_di_same by done. by rewrite with_tx_tx.
  - by apply evolves_refl.
  - intros k Hk. unfold over. by rewrite decide_False by (simpl; lia).
  - simpl. lia.
  - lia.
  - lia.
Qed.

(** One iteration of the loop. *)
Lemma writei_chunk g s v L i ip off src :
  let m := Z.min (Z.of_nat (length src)) (Z.of_nat BSIZE - off mod Z.of_nat BSIZE) in
  file_at g s v L i ip -> 0 <= off -> (0 < length src)%nat ->
  off + Z.of_nat (length src) <= MAXFILE * Z.of_nat BSIZE ->
  (cost (sb s) L (i_disk ip) + 3 <= tg_cap g)%nat -> (no_ind (i_disk ip) < nfree v (sb s))%nat ->
  wp (writei_block i off m src) s
    (fun _ s' => exists v' L' di', wrote g s v L i ip off (take (at_ m) src) s' v' L' di').
Proof.
  intros m FA H0 Hlen Hmax Hc Hf. pose proof FA as [Ht G Hone Hm Hip Hdev F]. pose proof (offset_range off) as Ho.
  set (q := sb s) in *. set (bn := off / Z.of_nat BSIZE). pose proof (block_range off ltac:(lia)) as Hbn. fold bn in Hbn.
  assert (Hm1 : length (take (at_ m) src) = at_ m) by (rewrite length_take; lia).
  assert (Htch : touched off (Z.of_nat (length (take (at_ m) src))) = 1%nat).
  { rewrite Hm1. rewrite (touched_step off (Z.of_nat (at_ m))) by lia.
    unfold touched. rewrite (proj2 (Z.leb_le _ 0)) by lia. done. }
  unfold writei_block. apply wp_bind. eapply wp_mono; [by apply (wp_bmap g s v L i ip bn)|].
  intros a s1 (v1 & L1 & t1 & di1 & -> & Ht1 & Hm1' & E1 & S1 & B1 & Ea & Ha & Hsame & Hc1 & Hf1). fold q in Hm1', E1, Hc1, Hf1.
  pose proof (ev_file _ _ _ _ _ E1) as F1. pose proof (ev_length _ _ _ _ _ E1) as Hl1.
  assert (G1 : fs_geo g q (length v1)) by (by rewrite Hl1). rewrite Ea in Ha.
  destruct (overwrite_range g q v1 di1 bn G1 F1 Hbn Ha) as (R1 & R2 & R3 & R4 & R5). rewrite <- Ea in R1, R3, R4, R5.
  apply wp_bind. eapply wp_geti; [apply list_lookup_insert_eq; by eapply lookup_lt_Some|].
  cbn [i_dev set_disk]. rewrite Hdev. apply wp_bind. eapply wp_fbread; [exact Ht1|lia| | |].
  { rewrite map_img_empty_L. set_solver. }
  { unfold can_read. rewrite map_size_empty. pose proof (txn_logged _ _ _ _ _ _ Ht1). lia. }
  intros bp t2 Hbp Ht2. destruct (lookup_lt_is_Some_2 v1 _ R4) as [d Hd].
  pose proof (blocks_len _ _ _ (txn_wf _ _ _ _ _ _ Ht1) Hd) as Hdl.
  apply wp_bind. eapply wp_fdata; [exact Ht2|by rewrite lookup_insert_eq|exact Hd|].
  set (o := at_ (off mod Z.of_nat BSIZE)). set (d' := splice d o (take (at_ m) src)).
  assert (Hfit : (o + length (take (at_ m) src) <= length d)%nat) by (rewrite Hm1; unfold o; lia).
  assert (Hs1 : (size L1 <= cost q ({[a]} ∪ L1) di1)%nat).
  { etransitivity; [|apply size_cost]. apply subseteq_size. set_solver. }
  eapply wp_write_last; [exact Ht2|done|unfold d'; by rewrite splice_length|done|lia|].
  intros t3 Ht3. exists (<[at_ a := d']> v1), ({[a]} ∪ L1), di1.
  split; fold q; try (rewrite Htch); try lia.
  - exists t3. split; [done|exact Ht3].
  - rewrite Ea. by apply (overwrite_meta g q v1 di1 bn d' G1 F1 Hbn Ha).
  - eapply evolves_trans; [done|exact E1|]. rewrite Ea. by apply (overwrite_evolves g).
  - intros k Hk. rewrite Ea, (overwrite_byte g q v1 di1 bn d' G1 F1 Hbn Ha k Hk). unfold over. rewrite Hm1.
    pose proof (offset_range k) as Hok. pose proof (Z.div_mod k (Z.of_nat BSIZE) ltac:(unfold BSIZE; lia)) as Hkd.
    pose proof (Z.div_mod off (Z.of_nat BSIZE) ltac:(unfold BSIZE; lia)) as Hod.
    destruct (decide (off <= k < off + Z.of_nat (at_ m))) as [Hin|Hout].
    + destruct (same_block off (k - off)) as [E2 E3]; [lia|lia|lia|]. replace (off + (k - off)) with k in E2, E3 by lia.
      rewrite decide_True by done. unfold d'. rewrite lookup_splice_in by (rewrite ?Hm1; unfold o; lia).
      do 2 f_equal. unfold o. lia.
    + rewrite <- B1 by done. case_decide as Ek; [|done]. unfold d'.
      rewrite lookup_splice_out by (rewrite ?Hm1; unfold o, bn in *; lia).
      unfold byte_at. rewrite Ek, <- Ea, (proj2 (Z.eqb_neq a 0)) by congruence. by rewrite Hd.
  - intros Hall. apply Hsame. apply (Hall off). lia.
  - intros k Hk. rewrite Hm1 in Hk. rewrite Ea, (overwrite_addr g q v1 di1 bn d' G1 F1 Hbn Ha).
    destruct (same_block off (k - off)) as [E2 E3]; [lia|lia|lia|]. replace (off + (k - off)) with k in E2 by lia.
    by rewrite E2.
  - rewrite Ea, (overwrite_nfree g q v1 di1 bn d' G1 F1 Hbn Ha). lia.
Qed.

Lemma wrote_file g s v L i ip off src s' v' L' di' :
  file_at g s v L i ip -> wrote g s v L i ip off src s' v' L' di' ->
  file_at g s' v' L' i (set_disk di' ip) /\ sb s' = sb s.
Proof.
  intros FA [(t & -> & Ht) W2 W3 W4 W5 W6 W7 W8 W9]. split; [|done].
  apply (file_at_di g s v L i ip); try done; apply W3.
Qed.

Lemma wrote_trans g s v L i ip off x y s1 v1 L1 di1 s2 v2 L2 di2 :
  file_at g s v L i ip -> 0 <= off ->
  off + Z.of_nat (length (x ++ y)) <= MAXFILE * Z.of_nat BSIZE ->
  (touched off (Z.of_nat (length x)) + touched (off + Z.of_nat (length x)) (Z.of_nat (length y)) =
   touched off (Z.of_nat (length (x ++ y))))%nat ->
  wrote g s v L i ip off x s1 v1 L1 di1 ->
  wrote g s1 v1 L1 i (set_disk di1 ip) (off + Z.of_nat (length x)) y s2 v2 L2 di2 ->
  wrote g s v L i ip off (x ++ y) s2 v2 L2 di2.
Proof.
  intros FA H0 Hmax Ht A B. destruct (wrote_file _ _ _ _ _ _ _ _ _ _ _ _ FA A) as [FA1 Esb].
  pose proof (data_start_pos g _ v (fa_geo _ _ _ _ _ _ FA)) as [D0 _].
  destruct A as [(t1 & -> & Ht1) A2 A3 A4 A5 As A6 A7 A8], B as [(t2 & -> & Ht2) B2 B3 B4 B5 Bs B6 B7 B8].
  cbn [sb with_di i_disk set_disk] in *. rewrite length_app in *. split.
  - exists t2. split; [apply with_di_di|done].
  - done.
  - by eapply evolves_trans.
  - congruence.
  - intros k Hk. rewrite B5 by done. unfold over in *. cbn [i_disk set_disk]. rewrite length_app.
    destruct (decide (off + Z.of_nat (length x) <= k < off + Z.of_nat (length x) + Z.of_nat (length y))).
    + rewrite decide_True by lia. rewrite lookup_app_r by lia. do 2 f_equal. lia.
    + rewrite A5 by done. destruct (decide (off <= k < off + Z.of_nat (length x))).
      * rewrite decide_True by lia. rewrite lookup_app_l by lia. done.
      * by rewrite decide_False by lia.
  - intros Hall. rewrite length_app in Hall. assert (di1 = i_disk ip) as -> by (apply As; intros k Hk; apply Hall; lia).
    apply Bs. intros k Hk. rewrite (ev_addr _ _ _ _ _ A3); [apply Hall; lia|apply block_range; lia|apply Hall; lia].
  - intros k Hk. rewrite length_app in Hk. destruct (decide (k < off + Z.of_nat (length x))).
    + pose proof (A6 k ltac:(lia)) as Ha. rewrite (ev_addr _ _ _ _ _ B3); [done| |done]. apply block_range. lia.
    + apply B6. lia.
  - rewrite length_app. lia.
  - rewrite length_app. lia.
Qed.

Lemma wp_writei_loop fuel g s v L i ip off src :
  file_at g s v L i ip -> 0 <= off -> off + Z.of_nat (length src) <= MAXFILE * Z.of_nat BSIZE ->
  (cost (sb s) L (i_disk ip) + touched off (Z.of_nat (length src)) + 2 <= tg_cap g)%nat ->
  (no_ind (i_disk ip) + touched off (Z.of_nat (length src)) <= nfree v (sb s))%nat ->
  (length src < fuel)%nat ->
  wp (writei_loop fuel i off src) s (fun r s' => r = off + Z.of_nat (length src) /\
    exists v' L' di', wrote g s v L i ip off src s' v' L' di').
Proof.
  revert s v L ip off src. induction fuel as [|fuel IH]; intros s v L ip off src FA H0 Hmax Hc Hf Hfuel; [lia|].
  cbn [writei_loop]. destruct (Z.ltb_spec 0 (Z.of_nat (length src))) as [Hp|Hp].
  2: { destruct src; [|simpl in Hp; lia]. apply wp_ret. split; [simpl; lia|]. exists v, L, (i_disk ip).
       by apply wrote_nothing. }
  pose proof (touched_step off _ H0 Hp) as Hstep. cbn zeta in Hstep.
  set (m := Z.min (Z.of_nat (length src)) (Z.of_nat BSIZE - off mod Z.of_nat BSIZE)) in *.
  pose proof (offset_range off) as Ho.
  assert (Hm1 : length (take (at_ m) src) = at_ m) by (rewrite length_take; lia).
  assert (Hm2 : Z.of_nat (length (drop (at_ m) src)) = Z.of_nat (length src) - m) by (rewrite length_drop; lia).
  apply wp_bind. eapply wp_mono; [apply (writei_chunk g s v L i ip off src FA H0); lia|].
  intros [] s1 (v1 & L1 & di1 & W1). fold m in W1.
  destruct (wrote_file _ _ _ _ _ _ _ _ _ _ _ _ FA W1) as [FA1 Esb].
  assert (Htm : touched off (Z.of_nat (length (take (at_ m) src))) = 1%nat).
  { rewrite Hm1, (touched_step off (Z.of_nat (at_ m))) by lia. unfold touched. by rewrite (proj2 (Z.leb_le _ 0)) by lia. }
  pose proof (wr_cost _ _ _ _ _ _ _ _ _ _ _ _ W1) as Hc1. pose proof (wr_free _ _ _ _ _ _ _ _ _ _ _ _ W1) as Hf1.
  rewrite Htm in Hc1, Hf1.
  eapply wp_mono; [apply (IH s1 v1 L1 (set_disk di1 ip)); try done; cbn [i_disk set_disk]; rewrite ?Esb, ?Hm2; lia|].
  intros r s2 [-> (v2 & L2 & di2 & W2)]. split; [lia|]. exists v2, L2, di2.
  rewrite <- (take_drop (at_ m) src). eapply (wrote_trans g s v L i ip off); [exact FA|done| | |exact W1|].
  - by rewrite take_drop.
  - rewrite take_drop, Htm, Hm1, Hm2. rewrite Hstep. do 2 f_equal. lia.
  - rewrite Hm1. replace (off + Z.of_nat (at_ m)) with (off + m) by lia. exact W2.
Qed.

Lemma cost_size q L di n : cost q L (di_with_size n di) = cost q L di.
Proof. done. Qed.

(** What [writei] does when it writes. *)
Record file_written g s v L i ip (off : Z) (src : list Z) (s' : fs T) v' L' (di' : dinode) : Prop := {
  fw_state : exists t, s' = with_di s t i ip di' /\ txn g t v' ∅ ∅ L';
  fw_meta : meta_used v' (sb s);
  fw_length : length v' = length v;
  fw_size : di_size di' = Z.max (di_size (i_disk ip)) (off + Z.of_nat (length src));
  fw_bytes k : 0 <= k < MAXFILE * Z.of_nat BSIZE -> byte_at v' di' k = over v (i_disk ip) off src k;
  fw_whole : whole (sb s) v' di';
  fw_fields : same_fields (i_disk ip) di';
  fw_frame n : data_start (sb s) <= n < sb_size (sb s) -> used v (sb s) n = true -> ~ own v (i_disk ip) n ->
    v' !! at_ n = v !! at_ n /\ used v' (sb s) n = true;
  fw_own n : own v' di' n -> own v (i_disk ip) n \/ used v (sb s) n = false;
  fw_inodes j : 0 <= j < sb_ninodes (sb s) -> j <> i_inum ip -> disk_inode v' (sb s) j = disk_inode v (sb s) j;
  fw_disk : disk_inode v (sb s) (i_inum ip) = Some (i_disk ip) -> disk_inode v' (sb s) (i_inum ip) = Some di';
  fw_logged : (size L' <= cost (sb s) L (i_disk ip) + touched off (Z.of_nat (length src)) + 1)%nat
}.

(** Blocks of inodes are not blocks of files. *)
Lemma evolves_inodes g q v di v' di' j : fs_geo g q (length v) -> meta_used v q -> file_ok q v di ->
  evolves q v di v' di' -> 0 <= j < sb_ninodes q -> disk_inode v' q j = disk_inode v q j.
Proof.
  intros G Hm F E Hj. pose proof (iblock_range _ _ _ _ G Hj) as (_ & R & _). pose proof (data_start_pos g q v G) as (D0 & D1 & D2).
  destruct G as [G1 G2 G3 G4 G5 G6]. unfold disk_inode.
  rewrite (ev_frame _ _ _ _ _ E); [done|lia|apply Hm; lia| |lia].
  intros Ho. destruct (own_range _ _ _ _ D0 F Ho). lia.
Qed.

Section metadata.
Context (g : tgeo) (q : superblock) (v v' : list block) (i : Z) (x : dinode).
Hypotheses (G : fs_geo g q (length v)) (Hi : 0 <= i < sb_ninodes q) (Hw : inode_written q v v' i x).

Lemma written_data n : sb_bmapstart q <= n -> v' !! at_ n = v !! at_ n.
Proof.
  intros Hn. pose proof (iblock_range _ _ _ _ G Hi) as (_ & R & _ & R').
  apply (iw_blocks _ _ _ _ _ Hw); lia.
Qed.

Lemma written_used b : 0 <= b < sb_size q -> used v' q b = used v q b.
Proof.
  intros Hb. unfold used. pose proof (bblock_range _ _ _ _ G Hb) as (_ & R & _). by rewrite written_data by lia.
Qed.

Lemma written_addr di bn : file_ok q v di -> addr_of v' di bn = addr_of v di bn.
Proof.
  intros F. pose proof (data_start_pos g q v G) as (D0 & D1 & D2). apply addr_of_same; [done| |done]. intros Hn.
  destruct (own_range q v di (ind_of di) D0 F) as (R1 & R2 & _); [by apply ind_in|]. apply written_data. lia.
Qed.

Lemma written_byte di k : file_ok q v di -> 0 <= k < MAXFILE * Z.of_nat BSIZE -> byte_at v' di k = byte_at v di k.
Proof.
  intros F Hk. pose proof (data_start_pos g q v G) as (D0 & D1 & D2). unfold byte_at. rewrite written_addr by done.
  destruct (Z.eqb_spec (addr_of v di (k / Z.of_nat BSIZE)) 0) as [|Hn]; [done|].
  destruct (own_range q v di _ D0 F (addr_in _ _ _ (block_range k Hk) Hn)) as (R1 & R2 & _).
  rewrite written_data; [done|lia].
Qed.

Lemma written_own di n : file_ok q v di -> own v' di n <-> own v di n.
Proof.
  intros F. unfold own. split; intros [Hn [H|(b & Hb & H)]]; (split; [done|]); [by left| |by left|];
    right; exists b; (split; [done|]); by rewrite written_addr in *.
Qed.

Lemma written_file di : file_ok q v di -> file_ok q v' di.
Proof.
  intros F. pose proof (data_start_pos g q v G) as (D0 & _). split; [apply F| | |].
  - intros n [Hr Hu]%(written_own _ _ F)%(fo_data _ _ _ F). split; [done|]. by rewrite written_used by lia.
  - intros b1 b2 H1 H2. rewrite !written_addr by done. by apply (fo_inj _ _ _ F).
  - intros b1 H1. rewrite written_addr by done. by apply (fo_ind _ _ _ F).
Qed.

Lemma written_meta : meta_used v q -> meta_used v' q.
Proof. intros Hm b Hb. rewrite written_used by (pose proof (fg_bmap _ _ _ G); lia). by apply Hm. Qed.
End metadata.

Lemma file_ok_size q v di n : file_ok q v di -> word n -> file_ok q v (di_with_size n di).
Proof. intros [F1 F2 F3 F4] Hn. split; try done. by apply wf_size. Qed.

Lemma evolves_whole q v di v' di' n : whole q v di -> evolves q v di v' di' -> di_size di' = n ->
  0 <= n <= MAXFILE * Z.of_nat BSIZE ->
  (forall k, di_size di <= k < n -> addr_of v' di' (k / Z.of_nat BSIZE) <> 0) -> whole q v' di'.
Proof.
  intros [W1 W2 W3] E Hn Hr Hnew. split; [apply E|lia|]. intros k Hk.
  destruct (decide (k < di_size di)); [|apply Hnew; lia].
  pose proof (W3 k ltac:(lia)) as Ha. rewrite (ev_addr _ _ _ _ _ E); [done|apply block_range; lia|done].
Qed.

(** A write inside the file changes no inode. *)
Lemma written_inside g s v L i ip off src s1 v1 L1 di1 :
  file_at g s v L i ip -> whole (sb s) v (i_disk ip) -> 0 <= i_inum ip < sb_ninodes (sb s) ->
  0 <= off <= di_size (i_disk ip) -> off + Z.of_nat (length src) <= di_size (i_disk ip) ->
  wrote g s v L i ip off src s1 v1 L1 di1 -> file_written g s v L i ip off src s1 v1 L1 di1.
Proof.
  intros FA W Hnum Hoff Hend [R1 R2 R3 R4 R5 Rs R6 R7 R8]. pose proof FA as [Ht G Hone Hm Hip Hdev F].
  pose proof (wh_size _ _ _ W) as Hws.
  assert (Edi : di1 = i_disk ip) by (apply Rs; intros k Hk; apply (wh_holes _ _ _ W); lia).
  split; try done.
  - apply R3.
  - lia.
  - apply (evolves_whole _ v (i_disk ip) _ _ (di_size (i_disk ip))); try done; lia.
  - apply R3.
  - pose proof (data_start_pos g _ v G) as (D0 & _). intros n Hn Hu Ho.
    split; [apply (ev_frame _ _ _ _ _ R3); try done; lia|apply (ev_used _ _ _ _ _ R3); [lia|done]].
  - apply R3.
  - intros j Hj _. by apply (evolves_inodes g _ v (i_disk ip) _ di1).
  - intros Hd. rewrite (evolves_inodes g _ v (i_disk ip) v1 di1) by done. by rewrite Edi.
  - pose proof (size_cost (sb s) L1 di1). lia.
Qed.

(** A write past the end, after [iupdate]. *)
Lemma written_longer g s v L i ip off src s1 v1 L1 di1 v2 t2 :
  let di2 := di_with_size (off + Z.of_nat (length src)) di1 in
  file_at g s v L i ip -> whole (sb s) v (i_disk ip) -> 0 <= i_inum ip < sb_ninodes (sb s) ->
  0 <= off <= di_size (i_disk ip) -> di_size (i_disk ip) < off + Z.of_nat (length src) <= MAXFILE * Z.of_nat BSIZE ->
  wrote g s v L i ip off src s1 v1 L1 di1 ->
  inode_written (sb s) v1 v2 (i_inum ip) di2 -> txn g t2 v2 ∅ ∅ ({[IBLOCK (i_inum ip) (sb s)]} ∪ L1) ->
  file_written g s v L i ip off src (with_di s t2 i ip di2) v2 ({[IBLOCK (i_inum ip) (sb s)]} ∪ L1) di2.
Proof.
  intros di2 FA W Hnum Hoff Hend [R1 R2 R3 R4 R5 Rs R6 R7 R8] Hw Ht2. pose proof FA as [Ht G Hone Hm Hip Hdev F].
  set (q := sb s) in *. pose proof (ev_file _ _ _ _ _ R3) as F1. pose proof (data_start_pos g _ v G) as (D0 & D1 & _).
  assert (G1 : fs_geo g q (length v1)) by (by rewrite (ev_length _ _ _ _ _ R3)).
  assert (Hwd : word (off + Z.of_nat (length src))) by (unfold word, MAXFILE, BSIZE in *; lia).
  pose proof (file_ok_size q v1 di1 _ F1 Hwd) as F2. fold di2 in F2.
  split; fold q.
  - by exists t2.
  - by apply (written_meta g q v1 v2 (i_inum ip) di2).
  - rewrite (iw_length _ _ _ _ _ Hw). apply R3.
  - cbn [di2 di_size di_with_size]. lia.
  - intros k Hk. rewrite (written_byte g q v1 v2 (i_inum ip) di2) by done. by apply R5.
  - split; [by apply (written_file g q v1 v2 (i_inum ip) di2)|cbn [di2 di_size di_with_size]; lia|].
    cbn [di2 di_size di_with_size]. intros k Hk. rewrite (written_addr g q v1 v2 (i_inum ip) di2) by done.
    change (addr_of v1 di2 (k / Z.of_nat BSIZE)) with (addr_of v1 di1 (k / Z.of_nat BSIZE)).
    destruct (decide (k < off)); [|apply R6; lia].
    pose proof (wh_holes _ _ _ W k ltac:(lia)) as Ha. rewrite (ev_addr _ _ _ _ _ R3); [done|apply block_range; lia|done].
  - apply R3.
  - intros n Hn Hu Ho. rewrite (written_data g q v1 v2 (i_inum ip) di2), (written_used g q v1 v2 (i_inum ip) di2) by (done || lia).
    split; [apply (ev_frame _ _ _ _ _ R3); try done; lia|apply (ev_used _ _ _ _ _ R3); [lia|done]].
  - intros n. rewrite (written_own g q v1 v2 (i_inum ip) di2) by done. apply (ev_own _ _ _ _ _ R3).
  - intros j Hj Hne. rewrite (iw_others _ _ _ _ _ Hw) by done. by apply (evolves_inodes g _ v (i_disk ip) _ di1).
  - intros _. apply Hw.
  - pose proof (size_cost q L1 di1). pose proof (size_insert_le L1 (IBLOCK (i_inum ip) q)). lia.
Qed.

Lemma wp_writei g s v L i ip off src :
  file_at g s v L i ip -> whole (sb s) v (i_disk ip) -> di_type (i_disk ip) <> T_DEV ->
  0 <= i_inum ip < sb_ninodes (sb s) -> 0 <= off <= di_size (i_disk ip) ->
  off + Z.of_nat (length src) <= MAXFILE * Z.of_nat BSIZE ->
  (cost (sb s) L (i_disk ip) + touched off (Z.of_nat (length src)) + 2 <= tg_cap g)%nat ->
  (no_ind (i_disk ip) + touched off (Z.of_nat (length src)) <= nfree v (sb s))%nat ->
  wp (writei devsw i src off) s (fun r s' => r = Z.of_nat (length src) /\
    exists v' L' di', file_written g s v L i ip off src s' v' L' di').
Proof.
  intros FA W Hty Hnum Hoff Hend Hc Hf. pose proof FA as [Ht G Hone Hm Hip Hdev F].
  unfold writei. apply wp_bind. eapply wp_geti; [exact Hip|]. rewrite (proj2 (Z.eqb_neq _ _) Hty).
  assert (Hb : MAXFILE * Z.of_nat BSIZE < 2 ^ 32) by (unfold MAXFILE, BSIZE; lia).
  rewrite u32_small by lia. rewrite (proj2 (Z.ltb_ge (di_size _) off)), (proj2 (Z.ltb_ge (off + _) off)),
    (proj2 (Z.ltb_ge (MAXFILE * _) _)) by lia. cbn [orb].
  apply wp_bind. eapply wp_mono; [by apply (wp_writei_loop _ g s v L i ip off src); [done|lia|..]; lia|].
  intros r s1 [-> (v1 & L1 & di1 & W1)]. pose proof W1 as [(t1 & -> & Ht1) R2 R3 R4 R5 Rs R6 R7 R8].
  apply wp_bind. eapply wp_geti; [apply list_lookup_insert_eq; by eapply lookup_lt_Some|].
  cbn [i_disk set_disk]. rewrite R4. pose proof (wh_size _ _ _ W) as Hws.
  destruct ((0 <? Z.of_nat (length src)) && (di_size (i_disk ip) <? off + Z.of_nat (length src))) eqn:Hcond.
  - apply andb_true_iff in Hcond as [Hp%Z.ltb_lt Hl%Z.ltb_lt]. apply wp_bind, wp_bind.
    eapply wp_setd; [apply list_lookup_insert_eq; by eapply lookup_lt_Some|].
    cbn [i_disk set_disk tx with_di]. rewrite with_di_di.
    pose proof (size_cost (sb s) L1 di1).
    eapply (wp_iupdate g _ v1 L1 i (set_disk (di_with_size (off + Z.of_nat (length src)) di1) ip)).
    + exact Ht1.
    + cbn [sb with_di]. by rewrite (ev_length _ _ _ _ _ R3).
    + apply list_lookup_insert_eq. by eapply lookup_lt_Some.
    + done.
    + done.
    + cbn [i_disk set_disk]. apply wf_size; [apply R3|unfold word; lia].
    + lia.
    + intros v2 t2 Hw Ht2. apply wp_ret. split; [done|]. eexists v2, _, _. rewrite with_di_tx.
      eapply written_longer; try done.
  - apply wp_bind, wp_ret, wp_ret. split; [done|]. exists v1, L1, di1.
    apply andb_false_iff in Hcond. rewrite !Z.ltb_ge in Hcond. apply written_inside; try done; lia.
Qed.

Lemma written_at g s v L i ip off src s' v' L' di' : file_at g s v L i ip ->
  file_written g s v L i ip off src s' v' L' di' -> file_at g s' v' L' i (set_disk di' ip).
Proof.
  intros [Ht G Hone Hm Hip Hdev F] [(t & -> & Ht') F2 F3 F4 F5 F6 F7 F8 F9 F10 F11 F12]. split; try done.
  - cbn [sb with_di]. by rewrite F3.
  - apply list_lookup_insert_eq. by eapply lookup_lt_Some.
  - apply F6.
Qed.

(** C5. What [writei] writes, [readi] reads back: after a write at an offset
    in the file or at its end, within the largest size of a file, with room
    in the log and on the disk, reading the same range gives the bytes
    written; the file is as long as before or ends with them, and every byte
    outside the range is unchanged. *)
Theorem writei_readi g s v L i ip off src :
  file_at g s v L i ip -> whole (sb s) v (i_disk ip) -> di_type (i_disk ip) <> T_DEV ->
  0 <= i_inum ip < sb_ninodes (sb s) -> 0 <= off <= di_size (i_disk ip) ->
  off + Z.of_nat (length src) <= MAXFILE * Z.of_nat BSIZE ->
  (cost (sb s) L (i_disk ip) + touched off (Z.of_nat (length src)) + 2 <= tg_cap g)%nat ->
  (no_ind (i_disk ip) + touched off (Z.of_nat (length src)) <= nfree v (sb s))%nat ->
  exists t v' L' di', writei devsw i src off s = Ret (Z.of_nat (length src)) (with_di s t i ip di') /\
    txn g t v' ∅ ∅ L' /\ whole (sb s) v' di' /\
    di_size di' = Z.max (di_size (i_disk ip)) (off + Z.of_nat (length src)) /\
    (forall k, 0 <= k < di_size (i_disk ip) -> k < off \/ off + Z.of_nat (length src) <= k ->
       byte_at v' di' k = byte_at v (i_disk ip) k) /\
    exists t', readi devsw i off (Z.of_nat (length src)) (with_di s t i ip di') =
      Ret (Some src) (with_tx (with_di s t i ip di') t').
Proof.
  intros FA W Hty Hn Hoff Hend Hc Hf. pose proof (wp_writei g s v L i ip off src FA W Hty Hn Hoff Hend Hc Hf) as H.
  apply wp_iff in H as (r & s' & E & -> & v' & L' & di' & F). pose proof (written_at _ _ _ _ _ _ _ _ _ _ _ _ FA F) as FA'.
  pose proof F as [(t & -> & Ht) F2 F3 F4 F5 F6 (F7 & _) F8 F9 F10 F11 F12]. exists t, v', L', di'.
  pose proof (wh_size _ _ _ W). assert (MAXFILE * Z.of_nat BSIZE < 2 ^ 32) by (unfold MAXFILE, BSIZE; lia).
  split; [done|]. split; [done|]. split; [done|]. split; [done|]. split.
  { intros k Hk Hout. rewrite F5 by lia. unfold over. by rewrite decide_False by lia. }
  assert (Hr : wp (readi devsw i off (Z.of_nat (length src))) (with_di s t i ip di') (fun r s' =>
    r = read_result v' di' off (Z.of_nat (length src)) /\ exists t', s' = with_tx (with_di s t i ip di') t' /\ txn g t' v' ∅ ∅ L')).
  { apply (wp_readi g (with_di s t i ip di') v' L' i (set_disk di' ip)); try done; try lia. cbn. by rewrite F7. }
  apply wp_iff in Hr as (r & s2 & E2 & -> & t' & -> & _). exists t'. rewrite E2. f_equal. unfold read_result.
  rewrite decide_True, Z.min_l by lia. f_equal. apply list_eq_same_length with (length src); [done|by rewrite length_fmap, length_seqZ, Nat2Z.id|].
  intros k x y Hk Hx Hy. rewrite list_lookup_fmap, lookup_seqZ_lt in Hx by lia. injection Hx as <-.
  rewrite F5 by lia. unfold over. rewrite decide_True by lia. replace (at_ (off + Z.of_nat k - off)) with k by lia. by rewrite Hy.
Qed.

(** C10. [writei] never writes outside the bounds of a file: at an offset past
    the end of the file, with an offset and a length that overflow 32 bits,
    or past the largest size of a file, it returns [-1] and changes nothing. *)
Theorem writei_bounds s i ip off src :
  icache s !! i = Some ip -> di_type (i_disk ip) <> T_DEV -> 0 <= off < 2 ^ 32 -> Z.of_nat (length src) < 2 ^ 32 ->
  di_size (i_disk ip) < off \/ MAXFILE * Z.of_nat BSIZE < off + Z.of_nat (length src) ->
  writei devsw i src off s = Ret (-1) s.
Proof.
  intros Hi Hty Hoff Hl Hout. assert (H : wp (writei devsw i src off) s (fun r s' => r = -1 /\ s' = s)).
  { unfold writei. apply wp_bind. eapply wp_geti; [exact Hi|]. rewrite (proj2 (Z.eqb_neq _ _) Hty).
    destruct (Z.ltb_spec (di_size (i_disk ip)) off); cbn [orb]; [by apply wp_ret|].
    destruct (decide (off + Z.of_nat (length src) < 2 ^ 32)) as [Hs|Hs].
    - rewrite u32_small by lia. rewrite (proj2 (Z.ltb_ge (off + _) off)), (proj2 (Z.ltb_lt (MAXFILE * _) _)) by lia. by apply wp_ret.
    - rewrite (proj2 (Z.ltb_lt (u32 _) off)); [by apply wp_ret|]. unfold u32.
      rewrite (Z.mod_eq _ (2 ^ 32)) by done. assert ((off + Z.of_nat (length src)) / 2 ^ 32 = 1); [|lia].
      symmetry. apply Z.div_unique with (off + Z.of_nat (length src) - 2 ^ 32); lia. }
  apply wp_iff in H as (r & s' & E & -> & ->). done.
Qed.
End rw.
