(* ===== verification/FsDir.v ===== *)
(** * Correctness of directories ([dirlookup], [dirlink] of [kernel/fs.c])

    A directory is a file of entries, and stands for a partial map from names
    to inode numbers.  A name is at most 14 bytes; longer ones are cut.
    [dirlookup] looks a name up and [dirlink] adds one. *)

From S2P Require Import Prelude CStr Mem BufIface Lock Txn Fs FsAlloc FsInode FsData.

(** ** Names *)

(** The name in a buffer of [DIRSIZ] bytes or in a terminated string. *)
Definition dname (l : list Z) : list Z := upto_nul (take DIRSIZ l).

(** [strncmp] does not read past the end of the buffer. *)
Definition readable (n : nat) (l : list Z) : Prop := (n <= length l)%nat \/ 0 ∈ take n l.

Lemma upto_nul_length l : (length (upto_nul l) <= length l)%nat.
Proof. induction l as [|c l IH]; simpl; [lia|]. destruct (c =? 0); simpl; lia. Qed.

Lemma readable_tail n c l : readable (S n) (c :: l) -> c <> 0 -> readable n l.
Proof.
  intros [H|H] Hc; [left; simpl in H; lia|]. right. cbn [take] in H. by apply elem_of_cons in H as [?|?].
Qed.

Lemma strncmp_zero n p q : readable n p -> readable n q ->
  exists c, strncmp p q n = Some c /\ (c = 0 <-> upto_nul (take n p) = upto_nul (take n q)).
Proof.
  revert p q. induction n as [|n IH]; intros p q Hp Hq; [exists 0; by destruct p|].
  destruct p as [|a p]; [destruct Hp as [Hp|Hp]; [simpl in Hp; lia|by apply elem_of_nil in Hp]|].
  destruct q as [|b q]; [destruct Hq as [Hq|Hq]; [simpl in Hq; lia|by apply elem_of_nil in Hq]|].
  cbn [strncmp take upto_nul]. destruct (Z.eqb_spec a 0) as [->|Ha]; cbn [negb andb].
  - exists (0 - b). split; [done|]. destruct (Z.eqb_spec b 0) as [->|Hb]; [split; done|]. split; [lia|done].
  - destruct (Z.eqb_spec a b) as [<-|Hab].
    + rewrite (proj2 (Z.eqb_neq a 0)) by done.
      destruct (IH p q) as (c & E & Hc).
      { by eapply readable_tail. }
      { by eapply readable_tail. }
      exists c. split; [done|]. rewrite Hc. split; [by intros ->|by intros [= ->]].
    + exists (a - b). split; [done|]. split; [lia|]. destruct (Z.eqb_spec b 0); [done|]. by intros [= ->].
Qed.

(** What [strncpy] leaves in the buffer: the name, padded with zeros. *)
Definition padded (n : nat) (l : list Z) : list Z := take n (upto_nul (take n l) ++ replicate n 0).

Lemma padded_length n l : length (padded n l) = n.
Proof. unfold padded. rewrite length_take, length_app, length_replicate. lia. Qed.

Lemma padded_step n c l : c <> 0 -> padded (S n) (c :: l) = c :: padded n l.
Proof.
  intros Hc. unfold padded. cbn [take upto_nul]. rewrite (proj2 (Z.eqb_neq c 0)) by done. cbn [app take]. f_equal.
  assert (Hle : (length (upto_nul (take n l)) <= n)%nat).
  { etrans; [apply upto_nul_length|]. rewrite length_take. lia. }
  rewrite !take_app_ge, !take_replicate by done. do 2 f_equal. lia.
Qed.

Lemma strncpy_padded d i l n : (i + n <= length d)%nat -> readable n l ->
  strncpy d i l n = Some (splice d i (padded n l)).
Proof.
  revert d i l. induction n as [|n IH]; intros d i l Hi Hl; [change (padded 0 l) with (@nil Z); rewrite splice_nil; by destruct l|].
  destruct l as [|c l]; [destruct Hl as [Hl|Hl]; [simpl in Hl; lia|by apply elem_of_nil in Hl]|].
  cbn [strncpy]. rewrite store_in by lia. cbn [mbind option_bind]. destruct (Z.eqb_spec c 0) as [->|Hc].
  - rewrite zerofill_splice, splice_cons by (rewrite ?length_insert; lia). do 2 f_equal. unfold padded. cbn [take upto_nul Z.eqb app].
    by rewrite take_replicate, Nat.min_id.
  - rewrite IH, splice_cons, padded_step by (rewrite ?length_insert; eauto using readable_tail; lia). done.
Qed.

Lemma upto_nul_all l : nonul l -> upto_nul l = l.
Proof. induction 1 as [|c l Hc _ IH]; simpl; [done|]. bsplit; [done|]. by rewrite IH. Qed.

Lemma upto_nul_zeros l n : nonul l -> upto_nul (take (length l + n) (l ++ replicate n 0)) = l.
Proof.
  intros Hl. rewrite take_ge by (rewrite length_app, length_replicate; lia). destruct n; [|by apply upto_nul_app].
  rewrite app_nil_r. by apply upto_nul_all.
Qed.

(** A name is read back from the buffer it was copied to. *)
Lemma upto_padded n l : upto_nul (take n (padded n l)) = upto_nul (take n l).
Proof.
  assert (Hle : (length (upto_nul (take n l)) <= n)%nat).
  { etrans; [apply upto_nul_length|]. rewrite length_take. lia. }
  unfold padded. rewrite take_take, Nat.min_id, take_app_ge, take_replicate by done.
  pose proof (upto_nul_zeros (upto_nul (take n l)) (n - length (upto_nul (take n l))) (upto_nul_nonul _)) as E.
  rewrite take_ge in E by (rewrite length_app, length_replicate; lia).
  by replace ((n - length (upto_nul (take n l))) `min` n)%nat with (n - length (upto_nul (take n l)))%nat by lia.
Qed.

(** ** Entries *)

Definition raw_entry (v : list block) (di : dinode) (off : Z) : list Z := byte_at v di <$> seqZ off DESIZE.
Definition entry_inum v di off : Z := le_value (take 2 (raw_entry v di off)).
Definition entry_name v di off : list Z := dname (drop 2 (raw_entry v di off)).

(** The inode number of an entry that is in use and has the name. *)
Definition hit (v : list block) (di : dinode) (name : list Z) (off : Z) : option Z :=
  if decide (entry_inum v di off <> 0 /\ entry_name v di off = dname name)
  then Some (entry_inum v di off) else None.

(** The first of the [n] entries from [off] on that has the name. *)
Fixpoint find_from (v : list block) (di : dinode) (name : list Z) (n : nat) (off : Z) : option (Z * Z) :=
  match n with
  | O => None
  | S n' =>
      match hit v di name off with
      | Some inum => Some (off, inum)
      | None => find_from v di name n' (off + DESIZE)
      end
  end.

Definition dir_find (v : list block) (di : dinode) (name : list Z) : option (Z * Z) :=
  find_from v di name (at_ (di_size di / DESIZE)) 0.

(** A directory without holes, a whole number of entries long. *)
Record dir_ok (q : superblock) (v : list block) (di : dinode) : Prop := {
  do_whole : whole q v di;
  do_type : di_type di = T_DIR;
  do_size : di_size di mod DESIZE = 0
}.

Lemma raw_entry_length v di off : length (raw_entry v di off) = 16%nat.
Proof. unfold raw_entry. rewrite length_fmap, length_seqZ. done. Qed.

Lemma dir_count q v di : dir_ok q v di -> DESIZE * Z.of_nat (at_ (di_size di / DESIZE)) = di_size di.
Proof.
  intros [W _ Hm]. pose proof (wh_size _ _ _ W) as Hs. pose proof (Z.div_mod (di_size di) DESIZE ltac:(done)).
  assert (0 <= di_size di / DESIZE) by (apply Z.div_pos; unfold DESIZE; lia). rewrite Z2Nat.id by done. lia.
Qed.

Section dir.
Context {T : Type} {ops : TxnOps T} {tv : TxnView T} {laws : TxnLaws T}.
Implicit Types (s : fs T) (t : T) (v : list block) (L : gset Z) (g : tgeo) (ip : inode).
Variable devsw : list (driver (T := T)).

Lemma file_at_tx g s v L i ip t : file_at g s v L i ip -> txn g t v ∅ ∅ L -> file_at g (with_tx s t) v L i ip.
Proof. intros [Ht G Hone Hm Hip Hdev F] Ht'. by split. Qed.

Lemma wp_read_dirent g s v L i ip off msg (Q : Z * list Z -> fs T -> Prop) :
  file_at g s v L i ip -> dir_ok (sb s) v (i_disk ip) -> 0 <= off -> off + DESIZE <= di_size (i_disk ip) ->
  (forall t, txn g t v ∅ ∅ L ->
    Q (entry_inum v (i_disk ip) off, drop 2 (raw_entry v (i_disk ip) off)) (with_tx s t)) ->
  wp (read_dirent devsw i off msg) s Q.
Proof.
  intros FA [W Hty Hsz] H0 Hend HQ. pose proof (wh_size _ _ _ W) as Hws. unfold read_dirent.
  assert (MAXFILE * Z.of_nat BSIZE < 2 ^ 32) by (unfold MAXFILE, BSIZE; lia).
  apply wp_bind. eapply wp_mono; [apply (wp_readi devsw g s v L i ip off DESIZE FA W)|].
  - rewrite Hty. done.
  - unfold DESIZE in *. lia.
  - unfold DESIZE. lia.
  - intros r s' [-> (t & -> & Ht)]. unfold read_result. rewrite decide_True by (unfold DESIZE in *; lia).
    replace (Z.min DESIZE (di_size (i_disk ip) - off)) with DESIZE by lia.
    fold (raw_entry v (i_disk ip) off). rewrite raw_entry_length. cbn [Z.eqb Z.of_nat Pos.of_succ_nat DESIZE Pos.succ Pos.eqb].
    apply wp_bind. eapply wp_lift; [apply load_in; rewrite raw_entry_length; lia|]. apply wp_ret. rewrite drop_0.
    by apply HQ.
Qed.

(** What [dirlookup] does, when the search finds [r]. *)
Definition looked_up g s v L (r : option (Z * Z)) (res : option (nat * Z)) (s' : fs T) : Prop :=
  exists t, txn g t v ∅ ∅ L /\
  match r with
  | None => res = None /\ s' = with_tx s t
  | Some (off, inum) =>
      exists j l, res = Some (j, off) /\ got ROOTDEV inum (icache s) j l /\ s' = with_ic (with_tx s t) l
  end.

Lemma wp_dirlookup_loop fuel g s v L i ip name n off :
  file_at g s v L i ip -> dir_ok (sb s) v (i_disk ip) -> readable DIRSIZ name -> room_for_inode s ->
  0 <= off -> off + DESIZE * Z.of_nat n = di_size (i_disk ip) -> (n < fuel)%nat ->
  wp (dirlookup_loop devsw fuel i name off) s (looked_up g s v L (find_from v (i_disk ip) name n off)).
Proof.
  intros FA D Hn Hr. revert s off n FA D Hr. induction fuel as [|fuel IH]; intros s off n FA D Hr H0 Hend Hf; [lia|].
  pose proof (fa_inode _ _ _ _ _ _ FA) as Hip. cbn [dirlookup_loop]. apply wp_bind. eapply wp_geti; [exact Hip|].
  destruct n as [|n]; cbn [find_from].
  { rewrite (proj2 (Z.ltb_ge _ _)) by lia. apply wp_ret. exists (tx s). rewrite with_tx_tx. split; [apply FA|done]. }
  rewrite (proj2 (Z.ltb_lt _ _)) by (unfold DESIZE in *; lia).
  apply wp_bind. eapply wp_read_dirent; [exact FA|exact D|done|unfold DESIZE in *; lia|]. intros t Ht. cbn [fst snd].
  assert (Hrec : wp (dirlookup_loop devsw fuel i name (off + DESIZE)) (with_tx s t)
            (looked_up g s v L (find_from v (i_disk ip) name n (off + DESIZE)))).
  { eapply wp_mono; [apply (IH (with_tx s t) (off + DESIZE) n)|].
    - by apply file_at_tx.
    - done.
    - done.
    - unfold DESIZE in *. lia.
    - unfold DESIZE in *. lia.
    - lia.
    - intros r s' (t' & Ht' & Hres). exists t'. split; [done|]. exact Hres. }
  destruct (Z.eqb_spec (entry_inum v (i_disk ip) off) 0) as [E0|E0].
  { unfold hit. rewrite decide_False by naive_solver. exact Hrec. }
  destruct (strncmp_zero DIRSIZ name (drop 2 (raw_entry v (i_disk ip) off)) Hn) as (c & Ec & Hc).
  { left. rewrite length_drop, raw_entry_length. unfold DIRSIZ. lia. }
  apply wp_bind. unfold namecmp. eapply wp_lift; [exact Ec|].
  fold (dname name) (dname (drop 2 (raw_entry v (i_disk ip) off))) in Hc. fold (entry_name v (i_disk ip) off) in Hc.
  destruct (Z.eqb_spec c 0) as [->|Hc0].
  - unfold hit. rewrite decide_True by (split; [done|symmetry; by apply Hc]). apply wp_bind.
    rewrite (fa_dev _ _ _ _ _ _ FA). apply wp_iget; [done|]. intros j l Hg. apply wp_ret.
    exists t. split; [done|]. by exists j, l.
  - unfold hit. rewrite decide_False by (intros [_ Heq]; apply Hc0, Hc; by symmetry). exact Hrec.
Qed.

Lemma wp_dirlookup g s v L i ip name :
  file_at g s v L i ip -> dir_ok (sb s) v (i_disk ip) -> readable DIRSIZ name -> room_for_inode s ->
  wp (dirlookup devsw i name) s (looked_up g s v L (dir_find v (i_disk ip) name)).
Proof.
  intros FA D Hn Hr. unfold dirlookup. apply wp_bind. eapply wp_geti; [apply FA|].
  rewrite (do_type _ _ _ D), Z.eqb_refl. cbn [negb]. pose proof (dir_count _ _ _ D) as Hc.
  eapply wp_dirlookup_loop; try done; unfold DESIZE in *; lia.
Qed.
End dir.

(** ** The map of names after an entry is written *)

(** The first of the [n] entries from [off] on that is not in use, or the
    offset after them. *)
Fixpoint slot_from (v : list block) (di : dinode) (n : nat) (off : Z) : Z :=
  match n with
  | O => off
  | S n' => if entry_inum v di off =? 0 then off else slot_from v di n' (off + DESIZE)
  end.

Definition dir_slot (v : list block) (di : dinode) : Z := slot_from v di (at_ (di_size di / DESIZE)) 0.

Lemma slot_from_spec v di n off :
  exists k, (k <= n)%nat /\ slot_from v di n off = off + DESIZE * Z.of_nat k /\
    ((k < n)%nat -> entry_inum v di (off + DESIZE * Z.of_nat k) = 0).
Proof.
  revert off. induction n as [|n IH]; intros off; cbn [slot_from]; [exists 0%nat; split_and!; lia|].
  destruct (Z.eqb_spec (entry_inum v di off) 0) as [E|E].
  - exists 0%nat. split_and!; [lia|lia|]. intros _. by replace (off + DESIZE * Z.of_nat 0) with off by lia.
  - destruct (IH (off + DESIZE)) as (k & Hk & -> & Hz). exists (S k).
    replace (off + DESIZE * Z.of_nat (S k)) with (off + DESIZE + DESIZE * Z.of_nat k) by lia.
    split_and!; [lia|done|]. intros. apply Hz. lia.
Qed.

Lemma find_from_first v di name n off k inum :
  (k < n)%nat -> (forall j, (j < k)%nat -> hit v di name (off + DESIZE * Z.of_nat j) = None) ->
  hit v di name (off + DESIZE * Z.of_nat k) = Some inum ->
  find_from v di name n off = Some (off + DESIZE * Z.of_nat k, inum).
Proof.
  revert off k. induction n as [|n IH]; intros off k Hk Hno Hhit; [lia|]. cbn [find_from]. destruct k as [|k].
  - replace (off + DESIZE * Z.of_nat 0) with off in * by lia. by rewrite Hhit.
  - specialize (Hno O ltac:(lia)) as H0. replace (off + DESIZE * Z.of_nat 0) with off in H0 by lia. rewrite H0.
    replace (off + DESIZE * Z.of_nat (S k)) with (off + DESIZE + DESIZE * Z.of_nat k) in * by lia.
    apply IH; [lia| |done]. intros j Hj. specialize (Hno (S j) ltac:(lia)).
    by replace (off + DESIZE * Z.of_nat (S j)) with (off + DESIZE + DESIZE * Z.of_nat j) in Hno by lia.
Qed.

Lemma find_from_none v di name n off :
  find_from v di name n off = None <-> forall j, (j < n)%nat -> hit v di name (off + DESIZE * Z.of_nat j) = None.
Proof.
  revert off. induction n as [|n IH]; intros off; cbn [find_from]; [split; [lia|done]|].
  destruct (hit v di name off) as [m|] eqn:E.
  - split; [done|]. intros H. specialize (H O ltac:(lia)). replace (off + DESIZE * Z.of_nat 0) with off in H by lia. congruence.
  - rewrite IH. split; intros H j Hj.
    + destruct j as [|j]; [by replace (off + DESIZE * Z.of_nat 0) with off by lia|].
      replace (off + DESIZE * Z.of_nat (S j)) with (off + DESIZE + DESIZE * Z.of_nat j) by lia. apply H. lia.
    + replace (off + DESIZE + DESIZE * Z.of_nat j) with (off + DESIZE * Z.of_nat (S j)) by lia. apply H. lia.
Qed.

Lemma find_from_ext v di v' di' name n off :
  (forall j, (j < n)%nat -> hit v' di' name (off + DESIZE * Z.of_nat j) = hit v di name (off + DESIZE * Z.of_nat j)) ->
  find_from v' di' name n off = find_from v di name n off.
Proof.
  revert off. induction n as [|n IH]; intros off H; [done|]. cbn [find_from].
  pose proof (H O ltac:(lia)) as H0. replace (off + DESIZE * Z.of_nat 0) with off in H0 by lia. rewrite H0.
  destruct (hit v di name off); [done|]. apply IH. intros j Hj.
  replace (off + DESIZE + DESIZE * Z.of_nat j) with (off + DESIZE * Z.of_nat (S j)) by lia. apply H. lia.
Qed.

Lemma find_from_snoc v di name n off :
  hit v di name (off + DESIZE * Z.of_nat n) = None -> find_from v di name (S n) off = find_from v di name n off.
Proof.
  revert off. induction n as [|n IH]; intros off H.
  - cbn [find_from]. replace (off + DESIZE * Z.of_nat 0) with off in H by lia. by rewrite H.
  - cbn [find_from]. destruct (hit v di name off); [done|]. apply IH.
    by replace (off + DESIZE + DESIZE * Z.of_nat n) with (off + DESIZE * Z.of_nat (S n)) by lia.
Qed.

(** The bytes of an entry. *)
Definition entry_bytes (inum : Z) (name : list Z) : list Z := le_bytes 2 inum ++ padded DIRSIZ name.

Lemma entry_bytes_length inum name : length (entry_bytes inum name) = 16%nat.
Proof. unfold entry_bytes. by rewrite length_app, le_bytes_length, padded_length. Qed.

(** [v'] and [di'] differ from [v] and [di] by the entry at [off]. *)
Definition entry_set (v : list block) (di : dinode) (off inum : Z) (name : list Z) (v' : list block) (di' : dinode) : Prop :=
  forall k, 0 <= k < MAXFILE * Z.of_nat BSIZE -> byte_at v' di' k = over v di off (entry_bytes inum name) k.

Lemma entry_same v di off inum name v' di' k : entry_set v di off inum name v' di' ->
  0 <= k -> 0 <= off -> off mod DESIZE = 0 -> k mod DESIZE = 0 -> k <> off -> k + DESIZE <= MAXFILE * Z.of_nat BSIZE ->
  raw_entry v' di' k = raw_entry v di k.
Proof.
  intros He Hk Hoff Mo Mk Hne Hend. unfold raw_entry. apply list_fmap_ext. intros j b Hj.
  apply lookup_seqZ in Hj as [-> Hj]. rewrite He by (unfold DESIZE in *; lia). unfold over. rewrite decide_False; [done|].
  rewrite entry_bytes_length. apply Z.mod_divide in Mo as [a ->], Mk as [c ->]; try (unfold DESIZE; lia).
  unfold DESIZE in *. lia.
Qed.

Lemma entry_here v di off inum name v' di' : entry_set v di off inum name v' di' -> 0 <= off ->
  off + DESIZE <= MAXFILE * Z.of_nat BSIZE -> raw_entry v' di' off = entry_bytes inum name.
Proof.
  intros He H0 Hend. apply list_eq_same_length with 16%nat; [by rewrite entry_bytes_length|by rewrite raw_entry_length|].
  intros j x y Hj Hx Hy. unfold raw_entry in Hx. rewrite list_lookup_fmap, lookup_seqZ_lt in Hx by (unfold DESIZE; lia).
  injection Hx as <-. rewrite He by (unfold DESIZE in *; lia). unfold over.
  rewrite entry_bytes_length, decide_True by (unfold DESIZE in *; lia).
  replace (Z.to_nat (off + Z.of_nat j - off)) with j by lia. by rewrite Hy.
Qed.

Lemma entry_here_hit v di off inum name v' di' other : entry_set v di off inum name v' di' -> 0 <= off ->
  off + DESIZE <= MAXFILE * Z.of_nat BSIZE -> 0 < inum < 65536 ->
  hit v' di' other off = if decide (dname name = dname other) then Some inum else None.
Proof.
  intros He H0 Hend Hi. unfold hit, entry_inum, entry_name. rewrite (entry_here _ _ _ _ _ _ _ He H0 Hend).
  unfold entry_bytes. rewrite take_app_length', drop_app_length' by (by rewrite le_bytes_length).
  rewrite le_value_bytes, Z.mod_small by (simpl; lia). rewrite (upto_padded DIRSIZ name : dname (padded DIRSIZ name) = dname name).
  destruct (decide (dname name = dname other)) as [E|E].
  - by rewrite decide_True by (split; [lia|done]).
  - by rewrite decide_False by naive_solver.
Qed.

(** Writing an entry for a new name in a free slot adds it to the map, and
    changes no other name. *)
Lemma dir_find_set q v di inum name v' di' other :
  dir_ok q v di -> entry_set v di (dir_slot v di) inum name v' di' -> 0 < inum < 65536 ->
  dir_slot v di + DESIZE <= MAXFILE * Z.of_nat BSIZE ->
  di_size di' = Z.max (di_size di) (dir_slot v di + DESIZE) -> dir_find v di name = None ->
  dir_find v' di' other =
    if decide (dname name = dname other) then Some (dir_slot v di, inum) else dir_find v di other.
Proof.
  intros D He Hi Hend Hsz Hno. pose proof (dir_count _ _ _ D) as Hn. unfold dir_find, dir_slot in *.
  set (n := at_ (di_size di / DESIZE)) in *. destruct (slot_from_spec v di n 0) as (k & Hk & Es & Hz).
  rewrite Es in *. rewrite Z.add_0_l in *. set (off := DESIZE * Z.of_nat k) in *.
  assert (Hoff : 0 <= off /\ off mod DESIZE = 0).
  { split; [unfold off, DESIZE; lia|]. unfold off. rewrite Z.mul_comm. apply Z.mod_mul. done. }
  assert (Hsame : forall j nm, (j < n)%nat -> j <> k -> hit v' di' nm (0 + DESIZE * Z.of_nat j) = hit v di nm (0 + DESIZE * Z.of_nat j)).
  { intros j nm Hj Hne. unfold hit, entry_inum, entry_name. pose proof (wh_size _ _ _ (do_whole _ _ _ D)).
    rewrite (entry_same _ _ _ _ _ _ _ _ He); [done|..]; unfold off, DESIZE in *; try lia.
    rewrite Z.add_0_l, Z.mul_comm. by apply Z.mod_mul. }
  pose proof (entry_here_hit _ _ _ _ _ _ _ other He (proj1 Hoff) Hend Hi) as Hhere.
  assert (Hn' : at_ (di_size di' / DESIZE) = Nat.max n (S k)).
  { rewrite Hsz, <- Hn. unfold off. replace (DESIZE * Z.of_nat k + DESIZE) with (DESIZE * Z.of_nat (S k)) by (unfold DESIZE; lia).
    rewrite Z.mul_max_distr_nonneg_l by done. rewrite (Z.mul_comm DESIZE), Z.div_mul by done. lia. }
  rewrite Hn'. destruct (decide (dname name = dname other)) as [E|E].
  - replace off with (0 + DESIZE * Z.of_nat k) in Hhere |- * by (unfold off; lia). apply find_from_first; [lia| |done].
    intros j Hj. rewrite Hsame by lia. assert (hit v di name = hit v di other) as <- by (unfold hit; by rewrite E).
    rewrite find_from_none in Hno. apply Hno. lia.
  - assert (Hold : (k < n)%nat -> hit v di other (0 + DESIZE * Z.of_nat k) = None).
    { intros Hkn. unfold hit. rewrite decide_False; [done|]. intros [H _]. apply H. by apply Hz. }
    destruct (decide (k < n)%nat) as [Hkn|Hkn].
    + rewrite Nat.max_l by lia. apply find_from_ext. intros j Hj. destruct (decide (j = k)) as [->|Hne]; [|by apply Hsame].
      rewrite Hold by done. exact Hhere.
    + replace (n `max` S k)%nat with (S n) by lia. assert (k = n) as -> by lia.
      rewrite find_from_snoc by exact Hhere. apply find_from_ext. intros j Hj. apply Hsame; lia.
Qed.

Section link.
Context {T : Type} {ops : TxnOps T} {tv : TxnView T} {laws : TxnLaws T}.
Implicit Types (s : fs T) (t : T) (v : list block) (L : gset Z) (g : tgeo) (ip : inode).
Variable devsw : list (driver (T := T)).

Lemma wp_dirlink_loop fuel g s v L i ip n off (Q : Z -> fs T -> Prop) :
  file_at g s v L i ip -> dir_ok (sb s) v (i_disk ip) ->
  0 <= off -> off + DESIZE * Z.of_nat n = di_size (i_disk ip) -> (n < fuel)%nat ->
  (forall t, txn g t v ∅ ∅ L -> Q (slot_from v (i_disk ip) n off) (with_tx s t)) ->
  wp (dirlink_loop devsw fuel i off) s Q.
Proof.
  revert s off n. induction fuel as [|fuel IH]; intros s off n FA D H0 Hend Hf HQ; [lia|].
  cbn [dirlink_loop]. apply wp_bind. eapply wp_geti; [apply FA|]. destruct n as [|n]; cbn [slot_from] in HQ.
  { rewrite (proj2 (Z.ltb_ge _ _)) by lia. apply wp_ret. rewrite <- (with_tx_tx s). apply HQ, FA. }
  rewrite (proj2 (Z.ltb_lt _ _)) by (unfold DESIZE in *; lia).
  apply wp_bind. eapply wp_read_dirent; [exact FA|exact D|done|unfold DESIZE in *; lia|]. intros t Ht. cbn [fst snd].
  destruct (entry_inum v (i_disk ip) off =? 0); [apply wp_ret; by apply HQ|].
  apply (IH (with_tx s t) (off + DESIZE) n); [by apply file_at_tx|done|unfold DESIZE in *; lia|unfold DESIZE in *; lia|lia|].
  intros t' Ht'. by apply (HQ t').
Qed.

(** What [dirlink] does when the name is new. *)
Definition linked g s v L i ip (name : list Z) (inum : Z) (s' : fs T) v' L' (di' : dinode) : Prop :=
  file_written g s v L i ip (dir_slot v (i_disk ip)) (entry_bytes inum name) s' v' L' di'.

(** There is room for the entry: in the log, on the disk and in the file. *)
Record link_room g s v L ip : Prop := {
  lr_inum : 0 <= i_inum ip < sb_ninodes (sb s);
  lr_size : di_size (i_disk ip) + DESIZE <= MAXFILE * Z.of_nat BSIZE;
  lr_log : (cost (sb s) L (i_disk ip) + 3 <= tg_cap g)%nat;
  lr_free : (no_ind (i_disk ip) + 1 <= nfree v (sb s))%nat
}.

Lemma dir_slot_range q v di : dir_ok q v di -> 0 <= dir_slot v di <= di_size di /\ dir_slot v di mod DESIZE = 0.
Proof.
  intros D. pose proof (dir_count _ _ _ D) as Hn. unfold dir_slot.
  destruct (slot_from_spec v di (at_ (di_size di / DESIZE)) 0) as (k & Hk & -> & _). rewrite Z.add_0_l.
  split; [unfold DESIZE in *; lia|]. rewrite Z.mul_comm. by apply Z.mod_mul.
Qed.

Lemma touched_entry off : 0 <= off -> off mod DESIZE = 0 -> touched off (Z.of_nat 16) = 1%nat.
Proof.
  intros H0 Hm. apply Z.mod_divide in Hm as [a ->]; [|done]. unfold touched, BSIZE.
  change (Z.of_nat 16) with 16. change (Z.of_nat 512) with (16 * 32). unfold DESIZE. cbn [Z.leb Z.compare].
  rewrite <- !Z.div_div by lia. rewrite Z.div_mul by lia. replace (a * 16 + 16 - 1) with (15 + a * 16) by lia.
  rewrite Z.div_add, (Z.div_small 15) by lia. rewrite Z.add_0_l. lia.
Qed.

Lemma wp_dirlink_new g s v L i ip name inum :
  file_at g s v L i ip -> dir_ok (sb s) v (i_disk ip) -> readable DIRSIZ name -> room_for_inode s ->
  link_room g s v L ip -> dir_find v (i_disk ip) name = None ->
  wp (dirlink devsw i name inum) s (fun r s' => r = 0 /\ exists v' L' di', linked g s v L i ip name inum s' v' L' di').
Proof.
  intros FA D Hn Hr [Hnum Hsz Hlog Hfree] Hno. unfold dirlink. apply wp_bind.
  eapply wp_mono; [by eapply wp_dirlookup|]. intros r s1 (t1 & Ht1 & Hres). rewrite Hno in Hres. destruct Hres as [-> ->].
  pose proof (file_at_tx _ _ _ _ _ _ _ FA Ht1) as FA1. apply wp_bind. eapply wp_geti; [apply FA1|].
  pose proof (dir_count _ _ _ D) as Hc. pose proof (dir_slot_range _ _ _ D) as [Hs Hsm].
  apply wp_bind. eapply (wp_dirlink_loop _ _ _ _ _ _ _ (at_ (di_size (i_disk ip) / DESIZE)));
    [exact FA1|exact D|lia|lia|unfold DESIZE in *; lia|]. intros t2 Ht2. fold (dir_slot v (i_disk ip)).
  apply wp_bind. eapply wp_lift; [apply strncpy_padded; [by rewrite length_replicate|done]|].
  rewrite splice_whole by (by rewrite padded_length, length_replicate). fold (entry_bytes inum name).
  pose proof (touched_entry _ (proj1 Hs) Hsm) as Ht.
  apply wp_bind. eapply wp_mono; [eapply (wp_writei devsw g)|].
  - by apply file_at_tx.
  - apply D.
  - by rewrite (do_type _ _ _ D).
  - done.
  - done.
  - rewrite entry_bytes_length. unfold DESIZE in *. lia.
  - rewrite entry_bytes_length, Ht. cbn. lia.
  - rewrite entry_bytes_length, Ht. cbn. lia.
  - intros r s3 [-> (v' & L' & di' & W)]. rewrite entry_bytes_length. cbn [negb Z.eqb Z.of_nat Pos.of_succ_nat Pos.succ DESIZE Pos.eqb].
    apply wp_ret. split; [done|]. exists v', L', di'. destruct W. by split.
Qed.

Lemma linked_dir g s v L i ip name inum s' v' L' di' :
  dir_ok (sb s) v (i_disk ip) -> linked g s v L i ip name inum s' v' L' di' -> dir_ok (sb s) v' di'.
Proof.
  intros D W. pose proof W as [_ _ _ F4 _ F6 (F7 & _) _ _ _ _ _].
  split; [exact F6|by rewrite F7, (do_type _ _ _ D)|]. rewrite F4, entry_bytes_length.
  pose proof (dir_slot_range _ _ _ D) as [_ Hm]. pose proof (do_size _ _ _ D) as Hs.
  destruct (Z.max_spec (di_size (i_disk ip)) (dir_slot v (i_disk ip) + Z.of_nat 16)) as [[_ ->]|[_ ->]]; [|done].
  rewrite Z.add_mod, Hm by done. done.
Qed.

(** C7. [dirlink] of a new name adds exactly that name: afterwards the
    directory gives the inode number for the name (cut to 14 bytes) and the
    same answer as before for every other name, and is still well formed. *)
Theorem dirlink_adds g s v L i ip name inum :
  file_at g s v L i ip -> dir_ok (sb s) v (i_disk ip) -> readable DIRSIZ name -> room_for_inode s ->
  link_room g s v L ip -> 0 < inum < 65536 -> dir_find v (i_disk ip) name = None ->
  exists t v' L' di', dirlink devsw i name inum s = Ret 0 (with_di s t i ip di') /\ txn g t v' ∅ ∅ L' /\
    dir_ok (sb s) v' di' /\
    forall other, dir_find v' di' other =
      if decide (dname name = dname other) then Some (dir_slot v (i_disk ip), inum) else dir_find v (i_disk ip) other.
Proof.
  intros FA D Hn Hr LR Hi Hno. pose proof (wp_dirlink_new _ _ _ _ _ _ name inum FA D Hn Hr LR Hno) as H.
  apply wp_iff in H as (r & s' & E & -> & v' & L' & di' & W). pose proof (linked_dir _ _ _ _ _ _ _ _ _ _ _ _ D W) as D'.
  pose proof (dir_slot_range _ _ _ D) as [Hs _]. destruct LR as [_ Hsz _ _].
  pose proof W as [(t & -> & Ht) _ _ F4 F5 _ _ _ _ _ _ _]. exists t, v', L', di'. split; [done|]. split; [done|]. split; [done|].
  intros other. eapply dir_find_set; try done; [unfold DESIZE in *; lia|]. by rewrite F4, entry_bytes_length.
Qed.

(** Linking a name that the directory has for itself, such as [.], puts
    the process to sleep on the lock it holds: [dirlink] gives back the inode
    it found with [iput], which takes the lock of the inode. *)
Theorem dirlink_dot_sleeps g s v L i ip name inum off :
  file_at g s v L i ip -> dir_ok (sb s) v (i_disk ip) -> readable DIRSIZ name -> room_for_inode s ->
  icache_ok v (sb s) (icache s) -> 0 < i_ref ip -> sl_locked (i_lock ip) = true ->
  dir_find v (i_disk ip) name = Some (off, i_inum ip) ->
  exists s', dirlink devsw i name inum s = Stop (Sleeping "inode") s'.
Proof.
  intros FA D Hn Hr I Hp Hl Hf. pose proof (wp_dirlookup devsw _ _ _ _ _ _ name FA D Hn Hr) as H.
  apply wp_iff in H as (r & s1 & E & t & Ht & Hres). rewrite Hf in Hres. destruct Hres as (j & l & -> & Hg & ->).
  pose proof (fa_inode _ _ _ _ _ _ FA) as Hi. pose proof (fa_dev _ _ _ _ _ _ FA) as Hd.
  assert (Hj : j = i /\ l = <[i := set_iref (i_ref ip + 1) ip]> (icache s)).
  { destruct Hg as [j jp Hj (J1 & J2 & J3)|j jp Hj Hz Hno].
    - assert (j = i) as -> by (eapply (ic_unique _ _ _ I j i jp ip); congruence). split; [done|]. congruence.
    - destruct (Hno i ip Hi). by split_and!. }
  destruct Hj as [-> ->]. unfold dirlink. rewrite (bind_ret_eq _ _ _ _ _ E).
  eexists. do 2 apply bind_stop_eq. unfold acquire_inode. erewrite bind_ret_eq.
  2: { unfold geti. cbn [icache with_ic with_tx]. rewrite list_lookup_insert_eq by (by eapply lookup_lt_Some). done. }
  rewrite bind_gets. cbn [i_lock set_iref]. unfold acquiresleep. by rewrite Hl.
Qed.
End link.
