(* ===== verification/FsPath.v ===== *)
(** * Correctness of path resolution ([skipelem], [namex] of [kernel/fs.c])

    A path is split at its slashes into elements, and followed from the root
    or the current directory through the directories on the disk.  [namex]
    returns the inode this gives with exactly one reference more than before,
    leaves no inode locked, and changes nothing on the disk. *)

From S2P Require Import Prelude CStr Mem BufIface Lock Txn Fs FsAlloc FsInode FsData FsDir.

(** ** The elements of a path *)

(** The parts of a terminated string between slashes; [cur] is the part read
    so far. *)
Fixpoint split_path (cur p : list Z) : list (list Z) :=
  match p with
  | [] => [cur]
  | c :: r =>
      if c =? 0 then [cur]
      else if c =? SLASH then cur :: split_path [] r
      else split_path (cur ++ [c]) r
  end.

(** Empty elements do not count, and long ones are cut. *)
Definition elems (p : list Z) : list (list Z) :=
  take DIRSIZ <$> filter (fun e => e <> []) (split_path [] p).

Lemma elems_slash p : elems (SLASH :: p) = elems p.
Proof. done. Qed.

Lemma elems_nul p : elems (0 :: p) = [].
Proof. done. Qed.

Lemma elems_skip p : elems (skip_slashes p) = elems p.
Proof.
  induction p as [|c p IH]; [done|]. cbn [skip_slashes]. destruct (Z.eqb_spec c SLASH) as [->|]; [|done].
  by rewrite IH, elems_slash.
Qed.

Lemma skip_slashes_head p c r : skip_slashes p = c :: r -> c <> SLASH.
Proof.
  induction p as [|a p IH]; [done|]. cbn [skip_slashes]. destruct (Z.eqb_spec a SLASH) as [->|Ha]; [done|].
  by intros [= <- <-].
Qed.

Lemma skip_slashes_nul p : 0 ∈ p -> 0 ∈ skip_slashes p.
Proof.
  induction p as [|a p IH]; [done|]. cbn [skip_slashes]. destruct (Z.eqb_spec a SLASH) as [->|Ha]; [|done].
  intros [H|H]%elem_of_cons; [done|auto].
Qed.

Lemma skip_slashes_length p : (length (skip_slashes p) <= length p)%nat.
Proof. induction p as [|a p IH]; [done|]. cbn [skip_slashes]. destruct (a =? SLASH); simpl in *; lia. Qed.

Lemma split_elem cur p :
  split_path cur p = (cur ++ take (elem_len p) p) ::
    match drop (elem_len p) p with c :: r => if c =? SLASH then split_path [] r else [] | [] => [] end.
Proof.
  revert cur. induction p as [|c p IH]; intros cur; cbn [split_path elem_len].
  - by rewrite app_nil_r.
  - destruct (Z.eqb_spec c 0) as [->|H0]; [by rewrite orb_true_r, app_nil_r|].
    destruct (Z.eqb_spec c SLASH) as [->|H1]; cbn [orb take drop].
    + by rewrite Z.eqb_refl, app_nil_r.
    + rewrite IH, <- app_assoc. done.
Qed.

Lemma elem_nonul p : nonul (take (elem_len p) p).
Proof.
  induction p as [|c p IH]; [constructor|]. cbn [elem_len]. destruct (Z.eqb_spec c SLASH); [constructor|].
  destruct (Z.eqb_spec c 0); [constructor|]. cbn [orb take]. by constructor.
Qed.

Lemma elem_len_le p : (elem_len p <= length p)%nat.
Proof. induction p as [|c p IH]; [done|]. cbn [elem_len]. destruct (_ || _); simpl; lia. Qed.

Lemma drop_elem_nul p : 0 ∈ p -> 0 ∈ drop (elem_len p) p.
Proof.
  intros H. rewrite <- (take_drop (elem_len p) p) in H. apply elem_of_app in H as [H|H]; [|done].
  pose proof (elem_nonul p) as Hn. unfold nonul in Hn. rewrite list.Forall_forall in Hn. by destruct (Hn 0 H).
Qed.

Lemma drop_elem_head p c r : drop (elem_len p) p = c :: r -> c = SLASH \/ c = 0.
Proof.
  induction p as [|a p IH]; [done|]. cbn [elem_len]. destruct (Z.eqb_spec a SLASH) as [->|].
  { intros [= <- _]. by left. }
  destruct (Z.eqb_spec a 0) as [->|]; [intros [= <- _]; by right|]. cbn [orb drop]. exact IH.
Qed.

Lemma elems_cons p : (0 < elem_len p)%nat ->
  elems p = take DIRSIZ (take (elem_len p) p) :: elems (skip_slashes (drop (elem_len p) p)).
Proof.
  intros Hn. rewrite elems_skip. unfold elems at 1. rewrite split_elem. cbn [app].
  assert (take (elem_len p) p <> []).
  { destruct p; [simpl in Hn; lia|]. by destruct (elem_len _); [lia|]. }
  rewrite filter_cons_True by done. cbn [fmap list_fmap]. f_equal.
  pose proof (drop_elem_head p) as Hd. destruct (drop (elem_len p) p) as [|c r]; [done|].
  destruct (Hd c r eq_refl) as [->| ->]; done.
Qed.

(** The name that [skipelem] leaves in its buffer. *)
Lemma elem_name q name : length name = DIRSIZ ->
  let len := elem_len q in
  let name' := if (DIRSIZ <=? len)%nat then splice name 0 (take DIRSIZ q) else splice name 0 (take len q ++ [0]) in
  length name' = DIRSIZ /\ dname name' = take DIRSIZ (take len q).
Proof.
  intros Hl. pose proof (elem_len_le q) as Hle. pose proof (elem_nonul q) as Hnn. cbv zeta.
  destruct (Nat.leb_spec DIRSIZ (elem_len q)) as [H|H].
  - rewrite splice_whole by (rewrite length_take; lia). split; [rewrite length_take; lia|].
    unfold dname. rewrite !take_take, Nat.min_id, Nat.min_l by done. apply upto_nul_all.
    apply (Forall_take _ DIRSIZ) in Hnn. by rewrite take_take, Nat.min_l in Hnn.
  - assert (E : (0 + length (take (elem_len q) q ++ [0%Z]) <= length name)%nat).
    { rewrite length_app, length_take. simpl. lia. }
    split; [by rewrite splice_length|]. unfold dname. rewrite take_ge by (by rewrite splice_length, Hl by done).
    unfold splice. rewrite take_0, app_nil_l, <- app_assoc. cbn [app]. rewrite upto_nul_app by done.
    by rewrite (take_ge (take _ _)) by (rewrite length_take; lia).
Qed.

(** [skipelem] takes the first element off the path. *)
Lemma skipelem_spec path name : 0 ∈ path -> length name = DIRSIZ ->
  match elems path with
  | [] => skipelem path name = None
  | e :: es => exists rest name', skipelem path name = Some (rest, name') /\ length name' = DIRSIZ /\
      dname name' = e /\ elems rest = es /\ 0 ∈ rest /\ (length rest < length path)%nat /\
      (rest !! 0%nat = Some 0 <-> es = [])
  end.
Proof.
  intros H0 Hl. unfold skipelem. rewrite <- (elems_skip path). pose proof (skip_slashes_nul path H0) as Hn.
  pose proof (skip_slashes_length path) as Hlen. pose proof (skip_slashes_head path) as Hh.
  destruct (skip_slashes path) as [|c q] eqn:E; [by apply elem_of_nil in Hn|]. specialize (Hh c q eq_refl).
  destruct (Z.eqb_spec c 0) as [->|Hc]; [done|].
  assert (Hpos : (0 < elem_len (c :: q))%nat).
  { cbn [elem_len]. rewrite (proj2 (Z.eqb_neq c SLASH)), (proj2 (Z.eqb_neq c 0)) by done. cbn [orb]. lia. }
  rewrite elems_cons by done. set (len := elem_len (c :: q)) in *.
  destruct (elem_name (c :: q) name Hl) as [L1 L2]. fold len in L1, L2.
  eexists _, _. split; [done|]. split; [exact L1|]. split; [exact L2|]. split; [done|].
  pose proof (skip_slashes_nul _ (drop_elem_nul _ Hn)) as Hr. fold len in Hr. split; [done|]. split.
  { pose proof (skip_slashes_length (drop len (c :: q))). rewrite length_drop in H. cbn [length] in *. lia. }
  pose proof (skip_slashes_head (drop len (c :: q))) as Hh'.
  destruct (skip_slashes (drop len (c :: q))) as [|a r]; [by apply elem_of_nil in Hr|]. specialize (Hh' a r eq_refl).
  cbn [lookup list_lookup]. destruct (decide (a = 0)) as [->|Ha]; [done|]. split; [congruence|].
  rewrite elems_cons; [done|]. cbn [elem_len]. rewrite (proj2 (Z.eqb_neq a SLASH)), (proj2 (Z.eqb_neq a 0)) by done. cbn [orb]. lia.
Qed.

(** [skipelem] takes one element off a path: it returns no path when there
    is no element, and otherwise leaves the first element (cut to 14 bytes) in
    the buffer and returns a shorter path with the other elements, which is
    the empty string if and only if there are none. *)
Theorem skipelem_splits path name : 0 ∈ path -> length name = DIRSIZ ->
  match skipelem path name with
  | None => elems path = []
  | Some (rest, name') => elems path = dname name' :: elems rest /\ length name' = DIRSIZ /\ 0 ∈ rest /\
      (length rest < length path)%nat /\ (rest !! 0%nat = Some 0 <-> elems rest = [])
  end.
Proof.
  intros H0 Hl. pose proof (skipelem_spec path name H0 Hl) as H. destruct (elems path) as [|e es]; [by rewrite H|].
  destruct H as (rest & nm & -> & Hn & <- & <- & H1 & H2 & H3). by split_and!.
Qed.

Lemma skipelem_splits_witness :
  skipelem (chars "///usr//bin" ++ [0]) (replicate DIRSIZ 7) = Some (chars "bin" ++ [0], chars "usr" ++ 0 :: replicate 10 7) /\
  elems (chars "///usr//bin" ++ [0]) = [chars "usr"; chars "bin"].
Proof.
  split; [reflexivity|].
  exact (proj1 (skipelem_splits (chars "///usr//bin" ++ [0]) (replicate DIRSIZ 7) ltac:(by_decide) eq_refl)).
Defined.

(** ** Following a path on the disk *)

(** An inode that is allocated. *)
Definition live (q : superblock) (v : list block) (inum : Z) (di : dinode) : Prop :=
  0 <= inum < sb_ninodes q /\ disk_inode v q inum = Some di /\ di_type di <> 0.

(** Every inode in use has a link, and the entries of directories name inodes
    in use. *)
Record disk_tree (q : superblock) (v : list block) : Prop := {
  dt_links inum di : live q v inum di -> di_nlink di <> 0;
  dt_dirs inum di : live q v inum di -> di_type di = T_DIR -> dir_ok q v di;
  dt_entries inum di k : live q v inum di -> di_type di = T_DIR -> (k < at_ (di_size di / DESIZE))%nat ->
    entry_inum v di (DESIZE * Z.of_nat k) <> 0 -> exists di', live q v (entry_inum v di (DESIZE * Z.of_nat k)) di'
}.

(** The inode a path leads to; with [parent], the one that has the last
    element. *)
Fixpoint resolve (parent : bool) (v : list block) (q : superblock) (inum : Z) (es : list (list Z)) : option Z :=
  match es with
  | [] => if parent then None else Some inum
  | e :: es' =>
      match disk_inode v q inum with
      | None => None
      | Some di =>
          if negb (di_type di =? T_DIR) then None
          else if parent && bool_decide (es' = []) then Some inum
          else match dir_find v di e with
               | Some (_, n) => resolve parent v q n es'
               | None => None
               end
      end
  end.

Lemma find_from_some v di name n off o m : find_from v di name n off = Some (o, m) ->
  exists k, (k < n)%nat /\ o = off + DESIZE * Z.of_nat k /\ m = entry_inum v di o /\ m <> 0.
Proof.
  revert off. induction n as [|n IH]; intros off; [done|]. cbn [find_from]. unfold hit. case_decide as H.
  - intros [= <- <-]. exists 0%nat. split_and!; [lia|lia|done|by destruct H].
  - intros (k & Hk & -> & Hm)%IH. exists (S k). split_and!; [lia|unfold DESIZE; lia|apply Hm|apply Hm].
Qed.

Lemma found_live q v inum di name o m : disk_tree q v -> live q v inum di -> di_type di = T_DIR ->
  dir_find v di name = Some (o, m) -> exists di', live q v m di'.
Proof.
  intros D Hl Hty (k & Hk & -> & Em & Hm)%find_from_some. rewrite Z.add_0_l in Em. subst m.
  by eapply dt_entries.
Qed.

Lemma dname_name l : dname (dname l) = dname l.
Proof.
  unfold dname. rewrite take_ge.
  - apply upto_nul_all, upto_nul_nonul.
  - etrans; [apply upto_nul_length|]. rewrite length_take. lia.
Qed.

Lemma dir_find_name v di l : dir_find v di (dname l) = dir_find v di l.
Proof.
  unfold dir_find. generalize 0 as off. induction (at_ _) as [|n IH]; intros off; [done|]. cbn [find_from].
  unfold hit. by rewrite dname_name, IH.
Qed.

(** ** The inode cache

    Sums over the cache: the references to an inode, and the free entries. *)

Definition sum_over (f : inode -> Z) (l : list inode) : Z := foldr (fun x a => f x + a) 0 l.
Definition ref_to (n : Z) (ip : inode) : Z := if i_inum ip =? n then i_ref ip else 0.
Definition refs (n : Z) : list inode -> Z := sum_over (ref_to n).
Definition is_free (ip : inode) : Z := if i_ref ip =? 0 then 1 else 0.
Definition free_slots : list inode -> Z := sum_over is_free.

Lemma sum_over_insert f l i a b : l !! i = Some a -> sum_over f (<[i := b]> l) = sum_over f l - f a + f b.
Proof.
  revert i. induction l as [|x l IH]; intros i H; [done|]. destruct i as [|i].
  - injection H as <-. cbn. lia.
  - change (f x + sum_over f (<[i := b]> l) = f x + sum_over f l - f a + f b). rewrite (IH i H). lia.
Qed.

Lemma free_slot_room l : 0 < free_slots l -> exists k ip, l !! k = Some ip /\ i_ref ip = 0.
Proof.
  unfold free_slots. induction l as [|x l IH]; cbn; [lia|]. change (foldr _ 0 l) with (sum_over is_free l). intros H.
  unfold is_free at 1 in H. destruct (Z.eqb_spec (i_ref x) 0) as [E|E]; [by exists 0%nat, x|].
  destruct IH as (k & ip & Hk & Hz); [lia|]. by exists (S k), ip.
Qed.

(** The cache between operations: entries in use are for inodes in use, and
    none but [lk] is locked. *)
Record cache_at (v : list block) (q : superblock) (lk : option nat) (l : list inode) : Prop := {
  ca_ok : icache_ok v q l;
  ca_live i ip : l !! i = Some ip -> 0 < i_ref ip -> i_dev ip = ROOTDEV /\ exists di, live q v (i_inum ip) di;
  ca_unlocked i ip : l !! i = Some ip -> lk <> Some i -> unlocked ip
}.

Lemma cache_update v q lk lk' l i a b : cache_at v q lk l -> l !! i = Some a ->
  i_dev b = i_dev a -> i_inum b = i_inum a -> 0 <= i_ref b -> (0 < i_ref b -> 0 < i_ref a) ->
  (0 < i_ref b -> i_valid b = true -> disk_inode v q (i_inum b) = Some (i_disk b)) ->
  (lk' <> Some i -> unlocked b) -> (forall j, j <> i -> lk' <> Some j -> lk <> Some j) ->
  cache_at v q lk' (<[i := b]> l).
Proof.
  intros [[I1 I2 I3 I4] Hl Hu] Hi Ed En Hr Hp Hv Hb Hlk.
  assert (B : forall j x, <[i := b]> l !! j = Some x -> 0 < i_ref x -> exists y, l !! j = Some y /\ 0 < i_ref y /\
    i_dev x = i_dev y /\ i_inum x = i_inum y).
  { intros j x Hj H0. apply list_lookup_insert_Some in Hj as [(<- & <- & _)|[_ Hj]]; [exists a|exists x]; auto. }
  split; [split|..].
  - by rewrite length_insert.
  - intros j x Hj. apply list_lookup_insert_Some in Hj as [(<- & <- & _)|[_ Hj]]; [done|by eapply I2].
  - intros j k x y Hj Hk Hx Hy E1 E2. destruct (B j x Hj Hx) as (x' & A1 & A2 & A3 & A4), (B k y Hk Hy) as (y' & C1 & C2 & C3 & C4).
    eapply (I3 j k x' y'); congruence.
  - intros j x Hj H0 Hvx. apply list_lookup_insert_Some in Hj as [(<- & <- & _)|[_ Hj]]; [by apply Hv|by eapply I4].
  - intros j x Hj H0. destruct (B j x Hj H0) as (y & A1 & A2 & -> & ->). by eapply Hl.
  - intros j x Hj Hne. apply list_lookup_insert_Some in Hj as [(<- & <- & _)|[Hji Hj]]; [by apply Hb|].
    eapply Hu; [exact Hj|]. by apply Hlk.
Qed.

Lemma cache_got v q lk l n di j l' : cache_at v q lk l -> live q v n di -> got ROOTDEV n l j l' -> cache_at v q lk l'.
Proof.
  intros [Ho Hl Hu] Hd Hg. split; [by eapply got_ok| |].
  - intros i x Hi H0. destruct Hg as [j ip Hj (E1 & E2 & E3)|j ip Hj Hz _];
      apply list_lookup_insert_Some in Hi as [(<- & <- & _)|[_ Hi]]; try by eapply Hl.
    + simpl. rewrite E2, E3. eauto.
    + simpl. eauto.
  - intros i x Hi Hlk. destruct Hg as [j ip Hj _|j ip Hj Hz _];
      apply list_lookup_insert_Some in Hi as [(<- & <- & _)|[_ Hi]]; try by eapply Hu.
    + by apply (Hu j ip Hj).
    + by apply (Hu j ip Hj).
Qed.

Lemma got_sum f n l j l' : got ROOTDEV n l j l' -> exists a b, l !! j = Some a /\ l' = <[j := b]> l /\
  i_ref b = i_ref a + 1 /\ i_inum b = n /\ i_dev b = ROOTDEV /\ (i_ref a <> 0 -> i_inum a = n) /\
  sum_over f l' = sum_over f l - f a + f b.
Proof.
  intros [i ip Hi (E1 & E2 & E3)|i ip Hi Hz _].
  - exists ip, (set_iref (i_ref ip + 1) ip). split_and!; try done. by apply sum_over_insert.
  - exists ip, (fresh_inode ROOTDEV n ip). split_and!; try done; [cbn; lia|]. by apply sum_over_insert.
Qed.

Definition one (n m : Z) : Z := if n =? m then 1 else 0.

Section walk.
Context {T : Type} {ops : TxnOps T} {tv : TxnView T} {laws : TxnLaws T}.
Implicit Types (s : fs T) (t : T) (v : list block) (L : gset Z) (g : tgeo) (ip : inode).
Variable devsw : list (driver (T := T)).

(** A file system in a transaction, with [lk] the inode that is locked. *)
Record walk_at (lk : option nat) g s v L : Prop := {
  wk_txn : txn g (tx s) v ∅ ∅ L;
  wk_geo : fs_geo g (sb s) (length v);
  wk_map : sb_size (sb s) <= BPB;
  wk_meta : meta_used v (sb s);
  wk_tree : disk_tree (sb s) v;
  wk_cache : cache_at v (sb s) lk (icache s)
}.

Lemma walk_ic lk lk' g s v L l : walk_at lk g s v L -> cache_at v (sb s) lk' l -> walk_at lk' g (with_ic s l) v L.
Proof. intros [W1 W2 W3 W4 W5 W6] H. by split. Qed.

Lemma walk_tx lk g s v L t : walk_at lk g s v L -> txn g t v ∅ ∅ L -> walk_at lk g (with_tx s t) v L.
Proof. intros [W1 W2 W3 W4 W5 W6] H. by split. Qed.

Lemma walk_live lk g s v L i ip : walk_at lk g s v L -> icache s !! i = Some ip -> 0 < i_ref ip ->
  i_dev ip = ROOTDEV /\ exists di, live (sb s) v (i_inum ip) di /\ (i_valid ip = true -> di = i_disk ip).
Proof.
  intros W Hi Hr. destruct (ca_live _ _ _ _ (wk_cache _ _ _ _ _ W) i ip Hi Hr) as [Hd (di & Hl)]. split; [done|].
  exists di. split; [done|]. intros Hv. pose proof (ic_valid _ _ _ (ca_ok _ _ _ _ (wk_cache _ _ _ _ _ W)) i ip Hi Hr Hv) as E.
  destruct Hl as (_ & E' & _). congruence.
Qed.

(** An inode is locked, and its contents are read. *)
Lemma wp_walk_lock g s v L i ip (Q : unit -> fs T -> Prop) :
  walk_at None g s v L -> icache s !! i = Some ip -> 0 < i_ref ip ->
  (forall t di, live (sb s) v (i_inum ip) di ->
    let s' := with_ic (with_tx s t) (<[i := locked_inode (fs_pid s) di ip]> (icache s)) in
    walk_at (Some i) g s' v L -> Q tt s') ->
  wp (ilock i) s Q.
Proof.
  intros W Hi Hr HQ. destruct (walk_live _ _ _ _ _ _ _ W Hi Hr) as [Hd (di & Hl & Hv)]. pose proof W as [W1 W2 W3 W4 W5 W6].
  eapply (wp_ilock g s v L i ip di); try done; try lia.
  - by apply (ca_unlocked _ _ _ _ W6 i ip Hi).
  - by destruct Hl.
  - destruct (i_valid ip); [auto|]. split; apply Hl.
  - intros t Ht. apply HQ; [done|]. eapply walk_ic; [by eapply walk_tx|]. eapply cache_update; try done.
    + simpl. lia.
    + by destruct Hl as (_ & Hl & _).
Qed.

(** One reference is given back. *)
Definition put_at (i : nat) ip g s v L (s' : fs T) : Prop :=
  exists b, i_ref b = i_ref ip - 1 /\ i_inum b = i_inum ip /\ i_dev b = i_dev ip /\ s' = with_ic s (<[i := b]> (icache s)) /\
    walk_at None g s' v L.

Lemma wp_walk_put lk g s v L i ip (Q : unit -> fs T -> Prop) :
  walk_at lk g s v L -> icache s !! i = Some ip -> 0 < i_ref ip -> unlocked ip -> lk = None \/ lk = Some i ->
  (forall s', put_at i ip g s v L s' -> Q tt s') -> wp (iput i) s Q.
Proof.
  intros W Hi Hr Hu Hlk HQ. destruct (walk_live _ _ _ _ _ _ _ W Hi Hr) as [Hd (di & Hl & Hv)].
  apply (wp_iput_keep s i ip); try done.
  - destruct (i_valid ip); [right; left|by left]. rewrite <- Hv by done. by apply (dt_links _ _ (wk_tree _ _ _ _ _ W) (i_inum ip)).
  - apply HQ. eexists. split; [|split; [|split; [|split; [done|]]]]; [done|done|done|]. eapply walk_ic; [exact W|].
    eapply (cache_update _ _ lk); [by apply W|exact Hi|done|done|simpl; lia|simpl; lia| |done|].
    + intros _ Hvb. cbn in *. apply (ic_valid _ _ _ (ca_ok _ _ _ _ (wk_cache _ _ _ _ _ W)) i ip Hi Hr Hvb).
    + intros j Hj _. destruct Hlk as [->| ->]; [done|]. by intros [= ->].
Qed.

Lemma wp_walk_unlock g s v L i ip (Q : unit -> fs T -> Prop) :
  walk_at (Some i) g s v L -> icache s !! i = Some ip -> 0 < i_ref ip ->
  i_lock ip = {| sl_locked := true; sl_pid := fs_pid s |} ->
  (let s' := with_ic s (<[i := set_ilock initsleeplock ip]> (icache s)) in walk_at None g s' v L -> Q tt s') ->
  wp (iunlock i) s Q.
Proof.
  intros W Hi Hr Hl HQ. apply (wp_iunlock s i ip); [done|done|lia|]. apply HQ. eapply walk_ic; [exact W|].
  eapply cache_update; [by apply W|exact Hi|done|done|simpl; lia|simpl; lia| |done|].
  - intros _ Hvb. apply (ic_valid _ _ _ (ca_ok _ _ _ _ (wk_cache _ _ _ _ _ W)) i ip Hi Hr Hvb).
  - intros j Hj _. by intros [= ->].
Qed.

Lemma wp_walk_unlockput g s v L i ip (Q : unit -> fs T -> Prop) :
  walk_at (Some i) g s v L -> icache s !! i = Some ip -> 0 < i_ref ip ->
  i_lock ip = {| sl_locked := true; sl_pid := fs_pid s |} ->
  (forall s', put_at i ip g s v L s' -> Q tt s') -> wp (iunlockput i) s Q.
Proof.
  intros W Hi Hr Hl HQ. pose proof (lookup_lt_Some _ _ _ Hi) as Hlt. unfold iunlockput. apply wp_bind.
  eapply wp_walk_unlock; try done. intros s1 W1. eapply (wp_walk_put None); [exact W1|by apply list_lookup_insert_eq|done|done|by left|].
  intros s2 (b & B1 & B2 & B3 & -> & W2). apply HQ. exists b. unfold s1 in *. cbn in *. rewrite list_insert_insert_eq in *. done.
Qed.

Lemma refs_put s v L g i ip s' n : icache s !! i = Some ip -> put_at i ip g s v L s' ->
  refs n (icache s') = refs n (icache s) - one n (i_inum ip).
Proof.
  intros Hi (b & B1 & B2 & B3 & -> & _). unfold refs. cbn [icache with_ic]. rewrite (sum_over_insert _ _ _ _ b Hi).
  unfold ref_to, one. rewrite B2, (Z.eqb_sym n). destruct (_ =? _); lia.
Qed.

(** The walk has gone on from inode [ip] to [jp], which has number [m]. *)
Record next_at g s v L ip (m : Z) (s' : fs T) (j : nat) (jp : inode) : Prop := {
  nx_walk : walk_at None g s' v L;
  nx_sb : sb s' = sb s;
  nx_pid : fs_pid s' = fs_pid s;
  nx_inode : icache s' !! j = Some jp;
  nx_entry : is_entry ROOTDEV m jp;
  nx_refs n : refs n (icache s') = refs n (icache s) - one n (i_inum ip) + one n m;
  nx_slots : free_slots (icache s) + one (i_ref ip) 1 <= free_slots (icache s') + one (i_ref jp) 1
}.

Lemma ref_to_locked n pid di ip : ref_to n (locked_inode pid di ip) = ref_to n ip.
Proof. done. Qed.

Lemma got_keeps m l j l' i ip : got ROOTDEV m l j l' -> l !! i = Some ip -> 0 < i_ref ip ->
  exists ip', l' !! i = Some ip' /\ i_lock ip' = i_lock ip /\ i_inum ip' = i_inum ip /\
    i_ref ip' = i_ref ip + (if decide (i = j) then 1 else 0).
Proof.
  intros [k kp Hk (E1 & E2 & E3)|k kp Hk Hz _] Hi Hr; pose proof (lookup_lt_Some _ _ _ Hk) as Hlt;
    destruct (decide (i = k)) as [->|Hne].
  - eexists. rewrite list_lookup_insert_eq by done. split; [done|]. by simplify_eq.
  - exists ip. rewrite list_lookup_insert_ne by done. split_and!; (done || lia).
  - simplify_eq. lia.
  - exists ip. rewrite list_lookup_insert_ne by done. split_and!; (done || lia).
Qed.

(** [l] is the cache with inode [ip] locked, [l1] after [iget], [l2] after
    the reference to [ip] is given back. *)
Lemma next_cache m l j l1 i ip ip1 b : got ROOTDEV m l j l1 -> l !! i = Some ip -> 0 < i_ref ip ->
  l1 !! i = Some ip1 -> i_inum ip1 = i_inum ip -> i_ref ip1 = i_ref ip + (if decide (i = j) then 1 else 0) ->
  i_ref b = i_ref ip1 - 1 -> i_inum b = i_inum ip1 -> i_dev b = i_dev ip1 ->
  exists jp, <[i := b]> l1 !! j = Some jp /\ is_entry ROOTDEV m jp /\
    (forall n, refs n (<[i := b]> l1) = refs n l - one n (i_inum ip) + one n m) /\
    free_slots l + one (i_ref ip) 1 <= free_slots (<[i := b]> l1) + one (i_ref jp) 1.
Proof.
  intros Hg Hi Hr Hi1 En Er Rb Nb Db. pose proof (lookup_lt_Some _ _ _ Hi1) as Hlt.
  assert (Hrefs : forall n, refs n (<[i := b]> l1) = refs n l - one n (i_inum ip) + one n m).
  { intros n. unfold refs. rewrite (sum_over_insert _ _ _ _ b Hi1).
    destruct (got_sum (ref_to n) _ _ _ _ Hg) as (a & c & _ & _ & R1 & R2 & _ & R4 & ->).
    unfold ref_to, one. rewrite Nb, En, R2, !(Z.eqb_sym n).
    destruct (decide (i_ref a = 0)) as [Hz|Hz]; [|specialize (R4 Hz)];
      destruct (Z.eqb_spec (i_inum ip) n), (Z.eqb_spec m n), (Z.eqb_spec (i_inum a) n); lia. }
  destruct (got_sum is_free _ _ _ _ Hg) as (a & c & Ha & El & R1 & R2 & R3 & R4 & Ef).
  assert (Hfree : free_slots (<[i := b]> l1) = free_slots l - is_free a + is_free c - is_free ip1 + is_free b).
  { unfold free_slots. rewrite (sum_over_insert _ _ _ _ b Hi1), Ef. lia. }
  unfold is_free in Hfree. pose proof (lookup_lt_Some _ _ _ Ha) as Hlj. destruct (decide (i = j)) as [<-|Hne].
  - assert (a = ip) as -> by congruence. exists b. rewrite list_lookup_insert_eq by done.
    assert (c = ip1) as -> by (rewrite El, list_lookup_insert_eq in Hi1 by done; congruence).
    split; [done|]. split; [split_and!; (lia || congruence)|]. split; [done|]. unfold one.
    destruct (Z.eqb_spec (i_ref ip) 0), (Z.eqb_spec (i_ref ip1) 0), (Z.eqb_spec (i_ref b) 0),
      (Z.eqb_spec (i_ref ip) 1), (Z.eqb_spec (i_ref b) 1); lia.
  - exists c. rewrite list_lookup_insert_ne by done. rewrite El, list_lookup_insert_eq by done.
    assert (0 <= i_ref a).
    { destruct Hg as [k kp Hk (E1 & _)|k kp Hk Hz _]; simplify_eq; lia. }
    split; [done|]. split; [split_and!; (lia || congruence)|]. split; [by rewrite <- El|]. rewrite <- El. unfold one.
    destruct (Z.eqb_spec (i_ref a) 0), (Z.eqb_spec (i_ref c) 0), (Z.eqb_spec (i_ref ip1) 0), (Z.eqb_spec (i_ref b) 0),
      (Z.eqb_spec (i_ref ip) 1), (Z.eqb_spec (i_ref c) 1); lia.
Qed.

Lemma refs_lock s i ip di n : icache s !! i = Some ip ->
  refs n (<[i := locked_inode (fs_pid s) di ip]> (icache s)) = refs n (icache s).
Proof. intros Hi. unfold refs. rewrite (sum_over_insert _ _ _ _ _ Hi), ref_to_locked. lia. Qed.

Lemma free_lock s i ip di : icache s !! i = Some ip ->
  free_slots (<[i := locked_inode (fs_pid s) di ip]> (icache s)) = free_slots (icache s).
Proof. intros Hi. unfold free_slots. rewrite (sum_over_insert _ _ _ _ _ Hi). unfold is_free. simpl. lia. Qed.

(** The walk ends: with the inode [m], or with no inode. *)
Definition ended g s v L ip (res : option Z) (r : option nat) (s' : fs T) : Prop :=
  match res with
  | Some m => exists j jp, r = Some j /\ next_at g s v L ip m s' j jp
  | None => r = None /\ walk_at None g s' v L /\ sb s' = sb s /\ fs_pid s' = fs_pid s /\
      forall n, refs n (icache s') = refs n (icache s) - one n (i_inum ip)
  end.

Lemma next_trans g s v L ip m s1 j jp res r s2 : next_at g s v L ip m s1 j jp -> ended g s1 v L jp res r s2 ->
  ended g s v L ip res r s2.
Proof.
  intros N E. pose proof N as [N1 N2 N3 N4 N5 N6 N7]. destruct N5 as (_ & _ & Em). destruct res as [m'|].
  - destruct E as (k & kp & -> & [M1 M2 M3 M4 M5 M6 M7]). exists k, kp. split; [done|].
    split; try done; try congruence; [|lia]. intros n. rewrite M6, N6, Em. lia.
  - destruct E as (-> & M1 & M2 & M3 & M4). split_and!; try done; try congruence. intros n. rewrite M4, N6, Em. lia.
Qed.

(** The end of a step: the inode that is locked is given back. *)
Lemma wp_leave g s s1 v L i ip di t (name : list Z) :
  walk_at (Some i) g s1 v L -> icache s !! i = Some ip -> 0 < i_ref ip ->
  s1 = with_ic (with_tx s t) (<[i := locked_inode (fs_pid s) di ip]> (icache s)) ->
  wp (iunlockput i then! ret (None, name)) s1 (fun (r : option nat * list Z) s' => ended g s v L ip None r.1 s').
Proof.
  intros W Hi Hr ->. pose proof (lookup_lt_Some _ _ _ Hi) as Hlt. apply wp_bind.
  eapply wp_walk_unlockput; [exact W|by apply list_lookup_insert_eq|done|done|].
  intros s' P. apply wp_ret. split; [done|]. pose proof P as (b & _ & _ & _ & -> & W'). split; [done|]. split; [done|].
  split; [done|]. intros n. etrans; [eapply refs_put; [|exact P]; by apply list_lookup_insert_eq|]. cbn [icache with_ic].
  by rewrite refs_lock.
Qed.

(** A step: the element is found, and names inode [m]. *)
Lemma wp_next g s s1 v L i ip di t t2 m j l (Q : unit -> fs T -> Prop) :
  walk_at (Some i) g s1 v L -> icache s !! i = Some ip -> 0 < i_ref ip ->
  s1 = with_ic (with_tx s t) (<[i := locked_inode (fs_pid s) di ip]> (icache s)) ->
  txn g t2 v ∅ ∅ L -> got ROOTDEV m (icache s1) j l -> (exists dm, live (sb s) v m dm) ->
  (forall s' jp, next_at g s v L ip m s' j jp -> Q tt s') ->
  wp (iunlockput i) (with_ic (with_tx s1 t2) l) Q.
Proof.
  intros W Hi Hr -> Ht2 Hg (dm & Hm) HQ. cbn [icache with_ic] in Hg. pose proof (lookup_lt_Some _ _ _ Hi) as Hlt.
  destruct (got_keeps _ _ _ _ i (locked_inode (fs_pid s) di ip) Hg) as (ip1 & K1 & K2 & K3 & K4);
    [by apply list_lookup_insert_eq|done|]. cbn [i_ref locked_inode i_inum i_lock] in *.
  eapply wp_walk_unlockput; [|exact K1|case_decide; lia|done|].
  { eapply walk_ic; [by eapply walk_tx|]. eapply cache_got; [apply W|exact Hm|exact Hg]. }
  intros s' (b & B1 & B2 & B3 & -> & W'). cbn [icache with_ic] in *.
  destruct (next_cache _ _ _ _ i (locked_inode (fs_pid s) di ip) ip1 b Hg) as (jp & J1 & J2 & J3 & J4); try done.
  { by apply list_lookup_insert_eq. }
  apply (HQ _ jp). split; try done.
  - intros n. cbn [icache with_ic]. by rewrite J3, refs_lock.
  - cbn [icache with_ic]. by rewrite free_lock in J4.
Qed.

(** The look-up in the directory that is locked. *)
Lemma wp_walk_lookup g s s1 v L i ip di t name :
  walk_at (Some i) g s1 v L -> icache s !! i = Some ip -> 0 < i_ref ip -> i_dev ip = ROOTDEV ->
  2 <= free_slots (icache s) + one (i_ref ip) 1 -> live (sb s) v (i_inum ip) di -> di_type di = T_DIR ->
  s1 = with_ic (with_tx s t) (<[i := locked_inode (fs_pid s) di ip]> (icache s)) -> length name = DIRSIZ ->
  wp (dirlookup devsw i name) s1 (looked_up g s1 v L (dir_find v di name)).
Proof.
  intros W Hi Hr Hdev Hf Hdi Hty -> Hl. pose proof (lookup_lt_Some _ _ _ Hi) as Hlt.
  pose proof (dt_dirs _ _ (wk_tree _ _ _ _ _ W) _ _ Hdi Hty) as D. pose proof W as [W1 W2 W3 W4 W5 W6].
  apply (wp_dirlookup devsw g _ v L i (locked_inode (fs_pid s) di ip)).
  - split; try done; [by apply list_lookup_insert_eq|apply D].
  - exact D.
  - left. by rewrite Hl.
  - apply free_slot_room. cbn [icache with_ic]. rewrite free_lock by done. unfold one in Hf. destruct (_ =? _); lia.
Qed.

(** [nameiparent] at the last element. *)
Lemma wp_stop_early g s s1 v L i ip di t (name : list Z) :
  walk_at (Some i) g s1 v L -> icache s !! i = Some ip -> 0 < i_ref ip -> i_dev ip = ROOTDEV ->
  s1 = with_ic (with_tx s t) (<[i := locked_inode (fs_pid s) di ip]> (icache s)) ->
  wp (iunlock i then! ret (Some i, name)) s1 (fun (r : option nat * list Z) s' =>
    ended g s v L ip (Some (i_inum ip)) r.1 s' /\ r.2 = name).
Proof.
  intros W Hi Hr Hdev ->. pose proof (lookup_lt_Some _ _ _ Hi) as Hlt. apply wp_bind.
  eapply wp_walk_unlock; [exact W|by apply list_lookup_insert_eq|done|done|]. intros s2 W2. apply wp_ret.
  split; [|done]. unfold s2 in *. cbn in *. rewrite list_insert_insert_eq in *.
  exists i, (set_ilock initsleeplock (locked_inode (fs_pid s) di ip)). split; [done|]. split; try done.
  - by apply list_lookup_insert_eq.
  - intros n. cbn [icache with_ic]. unfold refs. rewrite (sum_over_insert _ _ _ _ _ Hi). unfold one, ref_to. cbn. lia.
  - cbn [icache with_ic]. unfold free_slots. rewrite (sum_over_insert _ _ _ _ _ Hi). unfold is_free. cbn. lia.
Qed.

Lemma wp_namex_loop fuel g s v L i ip path name parent :
  walk_at None g s v L -> icache s !! i = Some ip -> 0 < i_ref ip -> 2 <= free_slots (icache s) + one (i_ref ip) 1 ->
  0 ∈ path -> length name = DIRSIZ -> (length path < fuel)%nat ->
  wp (namex_loop devsw fuel i path name parent) s (fun r s' =>
    ended g s v L ip (resolve parent v (sb s) (i_inum ip) (elems path)) r.1 s' /\
    (parent = true -> r.1 <> None -> list.last (elems path) = Some (dname r.2))).
Proof.
  revert s i ip path name. induction fuel as [|fuel IH]; intros s i ip path name W Hi Hr Hf H0 Hl Hlen; [lia|].
  pose proof (lookup_lt_Some _ _ _ Hi) as Hlt. destruct (walk_live _ _ _ _ _ _ _ W Hi Hr) as [Hdev _].
  pose proof (skipelem_spec path name H0 Hl) as Hs. cbn [namex_loop]. destruct (elems path) as [|e es].
  - rewrite Hs. cbn [resolve]. destruct parent.
    + apply wp_bind. eapply (wp_walk_put None); try done; [by apply (ca_unlocked _ _ _ _ (wk_cache _ _ _ _ _ W) i ip Hi)|by left|].
      intros s' P. apply wp_ret. split; [|done]. pose proof P as (b & _ & _ & _ & -> & W'). split_and!; try done.
      intros n. by apply (refs_put _ _ _ _ _ _ _ n Hi P).
    + apply wp_ret. split; [|done]. exists i, ip. split; [done|]. split; try done. intros n. lia.
  - destruct Hs as (rest & nm & -> & Hn & En & Ees & Hr0 & Hrl & Hre). apply wp_bind.
    eapply wp_walk_lock; [exact W|exact Hi|done|]. intros t di Hdi s1 W1.
    apply wp_bind. eapply wp_geti; [by apply list_lookup_insert_eq|]. cbn [i_disk locked_inode resolve].
    rewrite (proj1 (proj2 Hdi)). destruct (Z.eqb_spec (di_type di) T_DIR) as [Hty|Hty]; cbn [negb].
    2: { eapply wp_mono; [by eapply wp_leave|]. intros r s' E. split; [exact E|]. by destruct E as (-> & _). }
    rewrite (bool_decide_ext _ _ Hre). destruct (parent && bool_decide (es = [])) eqn:Hp.
    { apply andb_true_iff in Hp as [-> ->%bool_decide_eq_true].
      eapply wp_mono; [by eapply wp_stop_early|]. intros r s' [E ->]. split; [exact E|]. intros _ _. by rewrite <- En. }
    apply wp_bind. eapply wp_mono; [by eapply wp_walk_lookup|]. intros r s2 (t2 & Ht2 & Hres).
    rewrite <- dir_find_name, En in Hres. destruct (dir_find v di e) as [[off m]|] eqn:Ed.
    + destruct Hres as (j & l & -> & Hg & ->). apply wp_bind.
      eapply wp_next; [exact W1|exact Hi|done|done|done|exact Hg|by eapply found_live; [apply W|exact Hdi|..]|].
      intros s3 jp N. pose proof N as [N1 N2 N3 N4 N5 N6 N7]. rewrite <- Ees.
      eapply wp_mono; [apply (IH s3 j jp rest nm N1 N4 (proj1 N5)); try done; lia|].
      intros [r nm'] s4 [E Hlast]. rewrite N2 in E. destruct N5 as (N5a & N5b & N5c). rewrite N5c in E.
      split; [by eapply next_trans|]. intros Hpt Hnn. specialize (Hlast Hpt Hnn). by rewrite list.last_cons, Hlast.
    + destruct Hres as [-> ->]. eapply wp_mono; [eapply (wp_leave g s _ v L i ip di t2); try done; by eapply walk_tx|].
      intros r s' E. split; [exact E|]. by destruct E as (-> & _).
Qed.

(** The walk starts with one reference. *)
Lemma got_start m l j l' : got ROOTDEV m l j l' ->
  exists jp, l' !! j = Some jp /\ is_entry ROOTDEV m jp /\ (forall n, refs n l' = refs n l + one n m) /\
    free_slots l <= free_slots l' + one (i_ref jp) 1.
Proof.
  intros Hg. destruct (got_entry _ _ _ _ _ Hg) as (jp & Hj & He). exists jp. split; [done|]. split; [done|]. split.
  - intros n. destruct (got_sum (ref_to n) _ _ _ _ Hg) as (a & c & _ & _ & R1 & R2 & _ & R4 & E). unfold refs. rewrite E.
    unfold ref_to, one. rewrite R2, (Z.eqb_sym n). destruct (decide (i_ref a = 0)) as [Hz|Hz]; [|specialize (R4 Hz)];
      destruct (Z.eqb_spec (i_inum a) n), (Z.eqb_spec m n); lia.
  - destruct (got_sum is_free _ _ _ _ Hg) as (a & c & Ha & El & R1 & _ & _ & _ & E).
    assert (c = jp) as -> by (rewrite El, list_lookup_insert_eq in Hj by (by eapply lookup_lt_Some); congruence).
    unfold free_slots. rewrite E. unfold is_free, one. destruct He as (He & _).
    destruct (Z.eqb_spec (i_ref a) 0), (Z.eqb_spec (i_ref jp) 0), (Z.eqb_spec (i_ref jp) 1); lia.
Qed.

Definition start_at (path : list Z) (cp : inode) : Z :=
  if bool_decide (path !! 0%nat = Some SLASH) then ROOTINO else i_inum cp.

Lemma wp_start g s v L cwd cp path (Q : nat -> fs T -> Prop) :
  walk_at None g s v L -> icache s !! cwd = Some cp -> 0 < i_ref cp -> room_for_inode s ->
  (forall j l, got ROOTDEV (start_at path cp) (icache s) j l -> Q j (with_ic s l)) ->
  wp (if bool_decide (path !! 0%nat = Some SLASH) then iget ROOTDEV ROOTINO else idup cwd) s Q.
Proof.
  intros W Hc Hr Hroom HQ. unfold start_at in HQ. case_bool_decide; [by apply wp_iget|].
  unfold idup. apply wp_bind. eapply wp_seti; [exact Hc|]. apply wp_ret, HQ.
  destruct (walk_live _ _ _ _ _ _ _ W Hc Hr) as [Hd _]. by apply got_cached.
Qed.

(** What [namex] does: the walk from the start of the path. *)
Definition resolved g s v L (parent : bool) (start : Z) (path : list Z) (r : option nat * list Z) (s' : fs T) : Prop :=
  walk_at None g s' v L /\ sb s' = sb s /\ fs_pid s' = fs_pid s /\
  (parent = true -> r.1 <> None -> list.last (elems path) = Some (dname r.2)) /\
  match resolve parent v (sb s) start (elems path) with
  | Some m => exists j jp, r.1 = Some j /\ icache s' !! j = Some jp /\ is_entry ROOTDEV m jp /\
      free_slots (icache s) <= free_slots (icache s') + one (i_ref jp) 1 /\
      forall n, refs n (icache s') = refs n (icache s) + one n m
  | None => r.1 = None /\ forall n, refs n (icache s') = refs n (icache s)
  end.

Lemma wp_namex g s v L cwd cp path parent name :
  walk_at None g s v L -> icache s !! cwd = Some cp -> 0 < i_ref cp -> 2 <= free_slots (icache s) ->
  (exists di, live (sb s) v ROOTINO di) -> 0 ∈ path -> length name = DIRSIZ ->
  wp (namex devsw cwd path parent name) s (resolved g s v L parent (start_at path cp) path).
Proof.
  intros W Hc Hr Hf Hroot H0 Hl. unfold namex. apply wp_bind.
  eapply wp_start; try done; [apply free_slot_room; lia|]. intros j l Hg.
  destruct (got_start _ _ _ _ Hg) as (jp & Hj & (J1 & J2 & J3) & Hrefs & Hslots).
  assert (Hlive : exists di, live (sb s) v (start_at path cp) di).
  { unfold start_at. case_bool_decide; [done|]. by destruct (walk_live _ _ _ _ _ _ _ W Hc Hr) as [_ (di & ? & _)]; exists di. }
  destruct Hlive as (di & Hlive).
  assert (W1 : walk_at None g (with_ic s l) v L) by (eapply walk_ic; [done|]; eapply cache_got; [apply W|exact Hlive|done]).
  eapply wp_mono; [apply (wp_namex_loop (S (length path)) g (with_ic s l) v L j jp path name parent); try done; cbn [icache with_ic]; lia|].
  intros r s' [E Hlast]. cbn [sb with_ic] in E. rewrite J3 in E. unfold ended in E. unfold resolved.
  destruct (resolve parent v (sb s) (start_at path cp) (elems path)) as [m|].
  - destruct E as (k & kp & Ek & [M1 M2 M3 M4 M5 M6 M7]). cbn [icache with_ic] in *. split_and!; try done. exists k, kp.
    split_and!; try done; [lia|]. intros n. rewrite M6. cbn [icache with_ic]. rewrite Hrefs, J3. lia.
  - destruct E as (Er & M1 & M2 & M3 & M4). split_and!; try done. intros n. rewrite M4. cbn [icache with_ic]. rewrite Hrefs, J3. lia.
Qed.

(** C6. [namex] follows the path: it returns the inode the path leads to
    from the root or the current directory (with [parent], the directory that
    should hold the last element, and the name of that element), with one
    reference more to that inode; when the path leads nowhere it returns no
    inode and every count of references is as before.  The disk is not
    changed, and no inode is left locked. *)
Theorem namex_resolves g s v L cwd cp path parent name :
  walk_at None g s v L -> icache s !! cwd = Some cp -> 0 < i_ref cp -> 2 <= free_slots (icache s) ->
  (exists di, live (sb s) v ROOTINO di) -> 0 ∈ path -> length name = DIRSIZ ->
  exists r s', namex devsw cwd path parent name s = Ret r s' /\ walk_at None g s' v L /\
    (parent = true -> r.1 <> None -> list.last (elems path) = Some (dname r.2)) /\
    match resolve parent v (sb s) (start_at path cp) (elems path) with
    | Some m => exists j jp, r.1 = Some j /\ icache s' !! j = Some jp /\ is_entry ROOTDEV m jp /\
        forall n, refs n (icache s') = refs n (icache s) + one n m
    | None => r.1 = None /\ forall n, refs n (icache s') = refs n (icache s)
    end.
Proof.
  intros W Hc Hr Hf Hroot H0 Hl. pose proof (wp_namex g s v L cwd cp path parent name W Hc Hr Hf Hroot H0 Hl) as H.
  apply wp_iff in H as (r & s' & E & H1 & _ & _ & H2 & H3). exists r, s'. split; [done|]. split; [done|]. split; [done|].
  destruct (resolve _ _ _ _ _) as [m|]; [|done]. destruct H3 as (j & jp & J1 & J2 & J3 & _ & J4). by exists j, jp.
Qed.
End walk.
