(* ===== verification/FsBio.v ===== *)
(** * The file system over the log and the buffer cache

    A small disk with a root directory and a file, the file system of [Fs]
    mounted on it over the log of [Log] and the cache of [Bio], and the
    theorems on the file system applied to it. *)

From S2P Require Import Prelude CStr Mem BufIface Lock Bio Log LogBio Txn Fs FsAlloc FsInode FsData FsDir FsPath.

(** ** The disk

    Blocks 2 to 11 are the log, 12 has the four inodes, 13 the bit map, 14
    the root directory and 15 the file [a]; blocks 16 to 21 are free. *)

Definition demo_sb : superblock :=
  {| sb_size := 22; sb_nblocks := 8; sb_ninodes := 4; sb_nlog := 10; sb_logstart := 2; sb_inodestart := 12;
     sb_bmapstart := 13 |}.

(** An inode with one block of contents. *)
Definition one_block (type nlink size a : Z) : dinode :=
  {| di_type := type; di_major := 0; di_minor := 0; di_nlink := nlink; di_size := size;
     di_addrs := a :: replicate NDIRECT 0; di_mode := 755; di_uid := 0; di_gid := 0 |}.

Definition root_inode : dinode := one_block T_DIR 1 48 14.
Definition file_inode : dinode := one_block T_FILE 1 5 15.

Definition zeros : block := replicate BSIZE 0.

Definition demo_inodes : block :=
  default zeros (d ← put_dinode root_inode zeros (ioff 1); put_dinode file_inode d (ioff 2)).

(** The first 16 blocks are in use. *)
Definition demo_map : block := 255 :: 255 :: replicate 510 0.

Definition demo_root : block :=
  splice zeros 0 (entry_bytes 1 (chars "." ++ [0]) ++ entry_bytes 1 (chars ".." ++ [0]) ++ entry_bytes 2 (chars "a" ++ [0])).

Definition demo_disk : list block :=
  replicate 12 zeros ++ [demo_inodes; demo_map; demo_root; splice zeros 0 (chars "hello")] ++ replicate 6 zeros.

Definition demo_log : log :=
  {| l_start := 2; l_size := 10; l_outstanding := 1; l_committing := 0; l_dev := 1; l_n := 0;
     l_block := replicate LOGSIZE 0 |}.

Definition demo_geo : tgeo := {| tg_lo := 12; tg_cap := 9; tg_ops := 1 |}.

Lemma demo_txn : exists t : kstate, txn demo_geo t demo_disk ∅ ∅ ∅.
Proof.
  destruct (boot_state 1 demo_disk) as (c & _ & Hok & Hd & Hv & Hh & Hp & Hw); [by_decide|].
  exists {| cache := c; lg := demo_log |}. split; cbn [cache lg]; try done; [|constructor].
  split; cbn [cache lg]; rewrite ?Hd; try done.
Qed.

Lemma demo_idle : exists t : kstate, log_idle demo_geo t demo_disk.
Proof.
  destruct (boot_state 1 demo_disk) as (c & _ & Hok & Hd & Hv & Hh & Hp & Hw); [by_decide|].
  exists {| cache := c; lg := with_outstanding demo_log 0 |}. split; cbn [cache lg]; try done.
  split; cbn [cache lg]; rewrite ?Hd; try done.
Qed.

(** Writes a new contents to the block of the file. *)
Definition demo_update : M kstate unit :=
  let! b := tx_bread ROOTDEV 15 in
  tx_store b zeros then!
  tx_log_write b then!
  tx_brelse b.

Lemma demo_update_ok s : txn demo_geo s demo_disk ∅ ∅ ∅ ->
  wp demo_update s (fun _ s' => exists L, txn demo_geo s' (<[15%nat := zeros]> demo_disk) ∅ ∅ L).
Proof.
  intros H. unfold demo_update. apply wp_bind. eapply wp_mono; [apply (txn_bread _ _ _ _ _ _ 15 H)|].
  - split; by vm_compute.
  - rewrite map_img_empty_L. apply not_elem_of_empty.
  - rewrite map_img_empty_L. vm_compute. lia.
  - intros b s1 [_ H1]. apply wp_bind.
    eapply wp_mono; [apply (txn_store _ _ _ _ _ _ b 15 zeros H1); [apply lookup_insert_eq|by vm_compute]|].
    intros [] s2 H2. apply wp_bind.
    eapply wp_mono; [apply (txn_log_write _ _ _ _ _ _ b 15 H2); [apply lookup_insert_eq|by vm_compute|vm_compute; lia]|].
    intros [] s3 H3. eapply wp_mono; [apply (txn_brelse _ _ _ _ _ _ b 15 H3); [apply lookup_insert_eq|set_solver]|].
    intros [] s4 H4. rewrite delete_insert_id in H4 by apply lookup_empty.
    replace (({[15]} ∪ ∅) ∖ {[15]}) with (∅ : gset Z) in H4 by set_solver. by exists ({[15]} ∪ ∅).
Qed.

Lemma transaction_commits_witness : exists s : kstate,
  wp (tx_begin_op then! demo_update then! tx_end_op) s (fun _ s' =>
    l_n (lg s') = 0 /\ disk (cache s') !! 15%nat = Some zeros).
Proof.
  destruct demo_idle as (s & Hs). exists s.
  eapply wp_mono; [apply (transaction_commits demo_geo s demo_disk (<[15%nat := zeros]> demo_disk) demo_update Hs)|].
  - apply length_insert.
  - apply demo_update_ok.
  - intros [] s' (_ & _ & Hn & _ & Hb). split; [done|].
    transitivity (<[15%nat := zeros]> demo_disk !! 15%nat); [apply (Hb 15); split; by vm_compute|]. apply list_lookup_insert_eq. vm_compute. lia.
Defined.

Lemma demo_fs_geo : fs_geo demo_geo demo_sb (length demo_disk).
Proof. split; by vm_compute. Qed.

(** A property of every block number can be tested. *)
Lemma all_below (f : Z -> bool) n b : forallb f (seqZ 0 n) = true -> 0 <= b < n -> f b = true.
Proof. intros Hf Hb. rewrite forallb_forall in Hf. apply Hf, list_elem_of_In, elem_of_seqZ. lia. Qed.

Lemma demo_meta : meta_used demo_disk demo_sb.
Proof. intros b Hb. apply (all_below (used demo_disk demo_sb) 14); [by vm_compute|exact Hb]. Qed.

(** ** Files of one block *)

Lemma one_block_addr v type nlink size a bn : 0 <= bn < MAXFILE ->
  addr_of v (one_block type nlink size a) bn = if bn =? 0 then a else 0.
Proof.
  intros Hb. unfold addr_of. destruct (Z.ltb_spec bn (Z.of_nat NDIRECT)) as [Hl|Hl].
  - destruct (Z.eqb_spec bn 0) as [->|]; [done|]. cbn [one_block di_addrs]. rewrite lookup_cons_ne_0 by lia.
    rewrite lookup_replicate_2; [done|]. unfold NDIRECT in *. lia.
  - destruct (Z.eqb_spec bn 0) as [->|]; [unfold NDIRECT in Hl; lia|done].
Qed.

Lemma one_block_whole q v type nlink size a : short type -> short nlink -> 0 <= size <= 512 -> word a -> a <> 0 ->
  data_ok q v a -> whole q v (one_block type nlink size a).
Proof.
  intros Ht Hn Hs Hw Ha Hd. pose proof (one_block_addr v type nlink size a) as A. split.
  - split.
    + split; cbn [one_block di_type di_major di_minor di_nlink di_size di_addrs di_mode di_uid di_gid]; try done;
        try (unfold short, word; lia). constructor; [done|]. apply Forall_replicate. unfold word. lia.
    + intros n [Hz [E|(bn & Hb & E)]]; [done|]. rewrite A in E by done. destruct (bn =? 0); congruence.
    + intros bn bn' Hb Hb'. rewrite !A by done. destruct (Z.eqb_spec bn 0), (Z.eqb_spec bn' 0); congruence.
    + intros bn Hb H. exact H.
  - cbn [di_size one_block]. unfold MAXFILE, BSIZE. lia.
  - cbn [di_size one_block]. intros k Hk. rewrite A.
    + rewrite Z.div_small; [done|]. unfold BSIZE. lia.
    + rewrite Z.div_small by (unfold BSIZE; lia). unfold MAXFILE. lia.
Qed.

Lemma demo_root_ok : dir_ok demo_sb demo_disk root_inode.
Proof.
  split; [|done|done]. apply one_block_whole; try done; unfold short, word; lia.
Qed.

Lemma demo_file_ok : whole demo_sb demo_disk file_inode.
Proof. apply one_block_whole; try done; unfold short, word; lia. Qed.

(** ** The inode cache *)

Definition no_inode : inode :=
  {| i_dev := 0; i_inum := 0; i_ref := 0; i_lock := initsleeplock; i_valid := false; i_disk := one_block 0 0 0 0 |}.

Definition held_inode (n : Z) (di : dinode) (lk : bool) : inode :=
  {| i_dev := ROOTDEV; i_inum := n; i_ref := 1; i_lock := {| sl_locked := lk; sl_pid := if lk then 1 else 0 |};
     i_valid := true; i_disk := di |}.

Definition demo_fs (t : kstate) (ip : inode) : fs kstate :=
  {| tx := t; sb := demo_sb; icache := ip :: replicate 49 no_inode; fs_pid := 1 |}.

Lemma demo_lookup (ip : inode) j jp : (ip :: replicate 49 no_inode) !! j = Some jp -> j = O /\ jp = ip \/ jp = no_inode.
Proof.
  destruct j as [|j]; [intros [= <-]; by left|]. intros H. right. by apply lookup_replicate in H as [-> _].
Qed.

Lemma demo_icache n di lk : disk_inode demo_disk demo_sb n = Some di ->
  icache_ok demo_disk demo_sb (held_inode n di lk :: replicate 49 no_inode).
Proof.
  intros Hd. split.
  - done.
  - intros i ip [[_ ->]| ->]%demo_lookup; simpl; lia.
  - intros i j ip jp [[-> _]| ->]%demo_lookup [[-> _]| ->]%demo_lookup; simpl; (done || lia).
  - intros i ip [[_ ->]| ->]%demo_lookup; simpl; [done|lia].
Qed.

Lemma demo_room t n di lk : room_for_inode (demo_fs t (held_inode n di lk)).
Proof. by exists 1%nat, no_inode. Qed.

Lemma demo_file_at t n di lk : txn demo_geo t demo_disk ∅ ∅ ∅ -> file_ok demo_sb demo_disk di ->
  file_at demo_geo (demo_fs t (held_inode n di lk)) demo_disk ∅ 0 (held_inode n di lk).
Proof. intros Ht F. split; try done. apply demo_meta. Qed.

Lemma demo_inode1 : disk_inode demo_disk demo_sb 1 = Some root_inode.
Proof. by vm_compute. Qed.

Lemma demo_inode2 : disk_inode demo_disk demo_sb 2 = Some file_inode.
Proof. by vm_compute. Qed.

Lemma demo_unused n di : n = 0 \/ n = 3 -> disk_inode demo_disk demo_sb n = Some di -> di_type di = 0.
Proof.
  intros Hn Hd. assert (E : di_type <$> disk_inode demo_disk demo_sb n = Some 0) by (destruct Hn as [->| ->]; by vm_compute).
  rewrite Hd in E. cbn [fmap option_fmap option_map] in E. injection E as E. exact E.
Qed.

Lemma demo_inode n di : live demo_sb demo_disk n di -> n = 1 /\ di = root_inode \/ n = 2 /\ di = file_inode.
Proof.
  intros (Hn & Hd & Ht). cbn [sb_ninodes demo_sb] in Hn.
  assert (n = 0 \/ n = 3 \/ n = 1 \/ n = 2) as [E|[E|[->| ->]]] by lia.
  - destruct (Ht (demo_unused n di (or_introl E) Hd)).
  - destruct (Ht (demo_unused n di (or_intror E) Hd)).
  - left. rewrite demo_inode1 in Hd. injection Hd as <-. done.
  - right. rewrite demo_inode2 in Hd. injection Hd as <-. done.
Qed.

Lemma demo_live1 : live demo_sb demo_disk 1 root_inode.
Proof. split; [done|]. split; [exact demo_inode1|done]. Qed.

Lemma demo_live2 : live demo_sb demo_disk 2 file_inode.
Proof. split; [done|]. split; [by vm_compute|done]. Qed.

Lemma demo_tree : disk_tree demo_sb demo_disk.
Proof.
  split.
  - by intros n di [[_ ->]|[_ ->]]%demo_inode.
  - intros n di [[_ ->]|[_ ->]]%demo_inode; [intros _; apply demo_root_ok|done].
  - intros n di k [[_ ->]|[_ ->]]%demo_inode; [|done]. intros _ Hk _.
    change (k < 3)%nat in Hk. destruct k as [|[|[|k]]]; [| | |lia].
    + exists root_inode. replace (entry_inum _ _ _) with 1 by (by vm_compute). apply demo_live1.
    + exists root_inode. replace (entry_inum _ _ _) with 1 by (by vm_compute). apply demo_live1.
    + exists file_inode. replace (entry_inum _ _ _) with 2 by (by vm_compute). apply demo_live2.
Qed.

(** ** The theorems on the small disk *)

Lemma balloc_allocates_witness : exists t s', balloc ROOTDEV (demo_fs t no_inode) = Ret 16 s'.
Proof.
  destruct demo_txn as (t & Ht). exists t.
  destruct (balloc_allocates demo_geo (demo_fs t no_inode) demo_disk ∅ ∅) as (b & v' & t' & E & _ & Hr & Hu & Hb & _).
  - exact Ht.
  - apply demo_fs_geo.
  - apply demo_meta.
  - intros n Hn. rewrite map_img_empty_L in Hn. set_solver.
  - vm_compute. lia.
  - intros Hf. specialize (Hf 16 ltac:(simpl; lia)). by vm_compute in Hf.
  - exists (with_tx (demo_fs t no_inode) t'). replace 16 with b; [exact E|]. change (14 <= b < 22) in Hr.
    destruct (Z.lt_trichotomy b 16) as [Hl|[->|Hl]]; [|done|].
    + pose proof (all_below (used demo_disk demo_sb) 16 b ltac:(by vm_compute) ltac:(lia)) as H.
      cbn [sb demo_fs] in Hu. congruence.
    + specialize (Hb 16 ltac:(lia)). by vm_compute in Hb.
Defined.

Lemma bfree_frees_witness : exists t v' s', bfree ROOTDEV 15 (demo_fs t no_inode) = Ret tt s' /\ used v' demo_sb 15 = false.
Proof.
  destruct demo_txn as (t & Ht). exists t.
  assert (Hu15 : used demo_disk (sb (demo_fs t no_inode)) 15 = true) by (by vm_compute).
  pose proof (bfree_frees demo_geo (demo_fs t no_inode) demo_disk ∅ ∅ 15) as H. cbv zeta in H. rewrite Hu15 in H. clear Hu15.
  destruct H as (v' & t' & E & _ & Hu & _).
  - exact Ht.
  - apply demo_fs_geo.
  - intros n Hn. rewrite map_img_empty_L in Hn. set_solver.
  - vm_compute. lia.
  - split; by vm_compute.
  - exists v', (with_tx (demo_fs t no_inode) t'). split; [exact E|]. rewrite Hu, decide_True by (reflexivity || (split; by vm_compute)). reflexivity.
Defined.

Lemma dinode_roundtrip_witness : exists d, put_dinode root_inode zeros 128 = Some d /\ dinode_at d 128 = Some root_inode.
Proof.
  destruct (dinode_roundtrip root_inode zeros 128) as (d & E & H & _).
  - exact (fo_wf _ _ _ (wh_file _ _ _ (do_whole _ _ _ demo_root_ok))).
  - vm_compute. lia.
  - exists d. split; [exact E|exact H].
Defined.

Lemma iget_unique_witness : exists t i l, icache_ok demo_disk demo_sb l /\
  iget ROOTDEV 1 (demo_fs t (held_inode 1 root_inode false)) = Ret i (with_ic (demo_fs t (held_inode 1 root_inode false)) l).
Proof.
  destruct demo_txn as (t & Ht). exists t.
  destruct (iget_unique ROOTDEV 1 demo_disk demo_sb (demo_fs t (held_inode 1 root_inode false)))
    as [(i & l & E & I & _)|[E _]]; [apply demo_icache; by vm_compute| |].
  - by exists i, l.
  - discriminate E.
Defined.

(** No device has a driver. *)
Definition no_devices : list (driver (T := kstate)) := [].

Lemma writei_readi_witness : exists t t' s',
  writei no_devices 0 (chars " again") 5 (demo_fs t (held_inode 2 file_inode true)) = Ret 6 s' /\
  readi no_devices 0 5 6 s' = Ret (Some (chars " again")) (with_tx s' t').
Proof.
  destruct demo_txn as (t & Ht). exists t. pose proof (wh_file _ _ _ demo_file_ok) as F.
  destruct (writei_readi no_devices demo_geo (demo_fs t (held_inode 2 file_inode true)) demo_disk ∅ 0
    (held_inode 2 file_inode true) 5 (chars " again")) as (t1 & v' & L' & di' & E & _ & _ & _ & _ & t' & E').
  - exact (demo_file_at t 2 file_inode true Ht F).
  - exact demo_file_ok.
  - by vm_compute.
  - split; by vm_compute.
  - split; by vm_compute.
  - by vm_compute.
  - vm_compute. lia.
  - vm_compute. lia.
  - exists t', (with_di (demo_fs t (held_inode 2 file_inode true)) t1 0 (held_inode 2 file_inode true) di').
    split; [exact E|exact E'].
Defined.

Lemma writei_bounds_witness : exists t,
  writei no_devices 0 (chars "x") (140 * 512) (demo_fs t (held_inode 2 (one_block T_FILE 1 (140 * 512) 15) true)) =
  Ret (-1) (demo_fs t (held_inode 2 (one_block T_FILE 1 (140 * 512) 15) true)).
Proof.
  destruct demo_txn as (t & _). exists t. apply (writei_bounds no_devices _ 0 (held_inode 2 (one_block T_FILE 1 (140 * 512) 15) true)).
  - reflexivity.
  - by vm_compute.
  - split; by vm_compute.
  - by vm_compute.
  - right. by vm_compute.
Defined.

Lemma readi_reads_witness : exists t s',
  readi no_devices 0 1 9 (demo_fs t (held_inode 2 file_inode true)) = Ret (Some (chars "ello")) s'.
Proof.
  destruct demo_txn as (t & Ht). exists t. pose proof (wh_file _ _ _ demo_file_ok) as F.
  pose proof (readi_reads no_devices demo_geo (demo_fs t (held_inode 2 file_inode true)) demo_disk ∅ 0
    (held_inode 2 file_inode true) 1 9 (demo_file_at t 2 file_inode true Ht F) demo_file_ok
    ltac:(by vm_compute) ltac:(split; by vm_compute) ltac:(split; by vm_compute)) as H.
  apply wp_iff in H as (r & s' & E & _ & Hr). exists s'. rewrite E, Hr. reflexivity.
Defined.

Lemma demo_readable l : 0 ∈ take DIRSIZ l -> readable DIRSIZ l.
Proof. by right. Qed.

Lemma dirlink_adds_witness : exists t t' v' di',
  dirlink no_devices 0 (chars "b" ++ [0]) 2 (demo_fs t (held_inode 1 root_inode true)) =
    Ret 0 (with_di (demo_fs t (held_inode 1 root_inode true)) t' 0 (held_inode 1 root_inode true) di') /\
  dir_find v' di' (chars "b") = Some (48, 2).
Proof.
  destruct demo_txn as (t & Ht). exists t.
  destruct (dirlink_adds no_devices demo_geo (demo_fs t (held_inode 1 root_inode true)) demo_disk ∅ 0
    (held_inode 1 root_inode true) (chars "b" ++ [0]) 2) as (t' & v' & L' & di' & E & _ & _ & Hf).
  - exact (demo_file_at t 1 root_inode true Ht (wh_file _ _ _ (do_whole _ _ _ demo_root_ok))).
  - exact demo_root_ok.
  - apply demo_readable. by_decide.
  - apply demo_room.
  - split; [split; by vm_compute|by vm_compute|vm_compute; lia|vm_compute; lia].
  - split; by vm_compute.
  - by vm_compute.
  - exists t', v', di'. split; [exact E|]. rewrite Hf, decide_True by reflexivity.
    replace (dir_slot demo_disk (i_disk (held_inode 1 root_inode true))) with 48 by (by vm_compute). reflexivity.
Defined.

Lemma dirlink_dot_sleeps_witness : exists t s',
  dirlink no_devices 0 (chars "." ++ [0]) 2 (demo_fs t (held_inode 1 root_inode true)) = Stop (Sleeping "inode") s'.
Proof.
  destruct demo_txn as (t & Ht). exists t.
  apply (dirlink_dot_sleeps no_devices demo_geo (demo_fs t (held_inode 1 root_inode true)) demo_disk ∅ 0
    (held_inode 1 root_inode true) (chars "." ++ [0]) 2 0).
  - exact (demo_file_at t 1 root_inode true Ht (wh_file _ _ _ (do_whole _ _ _ demo_root_ok))).
  - exact demo_root_ok.
  - apply demo_readable. by_decide.
  - apply demo_room.
  - apply demo_icache. exact demo_inode1.
  - by vm_compute.
  - reflexivity.
  - by vm_compute.
Defined.

Lemma demo_walk t : txn demo_geo t demo_disk ∅ ∅ ∅ ->
  walk_at None demo_geo (demo_fs t (held_inode 1 root_inode false)) demo_disk ∅.
Proof.
  intros Ht. split; cbn [tx sb icache demo_fs]; [exact Ht|exact demo_fs_geo|by vm_compute|exact demo_meta|exact demo_tree|].
  split; [apply demo_icache; exact demo_inode1|..].
  - intros i ip [[_ ->]| ->]%demo_lookup; simpl; [|lia]. intros _. split; [reflexivity|]. exists root_inode. exact demo_live1.
  - intros i ip [[_ ->]| ->]%demo_lookup _; reflexivity.
Qed.

(** ["/./a"] is inode 2. *)
Lemma namex_resolves_witness : exists t r s' jp,
  namex no_devices 0 (chars "/./a" ++ [0]) false (replicate DIRSIZ 0) (demo_fs t (held_inode 1 root_inode false)) = Ret (Some r, jp.1) s' /\
  icache s' !! r = Some jp.2 /\ i_inum jp.2 = 2.
Proof.
  destruct demo_txn as (t & Ht). exists t.
  destruct (namex_resolves no_devices demo_geo (demo_fs t (held_inode 1 root_inode false)) demo_disk ∅ 0
    (held_inode 1 root_inode false) (chars "/./a" ++ [0]) false (replicate DIRSIZ 0)) as (r & s' & E & _ & _ & H).
  - apply demo_walk. exact Ht.
  - reflexivity.
  - by vm_compute.
  - by vm_compute.
  - exists root_inode. exact demo_live1.
  - by_decide.
  - reflexivity.
  - replace (resolve _ _ _ _ _) with (Some 2) in H by (by vm_compute).
    destruct H as (j & jp & Ej & Hj & (_ & _ & Hn) & _). exists j, s', (r.2, jp).
    split; [rewrite E; f_equal; destruct r; cbn [fst snd] in *; congruence|]. split; [exact Hj|exact Hn].
Defined.
