(* ===== verification/Grep.v ===== *)
(** * [grep] ([user/grep.c])

    The matcher for patterns with [^], [.], [*] and [$], and the loop that
    prints the lines of a file that match.  [match_], [matchhere] and
    [matchstar] translate the functions of the source; [matches] is what they
    decide, stated on the syntax tree of the pattern. *)

From S2P Require Import Prelude CStr USys.

Definition CARET : Z := 94.
Definition DOLLAR : Z := 36.
Definition STAR : Z := 42.
Definition DOT : Z := 46.
Definition NEWLINE : Z := 10.

(** ** The matcher

    Patterns and texts are terminated strings; reading past the end of one is
    [None].  [matchstar] is called by [matchhere] with the rest of the
    pattern, so it takes [matchhere] of that rest, and [matchhere] is
    structural in the pattern. *)

Fixpoint matchstar (here : list Z -> option bool) (c : Z) (text : list Z) : option bool :=
  match here text with
  | None => None
  | Some true => Some true
  | Some false =>
      match text with
      | [] => None
      | t :: text' => if negb (t =? 0) && ((t =? c) || (c =? DOT)) then matchstar here c text' else Some false
      end
  end.

Fixpoint matchhere (re text : list Z) : option bool :=
  match re with
  | [] => None
  | r0 :: re1 =>
      if r0 =? 0 then Some true
      else
        match re1 with
        | [] => None
        | r1 :: re2 =>
            if r1 =? STAR then matchstar (matchhere re2) r0 text
            else
              match text with
              | [] => None
              | t :: text1 =>
                  if (r0 =? DOLLAR) && (r1 =? 0) then Some (t =? 0)
                  else if negb (t =? 0) && ((r0 =? DOT) || (r0 =? t)) then matchhere re1 text1
                  else Some false
              end
        end
  end.

(** The loop of [match]. *)
Fixpoint match_loop (re text : list Z) : option bool :=
  match matchhere re text with
  | None => None
  | Some true => Some true
  | Some false =>
      match text with
      | [] => None
      | t :: text' => if negb (t =? 0) then match_loop re text' else Some false
      end
  end.

Definition match_ (re text : list Z) : option bool :=
  match re with
  | [] => None
  | r0 :: re1 => if r0 =? CARET then matchhere re1 text else match_loop re text
  end.

(** ** What it decides

    A pattern is a list of items, each a byte or any byte, once or any number
    of times; it may be tied to the start and to the end of the text. *)

Inductive item : Type :=
  | One (c : Z)
  | Many (c : Z).

Record regex : Type := { rx_start : bool; rx_items : list item; rx_end : bool }.

Fixpoint parse_items (re : list Z) : list item * bool :=
  match re with
  | [] => ([], false)
  | c :: re1 =>
      match re1 with
      | [] => if c =? DOLLAR then ([], true) else ([One c], false)
      | r :: re2 =>
          if r =? STAR then (Many c :: (parse_items re2).1, (parse_items re2).2)
          else (One c :: (parse_items re1).1, (parse_items re1).2)
      end
  end.

Definition parse_regex (re : list Z) : regex :=
  match re with
  | c :: re1 =>
      let start := c =? CARET in
      let r := parse_items (if start then re1 else re) in
      {| rx_start := start; rx_items := r.1; rx_end := r.2 |}
  | [] => {| rx_start := false; rx_items := []; rx_end := false |}
  end.

(** The texts a list of items stands for. *)
Definition fits (c x : Z) : Prop := c = DOT \/ c = x.

Fixpoint lang (l : list item) (w : list Z) : Prop :=
  match l with
  | [] => w = []
  | One c :: l' => exists x w', w = x :: w' /\ fits c x /\ lang l' w'
  | Many c :: l' => exists u w', w = u ++ w' /\ Forall (fits c) u /\ lang l' w'
  end.

Definition at_front (p : list item * bool) (text : list Z) : Prop :=
  exists mid post, text = mid ++ post /\ lang p.1 mid /\ (p.2 = true -> post = []).

Definition matches (rx : regex) (text : list Z) : Prop :=
  exists pre rest, text = pre ++ rest /\ (rx_start rx = true -> pre = []) /\ at_front (rx_items rx, rx_end rx) rest.

(** ** Correctness of the matcher *)

Definition decides (o : option bool) (P : Prop) : Prop := exists b, o = Some b /\ (b = true <-> P).

Lemma decides_ext o P Q : decides o P -> (P <-> Q) -> decides o Q.
Proof. intros (b & -> & H) E. exists b. by rewrite <- E. Qed.

Lemma fits_test c t : (t =? c) || (c =? DOT) = true <-> fits c t.
Proof. unfold fits. rewrite orb_true_iff, !Z.eqb_eq. naive_solver. Qed.

Lemma many_front c l e text :
  at_front (Many c :: l, e) text <->
  at_front (l, e) text \/ exists t text', text = t :: text' /\ fits c t /\ at_front (Many c :: l, e) text'.
Proof.
  unfold at_front. simpl. split.
  - intros (mid & post & -> & (u & w & -> & Hu & Hl) & He). destruct u as [|x u].
    + left. by exists w, post.
    + right. inv Hu. exists x, ((u ++ w) ++ post). split; [done|]. split; [done|]. exists (u ++ w), post. split; [done|].
      split; [|done]. by exists u, w.
  - intros [(mid & post & -> & Hl & He)|(t & text' & -> & Ht & mid & post & -> & (u & w & -> & Hu & Hl) & He)].
    + exists mid, post. split; [done|]. split; [|done]. by exists [], mid.
    + exists ((t :: u) ++ w), post. split; [done|]. split; [|done]. exists (t :: u), w. split; [done|]. split; [by constructor|done].
Qed.

Lemma one_front c l e text :
  at_front (One c :: l, e) text <-> exists t text', text = t :: text' /\ fits c t /\ at_front (l, e) text'.
Proof.
  unfold at_front. simpl. split.
  - intros (mid & post & -> & (x & w & -> & Hf & Hl) & He). exists x, (w ++ post). split; [done|]. split; [done|].
    by exists w, post.
  - intros (t & text' & -> & Hf & mid & post & -> & Hl & He). exists (t :: mid), post. split; [done|]. split; [|done].
    by exists t, mid.
Qed.

Lemma matchstar_ok here c l e text z : nonul text ->
  (forall t, nonul t -> decides (here (t ++ 0 :: z)) (at_front (l, e) t)) ->
  decides (matchstar here c (text ++ 0 :: z)) (at_front (Many c :: l, e) text).
Proof.
  intros Ht Hh. induction Ht as [|t text Hz Ht IH].
  - destruct (Hh [] ltac:(constructor)) as (b & E & Hb). exists b. cbn [app matchstar] in *. rewrite E.
    split; [by destruct b|]. rewrite many_front. naive_solver.
  - destruct (Hh (t :: text) ltac:(by constructor)) as (b & E & Hb). cbn [app matchstar] in *. rewrite E. destruct b.
    { exists true. split; [done|]. rewrite many_front. naive_solver. }
    rewrite (proj2 (Z.eqb_neq t 0)) by done. cbn [negb andb].
    destruct ((t =? c) || (c =? DOT)) eqn:Hf.
    + destruct IH as (b' & E' & Hb'). exists b'. split; [done|]. rewrite Hb', (many_front _ _ _ (t :: text)).
      apply fits_test in Hf. split; [naive_solver|]. intros [H|(x & w & [= <- <-] & _ & H)]; [|done]. by apply Hb in H.
    + exists false. split; [done|]. split; [done|]. rewrite many_front. intros [H|(x & w & [= <- <-] & H & _)]; [by apply Hb in H|].
      apply fits_test in H. congruence.
Qed.

Lemma matchhere_ok re text z : nonul re -> nonul text ->
  decides (matchhere (re ++ [0]) (text ++ 0 :: z)) (at_front (parse_items re) text).
Proof.
  remember (length re) as n eqn:En. revert re text En. induction (lt_wf n) as [n _ IH]. intros re text -> Hr Ht.
  destruct re as [|c re1]; [exists true; split; [done|]; split; [|done]; intros _; by exists [], text|].
  inv Hr as [|? ? Hc Hr1]. cbn [app matchhere parse_items]. rewrite (proj2 (Z.eqb_neq c 0)) by done.
  destruct re1 as [|r re2]; cbn [app].
  - cbn [Z.eqb STAR]. destruct text as [|t text]; cbn [app].
    + destruct (Z.eqb_spec c DOLLAR) as [->|Hd]; cbn [andb Z.eqb negb].
      * exists true. split; [done|]. split; [|done]. intros _. by exists [], [].
      * exists false. split; [done|]. split; [done|]. rewrite one_front. naive_solver.
    + inv Ht as [|? ? Hz Ht']. rewrite ?Z.eqb_refl, andb_true_r. destruct (Z.eqb_spec c DOLLAR) as [->|Hd].
      * rewrite (proj2 (Z.eqb_neq t 0)) by done. exists false. split; [done|]. split; [done|].
        intros (mid & post & E & Hl & Hp). simpl in *. subst mid. specialize (Hp eq_refl). by subst.
      * rewrite (proj2 (Z.eqb_neq t 0)) by done. cbn [negb andb]. rewrite orb_comm, (Z.eqb_sym c t).
        destruct ((t =? c) || (c =? DOT)) eqn:Hf.
        -- exists true. split; [done|]. split; [|done]. intros _. rewrite one_front. apply fits_test in Hf.
           exists t, text. split; [done|]. split; [done|]. by exists [], text.
        -- exists false. split; [done|]. split; [done|]. rewrite one_front. intros (x & w & [= <- <-] & H & _).
           apply fits_test in H. congruence.
  - inv Hr1 as [|? ? Hcr Hr2]. destruct (Z.eqb_spec r STAR) as [->|Hs].
    + apply matchstar_ok; [done|]. intros t Hnt. rewrite <- surjective_pairing. eapply IH; [|done|done|done]. simpl. lia.
    + rewrite (proj2 (Z.eqb_neq r 0)) by done. rewrite andb_false_r.
      destruct text as [|t text]; cbn [app]; [exists false; split; [done|]; split; [done|]; rewrite one_front; naive_solver|].
      inv Ht as [|? ? Hz Ht']. rewrite (proj2 (Z.eqb_neq t 0)) by done. cbn [negb andb]. rewrite orb_comm, (Z.eqb_sym c t).
      destruct ((t =? c) || (c =? DOT)) eqn:Hf.
      * destruct (IH (length (r :: re2)) ltac:(simpl; lia) (r :: re2) text eq_refl ltac:(by constructor) Ht') as (b & E & Hb).
        exists b. split; [exact E|]. rewrite Hb, one_front, <- surjective_pairing. apply fits_test in Hf. naive_solver.
      * exists false. split; [done|]. split; [done|]. rewrite one_front. intros (x & w & [= <- <-] & H & _).
        apply fits_test in H. congruence.
Qed.

Lemma match_loop_ok re text z : nonul re -> nonul text ->
  decides (match_loop (re ++ [0]) (text ++ 0 :: z)) (exists pre rest, text = pre ++ rest /\ at_front (parse_items re) rest).
Proof.
  intros Hr Ht. induction Ht as [|t text Hz Ht IH].
  - destruct (matchhere_ok re [] z Hr ltac:(constructor)) as (b & E & Hb). cbn [app match_loop] in *. rewrite E. exists b.
    split; [by destruct b|]. rewrite Hb. split; [intros H; by exists [], []|].
    intros (pre & rest & E' & H). by destruct (app_eq_nil _ _ (eq_sym E')) as [-> ->].
  - destruct (matchhere_ok re (t :: text) z Hr ltac:(by constructor)) as (b & E & Hb). cbn [app match_loop] in *. rewrite E.
    destruct b; [exists true; split; [done|]; split; [|done]; intros _; exists [], (t :: text); naive_solver|].
    rewrite (proj2 (Z.eqb_neq t 0)) by done. cbn [negb]. eapply decides_ext; [exact IH|]. split.
    + intros (pre & rest & -> & H). by exists (t :: pre), rest.
    + intros ([|x pre] & rest & E' & H); [simpl in E'; subst rest; by apply Hb in H|]. injection E' as <- ->. by exists pre, rest.
Qed.

Lemma match_ok re text z : nonul re -> nonul text ->
  decides (match_ (re ++ [0]) (text ++ 0 :: z)) (matches (parse_regex re) text).
Proof.
  intros Hr Ht. destruct re as [|c re].
  - cbn [app match_]. cbn [Z.eqb CARET]. exists true. split; [by destruct text|]. split; [|done]. intros _.
    exists [], text. split; [done|]. split; [done|]. by exists [], text.
  - cbn [app match_]. unfold parse_regex, matches. destruct (Z.eqb_spec c CARET) as [->|Hc]; cbn [rx_start rx_items rx_end].
    + inv Hr. eapply decides_ext; [by apply matchhere_ok|]. rewrite <- surjective_pairing. split.
      * intros H. by exists [], text.
      * by intros (pre & rest & -> & E & H); rewrite (E eq_refl).
    + eapply decides_ext; [by apply (match_loop_ok (c :: re))|]. rewrite <- surjective_pairing. naive_solver.
Qed.

(** C40. The matcher decides whether the pattern matches the text: for every
    pattern and text it returns, without reading outside either string, and
    the answer is 1 if and only if some part of the text (at the start for a
    pattern with [^], at the end for one with [$]) is in the language of the
    items of the pattern. *)
Theorem match_correct re text : nonul re -> nonul text ->
  exists b, match_ (re ++ [0]) (text ++ [0]) = Some b /\ (b = true <-> matches (parse_regex re) text).
Proof. apply match_ok. Qed.

Lemma match_correct_witness :
  match_ (chars "^ab*.$" ++ [0]) (chars "abbbc" ++ [0]) = Some true /\ matches (parse_regex (chars "^ab*.$")) (chars "abbbc").
Proof.
  destruct (match_correct (chars "^ab*.$") (chars "abbbc")) as (b & E & H); [by_decide|by_decide|].
  assert (b = true) as -> by (vm_compute in E; congruence). split; [exact E|by apply H].
Defined.

(** ** The loop over a file

    [buf] holds the 1024 bytes of the buffer, [m] of which are a line that is
    not complete. *)

Section grep.
Context {W : Type} {sys : Syscalls W}.

(** The loop over the lines of the buffer from [p] on: the buffer and the
    place where the last line, which is not complete, starts. *)
Fixpoint grep_lines (fuel : nat) (pattern buf : list Z) (p : nat) : M W (list Z * nat) :=
  match fuel with
  | O => halt Undefined
  | S fuel' =>
      let! q := lift (strchr (drop p buf) NEWLINE) in
      match q with
      | None => ret (buf, p)
      | Some k =>
          let q := (p + k)%nat in
          let! buf := lift (store buf q 0) in
          let! b := lift (match_ pattern (drop p buf)) in
          if b : bool then
            let! buf := lift (store buf q NEWLINE) in
            (u_write 1 (take (S k) (drop p buf)) then! grep_lines fuel' pattern buf (S q))
          else grep_lines fuel' pattern buf (S q)
      end
  end.

Definition BUFSIZE : nat := 1024.

(** [fuel] bounds the number of reads; the inner loop ends within the buffer. *)
Fixpoint grep_loop (fuel : nat) (pattern : list Z) (fd : Z) (buf : list Z) (m : nat) : M W unit :=
  match fuel with
  | O => halt Undefined
  | S fuel' =>
      let! r := u_read fd (Z.of_nat (BUFSIZE - m - 1)) in
      if 0 <? r.1 then
        let buf := splice buf m r.2 in
        let m := (m + Z.to_nat r.1)%nat in
        let! buf := lift (store buf m 0) in
        let! bp := grep_lines BUFSIZE pattern buf 0 in
        let m := if (bp.2 =? 0)%nat then O else m in
        if (0 <? m)%nat then
          let m := (m - bp.2)%nat in
          let! buf := lift (umemmove bp.1 0 bp.2 (Z.of_nat m)) in
          grep_loop fuel' pattern fd buf m
        else grep_loop fuel' pattern fd bp.1 m
      else ret tt
  end.

Definition grep (fuel : nat) (pattern : list Z) (fd : Z) : M W unit :=
  grep_loop fuel pattern fd (replicate BUFSIZE 0) 0.
End grep.

(** ** What [grep] prints *)

(** The lines of a text that end in a newline, and what is after the last
    newline. *)
Fixpoint full_lines (cur text : list Z) : list (list Z) :=
  match text with
  | [] => []
  | c :: r => if c =? NEWLINE then cur :: full_lines [] r else full_lines (cur ++ [c]) r
  end.

Fixpoint last_part (cur text : list Z) : list Z :=
  match text with
  | [] => cur
  | c :: r => if c =? NEWLINE then last_part [] r else last_part (cur ++ [c]) r
  end.

Definition hits (re l : list Z) : Prop := match_ (re ++ [0]) (l ++ [0]) = Some true.

#[export] Instance hits_dec re l : Decision (hits re l).
Proof. unfold hits. apply _. Defined.

Definition printed (re text : list Z) : list Z :=
  concat ((fun l => l ++ [NEWLINE]) <$> filter (hits re) (full_lines [] text)).

(** Every line fits in the buffer. *)
Definition short_lines (text : list Z) : Prop :=
  Forall (fun l => (length l < 1023)%nat) (full_lines [] text) /\ (length (last_part [] text) < 1023)%nat.

Lemma lines_none cur l : NEWLINE ∉ l -> full_lines cur l = [] /\ last_part cur l = cur ++ l.
Proof.
  revert cur. induction l as [|c l IH]; intros cur H; [by rewrite app_nil_r|]. cbn [full_lines last_part].
  rewrite not_elem_of_cons in H. destruct H as [H1 H2]. rewrite (proj2 (Z.eqb_neq c NEWLINE)) by done.
  destruct (IH (cur ++ [c]) H2) as [-> ->]. split; [done|]. by rewrite <- app_assoc.
Qed.

Lemma lines_first cur l r : NEWLINE ∉ l ->
  full_lines cur (l ++ NEWLINE :: r) = (cur ++ l) :: full_lines [] r /\ last_part cur (l ++ NEWLINE :: r) = last_part [] r.
Proof.
  revert cur. induction l as [|c l IH]; intros cur H; cbn [app full_lines last_part].
  - by rewrite app_nil_r.
  - rewrite not_elem_of_cons in H. destruct H as [H1 H2]. rewrite (proj2 (Z.eqb_neq c NEWLINE)) by done.
    destruct (IH (cur ++ [c]) H2) as [-> ->]. by rewrite <- app_assoc.
Qed.

Lemma lines_app a b :
  full_lines [] (a ++ b) = full_lines [] a ++ full_lines [] (last_part [] a ++ b) /\
  last_part [] (a ++ b) = last_part [] (last_part [] a ++ b) /\ NEWLINE ∉ last_part [] a.
Proof.
  remember (length a) as n eqn:E. revert a E. induction (lt_wf n) as [n _ IH]. intros a ->.
  destruct (decide (NEWLINE ∈ a)) as [H|H].
  - apply list_elem_of_split_l in H as (l & r & -> & Hl). rewrite <- app_assoc. cbn [app].
    destruct (lines_first [] l r Hl) as [-> ->], (lines_first [] l (r ++ b) Hl) as [-> ->].
    destruct (IH (length r) ltac:(rewrite length_app; simpl; lia) r eq_refl) as (-> & -> & Hn). done.
  - destruct (lines_none [] a H) as [-> ->]. done.
Qed.

Lemma printed_app re a b : printed re (a ++ b) = printed re a ++ printed re (last_part [] a ++ b).
Proof.
  unfold printed. destruct (lines_app a b) as (-> & _ & _). by rewrite list.filter_app, fmap_app, concat_app.
Qed.

Lemma short_app a b : short_lines (a ++ b) -> short_lines (last_part [] a ++ b).
Proof.
  unfold short_lines. destruct (lines_app a b) as (-> & -> & _). rewrite Forall_app. naive_solver.
Qed.

Lemma printed_none re l : NEWLINE ∉ l -> printed re l = [].
Proof. intros H. unfold printed. by destruct (lines_none [] l H) as [-> _]. Qed.

Lemma strchr_none l z : nonul l -> NEWLINE ∉ l -> strchr (l ++ 0 :: z) NEWLINE = Some None.
Proof.
  induction 1 as [|c l Hc _ IH]; intros H; [done|]. rewrite not_elem_of_cons in H. cbn [app strchr].
  rewrite (proj2 (Z.eqb_neq c 0)), (proj2 (Z.eqb_neq c NEWLINE)) by naive_solver. by rewrite IH by naive_solver.
Qed.

Lemma strchr_first l r : nonul l -> NEWLINE ∉ l -> strchr (l ++ NEWLINE :: r) NEWLINE = Some (Some (length l)).
Proof.
  induction 1 as [|c l Hc _ IH]; intros H; [done|]. rewrite not_elem_of_cons in H. cbn [app strchr].
  rewrite (proj2 (Z.eqb_neq c 0)), (proj2 (Z.eqb_neq c NEWLINE)) by naive_solver. by rewrite IH by naive_solver.
Qed.

Lemma match_text re l z : nonul re -> nonul l -> exists b, match_ (re ++ [0]) (l ++ 0 :: z) = Some b /\ (b = true <-> hits re l).
Proof.
  intros Hr Hl. destruct (match_ok re l z Hr Hl) as (b & -> & Hb), (match_ok re l [] Hr Hl) as (b' & E & Hb').
  exists b. split; [done|]. unfold hits. rewrite E, Hb, <- Hb'. naive_solver.
Qed.

Lemma put_after pre l (x y : Z) z : <[(length pre + length l)%nat := x]> (pre ++ l ++ y :: z) = pre ++ l ++ x :: z.
Proof. rewrite insert_app_r. f_equal. rewrite <- (Nat.add_0_r (length l)), insert_app_r. done. Qed.

Lemma take_line l (x : Z) r : take (S (length l)) (l ++ x :: r) = l ++ [x].
Proof. induction l; simpl; [done|]. by rewrite IHl. Qed.

Lemma drop_nth_tail (z : list Z) n : (n < length z)%nat -> exists y z', drop n z = y :: z'.
Proof.
  intros H. destruct (drop n z) as [|y z'] eqn:E; [|by exists y, z']. apply (f_equal length) in E.
  rewrite length_drop in E. simpl in E. lia.
Qed.

Lemma long_line l r : NEWLINE ∉ l -> (1023 <= length l)%nat -> ~ short_lines (l ++ r).
Proof.
  intros Hl Hlen [H1 H2]. destruct (decide (NEWLINE ∈ r)) as [H|H].
  - apply list_elem_of_split_l in H as (a & b & -> & Ha). rewrite app_assoc in H1.
    destruct (lines_first [] (l ++ a) b) as [E _]; [set_solver|]. rewrite E in H1. apply Forall_cons_iff in H1 as [H1 _].
    cbn [app] in H1. rewrite length_app in H1. lia.
  - destruct (lines_none [] (l ++ r)) as [_ E]; [set_solver|]. rewrite E in H2. cbn [app] in H2. rewrite length_app in H2. lia.
Qed.

Lemma last_part_nonul cur l : nonul cur -> nonul l -> nonul (last_part cur l).
Proof.
  intros Hc Hl. revert cur Hc. induction Hl as [|x l Hx Hl IH]; intros cur Hc; [done|]. cbn [last_part].
  destruct (x =? NEWLINE); apply IH; [constructor|]. apply Forall_app. split; [done|]. by repeat constructor.
Qed.

Lemma slice_mid (a b c : list Z) : slice (a ++ b ++ c) (length a) (length b) = b.
Proof. unfold slice. by rewrite drop_app_length, take_app_length. Qed.

Section correct.
Context {W : Type} {sys : Syscalls W}.
(** [R w inp out]: the bytes that reading [fd] has yet to return, and those
    written to descriptor 1. *)
Context (fd : Z) (R : W -> list Z -> list Z -> Prop).

(** [fd] is an open file, and descriptor 1 takes all that is written. *)
Definition reads_file : Prop := forall w inp out n, R w inp out -> (0 < n)%nat ->
  exists w', u_read fd (Z.of_nat n) w = Ret (Z.of_nat (length (take n inp)), take n inp) w' /\ R w' (drop n inp) out.
Definition writes_out : Prop := forall w inp out s, R w inp out ->
  exists k w', u_write 1 s w = Ret k w' /\ R w' inp (out ++ s).

Hypotheses (Hread : reads_file) (Hwrite : writes_out).

Lemma grep_lines_ok fuel re pre text z w inp out : nonul re -> nonul text -> (length text < fuel)%nat ->
  R w inp out ->
  wp (grep_lines fuel (re ++ [0]) (pre ++ text ++ 0 :: z) (length pre)) w (fun r w' =>
    exists pre', r = (pre' ++ last_part [] text ++ 0 :: z, length pre') /\
      (length pre' + length (last_part [] text) = length pre + length text)%nat /\
      R w' inp (out ++ printed re text)).
Proof.
  intros Hr. revert pre text w out. induction fuel as [|fuel IH]; intros pre text w out Ht Hf HR; [lia|].
  cbn [grep_lines]. rewrite drop_app_length. destruct (decide (NEWLINE ∈ text)) as [H|H].
  2: { apply wp_bind. eapply wp_lift; [by apply strchr_none|]. apply wp_ret. unfold printed.
       destruct (lines_none [] text H) as [-> ->]. cbn. rewrite app_nil_r. by exists pre. }
  apply list_elem_of_split_l in H as (l & r & -> & Hl). apply Forall_app in Ht as [Hnl [_ Hnr]%Forall_cons_iff].
  rewrite length_app in Hf. cbn [length] in Hf. rewrite <- !app_assoc. cbn [app].
  apply wp_bind. eapply wp_lift; [by apply strchr_first|].
  apply wp_bind. eapply wp_lift; [apply store_in; rewrite !length_app; cbn; lia|].
  rewrite put_after, drop_app_length. destruct (match_text re l (r ++ 0 :: z) Hr Hnl) as (b & Eb & Hb).
  apply wp_bind. eapply wp_lift; [exact Eb|].
  assert (Hrec : forall x w1 out1, R w1 inp out1 ->
    wp (grep_lines fuel (re ++ [0]) (pre ++ l ++ x :: r ++ 0 :: z) (S (length pre + length l))) w1 (fun r' w' =>
      exists pre', r' = (pre' ++ last_part [] r ++ 0 :: z, length pre') /\
        (length pre' + length (last_part [] r) = length pre + length (l ++ x :: r))%nat /\ R w' inp (out1 ++ printed re r))).
  { intros x w1 out1 HR1. specialize (IH (pre ++ l ++ [x]) r w1 out1 Hnr ltac:(lia) HR1).
    rewrite <- !app_assoc in IH. cbn [app] in IH. replace (length (pre ++ l ++ [x])) with (S (length pre + length l)) in IH
      by (rewrite !length_app; cbn; lia).
    eapply wp_mono; [exact IH|]. intros r' w' (pre' & -> & E & HR'). exists pre'. split; [done|]. split; [|done].
    rewrite E, length_app. cbn. lia. }
  unfold printed. destruct (lines_first [] l r Hl) as [-> ->]. cbn [app]. destruct b.
  - apply wp_bind. eapply wp_lift; [apply store_in; rewrite !length_app; cbn; lia|].
    rewrite put_after, drop_app_length, take_line. destruct (Hwrite w inp out (l ++ [NEWLINE]) HR) as (k & w' & Ew & HR').
    apply wp_bind. apply wp_iff. exists k, w'. split; [done|]. rewrite filter_cons_True by (by apply Hb).
    cbn [fmap list_fmap concat]. eapply wp_mono; [by apply Hrec|]. intros r' w2 (pre' & -> & E & HR2).
    exists pre'. split_and!; try done. by rewrite app_assoc.
  - rewrite filter_cons_False by (intros H; by apply Hb in H). eapply wp_mono; [by apply Hrec|].
    intros r' w2 (pre' & -> & E & HR2). exists pre'. split; [done|]. split; [by rewrite E, !length_app|done].
Qed.

(** At the end of the file. *)
Lemma wp_empty fuel re buf w out : (0 < fuel)%nat -> R w [] out ->
  wp (grep_loop fuel re fd buf 0) w (fun _ w' => R w' [] out).
Proof.
  intros Hf HR. destruct fuel as [|fuel]; [lia|]. cbn [grep_loop].
  destruct (Hread w [] out (BUFSIZE - 0 - 1)%nat HR ltac:(unfold BUFSIZE; lia)) as (w1 & E & HR1).
  apply wp_bind, wp_iff. do 2 eexists. split; [exact E|]. rewrite take_nil. apply wp_ret. by rewrite drop_nil in HR1.
Qed.

(** The buffer starts with the line that is not complete. *)
Lemma grep_loop_ok fuel re buf carry z w inp out : nonul re -> nonul (carry ++ inp) -> short_lines (carry ++ inp) ->
  buf = carry ++ z -> length buf = BUFSIZE -> NEWLINE ∉ carry -> (length carry < 1023)%nat -> (length inp < fuel)%nat ->
  R w inp out ->
  wp (grep_loop fuel (re ++ [0]) fd buf (length carry)) w (fun _ w' => R w' [] (out ++ printed re (carry ++ inp))).
Proof.
  intros Hr. revert buf carry z w inp out. induction fuel as [|fuel IH];
    intros buf carry z w inp out Hn Hs -> Hlen Hc Hm Hf HR; [lia|]. cbn [grep_loop].
  unfold BUFSIZE in *. set (n := (1024 - length carry - 1)%nat) in *. assert (Hpos : (0 < n)%nat) by lia.
  destruct (Hread w inp out n HR Hpos) as (w1 & E & HR1). apply wp_bind, wp_iff. do 2 eexists. split; [exact E|].
  cbn [fst snd]. destruct (decide (inp = [])) as [->|Hne].
  { rewrite take_nil. cbn [length Z.of_nat Z.ltb Z.compare]. apply wp_ret. rewrite app_nil_r, printed_none, app_nil_r by done.
    by rewrite drop_nil in HR1. }
  assert (Hi : (0 < length inp)%nat) by (destruct inp; [done|simpl; lia]).
  set (d := take n inp) in *. assert (Hd : (0 < length d)%nat) by (unfold d; rewrite length_take; lia).
  assert (Hdn : (length carry + length d <= 1023)%nat) by (unfold d; rewrite length_take; lia).
  rewrite (proj2 (Z.ltb_lt _ _)) by lia. rewrite Nat2Z.id. rewrite length_app in Hlen.
  assert (Hinp : inp = d ++ drop n inp) by (unfold d; by rewrite take_drop).
  destruct (drop_nth_tail z (length d)) as (y & z' & Ez); [lia|].
  assert (Esp : splice (carry ++ z) (length carry) d = carry ++ d ++ y :: z').
  { unfold splice. rewrite take_app_length, drop_app_ge by lia. do 2 f_equal. rewrite <- Ez. f_equal. lia. }
  rewrite Esp. apply wp_bind. eapply wp_lift; [apply store_in; rewrite !length_app; cbn; lia|]. rewrite put_after.
  rewrite Hinp, app_assoc in Hn, Hs. apply Forall_app in Hn as [Hn1 Hn2].
  apply wp_bind. eapply wp_mono.
  { rewrite app_assoc. apply (grep_lines_ok 1024 re [] (carry ++ d) z' w1 (drop n inp) out Hr Hn1); [rewrite length_app; lia|exact HR1]. }
  cbn [app]. intros r w2 (pre & -> & Hpl & HR2). cbn [fst snd length app] in *. rewrite length_app in Hpl.
  replace (carry ++ inp) with ((carry ++ d) ++ drop n inp) by (by rewrite <- app_assoc, <- Hinp).
  rewrite printed_app. destruct (lines_app (carry ++ d) (drop n inp)) as (L1 & L2 & L3).
  destruct (Nat.eqb_spec (length pre) 0) as [Hz|Hz].
  - destruct pre; [|done]. cbn [app Nat.ltb Nat.leb length] in *.
    assert (Hend : drop n inp = []).
    { destruct (decide (drop n inp = [])) as [|Hmore]; [done|]. exfalso. apply (long_line (last_part [] (carry ++ d)) (drop n inp)).
      - done.
      - assert (length d = n); [|lia]. unfold d. rewrite length_take_le; [done|]. apply Nat.lt_le_incl, Nat.nle_gt.
        by intros ?%drop_ge.
      - by apply short_app. }
    rewrite Hend, app_nil_r in *. rewrite (printed_none re _ L3), app_nil_r. apply (wp_empty fuel (re ++ [0])); [lia|done].
  - rewrite (proj2 (Nat.ltb_lt _ _)) by lia. replace (length carry + length d - length pre)%nat with (length (last_part [] (carry ++ d))) by lia.
    apply wp_bind. eapply wp_lift;
      [unfold umemmove; rewrite Nat2Z.id; apply copy_up_splice; rewrite ?length_app; cbn; lia|].
    rewrite slice_mid, (app_assoc out). eapply (IH _ (last_part [] (carry ++ d))); try done.
    + apply Forall_app. split; [|done]. apply last_part_nonul; [constructor|done].
    + by apply short_app.
    + apply (f_equal length) in Ez. rewrite length_drop in Ez. cbn [length] in Ez.
      rewrite splice_length; rewrite !length_app; cbn [length]; lia.
    + lia.
    + rewrite length_drop. lia.
Qed.

(** On a file whose lines fit in the buffer, [grep] prints exactly the
    lines that match, in order and with their newlines, and ends when the
    file does; what is after the last newline is not printed. *)
Theorem grep_prints fuel re data w out : nonul re -> nonul data -> short_lines data -> (length data < fuel)%nat ->
  R w data out ->
  exists w', grep fuel (re ++ [0]) fd w = Ret tt w' /\ R w' [] (out ++ printed re data).
Proof.
  intros Hr Hn Hs Hf HR.
  assert (H : wp (grep fuel (re ++ [0]) fd) w (fun _ w' => R w' [] (out ++ printed re data))).
  { apply (grep_loop_ok fuel re (replicate BUFSIZE 0) [] (replicate BUFSIZE 0)); try done.
    - apply not_elem_of_nil.
    - cbn. lia. }
  apply wp_iff in H as ([] & w' & E & H). by exists w'.
Qed.
End correct.

(** ** In the world of [toy]

    Descriptor 3 is the file ["i"] and descriptor 1 the file ["o"]. *)

Definition toy_grep (pre inp out : list Z) : toy :=
  {| toy_files := <[chars "i" := pre ++ inp]> {[chars "o" := out]};
     toy_fds := [None; Some (chars "o", length out); None; Some (chars "i", length pre)]; toy_out := [] |}.

Definition toy_at (w : toy) (inp out : list Z) : Prop := exists pre, w = toy_grep pre inp out.

Lemma toy_reads : reads_file 3 toy_at.
Proof.
  intros w inp out n [pre ->] Hn. cbn [u_read toy_syscalls]. unfold toy_read.
  change (toy_fds (toy_grep pre inp out) !! Z.to_nat 3) with (Some (Some (chars "i", length pre))).
  assert (E : default [] (toy_files (toy_grep pre inp out) !! chars "i") = pre ++ inp).
  { unfold toy_grep. cbn [toy_files]. by rewrite lookup_insert_eq. }
  cbv beta iota zeta. rewrite E, Nat2Z.id, drop_app_length. eexists. split; [done|]. exists (pre ++ take n inp). unfold toy_grep. f_equal.
  - cbn [toy_files]. by rewrite <- app_assoc, take_drop.
  - rewrite length_app. done.
Qed.

Lemma toy_writes : writes_out toy_at.
Proof.
  intros w inp out s [pre ->]. cbn [u_write toy_syscalls]. unfold toy_write.
  change (toy_fds (toy_grep pre inp out) !! Z.to_nat 1) with (Some (Some (chars "o", length out))).
  do 2 eexists. split; [done|]. exists pre. unfold toy_grep. cbn [toy_files]. f_equal.
  - rewrite lookup_insert_ne, lookup_singleton_eq by done. cbn [default from_option id].
    rewrite take_ge, drop_ge, app_nil_r by lia. rewrite insert_insert_ne by done. by rewrite insert_singleton_eq.
  - cbn [insert list_insert]. by rewrite length_app.
Qed.

Definition demo_text : list Z := chars "one" ++ [NEWLINE] ++ chars "two" ++ [NEWLINE] ++ chars "on".

Lemma grep_prints_witness : exists w',
  grep 20 (chars "^o" ++ [0]) 3 (toy_grep [] demo_text []) = Ret tt w' /\ toy_at w' [] (chars "one" ++ [NEWLINE]).
Proof.
  apply (grep_prints 3 toy_at toy_reads toy_writes 20 (chars "^o") demo_text (toy_grep [] demo_text []) []).
  - by_decide.
  - by_decide.
  - split; [by_decide|vm_compute; lia].
  - vm_compute. lia.
  - by exists [].
Defined.

(** ** Input from a pipe

    A pipe returns what has been written to it so far. *)

#[local] Instance chunks : Syscalls (list (list Z) * list Z) := {
  u_open _ _ := ret (-1);
  u_read _ _ w := match w.1 with [] => Ret (0, []) w | c :: cs => Ret (Z.of_nat (length c), c) (cs, w.2) end;
  u_write _ s w := Ret (Z.of_nat (length s)) (w.1, w.2 ++ s);
  u_close _ := ret 0;
  u_printf s w := Ret tt (w.1, w.2 ++ s);
  u_malloc _ := ret true
}.

(** When the bytes that [read] returns have no newline, [grep] forgets
    them: a line that reaches it in two parts, as through a pipe, is matched
    without its first part. *)
Theorem grep_loses_part :
  grep 5 (chars "^ab" ++ [0]) 0 ([chars "ab"; chars "c" ++ [NEWLINE]], []) = Ret tt ([], []) /\
  printed (chars "^ab") (chars "abc" ++ [NEWLINE]) = chars "abc" ++ [NEWLINE].
Proof. by split; vm_compute. Qed.
