(* ===== verification/Sh.v ===== *)
(** * The shell ([user/sh.c])

    The parser of command lines and the runner of the commands it returns.
    The parser works on the line in place: it moves a pointer from the start
    of the line to its end, and the nodes of the tree it builds point to the
    start and the end of each word in the line, which [nulterminate] turns
    into strings.  A pointer into the line is the number of bytes before it;
    the functions of the parser take the bytes from the pointer to the end.

    The recursion of the parser is not structural: it has fuel, and
    [parse_total] shows that [parse_fuel] is enough on every line. *)

From S2P Require Import Prelude CStr Perm.

Definition MAXARGS : nat := 10.

(** [struct cmd] and its five kinds. *)
Inductive cmd : Type :=
  | EXEC (argv : list (nat * nat))                     (* the used part of argv and eargv *)
  | REDIR (c : cmd) (file efile : nat) (mode fd : Z)
  | PIPE (left right : cmd)
  | LIST (left right : cmd)
  | BACK (c : cmd).

(** The constructors; [malloc] is taken to return a block. *)
Definition execcmd : cmd := EXEC [].
Definition redircmd (subcmd : cmd) (file efile : nat) (mode fd : Z) : cmd := REDIR subcmd file efile mode fd.
Definition pipecmd (left right : cmd) : cmd := PIPE left right.
Definition listcmd (left right : cmd) : cmd := LIST left right.
Definition backcmd (subcmd : cmd) : cmd := BACK subcmd.

(** What a function of the parser returns; [panic] prints a message and exits. *)
Inductive result (A : Type) : Type :=
  | Ok (a : A)
  | Panic (msg : string)
  | NoFuel.
Arguments Ok {A} a.
Arguments Panic {A} msg.
Arguments NoFuel {A}.

Definition rbind {A B} (m : result A) (f : A -> result B) : result B :=
  match m with Ok a => f a | Panic e => Panic e | NoFuel => NoFuel end.

Notation "'let*' x := m 'in' f" := (rbind m (fun x => f))
  (at level 10, x pattern, m at level 100, f at level 200).

(** ** Tokens *)

Definition whitespace : list Z := [32; 9; 13; 10; 11].
Definition symbols : list Z := chars "<|>&;()".

(** [strchr(toks, c)] is not null. *)
Definition member (toks : list Z) (c : Z) : bool :=
  match strchr (toks ++ [0]) c with Some (Some _) => true | _ => false end.

Fixpoint skip_ws (s : list Z) : list Z :=
  match s with
  | c :: r => if member whitespace c then skip_ws r else s
  | [] => []
  end.

Fixpoint skip_word (s : list Z) : list Z :=
  match s with
  | c :: r => if negb (member whitespace c) && negb (member symbols c) then skip_word r else s
  | [] => []
  end.

Record token : Type := { tok : Z; tok_q : list Z; tok_eq : list Z; tok_rest : list Z }.

Definition BAR : Z := 124.
Definition LPAREN : Z := 40.
Definition RPAREN : Z := 41.
Definition SEMI : Z := 59.
Definition AMP : Z := 38.
Definition LESS : Z := 60.
Definition GREATER : Z := 62.
Definition PLUS : Z := 43.
Definition WORD : Z := 97.

Definition gettoken (s : list Z) : token :=
  let s := skip_ws s in
  let '(ret, e) :=
    match s with
    | [] => (0, s)
    | c :: r =>
        if c =? 0 then (0, s)
        else if (c =? BAR) || (c =? LPAREN) || (c =? RPAREN) || (c =? SEMI) || (c =? AMP) || (c =? LESS) then (c, r)
        else if c =? GREATER then
          match r with
          | c2 :: r2 => if c2 =? GREATER then (PLUS, r2) else (c, r)
          | [] => (c, r)
          end
        else (WORD, skip_word s)
    end in
  {| tok := ret; tok_q := s; tok_eq := e; tok_rest := skip_ws e |}.

(** The new pointer and whether the next byte is in [toks]. *)
Definition peek (s toks : list Z) : list Z * bool :=
  let s := skip_ws s in
  (s, match s with c :: _ => negb (c =? 0) && member toks c | [] => false end).

(** ** The parser *)

Section parser.
(** The length of the line. *)
Variable es : nat.

Definition ptr (s : list Z) : nat := (es - length s)%nat.

Fixpoint parseredirs (fuel : nat) (c : cmd) (s : list Z) : result (cmd * list Z) :=
  match fuel with
  | O => NoFuel
  | S fuel' =>
      let (s, b) := peek s [LESS; GREATER] in
      if b then
        let t := gettoken s in
        let w := gettoken (tok_rest t) in
        if negb (tok w =? WORD) then Panic "missing file for redirection"
        else
          let redir mode fd := redircmd c (ptr (tok_q w)) (ptr (tok_eq w)) mode fd in
          let c :=
            if tok t =? LESS then redir O_RDONLY 0
            else if tok t =? GREATER then redir (Z.lor O_WRONLY O_CREATE) 1
            else if tok t =? PLUS then redir (Z.lor O_WRONLY O_CREATE) 1
            else c in
          parseredirs fuel' c (tok_rest w)
      else Ok (c, s)
  end.

(** [parseexec] fills in the node of the command while the redirections
    around it are built: the node is the innermost one. *)
Fixpoint fill (argv : list (nat * nat)) (c : cmd) : cmd :=
  match c with
  | REDIR c f e mode fd => REDIR (fill argv c) f e mode fd
  | EXEC _ => EXEC argv
  | _ => c
  end.

(** The loop of [parseexec]. *)
Fixpoint parseargs (fuel : nat) (argv : list (nat * nat)) (c : cmd) (s : list Z) : result (cmd * list Z) :=
  match fuel with
  | O => NoFuel
  | S fuel' =>
      let (s, b) := peek s [BAR; RPAREN; AMP; SEMI] in
      if b then Ok (c, s)
      else
        let t := gettoken s in
        if tok t =? 0 then Ok (c, tok_rest t)
        else if negb (tok t =? WORD) then Panic "syntax"
        else
          let argv := argv ++ [(ptr (tok_q t), ptr (tok_eq t))] in
          if (MAXARGS <=? length argv)%nat then Panic "too many args"
          else
            let* (c, s) := parseredirs (S (length (tok_rest t))) (fill argv c) (tok_rest t) in
            parseargs fuel' argv c s
  end.

(** The loop over [&] in [parseline]. *)
Fixpoint parsebacks (fuel : nat) (c : cmd) (s : list Z) : result (cmd * list Z) :=
  match fuel with
  | O => NoFuel
  | S fuel' =>
      let (s, b) := peek s [AMP] in
      if b then parsebacks fuel' (backcmd c) (tok_rest (gettoken s)) else Ok (c, s)
  end.

Fixpoint parseline (fuel : nat) (s : list Z) : result (cmd * list Z) :=
  match fuel with
  | O => NoFuel
  | S fuel' =>
      let* (c, s) := parsepipe fuel' s in
      let* (c, s) := parsebacks (S (length s)) c s in
      let (s, b) := peek s [SEMI] in
      if b then
        let* (r, s) := parseline fuel' (tok_rest (gettoken s)) in Ok (listcmd c r, s)
      else Ok (c, s)
  end
with parsepipe (fuel : nat) (s : list Z) : result (cmd * list Z) :=
  match fuel with
  | O => NoFuel
  | S fuel' =>
      let* (c, s) := parseexec fuel' s in
      let (s, b) := peek s [BAR] in
      if b then
        let* (r, s) := parsepipe fuel' (tok_rest (gettoken s)) in Ok (pipecmd c r, s)
      else Ok (c, s)
  end
with parseexec (fuel : nat) (s : list Z) : result (cmd * list Z) :=
  match fuel with
  | O => NoFuel
  | S fuel' =>
      let (s, b) := peek s [LPAREN] in
      if b then parseblock fuel' s
      else
        let* (c, s) := parseredirs (S (length s)) execcmd s in
        parseargs (S (length s)) [] c s
  end
with parseblock (fuel : nat) (s : list Z) : result (cmd * list Z) :=
  match fuel with
  | O => NoFuel
  | S fuel' =>
      let (s, b) := peek s [LPAREN] in
      if negb b then Panic "parseblock"
      else
        let* (c, s) := parseline fuel' (tok_rest (gettoken s)) in
        let (s, b) := peek s [RPAREN] in
        if negb b then Panic "syntax - missing )"
        else
          let s := tok_rest (gettoken s) in
          parseredirs (S (length s)) c s
  end.
End parser.

(** ** [nulterminate] *)

(** [*p = 0] for the ends of the words. *)
Fixpoint terminate (ends : list nat) (buf : list Z) : option (list Z) :=
  match ends with
  | [] => Some buf
  | e :: ends' => b ← store buf e 0; terminate ends' b
  end.

Fixpoint nulterminate (c : cmd) (buf : list Z) : option (list Z) :=
  match c with
  | EXEC argv => terminate argv.*2 buf
  | REDIR c _ efile _ _ => b ← nulterminate c buf; store b efile 0
  | PIPE l r => b ← nulterminate l buf; nulterminate r b
  | LIST l r => b ← nulterminate l buf; nulterminate r b
  | BACK c => nulterminate c buf
  end.

Definition parse_fuel (s : list Z) : nat := 4 * S (length s).

(** [parsecmd] on a terminated line: the tree and the line after
    [nulterminate], which is undefined if a word ends outside the buffer. *)
Definition parsecmd (s : list Z) : result (cmd * option (list Z)) :=
  let* (c, r) := parseline (length s) (parse_fuel s) s in
  let (r, _) := peek r [] in
  match r with
  | [] => Ok (c, nulterminate c (s ++ [0]))
  | _ => Panic "syntax"
  end.

(** ** Tokens: what they consume *)

Definition word_char (c : Z) : bool := negb (member whitespace c) && negb (member symbols c).

Lemma zero_symbol : 0 ∉ symbols.
Proof. by_decide. Qed.

Lemma member_in toks c : nonul toks -> c <> 0 -> member toks c = true <-> c ∈ toks.
Proof.
  intros Ht Hc. unfold member. destruct (strchr_mem toks [] c Ht Hc) as (o & -> & <-). destruct o; split; try done; by intros [].
Qed.

Lemma skip_ws_head s c r : skip_ws s = c :: r -> member whitespace c = false.
Proof.
  induction s as [|a s IH]; [done|]. cbn [skip_ws]. destruct (member whitespace a) eqn:E; [done|]. by intros [= <- <-].
Qed.

Lemma skip_ws_length s : (length (skip_ws s) <= length s)%nat.
Proof. induction s as [|c s IH]; [done|]. cbn [skip_ws]. destruct (member whitespace c); simpl in *; lia. Qed.

Lemma skip_ws_idem s : skip_ws (skip_ws s) = skip_ws s.
Proof.
  induction s as [|c s IH]; [done|]. cbn [skip_ws]. destruct (member whitespace c) eqn:E; [done|].
  cbn [skip_ws]. by rewrite E.
Qed.

Lemma skip_word_split s : exists w, s = w ++ skip_word s /\ Forall (fun c => word_char c = true) w /\
  (forall c r, skip_word s = c :: r -> word_char c = false).
Proof.
  induction s as [|c s IH]; [by exists []|]. cbn [skip_word]. fold (word_char c). destruct (word_char c) eqn:E.
  - destruct IH as (w & Es & Hw & Hr). exists (c :: w). cbn [app]. rewrite <- Es. split_and!; [done|by constructor|done].
  - exists []. split_and!; [done|constructor|]. by intros c' r [= <- <-].
Qed.

Lemma skip_ws_split s : exists w, s = w ++ skip_ws s.
Proof.
  induction s as [|c s IH]; [by exists []|]. cbn [skip_ws]. destruct (member whitespace c); [|by exists []].
  destruct IH as (w & E). exists (c :: w). cbn [app]. by rewrite <- E.
Qed.

(** [is_suffix text s]: the pointer is in the line. *)
Definition is_suffix (text s : list Z) : Prop := exists pre, text = pre ++ s.

Lemma suffix_trans text s w r : is_suffix text s -> s = w ++ r -> is_suffix text r.
Proof. intros [pre ->] ->. exists (pre ++ w). by rewrite <- app_assoc. Qed.

Lemma suffix_ws text s : is_suffix text s -> is_suffix text (skip_ws s).
Proof. intros H. destruct (skip_ws_split s) as (w & E). by eapply suffix_trans. Qed.

Lemma suffix_ptr text pre s : text = pre ++ s -> ptr (length text) s = length pre.
Proof. intros ->. unfold ptr. rewrite length_app. lia. Qed.

(** The shape of a token: what it consumes, and what it is. *)
Lemma gettoken_split s : exists w, skip_ws s = w ++ tok_eq (gettoken s) /\ tok_q (gettoken s) = skip_ws s /\
  tok_rest (gettoken s) = skip_ws (tok_eq (gettoken s)) /\
  (tok (gettoken s) <> 0 -> w <> []) /\
  (tok (gettoken s) = WORD -> Forall (fun c => word_char c = true) w /\
     forall c r, tok_eq (gettoken s) = c :: r -> word_char c = false).
Proof.
  unfold gettoken. destruct (skip_ws s) as [|c r] eqn:Es; [by exists []|].
  destruct (Z.eqb_spec c 0) as [->|H0]; [by exists []|].
  destruct ((c =? BAR) || (c =? LPAREN) || (c =? RPAREN) || (c =? SEMI) || (c =? AMP) || (c =? LESS)) eqn:Hc.
  { exists [c]. cbn. split_and!; try done. intros ->. done. }
  destruct (Z.eqb_spec c GREATER) as [->|Hg].
  { destruct r as [|c2 r]; [by exists [GREATER]|]. destruct (Z.eqb_spec c2 GREATER) as [->|];
      [by exists [GREATER; GREATER]|by exists [GREATER]]. }
  destruct (skip_word_split (c :: r)) as (w & E & Hw & Hr). exists w. cbn [tok tok_q tok_eq tok_rest]. split_and!; try done.
  intros _ ->. cbn [app] in E. rewrite <- E in Hr. specialize (Hr c r eq_refl).
  unfold word_char in Hr. rewrite (skip_ws_head _ _ _ Es) in Hr. cbn [negb andb] in Hr. apply negb_false_iff in Hr.
  apply member_in in Hr; [|by_decide|done]. unfold symbols in Hr. cbn in Hr.
  rewrite !orb_false_iff, !Z.eqb_neq in Hc. unfold BAR, LPAREN, RPAREN, SEMI, AMP, LESS, GREATER in *. set_solver.
Qed.

Lemma gettoken_less s : tok (gettoken s) <> 0 -> (length (tok_rest (gettoken s)) < length s)%nat.
Proof.
  intros Ht. destruct (gettoken_split s) as (w & E & _ & -> & Hw & _). specialize (Hw Ht).
  pose proof (skip_ws_length (tok_eq (gettoken s))). pose proof (skip_ws_length s). rewrite E, length_app in *.
  destruct w; [done|]. simpl in *. lia.
Qed.

Lemma gettoken_suffix text s : is_suffix text s -> is_suffix text (tok_rest (gettoken s)).
Proof.
  intros H. destruct (gettoken_split s) as (w & E & _ & -> & _). apply suffix_ws. eapply suffix_trans; [by apply suffix_ws|exact E].
Qed.

(** A token that [peek] has seen. *)
Lemma peek_token s toks : nonul toks -> (forall c, c ∈ toks -> c ∈ symbols) -> (peek s toks).2 = true ->
  tok (gettoken (peek s toks).1) <> 0.
Proof.
  intros Hn Ht. unfold peek, gettoken. cbn [fst snd]. rewrite skip_ws_idem. destruct (skip_ws s) as [|c r]; [done|].
  destruct (Z.eqb_spec c 0); [done|]. cbn [negb andb]. intros Hm. apply member_in in Hm; [|done|done]. apply Ht in Hm.
  destruct (_ || _); [done|]. destruct (c =? GREATER); [|done]. destruct r as [|c2 r]; [done|]. by destruct (c2 =? GREATER).
Qed.

(** ** The words of a command *)

Fixpoint words_of (c : cmd) : list (nat * nat) :=
  match c with
  | EXEC argv => argv
  | REDIR c f e _ _ => words_of c ++ [(f, e)]
  | PIPE l r => words_of l ++ words_of r
  | LIST l r => words_of l ++ words_of r
  | BACK c => words_of c
  end.

(** A word of the line: word bytes, and no word byte after it. *)
Definition word_at (text : list Z) (p : nat * nat) : Prop :=
  exists pre w post, text = pre ++ w ++ post /\ p = (length pre, (length pre + length w)%nat) /\ w <> [] /\
    Forall (fun c => word_char c = true) w /\ (forall c r, post = c :: r -> word_char c = false).

Definition words_ok (text : list Z) (c : cmd) : Prop := Forall (word_at text) (words_of c).

Lemma gettoken_word text s : is_suffix text s -> tok (gettoken s) = WORD ->
  word_at text (ptr (length text) (tok_q (gettoken s)), ptr (length text) (tok_eq (gettoken s))).
Proof.
  intros Hs Ht. apply suffix_ws in Hs as [pre Hs]. destruct (gettoken_split s) as (w & E & -> & _ & Hw & Hword).
  destruct (Hword Ht) as [H1 H2]. exists pre, w, (tok_eq (gettoken s)). rewrite (suffix_ptr _ _ _ Hs).
  split; [by rewrite <- E|]. split.
  - rewrite (suffix_ptr text (pre ++ w)) by (by rewrite <- app_assoc, <- E). by rewrite length_app.
  - split; [|done]. apply Hw. by rewrite Ht.
Qed.

(** What a function of the parser does with the bytes [s] of the line: it ends,
    and when it does not panic it leaves a pointer further on and a tree of
    words of the line. *)
Definition good (text s : list Z) (r : result (cmd * list Z)) : Prop :=
  match r with
  | Ok (c, s') => is_suffix text s' /\ (length s' <= length s)%nat /\ words_ok text c
  | Panic _ => True
  | NoFuel => False
  end.

Lemma good_less text s s' r : (length s' <= length s)%nat -> good text s' r -> good text s r.
Proof. intros H. destruct r as [[c t]| |]; [|done|done]. intros (H1 & H2 & H3). split_and!; (done || lia). Qed.

Lemma good_bind text s r f : good text s r ->
  (forall c s', is_suffix text s' -> (length s' <= length s)%nat -> words_ok text c -> good text s (f (c, s'))) ->
  good text s (rbind r f).
Proof. destruct r as [[c s']| |]; [|done|done]. intros (H1 & H2 & H3) H. by apply H. Qed.

Lemma parseredirs_good text fuel c s : is_suffix text s -> words_ok text c -> (length s < fuel)%nat ->
  good text s (parseredirs (length text) fuel c s).
Proof.
  revert c s. induction fuel as [|fuel IH]; intros c s Hs Hc Hf; [lia|]. cbn [parseredirs].
  pose proof (peek_token s [LESS; GREATER] ltac:(by_decide) ltac:(set_solver)) as Hp.
  pose proof (skip_ws_length s) as Hl. pose proof (suffix_ws _ _ Hs) as Hs'. unfold peek in *. cbn [fst snd] in *.
  destruct (match skip_ws s with c :: _ => _ | [] => _ end); [|done]. specialize (Hp eq_refl).
  apply gettoken_less in Hp. set (t := gettoken (skip_ws s)) in *.
  destruct (Z.eqb_spec (tok (gettoken (tok_rest t))) WORD) as [Hw|Hw]; cbn [negb]; [|done].
  assert (Ht : is_suffix text (tok_rest t)) by (by apply gettoken_suffix).
  pose proof (gettoken_word _ _ Ht Hw) as Hword. pose proof (gettoken_less (tok_rest t) ltac:(by rewrite Hw)) as Hw2.
  eapply good_less; [|apply IH]; [lia|by apply gettoken_suffix| |lia].
  repeat match goal with |- context [if ?b then _ else _] => destruct b end; try done;
    apply Forall_app; (split; [done|by repeat constructor]).
Qed.

Lemma fill_words text argv c : Forall (word_at text) argv -> words_ok text c -> words_ok text (fill argv c).
Proof.
  intros Ha. unfold words_ok. induction c; cbn [fill words_of]; try done. rewrite !Forall_app. naive_solver.
Qed.

Lemma parseargs_good text fuel argv c s : is_suffix text s -> words_ok text c -> Forall (word_at text) argv ->
  (length s < fuel)%nat -> good text s (parseargs (length text) fuel argv c s).
Proof.
  revert argv c s. induction fuel as [|fuel IH]; intros argv c s Hs Hc Ha Hf; [lia|]. cbn [parseargs].
  pose proof (skip_ws_length s) as Hl. apply suffix_ws in Hs. unfold peek.
  destruct (match skip_ws s with c :: _ => _ | [] => _ end); [done|].
  pose proof (gettoken_suffix _ _ Hs) as Ht. set (t := gettoken (skip_ws s)) in *.
  destruct (Z.eqb_spec (tok t) 0) as [H0|H0].
  { split; [done|]. split; [|done]. destruct (gettoken_split (skip_ws s)) as (w & E & _ & Er & _). fold t in E, Er.
    rewrite Er. pose proof (skip_ws_length (tok_eq t)). rewrite skip_ws_idem in E. rewrite E, length_app in Hl. lia. }
  destruct (Z.eqb_spec (tok t) WORD) as [Hw|Hw]; cbn [negb]; [|done].
  apply gettoken_less in H0. fold t in H0. destruct (_ <=? _)%nat; [done|].
  assert (Ha' : Forall (word_at text) (argv ++ [(ptr (length text) (tok_q t), ptr (length text) (tok_eq t))])).
  { apply Forall_app. split; [done|]. constructor; [|constructor]. by apply gettoken_word. }
  eapply (good_less _ _ (tok_rest t)); [lia|]. apply good_bind; [apply parseredirs_good; [done|by apply fill_words|lia]|].
  intros c' s' Hs' Hl' Hc'. eapply good_less; [exact Hl'|]. apply IH; [done|done|done|lia].
Qed.

Lemma parsebacks_good text fuel c s : is_suffix text s -> words_ok text c -> (length s < fuel)%nat ->
  good text s (parsebacks fuel c s).
Proof.
  revert c s. induction fuel as [|fuel IH]; intros c s Hs Hc Hf; [lia|]. cbn [parsebacks].
  pose proof (peek_token s [AMP] ltac:(by_decide) ltac:(set_solver)) as Hp.
  pose proof (skip_ws_length s) as Hl. apply suffix_ws in Hs. unfold peek in *. cbn [fst snd] in *.
  destruct (match skip_ws s with c :: _ => _ | [] => _ end); [|done]. specialize (Hp eq_refl). apply gettoken_less in Hp.
  eapply good_less; [|apply IH]; [lia|by apply gettoken_suffix|done|lia].
Qed.

(** A token that has been peeked at is consumed. *)
Lemma peek_consume text s c : c ∈ symbols -> is_suffix text s ->
  is_suffix text (peek s [c]).1 /\ (length (peek s [c]).1 <= length s)%nat /\
  ((peek s [c]).2 = true -> is_suffix text (tok_rest (gettoken (peek s [c]).1)) /\
     (length (tok_rest (gettoken (peek s [c]).1)) < length s)%nat).
Proof.
  intros Hc Hs. pose proof (suffix_ws _ _ Hs) as Hs'. pose proof (skip_ws_length s) as Hl.
  split; [done|]. split; [done|]. intros Hb. split; [by apply gettoken_suffix|].
  pose proof (peek_token s [c]) as Hp. cbn [peek fst] in *. apply gettoken_less in Hp; [lia| |set_solver|done].
  constructor; [|constructor]. intros ->. by apply zero_symbol.
Qed.

Lemma parse_good text n : forall s, is_suffix text s ->
  ((4 * length s + 4 <= n)%nat -> good text s (parseline (length text) n s)) /\
  ((4 * length s + 3 <= n)%nat -> good text s (parsepipe (length text) n s)) /\
  ((4 * length s + 2 <= n)%nat -> good text s (parseexec (length text) n s)) /\
  ((4 * length s + 1 <= n)%nat -> good text s (parseblock (length text) n s)).
Proof.
  induction n as [|n IH]; intros s Hs; [split_and!; lia|].
  split_and!; intros Hn; cbn [parseline parsepipe parseexec parseblock].
  - apply good_bind; [apply IH; [done|lia]|]. intros c s1 Hs1 Hl1 Hc1.
    apply good_bind; [apply (good_less _ _ s1); [done|]; apply parsebacks_good; [done|done|lia]|]. intros c2 s2 Hs2 Hl2 Hc2.
    destruct (peek_consume text s2 SEMI ltac:(set_solver) Hs2) as (P1 & P2 & P3).
    destruct (peek s2 [SEMI]) as [s3 []]; cbn [fst snd] in *; [|split_and!; (done || lia)].
    destruct (P3 eq_refl) as [P4 P5]. eapply good_less; [|apply good_bind; [apply IH; [exact P4|lia]|]]; [lia|].
    intros r s4 Hs4 Hl4 Hr. split_and!; try done. by apply Forall_app.
  - apply good_bind; [apply IH; [done|lia]|]. intros c s1 Hs1 Hl1 Hc1.
    destruct (peek_consume text s1 BAR ltac:(set_solver) Hs1) as (P1 & P2 & P3).
    destruct (peek s1 [BAR]) as [s3 []]; cbn [fst snd] in *; [|split_and!; (done || lia)].
    destruct (P3 eq_refl) as [P4 P5]. eapply good_less; [|apply good_bind; [apply IH; [exact P4|lia]|]]; [lia|].
    intros r s4 Hs4 Hl4 Hr. split_and!; try done. by apply Forall_app.
  - destruct (peek_consume text s LPAREN ltac:(set_solver) Hs) as (P1 & P2 & P3).
    destruct (peek s [LPAREN]) as [s1 []]; cbn [fst snd] in *.
    + eapply good_less; [exact P2|]. apply IH; [done|lia].
    + eapply good_less; [exact P2|]. apply good_bind; [apply parseredirs_good; [done|constructor|lia]|].
      intros c s2 Hs2 Hl2 Hc2. eapply good_less; [exact Hl2|]. apply parseargs_good; [done|done|constructor|lia].
  - destruct (peek_consume text s LPAREN ltac:(set_solver) Hs) as (P1 & P2 & P3).
    destruct (peek s [LPAREN]) as [s1 []]; cbn [fst snd negb] in *; [|done]. destruct (P3 eq_refl) as [P4 P5].
    eapply good_less; [|apply good_bind; [apply IH; [exact P4|lia]|]]; [lia|]. intros c s2 Hs2 Hl2 Hc2.
    destruct (peek_consume text s2 RPAREN ltac:(set_solver) Hs2) as (Q1 & Q2 & Q3).
    destruct (peek s2 [RPAREN]) as [s3 []]; cbn [fst snd negb] in *; [|done]. destruct (Q3 eq_refl) as [Q4 Q5].
    eapply good_less; [|apply parseredirs_good; [exact Q4|done|lia]]. lia.
Qed.

(** ** The strings of a command *)

Lemma terminate_app a b buf : terminate (a ++ b) buf = terminate a buf ≫= terminate b.
Proof.
  revert buf. induction a as [|e a IH]; intros buf; [done|]. cbn [app terminate]. destruct (store buf e 0); [|done].
  cbn. apply IH.
Qed.

Lemma nulterminate_words c buf : nulterminate c buf = terminate (words_of c).*2 buf.
Proof.
  revert buf. induction c as [argv|c IH f e mode fd|l IHl r IHr|l IHl r IHr|c IH]; intros buf; cbn [nulterminate words_of];
    rewrite ?fmap_app, ?terminate_app; try done.
  - rewrite IH. destruct (terminate _ buf) as [b|]; [|done]. cbn. by destruct (store b e 0).
  - rewrite IHl. destruct (terminate _ buf) as [b|]; [|done]. apply IHr.
  - rewrite IHl. destruct (terminate _ buf) as [b|]; [|done]. apply IHr.
Qed.

Lemma terminate_lookup ends buf : Forall (fun e => (e < length buf)%nat) ends ->
  exists buf', terminate ends buf = Some buf' /\ length buf' = length buf /\
    (forall i, i ∉ ends -> buf' !! i = buf !! i) /\ (forall i, i ∈ ends -> buf' !! i = Some 0).
Proof.
  revert buf. induction ends as [|e ends IH]; intros buf He.
  { exists buf. split_and!; try done. by intros i ?%elem_of_nil. }
  apply Forall_cons_iff in He as [He Hends]. cbn [terminate]. rewrite store_in by done. cbn [mbind option_bind].
  destruct (IH (<[e := 0]> buf)) as (b & -> & Hl & H1 & H2).
  { by rewrite length_insert. }
  rewrite length_insert in Hl. exists b. split; [done|]. split; [done|]. split; intros i Hi.
  - rewrite not_elem_of_cons in Hi. rewrite H1, list_lookup_insert_ne by naive_solver. done.
  - destruct (decide (i ∈ ends)); [by apply H2|]. apply elem_of_cons in Hi as [->|]; [|done].
    rewrite H1 by done. by apply list_lookup_insert_eq.
Qed.

(** The end of one word is not inside another. *)
Lemma word_ends text p p' i : word_at text p -> word_at text p' -> (p.1 <= i < p.2)%nat -> i <> p'.2.
Proof.
  intros (pre & w & post & E & -> & Hw & Hword & _) (pre' & w' & post' & E' & -> & _ & _ & Hpost) Hi ->. cbn [fst snd] in Hi.
  assert (Hin : exists c, text !! (length pre' + length w')%nat = Some c /\ word_char c = true).
  { destruct (lookup_lt_is_Some_2 w (length pre' + length w' - length pre)) as [c Hc]; [lia|]. exists c. split.
    - rewrite E, lookup_app_r, lookup_app_l by lia. exact Hc.
    - rewrite Forall_lookup in Hword. by eapply Hword. }
  destruct Hin as (c & Hc & Hwc). rewrite E', app_assoc, <- length_app, lookup_app_r, Nat.sub_diag in Hc by lia.
  destruct post' as [|c' r]; [done|]. injection Hc as ->. specialize (Hpost c r eq_refl). congruence.
Qed.

Definition text_of (text : list Z) (p : nat * nat) : list Z := take (p.2 - p.1) (drop p.1 text).

Lemma word_string text p buf : nonul text -> word_at text p ->
  (forall i, (p.1 <= i < p.2)%nat -> buf !! i = text !! i) -> buf !! p.2 = Some 0 ->
  text_of text p <> [] /\ nonul (text_of text p) /\ exists r, drop p.1 buf = text_of text p ++ 0 :: r.
Proof.
  intros Hn (pre & w & post & -> & -> & Hne & _ & _) Hin Hend. unfold text_of. cbn [fst snd] in *.
  rewrite drop_app_length. replace (length pre + length w - length pre)%nat with (length w) by lia. rewrite take_app_length.
  apply Forall_app in Hn as [_ [Hw _]%Forall_app]. split; [done|]. split; [done|]. exists (drop (S (length pre + length w)) buf).
  apply list_eq. intros i. rewrite lookup_drop. destruct (decide (i < length w)%nat) as [Hi|Hi].
  - rewrite Hin by lia. rewrite lookup_app_r, !lookup_app_l by lia. f_equal. lia.
  - rewrite (lookup_app_r w) by lia. destruct (i - length w)%nat as [|k] eqn:Ek.
    + replace (length pre + i)%nat with (length pre + length w)%nat by lia. done.
    + change (buf !! (length pre + i)%nat = drop (S (length pre + length w)) buf !! k). rewrite lookup_drop. f_equal. lia.
Qed.

(** What [parsecmd] returns: a tree of words of the line, and the line with a
    zero after each of them. *)
Lemma parse_words line : nonul line ->
  match parsecmd line with
  | Ok (c, o) => exists buf, o = Some buf /\ length buf = S (length line) /\
      forall p, p ∈ words_of c -> text_of line p <> [] /\ nonul (text_of line p) /\
        exists r, drop p.1 buf = text_of line p ++ 0 :: r
  | Panic _ => True
  | NoFuel => False
  end.
Proof.
  intros Hn. unfold parsecmd. destruct (parse_good line (parse_fuel line) line) as (H & _); [by exists []|].
  specialize (H ltac:(unfold parse_fuel; lia)). destruct (parseline _ _ _) as [[c s]| |]; cbn [rbind]; [|done|done].
  destruct H as (_ & _ & Hw). cbn [peek]. destruct (skip_ws s); [|done]. rewrite nulterminate_words.
  unfold words_ok in Hw. rewrite list.Forall_forall in Hw.
  destruct (terminate_lookup (words_of c).*2 (line ++ [0])) as (buf & -> & Hl & H1 & H2).
  { rewrite list.Forall_forall. intros e He. apply list_elem_of_fmap in He as (p & -> & Hp).
    destruct (Hw p Hp) as (pre & w & post & -> & -> & _). cbn. rewrite !length_app. cbn. lia. }
  exists buf. split; [done|]. split; [rewrite Hl, length_app; cbn; lia|]. intros p Hp. pose proof (Hw p Hp) as Hwp.
  apply word_string; try done.
  - intros i Hi. rewrite H1.
    + destruct Hwp as (pre & w & post & -> & -> & _). cbn in Hi. rewrite lookup_app_l; [done|]. rewrite !length_app. lia.
    + intros He. apply list_elem_of_fmap in He as (p' & -> & Hp'). by apply (word_ends line p p' p'.2 Hwp (Hw p' Hp')).
  - apply H2. apply list_elem_of_fmap. by exists p.
Qed.

(** C39. The parser ends on every line: it returns a command or panics with a
    message, and never runs out of the fuel it is given. *)
Theorem parse_total line :
  (exists c o, parsecmd line = Ok (c, o)) \/ exists msg, parsecmd line = Panic msg.
Proof.
  unfold parsecmd. destruct (parse_good line (parse_fuel line) line) as (H & _); [by exists []|].
  specialize (H ltac:(unfold parse_fuel; lia)). destruct (parseline _ _ _) as [[c s]| |]; cbn [rbind]; [|eauto|done].
  cbn [peek]. destruct (skip_ws s); eauto.
Qed.

(** In the command that the parser returns, every word is a string once
    [nulterminate] has run: it never writes outside the line and its final
    byte, and the string at the start of each word is the text of the word in
    the line, whatever the other words are. *)
Theorem parse_strings line c o : nonul line -> parsecmd line = Ok (c, o) ->
  exists buf, o = Some buf /\ length buf = S (length line) /\
    forall p, p ∈ words_of c -> cstr buf p.1 = text_of line p /\ text_of line p <> [].
Proof.
  intros Hn E. pose proof (parse_words line Hn) as H. rewrite E in H. destruct H as (buf & -> & Hl & H).
  exists buf. split; [done|]. split; [done|]. intros p Hp. destruct (H p Hp) as (H1 & H2 & r & Hd). split; [|done].
  unfold cstr. rewrite Hd. by apply upto_nul_app.
Qed.

Lemma parse_strings_witness : exists c buf,
  parsecmd (chars "ls a>b") = Ok (c, Some buf) /\ words_of c = [(0, 2); (3, 4); (5, 6)]%nat /\ cstr buf 3 = chars "a".
Proof.
  destruct (parse_strings (chars "ls a>b") (REDIR (EXEC [(0, 2); (3, 4)]%nat) 5 6 513 1)
    (Some (chars "ls" ++ [0] ++ chars "a" ++ [0] ++ chars "b" ++ [0]))) as (buf & E & _ & H); [by_decide|by vm_compute|].
  eexists _, buf. split; [rewrite <- E; by vm_compute|]. split; [done|]. apply (H (3, 4)%nat). by_decide.
Defined.

(** ** Printing a command

    [ast] is a command with its words as strings.  [print] writes it with a
    space after each word, and with parentheses where they are needed: level 0
    is for an operand of [|], 1 for one of [&], 2 for the left side of [;] and
    3 for a line. *)

Inductive ast : Type :=
  | AExec (argv : list (list Z))
  | ARedir (c : ast) (file : list Z) (mode fd : Z)
  | APipe (left right : ast)
  | AList (left right : ast)
  | ABack (c : ast).

Fixpoint strings (text : list Z) (c : cmd) : ast :=
  match c with
  | EXEC argv => AExec (text_of text <$> argv)
  | REDIR c f e mode fd => ARedir (strings text c) (text_of text (f, e)) mode fd
  | PIPE l r => APipe (strings text l) (strings text r)
  | LIST l r => AList (strings text l) (strings text r)
  | BACK c => ABack (strings text c)
  end.

Definition SPACE : Z := 32.
Definition print_word (w : list Z) : list Z := w ++ [SPACE].
Definition print_words (ws : list (list Z)) : list Z := concat (print_word <$> ws).
Definition print_redir (r : list Z * Z * Z) : list Z :=
  (if r.2 =? 0 then LESS else GREATER) :: print_word r.1.1.
Definition print_redirs (rs : list (list Z * Z * Z)) : list Z := concat (print_redir <$> rs).
Definition paren (b : bool) (l : list Z) : list Z := if b then LPAREN :: l ++ [RPAREN] else l.

Fixpoint print (k : nat) (c : ast) : list Z :=
  match c with
  | AExec argv => print_words argv
  | ARedir c f mode fd => print 0 c ++ print_redir (f, mode, fd)
  | APipe l r => paren (k <? 1)%nat (print 0 l ++ BAR :: print 1 r)
  | ABack c => paren (k <? 2)%nat (print 2 c ++ [AMP])
  | AList l r => paren (k <? 3)%nat (print 2 l ++ SEMI :: print 3 r)
  end.

(** Words can be written in a line, and the redirections are those of the
    parser. *)
Definition wf_word (w : list Z) : Prop := w <> [] /\ Forall (fun c => word_char c = true) w /\ nonul w.
Definition wf_redir (r : list Z * Z * Z) : Prop :=
  wf_word r.1.1 /\ (r.1.2, r.2) = (O_RDONLY, 0) \/ wf_word r.1.1 /\ (r.1.2, r.2) = (Z.lor O_WRONLY O_CREATE, 1).

Fixpoint wf_ast (c : ast) : Prop :=
  match c with
  | AExec argv => Forall wf_word argv /\ (length argv < MAXARGS)%nat
  | ARedir c f mode fd => wf_ast c /\ wf_redir (f, mode, fd)
  | APipe l r | AList l r => wf_ast l /\ wf_ast r
  | ABack c => wf_ast c
  end.

(** *** Text that starts with no white space *)

Definition nows (s : list Z) : Prop := skip_ws s = s.

Definition stops (toks s : list Z) : Prop := s = [] \/ exists c r, s = c :: r /\ c ∈ toks.

Lemma nows_cons c s : member whitespace c = false -> nows (c :: s).
Proof. intros H. unfold nows. cbn [skip_ws]. by rewrite H. Qed.

Lemma nows_symbol c s : c ∈ symbols -> nows (c :: s).
Proof.
  intros H. apply nows_cons. assert (Hall : Forall (fun c => member whitespace c = false) symbols) by by_decide.
  rewrite list.Forall_forall in Hall. by apply Hall.
Qed.

Lemma nows_word w s : wf_word w -> nows (w ++ s).
Proof.
  intros (Hne & Hw & _). destruct w as [|c w]; [done|]. apply Forall_cons_iff in Hw as [Hc _]. apply nows_cons.
  unfold word_char in Hc. by destruct (member whitespace c).
Qed.

Lemma nows_stops toks s : (forall c, c ∈ toks -> c ∈ symbols) -> stops toks s -> nows s.
Proof. intros Ht [->|(c & r & -> & Hc)]; [done|]. by apply nows_symbol, Ht. Qed.

Lemma print_words_nows ws s : Forall wf_word ws -> nows s -> nows (print_words ws ++ s).
Proof.
  intros Hw Hs. destruct Hw as [|w ws Hw _]; [done|]. unfold print_words. cbn [fmap list_fmap concat].
  unfold print_word at 1. rewrite <- !app_assoc. by apply nows_word.
Qed.

Lemma print_redirs_nows rs s : nows s -> nows (print_redirs rs ++ s).
Proof.
  intros Hs. destruct rs as [|r rs]; [done|]. unfold print_redirs. cbn [fmap list_fmap concat print_redir app].
  apply nows_symbol. destruct (_ =? _); set_solver.
Qed.

Lemma print_nows k c s : wf_ast c -> nows s -> nows (print k c ++ s).
Proof.
  revert k s. induction c as [argv|c IH f mode fd|l IHl r IHr|l IHl r IHr|c IH]; intros k s Hwf Hs; cbn [print wf_ast] in *.
  - apply print_words_nows; [apply Hwf|done].
  - rewrite <- app_assoc. apply IH; [apply Hwf|]. cbn [print_redir app]. apply nows_symbol. destruct (_ =? _); set_solver.
  - unfold paren. destruct (k <? 1)%nat; cbn [app]; [by apply nows_symbol; set_solver|]. rewrite <- app_assoc.
    apply IHl; [apply Hwf|]. apply nows_symbol. set_solver.
  - unfold paren. destruct (k <? 3)%nat; cbn [app]; [by apply nows_symbol; set_solver|]. rewrite <- app_assoc.
    apply IHl; [apply Hwf|]. apply nows_symbol. set_solver.
  - unfold paren. destruct (k <? 2)%nat; cbn [app]; [by apply nows_symbol; set_solver|]. rewrite <- app_assoc.
    apply IH; [apply Hwf|]. apply nows_symbol. set_solver.
Qed.

(** *** Tokens of printed text *)

Lemma skip_word_app w c s : Forall (fun c => word_char c = true) w -> word_char c = false -> skip_word (w ++ c :: s) = c :: s.
Proof.
  intros Hw Hc. induction Hw as [|x w Hx _ IH]; cbn [app skip_word].
  - fold (word_char c). by rewrite Hc.
  - fold (word_char x). by rewrite Hx.
Qed.

Lemma word_first w : wf_word w -> exists c r, w = c :: r /\ c <> 0 /\ c ∉ symbols.
Proof.
  intros (Hne & Hw & Hn). destruct w as [|c r]; [done|]. exists c, r. apply Forall_cons_iff in Hw as [Hc _].
  apply Forall_cons_iff in Hn as [H0 _]. split; [done|]. split; [done|]. intros Hs. apply member_in in Hs; [|by_decide|done].
  unfold word_char in Hc. rewrite Hs in Hc. by rewrite andb_false_r in Hc.
Qed.

Lemma gettoken_print_word w s : wf_word w -> nows s ->
  gettoken (print_word w ++ s) = {| tok := WORD; tok_q := w ++ SPACE :: s; tok_eq := SPACE :: s; tok_rest := s |}.
Proof.
  intros Hw Hs. unfold print_word. rewrite <- app_assoc. cbn [app]. unfold gettoken. rewrite (nows_word w (SPACE :: s) Hw).
  rewrite skip_word_app by (apply Hw || by vm_compute). destruct (word_first w Hw) as (c & r & -> & H0 & Hsym). cbn [app].
  rewrite (proj2 (Z.eqb_neq c 0)) by done. replace (_ || _ || _ || _ || _ || _) with false.
  - rewrite (proj2 (Z.eqb_neq c GREATER)) by (intros ->; apply Hsym; set_solver). cbn [skip_ws]. f_equal.
    change (member whitespace SPACE) with true. exact Hs.
  - symmetry. rewrite !orb_false_iff, !Z.eqb_neq. split_and!; intros ->; apply Hsym; set_solver.
Qed.

Lemma gettoken_symbol c s : c ∈ [BAR; LPAREN; RPAREN; SEMI; AMP; LESS] -> nows s ->
  gettoken (c :: s) = {| tok := c; tok_q := c :: s; tok_eq := s; tok_rest := s |}.
Proof.
  intros Hc Hs. assert (E : skip_ws (c :: s) = c :: s) by (apply nows_symbol; set_solver). unfold gettoken. rewrite E.
  rewrite (proj2 (Z.eqb_neq c 0)).
  - replace (_ || _ || _ || _ || _ || _) with true; [by rewrite Hs|]. symmetry.
    rewrite !orb_true_iff, !Z.eqb_eq. set_solver.
  - intros ->. apply zero_symbol. set_solver.
Qed.

Lemma gettoken_greater w s : wf_word w -> nows (w ++ s) ->
  gettoken (GREATER :: w ++ s) = {| tok := GREATER; tok_q := GREATER :: w ++ s; tok_eq := w ++ s; tok_rest := w ++ s |}.
Proof.
  intros Hw Hs. assert (E : skip_ws (GREATER :: w ++ s) = GREATER :: w ++ s) by (apply nows_symbol; set_solver).
  unfold gettoken. rewrite E. cbn -[skip_ws].
  destruct (word_first w Hw) as (c & r & -> & _ & Hsym). cbn [app] in *.
  rewrite (proj2 (Z.eqb_neq c GREATER)) by (intros ->; apply Hsym; set_solver). by rewrite Hs.
Qed.

Lemma peek_yes c s toks : c ∈ toks -> c ∈ symbols -> nonul toks -> peek (c :: s) toks = (c :: s, true).
Proof.
  intros Hc Hs Hn. unfold peek. rewrite (nows_symbol c s Hs). f_equal.
  assert (c <> 0) by (intros ->; by apply zero_symbol).
  rewrite (proj2 (Z.eqb_neq c 0)) by done. cbn [negb andb]. by apply member_in.
Qed.

Lemma peek_no s toks : nows s -> nonul toks -> (forall c r, s = c :: r -> c ∉ toks) -> peek s toks = (s, false).
Proof.
  intros Hs Hn Hno. unfold peek. rewrite Hs. f_equal. destruct s as [|c r]; [done|]. destruct (Z.eqb_spec c 0); [done|].
  cbn [negb andb]. apply not_true_iff_false. rewrite member_in by done. by apply (Hno c r).
Qed.

Lemma text_of_word text pre w post : text = pre ++ w ++ post ->
  text_of text (ptr (length text) (w ++ post), ptr (length text) post) = w.
Proof.
  intros E. rewrite (suffix_ptr text pre (w ++ post)), (suffix_ptr text (pre ++ w) post) by (by rewrite ?app_assoc in *).
  unfold text_of. cbn [fst snd]. rewrite E, drop_app_length, length_app.
  replace (length pre + length w - length pre)%nat with (length w) by lia. by rewrite take_app_length.
Qed.

(** *** Parsing printed text *)

Definition wrap (rs : list (list Z * Z * Z)) (c : ast) : ast := fold_left (fun c r => ARedir c r.1.1 r.1.2 r.2) rs c.

Lemma print_redirs_cons r rs : print_redirs (r :: rs) = print_redir r ++ print_redirs rs.
Proof. done. Qed.

Lemma parseredirs_print text fuel rs c rest pre :
  text = pre ++ print_redirs rs ++ rest -> Forall wf_redir rs -> nows rest ->
  (forall c r, rest = c :: r -> c ∉ [LESS; GREATER]) -> (length rs < fuel)%nat ->
  exists t, parseredirs (length text) fuel c (print_redirs rs ++ rest) = Ok (t, rest) /\
    strings text t = wrap rs (strings text c).
Proof.
  revert fuel c pre. induction rs as [|[[f mode] fd] rs IH]; intros fuel c pre E Hrs Hn Hno Hf; (destruct fuel as [|fuel]; [cbn in Hf; lia|]).
  { cbn [parseredirs print_redirs fmap list_fmap concat app]. rewrite peek_no by (done || by_decide). by exists c. }
  apply Forall_cons_iff in Hrs as [Hr Hrs]. rewrite print_redirs_cons in *. unfold print_redir in *. cbn [fst snd] in *.
  set (sym := if fd =? 0 then LESS else GREATER) in *. rewrite <- !app_assoc in *. cbn [app] in *.
  assert (Hw : wf_word f) by (destruct Hr as [[]|[]]; done).
  assert (Hrest : nows (print_redirs rs ++ rest)) by (by apply print_redirs_nows).
  assert (Ht : gettoken (sym :: print_word f ++ print_redirs rs ++ rest) =
    {| tok := sym; tok_q := sym :: print_word f ++ print_redirs rs ++ rest;
       tok_eq := print_word f ++ print_redirs rs ++ rest; tok_rest := print_word f ++ print_redirs rs ++ rest |}).
  { assert (Hnw : nows (print_word f ++ print_redirs rs ++ rest)).
    { unfold print_word. rewrite <- app_assoc. by apply nows_word. }
    unfold sym. destruct (fd =? 0); [apply gettoken_symbol; [set_solver|done]|]. unfold print_word in *.
    rewrite <- app_assoc in *. by apply gettoken_greater. }
  cbn [parseredirs length] in *. rewrite (peek_yes sym) by (unfold sym; destruct (fd =? 0); (by_decide || set_solver)).
  rewrite Ht. cbn [tok tok_rest]. rewrite gettoken_print_word by done. cbn [tok tok_q tok_eq tok_rest].
  rewrite Z.eqb_refl. cbn [negb].
  assert (Ef : text_of text (ptr (length text) (f ++ SPACE :: print_redirs rs ++ rest), ptr (length text) (SPACE :: print_redirs rs ++ rest)) = f).
  { apply (text_of_word text (pre ++ [sym])). rewrite E. unfold print_word. by rewrite <- !app_assoc. }
  destruct (IH fuel (REDIR c (ptr (length text) (f ++ SPACE :: print_redirs rs ++ rest))
    (ptr (length text) (SPACE :: print_redirs rs ++ rest)) mode fd) (pre ++ sym :: print_word f)) as (t & Et & Hs); try done.
  { rewrite E, <- !app_assoc. done. }
  { lia. }
  exists t. cbn [strings] in Hs. rewrite Ef in Hs. split; [|exact Hs]. rewrite <- Et. f_equal. unfold sym.
  by destruct Hr as [[_ [= -> ->]]|[_ [= -> ->]]].
Qed.

Lemma parseredirs_none es fuel c s : nows s -> (forall c r, s = c :: r -> c ∉ [LESS; GREATER]) ->
  parseredirs es (S fuel) c s = Ok (c, s).
Proof. intros Hn Hno. cbn [parseredirs]. by rewrite peek_no by (done || by_decide). Qed.

Definition enders : list Z := [BAR; RPAREN; AMP; SEMI].

Lemma stops_no (s toks toks' : list Z) : stops toks s -> (forall c, c ∈ toks -> c ∉ toks') -> forall c r, s = c :: r -> c ∉ toks'.
Proof. intros [->|(c' & r' & -> & Hc)] Hd c r [=]; subst. by apply Hd. Qed.

Lemma stops_nows s : stops enders s -> nows s.
Proof. apply nows_stops. unfold enders. set_solver. Qed.

Lemma enders_redir c : c ∈ enders -> c ∉ [LESS; GREATER].
Proof. revert c. apply list.Forall_forall. by_decide. Qed.

Lemma parseargs_stop es fuel argv c s : stops enders s -> parseargs es (S fuel) argv c s = Ok (c, s).
Proof.
  intros [->|(x & r & -> & Hx)]; cbn [parseargs]; [done|]. by rewrite (peek_yes x) by (done || by_decide || (unfold enders in *; set_solver)).
Qed.

(** One word. *)
Lemma parseargs_step es fuel argv w s : wf_word w -> nows s -> (S (length argv) < MAXARGS)%nat ->
  parseargs es (S fuel) argv (EXEC argv) (print_word w ++ s) =
    let argv := argv ++ [(ptr es (w ++ SPACE :: s), ptr es (SPACE :: s))] in
    let* (c, s) := parseredirs es (S (length s)) (EXEC argv) s in parseargs es fuel argv c s.
Proof.
  intros Hw Hn Ha. cbn [parseargs]. rewrite peek_no.
  - rewrite gettoken_print_word by done. cbn [tok tok_q tok_eq tok_rest]. cbn [Z.eqb WORD negb Pos.eqb].
    rewrite (proj2 (Nat.leb_gt _ _)) by (rewrite length_app; cbn; lia). done.
  - unfold print_word. rewrite <- app_assoc. by apply nows_word.
  - by_decide.
  - intros c r E Hc. destruct (word_first w Hw) as (c' & r' & -> & _ & Hs). injection E as <- _. apply Hs. set_solver.
Qed.

Lemma redirs_length rs : (length rs <= length (print_redirs rs))%nat.
Proof. induction rs as [|r rs IH]; [done|]. rewrite print_redirs_cons, length_app. cbn. lia. Qed.

Lemma words_length ws : (length ws <= length (print_words ws))%nat.
Proof.
  induction ws as [|w ws IH]; [done|]. unfold print_words in *. cbn [fmap list_fmap concat].
  rewrite length_app. unfold print_word at 1. rewrite length_app. cbn in *. lia.
Qed.

Lemma print_words_cons w ws s : print_words (w :: ws) ++ s = print_word w ++ print_words ws ++ s.
Proof. unfold print_words. cbn [fmap list_fmap concat]. by rewrite <- app_assoc. Qed.

Lemma print_word_eq w s : print_word w ++ s = w ++ SPACE :: s.
Proof. unfold print_word. by rewrite <- app_assoc. Qed.

Lemma parseargs_words text fuel w ws argv rs rest pre :
  text = pre ++ print_words (w :: ws) ++ print_redirs rs ++ rest -> Forall wf_word (w :: ws) -> Forall wf_redir rs ->
  stops enders rest -> (length argv + length (w :: ws) < MAXARGS)%nat -> (length (w :: ws) < fuel)%nat ->
  exists t, parseargs (length text) fuel argv (EXEC argv) (print_words (w :: ws) ++ print_redirs rs ++ rest) = Ok (t, rest) /\
    strings text t = wrap rs (AExec ((text_of text <$> argv) ++ w :: ws)).
Proof.
  revert fuel w argv pre. induction ws as [|w2 ws IH]; intros fuel w argv pre E Hws Hrs Hst Ha Hf;
    (destruct fuel as [|fuel]; [cbn in Hf; lia|]); apply Forall_cons_iff in Hws as [Hw Hws];
    pose proof (stops_nows rest Hst) as Hrest;
    pose proof (print_redirs_nows rs rest Hrest) as Hn; rewrite print_words_cons in *; cbn [length] in *.
  - cbn [print_words fmap list_fmap concat app] in *. set (s := print_redirs rs ++ rest) in *. rewrite parseargs_step by (done || lia).
    cbv zeta. set (argv' := argv ++ _). destruct (parseredirs_print text (S (length s)) rs (EXEC argv') rest (pre ++ print_word w))
      as (t & Et & Hs); try done.
    { by rewrite <- app_assoc. }
    { eapply stops_no; [exact Hst|]. apply enders_redir. }
    { unfold s. rewrite length_app. pose proof (redirs_length rs). lia. }
    fold s in Et. rewrite Et. cbn [rbind]. destruct fuel as [|fuel]; [lia|]. rewrite parseargs_stop by done.
    exists t. split; [done|]. rewrite Hs. cbn [strings]. unfold argv'. rewrite fmap_app. cbn [fmap list_fmap].
    rewrite print_word_eq in E. by rewrite (text_of_word text pre w (SPACE :: s)).
  - set (s := print_words (w2 :: ws) ++ print_redirs rs ++ rest) in *.
    assert (Hns : nows s) by (by apply print_words_nows).
    rewrite parseargs_step by (done || lia). cbv zeta. rewrite parseredirs_none; [|done|].
    2: { intros c r Ec. apply Forall_cons_iff in Hws as [Hw2 _]. destruct (word_first w2 Hw2) as (c' & r' & -> & _ & Hs).
         injection Ec as <- _. set_solver. }
    cbn [rbind]. set (argv' := argv ++ _).
    destruct (IH fuel w2 argv' (pre ++ print_word w)) as (t & Et & Hs); try done.
    { by rewrite <- app_assoc. }
    { unfold argv'. rewrite length_app. cbn. lia. }
    { lia. }
    exists t. split; [exact Et|]. rewrite Hs. unfold argv'. rewrite fmap_app, <- app_assoc. cbn [fmap list_fmap app].
    rewrite print_word_eq in E. by rewrite (text_of_word text pre w (SPACE :: s)).
Qed.

(** The functions of the parser read back what [print] wrote at each level.
    [s] is what is left of the line. *)

Definition reads (text : list Z) (r : result (cmd * list Z)) (a : ast) (rest : list Z) : Prop :=
  exists t, r = Ok (t, rest) /\ strings text t = a.

Definition parse2 (es n : nat) (s : list Z) : result (cmd * list Z) :=
  let* (c, s) := parsepipe es n s in parsebacks (S (length s)) c s.

Definition reads0 (c : ast) : Prop := forall text n rs rest s, s = print 0 c ++ print_redirs rs ++ rest ->
  is_suffix text s -> Forall wf_redir rs -> stops enders rest -> (4 * length s + 2 <= n)%nat ->
  reads text (parseexec (length text) n s) (wrap rs c) rest.

Definition reads1 (c : ast) : Prop := forall text n rest s, s = print 1 c ++ rest ->
  is_suffix text s -> stops [RPAREN; AMP; SEMI] rest -> (4 * length s + 3 <= n)%nat ->
  reads text (parsepipe (length text) n s) c rest.

Definition reads2 (c : ast) : Prop := forall text n m rest s, s = print 2 c ++ replicate m AMP ++ rest ->
  is_suffix text s -> stops [RPAREN; SEMI] rest -> (4 * length s + 3 <= n)%nat ->
  reads text (parse2 (length text) n s) (Nat.iter m ABack c) rest.

Definition reads3 (c : ast) : Prop := forall text n rest s, s = print 3 c ++ rest ->
  is_suffix text s -> stops [RPAREN] rest -> (4 * length s + 4 <= n)%nat ->
  reads text (parseline (length text) n s) c rest.

Lemma reads0_exec argv : wf_ast (AExec argv) -> reads0 (AExec argv).
Proof.
  intros [Hw Ha] text n rs rest s -> [pre Ht] Hrs Hst Hn. destruct n as [|n]; [lia|]. cbn [print parseexec] in *.
  pose proof (stops_nows _ Hst) as Hnr. pose proof (print_redirs_nows rs rest Hnr) as Hnrs.
  set (s := print_words argv ++ print_redirs rs ++ rest) in *. assert (Hns : nows s) by (by apply print_words_nows).
  assert (Hlp : forall c r, s = c :: r -> c ∉ [LPAREN]).
  { intros c r E. destruct Hw as [|w ws Hw _].
    - unfold s in E. cbn [print_words fmap list_fmap concat app] in E. destruct rs as [|r' rs].
      + eapply stops_no; [exact Hst| |exact E]. intros x Hx. revert x Hx. apply list.Forall_forall. by_decide.
      + rewrite print_redirs_cons in E. injection E as <- _. destruct (_ =? _); by_decide.
    - unfold s in E. rewrite print_words_cons in E. destruct (word_first w Hw) as (c' & r' & -> & _ & Hs).
      injection E as <- _. intros Hc. apply Hs. revert Hc. clear. set_solver. }
  rewrite peek_no by (done || by_decide). destruct argv as [|w ws].
  - cbn [print_words fmap list_fmap concat app] in s.
    destruct (parseredirs_print text (S (length s)) rs execcmd rest pre) as (t & Et & Hs); try done.
    { eapply stops_no; [exact Hst|]. apply enders_redir. }
    { unfold s. rewrite length_app. pose proof (redirs_length rs). lia. }
    fold s in Et. rewrite Et. cbn [rbind]. rewrite parseargs_stop by done. by exists t.
  - rewrite parseredirs_none; [|done|].
    2: { intros c r E. unfold s in E. rewrite print_words_cons in E. apply Forall_cons_iff in Hw as [Hw _].
         destruct (word_first w Hw) as (c' & r' & -> & _ & Hs). injection E as <- _. intros Hc. apply Hs. revert Hc. clear. set_solver. }
    cbn [rbind]. apply (parseargs_words text (S (length s)) w ws [] rs rest pre); try done.
    unfold s. rewrite length_app. pose proof (words_length (w :: ws)). lia.
Qed.

Lemma wrap_cons r rs c : wrap (r :: rs) c = wrap rs (ARedir c r.1.1 r.1.2 r.2).
Proof. done. Qed.

Lemma reads0_redir c f mode fd : reads0 c -> wf_redir (f, mode, fd) -> reads0 (ARedir c f mode fd).
Proof.
  intros H Hr text n rs rest s -> Ht Hrs Hst Hn. cbn [print] in *. rewrite <- app_assoc in *.
  apply (H text n ((f, mode, fd) :: rs) rest); [by rewrite print_redirs_cons, <- app_assoc|done|by constructor|done|done].
Qed.

(** A symbol that is expected next. *)
Lemma peek_next c s : c ∈ [BAR; LPAREN; RPAREN; SEMI; AMP; LESS] -> nows s ->
  peek (c :: s) [c] = (c :: s, true) /\ tok_rest (gettoken (c :: s)) = s.
Proof.
  intros Hc Hn. rewrite gettoken_symbol by done. split; [|done]. apply peek_yes; [set_solver|set_solver|].
  constructor; [|constructor]. intros ->. apply zero_symbol. set_solver.
Qed.

Lemma peek_other s toks c : stops toks s -> (forall x, x ∈ toks -> x ∈ symbols /\ x <> c) -> c <> 0 -> peek s [c] = (s, false).
Proof.
  intros Hs Hd Hc. apply peek_no.
  - eapply nows_stops; [|exact Hs]. intros x Hx. by apply Hd.
  - by constructor.
  - eapply stops_no; [exact Hs|]. intros x Hx. destruct (Hd x Hx). set_solver.
Qed.

Ltac other := eapply peek_other; [eassumption|apply list.Forall_forall; by_decide|done].

Lemma stops_sub (toks toks' : list Z) s : (forall x, x ∈ toks -> x ∈ toks') -> stops toks s -> stops toks' s.
Proof. intros Hd [->|(c & r & -> & Hc)]; [by left|]. right. exists c, r. auto. Qed.

Ltac sub := eapply stops_sub; [|eassumption]; apply list.Forall_forall; by_decide.

Lemma suffix_cons text c s : is_suffix text (c :: s) -> is_suffix text s.
Proof. intros H. by eapply (suffix_trans _ _ [c]). Qed.

Lemma suffix_app text a s : is_suffix text (a ++ s) -> is_suffix text s.
Proof. intros H. by eapply suffix_trans. Qed.

Lemma reads0_paren c : reads3 c -> wf_ast c -> print 0 c = LPAREN :: print 3 c ++ [RPAREN] -> reads0 c.
Proof.
  intros H Hwf Ep text n rs rest s Es Ht Hrs Hst Hn. rewrite Ep in Es. cbn [app] in Es. rewrite <- !app_assoc in Es. cbn [app] in Es.
  pose proof (print_redirs_nows rs rest (stops_nows _ Hst)) as Hnr.
  assert (Hn2 : nows (RPAREN :: print_redirs rs ++ rest)) by (apply nows_symbol; set_solver).
  pose proof (print_nows 3 c _ Hwf Hn2) as Hn3. subst s. cbn [length] in Hn. do 2 (destruct n as [|n]; [lia|]).
  cbn [parseexec parseblock]. destruct (peek_next LPAREN _ ltac:(set_solver) Hn3) as [-> Er]. rewrite (proj1 (peek_next LPAREN _ ltac:(set_solver) Hn3)).
  cbn [negb]. rewrite Er. destruct (H text n (RPAREN :: print_redirs rs ++ rest) _ eq_refl) as (t & -> & Hs).
  { by eapply suffix_cons. }
  { right. eexists _, _. split; [done|]. set_solver. }
  { lia. }
  cbn [rbind]. destruct (peek_next RPAREN _ ltac:(set_solver) Hnr) as [-> Er2]. cbn [negb]. cbv zeta. rewrite Er2.
  destruct Ht as [pre Ht].
  destruct (parseredirs_print text (S (length (print_redirs rs ++ rest))) rs t rest (pre ++ LPAREN :: print 3 c ++ [RPAREN])) as (t' & -> & Hs'); try done.
  { rewrite Ht, <- !app_assoc. cbn [app]. by rewrite <- !app_assoc. }
  { by apply stops_nows. }
  { eapply stops_no; [exact Hst|]. apply enders_redir. }
  { rewrite length_app. pose proof (redirs_length rs). lia. }
  exists t'. split; [done|]. by rewrite Hs', Hs.
Qed.

Lemma reads1_exec c : print 1 c = print 0 c -> reads0 c -> reads1 c.
Proof.
  intros Ep H text n rest s -> Ht Hst Hn. rewrite Ep in *. destruct n as [|n]; [lia|]. cbn [parsepipe].
  destruct (H text n [] rest (print 0 c ++ rest) eq_refl Ht) as (t & -> & Hs); [constructor|sub|lia|].
  cbn [rbind]. replace (peek rest [BAR]) with (rest, false) by (symmetry; other). by exists t.
Qed.

Lemma reads1_pipe l r : wf_ast r -> reads0 l -> reads1 r -> reads1 (APipe l r).
Proof.
  intros Hwf Hl Hr text n rest s Es Ht Hst Hn. cbn [print paren Nat.ltb Nat.leb] in Es. rewrite <- app_assoc in Es. cbn [app] in Es. subst s.
  destruct n as [|n]; [lia|]. cbn [parsepipe]. assert (Hnr : nows rest) by (apply stops_nows; sub).
  destruct (Hl text n [] (BAR :: print 1 r ++ rest) (print 0 l ++ BAR :: print 1 r ++ rest) eq_refl Ht) as (t & -> & Hs);
    [constructor|right; eexists _, _; split; [done|unfold enders; set_solver]|lia|].
  cbn [rbind]. destruct (peek_next BAR _ ltac:(set_solver) (print_nows 1 r rest Hwf Hnr)) as [-> Er]. rewrite Er.
  destruct (Hr text n rest _ eq_refl) as (t' & -> & Hs'); [by eapply suffix_cons, suffix_app|done| |].
  { rewrite length_app in Hn. cbn [length] in Hn. lia. }
  cbn [rbind]. exists (PIPE t t'). split; [done|]. cbn [strings]. by rewrite Hs, Hs'.
Qed.

Lemma parsebacks_print fuel m c rest : stops [RPAREN; SEMI] rest -> (m < fuel)%nat ->
  parsebacks fuel c (replicate m AMP ++ rest) = Ok (Nat.iter m BACK c, rest).
Proof.
  intros Hst. revert fuel c. induction m as [|m IH]; intros fuel c Hf; (destruct fuel as [|fuel]; [lia|]); cbn [parsebacks replicate app].
  - by replace (peek rest [AMP]) with (rest, false) by (symmetry; other).
  - assert (Hn : nows (replicate m AMP ++ rest)).
    { destruct m; cbn [replicate app]; [apply stops_nows; sub|apply nows_symbol; set_solver]. }
    destruct (peek_next AMP _ ltac:(set_solver) Hn) as [-> Er]. rewrite Er, IH by lia. by rewrite <- Nat.iter_succ_r.
Qed.

Lemma strings_iter text m t c : strings text t = c -> strings text (Nat.iter m BACK t) = Nat.iter m ABack c.
Proof.
  intros H. induction m as [|m IH]; [done|].
  change (ABack (strings text (Nat.iter m BACK t)) = ABack (Nat.iter m ABack c)). by rewrite IH.
Qed.

Lemma reads2_pipe c : print 2 c = print 1 c -> reads1 c -> reads2 c.
Proof.
  intros Ep H text n m rest s -> Ht Hst Hn. rewrite Ep in *. unfold parse2.
  destruct (H text n (replicate m AMP ++ rest) _ eq_refl Ht) as (t & -> & Hs); [|done|].
  { destruct m; cbn [replicate app]; [sub|]. right. eexists _, _. split; [done|set_solver]. }
  cbn [rbind]. rewrite parsebacks_print; [|done|rewrite length_app, length_replicate; lia].
  eexists. split; [done|]. by apply strings_iter.
Qed.

Lemma reads2_back c : reads2 c -> reads2 (ABack c).
Proof.
  intros H text n m rest s Es Ht Hst Hn. rewrite <- (Nat.iter_succ_r m ABack c). apply H; try done.
  rewrite Es. cbn [print paren Nat.ltb Nat.leb]. rewrite <- app_assoc. done.
Qed.

Lemma parseline_eq es n s : parseline es (S n) s =
  let* (c, s) := parse2 es n s in
  let (s, b) := peek s [SEMI] in
  if b then let* (r, s) := parseline es n (tok_rest (gettoken s)) in Ok (LIST c r, s) else Ok (c, s).
Proof. unfold parse2. cbn [parseline]. by destruct (parsepipe es n s) as [[c s']| |]. Qed.

Lemma reads3_simple c : print 3 c = print 2 c -> reads2 c -> reads3 c.
Proof.
  intros Ep H text n rest s -> Ht Hst Hn. rewrite Ep in *. destruct n as [|n]; [lia|]. rewrite parseline_eq.
  destruct (H text n 0%nat rest _ eq_refl Ht) as (t & Et & Hs); [sub|cbn [replicate app]; lia|]. cbn [replicate app] in Et. rewrite Et.
  cbn [rbind]. replace (peek rest [SEMI]) with (rest, false) by (symmetry; other). by exists t.
Qed.

Lemma reads3_list l r : wf_ast r -> reads2 l -> reads3 r -> reads3 (AList l r).
Proof.
  intros Hwf Hl Hr text n rest s Es Ht Hst Hn. cbn [print paren Nat.ltb Nat.leb] in Es. rewrite <- app_assoc in Es. cbn [app] in Es. subst s.
  destruct n as [|n]; [lia|]. rewrite parseline_eq. assert (Hnr : nows rest) by (apply stops_nows; sub).
  destruct (Hl text n 0%nat (SEMI :: print 3 r ++ rest) (print 2 l ++ SEMI :: print 3 r ++ rest) eq_refl Ht) as (t & -> & Hs);
    [right; eexists _, _; split; [done|set_solver]|lia|].
  cbn [rbind]. destruct (peek_next SEMI _ ltac:(set_solver) (print_nows 3 r rest Hwf Hnr)) as [-> Er]. rewrite Er.
  destruct (Hr text n rest _ eq_refl) as (t' & -> & Hs'); [by eapply suffix_cons, suffix_app|done| |].
  { rewrite length_app in Hn. cbn [length] in Hn. lia. }
  cbn [rbind]. exists (LIST t t'). split; [done|]. cbn [strings]. cbn in Hs. by rewrite Hs, Hs'.
Qed.

Lemma reads_all c : wf_ast c -> reads0 c /\ reads1 c /\ reads2 c /\ reads3 c.
Proof.
  induction c as [argv|c IH f mode fd|l IHl r IHr|l IHl r IHr|c IH]; intros Hwf.
  - assert (H0 : reads0 (AExec argv)) by (by apply reads0_exec). assert (H1 : reads1 (AExec argv)) by (by apply reads1_exec).
    assert (H2 : reads2 (AExec argv)) by (by apply reads2_pipe). split_and!; try done. by apply reads3_simple.
  - destruct Hwf as [Hc Hr]. assert (H0 : reads0 (ARedir c f mode fd)) by (apply reads0_redir; [by apply IH|done]).
    assert (H1 : reads1 (ARedir c f mode fd)) by (by apply reads1_exec).
    assert (H2 : reads2 (ARedir c f mode fd)) by (by apply reads2_pipe). split_and!; try done. by apply reads3_simple.
  - pose proof Hwf as [Hl Hr]. assert (H1 : reads1 (APipe l r)) by (apply reads1_pipe; [done|by apply IHl|by apply IHr]).
    assert (H2 : reads2 (APipe l r)) by (by apply reads2_pipe). assert (H3 : reads3 (APipe l r)) by (by apply reads3_simple).
    split_and!; try done. by apply reads0_paren.
  - pose proof Hwf as [Hl Hr]. assert (H3 : reads3 (AList l r)) by (apply reads3_list; [done|by apply IHl|by apply IHr]).
    assert (H0 : reads0 (AList l r)) by (by apply reads0_paren). assert (H1 : reads1 (AList l r)) by (by apply reads1_exec).
    split_and!; try done. by apply reads2_pipe.
  - assert (H2 : reads2 (ABack c)) by (apply reads2_back; by apply IH). assert (H3 : reads3 (ABack c)) by (by apply reads3_simple).
    assert (H0 : reads0 (ABack c)) by (by apply reads0_paren). split_and!; try done. by apply reads1_exec.
Qed.

(** C38. The parser reads back what is printed: every command, however pipes,
    lists, background commands and redirections nest, has a line on which
    [parsecmd] returns that command. *)
Theorem parse_print c : wf_ast c -> exists t o, parsecmd (print 3 c) = Ok (t, o) /\ strings (print 3 c) t = c.
Proof.
  intros Hwf. destruct (reads_all c Hwf) as (_ & _ & _ & H). unfold parsecmd.
  destruct (H (print 3 c) (parse_fuel (print 3 c)) [] (print 3 c)) as (t & -> & Hs).
  - by rewrite app_nil_r.
  - by exists [].
  - by left.
  - unfold parse_fuel. lia.
  - cbn [rbind peek skip_ws]. by eexists t, _.
Qed.

Definition demo_cmd : ast :=
  APipe (ARedir (AList (AExec [chars "a"; chars "-l"]) (ABack (AExec [chars "b"]))) (chars "in") 0 0)
    (ARedir (AExec [chars "c"]) (chars "out") 513 1).

Lemma parse_print_witness : print 3 demo_cmd = chars "(a -l ;b &)<in |c >out " /\
  exists t o, parsecmd (print 3 demo_cmd) = Ok (t, o) /\ strings (print 3 demo_cmd) t = demo_cmd.
Proof.
  split; [reflexivity|]. apply (parse_print demo_cmd). repeat split; try by_decide; (left + right); split; by_decide.
Defined.

(** ** Running a command

    [runcmd] does not return; a [prog] is the tree of the system calls that a
    process makes from a point on, with the child and the parent of a [fork]
    as subtrees.  [PUndefined] stands for a write outside a buffer. *)

Inductive prog : Type :=
  | PExit
  | PPanic (msg : string)
  | PUndefined
  | PPrint (text : list Z) (k : prog)
  | PClose (fd : Z) (k : prog)
  | PDup (fd : Z) (k : prog)
  | POpen (path : list Z) (mode : Z) (ok failed : prog)
  | PFork (child parent : prog)           (* fork1, which panics if fork fails *)
  | PWait (k : prog)
  | PPipe (ok : Z -> Z -> prog) (failed : prog)
  | PSetuid (uid : Z) (k : prog)
  | PExec (path : list Z) (argv : list (list Z)) (failed : prog)
  | PChdir (path : list Z) (ok failed : prog).

Definition BINPATHLEN : nat := 20.

(** The local variable [binpath] of [runcmd], for the first word [w] and the
    bytes [r] after its end; it is not initialised. *)
Definition binpath (junk : list Z) (w : list Z) : option (list Z) :=
  b ← strcpy junk 0 (chars "/bin/" ++ [0]);
  b ← safestrcpy b 5 w 14;
  Some (cstr b 0).

(** [buf] is the line after [nulterminate]; [junk] is what is on the stack. *)
Fixpoint runcmd (buf junk : list Z) (c : cmd) (uid : Z) : prog :=
  match c with
  | EXEC [] => PExit
  | EXEC (((q, _) :: _) as argv) =>
      match binpath junk (drop q buf) with
      | None => PUndefined
      | Some path =>
          PSetuid uid
            (PExec path ((fun p => cstr buf p.1) <$> argv)
              (PPrint (chars "exec " ++ path ++ chars " failed") PExit))
      end
  | REDIR c file _ mode fd =>
      PClose fd
        (POpen (cstr buf file) mode (runcmd buf junk c uid)
          (PPrint (chars "open " ++ cstr buf file ++ chars " failed") PExit))
  | LIST l r => PFork (runcmd buf junk l uid) (PWait (runcmd buf junk r uid))
  | PIPE l r =>
      PPipe (fun p0 p1 =>
        PFork (PClose 1 (PDup p1 (PClose p0 (PClose p1 (runcmd buf junk l uid)))))
          (PFork (PClose 0 (PDup p0 (PClose p0 (PClose p1 (runcmd buf junk r uid)))))
            (PClose p0 (PClose p1 (PWait (PWait PExit))))))
        (PPanic "pipe")
  | BACK c => PFork (runcmd buf junk c uid) PExit
  end.

(** One turn of the loop of [main], on the line [line] that [getcmd] has read;
    [next] is the next turn. *)
Definition sh_turn (line junk : list Z) (uid : Z) (next : prog) : prog :=
  if bool_decide (take 3 line = chars "cd ") then
    let path := drop 3 (take (length line - 1) line) in
    PChdir path next (PPrint (chars "cannot cd " ++ path) next)
  else
    PFork
      match parsecmd line with
      | Ok (c, Some buf) => runcmd buf junk c uid
      | Ok (c, None) => PUndefined
      | Panic msg => PPanic msg
      | NoFuel => PUndefined
      end
      (PWait next).

(** Every [exec] of the tree comes right after [setuid uid], and runs a
    program of [/bin] named by the first 13 bytes of the first argument. *)
Fixpoint execs_as (uid : Z) (p : prog) : Prop :=
  match p with
  | PExit | PPanic _ => True
  | PUndefined => False
  | PSetuid u (PExec path argv k) =>
      u = uid /\ (exists w ws, argv = w :: ws /\ w <> [] /\ path = chars "/bin/" ++ take 13 w) /\ execs_as uid k
  | PSetuid _ _ | PExec _ _ _ => False
  | PPrint _ k | PClose _ k | PDup _ k | PWait k => execs_as uid k
  | POpen _ _ p1 p2 | PFork p1 p2 | PChdir _ p1 p2 => execs_as uid p1 /\ execs_as uid p2
  | PPipe f p2 => (forall a b, execs_as uid (f a b)) /\ execs_as uid p2
  end.

Lemma binpath_ok junk w r : nonul w -> length junk = BINPATHLEN ->
  binpath junk (w ++ 0 :: r) = Some (chars "/bin/" ++ take 13 w).
Proof.
  intros Hw Hj. unfold binpath. rewrite (strcpy_app junk 0 (chars "/bin/") []) by (by_decide || (rewrite Hj; vm_compute; lia)).
  cbn [mbind option_bind]. set (b := splice junk 0 (chars "/bin/" ++ [0])).
  assert (Hl : length b = 20%nat) by (unfold b; rewrite splice_length; [done|rewrite Hj; vm_compute; lia]).
  destruct (safestrcpy_terminates b 5 w r 14 Hw ltac:(lia) ltac:(lia)) as (d & -> & Hc & Hd & Hout).
  cbn [mbind option_bind]. f_equal. unfold cstr in *. change (Z.to_nat (14 - 1)) with 13%nat in Hc.
  assert (Ht : take 5 d = chars "/bin/").
  { apply list_eq_same_length with 5%nat; [done|rewrite length_take; lia|]. intros j x y Hj5 Hx Hy.
    rewrite lookup_take_lt in Hx by lia. rewrite Hout in Hx by lia. unfold b, splice in Hx. rewrite take_0, app_nil_l in Hx.
    rewrite lookup_app_l in Hx by (vm_compute; lia). rewrite lookup_app_l in Hx by (vm_compute; lia). congruence. }
  rewrite drop_0, <- (take_drop 5 d), Ht. rewrite <- Hc. done.
Qed.

Lemma runcmd_execs buf junk c uid : length junk = BINPATHLEN ->
  (forall p, p ∈ words_of c -> exists w r, w <> [] /\ nonul w /\ drop p.1 buf = w ++ 0 :: r) ->
  execs_as uid (runcmd buf junk c uid).
Proof.
  intros Hj. induction c as [argv|c IH f e mode fd|l IHl r IHr|l IHl r IHr|c IH]; intros Hw; cbn [runcmd words_of] in *.
  - destruct argv as [|[q e] argv]; [done|]. destruct (Hw (q, e)) as (w & r & Hne & Hn & Hd); [set_solver|]. cbn [fst] in *.
    assert (Ec : cstr buf q = w) by (unfold cstr; rewrite Hd; by apply upto_nul_app).
    rewrite Hd, binpath_ok by done. cbn [execs_as]. split; [done|]. split; [|done].
    exists (cstr buf q), ((fun p => cstr buf p.1) <$> argv). split; [done|]. by rewrite Ec.
  - cbn [execs_as]. split; [|done]. apply IH. intros p Hp. apply Hw. set_solver.
  - cbn [execs_as]. split; [|done]. intros a b. split; [apply IHl|split; [apply IHr|done]]; intros p Hp; apply Hw; set_solver.
  - cbn [execs_as]. split; [apply IHl|apply IHr]; intros p Hp; apply Hw; set_solver.
  - cbn [execs_as]. split; [|done]. apply IH. intros p Hp. apply Hw. set_solver.
Qed.

(** Whatever the line, the shell runs programs only as the user: in the
    processes a command line starts, every [exec] comes right after
    [setuid] to the uid of the shell, its path is ["/bin/"] and the first 13
    bytes of the first word, and no write leaves the line or the path
    buffer. *)
Theorem shell_execs line junk uid next : nonul line -> length junk = BINPATHLEN -> execs_as uid next ->
  execs_as uid (sh_turn line junk uid next).
Proof.
  intros Hn Hj Hnext. unfold sh_turn. case_bool_decide; [by split_and!|]. cbn [execs_as]. split; [|done].
  pose proof (parse_words line Hn) as Hp. destruct (parsecmd line) as [[c o]| |]; cbn [execs_as]; [|done|done].
  destruct Hp as (buf & -> & _ & Hp). apply runcmd_execs; [done|]. intros p Hw. destruct (Hp p Hw) as (H1 & H2 & r & Hd).
  by exists (text_of line p), r.
Qed.

Lemma shell_execs_witness : execs_as 7 (sh_turn (chars "ls|wc -l>o;x") (replicate 20 1) 7 PExit).
Proof. apply (shell_execs (chars "ls|wc -l>o;x") (replicate 20 1) 7 PExit); [by_decide|reflexivity|exact I]. Defined.
