(* ===== verification/Sysfile.v ===== *)
(** * File system calls ([kernel/sysfile.c], and [fileread], [filewrite],
    [filestat] and [fileclose] of [kernel/file.c])

    The calls of a process on the tables of [Ptable] and the file system of
    [Fs].  [cur] is the process that makes the call; the arguments are those
    the process passed, with [None] for a string that [argstr] refuses.

    A call that begins with [begin_op] ends with [end_op] on every path;
    [transaction] is that frame.  The results of [cprintf] are left out. *)

From S2P Require Import Prelude CStr Perm Mem BufIface Lock Pipe Ptable File Log Txn Fs.

Record sys (T : Type) : Type := { s_tab : kst; s_fs : fs T }.
Arguments s_tab {T} _.
Arguments s_fs {T} _.
Arguments Build_sys {T} _ _.

Section sysfile.
Context {T : Type} `{TxnOps T}.
Variable devsw : list (driver (T := T)).

Definition ontab {A} (m : M kst A) : M (sys T) A := fun s =>
  match m (s_tab s) with
  | Ret a k => Ret a {| s_tab := k; s_fs := s_fs s |}
  | Stop r k => Stop r {| s_tab := k; s_fs := s_fs s |}
  end.

Definition onfs {A} (m : M (fs T) A) : M (sys T) A := fun s =>
  match m (s_fs s) with
  | Ret a f => Ret a {| s_tab := s_tab s; s_fs := f |}
  | Stop r f => Stop r {| s_tab := s_tab s; s_fs := f |}
  end.

Definition begin_op : M (fs T) unit := ontx tx_begin_op.
Definition end_op : M (fs T) unit := ontx tx_end_op.

Definition transaction {A} (m : M (fs T) A) : M (fs T) A :=
  begin_op then! let! r := m in end_op then! ret r.

(** The fields of the current process that the calls use. *)
Definition cwd_of (cur : nat) : M (sys T) nat :=
  let! p := ontab (getp cur) in lift (p_cwd p).

(** ** [sys_chmod] and [sys_chown]

    The owner is compared with the uid before the inode is locked, so with
    what the cache entry holds; the reference that [namei] takes is kept. *)

Definition chmod_op (cwd : nat) (uid : Z) (path : list Z) (mode : Z) : M (fs T) Z :=
  let! r := namei devsw cwd path in
  match r with
  | None => ret (-1)
  | Some i =>
      let! ip := geti i in
      if negb (di_uid (i_disk ip) =? u32 uid) && negb (uid =? 0) then ret (-1)
      else
        ilock i then!
        setd i (fun d => di_with_owner (u32 mode) (di_uid d) (di_gid d) d) then!
        iupdate i then!
        iunlock i then!
        ret 0
  end.

Definition sys_chmod (cur : nat) (path : option (list Z)) (mode : Z) : M (sys T) Z :=
  match path with
  | None => ret (-1)
  | Some path =>
      let! p := ontab (getp cur) in
      let! cwd := cwd_of cur in
      onfs (transaction (chmod_op cwd (p_uid p) path mode))
  end.

Definition chown_op (cwd : nat) (path : list Z) (owner group : Z) : M (fs T) Z :=
  let! r := namei devsw cwd path in
  match r with
  | None => ret (-1)
  | Some i =>
      ilock i then!
      (if negb (owner =? -1) then setd i (fun d => di_with_owner (di_mode d) (u32 owner) (di_gid d) d) else ret tt) then!
      setd i (fun d => di_with_owner (di_mode d) (di_uid d) (u32 group) d) then!
      iupdate i then!
      iunlock i then!
      ret 0
  end.

Definition sys_chown (cur : nat) (path : option (list Z)) (owner group : Z) : M (sys T) Z :=
  let! p := ontab (getp cur) in
  if negb (p_uid p =? 0) then ret (-1)
  else
    match path with
    | None => ret (-1)
    | Some path => let! cwd := cwd_of cur in onfs (transaction (chown_op cwd path owner group))
    end.

(** ** [sys_link] and [sys_unlink] *)

Definition nlink_add (i : nat) (n : Z) : M (fs T) unit :=
  setd i (fun d => di_with_nlink (s16 (di_nlink d + n)) d).

(** The label [bad] of [sys_link]. *)
Definition link_bad (i : nat) : M (fs T) Z :=
  ilock i then! nlink_add i (-1) then! iupdate i then! iunlockput i then! ret (-1).

Definition link_op (cwd : nat) (old new : list Z) : M (fs T) Z :=
  let! r := namei devsw cwd old in
  match r with
  | None => ret (-1)
  | Some i =>
      ilock i then!
      let! ip := geti i in
      if di_type (i_disk ip) =? T_DIR then iunlockput i then! ret (-1)
      else
        nlink_add i 1 then!
        iupdate i then!
        iunlock i then!
        let! r := nameiparent devsw cwd new (replicate DIRSIZ 0) in
        match r.1 with
        | None => link_bad i
        | Some d =>
            ilock d then!
            let! dp := geti d in
            let! ip := geti i in
            let! bad :=
              if negb (i_dev dp =? i_dev ip) then ret true
              else let! k := dirlink devsw d r.2 (i_inum ip) in ret (k <? 0) in
            if bad : bool then iunlockput d then! link_bad i
            else
              iunlockput d then!
              iput i then!
              ret 0
        end
  end.

Definition sys_link (cur : nat) (old new : option (list Z)) : M (sys T) Z :=
  match old, new with
  | Some old, Some new => let! cwd := cwd_of cur in onfs (transaction (link_op cwd old new))
  | _, _ => ret (-1)
  end.

(** The loop of [isdirempty]. *)
Fixpoint isdirempty_loop (fuel : nat) (d : nat) (off : Z) : M (fs T) bool :=
  match fuel with
  | O => halt Undefined
  | S fuel' =>
      let! dp := geti d in
      if off <? di_size (i_disk dp) then
        let! de := read_dirent devsw d off "isdirempty: readi" in
        if negb (de.1 =? 0) then ret false else isdirempty_loop fuel' d (off + DESIZE)
      else ret true
  end.

Definition isdirempty (d : nat) : M (fs T) bool :=
  let! dp := geti d in isdirempty_loop (S (at_ (di_size (i_disk dp)))) d (2 * DESIZE).

Definition unlink_op (cwd : nat) (path : list Z) : M (fs T) Z :=
  let! r := nameiparent devsw cwd path (replicate DIRSIZ 0) in
  match r.1 with
  | None => ret (-1)
  | Some d =>
      ilock d then!
      let! dot := lift (namecmp r.2 (chars "." ++ [0])) in
      let! dots := lift (namecmp r.2 (chars ".." ++ [0])) in
      if (dot =? 0) || (dots =? 0) then iunlockput d then! ret (-1)
      else
        let! found := dirlookup devsw d r.2 in
        match found with
        | None => iunlockput d then! ret (-1)
        | Some (i, off) =>
            ilock i then!
            let! ip := geti i in
            if di_nlink (i_disk ip) <? 1 then halt (Panicked "unlink: nlink < 1")
            else
              let! e := if di_type (i_disk ip) =? T_DIR then isdirempty i else ret true in
              if negb e then iunlockput i then! iunlockput d then! ret (-1)
              else
                let! w := writei devsw d (replicate 16 0) off in
                if negb (w =? DESIZE) then halt (Panicked "unlink: writei")
                else
                  (if di_type (i_disk ip) =? T_DIR then nlink_add d (-1) then! iupdate d else ret tt) then!
                  iunlockput d then!
                  nlink_add i (-1) then!
                  iupdate i then!
                  iunlockput i then!
                  ret 0
        end
  end.

Definition sys_unlink (cur : nat) (path : option (list Z)) : M (sys T) Z :=
  match path with
  | None => ret (-1)
  | Some path => let! cwd := cwd_of cur in onfs (transaction (unlink_op cwd path))
  end.

(** ** [create] *)

Definition create (cwd : nat) (path : list Z) (type major minor uid mode : Z) : M (fs T) (option nat) :=
  let! r := nameiparent devsw cwd path (replicate DIRSIZ 0) in
  match r.1 with
  | None => ret None
  | Some d =>
      ilock d then!
      let! found := dirlookup devsw d r.2 in
      match found with
      | Some (i, _) =>
          iunlockput d then!
          ilock i then!
          let! ip := geti i in
          if ((type =? T_FILE) && (di_type (i_disk ip) =? T_FILE)) || (di_type (i_disk ip) =? T_DEV) then ret (Some i)
          else iunlockput i then! ret None
      | None =>
          let! dp := geti d in
          let! i := ialloc (i_dev dp) type uid mode in
          ilock i then!
          setd i (fun x => di_with_nlink 1 (di_with_dev major minor x)) then!
          iupdate i then!
          let! ip := geti i in
          (if type =? T_DIR then
             nlink_add d 1 then!
             iupdate d then!
             let! a := dirlink devsw i (chars "." ++ [0]) (i_inum ip) in
             if a <? 0 then halt (Panicked "create dots")
             else
               let! b := dirlink devsw i (chars ".." ++ [0]) (i_inum dp) in
               if b <? 0 then halt (Panicked "create dots") else ret tt
           else ret tt) then!
          let! k := dirlink devsw d r.2 (i_inum ip) in
          if k <? 0 then halt (Panicked "create: dirlink")
          else iunlockput d then! ret (Some i)
      end
  end.

(** ** [sys_open] *)

(** The last assignments of [sys_open]; [i] is the inode. *)
Definition open_file (i : nat) (omode : Z) (f : file) : file :=
  {| f_type := FD_INODE; f_ref := f_ref f; f_readable := open_readable omode; f_writable := open_writable omode;
     f_pipe := f_pipe f; f_ip := Some i; f_off := 0 |}.

(** [fileclose] of a file that is not a pipe or an inode, or is not the last
    reference, is that of [File]; the last reference to an inode is given
    back in a transaction. *)
Definition fileclose (f : nat) : M (sys T) unit :=
  let! x := ontab (getf f) in
  match f_type x, f_ip x with
  | FD_INODE, Some i =>
      if f_ref x <? 1 then halt (Panicked "fileclose")
      else if 0 <? f_ref x - 1 then ontab (setf f (set_ref (f_ref x - 1)))
      else
        ontab (setf f (fun x => set_type FD_NONE (set_ref 0 x))) then!
        onfs (transaction (iput i))
  | FD_INODE, None => halt Undefined
  | _, _ => ontab (File.fileclose f)
  end.

(** Giving up on the locked inode [i]. *)
Definition open_bad (i : nat) : M (sys T) Z := onfs (iunlockput i then! end_op) then! ret (-1).

(** From [namei] on. *)
Definition open_existing (cur cwd : nat) (euid : Z) (path : list Z) (omode : Z) : M (sys T) Z :=
  let! r := onfs (namei devsw cwd path) in
  match r with
  | None => onfs end_op then! ret (-1)
  | Some i =>
      onfs (ilock i) then!
      let! ip := onfs (geti i) in
      let d := i_disk ip in
      if (di_type d =? T_DIR) && negb (omode =? O_RDONLY) then open_bad i
      else if open_invalid omode (di_mode d) (di_uid d) euid then open_bad i
      else
        let! f := ontab filealloc in
        match f with
        | None => open_bad i
        | Some f =>
            let! fd := ontab (fdalloc cur f) in
            if fd <? 0 then fileclose f then! open_bad i
            else
              onfs (iunlock i then! end_op) then!
              ontab (setf f (open_file i omode)) then!
              ret fd
        end
  end.

Definition sys_open (cur : nat) (path : option (list Z)) (omode : Z) : M (sys T) Z :=
  match path with
  | None => ret (-1)
  | Some path =>
      let! p := ontab (getp cur) in
      let! cwd := cwd_of cur in
      onfs begin_op then!
      let! ok :=
        if negb (Z.land omode O_CREATE =? 0) then
          let! r := onfs (create cwd path T_FILE 0 0 (u32 (p_uid p)) 420) in
          ret (match r with Some _ => true | None => false end)
        else ret true in
      if ok : bool then open_existing cur cwd (p_euid p) path omode
      else onfs end_op then! ret (-1)
  end.

(** ** [sys_mkdir], [sys_mknod] and [sys_chdir] *)

(** Inside the transaction; [None] for a path that [argstr] refuses. *)
Definition create_op (cwd : nat) (path : option (list Z)) (type major minor uid mode : Z) : M (fs T) Z :=
  match path with
  | None => ret (-1)
  | Some path =>
      let! r := create cwd path type major minor uid mode in
      match r with
      | None => ret (-1)
      | Some i => iunlockput i then! ret 0
      end
  end.

Definition sys_mkdir (cur : nat) (path : option (list Z)) : M (sys T) Z :=
  let! p := ontab (getp cur) in
  let! cwd := cwd_of cur in
  onfs (transaction (create_op cwd path T_DIR 0 0 (u32 (p_uid p)) 448)).

(** [sys_mknod] looks the parent up before it has fetched its arguments: the
    path it follows is whatever the uninitialised pointer points to, [wild].
    A null parent is dereferenced, and on a refusal an uninitialised inode
    pointer is unlocked. *)
Definition sys_mknod (cur : nat) (wild : list Z) (path : option (list Z)) (major minor : Z) : M (sys T) Z :=
  let! p := ontab (getp cur) in
  let! cwd := cwd_of cur in
  let! r := onfs (nameiparent devsw cwd wild (replicate DIRSIZ 0)) in
  match r.1 with
  | None => halt Undefined
  | Some parent =>
      let! dp := onfs (geti parent) in
      if mknod_invalid (di_mode (i_disk dp)) (di_uid (i_disk dp)) (p_euid p) then halt Undefined
      else onfs (transaction (create_op cwd path T_DEV (s16 major) (s16 minor) (u32 (p_uid p)) 420))
  end.

(** The new directory, or [None]. *)
Definition chdir_op (cwd : nat) (euid : Z) (path : option (list Z)) : M (fs T) (option nat) :=
  match path with
  | None => ret None
  | Some path =>
      let! r := namei devsw cwd path in
      match r with
      | None => ret None
      | Some i =>
          ilock i then!
          let! ip := geti i in
          let d := i_disk ip in
          if negb (di_type d =? T_DIR) then iunlockput i then! ret None
          else if chdir_invalid (di_mode d) (di_uid d) euid then iunlockput i then! ret None
          else
            iunlock i then!
            iput cwd then!
            ret (Some i)
      end
  end.

Definition sys_chdir (cur : nat) (path : option (list Z)) : M (sys T) Z :=
  let! p := ontab (getp cur) in
  let! cwd := cwd_of cur in
  let! r := onfs (transaction (chdir_op cwd (p_euid p) path)) in
  match r with
  | None => ret (-1)
  | Some i => ontab (setp cur (set_cwd (Some i))) then! ret 0
  end.

(** ** Reading and writing *)

Definition pipe_read (cur id : nat) (n : nat) : M (sys T) (option (list Z)) :=
  let! p := ontab (getp cur) in
  let! q := ontab (fun k => lift (pipes k !! id) k) in
  let '(q', e, l, woken) := piperead (p_killed p) q n in
  ontab (modify (fun k => with_pipes k (<[id := q']> (pipes k)))) then!
  (if woken : bool then ontab (wakeup1 (ChPipe id false)) else ret tt) then!
  match e with
  | Returns r => ret (if r <? 0 then None else Some l)
  | Sleeps _ => halt (Sleeping "pipe")
  end.

Definition pipe_write (cur id : nat) (l : list Z) : M (sys T) Z :=
  let! p := ontab (getp cur) in
  let! q := ontab (fun k => lift (pipes k !! id) k) in
  let '(q', e, woken) := pipewrite (p_killed p) q l (Z.of_nat (length l)) in
  ontab (modify (fun k => with_pipes k (<[id := q']> (pipes k)))) then!
  (if woken : bool then ontab (wakeup1 (ChPipe id true)) else ret tt) then!
  match e with
  | Returns r => ret r
  | Sleeps _ => halt (Sleeping "pipe")
  end.

Definition set_off (off : Z) (f : file) : file :=
  {| f_type := f_type f; f_ref := f_ref f; f_readable := f_readable f; f_writable := f_writable f;
     f_pipe := f_pipe f; f_ip := f_ip f; f_off := off |}.

(** The bytes read, or [None] for the result -1. *)
Definition fileread (cur f : nat) (n : Z) : M (sys T) (option (list Z)) :=
  let! x := ontab (getf f) in
  if negb (f_readable x) then ret None
  else
    match f_type x with
    | FD_PIPE => let! id := lift (f_pipe x) in pipe_read cur id (Z.to_nat n)
    | FD_INODE =>
        let! i := lift (f_ip x) in
        onfs (ilock i) then!
        let! r := onfs (readi devsw i (f_off x) n) in
        (match r with
         | Some (c :: l) => ontab (setf f (set_off (u32 (f_off x + Z.of_nat (length (c :: l))))))
         | _ => ret tt
         end) then!
        onfs (iunlock i) then!
        ret r
    | FD_NONE => halt (Panicked "fileread")
    end.

(** The largest piece that [filewrite] writes in one transaction. *)
Definition max_write : nat := Z.to_nat ((Log.MAXOPBLOCKS - 1 - 1 - 2) / 2 * 512).

(** The loop of [filewrite] on the bytes still to be written: whether it
    wrote them all. *)
Fixpoint filewrite_loop (fuel : nat) (f i : nat) (src : list Z) : M (sys T) bool :=
  match fuel with
  | O => halt Undefined
  | S fuel' =>
      match src with
      | [] => ret true
      | _ =>
          let piece := take max_write src in
          onfs (begin_op then! ilock i) then!
          let! x := ontab (getf f) in
          let! r := onfs (writei devsw i piece (f_off x)) in
          (if 0 <? r then ontab (setf f (set_off (u32 (f_off x + r)))) else ret tt) then!
          onfs (iunlock i then! end_op) then!
          if r <? 0 then ret false
          else if negb (r =? Z.of_nat (length piece)) then halt (Panicked "short filewrite")
          else filewrite_loop fuel' f i (drop max_write src)
      end
  end.

Definition filewrite (cur f : nat) (src : list Z) : M (sys T) Z :=
  let! x := ontab (getf f) in
  if negb (f_writable x) then ret (-1)
  else
    match f_type x with
    | FD_PIPE => let! id := lift (f_pipe x) in pipe_write cur id src
    | FD_INODE =>
        let! i := lift (f_ip x) in
        let! ok := filewrite_loop (S (length src)) f i src in
        ret (if ok : bool then Z.of_nat (length src) else -1)
    | FD_NONE => halt (Panicked "filewrite")
    end.

Definition filestat (f : nat) : M (sys T) (option stat) :=
  let! x := ontab (getf f) in
  match f_type x with
  | FD_INODE =>
      let! i := lift (f_ip x) in
      onfs (ilock i then! let! st := stati i in iunlock i then! ret (Some st))
  | _ => ret None
  end.

(** [n] bytes at the address are in the memory of the process, or not. *)
Definition sys_read (cur : nat) (fd n : Z) (mapped : bool) : M (sys T) (option (list Z)) :=
  let! f := ontab (argfd cur fd) in
  match f with
  | Some f => if mapped then fileread cur f n else ret None
  | None => ret None
  end.

Definition sys_write (cur : nat) (fd : Z) (src : option (list Z)) : M (sys T) Z :=
  let! f := ontab (argfd cur fd) in
  match f, src with
  | Some f, Some src => filewrite cur f src
  | _, _ => ret (-1)
  end.

Definition sys_fstat (cur : nat) (fd : Z) (mapped : bool) : M (sys T) (option stat) :=
  let! f := ontab (argfd cur fd) in
  match f with
  | Some f => if mapped then filestat f else ret None
  | None => ret None
  end.
End sysfile.
