(* ===== verification/SysOps.v ===== *)
(** * Correctness of file system calls

    [sys_chmod] and [isdirempty] of [kernel/sysfile.c] and the pieces that
    [filewrite] of [kernel/file.c] writes, on the file system of [Fs]. *)

From S2P Require Import Prelude CStr Mem BufIface Lock Log Txn Fs FsAlloc FsInode FsData FsDir FsPath Sysfile.

Section sys_ops.
Context {T : Type} {ops : TxnOps T} {tv : TxnView T} {laws : TxnLaws T}.
Implicit Types (s : fs T) (t : T) (v : list block) (L : gset Z) (g : tgeo) (ip : inode).
Variable devsw : list (driver (T := T)).

(** ** [chmod] *)

Lemma live_fun q v n di di' : live q v n di -> live q v n di' -> di = di'.
Proof. intros (_ & E & _) (_ & E' & _). congruence. Qed.

(** The tail of [sys_chmod]: the inode [m] is updated on the disk. *)
Lemma wp_set_mode g s v L i ip di mode :
  walk_at None g s v L -> icache s !! i = Some ip -> 0 < i_ref ip -> live (sb s) v (i_inum ip) di ->
  wf_dinode di -> word mode -> (size L < tg_cap g)%nat ->
  wp (ilock i then! setd i (fun d => di_with_owner mode (di_uid d) (di_gid d) d) then! iupdate i then! iunlock i then! ret 0) s
    (fun r s' => r = 0 /\ exists v' t, txn g t v' ∅ ∅ ({[IBLOCK (i_inum ip) (sb s)]} ∪ L) /\ tx s' = t /\
      inode_written (sb s) v v' (i_inum ip) (di_with_owner mode (di_uid di) (di_gid di) di) /\
      forall n, refs n (icache s') = refs n (icache s)).
Proof.
  intros W Hi Hr Hl Hwf Hm Hsz. pose proof (lookup_lt_Some _ _ _ Hi) as Hlt.
  destruct (walk_live _ _ _ _ _ _ _ W Hi Hr) as [Hdev _]. apply wp_bind.
  eapply wp_walk_lock; [exact W|exact Hi|done|]. intros t di' Hl' s1 W1. assert (di' = di) as -> by (by eapply live_fun).
  apply wp_bind. unfold setd. eapply wp_seti; [by apply list_lookup_insert_eq|]. set (di2 := di_with_owner mode (di_uid di) (di_gid di) di).
  set (ip2 := set_disk di2 (locked_inode (fs_pid s) di ip)). unfold s1. cbn [icache with_ic with_tx]. rewrite list_insert_insert_eq.
  set (s2 := with_ic (with_tx s t) (<[i := ip2]> (icache s))). apply wp_bind.
  eapply (wp_iupdate g s2 v L i ip2); try done.
  - apply W1.
  - apply W1.
  - by apply list_lookup_insert_eq.
  - apply Hl.
  - destruct Hwf. by split.
  - intros v' t' Hw Ht'. apply wp_bind.
    eapply (wp_iunlock _ i ip2); [by apply list_lookup_insert_eq|done|simpl; lia|]. apply wp_ret. split; [done|].
    exists v', t'. split_and!; try done. intros n. cbn [icache with_ic with_tx s2].
    rewrite list_insert_insert_eq. unfold refs. rewrite (sum_over_insert _ _ _ _ _ Hi). unfold ref_to. simpl. lia.
Qed.

(** [chmod] by root sets the mode of the inode that the path names, and
    nothing else on the disk: no other inode and no block but the one with the
    inode changes.  It does not give back the reference that [namei] took:
    afterwards the count of references to the inode is one higher. *)
Theorem chmod_sets_mode g s v L cwd cp path mode m di :
  walk_at None g s v L -> icache s !! cwd = Some cp -> 0 < i_ref cp -> 2 <= free_slots (icache s) ->
  (exists d, live (sb s) v ROOTINO d) -> 0 ∈ path -> (size L < tg_cap g)%nat ->
  resolve false v (sb s) (start_at path cp) (elems path) = Some m -> live (sb s) v m di -> wf_dinode di ->
  exists s' v', chmod_op devsw cwd 0 path mode s = Ret 0 s' /\ txn g (tx s') v' ∅ ∅ ({[IBLOCK m (sb s)]} ∪ L) /\
    disk_inode v' (sb s) m = Some (di_with_owner (u32 mode) (di_uid di) (di_gid di) di) /\
    (forall j, 0 <= j < sb_ninodes (sb s) -> j <> m -> disk_inode v' (sb s) j = disk_inode v (sb s) j) /\
    (forall n, 0 <= n -> n <> IBLOCK m (sb s) -> v' !! at_ n = v !! at_ n) /\
    forall n, refs n (icache s') = refs n (icache s) + one n m.
Proof.
  intros W Hc Hr Hf Hroot H0 Hsz Hres Hl Hwf.
  assert (H : wp (chmod_op devsw cwd 0 path mode) s (fun r s' => r = 0 /\ exists v' t,
    txn g t v' ∅ ∅ ({[IBLOCK m (sb s)]} ∪ L) /\ tx s' = t /\
    inode_written (sb s) v v' m (di_with_owner (u32 mode) (di_uid di) (di_gid di) di) /\
    forall n, refs n (icache s') = refs n (icache s) + one n m)).
  { unfold chmod_op, namei. apply wp_bind, wp_bind. eapply wp_mono; [apply (wp_namex devsw g s v L cwd cp path false (replicate DIRSIZ 0)); try done|].
    intros r s1 (W1 & Esb & _ & _ & Hm). rewrite Hres in Hm. destruct Hm as (j & jp & -> & Hj & (J1 & J2 & J3) & _ & Hrefs).
    apply wp_ret, wp_bind. eapply wp_geti; [exact Hj|]. rewrite andb_false_r.
    eapply wp_mono; [eapply (wp_set_mode g s1 v L j jp di (u32 mode)); try done|].
    - by rewrite J3, Esb.
    - apply Z.mod_pos_bound. lia.
    - intros x s2 (-> & v' & t & Ht & Et & Hw & Hrf). rewrite Esb, J3 in *. split; [done|]. exists v', t. split_and!; try done.
      intros n. by rewrite Hrf, Hrefs. }
  apply wp_iff in H as (r & s' & E & -> & v' & t & Ht & Et & Hw & Hrf). subst t. exists s', v'.
  destruct Hw as [_ W2 W3 W4]. by split_and!.
Qed.

(** ** [isdirempty] *)

Lemma wp_isdirempty_loop fuel g s v L i ip n off :
  file_at g s v L i ip -> dir_ok (sb s) v (i_disk ip) -> 0 <= off ->
  off + DESIZE * Z.of_nat n = di_size (i_disk ip) -> (n < fuel)%nat ->
  wp (isdirempty_loop devsw fuel i off) s (fun r s' => (exists t, s' = with_tx s t /\ txn g t v ∅ ∅ L) /\
    (r = true <-> forall k, (k < n)%nat -> entry_inum v (i_disk ip) (off + DESIZE * Z.of_nat k) = 0)).
Proof.
  revert s off n. induction fuel as [|fuel IH]; intros s off n FA D H0 Hend Hf; [lia|]. cbn [isdirempty_loop].
  apply wp_bind. eapply wp_geti; [apply FA|]. destruct n as [|n].
  { rewrite (proj2 (Z.ltb_ge _ _)) by lia. apply wp_ret. split; [|split; [lia|done]].
    exists (tx s). rewrite with_tx_tx. split; [done|apply FA]. }
  rewrite (proj2 (Z.ltb_lt _ _)) by (unfold DESIZE in *; lia).
  apply wp_bind. eapply (wp_read_dirent devsw); [exact FA|exact D|done|unfold DESIZE in *; lia|]. intros t Ht. cbn [fst snd].
  assert (E0 : off + DESIZE * Z.of_nat 0 = off) by lia. destruct (Z.eqb_spec (entry_inum v (i_disk ip) off) 0) as [Hz|Hz]; cbn [negb].
  - eapply wp_mono; [apply (IH (with_tx s t) (off + DESIZE) n); [by apply file_at_tx|done|unfold DESIZE in *; lia|unfold DESIZE in *; lia|lia]|].
    intros r s' [(t' & -> & Ht') Hiff]. split; [by exists t'|]. rewrite Hiff. split; intros H k Hk.
    + destruct k as [|k]; [by rewrite E0|]. replace (off + DESIZE * Z.of_nat (S k)) with (off + DESIZE + DESIZE * Z.of_nat k) by (unfold DESIZE; lia).
      apply H. lia.
    + replace (off + DESIZE + DESIZE * Z.of_nat k) with (off + DESIZE * Z.of_nat (S k)) by (unfold DESIZE; lia). apply H. lia.
  - apply wp_ret. split; [by exists t|]. split; [done|]. intros H. specialize (H O ltac:(lia)). by rewrite E0 in H.
Qed.

(** [isdirempty] tells whether a directory has only its first two
    entries: it returns true if and only if every entry after them is free,
    and it changes nothing on the disk. *)
Theorem isdirempty_correct g s v L i ip :
  file_at g s v L i ip -> dir_ok (sb s) v (i_disk ip) -> 2 * DESIZE <= di_size (i_disk ip) ->
  exists b t, isdirempty devsw i s = Ret b (with_tx s t) /\ txn g t v ∅ ∅ L /\
    (b = true <-> forall k, 2 <= k < di_size (i_disk ip) / DESIZE -> entry_inum v (i_disk ip) (DESIZE * k) = 0).
Proof.
  intros FA D Hs. pose proof (dir_count _ _ _ D) as Hc. set (n := at_ (di_size (i_disk ip) / DESIZE)) in *.
  assert (H : wp (isdirempty devsw i) s (fun r s' => (exists t, s' = with_tx s t /\ txn g t v ∅ ∅ L) /\
    (r = true <-> forall k, (k < n - 2)%nat -> entry_inum v (i_disk ip) (2 * DESIZE + DESIZE * Z.of_nat k) = 0))).
  { unfold isdirempty. apply wp_bind. eapply wp_geti; [apply FA|]. apply wp_isdirempty_loop; try done; unfold DESIZE in *; lia. }
  apply wp_iff in H as (b & s' & E & (t & -> & Ht) & Hb). exists b, t. split; [done|]. split; [done|]. rewrite Hb.
  assert (Hn : di_size (i_disk ip) / DESIZE = Z.of_nat n).
  { rewrite <- Hc, Z.mul_comm. by apply Z.div_mul. }
  rewrite Hn. split; intros H k Hk.
  - specialize (H (at_ (k - 2)) ltac:(lia)). by replace (2 * DESIZE + DESIZE * Z.of_nat (at_ (k - 2))) with (DESIZE * k) in H by (unfold DESIZE; lia).
  - replace (2 * DESIZE + DESIZE * Z.of_nat k) with (DESIZE * (2 + Z.of_nat k)) by (unfold DESIZE; lia). apply H. lia.
Qed.

(** ** The pieces of [filewrite] *)

Lemma cost_fresh q di : (cost q ∅ di <= 2)%nat.
Proof.
  unfold cost, counted, no_ind. destruct (ind_of di =? 0).
  - rewrite (left_id_L ∅ (∪)), (right_id_L ∅ (∪)), size_singleton. lia.
  - rewrite (left_id_L ∅ (∪)). pose proof (size_union_le {[sb_bmapstart q]} {[ind_of di]}). rewrite !size_singleton in *. lia.
Qed.

Lemma touched_piece off n : 0 <= off -> n <= Z.of_nat max_write -> (touched off n <= 4)%nat.
Proof.
  intros H0 Hn. change (Z.of_nat max_write) with 1536 in Hn. unfold touched. destruct (Z.leb_spec n 0); [lia|].
  change (Z.of_nat BSIZE) with 512.
  assert ((off + n - 1) / 512 <= off / 512 + 3); [|lia].
  transitivity ((off + 3 * 512) / 512); [apply Z.div_le_mono; lia|]. rewrite Z.div_add by lia. lia.
Qed.

(** C18. A piece that [filewrite] writes in one transaction stays below the
    blocks that [begin_op] reserves for it: a piece of at most [max_write]
    bytes, wherever in the file it starts and whatever must be allocated for
    it, is written completely by [writei], which logs fewer than [MAXOPBLOCKS]
    blocks, when the file may grow that far and five blocks are free. *)
Theorem write_piece_fits g s v i ip off src :
  file_at g s v ∅ i ip -> whole (sb s) v (i_disk ip) -> di_type (i_disk ip) <> T_DEV ->
  0 <= i_inum ip < sb_ninodes (sb s) -> 0 <= off <= di_size (i_disk ip) ->
  off + Z.of_nat (length src) <= MAXFILE * Z.of_nat BSIZE -> (length src <= max_write)%nat ->
  (8 <= tg_cap g)%nat -> (5 <= nfree v (sb s))%nat ->
  exists s' v' L', writei devsw i src off s = Ret (Z.of_nat (length src)) s' /\ txn g (tx s') v' ∅ ∅ L' /\
    Z.of_nat (size L') < MAXOPBLOCKS.
Proof.
  intros FA W Hty Hn Hoff Hend Hl Hcap Hfree. pose proof (cost_fresh (sb s) (i_disk ip)) as Hc.
  pose proof (touched_piece off (Z.of_nat (length src)) ltac:(lia) ltac:(lia)) as Ht.
  assert (Hni : (no_ind (i_disk ip) <= 1)%nat) by (unfold no_ind; destruct (_ =? _); lia).
  pose proof (wp_writei devsw g s v ∅ i ip off src FA W Hty Hn Hoff Hend ltac:(lia) ltac:(lia)) as H.
  apply wp_iff in H as (r & s' & E & -> & v' & L' & di' & F). pose proof F as [(t & -> & Htx) _ _ _ _ _ _ _ _ _ _ F12].
  eexists _, v', L'. split; [exact E|]. split; [exact Htx|]. unfold MAXOPBLOCKS. lia.
Qed.
End sys_ops.
