(* ===== verification/SysBio.v ===== *)
(** * File system calls on a small disk

    The calls of [Sysfile] run on the disk of [FsBio]: the theorems of
    [SysOps] applied to it, and what [sys_open] and [sys_chmod] do there. *)

From S2P Require Import Prelude CStr Perm Mem BufIface Lock Bio Log LogBio Pipe Ptable File Proc Txn Fs FsAlloc FsInode FsData FsDir FsPath FsBio Sysfile SysOps.

Lemma chmod_sets_mode_witness : exists t s' v',
  chmod_op no_devices 0 0 (chars "/a" ++ [0]) 511 (demo_fs t (held_inode 1 root_inode false)) = Ret 0 s' /\
  option_map di_mode (disk_inode v' demo_sb 2) = Some 511.
Proof.
  destruct demo_txn as (t & Ht). exists t.
  destruct (chmod_sets_mode no_devices demo_geo (demo_fs t (held_inode 1 root_inode false)) demo_disk ∅ 0
    (held_inode 1 root_inode false) (chars "/a" ++ [0]) 511 2 file_inode) as (s' & v' & E & _ & Hd & _).
  - apply demo_walk. exact Ht.
  - reflexivity.
  - by vm_compute.
  - by vm_compute.
  - exists root_inode. exact demo_live1.
  - by_decide.
  - vm_compute. lia.
  - by vm_compute.
  - exact demo_live2.
  - exact (fo_wf _ _ _ (wh_file _ _ _ demo_file_ok)).
  - exists s', v'. split; [exact E|]. cbn [sb demo_fs] in Hd. rewrite Hd. reflexivity.
Defined.

Lemma isdirempty_correct_witness : exists t t',
  isdirempty no_devices 0 (demo_fs t (held_inode 1 root_inode true)) = Ret false (with_tx (demo_fs t (held_inode 1 root_inode true)) t').
Proof.
  destruct demo_txn as (t & Ht). exists t.
  destruct (isdirempty_correct no_devices demo_geo (demo_fs t (held_inode 1 root_inode true)) demo_disk ∅ 0
    (held_inode 1 root_inode true)) as (b & t' & E & _ & Hb).
  - exact (demo_file_at t 1 root_inode true Ht (wh_file _ _ _ (do_whole _ _ _ demo_root_ok))).
  - exact demo_root_ok.
  - by vm_compute.
  - exists t'. rewrite E. f_equal. destruct b; [|reflexivity]. exfalso.
    specialize (proj1 Hb eq_refl 2 ltac:(split; by vm_compute)) as H. by vm_compute in H.
Defined.

Lemma write_piece_fits_witness : exists t s',
  writei no_devices 0 (replicate 1000 7) 5 (demo_fs t (held_inode 2 file_inode true)) = Ret 1000 s'.
Proof.
  destruct demo_txn as (t & Ht). exists t.
  destruct (write_piece_fits no_devices demo_geo (demo_fs t (held_inode 2 file_inode true)) demo_disk 0
    (held_inode 2 file_inode true) 5 (replicate 1000 7)) as (s' & v' & L' & E & _).
  - exact (demo_file_at t 2 file_inode true Ht (wh_file _ _ _ demo_file_ok)).
  - exact demo_file_ok.
  - by vm_compute.
  - split; by vm_compute.
  - split; by vm_compute.
  - by vm_compute.
  - vm_compute. lia.
  - vm_compute. lia.
  - vm_compute. lia.
  - exists s'. exact E.
Defined.

(** ** Whole calls

    The disk after the boot, with an idle log, and the first process in the
    root directory, whose inode is entry 0 of the cache. *)

Definition idle_log : log := with_outstanding demo_log 0.

Definition booted_disk : kstate :=
  {| cache := match binit (boot 1 demo_disk) with Ret _ c | Stop _ c => c end; lg := idle_log |}.

Definition user_proc (uid : Z) : proc :=
  {| p_state := RUNNING; p_pid := 1; p_parent := None; p_chan := None; p_killed := false;
     p_ofile := replicate NOFILE None; p_cwd := Some 0%nat; p_name := replicate 16 0;
     p_uid := uid; p_euid := uid; p_gids := replicate NGIDS 0; p_sz := 0; p_kstack := true; p_pgdir := true |}.

Definition user_tables (uid : Z) : kst :=
  {| procs := [user_proc uid]; nextpid := 2; initproc := Some 0%nat; files := replicate NFILE zero_file;
     irefs := replicate 50 0; pipes := ∅ |}.

Definition demo_sys (uid : Z) (l : list inode) : sys kstate :=
  {| s_tab := user_tables uid; s_fs := {| tx := booted_disk; sb := demo_sb; icache := l; fs_pid := 1 |} |}.

Definition demo_cache : list inode := held_inode 1 root_inode false :: replicate 49 no_inode.

Definition result_of {S A} (o : outcome S A) : A + stop := match o with Ret a _ => inl a | Stop r _ => inr r end.
Definition state_of {S A} (o : outcome S A) : S := match o with Ret _ s | Stop _ s => s end.

(** Opening a file with [O_CREATE] does not return when the file exists or is
    created: [create] returns the inode locked, and [sys_open] then looks
    the path up and locks the same inode again. *)
Example open_create_sleeps :
  result_of (sys_open no_devices 0 (Some (chars "/a" ++ [0])) (Z.lor O_CREATE O_WRONLY) (demo_sys 0 demo_cache)) = inr (Sleeping "inode") /\
  result_of (sys_open no_devices 0 (Some (chars "/new" ++ [0])) (Z.lor O_CREATE O_RDWR) (demo_sys 0 demo_cache)) = inr (Sleeping "inode") /\
  result_of (sys_open no_devices 0 (Some (chars "/a" ++ [0])) O_RDWR (demo_sys 0 demo_cache)) = inl 0.
Proof. split_and!; by vm_compute. Qed.

(** An entry of the cache that was last used for a file of user [uid]. *)
Definition used_entry (uid : Z) : inode :=
  {| i_dev := ROOTDEV; i_inum := 3; i_ref := 0; i_lock := initsleeplock; i_valid := true;
     i_disk := di_with_owner 384 uid 0 (one_block T_FILE 1 5 15) |}.

Definition stale_cache : list inode := held_inode 1 root_inode false :: used_entry 7 :: replicate 48 no_inode.

(** The mode of inode 2 on the disk. *)
Definition mode_on_disk (s : sys kstate) : option Z :=
  option_map di_mode (disk_inode (disk (cache (tx (s_fs s)))) demo_sb 2).

(** [sys_chmod] compares the uid of the caller with an inode that is not
    read from the disk yet: user 7 may not change the mode of a file of root,
    but the call succeeds, and changes the mode on the disk, when the cache
    entry it gets was last used for a file of user 7. *)
Theorem chmod_stale_owner :
  result_of (sys_chmod no_devices 0 (Some (chars "/a" ++ [0])) 511 (demo_sys 7 demo_cache)) = inl (-1) /\
  (let o := sys_chmod no_devices 0 (Some (chars "/a" ++ [0])) 511 (demo_sys 7 stale_cache) in
   result_of o = inl 0 /\ mode_on_disk (demo_sys 7 stale_cache) = Some 755 /\ mode_on_disk (state_of o) = Some 511).
Proof. cbv zeta. split_and!; by vm_compute. Qed.

(** Making a directory, a link in it and removing both. *)
Definition demo_session : M (sys kstate) (list Z) :=
  let! a := sys_mkdir no_devices 0 (Some (chars "/d" ++ [0])) in
  let! b := sys_link no_devices 0 (Some (chars "/a" ++ [0])) (Some (chars "/d/b" ++ [0])) in
  let! c := sys_unlink no_devices 0 (Some (chars "/d" ++ [0])) in
  let! fd := sys_open no_devices 0 (Some (chars "/d/../d/b" ++ [0])) O_RDWR in
  let! w := sys_write no_devices 0 fd (Some (chars "HE")) in
  let! r := sys_read no_devices 0 fd 10 true in
  let! e := sys_unlink no_devices 0 (Some (chars "d/b" ++ [0])) in
  let! f := sys_unlink no_devices 0 (Some (chars "d" ++ [0])) in
  let! g := sys_chdir no_devices 0 (Some (chars "d" ++ [0])) in
  ret ([a; b; c; fd; w] ++ default [] r ++ [e; f; g]).

Example demo_session_runs :
  result_of (demo_session (demo_sys 0 demo_cache)) = inl ([0; 0; -1; 0; 2] ++ chars "llo" ++ [0; 0; -1]).
Proof. by vm_compute. Qed.

(** [ln x .] puts the shell to sleep for good: [dirlink] looks [.] up in
    the directory it is given locked, and gives the inode it finds, which is
    that directory, back with [iput]. *)
Theorem link_dot_sleeps :
  result_of (sys_link no_devices 0 (Some (chars "/a" ++ [0])) (Some (chars "." ++ [0])) (demo_sys 0 demo_cache)) = inr (Sleeping "inode").
Proof. by vm_compute. Qed.
