(* ===== verification/Kalloc.v ===== *)
(** * Physical pages

    [kernel/kalloc.c]: the allocator of physical pages, whose free list is
    threaded through the free pages themselves, with the address arithmetic
    of [kernel/memlayout.h] and [kernel/mmu.h].  Proved: allocation takes the
    first page of the free list, release puts a page in front of it, and
    [freerange] frees every whole page of a range exactly once. *)

From S2P Require Import Prelude CStr Mem.

Definition EXTMEM : Z := 0x100000.
Definition PHYSTOP : Z := 0xE000000.
Definition DEVSPACE : Z := 0xFE000000.
Definition KERNBASE : Z := 0x80000000.
Definition KERNLINK : Z := KERNBASE + EXTMEM.

Definition V2P (a : Z) : Z := u32 (a - KERNBASE).
Definition P2V (a : Z) : Z := u32 (a + KERNBASE).

Definition PGSIZE : Z := 4096.
Definition PGROUNDUP (sz : Z) : Z := Z.land (u32 (sz + PGSIZE - 1)) (Z.lnot (PGSIZE - 1)).
Definition PGROUNDDOWN (a : Z) : Z := Z.land a (Z.lnot (PGSIZE - 1)).

(** The pages of memory above the kernel image, by physical address, and the
    allocator's variables; a pointer of the kernel is an integer, null is 0. *)
Record kmem : Type := {
  pages : gmap Z (list Z);
  use_lock : Z;
  freelist : Z
}.

Definition with_pages (s : kmem) (p : gmap Z (list Z)) : kmem :=
  {| pages := p; use_lock := use_lock s; freelist := freelist s |}.
Definition with_freelist (s : kmem) (v : Z) : kmem :=
  {| pages := pages s; use_lock := use_lock s; freelist := v |}.
Definition with_use_lock (s : kmem) (v : Z) : kmem :=
  {| pages := pages s; use_lock := v; freelist := freelist s |}.

(** The page a kernel address points into, and the offset there. *)
Definition page_base (v : Z) : Z := V2P v - V2P v mod PGSIZE.
Definition page_off (v : Z) : nat := Z.to_nat (V2P v mod PGSIZE).

Definition load_at (n : nat) (v : Z) : M kmem Z :=
  let! s := gets id in
  lift (d ← pages s !! page_base v; load n d (page_off v)).

Definition update_at (v : Z) (f : list Z -> nat -> option (list Z)) : M kmem unit :=
  let! s := gets id in
  let! d := lift (pages s !! page_base v) in
  let! d' := lift (f d (page_off v)) in
  modify (fun s => with_pages s (<[page_base v := d']> (pages s))).

Definition store_at (n : nat) (v x : Z) : M kmem unit :=
  update_at v (fun d o => put n d o x).

Definition memset_at (v c : Z) (n : nat) : M kmem unit :=
  update_at v (fun d o => memset v d o c n).

Section kalloc.
(** The first address after the kernel image, from the linker script. *)
Variable end_ : Z.

(** The lock is held around the list operations only; it has no effect on
    what they compute. *)
Definition kfree (v : Z) : M kmem unit :=
  if negb (v mod PGSIZE =? 0) || (v <? end_) || (PHYSTOP <=? V2P v) then halt (Panicked "kfree")
  else
    memset_at v 1 (Z.to_nat PGSIZE) then!
    let! next := gets freelist in
    store_at 4 v next then!
    modify (fun s => with_freelist s v).

Definition kalloc : M kmem Z :=
  let! r := gets freelist in
  (if r =? 0 then ret tt
   else let! next := load_at 4 r in modify (fun s => with_freelist s next)) then!
  ret r.

Fixpoint freerange_loop (n : nat) (p vend : Z) : M kmem unit :=
  match n with
  | O => halt Undefined
  | S n' =>
      if u32 (p + PGSIZE) <=? vend then kfree p then! freerange_loop n' (u32 (p + PGSIZE)) vend
      else ret tt
  end.

Definition freerange (vstart vend : Z) : M kmem unit :=
  freerange_loop (Z.to_nat (vend / PGSIZE + 1)) (PGROUNDUP vstart) vend.

Definition kinit1 (vstart vend : Z) : M kmem unit :=
  modify (fun s => with_use_lock s 0) then!
  freerange vstart vend.

Definition kinit2 (vstart vend : Z) : M kmem unit :=
  freerange vstart vend then!
  modify (fun s => with_use_lock s 1).
End kalloc.

(** ** Addresses *)

Lemma round_down a : PGROUNDDOWN a = a - a mod PGSIZE.
Proof.
  unfold PGROUNDDOWN, PGSIZE. change (4096 - 1) with (Z.ones 12).
  rewrite <- Z.ldiff_land, Z.ldiff_ones_r, Z.shiftl_mul_pow2, Z.shiftr_div_pow2 by lia.
  change (2 ^ 12) with 4096. pose proof (Z.div_mod a 4096). lia.
Qed.

Lemma round_up a : 0 <= a -> a + PGSIZE - 1 < 2 ^ 32 ->
  PGROUNDUP a = (a + PGSIZE - 1) / PGSIZE * PGSIZE.
Proof.
  intros. unfold PGROUNDUP. rewrite u32_small by (unfold PGSIZE in *; lia).
  change (Z.land ?x _) with (PGROUNDDOWN x). rewrite round_down.
  pose proof (Z.div_mod (a + PGSIZE - 1) PGSIZE ltac:(done)). lia.
Qed.

(** ** Lists of pages *)

(** The free list from [head] on visits the pages [fl]. *)
Fixpoint chain (pg : gmap Z (list Z)) (head : Z) (fl : list Z) : Prop :=
  match fl with
  | [] => head = 0
  | p :: r => head = P2V p /\ exists d next, pg !! p = Some d /\ load 4 d 0 = Some next /\ chain pg next r
  end.

Lemma chain_frame pg pg' head fl :
  (forall p, p ∈ fl -> pg' !! p = pg !! p) -> chain pg head fl -> chain pg' head fl.
Proof.
  revert head. induction fl as [|p fl IH]; intros head Hp; [done|].
  intros (Hh & d & next & Hd & Hn & Hc). split; [done|]. exists d, next.
  split; [rewrite Hp by set_solver; done|]. split; [done|]. apply IH; [|done]. intros q Hq. apply Hp. set_solver.
Qed.

Lemma chain_elem pg head fl p : chain pg head fl -> p ∈ fl -> is_Some (pg !! p).
Proof.
  revert head. induction fl as [|q fl IH]; intros head; [set_solver|].
  intros (Hh & d & next & Hd & Hn & Hc) [->|Hp]%elem_of_cons; [by exists d|by apply (IH next)].
Qed.

(** Everything the allocator and its clients do to a page [p]: the other
    pages keep their contents. *)
Definition only (X : list Z) (s s' : kmem) : Prop :=
  dom (pages s') = dom (pages s) /\ forall q, q ∉ X -> pages s' !! q = pages s !! q.

Lemma only_refl X s : only X s s.
Proof. done. Qed.

Lemma only_trans X Y s s1 s2 : only X s s1 -> only Y s1 s2 -> only (X ++ Y) s s2.
Proof.
  intros [D1 H1] [D2 H2]. split; [congruence|]. intros q Hq. rewrite H2, H1 by set_solver. done.
Qed.

Lemma only_weaken X Y s s' : only X s s' -> X ⊆ Y -> only Y s s'.
Proof. intros [D H] HX. split; [done|]. intros q Hq. apply H. set_solver. Qed.

#[export] Instance only_proper : Proper ((≡ₚ) ==> (=) ==> (=) ==> iff) only.
Proof. intros X Y H s ? <- s' ? <-. unfold only. by setoid_rewrite H. Qed.

Lemma only_insert s p d d' : pages s !! p = Some d -> only [p] s (with_pages s (<[p := d']> (pages s))).
Proof.
  intros Hd. split; cbn [pages with_pages].
  - rewrite dom_insert_L. apply subseteq_union_1_L. apply singleton_subseteq_l, elem_of_dom. by exists d.
  - intros q Hq. apply lookup_insert_ne. set_solver.
Qed.

(** [k] pages from [q] on. *)
Fixpoint run (q : Z) (k : nat) : list Z :=
  match k with
  | O => []
  | S k' => q :: run (q + PGSIZE) k'
  end.

Lemma elem_of_run p q k : p ∈ run q k <-> exists i, (i < k)%nat /\ p = q + Z.of_nat i * PGSIZE.
Proof.
  revert q. induction k as [|k IH]; intros q; simpl; [split; [set_solver|by intros (i & ? & _); lia]|].
  rewrite elem_of_cons, IH. split.
  - intros [->|(i & Hi & ->)]; [exists 0%nat; lia|exists (S i); lia].
  - intros ([|i] & Hi & ->); [left; lia|right; exists i; lia].
Qed.

Lemma run_split q k j : run q (k + j) = run q k ++ run (q + Z.of_nat k * PGSIZE) j.
Proof.
  revert q. induction k as [|k IH]; intros q; simpl; [f_equal; lia|]. f_equal. rewrite IH. do 2 f_equal. lia.
Qed.

Lemma run_nodup q k : NoDup (run q k).
Proof.
  revert q. induction k as [|k IH]; intros q; simpl; constructor; [|apply IH].
  intros (i & _ & E)%elem_of_run. unfold PGSIZE in *. lia.
Qed.

Section heap.
Variable end_ : Z.
Hypothesis end_above : KERNLINK <= end_.

(** A page the allocator can hand out, by physical address. *)
Definition heap_page (p : Z) : Prop := p mod PGSIZE = 0 /\ end_ <= p + KERNBASE /\ p < PHYSTOP.

Definition pages_wf (pg : gmap Z (list Z)) : Prop :=
  forall p d, pg !! p = Some d -> heap_page p /\ length d = Z.to_nat PGSIZE /\ bytes d.

Record heap_ok (s : kmem) (fl : list Z) : Prop := {
  hp_wf : pages_wf (pages s);
  hp_chain : chain (pages s) (freelist s) fl;
  hp_nodup : NoDup fl
}.

Lemma heap_page_range p : heap_page p -> EXTMEM <= p < PHYSTOP.
Proof. intros (_ & H & ?). unfold KERNLINK in *. lia. Qed.

Lemma P2V_page p : 0 <= p < PHYSTOP -> P2V p = p + KERNBASE.
Proof. intros H. apply u32_small. unfold PHYSTOP, KERNBASE in *. lia. Qed.

Lemma V2P_P2V p : 0 <= p < PHYSTOP -> V2P (P2V p) = p.
Proof.
  intros H. rewrite P2V_page by done. unfold V2P. rewrite u32_small; [lia|]. unfold PHYSTOP in *. lia.
Qed.

(** The byte at offset [o] of the page [p]. *)
Lemma page_at p o : heap_page p -> 0 <= o < PGSIZE ->
  page_base (P2V p + o) = p /\ page_off (P2V p + o) = Z.to_nat o.
Proof.
  intros H Ho. pose proof (heap_page_range p H) as Hr. destruct H as (Hm & _ & Hs).
  unfold EXTMEM, PHYSTOP in Hr.
  assert (V2P (P2V p + o) = p + o) as E.
  { rewrite P2V_page by (unfold PHYSTOP; lia). unfold V2P. rewrite u32_small; unfold KERNBASE, PGSIZE in *; lia. }
  unfold page_base, page_off. rewrite E. unfold PGSIZE in *.
  replace ((p + o) mod 4096) with o by (rewrite <- Z.add_mod_idemp_l, Hm, Z.mod_small; lia). lia.
Qed.

(** ** Loads and stores *)

Lemma wp_load_at n s p o d x (Q : Z -> kmem -> Prop) :
  heap_page p -> 0 <= o < PGSIZE -> pages s !! p = Some d -> load n d (Z.to_nat o) = Some x -> Q x s ->
  wp (load_at n (P2V p + o)) s Q.
Proof.
  intros Hp Ho Hd Hx HQ. unfold load_at. apply wp_bind, wp_gets. destruct (page_at p o Hp Ho) as [-> ->].
  unfold id. rewrite Hd. cbn [mbind option_bind]. by apply (wp_lift _ x).
Qed.

Lemma wp_update_at f s p o d d' (Q : unit -> kmem -> Prop) :
  heap_page p -> 0 <= o < PGSIZE -> pages s !! p = Some d -> f d (Z.to_nat o) = Some d' ->
  Q tt (with_pages s (<[p := d']> (pages s))) ->
  wp (update_at (P2V p + o) f) s Q.
Proof.
  intros Hp Ho Hd Hx HQ. unfold update_at. apply wp_bind, wp_gets. destruct (page_at p o Hp Ho) as [-> ->].
  unfold id. apply wp_bind, (wp_lift _ d); [done|]. apply wp_bind, (wp_lift _ d'); [done|]. by apply wp_modify.
Qed.

Lemma wp_load_page n s p d x (Q : Z -> kmem -> Prop) :
  heap_page p -> pages s !! p = Some d -> load n d 0 = Some x -> Q x s -> wp (load_at n (P2V p)) s Q.
Proof. intros. rewrite <- (Z.add_0_r (P2V p)). by apply (wp_load_at n s p 0 d x). Qed.

Lemma wp_update_page f s p d d' (Q : unit -> kmem -> Prop) :
  heap_page p -> pages s !! p = Some d -> f d 0%nat = Some d' ->
  Q tt (with_pages s (<[p := d']> (pages s))) -> wp (update_at (P2V p) f) s Q.
Proof. intros. rewrite <- (Z.add_0_r (P2V p)). by apply (wp_update_at f s p 0 d d'). Qed.

Lemma pages_wf_insert pg p d d' :
  pages_wf pg -> pg !! p = Some d -> length d' = Z.to_nat PGSIZE -> bytes d' -> pages_wf (<[p := d']> pg).
Proof using Type.
  intros Hw Hd Hl Hb q e. destruct (decide (q = p)) as [->|].
  - rewrite lookup_insert_eq. intros [= <-]. split; [by apply (Hw p d)|done].
  - rewrite lookup_insert_ne by done. apply Hw.
Qed.

Lemma heap_frame s s' fl :
  heap_ok s fl -> pages_wf (pages s') -> freelist s' = freelist s ->
  (forall p, p ∈ fl -> pages s' !! p = pages s !! p) -> heap_ok s' fl.
Proof using Type.
  intros [H1 H2 H3] Hw Hf Hp. split; [done| |done]. rewrite Hf. by apply (chain_frame (pages s)).
Qed.

(** ** Allocation and release *)

Lemma heap_head s p r : heap_ok s (p :: r) -> heap_page p /\ freelist s = P2V p /\ P2V p <> 0.
Proof.
  intros [Hw (Hh & d & next & Hd & _) _]. destruct (Hw p d Hd) as [Hp _]. split; [done|]. split; [done|].
  pose proof (heap_page_range p Hp). rewrite P2V_page by (unfold EXTMEM in *; lia).
  unfold EXTMEM, KERNBASE in *. lia.
Qed.

Lemma wp_kalloc s fl :
  heap_ok s fl ->
  wp kalloc s (fun v s' =>
    pages s' = pages s /\
    match fl with
    | [] => v = 0 /\ s' = s
    | p :: r => v = P2V p /\ heap_ok s' r
    end).
Proof.
  intros H. unfold kalloc. apply wp_bind, wp_gets. destruct fl as [|p r].
  - destruct H as [_ Hc _]. simpl in Hc. rewrite Hc, Z.eqb_refl. by apply wp_bind, wp_ret, wp_ret.
  - destruct (heap_head s p r H) as (Hp & Hf & Hz). rewrite Hf, (proj2 (Z.eqb_neq _ _)) by done.
    destruct H as [Hw (_ & d & next & Hd & Hn & Hc) Hnd]. apply wp_bind, wp_bind.
    eapply wp_load_page; [done..|].
    apply wp_modify, wp_ret. cbn [pages with_freelist]. split; [done|]. split; [done|].
    apply list.NoDup_cons in Hnd as [_ Hnd]. by split.
Qed.

Lemma wp_kfree s fl p :
  heap_ok s fl -> is_Some (pages s !! p) -> p ∉ fl ->
  wp (kfree end_ (P2V p)) s (fun _ s' => heap_ok s' (p :: fl) /\ only [p] s s').
Proof.
  intros H [d Hd] Hfl. pose proof H as [Hw Hc Hn]. destruct (Hw p d Hd) as (Hp & Hl & Hb).
  pose proof (heap_page_range p Hp) as Hr. pose proof Hp as (Hm & He & _). unfold EXTMEM in Hr.
  unfold kfree. rewrite V2P_P2V by lia. rewrite (proj2 (Z.leb_gt _ _)), (proj2 (Z.ltb_ge _ _)), (proj2 (Z.eqb_eq _ 0));
    [|rewrite P2V_page by lia; unfold PGSIZE, KERNBASE in *; rewrite <- Z.add_mod_idemp_l, Hm; done
     |rewrite P2V_page; lia|lia].
  simpl negb. cbn [orb]. apply wp_bind. unfold memset_at, store_at.
  pose proof (memset_fills (P2V p) d 0 1 (Z.to_nat PGSIZE) ltac:(lia)) as Hms.
  eapply (wp_update_page _ s p d); [done|done|exact Hms|].
  rewrite splice_whole in * by (by rewrite length_replicate). apply wp_bind, wp_gets. cbn [freelist with_pages].
  set (ones := replicate _ _) in *.
  assert (Hlo : length ones = Z.to_nat PGSIZE) by apply length_replicate.
  assert (Hput : exists e, put 4 ones 0 (freelist s) = Some e) by (rewrite put_in by (rewrite Hlo; vm_compute; lia); eauto).
  destruct Hput as [e He']. apply wp_bind.
  eapply (wp_update_page _ _ p ones); [done|apply lookup_insert_eq|exact He'|].
  apply wp_modify. cbn [pages with_pages freelist with_freelist]. rewrite insert_insert_eq.
  assert (Hle : length e = Z.to_nat PGSIZE) by (by rewrite (put_length _ _ _ _ _ He')).
  split; [|].
  - split; cbn [pages with_pages freelist with_freelist use_lock].
    + apply (pages_wf_insert _ p d); [done|done|done|]. apply (put_bytes 4 ones 0 (freelist s)); [|done].
      apply Forall_replicate. done.
    + split; [done|]. exists e, (u32 (freelist s)). split; [apply lookup_insert_eq|].
      split; [by apply (load_put_same 4 ones 0)|]. rewrite u32_small.
      * apply (chain_frame (pages s)); [|done]. intros q Hq. apply lookup_insert_ne. by intros ->.
      * destruct fl as [|q fl]; [by rewrite Hc|]. destruct (heap_head s q fl H) as (_ & -> & _). apply u32_bounds.
    + by apply list.NoDup_cons.
  - apply (only_insert s p d e Hd).
Qed.

(** ** The initial free list *)

Lemma wp_freerange_loop k n q vend s fl :
  (k < n)%nat -> heap_ok s fl -> 0 <= q -> vend <= KERNBASE + PHYSTOP ->
  (q + KERNBASE + Z.of_nat k * PGSIZE <= vend < q + KERNBASE + (Z.of_nat k + 1) * PGSIZE) ->
  (forall p, p ∈ run q k -> is_Some (pages s !! p) /\ p ∉ fl) ->
  wp (freerange_loop end_ n (P2V q) vend) s (fun _ s' =>
    heap_ok s' (rev (run q k) ++ fl) /\ only (run q k) s s').
Proof.
  revert n q s fl. induction k as [|k IH]; intros [|n] q s fl Hn H Hq Hv Hk Hp; [lia| |lia|]; simpl;
    unfold PGSIZE, KERNBASE, PHYSTOP in Hv, Hk.
  all: assert (HP : P2V q = q + KERNBASE) by (apply u32_small; unfold KERNBASE; lia).
  all: assert (HN : u32 (P2V q + PGSIZE) = q + PGSIZE + KERNBASE)
    by (rewrite HP, u32_small; unfold KERNBASE, PGSIZE in *; lia).
  all: rewrite HN.
  - rewrite (proj2 (Z.leb_gt _ _)) by (unfold PGSIZE, KERNBASE; lia). apply wp_ret. by split; [|apply only_refl].
  - rewrite (proj2 (Z.leb_le _ _)) by (unfold PGSIZE, KERNBASE; lia).
    destruct (Hp q) as [Hq1 Hq2]; [simpl; set_solver|]. apply wp_bind.
    eapply wp_mono; [by apply (wp_kfree s fl q)|]. intros [] s1 [H1 O1].
    replace (q + PGSIZE + KERNBASE) with (P2V (q + PGSIZE)) by (apply u32_small; unfold PGSIZE, KERNBASE; lia).
    eapply wp_mono; [apply (IH n (q + PGSIZE) s1 (q :: fl)); try (unfold PGSIZE, KERNBASE, PHYSTOP; lia); [done|]|].
    + intros p Hin. destruct (Hp p) as [Hp1 Hp2]; [simpl; set_solver|].
      assert (p <> q) by (apply elem_of_run in Hin as (i & _ & ->); unfold PGSIZE; lia).
      split; [rewrite (proj2 O1) by set_solver; done|set_solver].
    + intros [] s2 [H2 O2]. split.
      * cbn [rev]. rewrite <- app_assoc. exact H2.
      * apply (only_trans [q] _ _ s1); done.
Qed.

Lemma wp_freerange vstart vend s fl :
  let q := PGROUNDUP vstart - KERNBASE in
  let k := Z.to_nat ((vend - PGROUNDUP vstart) / PGSIZE) in
  heap_ok s fl -> KERNLINK <= vstart -> PGROUNDUP vstart <= vend -> vstart <= vend -> vend <= KERNBASE + PHYSTOP ->
  (forall p, p ∈ run q k -> is_Some (pages s !! p) /\ p ∉ fl) ->
  wp (freerange end_ vstart vend) s (fun _ s' =>
    heap_ok s' (rev (run q k) ++ fl) /\ only (run q k) s s').
Proof.
  intros q k H Hs Hle Hle' Hv Hp. unfold freerange. pose proof (round_up vstart) as Hr.
  unfold KERNLINK, KERNBASE, PHYSTOP, EXTMEM, PGSIZE in *.
  pose proof (Z.div_mod (vstart + 4096 - 1) 4096 ltac:(lia)). pose proof (Z.mod_pos_bound (vstart + 4096 - 1) 4096 ltac:(lia)).
  pose proof (Z.div_mod (vend - PGROUNDUP vstart) 4096 ltac:(lia)). pose proof (Z.mod_pos_bound (vend - PGROUNDUP vstart) 4096 ltac:(lia)).
  pose proof (Z.div_pos (vend - PGROUNDUP vstart) 4096 ltac:(lia) ltac:(lia)).
  pose proof (Z.div_le_mono (vend - PGROUNDUP vstart) vend 4096 ltac:(lia) ltac:(lia)).
  replace (PGROUNDUP vstart) with (P2V q) at 1 by (unfold q, P2V, KERNBASE; rewrite Z.sub_add; apply u32_small; lia).
  apply wp_freerange_loop; try done; unfold q, k, PGSIZE, KERNBASE, PHYSTOP in *; lia.
Qed.

Lemma heap_use_lock s v fl : heap_ok s fl -> heap_ok (with_use_lock s v) fl.
Proof using Type. by intros [H1 H2 H3]. Qed.

(** The whole pages of memory above the kernel image. *)
Definition heap_pages : list Z :=
  run (PGROUNDUP end_ - KERNBASE) (Z.to_nat ((KERNBASE + PHYSTOP - PGROUNDUP end_) / PGSIZE)).

Lemma round_up_split a b :
  KERNLINK <= a <= b -> b mod PGSIZE = 0 -> b <= KERNBASE + PHYSTOP ->
  PGROUNDUP a <= b /\ PGROUNDUP b = b /\ PGROUNDUP a mod PGSIZE = 0 /\
  PGROUNDUP a + (b - PGROUNDUP a) / PGSIZE * PGSIZE = b.
Proof.
  unfold KERNLINK, KERNBASE, EXTMEM, PHYSTOP, PGSIZE. intros Ha Hb Hl.
  rewrite !round_up by (unfold PGSIZE; lia). unfold PGSIZE.
  pose proof (Z.div_mod b 4096 ltac:(lia)). rewrite Hb in *.
  pose proof (Z.div_mod (a + 4096 - 1) 4096 ltac:(lia)). pose proof (Z.mod_pos_bound (a + 4096 - 1) 4096 ltac:(lia)).
  split; [nia|]. split; [|split].
  - replace (b + 4096 - 1) with (4095 + (b / 4096) * 4096) by lia.
    rewrite Z.div_add by lia. change (4095 / 4096) with 0. lia.
  - by apply Z.mod_mul.
  - replace (b - (a + 4096 - 1) / 4096 * 4096) with ((b / 4096 - (a + 4096 - 1) / 4096) * 4096) by lia.
    rewrite Z.div_mul by lia. lia.
Qed.

Lemma heap_pages_split m : end_ <= m + KERNBASE -> m mod PGSIZE = 0 -> 0 <= m <= PHYSTOP ->
  heap_pages = run (PGROUNDUP end_ - KERNBASE) (Z.to_nat ((m + KERNBASE - PGROUNDUP end_) / PGSIZE))
               ++ run m (Z.to_nat ((PHYSTOP - m) / PGSIZE)).
Proof.
  intros Hm Hmod Hr. unfold heap_pages.
  destruct (round_up_split end_ (m + KERNBASE)) as (Hle & Hid & Ha & Hb);
    [lia|by apply Z.mod_divide in Hmod as [x ->]; [|done]; apply Z.mod_divide; [done|]; exists (x + 524288); unfold KERNBASE, PGSIZE; lia|lia|].
  assert (Hd : PHYSTOP - m = (PHYSTOP - m) / PGSIZE * PGSIZE).
  { apply Z.mod_divide in Hmod as [x ->]; [|done]. replace (PHYSTOP - x * PGSIZE) with ((57344 - x) * PGSIZE) by (unfold PHYSTOP, PGSIZE; lia).
    by rewrite Z.div_mul. }
  set (a := (m + KERNBASE - PGROUNDUP end_) / PGSIZE) in *. set (b := (PHYSTOP - m) / PGSIZE) in *.
  assert (0 <= a) by (apply Z.div_pos; unfold PGSIZE; lia). assert (0 <= b) by (apply Z.div_pos; unfold PGSIZE; lia).
  replace ((KERNBASE + PHYSTOP - PGROUNDUP end_) / PGSIZE) with (a + b).
  - rewrite Z2Nat.inj_add, run_split by lia. do 2 f_equal. rewrite Z2Nat.id by lia. lia.
  - replace (KERNBASE + PHYSTOP - PGROUNDUP end_) with ((a + b) * PGSIZE) by lia. by rewrite Z.div_mul.
Qed.

(** In two steps, up to the physical address [m] and from there on. *)
Lemma wp_kinit m s :
  end_ <= m + KERNBASE -> m mod PGSIZE = 0 -> 0 <= m <= PHYSTOP ->
  pages_wf (pages s) -> freelist s = 0 -> (forall p, p ∈ heap_pages -> is_Some (pages s !! p)) ->
  wp (kinit1 end_ end_ (m + KERNBASE) then! kinit2 end_ (m + KERNBASE) (KERNBASE + PHYSTOP)) s (fun _ s' =>
    use_lock s' = 1 /\ exists fl, heap_ok s' fl /\ fl ≡ₚ heap_pages).
Proof.
  intros He Hm Hr Hw Hf Hp. rewrite (heap_pages_split m He Hm Hr) in *.
  pose proof (run_nodup (PGROUNDUP end_ - KERNBASE) (Z.to_nat ((KERNBASE + PHYSTOP - PGROUNDUP end_) / PGSIZE))) as Hnd.
  change (run _ _) with heap_pages in Hnd. rewrite (heap_pages_split m He Hm Hr) in Hnd.
  assert (H0 : heap_ok (with_use_lock s 0) []) by (split; [done|done|constructor]).
  assert (Hm' : (m + KERNBASE) mod PGSIZE = 0).
  { apply Z.mod_divide in Hm as [x ->]; [|done]. apply Z.mod_divide; [done|].
    exists (x + 524288). unfold KERNBASE, PGSIZE. lia. }
  destruct (round_up_split end_ (m + KERNBASE)) as (Hle & Hid & _); [by split|done|lia|].
  set (low := run _ _) in *. set (high := run m _) in *.
  assert (Hhigh : run (PGROUNDUP (m + KERNBASE) - KERNBASE)
    (Z.to_nat ((KERNBASE + PHYSTOP - PGROUNDUP (m + KERNBASE)) / PGSIZE)) = high).
  { unfold high. rewrite Hid. f_equal; [lia|]. do 2 f_equal. lia. }
  unfold kinit1, kinit2. apply wp_bind, wp_bind, wp_modify.
  eapply wp_mono; [apply (wp_freerange end_ (m + KERNBASE) _ []); try done; [lia|]|].
  { fold low. intros p Hin. split; [apply Hp; set_solver|set_solver]. }
  fold low. intros [] s1 [H1 O1]. apply wp_bind. rewrite app_nil_r in H1.
  eapply wp_mono; [apply (wp_freerange (m + KERNBASE) (KERNBASE + PHYSTOP) s1 (rev low)); try done; try lia|].
  { rewrite Hhigh. intros p Hin. apply list.NoDup_app in Hnd as (_ & Hnd & _).
    assert (Hlow : p ∉ low) by (intros Hl; by apply (Hnd p)).
    split; [rewrite (proj2 O1) by done; apply Hp; set_solver|]. intros Hl%list_elem_of_In. by apply Hlow, list_elem_of_In, in_rev. }
  rewrite Hhigh. intros [] s2 [H2 O2].
  apply wp_modify. split; [done|]. exists (rev high ++ rev low). split; [by apply heap_use_lock|].
  rewrite <- rev_app_distr. symmetry. apply Permutation_rev.
Qed.

(** After [kinit1(end, P2V(4 MB))] and [kinit2(P2V(4 MB), P2V(PHYSTOP))],
    as [main] calls them, the free list is well formed and holds every whole
    page of physical memory above the kernel image exactly once. *)
Theorem kinit_frees_all s :
  end_ <= P2V 0x400000 -> pages_wf (pages s) -> freelist s = 0 ->
  (forall p, p ∈ heap_pages -> is_Some (pages s !! p)) ->
  wp (kinit1 end_ end_ (P2V 0x400000) then! kinit2 end_ (P2V 0x400000) (P2V PHYSTOP)) s (fun _ s' =>
    use_lock s' = 1 /\ exists fl, heap_ok s' fl /\ fl ≡ₚ heap_pages).
Proof.
  replace (P2V 0x400000) with (0x400000 + KERNBASE) by reflexivity.
  replace (P2V PHYSTOP) with (KERNBASE + PHYSTOP) by reflexivity.
  intros He. apply wp_kinit; [exact He|reflexivity|]. unfold PHYSTOP. lia.
Qed.
End heap.
