(* ===== verification/Vm.v ===== *)
(** * Page tables

    [kernel/vm.c]: page directories and page tables as words of physical
    pages, the kernel's mappings, and the creation, growth, copy and release
    of the memory of a process.  This file holds the definitions; [VmSpace],
    [VmUser], [VmGrow], [VmCopy] and [VmMove] hold what is proved of them. *)

From S2P Require Import Prelude CStr Mem Kalloc.

(** ** [kernel/mmu.h] *)

Definition PTXSHIFT : Z := 12.
Definition PDXSHIFT : Z := 22.
Definition NPDENTRIES : nat := 1024.

Definition PDX (va : Z) : Z := Z.land (Z.shiftr va PDXSHIFT) 0x3FF.
Definition PTX (va : Z) : Z := Z.land (Z.shiftr va PTXSHIFT) 0x3FF.
Definition PGADDR (d t o : Z) : Z :=
  u32 (Z.lor (Z.lor (Z.shiftl d PDXSHIFT) (Z.shiftl t PTXSHIFT)) o).

Definition PTE_P : Z := 0x001.
Definition PTE_W : Z := 0x002.
Definition PTE_U : Z := 0x004.

Definition PTE_ADDR (pte : Z) : Z := Z.land pte (Z.lnot 0xFFF).
Definition PTE_FLAGS (pte : Z) : Z := Z.land pte 0xFFF.

(** [pte & flag], as a condition. *)
Definition has (flag pte : Z) : bool := negb (Z.land pte flag =? 0).

Section vm.
(** The linker symbols [data] and [end]. *)
Variables data end_ : Z.

(** A pointer to an entry; 0 when there is none. *)
Definition walkpgdir (pgdir va : Z) (alloc : bool) : M kmem Z :=
  let pde := pgdir + 4 * PDX va in
  let! e := load_at 4 pde in
  if has PTE_P e then ret (P2V (PTE_ADDR e) + 4 * PTX va)
  else if negb alloc then ret 0
  else
    let! pgtab := kalloc in
    if pgtab =? 0 then ret 0
    else
      memset_at pgtab 0 (Z.to_nat PGSIZE) then!
      store_at 4 pde (Z.lor (Z.lor (Z.lor (V2P pgtab) PTE_P) PTE_W) PTE_U) then!
      ret (pgtab + 4 * PTX va).

Fixpoint mappages_loop (n : nat) (pgdir a last pa perm : Z) : M kmem Z :=
  match n with
  | O => halt Undefined
  | S n' =>
      let! pte := walkpgdir pgdir a true in
      if pte =? 0 then ret (-1)
      else
        let! e := load_at 4 pte in
        if has PTE_P e then halt (Panicked "remap")
        else
          store_at 4 pte (Z.lor (Z.lor pa perm) PTE_P) then!
          if a =? last then ret 0
          else mappages_loop n' pgdir (u32 (a + PGSIZE)) last (u32 (pa + PGSIZE)) perm
  end.

(** [a] comes back to [last] after at most this many pages, whatever the
    arguments. *)
Definition mappages (pgdir va size pa perm : Z) : M kmem Z :=
  let a := PGROUNDDOWN va in
  let last := PGROUNDDOWN (u32 (va + size - 1)) in
  mappages_loop (Z.to_nat (u32 (last - a) / PGSIZE + 1)) pgdir a last pa perm.

Fixpoint deallocuvm_loop (n : nat) (pgdir a oldsz : Z) : M kmem unit :=
  match n with
  | O => halt Undefined
  | S n' =>
      if a <? oldsz then
        let! pte := walkpgdir pgdir a false in
        if pte =? 0 then
          deallocuvm_loop n' pgdir (u32 (u32 (PGADDR (PDX a + 1) 0 0 - PGSIZE) + PGSIZE)) oldsz
        else
          let! e := load_at 4 pte in
          (if has PTE_P e then
             let pa := PTE_ADDR e in
             if pa =? 0 then halt (Panicked "kfree")
             else kfree end_ (P2V pa) then! store_at 4 pte 0
           else ret tt) then!
          deallocuvm_loop n' pgdir (u32 (a + PGSIZE)) oldsz
      else ret tt
  end.

Definition deallocuvm (pgdir oldsz newsz : Z) : M kmem Z :=
  if oldsz <=? newsz then ret oldsz
  else
    deallocuvm_loop (Z.to_nat (oldsz / PGSIZE + 2)) pgdir (PGROUNDUP newsz) oldsz then!
    ret newsz.

Fixpoint freevm_loop (n : nat) (pgdir i : Z) : M kmem unit :=
  match n with
  | O => ret tt
  | S n' =>
      let! e := load_at 4 (pgdir + 4 * i) in
      (if has PTE_P e then kfree end_ (P2V (PTE_ADDR e)) else ret tt) then!
      freevm_loop n' pgdir (i + 1)
  end.

Definition freevm (pgdir : Z) : M kmem unit :=
  if pgdir =? 0 then halt (Panicked "freevm: no pgdir")
  else
    let! _ := deallocuvm pgdir KERNBASE 0 in
    freevm_loop NPDENTRIES pgdir 0 then!
    kfree end_ pgdir.

Record kmap_entry : Type := { k_virt : Z; k_start : Z; k_end : Z; k_perm : Z }.

Definition kmap : list kmap_entry :=
  [ {| k_virt := KERNBASE; k_start := 0; k_end := EXTMEM; k_perm := PTE_W |};
    {| k_virt := KERNLINK; k_start := V2P KERNLINK; k_end := V2P data; k_perm := 0 |};
    {| k_virt := data; k_start := V2P data; k_end := PHYSTOP; k_perm := PTE_W |};
    {| k_virt := DEVSPACE; k_start := DEVSPACE; k_end := 0; k_perm := PTE_W |} ].

Fixpoint setupkvm_loop (pgdir : Z) (ks : list kmap_entry) : M kmem Z :=
  match ks with
  | [] => ret pgdir
  | k :: ks' =>
      let! r := mappages pgdir (k_virt k) (u32 (k_end k - k_start k)) (k_start k) (k_perm k) in
      if r <? 0 then freevm pgdir then! ret 0
      else setupkvm_loop pgdir ks'
  end.

Definition setupkvm : M kmem Z :=
  let! pgdir := kalloc in
  if pgdir =? 0 then ret 0
  else
    memset_at pgdir 0 (Z.to_nat PGSIZE) then!
    if DEVSPACE <? P2V PHYSTOP then halt (Panicked "PHYSTOP too high")
    else setupkvm_loop pgdir kmap.

(** [memmove] of bytes that are not in user memory. *)
Definition write_at (v : Z) (l : list Z) : M kmem unit :=
  update_at v (fun d o => if decide (o + length l <= length d)%nat then Some (splice d o l) else None).

Definition inituvm (pgdir : Z) (init : list Z) : M kmem unit :=
  if PGSIZE <=? Z.of_nat (length init) then halt (Panicked "inituvm: more than a page")
  else
    let! mem := kalloc in
    memset_at mem 0 (Z.to_nat PGSIZE) then!
    let! _ := mappages pgdir 0 PGSIZE (V2P mem) (Z.lor PTE_W PTE_U) in
    write_at mem init.

Fixpoint allocuvm_loop (n : nat) (pgdir a oldsz newsz : Z) : M kmem Z :=
  match n with
  | O => halt Undefined
  | S n' =>
      if a <? newsz then
        let! mem := kalloc in
        if mem =? 0 then
          let! _ := deallocuvm pgdir newsz oldsz in
          ret 0
        else
          memset_at mem 0 (Z.to_nat PGSIZE) then!
          let! r := mappages pgdir a PGSIZE (V2P mem) (Z.lor PTE_W PTE_U) in
          if r <? 0 then
            let! _ := deallocuvm pgdir newsz oldsz in
            kfree end_ mem then!
            ret 0
          else allocuvm_loop n' pgdir (u32 (a + PGSIZE)) oldsz newsz
      else ret newsz
  end.

Definition allocuvm (pgdir oldsz newsz : Z) : M kmem Z :=
  if KERNBASE <=? newsz then ret 0
  else if newsz <? oldsz then ret oldsz
  else allocuvm_loop (Z.to_nat (newsz / PGSIZE + 2)) pgdir (PGROUNDUP oldsz) oldsz newsz.

Definition clearpteu (pgdir uva : Z) : M kmem unit :=
  let! pte := walkpgdir pgdir uva false in
  if pte =? 0 then halt (Panicked "clearpteu")
  else
    let! e := load_at 4 pte in
    store_at 4 pte (Z.land e (Z.lnot PTE_U)).

(** The page at [src] is copied over the page at [dst]. *)
Definition copy_page (dst src : Z) : M kmem unit :=
  let! s := gets id in
  let! d := lift (pages s !! page_base src) in
  write_at dst d.

Fixpoint copyuvm_loop (n : nat) (pgdir d i sz : Z) : M kmem Z :=
  match n with
  | O => halt Undefined
  | S n' =>
      if i <? sz then
        let! pte := walkpgdir pgdir i false in
        if pte =? 0 then halt (Panicked "copyuvm: pte should exist")
        else
          let! e := load_at 4 pte in
          if negb (has PTE_P e) then halt (Panicked "copyuvm: page not present")
          else
            let! mem := kalloc in
            if mem =? 0 then freevm d then! ret 0
            else
              copy_page mem (P2V (PTE_ADDR e)) then!
              let! r := mappages d i PGSIZE (V2P mem) (PTE_FLAGS e) in
              if r <? 0 then kfree end_ mem then! freevm d then! ret 0
              else copyuvm_loop n' pgdir d (u32 (i + PGSIZE)) sz
      else ret d
  end.

Definition copyuvm (pgdir sz : Z) : M kmem Z :=
  let! d := setupkvm in
  if d =? 0 then ret 0
  else copyuvm_loop (Z.to_nat (sz / PGSIZE + 2)) pgdir d 0 sz.

(** The code does not test the result of [walkpgdir] before it reads the
    entry; the load from the null pointer is undefined. *)
Definition uva2ka (pgdir uva : Z) : M kmem Z :=
  let! pte := walkpgdir pgdir uva false in
  let! e := load_at 4 pte in
  if negb (has PTE_P e) then ret 0
  else if negb (has PTE_U e) then ret 0
  else ret (P2V (PTE_ADDR e)).

Fixpoint copyout_loop (n : nat) (pgdir va : Z) (buf : list Z) : M kmem Z :=
  match n with
  | O => halt Undefined
  | S n' =>
      if 0 <? Z.of_nat (length buf) then
        let va0 := PGROUNDDOWN va in
        let! pa0 := uva2ka pgdir va0 in
        if pa0 =? 0 then ret (-1)
        else
          let n := Z.min (PGSIZE - (va - va0)) (Z.of_nat (length buf)) in
          write_at (pa0 + (va - va0)) (take (Z.to_nat n) buf) then!
          copyout_loop n' pgdir (u32 (va0 + PGSIZE)) (drop (Z.to_nat n) buf)
      else ret 0
  end.

Definition copyout (pgdir va : Z) (p : list Z) : M kmem Z :=
  copyout_loop (length p + 1) pgdir va p.
End vm.
