(* ===== verification/VmSpace.v ===== *)
(** * Address spaces

    What the words of a page directory and of its page tables mean: an
    abstract address space, a map from page numbers to entries.  Proved of
    [walkpgdir] and [mappages] of [kernel/vm.c]: they look up and extend that
    map, take the tables they need from the free list, and lose no page. *)

From S2P Require Import Prelude CStr Mem Kalloc Vm.

(** ** Entries and indices *)

Lemma land_low x : Z.land x 0xFFF = x mod PGSIZE.
Proof. change 0xFFF with (Z.ones 12). rewrite Z.land_ones by lia. done. Qed.

Lemma pte_addr e : PTE_ADDR e = e - e mod PGSIZE.
Proof. apply round_down. Qed.

Lemma pte_flags e : PTE_FLAGS e = e mod PGSIZE.
Proof. apply land_low. Qed.

Lemma lor_add a f : a mod PGSIZE = 0 -> 0 <= f < PGSIZE -> Z.lor a f = a + f.
Proof.
  intros Ha Hf. rewrite <- Z.lxor_lor; [rewrite <- Z.add_nocarry_lxor; [done|]|].
  all: rewrite <- (Z.mod_small f PGSIZE) by done; rewrite <- land_low.
  all: rewrite (Z.land_comm f), Z.land_assoc, land_low, Ha; apply Z.land_0_l.
Qed.

Lemma flags_lor f g : 0 <= f < PGSIZE -> 0 <= g < PGSIZE -> 0 <= Z.lor f g < PGSIZE.
Proof.
  intros Hf Hg. assert (Z.lor f g = Z.lor f g mod PGSIZE) as ->; [|by apply Z.mod_pos_bound].
  rewrite <- land_low, Z.land_lor_distr_l, !land_low, !Z.mod_small; done.
Qed.

(** The entry that maps the page [pa] with these flags. *)
Lemma pte_make pa f : pa mod PGSIZE = 0 -> 0 <= f < PGSIZE ->
  PTE_ADDR (Z.lor pa f) = pa /\ PTE_FLAGS (Z.lor pa f) = f.
Proof.
  intros Ha Hf. rewrite pte_addr, pte_flags, lor_add by done.
  rewrite <- Z.add_mod_idemp_l, Ha, Z.mod_small by done. lia.
Qed.

Lemma has_pow2 k x : 0 <= k -> has (2 ^ k) x = Z.testbit x k.
Proof. intros. unfold has. rewrite land_pow2_testbit by done. apply negb_involutive. Qed.

Lemma has_lor k x y : 0 <= k -> has (2 ^ k) (Z.lor x y) = has (2 ^ k) x || has (2 ^ k) y.
Proof. intros. rewrite !has_pow2 by done. apply Z.lor_spec. Qed.

Lemma has_P_lor x y : has PTE_P (Z.lor x y) = has PTE_P x || has PTE_P y.
Proof. by apply (has_lor 0). Qed.

Lemma has_present x : has PTE_P (Z.lor x PTE_P) = true.
Proof. rewrite has_P_lor. apply orb_true_r. Qed.

Lemma has_flags k e : 0 <= k < 12 -> has (2 ^ k) (PTE_FLAGS e) = has (2 ^ k) e.
Proof.
  intros Hk. rewrite !has_pow2 by lia. unfold PTE_FLAGS. change 0xFFF with (Z.ones 12).
  by rewrite Z.land_spec, Z.ones_spec_low, andb_true_r.
Qed.

(** The number of the page of an address. *)
Definition vpn (va : Z) : Z := va / PGSIZE.

Lemma pdx_eq va : 0 <= va < 2 ^ 32 -> PDX va = vpn va / 1024 /\ 0 <= PDX va < 1024.
Proof.
  intros H. unfold PDX, vpn, PDXSHIFT, PGSIZE. change 0x3FF with (Z.ones 10). rewrite Z.land_ones, Z.shiftr_div_pow2 by lia.
  change (2 ^ 22) with (4096 * 1024). rewrite <- Z.div_div by lia. change (2 ^ 10) with 1024.
  assert (0 <= va / 4096 / 1024 < 1024).
  { split; [repeat apply Z.div_pos; lia|]. repeat (apply Z.div_lt_upper_bound; [lia|]). lia. }
  by rewrite Z.mod_small.
Qed.

Lemma ptx_eq va : PTX va = vpn va mod 1024 /\ 0 <= PTX va < 1024.
Proof.
  unfold PTX, vpn, PTXSHIFT, PGSIZE. change 0x3FF with (Z.ones 10). rewrite Z.land_ones, Z.shiftr_div_pow2 by lia.
  split; [done|]. apply Z.mod_pos_bound. lia.
Qed.

(** ** The abstract address space *)

(** The page of the directory, the pages of the tables by their index in
    the directory, and the entries that are present by page number. *)
Record space : Type := { dir : Z; tabs : gmap Z Z; ptes : gmap Z Z }.

(** The [i]th word of a page. *)
Definition word (d : list Z) (i : Z) : option Z := load 4 d (Z.to_nat (4 * i)).

(** The table of the directory entry [e]. *)
Definition pde_is (o : option Z) (e : Z) : Prop :=
  match o with
  | Some t => has PTE_P e = true /\ PTE_ADDR e = t
  | None => has PTE_P e = false
  end.

Record space_at (s : kmem) (a : space) : Prop := {
  sa_dir : exists d, pages s !! dir a = Some d /\
    forall i, 0 <= i < 1024 -> exists e, word d i = Some e /\ pde_is (tabs a !! i) e;
  sa_tab i t : tabs a !! i = Some t -> 0 <= i < 1024 /\ exists d, pages s !! t = Some d /\
    forall j, 0 <= j < 1024 -> exists e, word d j = Some e /\
      ptes a !! (1024 * i + j) = if has PTE_P e then Some e else None;
  sa_pte n e : ptes a !! n = Some e -> is_Some (tabs a !! (n / 1024))
}.

(** The pages of the space: its tables, and the pages of user memory. *)
Definition tables (a : space) : list Z := dir a :: (map_to_list (tabs a)).*2.

Definition USERTOP : Z := KERNBASE / PGSIZE.

Definition user_ptes (a : space) : gmap Z Z := filter (fun p => p.1 < USERTOP) (ptes a).

Definition frames (a : space) : list Z := PTE_ADDR <$> (map_to_list (user_ptes a)).*2.

Definition owned (a : space) : list Z := tables a ++ frames a.

Lemma elem_of_values {K V} `{Countable K} (m : gmap K V) x : x ∈ (map_to_list m).*2 <-> (exists k, m !! k = Some x).
Proof.
  rewrite list_elem_of_fmap. split.
  - intros ([k y] & -> & Hy). exists k. by apply elem_of_map_to_list in Hy.
  - intros [k Hk]. exists (k, x). split; [done|]. by apply elem_of_map_to_list.
Qed.

Lemma elem_of_tables a p : p ∈ tables a <-> p = dir a \/ exists i, tabs a !! i = Some p.
Proof. unfold tables. rewrite elem_of_cons, elem_of_values. done. Qed.

Lemma elem_of_frames a p : p ∈ frames a <-> exists n e, ptes a !! n = Some e /\ n < USERTOP /\ p = PTE_ADDR e.
Proof.
  unfold frames, user_ptes. rewrite list_elem_of_fmap. split.
  - intros (e & -> & [n Hn]%elem_of_values). apply map_lookup_filter_Some in Hn as [Hn Hu]. by exists n, e.
  - intros (n & e & Hn & Hu & ->). exists e. split; [done|]. apply elem_of_values. exists n. by apply map_lookup_filter_Some.
Qed.

Lemma space_frame s s' a :
  space_at s a -> (forall p, p ∈ tables a -> pages s' !! p = pages s !! p) -> space_at s' a.
Proof.
  intros [(d & Hd & He) Ht Hp] Hf. split.
  - exists d. split; [rewrite Hf; [done|]; apply elem_of_tables; by left|done].
  - intros i t Hi. destruct (Ht i t Hi) as (Hr & d' & Hd' & Hj). split; [done|]. exists d'.
    split; [rewrite Hf; [done|]; apply elem_of_tables; right; by exists i|done].
  - done.
Qed.

Lemma space_pages s a p : space_at s a -> p ∈ tables a -> is_Some (pages s !! p).
Proof.
  intros [(d & Hd & _) Ht _] [->|[i Hi]]%elem_of_tables; [by exists d|].
  destruct (Ht i p Hi) as (_ & d' & Hd' & _). by exists d'.
Qed.

(** ** Words of a page *)

Lemma word_put d i x d' j : put 4 d (Z.to_nat (4 * i)) x = Some d' -> 0 <= i -> 0 <= j ->
  word d' j = if decide (j = i) then Some (u32 x) else word d j.
Proof.
  intros Hp Hi Hj. unfold word. case_decide as E; [subst j; by rewrite (load_put_same 4 d _ x)|].
  apply (load_put_other 4 4 d (Z.to_nat (4 * i)) (Z.to_nat (4 * j)) x); [done|lia].
Qed.

Lemma word_in d i : length d = Z.to_nat PGSIZE -> 0 <= i < 1024 -> exists e, word d i = Some e.
Proof. intros Hl Hi. unfold word. rewrite load_in by (rewrite Hl; unfold PGSIZE; lia). eauto. Qed.

Lemma word_bounds d i e : bytes d -> word d i = Some e -> 0 <= e < 2 ^ 32.
Proof. intros Hb He. by apply (load_bounds 4 d _ e Hb) in He. Qed.

Lemma put_word_in d i x : length d = Z.to_nat PGSIZE -> bytes d -> 0 <= i < 1024 ->
  exists d', put 4 d (Z.to_nat (4 * i)) x = Some d' /\ length d' = Z.to_nat PGSIZE /\ bytes d'.
Proof.
  intros Hl Hb Hi. assert (Hp : exists d', put 4 d (Z.to_nat (4 * i)) x = Some d').
  { rewrite put_in by (rewrite Hl; unfold PGSIZE; lia). eauto. }
  destruct Hp as [d' Hp]. exists d'. split; [done|]. split; [by rewrite (put_length _ _ _ _ _ Hp)|].
  by apply (put_bytes 4 d (Z.to_nat (4 * i)) x).
Qed.

Definition zero_page : list Z := replicate (Z.to_nat PGSIZE) 0.

Lemma zero_values n : le_value (replicate n 0) = 0.
Proof. induction n as [|n IH]; [done|]. cbn [replicate le_value]. lia. Qed.

Lemma word_zero i : 0 <= i < 1024 -> word zero_page i = Some 0.
Proof.
  intros Hi. unfold word. rewrite load_in by (unfold zero_page, PGSIZE; rewrite length_replicate; lia).
  unfold zero_page. rewrite drop_replicate, take_replicate, zero_values. done.
Qed.

Lemma zero_page_ok : length zero_page = Z.to_nat PGSIZE /\ bytes zero_page.
Proof. split; [apply length_replicate|]. apply Forall_replicate. done. Qed.

(** The physical address of a virtual address, and the flags of its page. *)
Definition translate (a : space) (va : Z) : option (Z * Z) :=
  e ← ptes a !! vpn va; Some (PTE_ADDR e + va mod PGSIZE, PTE_FLAGS e).

Section space.
Variable end_ : Z.
Hypothesis end_above : KERNLINK <= end_.

Lemma space_heap s a p : pages_wf end_ (pages s) -> space_at s a -> p ∈ tables a ->
  exists d, pages s !! p = Some d /\ heap_page end_ p /\ length d = Z.to_nat PGSIZE /\ bytes d.
Proof. intros Hw Hs Hp. destruct (space_pages s a p Hs Hp) as [d Hd]. exists d. split; [done|]. by apply Hw. Qed.

Lemma wp_load_word s p d i e (Q : Z -> kmem -> Prop) :
  pages_wf end_ (pages s) -> pages s !! p = Some d -> 0 <= i < 1024 -> word d i = Some e -> Q e s ->
  wp (load_at 4 (P2V p + 4 * i)) s Q.
Proof.
  intros Hw Hd Hi He HQ. apply (wp_load_at end_ end_above 4 s p (4 * i) d e); [by apply (Hw p d)| |done|done|done].
  unfold PGSIZE. lia.
Qed.

Lemma wp_store_word s p d i x (Q : unit -> kmem -> Prop) :
  pages_wf end_ (pages s) -> pages s !! p = Some d -> 0 <= i < 1024 ->
  (forall d', (forall j, 0 <= j -> word d' j = if decide (j = i) then Some (u32 x) else word d j) ->
     pages_wf end_ (<[p := d']> (pages s)) -> Q tt (with_pages s (<[p := d']> (pages s)))) ->
  wp (store_at 4 (P2V p + 4 * i) x) s Q.
Proof.
  intros Hw Hd Hi HQ. destruct (Hw p d Hd) as (Hp & Hl & Hb).
  destruct (put_word_in d i x Hl Hb Hi) as (d' & Hput & Hl' & Hb').
  unfold store_at. apply (wp_update_at end_ end_above _ s p (4 * i) d d'); [done|unfold PGSIZE; lia|done|done|].
  apply HQ; [|by apply (pages_wf_insert end_ _ p d)]. intros j Hj. by apply (word_put d i x); [| lia|].
Qed.

Lemma wp_zero_page s p d (Q : unit -> kmem -> Prop) :
  pages_wf end_ (pages s) -> pages s !! p = Some d ->
  (pages_wf end_ (<[p := zero_page]> (pages s)) -> Q tt (with_pages s (<[p := zero_page]> (pages s)))) ->
  wp (memset_at (P2V p) 0 (Z.to_nat PGSIZE)) s Q.
Proof.
  intros Hw Hd HQ. destruct (Hw p d Hd) as (Hp & Hl & Hb).
  unfold memset_at. eapply (wp_update_page end_ end_above _ s p d); [done|done|apply memset_fills; lia|].
  rewrite splice_whole by (by rewrite length_replicate). apply HQ.
  apply (pages_wf_insert end_ _ p d); [done|done|apply zero_page_ok..].
Qed.

(** ** Looking up an entry *)

Lemma wp_walk_found s a va t alloc :
  pages_wf end_ (pages s) -> space_at s a -> 0 <= va < 2 ^ 32 -> tabs a !! PDX va = Some t ->
  wp (walkpgdir (P2V (dir a)) va alloc) s (fun r s' => r = P2V t + 4 * PTX va /\ s' = s).
Proof.
  intros Hw Hs Hva Ht. destruct (pdx_eq va Hva) as [_ Hi]. destruct (sa_dir _ _ Hs) as (d & Hd & He).
  destruct (He (PDX va) Hi) as (e & Hword & Hpde). rewrite Ht in Hpde. destruct Hpde as [HP HA].
  unfold walkpgdir. apply wp_bind, (wp_load_word s (dir a) d (PDX va) e); [done..|].
  rewrite HP, HA. by apply wp_ret.
Qed.

Lemma wp_walk_none s a va :
  pages_wf end_ (pages s) -> space_at s a -> 0 <= va < 2 ^ 32 -> tabs a !! PDX va = None ->
  wp (walkpgdir (P2V (dir a)) va false) s (fun r s' => r = 0 /\ s' = s).
Proof.
  intros Hw Hs Hva Ht. destruct (pdx_eq va Hva) as [_ Hi]. destruct (sa_dir _ _ Hs) as (d & Hd & He).
  destruct (He (PDX va) Hi) as (e & Hword & Hpde). rewrite Ht in Hpde.
  unfold walkpgdir. apply wp_bind, (wp_load_word s (dir a) d (PDX va) e); [done..|]. cbn in Hpde. rewrite Hpde.
  by apply wp_ret.
Qed.

(** ** Changing an entry *)

Lemma values_insert (m : gmap Z Z) i x : m !! i = None -> (map_to_list (<[i := x]> m)).*2 ≡ₚ x :: (map_to_list m).*2.
Proof using Type. intros H. by rewrite map_to_list_insert. Qed.

Lemma values_delete (m : gmap Z Z) i x : m !! i = Some x -> (map_to_list m).*2 ≡ₚ x :: (map_to_list (delete i m)).*2.
Proof using Type.
  intros H. rewrite <- (insert_delete_id m i x H) at 1. apply values_insert, lookup_delete_eq.
Qed.

Lemma values_inj (m : gmap Z Z) i j x :
  NoDup (map_to_list m).*2 -> m !! i = Some x -> m !! j = Some x -> i = j.
Proof using Type.
  intros Hn Hi Hj. rewrite (values_delete m i x Hi) in Hn. apply list.NoDup_cons in Hn as [Hn _].
  destruct (decide (i = j)) as [|Hij]; [done|]. destruct Hn. apply elem_of_values. exists j. by rewrite lookup_delete_ne.
Qed.

Definition set_pte (a : space) (n x : Z) : space :=
  {| dir := dir a; tabs := tabs a;
     ptes := if has PTE_P x then <[n := x]> (ptes a) else delete n (ptes a) |}.

Definition set_tab (a : space) (i t : Z) : space :=
  {| dir := dir a; tabs := <[i := t]> (tabs a); ptes := ptes a |}.

Lemma split_index n : n = 1024 * (n / 1024) + n mod 1024.
Proof using Type. apply Z.div_mod. lia. Qed.

Lemma join_index i j : 0 <= j < 1024 -> (1024 * i + j) / 1024 = i /\ (1024 * i + j) mod 1024 = j.
Proof using Type.
  intros Hj. rewrite (Z.mul_comm 1024), Z.div_add_l, Z.div_small by lia.
  rewrite (Z.add_comm (i * 1024)), Z.mod_add, Z.mod_small by lia. lia.
Qed.

Lemma space_set_pte s a n t x d d' :
  space_at s a -> NoDup (tables a) -> tabs a !! (n / 1024) = Some t -> pages s !! t = Some d ->
  0 <= x < 2 ^ 32 ->
  (forall j, 0 <= j -> word d' j = if decide (j = n mod 1024) then Some (u32 x) else word d j) ->
  space_at (with_pages s (<[t := d']> (pages s))) (set_pte a n x).
Proof using Type.
  intros [(D & HD & He) Ht Hp] Hnd Hi Hd Hx Hw. apply list.NoDup_cons in Hnd as [Hdir Hnd].
  assert (Htd : t <> dir a) by (intros ->; apply Hdir, elem_of_values; by exists (n / 1024)).
  assert (Hlook : forall m e, ptes (set_pte a n x) !! m = Some e -> m = n \/ ptes a !! m = Some e).
  { intros m e. unfold set_pte. cbn [ptes]. destruct (has PTE_P x).
    - intros [[-> _]|[_ ?]]%lookup_insert_Some; auto.
    - intros [_ ?]%lookup_delete_Some; auto. }
  split; cbn [dir tabs set_pte pages with_pages].
  - exists D. by rewrite lookup_insert_ne.
  - intros i t' Hi'. destruct (Ht i t' Hi') as (Hr & d1 & Hd1 & Hj). split; [done|].
    destruct (decide (t' = t)) as [->|Hne].
    + assert (i = n / 1024) as -> by (by apply (values_inj (tabs a) _ _ t)). assert (d1 = d) as -> by congruence.
      exists d'. split; [apply lookup_insert_eq|]. intros j Hj0. rewrite Hw by lia.
      case_decide as E.
      * exists (u32 x). split; [done|]. rewrite u32_small by done. subst j. rewrite <- split_index.
        cbn [ptes set_pte]. destruct (has PTE_P x); [apply lookup_insert_eq|apply lookup_delete_eq].
      * destruct (Hj j Hj0) as (e & He1 & He2). exists e. split; [done|]. rewrite <- He2. cbn [ptes set_pte].
        assert (n <> 1024 * (n / 1024) + j) by (intros Heq; pose proof (split_index n); lia).
        destruct (has PTE_P x); [by apply lookup_insert_ne|by apply lookup_delete_ne].
    + exists d1. split; [by rewrite lookup_insert_ne|]. intros j Hj0. destruct (Hj j Hj0) as (e & He1 & He2).
      exists e. split; [done|]. rewrite <- He2. cbn [ptes set_pte].
      assert (n <> 1024 * i + j).
      { intros ->. destruct (join_index i j Hj0) as [Hd2 _]. rewrite Hd2 in Hi. congruence. }
      destruct (has PTE_P x); [by apply lookup_insert_ne|by apply lookup_delete_ne].
  - intros m e [->|Hm]%Hlook; [by exists t|by apply (Hp m e)].
Qed.

Lemma space_set_tab s a i t d d' :
  space_at s a -> NoDup (tables a) -> t ∉ tables a -> 0 <= i < 1024 -> tabs a !! i = None ->
  pages s !! dir a = Some d -> t mod PGSIZE = 0 -> 0 <= t -> t + 7 < 2 ^ 32 ->
  (forall j, 0 <= j -> word d' j = if decide (j = i) then Some (u32 (t + 7)) else word d j) ->
  space_at (with_pages s (<[dir a := d']> (<[t := zero_page]> (pages s)))) (set_tab a i t).
Proof using Type.
  intros [(D & HD & He) Ht Hp] Hnd Hnt Hi Hn Hd Hm H0 H1 Hw. assert (D = d) as -> by congruence.
  assert (Htd : t <> dir a) by (intros ->; apply Hnt, elem_of_tables; by left).
  assert (Hnone : forall j, ptes a !! (1024 * i + j) = None \/ ~ 0 <= j < 1024).
  { intros j. destruct (ptes a !! (1024 * i + j)) eqn:E; [|by left]. right. intros Hj.
    destruct (Hp _ _ E) as [t' Ht']. destruct (join_index i j Hj) as [Hdj _]. rewrite Hdj in Ht'. congruence. }
  split; cbn [dir tabs ptes set_tab pages with_pages].
  - exists d'. split; [apply lookup_insert_eq|]. intros j Hj. rewrite Hw by lia. case_decide as E.
    + subst j. exists (u32 (t + 7)). split; [done|]. rewrite lookup_insert_eq, u32_small by lia.
      rewrite <- (lor_add t 7) by (done || unfold PGSIZE; lia). split.
      * rewrite has_P_lor. apply orb_true_r.
      * apply (pte_make t 7); [done|]. unfold PGSIZE. lia.
    + destruct (He j Hj) as (e & He1 & He2). exists e. by rewrite lookup_insert_ne.
  - intros k t' [[-> ->]|[Hne Hk]]%lookup_insert_Some.
    + split; [done|]. exists zero_page. split; [by rewrite lookup_insert_ne, lookup_insert_eq|].
      intros j Hj. exists 0. split; [by apply word_zero|]. by destruct (Hnone j).
    + destruct (Ht k t' Hk) as (Hr & d1 & Hd1 & Hj). split; [done|]. exists d1. split; [|done].
      rewrite lookup_insert_ne; [rewrite lookup_insert_ne; [done|]|].
      * intros ->. apply Hnt, elem_of_tables. right. by exists k.
      * intros <-. apply list.NoDup_cons in Hnd as [Hnd _]. apply Hnd, elem_of_values. by exists k.
  - intros m e Hm'. destruct (Hp m e Hm') as [t' Ht']. destruct (decide (i = m / 1024)) as [->|Hne].
    + rewrite lookup_insert_eq. by eexists.
    + rewrite lookup_insert_ne by done. by exists t'.
Qed.

(** ** Pages in use

    [mem_at s a fl rest]: the free list is [fl], the address space is [a],
    and the pages of both and the pages [rest] of everyone else are all
    different. *)
Record mem_at (s : kmem) (a : space) (fl rest : list Z) : Prop := {
  ma_heap : heap_ok end_ s fl;
  ma_space : space_at s a;
  ma_nodup : NoDup (fl ++ owned a ++ rest);
  ma_used p : p ∈ owned a ++ rest -> is_Some (pages s !! p)
}.

Lemma nodup_tables fl a rest : NoDup (fl ++ owned a ++ rest) -> NoDup (tables a).
Proof using Type. intros (_ & _ & H)%list.NoDup_app. apply list.NoDup_app in H as [H _]. unfold owned in H. by apply list.NoDup_app in H as [H _]. Qed.

Lemma nodup_fl fl a rest p : NoDup (fl ++ owned a ++ rest) -> p ∈ fl -> (p ∉ owned a) /\ (p ∉ rest).
Proof using Type.
  intros (_ & H & _)%list.NoDup_app Hp. apply H in Hp. split; intros ?; apply Hp, elem_of_app; auto.
Qed.

Lemma owned_set_tab a i t : tabs a !! i = None -> owned (set_tab a i t) ≡ₚ t :: owned a.
Proof using Type.
  intros H. unfold owned, tables, frames, user_ptes. cbn [dir tabs ptes set_tab].
  rewrite (values_insert _ _ _ H). rewrite <- !app_comm_cons. apply perm_swap.
Qed.

Lemma user_insert (m : gmap Z Z) n x : n < USERTOP ->
  filter (fun p => p.1 < USERTOP) (<[n := x]> m) = <[n := x]> (filter (fun p => p.1 < USERTOP) m).
Proof using Type. intros H. by apply map_filter_insert_True. Qed.

Lemma owned_set_pte a n x : has PTE_P x = true -> ptes a !! n = None ->
  owned (set_pte a n x) ≡ₚ (if decide (n < USERTOP) then PTE_ADDR x :: owned a else owned a).
Proof using Type.
  intros Hx Hn. unfold owned, tables, frames, user_ptes, set_pte. cbn [dir tabs ptes]. rewrite Hx. case_decide as E.
  - rewrite user_insert by done. rewrite (values_insert _ n x).
    + cbn [fmap list_fmap]. rewrite Permutation_middle. done.
    + apply map_lookup_filter_None. by left.
  - rewrite map_filter_insert_not; [done|]. intros y. cbn. lia.
Qed.

(** What a call to [walkpgdir] with [alloc] set leaves. *)
Lemma wp_walk_alloc s a fl rest va :
  mem_at s a fl rest -> 0 <= va < 2 ^ 32 ->
  wp (walkpgdir (P2V (dir a)) va true) s (fun r s' =>
    (r = 0 /\ s' = s /\ fl = [] /\ tabs a !! PDX va = None) \/
    exists b fl' t, mem_at s' b fl' rest /\ dir b = dir a /\ tabs a ⊆ tabs b /\ ptes b = ptes a /\
      fl' ++ owned b ≡ₚ fl ++ owned a /\ only (fl ++ tables a) s s' /\
      fl' ++ tables b ≡ₚ fl ++ tables a /\
      (forall i, is_Some (tabs b !! i) -> is_Some (tabs a !! i) \/ i = PDX va) /\
      tabs b !! PDX va = Some t /\ r = P2V t + 4 * PTX va).
Proof.
  intros Hm Hva. pose proof Hm as [Hh Hs Hnd Hu]. pose proof (hp_wf _ _ _ Hh) as Hw. destruct (pdx_eq va Hva) as [_ Hi].
  destruct (tabs a !! PDX va) as [t|] eqn:Et.
  { eapply wp_mono; [by apply (wp_walk_found s a va t)|]. intros r s' [-> ->]. right. exists a, fl, t.
    split_and!; try done. by left. }
  destruct (sa_dir _ _ Hs) as (d & Hd & He). destruct (He (PDX va) Hi) as (e & Hword & Hpde). rewrite Et in Hpde. cbn in Hpde.
  unfold walkpgdir. apply wp_bind, (wp_load_word s (dir a) d (PDX va) e); [done..|]. rewrite Hpde. simpl negb. cbv iota.
  apply wp_bind. eapply wp_mono; [by apply (wp_kalloc end_ end_above s fl)|]. intros v s1 [Hp1 Hv].
  destruct fl as [|t fl]; [destruct Hv as [-> ->]; apply wp_ret; by left|]. destruct Hv as [-> Hh1].
  destruct (heap_head end_ end_above s t fl Hh) as (Ht & _ & Hz). rewrite (proj2 (Z.eqb_neq _ 0)) by done.
  destruct (nodup_fl _ a rest t Hnd) as [Hto Htr]; [apply list_elem_of_here|].
  assert (Htt : t ∉ tables a) by (intros ?; apply Hto, elem_of_app; by left).
  assert (Htd : t <> dir a) by (intros ->; apply Htt, elem_of_tables; by left).
  destruct (chain_elem _ _ _ t (hp_chain _ _ _ Hh) ltac:(apply list_elem_of_here)) as [dt Hdt].
  rewrite <- Hp1 in Hdt, Hd, Hw. apply wp_bind, (wp_zero_page s1 t dt); [done..|]. intros Hw2.
  apply wp_bind. destruct (heap_page_range end_ end_above t Ht) as [Hr1 Hr2]. unfold EXTMEM, PHYSTOP in Hr1, Hr2.
  rewrite (V2P_P2V t) by (unfold PHYSTOP; lia).
  assert (Hlor : Z.lor (Z.lor (Z.lor t PTE_P) PTE_W) PTE_U = t + 7).
  { rewrite <- !Z.lor_assoc. change (Z.lor PTE_P _) with 7. apply lor_add; [apply Ht|by vm_compute]. }
  rewrite Hlor. apply (wp_store_word _ (dir a) d (PDX va)); cbn [pages with_pages];
    [done|by rewrite lookup_insert_ne|done|]. intros d' Hd' Hw3. apply wp_ret. right.
  exists (set_tab a (PDX va) t), fl, t. cbn [dir tabs ptes set_tab].
  assert (Hdom : dom (<[dir a := d']> (<[t := zero_page]> (pages s1))) = dom (pages s)).
  { rewrite !dom_insert_lookup_L; [by rewrite Hp1|by exists dt|]. rewrite lookup_insert_ne by done. by exists d. }
  split_and!; try done.
  - split; cbn [pages with_pages].
    + apply (heap_frame end_ s1); [done|done|done|]. intros q Hq. cbn [pages with_pages].
      destruct (nodup_fl _ a rest q Hnd) as [Hq1 _]; [by apply list_elem_of_further|].
      apply list.NoDup_app in Hnd as (Hnd & _). apply list.NoDup_cons in Hnd as [Hnd _].
      rewrite !lookup_insert_ne; [done|by intros <-|]. intros <-. apply Hq1. by left.
    + apply (space_set_tab s1 a (PDX va) t d d'); try done; [by apply (space_frame s); [|rewrite Hp1]|
        by apply (nodup_tables (t :: fl) a rest)|apply Ht|lia|lia].
    + rewrite owned_set_tab by done. rewrite <- app_comm_cons, <- Permutation_middle. done.
    + intros p. rewrite owned_set_tab by done. intros Hp. apply elem_of_dom. cbn [pages with_pages]. rewrite Hdom. apply elem_of_dom.
      apply elem_of_app in Hp as [[->|Hp]%elem_of_cons|Hp]; [rewrite Hp1 in Hdt; by exists dt|apply Hu, elem_of_app; auto..].
  - by apply insert_subseteq.
  - rewrite owned_set_tab by done. by rewrite <- Permutation_middle.
  - split; cbn [pages with_pages]; [done|]. intros q Hq. rewrite !lookup_insert_ne; [by rewrite Hp1|by intros <-; apply Hq; left|].
    intros <-. apply Hq, elem_of_app. right. by left.
  - unfold tables. cbn [dir tabs set_tab]. rewrite (values_insert _ _ _ Et).
    rewrite (perm_swap t (dir a)). symmetry. apply (Permutation_middle fl).
  - intros i. rewrite lookup_insert_is_Some. intros [<-|[_ ?]]; auto.
  - apply lookup_insert_eq.
Qed.

(** ** Adding entries *)

(** [extends a b m]: [b] is [a] with the entries [m], and with no more tables
    than they need. *)
Definition extends (a b : space) (m : gmap Z Z) : Prop :=
  dir b = dir a /\ tabs a ⊆ tabs b /\ ptes b = m ∪ ptes a /\
  forall i, is_Some (tabs b !! i) -> is_Some (tabs a !! i) \/ exists n, is_Some (m !! n) /\ n / 1024 = i.

Lemma extends_refl a : extends a a ∅.
Proof using Type. split; [done|]. split; [done|]. rewrite (left_id_L ∅ (∪)). split; [done|]. by left. Qed.

Lemma extends_trans a b c m m' : extends a b m -> extends b c m' -> extends a c (m' ∪ m).
Proof using Type.
  intros (D1 & T1 & P1 & N1) (D2 & T2 & P2 & N2). split; [congruence|]. split; [by transitivity (tabs b)|].
  split; [rewrite P2, P1; apply (assoc_L (∪))|]. intros i [Hi|(n & Hn & Hi)]%N2.
  - apply N1 in Hi as [|(n & Hn & Hi)]; [by left|right]. exists n. split; [|done]. rewrite lookup_union_is_Some. by right.
  - right. exists n. split; [|done]. rewrite lookup_union_is_Some. by left.
Qed.

(** The entry for the page number [n] of an open table. *)
Lemma entry_word s a n t : space_at s a -> tabs a !! (n / 1024) = Some t ->
  exists d e, pages s !! t = Some d /\ word d (n mod 1024) = Some e /\
    ptes a !! n = if has PTE_P e then Some e else None.
Proof using Type.
  intros Hs Ht. destruct (sa_tab _ _ Hs _ _ Ht) as (_ & d & Hd & Hj).
  destruct (Hj (n mod 1024)) as (e & He & Hp); [apply Z.mod_pos_bound; lia|].
  exists d, e. by rewrite <- split_index in Hp.
Qed.

(** The pointer to the entry of an open table. *)
Lemma wp_walk_table s a va alloc t :
  pages_wf end_ (pages s) -> space_at s a -> 0 <= va < 2 ^ 32 -> tabs a !! (vpn va / 1024) = Some t ->
  wp (walkpgdir (P2V (dir a)) va alloc) s (fun r s' => r = P2V t + 4 * PTX va /\ r <> 0 /\ s' = s).
Proof.
  intros Hw Hs Hva Ht. destruct (pdx_eq va Hva) as [Hpdx _]. destruct (ptx_eq va) as [_ Hj].
  eapply wp_mono; [apply (wp_walk_found s a va t); [done..|by rewrite Hpdx]|]. intros r s' [-> ->]. split; [done|]. split; [|done].
  destruct (sa_tab _ _ Hs _ t Ht) as (_ & d & Hd & _). destruct (Hw t d Hd) as (Htp & _).
  pose proof (heap_page_range end_ end_above t Htp) as Htr. unfold EXTMEM, PHYSTOP in Htr.
  rewrite P2V_page by (unfold PHYSTOP; lia). unfold KERNBASE. lia.
Qed.

(** An entry that is present is found and read. *)
Lemma wp_walk_entry {A} (N : M kmem A) (K : Z -> Z -> M kmem A) s a va e (Q : A -> kmem -> Prop) :
  pages_wf end_ (pages s) -> space_at s a -> 0 <= va < 2 ^ 32 -> ptes a !! vpn va = Some e ->
  (forall pte, has PTE_P e = true -> wp (K pte e) s Q) ->
  wp (let! pte := walkpgdir (P2V (dir a)) va false in
      if pte =? 0 then N else let! e := load_at 4 pte in K pte e) s Q.
Proof.
  intros Hw Hs Hva He HK. destruct (sa_pte _ _ Hs _ e He) as [t Ht]. destruct (ptx_eq va) as [Hptx Hj].
  destruct (entry_word s a (vpn va) t Hs Ht) as (d & e' & Hd & Hword & Hpe).
  rewrite He in Hpe. destruct (has PTE_P e') eqn:HP; [|done]. injection Hpe as <-.
  apply wp_bind. eapply wp_mono; [by apply (wp_walk_table s a va false t)|]. intros r s1 (-> & Hz & ->).
  rewrite (proj2 (Z.eqb_neq _ 0)) by done.
  apply wp_bind, (wp_load_word s t d (PTX va) e); [done|done|done|by rewrite Hptx|]. by apply HK.
Qed.

(** One turn of the loop of [mappages]: the entry of the page of [va]
    becomes [x]; a page of user memory comes from the pages [rest]. *)
Lemma wp_map_one (K : M kmem Z) s a fl rest rest' va x (Q : Z -> kmem -> Prop) :
  mem_at s a fl rest -> 0 <= va < 2 ^ 32 -> ptes a !! vpn va = None ->
  0 <= x < 2 ^ 32 -> has PTE_P x = true ->
  rest ≡ₚ (if decide (vpn va < USERTOP) then PTE_ADDR x :: rest' else rest') ->
  (fl = [] -> tabs a !! PDX va = None -> Q (-1) s) ->
  (forall s' b fl', mem_at s' b fl' rest' -> extends a b {[vpn va := x]} ->
     fl' ++ owned b ++ rest' ≡ₚ fl ++ owned a ++ rest -> fl' ++ tables b ≡ₚ fl ++ tables a ->
     only (fl ++ tables a) s s' -> wp K s' Q) ->
  wp (let! pte := walkpgdir (P2V (dir a)) va true in
      if pte =? 0 then ret (-1)
      else
        let! e := load_at 4 pte in
        if has PTE_P e then halt (Panicked "remap")
        else store_at 4 pte x then! K) s Q.
Proof.
  intros Hm Hva Hnone Hx HP Hrest HQ HK. apply wp_bind. eapply wp_mono; [by apply (wp_walk_alloc s a fl rest va)|].
  intros r s1 [(-> & -> & Hfl & Ht)|(b & fl1 & t & Hm1 & Hdir & Htabs & Hptes & Hperm & Honly & Hsub & Hnew & Ht & ->)];
    [by apply wp_ret, HQ|].
  pose proof Hm1 as [Hh1 Hs1 Hnd1 Hu1]. pose proof (hp_wf _ _ _ Hh1) as Hw1.
  destruct (pdx_eq va Hva) as [Hpdx _]. destruct (ptx_eq va) as [Hptx Hj]. rewrite Hpdx in Ht.
  destruct (entry_word s1 b (vpn va) t Hs1 Ht) as (d & e & Hd & He & Hpe). rewrite Hptes, Hnone in Hpe.
  rewrite <- Hptx in He. destruct (Hw1 t d Hd) as (Htp & _). pose proof (heap_page_range end_ end_above t Htp) as Htr.
  unfold EXTMEM, PHYSTOP in Htr.
  rewrite (proj2 (Z.eqb_neq _ 0)) by (rewrite P2V_page by (unfold PHYSTOP; lia); unfold KERNBASE; lia).
  apply wp_bind, (wp_load_word s1 t d (PTX va) e); [done..|]. destruct (has PTE_P e) eqn:HPe; [done|].
  apply wp_bind, (wp_store_word s1 t d (PTX va) x); [done..|]. intros d' Hd' Hw2.
  assert (Htin : t ∈ tables b) by (apply elem_of_tables; right; by exists (vpn va / 1024)).
  assert (Hown : owned (set_pte b (vpn va) x) ++ rest' ≡ₚ owned b ++ rest).
  { rewrite owned_set_pte by (done || by rewrite Hptes). rewrite Hrest. case_decide; [|done].
    rewrite <- app_comm_cons. apply Permutation_middle. }
  assert (Hdom : dom (<[t := d']> (pages s1)) = dom (pages s1)) by (apply dom_insert_lookup_L; by exists d).
  apply (HK _ (set_pte b (vpn va) x) fl1).
  - split; cbn [pages with_pages].
    + apply (heap_frame end_ s1); [done..|]. intros q Hq. apply lookup_insert_ne. intros <-.
      destruct (nodup_fl _ b rest t Hnd1 Hq) as [Hq1 _]. apply Hq1, elem_of_app. by left.
    + apply (space_set_pte s1 b (vpn va) t x d d'); try done; [by apply (nodup_tables fl1 b rest)|]. by rewrite <- Hptx.
    + by rewrite Hown.
    + intros p. rewrite Hown. intros Hp. apply elem_of_dom. cbn [pages with_pages]. rewrite Hdom. by apply elem_of_dom, Hu1.
  - split; [done|]. split; [done|]. unfold set_pte. cbn [ptes tabs]. rewrite HP, Hptes, insert_union_singleton_l.
    split; [done|]. intros i [Hi| ->]%Hnew; [by left|right]. exists (vpn va). rewrite lookup_singleton_eq. by split; [eexists|].
  - rewrite Hown. rewrite !app_assoc. by rewrite Hperm.
  - exact Hsub.
  - destruct Honly as [Ho1 Ho2]. split; cbn [pages with_pages]; [congruence|]. intros q Hq.
    rewrite lookup_insert_ne; [by apply Ho2|]. intros <-. apply Hq. rewrite <- Hsub. apply elem_of_app. by right.
Qed.

(** The entries of [k] consecutive pages from [n] on, the first being [x]. *)
Fixpoint mapping (n x : Z) (k : nat) : gmap Z Z :=
  match k with
  | O => ∅
  | S k' => mapping (n + 1) (x + PGSIZE) k' ∪ {[n := x]}
  end.

Lemma mapping_lookup n x k j :
  mapping n x k !! j = if decide (n <= j < n + Z.of_nat k) then Some (x + (j - n) * PGSIZE) else None.
Proof using Type.
  revert n x. induction k as [|k IH]; intros n x; cbn [mapping].
  - rewrite lookup_empty. case_decide; [lia|done].
  - rewrite lookup_union, IH. destruct (decide (j = n)) as [->|Hne].
    + rewrite decide_False by lia. rewrite lookup_singleton_eq, decide_True by lia.
      cbn. f_equal. lia.
    + rewrite lookup_singleton_ne by done. repeat case_decide; try lia; cbn; f_equal; lia.
Qed.

Lemma vpn_user va : va < KERNBASE -> vpn va < USERTOP.
Proof using Type.
  intros H. change USERTOP with 524288. unfold vpn, KERNBASE, PGSIZE in *. apply Z.div_lt_upper_bound; lia.
Qed.

Lemma vpn_next va : vpn (va + PGSIZE) = vpn va + 1.
Proof using Type. unfold vpn. replace (va + PGSIZE) with (va + 1 * PGSIZE) by lia. by rewrite Z.div_add. Qed.

(** The pages of the space, and all those it may take. *)
Definition pool (a : space) (fl : list Z) : list Z := fl ++ tables a.

(** The pages of the kernel, which no space owns, are mapped or the free list
    runs out. *)
Lemma wp_mappages_loop k : forall n s a fl rest va pa f,
  (k < n)%nat -> mem_at s a fl rest -> KERNBASE <= va -> va + (Z.of_nat k + 1) * PGSIZE <= 2 ^ 32 ->
  pa mod PGSIZE = 0 -> 0 <= pa -> pa + (Z.of_nat k + 1) * PGSIZE <= 2 ^ 32 -> 0 <= f < PGSIZE ->
  (forall j, vpn va <= j <= vpn va + Z.of_nat k -> ptes a !! j = None) ->
  wp (mappages_loop n (P2V (dir a)) va (va + Z.of_nat k * PGSIZE) pa f) s (fun r s' => exists b fl' m,
    mem_at s' b fl' rest /\ extends a b m /\ fl' ++ owned b ++ rest ≡ₚ fl ++ owned a ++ rest /\
    pool b fl' ≡ₚ pool a fl /\ only (pool a fl) s s' /\
    (forall j e, m !! j = Some e -> USERTOP <= j) /\
    ((r = 0 /\ m = mapping (vpn va) (pa + Z.lor f PTE_P) (k + 1)) \/ (r = -1 /\ fl' = []))).
Proof.
  induction k as [|k IH]; intros [|n] s a fl rest va pa f Hn Hm Hva Hend Hpm Hp0 Hpend Hf Hnone; try lia;
    unfold KERNBASE, PGSIZE in Hva, Hend, Hpend, Hf.
  all: assert (Hf' : 0 <= Z.lor f PTE_P < PGSIZE)
    by (apply flags_lor; [done|by split]).
  all: assert (Hx : Z.lor (Z.lor pa f) PTE_P = pa + Z.lor f PTE_P) by (rewrite <- Z.lor_assoc; by apply lor_add).
  all: assert (Hu : USERTOP <= vpn va) by (unfold vpn, USERTOP, KERNBASE, PGSIZE; apply Z.div_le_mono; lia).
  all: cbn [mappages_loop]; unfold PGSIZE in Hf'.
  all: apply (wp_map_one _ s a fl rest rest); [done|lia|apply Hnone; lia|rewrite Hx; lia|apply has_present| | |];
    [by rewrite decide_False by lia|
     intros -> _; exists a, [], ∅; split_and!; try done; [apply extends_refl|by right]|].
  all: intros s1 b fl1 Hm1 He1 Hp1 Hq1 Ho1; rewrite Hx in He1.
  - rewrite Z.mul_0_l, Z.add_0_r, Z.eqb_refl. apply wp_ret. exists b, fl1, {[vpn va := pa + Z.lor f PTE_P]}.
    split_and!; try done; [|left; split; [done|]; cbn; by rewrite (left_id_L ∅ (∪))].
    intros j e [<- _]%lookup_singleton_Some. done.
  - rewrite (proj2 (Z.eqb_neq _ _)) by (unfold PGSIZE; lia). rewrite !u32_small by (unfold PGSIZE; lia).
    replace (va + Z.of_nat (S k) * PGSIZE) with (va + PGSIZE + Z.of_nat k * PGSIZE) by lia.
    rewrite <- (proj1 He1).
    eapply wp_mono; [apply (IH n s1 b fl1 rest (va + PGSIZE) (pa + PGSIZE) f); try done; try (unfold PGSIZE, KERNBASE; lia)|].
    + unfold PGSIZE in *. rewrite <- Z.add_mod_idemp_l, Hpm; done.
    + intros j Hj. rewrite vpn_next in Hj. rewrite (proj1 (proj2 (proj2 He1))), lookup_union, Hnone by lia.
      by rewrite lookup_singleton_ne by lia.
    + intros r s2 (c & fl2 & m & Hm2 & He2 & Hp2 & Hq2 & Ho2 & Hj & Hr).
      exists c, fl2, (m ∪ {[vpn va := pa + Z.lor f PTE_P]}).
      split; [done|]. split; [by apply (extends_trans a b)|]. split; [by rewrite Hp2|]. split; [by rewrite Hq2|].
      split; [apply (only_weaken _ _ _ _ (only_trans _ _ _ _ _ Ho1 Ho2)); intros p; rewrite elem_of_app, Hq1; by intros [|]|].
      split; [intros j e [?|[_ [<- _]%lookup_singleton_Some]]%lookup_union_Some_raw; [by apply (Hj j e)|done]|].
      destruct Hr as [[-> ->]|[-> ->]]; [left|by right]. split; [done|]. cbn [mapping Nat.add].
      rewrite vpn_next. do 2 f_equal. lia.
Qed.

Lemma round_down_run va k : va mod PGSIZE = 0 -> 0 <= va -> va + (Z.of_nat k + 1) * PGSIZE <= 2 ^ 32 ->
  PGROUNDDOWN va = va /\ PGROUNDDOWN (u32 (va + (Z.of_nat k + 1) * PGSIZE - 1)) = va + Z.of_nat k * PGSIZE.
Proof using Type.
  intros Hm H0 He. rewrite !round_down, Hm. split; [lia|]. rewrite u32_small by (unfold PGSIZE in *; lia).
  replace (va + (Z.of_nat k + 1) * PGSIZE - 1) with (va + (PGSIZE - 1) + Z.of_nat k * PGSIZE) by lia.
  rewrite Z.mod_add by done. rewrite <- Z.add_mod_idemp_l, Hm by done.
  change ((0 + (PGSIZE - 1)) mod PGSIZE) with (PGSIZE - 1). lia.
Qed.

Lemma wp_map_kernel k s a fl rest va pa f :
  mem_at s a fl rest -> KERNBASE <= va -> va mod PGSIZE = 0 -> va + (Z.of_nat k + 1) * PGSIZE <= 2 ^ 32 ->
  pa mod PGSIZE = 0 -> 0 <= pa -> pa + (Z.of_nat k + 1) * PGSIZE <= 2 ^ 32 -> 0 <= f < PGSIZE ->
  (forall j, vpn va <= j <= vpn va + Z.of_nat k -> ptes a !! j = None) ->
  wp (mappages (P2V (dir a)) va ((Z.of_nat k + 1) * PGSIZE) pa f) s (fun r s' => exists b fl' m,
    mem_at s' b fl' rest /\ extends a b m /\ fl' ++ owned b ++ rest ≡ₚ fl ++ owned a ++ rest /\
    pool b fl' ≡ₚ pool a fl /\ only (pool a fl) s s' /\
    (forall j e, m !! j = Some e -> USERTOP <= j) /\
    ((r = 0 /\ m = mapping (vpn va) (pa + Z.lor f PTE_P) (k + 1)) \/ (r = -1 /\ fl' = []))).
Proof.
  intros Hm Hva Hal Hend Hpm Hp0 Hpend Hf Hnone. unfold mappages.
  destruct (round_down_run va k Hal) as [-> ->]; [unfold KERNBASE in *; lia|done|].
  apply wp_mappages_loop; try done. replace (va + Z.of_nat k * PGSIZE - va) with (Z.of_nat k * PGSIZE) by lia.
  rewrite u32_small by (unfold PGSIZE, KERNBASE in *; lia). rewrite Z.div_mul by done. lia.
Qed.

(** The page [p], which no one else uses, becomes a page of user memory. *)
Lemma wp_map_user s a fl p rest va f :
  mem_at s a fl (p :: rest) -> 0 <= va < KERNBASE -> va mod PGSIZE = 0 -> ptes a !! vpn va = None -> 0 <= f < PGSIZE ->
  wp (mappages (P2V (dir a)) va PGSIZE p f) s (fun r s' =>
    (r = -1 /\ s' = s /\ fl = []) \/
    (r = 0 /\ exists b fl', mem_at s' b fl' rest /\ extends a b {[vpn va := p + Z.lor f PTE_P]} /\
       fl' ++ owned b ++ rest ≡ₚ fl ++ owned a ++ p :: rest /\ pool b fl' ≡ₚ pool a fl /\ only (pool a fl) s s')).
Proof.
  intros Hm Hva Hal Hnone Hf. unfold mappages.
  destruct (ma_used _ _ _ _ Hm p) as [d Hd]; [apply elem_of_app; right; apply list_elem_of_here|].
  destruct (hp_wf _ _ _ (ma_heap _ _ _ _ Hm) p d Hd) as (Hp & _). pose proof (heap_page_range end_ end_above p Hp) as Hr.
  unfold EXTMEM, PHYSTOP in Hr.
  pose proof (round_down_run va 0 Hal ltac:(lia) ltac:(unfold KERNBASE, PGSIZE in *; lia)) as [-> Hl].
  replace ((Z.of_nat 0 + 1) * PGSIZE) with PGSIZE in Hl by done.
  replace (va + Z.of_nat 0 * PGSIZE) with va in Hl by lia. rewrite Hl, Z.sub_diag.
  change (Z.to_nat (u32 0 / PGSIZE + 1)) with 1%nat. cbn [mappages_loop].
  assert (Hf' : 0 <= Z.lor f PTE_P < PGSIZE) by (apply flags_lor; [done|by split]).
  assert (Hx : Z.lor (Z.lor p f) PTE_P = p + Z.lor f PTE_P) by (rewrite <- Z.lor_assoc; apply lor_add; [apply Hp|done]).
  assert (HA : PTE_ADDR (Z.lor (Z.lor p f) PTE_P) = p) by (rewrite <- Z.lor_assoc; apply pte_make; [apply Hp|done]).
  apply (wp_map_one _ s a fl (p :: rest) rest);
    [done|unfold KERNBASE in *; lia|done|rewrite Hx; unfold PGSIZE in Hf'; lia|apply has_present| |by left|].
  - rewrite HA, decide_True; [done|]. apply (vpn_user va), Hva.
  - intros s1 b fl1 Hm1 He1 Hp1 Hq1 Ho1. rewrite Z.eqb_refl. apply wp_ret. right. split; [done|].
    exists b, fl1. rewrite Hx in He1. done.
Qed.
End space.
