(* ===== verification/VmUser.v ===== *)
(** * The memory of a process

    Address spaces with the kernel's mappings and the pages of one process:
    the invariant that the operations of [kernel/vm.c] keep, which says that
    no page is lost or used twice, and [setupkvm], [deallocuvm] and [freevm]
    on such spaces.  [VmGrow], [VmCopy] and [VmMove] build on it. *)

From S2P Require Import Prelude CStr Mem Kalloc Vm VmSpace.

Section user.
Variables data end_ : Z.
Hypothesis end_above : KERNLINK <= end_.

Abbreviation mem_at := (mem_at end_).
Abbreviation heap_ok := (heap_ok end_).

(** ** Releasing pages *)

(** Without the entries of the pages from [lo] up to [hi]. *)
Definition drop_range (lo hi : Z) (m : gmap Z Z) : gmap Z Z := filter (fun p => ~ lo <= p.1 < hi) m.

Lemma drop_range_lookup lo hi m n : drop_range lo hi m !! n = if decide (lo <= n < hi) then None else m !! n.
Proof.
  unfold drop_range. rewrite map_lookup_filter. destruct (m !! n) as [e|]; cbn; [|by case_decide].
  case_guard; case_decide; done || (exfalso; cbn in *; lia).
Qed.

Lemma drop_range_same lo hi m : (forall n, lo <= n < hi -> m !! n = None) -> drop_range lo hi m = m.
Proof.
  intros H. apply map_eq. intros n. rewrite drop_range_lookup. case_decide; [by rewrite H|done].
Qed.

Lemma drop_range_split lo mid hi m m' : lo <= mid ->
  m' = drop_range lo mid m -> drop_range mid hi m' = drop_range lo (Z.max mid hi) m.
Proof.
  intros Hl ->. apply map_eq. intros n. rewrite !drop_range_lookup. repeat case_decide; try done; lia.
Qed.

(** The pages of the entries from [lo] up to [hi]. *)
Definition dropped (lo hi : Z) (a : space) : list Z :=
  PTE_ADDR <$> (map_to_list (filter (fun p => lo <= p.1 < hi) (ptes a))).*2.

Lemma elem_of_dropped lo hi a p :
  p ∈ dropped lo hi a <-> exists n e, ptes a !! n = Some e /\ lo <= n < hi /\ p = PTE_ADDR e.
Proof.
  unfold dropped. rewrite list_elem_of_fmap. split.
  - intros (e & -> & [n Hn]%elem_of_values). apply map_lookup_filter_Some in Hn as [Hn Hr]. by exists n, e.
  - intros (n & e & Hn & Hr & ->). exists e. split; [done|]. apply elem_of_values. exists n. by apply map_lookup_filter_Some.
Qed.

(** [b] is [a] without some of its entries. *)
Definition shrinks (a b : space) (lo hi : Z) : Prop :=
  dir b = dir a /\ tabs b = tabs a /\ ptes b = drop_range lo hi (ptes a).

Lemma owned_drop_pte a n e : ptes a !! n = Some e -> n < USERTOP ->
  owned a ≡ₚ PTE_ADDR e :: owned (set_pte a n 0).
Proof.
  intros Hn Hu. unfold owned, tables, frames, user_ptes, set_pte. cbn [dir tabs ptes]. change (has PTE_P 0) with false. cbn iota.
  assert (Hf : filter (fun p : Z * Z => p.1 < USERTOP) (ptes a) !! n = Some e) by (by apply map_lookup_filter_Some).
  rewrite (values_delete _ n e Hf). rewrite map_filter_delete. rewrite fmap_cons.
  rewrite <- (Permutation_middle (dir a :: _)). done.
Qed.

(** The page of a user entry is freed and its entry is cleared. *)
Lemma wp_unmap s a fl rest va t e (Q : unit -> kmem -> Prop) :
  mem_at s a fl rest -> 0 <= va < KERNBASE -> tabs a !! PDX va = Some t -> ptes a !! vpn va = Some e ->
  (forall s', mem_at s' (set_pte a (vpn va) 0) (PTE_ADDR e :: fl) rest -> only (PTE_ADDR e :: tables a) s s' -> Q tt s') ->
  wp (kfree end_ (P2V (PTE_ADDR e)) then! store_at 4 (P2V t + 4 * PTX va) 0) s Q.
Proof.
  intros Hm Hva Ht He HQ. pose proof Hm as [Hh Hs Hnd Hu]. set (p := PTE_ADDR e).
  pose proof (owned_drop_pte a (vpn va) e He (vpn_user va (proj2 Hva))) as Hown. fold p in Hown.
  assert (Hpin : p ∈ owned a) by (rewrite Hown; apply list_elem_of_here).
  assert (Hpfl : p ∉ fl) by (intros Hf; by destruct (nodup_fl fl a rest p Hnd Hf)).
  apply wp_bind. eapply wp_mono; [apply (wp_kfree end_ end_above s fl p Hh); [apply Hu, elem_of_app; by left|done]|].
  intros [] s1 [Hh1 O1].
  assert (Hpt : p ∉ tables a).
  { intros Hp. rewrite Hown in Hnd. apply list.NoDup_app in Hnd as (_ & _ & Hnd).
    rewrite <- app_comm_cons in Hnd. apply list.NoDup_cons in Hnd as [Hnd _]. apply Hnd, elem_of_app. left. apply elem_of_app. by left. }
  assert (Hs1 : space_at s1 a).
  { apply (space_frame s); [done|]. intros q Hq. apply O1. intros ->%list_elem_of_singleton. done. }
  destruct (pdx_eq va) as [Hpdx _]; [unfold KERNBASE in *; lia|]. destruct (ptx_eq va) as [Hptx Hj]. rewrite Hpdx in Ht.
  destruct (entry_word s1 a (vpn va) t Hs1 Ht) as (d & e' & Hd & He' & Hpe).
  apply (wp_store_word end_ end_above s1 t d (PTX va) 0); [apply Hh1|done|done|]. intros d' Hd' Hw'.
  assert (Htin : t ∈ tables a) by (apply elem_of_tables; right; by exists (vpn va / 1024)).
  assert (Hdom : dom (<[t := d']> (pages s1)) = dom (pages s)).
  { rewrite dom_insert_lookup_L by (by exists d). apply O1. }
  apply HQ.
  - split; cbn [pages with_pages].
    + apply (heap_frame end_ s1); [done..|]. intros q Hq. apply lookup_insert_ne. intros <-.
      apply elem_of_cons in Hq as [->|Hq]; [done|]. destruct (nodup_fl fl a rest t Hnd Hq) as [Hx _].
      apply Hx, elem_of_app. by left.
    + apply (space_set_pte s1 a (vpn va) t 0 d d'); try done; [by apply (nodup_tables fl a rest)|]. by rewrite <- Hptx.
    + rewrite Hown in Hnd. rewrite <- app_comm_cons in Hnd. rewrite <- Permutation_middle in Hnd. done.
    + intros q Hq. apply elem_of_dom. cbn [pages with_pages]. rewrite Hdom. apply elem_of_dom, Hu.
      rewrite Hown, <- app_comm_cons. by right.
  - split; cbn [pages with_pages]; [done|]. intros q Hq. rewrite lookup_insert_ne.
    + apply O1. intros ->%list_elem_of_singleton. apply Hq. by left.
    + intros <-. apply Hq. by right.
Qed.

Lemma drop_range_skip lo mid hi m : lo <= mid -> (forall n, lo <= n < mid -> m !! n = None) ->
  drop_range mid hi m = drop_range lo hi m.
Proof.
  intros Hl H. apply map_eq. intros n. rewrite !drop_range_lookup.
  repeat case_decide; try done; try lia. apply H. lia.
Qed.

Lemma drop_range_delete lo hi m : lo < hi -> drop_range (lo + 1) hi (delete lo m) = drop_range lo hi m.
Proof.
  intros Hl. apply map_eq. intros n. rewrite !drop_range_lookup, lookup_delete. repeat case_decide; try done; lia.
Qed.

(** The number of pages that cover [sz] bytes. *)
Definition npages (sz : Z) : Z := (sz + PGSIZE - 1) / PGSIZE.

Lemma npages_le va sz : va mod PGSIZE = 0 -> (va < sz <-> vpn va < npages sz).
Proof.
  intros Hm. unfold vpn, npages. apply Z.mod_divide in Hm as [k ->]; [|done]. rewrite Z.div_mul by done.
  unfold PGSIZE. pose proof (Z.div_mod (sz + 4096 - 1) 4096 ltac:(lia)). pose proof (Z.mod_pos_bound (sz + 4096 - 1) 4096 ltac:(lia)). lia.
Qed.

(** The first page of the next page table. *)
Lemma next_table va : 0 <= va < KERNBASE -> va mod PGSIZE = 0 ->
  let va' := u32 (u32 (PGADDR (PDX va + 1) 0 0 - PGSIZE) + PGSIZE) in
  va' mod PGSIZE = 0 /\ va + PGSIZE <= va' <= KERNBASE /\ forall n, vpn va <= n < vpn va' -> n / 1024 = PDX va.
Proof.
  intros Hva Hm va'. destruct (pdx_eq va) as [Hpdx Hi]; [unfold KERNBASE in *; lia|].
  assert (Hd : PDX va = va / 4194304).
  { rewrite Hpdx. unfold vpn, PGSIZE. rewrite Z.div_div by lia. done. }
  pose proof (Z.div_mod va 4194304 ltac:(lia)). pose proof (Z.mod_pos_bound va 4194304 ltac:(lia)).
  assert (Hlt : PDX va < 512) by (rewrite Hd; apply Z.div_lt_upper_bound; unfold KERNBASE in *; lia).
  assert (HP : PGADDR (PDX va + 1) 0 0 = (PDX va + 1) * 4194304).
  { unfold PGADDR. rewrite !Z.shiftl_0_l, !Z.lor_0_r, Z.shiftl_mul_pow2 by (unfold PDXSHIFT; lia).
    change (2 ^ PDXSHIFT) with 4194304. apply u32_small. lia. }
  assert (Hv : va' = (PDX va + 1) * 4194304).
  { unfold va'. rewrite HP, (u32_small (_ - _)) by (unfold PGSIZE; lia). rewrite Z.sub_add. apply u32_small. lia. }
  rewrite Hv. split; [|split].
  - replace ((PDX va + 1) * 4194304) with ((PDX va + 1) * 1024 * PGSIZE) by (unfold PGSIZE; lia). by apply Z.mod_mul.
  - apply Z.mod_divide in Hm as [k Hk]; [|done]. unfold KERNBASE, PGSIZE in *. nia.
  - intros n Hn. replace (vpn ((PDX va + 1) * 4194304)) with ((PDX va + 1) * 1024) in Hn.
    + symmetry. apply (Z.div_unique _ _ _ (n - 1024 * PDX va)); [|lia]. left. rewrite Hpdx in *.
      pose proof (Z.div_mod (vpn va) 1024 ltac:(lia)). pose proof (Z.mod_pos_bound (vpn va) 1024 ltac:(lia)). lia.
    + unfold vpn. replace ((PDX va + 1) * 4194304) with ((PDX va + 1) * 1024 * PGSIZE) by (unfold PGSIZE; lia).
      by rewrite Z.div_mul.
Qed.

Lemma owned_sub a b p : dir b = dir a -> tabs b = tabs a -> (forall n e, ptes b !! n = Some e -> ptes a !! n = Some e) ->
  p ∈ owned b -> p ∈ owned a.
Proof.
  intros Hd Ht Hp. unfold owned. rewrite !elem_of_app, !elem_of_tables, !elem_of_frames, Hd, Ht.
  intros [|(n & e & He & ?)]; [by left|right]. exists n, e. eauto.
Qed.

Lemma shrinks_owned a b lo hi p : shrinks a b lo hi -> p ∈ owned b -> p ∈ owned a.
Proof.
  intros (Hd & Ht & Hp). apply owned_sub; [done|done|]. intros n e. rewrite Hp, drop_range_lookup. by case_decide.
Qed.

(** The page a user entry points to. *)
Lemma frame_page s a fl rest n e : mem_at s a fl rest -> ptes a !! n = Some e -> n < USERTOP ->
  PTE_ADDR e ∈ frames a /\ heap_page end_ (PTE_ADDR e) /\ EXTMEM <= PTE_ADDR e < PHYSTOP.
Proof.
  intros Hm He Hn. assert (Hf : PTE_ADDR e ∈ frames a) by (apply elem_of_frames; by exists n, e). split; [done|].
  destruct (ma_used _ _ _ _ _ Hm (PTE_ADDR e)) as [d Hd]; [apply elem_of_app; left; apply elem_of_app; by right|].
  destruct (hp_wf _ _ _ (ma_heap _ _ _ _ _ Hm) _ d Hd) as (Hp & _). split; [done|]. by apply (heap_page_range end_).
Qed.

Lemma wp_dealloc_loop n : forall s a fl rest va oldsz,
  mem_at s a fl rest -> va mod PGSIZE = 0 -> 0 <= va -> va <= KERNBASE -> oldsz <= KERNBASE ->
  (0 < n)%nat -> oldsz - va <= (Z.of_nat n - 1) * PGSIZE ->
  wp (deallocuvm_loop end_ n (P2V (dir a)) va oldsz) s (fun _ s' => exists b fl',
    mem_at s' b fl' rest /\ shrinks a b (vpn va) (npages oldsz) /\
    fl' ++ owned b ≡ₚ fl ++ owned a /\ only (tables a ++ dropped (vpn va) (npages oldsz) a) s s').
Proof.
  induction n as [|n IH]; intros s a fl rest va oldsz Hm Hal H0 Hk Hold Hn Hfuel; [lia|]. cbn [deallocuvm_loop].
  pose proof (npages_le va oldsz Hal) as Hlt. destruct (Z.ltb_spec va oldsz) as [Hv|Hv].
  2: { apply wp_ret. exists a, fl. split_and!; try done. split; [done|]. split; [done|].
       symmetry. apply drop_range_same. lia. }
  assert (Hva : 0 <= va < KERNBASE) by lia. pose proof (ma_space _ _ _ _ _ Hm) as Hs.
  pose proof (hp_wf _ _ _ (ma_heap _ _ _ _ _ Hm)) as Hw. destruct (pdx_eq va) as [Hpdx _]; [unfold KERNBASE in *; lia|].
  assert (Hn' : (0 < n)%nat) by (unfold PGSIZE in *; lia).
  apply wp_bind. destruct (tabs a !! PDX va) as [t|] eqn:Et.
  - eapply wp_mono; [by apply (wp_walk_found end_ end_above s a va t); try done; unfold KERNBASE in *; lia|].
    intros r s1 [-> ->]. rewrite Hpdx in Et.
    destruct (entry_word s a (vpn va) t Hs Et) as (d & e & Hd & He & Hpe). destruct (ptx_eq va) as [Hptx Hj].
    destruct (Hw t d Hd) as (Htp & _). pose proof (heap_page_range end_ end_above t Htp) as Htr. unfold EXTMEM, PHYSTOP in Htr.
    rewrite (proj2 (Z.eqb_neq _ 0)) by (rewrite P2V_page by (unfold PHYSTOP; lia); unfold KERNBASE; lia).
    apply wp_bind, (wp_load_word end_ end_above s t d (PTX va) e); [done|done|done|by rewrite Hptx|].
    assert (Hnext : forall s1 b fl1, mem_at s1 b fl1 rest -> dir b = dir a -> tabs b = tabs a ->
      ptes b = delete (vpn va) (ptes a) -> fl1 ++ owned b ≡ₚ fl ++ owned a -> only (tables a ++ dropped (vpn va) (npages oldsz) a) s s1 ->
      wp (deallocuvm_loop end_ n (P2V (dir a)) (u32 (va + PGSIZE)) oldsz) s1 (fun _ s' => exists b fl',
        mem_at s' b fl' rest /\ shrinks a b (vpn va) (npages oldsz) /\
        fl' ++ owned b ≡ₚ fl ++ owned a /\ only (tables a ++ dropped (vpn va) (npages oldsz) a) s s')).
    { intros s1 b fl1 Hm1 Hdir Htab Hpt Hperm Ho. rewrite <- Hdir, u32_small by (unfold PGSIZE, KERNBASE in *; lia).
      assert (Hle : va + PGSIZE <= KERNBASE).
      { apply Z.mod_divide in Hal as [k ->]; [|done]. unfold PGSIZE, KERNBASE in *. lia. }
      eapply wp_mono; [apply (IH s1 b fl1 rest (va + PGSIZE) oldsz Hm1); try done; try (unfold PGSIZE in *; lia)|].
      - unfold PGSIZE in *. rewrite <- Z.add_mod_idemp_l, Hal; done.
      - intros _ s2 (c & fl2 & Hm2 & (D2 & T2 & P2) & Hp2 & Ho2). exists c, fl2. split; [done|].
        split; [|split; [by rewrite Hp2|]].
        + split; [congruence|]. split; [congruence|]. rewrite P2, Hpt, vpn_next. apply drop_range_delete. lia.
        + apply (only_weaken _ _ _ _ (only_trans _ _ _ _ _ Ho Ho2)). intros p. rewrite !elem_of_app, !elem_of_dropped, !elem_of_tables.
          rewrite Hdir, Htab. setoid_rewrite Hpt. intros [|[|(j & x & Hx & Hr & ->)]]; [done|by left|right].
          rewrite vpn_next in Hr. apply lookup_delete_Some in Hx as [_ Hx]. exists j, x. split_and!; try done; lia. }
    apply wp_bind. destruct (has PTE_P e) eqn:HP.
    + assert (He0 : PTE_ADDR e <> 0).
      { destruct (frame_page s a fl rest (vpn va) e Hm Hpe) as (_ & _ & ?); [apply (vpn_user va); lia|]. unfold EXTMEM in *. lia. }
      rewrite (proj2 (Z.eqb_neq _ 0)) by done. eapply (wp_unmap s a fl rest va t e); [done|done|by rewrite Hpdx|done|].
      intros s1 Hm1 Ho1. eapply (Hnext s1 (set_pte a (vpn va) 0)); [done..| |].
      2: { apply (only_weaken _ _ _ _ Ho1). intros p. rewrite elem_of_app, elem_of_cons, elem_of_dropped.
           intros [->|]; [right|by left]. exists (vpn va), e. split_and!; try done; lia. }
      rewrite (owned_drop_pte a (vpn va) e Hpe) by (apply vpn_user; lia). apply Permutation_middle.
    + apply wp_ret. apply (Hnext s a fl); try done. by rewrite delete_id.
  - eapply wp_mono; [by apply (wp_walk_none end_ end_above s a va); try done; unfold KERNBASE in *; lia|].
    intros r s1 [-> ->]. rewrite Z.eqb_refl. destruct (next_table va Hva Hal) as (Hal' & Hle & Hgap).
    set (va' := u32 (u32 (PGADDR _ _ _ - PGSIZE) + PGSIZE)) in *. unfold PGSIZE in Hle, Hfuel.
    eapply wp_mono; [apply (IH s a fl rest va' oldsz Hm); try done; unfold PGSIZE in *; lia|].
    intros _ s2 (c & fl2 & Hm2 & (D2 & T2 & P2) & Hp2 & Ho2). exists c, fl2.
    assert (Hvle : vpn va <= vpn va') by (apply Z.div_le_mono; [done|lia]).
    split; [done|]. split; [|split; [done|]].
    2: { apply (only_weaken _ _ _ _ Ho2). intros p. rewrite !elem_of_app, !elem_of_dropped.
         intros [|(j & x & Hx & Hr & ->)]; [by left|right]. exists j, x. split_and!; try done; lia. }
    split; [done|]. split; [done|]. rewrite P2. apply drop_range_skip.
    + done.
    + intros j Hj'. destruct (ptes a !! j) as [e|] eqn:Ee; [|done].
      destruct (sa_pte _ _ Hs j e Ee) as [t Ht]. rewrite Hgap in Ht by done. congruence.
Qed.

Lemma round_up_pages sz : 0 <= sz <= KERNBASE ->
  PGROUNDUP sz = npages sz * PGSIZE /\ sz <= PGROUNDUP sz <= KERNBASE /\ vpn (PGROUNDUP sz) = npages sz /\ PGROUNDUP sz mod PGSIZE = 0.
Proof.
  intros H. unfold KERNBASE in *. rewrite round_up by (unfold PGSIZE; lia). fold (npages sz).
  assert (sz <= npages sz * PGSIZE <= 2147483648).
  { unfold npages, PGSIZE. pose proof (Z.div_mod (sz + 4096 - 1) 4096 ltac:(lia)).
    pose proof (Z.mod_pos_bound (sz + 4096 - 1) 4096 ltac:(lia)).
    split; [lia|]. assert ((sz + 4096 - 1) / 4096 < 524289) by (apply Z.div_lt_upper_bound; lia). lia. }
  split; [done|]. split; [lia|]. split; [unfold vpn; by rewrite Z.div_mul|by apply Z.mod_mul].
Qed.

Lemma wp_deallocuvm s a fl rest oldsz newsz :
  mem_at s a fl rest -> 0 <= newsz -> oldsz <= KERNBASE ->
  wp (deallocuvm end_ (P2V (dir a)) oldsz newsz) s (fun r s' => exists b fl',
    mem_at s' b fl' rest /\ shrinks a b (npages newsz) (npages oldsz) /\
    fl' ++ owned b ≡ₚ fl ++ owned a /\ only (tables a ++ dropped (npages newsz) (npages oldsz) a) s s' /\
    r = Z.min oldsz newsz).
Proof.
  intros Hm Hn Ho. unfold deallocuvm. destruct (Z.leb_spec oldsz newsz) as [Hle|Hlt].
  - apply wp_ret. exists a, fl. split_and!; try done; [|lia]. split; [done|]. split; [done|]. symmetry. apply drop_range_same.
    assert (npages oldsz <= npages newsz) by (apply Z.div_le_mono; [done|lia]). lia.
  - destruct (round_up_pages newsz) as (_ & Hle & Hv & Hal); [lia|]. rewrite <- Hv. apply wp_bind.
    eapply wp_mono; [apply (wp_dealloc_loop _ s a fl rest (PGROUNDUP newsz) oldsz Hm); try done; try lia|].
    + pose proof (Z.div_pos oldsz PGSIZE ltac:(lia) ltac:(done)). lia.
    + unfold PGSIZE. pose proof (Z.div_mod oldsz 4096 ltac:(lia)). pose proof (Z.mod_pos_bound oldsz 4096 ltac:(lia)).
      pose proof (Z.div_pos oldsz 4096 ltac:(lia) ltac:(done)). lia.
    + intros [] s' (b & fl' & H1 & H2 & H3 & H4). apply wp_ret. exists b, fl'. split_and!; try done. lia.
Qed.

(** The tables at directory index [i] and above. *)
Definition tables_from (i : Z) (m : gmap Z Z) : list Z := (map_to_list (filter (fun p => i <= p.1) m)).*2.

Lemma tables_from_step i (m : gmap Z Z) :
  tables_from i m ≡ₚ (match m !! i with Some t => [t] | None => [] end) ++ tables_from (i + 1) m.
Proof.
  unfold tables_from. destruct (m !! i) as [t|] eqn:E.
  - rewrite (values_delete (filter (fun p => i <= p.1) m) i t) by (apply map_lookup_filter_Some; cbn; split; [done|lia]).
    cbn [app]. replace (delete i _) with (filter (fun p : Z * Z => i + 1 <= p.1) m); [done|].
    apply map_eq. intros n. rewrite lookup_delete, !map_lookup_filter.
    case_decide as Hn; [subst n; rewrite E; cbn; case_guard; [lia|done]|].
    destruct (m !! n) as [x|]; cbn; [|done]. repeat case_guard; done || (exfalso; cbn in *; lia).
  - cbn [app]. replace (filter (fun p : Z * Z => i + 1 <= p.1) m) with (filter (fun p : Z * Z => i <= p.1) m); [done|].
    apply map_eq. intros n. rewrite !map_lookup_filter.
    destruct (m !! n) as [x|] eqn:En; cbn; [|done]. assert (n <> i) by congruence.
    repeat case_guard; done || (exfalso; cbn in *; lia).
Qed.

Lemma wp_freevm_loop n : forall i s fl D m d,
  Z.of_nat n + i = 1024 -> 0 <= i -> heap_ok s fl -> pages s !! D = Some d ->
  (forall j, i <= j < 1024 -> exists e, word d j = Some e /\ pde_is (m !! j) e) ->
  (forall j t, m !! j = Some t -> j < 1024) ->
  NoDup (fl ++ D :: tables_from i m) -> (forall p, p ∈ tables_from i m -> is_Some (pages s !! p)) ->
  wp (freevm_loop end_ n (P2V D) i) s (fun _ s' => exists fl', heap_ok s' fl' /\ fl' ≡ₚ tables_from i m ++ fl /\
    only (tables_from i m) s s').
Proof.
  induction n as [|n IH]; intros i s fl D m d Hn Hi Hh Hd He Hm Hnd Hu; cbn [freevm_loop].
  - apply wp_ret. exists fl. split; [done|]. assert (tables_from i m = []) as ->; [|done].
    unfold tables_from. rewrite map_empty_filter_2; [done|]. intros j t Ht Hj. cbn in Hj. apply Hm in Ht. lia.
  - destruct (He i) as (e & Hw & Hp); [lia|]. pose proof (tables_from_step i m) as Hstep.
    apply wp_bind, (wp_load_word end_ end_above s D d i e); [apply Hh|done|lia|done|]. apply wp_bind.
    destruct (m !! i) as [t|] eqn:Et; cbn in Hp.
    + destruct Hp as [-> ->]. rewrite Hstep in Hnd. cbn [app] in *.
      rewrite (perm_swap t D), <- Permutation_middle in Hnd. cbn [app] in Hnd.
      apply list.NoDup_cons in Hnd as [Ht1 Ht2]. rewrite elem_of_app, elem_of_cons in Ht1.
      eapply wp_mono; [apply (wp_kfree end_ end_above s fl t Hh); [apply Hu; rewrite Hstep; by left|tauto]|].
      intros [] s1 [Hh1 O1]. eapply wp_mono; [apply (IH (i + 1) s1 (t :: fl) D m d); try done; try lia|].
      * rewrite (proj2 O1); [done|]. intros ->%list_elem_of_singleton. tauto.
      * intros j Hj. apply He. lia.
      * rewrite <- app_comm_cons. apply list.NoDup_cons. split; [|done]. rewrite elem_of_app, elem_of_cons. tauto.
      * intros p Hp. rewrite (proj2 O1); [apply Hu; rewrite Hstep; by right|]. intros ->%list_elem_of_singleton. tauto.
      * intros [] s2 (fl2 & Hh2 & Hp2 & O2). exists fl2. split; [done|]. split.
        -- rewrite Hp2, Hstep. cbn [app]. symmetry. apply Permutation_middle.
        -- apply (only_weaken _ _ _ _ (only_trans _ _ _ _ _ O1 O2)). intros p. rewrite Hstep. done.
    + rewrite Hp. apply wp_ret. eapply wp_mono; [apply (IH (i + 1) s fl D m d); try done; try lia|].
      * intros j Hj. apply He. lia.
      * by rewrite Hstep in Hnd.
      * intros p Hp'. apply Hu. by rewrite Hstep.
      * intros [] s2 (fl2 & Hh2 & Hp2 & O2). exists fl2. split; [done|]. split; [by rewrite Hp2, Hstep|].
        apply (only_weaken _ _ _ _ O2). intros p. by rewrite Hstep.
Qed.

Lemma tables_from_all s a : space_at s a -> tables_from 0 (tabs a) = (map_to_list (tabs a)).*2.
Proof.
  intros Hs. unfold tables_from. rewrite map_filter_id; [done|]. intros i t Hi.
  destruct (sa_tab _ _ Hs i t Hi) as [Hr _]. cbn. lia.
Qed.

Lemma wp_freevm s a fl rest :
  mem_at s a fl rest ->
  wp (freevm end_ (P2V (dir a))) s (fun _ s' => exists fl',
    heap_ok s' fl' /\ fl' ≡ₚ fl ++ owned a /\ only (owned a) s s').
Proof.
  intros Hm. unfold freevm. pose proof Hm as [Hh Hs Hnd Hu].
  destruct (space_heap end_ s a (dir a) (hp_wf _ _ _ Hh) Hs) as (d0 & Hd0 & Hp & _); [apply elem_of_tables; by left|].
  pose proof (heap_page_range end_ end_above _ Hp) as Hr. unfold EXTMEM, PHYSTOP in Hr.
  rewrite (proj2 (Z.eqb_neq _ 0)) by (rewrite P2V_page by (unfold PHYSTOP; lia); unfold KERNBASE; lia).
  apply wp_bind. eapply wp_mono; [apply (wp_deallocuvm s a fl rest KERNBASE 0 Hm); [done|lia]|].
  intros r s1 (b & fl1 & Hm1 & (D1 & T1 & P1) & Hp1 & O1 & _). pose proof Hm1 as [Hh1 Hs1 Hnd1 Hu1].
  assert (Hb : owned b = dir a :: tables_from 0 (tabs b)).
  { unfold owned, tables, frames. rewrite (tables_from_all s1 b Hs1), D1. unfold user_ptes. rewrite map_empty_filter_2; [by rewrite app_nil_r|].
    intros n e Hn Hlt. rewrite P1, drop_range_lookup in Hn. case_decide as Hx; [done|].
    destruct (sa_pte _ _ Hs n e Hn) as [t Ht]. destruct (sa_tab _ _ Hs _ t Ht) as [Hrn _].
    apply Hx. change (npages 0) with 0. change (npages KERNBASE) with USERTOP. cbn in Hlt.
    pose proof (split_index n). pose proof (Z.mod_pos_bound n 1024 ltac:(lia)). lia. }
  destruct (sa_dir _ _ Hs1) as (d & Hd & He). rewrite D1 in Hd. apply wp_bind.
  eapply wp_mono; [apply (wp_freevm_loop NPDENTRIES 0 s1 fl1 (dir a) (tabs b) d); try done|].
  - intros j t Ht. by apply (sa_tab _ _ Hs1 j t).
  - rewrite <- Hb. rewrite app_assoc in Hnd1. by apply list.NoDup_app in Hnd1 as [? _].
  - intros p Hin. apply Hu1, elem_of_app. left. rewrite Hb. by right.
  - intros [] s2 (fl2 & Hh2 & Hp2 & O2).
    assert (Hdir : (dir a ∉ tables_from 0 (tabs b)) /\ (dir a ∉ fl1)).
    { rewrite Hb in Hnd1. rewrite <- app_comm_cons, <- Permutation_middle in Hnd1.
      apply list.NoDup_cons in Hnd1 as [Hx _]. rewrite !elem_of_app in Hx. tauto. }
    eapply wp_mono; [apply (wp_kfree end_ end_above s2 fl2 (dir a) Hh2)|].
    + rewrite (proj2 O2) by tauto. by exists d.
    + rewrite Hp2, elem_of_app. tauto.
    + intros [] s3 [Hh3 O3]. exists (dir a :: fl2). split; [done|]. split.
      * rewrite <- Hp1, Hb, Hp2. rewrite <- Permutation_middle. by rewrite (Permutation_app_comm fl1).
      * apply (only_weaken _ _ _ _ (only_trans _ _ _ _ _ O1 (only_trans _ _ _ _ _ O2 O3))).
        intros p. rewrite elem_of_app. intros [Hq|Hq].
        { unfold owned. rewrite elem_of_app in *. destruct Hq as [|Hq]; [by left|right].
          apply elem_of_dropped in Hq as (n & e & Hn & Hx & ->). apply elem_of_frames. exists n, e. split_and!; [done|exact (proj2 Hx)|done]. }
        rewrite elem_of_app, list_elem_of_singleton in Hq. apply (shrinks_owned a b (npages 0) (npages KERNBASE)); [done|]. rewrite Hb, elem_of_cons. tauto.
Qed.

(** ** The kernel's mappings *)

(** What an entry of [kmap] asks for: whole pages above [KERNBASE]. *)
Record kentry_ok (k : kmap_entry) : Prop := {
  ke_virt : KERNBASE <= k_virt k;
  ke_aligned : k_virt k mod PGSIZE = 0;
  ke_start : k_start k mod PGSIZE = 0 /\ 0 <= k_start k;
  ke_size : u32 (k_end k - k_start k) mod PGSIZE = 0 /\ 0 < u32 (k_end k - k_start k);
  ke_vend : k_virt k + u32 (k_end k - k_start k) <= 2 ^ 32;
  ke_pend : k_start k + u32 (k_end k - k_start k) <= 2 ^ 32;
  ke_perm : 0 <= k_perm k < PGSIZE
}.

Definition krange (k : kmap_entry) (n : Z) : Prop :=
  vpn (k_virt k) <= n < vpn (k_virt k) + vpn (u32 (k_end k - k_start k)).

#[local] Instance krange_dec k n : Decision (krange k n).
Proof. unfold krange. apply _. Defined.

Definition kpte (k : kmap_entry) (n : Z) : Z :=
  k_start k + Z.lor (k_perm k) PTE_P + (n - vpn (k_virt k)) * PGSIZE.

(** The entry of the page [n] in the kernel's mappings. *)
Fixpoint klook (ks : list kmap_entry) (n : Z) : option Z :=
  match ks with
  | [] => None
  | k :: ks' => if decide (krange k n) then Some (kpte k n) else klook ks' n
  end.

Fixpoint kdisjoint (ks : list kmap_entry) : Prop :=
  match ks with
  | [] => True
  | k :: ks' => (forall n, krange k n -> klook ks' n = None) /\ kdisjoint ks'
  end.

Lemma klook_range ks n e : klook ks n = Some e -> Forall kentry_ok ks -> USERTOP <= n.
Proof.
  induction ks as [|k ks IH]; [done|]. cbn. intros He Hk. apply Forall_cons_iff in Hk as [Hk Hks]. case_decide as Hr; [|by apply IH].
  destruct Hr as [Hr _]. etransitivity; [|exact Hr]. apply Z.div_le_mono; [done|apply Hk].
Qed.

(** A space without user memory. *)
Definition kernel_only (a : space) : Prop :=
  (forall n e, ptes a !! n = Some e -> USERTOP <= n) /\ (forall i, is_Some (tabs a !! i) -> 512 <= i).

Lemma kernel_only_frames a : kernel_only a -> frames a = [] /\ owned a = tables a.
Proof.
  intros [Hk _]. assert (Hf : frames a = []); [|unfold owned; by rewrite Hf, app_nil_r].
  unfold frames, user_ptes. rewrite map_empty_filter_2; [done|]. intros n e Hn Hlt. apply Hk in Hn. cbn in Hlt. lia.
Qed.

Lemma kernel_only_tables s a : space_at s a -> kernel_only a -> (length (tables a) <= 513)%nat.
Proof.
  intros Hs [_ Hk]. unfold tables. cbn [length]. rewrite length_fmap, length_map_to_list, <- size_dom.
  assert (Hsub : dom (tabs a) ⊆ list_to_set (seqZ 512 512)).
  { intros i Hi. apply elem_of_dom in Hi. apply elem_of_list_to_set, elem_of_seqZ.
    pose proof (Hk i Hi). destruct Hi as [t Ht]. destruct (sa_tab _ _ Hs i t Ht) as [Hr _]. lia. }
  apply subseteq_size in Hsub. rewrite size_list_to_set in Hsub by apply NoDup_seqZ.
  rewrite length_seqZ in Hsub. lia.
Qed.

Lemma wp_setup_loop ks : forall s a fl rest,
  mem_at s a fl rest -> kernel_only a -> Forall kentry_ok ks -> kdisjoint ks ->
  (forall n, is_Some (klook ks n) -> ptes a !! n = None) ->
  wp (setupkvm_loop end_ (P2V (dir a)) ks) s (fun r s' =>
    (r = 0 /\ exists fl', heap_ok s' fl' /\ fl' ≡ₚ pool a fl /\ only (pool a fl) s s' /\
       (length (pool a fl) <= 513)%nat) \/
    (exists b fl', r = P2V (dir b) /\ mem_at s' b fl' rest /\ dir b = dir a /\ kernel_only b /\
       pool b fl' ≡ₚ pool a fl /\ only (pool a fl) s s' /\
       forall n, ptes b !! n = match klook ks n with Some e => Some e | None => ptes a !! n end)).
Proof.
  induction ks as [|k ks IH]; intros s a fl rest Hm Ha Hks Hdis Hfree; cbn [setupkvm_loop].
  { apply wp_ret. right. exists a, fl. by split_and!. }
  apply Forall_cons_iff in Hks as [Hk Hks]. destruct Hdis as [Hd1 Hd2]. pose proof Hk as [K1 K2 K3 K4 K5 K6 K7].
  destruct (proj1 (Z.mod_divide _ PGSIZE ltac:(done)) (proj1 K4)) as [q Hq].
  assert (Hq0 : 0 < q) by (unfold PGSIZE in *; lia).
  assert (Hv : vpn (u32 (k_end k - k_start k)) = q) by (unfold vpn; rewrite Hq; by apply Z.div_mul).
  replace (u32 (k_end k - k_start k)) with ((Z.of_nat (Z.to_nat (q - 1)) + 1) * PGSIZE) by (rewrite Hq; f_equal; lia).
  rewrite Hq in K5, K6. apply wp_bind.
  eapply wp_mono; [apply (wp_map_kernel end_ end_above (Z.to_nat (q - 1)) s a fl rest (k_virt k) (k_start k) (k_perm k)); try done; try (unfold PGSIZE in *; lia)|].
  { intros j Hj. apply Hfree. cbn. rewrite decide_True; [by eexists|]. unfold krange. lia. }
  intros r s1 (b & fl1 & m & Hm1 & (D1 & T1 & P1 & N1) & Hp1 & Hpool & O1 & Hmk & Hr).
  assert (Hb : kernel_only b).
  { destruct Ha as [Ha1 Ha2]. split.
    - intros n e. rewrite P1. intros [He|[_ He]]%lookup_union_Some_raw; [by apply (Hmk n e)|by apply (Ha1 n e)].
    - intros i [Hi|(n & [e Hn] & <-)]%N1; [by apply Ha2|]. apply Hmk in Hn.
      change USERTOP with (512 * 1024) in Hn. apply Z.div_le_lower_bound; lia. }
  destruct Hr as [[-> ->]|[-> ->]].
  - cbn [Z.ltb]. change (0 <? 0) with false. cbn iota. rewrite <- D1.
    assert (Hlook : forall n, ptes b !! n = if decide (krange k n) then Some (kpte k n) else ptes a !! n).
    { intros n. rewrite P1, lookup_union, mapping_lookup.
      replace (Z.of_nat (Z.to_nat (q - 1) + 1)) with q by lia.
      destruct (decide (krange k n)) as [Hn|Hn]; unfold krange in Hn; rewrite Hv in Hn;
        [rewrite decide_True by done|rewrite decide_False by done]; by destruct (ptes a !! n). }
    eapply wp_mono; [apply (IH s1 b fl1 rest); try done|].
    + intros n Hn. rewrite Hlook. case_decide as Hkr; [by rewrite Hd1 in Hn by done; destruct Hn|].
      apply Hfree. cbn. by rewrite decide_False.
    + intros r s2 [(-> & fl2 & Hh2 & Hp2 & O2 & Hlen)|(c & fl2 & -> & Hm2 & D2 & Hc & Hp2 & O2 & Hl2)]; [left|right].
      * split; [done|]. exists fl2. split; [done|]. split; [by rewrite Hp2|]. rewrite <- Hpool. split; [|done].
        apply (only_weaken _ _ _ _ (only_trans _ _ _ _ _ O1 O2)). intros p. rewrite elem_of_app, Hpool. tauto.
      * exists c, fl2. split_and!; try done; [by rewrite Hp2| |].
        -- apply (only_weaken _ _ _ _ (only_trans _ _ _ _ _ O1 O2)). intros p. rewrite elem_of_app, Hpool. tauto.
        -- intros n. rewrite Hl2, Hlook. cbn. case_decide as Hkr; [|done]. by rewrite Hd1.
  - change (-1 <? 0) with true. cbn iota. apply wp_bind. rewrite <- D1.
    eapply wp_mono; [apply (wp_freevm s1 b [] rest Hm1)|]. intros [] s2 (fl2 & Hh2 & Hp2 & O2). apply wp_ret. left.
    destruct (kernel_only_frames b Hb) as [_ Hob]. rewrite Hob in *. split; [done|]. exists fl2. split; [done|].
    change (pool b []) with (tables b) in Hpool. split; [by rewrite Hp2|]. rewrite <- Hpool.
    split; [|by apply (kernel_only_tables s1); [apply Hm1|]].
    apply (only_weaken _ _ _ _ (only_trans _ _ _ _ _ O1 O2)). intros p. rewrite elem_of_app, Hpool. tauto.
Qed.

(** The linker script places [data] on a page boundary after the text. *)
Hypothesis data_aligned : data mod PGSIZE = 0.
Hypothesis data_range : KERNLINK < data < KERNBASE + PHYSTOP.

Lemma data_pages : exists k, data = KERNBASE + k * PGSIZE /\ 256 < k < 57344.
Proof.
  destruct (proj1 (Z.mod_divide _ PGSIZE ltac:(done)) data_aligned) as [k Hk]. exists (k - 524288).
  unfold KERNLINK, KERNBASE, EXTMEM, PHYSTOP, PGSIZE in *. lia.
Qed.

Lemma kmap_sizes : exists k, data = KERNBASE + k * PGSIZE /\ 256 < k < 57344 /\
  kmap data = [ {| k_virt := KERNBASE; k_start := 0; k_end := EXTMEM; k_perm := PTE_W |};
    {| k_virt := KERNLINK; k_start := EXTMEM; k_end := k * PGSIZE; k_perm := 0 |};
    {| k_virt := data; k_start := k * PGSIZE; k_end := PHYSTOP; k_perm := PTE_W |};
    {| k_virt := DEVSPACE; k_start := DEVSPACE; k_end := 0; k_perm := PTE_W |} ].
Proof.
  destruct data_pages as (k & Hk & Hr). exists k. split; [done|]. split; [done|]. unfold kmap.
  replace (V2P data) with (k * PGSIZE); [done|]. unfold V2P. rewrite Hk, u32_small; unfold PGSIZE; lia.
Qed.

Lemma kmap_vpn k : data = KERNBASE + k * PGSIZE -> 256 < k < 57344 ->
  vpn data = 524288 + k /\ vpn (u32 (k * PGSIZE - EXTMEM)) = k - 256 /\ vpn (u32 (PHYSTOP - k * PGSIZE)) = 57344 - k.
Proof.
  intros Hk Hr. unfold vpn. rewrite !u32_small by (unfold PGSIZE, EXTMEM, PHYSTOP; lia). rewrite Hk.
  replace (KERNBASE + k * PGSIZE) with ((524288 + k) * PGSIZE) by (unfold KERNBASE, PGSIZE; lia).
  replace (k * PGSIZE - EXTMEM) with ((k - 256) * PGSIZE) by (unfold EXTMEM, PGSIZE; lia).
  replace (PHYSTOP - k * PGSIZE) with ((57344 - k) * PGSIZE) by (unfold PHYSTOP, PGSIZE; lia).
  by rewrite !Z.div_mul.
Qed.

Lemma kmap_pages : exists k, data = KERNBASE + k * PGSIZE /\ 256 < k < 57344 /\
  forall n, klook (kmap data) n =
    if decide (524288 <= n < 524544) then Some ((n - 524288) * PGSIZE + 3)
    else if decide (524544 <= n < 524288 + k) then Some ((n - 524288) * PGSIZE + 1)
    else if decide (524288 + k <= n < 581632) then Some ((n - 524288) * PGSIZE + 3)
    else if decide (1040384 <= n < 1048576) then Some (n * PGSIZE + 3)
    else None.
Proof.
  destruct kmap_sizes as (k & Hk & Hr & ->). exists k. split; [done|]. split; [done|]. intros n.
  destruct (kmap_vpn k Hk Hr) as (H1 & H2 & H3).
  cbn [klook]. repeat (let x := fresh in destruct (decide (krange _ n)) as [x|x]; unfold krange in x; cbn in x).
  all: change (vpn KERNBASE) with 524288 in *; change (vpn KERNLINK) with 524544 in *; change (vpn DEVSPACE) with 1040384 in *.
  all: change (vpn (u32 (EXTMEM - 0))) with 256 in *; change (vpn (u32 (0 - DEVSPACE))) with 8192 in *.
  all: rewrite ?H1, ?H2, ?H3 in *; unfold kpte; cbn [k_virt k_start k_end k_perm].
  all: change (vpn KERNBASE) with 524288; change (vpn KERNLINK) with 524544; change (vpn DEVSPACE) with 1040384; rewrite ?H1.
  all: change (Z.lor PTE_W PTE_P) with 3; change (Z.lor 0 PTE_P) with 1.
  all: repeat case_decide; try done; try lia; f_equal; unfold EXTMEM, DEVSPACE, PGSIZE; lia.
Qed.

Lemma kmap_ok : Forall kentry_ok (kmap data).
Proof.
  destruct kmap_sizes as (k & Hk & Hr & ->).
  assert (Hkm : (k * PGSIZE) mod PGSIZE = 0) by (by apply Z.mod_mul).
  assert (U1 : u32 (k * PGSIZE - EXTMEM) = (k - 256) * PGSIZE) by (rewrite u32_small; unfold EXTMEM, PGSIZE; lia).
  assert (U2 : u32 (PHYSTOP - k * PGSIZE) = (57344 - k) * PGSIZE) by (rewrite u32_small; unfold PHYSTOP, PGSIZE; lia).
  repeat apply Forall_cons_2; [| | | |constructor]; split; cbn; try done; rewrite ?U1, ?U2; rewrite ?Z.mod_mul by done;
    unfold KERNBASE, EXTMEM, PGSIZE in *; try (split; lia); lia.
Qed.

Lemma kmap_disjoint : kdisjoint (kmap data).
Proof.
  destruct kmap_sizes as (k & Hk & Hr & ->).
  destruct (kmap_vpn k Hk Hr) as (H1 & H2 & H3).
  cbn [kdisjoint klook]. split_and!; try done; intros n Hn;
    repeat (rewrite decide_False; [|unfold krange in *; cbn in *; intros Hx;
      change (vpn KERNBASE) with 524288 in *; change (vpn KERNLINK) with 524544 in *; change (vpn DEVSPACE) with 1040384 in *;
      change (vpn (u32 (EXTMEM - 0))) with 256 in *; change (vpn (u32 (0 - DEVSPACE))) with 8192 in *;
      rewrite ?H1, ?H2, ?H3 in *; lia]); done.
Qed.

Lemma wp_setupkvm s fl rest :
  heap_ok s fl -> NoDup (fl ++ rest) -> (forall p, p ∈ rest -> is_Some (pages s !! p)) ->
  wp (setupkvm data end_) s (fun r s' =>
    (r = 0 /\ exists fl', heap_ok s' fl' /\ fl' ≡ₚ fl /\ only fl s s' /\ (length fl <= 513)%nat) \/
    (exists b fl', r = P2V (dir b) /\ mem_at s' b fl' rest /\ kernel_only b /\
       fl' ++ owned b ≡ₚ fl /\ only fl s s' /\ forall n, ptes b !! n = klook (kmap data) n)).
Proof.
  intros Hh Hnd Hu. unfold setupkvm. apply wp_bind. eapply wp_mono; [apply (wp_kalloc end_ end_above s fl Hh)|].
  intros v s1 [Hp1 Hv]. destruct fl as [|p fl].
  { destruct Hv as [-> ->]. apply wp_ret. left. split; [done|]. exists []. split_and!; try done. cbn. lia. }
  destruct Hv as [-> Hh1]. destruct (heap_head end_ end_above s p fl Hh) as (Hp & _ & Hz).
  rewrite (proj2 (Z.eqb_neq _ 0)) by done.
  destruct (chain_elem _ _ _ p (hp_chain _ _ _ Hh) ltac:(apply list_elem_of_here)) as [d Hd]. rewrite <- Hp1 in Hd.
  apply wp_bind, (wp_zero_page end_ end_above s1 p d); [apply Hh1|done|]. intros Hw2.
  change (DEVSPACE <? P2V PHYSTOP) with false. cbn iota.
  set (a := {| dir := p; tabs := ∅; ptes := ∅ |}). set (s2 := with_pages s1 _).
  assert (Hown : owned a = [p]) by done.
  assert (Hdom : dom (pages s2) = dom (pages s)).
  { cbn [s2 pages with_pages]. rewrite dom_insert_lookup_L by (by exists d). by rewrite Hp1. }
  assert (O1 : only [p] s s2).
  { split; [done|]. intros q Hq. cbn [s2 pages with_pages]. rewrite lookup_insert_ne, Hp1; [done|]. intros <-. by apply Hq, list_elem_of_here. }
  assert (Hm : mem_at s2 a fl rest).
  { cbn [app] in Hnd. apply list.NoDup_cons in Hnd as Hnd'. destruct Hnd' as [Hpn Hnd']. rewrite elem_of_app in Hpn. split.
    - apply (heap_frame end_ s1); [done..|]. intros q Hq. apply lookup_insert_ne. intros <-. tauto.
    - split; cbn [dir tabs ptes a s2 pages with_pages].
      + exists zero_page. split; [apply lookup_insert_eq|]. intros i Hi. exists 0. split; [by apply word_zero|]. by rewrite lookup_empty.
      + intros i t Hi. by rewrite lookup_empty in Hi.
      + intros n e Hn. by rewrite lookup_empty in Hn.
    - rewrite Hown. cbn [app]. by rewrite <- Permutation_middle.
    - rewrite Hown. intros q Hq. apply elem_of_dom. rewrite Hdom. apply elem_of_dom. cbn [app] in Hq.
      apply elem_of_cons in Hq as [->|Hq]; [exists d; by rewrite <- Hp1|by apply Hu]. }
  assert (Hpool : pool a fl ≡ₚ p :: fl) by (change (pool a fl) with (fl ++ [p]); by rewrite Permutation_app_comm).
  assert (Hsub : forall s', only (pool a fl) s2 s' -> only (p :: fl) s s').
  { intros s' O2. apply (only_weaken _ _ _ _ (only_trans _ _ _ _ _ O1 O2)). intros q.
    rewrite elem_of_app, Hpool, list_elem_of_singleton, elem_of_cons. tauto. }
  change p with (dir a) at 1.
  eapply wp_mono; [apply (wp_setup_loop (kmap data) s2 a fl rest Hm);
    [split; [intros n e He|intros i [e He]]; cbn in He; by rewrite lookup_empty in He|apply kmap_ok|apply kmap_disjoint|intros n _; apply lookup_empty]|].
  intros r s' [(-> & fl' & Hh' & Hp' & O' & Hlen)|(b & fl' & -> & Hm' & D' & Hk & Hp' & O' & Hl)]; [left|right].
  - split; [done|]. exists fl'. rewrite Hpool in Hp', Hlen. split_and!; try done. by apply Hsub.
  - exists b, fl'. destruct (kernel_only_frames b Hk) as [_ ->]. split_and!; try done; [by rewrite <- Hpool|by apply Hsub|].
    intros n. rewrite Hl. cbn [ptes a]. rewrite lookup_empty. by destruct (klook _ n).
Qed.

(** The layout that the comment above [kmap] describes: the physical address
    of a virtual address, and the flags of its page. *)
Definition kernel_translate (va : Z) : option (Z * Z) :=
  if decide (KERNBASE <= va < KERNLINK) then Some (va - KERNBASE, Z.lor PTE_W PTE_P)
  else if decide (KERNLINK <= va < data) then Some (va - KERNBASE, PTE_P)
  else if decide (data <= va < KERNBASE + PHYSTOP) then Some (va - KERNBASE, Z.lor PTE_W PTE_P)
  else if decide (DEVSPACE <= va < 2 ^ 32) then Some (va, Z.lor PTE_W PTE_P)
  else None.

Lemma kernel_space a va : (forall n, ptes a !! n = klook (kmap data) n) -> 0 <= va < 2 ^ 32 ->
  translate a va = kernel_translate va.
Proof.
  intros Ha Hva. unfold translate. rewrite Ha. destruct kmap_pages as (k & Hk & Hr & ->).
  pose proof (Z.div_mod va PGSIZE ltac:(done)) as Hdm. pose proof (Z.mod_pos_bound va PGSIZE ltac:(done)) as Hb.
  fold (vpn va) in *. unfold kernel_translate, KERNLINK, KERNBASE, EXTMEM, PHYSTOP, DEVSPACE in *.
  assert (He : forall m f, 0 <= f < PGSIZE -> PTE_ADDR (m * PGSIZE + f) = m * PGSIZE /\ PTE_FLAGS (m * PGSIZE + f) = f).
  { intros m f Hf. rewrite <- lor_add by (done || by apply Z.mod_mul). apply pte_make; [by apply Z.mod_mul|done]. }
  unfold PGSIZE in Hk, Hdm, Hb.
  repeat case_decide; try lia; try done; cbn [mbind option_bind];
    (edestruct He as [-> ->]; [unfold PGSIZE; lia|]); f_equal; f_equal; unfold PGSIZE in *; lia.
Qed.

(** [setupkvm] returns a page directory that maps the kernel exactly as
    the comment above [kmap] says, device space and text without write
    permission included, and user memory not at all; it takes its pages from
    the free list, and it fails, giving them all back, only when no more than
    513 pages are free. *)
Theorem setupkvm_maps s fl rest :
  heap_ok s fl -> NoDup (fl ++ rest) -> (forall p, p ∈ rest -> is_Some (pages s !! p)) ->
  wp (setupkvm data end_) s (fun r s' =>
    (r = 0 /\ exists fl', heap_ok s' fl' /\ fl' ≡ₚ fl /\ (length fl <= 513)%nat) \/
    (exists b fl', r = P2V (dir b) /\ mem_at s' b fl' rest /\ fl' ++ owned b ≡ₚ fl /\ only fl s s' /\
       forall va, 0 <= va < 2 ^ 32 -> translate b va = kernel_translate va)).
Proof.
  intros Hh Hnd Hu. eapply wp_mono; [by apply (wp_setupkvm s fl rest)|].
  intros r s' [(-> & fl' & H1 & H2 & _ & H3)|(b & fl' & -> & H1 & _ & H2 & H3 & H4)]; [left|right].
  - split; [done|]. by exists fl'.
  - exists b, fl'. split_and!; try done. intros va Hva. by apply kernel_space.
Qed.
End user.
