(* ===== verification/VmGrow.v ===== *)
(** * Growing and shrinking a process

    [allocuvm] of [kernel/vm.c] and [growproc] of [kernel/proc.c]: a process
    grows by zeroed pages of its own or, when memory runs out, is left with
    the memory it had. *)

From S2P Require Import Prelude CStr Mem Kalloc Vm VmSpace VmUser.

(** The byte of user memory at an address. *)
Definition ubyte (s : kmem) (a : space) (va : Z) : option Z :=
  e ← ptes a !! vpn va; d ← pages s !! PTE_ADDR e; d !! Z.to_nat (va mod PGSIZE).

(** The user pages of the space are those of a memory of [sz] bytes. *)
Definition covers (a : space) (sz : Z) : Prop :=
  forall n, n < USERTOP -> (is_Some (ptes a !! n) <-> 0 <= n < npages sz).

Section grow.
Variable end_ : Z.
Hypothesis end_above : KERNLINK <= end_.

Abbreviation mem_at := (mem_at end_).

(** ** Pages taken and given back *)

Lemma mem_kalloc s a fl rest :
  mem_at s a fl rest ->
  wp kalloc s (fun v s' => pages s' = pages s /\
    match fl with
    | [] => v = 0 /\ s' = s
    | p :: fl' => v = P2V p /\ P2V p <> 0 /\ mem_at s' a fl' (p :: rest)
    end).
Proof.
  intros [Hh Hs Hnd Hu]. eapply wp_mono; [apply (wp_kalloc end_ end_above s fl Hh)|]. intros v s1 [Hp Hv].
  split; [done|]. destruct fl as [|p fl]; [done|]. destruct Hv as [-> Hh1].
  destruct (heap_head end_ end_above s p fl Hh) as (_ & _ & Hz). split; [done|]. split; [done|]. split; [done| | |].
  - apply (space_frame s); [done|]. by rewrite Hp.
  - rewrite <- !Permutation_middle. done.
  - intros q Hq. rewrite Hp. rewrite <- Permutation_middle in Hq. apply elem_of_cons in Hq as [->|Hq]; [|by apply Hu].
    apply (chain_elem _ _ _ p (hp_chain _ _ _ Hh)), list_elem_of_here.
Qed.

Lemma mem_rest s a fl rest p : mem_at s a fl rest -> p ∈ rest -> (p ∉ fl) /\ (p ∉ owned a).
Proof.
  intros [_ _ Hnd _] Hp. apply list.NoDup_app in Hnd as (_ & H1 & Hnd). apply list.NoDup_app in Hnd as (_ & H2 & _).
  split; intros Hx; [apply (H1 p Hx), elem_of_app; by right|by apply (H2 p)].
Qed.

Lemma mem_kfree s a fl rest p :
  mem_at s a fl (p :: rest) ->
  wp (kfree end_ (P2V p)) s (fun _ s' => mem_at s' a (p :: fl) rest /\ only [p] s s').
Proof.
  intros Hm. destruct (mem_rest s a fl (p :: rest) p Hm) as [Hp1 Hp2]; [apply list_elem_of_here|].
  pose proof Hm as [Hh Hs Hnd Hu].
  eapply wp_mono; [apply (wp_kfree end_ end_above s fl p Hh); [|done]|].
  - apply Hu, elem_of_app. right. apply list_elem_of_here.
  - intros [] s1 [Hh1 O1]. split; [|done]. split; [done| | |].
    + apply (space_frame s); [done|]. intros q Hq. apply O1. intros ->%list_elem_of_singleton. apply Hp2, elem_of_app. by left.
    + by rewrite <- !Permutation_middle in Hnd.
    + intros q Hq. apply elem_of_dom. rewrite (proj1 O1). apply elem_of_dom, Hu. rewrite <- Permutation_middle. by right.
Qed.

(** A page that no one else uses is filled. *)
Lemma mem_fill s a fl rest p d :
  mem_at s a fl rest -> p ∈ rest -> length d = Z.to_nat PGSIZE -> bytes d ->
  mem_at (with_pages s (<[p := d]> (pages s))) a fl rest /\ only [p] s (with_pages s (<[p := d]> (pages s))).
Proof.
  intros Hm Hp Hl Hb. destruct (mem_rest s a fl rest p Hm Hp) as [Hp1 Hp2]. pose proof Hm as [Hh Hs Hnd Hu].
  destruct (Hu p) as [d0 Hd0]; [apply elem_of_app; by right|]. pose proof (only_insert s p d0 d Hd0) as O.
  split; [|done]. split; [| |done|].
  - apply (heap_frame end_ s); [done|by apply (pages_wf_insert end_ _ p d0); [apply Hh|..]|done|].
    intros q Hq. apply O. intros ->%list_elem_of_singleton. done.
  - apply (space_frame s); [done|]. intros q Hq. apply O. intros ->%list_elem_of_singleton. apply Hp2, elem_of_app. by left.
  - intros q Hq. apply elem_of_dom. rewrite (proj1 O). by apply elem_of_dom, Hu.
Qed.

(** ** [allocuvm] *)

Lemma tables_grow a b n x : extends a b {[n := x]} -> (length (tables b) <= length (tables a) + 1)%nat.
Proof.
  intros (_ & _ & _ & Hn). unfold tables. cbn [length]. rewrite !length_fmap, !length_map_to_list, <- !size_dom.
  assert (Hsub : dom (tabs b) ⊆ {[n / 1024]} ∪ dom (tabs a)).
  { intros i Hi. apply elem_of_dom, Hn in Hi. rewrite elem_of_union, elem_of_singleton, elem_of_dom.
    destruct Hi as [|(j & [y Hj] & <-)]; [by right|left]. by apply lookup_singleton_Some in Hj as [<- _]. }
  apply subseteq_size in Hsub. pose proof (size_union_le {[n / 1024]} (dom (tabs a))) as Hle. rewrite size_singleton in Hle. lia.
Qed.

(** What the loop has done so far, from the space [a0] in the state [s0]: the
    pages from [lo] up to [hi] are new. *)
Record grown (s0 : kmem) (a0 : space) (fl0 rest0 : list Z) (s : kmem) (a : space) (fl rest : list Z) (lo hi : Z) : Prop := {
  gr_mem : mem_at s a fl rest;
  gr_new : exists m, extends a0 a m /\ (forall n, is_Some (m !! n) <-> lo <= n < hi) /\
    (forall n e, m !! n = Some e ->
       PTE_FLAGS e = 7 /\ pages s !! PTE_ADDR e = Some zero_page /\ PTE_ADDR e ∈ pool a0 fl0);
  gr_perm : fl ++ owned a ++ rest ≡ₚ fl0 ++ owned a0 ++ rest0;
  gr_pool p : p ∈ pool a fl -> p ∈ pool a0 fl0;
  gr_only : only (pool a0 fl0) s0 s
}.

(** What is left when memory runs out: the space with the entries it had. *)
Record restored (s0 : kmem) (a0 : space) (fl0 rest0 : list Z) (s : kmem) (a : space) (fl rest : list Z) : Prop := {
  re_mem : mem_at s a fl rest;
  re_dir : dir a = dir a0;
  re_tabs : tabs a0 ⊆ tabs a;
  re_ptes : ptes a = ptes a0;
  re_perm : fl ++ owned a ++ rest ≡ₚ fl0 ++ owned a0 ++ rest0;
  re_only : only (pool a0 fl0) s0 s
}.

Section alloc.
Variables (s0 : kmem) (a0 : space) (fl0 rest : list Z) (oldsz newsz : Z).
Hypothesis sizes : 0 <= oldsz <= newsz /\ newsz < KERNBASE.
Hypothesis fresh : forall j, npages oldsz <= j < npages newsz -> ptes a0 !! j = None.

(** [deallocuvm] takes the new pages away again. *)
Lemma wp_undo s a fl rest' hi :
  grown s0 a0 fl0 rest s a fl rest' (npages oldsz) hi -> hi <= npages newsz ->
  wp (deallocuvm end_ (P2V (dir a)) newsz oldsz) s (fun _ s' => exists b fl',
    restored s0 a0 fl0 rest s' b fl' rest').
Proof.
  intros [Hm (m & (D & T & P & _) & Hdom & Hflags) Hperm Hpool Honly] Hhi.
  eapply wp_mono; [apply (wp_deallocuvm end_ end_above s a fl rest' newsz oldsz Hm); lia|].
  intros r s' (b & fl' & Hm' & (D' & T' & P') & Hp' & O' & _). exists b, fl'. split; [done|congruence|by rewrite T'| | |].
  - rewrite P', P. apply map_eq. intros n. rewrite drop_range_lookup, lookup_union.
    case_decide as Hn; [by rewrite fresh|]. destruct (m !! n) as [e|] eqn:Hm0; [|by rewrite (left_id_L None (∪))].
    assert (npages oldsz <= n < hi) by (apply Hdom; by exists e). lia.
  - by rewrite app_assoc, Hp', <- app_assoc.
  - apply (only_weaken _ _ _ _ (only_trans _ _ _ _ _ Honly O')). intros p. rewrite elem_of_app. intros [|Hp]; [done|].
    apply elem_of_app in Hp as [Hp|Hp]; [apply Hpool, elem_of_app; by right|].
    apply elem_of_dropped in Hp as (n & e & Hn & Hr & ->). rewrite P in Hn.
    apply lookup_union_Some_raw in Hn as [Hn|[_ Hn]]; [by apply (Hflags n e)|rewrite fresh in Hn by done; done].
Qed.

Lemma restored_kfree s a fl p :
  restored s0 a0 fl0 rest s a fl (p :: rest) -> p ∈ pool a0 fl0 ->
  wp (kfree end_ (P2V p)) s (fun _ s' => restored s0 a0 fl0 rest s' a (p :: fl) rest).
Proof.
  intros [Hm D T P Hperm O] Hp. eapply wp_mono; [apply (mem_kfree s a fl rest p Hm)|]. intros [] s' [Hm' O'].
  split; try done.
  - rewrite <- Hperm, <- app_comm_cons, !app_assoc. apply Permutation_middle.
  - apply (only_weaken _ _ _ _ (only_trans _ _ _ _ _ O O')). intros q. rewrite elem_of_app, list_elem_of_singleton.
    by intros [| ->].
Qed.

(** A page is taken and cleared. *)
Lemma grown_page s a p fl hi s1 :
  grown s0 a0 fl0 rest s a (p :: fl) rest (npages oldsz) hi -> pages s1 = pages s -> mem_at s1 a fl (p :: rest) ->
  let s2 := with_pages s1 (<[p := zero_page]> (pages s1)) in
  grown s0 a0 fl0 rest s2 a fl (p :: rest) (npages oldsz) hi /\ pages s2 !! p = Some zero_page /\ p ∈ pool a0 fl0.
Proof.
  intros [Hm (m & He & Hdom & Hflags) Hperm Hpool Honly] Hp1 Hm1 s2.
  destruct (mem_fill s1 a fl (p :: rest) p zero_page Hm1) as [Hm2 O2];
    [apply list_elem_of_here|apply zero_page_ok..|]. fold s2 in Hm2, O2.
  assert (Hpp : p ∈ pool a0 fl0) by (apply Hpool, elem_of_app; left; apply list_elem_of_here).
  split; [|split; [apply lookup_insert_eq|done]]. split; [done| | | |].
  - exists m. split; [done|]. split; [done|]. intros n e Hn. destruct (Hflags n e Hn) as (H1 & H2 & H3). split_and!; try done.
    cbn [s2 pages with_pages]. destruct (decide (PTE_ADDR e = p)) as [->|]; [apply lookup_insert_eq|].
    rewrite lookup_insert_ne by done. by rewrite Hp1.
  - rewrite <- Hperm, <- app_comm_cons, !app_assoc. symmetry. apply Permutation_middle.
  - intros q Hq. apply Hpool. apply elem_of_app in Hq as [|]; apply elem_of_app; [left; by right|by right].
  - split; [rewrite (proj1 O2), Hp1; apply Honly|]. intros q Hq. rewrite (proj2 O2), Hp1; [by apply Honly|].
    intros ->%list_elem_of_singleton. done.
Qed.

(** Pages of user memory and of others are not in the pool. *)
Lemma outside_pool s a fl rest' p : mem_at s a fl rest' -> p ∈ frames a ++ rest' -> p ∉ pool a fl.
Proof using Type.
  intros [_ _ Hnd _] Hp Hq. unfold owned in Hnd. rewrite <- app_assoc, app_assoc in Hnd.
  apply list.NoDup_app in Hnd as (_ & Hnd & _). by apply (Hnd p Hq).
Qed.

(** ... and mapped. *)
Lemma grown_map s a fl p va s' b fl' :
  grown s0 a0 fl0 rest s a fl (p :: rest) (npages oldsz) (vpn va) -> pages s !! p = Some zero_page ->
  p ∈ pool a0 fl0 -> p mod PGSIZE = 0 -> npages oldsz <= vpn va < USERTOP -> npages newsz <= USERTOP ->
  mem_at s' b fl' rest -> extends a b {[vpn va := p + 7]} ->
  fl' ++ owned b ++ rest ≡ₚ fl ++ owned a ++ p :: rest -> pool b fl' ≡ₚ pool a fl -> only (pool a fl) s s' ->
  grown s0 a0 fl0 rest s' b fl' rest (npages oldsz) (vpn va + 1).
Proof.
  intros [Hm (m & He & Hdom & Hflags) Hperm Hpool Honly] Hz Hpp Hpal Hlo Hhi Hm' He' Hp' Hq' O'.
  assert (Hx : PTE_ADDR (p + 7) = p /\ PTE_FLAGS (p + 7) = 7).
  { rewrite <- lor_add by done. by apply pte_make. }
  split; [done| | | |].
  - exists ({[vpn va := p + 7]} ∪ m). split; [by apply (extends_trans a0 a)|]. split.
    + intros n. rewrite lookup_union_is_Some, Hdom, lookup_singleton_is_Some. lia.
    + intros n e [[<- <-]%lookup_singleton_Some|[_ Hn]]%lookup_union_Some_raw.
      * destruct Hx as [-> ->]. split_and!; try done. rewrite (proj2 O'); [done|].
        apply (outside_pool s a fl (p :: rest)); [done|]. apply elem_of_app. right. apply list_elem_of_here.
      * destruct (Hflags n e Hn) as (H1 & H2 & H3). split_and!; try done. rewrite (proj2 O'); [done|].
        apply (outside_pool s a fl (p :: rest)); [done|]. apply elem_of_app. left. apply elem_of_frames. exists n, e.
        assert (npages oldsz <= n < vpn va) by (apply Hdom; by exists e).
        split_and!; [|lia|done]. destruct He as (_ & _ & -> & _). by apply lookup_union_Some_raw; left.
  - by rewrite Hp', Hperm.
  - intros q. rewrite Hq'. apply Hpool.
  - apply (only_weaken _ _ _ _ (only_trans _ _ _ _ _ Honly O')). intros q. rewrite elem_of_app. intros [|Hq]; [done|by apply Hpool].
Qed.

Lemma wp_alloc_loop n : forall s a fl va,
  grown s0 a0 fl0 rest s a fl rest (npages oldsz) (vpn va) -> va mod PGSIZE = 0 -> 0 <= va ->
  npages oldsz <= vpn va <= npages newsz -> newsz - va <= (Z.of_nat n - 1) * PGSIZE -> (0 < n)%nat ->
  Z.of_nat (length fl0) <= Z.of_nat (length fl) + 2 * (vpn va - npages oldsz) ->
  wp (allocuvm_loop end_ n (P2V (dir a)) va oldsz newsz) s (fun r s' => exists b fl',
    (r = newsz /\ grown s0 a0 fl0 rest s' b fl' rest (npages oldsz) (npages newsz)) \/
    (r = 0 /\ restored s0 a0 fl0 rest s' b fl' rest /\
     Z.of_nat (length fl0) < 2 * (npages newsz - npages oldsz))).
Proof.
  induction n as [|n IH]; intros s a fl va Hg Hal Hva0 Hlo Hfuel Hn Hcount; [lia|]. cbn [allocuvm_loop].
  pose proof (npages_le va newsz Hal) as Hlt. destruct (Z.ltb_spec va newsz) as [Hv|Hv].
  2: { apply wp_ret. exists a, fl. left. split; [done|]. by replace (npages newsz) with (vpn va) by lia. }
  assert (Hn' : (0 < n)%nat) by (unfold PGSIZE in *; lia). assert (Hva : 0 <= va < KERNBASE) by lia.
  pose proof (vpn_user va (proj2 Hva)) as Hvu.
  assert (Hnu : npages newsz <= USERTOP).
  { change USERTOP with 524288. unfold npages, PGSIZE, KERNBASE in *. apply Z.lt_succ_r, Z.div_lt_upper_bound; lia. }
  apply wp_bind. eapply wp_mono; [apply (mem_kalloc s a fl rest (gr_mem _ _ _ _ _ _ _ _ _ _ Hg))|]. intros v s1 [Hp1 Hfl].
  destruct fl as [|p fl].
  { destruct Hfl as [-> ->]. rewrite Z.eqb_refl. apply wp_bind. eapply wp_mono; [by apply (wp_undo s a [] rest (vpn va)); [|lia]|].
    intros r s' (b & fl' & Hr). apply wp_ret. exists b, fl'. right. split; [done|]. split; [done|]. cbn in Hcount. lia. }
  destruct Hfl as (-> & Hz & Hm1). rewrite (proj2 (Z.eqb_neq _ 0)) by done.
  destruct (ma_used _ _ _ _ _ Hm1 p) as [d Hd]; [apply elem_of_app; right; apply list_elem_of_here|].
  pose proof (hp_wf _ _ _ (ma_heap _ _ _ _ _ Hm1)) as Hw1. destruct (Hw1 p d Hd) as (Hpg & _).
  apply wp_bind, (wp_zero_page end_ end_above s1 p d); [done..|]. intros _.
  destruct (grown_page s a p fl (vpn va) s1 Hg Hp1 Hm1) as (Hg2 & Hz2 & Hpp). set (s2 := with_pages s1 _) in *.
  pose proof (gr_mem _ _ _ _ _ _ _ _ _ _ Hg2) as Hm2. pose proof (heap_page_range end_ end_above p Hpg) as Hpr. unfold EXTMEM in Hpr.
  rewrite V2P_P2V by lia. apply wp_bind.
  assert (Hnone : ptes a !! vpn va = None).
  { destruct (gr_new _ _ _ _ _ _ _ _ _ _ Hg2) as (m & (_ & _ & -> & _) & Hdom & _). rewrite lookup_union, fresh by lia.
    destruct (m !! vpn va) eqn:E; [|done]. assert (npages oldsz <= vpn va < vpn va) by (apply Hdom; by eexists). lia. }
  eapply wp_mono; [apply (wp_map_user end_ end_above s2 a fl p rest va (Z.lor PTE_W PTE_U)); done|].
  intros r s3 [(-> & -> & ->)|(-> & b & fl' & Hm3 & He3 & Hp3 & Hq3 & O3)].
  - change (-1 <? 0) with true. cbn iota. apply wp_bind. eapply wp_mono; [by apply (wp_undo s2 a [] (p :: rest) (vpn va)); [|lia]|].
    intros r' s4 (b & fl' & Hr). apply wp_bind. eapply wp_mono; [apply (restored_kfree s4 b fl' p Hr Hpp)|].
    intros [] s5 Hr5. apply wp_ret. exists b, (p :: fl'). right. split; [done|]. split; [done|]. cbn in Hcount. lia.
  - change (0 <? 0) with false. cbn iota. change (Z.lor (Z.lor PTE_W PTE_U) PTE_P) with 7 in He3.
    assert (Hg3 : grown s0 a0 fl0 rest s3 b fl' rest (npages oldsz) (vpn va + 1)).
    { apply (grown_map s2 a fl p va); try done; [apply Hpg|lia]. }
    assert (Hle : va + PGSIZE <= KERNBASE).
    { apply Z.mod_divide in Hal as [k ->]; [|done]. unfold PGSIZE, KERNBASE in *. lia. }
    rewrite <- (proj1 He3), u32_small by (unfold PGSIZE, KERNBASE in *; lia). rewrite <- vpn_next in Hg3.
    apply (IH s3 b fl' (va + PGSIZE)); try done; try (unfold PGSIZE in *; lia).
    + unfold PGSIZE in *. rewrite <- Z.add_mod_idemp_l, Hal; done.
    + rewrite vpn_next. lia.
    + rewrite vpn_next. apply tables_grow in He3. apply Permutation_length in Hq3. unfold pool in Hq3. rewrite !length_app in Hq3.
      cbn [length] in Hcount. lia.
Qed.
End alloc.

Lemma ubyte_kept s a fl rest s' b va :
  mem_at s a fl rest -> only (pool a fl) s s' -> va < KERNBASE -> ptes b !! vpn va = ptes a !! vpn va ->
  ubyte s' b va = ubyte s a va.
Proof.
  intros Hm O Hva Hp. unfold ubyte. rewrite Hp. destruct (ptes a !! vpn va) as [e|] eqn:He; [|done]. cbn [mbind option_bind].
  rewrite (proj2 O); [done|]. apply (outside_pool s a fl rest _ Hm). apply elem_of_app. left. apply elem_of_frames.
  exists (vpn va), e. split_and!; [done|by apply (vpn_user va)|done].
Qed.

Lemma npages_user sz : sz < KERNBASE -> npages sz <= USERTOP.
Proof. intros H. change USERTOP with 524288. unfold npages, PGSIZE, KERNBASE in *. apply Z.lt_succ_r, Z.div_lt_upper_bound; lia. Qed.

Lemma grown_bytes s a fl rest s' b fl' lo hi :
  mem_at s a fl rest -> grown s a fl rest s' b fl' rest lo hi ->
  (forall n, lo <= n < hi -> ptes a !! n = None) -> hi <= USERTOP ->
  (forall va, va < KERNBASE -> ~ lo <= vpn va < hi -> ubyte s' b va = ubyte s a va) /\
  (forall va, lo <= vpn va < hi -> ubyte s' b va = Some 0 /\
     snd <$> translate b va = Some (Z.lor PTE_W (Z.lor PTE_U PTE_P))).
Proof.
  intros Hm [_ (m & (_ & _ & P & _) & Hdom & Hflags) _ _ O] Hfresh Hhi. split; intros va Hva.
  - intros Hn. apply (ubyte_kept s a fl rest); [done..|]. rewrite P, lookup_union.
    destruct (m !! vpn va) eqn:E; [|by rewrite (left_id_L None (∪))]. exfalso. apply Hn, Hdom. by eexists.
  - unfold ubyte, translate. rewrite P. destruct (proj2 (Hdom (vpn va)) Hva) as [e He].
    rewrite (lookup_union_Some_l m _ _ e He). cbn [mbind option_bind]. destruct (Hflags _ e He) as (Hf & -> & _). cbn.
    split; [|by rewrite Hf]. unfold zero_page. apply lookup_replicate_2. pose proof (Z.mod_pos_bound va PGSIZE ltac:(done)). lia.
Qed.

(** [covers] of the new size. *)
Lemma grown_covers s a fl rest s' b fl' oldsz newsz :
  grown s a fl rest s' b fl' rest (npages oldsz) (npages newsz) -> covers a oldsz -> 0 <= oldsz <= newsz ->
  covers b newsz.
Proof.
  intros [_ (m & (_ & _ & P & _) & Hdom & _) _ _ _] Hc Hs n Hn.
  rewrite P, lookup_union_is_Some, Hdom, (Hc n Hn).
  assert (0 <= npages oldsz) by (apply Z.div_pos; [unfold PGSIZE; lia|done]).
  assert (npages oldsz <= npages newsz) by (apply Z.div_le_mono; [done|lia]). lia.
Qed.

Lemma wp_allocuvm_grows s a fl rest oldsz newsz :
  mem_at s a fl rest -> covers a oldsz -> 0 <= oldsz -> 0 <= newsz ->
  wp (allocuvm end_ (P2V (dir a)) oldsz newsz) s (fun r s' =>
    if (KERNBASE <=? newsz) || (newsz <? oldsz) then r = (if KERNBASE <=? newsz then 0 else oldsz) /\ s' = s
    else exists b fl',
      mem_at s' b fl' rest /\ dir b = dir a /\ fl' ++ owned b ++ rest ≡ₚ fl ++ owned a ++ rest /\
      (forall va, vpn va < npages oldsz -> ubyte s' b va = ubyte s a va) /\
      ((r = newsz /\ covers b newsz /\
        forall va, npages oldsz <= vpn va < npages newsz -> ubyte s' b va = Some 0 /\
          snd <$> translate b va = Some (Z.lor PTE_W (Z.lor PTE_U PTE_P))) \/
       (r = 0 /\ covers b oldsz /\ Z.of_nat (length fl) < 2 * (npages newsz - npages oldsz)))).
Proof.
  intros Hm Hc Ho Hnew. unfold allocuvm. destruct (Z.leb_spec KERNBASE newsz) as [Hk|Hk]; [by apply wp_ret|].
  destruct (Z.ltb_spec newsz oldsz) as [Hlt|Hle]; [by apply wp_ret|]. cbn [orb].
  destruct (round_up_pages oldsz) as (Hr1 & Hr2 & Hr3 & Hr4); [lia|].
  assert (H0 : 0 <= npages oldsz) by (apply Z.div_pos; [unfold PGSIZE; lia|done]).
  assert (Hmono : npages oldsz <= npages newsz) by (apply Z.div_le_mono; [done|lia]).
  pose proof (npages_user newsz Hk) as Hnu.
  assert (Hfresh : forall j, npages oldsz <= j < npages newsz -> ptes a !! j = None).
  { intros j Hj. apply eq_None_not_Some. rewrite (Hc j) by lia. lia. }
  assert (Hg : grown s a fl rest s a fl rest (npages oldsz) (vpn (PGROUNDUP oldsz))).
  { rewrite Hr3. split; try done. exists ∅. split; [apply extends_refl|]. split; [|intros n e; by rewrite lookup_empty].
    intros n. rewrite lookup_empty. split; [by intros []|lia]. }
  assert (Hold : forall va, vpn va < npages oldsz -> va < KERNBASE).
  { intros va Hv. unfold vpn in Hv. pose proof (Z.div_mod va PGSIZE ltac:(done)). pose proof (Z.mod_pos_bound va PGSIZE ltac:(done)).
    change USERTOP with 524288 in Hnu. unfold PGSIZE, KERNBASE in *. nia. }
  pose proof (Z.div_mod newsz PGSIZE ltac:(done)) as Hdm. pose proof (Z.mod_pos_bound newsz PGSIZE ltac:(done)) as Hmb.
  pose proof (Z.div_pos newsz PGSIZE ltac:(lia) ltac:(done)) as Hdp.
  eapply wp_mono; [apply (wp_alloc_loop s a fl rest oldsz newsz ltac:(lia) Hfresh _ s a fl (PGROUNDUP oldsz) Hg); try done; try lia|].
  intros r s' (b & fl' & [[-> Hgr]|(-> & [Hm' D' T' P' Hp' O'] & Hcnt)]); exists b, fl'.
  - pose proof Hgr as [Hm' (m & (D' & _) & _) Hp' _ _]. destruct (grown_bytes s a fl rest s' b fl' _ _ Hm Hgr Hfresh Hnu) as [Hb1 Hb2].
    split_and!; try done; [intros va Hva; apply Hb1; [by apply Hold|lia]|]. left. split_and!; try done.
    by apply (grown_covers s a fl rest s' b fl' oldsz).
  - split_and!; try done; [intros va Hva; apply (ubyte_kept s a fl rest); try done; [by apply Hold|by rewrite P']|].
    right. split_and!; try done. intros n Hn. rewrite P'. by apply Hc.
Qed.

(** C12. [allocuvm] grows user memory from [oldsz] to [newsz]: every new page is
    mapped for the program to read and write, and zero, every old byte keeps its value, and each page used comes
    from the free list.  It returns 0 for a size that reaches the kernel or,
    having given back every page it took but those of page tables, when less
    than two pages per new page of memory were free; a smaller size changes
    nothing. *)
Theorem allocuvm_grows s a fl rest oldsz newsz :
  mem_at s a fl rest -> covers a oldsz -> 0 <= oldsz -> 0 <= newsz ->
  wp (allocuvm end_ (P2V (dir a)) oldsz newsz) s (fun r s' =>
    if (KERNBASE <=? newsz) || (newsz <? oldsz) then r = (if KERNBASE <=? newsz then 0 else oldsz) /\ s' = s
    else exists b fl',
      mem_at s' b fl' rest /\ dir b = dir a /\ fl' ++ owned b ++ rest ≡ₚ fl ++ owned a ++ rest /\
      (forall va, vpn va < npages oldsz -> ubyte s' b va = ubyte s a va) /\
      ((r = newsz /\ covers b newsz /\
        forall va, npages oldsz <= vpn va < npages newsz -> ubyte s' b va = Some 0 /\
          snd <$> translate b va = Some (Z.lor PTE_W (Z.lor PTE_U PTE_P))) \/
       (r = 0 /\ covers b oldsz /\ Z.of_nat (length fl) < 2 * (npages newsz - npages oldsz)))).
Proof. apply wp_allocuvm_grows. Qed.

(** Two user pages are never the same page of memory. *)
Lemma frames_inj s a fl rest n m e f :
  mem_at s a fl rest -> ptes a !! n = Some e -> ptes a !! m = Some f -> n < USERTOP -> m < USERTOP ->
  PTE_ADDR e = PTE_ADDR f -> n = m.
Proof.
  intros [_ _ Hnd _] He Hf Hn Hm Heq. destruct (decide (n = m)) as [|Hne]; [done|exfalso].
  pose proof (owned_drop_pte a n e He Hn) as Hown. rewrite Hown in Hnd. apply list.NoDup_app in Hnd as (_ & _ & Hnd).
  rewrite <- app_comm_cons in Hnd. apply list.NoDup_cons in Hnd as [Hnd _]. apply Hnd, elem_of_app. left. apply elem_of_app. right.
  apply elem_of_frames. exists m, f. split_and!; [|done|done]. unfold set_pte. cbn [ptes]. change (has PTE_P 0) with false. cbv iota. by rewrite lookup_delete_ne.
Qed.

Lemma wp_deallocuvm_shrinks s a fl rest oldsz newsz :
  mem_at s a fl rest -> covers a oldsz -> 0 <= newsz <= oldsz -> oldsz <= KERNBASE ->
  wp (deallocuvm end_ (P2V (dir a)) oldsz newsz) s (fun r s' => exists b fl',
    r = newsz /\ mem_at s' b fl' rest /\ dir b = dir a /\ covers b newsz /\ fl' ++ owned b ≡ₚ fl ++ owned a /\
    (forall va, vpn va < npages newsz -> ubyte s' b va = ubyte s a va)).
Proof.
  intros Hm Hc Hs Ho. eapply wp_mono; [apply (wp_deallocuvm end_ end_above s a fl rest oldsz newsz Hm); lia|].
  intros r s' (b & fl' & Hm' & (D & T & P) & Hp & O & ->). exists b, fl'.
  assert (H0 : 0 <= npages newsz) by (apply Z.div_pos; [unfold PGSIZE; lia|done]).
  assert (Hmono : npages newsz <= npages oldsz) by (apply Z.div_le_mono; [done|lia]).
  assert (Hu : npages oldsz <= USERTOP).
  { change USERTOP with 524288. unfold npages, PGSIZE, KERNBASE in *. apply Z.lt_succ_r, Z.div_lt_upper_bound; lia. }
  split_and!; try done; [lia| |].
  - intros n Hn. rewrite P, drop_range_lookup. pose proof (Hc n Hn) as Hcn. case_decide.
    + split; [by intros []|lia].
    + rewrite Hcn. lia.
  - intros va Hva. unfold ubyte. rewrite P, drop_range_lookup, decide_False by lia.
    destruct (ptes a !! vpn va) as [e|] eqn:He; [|done]. cbn [mbind option_bind]. rewrite (proj2 O); [done|].
    rewrite elem_of_app. intros [Ht|(n & f & Hf & Hr & Heq)%elem_of_dropped].
    + apply (outside_pool s a fl rest (PTE_ADDR e) Hm); [|apply elem_of_app; by right].
      apply elem_of_app. left. apply elem_of_frames. exists (vpn va), e. split_and!; [done|lia|done].
    + enough (vpn va = n) by lia. by apply (frames_inj s a fl rest _ _ e f); try lia.
Qed.

(** [deallocuvm] unmaps exactly the pages above the new size, leaves the
    bytes below it as they were, and puts every page it unmaps on the free
    list: no page is lost and none is freed twice. *)
Theorem deallocuvm_shrinks s a fl rest oldsz newsz :
  mem_at s a fl rest -> covers a oldsz -> 0 <= newsz <= oldsz -> oldsz <= KERNBASE ->
  wp (deallocuvm end_ (P2V (dir a)) oldsz newsz) s (fun r s' => exists b fl',
    r = newsz /\ mem_at s' b fl' rest /\ dir b = dir a /\ covers b newsz /\ fl' ++ owned b ≡ₚ fl ++ owned a /\
    (forall va, vpn va < npages newsz -> ubyte s' b va = ubyte s a va)).
Proof. apply wp_deallocuvm_shrinks. Qed.

(** C14. [freevm] puts every page of the address space on the free list: its
    directory, its page tables and its user pages. *)
Theorem freevm_frees s a fl rest :
  mem_at s a fl rest ->
  wp (freevm end_ (P2V (dir a))) s (fun _ s' => exists fl',
    heap_ok end_ s' fl' /\ fl' ≡ₚ fl ++ owned a /\ forall p, p ∈ rest -> pages s' !! p = pages s !! p).
Proof.
  intros Hm. eapply wp_mono; [apply (wp_freevm end_ end_above s a fl rest Hm)|]. intros [] s' (fl' & H1 & H2 & O).
  exists fl'. split_and!; try done. intros p Hp. apply (proj2 O). by apply (mem_rest s a fl rest p Hm).
Qed.

(** ** [growproc] and [sbrk] of a process of [cursz] bytes

    The result and the new [curproc->sz]; [switchuvm] only loads registers. *)

Definition growproc (pgdir cursz n : Z) : M kmem (Z * Z) :=
  if 0 <? n then
    let! sz := allocuvm end_ pgdir cursz (u32 (cursz + n)) in
    if sz =? 0 then ret (-1, cursz) else ret (0, sz)
  else if n <? 0 then
    let! sz := deallocuvm end_ pgdir cursz (u32 (cursz + n)) in
    if sz =? 0 then ret (-1, cursz) else ret (0, sz)
  else ret (0, cursz).

Definition sys_sbrk (pgdir cursz n : Z) : M kmem (Z * Z) :=
  let! r := growproc pgdir cursz n in
  if fst r <? 0 then ret (-1, snd r) else ret (cursz, snd r).

(** [sbrk(n)] returns the old size and changes the memory of the process by
    [n] bytes, new bytes being zero and the others unchanged; it fails with
    the old memory and size when memory runs out.  A decrease by more than the
    whole memory is ignored. *)
Theorem sbrk_resizes s a fl rest sz n :
  mem_at s a fl rest -> covers a sz -> 0 < sz < KERNBASE -> - 2 ^ 31 <= n < 2 ^ 31 -> n <> - sz ->
  wp (sys_sbrk (P2V (dir a)) sz n) s (fun r s' => exists b fl',
    mem_at s' b fl' rest /\ dir b = dir a /\ covers b (snd r) /\ fl' ++ owned b ++ rest ≡ₚ fl ++ owned a ++ rest /\
    (forall va, vpn va < npages sz -> vpn va < npages (snd r) -> ubyte s' b va = ubyte s a va) /\
    (forall va, npages sz <= vpn va < npages (snd r) -> ubyte s' b va = Some 0) /\
    (r = (sz, if n <? - sz then sz else sz + n) \/
     r = (-1, sz) /\ 0 < n /\ (KERNBASE <= sz + n \/ Z.of_nat (length fl) < 2 * (npages (sz + n) - npages sz)))).
Proof.
  intros Hm Hc Hsz Hn Hne. unfold sys_sbrk, growproc. unfold KERNBASE in Hsz. apply wp_bind.
  destruct (Z.ltb_spec 0 n) as [Hp|Hp]; [|destruct (Z.ltb_spec n 0) as [Hl|Hl]].
  - rewrite u32_small by lia. apply wp_bind.
    eapply wp_mono; [apply (wp_allocuvm_grows s a fl rest sz (sz + n) Hm Hc); lia|]. intros r s'.
    rewrite (proj2 (Z.ltb_ge (sz + n) sz)), orb_false_r by lia. destruct (Z.leb_spec KERNBASE (sz + n)) as [Hk|Hk].
    + intros [-> ->]. rewrite Z.eqb_refl. apply wp_ret, wp_ret. exists a, fl. cbn [snd]. split_and!; try done; [lia|]. right. auto.
    + intros (b & fl' & Hm' & D & Hperm & Hold & [(-> & Hcov & Hnew)|(-> & Hcov & Hcnt)]).
      * rewrite (proj2 (Z.eqb_neq _ 0)) by lia. apply wp_ret, wp_ret. exists b, fl'. cbn [snd].
        split_and!; auto; [intros va Hv; by apply Hnew|]. left. by rewrite (proj2 (Z.ltb_ge n (- sz))) by lia.
      * rewrite Z.eqb_refl. apply wp_ret, wp_ret. exists b, fl'. cbn [snd]. split_and!; auto; lia.
  - destruct (Z.ltb_spec n (- sz)) as [Hb|Hb].
    + assert (Hu : u32 (sz + n) = sz + n + 2 ^ 32) by (unfold u32; rewrite <- (Z.mod_add _ 1), Z.mod_small; lia).
      rewrite Hu. unfold deallocuvm. rewrite (proj2 (Z.leb_le _ _)) by lia. apply wp_bind, wp_ret.
      rewrite (proj2 (Z.eqb_neq _ 0)) by lia. apply wp_ret, wp_ret. exists a, fl. cbn [snd]. split_and!; try done; [lia|by left].
    + rewrite u32_small by lia. apply wp_bind.
      eapply wp_mono; [apply (wp_deallocuvm_shrinks s a fl rest sz (sz + n) Hm Hc); [lia|unfold KERNBASE; lia]|].
      intros r s' (b & fl' & -> & Hm' & D & Hcov & Hperm & Hold). rewrite (proj2 (Z.eqb_neq _ 0)) by lia.
      apply wp_ret, wp_ret. exists b, fl'. cbn [snd].
      assert (npages (sz + n) <= npages sz) by (apply Z.div_le_mono; [done|lia]).
      split_and!; auto; [|lia]. rewrite !app_assoc. by rewrite Hperm.
  - assert (n = 0) as -> by lia. apply wp_ret, wp_ret. exists a, fl. cbn [snd]. split_and!; try done; [lia|].
    left. rewrite (proj2 (Z.ltb_ge 0 (- sz))), Z.add_0_r by lia. done.
Qed.

(** [sbrk] that gives back the whole memory frees every page of it and
    then fails: [growproc] takes the new size 0 for an error, so that the
    process keeps its old size with no page mapped. *)
Theorem sbrk_all_breaks s a fl rest sz :
  mem_at s a fl rest -> covers a sz -> 0 < sz < KERNBASE ->
  wp (sys_sbrk (P2V (dir a)) sz (- sz)) s (fun r s' => exists b fl',
    r = (-1, sz) /\ mem_at s' b fl' rest /\ dir b = dir a /\ covers b 0 /\ fl' ++ owned b ≡ₚ fl ++ owned a).
Proof.
  intros Hm Hc Hsz. unfold sys_sbrk, growproc. apply wp_bind. rewrite (proj2 (Z.ltb_ge 0 _)), (proj2 (Z.ltb_lt _ 0)) by lia.
  rewrite Z.add_opp_diag_r. change (u32 0) with 0. apply wp_bind.
  eapply wp_mono; [apply (wp_deallocuvm_shrinks s a fl rest sz 0 Hm Hc); lia|].
  intros r s' (b & fl' & -> & Hm' & D & Hcov & Hperm & _). by apply wp_ret, wp_ret; exists b, fl'.
Qed.
End grow.
