(* ===== verification/VmCopy.v ===== *)
(** * Copying the memory of a process

    [copyuvm] of [kernel/vm.c], by which [fork] gives the child its memory. *)

From S2P Require Import Prelude CStr Mem Kalloc Vm VmSpace VmUser VmGrow.

Lemma flags_present e : has PTE_P e = true -> Z.lor (PTE_FLAGS e) PTE_P = PTE_FLAGS e.
Proof.
  intros H. change PTE_P with (2 ^ 0) in *. rewrite has_pow2 in H by done. unfold PTE_FLAGS. apply Z.bits_inj'. intros i Hi.
  rewrite Z.lor_spec, Z.pow2_bits_eqb by done. destruct (Z.eqb_spec 0 i) as [<-|]; [|apply orb_false_r].
  rewrite orb_true_r, Z.land_spec, H. done.
Qed.

Section copy.
Variables data end_ : Z.
Hypothesis end_above : KERNLINK <= end_.
Hypothesis data_aligned : data mod PGSIZE = 0.
Hypothesis data_range : KERNLINK < data < KERNBASE + PHYSTOP.

Abbreviation mem_at := (mem_at end_).
Abbreviation heap_ok := (heap_ok end_).

Section loop.
Variables (s0 : kmem) (a : space) (fl0 rest : list Z) (sz : Z).
Hypothesis parent : mem_at s0 a fl0 rest.
Hypothesis parent_covers : covers a sz.
Hypothesis sz_range : 0 <= sz < KERNBASE.

(** The child [b] when the pages below [hi] have been copied. *)
Record copied (s : kmem) (b : space) (fl : list Z) (hi : Z) : Prop := {
  cp_mem : mem_at s b fl (owned a ++ rest);
  cp_only : only fl0 s0 s;
  cp_perm : fl ++ owned b ≡ₚ fl0;
  cp_kernel n : USERTOP <= n -> ptes b !! n = klook (kmap data) n;
  cp_user n : n < USERTOP -> if decide (0 <= n < hi)
    then exists e x, ptes a !! n = Some e /\ ptes b !! n = Some x /\ PTE_FLAGS x = PTE_FLAGS e /\
           pages s !! PTE_ADDR x = pages s0 !! PTE_ADDR e
    else ptes b !! n = None
}.

Lemma copied_sub s b fl hi p : copied s b fl hi -> p ∈ fl ++ owned b -> p ∈ fl0.
Proof using Type. intros H. by rewrite (cp_perm _ _ _ _ H). Qed.

(** The parent's pages are as they were. *)
Lemma copied_parent s b fl hi p : copied s b fl hi -> p ∈ owned a ++ rest -> pages s !! p = pages s0 !! p.
Proof using parent.
  intros H Hp. apply (proj2 (cp_only _ _ _ _ H)). intros Hf. pose proof (ma_nodup _ _ _ _ _ parent) as Hnd.
  apply list.NoDup_app in Hnd as (_ & Hnd & _). by apply (Hnd p).
Qed.

Lemma copied_space s b fl hi : copied s b fl hi -> space_at s a.
Proof using parent.
  intros H. apply (space_frame s0); [apply parent|]. intros p Hp. apply (copied_parent s b fl hi); [done|].
  apply elem_of_app. left. apply elem_of_app. by left.
Qed.

(** One more page. *)
Lemma copied_map s b fl p va e d s1 s' c fl' :
  copied s b (p :: fl) (vpn va) -> 0 <= va < KERNBASE -> ptes a !! vpn va = Some e ->
  pages s0 !! PTE_ADDR e = Some d -> pages s1 !! p = Some d -> p mod PGSIZE = 0 ->
  mem_at s1 b fl (p :: owned a ++ rest) -> only [p] s s1 ->
  mem_at s' c fl' (owned a ++ rest) -> extends b c {[vpn va := p + PTE_FLAGS e]} ->
  fl' ++ owned c ++ (owned a ++ rest) ≡ₚ fl ++ owned b ++ p :: (owned a ++ rest) ->
  only (pool b fl) s1 s' -> copied s' c fl' (vpn va + 1).
Proof using parent.
  intros H Hva He Hd Hd1 Hpal Hm1 O1 Hm' (D & T & P & _) Hperm O'. pose proof H as [Hm Ho Hp Hk Hu].
  assert (Hx : PTE_ADDR (p + PTE_FLAGS e) = p /\ PTE_FLAGS (p + PTE_FLAGS e) = PTE_FLAGS e).
  { assert (0 <= PTE_FLAGS e < PGSIZE) by (rewrite pte_flags; by apply Z.mod_pos_bound).
    rewrite <- lor_add by done. by apply pte_make. }
  assert (Hpf : p ∈ fl0) by (apply (copied_sub s b (p :: fl) (vpn va)); [done|]; apply elem_of_app; left; apply list_elem_of_here).
  pose proof (vpn_user va (proj2 Hva)) as Hvu.
  assert (Hv0 : 0 <= vpn va) by (apply Z.div_pos; [lia|done]).
  split; [done| | | |].
  - apply (only_weaken _ _ _ _ (only_trans _ _ _ _ _ Ho (only_trans _ _ _ _ _ O1 O'))).
    intros q. rewrite !elem_of_app, list_elem_of_singleton. intros [|[->|Hq]]; [done|done|].
    apply (copied_sub s b (p :: fl) (vpn va)); [done|]. unfold owned, tables in *. unfold pool in Hq.
    rewrite !elem_of_app in *. destruct Hq as [Hq|Hq]; [left; by right|right; by left].
  - rewrite <- Hp. clear -Hperm. set (R := owned a ++ rest) in *. apply (Permutation_app_inv_r R).
    rewrite <- !app_assoc, Hperm, <- app_comm_cons, !app_assoc. symmetry. apply Permutation_middle.
  - intros n Hn. rewrite P, lookup_union_r; [by apply Hk|]. apply lookup_singleton_ne. lia.
  - intros n Hn. specialize (Hu n Hn). rewrite P. destruct (decide (n = vpn va)) as [->|Hne].
    + rewrite decide_True by lia. exists e, (p + PTE_FLAGS e). destruct Hx as [-> ->].
      split_and!; [done|by apply lookup_union_Some_l, lookup_singleton_eq|done|].
      rewrite (proj2 O'); [congruence|]. apply (outside_pool end_ s1 b fl (p :: owned a ++ rest)); [done|].
      apply elem_of_app. right. apply list_elem_of_here.
    + rewrite lookup_union_r by (by apply lookup_singleton_ne).
      destruct (decide (0 <= n < vpn va + 1)) as [Hr|Hr].
      * rewrite decide_True in Hu by lia. destruct Hu as (e' & x & H1 & H2 & H3 & H4). exists e', x. split_and!; try done.
        assert (Hxf : PTE_ADDR x ∈ frames b) by (apply elem_of_frames; by exists n, x).
        rewrite (proj2 O'); [rewrite (proj2 O1); [done|]|].
        -- intros Heq%list_elem_of_singleton. rewrite Heq in Hxf. destruct (mem_rest end_ s1 b fl (p :: owned a ++ rest) p Hm1) as [_ Hno];
             [apply list_elem_of_here|]. apply Hno, elem_of_app. by right.
        -- apply (outside_pool end_ s1 b fl (p :: owned a ++ rest)); [done|]. apply elem_of_app. by left.
      * by rewrite decide_False in Hu by lia.
Qed.

(** The child is given up and all its pages are free again. *)
Lemma wp_give_up s b fl hi s1 (Q : Z -> kmem -> Prop) :
  copied s b fl hi -> mem_at s1 b fl (owned a ++ rest) -> only fl0 s0 s1 ->
  (forall s' fl', heap_ok s' fl' -> fl' ≡ₚ fl0 -> only fl0 s0 s' -> Q 0 s') ->
  wp (freevm end_ (P2V (dir b)) then! ret 0) s1 Q.
Proof.
  intros H Hm O HQ. apply wp_bind. eapply wp_mono; [apply (wp_freevm end_ end_above s1 b fl (owned a ++ rest) Hm)|].
  intros [] s2 (fl2 & Hh2 & Hp2 & O2). apply wp_ret, (HQ s2 fl2); [done|by rewrite Hp2, (cp_perm _ _ _ _ H)|].
  apply (only_weaken _ _ _ _ (only_trans _ _ _ _ _ O O2)). intros q. rewrite elem_of_app. intros [|Hq]; [done|].
  apply (copied_sub s b fl hi); [done|]. apply elem_of_app. by right.
Qed.

Lemma wp_copy_page s b fl p e d (Q : unit -> kmem -> Prop) :
  mem_at s b fl (p :: owned a ++ rest) -> heap_page end_ e -> pages s !! e = Some d ->
  (forall s1, s1 = with_pages s (<[p := d]> (pages s)) -> mem_at s1 b fl (p :: owned a ++ rest) -> only [p] s s1 -> Q tt s1) ->
  wp (copy_page (P2V p) (P2V e)) s Q.
Proof.
  intros Hm He Hd HQ. unfold copy_page. apply wp_bind, wp_gets. unfold id.
  destruct (page_at end_ end_above e 0 He ltac:(done)) as [Hb _]. rewrite Z.add_0_r in Hb. rewrite Hb.
  apply wp_bind, (wp_lift _ d); [done|].
  destruct (ma_used _ _ _ _ _ Hm p) as [dp Hdp]; [apply elem_of_app; right; apply list_elem_of_here|].
  pose proof (hp_wf _ _ _ (ma_heap _ _ _ _ _ Hm)) as Hw. destruct (Hw p dp Hdp) as (Hp & Hlp & _).
  destruct (Hw e d Hd) as (_ & Hl & Hby). unfold write_at.
  apply (wp_update_page end_ end_above _ s p dp d); [done|done| |].
  - rewrite decide_True by lia. f_equal. apply splice_whole. lia.
  - destruct (mem_fill end_ s b fl (p :: owned a ++ rest) p d Hm) as [H1 H2]; [apply list_elem_of_here|done|done|].
    by apply HQ.
Qed.

Lemma wp_copy_loop n : forall s b fl va,
  copied s b fl (vpn va) -> va mod PGSIZE = 0 -> 0 <= va -> vpn va <= npages sz ->
  sz - va <= (Z.of_nat n - 1) * PGSIZE -> (0 < n)%nat ->
  Z.of_nat (length fl0) <= Z.of_nat (length fl) + 513 + 2 * vpn va ->
  wp (copyuvm_loop end_ n (P2V (dir a)) (P2V (dir b)) va sz) s (fun r s' =>
    (exists b' fl', r = P2V (dir b') /\ copied s' b' fl' (npages sz)) \/
    (r = 0 /\ (exists fl', heap_ok s' fl' /\ fl' ≡ₚ fl0 /\ only fl0 s0 s') /\
     Z.of_nat (length fl0) < 513 + 2 * npages sz)).
Proof.
  induction n as [|n IH]; intros s b fl va Hc Hal Hva0 Hle Hfuel Hn Hcount; [lia|]. cbn [copyuvm_loop].
  pose proof (npages_le va sz Hal) as Hlt. destruct (Z.ltb_spec va sz) as [Hv|Hv].
  2: { apply wp_ret. left. exists b, fl. split; [done|]. by replace (npages sz) with (vpn va) by lia. }
  assert (Hn' : (0 < n)%nat) by (unfold PGSIZE in *; lia). assert (Hva : 0 <= va < KERNBASE) by lia.
  pose proof (vpn_user va (proj2 Hva)) as Hvu. assert (Hv0 : 0 <= vpn va) by (apply Z.div_pos; [lia|done]).
  destruct (proj2 (parent_covers (vpn va) Hvu)) as [e He]; [lia|].
  pose proof Hc as [Hm Ho Hp Hk Hu]. pose proof (copied_space s b fl (vpn va) Hc) as Hs.
  pose proof (hp_wf _ _ _ (ma_heap _ _ _ _ _ Hm)) as Hw.
  destruct (frame_page end_ end_above s0 a fl0 rest (vpn va) e parent He Hvu) as (Hef & Hep & Her).
  assert (Hein : PTE_ADDR e ∈ owned a ++ rest) by (apply elem_of_app; left; apply elem_of_app; by right).
  destruct (ma_used _ _ _ _ _ parent (PTE_ADDR e) Hein) as [d Hd].
  apply (wp_walk_entry end_ end_above _ _ s a va e); [done|done|unfold KERNBASE in *; lia|done|]. intros pte HP.
  rewrite HP. simpl negb. cbv iota. apply wp_bind. eapply wp_mono; [apply (mem_kalloc end_ end_above s b fl _ Hm)|].
  intros v s1 [Hp1 Hfl]. destruct fl as [|p fl].
  { destruct Hfl as [-> ->]. rewrite Z.eqb_refl. apply (wp_give_up s b [] (vpn va)); [done..|].
    intros s' fl' H1 H2 H3. right. split; [done|]. split; [by exists fl'|]. cbn in Hcount. lia. }
  destruct Hfl as (-> & Hz & Hm1). rewrite (proj2 (Z.eqb_neq _ 0)) by done.
  assert (Hd1 : pages s1 !! PTE_ADDR e = Some d) by (rewrite Hp1, (copied_parent s b (p :: fl) (vpn va)); done).
  apply wp_bind, (wp_copy_page s1 b fl p (PTE_ADDR e) d); [done..|]. intros s2 Hs2 Hm2 O2.
  assert (O2' : only [p] s s2) by (split; [rewrite (proj1 O2), Hp1; done|intros q Hq; rewrite (proj2 O2), Hp1; done]).
  assert (Hpf : p ∈ fl0) by (apply (copied_sub s b (p :: fl) (vpn va)); [done|]; apply elem_of_app; left; apply list_elem_of_here).
  assert (O3 : only fl0 s0 s2).
  { apply (only_weaken _ _ _ _ (only_trans _ _ _ _ _ Ho O2')). intros q. rewrite elem_of_app, list_elem_of_singleton. by intros [| ->]. }
  assert (Hpg : heap_page end_ p).
  { destruct (ma_used _ _ _ _ _ Hm1 p) as [dp Hdp]; [apply elem_of_app; right; apply list_elem_of_here|].
    by apply (hp_wf _ _ _ (ma_heap _ _ _ _ _ Hm1) p dp). }
  pose proof (heap_page_range end_ end_above p Hpg) as Hpr. unfold EXTMEM in Hpr.
  rewrite V2P_P2V by lia. apply wp_bind.
  assert (Hnone : ptes b !! vpn va = None) by (pose proof (Hu (vpn va) Hvu) as Hx; by rewrite decide_False in Hx by lia).
  eapply wp_mono; [apply (wp_map_user end_ end_above s2 b fl p (owned a ++ rest) va (PTE_FLAGS e)); try done|].
  { rewrite pte_flags. by apply Z.mod_pos_bound. }
  rewrite (flags_present e HP). intros r s3 [(-> & -> & ->)|(-> & c & fl' & Hm3 & He3 & Hp3 & Hq3 & O4)].
  - change (-1 <? 0) with true. cbn iota. apply wp_bind. eapply wp_mono; [apply (mem_kfree end_ end_above s2 b [] _ p Hm2)|].
    intros [] s3 [Hm3 O4]. apply (wp_give_up s b [p] (vpn va)); [done|done| |].
    + apply (only_weaken _ _ _ _ (only_trans _ _ _ _ _ O3 O4)). intros q. rewrite elem_of_app, list_elem_of_singleton. by intros [| ->].
    + intros s' fl' H1 H2 H3. right. split; [done|]. split; [by exists fl'|]. cbn in Hcount. lia.
  - change (0 <? 0) with false. cbn iota.
    assert (Hc3 : copied s3 c fl' (vpn va + 1)).
    { apply (copied_map s b fl p va e d s2); try done; [subst s2; apply lookup_insert_eq|apply Hpg]. }
    assert (Hle' : va + PGSIZE <= KERNBASE).
    { apply Z.mod_divide in Hal as [k ->]; [|done]. unfold PGSIZE, KERNBASE in *. lia. }
    rewrite <- (proj1 He3), u32_small by (unfold PGSIZE, KERNBASE in *; lia). rewrite <- vpn_next in Hc3.
    apply (IH s3 c fl' (va + PGSIZE)); try done; try (unfold PGSIZE in *; lia).
    + unfold PGSIZE in *. rewrite <- Z.add_mod_idemp_l, Hal; done.
    + rewrite vpn_next. lia.
    + rewrite vpn_next. apply tables_grow in He3. apply Permutation_length in Hq3. unfold pool in Hq3. rewrite !length_app in Hq3.
      cbn [length] in Hcount. lia.
Qed.
End loop.

(** C11. [copyuvm] makes a child whose user memory has the parent's bytes and
    page flags at every address and whose kernel memory is mapped as in every
    space; the child's pages all come from the free list, so that they differ
    from the pages of the parent and of everyone else, which are unchanged.
    It fails only when memory is short, and then every page it took is free
    again. *)
Theorem copyuvm_copies s a fl rest sz :
  mem_at s a fl rest -> covers a sz -> 0 <= sz < KERNBASE ->
  wp (copyuvm data end_ (P2V (dir a)) sz) s (fun r s' =>
    only fl s s' /\
    ((exists b fl', r = P2V (dir b) /\ mem_at s' b fl' (owned a ++ rest) /\ fl' ++ owned b ≡ₚ fl /\ covers b sz /\
        (forall va, 0 <= va < KERNBASE -> ubyte s' b va = ubyte s a va /\
           (snd <$> translate b va) = (snd <$> translate a va)) /\
        (forall va, KERNBASE <= va < 2 ^ 32 -> translate b va = kernel_translate data va)) \/
     (r = 0 /\ (exists fl', heap_ok s' fl' /\ fl' ≡ₚ fl) /\ Z.of_nat (length fl) < 514 + 2 * npages sz))).
Proof.
  intros Hm Hcov Hsz. pose proof Hm as [Hh Hs Hnd Hu]. unfold copyuvm. apply wp_bind.
  assert (Hnp : 0 <= npages sz) by (apply Z.div_pos; [unfold PGSIZE; lia|done]).
  eapply wp_mono; [apply (wp_setupkvm data end_ end_above data_aligned data_range s fl (owned a ++ rest)); done|].
  intros d s1 [(-> & fl1 & H1 & H2 & H3 & H4)|(b & fl1 & -> & Hm1 & Hk & Hp1 & O1 & Hkl)].
  { rewrite Z.eqb_refl. apply wp_ret. split; [done|]. right. split; [done|]. split; [by exists fl1|]. lia. }
  pose proof (ma_space _ _ _ _ _ Hm1) as Hs1.
  destruct (space_heap end_ s1 b (dir b) (hp_wf _ _ _ (ma_heap _ _ _ _ _ Hm1)) Hs1) as (db & _ & Hpb & _); [apply elem_of_tables; by left|].
  pose proof (heap_page_range end_ end_above _ Hpb) as Hr. unfold EXTMEM, PHYSTOP in Hr.
  rewrite (proj2 (Z.eqb_neq _ 0)) by (rewrite P2V_page by (unfold PHYSTOP; lia); unfold KERNBASE; lia).
  assert (Hc : copied s a fl rest s1 b fl1 (vpn 0)).
  { split; try done. intros n Hn. rewrite decide_False by (change (vpn 0) with 0; lia).
    destruct (ptes b !! n) as [e|] eqn:E; [|done]. apply (proj1 Hk) in E. lia. }
  pose proof (kernel_only_tables s1 b Hs1 Hk) as Hlen. rewrite <- (proj2 (kernel_only_frames b Hk)) in Hlen.
  pose proof (Permutation_length Hp1) as Hplen. rewrite length_app in Hplen.
  pose proof (Z.div_mod sz PGSIZE ltac:(done)). pose proof (Z.mod_pos_bound sz PGSIZE ltac:(done)).
  pose proof (Z.div_pos sz PGSIZE ltac:(lia) ltac:(done)).
  eapply wp_mono; [apply (wp_copy_loop s a fl rest sz Hm Hcov Hsz _ s1 b fl1 0 Hc); try done; change (vpn 0) with 0; unfold PGSIZE in *; lia|].
  intros r s' [(c & fl' & -> & Hc')|(-> & (fl' & F1 & F2 & F3) & Hcnt)].
  2: { split; [done|]. right. split; [done|]. split; [by exists fl'|]. lia. }
  pose proof Hc' as [Hm' Ho' Hp' Hk' Hu']. split; [done|]. left. exists c, fl'. split_and!; try done.
  - intros n Hn. specialize (Hu' n Hn). case_decide as Hr'.
    + destruct Hu' as (e & x & _ & -> & _). split; [done|by eexists].
    + rewrite Hu'. split; [by intros []|done].
  - intros va Hva. pose proof (vpn_user va (proj2 Hva)) as Hvu. specialize (Hu' _ Hvu). unfold ubyte, translate. case_decide as Hr'.
    + destruct Hu' as (e & x & -> & -> & Hf & Hpg). cbn [mbind option_bind fmap option_fmap option_map snd]. by rewrite Hpg, Hf.
    + rewrite Hu'. destruct (ptes a !! vpn va) as [e|] eqn:E; [|done]. exfalso. apply Hr', Hcov; [done|]. by exists e.
  - intros va Hva. assert (Hvk : USERTOP <= vpn va) by (apply Z.div_le_mono; [done|apply Hva]).
    rewrite <- (kernel_space data data_aligned data_range b va); [|done|unfold KERNBASE in *; lia].
    unfold translate. by rewrite Hk', Hkl.
Qed.
End copy.
