(* ===== verification/VmMove.v ===== *)
(** * Bytes in and out of user memory

    [uva2ka], [copyout], [clearpteu] and [inituvm] of [kernel/vm.c]: what
    [exec] uses to build the first stack of a program. *)

From S2P Require Import Prelude CStr Mem Kalloc Vm VmSpace VmUser VmGrow.

Section move.
Variable end_ : Z.
Hypothesis end_above : KERNLINK <= end_.

Abbreviation mem_at := (mem_at end_).

(** A page of user memory is written. *)
Lemma mem_write s a fl rest n e d d' :
  mem_at s a fl rest -> ptes a !! n = Some e -> n < USERTOP -> pages s !! PTE_ADDR e = Some d ->
  length d' = Z.to_nat PGSIZE -> bytes d' ->
  let s' := with_pages s (<[PTE_ADDR e := d']> (pages s)) in
  mem_at s' a fl rest /\ only [PTE_ADDR e] s s' /\
  forall va, va < KERNBASE ->
    ubyte s' a va = if decide (vpn va = n) then d' !! Z.to_nat (va mod PGSIZE) else ubyte s a va.
Proof.
  intros Hm He Hn Hd Hl Hb s'. pose proof Hm as [Hh Hs Hnd Hu]. set (p := PTE_ADDR e) in *.
  assert (Hpf : p ∈ frames a) by (apply elem_of_frames; by exists n, e).
  assert (Hpo : p ∉ pool a fl) by (apply (outside_pool end_ s a fl rest); [done|]; apply elem_of_app; by left).
  pose proof (only_insert s p d d' Hd) as O. fold s' in O. split; [|split; [done|]].
  - split; [| |done|].
    + apply (heap_frame end_ s); [done|by apply (pages_wf_insert end_ _ p d); [apply Hh|..]|done|].
      intros q Hq. apply O. intros ->%list_elem_of_singleton. apply Hpo, elem_of_app. by left.
    + apply (space_frame s); [done|]. intros q Hq. apply O. intros ->%list_elem_of_singleton. apply Hpo, elem_of_app. by right.
    + intros q Hq. apply elem_of_dom. rewrite (proj1 O). by apply elem_of_dom, Hu.
  - intros va Hva. pose proof (vpn_user va Hva) as Hvu. unfold ubyte. case_decide as Hv.
    + rewrite Hv, He. cbn [mbind option_bind]. fold p. cbn [s' pages with_pages]. by rewrite lookup_insert_eq.
    + destruct (ptes a !! vpn va) as [f|] eqn:Hf; [|done]. cbn [mbind option_bind].
      rewrite (proj2 O); [done|]. intros Heq%list_elem_of_singleton. apply Hv. by apply (frames_inj end_ s a fl rest _ _ f e).
Qed.

Definition accessible (a : space) (va : Z) : Prop := exists e, ptes a !! vpn va = Some e /\ has PTE_U e = true.

(** An accessible address has a kernel address. *)
Lemma wp_uva2ka s a fl rest va e :
  mem_at s a fl rest -> 0 <= va < KERNBASE -> ptes a !! vpn va = Some e ->
  wp (uva2ka (P2V (dir a)) va) s (fun r s' => r = (if has PTE_U e then P2V (PTE_ADDR e) else 0) /\ s' = s).
Proof.
  intros Hm Hva He. pose proof (ma_space _ _ _ _ _ Hm) as Hs. pose proof (hp_wf _ _ _ (ma_heap _ _ _ _ _ Hm)) as Hw.
  destruct (sa_pte _ _ Hs _ e He) as [t Ht]. destruct (ptx_eq va) as [Hptx Hj].
  destruct (entry_word s a (vpn va) t Hs Ht) as (d & e' & Hd & Hword & Hpe).
  rewrite He in Hpe. destruct (has PTE_P e') eqn:HP; [|done]. injection Hpe as <-.
  unfold uva2ka. apply wp_bind. eapply wp_mono; [apply (wp_walk_table end_ end_above s a va false t); try done; unfold KERNBASE in *; lia|].
  intros r s1 (-> & _ & ->). apply wp_bind, (wp_load_word end_ end_above s t d (PTX va) e); [done|done|done|by rewrite Hptx|].
  rewrite HP. simpl negb. cbv iota. destruct (has PTE_U e); simpl negb; cbv iota; by apply wp_ret.
Qed.

(** What [copyout] leaves in memory. *)
Definition written (va : Z) (l : list Z) (x : Z) (o : option Z) : option Z :=
  if decide (va <= x < va + Z.of_nat (length l)) then l !! Z.to_nat (x - va) else o.

Lemma write_byte va l d x : va mod PGSIZE + Z.of_nat (length l) <= PGSIZE -> length d = Z.to_nat PGSIZE -> vpn x = vpn va ->
  splice d (Z.to_nat (va mod PGSIZE)) l !! Z.to_nat (x mod PGSIZE) = written va l x (d !! Z.to_nat (x mod PGSIZE)).
Proof.
  intros Hl Hd Hv. pose proof (Z.mod_pos_bound va PGSIZE ltac:(done)) as H1. pose proof (Z.mod_pos_bound x PGSIZE ltac:(done)) as H2.
  pose proof (Z.div_mod va PGSIZE ltac:(done)) as H3. pose proof (Z.div_mod x PGSIZE ltac:(done)) as H4. fold (vpn va) in H3. fold (vpn x) in H4.
  unfold written. rewrite Hv in H4. case_decide.
  - rewrite lookup_splice_in by lia. f_equal. lia.
  - rewrite lookup_splice_out by lia. done.
Qed.

Lemma written_split va l k x o : (k <= length l)%nat ->
  written (va + Z.of_nat k) (drop k l) x (written va (take k l) x o) = written va l x o.
Proof.
  intros Hk. unfold written. rewrite length_drop, length_take. repeat case_decide; try lia; try done.
  - rewrite lookup_drop. f_equal. lia.
  - rewrite lookup_take_lt by lia. done.
Qed.

Lemma wp_copyout_loop a fl rest n : forall s va l,
  mem_at s a fl rest -> bytes l -> 0 <= va -> va + Z.of_nat (length l) <= KERNBASE -> (length l < n)%nat ->
  (forall x, va <= x < va + Z.of_nat (length l) -> accessible a x) ->
  wp (copyout_loop n (P2V (dir a)) va l) s (fun r s' => r = 0 /\ mem_at s' a fl rest /\ only (frames a) s s' /\
    forall x, x < KERNBASE -> ubyte s' a x = written va l x (ubyte s a x)).
Proof.
  induction n as [|n IH]; intros s va l Hm Hb Hva Hend Hn Hacc; [lia|]. cbn [copyout_loop].
  destruct (Z.ltb_spec 0 (Z.of_nat (length l))) as [Hl|Hl].
  2: { apply wp_ret. destruct l; [|cbn in Hl; lia]. split_and!; try done. intros x Hx. unfold written. cbn. by rewrite decide_False by lia. }
  rewrite round_down. pose proof (Z.mod_pos_bound va PGSIZE ltac:(done)) as Hmb. pose proof (Z.div_mod va PGSIZE ltac:(done)) as Hdm.
  pose proof (Z.mod_le va PGSIZE ltac:(lia) ltac:(done)) as Hml. fold (vpn va) in Hdm. assert (Hv0 : vpn (va - va mod PGSIZE) = vpn va).
  { unfold vpn at 1. replace (va - va mod PGSIZE) with (vpn va * PGSIZE) by lia. by apply Z.div_mul. }
  destruct (Hacc va ltac:(lia)) as (e & He & HU). pose proof (vpn_user va ltac:(lia)) as Hvu.
  destruct (frame_page end_ end_above s a fl rest _ e Hm He Hvu) as (Hef & Hep & Her).
  destruct (ma_used _ _ _ _ _ Hm (PTE_ADDR e)) as [d Hd]; [apply elem_of_app; left; apply elem_of_app; by right|].
  destruct (hp_wf _ _ _ (ma_heap _ _ _ _ _ Hm) _ d Hd) as (_ & Hld & Hbd).
  apply wp_bind. eapply wp_mono; [apply (wp_uva2ka s a fl rest (va - va mod PGSIZE) e); [done|unfold KERNBASE in *; lia|by rewrite Hv0]|].
  intros r s1 [-> ->]. rewrite HU. unfold EXTMEM in Her.
  rewrite (proj2 (Z.eqb_neq _ 0)) by (rewrite P2V_page by lia; unfold KERNBASE; lia).
  replace (va - (va - va mod PGSIZE)) with (va mod PGSIZE) by lia.
  set (k := Z.to_nat (Z.min (PGSIZE - va mod PGSIZE) (Z.of_nat (length l)))).
  assert (Hk : Z.of_nat k = Z.min (PGSIZE - va mod PGSIZE) (Z.of_nat (length l))) by (unfold k; lia).
  assert (Hlt : length (take k l) = k) by (rewrite length_take; lia).
  set (d' := splice d (Z.to_nat (va mod PGSIZE)) (take k l)).
  assert (Hld' : length d' = Z.to_nat PGSIZE) by (unfold d'; rewrite splice_length; lia).
  assert (Hbd' : bytes d') by (apply splice_bytes; [done|by apply Forall_take]).
  apply wp_bind. unfold write_at. apply (wp_update_at end_ end_above _ s (PTE_ADDR e) (va mod PGSIZE) d d'); [done|done|done| |].
  { rewrite decide_True by lia. done. }
  destruct (mem_write s a fl rest (vpn va) e d d' Hm He Hvu Hd Hld' Hbd') as (Hm2 & O2 & Hub). set (s2 := with_pages s _) in *.
  assert (Hbyte : forall x, x < KERNBASE -> ubyte s2 a x = written va (take k l) x (ubyte s a x)).
  { intros x Hx. rewrite Hub by done. case_decide as Hv.
    - unfold d'. rewrite write_byte by (done || lia). f_equal. unfold ubyte. rewrite Hv, He. cbn. by rewrite Hd.
    - unfold written. rewrite decide_False; [done|]. rewrite Hlt. intros Hr. apply Hv.
      symmetry. apply (Z.div_unique _ _ _ (x - PGSIZE * vpn va)); lia. }
  assert (Hnext : (drop k l = [] /\ take k l = l) \/ u32 (va - va mod PGSIZE + PGSIZE) = va + Z.of_nat k).
  { destruct (decide (k < length l)%nat); [right; rewrite u32_small; unfold KERNBASE, PGSIZE in *; lia|left].
    split; [apply drop_ge; lia|apply take_ge; lia]. }
  assert (Hof : only (frames a) s s2).
  { apply (only_weaken _ _ _ _ O2). intros q ->%list_elem_of_singleton. done. }
  destruct Hnext as [[E1 E2]| ->].
  - rewrite E1. destruct n as [|n']; [lia|]. cbn [copyout_loop length]. change (0 <? Z.of_nat 0) with false. apply wp_ret.
    split_and!; try done. by rewrite E2 in Hbyte.
  - eapply wp_mono; [apply (IH s2 (va + Z.of_nat k) (drop k l) Hm2); rewrite ?length_drop; try lia; [by apply Forall_drop|]|].
    + intros x Hx. apply Hacc. lia.
    + intros r s3 (-> & Hm3 & O3 & Hub3). split; [done|]. split; [done|]. split.
      * apply (only_weaken _ _ _ _ (only_trans _ _ _ _ _ Hof O3)). intros q. rewrite elem_of_app. by intros [|].
      * intros x Hx. rewrite Hub3, Hbyte, written_split by (done || lia). done.
Qed.

(** [copyout] to addresses of user memory the program may use returns 0,
    writes exactly these bytes there, also across pages, and changes no other
    byte of the process and no page of anyone else. *)
Theorem copyout_writes s a fl rest va l :
  mem_at s a fl rest -> bytes l -> 0 <= va -> va + Z.of_nat (length l) <= KERNBASE ->
  (forall x, va <= x < va + Z.of_nat (length l) -> accessible a x) ->
  wp (copyout (P2V (dir a)) va l) s (fun r s' =>
    r = 0 /\ mem_at s' a fl rest /\ only (frames a) s s' /\
    forall x, x < KERNBASE -> ubyte s' a x =
      if decide (va <= x < va + Z.of_nat (length l)) then l !! Z.to_nat (x - va) else ubyte s a x).
Proof. intros Hm Hb Hva Hend Hacc. unfold copyout. apply wp_copyout_loop; try done. lia. Qed.
End move.
