(* ===== verification/Syscall.v ===== *)
(** * Arguments of system calls

    [kernel/syscall.c]: how the kernel reads the words, pointers and strings
    that a program passes on its stack, and the dispatch on the number of the
    call.  Proved: no argument makes the kernel fault, and a pointer is
    accepted exactly when its whole range is memory of the process. *)

From S2P Require Import Prelude CStr Mem Kalloc Vm VmSpace VmUser VmGrow.

(** A byte of the current process at a virtual address, as the processor
    finds it through the page directory; the kernel panics on a fault of its
    own. *)
Definition vbyte (pgdir va : Z) : M kmem Z :=
  let! pde := load_at 4 (pgdir + 4 * PDX va) in
  if negb (has PTE_P pde) then halt (Panicked "trap")
  else
    let! pte := load_at 4 (P2V (PTE_ADDR pde) + 4 * PTX va) in
    if negb (has PTE_P pte) then halt (Panicked "trap")
    else load_at 1 (P2V (PTE_ADDR pte) + va mod PGSIZE).

Fixpoint vbytes (pgdir va : Z) (n : nat) : M kmem (list Z) :=
  match n with
  | O => ret []
  | S n' =>
      let! b := vbyte pgdir va in
      let! l := vbytes pgdir (va + 1) n' in
      ret (b :: l)
  end.

Section syscall.
(** The fields [pgdir], [sz] and [tf->esp] of the current process. *)
Variables pgdir sz esp : Z.

(** The functions return [None] for the result -1. *)
Definition fetchint (addr : Z) : M kmem (option Z) :=
  if (sz <=? addr) || (sz <? u32 (addr + 4)) then ret None
  else
    let! l := vbytes pgdir addr 4 in
    ret (Some (s32 (le_value l))).

Fixpoint fetchstr_loop (n : nat) (addr s : Z) : M kmem (option (Z * Z)) :=
  match n with
  | O => ret None
  | S n' =>
      if s <? sz then
        let! c := vbyte pgdir s in
        if c =? 0 then ret (Some (addr, s - addr)) else fetchstr_loop n' addr (s + 1)
      else ret None
  end.

(** The pointer and the length of the string. *)
Definition fetchstr (addr : Z) : M kmem (option (Z * Z)) :=
  if sz <=? addr then ret None
  else fetchstr_loop (S (Z.to_nat (sz - addr))) addr addr.

Definition argint (n : Z) : M kmem (option Z) := fetchint (u32 (esp + 4 + 4 * n)).

Definition argptr (n size : Z) : M kmem (option Z) :=
  let! i := argint n in
  match i with
  | None => ret None
  | Some i =>
      if (size <? 0) || (sz <=? u32 i) || (sz <? u32 (u32 i + size)) then ret None
      else ret (Some (u32 i))
  end.

Definition argstr (n : Z) : M kmem (option (Z * Z)) :=
  let! addr := argint n in
  match addr with
  | None => ret None
  | Some addr => fetchstr (u32 addr)
  end.

(** The loop of [sys_exec] over the vector of arguments at [uargv], of which
    [n] entries of [argv] are left: pointers and lengths of the strings. *)
Fixpoint exec_args (n : nat) (uargv : Z) : M kmem (option (list (Z * Z))) :=
  match n with
  | O => ret None
  | S n' =>
      let! uarg := fetchint (u32 uargv) in
      match uarg with
      | None => ret None
      | Some uarg =>
          if u32 uarg =? 0 then ret (Some [])
          else
            let! r := fetchstr (u32 uarg) in
            match r with
            | None => ret None
            | Some p =>
                let! l := exec_args n' (uargv + 4) in
                ret (match l with Some l => Some (p :: l) | None => None end)
            end
      end
  end.

(** [MAXARG] *)
Definition nelem_argv : nat := 32.

(** [sys_exec] up to the call of [exec]: the path and the arguments. *)
Definition sys_exec_args : M kmem (option ((Z * Z) * list (Z * Z))) :=
  let! path := argstr 0 in
  match path with
  | None => ret None
  | Some path =>
      let! uargv := argint 1 in
      match uargv with
      | None => ret None
      | Some uargv =>
          let! l := exec_args nelem_argv (u32 uargv) in
          ret (match l with Some l => Some (path, l) | None => None end)
      end
  end.
End syscall.

(** The table of handlers has a hole at 0; a handler returns the value for
    [eax]. *)
Definition syscall {T : Type} (syscalls : list (option (M T Z))) (num : Z) : M T Z :=
  match (if (0 <? num) && (num <? Z.of_nat (length syscalls)) then mjoin (syscalls !! Z.to_nat num) else None) with
  | Some f => f
  | None => ret (-1)
  end.

Section args.
Variable end_ : Z.
Hypothesis end_above : KERNLINK <= end_.
Variables (s : kmem) (a : space) (fl rest : list Z) (sz : Z).
Hypothesis memory : mem_at end_ s a fl rest.
Hypothesis size : covers a sz.
Hypothesis sz_range : 0 <= sz < KERNBASE.

Abbreviation pgdir := (P2V (dir a)).

(** Every byte below the size is there. *)
Lemma ubyte_some va : 0 <= va < sz -> exists b, ubyte s a va = Some b /\ 0 <= b < 256.
Proof.
  intros Hva. pose proof (vpn_user va ltac:(lia)) as Hvu. pose proof (Z.mod_pos_bound va PGSIZE ltac:(done)) as Hmb.
  assert (Hv : 0 <= vpn va < npages sz).
  { split; [apply Z.div_pos; [lia|done]|]. unfold vpn, npages, PGSIZE. apply Z.div_lt_upper_bound; [lia|].
    pose proof (Z.div_mod (sz + 4096 - 1) 4096 ltac:(lia)). pose proof (Z.mod_pos_bound (sz + 4096 - 1) 4096 ltac:(lia)). lia. }
  destruct (proj2 (size _ Hvu) Hv) as [e He].
  destruct (frame_page end_ end_above s a fl rest _ e memory He Hvu) as (Hef & Hep & Her).
  destruct (ma_used _ _ _ _ _ memory (PTE_ADDR e)) as [d Hd]; [apply elem_of_app; left; apply elem_of_app; by right|].
  destruct (hp_wf _ _ _ (ma_heap _ _ _ _ _ memory) _ d Hd) as (_ & Hl & Hb).
  destruct (lookup_lt_is_Some_2 d (Z.to_nat (va mod PGSIZE))) as [b Hbv]; [lia|].
  exists b. unfold ubyte. rewrite He. cbn. rewrite Hd. cbn. split; [done|]. by apply (Forall_lookup_1 _ _ _ _ Hb Hbv).
Qed.

Lemma load_byte d o b : d !! o = Some b -> load 1 d o = Some b.
Proof.
  intros H. pose proof (lookup_lt_Some _ _ _ H). rewrite load_in by lia. rewrite (drop_S d b o H). cbn [take le_value]. rewrite take_0. cbn [le_value]. f_equal. lia.
Qed.

Lemma wp_vbyte va b : 0 <= va < KERNBASE -> ubyte s a va = Some b -> wp (vbyte pgdir va) s (fun r s' => r = b /\ s' = s).
Proof.
  intros Hva Hub. unfold ubyte in Hub. destruct (ptes a !! vpn va) as [e|] eqn:He; [|done]. cbn in Hub.
  destruct (pages s !! PTE_ADDR e) as [d|] eqn:Hd; [|done]. cbn in Hub.
  pose proof (ma_space _ _ _ _ _ memory) as Hs. pose proof (hp_wf _ _ _ (ma_heap _ _ _ _ _ memory)) as Hw.
  destruct (pdx_eq va) as [Hpdx Hi]; [unfold KERNBASE in *; lia|]. destruct (ptx_eq va) as [Hptx Hj].
  destruct (sa_pte _ _ Hs _ e He) as [t Ht]. destruct (entry_word s a (vpn va) t Hs Ht) as (dt & e' & Hdt & Hword & Hpe).
  rewrite He in Hpe. destruct (has PTE_P e') eqn:HP; [|done]. injection Hpe as <-.
  destruct (sa_dir _ _ Hs) as (dd & Hdd & Hde). destruct (Hde (PDX va) Hi) as (pde & Hpw & Hpde). rewrite Hpdx, Ht in Hpde.
  destruct Hpde as [HP' HA]. unfold vbyte.
  apply wp_bind, (wp_load_word end_ end_above s (dir a) dd (PDX va) pde); [done..|]. rewrite HP'. simpl negb. cbv iota. rewrite HA.
  apply wp_bind, (wp_load_word end_ end_above s t dt (PTX va) e); [done|done|done|by rewrite Hptx|]. rewrite HP. simpl negb. cbv iota.
  apply (wp_load_at end_ end_above 1 s (PTE_ADDR e) (va mod PGSIZE) d b); [by apply (Hw _ d)|by apply Z.mod_pos_bound|done|by apply load_byte|done].
Qed.

(** The bytes of user memory from [va] on. *)
Fixpoint ubytes (va : Z) (n : nat) : list Z :=
  match n with
  | O => []
  | S n' => default 0 (ubyte s a va) :: ubytes (va + 1) n'
  end.

Lemma wp_vbytes n : forall va, 0 <= va -> va + Z.of_nat n <= sz -> wp (vbytes pgdir va n) s (fun l s' => l = ubytes va n /\ s' = s).
Proof.
  induction n as [|n IH]; intros va H0 Hn; cbn [vbytes ubytes]; [by apply wp_ret|].
  destruct (ubyte_some va ltac:(lia)) as (b & Hb & _). apply wp_bind.
  eapply wp_mono; [apply (wp_vbyte va b); [lia|done]|]. intros r s1 [-> ->]. apply wp_bind.
  eapply wp_mono; [apply (IH (va + 1)); lia|]. intros l s1 [-> ->]. apply wp_ret. by rewrite Hb.
Qed.

(** The word at an address. *)
Definition uword (va : Z) : Z := s32 (le_value (ubytes va 4)).

Lemma wp_fetchint addr : 0 <= addr < 2 ^ 32 ->
  wp (fetchint pgdir sz addr) s (fun r s' => s' = s /\ r = if decide (addr + 4 <= sz) then Some (uword addr) else None).
Proof.
  intros Ha. unfold fetchint. unfold KERNBASE in sz_range. destruct (Z.leb_spec sz addr) as [H|H]; cbn [orb].
  - apply wp_ret. rewrite decide_False by lia. done.
  - rewrite u32_small by lia. destruct (Z.ltb_spec sz (addr + 4)) as [H'|H'].
    + apply wp_ret. rewrite decide_False by lia. done.
    + apply wp_bind. eapply wp_mono; [apply (wp_vbytes 4 addr); lia|]. intros l s1 [-> ->]. apply wp_ret.
      by rewrite decide_True by lia.
Qed.

(** [len] characters and a terminator at [p], inside the process. *)
Definition string_at (p len : Z) : Prop :=
  0 <= len /\ p + len < sz /\ ubyte s a (p + len) = Some 0 /\
  forall i, 0 <= i < len -> ubyte s a (p + i) <> Some 0.

Lemma wp_fetchstr_loop addr n : forall p, 0 <= addr <= p -> sz - p < Z.of_nat n ->
  (forall i, addr <= i < p -> ubyte s a i <> Some 0) ->
  wp (fetchstr_loop pgdir sz n addr p) s (fun r s' => s' = s /\
    match r with
    | Some (q, len) => q = addr /\ string_at addr len
    | None => forall i, addr <= i < sz -> ubyte s a i <> Some 0
    end).
Proof.
  induction n as [|n IH]; intros p Hp Hn Hz; cbn [fetchstr_loop].
  { apply wp_ret. split; [done|]. intros i Hi. apply Hz. lia. }
  destruct (Z.ltb_spec p sz) as [Hs|Hs]; [|apply wp_ret; split; [done|]; intros i Hi; apply Hz; lia].
  destruct (ubyte_some p ltac:(lia)) as (b & Hb & Hr). apply wp_bind.
  eapply wp_mono; [apply (wp_vbyte p b); [lia|done]|]. intros r s1 [-> ->]. destruct (Z.eqb_spec b 0) as [->|Hne].
  - apply wp_ret. split; [done|]. split; [done|]. unfold string_at. replace (addr + (p - addr)) with p by lia.
    split_and!; [lia|lia|done|]. intros i Hi. apply Hz. lia.
  - apply (IH (p + 1)); [lia|lia|]. intros i Hi. destruct (decide (i = p)) as [->|]; [congruence|apply Hz; lia].
Qed.

(** C17. [argptr] never faults, and accepts a pointer exactly when the word that
    holds it and all the bytes of its range are memory of the process; the
    unsigned addition in its test cannot wrap around. *)
Theorem argptr_checks esp n size_ :
  0 <= esp < 2 ^ 32 -> - 2 ^ 31 <= size_ < 2 ^ 31 ->
  let w := u32 (esp + 4 + 4 * n) in
  wp (argptr pgdir sz esp n size_) s (fun r s' => s' = s /\
    r = if decide (w + 4 <= sz /\ 0 <= size_ /\ u32 (uword w) < sz /\ u32 (uword w) + size_ <= sz)
        then Some (u32 (uword w)) else None).
Proof.
  intros He Hsz w. unfold argptr, argint. apply wp_bind. fold w. unfold KERNBASE in sz_range.
  eapply wp_mono; [apply (wp_fetchint w), u32_bounds|]. intros r s1 [-> ->]. case_decide as Hw.
  2: { apply wp_ret. rewrite decide_False by tauto. done. }
  pose proof (u32_bounds (uword w)) as Hu. destruct (Z.ltb_spec size_ 0) as [H1|H1]; cbn [orb].
  { apply wp_ret. rewrite decide_False by lia. done. }
  destruct (Z.leb_spec sz (u32 (uword w))) as [H2|H2]; cbn [orb].
  { apply wp_ret. rewrite decide_False by lia. done. }
  rewrite (u32_small (u32 (uword w) + size_)) by lia. destruct (Z.ltb_spec sz (u32 (uword w) + size_)) as [H3|H3]; apply wp_ret.
  - rewrite decide_False by lia. done.
  - rewrite decide_True by lia. done.
Qed.

(** [argstr] never faults; it returns a pointer and a length exactly when
    the argument points to a string that ends inside the process, and the
    length is that of the string. *)
Theorem argstr_checks esp n :
  0 <= esp < 2 ^ 32 ->
  let w := u32 (esp + 4 + 4 * n) in
  wp (argstr pgdir sz esp n) s (fun r s' => s' = s /\
    match r with
    | Some (p, len) => w + 4 <= sz /\ p = u32 (uword w) /\ string_at p len
    | None => sz < w + 4 \/ forall i, u32 (uword w) <= i < sz -> ubyte s a i <> Some 0
    end).
Proof.
  intros He w. unfold argstr, argint. apply wp_bind. fold w.
  eapply wp_mono; [apply (wp_fetchint w), u32_bounds|]. intros r s1 [-> ->]. case_decide as Hw.
  2: { apply wp_ret. split; [done|]. left. lia. }
  pose proof (u32_bounds (uword w)) as Hu. unfold fetchstr. destruct (Z.leb_spec sz (u32 (uword w))) as [H1|H1].
  { apply wp_ret. split; [done|]. right. lia. }
  eapply wp_mono; [apply (wp_fetchstr_loop (u32 (uword w))); [lia|lia|lia]|]. intros r s1 [-> Hr].
  split; [done|]. destruct r as [[p len]|]; [|by right]. destruct Hr as [-> Hst]. by split_and!.
Qed.

Lemma wp_fetchstr addr : 0 <= addr -> wp (fetchstr pgdir sz addr) s (fun r s' => s' = s /\
  match r with Some (q, len) => q = addr /\ string_at addr len | None => forall len, ~ string_at addr len end).
Proof.
  intros Ha. unfold fetchstr. destruct (Z.leb_spec sz addr) as [H1|H1].
  { apply wp_ret. split; [done|]. intros len (H & H' & _). lia. }
  eapply wp_mono; [apply (wp_fetchstr_loop addr); [lia|lia|lia]|]. intros r s1 [-> Hr]. split; [done|]. destruct r as [[q len]|]; [done|].
  intros len (H2 & H3 & H4 & _). by apply (Hr (addr + len)); [lia|].
Qed.

(** A vector of pointers to strings with a null pointer behind it, of at most
    [n] words, all inside the process. *)
Fixpoint vector_at (n : nat) (v : Z) (l : list (Z * Z)) : Prop :=
  match n with
  | O => False
  | S n' =>
      u32 v + 4 <= sz /\
      let w := u32 (uword (u32 v)) in
      match l with
      | [] => w = 0
      | (p, len) :: l' => w <> 0 /\ p = w /\ string_at w len /\ vector_at n' (v + 4) l'
      end
  end.

Lemma wp_exec_args n : forall v, wp (exec_args pgdir sz n v) s (fun r s' => s' = s /\
  match r with Some l => vector_at n v l | None => forall l, ~ vector_at n v l end).
Proof.
  induction n as [|n IH]; intros v; cbn [exec_args vector_at]; [apply wp_ret; split; [done|]; tauto|]. apply wp_bind.
  eapply wp_mono; [apply (wp_fetchint (u32 v)), u32_bounds|]. intros r s1 [-> ->]. case_decide as Hv.
  2: { apply wp_ret. split; [done|]. intros l [H _]. done. }
  set (w := uword (u32 v)). destruct (Z.eqb_spec (u32 w) 0) as [Hw|Hw]; [apply wp_ret; done|]. apply wp_bind.
  eapply wp_mono; [apply (wp_fetchstr (u32 w)); apply u32_bounds|]. intros r s1 [-> Hr]. destruct r as [[q len]|].
  2: { apply wp_ret. split; [done|]. intros [|[p len] l]; [tauto|]. intros (_ & _ & _ & H & _). by apply Hr in H. }
  destruct Hr as [-> Hs]. apply wp_bind. eapply wp_mono; [apply (IH (v + 4))|]. intros r s1 [-> Hl]. apply wp_ret. split; [done|].
  destruct r as [l|]; [done|]. intros [|[p len'] l]; [tauto|]. intros (_ & _ & _ & _ & H). by apply Hl in H.
Qed.

(** [sys_exec] never faults on its arguments, and reaches [exec] exactly when
    the path is a string of the process and the vector has fewer than 32
    pointers to such strings and then a null pointer; it passes on the
    strings that are there. *)
Theorem sys_exec_checks esp : 0 <= esp < 2 ^ 32 ->
  let w0 := u32 (esp + 4 + 4 * 0) in let w1 := u32 (esp + 4 + 4 * 1) in
  wp (sys_exec_args pgdir sz esp) s (fun r s' => s' = s /\
    match r with
    | Some ((p, len), l) => w0 + 4 <= sz /\ p = u32 (uword w0) /\ string_at p len /\ w1 + 4 <= sz /\ vector_at nelem_argv (u32 (uword w1)) l
    | None => ~ (w0 + 4 <= sz /\ w1 + 4 <= sz /\ exists len l, string_at (u32 (uword w0)) len /\ vector_at nelem_argv (u32 (uword w1)) l)
    end).
Proof.
  intros He w0 w1. unfold sys_exec_args, argstr, argint. fold w0 w1. apply wp_bind, wp_bind.
  eapply wp_mono; [apply (wp_fetchint w0), u32_bounds|]. intros r s1 [-> ->]. case_decide as Hw0.
  2: { apply wp_ret, wp_ret. split; [done|]. tauto. }
  eapply wp_mono; [apply (wp_fetchstr (u32 (uword w0))); apply u32_bounds|]. intros r s1 [-> Hr]. destruct r as [[p len]|].
  2: { apply wp_ret. split; [done|]. intros (_ & _ & len & l & H & _). by apply Hr in H. }
  destruct Hr as [-> Hs]. apply wp_bind. eapply wp_mono; [apply (wp_fetchint w1), u32_bounds|]. intros r s1 [-> ->]. case_decide as Hw1.
  2: { apply wp_ret. split; [done|]. tauto. }
  apply wp_bind. eapply wp_mono; [apply (wp_exec_args nelem_argv)|]. intros r s1 [-> Hl]. apply wp_ret. split; [done|].
  destruct r as [l|]; [done|]. intros (_ & _ & len' & l & _ & H). by apply Hl in H.
Qed.
End args.
