(* ===== verification/Exec.v ===== *)
(** * Program loading

    [kernel/exec.c] and [loaduvm] of [kernel/vm.c]: a program is read from an
    ELF file into a new address space, and its arguments are laid out on its
    first stack.  Proved: the stack that [exec] builds is the one that [main]
    of a program expects, with every argument in place. *)

From S2P Require Import Prelude CStr Mem BufIface Kalloc Vm VmSpace VmUser VmGrow VmMove Txn Fs.

Definition MAXARG : nat := 32.
Definition ELF_MAGIC : Z := 0x464C457F.
Definition ELF_PROG_LOAD : Z := 1.
Definition ELFHDRSZ : nat := 52.
Definition PROGHDRSZ : nat := 32.

(** The fields of the ELF headers that are used. *)
Record elfhdr : Type := { e_magic : Z; e_entry : Z; e_phoff : Z; e_phnum : Z }.

Definition elfhdr_of (d : list Z) : option elfhdr :=
  magic ← load 4 d 0; entry ← load 4 d 24; phoff ← load 4 d 28; phnum ← load 2 d 44;
  Some {| e_magic := magic; e_entry := entry; e_phoff := phoff; e_phnum := phnum |}.

Record proghdr : Type := { ph_type : Z; ph_off : Z; ph_vaddr : Z; ph_filesz : Z; ph_memsz : Z }.

Definition proghdr_of (d : list Z) : option proghdr :=
  type ← load 4 d 0; off ← load 4 d 4; vaddr ← load 4 d 8; filesz ← load 4 d 16; memsz ← load 4 d 20;
  Some {| ph_type := type; ph_off := off; ph_vaddr := vaddr; ph_filesz := filesz; ph_memsz := memsz |}.

(** What the current process runs. *)
Record image : Type := { im_pgdir : Z; im_sz : Z; im_eip : Z; im_esp : Z; im_name : list Z }.

(** ** The stack of a new program *)

(** Strings are pushed from the last address of the stack down; the result is
    the stack pointer and the address of each string. *)
Fixpoint push_args (pgdir : Z) (argv : list (list Z)) (argc : nat) (sp : Z) : M kmem (option (Z * list Z)) :=
  match argv with
  | [] => ret (Some (sp, []))
  | arg :: argv' =>
      if decide (MAXARG <= argc)%nat then ret None
      else
        let sp := Z.land (u32 (sp - (Z.of_nat (length arg) + 1))) (Z.lnot 3) in
        let! r := copyout pgdir sp (arg ++ [0]) in
        if r <? 0 then ret None
        else
          let! q := push_args pgdir argv' (S argc) sp in
          ret (match q with Some (sp', ptrs) => Some (sp', sp :: ptrs) | None => None end)
  end.

Definition words (l : list Z) : list Z := l ≫= le_bytes 4.

(** The array [ustack] and the final stack pointer. *)
Definition exec_args (pgdir sz : Z) (argv : list (list Z)) : M kmem (option Z) :=
  let! q := push_args pgdir argv 0 sz in
  match q with
  | None => ret None
  | Some (sp, ptrs) =>
      let argc := Z.of_nat (length ptrs) in
      let ustack := [0xffffffff; argc; u32 (sp - (argc + 1) * 4)] ++ ptrs ++ [0] in
      let sp := u32 (sp - (3 + argc + 1) * 4) in
      let! r := copyout pgdir sp (words ustack) in
      ret (if r <? 0 then None else Some sp)
  end.

(** The part of the path after the last slash. *)
Fixpoint after_slash (last : list Z) (s : list Z) : list Z :=
  match s with
  | [] => last
  | c :: s' => if c =? 0 then last else after_slash (if c =? 47 then s' else last) s'
  end.

Section exec.
Context {T : Type} `{TxnOps T}.
Variable devsw : list (driver (T := T)).
Variables data end_ : Z.

Record xstate : Type := { x_fs : fs T; x_mem : kmem; x_cur : image }.

Definition xfs {A} (m : M (fs T) A) : M xstate A := fun s =>
  match m (x_fs s) with
  | Ret a f => Ret a {| x_fs := f; x_mem := x_mem s; x_cur := x_cur s |}
  | Stop r f => Stop r {| x_fs := f; x_mem := x_mem s; x_cur := x_cur s |}
  end.

Definition xmem {A} (m : M kmem A) : M xstate A := fun s =>
  match m (x_mem s) with
  | Ret a k => Ret a {| x_fs := x_fs s; x_mem := k; x_cur := x_cur s |}
  | Stop r k => Stop r {| x_fs := x_fs s; x_mem := k; x_cur := x_cur s |}
  end.

(** [readi] of exactly [n] bytes; [None] otherwise. *)
Definition read_exact (i : nat) (off : Z) (n : nat) : M xstate (option (list Z)) :=
  let! r := xfs (readi devsw i off (Z.of_nat n)) in
  ret (match r with Some l => if decide (length l = n) then Some l else None | None => None end).

Fixpoint loaduvm_loop (n : nat) (pgdir addr : Z) (i : nat) (offset k sz : Z) : M xstate Z :=
  match n with
  | O => halt Undefined
  | S n' =>
      if k <? sz then
        let! pte := xmem (walkpgdir pgdir (u32 (addr + k)) false) in
        if pte =? 0 then halt (Panicked "loaduvm: address should exist")
        else
          let! e := xmem (load_at 4 pte) in
          let m := if u32 (sz - k) <? PGSIZE then u32 (sz - k) else PGSIZE in
          let! r := read_exact i (u32 (offset + k)) (Z.to_nat m) in
          match r with
          | None => ret (-1)
          | Some l =>
              xmem (write_at (P2V (PTE_ADDR e)) l) then!
              loaduvm_loop n' pgdir addr i offset (u32 (k + PGSIZE)) sz
          end
      else ret 0
  end.

Definition loaduvm (pgdir addr : Z) (i : nat) (offset sz : Z) : M xstate Z :=
  if negb (addr mod PGSIZE =? 0) then halt (Panicked "loaduvm: addr must be page aligned")
  else loaduvm_loop (Z.to_nat (sz / PGSIZE + 2)) pgdir addr i offset 0 sz.

(** The program headers; [None] is [goto bad], and the result is the size. *)
Fixpoint exec_load (n : nat) (i : nat) (off pgdir sz : Z) : M xstate (option Z) :=
  match n with
  | O => ret (Some sz)
  | S n' =>
      let! r := read_exact i off PROGHDRSZ in
      match r with
      | None => ret None
      | Some d =>
          let! ph := lift (proghdr_of d) in
          if negb (ph_type ph =? ELF_PROG_LOAD) then exec_load n' i (u32 (off + Z.of_nat PROGHDRSZ)) pgdir sz
          else if ph_memsz ph <? ph_filesz ph then ret None
          else if u32 (ph_vaddr ph + ph_memsz ph) <? ph_vaddr ph then ret None
          else
            let! sz := xmem (allocuvm end_ pgdir sz (u32 (ph_vaddr ph + ph_memsz ph))) in
            if sz =? 0 then ret None
            else if negb (ph_vaddr ph mod PGSIZE =? 0) then ret None
            else
              let! r := loaduvm pgdir (ph_vaddr ph) i (ph_off ph) (ph_filesz ph) in
              if r <? 0 then ret None
              else exec_load n' i (u32 (off + Z.of_nat PROGHDRSZ)) pgdir sz
      end
  end.

(** The label [bad]. *)
Definition exec_bad (pgdir : Z) (ip : option nat) : M xstate Z :=
  (if pgdir =? 0 then ret tt else xmem (freevm end_ pgdir)) then!
  match ip with
  | Some i => xfs (iunlockput i) then! xfs (ontx tx_end_op) then! ret (-1)
  | None => ret (-1)
  end.

Definition exec (cwd : nat) (path : list Z) (argv : list (list Z)) : M xstate Z :=
  xfs (ontx tx_begin_op) then!
  let! r := xfs (namei devsw cwd path) in
  match r with
  | None => xfs (ontx tx_end_op) then! ret (-1)
  | Some i =>
      xfs (ilock i) then!
      let! h := read_exact i 0 ELFHDRSZ in
      match h with
      | None => exec_bad 0 (Some i)
      | Some d =>
          let! elf := lift (elfhdr_of d) in
          if negb (e_magic elf =? ELF_MAGIC) then exec_bad 0 (Some i)
          else
            let! pgdir := xmem (setupkvm data end_) in
            if pgdir =? 0 then exec_bad 0 (Some i)
            else
              let! r := exec_load (Z.to_nat (e_phnum elf)) i (e_phoff elf) pgdir 0 in
              match r with
              | None => exec_bad pgdir (Some i)
              | Some sz =>
                  xfs (iunlockput i) then!
                  xfs (ontx tx_end_op) then!
                  let sz := PGROUNDUP sz in
                  let! sz := xmem (allocuvm end_ pgdir sz (u32 (sz + 2 * PGSIZE))) in
                  if sz =? 0 then exec_bad pgdir None
                  else
                    xmem (clearpteu pgdir (u32 (sz - 2 * PGSIZE))) then!
                    let! q := xmem (exec_args pgdir sz argv) in
                    match q with
                    | None => exec_bad pgdir None
                    | Some sp =>
                        let! cur := gets x_cur in
                        let! name := lift (safestrcpy (im_name cur) 0 (after_slash path path) 16) in
                        modify (fun s => {| x_fs := x_fs s; x_mem := x_mem s;
                          x_cur := {| im_pgdir := pgdir; im_sz := sz; im_eip := e_entry elf; im_esp := sp; im_name := name |} |}) then!
                        xmem (freevm end_ (im_pgdir cur)) then!
                        ret 0
                    end
              end
      end
  end.
End exec.

(** ** What [main] finds on its stack *)

Section stack.
Variable end_ : Z.
Hypothesis end_above : KERNLINK <= end_.
Variables (b : space) (fl rest : list Z).

Abbreviation mem_at := (mem_at end_).

(** The argument at [p], with its terminator. *)
Definition ustring (s : kmem) (p : Z) (arg : list Z) : Prop :=
  forall j, (j < length arg + 1)%nat -> ubyte s b (p + Z.of_nat j) = (arg ++ [0]) !! j.

(** The word [x] at [va]. *)
Definition word_at (s : kmem) (va x : Z) : Prop :=
  forall j, (j < 4)%nat -> ubyte s b (va + Z.of_nat j) = le_bytes 4 x !! j.

(** The room the strings take, alignment included. *)
Definition args_size (argv : list (list Z)) : Z := foldr (fun arg n => Z.of_nat (length arg) + 4 + n) 0 argv.

Lemma args_size_pos argv : 0 <= args_size argv.
Proof. unfold args_size. induction argv as [|arg argv IH]; cbn; lia. Qed.

Lemma land_not3 x : Z.land x (Z.lnot 3) = x - x mod 4.
Proof.
  change 3 with (Z.ones 2). rewrite <- Z.ldiff_land, Z.ldiff_ones_r, Z.shiftl_mul_pow2, Z.shiftr_div_pow2 by lia.
  change (2 ^ 2) with 4. pose proof (Z.div_mod x 4). lia.
Qed.

(** Memory in which only the bytes from [lo] up to [hi] have changed. *)
Definition same_outside (lo hi : Z) (s s' : kmem) : Prop :=
  forall x, x < KERNBASE -> ~ lo <= x < hi -> ubyte s' b x = ubyte s b x.

Lemma wp_copy s va l :
  mem_at s b fl rest -> bytes l -> 0 <= va -> va + Z.of_nat (length l) <= KERNBASE ->
  (forall x, va <= x < va + Z.of_nat (length l) -> accessible b x) ->
  wp (copyout (P2V (dir b)) va l) s (fun r s' => r = 0 /\ mem_at s' b fl rest /\
    same_outside va (va + Z.of_nat (length l)) s s' /\
    forall j, (j < length l)%nat -> ubyte s' b (va + Z.of_nat j) = l !! j).
Proof.
  intros Hm Hb H0 He Ha. unfold copyout.
  eapply wp_mono; [apply (wp_copyout_loop end_ end_above b fl rest (length l + 1) s va l); try done; lia|].
  intros r s' (-> & Hm' & _ & Hw). split; [done|]. split; [done|]. split.
  - intros x Hx Hn. rewrite Hw by done. unfold written. by rewrite decide_False.
  - intros j Hj. rewrite Hw by (unfold KERNBASE in *; lia). unfold written. rewrite decide_True by lia. f_equal. lia.
Qed.

Lemma wp_push_args argv : forall argc sp s,
  mem_at s b fl rest -> Forall bytes argv -> (argc + length argv <= MAXARG)%nat ->
  0 <= sp - args_size argv -> sp <= KERNBASE ->
  (forall x, sp - args_size argv <= x < sp -> accessible b x) ->
  wp (push_args (P2V (dir b)) argv argc sp) s (fun q s' => exists sp' ptrs,
    q = Some (sp', ptrs) /\ mem_at s' b fl rest /\ sp - args_size argv <= sp' <= sp /\
    (sp mod 4 = 0 -> sp' mod 4 = 0) /\ same_outside sp' sp s s' /\
    Forall2 (fun p arg => sp' <= p < 2 ^ 32 /\ p + Z.of_nat (length arg) + 1 <= sp /\ ustring s' p arg) ptrs argv).
Proof.
  induction argv as [|arg argv IH]; intros argc sp s Hm Hb Hc H0 Hk Ha; cbn [push_args].
  { apply wp_ret. exists sp, []. split_and!; try done; cbn; lia. }
  apply Forall_cons_iff in Hb as [Hb1 Hb2]. cbn [args_size foldr length] in *. fold (args_size argv) in *.
  pose proof (args_size_pos argv) as Hpos. rewrite decide_False by (unfold MAXARG in *; lia). unfold KERNBASE in Hk.
  rewrite u32_small, land_not3 by lia. set (q := sp - (Z.of_nat (length arg) + 1)). pose proof (Z.mod_pos_bound q 4 ltac:(lia)) as Hq.
  assert (Hl : Z.of_nat (length (arg ++ [0])) = Z.of_nat (length arg) + 1) by (rewrite length_app; cbn; lia).
  apply wp_bind. eapply wp_mono; [apply (wp_copy s (q - q mod 4) (arg ++ [0]) Hm)|].
  { apply Forall_app. split; [done|]. by apply Forall_singleton. }
  { lia. }
  { unfold KERNBASE. lia. }
  { intros x Hx. apply Ha. lia. }
  intros r s1 (-> & Hm1 & Hout1 & Hstr). change (0 <? 0) with false. cbn iota. apply wp_bind.
  eapply wp_mono; [apply (IH (S argc) (q - q mod 4) s1 Hm1 Hb2); [lia|lia|unfold KERNBASE; lia|intros x Hx; apply Ha; lia]|].
  intros r s2 (sp' & ptrs & -> & Hm2 & Hr & Hal & Hout2 & HF). apply wp_ret. exists sp', (q - q mod 4 :: ptrs).
  split; [done|]. split; [done|]. split; [lia|]. split.
  { intros _. apply Hal. rewrite Zminus_mod_idemp_r. rewrite Z.sub_diag. done. }
  assert (Hlast : forall j, (j < length arg + 1)%nat -> ubyte s2 b (q - q mod 4 + Z.of_nat j) = (arg ++ [0]) !! j).
  { intros j Hj. rewrite Hout2 by (unfold KERNBASE; lia). apply Hstr. rewrite length_app. cbn. lia. }
  split; [|apply Forall2_cons_2; [split_and!; [lia..|done]|]].
  - intros x Hx Hn. rewrite Hout2 by (done || lia). apply Hout1; [done|lia].
  - eapply list.Forall2_impl; [exact HF|]. intros p a1 (H1 & H2 & H3). split_and!; [lia|lia|lia|done].
Qed.

Lemma words_app l k : words (l ++ k) = words l ++ words k.
Proof. apply bind_app. Qed.

Lemma ptr_words_length l : length (words l) = (4 * length l)%nat.
Proof.
  induction l as [|x l IH]; [done|]. change (words (x :: l)) with (le_bytes 4 x ++ words l).
  rewrite length_app, le_bytes_length, IH. cbn. lia.
Qed.

Lemma words_bytes l : bytes (words l).
Proof. induction l as [|x l IH]; [constructor|]. change (words (x :: l)) with (le_bytes 4 x ++ words l). apply Forall_app. split; [apply le_bytes_bytes|done]. Qed.

(** The [i]th word of an array that was copied out. *)
Lemma words_at s va l i x :
  (forall j, (j < length (words l))%nat -> ubyte s b (va + Z.of_nat j) = words l !! j) ->
  l !! i = Some x -> word_at s (va + 4 * Z.of_nat i) x.
Proof.
  intros Hw Hi j Hj. pose proof (lookup_lt_Some _ _ _ Hi) as Hlt.
  replace (va + 4 * Z.of_nat i + Z.of_nat j) with (va + Z.of_nat (4 * i + j)) by lia.
  rewrite Hw by (rewrite ptr_words_length; lia). rewrite <- (take_drop_middle l i x Hi) at 1.
  rewrite words_app. rewrite lookup_app_r by (rewrite ptr_words_length, length_take; lia).
  rewrite ptr_words_length, length_take. replace (4 * i + j - 4 * (i `min` length l))%nat with j by lia.
  change (words (x :: ?k)) with (le_bytes 4 x ++ words k). apply lookup_app_l. by rewrite le_bytes_length.
Qed.

(** C16. When the arguments fit in the stack page below [sz], [exec] leaves on
    it what [main(argc, argv)] of the program expects: at the stack pointer a
    return address, [argc], and [argv], which points to an array of [argc]
    pointers and a null pointer; each pointer is the address of its argument,
    terminated, and the stack pointer is a multiple of 4. *)
Theorem exec_stack s sz argv :
  mem_at s b fl rest -> sz mod PGSIZE = 0 -> PGSIZE <= sz <= KERNBASE ->
  (forall x, sz - PGSIZE <= x < sz -> accessible b x) ->
  Forall bytes argv -> (length argv <= MAXARG)%nat ->
  args_size argv + 4 * (Z.of_nat (length argv) + 4) <= PGSIZE ->
  wp (exec_args (P2V (dir b)) sz argv) s (fun q s' => exists sp ptrs,
    q = Some sp /\ mem_at s' b fl rest /\ sz - PGSIZE <= sp /\ sp mod 4 = 0 /\
    word_at s' sp 0xffffffff /\ word_at s' (sp + 4) (Z.of_nat (length argv)) /\ word_at s' (sp + 8) (sp + 12) /\
    (forall i p, ptrs !! i = Some p -> word_at s' (sp + 12 + 4 * Z.of_nat i) p) /\
    word_at s' (sp + 12 + 4 * Z.of_nat (length argv)) 0 /\
    Forall2 (ustring s') ptrs argv).
Proof.
  intros Hm Hal Hsz Ha Hb Hn Hfit. unfold exec_args. pose proof (args_size_pos argv) as Hpos. unfold PGSIZE, KERNBASE in *.
  apply wp_bind. eapply wp_mono; [apply (wp_push_args argv 0 sz s Hm Hb); [lia|lia|unfold KERNBASE; lia|intros x Hx; apply Ha; lia]|].
  intros q s1 (sp & ptrs & -> & Hm1 & Hr & Hsp & Hout1 & HF).
  assert (Hsp4 : sp mod 4 = 0).
  { apply Hsp. apply Z.mod_divide in Hal as [k ->]; [|done]. replace (k * 4096) with (k * 1024 * 4) by lia. by apply Z.mod_mul. }
  pose proof (Forall2_length HF) as Hlen. rewrite Hlen. set (n := Z.of_nat (length argv)) in *.
  rewrite (u32_small (sp - (3 + n + 1) * 4)), (u32_small (sp - (n + 1) * 4)) by lia. set (sp' := sp - (3 + n + 1) * 4).
  set (u := [4294967295; n; sp - (n + 1) * 4] ++ ptrs ++ [0]).
  assert (Hu : Z.of_nat (length (words u)) = 4 * (n + 4)) by (rewrite ptr_words_length; unfold u; rewrite !length_app; cbn [length]; lia).
  apply wp_bind. eapply wp_mono; [apply (wp_copy s1 sp' (words u) Hm1 (words_bytes u)); [unfold sp'; lia|unfold sp', KERNBASE; lia|]|].
  { intros x Hx. apply Ha. unfold sp' in *. lia. }
  intros r s2 (-> & Hm2 & Hout2 & Hw). apply wp_ret. change (0 <? 0) with false. cbn iota. exists sp', ptrs.
  assert (Hword : forall i x, u !! i = Some x -> word_at s2 (sp' + 4 * Z.of_nat i) x) by (intros i x; by apply words_at).
  split_and!; try done; [unfold sp'; lia| | | | | | |].
  - unfold sp'. rewrite <- Zminus_mod_idemp_r, Z.mod_mul, Z.sub_0_r by lia. done.
  - rewrite <- (Z.add_0_r sp'). by apply (Hword 0%nat).
  - by apply (Hword 1%nat).
  - replace (sp' + 12) with (sp - (n + 1) * 4) by (unfold sp'; lia). by apply (Hword 2%nat).
  - intros i p Hi. replace (sp' + 12 + 4 * Z.of_nat i) with (sp' + 4 * Z.of_nat (3 + i)) by lia. apply Hword.
    unfold u. rewrite lookup_app_r by (cbn; lia). cbn [length]. replace (3 + i - 3)%nat with i by lia.
    rewrite lookup_app_l by (by apply lookup_lt_Some in Hi). done.
  - replace (sp' + 12 + 4 * n) with (sp' + 4 * Z.of_nat (3 + length ptrs)) by lia. apply Hword.
    unfold u. rewrite lookup_app_r by (cbn; lia). cbn [length]. replace (3 + length ptrs - 3)%nat with (length ptrs) by lia.
    by rewrite lookup_app_r, Nat.sub_diag.
  - eapply list.Forall2_impl; [exact HF|]. intros p a1 (H1 & H2 & H3) j Hj. rewrite Hout2; [by apply H3|unfold KERNBASE; lia|unfold sp' in *; lia].
Qed.
End stack.
