(* ===== verification/VmDemo.v ===== *)
(** * Memory of a small machine

    A kernel image of two megabytes and a thousand free pages, a first
    address space on it, and a process of two pages: the theorems on memory
    applied to them. *)

From S2P Require Import Prelude CStr Mem Kalloc Vm VmSpace VmUser VmGrow VmCopy VmMove Syscall Exec.

Definition demo_end : Z := 0x80200000.
Definition demo_data : Z := 0x80180000.
Definition demo_base : Z := 0x200000.
Definition demo_count : nat := 1000.

Lemma demo_end_above : KERNLINK <= demo_end.
Proof. done. Qed.
Lemma demo_data_aligned : demo_data mod PGSIZE = 0.
Proof. done. Qed.
Lemma demo_data_range : KERNLINK < demo_data < KERNBASE + PHYSTOP.
Proof. done. Qed.

(** Memory as it is when the machine starts: zeroed, no free list. *)
Definition zeroed (l : list Z) : kmem :=
  {| pages := gset_to_gmap zero_page (list_to_set l); use_lock := 0; freelist := 0 |}.

Lemma zeroed_page l p : p ∈ l -> pages (zeroed l) !! p = Some zero_page.
Proof. intros H. apply lookup_gset_to_gmap_Some. split; [by apply elem_of_list_to_set|done]. Qed.

Lemma zeroed_wf end_ l : Forall (heap_page end_) l -> pages_wf end_ (pages (zeroed l)).
Proof.
  intros H p d [Hp <-]%lookup_gset_to_gmap_Some. apply elem_of_list_to_set in Hp.
  split; [by apply (list.Forall_forall _ l)|apply zero_page_ok].
Qed.

Lemma run_heap_pages end_ q k : q mod PGSIZE = 0 -> end_ <= q + KERNBASE -> q + Z.of_nat k * PGSIZE <= PHYSTOP ->
  Forall (heap_page end_) (run q k).
Proof.
  intros Hm He Hk. apply list.Forall_forall. intros p (i & Hi & ->)%elem_of_run. split; [|unfold PGSIZE in *; lia].
  by rewrite Z.mod_add.
Qed.

Lemma run_length q k : length (run q k) = k.
Proof. revert q. induction k as [|k IH]; intros q; cbn; auto. Qed.

(** [k] free pages. *)
Lemma free_pages end_ q k : KERNLINK <= end_ -> q mod PGSIZE = 0 -> end_ <= q + KERNBASE -> 0 <= q ->
  q + Z.of_nat k * PGSIZE <= PHYSTOP -> exists s fl, heap_ok end_ s fl /\ length fl = k.
Proof.
  intros He Hq Hb H0q Hk.
  assert (H0 : heap_ok end_ (zeroed (run q k)) []) by (split; [by apply zeroed_wf, run_heap_pages|done|constructor]).
  pose proof (wp_freerange_loop end_ He k (S k) q (q + KERNBASE + Z.of_nat k * PGSIZE) (zeroed (run q k)) [] ltac:(lia) H0 H0q) as H.
  apply wp_iff in H as ([] & s & _ & Hh & _).
  - exists s, (rev (run q k) ++ []). split; [done|]. by rewrite app_nil_r, length_rev, run_length.
  - lia.
  - unfold PGSIZE. lia.
  - intros p Hp. split; [|apply not_elem_of_nil]. exists zero_page. by apply zeroed_page.
Qed.

Lemma demo_heap : exists s fl, heap_ok demo_end s fl /\ length fl = demo_count.
Proof. apply (free_pages demo_end demo_base demo_count); by vm_compute. Qed.

Abbreviation demo_mem := (mem_at demo_end).

(** The kernel's space and the free pages. *)
Lemma demo_space : exists s a fl, demo_mem s a fl [] /\ covers a 0 /\ (20 <= length fl)%nat.
Proof.
  destruct demo_heap as (s & fl & Hh & Hl).
  pose proof (wp_setupkvm demo_data demo_end demo_end_above demo_data_aligned demo_data_range s fl [] Hh) as H.
  rewrite app_nil_r in H. specialize (H (hp_nodup _ _ _ Hh)). apply wp_iff in H as (r & s1 & _ & H); [|by intros p ?%not_elem_of_nil].
  destruct H as [(_ & _ & _ & _ & _ & Hlen)|(b & fl1 & _ & Hm & Hk & Hp & _)]; [rewrite Hl in Hlen; unfold demo_count in Hlen; lia|].
  exists s1, b, fl1. split; [done|]. split.
  - intros n Hn. split; [|by change (npages 0) with 0; lia]. intros [e He]. apply (proj1 Hk) in He. lia.
  - pose proof (kernel_only_tables s1 b (ma_space _ _ _ _ _ Hm) Hk) as Ht. rewrite <- (proj2 (kernel_only_frames b Hk)) in Ht.
    apply Permutation_length in Hp. rewrite length_app, Hl in Hp. unfold demo_count in Hp. lia.
Qed.

(** A process of two pages. *)
Lemma demo_proc : exists s a fl, demo_mem s a fl [] /\ covers a 8192 /\ (forall x, 0 <= x < 8192 -> accessible a x).
Proof.
  destruct demo_space as (s & a & fl & Hm & Hc & Hl).
  pose proof (wp_allocuvm_grows demo_end demo_end_above s a fl [] 0 8192 Hm Hc) as H.
  apply wp_iff in H as (r & s1 & _ & H); [|lia..].
  destruct H as (b & fl1 & Hm1 & _ & _ & _ & [(_ & Hc1 & Hnew)|(_ & _ & Hcnt)]).
  - exists s1, b, fl1. split_and!; try done. intros x Hx. destruct (Hnew x) as [_ Ht].
    + change (npages 0) with 0. change (npages 8192) with 2. split; [apply Z.div_pos|apply Z.div_lt_upper_bound]; unfold PGSIZE; lia.
    + unfold translate in Ht. destruct (ptes b !! vpn x) as [e|] eqn:E; [|done]. exists e. split; [done|].
      cbn in Ht. injection Ht as Ht. change PTE_U with (2 ^ 2). by rewrite <- (has_flags 2 e), Ht by lia.
  - change (npages 8192 - npages 0) with 2 in Hcnt. lia.
Qed.

(** ** The theorems applied *)

Lemma demo_ram : exists s, pages_wf demo_end (pages s) /\ freelist s = 0 /\
  forall p, p ∈ heap_pages demo_end -> is_Some (pages s !! p).
Proof.
  exists (zeroed (heap_pages demo_end)). split; [|split; [reflexivity|]].
  - apply zeroed_wf, run_heap_pages; [reflexivity|by vm_compute|]. rewrite Z2Nat.id by (by vm_compute). by vm_compute.
  - intros p Hp. exists zero_page. by apply zeroed_page.
Qed.

Lemma kinit_frees_all_witness : exists s s',
  (kinit1 demo_end demo_end (P2V 0x400000) then! kinit2 demo_end (P2V 0x400000) (P2V PHYSTOP)) s = Ret tt s' /\
  use_lock s' = 1.
Proof.
  destruct demo_ram as (s & Hw & Hf & Hp). exists s.
  pose proof (kinit_frees_all demo_end demo_end_above s ltac:(done) Hw Hf Hp) as H.
  apply wp_iff in H as ([] & s' & E & Hl & _). by exists s'.
Defined.

Lemma setupkvm_maps_witness : exists s r s' b, setupkvm demo_data demo_end s = Ret r s' /\ r = P2V (dir b) /\
  translate b (KERNLINK + 5) = Some (EXTMEM + 5, PTE_P).
Proof.
  destruct demo_heap as (s & fl & Hh & Hl). exists s.
  pose proof (setupkvm_maps demo_data demo_end demo_end_above demo_data_aligned demo_data_range s fl [] Hh) as H.
  rewrite app_nil_r in H. specialize (H (hp_nodup _ _ _ Hh)). apply wp_iff in H as (r & s1 & E & H); [|by intros p ?%not_elem_of_nil].
  destruct H as [(_ & _ & _ & _ & Hlen)|(b & fl1 & Hr & _ & _ & _ & Ht)]; [exfalso; rewrite Hl in Hlen; unfold demo_count in Hlen; lia|].
  exists r, s1, b. split_and!; [done|done|]. rewrite Ht by (by vm_compute). reflexivity.
Defined.

Lemma allocuvm_grows_witness : exists s a s', allocuvm demo_end (P2V (dir a)) 0 8192 s = Ret 8192 s'.
Proof.
  destruct demo_space as (s & a & fl & Hm & Hc & Hl). exists s, a.
  pose proof (allocuvm_grows demo_end demo_end_above s a fl [] 0 8192 Hm Hc) as H.
  apply wp_iff in H as (r & s1 & E & H); [|lia..].
  destruct H as (b & fl1 & _ & _ & _ & _ & [(-> & _)|(_ & _ & Hcnt)]); [by exists s1|].
  exfalso. change (npages 8192 - npages 0) with 2 in Hcnt. lia.
Defined.

Lemma deallocuvm_shrinks_witness : exists s a s', deallocuvm demo_end (P2V (dir a)) 8192 4096 s = Ret 4096 s'.
Proof.
  destruct demo_proc as (s & a & fl & Hm & Hc & _). exists s, a.
  pose proof (deallocuvm_shrinks demo_end demo_end_above s a fl [] 8192 4096 Hm Hc) as H.
  apply wp_iff in H as (r & s1 & E & (b & fl1 & -> & _)); [by exists s1|lia|done].
Defined.

Lemma freevm_frees_witness : exists s a s', freevm demo_end (P2V (dir a)) s = Ret tt s'.
Proof.
  destruct demo_proc as (s & a & fl & Hm & _). exists s, a.
  pose proof (freevm_frees demo_end demo_end_above s a fl [] Hm) as H. apply wp_iff in H as ([] & s1 & E & _). by exists s1.
Defined.

Lemma sbrk_resizes_witness : exists s a s', sys_sbrk demo_end (P2V (dir a)) 8192 (-1) s = Ret (8192, 8191) s'.
Proof.
  destruct demo_proc as (s & a & fl & Hm & Hc & _). exists s, a.
  pose proof (sbrk_resizes demo_end demo_end_above s a fl [] 8192 (-1) Hm Hc) as H.
  apply wp_iff in H as (r & s1 & E & (b & fl1 & _ & _ & _ & _ & _ & _ & [->|(_ & ? & _)])); [by exists s1|lia|done|done|done].
Defined.

Lemma sbrk_all_breaks_witness : exists s a s', sys_sbrk demo_end (P2V (dir a)) 8192 (-8192) s = Ret (-1, 8192) s'.
Proof.
  destruct demo_proc as (s & a & fl & Hm & Hc & _). exists s, a.
  pose proof (sbrk_all_breaks demo_end demo_end_above s a fl [] 8192 Hm Hc) as H.
  apply wp_iff in H as (r & s1 & E & (b & fl1 & -> & _)); [by exists s1|done].
Defined.

Lemma copyuvm_copies_witness : exists s a r s', copyuvm demo_data demo_end (P2V (dir a)) 8192 s = Ret r s'.
Proof.
  destruct demo_proc as (s & a & fl & Hm & Hc & _). exists s, a.
  pose proof (copyuvm_copies demo_data demo_end demo_end_above demo_data_aligned demo_data_range s a fl [] 8192 Hm Hc) as H.
  apply wp_iff in H as (r & s1 & E & _); [by exists r, s1|done].
Defined.

Lemma copyout_writes_witness : exists s a s', copyout (P2V (dir a)) 4090 (chars "across a page") s = Ret 0 s' /\
  ubyte s' a 4096 = Some 32.
Proof.
  destruct demo_proc as (s & a & fl & Hm & _ & Hacc). exists s, a.
  pose proof (copyout_writes demo_end demo_end_above s a fl [] 4090 (chars "across a page") Hm) as H.
  apply wp_iff in H as (r & s1 & E & (-> & _ & _ & Hb)).
  - exists s1. split; [done|]. by rewrite Hb.
  - by_decide.
  - lia.
  - by vm_compute.
  - intros x Hx. apply Hacc. cbn in Hx. lia.
Defined.

Lemma argptr_checks_witness : exists s a r, argptr (P2V (dir a)) 8192 8000 0 12 s = Ret r s.
Proof.
  destruct demo_proc as (s & a & fl & Hm & Hc & _). exists s, a.
  pose proof (argptr_checks demo_end demo_end_above s a fl [] 8192 Hm Hc ltac:(done) 8000 0 12 ltac:(done) ltac:(done)) as H.
  apply wp_iff in H as (r & s1 & E & -> & _). by exists r.
Defined.

Lemma argstr_checks_witness : exists s a r, argstr (P2V (dir a)) 8192 8000 0 s = Ret r s.
Proof.
  destruct demo_proc as (s & a & fl & Hm & Hc & _). exists s, a.
  pose proof (argstr_checks demo_end demo_end_above s a fl [] 8192 Hm Hc ltac:(done) 8000 0 ltac:(done)) as H.
  apply wp_iff in H as (r & s1 & E & -> & _). by exists r.
Defined.

Lemma exec_stack_witness : exists s a sp s', exec_args (P2V (dir a)) 8192 [chars "ls"; chars "-l"] s = Ret (Some sp) s' /\
  word_at a s' (sp + 4) 2.
Proof.
  destruct demo_proc as (s & a & fl & Hm & _ & Hacc). exists s, a.
  pose proof (exec_stack demo_end demo_end_above a fl [] s 8192 [chars "ls"; chars "-l"] Hm) as H.
  apply wp_iff in H as (r & s1 & E & (sp & ptrs & -> & _ & _ & _ & _ & Hw & _)).
  - by exists sp, s1.
  - done.
  - done.
  - intros x Hx. apply Hacc. change (8192 - PGSIZE) with 4096 in Hx. lia.
  - by_decide.
  - unfold MAXARG. cbn. lia.
  - done.
Defined.
