(* ===== verification/Accounts.v ===== *)
(** * The account programs

    [user/useradd.c], [user/groupadd.c], [user/passwd.c], [user/chown.c],
    [user/chgrp.c], [user/getty.c] and [user/init.c], with [gets] of
    [user/ulib.c].

    The programs are written against [Accounts], the system calls they make
    besides those of [Syscalls].  A string argument is the list of its bytes
    with its terminator.  The objects the programs leave uninitialised on
    their stack are the parameter [junk], by the name of the variable, or of
    the routine whose buffer it is.  The text of the program is not part of
    the state: what [read(fd, 0, n)] stores at address 0 is dropped. *)

From S2P Require Import Prelude CStr USys Auth.

Class Accounts (W : Type) `{Syscalls W} : Type := {
  u_getuid : M W Z;
  u_echoswitch : M W unit;
  u_clrscr : M W unit;
  u_mkdir : list Z -> M W Z;
  u_mknod : list Z -> Z -> Z -> M W Z;
  u_chown : list Z -> Z -> Z -> M W Z;
  u_chmod : list Z -> Z -> M W Z;
  u_chdir : list Z -> M W Z;
  u_setuid : Z -> M W Z;
  u_setgroups : list Z -> M W Z;
  u_getpid : M W Z;
  u_dup : Z -> M W Z;
  u_fork : M W Z;
  u_wait : M W Z;
  (** returns only when it fails *)
  u_exec : list Z -> list (list Z) -> M W Z
}.

Definition O_RDWR : Z := 2.

Section Programs.
Context {W : Type} `{Accounts W}.

(** [printf(msg); exit()]. *)
Definition die {A : Type} (msg : string) : M W A :=
  u_printf (chars msg ++ [NL]) then! halt Exited.

(** [n] is [max - 1 - i]. *)
Fixpoint ugets_loop (n : nat) (buf : list Z) (i : nat) : M W (list Z * nat) :=
  match n with
  | O => ret (buf, i)
  | S n' =>
      let! r := u_read 0 1 in
      if r.1 <? 1 then ret (buf, i)
      else
        let! c := lift (r.2 !! 0%nat) in
        let! buf := lift (store buf i c) in
        if (c =? 10) || (c =? 13) then ret (buf, S i) else ugets_loop n' buf (S i)
  end.

Definition ugets (buf : list Z) (max : nat) : M W (list Z) :=
  let! r := ugets_loop (max - 1) buf 0 in
  lift (store r.1 r.2 0).

(** [s[strlen(s) - 1] = 0]: of an empty string the index is outside. *)
Definition chop (s : list Z) : option (list Z) :=
  n ← strlen s;
  match n with
  | O => None
  | S k => store s k 0
  end.

(** [echoswitch(); gets(s, sizeof(s)); echoswitch(); s[strlen(s) - 1] = 0]. *)
Definition ask (prompt : string) (buf : list Z) : M W (list Z) :=
  u_printf (chars prompt) then!
  u_echoswitch then!
  let! s := ugets buf (length buf) in
  u_echoswitch then!
  lift (chop s).

(** ** passwd *)

(** [for(i = 0; i < strlen(currpass); i++)
       memmove(&buff[start], &buff[start + 1], strlen(buff) - start)]. *)
Fixpoint squeeze (k : nat) (buff : list Z) (start : nat) : option (list Z) :=
  match k with
  | O => Some buff
  | S k' =>
      n ← strlen buff;
      buff ← umemmove buff start (start + 1) (Z.of_nat n - Z.of_nat start);
      squeeze k' buff start
  end.

(** The new text of the file, in [file], from the text in [buff]. *)
Definition edit (junk : string -> list Z) (user currpass pass buff : list Z) : option (list Z) :=
  srchbuff ← strcat (junk "srchbuff") 0 user;
  srchbuff ← strcat srchbuff 0 [COLON; 0];
  index ← strstr buff srchbuff;
  index ← index;
  nu ← strlen user;
  let start := (index + nu + 1)%nat in
  k ← strlen currpass;
  buff ← squeeze k buff start;
  file ← strncpy (junk "file") 0 buff start;
  file ← store file start 0;
  file ← strcat file 0 pass;
  file ← strcat file 0 (drop start buff);
  n ← strlen file;
  store file n 0.

(** From [open] on: rewrite the file with [pass] for [currpass]. *)
Definition passwd_write (junk : string -> list Z) (user currpass pass : list Z) : M W unit :=
  let! passfd := u_open etc_passwd O_RDWR in
  if passfd <? 0 then die "passwd: cannot open /etc/passwd"
  else
    let! nd := u_read passfd (Z.of_nat (length (junk "buff"))) in
    if nd.1 <=? 0 then die "passwd: cannot read from /etc/passwd"
    else
      let! file := lift (edit junk user currpass pass (splice (junk "buff") 0 nd.2)) in
      u_close passfd then!
      let! passfd := u_open etc_passwd O_RDWR in
      if passfd <? 0 then die "passwd: cannot open /etc/passwd"
      else
        let! len := lift (strlen file) in
        let! w := u_write passfd (take len file) in
        if w <=? 0 then die "passwd: cannot write into passwd"
        else
          let! k := lift (strlen currpass) in
          let! n := lift (strlen pass) in
          (if 0 <? Z.of_nat k - Z.of_nat n
           then u_write passfd (replicate (k - n) 0) then! ret tt
           else ret tt) then!
          u_close passfd then!
          halt Exited.

(** From the second prompt on. *)
Definition passwd_new (junk : string -> list Z) (user : option (list Z)) (currpass : list Z) : M W unit :=
  let! pass := ask "Enter new password: " (junk "pass") in
  let! n := lift (strlen pass) in
  if Z.of_nat n <? 7 then die "passwd: password must be at least 7 characters long"
  else
    let! reppass := ask "Enter password again: " (junk "reppass") in
    let! m := lift (strlen reppass) in
    let! d := lift (strcmp pass reppass) in
    if negb (n =? m)%nat || negb (d =? 0) then die "passwd: passwords dont't match"
    else
      let! user := lift user in
      passwd_write junk user currpass pass.

(** [argv] has the arguments after the name of the program.  A null [user]
    is dereferenced by [usertouid] and by [strcat]. *)
Definition passwd (junk : string -> list Z) (argv : list (list Z)) : M W unit :=
  let! uid := u_getuid in
  let! user :=
    match argv with
    | a :: _ =>
        if negb (uid =? 0) then die "passwd: only root can change other user's passwords"
        else ret (Some a)
    | [] => uidtouser (junk "uidtouser") uid
    end in
  let! currpass :=
    if negb (uid =? 0) then
      let! currpass := ask "Enter current password: " (junk "currpass") in
      let! ok := validateuserpass (junk "validateuserpass") uid currpass in
      if ok =? 0 then die "passwd: password incorrect" else ret currpass
    else
      let! user := lift user in
      let! u := usertouid (junk "usertouid") user in
      let! p := uidtopass (junk "uidtopass") u in
      let! p := lift p in
      lift (strcpy (junk "currpass") 0 p) in
  passwd_new junk user currpass.

(** ** useradd and groupadd *)

Inductive status : Type := STATUS_UNDEFINED | STATUS_DIR | STATUS_UID | STATUS_NAME | STATUS_GID.

Record options : Type := {
  o_user : option (list Z); o_dir : list Z; o_id : Z; o_name : option (list Z)
}.

(** [strstr(arg, opt) != 0]. *)
Definition has_opt (arg : list Z) (opt : string) : option bool :=
  r ← strstr arg (chars opt ++ [0]);
  Some (bool_decide (is_Some r)).

Fixpoint useradd_args (argv : list (list Z)) (st : status) (o : options) : M W options :=
  match argv with
  | [] => ret o
  | arg :: argv' =>
      match st with
      | STATUS_DIR =>
          let! dir := lift (strcpy (o_dir o) 0 arg) in
          useradd_args argv' STATUS_UNDEFINED
            {| o_user := o_user o; o_dir := dir; o_id := o_id o; o_name := o_name o |}
      | STATUS_UID =>
          let! uid := lift (atoi arg) in
          useradd_args argv' STATUS_UNDEFINED
            {| o_user := o_user o; o_dir := o_dir o; o_id := uid; o_name := o_name o |}
      | STATUS_NAME =>
          useradd_args argv' STATUS_UNDEFINED
            {| o_user := o_user o; o_dir := o_dir o; o_id := o_id o; o_name := Some arg |}
      | _ =>
          let! d := lift (has_opt arg "-d") in
          if d : bool then useradd_args argv' STATUS_DIR o else
          let! u := lift (has_opt arg "-u") in
          if u : bool then useradd_args argv' STATUS_UID o else
          let! c := lift (has_opt arg "-c") in
          if c : bool then useradd_args argv' STATUS_NAME o else
          let! m := lift (has_opt arg "-") in
          if m : bool then die "useradd: invalid command" else
          useradd_args argv' STATUS_UNDEFINED
            {| o_user := Some arg; o_dir := o_dir o; o_id := o_id o; o_name := o_name o |}
      end
  end.

Definition insertstring (destination : list Z) (pos : nat) (seed : list Z) : M W (list Z) :=
  let! n := lift (strlen destination) in
  let! k := lift (strlen seed) in
  let! ok := u_malloc (Z.of_nat n + Z.of_nat k + 1) in
  if ok : bool then
    lift (strC ← strncpy (replicate (n + k + 1) 0) 0 destination pos;
          strC ← store strC pos 0;
          strC ← strcat strC 0 seed;
          strC ← strcat strC 0 (drop pos destination);
          strcpy destination 0 strC)
  else halt Undefined.

(** [strcat(buf, s)] for each [s] in turn. *)
Fixpoint strcats (buf : list Z) (l : list (list Z)) : option (list Z) :=
  match l with
  | [] => Some buf
  | s :: l' => buf ← strcat buf 0 s; strcats buf l'
  end.

(** [read(fd, 0, len()); write(fd, buf, strlen(buf))]: whether the write
    succeeded. *)
Definition append_line (fd : Z) (len : M W Z) (buf : list Z) : M W bool :=
  let! n := len in
  u_read fd n then!
  let! k := lift (strlen buf) in
  let! w := u_write fd (take k buf) in
  ret (negb (w <=? 0)).

(** The home directory [dir]. *)
Definition homedir (dir user : list Z) : M W (list Z) :=
  let! n := lift (strlen dir) in
  if (n =? 0)%nat then lift (strcats dir [chars "/home/" ++ [0]; user; [0; 0]])
  else insertstring dir 0 (chars "/home/" ++ [0; 0]).

(** [useradd] from the creation of the home directory on. *)
Definition useradd_write (junk : string -> list Z) (passfd groupfd uid gid : Z)
    (user dir : list Z) (name : option (list Z)) : M W unit :=
  let! dir := homedir dir user in
  let! r := u_mkdir (cstr dir 0) in
  if r <? 0 then die "useradd: cannot create user directory"
  else
    u_chown (cstr dir 0) (s32 uid) (s32 gid) then!
    let! _uid := lift (itoa (s32 uid) (junk "_uid") 10) in
    let! _passgid := lift (itoa (s32 gid) (junk "_passgid") 10) in
    let! passbuff := lift (strcats (junk "passbuff")
      [user; chars ":_:" ++ [0]; _uid; [COLON; 0]; _passgid; [COLON; 0];
       default (chars "_" ++ [0]) name; [COLON; 0]; dir; [NL; 0; 0]]) in
    let! ok := append_line passfd (passwdlen (junk "passwdlen")) passbuff in
    if negb ok then die "useradd: cannot write into passwd"
    else
      let! _groupgid := lift (itoa (s32 gid) (junk "_groupgid") 10) in
      let! groupbuff := lift (strcats (junk "groupbuff")
        [user; [COLON; 0]; _groupgid; [COLON; 0]; user; [NL; 0; 0]]) in
      let! ok := append_line groupfd (grouplen (junk "grouplen")) groupbuff in
      if negb ok then die "useradd: cannot write into group"
      else u_close passfd then! u_close groupfd then! halt Exited.

(** [validateuid(uid) < 0] compares an unsigned number with 0: it is false. *)
Definition useradd_uid (junk : string -> list Z) (uid : Z) : M W Z :=
  if uid =? -1 then nextuid (junk "nextuid")
  else
    let! v := validateuid (junk "validateuid") (u32 uid) in
    if v <? 0 then die "useradd: uid already exists" else ret uid.

(** [user0] and [name0] are the uninitialised pointers [user] and [name]. *)
Definition useradd (junk : string -> list Z) (user0 name0 : option (list Z)) (argv : list (list Z))
    : M W unit :=
  if (length argv <? 1)%nat then die "useradd: user is required"
  else
    let! o := useradd_args argv STATUS_UNDEFINED
      {| o_user := user0; o_dir := junk "dir"; o_id := -1; o_name := name0 |} in
    match o_user o with
    | None => die "useradd: user is required"
    | Some user =>
        let! passfd := u_open etc_passwd O_RDWR in
        if passfd <? 0 then die "useradd: cannot open etc/passwd"
        else
          let! groupfd := u_open etc_group O_RDWR in
          if groupfd <? 0 then die "useradd: cannot open etc/group"
          else
            let! uid := useradd_uid junk (o_id o) in
            let! gid := nextgid (junk "nextgid") in
            useradd_write junk passfd groupfd uid gid user (o_dir o) (o_name o)
    end.

Fixpoint groupadd_args (argv : list (list Z)) (st : status) (o : options) : M W options :=
  match argv with
  | [] => ret o
  | arg :: argv' =>
      match st with
      | STATUS_GID =>
          let! gid := lift (atoi arg) in
          groupadd_args argv' STATUS_UNDEFINED
            {| o_user := o_user o; o_dir := o_dir o; o_id := gid; o_name := o_name o |}
      | _ =>
          let! g := lift (has_opt arg "-g") in
          if g : bool then groupadd_args argv' STATUS_GID o else
          let! m := lift (has_opt arg "-") in
          if m : bool then die "groupadd: invalid command" else
          groupadd_args argv' STATUS_UNDEFINED
            {| o_user := Some arg; o_dir := o_dir o; o_id := o_id o; o_name := o_name o |}
      end
  end.

Definition groupadd (junk : string -> list Z) (group0 : option (list Z)) (argv : list (list Z)) : M W unit :=
  if (length argv <? 1)%nat then die "groupadd: group is required"
  else
    let! o := groupadd_args argv STATUS_UNDEFINED
      {| o_user := group0; o_dir := []; o_id := -1; o_name := None |} in
    match o_user o with
    | None => die "groupadd: group is required"
    | Some group =>
        let! groupfd := u_open etc_group O_RDWR in
        if groupfd <? 0 then die "groupadd: cannot open etc/group"
        else
          let! gid :=
            if o_id o =? -1 then nextgid (junk "nextgid")
            else
              let! v := validategid (junk "validategid") (u32 (o_id o)) in
              if v <? 0 then die "groupadd: gid already exists" else ret (o_id o) in
          let! _groupgid := lift (itoa (s32 gid) (junk "_groupgid") 10) in
          let! groupbuff := lift (strcats (junk "groupbuff")
            [group; [COLON; 0]; _groupgid; [COLON; 0]; [32; NL; 0; 0]]) in
          let! ok := append_line groupfd (grouplen (junk "grouplen")) groupbuff in
          if negb ok then die "useradd: cannot write into group"
          else u_close groupfd then! halt Exited
    end.
(** ** chown and chgrp *)

(** The names before and after the colon of the argument [a]; [strtok] works
    in place. *)
Definition chown_names (junk : string -> list Z) (a : list Z)
    : M W (option (list Z) * option (list Z)) :=
  let! c := lift (strstr a [COLON; 0]) in
  match c with
  | None => ret (Some a, None)
  | Some _ =>
      let! d := lift (strncmp a [COLON; 0] 1) in
      let! arglen := lift (strlen a) in
      if d =? 0 then
        let! group := lift (umemmove a 0 1 (Z.of_nat arglen)) in
        ret (None, Some group)
      else
        let! t := lift (strtok a None (Some O) [COLON; 0]) in
        let '(buf, p, tok) := t in
        let! tok := lift tok in
        let! n := lift (strlen (drop tok buf)) in
        if (n + 1 =? arglen)%nat then
          let! u := usertouid (junk "usertouid") (drop tok buf) in
          let! g := uidtogid (junk "uidtogid") u in
          let! group := gidtogroup (junk "gidtogroup") g in
          ret (Some (drop tok buf), group)
        else
          let! t := lift (strtok buf p None [COLON; 0]) in
          let '(buf, _, tok2) := t in
          ret (Some (drop tok buf), (fun i => drop i buf) <$> tok2)
  end.

(** [x = atoi(name); if(x == -1) x = find(name)], -1 without a name. *)
Definition name_id (name : option (list Z)) (find : list Z -> M W Z) : M W Z :=
  match name with
  | None => ret minus1u
  | Some name =>
      let! x := lift (atoi name) in
      if u32 x =? minus1u then find name else ret (u32 x)
  end.

Fixpoint chown_files (files : list (list Z)) (uid gid : Z) : M W unit :=
  match files with
  | [] => ret tt
  | f :: files' => u_chown (cstr f 0) uid gid then! chown_files files' uid gid
  end.

Definition chown (junk : string -> list Z) (argv : list (list Z)) : M W unit :=
  match argv with
  | a :: f :: files =>
      let! n := lift (strlen a) in
      if (n <=? 1)%nat then die "chown: invalid args"
      else
        let! names := chown_names junk a in
        let! uid := name_id names.1 (usertouid (junk "usertouid2")) in
        let! gid := name_id names.2 (grouptogid (junk "grouptogid")) in
        chown_files (f :: files) uid gid then!
        halt Exited
  | _ => die "chown: invalid arg count"
  end.

Definition chgrp (junk : string -> list Z) (argv : list (list Z)) : M W unit :=
  match argv with
  | arggroup :: f :: files =>
      let! gid := name_id (Some arggroup) (grouptogid (junk "grouptogid")) in
      let! bad :=
        if gid =? minus1u then ret true
        else let! e := gidexists (junk "gidexists") gid in ret (e =? minus1u) in
      if bad : bool then die "chgrp: invalid gid"
      else chown_files (f :: files) minus1u gid then! halt Exited
  | _ => die "chgrp: invalid arg count"
  end.

(** ** getty *)

Record login : Type := {
  userdone : bool; passdone : bool; username : list Z; password : list Z
}.

Definition getcmd (g : login) : M W login :=
  if negb (userdone g) then
    u_printf (chars "getty: Enter your username: ") then!
    let! s := ugets (username g) (length (username g)) in
    let! s := lift (chop s) in
    ret {| userdone := true; passdone := passdone g; username := s; password := password g |}
  else
    let! s := ask "getty: Enter current password: " (password g) in
    ret {| userdone := userdone g; passdone := true; username := username g; password := s |}.

Definition again (g : login) : login :=
  {| userdone := false; passdone := false; username := username g; password := password g |}.

(** [junk n] has the stack buffers of the routines called with [n] more
    rounds to go.  The value is the [uid] the loop ends with. *)
Fixpoint getty_loop (fuel : nat) (junk : nat -> string -> list Z) (g : login) : M W Z :=
  match fuel with
  | O => halt Undefined
  | S fuel' =>
      let! g := getcmd g in
      if userdone g && passdone g then
        let! uid := usertouid (junk fuel' "usertouid") (username g) in
        if s32 uid <? 0 then
          u_printf (chars "getty: Username doesn't exist!" ++ [NL]) then!
          getty_loop fuel' junk (again g)
        else
          let! userpass := uidtopass (junk fuel' "uidtopass") uid in
          let! userpass := lift userpass in
          let! d := lift (strcmp userpass (password g)) in
          if negb (d =? 0) then
            u_printf (chars "getty: Passwords don't match!" ++ [NL]) then!
            getty_loop fuel' junk (again g)
          else ret (s32 uid)
      else u_wait then! getty_loop fuel' junk g
  end.

(** [while((wpid=wait()) >= 0 && wpid != pid) printf("zombie!\n")]. *)
Fixpoint wait_for (fuel : nat) (pid : Z) : M W unit :=
  match fuel with
  | O => halt Undefined
  | S fuel' =>
      let! wpid := u_wait in
      if (0 <=? wpid) && negb (wpid =? pid)
      then u_printf (chars "zombie!" ++ [NL]) then! wait_for fuel' pid
      else ret tt
  end.

(** The child of [start]: become the user and run the shell. *)
Definition start_child (junk : string -> list Z) (uid : Z) : M W unit :=
  u_printf (chars "getty: starting sh with uid " ++ dec uid ++ [NL]) then!
  let! gid := uidtogid (junk "uidtogid") (u32 uid) in
  u_setgroups [s32 gid] then!
  u_setuid uid then!
  let! dir := uidtodir (junk "uidtodir") (u32 uid) in
  let! dir := lift dir in
  u_chdir (cstr dir 0) then!
  u_exec (chars "/bin/sh") [chars "sh"] then!
  die "getty: exec sh failed".

Definition start (fuel : nat) (junk : string -> list Z) (uid : Z) : M W unit :=
  let! fd := u_open (chars "/etc/motd") 0 in
  if fd <? 0 then die "getty: cannot open /etc/motd"
  else
    let! nd := u_read fd (Z.of_nat (length (junk "motd"))) in
    if nd.1 <=? 0 then die "getty: cannot read from /etc/motd"
    else
      let motd := splice (junk "motd") 0 nd.2 in
      let! n := lift (strlen motd) in
      u_printf (NL :: take n motd) then!
      u_close fd then!
      let! pid := u_fork in
      if pid <? 0 then die "getty: fork failed"
      else if pid =? 0 then start_child junk uid
      else wait_for fuel pid then! halt Exited.

Definition getty (fuel : nat) (junk : nat -> string -> list Z) : M W unit :=
  u_clrscr then!
  let! fd := u_open (chars "/etc/issue") 0 in
  (if fd <? 0 then u_printf (chars "getty: cannot open /etc/issue" ++ [NL]) else ret tt) then!
  let! nd := u_read fd (Z.of_nat (length (junk fuel "issues"))) in
  (if nd.1 <=? 0 then u_printf (chars "getty: cannot read from /etc/issue" ++ [NL]) else ret tt) then!
  let issues := splice (junk fuel "issues") 0 nd.2 in
  let! n := lift (strlen issues) in
  u_printf (chars "Issues: " ++ take n issues ++ [NL; NL]) then!
  let! uid := getty_loop fuel junk
    {| userdone := false; passdone := false; username := replicate 30 0; password := replicate 32 0 |} in
  start fuel (junk fuel) uid.

(** ** init *)

(** One round of [for(;;)]: start getty and wait for it. *)
Definition init_round (fuel : nat) : M W unit :=
  let! pid := u_fork in
  if pid <? 0 then die "init: fork failed"
  else if pid =? 0 then
    u_exec (chars "/bin/getty") [chars "sh"] then!
    die "init: exec getty failed"
  else wait_for fuel pid.

Fixpoint init_loop (fuel : nat) : M W unit :=
  match fuel with
  | O => halt Undefined
  | S fuel' => init_round fuel then! init_loop fuel'
  end.

(** [mknod], [chown] and [chmod] of the console before it can be opened. *)
Definition init (fuel : nat) : M W unit :=
  let! pid := u_getpid in
  if negb (pid =? 1) then
    u_write 2 (chars "init: already running" ++ [NL]) then! halt Exited
  else
    u_setuid 0 then!
    let! fd := u_open (chars "/dev/console") O_RDWR in
    (if fd <? 0 then
       u_mknod (chars "/dev/console") 1 1 then!
       u_chown (chars "/dev/console") 0 0 then!
       u_chmod (chars "/dev/console") 448 then!
       u_open (chars "/dev/console") O_RDWR then!
       ret tt
     else ret tt) then!
    u_dup 0 then!
    u_dup 0 then!
    init_loop fuel.
End Programs.
