(* ===== verification/AcctView.v ===== *)
(** * What the account programs see of the system

    [vstate] is the part of the system a program of the user database
    observes: the texts of the files, its open descriptors, the characters
    typed on the console and not read yet, the directories, its user id, and
    the calls it has made that change owners, ids, the current directory or
    the program.  [Views] gives the [vstate] of a world, and [AccountLaws] says
    what each system call does to it, for a disk with room, a heap that is not
    exhausted and files that the caller may open (the user database is
    readable by all, and the programs that write it run as root).  [host] is a
    world that satisfies the laws.

    [spec] is the total-correctness judgement on views; the lookups of
    [user/auth.c] are specified with it. *)

From S2P Require Import Prelude CStr USys Auth Accounts.

Inductive event : Type :=
  | Chowned (path : list Z) (uid gid : Z)
  | Setuid (uid : Z)
  | Setgroups (gids : list Z)
  | Chdir (as_uid : Z) (path : list Z)
  | Exec (as_uid : Z) (path : list Z) (argv : list (list Z)).

Record vstate : Type := {
  files : gmap (list Z) (list Z);
  handles : gmap Z (list Z * nat);
  typed : list Z;
  dirs : gset (list Z);
  caller : Z;
  trace : list event
}.

Definition with_files (v : vstate) x : vstate :=
  {| files := x; handles := handles v; typed := typed v; dirs := dirs v; caller := caller v; trace := trace v |}.
Definition with_handles (v : vstate) x : vstate :=
  {| files := files v; handles := x; typed := typed v; dirs := dirs v; caller := caller v; trace := trace v |}.
Definition with_typed (v : vstate) x : vstate :=
  {| files := files v; handles := handles v; typed := x; dirs := dirs v; caller := caller v; trace := trace v |}.
Definition with_dirs (v : vstate) x : vstate :=
  {| files := files v; handles := handles v; typed := typed v; dirs := x; caller := caller v; trace := trace v |}.
Definition with_caller (v : vstate) x : vstate :=
  {| files := files v; handles := handles v; typed := typed v; dirs := dirs v; caller := x; trace := trace v |}.
Definition did (v : vstate) e : vstate :=
  {| files := files v; handles := handles v; typed := typed v; dirs := dirs v; caller := caller v; trace := trace v ++ [e] |}.

Class Views (W : Type) : Type := view : W -> vstate.

(** From a world seen as [v], [m] returns a value and a world that satisfy
    [Q], or it exits in a world that satisfies [E]. *)
Definition spec {W A : Type} `{Views W} (m : M W A) (v : vstate)
    (Q : A -> vstate -> Prop) (E : vstate -> Prop) : Prop :=
  forall w, view w = v ->
    match m w with
    | Ret a w' => Q a (view w')
    | Stop Exited w' => E (view w')
    | Stop _ _ => False
    end.

Section Spec.
Context {W A B : Type} `{Views W}.

Lemma spec_ret (a : A) v (Q : A -> vstate -> Prop) E : Q a v -> spec (ret a) v Q E.
Proof. by intros HQ w <-. Qed.

Lemma spec_exit v (Q : A -> vstate -> Prop) (E : vstate -> Prop) : E v -> spec (halt Exited) v Q E.
Proof. by intros HQ w <-. Qed.

Lemma spec_lift (o : option A) a v (Q : A -> vstate -> Prop) E : o = Some a -> Q a v -> spec (lift o) v Q E.
Proof. by intros -> HQ w <-. Qed.

Lemma spec_bind (m : M W A) (f : A -> M W B) v P Q E :
  spec m v P E -> (forall a v', P a v' -> spec (f a) v' Q E) -> spec (bind m f) v Q E.
Proof.
  intros Hm Hf w Hw. unfold bind. specialize (Hm w Hw).
  destruct (m w) as [a w'|[]]; try done. by apply (Hf a (view w')).
Qed.

Lemma spec_let (o : option A) a (f : A -> M W B) v Q E : o = Some a -> spec (f a) v Q E -> spec (bind (lift o) f) v Q E.
Proof. by intros ->. Qed.

Lemma spec_ret_let (a : A) (f : A -> M W B) v Q E : spec (f a) v Q E -> spec (bind (ret a) f) v Q E.
Proof. done. Qed.

Lemma spec_assoc {C} (m : M W A) (f : A -> M W B) (g : B -> M W C) v Q E :
  spec (bind m (fun a => bind (f a) g)) v Q E -> spec (bind (bind m f) g) v Q E.
Proof. intros Hs w Hw. rewrite bind_assoc. by apply Hs. Qed.

Lemma spec_mono (m : M W A) v (P Q : A -> vstate -> Prop) E :
  spec m v P E -> (forall a v', P a v' -> Q a v') -> spec m v Q E.
Proof. intros Hm HPQ w Hw. specialize (Hm w Hw). destruct (m w) as [a w'|[]]; naive_solver. Qed.
End Spec.

(** [m] returns [a] and leaves the view. *)
Definition reads {W A : Type} `{Views W} (m : M W A) (v : vstate) (a : A) : Prop :=
  forall E, spec m v (fun r v' => r = a /\ v' = v) E.

Class AccountLaws (W : Type) `{Accounts W, Views W} : Prop := {
  open_law path m v d E : files v !! path = Some d ->
    spec (u_open path m) v (fun fd v' =>
      0 < fd /\ handles v !! fd = None /\ v' = with_handles v (<[fd := (path, O)]> (handles v))) E;
  read_law fd n path off v d E : handles v !! fd = Some (path, off) -> files v !! path = Some d -> 0 <= n ->
    spec (u_read fd n) v (fun r v' =>
      let data := take (Z.to_nat n) (drop off d) in
      r = (Z.of_nat (length data), data) /\
      v' = with_handles v (<[fd := (path, (off + length data)%nat)]> (handles v))) E;
  console_law v c t E : handles v !! 0 = None -> typed v = c :: t ->
    spec (u_read 0 1) v (fun r v' => r = (1, [c]) /\ v' = with_typed v t) E;
  write_law fd path off v d data E : handles v !! fd = Some (path, off) -> files v !! path = Some d ->
    (off <= length d)%nat ->
    spec (u_write fd data) v (fun r v' =>
      r = Z.of_nat (length data) /\
      v' = with_files (with_handles v (<[fd := (path, (off + length data)%nat)]> (handles v)))
             (<[path := splice d off data]> (files v))) E;
  close_law fd v x E : handles v !! fd = Some x ->
    spec (u_close fd) v (fun _ v' => v' = with_handles v (delete fd (handles v))) E;
  printf_law s v : reads (u_printf s) v tt;
  malloc_law n v : reads (u_malloc n) v true;
  echoswitch_law v : reads u_echoswitch v tt;
  getuid_law v : reads u_getuid v (caller v);
  wait_law v E : spec u_wait v (fun _ v' => v' = v) E;
  mkdir_law path v E : path ∉ dirs v ->
    spec (u_mkdir path) v (fun r v' => r = 0 /\ v' = with_dirs v ({[path]} ∪ dirs v)) E;
  chown_law path uid gid v E :
    spec (u_chown path uid gid) v (fun _ v' => v' = did v (Chowned path uid gid)) E;
  setgroups_law gids v E : caller v = 0 ->
    spec (u_setgroups gids) v (fun _ v' => v' = did v (Setgroups gids)) E;
  setuid_law uid v E : caller v = 0 ->
    spec (u_setuid uid) v (fun _ v' => v' = with_caller (did v (Setuid uid)) uid) E;
  chdir_law path v E : spec (u_chdir path) v (fun _ v' => v' = did v (Chdir (caller v) path)) E;
  exec_law path argv v (E : vstate -> Prop) : E (did v (Exec (caller v) path argv)) ->
    spec (u_exec path argv) v (fun _ v' => v' = did v (Exec (caller v) path argv)) E
}.

(** ** The lookups leave the view as it was *)

Section Lookups.
Context {W : Type} `{AccountLaws W} `{!SyscallLaws W}.

(** Whatever [m] returns, it leaves the view; it does not exit. *)
Definition keeps {A} (m : M W A) : Prop :=
  forall w, match m w with Ret _ w' => view w' = view w | Stop Exited _ => False | Stop _ _ => True end.

Lemma keeps_pure {A} (a : A) : keeps (ret a).
Proof. by intros w. Qed.

Lemma keeps_opt {A} (o : option A) : keeps (lift o).
Proof. intros w. by destruct o. Qed.

Lemma keeps_seq {A B} (m : M W A) (f : A -> M W B) : keeps m -> (forall a, keeps (f a)) -> keeps (bind m f).
Proof.
  intros Hm Hf w. unfold bind. specialize (Hm w). destruct (m w) as [a w1|[] w1]; try done.
  specialize (Hf a w1). destruct (f a w1) as [b w2|[] w2]; try done. congruence.
Qed.

Lemma keeps_reads {A} (m : M W A) a : (forall v, reads m v a) -> keeps m.
Proof.
  intros Hm w. specialize (Hm (view w) (fun _ => False) w eq_refl).
  destruct (m w) as [b w1|[] w1]; naive_solver.
Qed.

Lemma keeps_save_tok buf i : keeps (save_tok buf i).
Proof.
  apply keeps_seq; [apply keeps_opt|intros n].
  apply keeps_seq; [by eapply keeps_reads; intros v; apply malloc_law|intros []]; [apply keeps_opt|by intros w].
Qed.

Lemma keeps_tok_loop {St A} fuel nl period (body : Z -> list Z -> nat -> St -> M W (St + A)) fin :
  (forall c buf i st, keeps (body c buf i st)) ->
  forall buf p tok c st, keeps (tok_loop fuel nl period body fin buf p tok c st).
Proof.
  intros Hb. induction fuel as [|fuel IH]; intros buf p tok c st; cbn [tok_loop]; [by intros w|].
  destruct tok as [i|]; [|apply keeps_pure]. apply keeps_seq; [apply Hb|intros [st'|a]]; [|apply keeps_pure].
  apply keeps_seq; [apply keeps_opt|intros [[buf' p'] tok']]. apply IH.
Qed.

(** Whatever [m] returns, it closes [fd] and leaves the rest of the view. *)
Definition closes {A} (fd : Z) (m : M W A) : Prop :=
  forall w x, handles (view w) !! fd = Some x ->
    match m w with
    | Ret _ w' => view w' = with_handles (view w) (delete fd (handles (view w)))
    | Stop Exited _ => False
    | Stop _ _ => True
    end.

Lemma closes_bind {A B} fd (m : M W A) (f : A -> M W B) : keeps m -> (forall a, closes fd (f a)) -> closes fd (bind m f).
Proof.
  intros Hm Hf w x Hx. unfold bind. specialize (Hm w). destruct (m w) as [a w1|[] w1]; try done.
  rewrite <- Hm in *. by apply (Hf a w1 x).
Qed.

Lemma closes_close {B} fd (f : Z -> M W B) : (forall a, keeps (f a)) -> closes fd (bind (u_close fd) f).
Proof.
  intros Hf w x Hx. unfold bind. pose proof (close_law fd (view w) x (fun _ => False) Hx w eq_refl) as Hc.
  destruct (u_close fd w) as [a w1|[] w1]; try done. specialize (Hf a w1).
  destruct (f a w1) as [b w2|[] w2]; try done. congruence.
Qed.

(** A routine that opens a file, reads it and goes on with [k], which closes
    it: if it returns, it leaves the view. *)
Lemma file_reads {A} path d (e1 e2 : M W A) (k : Z -> list Z -> M W A) v a :
  files v !! path = Some d -> d <> [] -> (forall fd data, closes fd (k fd data)) ->
  let m := bind (u_open path 0) (fun fd => if fd <? 0 then e1 else
    bind (u_read fd (Z.of_nat BUFSZ)) (fun nd => let '(n, data) := nd in if n <=? 0 then e2 else k fd data)) in
  (forall w, view w = v -> exists w', m w = Ret a w') -> reads m v a.
Proof.
  intros Hf Hd Hk m Hm E w Hw. destruct (Hm w Hw) as [w' Hret]. rewrite Hret. split; [done|].
  unfold m, bind in Hret.
  pose proof (open_law path 0 v d (fun _ => False) Hf w Hw) as Ho.
  destruct (u_open path 0 w) as [fd w1|[] w1]; try done. destruct Ho as (Hfd & Hfresh & Hv1).
  rewrite (proj2 (Z.ltb_ge fd 0)) in Hret by lia.
  assert (Hh1 : handles (view w1) !! fd = Some (path, O)) by (rewrite Hv1; apply lookup_insert_eq).
  assert (Hf1 : files (view w1) !! path = Some d) by (by rewrite Hv1).
  pose proof (read_law fd (Z.of_nat BUFSZ) path O _ d (fun _ => False) Hh1 Hf1 ltac:(lia) w1 eq_refl) as Hr.
  destruct (u_read fd (Z.of_nat BUFSZ) w1) as [nd w2|[] w2]; try done. destruct Hr as [-> Hv2].
  rewrite Nat2Z.id, drop_0 in *. set (data := take BUFSZ d) in *.
  assert (0 < length data)%nat by (unfold data; rewrite length_take; destruct d; [done|cbn [length]; unfold BUFSZ; lia]).
  rewrite (proj2 (Z.leb_gt _ 0)) in Hret by lia.
  assert (Hh2 : handles (view w2) !! fd = Some (path, length data)) by (rewrite Hv2; apply lookup_insert_eq).
  specialize (Hk fd data w2 _ Hh2). rewrite Hret in Hk. rewrite Hk, Hv2, Hv1.
  destruct v as [f h t ds c tr]. unfold with_handles. cbn in *. f_equal.
  rewrite insert_insert_eq. by apply delete_insert_id.
Qed.

Lemma walk_reads {St A} path d cannot nl period junk null (body : Z -> list Z -> nat -> St -> M W (St + A)) fin st v a :
  files v !! path = Some d -> d <> [] -> (forall c buf i st, keeps (body c buf i st)) ->
  (forall w, view w = v -> exists w', walk path cannot nl period junk null body fin st w = Ret a w') ->
  reads (walk path cannot nl period junk null body fin st) v a.
Proof.
  intros Hf Hd Hb. apply (file_reads path d); [done|done|]. intros fd data.
  apply closes_bind; [apply keeps_opt|intros [[buf p] tok]].
  apply closes_bind; [by apply keeps_tok_loop|intros r]. apply closes_close. intros _. apply keeps_pure.
Qed.

Lemma filelen_reads path d cannot junk v a :
  files v !! path = Some d -> d <> [] ->
  (forall w, view w = v -> exists w', filelen path cannot junk w = Ret a w') -> reads (filelen path cannot junk) v a.
Proof.
  intros Hf Hd. apply (file_reads path d); [done|done|]. intros fd data.
  apply closes_close. intros _. apply keeps_seq; [apply keeps_opt|intros n; apply keeps_pure].
Qed.

(** In the view [v] the file at [path] is the text [t], perhaps followed by
    zeros, and it is read as a string with the stack contents [junk]. *)
Definition has_text (v : vstate) (path t junk : list Z) : Prop :=
  exists pad, files v !! path = Some (t ++ pad) /\ (length (t ++ pad) <= BUFSZ)%nat /\
    splice junk 0 (t ++ pad) !! length t = Some 0.

Lemma text_opens v w path t junk : has_text v path t junk -> view w = v -> reads_text w path junk t.
Proof.
  intros (pad & Hf & Hl & Hz) Hw. exists (t ++ pad). split; [|split; [by apply prefix_app_r|done]].
  pose proof (open_law path 0 v _ (fun _ => False) Hf w Hw) as Ho. unfold opens_and_reads.
  destruct (u_open path 0 w) as [fd w1|[] w1] eqn:Eo; try done. destruct Ho as (Hfd & Hfresh & Hv1).
  assert (Hh1 : handles (view w1) !! fd = Some (path, O)) by (rewrite Hv1; apply lookup_insert_eq).
  assert (Hf1 : files (view w1) !! path = Some (t ++ pad)) by (by rewrite Hv1).
  pose proof (read_law fd (Z.of_nat BUFSZ) path O _ _ (fun _ => False) Hh1 Hf1 ltac:(lia) w1 eq_refl) as Hr.
  destruct (u_read fd (Z.of_nat BUFSZ) w1) as [nd w2|[] w2] eqn:Er; try done. destruct Hr as [-> Hv2].
  exists fd, w1, w2. rewrite Nat2Z.id, drop_0, take_ge in Er by lia. split; [lia|]. by rewrite Er.
Qed.

Definition zeros (l : list Z) : Prop := Forall (eq 0) l.

(** The file at [path] is the text [t], perhaps followed by zeros, and is
    shorter than the buffers of the lookups. *)
Definition text_file (v : vstate) (path t : list Z) : Prop :=
  exists pad, files v !! path = Some (t ++ pad) /\ zeros pad /\ (length (t ++ pad) <= BUFSZ)%nat.

(** A stack buffer that has a zero after the text. *)
Definition terminated (junk t : list Z) : Prop := length junk = BUFSZ /\ junk !! length t = Some 0.

Lemma has_text_of v path t junk : text_file v path t -> terminated junk t -> has_text v path t junk.
Proof.
  intros (pad & Hf & Hz & Hl) [Hj Hjz]. exists pad. split; [done|]. split; [done|].
  unfold splice. rewrite take_0. cbn [app Nat.add]. rewrite <- app_assoc, lookup_app_r, Nat.sub_diag by lia.
  destruct pad as [|x pad]; [rewrite app_nil_r; cbn [app]; by rewrite lookup_drop, Nat.add_0_r|].
  by apply Forall_cons_iff in Hz as [<- _].
Qed.

Definition pw_view (v : vstate) (junk : list Z) (db : list pw_entry) : Prop :=
  db <> [] /\ Forall wf_pw db /\ has_text v etc_passwd (pw_file db) junk.

Definition gr_view (v : vstate) (junk : list Z) (db : list gr_entry) : Prop :=
  db <> [] /\ Forall wf_gr db /\ has_text v etc_group (gr_file db) junk.

Lemma pw_view_is v w junk db : pw_view v junk db -> view w = v -> passwd_is w junk db.
Proof. intros (Hne & Hwf & Ht) Hw. split; [done|]. split; [done|]. by eapply text_opens. Qed.

Lemma gr_view_is v w junk db : gr_view v junk db -> view w = v -> group_is w junk db.
Proof. intros (Hne & Hwf & Ht) Hw. split; [done|]. split; [done|]. by eapply text_opens. Qed.

Lemma pw_view_file v junk db : pw_view v junk db -> exists d, files v !! etc_passwd = Some d /\ d <> [].
Proof.
  intros (Hne & Hwf & pad & Hf & _). eexists. split; [done|].
  pose proof (pw_file_ne db Hwf Hne). by destruct (pw_file db).
Qed.

Lemma gr_view_file v junk db : gr_view v junk db -> exists d, files v !! etc_group = Some d /\ d <> [].
Proof.
  intros (Hne & Hwf & pad & Hf & _). eexists. split; [done|].
  pose proof (gr_file_ne db Hwf Hne). by destruct (gr_file db).
Qed.
End Lookups.

(** The body of a lookup: it saves tokens and compares. *)
Ltac solve_keeps :=
  intros; repeat first
    [ apply keeps_pure | apply keeps_opt | apply keeps_save_tok | (apply keeps_seq; [|intros])
    | match goal with |- keeps (if ?b then _ else _) => destruct b end
    | match goal with |- keeps (same_tok _ _ _) => unfold same_tok end
    | match goal with |- keeps (tok_atoi _ _) => unfold tok_atoi end ].

Section Auth.
Context {W : Type} `{AccountLaws W} `{!SyscallLaws W}.

Ltac pw_reads Hv H :=
  let d := fresh "d" in let Hf := fresh "Hf" in let Hd := fresh "Hd" in
  destruct (pw_view_file _ _ _ Hv) as (d & Hf & Hd);
  apply (walk_reads _ _ _ _ _ _ _ _ _ _ _ _ Hf Hd); [solve_keeps|];
  let w := fresh "w" in let Hw := fresh "Hw" in intros w Hw; eapply H.

Lemma usertouid_reads junk db name r v : pw_view v junk db -> nonul name ->
  reads (usertouid junk (name ++ 0 :: r)) v
    (match find (named name) db with Some e => pw_uid e | None => minus1u end).
Proof. intros Hv Hn. pw_reads Hv usertouid_lookup; [done|by eapply pw_view_is]. Qed.

Lemma validateuserpass_reads junk db uid pass r v : pw_view v junk db -> nonul pass ->
  reads (validateuserpass junk uid (pass ++ 0 :: r)) v
    (match find (has_uid uid) db with Some e => if bool_decide (pw_pass e = pass) then 1 else 0 | None => 0 end).
Proof. intros Hv Hn. pw_reads Hv validateuserpass_returns; [done|by eapply pw_view_is]. Qed.

Lemma uidtouser_reads junk db uid v : pw_view v junk db ->
  reads (uidtouser junk uid) v (match find (has_uid uid) db with Some e => Some (pw_name e ++ [0]) | None => None end).
Proof. intros Hv. pw_reads Hv uid_lookups. by eapply pw_view_is. Qed.

Lemma uidtopass_reads junk db uid v : pw_view v junk db ->
  reads (uidtopass junk uid) v (match find (has_uid uid) db with Some e => Some (pw_pass e ++ [0]) | None => None end).
Proof. intros Hv. pw_reads Hv uid_lookups. by eapply pw_view_is. Qed.

Lemma uidtogid_reads junk db uid v : pw_view v junk db ->
  reads (uidtogid junk uid) v (match find (has_uid uid) db with Some e => pw_gid e | None => minus1u end).
Proof. intros Hv. pw_reads Hv uid_lookups. by eapply pw_view_is. Qed.

Lemma uidtodir_reads junk db uid v : pw_view v junk db ->
  reads (uidtodir junk uid) v (match find (has_uid uid) db with Some e => Some (pw_dir e ++ [0]) | None => None end).
Proof. intros Hv. pw_reads Hv uid_lookups. by eapply pw_view_is. Qed.

Lemma nextuid_reads junk db v : pw_view v junk db -> reads (nextuid junk) v (next_id (map pw_uid db)).
Proof. intros Hv. pw_reads Hv nextuid_pass. by eapply pw_view_is. Qed.

Lemma nextgid_reads junk db v : gr_view v junk db -> reads (nextgid junk) v (next_id (map gr_gid db)).
Proof.
  intros Hv. destruct (gr_view_file _ _ _ Hv) as (d & Hf & Hd).
  apply (walk_reads _ _ _ _ _ _ _ _ _ _ _ _ Hf Hd); [solve_keeps|]. intros w Hw. eapply nextgid_pass. by eapply gr_view_is.
Qed.

Lemma validateuid_reads junk db uid v : pw_view v junk db ->
  reads (validateuid junk uid) v (if existsb (Z.eqb uid) (map pw_uid db) then minus1u else 0).
Proof. intros Hv. pw_reads Hv validateuid_pass. by eapply pw_view_is. Qed.

Lemma grouptogid_reads junk db name r v : gr_view v junk db -> nonul name ->
  reads (grouptogid junk (name ++ 0 :: r)) v
    (match find (gnamed name) db with Some g => gr_gid g | None => minus1u end).
Proof.
  intros Hv Hn. destruct (gr_view_file _ _ _ Hv) as (d & Hf & Hd).
  apply (walk_reads _ _ _ _ _ _ _ _ _ _ _ _ Hf Hd); [solve_keeps|]. intros w Hw.
  eapply (group_lookups w junk db name r 0); [done|by eapply gr_view_is].
Qed.

Lemma passwdlen_reads junk db v : pw_view v junk db -> reads (passwdlen junk) v (Z.of_nat (length (pw_file db))).
Proof.
  intros Hv. destruct (pw_view_file _ _ _ Hv) as (d & Hf & Hd). destruct Hv as (Hne & Hwf & Ht).
  eapply filelen_reads; [done|done|]. intros w Hw. apply filelen_text; [by apply pw_file_ne|by apply pw_file_nonul|].
  by eapply text_opens.
Qed.

Lemma grouplen_reads junk db v : gr_view v junk db -> reads (grouplen junk) v (Z.of_nat (length (gr_file db))).
Proof.
  intros Hv. destruct (gr_view_file _ _ _ Hv) as (d & Hf & Hd). destruct Hv as (Hne & Hwf & Ht).
  eapply filelen_reads; [done|done|]. intros w Hw. apply filelen_text; [by apply gr_file_ne|by apply gr_file_nonul|].
  by eapply text_opens.
Qed.
End Auth.

(** ** Lines typed on the console *)

Definition eol (c : Z) : Prop := c = 10 \/ c = 13.

(** A line that can be typed and kept: no terminator and no end of line. *)
Definition plain (l : list Z) : Prop := nonul l /\ Forall (fun c => ~ eol c) l.

#[export] Instance plain_dec l : Decision (plain l).
Proof. unfold plain, eol. apply _. Defined.

Section Console.
Context {W : Type} `{AccountLaws W}.

Lemma ugets_loop_spec l : forall n buf i c rest v E,
  plain l -> eol c -> typed v = l ++ c :: rest -> handles v !! 0 = None ->
  (length l < n)%nat -> (i + length l < length buf)%nat ->
  spec (ugets_loop n buf i) v (fun r v' =>
    r = (splice buf i (l ++ [c]), (i + length l + 1)%nat) /\ v' = with_typed v rest) E.
Proof.
  induction l as [|x l IH]; intros n buf i c rest v E Hl Hc Hv Hh Hn Hi; (destruct n as [|n]; [cbn in Hn; lia|]);
    cbn [ugets_loop length app] in *.
  - eapply spec_bind; [by eapply console_law|]. cbn. intros r v1 [-> ->]. cbn [fst snd]. rewrite (proj2 (Z.ltb_ge 1 1)) by lia.
    eapply spec_let; [done|]. eapply spec_let; [apply store_in; lia|]. replace ((c =? 10) || (c =? 13)) with true by (destruct Hc as [->| ->]; done).
    apply spec_ret. split; [|done]. rewrite <- splice_cons, splice_nil by lia. f_equal. lia.
  - destruct Hl as [[Hx Hnl]%nonul_cons [Hex Hel]%Forall_cons_iff].
    eapply spec_bind; [by eapply console_law|]. cbn. intros r v1 [-> ->]. cbn [fst snd]. rewrite (proj2 (Z.ltb_ge 1 1)) by lia.
    eapply spec_let; [done|]. eapply spec_let; [apply store_in; lia|]. replace ((x =? 10) || (x =? 13)) with false
      by (unfold eol in Hex; destruct (Z.eqb_spec x 10), (Z.eqb_spec x 13); tauto).
    eapply spec_mono; [apply (IH n _ (S i) c rest); try done; rewrite ?length_insert; lia|].
    cbn. intros r v1 [-> ->]. split; [|done]. rewrite splice_cons by lia. f_equal. lia.
Qed.

Lemma ugets_spec l buf c rest v E :
  plain l -> eol c -> typed v = l ++ c :: rest -> handles v !! 0 = None -> (length l + 2 <= length buf)%nat ->
  spec (ugets buf (length buf)) v (fun s v' => s = splice buf 0 (l ++ [c; 0]) /\ v' = with_typed v rest) E.
Proof.
  intros Hl Hc Hv Hh Hb. unfold ugets. eapply spec_bind; [apply (ugets_loop_spec l _ _ _ c rest); try done; lia|].
  cbn. intros r v1 [-> ->]. cbn [fst snd].
  eapply (spec_lift _ (splice buf 0 (l ++ [c; 0]))); [|done].
  assert (Hlen : length (l ++ [c]) = (length l + 1)%nat) by (rewrite length_app; done).
  rewrite store_in by (rewrite splice_length; lia). f_equal.
  pose proof (splice_snoc buf 0 0 (l ++ [c]) ltac:(lia)) as E1. rewrite Hlen in E1. cbn [Nat.add] in E1.
  rewrite E1, <- app_assoc. done.
Qed.

Lemma chop_line l c buf : plain l -> eol c -> (length l + 2 <= length buf)%nat ->
  exists r, chop (splice buf 0 (l ++ [c; 0])) = Some (l ++ 0 :: r) /\ length (l ++ 0 :: r) = length buf.
Proof.
  intros [Hl _] Hc Hb. unfold splice. rewrite take_0, !app_nil_l, <- app_assoc. set (d := drop _ buf). unfold chop.
  replace (l ++ [c; 0] ++ d) with ((l ++ [c]) ++ 0 :: d) by by rewrite <- app_assoc.
  rewrite strlen_app by (apply nonul_app; split; [done|repeat constructor; destruct Hc; lia]).
  rewrite length_app, Nat.add_1_r. rewrite obind_some, <- app_assoc. cbn [app]. rewrite store_app.
  eexists. split; [done|]. unfold d. rewrite !length_app. cbn [length]. rewrite length_drop, ?length_app. cbn [length]. lia.
Qed.

Lemma ask_spec prompt l buf c rest v E :
  plain l -> eol c -> typed v = l ++ c :: rest -> handles v !! 0 = None -> (length l + 2 <= length buf)%nat ->
  spec (ask prompt buf) v (fun s v' =>
    (exists r, s = l ++ 0 :: r /\ length s = length buf) /\ v' = with_typed v rest) E.
Proof.
  intros Hl Hc Hv Hh Hb. unfold ask. eapply spec_bind; [apply printf_law|]. cbn. intros _ v1 [_ ->].
  eapply spec_bind; [apply echoswitch_law|]. cbn. intros _ v1 [_ ->].
  eapply spec_bind; [by apply (ugets_spec l _ c rest)|]. cbn. intros s v1 [-> ->].
  eapply spec_bind; [apply echoswitch_law|]. cbn. intros _ v1 [_ ->].
  destruct (chop_line l c buf Hl Hc Hb) as (r & Hr & Hlr). eapply spec_lift; [done|]. split; [by exists r|done].
Qed.
End Console.

(** Step over a call that only reads. *)
Ltac sp_reads H := eapply spec_bind; [eapply H|cbn beta; intros ? ? [-> ->]].

Lemma die_spec {W A} `{AccountLaws W} msg v (Q : A -> vstate -> Prop) (E : vstate -> Prop) : E v -> spec (die msg) v Q E.
Proof. intros HE. unfold die. sp_reads printf_law. by apply spec_exit. Qed.
