(* ===== verification/Passwd.v ===== *)
(** * Changing a password

    [user/passwd.c] on a well-formed /etc/passwd: the program replaces the
    password of the caller's line and nothing else. *)

From S2P Require Import Prelude CStr USys Auth Accounts AcctView.

(** ** Editing the text *)

(** One round of [squeeze] deletes the byte at [start]. *)
Lemma squeeze_one p x t bt : nonul (p ++ x :: t) ->
  exists n, strlen (p ++ x :: t ++ 0 :: bt) = Some n /\
    umemmove (p ++ x :: t ++ 0 :: bt) (length p) (length p + 1) (Z.of_nat n - Z.of_nat (length p)) =
    Some (p ++ t ++ 0 :: 0 :: bt).
Proof.
  intros Hn. replace (p ++ x :: t ++ 0 :: bt) with ((p ++ x :: t) ++ 0 :: bt) by by rewrite <- app_assoc.
  eexists. split; [by apply strlen_app|]. unfold umemmove.
  replace (Z.to_nat (Z.of_nat (length (p ++ x :: t)) - Z.of_nat (length p))) with (S (length t))
    by (rewrite length_app; cbn [length]; lia).
  rewrite copy_up_splice by (rewrite ?length_app; cbn [length]; lia). f_equal.
  replace (slice ((p ++ x :: t) ++ 0 :: bt) (length p + 1) (S (length t))) with (t ++ [0]).
  - replace ((p ++ x :: t) ++ 0 :: bt) with (p ++ (x :: t) ++ 0 :: bt) by by rewrite <- app_assoc.
    rewrite splice_app by (rewrite length_app; cbn [length]; lia). by rewrite <- !app_assoc.
  - unfold slice. rewrite <- app_assoc. replace (length p + 1)%nat with (length (p ++ [x])) by (rewrite length_app; cbn; lia).
    cbn [app]. replace (p ++ x :: t ++ 0 :: bt) with ((p ++ [x]) ++ t ++ [0] ++ bt) by (by rewrite <- app_assoc).
    rewrite drop_app_length, (app_assoc t). replace (S (length t)) with (length (t ++ [0])) by (rewrite length_app; cbn; lia).
    by rewrite take_app_length.
Qed.

Lemma squeeze_deletes d : forall p t bt, nonul (p ++ d ++ t) ->
  exists bt', squeeze (length d) (p ++ d ++ t ++ 0 :: bt) (length p) = Some (p ++ t ++ 0 :: bt').
Proof.
  induction d as [|x d IH]; intros p t bt Hn; [by exists bt|]. cbn [length squeeze app].
  replace (p ++ x :: d ++ t ++ 0 :: bt) with (p ++ x :: (d ++ t) ++ 0 :: bt) by by rewrite <- app_assoc.
  destruct (squeeze_one p x (d ++ t) bt Hn) as (n & -> & Hm). rewrite obind_some, Hm, obind_some, <- app_assoc. apply IH.
  apply nonul_app in Hn as [Hp Hn]. apply nonul_cons in Hn as [_ Hn]. by apply nonul_app.
Qed.

Lemma strstr_at a k b r r' :
  nonul (a ++ k ++ b) -> nonul k -> k <> [] ->
  (forall j, (j < length a)%nat -> ~ k `prefix_of` drop j (a ++ k ++ b)) ->
  strstr ((a ++ k ++ b) ++ 0 :: r) (k ++ 0 :: r') = Some (Some (length a)).
Proof.
  intros Hl Hk Hne Hfirst. destruct (strstr_leftmost _ _ r r' Hl Hk Hne) as (o & -> & Ho). f_equal.
  assert (Hat : k `prefix_of` drop (length a) (a ++ k ++ b)) by (rewrite drop_app_length; by apply prefix_app_r).
  destruct o as [i|]; [|by destruct (Ho (length a))]. destruct Ho as [Hi Hj]. f_equal.
  destruct (decide (i < length a)%nat) as [Hlt|]; [by destruct (Hfirst i Hlt)|].
  destruct (decide (length a < i)%nat) as [Hlt|]; [by destruct (Hj _ Hlt)|lia].
Qed.

(** [edit] on a text in which the first occurrence of [name:] is at the start
    of the line of [name]. *)
Lemma edit_replaces junk name old new a b r1 r2 r3 bt z :
  nonul (a ++ name ++ COLON :: old ++ b) -> nonul new ->
  (forall j, (j < length a)%nat -> ~ (name ++ [COLON]) `prefix_of` drop j (a ++ name ++ COLON :: old ++ b)) ->
  junk "srchbuff" = 0 :: z -> (length name + 1 <= length z)%nat ->
  (length (a ++ name ++ COLON :: new ++ b) < length (junk "file"))%nat ->
  exists tail, edit junk (name ++ 0 :: r1) (old ++ 0 :: r2) (new ++ 0 :: r3) ((a ++ name ++ COLON :: old ++ b) ++ 0 :: bt) =
    Some ((a ++ name ++ COLON :: new ++ b) ++ 0 :: tail).
Proof.
  intros Ht Hnew Hfirst Hz Hlz Hfile. pose proof Ht as Ht'. rewrite !nonul_app, nonul_cons, nonul_app in Ht'.
  destruct Ht' as (Ha & Hname & _ & Hold & Hb). unfold edit. rewrite Hz.
  pose proof (strcat_app [] [] z name r1 ltac:(constructor) Hname ltac:(lia)) as E1. cbn [app length] in E1.
  rewrite E1, obind_some.
  pose proof (strcat_app [] name (drop (length name) z) [COLON] [] Hname ltac:(by repeat constructor)
    ltac:(rewrite length_drop; cbn [length]; lia)) as E2. cbn [app length] in E2. rewrite E2, obind_some.
  set (sb := drop _ (drop _ z)). set (p := a ++ name ++ [COLON]).
  replace (name ++ COLON :: 0 :: sb) with ((name ++ [COLON]) ++ 0 :: sb) by by rewrite <- app_assoc.
  replace (a ++ name ++ COLON :: old ++ b) with (a ++ (name ++ [COLON]) ++ old ++ b) in * by by rewrite <- app_assoc.
  assert (Hpat : nonul (name ++ [COLON])) by (apply nonul_app; split; [done|by repeat constructor]).
  rewrite strstr_at, obind_some by (done || by destruct name). rewrite obind_some.
  rewrite (strlen_app name), obind_some by done. rewrite (strlen_app old), obind_some by done.
  replace (length a + length name + 1)%nat with (length p) by (unfold p; rewrite !length_app; cbn; lia).
  replace ((a ++ (name ++ [COLON]) ++ old ++ b) ++ 0 :: bt) with (p ++ old ++ b ++ 0 :: bt)
    by (unfold p; by rewrite <- !app_assoc).
  assert (Hp : nonul p) by (unfold p; by apply nonul_app).
  destruct (squeeze_deletes old p b bt) as [bt' ->]; [by rewrite !nonul_app|]. rewrite obind_some.
  replace (p ++ b ++ 0 :: bt') with ((p ++ b) ++ 0 :: bt') by by rewrite <- app_assoc.
  assert (Hlp : (length p + length new + length b < length (junk "file"))%nat).
  { revert Hfile. unfold p. rewrite !length_app. cbn [length]. rewrite !length_app. cbn [length]. lia. }
  rewrite strncpy_pads, obind_some by (rewrite ?nonul_app; done || lia).
  rewrite <- (app_assoc p b (replicate _ _)), take_app_length.
  set (f := drop (length p) (junk "file")). destruct f as [|c f'] eqn:Ef.
  { apply (f_equal length) in Ef. unfold f in Ef. rewrite length_drop in Ef. cbn in Ef. lia. }
  assert (Hf : (length new + length b <= length f')%nat).
  { apply (f_equal length) in Ef. unfold f in Ef. rewrite length_drop in Ef. cbn in Ef. lia. }
  unfold splice. rewrite take_0. cbn [Nat.add app]. fold f. rewrite Ef, store_app, obind_some.
  pose proof (strcat_app [] p f' new r3 Hp Hnew ltac:(lia)) as E3. cbn [app length] in E3. rewrite E3, obind_some.
  rewrite <- (app_assoc p b (0 :: bt')), drop_app_length.
  pose proof (strcat_app [] (p ++ new) (drop (length new) f') b bt' ltac:(by rewrite nonul_app) Hb
    ltac:(rewrite length_drop; lia)) as E4. cbn [app length] in E4.
  rewrite <- app_assoc in E4. rewrite E4, obind_some, <- app_assoc, !(app_assoc new), (app_assoc p).
  rewrite strlen_app, obind_some, store_app by (by rewrite !nonul_app).
  eexists. unfold p. rewrite <- !app_assoc. cbn [app]. by rewrite <- app_assoc.
Qed.

(** ** The file and its lines *)

Definition set_pass (e : pw_entry) (pass : list Z) : pw_entry :=
  {| pw_name := pw_name e; pw_pass := pass; pw_uid := pw_uid e; pw_gid := pw_gid e;
     pw_gecos := pw_gecos e; pw_dir := pw_dir e |}.

Lemma text_app nl l k : text nl (l ++ k) = text nl l ++ text nl k.
Proof. induction l as [|[c fld] l IH]; [done|]. cbn [app text]. by rewrite IH, <- app_assoc. Qed.

Lemma pw_file_app db db' : pw_file (db ++ db') = pw_file db ++ pw_file db'.
Proof. unfold pw_file. by rewrite flat_map_app, text_app. Qed.

(** What follows the password in the file. *)
Definition after_pass (e : pw_entry) (post : list pw_entry) : list Z :=
  COLON :: text 4 (drop 2 (pw_fields e) ++ flat_map pw_fields post).

Lemma pw_file_line pre e post pass :
  pw_file (pre ++ set_pass e pass :: post) =
  pw_file pre ++ pw_name e ++ COLON :: pass ++ after_pass e post.
Proof. rewrite pw_file_app. done. Qed.

Lemma set_pass_same e : set_pass e (pw_pass e) = e.
Proof. by destruct e. Qed.

(** The first [name:] of the file is the one of the line after [pre]. *)
Definition first_match (pre : list pw_entry) (e : pw_entry) (post : list pw_entry) : Prop :=
  forall j, (j < length (pw_file pre))%nat ->
    ~ (pw_name e ++ [COLON]) `prefix_of` drop j (pw_file (pre ++ e :: post)).

(** The buffers on the stack of [main]. *)
Definition stack_ok (junk : string -> list Z) : Prop :=
  length (junk "currpass") = 32%nat /\ length (junk "pass") = 32%nat /\ length (junk "reppass") = 32%nat /\
  length (junk "buff") = 512%nat /\ length (junk "file") = 512%nat /\
  (exists z, junk "srchbuff" = 0 :: z /\ length z = 255%nat).

Lemma zeros_drop n l : zeros l -> zeros (drop n l).
Proof. apply Forall_drop. Qed.

(** Overwriting the start of the file and clearing what is left of the old
    text leaves zeros after the new text. *)
Lemma rewrite_longer (t t' pad : list Z) : (length t <= length t')%nat -> zeros pad ->
  exists pad', zeros pad' /\ splice (t ++ pad) 0 t' = t' ++ pad' /\
    length (t' ++ pad') = Nat.max (length t') (length (t ++ pad)).
Proof.
  intros Hl Hp. exists (drop (length t' - length t) pad). split; [by apply zeros_drop|].
  unfold splice. rewrite take_0. cbn [app Nat.add]. split.
  - f_equal. rewrite drop_app. by rewrite drop_ge by lia.
  - rewrite !length_app, length_drop. lia.
Qed.

Lemma rewrite_shorter (t t' pad : list Z) k : (length t' + k = length t)%nat -> zeros pad ->
  exists pad', zeros pad' /\ splice (splice (t ++ pad) 0 t') (length t') (replicate k 0) = t' ++ pad' /\
    length (t' ++ pad') = length (t ++ pad).
Proof.
  intros Hl Hp. exists (replicate k 0 ++ pad). split; [|split].
  { apply Forall_app. split; [by apply Forall_replicate|done]. }
  2:{ rewrite !length_app, length_replicate. lia. }
  unfold splice at 2. rewrite take_0. cbn [app Nat.add]. rewrite drop_app.
  replace (length t' - length t)%nat with O by lia. rewrite drop_0.
  rewrite splice_app by (rewrite length_replicate, length_drop; lia). done.
Qed.

(** ** The program *)

Section Program.
Context {W : Type} `{AccountLaws W} `{!SyscallLaws W}.
Context (junk : string -> list Z) (Hjunk : stack_ok junk).
Context (pre post : list pw_entry) (e : pw_entry).
Let db := pre ++ e :: post.
Context (Hwf : Forall wf_pw db) (Hfirst : first_match pre e post) (Hname : (length (pw_name e) < 255)%nat).

(** In [v] /etc/passwd has the lines [db], and fits in [buff]. *)
Definition fits (v : vstate) : Prop :=
  exists pad, files v !! etc_passwd = Some (pw_file db ++ pad) /\ zeros pad /\
    (length (pw_file db ++ pad) <= 512)%nat /\ splice (junk "buff") 0 (pw_file db ++ pad) !! length (pw_file db) = Some 0.

(** In [v'] the password of [e] is [pass], and no other file has changed
    since [v]. *)
Definition changed (pass : list Z) (v v' : vstate) : Prop :=
  exists pad, zeros pad /\ (length (pw_file (pre ++ set_pass e pass :: post) ++ pad) <= 512)%nat /\
    files v' = <[etc_passwd := pw_file (pre ++ set_pass e pass :: post) ++ pad]> (files v).

Lemma edit_db pass r1 r2 r3 bt : nonul pass ->
  (length (pw_file (pre ++ set_pass e pass :: post)) < 512)%nat ->
  exists tail, edit junk (pw_name e ++ 0 :: r1) (pw_pass e ++ 0 :: r2) (pass ++ 0 :: r3) (pw_file db ++ 0 :: bt) =
    Some (pw_file (pre ++ set_pass e pass :: post) ++ 0 :: tail).
Proof.
  intros Hpass Hnew. destruct Hjunk as (_ & _ & _ & _ & Hfile & z & Hsrch & Hz).
  pose proof (pw_file_nonul db Hwf) as Hnn. unfold first_match in Hfirst. unfold db in *.
  pose proof (pw_file_line pre e post (pw_pass e)) as E0. rewrite set_pass_same in E0.
  rewrite E0 in Hnn, Hfirst |- *. rewrite pw_file_line in *.
  apply (edit_replaces junk _ _ _ _ _ _ _ _ _ z); try done; lia.
Qed.

Lemma old_text_pos : (0 < length (pw_file db))%nat.
Proof.
  assert (Hne : pw_file db <> []) by (apply pw_file_ne; [done|unfold db; by destruct pre]).
  by destruct (pw_file db); [|cbn; lia].
Qed.

Lemma new_text pass : nonul pass ->
  nonul (pw_file (pre ++ set_pass e pass :: post)) /\
  (length (pw_file (pre ++ set_pass e pass :: post)) + length (pw_pass e) = length (pw_file db) + length pass)%nat /\
  nonul (pw_pass e) /\ (length (pw_pass e) < length (pw_file db))%nat.
Proof.
  intros Hp. pose proof (pw_file_nonul db Hwf) as Hnn. revert Hnn. unfold db.
  pose proof (pw_file_line pre e post (pw_pass e)) as E0. rewrite set_pass_same in E0. rewrite E0, pw_file_line.
  rewrite !nonul_app, !nonul_cons, !nonul_app, !length_app. cbn [length]. rewrite !length_app. intuition lia.
Qed.

Lemma passwd_write_spec v pass r1 r2 r3 : fits v -> nonul pass ->
  (length (pw_file (pre ++ set_pass e pass :: post)) < 512)%nat ->
  spec (passwd_write junk (pw_name e ++ 0 :: r1) (pw_pass e ++ 0 :: r2) (pass ++ 0 :: r3)) v
    (fun _ _ => False) (changed pass v).
Proof.
  intros (pad & Hf & Hpad & Hlen & Hz) Hpass Hnew. unfold passwd_write.
  destruct Hjunk as (_ & _ & _ & Hbuff & _).
  eapply spec_bind; [eapply open_law; exact Hf|]. intros fd v1 (Hfd & Hfresh & ->).
  rewrite (proj2 (Z.ltb_ge fd 0)) by lia.
  eapply spec_bind; [eapply (read_law fd); [apply lookup_insert_eq|done|lia]|]. cbn beta. intros nd v1 [-> ->].
  rewrite Nat2Z.id, drop_0, Hbuff, (take_ge (_ ++ pad)) by done. cbn [fst snd].
  assert (Hpos : (0 < length (pw_file db))%nat) by apply old_text_pos.
  rewrite (proj2 (Z.leb_gt _ 0)) by (rewrite length_app; lia).
  destruct (text_in_buffer _ _ _ (prefix_app_r _ _ pad (reflexivity _)) Hz) as [bt ->].
  destruct (edit_db pass r1 r2 r3 bt Hpass Hnew) as [tail Hedit]. eapply spec_let; [exact Hedit|].
  eapply spec_bind; [eapply close_law; apply lookup_insert_eq|]. cbn beta. intros _ v1 ->.
  eapply spec_bind; [eapply open_law; exact Hf|]. intros fd2 v1 (Hfd2 & Hfresh2 & ->).
  rewrite (proj2 (Z.ltb_ge fd2 0)) by lia. set (t' := pw_file (pre ++ set_pass e pass :: post)) in *.
  destruct (new_text pass Hpass) as (Hnn & Hsize & Hold & Hlt). fold t' in Hnn, Hsize.
  eapply spec_let; [by apply strlen_app|]. rewrite take_app_length.
  eapply spec_bind; [eapply (write_law fd2); [apply lookup_insert_eq|exact Hf|lia]|]. cbn beta. intros n v1 [-> ->].
  rewrite (proj2 (Z.leb_gt _ 0)) by lia.
  eapply spec_let; [by apply strlen_app|]. eapply spec_let; [by apply strlen_app|].
  destruct (Z.ltb_spec 0 (Z.of_nat (length (pw_pass e)) - Z.of_nat (length pass))) as [Hd|Hd].
  - destruct (rewrite_shorter (pw_file db) t' pad (length (pw_pass e) - length pass)) as (pad' & Hp' & Epad & Hlen'); [lia|done|].
    apply spec_assoc. eapply spec_bind; [eapply (write_law fd2); [apply lookup_insert_eq|apply lookup_insert_eq|]|].
    { rewrite splice_length; rewrite ?length_app; lia. }
    cbn beta. intros n v1 [_ ->]. apply spec_ret_let. eapply spec_bind; [eapply close_law; apply lookup_insert_eq|]. cbn beta. intros _ v1 ->.
    apply spec_exit. exists pad'. split; [done|]. split; [fold t'; lia|]. cbn [files with_files with_handles].
    rewrite insert_insert_eq. fold t'. by rewrite <- Epad.
  - destruct (rewrite_longer (pw_file db) t' pad) as (pad' & Hp' & Epad & Hlen'); [lia|done|].
    apply spec_ret_let.
    eapply spec_bind; [eapply close_law; apply lookup_insert_eq|]. cbn beta. intros _ v1 ->.
    apply spec_exit. exists pad'. split; [done|]. split; [fold t'; lia|]. cbn [files with_files with_handles]. fold t'. by rewrite <- Epad.
Qed.

(** The new password is typed twice. *)
Lemma passwd_new_spec v pass c c' rest r1 r2 : fits v -> plain pass -> eol c -> eol c' ->
  (7 <= length pass <= 30)%nat -> (length (pw_file (pre ++ set_pass e pass :: post)) < 512)%nat ->
  handles v !! 0 = None -> typed v = pass ++ c :: pass ++ c' :: rest ->
  spec (passwd_new junk (Some (pw_name e ++ 0 :: r1)) (pw_pass e ++ 0 :: r2)) v (fun _ _ => False) (changed pass v).
Proof.
  intros Hfits Hplain Hc Hc' Hl Hnew Hh Ht. unfold passwd_new. pose proof (proj1 Hplain) as Hnn.
  pose proof Hjunk as (_ & Hb1 & Hb2 & _).
  eapply spec_bind; [apply (ask_spec _ pass _ c (pass ++ c' :: rest)); try done; lia|].
  cbn beta. intros p1 v1 [[q1 [-> _]] ->].
  eapply spec_let; [by apply strlen_app|]. rewrite (proj2 (Z.ltb_ge _ 7)) by lia.
  eapply spec_bind; [apply (ask_spec _ pass _ c' rest); try done; lia|].
  cbn beta. intros p2 v1 [[q2 [-> _]] ->].
  eapply spec_let; [by apply strlen_app|].
  destruct (strcmp_eq pass pass q1 q2 Hnn Hnn) as (d & Ed & Hd). eapply spec_let; [done|].
  rewrite Nat.eqb_refl, (proj2 (Z.eqb_eq d 0)) by (by apply Hd). cbn [negb orb].
  eapply spec_let; [done|]. by apply (passwd_write_spec (with_typed (with_typed v _) _)).
Qed.

(** After the change the new password is the one that is accepted. *)
Definition accepts (pass : list Z) (v : vstate) : Prop :=
  forall jk, terminated jk (pw_file (pre ++ set_pass e pass :: post)) ->
    reads (W := W) (validateuserpass jk (pw_uid e) (pass ++ [0])) v 1.

Lemma find_after {A} (p : A -> bool) l x k : Forall (fun y => p y = false) l -> p x = true -> find p (l ++ x :: k) = Some x.
Proof. intros Hl Hx. induction Hl as [|y l Hy _ IH]; cbn [app find]; [by rewrite Hx|by rewrite Hy]. Qed.

Lemma changed_accepts v v' pass : Forall (fun x => has_uid (pw_uid e) x = false) pre ->
  ok_field COLON pass -> (length (pw_file (pre ++ set_pass e pass :: post)) < 512)%nat ->
  fits v -> changed pass v v' -> accepts pass v'.
Proof.
  intros Huid Hpass Hnew Hfits (pad' & Hz & Hlen & Hf') jk Hjk.
  set (db' := pre ++ set_pass e pass :: post) in *.
  assert (Hwf' : Forall wf_pw db').
  { unfold db', db in *. apply Forall_app in Hwf as [Hw1 [Hw2 Hw3]%Forall_cons_iff]. apply Forall_app. split; [done|].
    constructor; [|done]. unfold wf_pw in *. cbn. tauto. }
  replace 1 with (match find (has_uid (pw_uid e)) db' with
    | Some x => if bool_decide (pw_pass x = pass) then 1 else 0 | None => 0 end).
  - apply validateuserpass_reads; [|apply Hpass]. split; [apply not_eq_sym, app_cons_not_nil|]. split; [done|].
    apply has_text_of; [|done]. exists pad'. rewrite Hf', lookup_insert_eq. split; [done|]. split; [done|unfold BUFSZ; lia].
  - unfold db'. rewrite find_after; [by cbn; rewrite bool_decide_true|done|]. unfold has_uid. cbn. apply Z.eqb_refl.
Qed.

Lemma spec_post {A} (m : M W A) v (E F : vstate -> Prop) : spec m v (fun _ _ => False) E -> (forall v', E v' -> F v') ->
  spec m v (fun _ _ => False) F.
Proof. intros Hm HEF w Hw. specialize (Hm w Hw). destruct (m w) as [|[]]; auto. Qed.

(** An ordinary user who types the current password and twice a new one of
    at least 7 characters without a colon: [passwd] replaces the password of
    their line of /etc/passwd, changes no other line and no other file, and
    from then on the new password is accepted. *)
Theorem passwd_changes v pass rest :
  caller v = pw_uid e -> pw_uid e <> 0 -> Forall (fun x => has_uid (pw_uid e) x = false) pre ->
  fits v -> pw_view v (junk "uidtouser") db -> pw_view v (junk "validateuserpass") db ->
  plain (pw_pass e) -> (length (pw_pass e) <= 30)%nat ->
  plain pass -> COLON ∉ pass -> (7 <= length pass <= 30)%nat ->
  (length (pw_file (pre ++ set_pass e pass :: post)) < 512)%nat ->
  handles v !! 0 = None -> typed v = pw_pass e ++ NL :: pass ++ NL :: pass ++ NL :: rest ->
  spec (passwd junk []) v (fun _ _ => False) (fun v' => changed pass v v' /\ accepts pass v').
Proof.
  intros Hcaller Hroot Huid Hfits Hv1 Hv2 Hold Hlold Hplain Hcolon Hlen Hnew Hh Ht. pose proof Hjunk as (Hb & _).
  assert (Hfind : find (has_uid (pw_uid e)) db = Some e) by (apply find_after; [done|unfold has_uid; apply Z.eqb_refl]).
  eapply (spec_post _ _ (changed pass v)).
  2:{ intros v' Hv'. split; [done|]. eapply changed_accepts; try done. split; [by destruct pass; cbn in Hlen; [lia|]|].
      split; [apply Hplain|done]. }
  unfold passwd. sp_reads getuid_law. rewrite Hcaller.
  eapply spec_bind; [by apply uidtouser_reads|]. cbn beta. intros ? ? [-> ->]. rewrite Hfind.
  rewrite (proj2 (Z.eqb_neq _ 0)) by done. cbn [negb].
  apply spec_assoc. eapply spec_bind; [by eapply (ask_spec _ (pw_pass e) _ NL); [|left|..|lia]|].
  cbn beta. intros s v1 [[r2 [-> _]] ->].
  apply spec_assoc. eapply spec_bind; [by apply (validateuserpass_reads _ db); [|apply Hold]|]. cbn beta. intros ? ? [-> ->].
  rewrite Hfind, bool_decide_true by done. apply spec_ret_let.
  by apply (passwd_new_spec (with_typed v _) pass NL NL rest []); try done; left.
Qed.

(** Root gives the name of the line and types only the new password. *)
Theorem passwd_by_root v pass rest r :
  caller v = 0 -> Forall (fun x => has_uid (pw_uid e) x = false) pre ->
  Forall (fun x => named (pw_name e) x = false) pre ->
  fits v -> pw_view v (junk "usertouid") db -> pw_view v (junk "uidtopass") db -> (length (pw_pass e) < 32)%nat ->
  plain pass -> COLON ∉ pass -> (7 <= length pass <= 30)%nat ->
  (length (pw_file (pre ++ set_pass e pass :: post)) < 512)%nat ->
  handles v !! 0 = None -> typed v = pass ++ NL :: pass ++ NL :: rest ->
  spec (passwd junk [pw_name e ++ 0 :: r]) v (fun _ _ => False) (fun v' => changed pass v v' /\ accepts pass v').
Proof.
  intros Hcaller Huid Hnm Hfits Hv1 Hv2 Hlold Hplain Hcolon Hlen Hnew Hh Ht. pose proof Hjunk as (Hb & _).
  assert (Hwe : wf_pw e) by (unfold db in Hwf; by apply Forall_app in Hwf as [_ [? _]%Forall_cons_iff]).
  assert (Hfind : find (has_uid (pw_uid e)) db = Some e) by (apply find_after; [done|unfold has_uid; apply Z.eqb_refl]).
  assert (Hfindn : find (named (pw_name e)) db = Some e) by (apply find_after; [done|unfold named; by apply bool_decide_eq_true_2]).
  eapply (spec_post _ _ (changed pass v)).
  2:{ intros v' Hv'. split; [done|]. eapply changed_accepts; try done. split; [by destruct pass; cbn in Hlen; [lia|]|].
      split; [apply Hplain|done]. }
  unfold passwd. sp_reads getuid_law. rewrite Hcaller. cbn [Z.eqb negb]. apply spec_ret_let, spec_assoc.
  eapply spec_let; [done|]. apply spec_assoc.
  eapply spec_bind; [apply (usertouid_reads _ db); [done|apply Hwe]|]. cbn beta. intros ? ? [-> ->]. rewrite Hfindn.
  apply spec_assoc. eapply spec_bind; [by apply (uidtopass_reads _ db)|]. cbn beta. intros ? ? [-> ->]. rewrite Hfind.
  apply spec_assoc. eapply spec_let; [done|].
  eapply spec_let; [apply strcpy_app; [apply Hwe|lia]|].
  unfold splice. rewrite take_0. cbn [app Nat.add]. rewrite <- app_assoc. cbn [app].
  by apply (passwd_new_spec v pass NL NL rest); try done; left.
Qed.

(** A wrong current password: nothing changes. *)
Theorem passwd_refused v wrong rest :
  caller v = pw_uid e -> pw_uid e <> 0 -> Forall (fun x => has_uid (pw_uid e) x = false) pre ->
  pw_view v (junk "uidtouser") db -> pw_view v (junk "validateuserpass") db ->
  plain wrong -> (length wrong <= 30)%nat -> wrong <> pw_pass e ->
  handles v !! 0 = None -> typed v = wrong ++ NL :: rest ->
  spec (passwd junk []) v (fun _ _ => False) (eq (with_typed v rest)).
Proof.
  intros Hcaller Hroot Huid Hv1 Hv2 Hplain Hlen Hne Hh Ht. pose proof Hjunk as (Hb & _).
  assert (Hfind : find (has_uid (pw_uid e)) db = Some e) by (apply find_after; [done|unfold has_uid; apply Z.eqb_refl]).
  unfold passwd. sp_reads getuid_law. rewrite Hcaller.
  eapply spec_bind; [by apply uidtouser_reads|]. cbn beta. intros ? ? [-> ->]. rewrite Hfind.
  rewrite (proj2 (Z.eqb_neq _ 0)) by done. cbn [negb].
  apply spec_assoc. eapply spec_bind; [by eapply (ask_spec _ wrong _ NL); [|left|..|lia]|].
  cbn beta. intros s v1 [[r2 [-> _]] ->].
  apply spec_assoc. eapply spec_bind; [by apply (validateuserpass_reads _ db); [|apply Hplain]|]. cbn beta. intros ? ? [-> ->].
  rewrite Hfind, bool_decide_false by congruence. eapply spec_bind; [by apply (die_spec _ _ (fun _ _ => False))|done].
Qed.
End Program.
