(* ===== verification/Useradd.v ===== *)
(** * Adding users and groups

    [user/useradd.c] and [user/groupadd.c] on well-formed files: a new line
    at the end of each file, a home directory that belongs to the new user,
    and ids that were free. *)

From Stdlib Require Import Sorted.
From S2P Require Import Prelude CStr USys Auth Accounts AcctView Passwd.

(** ** Building a line *)

(** A string in memory: its bytes, its terminator and what follows. *)
Abbreviation in_memory := (fun p : list Z * list Z => p.1 ++ 0 :: p.2).

Lemma strcats_app l : forall a z, nonul a -> Forall (fun p => nonul p.1) l ->
  (length (concat (map fst l)) <= length z)%nat ->
  exists z', strcats (a ++ 0 :: z) (map in_memory l) = Some ((a ++ concat (map fst l)) ++ 0 :: z').
Proof.
  induction l as [|[s r] l IH]; intros a z Ha Hl Hz; cbn [map concat strcats fst snd] in *.
  - exists z. by rewrite app_nil_r.
  - apply Forall_cons_iff in Hl as [Hs Hl]. cbn [fst] in Hs. rewrite length_app in Hz.
    pose proof (strcat_app [] a z s r Ha Hs ltac:(lia)) as E1. cbn [app length] in E1. rewrite E1, obind_some.
    rewrite app_assoc. destruct (IH (a ++ s) (drop (length s) z)) as [z' E2].
    + by apply nonul_app.
    + done.
    + rewrite length_drop. lia.
    + exists z'. by rewrite E2, app_assoc.
Qed.

Lemma itoa_dec n str : 0 < n < 10 ^ 9 -> length str = 10%nat -> exists r, itoa n str 10 = Some (dec n ++ 0 :: r).
Proof.
  intros Hn Hl. rewrite itoa_positive.
  - eexists. unfold splice. rewrite take_0. cbn [app]. rewrite <- app_assoc. unfold dec.
    by rewrite (proj2 (Z.eqb_neq n 0)) by lia.
  - lia.
  - pose proof (rdigits_length 32 n 9 ltac:(change (Z.of_nat 9) with 9; lia)). lia.
Qed.

Lemma dec_short n : 0 < n < 10 ^ 9 -> nonul (dec n) /\ (length (dec n) <= 9)%nat.
Proof.
  intros Hn. split; [apply dec_field; unfold ok_num; lia|].
  unfold dec, ascii_digits. rewrite (proj2 (Z.eqb_neq n 0)), length_map, length_rev by lia.
  apply rdigits_length. change (Z.of_nat 9) with 9. lia.
Qed.

Lemma next_from ids : forall m, m <= fold_left next_step ids m <= m + Z.of_nat (length ids).
Proof.
  induction ids as [|u ids IH]; intros m; cbn [fold_left length]; [lia|].
  destruct ((1000 <=? u) && (u =? m)); [specialize (IH (m + 1))|specialize (IH m)]; lia.
Qed.

Lemma next_id_range ids : 1000 <= next_id ids <= 1000 + Z.of_nat (length ids).
Proof. apply next_from. Qed.

Lemma gr_file_app db db' : gr_file (db ++ db') = gr_file db ++ gr_file db'.
Proof. unfold gr_file. by rewrite flat_map_app, text_app. Qed.

Lemma flat_fields_length {E} (f : E -> list (Z * list Z)) db : (forall x, f x <> []) -> (length db <= length (flat_map f db))%nat.
Proof.
  intros Hf. induction db as [|x db IH]; cbn; [lia|]. rewrite length_app. specialize (Hf x). destruct (f x); [done|]. cbn. lia.
Qed.

Lemma pw_lines db : (length db <= length (pw_file db))%nat.
Proof. etrans; [apply (flat_fields_length pw_fields); done|apply text_length]. Qed.

Lemma gr_lines db : (length db <= length (gr_file db))%nat.
Proof. etrans; [apply (flat_fields_length gr_fields); done|apply text_length]. Qed.

(** ** The programs *)

Section Program.
Context {W : Type} `{AccountLaws W} `{!SyscallLaws W}.

(** The line goes to the end of the text, over the zeros that follow it. *)
Lemma append_line_spec fd path t pad line r (len : M W Z) v E :
  handles v !! fd = Some (path, O) -> files v !! path = Some (t ++ pad) ->
  reads len v (Z.of_nat (length t)) -> nonul line -> line <> [] ->
  spec (append_line fd len (line ++ 0 :: r)) v (fun ok v' => ok = true /\
    v' = with_files (with_handles v (<[fd := (path, (length t + length line)%nat)]> (handles v)))
           (<[path := (t ++ line) ++ drop (length line) pad]> (files v))) E.
Proof.
  intros Hh Hf Hlen Hn Hne. unfold append_line. eapply spec_bind; [apply Hlen|]. cbn beta. intros ? ? [-> ->].
  eapply spec_bind; [eapply read_law; [done|done|lia]|]. cbn beta. intros nd v1 [_ ->].
  rewrite Nat2Z.id, drop_0, take_app_length.
  eapply spec_let; [by apply strlen_app|]. rewrite take_app_length.
  eapply spec_bind; [eapply (write_law fd); [apply lookup_insert_eq|exact Hf|rewrite length_app; lia]|].
  cbn beta. intros n v1 [-> ->]. apply spec_ret. split.
  { destruct line; [done|]. cbn [length]. by rewrite (proj2 (Z.leb_gt _ 0)) by lia. }
  unfold with_files, with_handles. cbn [files handles typed dirs caller trace]. rewrite insert_insert_eq. do 3 f_equal.
  cbn [Nat.add]. unfold splice. rewrite take_app_length, drop_app, drop_ge by lia.
  replace (length t + length line - length t)%nat with (length line) by lia. by rewrite <- app_assoc.
Qed.

Lemma no_option name r opt : nonul name -> MINUS ∉ name -> nonul (chars opt) -> head (chars opt) = Some MINUS ->
  has_opt (name ++ 0 :: r) opt = Some false.
Proof.
  intros Hn Hm Ho Hh. unfold has_opt.
  destruct (strstr_leftmost name (chars opt) r [] Hn Ho ltac:(by destruct (chars opt))) as (o & -> & Hs).
  rewrite obind_some. f_equal. apply bool_decide_eq_false_2. intros [i ->]. destruct Hs as [[k Hk] _].
  destruct (chars opt) as [|c t]; [done|]. cbn in Hh, Hk. simplify_eq.
  apply Hm, (subseteq_drop i name). rewrite Hk. apply list_elem_of_here.
Qed.

Definition home (name : list Z) : list Z := chars "/home/" ++ name.

Lemma home_nonul name : nonul name -> nonul (home name).
Proof. intros Hn. apply nonul_app. split; [by_decide|done]. Qed.

Lemma homedir_spec name r z v E : nonul name -> (length name <= 57)%nat -> length z = 63%nat ->
  spec (W := W) (homedir (0 :: z) (name ++ 0 :: r)) v (fun d v' => (exists z', d = home name ++ 0 :: z') /\ v' = v) E.
Proof.
  intros Hn Hl Hz. unfold homedir. eapply spec_let; [done|]. cbn [Nat.eqb].
  destruct (strcats_app [(chars "/home/", []); (name, r); ([], [0])] [] z) as [z' Ez].
  - constructor.
  - repeat constructor; try done.
  - cbn. rewrite !length_app. cbn. lia.
  - cbn [map app fst snd concat] in Ez. rewrite !app_nil_r in Ez. eapply spec_lift; [exact Ez|]. split; [by exists z'|done].
Qed.

Lemma args_name name r o v E : nonul name -> MINUS ∉ name ->
  spec (W := W) (useradd_args [name ++ 0 :: r] STATUS_UNDEFINED o) v (fun o' v' =>
    o' = {| o_user := Some (name ++ 0 :: r); o_dir := o_dir o; o_id := o_id o; o_name := o_name o |} /\ v' = v) E.
Proof.
  intros Hn Hm. cbn [useradd_args].
  do 4 (eapply spec_let; [apply no_option; [done|done|by_decide|done]|cbn iota]). by apply spec_ret.
Qed.
End Program.

Section Useradd.
Context {W : Type} `{AccountLaws W} `{!SyscallLaws W}.
Context (junk : string -> list Z) (name : list Z) (db : list pw_entry) (gdb : list gr_entry).
Context (Hnul : nonul name) (Hne : name <> []) (Hcol : COLON ∉ name) (Hnl : NL ∉ name) (Hlen : (length name <= 57)%nat).

(** The arrays on the stack of [main]: empty strings. *)
Definition clean_stack : Prop :=
  (exists z, junk "dir" = 0 :: z /\ length z = 63%nat) /\
  (exists z, junk "passbuff" = 0 :: z /\ length z = 255%nat) /\
  (exists z, junk "groupbuff" = 0 :: z /\ length z = 255%nat) /\
  length (junk "_uid") = 10%nat /\ length (junk "_passgid") = 10%nat /\ length (junk "_groupgid") = 10%nat.
Context (Hstack : clean_stack).

Definition new_user : pw_entry :=
  {| pw_name := name; pw_pass := chars "_"; pw_uid := next_id (map pw_uid db); pw_gid := next_id (map gr_gid gdb);
     pw_gecos := chars "_"; pw_dir := home name |}.
Definition new_group : gr_entry :=
  {| gr_name := name; gr_gid := next_id (map gr_gid gdb); gr_members := name |}.

Lemma line_wf uid gid : ok_num uid -> ok_num gid ->
  wf_pw {| pw_name := name; pw_pass := chars "_"; pw_uid := uid; pw_gid := gid; pw_gecos := chars "_"; pw_dir := home name |}.
Proof.
  intros Hu Hg. split_and!; try done; cbn [pw_pass pw_gecos pw_dir]; try by_decide. split; [done|].
  split; [by apply home_nonul|]. unfold home. intros [Hin|]%elem_of_app; [|done]. revert Hin. by_decide.
Qed.

(** The line of /etc/passwd in [passbuff]. *)
Lemma passbuff_line r z ru rg uid gid zd : junk "passbuff" = 0 :: z -> length z = 255%nat ->
  0 < uid < 10 ^ 9 -> 0 < gid < 10 ^ 9 ->
  let e := {| pw_name := name; pw_pass := chars "_"; pw_uid := uid; pw_gid := gid; pw_gecos := chars "_"; pw_dir := home name |} in
  exists z', strcats (junk "passbuff")
      [name ++ 0 :: r; chars ":_:" ++ [0]; dec uid ++ 0 :: ru; [COLON; 0]; dec gid ++ 0 :: rg; [COLON; 0];
       chars "_" ++ [0]; [COLON; 0]; home name ++ 0 :: zd; [NL; 0; 0]] =
    Some (pw_file [e] ++ 0 :: z') /\ nonul (pw_file [e]).
Proof.
  intros Hz Hlz Hu Hg e. rewrite Hz.
  destruct (strcats_app [(name, r); (chars ":_:", []); (dec uid, ru); ([COLON], []); (dec gid, rg); ([COLON], []);
     (chars "_", []); ([COLON], []); (home name, zd); ([NL], [0])] [] z) as [z' Ez].
  - constructor.
  - destruct (dec_short uid Hu), (dec_short gid Hg). pose proof (home_nonul name Hnul).
    repeat constructor; try done.
  - destruct (dec_short uid Hu), (dec_short gid Hg). cbn. repeat (rewrite length_app; cbn). lia.
  - exists z'. assert (E : concat (map fst [(name, r); (chars ":_:", []); (dec uid, ru); ([COLON], []); (dec gid, rg); ([COLON], []);
      (chars "_", []); ([COLON], []); (home name, zd); ([NL], [0])]) = pw_file [e]).
    { cbn. unfold home. rewrite <- ?app_assoc. done. }
    rewrite E in Ez.
    split; [exact Ez|]. apply pw_file_nonul. constructor; [|done].
    apply line_wf; unfold ok_num; lia.
Qed.

(** The line of /etc/group in [groupbuff]. *)
Lemma groupbuff_line r z rg gid : junk "groupbuff" = 0 :: z -> length z = 255%nat -> 0 < gid < 10 ^ 9 ->
  let g := {| gr_name := name; gr_gid := gid; gr_members := name |} in
  exists z', strcats (junk "groupbuff") [name ++ 0 :: r; [COLON; 0]; dec gid ++ 0 :: rg; [COLON; 0]; name ++ 0 :: r; [NL; 0; 0]] =
    Some (gr_file [g] ++ 0 :: z') /\ nonul (gr_file [g]).
Proof.
  intros Hz Hlz Hg g. rewrite Hz. destruct (dec_short gid Hg).
  destruct (strcats_app [(name, r); ([COLON], []); (dec gid, rg); ([COLON], []); (name, r); ([NL], [0])] [] z) as [z' Ez].
  - constructor.
  - repeat constructor; try done.
  - cbn. repeat (rewrite length_app; cbn). lia.
  - exists z'. assert (E : concat (map fst [(name, r); ([COLON], []); (dec gid, rg); ([COLON], []); (name, r); ([NL], [0])]) = gr_file [g])
      by (cbn; by rewrite ?app_nil_r).
    rewrite E in Ez. split; [exact Ez|]. apply gr_file_nonul. constructor; [|done].
    split_and!; unfold ok_num; cbn; done || lia.
Qed.

(** The two files have a line more, the home directory is new and belongs to
    the user. *)
Definition added (v v' : vstate) : Prop :=
  exists pad gpad, zeros pad /\ zeros gpad /\
    files v' = <[etc_group := gr_file (gdb ++ [new_group]) ++ gpad]>
                 (<[etc_passwd := pw_file (db ++ [new_user]) ++ pad]> (files v)) /\
    dirs v' = {[home name]} ∪ dirs v /\
    trace v' = trace v ++ [Chowned (home name) (pw_uid new_user) (pw_gid new_user)].

Context (Hwf : Forall wf_pw db) (Hwfg : Forall wf_gr gdb) (Hdb : db <> []) (Hgdb : gdb <> []).
Context (Ht1 : terminated (junk "nextuid") (pw_file db)) (Ht2 : terminated (junk "passwdlen") (pw_file db)).
Context (Ht3 : terminated (junk "nextgid") (gr_file gdb)) (Ht4 : terminated (junk "grouplen") (gr_file gdb)).

Lemma pw_view_of v jk : text_file v etc_passwd (pw_file db) -> terminated jk (pw_file db) -> pw_view v jk db.
Proof. intros. split; [done|]. split; [done|]. by apply has_text_of. Qed.

Lemma gr_view_of v jk : text_file v etc_group (gr_file gdb) -> terminated jk (gr_file gdb) -> gr_view v jk gdb.
Proof. intros. split; [done|]. split; [done|]. by apply has_text_of. Qed.

(** The ids are positive and fit in the buffers of [itoa]. *)
Lemma ids_small v : text_file v etc_passwd (pw_file db) -> text_file v etc_group (gr_file gdb) ->
  1000 <= pw_uid new_user < 10 ^ 9 /\ 1000 <= pw_gid new_user < 10 ^ 9.
Proof.
  intros (pad & _ & _ & Hl) (gpad & _ & _ & Hlg). cbn [new_user pw_uid pw_gid].
  pose proof (next_id_range (map pw_uid db)) as Hu. pose proof (next_id_range (map gr_gid gdb)) as Hg.
  rewrite length_map in Hu, Hg. pose proof (pw_lines db). pose proof (gr_lines gdb).
  rewrite length_app in Hl, Hlg. unfold BUFSZ in *. lia.
Qed.

Lemma new_lines : pw_file [new_user] <> [] /\ gr_file [new_group] <> [].
Proof. split; intros E%(f_equal length); cbn in E; rewrite length_app in E; cbn in E; lia. Qed.

Lemma useradd_write_spec passfd groupfd r v :
  text_file v etc_passwd (pw_file db) -> text_file v etc_group (gr_file gdb) -> home name ∉ dirs v ->
  handles v !! passfd = Some (etc_passwd, O) -> handles v !! groupfd = Some (etc_group, O) -> passfd <> groupfd ->
  spec (useradd_write junk passfd groupfd (pw_uid new_user) (pw_gid new_user) (name ++ 0 :: r) (junk "dir") None) v
    (fun _ _ => False) (added v).
Proof.
  intros Hp Hg Hd Hh1 Hh2 Hfd. destruct (ids_small v Hp Hg) as [Hu Hgid].
  destruct Hstack as ((zd & Ed & Ld) & (zp & Ep & Lp) & (zg & Eg & Lg) & L1 & L2 & L3).
  unfold useradd_write. rewrite Ed. eapply spec_bind; [by apply homedir_spec|]. cbn beta. intros d v1 [[z' ->] ->].
  assert (Hc : cstr (home name ++ 0 :: z') 0 = home name) by (apply upto_nul_app; by apply home_nonul). rewrite Hc.
  eapply spec_bind; [by apply mkdir_law|]. cbn beta. intros ? ? [-> ->]. cbn [Z.ltb Z.compare].
  eapply spec_bind; [apply chown_law|]. cbn beta. intros _ v1 ->. rewrite !s32_small by lia.
  destruct (itoa_dec (pw_uid new_user) (junk "_uid") ltac:(lia) L1) as [ru ->].
  destruct (itoa_dec (pw_gid new_user) (junk "_passgid") ltac:(lia) L2) as [rg ->].
  destruct (itoa_dec (pw_gid new_user) (junk "_groupgid") ltac:(lia) L3) as [rg' ->].
  do 2 (eapply spec_let; [done|]).
  destruct (passbuff_line r zp ru rg (pw_uid new_user) (pw_gid new_user) z' Ep Lp ltac:(lia) ltac:(lia)) as (zp' & Ebuf & Hn1).
  eapply spec_let; [exact Ebuf|]. clear Ebuf. change (pw_file [_]) with (pw_file [new_user]) in *.
  pose proof Hp as (pad & Hf & Hz & Hl). pose proof Hg as (gpad & Hfg & Hzg & Hlg).
  eapply spec_bind; [eapply (append_line_spec passfd); [exact Hh1|exact Hf| |done|by apply new_lines]|].
  { apply passwdlen_reads. by apply pw_view_of. }
  cbn beta. intros ? ? [-> ->]. cbn [negb]. eapply spec_let; [done|].
  destruct (groupbuff_line r zg rg' (pw_gid new_user) Eg Lg ltac:(lia)) as (zg' & Ebuf & Hn2).
  eapply spec_let; [exact Ebuf|]. clear Ebuf. change (gr_file [_]) with (gr_file [new_group]) in *.
  eapply spec_bind; [eapply (append_line_spec groupfd _ (gr_file gdb) gpad); [| | |done|by apply new_lines]|].
  { cbn. by rewrite lookup_insert_ne. }
  { cbn. by rewrite lookup_insert_ne. }
  { apply grouplen_reads, gr_view_of; [|done]. exists gpad. cbn. by rewrite lookup_insert_ne. }
  cbn beta. intros ? ? [-> ->]. cbn [negb].
  eapply spec_bind; [eapply close_law; cbn; rewrite lookup_insert_ne by done; apply lookup_insert_eq|]. cbn beta. intros _ v1 ->.
  eapply spec_bind; [eapply close_law; cbn; rewrite lookup_delete_ne by done; apply lookup_insert_eq|]. cbn beta. intros _ v1 ->.
  apply spec_exit. exists (drop (length (pw_file [new_user])) pad), (drop (length (gr_file [new_group])) gpad).
  split; [by apply zeros_drop|]. split; [by apply zeros_drop|]. cbn [files with_files with_handles dirs trace did with_dirs].
  by rewrite pw_file_app, gr_file_app.
Qed.

(** [useradd name] on well-formed files: the user gets the next uid and a
    group of the same name with the next gid, no line of either file is lost,
    the home directory is created and given to them.  When the ids of the
    files are in ascending order the new ones are free. *)
Theorem useradd_adds r user0 v :
  MINUS ∉ name -> text_file v etc_passwd (pw_file db) -> text_file v etc_group (gr_file gdb) -> home name ∉ dirs v ->
  spec (useradd junk user0 None [name ++ 0 :: r]) v (fun _ _ => False) (fun v' =>
    added v v' /\ Forall wf_pw (db ++ [new_user]) /\ Forall wf_gr (gdb ++ [new_group]) /\
    (StronglySorted Z.le (map pw_uid db) -> least_free (pw_uid new_user) (map pw_uid db)) /\
    (StronglySorted Z.le (map gr_gid gdb) -> least_free (pw_gid new_user) (map gr_gid gdb))).
Proof.
  intros Hm Hp Hg Hd. eapply spec_post.
  2:{ intros v' Hv'. split; [exact Hv'|]. destruct (ids_small v Hp Hg) as [Hu Hgid]. split; [|split; [|split]].
      - apply Forall_app. split; [done|]. constructor; [|done]. apply line_wf; unfold ok_num; cbn in *; lia.
      - apply Forall_app. split; [done|]. constructor; [|done]. split_and!; unfold ok_num; cbn in *; done || lia.
      - apply next_id_sorted.
      - apply next_id_sorted. }
  unfold useradd. cbn [length Nat.ltb Nat.leb]. eapply spec_bind; [by apply args_name|]. cbn beta. intros ? ? [-> ->].
  cbn [o_user o_dir o_id o_name]. pose proof Hp as (pad & Hf & _). pose proof Hg as (gpad & Hfg & _).
  eapply spec_bind; [eapply open_law; exact Hf|]. intros fd v1 (Hfd & Hfresh & ->).
  rewrite (proj2 (Z.ltb_ge fd 0)) by lia.
  eapply spec_bind; [eapply open_law; exact Hfg|]. intros fd2 v1 (Hfd2 & Hfresh2 & ->).
  rewrite (proj2 (Z.ltb_ge fd2 0)) by lia. unfold useradd_uid. cbn [Z.eqb Pos.eqb].
  assert (Hne' : fd <> fd2) by (intros ->; cbn in Hfresh2; by rewrite lookup_insert_eq in Hfresh2).
  eapply spec_bind; [by apply nextuid_reads, pw_view_of|]. cbn beta. intros ? ? [-> ->].
  eapply spec_bind; [by apply nextgid_reads, gr_view_of|]. cbn beta. intros ? ? [-> ->].
  eapply spec_post; [apply (useradd_write_spec fd fd2 r); try done; cbn|].
  - rewrite lookup_insert_ne by done. apply lookup_insert_eq.
  - apply lookup_insert_eq.
  - done.
Qed.
End Useradd.

(** The check of [useradd -u] that the uid is free compares the unsigned
    result of [validateuid] with 0: a uid that is in use, that of root
    included, is taken as it is. *)
Theorem useradd_uid_unchecked {W : Type} `{AccountLaws W} `{!SyscallLaws W} junk db uid v :
  pw_view v (junk "validateuid") db -> uid <> -1 -> reads (useradd_uid junk uid) v uid.
Proof.
  intros Hv Hu E. unfold useradd_uid. rewrite (proj2 (Z.eqb_neq uid (-1))) by done.
  eapply spec_bind; [by apply (validateuid_reads _ db)|]. cbn beta. intros ? ? [-> ->].
  replace (_ <? 0) with false by (by destruct (existsb _ _)). by apply spec_ret.
Qed.

(** ** groupadd *)

Section Groupadd.
Context {W : Type} `{AccountLaws W} `{!SyscallLaws W}.
Context (junk : string -> list Z) (name : list Z) (gdb : list gr_entry).
Context (Hnul : nonul name) (Hne : name <> []) (Hcol : COLON ∉ name) (Hlen : (length name <= 200)%nat).
Context (Hwf : Forall wf_gr gdb) (Hgdb : gdb <> []).

Definition empty_group : gr_entry :=
  {| gr_name := name; gr_gid := next_id (map gr_gid gdb); gr_members := [32] |}.

Lemma groupadd_line r z rg gid : length z = 255%nat -> 0 < gid < 10 ^ 9 ->
  let g := {| gr_name := name; gr_gid := gid; gr_members := [32] |} in
  exists z', strcats (0 :: z) [name ++ 0 :: r; [COLON; 0]; dec gid ++ 0 :: rg; [COLON; 0]; [32; NL; 0; 0]] =
    Some (gr_file [g] ++ 0 :: z') /\ wf_gr g.
Proof.
  intros Hlz Hg g. destruct (dec_short gid Hg).
  destruct (strcats_app [(name, r); ([COLON], []); (dec gid, rg); ([COLON], []); ([32; NL], [0])] [] z) as [z' Ez].
  - constructor.
  - repeat constructor; try done.
  - cbn. repeat (rewrite length_app; cbn). lia.
  - exists z'. split; [|split_and!; unfold ok_num; cbn [gr_name gr_gid gr_members g]; try done; try lia; by_decide].
    cbn [map app fst snd] in Ez. rewrite Ez. cbn. by rewrite <- ?app_assoc.
Qed.

(** [groupadd name] on a well-formed /etc/group adds a line with the next gid
    and loses none. *)
Theorem groupadd_adds r group0 v z :
  MINUS ∉ name -> text_file v etc_group (gr_file gdb) ->
  terminated (junk "nextgid") (gr_file gdb) -> terminated (junk "grouplen") (gr_file gdb) ->
  junk "groupbuff" = 0 :: z -> length z = 255%nat -> length (junk "_groupgid") = 10%nat ->
  spec (groupadd junk group0 [name ++ 0 :: r]) v (fun _ _ => False) (fun v' =>
    Forall wf_gr (gdb ++ [empty_group]) /\
    (StronglySorted Z.le (map gr_gid gdb) -> least_free (gr_gid empty_group) (map gr_gid gdb)) /\
    exists pad, zeros pad /\ files v' = <[etc_group := gr_file (gdb ++ [empty_group]) ++ pad]> (files v)).
Proof.
  intros Hm Hg Hj1 Hj2 Hz Hlz Hb. pose proof Hg as (pad & Hf & Hpad & Hl).
  assert (Hgid : 1000 <= gr_gid empty_group < 10 ^ 9).
  { pose proof (next_id_range (map gr_gid gdb)) as Hr. cbn [gr_gid empty_group]. rewrite length_map in Hr.
    pose proof (gr_lines gdb). rewrite length_app in Hl. unfold BUFSZ in *. lia. }
  assert (Hview : forall v' jk, text_file v' etc_group (gr_file gdb) -> terminated jk (gr_file gdb) -> gr_view v' jk gdb)
    by (intros; split; [done|]; split; [done|]; by apply has_text_of).
  unfold groupadd. cbn [length Nat.ltb Nat.leb groupadd_args].
  apply spec_assoc. eapply spec_let; [apply no_option; [done|done|by_decide|done]|]. cbn iota.
  apply spec_assoc. eapply spec_let; [apply no_option; [done|done|by_decide|done]|]. cbn iota. apply spec_ret_let. cbn [o_user o_id].
  eapply spec_bind; [eapply open_law; exact Hf|]. intros fd v1 (Hfd & Hfresh & ->).
  rewrite (proj2 (Z.ltb_ge fd 0)) by lia. cbn [Z.eqb Pos.eqb].
  eapply spec_bind; [by apply nextgid_reads, Hview|]. cbn beta. intros ? ? [-> ->]. fold (gr_gid empty_group).
  rewrite s32_small by (cbn in *; lia).
  destruct (itoa_dec (gr_gid empty_group) (junk "_groupgid") ltac:(lia) Hb) as [rg Erg]. eapply spec_let; [exact Erg|].
  destruct (groupadd_line r z rg (gr_gid empty_group) Hlz ltac:(lia)) as (z' & Ez & Hwg). rewrite Hz.
  eapply spec_let; [exact Ez|]. change (gr_file [_]) with (gr_file [empty_group]). change (wf_gr empty_group) in Hwg.
  eapply spec_bind; [eapply (append_line_spec fd _ (gr_file gdb) pad); [apply lookup_insert_eq|exact Hf| |apply gr_file_nonul; by constructor|]|].
  { by apply grouplen_reads, Hview. }
  { apply gr_file_ne; [by constructor|done]. }
  cbn beta. intros ? ? [-> ->]. cbn [negb]. eapply spec_bind; [eapply close_law; apply lookup_insert_eq|]. cbn beta. intros _ v1 ->.
  apply spec_exit. split; [apply Forall_app; split; [done|by constructor]|]. split; [apply next_id_sorted|].
  exists (drop (length (gr_file [empty_group])) pad). split; [by apply zeros_drop|].
  cbn [files with_files with_handles]. by rewrite gr_file_app.
Qed.
End Groupadd.
