(* ===== verification/Getty.v ===== *)
(** * Logging in

    [user/getty.c]: the loop that asks for a name and a password, and the
    child that becomes the user and runs the shell. *)

From S2P Require Import Prelude CStr USys Auth Accounts AcctView.

(** Whom a name and a password admit: the uid of the first line with the
    name, if the password is the one of the first line with that uid. *)
Definition admits (db : list pw_entry) (name pass : list Z) : option Z :=
  match find (named name) db with
  | Some e =>
      match find (has_uid (pw_uid e)) db with
      | Some e' => if bool_decide (pw_pass e' = pass) then Some (pw_uid e) else None
      | None => None
      end
  | None => None
  end.

(** The characters of an attempt. *)
Definition typing (a : list Z * list Z) : list Z := a.1 ++ NL :: a.2 ++ [NL].

(** An attempt that fits in the buffers. *)
Definition typeable (a : list Z * list Z) : Prop :=
  plain a.1 /\ plain a.2 /\ (length a.1 <= 28)%nat /\ (length a.2 <= 30)%nat.

Section Getty.
Context {W : Type} `{AccountLaws W} `{!SyscallLaws W}.
Context (db : list pw_entry) (Hwf : Forall wf_pw db) (Hdb : db <> []).

Lemma view_of v jk : text_file v etc_passwd (pw_file db) -> terminated jk (pw_file db) -> pw_view v jk db.
Proof. intros. split; [done|]. split; [done|]. by apply has_text_of. Qed.

(** The buffers of [getty]. *)
Definition buffers (g : login) : Prop := length (username g) = 30%nat /\ length (password g) = 32%nat.

Lemma find_uid name e : find (named name) db = Some e -> exists e', find (has_uid (pw_uid e)) db = Some e'.
Proof.
  intros [Hin _]%find_some. destruct (find (has_uid (pw_uid e)) db) as [e'|] eqn:E; [by exists e'|].
  apply find_none with (x := e) in E; [|done]. unfold has_uid in E. by rewrite Z.eqb_refl in E.
Qed.

(** Two rounds of the loop read a name and a password. *)
Lemma getty_attempt fuel junk g name pass rest v (Q : Z -> vstate -> Prop) E :
  buffers g -> userdone g = false -> passdone g = false -> typeable (name, pass) ->
  text_file v etc_passwd (pw_file db) ->
  terminated (junk fuel "usertouid") (pw_file db) -> terminated (junk fuel "uidtopass") (pw_file db) ->
  handles v !! 0 = None -> typed v = typing (name, pass) ++ rest ->
  (forall g', buffers g' -> userdone g' = false -> passdone g' = false ->
     match admits db name pass with
     | Some uid => Q uid (with_typed v rest)
     | None => spec (getty_loop fuel junk g') (with_typed v rest) Q E
     end) ->
  spec (getty_loop (S (S fuel)) junk g) v Q E.
Proof.
  intros [Hb1 Hb2] Hu Hp (Hn & Hps & Hln & Hlp) Ht Hj1 Hj2 Hh Hty Hnext. cbn [fst snd] in *.
  unfold typing in Hty. cbn [fst snd] in Hty. rewrite <- app_assoc in Hty. cbn [app] in Hty. rewrite <- app_assoc in Hty.
  cbn [getty_loop]. unfold getcmd at 1. rewrite Hu. cbn [negb].
  apply spec_assoc. sp_reads printf_law. apply spec_assoc.
  eapply spec_bind; [eapply (ugets_spec name _ NL); [done|by left|exact Hty|done|lia]|]. cbn beta. intros ? ? [-> ->].
  destruct (chop_line name NL (username g) Hn ltac:(by left) ltac:(lia)) as (r & Ec & Hlr).
  apply spec_assoc. eapply spec_let; [exact Ec|]. apply spec_ret_let. cbn [userdone passdone andb]. rewrite Hp.
  eapply spec_bind; [apply wait_law|]. cbn beta. intros _ v1 ->.
  unfold getcmd at 1. cbn [userdone passdone username password negb]. apply spec_assoc.
  eapply spec_bind; [apply (ask_spec _ pass _ NL rest); [done|by left|done|done|lia]|]. cbn beta. intros ? ? [[r2 [-> Hl2]] ->].
  apply spec_ret_let. cbn [userdone passdone username password andb].
  assert (Hg : buffers (again {| userdone := true; passdone := true; username := name ++ 0 :: r; password := pass ++ 0 :: r2 |}))
    by (split; cbn [again username password]; congruence).
  specialize (Hnext _ Hg eq_refl eq_refl). unfold admits in Hnext.
  eapply spec_bind; [apply (usertouid_reads _ db); [by apply view_of|apply Hn]|]. cbn beta. intros ? ? [-> ->].
  destruct (find (named name) db) as [e|] eqn:Ee.
  - assert (Hid : 0 <= pw_uid e < 2 ^ 31) by (by destruct (find_wf wf_pw _ _ _ Hwf Ee) as (_ & _ & ? & _)).
    rewrite s32_small, (proj2 (Z.ltb_ge _ 0)) by lia.
    eapply spec_bind; [apply (uidtopass_reads _ db); by apply view_of|]. cbn beta. intros ? ? [-> ->].
    destruct (find_uid name e Ee) as [e' Ee']. rewrite Ee' in *. eapply spec_let; [done|].
    assert (Hne : nonul (pw_pass e')) by (by destruct (find_wf wf_pw _ _ _ Hwf Ee') as (_ & (_ & ? & _) & _)).
    destruct (strcmp_eq (pw_pass e') pass [] r2 Hne ltac:(apply Hps)) as (d & Ed & Hd). eapply spec_let; [done|].
    case_bool_decide as Hq.
    + rewrite (proj2 (Z.eqb_eq d 0)) by (by apply Hd). by apply spec_ret.
    + rewrite (proj2 (Z.eqb_neq d 0)) by (by rewrite Hd). cbn [negb]. sp_reads printf_law. exact Hnext.
  - change (s32 minus1u <? 0) with true. cbn iota. sp_reads printf_law. exact Hnext.
Qed.

(** C34. The loop ends at the first pair of a name and a password that admits
    somebody, however many wrong ones come before it, with the uid of that
    user. *)
Theorem getty_login bad name pass uid rest fuel junk g v E :
  buffers g -> userdone g = false -> passdone g = false ->
  Forall typeable bad -> typeable (name, pass) ->
  Forall (fun a => admits db a.1 a.2 = None) bad -> admits db name pass = Some uid ->
  text_file v etc_passwd (pw_file db) ->
  (forall n, terminated (junk n "usertouid") (pw_file db) /\ terminated (junk n "uidtopass") (pw_file db)) ->
  handles v !! 0 = None -> typed v = concat (map typing bad) ++ typing (name, pass) ++ rest ->
  (2 * length bad + 2 <= fuel)%nat ->
  spec (getty_loop fuel junk g) v (fun r v' => r = uid /\ v' = with_typed v rest) E.
Proof.
  revert fuel g v. induction bad as [|[n p] bad IH]; intros fuel g v Hg Hu Hp Hbad Hok Hno Hyes Ht Hj Hh Hty Hf;
    (destruct fuel as [|[|fuel]]; [cbn in Hf; lia|cbn in Hf; lia|]).
  - eapply (getty_attempt fuel junk g name pass rest); try done; try apply Hj. intros g' _ _ _. by rewrite Hyes.
  - apply Forall_cons_iff in Hbad as [Hb Hbad], Hno as [Hn Hno]. cbn [map concat] in Hty. rewrite <- app_assoc in Hty.
    eapply (getty_attempt fuel junk g n p); try done; try apply Hj. intros g' Hg' Hu' Hp'. cbn [fst snd] in Hn. rewrite Hn.
    eapply spec_mono; [apply IH; try done; cbn in Hf; lia|]. cbn beta. intros r v' [-> ->]. done.
Qed.

End Getty.
