(* ===== verification/Chown.v ===== *)
(** * Changing owners

    [user/chown.c] and [user/chgrp.c]: how the argument names a user and a
    group, and the calls made for the files. *)

From S2P Require Import Prelude CStr USys Auth Accounts AcctView Passwd Useradd.

(** The argument [user], [:group] or [user:group]. *)
Definition chown_arg (u g : option (list Z)) : list Z :=
  default [] u ++ match g with Some g => COLON :: g | None => [] end.

(** A number stands for itself, a name for the id of its line, and the
    absence of both for -1, which leaves the id of the file. *)
Definition user_id (db : list pw_entry) (u : option (list Z)) : Z :=
  match u with
  | None => minus1u
  | Some u =>
      if u32 (atoi_val u) =? minus1u
      then match find (named u) db with Some e => pw_uid e | None => minus1u end
      else u32 (atoi_val u)
  end.

Definition group_id (db : list gr_entry) (g : option (list Z)) : Z :=
  match g with
  | None => minus1u
  | Some g =>
      if u32 (atoi_val g) =? minus1u
      then match find (gnamed g) db with Some x => gr_gid x | None => minus1u end
      else u32 (atoi_val g)
  end.

Definition ok_name (o : option (list Z)) : Prop := match o with Some l => ok_field COLON l | None => True end.

Section Chown.
Context {W : Type} `{AccountLaws W} `{!SyscallLaws W}.
Context (junk : string -> list Z) (db : list pw_entry) (gdb : list gr_entry).

Lemma no_colon u r : nonul u -> COLON ∉ u -> strstr (u ++ 0 :: r) [COLON; 0] = Some None.
Proof.
  intros Hn Hc. destruct (strstr_leftmost u [COLON] r [] Hn ltac:(by repeat constructor) ltac:(done)) as (o & E & Ho).
  cbn [app] in E. rewrite E. destruct o as [i|]; [|done]. destruct Ho as [[k Hk] _]. exfalso.
  apply Hc, (subseteq_drop i u). rewrite Hk. apply list_elem_of_here.
Qed.

Lemma some_colon u g r : nonul (u ++ COLON :: g) -> exists i, strstr ((u ++ COLON :: g) ++ 0 :: r) [COLON; 0] = Some (Some i).
Proof.
  intros Hn. destruct (strstr_leftmost _ [COLON] r [] Hn ltac:(by repeat constructor) ltac:(done)) as (o & E & Ho).
  cbn [app] in E. rewrite E. destruct o as [i|]; [by exists i|]. exfalso. apply (Ho (length u)).
  rewrite drop_app_length. exists g. done.
Qed.

(** The second call of [strtok]. *)
Lemma second_token u g r : g <> [] -> nonul g -> COLON ∉ g ->
  exists p, strtok (u ++ 0 :: g ++ 0 :: r) (Some (S (length u))) None [COLON; 0] =
    Some (u ++ 0 :: g ++ 0 :: r, p, Some (S (length u))).
Proof.
  intros Hne Hn Hc. pose proof (strtok_tok [COLON] [] (u ++ [0]) [] g 0 r (Some (S (length u))) None) as E.
  rewrite length_app, Nat.add_1_r in E. cbn [app length] in E. rewrite Nat.add_0_r in E. rewrite <- !app_assoc in E. cbn [app] in E.
  eexists. apply E; try done; [by repeat constructor|constructor| |by left].
  apply list.Forall_forall. intros x Hx ->%list_elem_of_singleton. done.
Qed.

(** The names the argument stands for, as strings in memory. *)
Lemma chown_names_spec u g r v E : ok_name u -> ok_name g -> u <> None \/ g <> None ->
  spec (chown_names junk (chown_arg u g ++ 0 :: r)) v (fun names v' =>
    (exists ru rg, names = ((fun l => l ++ 0 :: ru) <$> u, (fun l => l ++ 0 :: rg) <$> g)) /\ v' = v) E.
Proof.
  intros Hu Hg Hne. unfold chown_names, chown_arg. destruct u as [u|], g as [g|]; unfold from_option, id; cbn [ok_name] in *; [| | |naive_solver].
  - destruct Hu as (Hune & Hun & Huc), Hg as (Hgne & Hgn & Hgc).
    assert (Hn : nonul (u ++ COLON :: g)) by (apply nonul_app; split; [done|by apply nonul_cons]).
    destruct (some_colon u g r Hn) as [i Ei]. eapply spec_let; [exact Ei|].
    destruct u as [|a u']; [done|]. apply nonul_cons in Hun as [Ha Hu'].
    assert (Hac : a <> COLON) by (intros ->; apply Huc, list_elem_of_here).
    eapply (spec_let _ (a - COLON)).
    { cbn [app strncmp]. by rewrite (proj2 (Z.eqb_neq a 0)), (proj2 (Z.eqb_neq a COLON)) by done. }
    eapply spec_let; [by apply strlen_app|]. rewrite (proj2 (Z.eqb_neq (a - COLON) 0)) by lia.
    pose proof (strtok_field COLON [] (a :: u') (g ++ 0 :: r) None (Some O)) as E1. cbn [app length Nat.add] in E1.
    eapply spec_let; [rewrite <- app_assoc; apply E1; [done|by split; [done|]; split; [by apply nonul_cons|]|done]|].
    eapply spec_let; [done|]. cbn [drop].
    eapply (spec_let _ (length (a :: u'))); [by apply (strlen_app (a :: u')), nonul_cons|].
    rewrite (proj2 (Nat.eqb_neq _ _)) by (rewrite length_app; destruct g; [done|cbn [length]; lia]).
    destruct (second_token (a :: u') g r) as (p' & E2); [done|done|done|]. eapply spec_let; [exact E2|]. apply spec_ret.
    cbn [fmap option_fmap option_map drop]. split; [|done]. exists (g ++ 0 :: r), r. cbn [app]. do 3 f_equal.
    replace (a :: u' ++ 0 :: g ++ 0 :: r) with ((a :: u' ++ [0]) ++ g ++ 0 :: r) by (cbn [app]; by rewrite <- app_assoc).
    replace (S (length (a :: u'))) with (length (a :: u' ++ [0])) by (cbn [length]; rewrite length_app; cbn; lia).
    by rewrite drop_app_length.
  - destruct Hu as (Hune & Hun & Huc). rewrite app_nil_r. eapply spec_let; [by apply no_colon|]. apply spec_ret.
    split; [|done]. by exists r, r.
  - destruct Hg as (Hgne & Hgn & Hgc). assert (Hn : nonul (COLON :: g)) by by apply nonul_cons.
    destruct (some_colon [] g r Hn) as [i Ei]. eapply spec_let; [exact Ei|].
    eapply (spec_let _ 0); [by destruct g|]. eapply spec_let; [by apply (strlen_app (COLON :: g))|]. cbn [Z.eqb].
    destruct (squeeze_one [] COLON g r Hn) as (n & En & Em).
    replace n with (length (COLON :: g)) in Em by (pose proof (strlen_app (COLON :: g) r Hn) as En'; cbn [app] in En, En'; congruence).
    cbn [app length Nat.add] in Em. rewrite Z.sub_0_r in Em. eapply spec_let; [exact Em|]. apply spec_ret.
    split; [|done]. by exists r, (0 :: r).
Qed.

Context (Hwf : Forall wf_pw db) (Hwfg : Forall wf_gr gdb) (Hdb : db <> []) (Hgdb : gdb <> []).

Lemma user_id_spec u ru v E : ok_name u -> text_file v etc_passwd (pw_file db) -> terminated (junk "usertouid2") (pw_file db) ->
  spec (name_id ((fun l => l ++ 0 :: ru) <$> u) (usertouid (junk "usertouid2"))) v (fun x v' => x = user_id db u /\ v' = v) E.
Proof.
  intros Hu Ht Hj. destruct u as [u|]; [|by apply spec_ret]. destruct Hu as (_ & Hn & _). cbn.
  eapply spec_let; [apply atoi_cut|]. destruct (_ =? minus1u); [|by apply spec_ret].
  apply usertouid_reads; [|done]. split; [done|]. split; [done|]. by apply has_text_of.
Qed.

Lemma group_id_spec g rg v E : ok_name g -> text_file v etc_group (gr_file gdb) -> terminated (junk "grouptogid") (gr_file gdb) ->
  spec (name_id ((fun l => l ++ 0 :: rg) <$> g) (grouptogid (junk "grouptogid"))) v (fun x v' => x = group_id gdb g /\ v' = v) E.
Proof.
  intros Hg Ht Hj. destruct g as [g|]; [|by apply spec_ret]. destruct Hg as (_ & Hn & _). cbn.
  eapply spec_let; [apply atoi_cut|]. destruct (_ =? minus1u); [|by apply spec_ret].
  apply grouptogid_reads; [|done]. split; [done|]. split; [done|]. by apply has_text_of.
Qed.

Definition with_trace (v : vstate) l : vstate :=
  {| files := files v; handles := handles v; typed := typed v; dirs := dirs v; caller := caller v; trace := trace v ++ l |}.

Lemma chown_files_spec l uid gid : forall v E,
  spec (chown_files l uid gid) v (fun _ v' => v' = with_trace v (map (fun f => Chowned (cstr f 0) uid gid) l)) E.
Proof.
  induction l as [|f l IH]; intros v E; cbn [chown_files map].
  - apply spec_ret. destruct v. unfold with_trace. cbn. by rewrite app_nil_r.
  - eapply spec_bind; [apply chown_law|]. cbn beta. intros _ v1 ->. eapply spec_mono; [apply IH|]. cbn beta. intros _ v' ->.
    unfold with_trace, did. cbn. by rewrite <- app_assoc.
Qed.

(** [chown user:group files], with either part missing: one call for each
    file, in order, with the ids the names stand for; nothing else changes. *)
Theorem chown_sets u g r f l v :
  ok_name u -> ok_name g -> u <> None \/ g <> None -> (2 <= length (chown_arg u g))%nat ->
  text_file v etc_passwd (pw_file db) -> terminated (junk "usertouid2") (pw_file db) ->
  text_file v etc_group (gr_file gdb) -> terminated (junk "grouptogid") (gr_file gdb) ->
  spec (chown junk ((chown_arg u g ++ 0 :: r) :: f :: l)) v (fun _ _ => False)
    (eq (with_trace v (map (fun f => Chowned (cstr f 0) (user_id db u) (group_id gdb g)) (f :: l)))).
Proof.
  intros Hu Hg Hne Hlen Ht Hj Htg Hjg. unfold chown.
  assert (Hn : nonul (chown_arg u g)).
  { unfold chown_arg. apply nonul_app. destruct u, g; cbn in *; rewrite ?nonul_cons; unfold ok_field in *; naive_solver constructor. }
  eapply spec_let; [by apply strlen_app|]. rewrite (proj2 (Nat.leb_gt _ _)) by lia.
  eapply spec_bind; [by apply chown_names_spec|]. cbn beta. intros names v1 [(ru & rg & ->) ->]. cbn [fst snd].
  eapply spec_bind; [by apply user_id_spec|]. cbn beta. intros ? ? [-> ->].
  eapply spec_bind; [by apply group_id_spec|]. cbn beta. intros ? ? [-> ->].
  eapply spec_bind; [apply chown_files_spec|]. cbn beta. intros _ v1 ->. by apply spec_exit.
Qed.
End Chown.
