(* ===== verification/AcctHost.v ===== *)
(** * The account programs in a concrete world

    A world that is its own view satisfies the laws of [AccountLaws]; in it
    the theorems on the account programs apply to the files the repository
    ships as /etc/passwd and /etc/group. *)

From S2P Require Import Prelude CStr USys Auth Accounts AcctView Passwd Useradd Getty Chown.

(** A descriptor above all those open. *)
Definition fresh_fd (v : vstate) : Z := 1 + foldr Z.max 2 (elements (dom (handles v))).

Lemma fresh_fd_spec v : 0 < fresh_fd v /\ handles v !! fresh_fd v = None.
Proof.
  assert (Hmax : forall l x, x ∈ l -> x <= foldr Z.max 2 l /\ 2 <= foldr Z.max 2 l).
  { induction l as [|y l IH]; intros x Hx; [by apply not_elem_of_nil in Hx|]. cbn [foldr].
    apply elem_of_cons in Hx as [->|Hx]; [|specialize (IH x Hx); lia].
    assert (2 <= foldr Z.max 2 l) by (clear; induction l; cbn; lia). lia. }
  unfold fresh_fd. split.
  - assert (2 <= foldr Z.max 2 (elements (dom (handles v)))) by (generalize (elements (dom (handles v))); intros l; induction l; cbn; lia). lia.
  - apply not_elem_of_dom. intros Hin. apply elem_of_elements in Hin. destruct (Hmax _ _ Hin). lia.
Qed.

Definition h_open (path : list Z) (m : Z) : M vstate Z := fun v =>
  match files v !! path with
  | None => Ret (-1) v
  | Some _ => Ret (fresh_fd v) (with_handles v (<[fresh_fd v := (path, O)]> (handles v)))
  end.

Definition h_read (fd n : Z) : M vstate (Z * list Z) := fun v =>
  match handles v !! fd with
  | Some (path, off) =>
      let data := take (Z.to_nat n) (drop off (default [] (files v !! path))) in
      Ret (Z.of_nat (length data), data) (with_handles v (<[fd := (path, (off + length data)%nat)]> (handles v)))
  | None =>
      if (fd =? 0) && (n =? 1) then
        match typed v with
        | [] => Stop (Sleeping "console") v
        | c :: t => Ret (1, [c]) (with_typed v t)
        end
      else Ret (-1, []) v
  end.

Definition h_write (fd : Z) (data : list Z) : M vstate Z := fun v =>
  match handles v !! fd with
  | Some (path, off) =>
      Ret (Z.of_nat (length data))
        (with_files (with_handles v (<[fd := (path, (off + length data)%nat)]> (handles v)))
           (<[path := splice (default [] (files v !! path)) off data]> (files v)))
  | None => Ret (-1) v
  end.

Definition h_close (fd : Z) : M vstate Z := fun v => Ret 0 (with_handles v (delete fd (handles v))).

Definition h_mkdir (path : list Z) : M vstate Z := fun v =>
  if decide (path ∈ dirs v) then Ret (-1) v else Ret 0 (with_dirs v ({[path]} ∪ dirs v)).

Definition h_did (e : event) : M vstate Z := fun v => Ret 0 (did v e).

#[export] Instance host_calls : Syscalls vstate := {
  u_open := h_open; u_read := h_read; u_write := h_write; u_close := h_close;
  u_printf _ := ret tt; u_malloc _ := ret true
}.

#[export] Instance host_accounts : Accounts vstate := {
  u_getuid := gets caller; u_echoswitch := ret tt; u_clrscr := ret tt;
  u_mkdir := h_mkdir; u_mknod _ _ _ := ret 0;
  u_chown path uid gid := h_did (Chowned path uid gid); u_chmod _ _ := ret 0;
  u_chdir path v := h_did (Chdir (caller v) path) v;
  u_setuid uid v := if caller v =? 0 then Ret 0 (with_caller (did v (Setuid uid)) uid) else Ret (-1) v;
  u_setgroups gids v := if caller v =? 0 then Ret 0 (did v (Setgroups gids)) else Ret (-1) v;
  u_getpid := ret 1; u_dup _ := ret 1; u_fork := ret 0; u_wait := ret (-1);
  u_exec path argv v := Stop Exited (did v (Exec (caller v) path argv))
}.

#[export] Instance host_views : Views vstate := id.

#[export] Instance host_syscall_laws : SyscallLaws vstate.
Proof. split; intros; eexists; try eexists; reflexivity. Qed.

#[export] Instance host_laws : AccountLaws vstate.
Proof.
  split; unfold reads, spec; try (intros; subst; exact (conj eq_refl eq_refl) || reflexivity).
  - intros path m v d E Hf w Hw. change (w = v) in Hw. subst w. cbn. unfold h_open. rewrite Hf. destruct (fresh_fd_spec v). done.
  - intros fd n path off v d E Hh Hf Hn w Hw. change (w = v) in Hw. subst w. cbn. unfold h_read. rewrite Hh, Hf. done.
  - intros v c t E Hh Ht w Hw. change (w = v) in Hw. subst w. cbn. unfold h_read. rewrite Hh. cbn. by rewrite Ht.
  - intros fd path off v d data E Hh Hf Hl w Hw. change (w = v) in Hw. subst w. cbn. unfold h_write. rewrite Hh, Hf. done.
  - intros path v E Hd w Hw. change (w = v) in Hw. subst w. cbn. unfold h_mkdir. rewrite decide_False by done. done.
  - intros gids v E Hc w Hw. change (w = v) in Hw. subst w. cbn. by rewrite Hc.
  - intros uid v E Hc w Hw. change (w = v) in Hw. subst w. cbn. by rewrite Hc.
  - intros path argv v E HE w Hw. change (w = v) in Hw. subst w. exact HE.
Qed.

(** ** Two accounts *)

Definition demo_junk (x : string) : list Z :=
  replicate (if bool_decide (x ∈ ["currpass"; "pass"; "reppass"]) then 32
             else if bool_decide (x ∈ ["buff"; "file"]) then 512
             else if bool_decide (x ∈ ["srchbuff"; "passbuff"; "groupbuff"]) then 256
             else if bool_decide (x = "dir") then 64
             else if bool_decide (x ∈ ["_uid"; "_passgid"; "_groupgid"]) then 10
             else BUFSZ)%nat 0.

Definition demo_view (pdb : list pw_entry) (typing : list Z) (uid : Z) : vstate :=
  {| files := {[etc_passwd := pw_file pdb; etc_group := gr_file two_groups]}; handles := ∅; typed := typing;
     dirs := {[chars "/home/root"]}; caller := uid; trace := [] |}.

Lemma demo_passwd typing uid : text_file (demo_view two_users typing uid) etc_passwd (pw_file two_users).
Proof. exists []. rewrite app_nil_r. split; [done|]. split; [constructor|by_decide]. Qed.

Lemma demo_group typing uid : text_file (demo_view two_users typing uid) etc_group (gr_file two_groups).
Proof. exists []. rewrite app_nil_r. split; [done|]. split; [constructor|by_decide]. Qed.

Lemma demo_first : first_match [root_line] (user_line "ana" 1000) [].
Proof.
  intros j Hj. assert (HF : Forall (fun j => ~ (pw_name (user_line "ana" 1000) ++ [COLON]) `prefix_of`
    drop j (pw_file ([root_line] ++ [user_line "ana" 1000]))) (seq 0 (length (pw_file [root_line])))) by by_decide.
  rewrite list.Forall_forall in HF. apply HF, elem_of_seq. lia.
Qed.

Lemma demo_stack : stack_ok demo_junk.
Proof. split_and!; try by_decide. exists (replicate 255 0). done. Qed.

Lemma demo_fits typing uid : fits demo_junk [root_line] [] (user_line "ana" 1000) (demo_view two_users typing uid).
Proof. exists []. rewrite app_nil_r. split_and!; [done|constructor|by_decide|by_decide]. Qed.

Lemma demo_pw_view typing uid x : terminated (demo_junk x) (pw_file two_users) ->
  pw_view (demo_view two_users typing uid) (demo_junk x) two_users.
Proof. intros Hx. split; [done|]. split; [by_decide|]. apply has_text_of; [apply demo_passwd|done]. Qed.

(** Run a program whose specification is known. *)
Lemma run_spec {A} (m : M vstate A) v E : spec m v (fun _ _ => False) E -> exists v', m v = Stop Exited v' /\ E v'.
Proof. intros Hm. specialize (Hm v eq_refl). destruct (m v) as [|[] v']; try done. by exists v'. Qed.

Definition line (s : string) : list Z := chars s ++ [NL].

Lemma passwd_changes_witness : exists v',
  passwd demo_junk [] (demo_view two_users (line "secret" ++ line "betterone" ++ line "betterone") 1000) = Stop Exited v' /\
  reads (validateuserpass (replicate BUFSZ 0) 1000 (chars "betterone" ++ [0])) v' 1.
Proof.
  eassert (Hs : spec (passwd demo_junk []) (demo_view two_users (line "secret" ++ line "betterone" ++ line "betterone") 1000)
    (fun _ _ => False) _).
  { eapply (passwd_changes (W := vstate) demo_junk demo_stack [root_line] [] (user_line "ana" 1000)) with (pass := chars "betterone") (rest := []);
      try done; try by_decide; [apply demo_first|apply demo_fits|apply demo_pw_view|apply demo_pw_view]; split; by_decide. }
  apply run_spec in Hs as (v' & Hrun & _ & Ha). exists v'. split; [exact Hrun|]. apply Ha. split; by_decide.
Defined.

Lemma passwd_by_root_witness : exists v',
  passwd demo_junk [chars "ana" ++ [0]] (demo_view two_users (line "betterone" ++ line "betterone") 0) = Stop Exited v' /\
  reads (validateuserpass (replicate BUFSZ 0) 1000 (chars "betterone" ++ [0])) v' 1.
Proof.
  eassert (Hs : spec (passwd demo_junk [chars "ana" ++ [0]]) (demo_view two_users (line "betterone" ++ line "betterone") 0)
    (fun _ _ => False) _).
  { eapply (passwd_by_root (W := vstate) demo_junk demo_stack [root_line] [] (user_line "ana" 1000))
      with (pass := chars "betterone") (rest := []) (r := []);
      try done; try by_decide; [apply demo_first|apply demo_fits|apply demo_pw_view|apply demo_pw_view]; split; by_decide. }
  apply run_spec in Hs as (v' & Hrun & _ & Ha). exists v'. split; [exact Hrun|]. apply Ha. split; by_decide.
Defined.

Lemma passwd_refused_witness :
  passwd demo_junk [] (demo_view two_users (line "guess") 1000) = Stop Exited (demo_view two_users [] 1000).
Proof.
  eassert (Hs : spec (passwd demo_junk []) (demo_view two_users (line "guess") 1000) (fun _ _ => False) _).
  { eapply (passwd_refused (W := vstate) demo_junk demo_stack [root_line] [] (user_line "ana" 1000))
      with (wrong := chars "guess") (rest := []); try done; try by_decide; apply demo_pw_view; split; by_decide. }
  apply run_spec in Hs as (v' & Hrun & <-). exact Hrun.
Defined.

Lemma useradd_adds_witness : exists v',
  useradd demo_junk None None [chars "eve" ++ [0]] (demo_view two_users [] 0) = Stop Exited v' /\
  trace v' = [Chowned (chars "/home/eve") 1001 1001].
Proof.
  eassert (Hs : spec (useradd demo_junk None None [chars "eve" ++ [0]]) (demo_view two_users [] 0) (fun _ _ => False) _).
  { eapply (useradd_adds (W := vstate) demo_junk (chars "eve") two_users two_groups) with (r := []);
      try done; try by_decide; try (split; by_decide); [|apply demo_passwd|apply demo_group].
    split_and!; try by_decide; eexists (replicate _ 0); done. }
  apply run_spec in Hs as (v' & Hrun & (_ & _ & _ & _ & _ & _ & Htr) & _). exists v'. split; [exact Hrun|exact Htr].
Defined.

Lemma useradd_uid_unchecked_witness : useradd_uid demo_junk 0 (demo_view two_users [] 0) = Ret 0 (demo_view two_users [] 0).
Proof.
  pose proof (useradd_uid_unchecked demo_junk two_users 0 (demo_view two_users [] 0)
    ltac:(apply demo_pw_view; split; by_decide) ltac:(done) (fun _ => False) _ eq_refl) as Hs.
  destruct (useradd_uid demo_junk 0 (demo_view two_users [] 0)) as [a v'|[] v']; try done. destruct Hs as [-> Hv]. change (v' = demo_view two_users [] 0) in Hv. by rewrite Hv.
Defined.

Lemma getty_login_witness :
  getty_loop 4 (fun _ => demo_junk)
    {| userdone := false; passdone := false; username := replicate 30 0; password := replicate 32 0 |}
    (demo_view two_users (line "ana" ++ line "guess" ++ line "ana" ++ line "secret") 0) =
  Ret 1000 (demo_view two_users [] 0).
Proof.
  pose proof (getty_login (W := vstate) two_users ltac:(by_decide) ltac:(done) [(chars "ana", chars "guess")] (chars "ana") (chars "secret")
    1000 [] 4 (fun _ => demo_junk) {| userdone := false; passdone := false; username := replicate 30 0; password := replicate 32 0 |}
    (demo_view two_users (line "ana" ++ line "guess" ++ line "ana" ++ line "secret") 0) (fun _ => False)
    ltac:(split; done) ltac:(done) ltac:(done) ltac:(repeat constructor; by_decide) ltac:(repeat constructor; by_decide)
    ltac:(repeat constructor) ltac:(done) ltac:(apply demo_passwd) ltac:(intros n; split; split; by_decide)
    ltac:(done) ltac:(done) ltac:(cbn; lia) _ eq_refl) as Hs.
  destruct (getty_loop _ _ _ _) as [a v'|[] v']; try done. destruct Hs as [-> Hv]. change (v' = demo_view two_users [] 0) in Hv. by rewrite Hv.
Defined.


Lemma groupadd_adds_witness : exists v' pad,
  groupadd demo_junk None [chars "disk" ++ [0]] (demo_view two_users [] 0) = Stop Exited v' /\
  files v' !! etc_group = Some (gr_file (two_groups ++ [empty_group (chars "disk") two_groups]) ++ pad).
Proof.
  eassert (Hs : spec (groupadd demo_junk None [chars "disk" ++ [0]]) (demo_view two_users [] 0) (fun _ _ => False) _).
  { eapply (groupadd_adds (W := vstate) demo_junk (chars "disk") two_groups) with (r := []) (z := replicate 255 0);
      try done; try by_decide; try (split; by_decide). apply demo_group. }
  apply run_spec in Hs as (v' & Hrun & _ & _ & pad & _ & Hf). exists v', pad. split; [exact Hrun|].
  rewrite Hf. apply lookup_insert_eq.
Defined.

Lemma chown_sets_witness : exists v',
  chown demo_junk [chars "ana:staff" ++ [0]; chars "notes" ++ [0]] (demo_view two_users [] 0) = Stop Exited v' /\
  trace v' = [Chowned (chars "notes") 1000 1000].
Proof.
  eassert (Hs : spec (chown demo_junk [chars "ana:staff" ++ [0]; chars "notes" ++ [0]]) (demo_view two_users [] 0) (fun _ _ => False) _).
  { eapply (chown_sets (W := vstate) demo_junk two_users two_groups) with (u := Some (chars "ana")) (g := Some (chars "staff")) (r := [])
      (f := chars "notes" ++ [0]) (l := []); try done; try by_decide; try (split; by_decide);
      first [by left|by (cbn; lia)|apply demo_passwd|apply demo_group|cbn [ok_name]; by_decide]. }
  apply run_spec in Hs as (v' & Hrun & <-). eexists. split; [exact Hrun|]. by vm_compute.
Defined.

(** ** Two accidents *)

Definition account (name pass gecos : string) (uid : Z) : pw_entry :=
  {| pw_name := chars name; pw_pass := chars pass; pw_uid := uid; pw_gid := uid; pw_gecos := chars gecos;
     pw_dir := chars "/home/" ++ chars name |}.

(** [passwd] looks for the first [name:] of the file, which need not be at
    the start of a line.  With a user alice whose real name is bob, changing
    the password of bob destroys the home directory of alice, and bob keeps
    the old password. *)
Theorem passwd_wrong_line :
  let db := [root_line; account "alice" "_" "bob" 1000; account "bob" "_" "_" 1001] in
  exists v', passwd demo_junk [chars "bob" ++ [0]] (demo_view db (line "betterone" ++ line "betterone") 0) = Stop Exited v' /\
    files v' !! etc_passwd = Some (pw_file
      [root_line;
       {| pw_name := chars "alice"; pw_pass := chars "_"; pw_uid := 1000; pw_gid := 1000; pw_gecos := chars "bob";
          pw_dir := chars "betteronehome/alice" |};
       account "bob" "_" "_" 1001]).
Proof. eexists. split; vm_compute; reflexivity. Qed.

(** [useradd -u 0] makes a second root. *)
Theorem useradd_second_root : exists v',
  useradd demo_junk None None (map (fun s => chars s ++ [0]) ["-u"; "0"; "eve"]) (demo_view two_users [] 0) = Stop Exited v' /\
  files v' !! etc_passwd = Some (pw_file (two_users ++
    [{| pw_name := chars "eve"; pw_pass := chars "_"; pw_uid := 0; pw_gid := 1001; pw_gecos := chars "_";
        pw_dir := chars "/home/eve" |}])).
Proof. eexists. split; vm_compute; reflexivity. Qed.
