(* ===== verification/Umalloc.v ===== *)
(** * The heap of a user program

    [user/umalloc.c]: [malloc], [free] and [morecore] on a circular list of
    free blocks, ordered by address, whose headers are in the heap itself.

    A block of [n] units at address [a] is the [8 * n] bytes from its header
    on.  [heap] holds the headers that have been stored; [base] is the address
    of the static header that starts the list, below the heap.  [usbrk] is
    [sbrk], that is [sys_sbrk] and [growproc] of the kernel, seen through the
    break: its argument is an [int]; a positive one moves the break up, or
    fails at [limit], where the memory for the program ends, a negative one moves it down, and is ignored when it
    goes below address 0. *)

From Stdlib Require Import Sorted.
From S2P Require Import Prelude.

Record header : Type := { ptr : Z; size : Z }.

Record umem : Type := { heap : gmap Z header; freep : Z; brk : Z }.

Definition with_heap (s : umem) h : umem := {| heap := h; freep := freep s; brk := brk s |}.
Definition with_freep (s : umem) p : umem := {| heap := heap s; freep := p; brk := brk s |}.
Definition with_brk (s : umem) b : umem := {| heap := heap s; freep := freep s; brk := b |}.

(** [p->s], of a header that has been stored. *)
Definition at_ (p : Z) : M umem header := fun s => lift (heap s !! p) s.

Definition set_ptr (p v : Z) : M umem unit :=
  let! h := at_ p in
  modify (fun s => with_heap s (<[p := {| ptr := v; size := size h |}]> (heap s))).

(** The first store to a header leaves its pointer as the memory was. *)
Definition set_size (p v : Z) : M umem unit :=
  modify (fun s => with_heap s
    (<[p := {| ptr := match heap s !! p with Some h => ptr h | None => 0 end; size := v |}]> (heap s))).

Section umalloc.
Context (base limit : Z).

Definition usbrk (n : Z) : M umem Z := fun s =>
  let n := s32 n in
  if 0 <? n then
    if brk s + n <=? limit then Ret (brk s) (with_brk s (brk s + n)) else Ret (u32 (-1)) s
  else if n <? 0 then
    let b := u32 (brk s + n) in
    if brk s <=? b then Ret (brk s) s
    else if b =? 0 then Ret (u32 (-1)) s
    else Ret (brk s) (with_brk s b)
  else Ret (brk s) s.

(** The place of [bp] in the list.  The list has at most as many elements as
    there are headers. *)
Fixpoint free_loop (fuel : nat) (bp p : Z) : M umem Z :=
  match fuel with
  | O => halt Undefined
  | S fuel' =>
      let! h := at_ p in
      if (p <? bp) && (bp <? ptr h) then ret p
      else if (ptr h <=? p) && ((p <? bp) || (bp <? ptr h)) then ret p
      else free_loop fuel' bp (ptr h)
  end.

Definition free (ap : Z) : M umem unit :=
  let bp := u32 (ap - 8) in
  let! fp := gets freep in
  let! fuel := gets (fun s => S (stdpp.base.size (heap s))) in
  let! p := free_loop fuel bp fp in
  let! hb := at_ bp in
  let! hp := at_ p in
  (if u32 (bp + 8 * size hb) =? ptr hp then
     let! hn := at_ (ptr hp) in
     set_size bp (u32 (size hb + size hn)) then!
     set_ptr bp (ptr hn)
   else set_ptr bp (ptr hp)) then!
  let! hb := at_ bp in
  let! hp := at_ p in
  (if u32 (p + 8 * size hp) =? bp then
     set_size p (u32 (size hp + size hb)) then!
     set_ptr p (ptr hb)
   else set_ptr p bp) then!
  modify (fun s => with_freep s p).

Definition morecore (nu : Z) : M umem Z :=
  let nu := if nu <? 4096 then 4096 else nu in
  let! p := usbrk (u32 (nu * 8)) in
  if p =? u32 (-1) then ret 0
  else
    set_size p nu then!
    free (u32 (p + 8)) then!
    gets freep.

(** Take [nunits] units from the block at [p], whose header is [h]: the whole
    block, or its end. *)
Definition malloc_take (nunits prevp p : Z) (h : header) : M umem Z :=
  let! q :=
    (if size h =? nunits then set_ptr prevp (ptr h) then! ret p
     else
       let n := u32 (size h - nunits) in
       set_size p n then!
       let q := u32 (p + 8 * n) in
       set_size q nunits then!
       ret q) in
  modify (fun s => with_freep s prevp) then!
  ret (u32 (q + 8)).

(** [malloc] goes round the list at most twice: once before and once after
    the heap grows. *)
Fixpoint malloc_loop (fuel : nat) (nunits prevp p : Z) : M umem Z :=
  match fuel with
  | O => halt Undefined
  | S fuel' =>
      let! h := at_ p in
      if nunits <=? size h then malloc_take nunits prevp p h
      else
        let! fp := gets freep in
        if p =? fp then
          let! p := morecore nunits in
          if p =? 0 then ret 0
          else let! h := at_ p in malloc_loop fuel' nunits p (ptr h)
        else malloc_loop fuel' nunits p (ptr h)
  end.

Definition malloc (nbytes : Z) : M umem Z :=
  let nunits := u32 (nbytes + 8 - 1) / 8 + 1 in
  let! prevp := gets freep in
  let! prevp :=
    if prevp =? 0 then
      modify (fun s => {| heap := <[base := {| ptr := base; size := 0 |}]> (heap s); freep := base; brk := brk s |}) then!
      ret base
    else ret prevp in
  let! h := at_ prevp in
  let! fuel := gets (fun s => (2 * stdpp.base.size (heap s) + 4)%nat) in
  malloc_loop fuel nunits prevp (ptr h).
End umalloc.

(** ** Lists of blocks *)

(** A block is its address and its size in units. *)
Abbreviation block := (Z * Z)%type.

Definition block_end (b : block) : Z := b.1 + 8 * b.2.

(** The blocks are in ascending order above [e], and no two are adjacent. *)
Fixpoint spaced (e : Z) (l : list block) : Prop :=
  match l with
  | [] => True
  | b :: r => e < b.1 /\ 1 <= b.2 /\ spaced (block_end b) r
  end.

Definition last_end (e : Z) (l : list block) : Z := fold_left (fun _ b => block_end b) l e.

Definition first (l : list block) (z : Z) : Z := match l with [] => z | b :: _ => b.1 end.

(** The headers of the blocks of [l] are linked in order, the last one to [z]. *)
Fixpoint seg (h : gmap Z header) (l : list block) (z : Z) : Prop :=
  match l with
  | [] => True
  | b :: r => h !! b.1 = Some {| ptr := first r z; size := b.2 |} /\ seg h r z
  end.

Definition apart (b c : block) : Prop := block_end b <= c.1 \/ block_end c <= b.1.

Fixpoint all_apart (l : list block) : Prop :=
  match l with
  | [] => True
  | b :: r => Forall (apart b) r /\ all_apart r
  end.

(** The addresses inside the blocks. *)
Definition inside (l : list block) (x : Z) : Prop := exists b, b ∈ l /\ b.1 <= x < block_end b.

Lemma spaced_app e l k : spaced e (l ++ k) <-> spaced e l /\ spaced (last_end e l) k.
Proof. revert e. induction l as [|b l IH]; intros e; cbn [app spaced last_end fold_left]; [tauto|]. rewrite IH. unfold last_end. tauto. Qed.

Lemma last_end_app e l k : last_end e (l ++ k) = last_end (last_end e l) k.
Proof. apply fold_left_app. Qed.

Lemma spaced_above e l b : spaced e l -> b ∈ l -> e < b.1 /\ 1 <= b.2.
Proof.
  revert e. induction l as [|c l IH]; intros e; [by intros _ ?%not_elem_of_nil|]. intros (He & Hn & Hl) [->|Hb]%elem_of_cons; [done|].
  destruct (IH _ Hl Hb). unfold block_end in *. lia.
Qed.

Lemma spaced_below e l b : spaced e l -> b ∈ l -> block_end b <= last_end e l.
Proof.
  revert e. induction l as [|c l IH]; intros e; [by intros _ ?%not_elem_of_nil|].
  intros (He & Hn & Hl) [->|Hb]%elem_of_cons; cbn [last_end fold_left]; [|by apply IH].
  clear -Hl. fold (last_end (block_end c) l). generalize dependent (block_end c). induction l as [|d l IH]; intros e Hl; cbn; [lia|].
  destruct Hl as (He & Hn & Hl). specialize (IH _ Hl). unfold last_end, block_end in *. lia.
Qed.

Lemma spaced_le e e' l : e' <= e -> spaced e l -> spaced e' l.
Proof. intros He. destruct l as [|b l]; [done|]. cbn. intuition lia. Qed.

Lemma seg_app h l k z : seg h (l ++ k) z <-> seg h l (first k z) /\ seg h k z.
Proof.
  induction l as [|b l IH]; cbn [app seg]; [tauto|]. rewrite IH.
  replace (first (l ++ k) z) with (first l (first k z)) by (by destruct l). tauto.
Qed.

Lemma seg_frame h h' l z : seg h l z -> (forall b, b ∈ l -> h' !! b.1 = h !! b.1) -> seg h' l z.
Proof.
  induction l as [|b l IH]; cbn [seg]; [done|]. intros [Hb Hl] Hf. split.
  - rewrite Hf by (apply list_elem_of_here). done.
  - apply IH; [done|]. intros c Hc. apply Hf. by apply list_elem_of_further.
Qed.

Lemma seg_at h l z b : seg h l z -> b ∈ l -> exists p, h !! b.1 = Some {| ptr := p; size := b.2 |}.
Proof.
  induction l as [|c l IH]; cbn [seg]; [by intros _ ?%not_elem_of_nil|]. intros [Hc Hl] [->|Hb]%elem_of_cons; [by eexists|by apply IH].
Qed.

Lemma apart_sym b c : apart b c -> apart c b.
Proof. unfold apart. tauto. Qed.

#[export] Instance all_apart_proper : Proper ((≡ₚ) ==> iff) all_apart.
Proof.
  assert (Hi : forall l k, l ≡ₚ k -> all_apart l -> all_apart k).
  { intros l k Hp. induction Hp as [|b l k Hp IH|b c l|l k m _ IH1 _ IH2]; cbn [all_apart]; [done| | |by auto].
    - intros [Hb Hl]. split; [by rewrite <- Hp|by apply IH].
    - intros [[Hbc Hb]%Forall_cons_iff [Hc Hl]]. split; [|done]. constructor; [by apply apart_sym|done]. }
  intros l k Hp. split; apply Hi; [done|by symmetry].
Qed.

Lemma all_apart_app l k : all_apart (l ++ k) <-> all_apart l /\ all_apart k /\ Forall (fun b => Forall (apart b) k) l.
Proof.
  induction l as [|b l IH]; cbn [app all_apart]; [intuition constructor|]. rewrite IH, Forall_app, Forall_cons_iff. tauto.
Qed.

Lemma spaced_apart e l : spaced e l -> all_apart l.
Proof.
  revert e. induction l as [|b l IH]; intros e; [done|]. intros (He & Hn & Hl). split; [|by eapply IH].
  apply list.Forall_forall. intros c Hc. destruct (spaced_above _ _ _ Hl Hc). left. lia.
Qed.

(** ** The invariant *)

Section inv.
Context (base limit : Z) (Hbase : 0 < base) (Hlimit : limit < 2 ^ 32 - 8).

(** The ring of the free blocks in address order, starting at [base]; the
    allocated blocks with their headers; no two blocks overlap. *)
Record inv (s : umem) (free alloc : list block) : Prop := {
  iv_spaced : spaced base free;
  iv_ring : seg (heap s) ((base, 0) :: free) base;
  iv_freep : freep s ∈ base :: map fst free;
  iv_alloc : Forall (fun b => 1 <= b.2 /\ base < b.1 /\ exists p, heap s !! b.1 = Some {| ptr := p; size := b.2 |}) alloc;
  iv_apart : all_apart (free ++ alloc);
  iv_brk : Forall (fun b => block_end b <= brk s) (free ++ alloc);
  iv_limit : base < brk s <= limit
}.

Abbreviation ordered := (fun l : list block => StronglySorted Z.lt (map fst l)).

Lemma ordered_app_r l k : ordered (l ++ k) -> ordered k.
Proof. induction l as [|b l IH]; [done|]. cbn [app map]. intros [Hl _]%StronglySorted_inv. by apply IH. Qed.

Lemma spaced_ordered e l : spaced e l -> ordered l.
Proof.
  revert e. induction l as [|b l IH]; intros e; cbn [map]; [constructor|]. intros (He & Hn & Hl). constructor; [by eapply IH|].
  apply list.Forall_forall. intros x (c & -> & Hc)%list_elem_of_fmap. destruct (spaced_above _ _ _ Hl Hc). unfold block_end in *. lia.
Qed.

Lemma ring_ordered free : spaced base free -> ordered ((base, 0) :: free).
Proof.
  intros Hs. cbn [map]. constructor; [by eapply spaced_ordered|].
  apply list.Forall_forall. intros x (c & -> & Hc)%list_elem_of_fmap. by destruct (spaced_above _ _ _ Hs Hc).
Qed.

(** From a block below [bp] the search goes up to the last one below it. *)
Lemma free_loop_up l : forall fuel bp pa pn F2 s,
  seg (heap s) (l ++ (pa, pn) :: F2) base -> ordered (l ++ (pa, pn) :: F2) ->
  Forall (fun b => b.1 < bp) (l ++ [(pa, pn)]) -> Forall (fun b => bp < b.1) F2 -> base <= pa ->
  (length l < fuel)%nat ->
  wp (free_loop fuel bp (first l pa)) s (fun r s' => r = pa /\ s' = s).
Proof.
  induction l as [|[a n] l IH]; intros fuel bp pa pn F2 s Hseg Hord Hlt Hgt Hpa Hf;
    (destruct fuel as [|fuel]; [cbn in Hf; lia|]); cbn [app first free_loop seg fst snd] in *; apply wp_bind; unfold at_.
  - destruct Hseg as [Hh _]. eapply wp_lift; [exact Hh|]. cbn [ptr]. apply Forall_cons_iff in Hlt as [Hlt _]. cbn [fst] in Hlt.
    destruct F2 as [|[b m] F2]; cbn [first fst].
    + rewrite (proj2 (Z.ltb_lt pa bp)), (proj2 (Z.ltb_ge bp base)), (proj2 (Z.leb_le base pa)) by lia. by apply wp_ret.
    + apply Forall_cons_iff in Hgt as [Hgt _]. cbn [fst] in Hgt.
      rewrite (proj2 (Z.ltb_lt pa bp)), (proj2 (Z.ltb_lt bp b)) by lia. by apply wp_ret.
  - destruct Hseg as [Hh Hseg]. eapply wp_lift; [exact Hh|]. cbn [ptr].
    apply Forall_cons_iff in Hlt as [Ha Hlt]. cbn [map fst] in *. apply StronglySorted_inv in Hord as [Hord Hall].
    assert (Hn : a < first l pa < bp).
    { rewrite map_app in Hall. destruct l as [|[c k] l]; cbn in *; apply Forall_cons_iff in Hall as [? _], Hlt as [? _]; cbn in *; lia. }
    replace (first (l ++ (pa, pn) :: F2) base) with (first l pa) by (by destruct l).
    rewrite (proj2 (Z.ltb_lt a bp)), (proj2 (Z.ltb_ge bp _)), (proj2 (Z.leb_gt _ a)) by lia. cbn [andb].
    apply (IH fuel bp pa pn F2); try done. cbn in Hf. lia.
Qed.

(** From a block above [bp] it goes round to [base]. *)
Lemma free_loop_round l : forall fuel bp s Q,
  seg (heap s) l base -> ordered l -> Forall (fun b => bp < b.1) l -> base < bp ->
  wp (free_loop fuel bp base) s Q -> wp (free_loop (length l + fuel) bp (first l base)) s Q.
Proof.
  induction l as [|[a n] l IH]; intros fuel bp s Q Hseg Hord Hgt Hb HQ; [done|]. cbn [length Nat.add first free_loop seg fst snd] in *.
  destruct Hseg as [Hh Hseg]. apply wp_bind. unfold at_. eapply wp_lift; [exact Hh|]. cbn [ptr].
  apply Forall_cons_iff in Hgt as [Ha Hgt]. cbn [map fst] in *. apply StronglySorted_inv in Hord as [Hord Hall].
  rewrite (proj2 (Z.ltb_ge a bp)) by lia. cbn [andb orb].
  replace ((first l base <=? a) && (bp <? first l base)) with false; [by apply IH|].
  symmetry. apply andb_false_iff. destruct l as [|[c k] l]; cbn [first fst]; [right; apply Z.ltb_ge; lia|].
  left. apply Z.leb_gt. cbn in Hall. by apply Forall_cons_iff in Hall as [? _].
Qed.

(** The search, from any element of the ring. *)
Lemma free_loop_finds s F1 F2 pa pn bp fuel :
  let ring := F1 ++ (pa, pn) :: F2 in
  seg (heap s) ring base -> ordered ring -> first ring base = base -> freep s ∈ map fst ring ->
  Forall (fun b => b.1 < bp) (F1 ++ [(pa, pn)]) -> Forall (fun b => bp < b.1) F2 -> (length ring < fuel)%nat ->
  wp (free_loop fuel bp (freep s)) s (fun r s' => r = pa /\ s' = s).
Proof.
  intros ring Hseg Hord Hfirst Hfp Hlt Hgt Hf. apply list_elem_of_fmap in Hfp as ([a n] & -> & Hin). cbn [fst].
  assert (Hbpa : base <= pa < bp).
  { apply Forall_app in Hlt as [_ [Hp _]%Forall_cons_iff]. cbn in Hp. split; [|done]. rewrite <- Hfirst. unfold ring in *.
    destruct F1 as [|[c k] F1]; cbn [app first fst]; [lia|]. cbn [app map fst] in Hord. apply StronglySorted_inv in Hord as [_ Hall].
    rewrite list.Forall_forall in Hall. apply Z.lt_le_incl, Hall. apply list_elem_of_fmap. exists (pa, pn). split; [done|].
    apply elem_of_app. right. apply list_elem_of_here. }
  assert (Hup : forall fuel, (length F1 < fuel)%nat -> wp (free_loop fuel bp base) s (fun r s' => r = pa /\ s' = s)).
  { intros k Hk. rewrite <- Hfirst. unfold ring. replace (first (F1 ++ (pa, pn) :: F2) base) with (first F1 pa) by (by destruct F1).
    apply (free_loop_up F1 k bp pa pn F2); try done; lia. }
  unfold ring in *. rewrite length_app in Hf. cbn [length] in Hf. apply elem_of_app in Hin as [Hin|[E|Hin]%elem_of_cons].
  - apply list_elem_of_split in Hin as (l1 & l2 & ->). rewrite <- app_assoc in Hseg, Hord, Hlt. cbn [app] in *.
    rewrite length_app in Hf. cbn [length] in Hf.
    apply seg_app in Hseg as [_ Hseg]. apply Forall_app in Hlt as [_ Hlt]. apply ordered_app_r in Hord.
    apply (free_loop_up ((a, n) :: l2) fuel bp pa pn F2); try done; try lia. cbn [length]. lia.
  - simplify_eq. apply seg_app in Hseg as [_ Hseg]. apply Forall_app in Hlt as [_ Hlt]. apply ordered_app_r in Hord. apply (free_loop_up [] fuel bp pa pn F2); try done; try lia. cbn [length]. lia.
  - apply list_elem_of_split in Hin as (l1 & l2 & ->). apply seg_app in Hseg as [_ [_ Hseg]]. apply seg_app in Hseg as [_ Hseg].
    apply ordered_app_r in Hord. cbn [map] in Hord. apply StronglySorted_inv in Hord as [Hord _].
    apply ordered_app_r in Hord. apply Forall_app in Hgt as [_ Hgt].
    rewrite length_app in Hf. cbn [length] in Hf.
    replace fuel with (length ((a, n) :: l2) + (fuel - length ((a, n) :: l2)))%nat by (cbn [length]; lia).
    apply (free_loop_round ((a, n) :: l2)); try done; [lia|]. apply Hup. cbn [length]. lia.
Qed.

(** ** Freeing a block *)

Lemma split_at l : forall e bp sz, spaced e l -> Forall (apart (bp, sz)) l -> 1 <= sz ->
  exists F1 F2, l = F1 ++ F2 /\ Forall (fun b => block_end b <= bp) F1 /\ Forall (fun b => bp + 8 * sz <= b.1) F2.
Proof.
  induction l as [|b l IH]; intros e bp sz Hs Ha Hsz; [by exists [], []|].
  destruct Hs as (He & Hn & Hs). apply Forall_cons_iff in Ha as [Hb Ha]. destruct Hb as [Hb|Hb].
  - exists [], (b :: l). split; [done|]. split; [constructor|]. unfold block_end in Hb. cbn [fst snd] in Hb. constructor; [done|].
    apply list.Forall_forall. intros c Hc. destruct (spaced_above _ _ _ Hs Hc). unfold block_end in *. lia.
  - destruct (IH _ bp sz Hs Ha Hsz) as (F1 & F2 & -> & H1 & H2). exists (b :: F1), F2. split; [done|]. split; [by constructor|done].
Qed.

Lemma apart_join a n m c : apart (a, n) c -> apart (a + 8 * n, m) c -> 1 <= c.2 -> apart (a, n + m) c.
Proof. unfold apart, block_end. cbn [fst snd]. lia. Qed.

Lemma inside_cons b l x : inside (b :: l) x <-> b.1 <= x < block_end b \/ inside l x.
Proof.
  unfold inside. split.
  - intros (c & [->|Hc]%elem_of_cons & Hx); [by left|right; by exists c].
  - intros [Hx|(c & Hc & Hx)]; [exists b; split; [apply list_elem_of_here|done]|exists c; split; [by apply list_elem_of_further|done]].
Qed.

Lemma inside_app l k x : inside (l ++ k) x <-> inside l x \/ inside k x.
Proof.
  induction l as [|b l IH]; cbn [app]; [|rewrite !inside_cons, IH; tauto].
  split; [by right|]. intros [(? & ?%not_elem_of_nil & _)|]; done.
Qed.

(** What merging with the block above gives: the block [(bp, sz')] before the
    list [F2']. *)
Record joined (h : gmap Z header) (bp sz : Z) (F2 : list block) (sz' : Z) (F2' : list block) : Prop := {
  jn_size : sz <= sz';
  jn_spaced : spaced (bp + 8 * sz') F2';
  jn_seg : seg h F2' base;
  jn_sub : incl F2' F2;
  jn_length : (length F2' <= length F2)%nat;
  jn_inside x : inside ((bp, sz') :: F2') x <-> inside ((bp, sz) :: F2) x;
  jn_apart c : 1 <= c.2 -> apart (bp, sz) c -> Forall (fun b => apart b c) F2 -> apart (bp, sz') c;
  jn_end e : bp + 8 * sz <= e -> Forall (fun b => block_end b <= e) F2 -> bp + 8 * sz' <= e
}.

(** The first half of [free]. *)
Lemma free_up s bp sz q F2 nx :
  heap s !! bp = Some {| ptr := q; size := sz |} -> nx = first F2 base -> base < bp -> 1 <= sz -> bp + 8 * sz < 2 ^ 32 ->
  spaced (bp + 8 * sz - 1) F2 -> Forall (fun b => block_end b < 2 ^ 32) F2 -> seg (heap s) F2 base ->
  wp (if u32 (bp + 8 * sz) =? nx then
        let! hn := at_ nx in set_size bp (u32 (sz + size hn)) then! set_ptr bp (ptr hn)
      else set_ptr bp nx) s
    (fun _ s' => exists sz' F2', joined (heap s) bp sz F2 sz' F2' /\
       s' = with_heap s (<[bp := {| ptr := first F2' base; size := sz' |}]> (heap s))).
Proof.
  intros Hbp -> Hb Hsz Hlim Hsp Hend Hseg. rewrite u32_small by lia. destruct (Z.eqb_spec (bp + 8 * sz) (first F2 base)) as [E|E].
  - destruct F2 as [|[b m] F2]; cbn [first fst] in E; [lia|]. subst b. destruct Hseg as [Hn Hseg]. cbn [fst snd] in Hn.
    cbn [first fst]. apply wp_bind. unfold at_. eapply wp_lift; [exact Hn|]. cbn [size ptr].
    apply Forall_cons_iff in Hend as [Hm _]. destruct Hsp as (_ & Hm1 & Hsp). unfold block_end in Hm, Hm1, Hsp. cbn [fst snd] in *.
    rewrite u32_small by lia. apply wp_bind. unfold set_size, set_ptr. apply wp_modify. apply wp_bind. unfold at_. cbn [heap with_heap].
    eapply wp_lift; [apply lookup_insert_eq|]. apply wp_modify. exists (sz + m), F2. split.
    + split; [lia|by replace (bp + 8 * (sz + m)) with (bp + 8 * sz + 8 * m) by lia|done|by intros c ?; right|cbn; lia| | |].
      * intros x. rewrite !inside_cons. unfold block_end. cbn [fst snd]. intuition lia.
      * intros c Hc H1 [H2 _]%Forall_cons_iff. by apply apart_join.
      * intros e _ [H2 _]%Forall_cons_iff. unfold block_end in H2. cbn [fst snd] in H2. lia.
    + unfold with_heap. cbn [heap freep brk size]. by rewrite insert_insert_eq.
  - unfold set_ptr. apply wp_bind. unfold at_. eapply wp_lift; [exact Hbp|]. apply wp_modify. exists sz, F2. split; [|done].
    split; [lia| |done|apply incl_refl|done|done|done|done]. destruct F2 as [|[b m] F2]; [done|]. cbn in *. intuition lia.
Qed.

(** The list [free'] has the blocks of [F1], [(bp, sz)] and [F2], merged. *)
Record placed (F1 : list block) (bp sz : Z) (F2 free' : list block) : Prop := {
  pl_spaced : spaced base free';
  pl_length : (length free' <= S (length F1 + length F2))%nat;
  pl_big : Exists (fun b => sz <= b.2) free';
  pl_inside x : inside free' x <-> inside F1 x \/ inside ((bp, sz) :: F2) x;
  pl_apart c : 1 <= c.2 -> Forall (fun b => apart b c) F1 -> apart (bp, sz) c -> Forall (fun b => apart b c) F2 ->
    Forall (fun b => apart b c) free';
  pl_end e : Forall (fun b => block_end b <= e) F1 -> bp + 8 * sz <= e -> Forall (fun b => block_end b <= e) F2 ->
    Forall (fun b => block_end b <= e) free'
}.

Lemma last_of_ring F1 bp : spaced base F1 -> Forall (fun b => block_end b <= bp) F1 -> base < bp ->
  exists R pa pn, (base, 0) :: F1 = R ++ [(pa, pn)] /\ pa + 8 * pn <= bp /\ base <= pa < bp /\ 0 <= pn /\
    last_end base F1 = pa + 8 * pn.
Proof.
  intros Hs Hb Hlt. destruct F1 as [|[pa pn] F1 _] using rev_ind.
  - exists [], base, 0. split; [done|]. cbn. lia.
  - exists ((base, 0) :: F1), pa, pn. split; [done|]. apply Forall_app in Hb as [_ [Hb _]%Forall_cons_iff].
    destruct (spaced_above base _ (pa, pn) Hs) as [Hx Hy]; [apply elem_of_app; right; apply list_elem_of_here|].
    rewrite last_end_app. unfold block_end in *. cbn [fst snd last_end fold_left] in *. unfold block_end. cbn [fst snd]. lia.
Qed.

Lemma placed_new F1 bp sz F2 : spaced base F1 -> last_end base F1 < bp -> 1 <= sz -> spaced (bp + 8 * sz) F2 ->
  placed F1 bp sz F2 (F1 ++ (bp, sz) :: F2).
Proof.
  intros H1 Hlt Hsz H2. split.
  - by apply spaced_app.
  - rewrite length_app. cbn. lia.
  - apply Exists_app. right. constructor. cbn. lia.
  - intros x. by rewrite inside_app.
  - intros c _ ? ? ?. apply Forall_app. split; [done|by constructor].
  - intros e ? ? ?. apply Forall_app. split; [done|by constructor].
Qed.

Lemma placed_join R pa pn sz F2 : spaced base (R ++ [(pa, pn)]) -> 1 <= sz -> spaced (pa + 8 * (pn + sz)) F2 ->
  placed (R ++ [(pa, pn)]) (pa + 8 * pn) sz F2 (R ++ (pa, pn + sz) :: F2).
Proof.
  intros H1 Hsz H2. apply spaced_app in H1 as (H1 & Hpa & Hpn & _). cbn [fst snd] in *. split.
  - apply spaced_app. split; [done|]. split; [done|]. split; [cbn; lia|done].
  - rewrite !length_app. cbn. lia.
  - apply Exists_app. right. constructor. cbn. lia.
  - intros x. rewrite !inside_app, !inside_cons. unfold block_end. cbn [fst snd].
    assert (~ inside [] x) by (intros (? & ?%not_elem_of_nil & _); done). intuition lia.
  - intros c Hc [HR [Hp _]%Forall_cons_iff]%Forall_app Hb HF. apply Forall_app. split; [done|]. constructor; [by apply apart_join|done].
  - intros e [HR [Hp _]%Forall_cons_iff]%Forall_app Hb HF. apply Forall_app. split; [done|]. constructor; [|done].
    unfold block_end in *. cbn [fst snd] in *. lia.
Qed.

(** The second half of [free]. *)
Lemma free_down s bp sz q F1 F2 R pa pn :
  (base, 0) :: F1 = R ++ [(pa, pn)] -> spaced base F1 -> last_end base F1 = pa + 8 * pn -> pa + 8 * pn <= bp -> base <= pa < bp -> 0 <= pn ->
  base < bp -> 1 <= sz -> bp + 8 * sz < 2 ^ 32 -> spaced (bp + 8 * sz) F2 ->
  heap s !! bp = Some {| ptr := first F2 base; size := sz |} -> heap s !! pa = Some {| ptr := q; size := pn |} ->
  seg (heap s) R pa -> seg (heap s) F2 base -> Forall (fun b => b.1 <> pa) R ->
  wp (let! hb := at_ bp in let! hp := at_ pa in
      (if u32 (pa + 8 * size hp) =? bp then
         set_size pa (u32 (size hp + size hb)) then! set_ptr pa (ptr hb)
       else set_ptr pa bp) then!
      modify (fun s => with_freep s pa)) s
    (fun _ s' => exists free', placed F1 bp sz F2 free' /\ seg (heap s') ((base, 0) :: free') base /\
       pa ∈ base :: map fst free' /\ freep s' = pa /\ brk s' = brk s /\ (forall a, a <> pa -> heap s' !! a = heap s !! a)).
Proof.
  intros HR Hsp Hlast Hle Hlt Hpn Hb Hsz Hlim Hsp2 Hbp Hpa HsR Hs2 HRne.
  apply wp_bind. unfold at_ at 1. eapply wp_lift; [exact Hbp|]. apply wp_bind. unfold at_ at 1. eapply wp_lift; [exact Hpa|].
  cbn [size ptr].
  rewrite u32_small by lia. assert (HF2 : forall b, b ∈ F2 -> b.1 <> pa) by (intros b Hin; destruct (spaced_above _ _ _ Hsp2 Hin); lia).
  destruct (Z.eqb_spec (pa + 8 * pn) bp) as [E|E].
  - destruct R as [|r R]; [simplify_eq/=; lia|]. injection HR as <- ->.
    apply wp_bind. apply wp_bind. apply wp_modify. rewrite u32_small by lia. unfold set_ptr. apply wp_bind. unfold at_. cbn [heap with_heap].
    eapply wp_lift; [apply lookup_insert_eq|]. apply wp_modify, wp_modify. exists (R ++ (pa, pn + sz) :: F2).
    cbn [heap with_heap with_freep freep brk size]. rewrite insert_insert_eq. split; [|split; [|split; [|split; [done|split; [done|]]]]].
    + rewrite <- E. apply placed_join; [done|done|]. by replace (pa + 8 * (pn + sz)) with (bp + 8 * sz) by lia.
    + apply (seg_app _ ((base, 0) :: R)). split; [|split; [apply lookup_insert_eq|]].
      * eapply seg_frame; [exact HsR|]. intros b Hin. rewrite list.Forall_forall in HRne. rewrite lookup_insert_ne; [done|]. intros Eb. by apply (HRne b Hin).
      * eapply seg_frame; [exact Hs2|]. intros b Hin. rewrite lookup_insert_ne; [done|]. intros Eb. by apply (HF2 b Hin).
    + right. apply list_elem_of_fmap. exists (pa, pn + sz). split; [done|]. apply elem_of_app. right. apply list_elem_of_here.
    + intros a Ha. by rewrite lookup_insert_ne.
  - apply wp_bind. unfold set_ptr. apply wp_bind. unfold at_. eapply wp_lift; [exact Hpa|]. apply wp_modify, wp_modify.
    exists (F1 ++ (bp, sz) :: F2). cbn [heap with_heap with_freep freep brk size]. split; [|split; [|split; [|split; [done|split; [done|]]]]].
    + apply placed_new; try done. lia.
    + rewrite app_comm_cons, HR, <- app_assoc. apply seg_app. split; [|split; [apply lookup_insert_eq|split]].
      * eapply seg_frame; [exact HsR|]. intros b Hin. rewrite list.Forall_forall in HRne. rewrite lookup_insert_ne; [done|]. intros Eb. by apply (HRne b Hin).
      * cbn [fst snd]. rewrite lookup_insert_ne by lia. exact Hbp.
      * eapply seg_frame; [exact Hs2|]. intros b Hin. rewrite lookup_insert_ne; [done|]. intros Eb. by apply (HF2 b Hin).
    + assert (Hin : pa ∈ map fst ((base, 0) :: F1)) by (rewrite HR, map_app; apply elem_of_app; right; apply list_elem_of_here).
      cbn [map fst] in Hin. rewrite map_app. apply elem_of_cons in Hin as [->|Hin]; [by left|right]. apply elem_of_app. by left.
    + intros a Ha. by rewrite lookup_insert_ne.
Qed.

Lemma ordered_nodup l : ordered l -> NoDup (map fst l).
Proof.
  induction l as [|b l IH]; cbn [map]; [constructor|]. intros [Hl Hb]%StronglySorted_inv. constructor; [|by apply IH].
  intros Hin. rewrite list.Forall_forall in Hb. specialize (Hb _ Hin). lia.
Qed.

Lemma ring_size h l z : seg h l z -> ordered l -> (length l <= stdpp.base.size h)%nat.
Proof.
  intros Hs Ho. rewrite <- size_dom. rewrite <- (length_map fst l).
  rewrite <- (size_list_to_set (C := gset Z) (map fst l)) by (by apply ordered_nodup). apply subseteq_size.
  intros a (b & -> & Hb)%elem_of_list_to_set%list_elem_of_fmap. destruct (seg_at _ _ _ _ Hs Hb) as [p Hp]. by eapply elem_of_dom_2.
Qed.

(** Where the block [(bp, sz)] goes: after the block [(pa, pn)] of the ring,
    which the search finds. *)
Record gap (s : umem) (free : list block) (bp sz : Z) (F1 F2 R : list block) (pa pn : Z) : Prop := {
  gp_free : free = F1 ++ F2;
  gp_ring : (base, 0) :: F1 = R ++ [(pa, pn)];
  gp_spaced1 : spaced base F1;
  gp_spaced2 : spaced (bp + 8 * sz - 1) F2;
  gp_pa : pa + 8 * pn <= bp /\ base <= pa < bp /\ 0 <= pn /\ last_end base F1 = pa + 8 * pn;
  gp_segR : seg (heap s) R pa;
  gp_at : heap s !! pa = Some {| ptr := first F2 base; size := pn |};
  gp_seg2 : seg (heap s) F2 base;
  gp_low : Forall (fun b => b.1 < pa) R;
  gp_find : forall Q : Z -> umem -> Prop, Q pa s -> wp (free_loop (S (stdpp.base.size (heap s))) bp (freep s)) s Q
}.

Lemma gap_exists s free bp sz : spaced base free -> seg (heap s) ((base, 0) :: free) base -> freep s ∈ base :: map fst free ->
  base < bp -> 1 <= sz -> Forall (apart (bp, sz)) free -> exists F1 F2 R pa pn, gap s free bp sz F1 F2 R pa pn.
Proof.
  intros Hsp Hring Hfp Hbp Hsz Hap. pose proof (ring_ordered _ Hsp) as Hord.
  destruct (split_at free base bp sz Hsp Hap Hsz) as (F1 & F2 & -> & HF1 & HF2). apply spaced_app in Hsp as [Hsp1 Hsp2].
  destruct (last_of_ring F1 bp Hsp1 HF1 Hbp) as (R & pa & pn & HR & Hle & Hlt & Hpn & Hlast).
  rewrite app_comm_cons, HR, <- app_assoc in Hring, Hord. change (base :: map fst (F1 ++ F2)) with (map fst (((base, 0) :: F1) ++ F2)) in Hfp.
  rewrite HR, <- app_assoc in Hfp. cbn [app] in *.
  assert (Hlow : Forall (fun b => b.1 < bp) (R ++ [(pa, pn)])).
  { rewrite <- HR. constructor; [done|]. apply list.Forall_forall. intros b Hb. rewrite list.Forall_forall in HF1.
    specialize (HF1 _ Hb). destruct (spaced_above _ _ _ Hsp1 Hb). unfold block_end in HF1. lia. }
  exists F1, F2, R, pa, pn. pose proof Hring as (HsR & Hpa & Hs2)%seg_app. split; try done.
  - destruct F2 as [|[b m] F2]; [done|]. apply Forall_cons_iff in HF2 as [Hb _]. cbn in *. intuition lia.
  - clear -Hord. induction R as [|c R IH]; [constructor|]. cbn [app map] in Hord. apply StronglySorted_inv in Hord as [Hord Hc].
    constructor; [|by apply IH]. rewrite map_app in Hc. apply Forall_app in Hc as [_ [Hc _]%Forall_cons_iff]. exact Hc.
  - intros Q HQ. eapply wp_mono; [apply (free_loop_finds s R F2 pa pn bp); try done|].
    + replace (first (R ++ (pa, pn) :: F2) base) with (first (R ++ [(pa, pn)]) base) by (by destruct R). by rewrite <- HR.
    + eapply list.Forall_impl; [exact HF2|]. cbn beta. lia.
    + apply Nat.lt_succ_r. by eapply ring_size.
    + cbn beta. intros p s0 [-> ->]. done.
Qed.

(** The invariant after [free], from what the two halves establish. *)
Lemma free_inv s s' F1 F2 R pa pn bp sz sz' F2' alloc free' :
  (base, 0) :: F1 = R ++ [(pa, pn)] -> spaced base F1 -> 1 <= sz -> joined (heap s) bp sz F2 sz' F2' -> placed F1 bp sz' F2' free' ->
  seg (heap s') ((base, 0) :: free') base -> pa ∈ base :: map fst free' -> freep s' = pa -> brk s' = brk s ->
  (forall a, a <> pa -> a <> bp -> heap s' !! a = heap s !! a) ->
  Forall (fun b => 1 <= b.2 /\ base < b.1 /\ exists p, heap s !! b.1 = Some {| ptr := p; size := b.2 |}) alloc ->
  Forall (apart (bp, sz)) alloc -> all_apart alloc -> Forall (fun b => Forall (apart b) alloc) (F1 ++ F2) ->
  Forall (fun b => block_end b <= brk s) (F1 ++ F2 ++ alloc) -> bp + 8 * sz <= brk s -> base < brk s <= limit ->
  inv s' free' alloc.
Proof.
  intros HR Hs1 Hsz Hj Hpl Hring Hpa Hfp Hb Hsame Hal Hbal Hap Hcross Hend Hbend Hlim.
  rewrite !Forall_app in Hend. destruct Hend as (He1 & He2 & He3). apply Forall_app in Hcross as [Hc1 Hc2].
  assert (Hc : forall c, c ∈ alloc -> 1 <= c.2 /\ base < c.1 /\ Forall (fun b => apart b c) F1 /\ apart (bp, sz) c /\ Forall (fun b => apart b c) F2).
  { intros c Hin. rewrite list.Forall_forall in Hal, Hbal. destruct (Hal _ Hin) as (? & ? & _). split_and!; try done; [|by apply Hbal|];
      apply list.Forall_forall; intros b Hb'; rewrite list.Forall_forall in Hc1, Hc2;
      [specialize (Hc1 _ Hb')|specialize (Hc2 _ Hb')]; rewrite list.Forall_forall in *; auto. }
  split.
  - apply Hpl.
  - done.
  - by rewrite Hfp.
  - apply list.Forall_forall. intros c Hin. destruct (Hc c Hin) as (H1 & H2 & H3 & H4 & _). split; [done|]. split; [done|].
    rewrite list.Forall_forall in Hal. destruct (Hal _ Hin) as (_ & _ & q & Hq). exists q. rewrite Hsame; [done| |].
    + assert (Hr : (pa, pn) ∈ (base, 0) :: F1) by (rewrite HR; apply elem_of_app; right; apply list_elem_of_here).
      apply elem_of_cons in Hr as [E|Hr]; [simplify_eq; lia|]. rewrite list.Forall_forall in H3. destruct (spaced_above _ _ _ Hs1 Hr).
      specialize (H3 _ Hr). unfold apart, block_end in H3. cbn in *. lia.
    + unfold apart, block_end in H4. cbn in *. lia.
  - apply all_apart_app. split; [by eapply spaced_apart, Hpl|]. split; [done|].
    apply list.Forall_forall. intros b Hb'. apply list.Forall_forall. intros c Hin. destruct (Hc c Hin) as (H1 & _ & H3 & H4 & H5).
    assert (HF : Forall (fun b => apart b c) free').
    { apply (pl_apart _ _ _ _ _ Hpl); [done|done|by eapply jn_apart|]. apply list.Forall_forall. intros d Hd.
      rewrite list.Forall_forall in H5. apply H5. apply list_elem_of_In, (jn_sub _ _ _ _ _ _ Hj), list_elem_of_In, Hd. }
    rewrite list.Forall_forall in HF. by apply HF.
  - rewrite Hb. apply Forall_app. split; [|done]. apply (pl_end _ _ _ _ _ Hpl); [done|by eapply jn_end|].
    apply list.Forall_forall. intros d Hd. rewrite list.Forall_forall in He2. apply He2.
    apply list_elem_of_In, (jn_sub _ _ _ _ _ _ Hj), list_elem_of_In, Hd.
  - by rewrite Hb.
Qed.

Lemma wp_free s free bp sz alloc : inv s free ((bp, sz) :: alloc) ->
  wp (Umalloc.free (bp + 8)) s (fun _ s' => exists free', inv s' free' alloc /\ brk s' = brk s /\
    (forall x, inside free' x <-> inside free x \/ bp <= x < bp + 8 * sz) /\
    Exists (fun b => sz <= b.2) free' /\ (length free' <= S (length free))%nat).
Proof.
  intros [Hsp Hring Hfp Hal Hap Hbrk Hlim]. apply Forall_cons_iff in Hal as [(Hsz & Hbp & q & Hq) Hal]. cbn [fst snd] in *.
  apply Forall_app in Hbrk as [Hbrk1 [Hend Hbrk2]%Forall_cons_iff]. unfold block_end in Hend. cbn [fst snd] in Hend.
  apply all_apart_app in Hap as (_ & [Hb1 Hap] & Hcross).
  destruct (gap_exists s free bp sz Hsp Hring Hfp Hbp Hsz) as (F1 & F2 & R & pa & pn & [-> HR Hs1 Hs2 (Hle & Hlt & Hpn & Hlast) HsR Hpa Hg2 Hlow Hfind]).
  { eapply list.Forall_impl; [exact Hcross|]. intros b [Hb _]%Forall_cons_iff. by apply apart_sym. }
  unfold Umalloc.free. rewrite u32_small by lia. replace (bp + 8 - 8) with bp by lia.
  apply wp_bind, wp_gets, wp_bind, wp_gets, wp_bind, Hfind.
  apply wp_bind. unfold at_ at 1. eapply wp_lift; [exact Hq|]. apply wp_bind. unfold at_ at 1. eapply wp_lift; [exact Hpa|].
  cbn [size ptr]. apply Forall_app in Hbrk1 as [Hbrk1 Hbrk3]. apply wp_bind.
  eapply wp_mono; [apply (free_up s bp sz q F2); try done; [lia|eapply list.Forall_impl; [exact Hbrk3|]; cbn beta; lia]|].
  cbn beta. intros _ s1 (sz' & F2' & Hj & ->). pose proof Hj as [Hsz' Hsp' Hseg' Hsub Hjl Hin Hjap Hjend].
  pose proof (Hjend _ Hend Hbrk3) as Hend'.
  assert (HF2 : forall b, b ∈ F2' -> bp <> b.1) by (intros b Hb; destruct (spaced_above _ _ _ Hsp' Hb); lia).
  eapply wp_mono; [apply (free_down _ bp sz' (first F2 base) F1 F2' R pa pn); try done; try lia|].
  - apply lookup_insert_eq.
  - cbn. by rewrite lookup_insert_ne by lia.
  - eapply seg_frame; [exact HsR|]. intros b Hb. cbn. rewrite list.Forall_forall in Hlow. specialize (Hlow _ Hb).
    by rewrite lookup_insert_ne by lia.
  - eapply seg_frame; [exact Hseg'|]. intros b Hb. cbn. by rewrite lookup_insert_ne by (by apply HF2).
  - eapply list.Forall_impl; [exact Hlow|]. cbn beta. lia.
  - cbn beta. intros _ s' (free' & Hpl & Hring' & Hfp' & Efp & Ebrk & Hsame). exists free'. split; [|split; [done|split; [|split]]].
    + eapply (free_inv s s' F1 F2 R pa pn bp sz); try done.
      * intros a H1 H2. rewrite Hsame by done. cbn. by rewrite lookup_insert_ne.
      * eapply list.Forall_impl; [exact Hcross|]. by intros b [_ Hb]%Forall_cons_iff.
      * by rewrite !Forall_app.
    + intros x. rewrite (pl_inside _ _ _ _ _ Hpl), Hin, inside_app, inside_cons. unfold block_end. cbn [fst snd]. tauto.
    + pose proof (pl_big _ _ _ _ _ Hpl) as Hbig. eapply Exists_impl; [|exact Hbig]. cbn beta. lia.
    + pose proof (pl_length _ _ _ _ _ Hpl). rewrite length_app. lia.
Qed.

(** ** Growing the heap *)

Lemma ring_below s free alloc b : inv s free alloc -> b ∈ (base, 0) :: free -> b.1 < brk s.
Proof.
  intros Hi [->|Hb]%elem_of_cons; [apply Hi|]. destruct (spaced_above _ _ _ (iv_spaced _ _ _ Hi) Hb).
  pose proof (iv_brk _ _ _ Hi) as Hbrk. rewrite list.Forall_forall in Hbrk.
  specialize (Hbrk b ltac:(apply elem_of_app; by left)). unfold block_end in Hbrk. lia.
Qed.

Lemma alloc_below s free alloc b : inv s free alloc -> b ∈ alloc -> 1 <= b.2 /\ base < b.1 < brk s.
Proof.
  intros Hi Hb. pose proof (iv_alloc _ _ _ Hi) as Hal. pose proof (iv_brk _ _ _ Hi) as Hbrk. rewrite list.Forall_forall in Hal, Hbrk.
  destruct (Hal _ Hb) as (? & ? & _). specialize (Hbrk b ltac:(apply elem_of_app; by right)). unfold block_end in Hbrk. lia.
Qed.

(** The new block at the old break, before it is freed. *)
Lemma inv_grow s free alloc nu q : inv s free alloc -> 1 <= nu -> brk s + 8 * nu <= limit ->
  inv {| heap := <[brk s := {| ptr := q; size := nu |}]> (heap s); freep := freep s; brk := brk s + 8 * nu |} free ((brk s, nu) :: alloc).
Proof.
  intros Hi Hnu Hlim. pose proof Hi as [Hsp Hring Hfp Hal Hap Hbrk Hb]. split; cbn [heap freep brk]; try done.
  - eapply seg_frame; [exact Hring|]. intros b Hin. rewrite lookup_insert_ne; [done|]. pose proof (ring_below _ _ _ _ Hi Hin). lia.
  - constructor; [cbn [fst snd]; split; [done|]; split; [lia|]; rewrite lookup_insert_eq; by eexists|].
    apply list.Forall_forall. intros b Hin. destruct (alloc_below _ _ _ _ Hi Hin). rewrite list.Forall_forall in Hal.
    rewrite lookup_insert_ne by lia. by apply Hal.
  - rewrite <- Permutation_middle. split; [|done]. eapply list.Forall_impl; [exact Hbrk|]. intros b Hx. right. exact Hx.
  - rewrite <- Permutation_middle. constructor; [unfold block_end; cbn; lia|]. eapply list.Forall_impl; [exact Hbrk|]. cbn beta. lia.
  - lia.
Qed.

Lemma wp_morecore s free alloc nu : inv s free alloc -> 1 <= nu < 2 ^ 28 ->
  wp (morecore limit nu) s (fun r s' =>
    (r = 0 /\ s' = s /\ limit < brk s + 8 * Z.max 4096 nu) \/
    (r = freep s' /\ 0 < r /\ brk s' = brk s + 8 * Z.max 4096 nu /\ exists free', inv s' free' alloc /\
     (forall x, inside free' x <-> inside free x \/ brk s <= x < brk s') /\
     Exists (fun b => nu <= b.2) free' /\ (length free' <= S (length free))%nat)).
Proof.
  intros Hi Hnu. unfold morecore. replace (if nu <? 4096 then 4096 else nu) with (Z.max 4096 nu) by (destruct (Z.ltb_spec nu 4096); lia).
  set (m := Z.max 4096 nu) in *. rewrite (u32_small (m * 8)) by lia. pose proof (iv_limit _ _ _ Hi) as Hb.
  apply wp_bind. unfold usbrk, wp at 1. rewrite s32_small, (proj2 (Z.ltb_lt 0 _)) by lia. destruct (Z.leb_spec (brk s + m * 8) limit) as [Hle|Hgt].
  - rewrite (proj2 (Z.eqb_neq (brk s) _)) by (change (u32 (-1)) with (2 ^ 32 - 1); lia).
    apply wp_bind. apply wp_modify. unfold with_heap, with_brk. cbn [heap freep brk]. rewrite u32_small by lia. replace (m * 8) with (8 * m) by lia.
    apply wp_bind. eapply wp_mono; [apply (wp_free _ free (brk s) m alloc)|].
    { apply inv_grow; [done|lia|lia]. }
    cbn beta. intros _ s' (free' & Hi' & Hb' & Hin & Hbig & Hlen). apply wp_gets. right. cbn [brk] in Hb'. split; [done|].
    assert (Hpos : 0 < freep s').
    { pose proof (iv_freep _ _ _ Hi') as Hf. apply elem_of_cons in Hf as [->|(b & -> & Hf)%list_elem_of_fmap]; [done|].
      destruct (spaced_above _ _ _ (iv_spaced _ _ _ Hi') Hf). lia. }
    split; [done|]. split; [lia|]. exists free'. split; [done|]. split; [intros x; rewrite Hin, Hb'; tauto|]. split; [|done].
    eapply Exists_impl; [|exact Hbig]. cbn beta. lia.
  - apply wp_ret. left. split; [done|]. split; [done|]. lia.
Qed.

(** ** Taking a block *)

(** The element before [c] in the ring. *)
Lemma pred_split h ring pv c : seg h ring base -> pv ∈ ring -> h !! pv.1 = Some {| ptr := c; size := pv.2 |} -> c <> base ->
  exists l1 n l2, ring = l1 ++ pv :: (c, n) :: l2.
Proof.
  intros Hs Hin Hp Hc. apply list_elem_of_split in Hin as (l1 & l2 & ->). apply seg_app in Hs as [_ [Hs _]].
  rewrite Hp in Hs. destruct l2 as [|[b n] l2]; cbn in Hs; simplify_eq. by exists l1, n, l2.
Qed.

(** [c] is a block of the ring and [pv] the one before it. *)
Record chosen (s : umem) (free : list block) (pv c : block) : Prop := {
  ch_pv : pv ∈ (base, 0) :: free;
  ch_c : c ∈ (base, 0) :: free;
  ch_link : heap s !! pv.1 = Some {| ptr := c.1; size := pv.2 |}
}.

Lemma chosen_split s free alloc pv c : inv s free alloc -> chosen s free pv c -> 1 <= c.2 ->
  exists R F2, (base, 0) :: free = R ++ pv :: c :: F2.
Proof.
  intros Hi [Hpv Hc Hl] Hn. pose proof (iv_ring _ _ _ Hi) as Hring.
  assert (Hf : c ∈ free) by (apply elem_of_cons in Hc as [->|]; [cbn in Hn; lia|done]).
  destruct (spaced_above _ _ _ (iv_spaced _ _ _ Hi) Hf) as [Hlt _].
  destruct (pred_split _ _ _ _ Hring Hpv Hl ltac:(lia)) as (l1 & n & l2 & E). exists l1, l2. rewrite E. do 3 f_equal.
  destruct (seg_at _ _ _ _ Hring Hc) as [p Hp]. rewrite E in Hring. apply seg_app in Hring as [_ (_ & Hc2 & _)]. cbn [fst snd] in Hc2.
  rewrite Hp in Hc2. destruct c as [a m]. cbn in *. by simplify_eq.
Qed.

(** Removing [c] from the ring. *)
Lemma ring_remove s free alloc pv c R F2 h' : inv s free alloc -> (base, 0) :: free = R ++ pv :: c :: F2 -> 1 <= c.2 ->
  h' = <[pv.1 := {| ptr := first F2 base; size := pv.2 |}]> (heap s) ->
  exists F1, free = F1 ++ c :: F2 /\ (base, 0) :: F1 = R ++ [pv] /\
    inv {| heap := h'; freep := pv.1; brk := brk s |} (F1 ++ F2) (c :: alloc).
Proof.
  intros Hi HR Hn ->. pose proof Hi as [Hsp Hring Hfp Hal Hap Hbrk Hb]. pose proof (ring_ordered _ Hsp) as Hord.
  assert (Hex : exists F1, free = F1 ++ c :: F2 /\ (base, 0) :: F1 = R ++ [pv]).
  { destruct R as [|r R]; cbn [app] in HR; injection HR as Er ->; [exists []; by subst|]. exists (R ++ [pv]). rewrite <- app_assoc. by subst. }
  destruct Hex as (F1 & -> & HR1). exists F1. split; [done|]. split; [done|].
  rewrite HR in Hring, Hord. pose proof Hring as (HsR & Hpv & Hc & Hs2)%seg_app.
  assert (Hne : forall b, b ∈ R ++ c :: F2 -> b.1 <> pv.1).
  { intros b Hin E. pose proof (ordered_nodup _ Hord) as Hnd. rewrite map_app in Hnd. cbn [map] in Hnd.
    rewrite <- Permutation_middle in Hnd. apply list.NoDup_cons in Hnd as [Hnd _]. apply Hnd.
    change (pv.1 ∈ map fst R ++ map fst (c :: F2)). rewrite <- map_app, <- E. by apply list_elem_of_fmap_2. }
  apply spaced_app in Hsp as (Hsp1 & Hlt & Hc2 & Hsp2). split; cbn [heap freep brk].
  - apply spaced_app. split; [done|]. eapply spaced_le; [|exact Hsp2]. unfold block_end. lia.
  - rewrite app_comm_cons, HR1, <- app_assoc. apply seg_app. split; [|split; [apply lookup_insert_eq|]].
    + eapply seg_frame; [exact HsR|]. intros b Hin. rewrite lookup_insert_ne; [done|]. apply not_eq_sym, Hne, elem_of_app. by left.
    + eapply seg_frame; [exact Hs2|]. intros b Hin. rewrite lookup_insert_ne; [done|]. apply not_eq_sym, Hne, elem_of_app. right. by right.
  - assert (Hin : pv.1 ∈ map fst ((base, 0) :: F1)) by (rewrite HR1, map_app; apply elem_of_app; right; apply list_elem_of_here).
    cbn [map fst] in Hin. rewrite map_app. apply elem_of_cons in Hin as [->|Hin]; [by left|right]. apply elem_of_app. by left.
  - constructor.
    + split; [done|]. split; [|]. 
      * destruct (spaced_above base (F1 ++ c :: F2) c (iv_spaced _ _ _ Hi)); [apply elem_of_app; right; apply list_elem_of_here|done].
      * rewrite lookup_insert_ne; [by eexists|]. apply not_eq_sym, Hne, elem_of_app. right. apply list_elem_of_here.
    + apply list.Forall_forall. intros b Hin. rewrite list.Forall_forall in Hal. destruct (Hal _ Hin) as (H1 & H2 & H3).
      split; [done|]. split; [done|]. rewrite lookup_insert_ne; [done|].
      assert (Hr : pv ∈ (base, 0) :: F1 ++ c :: F2) by (rewrite HR; apply elem_of_app; right; apply list_elem_of_here).
      apply elem_of_cons in Hr as [->|Hr]; [cbn; lia|]. apply all_apart_app in Hap as (_ & _ & Hcr).
      rewrite list.Forall_forall in Hcr. specialize (Hcr _ Hr). rewrite list.Forall_forall in Hcr. specialize (Hcr _ Hin).
      destruct (spaced_above _ _ _ (iv_spaced _ _ _ Hi) Hr). unfold apart, block_end in Hcr. lia.
  - revert Hap. rewrite <- !app_assoc. cbn [app]. by rewrite Permutation_middle.
  - revert Hbrk. rewrite <- !app_assoc. cbn [app]. by rewrite Permutation_middle.
  - done.
Qed.

(** Two distinct blocks have distinct addresses, and neither holds the
    address of the other. *)
Lemma apart_addr b c : apart b c -> 1 <= b.2 -> 1 <= c.2 -> ~ (b.1 <= c.1 < block_end b).
Proof. unfold apart, block_end. lia. Qed.

(** Cutting the last [n] units from a block of the ring. *)
Lemma ring_shrink s F1 F2 a m alloc n pv q : inv s (F1 ++ (a, m) :: F2) alloc -> 1 <= n < m ->
  pv ∈ base :: map fst (F1 ++ (a, m) :: F2) ->
  inv {| heap := <[a + 8 * (m - n) := {| ptr := q; size := n |}]> (<[a := {| ptr := first F2 base; size := m - n |}]> (heap s));
         freep := pv; brk := brk s |} (F1 ++ (a, m - n) :: F2) ((a + 8 * (m - n), n) :: alloc).
Proof.
  intros Hi Hn Hpv. pose proof Hi as [Hsp Hring Hfp Hal Hap Hbrk Hb]. set (qa := a + 8 * (m - n)).
  assert (Hfar : forall b, b ∈ F1 ++ F2 ++ alloc -> apart (a, m) b /\ 1 <= b.2).
  { intros b Hin. rewrite <- app_assoc in Hap. cbn [app] in Hap. rewrite <- Permutation_middle in Hap. destruct Hap as [Hap _].
    rewrite list.Forall_forall in Hap. split; [by apply Hap|].
    rewrite app_assoc in Hin. apply elem_of_app in Hin as [Hin|Hin].
    - apply (spaced_above base (F1 ++ (a, m) :: F2)); [done|]. apply elem_of_app in Hin as [|]; apply elem_of_app; [by left|right; by right].
    - rewrite list.Forall_forall in Hal. by destruct (Hal _ Hin). }
  assert (Hne : forall b, b ∈ F1 ++ F2 ++ alloc -> b.1 <> a /\ b.1 <> qa).
  { intros b Hin. destruct (Hfar b Hin) as [Hx Hy]. pose proof (apart_addr (a, m) b Hx ltac:(cbn; lia) Hy) as Hz. unfold block_end in Hz. cbn in Hz. lia. }
  apply spaced_app in Hsp as (Hsp1 & Hlt & Hc2 & Hsp2). cbn [fst snd] in *. unfold block_end in Hsp2. cbn [fst snd] in Hsp2.
  assert (Hbase_a : base < a) by (apply (spaced_above base (F1 ++ (a, m) :: F2) (a, m)); [apply Hi|apply elem_of_app; right; apply list_elem_of_here]).
  assert (Hkeep : forall b h1 h2, b ∈ F1 ++ F2 ++ alloc -> <[qa := h1]> (<[a := h2]> (heap s)) !! b.1 = heap s !! b.1).
  { intros b h1 h2 Hin. destruct (Hne b Hin). by rewrite !lookup_insert_ne by congruence. }
  split; cbn [heap freep brk].
  - apply spaced_app. split; [done|]. cbn [spaced fst snd]. split; [done|]. split; [lia|]. eapply spaced_le; [|exact Hsp2]. unfold block_end. cbn. lia.
  - rewrite app_comm_cons in Hring |- *. apply seg_app in Hring as (Hr1 & Hr2 & Hr3). apply seg_app. split; [|split].
    + eapply seg_frame; [exact Hr1|]. intros b [->|Hin]%elem_of_cons; [cbn; by rewrite !lookup_insert_ne by (unfold qa; lia)|].
      apply Hkeep, elem_of_app. by left.
    + cbn [fst snd]. rewrite lookup_insert_ne by (unfold qa; lia). apply lookup_insert_eq.
    + eapply seg_frame; [exact Hr3|]. intros b Hin. apply Hkeep, elem_of_app. right. apply elem_of_app. by left.
  - by rewrite map_app in *.
  - constructor; [cbn [fst snd]; split; [lia|]; split; [unfold qa; lia|]; rewrite lookup_insert_eq; by eexists|].
    apply list.Forall_forall. intros b Hin. rewrite list.Forall_forall in Hal. rewrite Hkeep; [by apply Hal|].
    apply elem_of_app. right. apply elem_of_app. by right.
  - rewrite <- app_assoc in Hap |- *. cbn [app] in Hap |- *. rewrite <- Permutation_middle in Hap. destruct Hap as [Hx Hap].
    rewrite <- Permutation_middle, (app_assoc F1 F2), <- Permutation_middle, <- app_assoc. split; [constructor|split].
    + left. unfold block_end. cbn. unfold qa. lia.
    + eapply list.Forall_impl; [exact Hx|]. intros b. unfold apart, block_end. cbn. lia.
    + eapply list.Forall_impl; [exact Hx|]. intros b. unfold apart, block_end, qa. cbn. lia.
    + done.
  - rewrite <- app_assoc in Hbrk |- *. cbn [app] in Hbrk |- *. rewrite <- Permutation_middle in Hbrk. apply Forall_cons_iff in Hbrk as [Hx Hbrk].
    rewrite <- Permutation_middle, (app_assoc F1 F2), <- Permutation_middle, <- app_assoc. unfold block_end in Hx. cbn in Hx.
    constructor; [unfold block_end; cbn; lia|]. constructor; [unfold block_end, qa; cbn; lia|done].
  - done.
Qed.

(** [r] is the address of a new block of [n] units cut from the free ones. *)
Definition served (s : umem) (free alloc : list block) (n r : Z) (s' : umem) : Prop :=
  0 < r /\ brk s' = brk s /\ exists free', inv s' free' ((r - 8, n) :: alloc) /\
    (forall x, inside free x <-> inside free' x \/ r - 8 <= x < r - 8 + 8 * n).

Lemma wp_take s free alloc pv c n p : inv s free alloc -> chosen s free pv c -> 1 <= n <= c.2 ->
  heap s !! c.1 = Some {| ptr := p; size := c.2 |} ->
  wp (malloc_take n pv.1 c.1 {| ptr := p; size := c.2 |}) s (served s free alloc n).
Proof.
  intros Hi Hch Hn Hc. destruct (chosen_split _ _ _ _ _ Hi Hch ltac:(lia)) as (R & F2 & HR).
  pose proof (iv_ring _ _ _ Hi) as Hring. pose proof (iv_limit _ _ _ Hi) as Hlim. rewrite HR in Hring.
  apply seg_app in Hring as (_ & Hpv & Hc' & _). rewrite Hc in Hc'. simplify_eq.
  destruct (ring_remove s free alloc pv c R F2 _ Hi HR ltac:(lia) eq_refl) as (F1 & -> & HR1 & Hrem).
  assert (Hcin : c ∈ F1 ++ c :: F2) by (apply elem_of_app; right; apply list_elem_of_here).
  destruct (spaced_above _ _ _ (iv_spaced _ _ _ Hi) Hcin) as [Hbc _].
  assert (Hce : block_end c <= brk s).
  { pose proof (iv_brk _ _ _ Hi) as Hb. rewrite list.Forall_forall in Hb. apply Hb, elem_of_app. by left. }
  unfold malloc_take. cbn [size ptr]. destruct c as [a m]. unfold block_end in Hce. cbn [fst snd] in *. destruct (Z.eqb_spec m n) as [->|Hne].
  - apply wp_bind, wp_bind. unfold set_ptr. apply wp_bind. unfold at_. eapply wp_lift; [exact Hpv|]. apply wp_modify, wp_ret, wp_bind, wp_modify, wp_ret.
    rewrite u32_small by lia. unfold served. replace (a + 8 - 8) with a by lia. split; [lia|]. split; [done|]. exists (F1 ++ F2).
    split; [exact Hrem|]. intros x. rewrite !inside_app, inside_cons. unfold block_end. cbn [fst snd]. tauto.
  - rewrite (u32_small (m - n)), (u32_small (a + 8 * (m - n))) by lia.
    apply wp_bind, wp_bind. unfold set_size at 1. apply wp_modify, wp_bind. unfold set_size at 1. apply wp_modify, wp_ret, wp_bind, wp_modify, wp_ret.
    rewrite u32_small by lia. unfold served. replace (a + 8 * (m - n) + 8 - 8) with (a + 8 * (m - n)) by lia. split; [lia|]. split; [done|].
    exists (F1 ++ (a, m - n) :: F2). unfold with_heap, with_freep. cbn [heap freep brk]. rewrite Hc. cbn [ptr]. split.
    + apply ring_shrink; [done|lia|]. pose proof (ch_pv _ _ _ _ Hch) as Hp. apply (list_elem_of_fmap_2 fst) in Hp. exact Hp.
    + intros x. rewrite !inside_app, !inside_cons. unfold block_end. cbn [fst snd]. intuition lia.
Qed.

(** The search from [prev] over [l] to the element [f] at [freep]. *)
Lemma malloc_search s free alloc n f l : forall prev fuel (Q : Z -> umem -> Prop),
  inv s free alloc -> seg (heap s) (prev :: l) f.1 -> f.1 = freep s -> Forall (fun c => c.1 <> f.1) l ->
  Forall (fun c => c ∈ (base, 0) :: free) (f :: prev :: l) ->
  (forall pv c p, chosen s free pv c -> n <= c.2 -> heap s !! c.1 = Some {| ptr := p; size := c.2 |} ->
     wp (malloc_take n pv.1 c.1 {| ptr := p; size := c.2 |}) s Q) ->
  (Forall (fun c => c.2 < n) (f :: l) ->
     wp (let! p := morecore limit n in if p =? 0 then ret 0 else let! h := at_ p in malloc_loop limit fuel n p (ptr h)) s Q) ->
  wp (malloc_loop limit (length l + S fuel) n prev.1 (first l f.1)) s Q.
Proof.
  induction l as [|c l IH]; intros prev fuel Q Hi Hseg Hf Hne Hin Htake Hmore; cbn [length Nat.add malloc_loop first] in *.
  - destruct Hseg as [Hp _]. apply Forall_cons_iff in Hin as [Hfin [Hpin _]%Forall_cons_iff].
    destruct (seg_at _ _ _ _ (iv_ring _ _ _ Hi) Hfin) as [q Hq]. apply wp_bind. unfold at_ at 1. eapply wp_lift; [exact Hq|]. cbn [size ptr].
    destruct (Z.leb_spec n f.2); [apply Htake; [by split|done|done]|]. apply wp_bind, wp_gets. rewrite Hf, Z.eqb_refl. apply Hmore. by constructor.
  - destruct Hseg as [Hp [Hc Hs]]. apply Forall_cons_iff in Hin as [Hfin [Hpin [Hcin Hin]%Forall_cons_iff]%Forall_cons_iff].
    apply wp_bind. unfold at_ at 1. eapply wp_lift; [exact Hc|]. cbn [size ptr]. destruct (Z.leb_spec n c.2); [apply Htake; [by split|done|done]|].
    apply Forall_cons_iff in Hne as [Hcne Hne]. apply wp_bind, wp_gets. rewrite <- Hf, (proj2 (Z.eqb_neq _ _)) by done.
    apply (IH c); [done|by split|done|done|constructor; [done|by constructor]|done|]. intros [Hfs Hls]%Forall_cons_iff. apply Hmore. constructor; [done|by constructor].
Qed.

(** The ring, read from [freep] on. *)
Lemma ring_from s free alloc : inv s free alloc ->
  exists f l, f.1 = freep s /\ seg (heap s) (f :: l) f.1 /\ f :: l ≡ₚ (base, 0) :: free.
Proof.
  intros Hi. pose proof (iv_freep _ _ _ Hi) as Hfp. pose proof (iv_ring _ _ _ Hi) as Hring.
  change (base :: map fst free) with (map fst ((base, 0) :: free)) in Hfp. apply list_elem_of_fmap in Hfp as (f & Hf & Hin).
  apply list_elem_of_split in Hin as (l1 & l2 & E). rewrite E in *. exists f, (l2 ++ l1). split; [done|]. split.
  - apply seg_app in Hring as [H1 H2]. rewrite app_comm_cons. apply seg_app. cbn [first fst] in H1. split; [|done].
    replace (first l1 f.1) with base; [done|]. destruct l1 as [|b l1]; cbn [app] in E; injection E as E _; by subst.
  - rewrite app_comm_cons. apply Permutation_app_comm.
Qed.

Lemma ring_from_others s free alloc f l : inv s free alloc -> f :: l ≡ₚ (base, 0) :: free -> Forall (fun c => c.1 <> f.1) l.
Proof.
  intros Hi Hp. pose proof (ordered_nodup _ (ring_ordered _ (iv_spaced _ _ _ Hi))) as Hnd. rewrite <- Hp in Hnd. cbn [map] in Hnd.
  apply list.NoDup_cons in Hnd as [Hnd _]. apply list.Forall_forall. intros c Hc E. apply Hnd. rewrite <- E. by apply list_elem_of_fmap_2.
Qed.

(** The search from [freep]: it takes a block that is large enough, or grows
    the heap when there is none. *)
Lemma wp_search s free alloc n fuel (Q : Z -> umem -> Prop) : inv s free alloc -> 1 <= n -> (length free < fuel)%nat ->
  (forall r s', served s free alloc n r s' -> Q r s') ->
  (Forall (fun c => c.2 < n) free ->
     wp (let! p := morecore limit n in if p =? 0 then ret 0 else
         let! h := at_ p in malloc_loop limit (fuel - S (length free)) n p (ptr h)) s Q) ->
  exists h, heap s !! freep s = Some h /\ wp (malloc_loop limit fuel n (freep s) (ptr h)) s Q.
Proof.
  intros Hi Hn Hf HQ Hmore. destruct (ring_from _ _ _ Hi) as (f & l & Hfp & Hseg & Hp). rewrite <- Hfp.
  pose proof (ring_from_others _ _ _ _ _ Hi Hp) as Hne. pose proof (Permutation_length Hp) as Hlen. cbn [length] in Hlen.
  assert (Hin : forall c, c ∈ f :: l -> c ∈ (base, 0) :: free) by (intros c Hc; by rewrite <- Hp).
  eexists. split; [apply Hseg|]. cbn [ptr].
  replace fuel with (length l + S (fuel - S (length free)))%nat by lia. apply (malloc_search s free alloc); try done.
  - constructor; [apply Hin, list_elem_of_here|]. by apply list.Forall_forall.
  - intros pv c p Hc Hle Hcp. eapply wp_mono; [by apply wp_take|done].
  - intros Hsmall. apply Hmore. rewrite Hp in Hsmall. by apply Forall_cons_iff in Hsmall as [_ ?].
Qed.

(** Ready to allocate: the invariant, or nothing allocated yet. *)
Definition ready (s : umem) (free alloc : list block) : Prop :=
  inv s free alloc \/ (freep s = 0 /\ free = [] /\ alloc = [] /\ base < brk s <= limit).

Definition units (nbytes : Z) : Z := (nbytes + 7) / 8 + 1.

(** What [malloc] of [n] units does. *)
Definition allocated (s : umem) (free alloc : list block) (n r : Z) (s' : umem) : Prop :=
  (r = 0 /\ inv s' free alloc /\ brk s' = brk s /\ limit < brk s + 8 * Z.max 4096 n) \/
  (0 < r /\ exists free', inv s' free' ((r - 8, n) :: alloc) /\
   (forall x, inside free x \/ brk s <= x < brk s' <-> inside free' x \/ r - 8 <= x < r - 8 + 8 * n)).

(** The two rounds: before and after the heap grows. *)
Lemma wp_allocate s free alloc n : inv s free alloc -> 1 <= n < 2 ^ 28 ->
  wp (let! h := at_ (freep s) in let! fuel := gets (fun s => (2 * stdpp.base.size (heap s) + 4)%nat) in
      malloc_loop limit fuel n (freep s) (ptr h)) s (allocated s free alloc n).
Proof.
  intros Hi Hu. set (Q := allocated s free alloc n).
  pose proof (ring_size _ _ _ (iv_ring _ _ _ Hi) (ring_ordered _ (iv_spaced _ _ _ Hi))) as Hsize. cbn [length] in Hsize.
  edestruct (wp_search s free alloc n (2 * stdpp.base.size (heap s) + 4) Q Hi) as (h & Hh & Hwp); [lia|lia| | |].
  - intros r s' (Hpos & Hb & free' & Hi' & Hin). right. split; [done|]. exists free'. split; [done|].
    intros x. rewrite <- Hin, Hb. intuition lia.
  - intros _. apply wp_bind. eapply wp_mono; [apply (wp_morecore s free alloc n Hi Hu)|]. cbn beta.
    intros p s1 [(-> & -> & Hlim)|(-> & Hpos & Hb1 & free1 & Hi1 & Hin1 & Hbig & Hlen)].
    + apply wp_ret. by left.
    + rewrite (proj2 (Z.eqb_neq _ 0)) by lia.
      edestruct (wp_search s1 free1 alloc n (2 * stdpp.base.size (heap s) + 4 - S (length free)) Q Hi1) as (h & Hh & Hwp); [lia|lia| | |].
      * intros r s' (Hpos' & Hb & free' & Hi' & Hin). right. split; [done|]. exists free'. split; [done|].
        intros x. by rewrite <- Hin, Hb, Hin1.
      * intros Hsmall. exfalso. apply Exists_exists in Hbig as (b & Hb & Hbn). rewrite Forall_forall in Hsmall. specialize (Hsmall b Hb). lia.
      * apply wp_bind. unfold at_. by eapply wp_lift.
  - apply wp_bind. unfold at_. eapply wp_lift; [exact Hh|]. by apply wp_bind, wp_gets.
Qed.

(** C37. [malloc] of less than 2^31 - 16 bytes always returns.  It returns
    a block of enough units that overlaps no other block, allocated or free,
    and leaves the other allocated blocks as they are; what it takes comes
    from the free blocks or from memory between the old break and the new
    one.  It returns null only when the heap cannot grow, and then every
    block is as before. *)
Theorem malloc_serves s free alloc nbytes : ready s free alloc -> 0 <= nbytes < 2 ^ 31 - 16 ->
  wp (malloc base limit nbytes) s (fun r s' =>
    (r = 0 /\ inv s' free alloc /\ brk s' = brk s /\ limit < brk s + 8 * Z.max 4096 (units nbytes)) \/
    (0 < r /\ nbytes + 8 <= 8 * units nbytes /\ exists free', inv s' free' ((r - 8, units nbytes) :: alloc) /\
     (forall x, inside free x \/ brk s <= x < brk s' <-> inside free' x \/ r - 8 <= x < r - 8 + 8 * units nbytes))).
Proof.
  intros Hr Hn. unfold malloc. rewrite u32_small by lia. replace (nbytes + 8 - 1) with (nbytes + 7) by lia. fold (units nbytes).
  assert (Hu : 1 <= units nbytes < 2 ^ 28 /\ nbytes + 8 <= 8 * units nbytes).
  { unfold units. pose proof (Z.div_mod (nbytes + 7) 8). pose proof (Z.mod_pos_bound (nbytes + 7) 8). lia. }
  destruct Hu as [Hu Hle]. apply wp_bind, wp_gets. destruct Hr as [Hi|(Hf & -> & -> & Hb)].
  - assert (Hne : freep s <> 0).
    { pose proof (iv_freep _ _ _ Hi) as Hf. apply elem_of_cons in Hf as [->|(b & -> & Hf)%list_elem_of_fmap]; [lia|].
      destruct (spaced_above _ _ _ (iv_spaced _ _ _ Hi) Hf). lia. }
    rewrite (proj2 (Z.eqb_neq _ 0)) by done. eapply wp_mono; [by apply wp_allocate|]. intros r s' [|[]]; [by left|by right].
  - rewrite Hf. cbn [Z.eqb]. apply wp_bind, wp_bind, wp_modify, wp_ret.
    eapply wp_mono; [apply (wp_allocate {| heap := <[base := {| ptr := base; size := 0 |}]> (heap s); freep := base; brk := brk s |} [] []); [|done]|].
    + split; cbn; try done; [split; [apply lookup_insert_eq|done]|by left].
    + intros r s' [|[]]; [by left|by right].
Qed.

(** [free] of an allocated block always returns, and makes exactly its bytes
    free; the other allocated blocks are as before. *)
Theorem free_returns s free bp sz alloc : inv s free ((bp, sz) :: alloc) ->
  wp (Umalloc.free (bp + 8)) s (fun _ s' => exists free', inv s' free' alloc /\ brk s' = brk s /\
    (forall x, inside free' x <-> inside free x \/ bp <= x < bp + 8 * sz)).
Proof. intros Hi. eapply wp_mono; [by apply wp_free|]. cbn beta. intros _ s' (free' & ? & ? & ? & _). by exists free'. Qed.
End inv.

(** ** A heap *)

Definition fresh_heap : umem := {| heap := ∅; freep := 0; brk := 8192 |}.

Lemma malloc_serves_witness : exists r s', malloc 4096 (2 ^ 31 - 1) 100 fresh_heap = Ret r s' /\ r = 40856.
Proof.
  pose proof (malloc_serves 4096 (2 ^ 31 - 1) ltac:(lia) ltac:(lia) fresh_heap [] [] 100
    ltac:(right; split_and!; done) ltac:(lia)) as H.
  apply wp_iff in H as (r & s' & E & _). exists r, s'. split; [exact E|]. vm_compute in E. congruence.
Defined.

Lemma free_returns_witness : exists s',
  Umalloc.free 40856 {| heap := {[4096 := {| ptr := 8192; size := 0 |}; 8192 := {| ptr := 4096; size := 4082 |}; 40848 := {| ptr := 0; size := 14 |}]};
                freep := 8192; brk := 40960 |} = Ret tt s' /\ heap s' !! 8192 = Some {| ptr := 4096; size := 4096 |}.
Proof.
  pose proof (free_returns 4096 (2 ^ 31 - 1) ltac:(lia) ltac:(lia)
    {| heap := {[4096 := {| ptr := 8192; size := 0 |}; 8192 := {| ptr := 4096; size := 4082 |}; 40848 := {| ptr := 0; size := 14 |}]};
       freep := 8192; brk := 40960 |} [(8192, 4082)] 40848 14 []) as H.
  apply wp_iff in H as (r & s' & E & _).
  - destruct r. exists s'. split; [exact E|]. vm_compute in E. injection E as <-. reflexivity.
  - split.
    + by cbn.
    + split; [reflexivity|split; [reflexivity|done]].
    + right. left.
    + constructor; [|constructor]. cbn. split; [lia|]. split; [lia|]. by eexists.
    + split; [constructor; [left; by vm_compute|constructor]|split; [constructor|done]].
    + repeat constructor; by vm_compute.
    + cbn. lia.
Defined.

(** The number of units is computed in 32 bits: [malloc(2^32 - 1)] returns a
    block with no room for a single byte. *)
Theorem malloc_wraps : exists s', malloc 4096 (2 ^ 31 - 1) (2 ^ 32 - 1) fresh_heap = Ret 40960 s' /\
  brk s' = 40960 /\ heap s' !! 40952 = Some {| ptr := 0; size := 1 |}.
Proof. eexists. split; [vm_compute; reflexivity|]. split; vm_compute; reflexivity. Qed.

(** [sbrk] takes the number of bytes for a negative one from 2^31 on:
    [malloc(2^31)] returns an address although the heap has not grown. *)
Theorem malloc_beyond_break : exists r s', malloc 4096 (2 ^ 31 - 1) (2 ^ 31) fresh_heap = Ret r s' /\ brk s' = brk fresh_heap /\ brk s' < r.
Proof. eexists _, _. split; [vm_compute; reflexivity|]. split; vm_compute; reflexivity. Qed.
