(* ===== verification/Format.v ===== *)
(** * Printing numbers

    The two [printint], of [kernel/console.c] and [user/printf.c], share the
    loop that stores the digits of a number from the last one on, and the loop
    that puts them out backwards.  This file has the two loops, for any way of
    putting out a character, and shows that together they print the numeral of
    the number. *)

From S2P Require Import Prelude CStr.

(** An argument of a format: a word, or a pointer to a string that may be
    null. *)
Inductive arg : Type :=
  | Word (z : Z)
  | Ptr (s : option (list Z)).

(** [*argp++], for a number. *)
Definition word_arg (args : list arg) : option (Z * list arg) :=
  match args with
  | Word z :: args' => Some (z, args')
  | _ => None
  end.

(** The same for a string, with the check for null. *)
Definition str_arg (args : list arg) : option (list Z * list arg) :=
  match args with
  | Ptr (Some s) :: args' => Some (s, args')
  | Ptr None :: args' => Some (chars "(null)" ++ [0], args')
  | Word 0 :: args' => Some (chars "(null)" ++ [0], args')
  | _ => None
  end.

(** [do { buf[i++] = digits[x % base]; } while((x /= base) != 0)].  A 32-bit
    number has at most 32 digits. *)
Fixpoint digit_loop (fuel : nat) (digits : list Z) (x base : Z) (buf : list Z) (i : nat) : option (list Z * nat) :=
  match fuel with
  | O => None
  | S fuel' =>
      d ← digits !! Z.to_nat (x mod base);
      buf ← store buf i d;
      let x := x / base in
      if x =? 0 then Some (buf, S i) else digit_loop fuel' digits x base buf (S i)
  end.

(** [while(--i >= 0) putc(buf[i])]. *)
Fixpoint put_back {S : Type} (putc : Z -> M S unit) (buf : list Z) (i : nat) : M S unit :=
  match i with
  | O => ret tt
  | Datatypes.S i' => let! c := lift (buf !! i') in putc c then! put_back putc buf i'
  end.

(** Every character of [s] up to its terminator. *)
Fixpoint put_str {S : Type} (putc : Z -> M S unit) (s : list Z) : M S unit :=
  match s with
  | [] => halt Undefined
  | c :: s' => if c =? 0 then ret tt else putc c then! put_str putc s'
  end.

(** [for(i = 0; i < n; i++) putc(s[i])]. *)
Fixpoint put_all {S : Type} (putc : Z -> M S unit) (s : list Z) : M S unit :=
  match s with
  | [] => ret tt
  | c :: s' => putc c then! put_all putc s'
  end.

(** ** Numerals *)

(** The digits of a number, last one first. *)
Fixpoint low_digits (fuel : nat) (base x : Z) : list Z :=
  match fuel with
  | O => []
  | S fuel' => x mod base :: if x / base =? 0 then [] else low_digits fuel' base (x / base)
  end.

(** The numeral of a number: its digits, first one first. *)
Definition numeral (base x : Z) : list Z := rev (low_digits 32 base x).

(** The number that digits stand for. *)
Definition value (base : Z) (ds : list Z) : Z := fold_left (fun a d => base * a + d) ds 0.

(** The characters of digits in a table. *)
Definition glyphs (digits ds : list Z) : list Z := (fun d => digits !!! Z.to_nat d) <$> ds.

Section numeral.
Context (base : Z) (Hbase : 2 <= base).

Lemma low_digits_range fuel x : Forall (fun d => 0 <= d < base) (low_digits fuel base x).
Proof.
  revert x. induction fuel as [|fuel IH]; intros x; cbn [low_digits]; constructor.
  - apply Z.mod_pos_bound. lia.
  - by destruct (x / base =? 0).
Qed.

Lemma low_digits_value fuel x : 0 <= x < 2 ^ Z.of_nat fuel -> value base (rev (low_digits fuel base x)) = x.
Proof.
  revert x. induction fuel as [|fuel IH]; intros x Hx.
  { change (2 ^ Z.of_nat 0) with 1 in Hx. unfold value. cbn. lia. }
  cbn [low_digits rev]. unfold value. rewrite fold_left_app. cbn [fold_left].
  fold (value base (rev (if x / base =? 0 then [] else low_digits fuel base (x / base)))).
  pose proof (Z.div_mod x base ltac:(lia)) as Hd. destruct (Z.eqb_spec (x / base) 0) as [E|E].
  - rewrite E in Hd. unfold value. cbn. lia.
  - rewrite IH; [lia|]. rewrite Nat2Z.inj_succ, Z.pow_succ_r in Hx by lia. split; [apply Z.div_pos; lia|].
    apply Z.div_lt_upper_bound; [lia|]. pose proof (Z.pow_pos_nonneg 2 (Z.of_nat fuel)). nia.
Qed.

(** The number of digits: as many as make [base] to that power exceed it. *)
Lemma low_digits_length fuel x k : 0 <= x < base ^ Z.of_nat (S k) -> (length (low_digits fuel base x) <= S k)%nat.
Proof.
  revert x k. induction fuel as [|fuel IH]; intros x k Hx; [cbn; lia|].
  cbn [low_digits length]. destruct (Z.eqb_spec (x / base) 0) as [E|E]; cbn [length]; [lia|].
  destruct k as [|k].
  - change (Z.of_nat 1) with 1 in Hx. rewrite Z.pow_1_r in Hx. rewrite Z.div_small in E; lia.
  - enough (length (low_digits fuel base (x / base)) <= S k)%nat by lia. apply IH.
    rewrite Nat2Z.inj_succ, Z.pow_succ_r in Hx by lia. split; [apply Z.div_pos; lia|].
    apply Z.div_lt_upper_bound; lia.
Qed.

Lemma low_digits_nonempty fuel x : (1 <= length (low_digits (S fuel) base x))%nat.
Proof. cbn. lia. Qed.

(** No leading zero, except in the numeral of 0. *)
Lemma low_digits_last fuel x : 0 < x -> x < 2 ^ Z.of_nat fuel -> exists ds d, low_digits fuel base x = ds ++ [d] /\ d <> 0.
Proof.
  revert x. induction fuel as [|fuel IH]; intros x Hp Hx; [change (2 ^ Z.of_nat 0) with 1 in Hx; lia|].
  cbn [low_digits]. destruct (Z.eqb_spec (x / base) 0) as [E|E].
  - exists [], (x mod base). split; [done|]. pose proof (Z.div_mod x base). lia.
  - destruct (IH (x / base)) as (ds & d & -> & Hd).
    + pose proof (Z.div_pos x base). lia.
    + rewrite Nat2Z.inj_succ, Z.pow_succ_r in Hx by lia. apply Z.div_lt_upper_bound; [lia|]. nia.
    + by exists (x mod base :: ds), d.
Qed.

Lemma numeral_value x : 0 <= x < 2 ^ 32 -> value base (numeral base x) = x.
Proof. intros Hx. by apply low_digits_value. Qed.

Lemma numeral_range x : Forall (fun d => 0 <= d < base) (numeral base x).
Proof. apply Forall_rev, low_digits_range. Qed.

Lemma numeral_no_zero x : 0 < x < 2 ^ 32 -> exists d ds, numeral base x = d :: ds /\ d <> 0.
Proof.
  intros Hx. destruct (low_digits_last 32 x) as (ds & d & E & Hd); [lia|lia|].
  exists d, (rev ds). unfold numeral. by rewrite E, rev_unit.
Qed.
End numeral.

(** ** The loops *)

Lemma digit_loop_stores fuel digits x base buf i k :
  2 <= base -> (Z.to_nat base <= length digits)%nat -> 0 <= x < base ^ Z.of_nat (S k) -> x < 2 ^ Z.of_nat fuel -> 0 < Z.of_nat fuel ->
  (i + S k <= length buf)%nat ->
  digit_loop fuel digits x base buf i =
    Some (splice buf i (glyphs digits (low_digits fuel base x)), (i + length (low_digits fuel base x))%nat).
Proof.
  intros Hbase Hdig. revert x buf i k. induction fuel as [|fuel IH]; intros x buf i k Hx Hxf Hf Hlen; [lia|].
  pose proof (Z.mod_pos_bound x base ltac:(lia)) as Hm. cbn [digit_loop low_digits].
  destruct (lookup_lt_is_Some_2 digits (Z.to_nat (x mod base))) as [g Hg]; [lia|].
  rewrite Hg, obind_some, store_in, obind_some by lia. unfold glyphs. cbn [fmap list_fmap length].
  rewrite (list_lookup_total_correct _ _ _ Hg). destruct (Z.eqb_spec (x / base) 0) as [E|E].
  - cbn [fmap list_fmap length]. rewrite <- splice_cons, splice_nil by lia. do 2 f_equal. lia.
  - destruct k as [|k]; [change (Z.of_nat 1) with 1 in Hx; rewrite Z.pow_1_r in Hx; rewrite Z.div_small in E; lia|].
    assert (0 <= x / base) by (apply Z.div_pos; lia).
    assert (Hxf' : x / base < 2 ^ Z.of_nat fuel).
    { rewrite Nat2Z.inj_succ, Z.pow_succ_r in Hxf by lia. apply Z.div_lt_upper_bound; [lia|]. nia. }
    rewrite (IH _ _ _ k); cycle 1.
    + rewrite Nat2Z.inj_succ, Z.pow_succ_r in Hx by lia. split; [done|]. apply Z.div_lt_upper_bound; lia.
    + done.
    + destruct fuel; [change (2 ^ Z.of_nat 0) with 1 in Hxf'|]; lia.
    + rewrite length_insert. lia.
    + rewrite splice_cons by lia. fold (glyphs digits (low_digits fuel base (x / base))). do 2 f_equal. lia.
Qed.

Lemma put_back_all {S} (putc : Z -> M S unit) (l r : list Z) s : put_back putc (l ++ r) (length l) s = put_all putc (rev l) s.
Proof.
  revert r s. induction l as [|c l IH] using rev_ind; intros r s; [done|].
  rewrite length_app, Nat.add_1_r, <- app_assoc, rev_unit. cbn [put_back put_all app].
  rewrite lookup_mid. cbn [lift]. unfold bind, ret. destruct (putc c s) as [[] s'|]; [|done]. apply IH.
Qed.

(** The two loops together. *)
Lemma print_digits {S} (putc : Z -> M S unit) digits base x neg k s :
  2 <= base -> (Z.to_nat base <= length digits)%nat -> 0 <= x < base ^ Z.of_nat (Datatypes.S k) -> x < 2 ^ 32 -> (k < 15)%nat ->
  bind (lift (digit_loop 32 digits x base (replicate 16 0) 0)) (fun '(buf, i) =>
    let! bi := (if neg : bool then let! buf := lift (store buf i MINUS) in ret (buf, Datatypes.S i) else ret (buf, i)) in
    put_back putc bi.1 bi.2) s =
  put_all putc ((if neg then [MINUS] else []) ++ glyphs digits (numeral base x)) s.
Proof.
  intros Hb Hd Hx Hx' Hk.
  pose proof (low_digits_length base Hb 32 x k Hx) as Hlen.
  assert (Hb16 : (0 + Datatypes.S k <= length (replicate 16 0%Z))%nat) by (rewrite length_replicate; lia).
  rewrite (digit_loop_stores 32 digits x base _ 0 k Hb Hd Hx ltac:(exact Hx') ltac:(lia) Hb16).
  set (l := low_digits 32 base x) in *. set (g := glyphs digits l). assert (Hg : length g = length l) by apply length_fmap.
  change (lift (Some ?a)) with (@ret S _ a). unfold bind at 1, ret at 1. cbn [Nat.add].
  assert (E : splice (replicate 16 0) 0 g = g ++ replicate (16 - length l) 0).
  { unfold splice. cbn [take Nat.add app]. by rewrite drop_replicate, Hg. }
  unfold numeral. fold l. unfold glyphs at 1. change (fmap ?f (rev l)) with (map f (rev l)). rewrite map_rev. change (map ?f l) with (fmap f l). fold (glyphs digits l). fold g.
  rewrite E, <- Hg. destruct neg; cbn [app].
  - destruct (16 - length g)%nat as [|m] eqn:Em; [lia|]. cbn [replicate].
    rewrite store_app. change (lift (Some ?a)) with (@ret S _ a). unfold bind at 1 2, ret. cbn [fst snd].
    rewrite <- rev_unit. change (g ++ MINUS :: replicate m 0) with (g ++ [MINUS] ++ replicate m 0).
    rewrite app_assoc. replace (Datatypes.S (length g)) with (length (g ++ [MINUS])) by (rewrite length_app; cbn; lia).
    apply put_back_all.
  - unfold bind, ret. cbn [fst snd]. apply put_back_all.
Qed.

(** ** Formats *)

Lemma put_all_app {S} (putc : Z -> M S unit) l k s : put_all putc (l ++ k) s = bind (put_all putc l) (fun _ => put_all putc k) s.
Proof.
  revert s. induction l as [|c l IH]; intros s; [done|]. cbn [app put_all]. rewrite bind_assoc. unfold bind at 1 2.
  destruct (putc c s) as [a s'|]; [apply IH|done].
Qed.

Lemma put_all_ext {S} (f g : Z -> M S unit) cs s : Forall (fun c => f c = g c) cs -> put_all f cs s = put_all g cs s.
Proof.
  intros H. revert s. induction H as [|c cs Hc _ IH]; intros s; [done|]. cbn [put_all]. rewrite Hc. unfold bind. by destruct (g c s).
Qed.

Lemma put_str_all {S} (putc : Z -> M S unit) str n s : strlen str = Some n -> put_str putc str s = put_all putc (take n str) s.
Proof.
  revert n s. induction str as [|c str IH]; intros n s Hn; [done|]. cbn [strlen put_str] in *.
  destruct (Z.eqb_spec c 0); [by simplify_eq|]. destruct (strlen str) as [k|] eqn:E; [|done]. injection Hn as <-.
  cbn [take put_all]. unfold bind. destruct (putc c s) as [a s'|]; [by apply IH|done].
Qed.

(** One item of a format, and the rest. *)
Lemma put_then {S} (putc : Z -> M S unit) (m n : M S unit) l (rest : option (list Z)) cs s :
  (forall s, m s = put_all putc l s) -> (forall cs s, rest = Some cs -> n s = put_all putc cs s) ->
  (l ++.) <$> rest = Some cs -> bind m (fun _ => n) s = put_all putc cs s.
Proof.
  intros Hm Hn Hr. destruct rest as [k|]; [|done]. injection Hr as <-. rewrite put_all_app. unfold bind. rewrite Hm.
  destruct (put_all putc l s) as [a s'|]; [by apply Hn|done].
Qed.

Lemma put_one {S} (putc : Z -> M S unit) c s : putc c s = put_all putc [c] s.
Proof. unfold put_all, bind, ret. by destruct (putc c s) as [[] s'|]. Qed.

Lemma put_two {S} (putc : Z -> M S unit) a b (n : M S unit) s :
  (putc a then! putc b then! n) s = ((putc a then! putc b) then! n) s.
Proof. by rewrite bind_assoc. Qed.
