(* ===== verification/Console.v ===== *)
(** * The console

    [kernel/console.c] with the keyboard driver [kernel/kbd.c], the serial
    port [kernel/uart.c], and [echoswitch] and [clrscr] of [kernel/sysfile.c]:
    characters go to the screen and the serial port, what is typed is edited
    in a ring buffer until the line is complete, and [consoleread] takes lines
    from the ring.

    The devices are part of the state: the screen memory and the cursor
    registers of the display controller, the bytes that wait in the keyboard
    controller and in the serial port, the bytes sent to the serial port.
    Every operation runs with [cons.lock] held from its first access to its
    last, so it is one step; the lock itself is modelled with
    [kernel/spinlock.c]. *)

From S2P Require Import Prelude CStr Format Ptable.

(** ** State *)

(** The screen memory, and the display controller: the register that is
    selected, and the two registers of the cursor. *)
Record screen : Type := { crt : list Z; crt_index : Z; cursor_hi : Z; cursor_lo : Z }.

(** [input]: the ring buffer, and the indices of the next byte to read, the
    end of the complete lines, and the end of the line being edited. *)
Record input_buf : Type := { buf : list Z; r : Z; w : Z; e : Z }.

(** The bytes that wait in the keyboard controller, and the modifiers. *)
Record keyboard : Type := { scancodes : list Z; shift : Z }.

(** The serial port: whether there is one, the bytes received and sent. *)
Record serial : Type := { uart : bool; received : list Z; sent : list Z }.

Record console : Type := {
  scr : screen;
  input : input_buf;
  kbd : keyboard;
  com1 : serial;
  echodisabled : bool;
  panicked : bool;
  wakeups : nat           (* calls of wakeup(&input.r) *)
}.

Definition with_scr (f : screen -> screen) (s : console) : console :=
  {| scr := f (scr s); input := input s; kbd := kbd s; com1 := com1 s;
     echodisabled := echodisabled s; panicked := panicked s; wakeups := wakeups s |}.
Definition with_input (f : input_buf -> input_buf) (s : console) : console :=
  {| scr := scr s; input := f (input s); kbd := kbd s; com1 := com1 s;
     echodisabled := echodisabled s; panicked := panicked s; wakeups := wakeups s |}.
Definition with_kbd (f : keyboard -> keyboard) (s : console) : console :=
  {| scr := scr s; input := input s; kbd := f (kbd s); com1 := com1 s;
     echodisabled := echodisabled s; panicked := panicked s; wakeups := wakeups s |}.
Definition with_com1 (f : serial -> serial) (s : console) : console :=
  {| scr := scr s; input := input s; kbd := kbd s; com1 := f (com1 s);
     echodisabled := echodisabled s; panicked := panicked s; wakeups := wakeups s |}.

(** ** The serial port *)

(** The loop that waits for the transmitter gives up after 128 rounds and
    changes nothing. *)
Definition uartputc (c : Z) : M console unit :=
  let! on := gets (fun s => uart (com1 s)) in
  if on : bool then
    modify (with_com1 (fun p => {| uart := uart p; received := received p; sent := sent p ++ [u8 c] |}))
  else ret tt.

Definition uartgetc : M console Z :=
  let! p := gets com1 in
  if uart p then
    match received p with
    | [] => ret (-1)
    | c :: l => modify (with_com1 (fun p => {| uart := uart p; received := l; sent := sent p |})) then! ret (u8 c)
    end
  else ret (-1).

(** ** The screen *)

Definition BACKSPACE : Z := 256.

(** [outb(CRTPORT, v)], [outb(CRTPORT+1, v)] and [inb(CRTPORT+1)]. *)
Definition crt_select (v : Z) : M console unit :=
  modify (with_scr (fun d => {| crt := crt d; crt_index := u8 v; cursor_hi := cursor_hi d; cursor_lo := cursor_lo d |})).

Definition crt_out (v : Z) : M console unit :=
  modify (with_scr (fun d =>
    {| crt := crt d; crt_index := crt_index d;
       cursor_hi := if crt_index d =? 14 then u8 v else cursor_hi d;
       cursor_lo := if crt_index d =? 15 then u8 v else cursor_lo d |})).

Definition crt_in : M console Z :=
  gets (fun s => let d := scr s in
    if crt_index d =? 14 then cursor_hi d else if crt_index d =? 15 then cursor_lo d else 0).

(** Change the screen memory. *)
Definition with_crt (f : list Z -> option (list Z)) : M console unit :=
  let! m := gets (fun s => crt (scr s)) in
  let! m := lift (f m) in
  modify (with_scr (fun d => {| crt := m; crt_index := crt_index d; cursor_hi := cursor_hi d; cursor_lo := cursor_lo d |})).

(** [memmove(crt, crt+from, n cells)] and [memset(crt+pos, 0, n cells)]. *)
Definition cells_up (from n : nat) (m : list Z) : option (list Z) :=
  if decide (from + n <= length m)%nat then Some (splice m 0 (take n (drop from m))) else None.

Definition cells_clear (pos n : nat) (m : list Z) : option (list Z) :=
  if decide (pos + n <= length m)%nat then Some (splice m pos (replicate n 0)) else None.

Definition cgaputc (c : Z) : M console unit :=
  crt_select 14 then!
  let! hi := crt_in in
  let pos := Z.shiftl hi 8 in
  crt_select 15 then!
  let! lo := crt_in in
  let pos := Z.lor pos lo in
  let! off := gets echodisabled in
  let! pos :=
    (if c =? NL then ret (pos + (80 - pos mod 80))
     else if (c =? BACKSPACE) && negb off then ret (if 0 <? pos then pos - 1 else pos)
     else if negb off then
       with_crt (fun m => store m (Z.to_nat pos) (Z.lor (Z.land c 255) 1792)) then! ret (pos + 1)
     else ret pos) in
  if (pos <? 0) || (25 * 80 <? pos) then halt (Panicked "pos under/overflow")
  else
    let! pos :=
      (if 24 <=? pos / 80 then
         with_crt (cells_up 80 (23 * 80)) then!
         let pos := pos - 80 in
         with_crt (cells_clear (Z.to_nat pos) (Z.to_nat (24 * 80 - pos))) then!
         ret pos
       else ret pos) in
    crt_select 14 then!
    crt_out (Z.shiftr pos 8) then!
    crt_select 15 then!
    crt_out pos then!
    with_crt (fun m => store m (Z.to_nat pos) (Z.lor 32 1792)).

(** After a panic every processor stops here. *)
Definition consputc (c : Z) : M console unit :=
  let! p := gets panicked in
  if p : bool then halt (Panicked "frozen")
  else
    (if c =? BACKSPACE then uartputc 8 then! uartputc 32 then! uartputc 8
     else uartputc c) then!
    cgaputc c.

Definition sys_echoswitch : M console Z :=
  modify (fun s =>
    {| scr := scr s; input := input s; kbd := kbd s; com1 := com1 s;
       echodisabled := negb (echodisabled s); panicked := panicked s; wakeups := wakeups s |}) then!
  ret 0.

Definition setcp (x y : Z) : M console unit :=
  let pos := x + 80 * y in
  crt_select 14 then!
  crt_out (Z.shiftr pos 8) then!
  crt_select 15 then!
  crt_out pos.

(** It has no [return]: the value a process sees is not determined. *)
Definition sys_clrscr : M console unit :=
  with_crt (cells_clear 0 (24 * 80)) then!
  setcp 0 0.

(** ** Formatted output *)

Definition digits : list Z := chars "0123456789abcdef".

(** [buf] is written before it is read. *)
Definition printint (xx base : Z) (sign : bool) : M console unit :=
  let sign := sign && (xx <? 0) in
  let x := if sign then u32 (- xx) else u32 xx in
  let! '(buf, i) := lift (digit_loop 32 digits x base (replicate 16 0) 0) in
  let! bi := (if sign then let! buf := lift (store buf i MINUS) in ret (buf, S i) else ret (buf, i)) in
  put_back consputc bi.1 bi.2.

Fixpoint cprintf_loop (fmt : list Z) (args : list arg) : M console unit :=
  match fmt with
  | [] => halt Undefined
  | c :: fmt1 =>
      if c =? 0 then ret tt
      else if negb (c =? 37) then consputc c then! cprintf_loop fmt1 args
      else
        match fmt1 with
        | [] => halt Undefined
        | c :: fmt' =>
            if c =? 0 then ret tt
            else if c =? 100 then
              let! a := lift (word_arg args) in
              printint (s32 a.1) 10 true then! cprintf_loop fmt' a.2
            else if (c =? 120) || (c =? 112) then
              let! a := lift (word_arg args) in
              printint (s32 a.1) 16 false then! cprintf_loop fmt' a.2
            else if c =? 115 then
              let! a := lift (str_arg args) in
              put_str consputc a.1 then! cprintf_loop fmt' a.2
            else if c =? 37 then consputc 37 then! cprintf_loop fmt' args
            else consputc 37 then! consputc c then! cprintf_loop fmt' args
        end
  end.

Definition cprintf (fmt : list Z) (args : list arg) : M console unit := cprintf_loop fmt args.

Definition set_panicked (s : console) : console :=
  {| scr := scr s; input := input s; kbd := kbd s; com1 := com1 s;
     echodisabled := echodisabled s; panicked := true; wakeups := wakeups s |}.

Fixpoint panic_pcs (pcs : list Z) : M console unit :=
  match pcs with
  | [] => ret tt
  | pc :: pcs' => cprintf (chars " %p" ++ [0]) [Word pc] then! panic_pcs pcs'
  end.

(** [panic] on processor [lapicid] with the return addresses [pcs]. *)
Definition panic {A : Type} (lapicid : Z) (pcs : list Z) (msg : string) : M console A :=
  cprintf (chars "lapicid %d: panic: " ++ [0]) [Word lapicid] then!
  cprintf (chars msg ++ [0]) [] then!
  cprintf [NL; 0] [] then!
  panic_pcs pcs then!
  modify set_panicked then!
  halt (Panicked msg).

(** ** The process listing *)

Definition states (p : procstate) : list Z :=
  match p with
  | UNUSED => chars "unused" | EMBRYO => chars "embryo" | SLEEPING => chars "sleep "
  | RUNNABLE => chars "runble" | RUNNING => chars "run   " | ZOMBIE => chars "zombie"
  end ++ [0].

(** [for(i=0; i<10 && pc[i] != 0; i++)]. *)
Fixpoint dump_pcs (pcs : list Z) : M console unit :=
  match pcs with
  | [] => ret tt
  | pc :: pcs' => if pc =? 0 then ret tt else cprintf (chars " %p" ++ [0]) [Word pc] then! dump_pcs pcs'
  end.

(** [getcallerpcs] of a process gives the 10 words of its stack trace. *)
Fixpoint procdump (getcallerpcs : nat -> list Z) (i : nat) (ptable : list proc) : M console unit :=
  match ptable with
  | [] => ret tt
  | p :: ptable' =>
      (if decide (p_state p = UNUSED) then ret tt
       else
         cprintf (chars "%d %s %s" ++ [0]) [Word (p_pid p); Ptr (Some (states (p_state p))); Ptr (Some (p_name p))] then!
         (if decide (p_state p = SLEEPING) then dump_pcs (take 10 (getcallerpcs i)) else ret tt) then!
         cprintf [NL; 0] []) then!
      procdump getcallerpcs (S i) ptable'
  end.

(** ** The keyboard *)

Definition SHIFT : Z := 1.
Definition CTL : Z := 2.
Definition ALT : Z := 4.
Definition CAPSLOCK : Z := 8.
Definition NUMLOCK : Z := 16.
Definition SCROLLLOCK : Z := 32.
Definition E0ESC : Z := 64.

(** A table of 256 bytes: the first ones, and some others by their index. *)
Definition table (l : list Z) (others : list (Z * Z)) : list Z :=
  fold_left (fun t p => <[Z.to_nat p.1 := p.2]> t) others (l ++ replicate (256 - length l) 0).

Definition shiftcode : list Z :=
  table [] [(29, CTL); (42, SHIFT); (54, SHIFT); (56, ALT); (157, CTL); (184, ALT)].

Definition togglecode : list Z := table [] [(58, CAPSLOCK); (69, NUMLOCK); (70, SCROLLLOCK)].

(** KEY_UP, KEY_DN, KEY_PGUP, KEY_PGDN, KEY_LF, KEY_RT, KEY_HOME, KEY_END,
    KEY_INS, KEY_DEL. *)
Definition special_keys : list (Z * Z) :=
  [(200, 226); (208, 227); (201, 230); (209, 231); (203, 228); (205, 229); (151, 224); (207, 225); (210, 232); (211, 233)].

Definition normalmap : list Z :=
  table (([0; 27] ++ chars "1234567890-=" ++ [8; 9]) ++
         chars "qwertyuiop[]" ++ [10; 0] ++ chars "asdfghjkl;'`" ++ [0] ++ chars "\zxcvbnm,./" ++ [0] ++ chars "*" ++
         [0] ++ chars " " ++ replicate 13 0 ++ chars "789-456+1230." ++ replicate 4 0)
        ([(156, 10); (181, 47)] ++ special_keys).

Definition shiftmap : list Z :=
  table (([0; 27] ++ chars "!@#$%^&*()_+" ++ [8; 9]) ++
         chars "QWERTYUIOP{}" ++ [10; 0] ++ chars "ASDFGHJKL:" ++ [34] ++ chars "~" ++ [0] ++ chars "|ZXCVBNM<>?" ++ [0] ++ chars "*" ++
         [0] ++ chars " " ++ replicate 13 0 ++ chars "789-456+1230." ++ replicate 4 0)
        ([(156, 10); (181, 47)] ++ special_keys).

(** [C(x)], of each character. *)
Definition ctl (s : string) : list Z := (fun c => c - 64) <$> chars s.

Definition ctlmap : list Z :=
  table (replicate 16 0 ++
         ctl "QWERTYUIOP" ++ [0; 0; 13; 0] ++ ctl "ASDFGHJKL" ++ [0; 0; 0; 0] ++ ctl "\ZXCVBNM" ++ [0; 0] ++ [u8 (47 - 64)] ++ [0; 0])
        ([(156, 13); (181, u8 (47 - 64))] ++ special_keys).

Definition charcode : list (list Z) := [normalmap; shiftmap; ctlmap; ctlmap].

Definition set_shift (v : Z) : M console unit :=
  modify (with_kbd (fun k => {| scancodes := scancodes k; shift := v |})).

(** The status port says whether a byte waits; [inb] of the data port takes
    it. *)
Definition kbdgetc : M console Z :=
  let! k := gets kbd in
  match scancodes k with
  | [] => ret (-1)
  | data :: rest =>
      modify (with_kbd (fun k => {| scancodes := rest; shift := shift k |})) then!
      let data := u8 data in
      let sh := shift k in
      if data =? 224 then set_shift (Z.lor sh E0ESC) then! ret 0
      else if negb (Z.land data 128 =? 0) then
        let data := if negb (Z.land sh E0ESC =? 0) then data else Z.land data 127 in
        let! code := lift (shiftcode !! Z.to_nat data) in
        set_shift (Z.ldiff sh (Z.lor code E0ESC)) then! ret 0
      else
        let esc := negb (Z.land sh E0ESC =? 0) in
        let data := if esc then Z.lor data 128 else data in
        let sh := if esc then Z.ldiff sh E0ESC else sh in
        let! code := lift (shiftcode !! Z.to_nat data) in
        let! toggle := lift (togglecode !! Z.to_nat data) in
        let sh := Z.lxor (Z.lor sh code) toggle in
        set_shift sh then!
        let! map := lift (charcode !! Z.to_nat (Z.land sh (Z.lor CTL SHIFT))) in
        let! c := lift (map !! Z.to_nat data) in
        if negb (Z.land sh CAPSLOCK =? 0) then
          if (97 <=? c) && (c <=? 122) then ret (c + 65 - 97)
          else if (65 <=? c) && (c <=? 90) then ret (c + 97 - 65)
          else ret c
        else ret c
  end.

(** ** Input *)

Definition INPUT_BUF : Z := 128.

Definition input_at (i : Z) : M console Z :=
  let! b := gets (fun s => buf (input s)) in lift (b !! Z.to_nat (i mod INPUT_BUF)).

Definition set_e (v : Z) : M console unit :=
  modify (with_input (fun i => {| buf := buf i; r := r i; w := w i; e := v |})).

Definition set_r (v : Z) : M console unit :=
  modify (with_input (fun i => {| buf := buf i; r := v; w := w i; e := e i |})).

(** [input.e--; consputc(BACKSPACE)]. *)
Definition erase_char : M console unit :=
  let! i := gets input in
  set_e (u32 (e i - 1)) then!
  consputc BACKSPACE.

(** Each round brings [input.e] one closer to [input.w]. *)
Fixpoint kill_line (fuel : nat) : M console unit :=
  match fuel with
  | O => halt Undefined
  | S fuel' =>
      let! i := gets input in
      if negb (e i =? w i) then
        let! c := input_at (u32 (e i - 1)) in
        if negb (c =? NL) then erase_char then! kill_line fuel' else ret tt
      else ret tt
  end.

(** [input.buf[input.e++ % INPUT_BUF] = c; consputc(c)], and the line is
    complete at its end or when the ring is full. *)
Definition put_char (c : Z) : M console unit :=
  let! i := gets input in
  let! b := lift (store (buf i) (Z.to_nat (e i mod INPUT_BUF)) (u8 c)) in
  modify (with_input (fun i => {| buf := b; r := r i; w := w i; e := u32 (e i + 1) |})) then!
  consputc c then!
  let! i := gets input in
  if (c =? NL) || (c =? 4) || (e i =? u32 (r i + INPUT_BUF)) then
    modify (with_input (fun i => {| buf := buf i; r := r i; w := e i; e := e i |})) then!
    modify (fun s =>
      {| scr := scr s; input := input s; kbd := kbd s; com1 := com1 s;
         echodisabled := echodisabled s; panicked := panicked s; wakeups := S (wakeups s) |})
  else ret tt.

(** One character; the result is [doprocdump]. *)
Definition intr_char (doprocdump : bool) (c : Z) : M console bool :=
  if c =? 16 then ret true
  else if c =? 21 then
    let! n := gets (fun s => S (Z.to_nat (u32 (e (input s) - w (input s))))) in
    kill_line n then! ret doprocdump
  else if (c =? 8) || (c =? 127) then
    let! i := gets input in
    (if negb (e i =? w i) then erase_char else ret tt) then! ret doprocdump
  else
    let! i := gets input in
    if negb (c =? 0) && (u32 (e i - r i) <? INPUT_BUF) then
      put_char (if c =? 13 then NL else c) then! ret doprocdump
    else ret doprocdump.

Fixpoint consoleintr_loop (fuel : nat) (getc : M console Z) (doprocdump : bool) : M console bool :=
  match fuel with
  | O => halt Undefined
  | S fuel' =>
      let! c := getc in
      if 0 <=? c then let! d := intr_char doprocdump c in consoleintr_loop fuel' getc d
      else ret doprocdump
  end.

Section interrupts.
Context (procdump : M console unit).

Definition consoleintr (fuel : nat) (getc : M console Z) : M console unit :=
  let! d := consoleintr_loop fuel getc false in
  if d : bool then procdump else ret tt.

(** Each byte that waits makes one round of the loop. *)
Definition kbdintr : M console unit :=
  let! n := gets (fun s => S (length (scancodes (kbd s)))) in consoleintr n kbdgetc.

Definition uartintr : M console unit :=
  let! n := gets (fun s => S (length (received (com1 s)))) in consoleintr n uartgetc.
End interrupts.

(** ** Reading and writing *)

(** Where a call of [consoleread] is: it sleeps on [input.r], with the bytes
    it has stored and the room that is left, or it has returned. *)
Inductive progress : Type :=
  | Asleep (dst : list Z) (n : Z)
  | Done (result : Z) (dst : list Z).

Section device.
(** The calls on the inode of the console, which leave the console alone. *)
Context (iunlock ilock : M console unit).

(** [consoleread] from the head of its outer loop to the next [sleep] or the
    end; a process that wakes up starts here again.  Each round takes one
    byte of the [n]. *)
Fixpoint consoleread_loop (fuel : nat) (killed : bool) (target : Z) (dst : list Z) (n : Z) : M console progress :=
  if 0 <? n then
    match fuel with
    | O => halt Undefined
    | S fuel' =>
        let! i := gets input in
        if r i =? w i then
          if killed then ilock then! ret (Done (-1) dst) else ret (Asleep dst n)
        else
          let! c := input_at (r i) in
          set_r (u32 (r i + 1)) then!
          if c =? 4 then
            (if n <? target then set_r (r i) else ret tt) then!
            ilock then! ret (Done (target - n) dst)
          else
            let dst := dst ++ [c] in
            let n := n - 1 in
            if c =? NL then ilock then! ret (Done (target - n) dst)
            else consoleread_loop fuel' killed target dst n
    end
  else ilock then! ret (Done (target - n) dst).

Definition consoleread (killed : bool) (n : Z) : M console progress :=
  iunlock then! consoleread_loop (Z.to_nat n) killed n [] n.

Definition consoleread_wakes (killed : bool) (target : Z) (dst : list Z) (n : Z) : M console progress :=
  consoleread_loop (Z.to_nat n) killed target dst n.

Definition consolewrite (bytes : list Z) : M console Z :=
  iunlock then!
  put_all consputc bytes then!
  ilock then!
  ret (Z.of_nat (length bytes)).
End device.
