(* ===== verification/ConsoleOut.v ===== *)
(** * The screen

    What [cgaputc], [consputc], [consolewrite] and [clrscr] of [Console] show:
    the text before the cursor grows by each character, and the top line goes
    when the 24 lines are full. *)

From S2P Require Import Prelude CStr Format Console.

(** ** Abstract terminal *)

(** A cell of the screen: 0, as [clrscr] leaves it, shows as a space. *)
Definition SPACE_CELL : Z := 1824.
Definition shown (cell : Z) : Z := if cell =? 0 then SPACE_CELL else cell.
Definition cell_of (c : Z) : Z := Z.lor (Z.land c 255) 1792.

(** The terminal is the list of the cells before the cursor; [off] is whether
    echo is disabled. *)
Definition term_char (off : bool) (t : list Z) (c : Z) : list Z :=
  if c =? NL then t ++ replicate (80 - length t mod 80) SPACE_CELL
  else if off then t
  else if c =? BACKSPACE then take (length t - 1) t
  else t ++ [cell_of c].

Definition term_put (off : bool) (t : list Z) (c : Z) : list Z :=
  let t' := term_char off t c in if (24 * 80 <=? length t')%nat then drop 80 t' else t'.

(** ** The screen memory *)

Definition cursor (d : screen) : Z := 256 * cursor_hi d + cursor_lo d.

Definition text (d : screen) : list Z := shown <$> take (Z.to_nat (cursor d)) (crt d).

Lemma shown_cell c : shown (cell_of c) = cell_of c.
Proof.
  unfold shown. destruct (Z.eqb_spec (cell_of c) 0) as [E|]; [|done]. exfalso.
  apply (f_equal (fun z => Z.testbit z 8)) in E. unfold cell_of in E. rewrite Z.lor_spec in E.
  change (Z.testbit 1792 8) with true in E. by rewrite orb_true_r in E.
Qed.

(** [settled m p t]: the text before [p] is [t], and the rest is blank. *)
Record settled (m : list Z) (p : nat) (t : list Z) : Prop := {
  se_len : (24 * 80 <= length m)%nat;
  se_pos : (p < 24 * 80)%nat;
  se_text : shown <$> take p m = t;
  se_blank i c : (p <= i < 24 * 80)%nat -> m !! i = Some c -> shown c = SPACE_CELL
}.

Record screen_ok (d : screen) : Prop := {
  so_hi : byte (cursor_hi d);
  so_lo : byte (cursor_lo d);
  so_settled : settled (crt d) (Z.to_nat (cursor d)) (text d)
}.

(** The same before the cursor is moved: the cell at [p] is anything, and [p]
    may be just below the last line. *)
Record partial (m : list Z) (p : nat) (t : list Z) : Prop := {
  pt_len : (24 * 80 <= length m)%nat;
  pt_pos : (p <= 24 * 80)%nat;
  pt_text : shown <$> take p m = t;
  pt_blank i c : (p < i < 24 * 80)%nat -> m !! i = Some c -> shown c = SPACE_CELL
}.

Lemma settled_length m p t : settled m p t -> length t = p.
Proof. intros [Hl Hp <- _]. rewrite length_fmap, length_take. lia. Qed.

Lemma partial_length m p t : partial m p t -> length t = p.
Proof. intros [Hl Hp <- _]. rewrite length_fmap, length_take. lia. Qed.

Lemma partial_char m p t c : settled m p t -> partial (<[p := cell_of c]> m) (S p) (t ++ [cell_of c]).
Proof.
  intros [Hl Hp Ht Hb]. split.
  - by rewrite length_insert.
  - lia.
  - rewrite (take_S_r _ _ (cell_of c)) by (apply list_lookup_insert_eq; lia).
    rewrite take_insert_ge, fmap_app, Ht by lia. cbn. by rewrite shown_cell.
  - intros i x Hi Hx. rewrite list_lookup_insert_ne in Hx by lia. eapply Hb; [|exact Hx]. lia.
Qed.

Lemma partial_back m p t : settled m p t -> partial m (p - 1) (take (length t - 1) t).
Proof.
  intros Hs. pose proof (settled_length _ _ _ Hs) as Hlen. destruct Hs as [Hl Hp Ht Hb]. split; [done|lia| |].
  - rewrite <- Ht at 2. rewrite Hlen, <- fmap_take, take_take. f_equal. f_equal. lia.
  - intros i x Hi Hx. eapply Hb; [|exact Hx]. lia.
Qed.

Lemma partial_same m p t : settled m p t -> partial m p t.
Proof. intros [Hl Hp Ht Hb]. split; [done|lia|done|]. intros i x Hi Hx. eapply Hb; [|exact Hx]. lia. Qed.

Lemma blank_cells m a n : (a + n <= length m)%nat ->
  (forall i c, (a <= i < a + n)%nat -> m !! i = Some c -> shown c = SPACE_CELL) ->
  shown <$> take n (drop a m) = replicate n SPACE_CELL.
Proof.
  intros Hl Hb. apply list_eq. intros i. rewrite list_lookup_fmap. destruct (decide (i < n)%nat) as [Hi|Hi].
  - rewrite lookup_replicate_2, lookup_take_lt, lookup_drop by done.
    destruct (lookup_lt_is_Some_2 m (a + i)) as [x Hx]; [lia|]. rewrite Hx. cbn. f_equal. eapply Hb; [|exact Hx]. lia.
  - rewrite lookup_take_ge, lookup_ge_None_2 by (try rewrite length_replicate; lia). done.
Qed.

Lemma partial_newline m p t : settled m p t ->
  partial m (p + (80 - p mod 80)) (t ++ replicate (80 - p mod 80) SPACE_CELL).
Proof.
  intros [Hl Hp Ht Hb]. set (q := (80 - p mod 80)%nat).
  pose proof (Nat.div_mod_eq p 80) as Hd. pose proof (Nat.mod_upper_bound p 80 ltac:(lia)) as Hu.
  assert (Hq : (p + q <= 24 * 80)%nat) by (assert (p / 80 < 24)%nat by (apply Nat.Div0.div_lt_upper_bound; lia); lia).
  split; [done|lia| |].
  - rewrite <- take_take_drop, fmap_app, Ht. f_equal. apply blank_cells; [lia|]. intros i c Hi Hx. eapply Hb; [|exact Hx]. lia.
  - intros i x Hi Hx. eapply Hb; [|exact Hx]. lia.
Qed.

(** The last line is full: the lines move up. *)
Lemma partial_scroll m t : partial m (24 * 80) t -> exists m1 m2,
  cells_up 80 (23 * 80) m = Some m1 /\ cells_clear (23 * 80) 80 m1 = Some m2 /\ partial m2 (23 * 80) (drop 80 t).
Proof.
  intros [Hl Hp Ht Hb]. unfold cells_up, cells_clear. rewrite decide_True by lia. eexists _, _. split; [done|].
  assert (Hlen : length (take (23 * 80) (drop 80 m)) = (23 * 80)%nat) by (rewrite length_take, length_drop; lia).
  assert (Hl1 : length (splice m 0 (take (23 * 80) (drop 80 m))) = length m) by (apply splice_length; lia).
  rewrite decide_True by lia. split; [done|]. split.
  - rewrite splice_length; [lia|]. rewrite length_replicate. lia.
  - lia.
  - rewrite <- Ht, <- fmap_drop. f_equal. rewrite skipn_firstn_comm.
    unfold splice at 1. rewrite take_app_le by (rewrite length_take; lia). rewrite take_take, Nat.min_id.
    unfold splice. rewrite take_0. cbn [app].
    rewrite take_app_length' by (symmetry; exact Hlen). f_equal.
  - intros i c Hi Hc. rewrite lookup_splice_in in Hc by (rewrite length_replicate; lia).
    apply lookup_replicate in Hc as [-> _]. done.
Qed.

(** The cursor is shown as a space. *)
Lemma settle m p t : partial m p t -> (p < 24 * 80)%nat -> settled (<[p := SPACE_CELL]> m) p t.
Proof.
  intros [Hl Hp Ht Hb] Hlt. split; [by rewrite length_insert|done|by rewrite take_insert_ge|].
  intros i c Hi Hc. destruct (decide (i = p)) as [->|].
  - rewrite list_lookup_insert_eq in Hc by lia. by simplify_eq.
  - rewrite list_lookup_insert_ne in Hc by lia. eapply Hb; [|exact Hc]. lia.
Qed.

(** ** [cgaputc] *)

(** The state with another screen. *)
Definition new_scr (d : screen) (s : console) : console := with_scr (fun _ => d) s.

Lemma new_scr_new d d' s : new_scr d (new_scr d' s) = new_scr d s.
Proof. done. Qed.

Lemma cursor_read hi lo : byte lo -> Z.lor (Z.shiftl hi 8) lo = 256 * hi + lo.
Proof.
  unfold byte. intros Hl. assert (E : Z.land (Z.shiftl hi 8) lo = 0).
  { apply Z.bits_inj'. intros i Hi. rewrite Z.land_spec, Z.bits_0, Z.shiftl_spec by done.
    destruct (Z.lt_ge_cases i 8); [by rewrite Z.testbit_neg_r by lia|].
    rewrite <- (Z.mod_small lo (2 ^ 8)) by (change (2 ^ 8) with 256; lia).
    by rewrite Z.mod_pow2_bits_high, andb_false_r by lia. }
  rewrite <- Z.lxor_lor, <- Z.add_nocarry_lxor, Z.shiftl_mul_pow2 by (done || lia). change (2 ^ 8) with 256. lia.
Qed.

(** The rest of [cgaputc] once the line has been scrolled. *)
Lemma cga_moves s m p t : partial m p t -> (p < 24 * 80)%nat -> crt (scr s) = m ->
  wp (crt_select 14 then! crt_out (Z.shiftr (Z.of_nat p) 8) then! crt_select 15 then! crt_out (Z.of_nat p) then!
      with_crt (fun m => store m (Z.to_nat (Z.of_nat p)) (Z.lor 32 1792))) s
    (fun _ s' => screen_ok (scr s') /\ text (scr s') = t /\ s' = new_scr (scr s') s).
Proof.
  intros Hp Hlt Hm. unfold with_crt. repeat first [apply wp_bind|apply wp_modify|apply wp_gets].
  cbn [with_scr scr crt crt_index cursor_hi cursor_lo]. rewrite Hm, Nat2Z.id, store_in by (destruct Hp; lia).
  apply wp_modify. cbn [with_scr scr crt crt_index cursor_hi cursor_lo].
  change (u8 14 =? 14) with true. change (u8 14 =? 15) with false. change (u8 15 =? 14) with false. change (u8 15 =? 15) with true.
  change (Z.lor 32 1792) with SPACE_CELL. cbv iota.
  assert (Hc : 256 * u8 (Z.shiftr (Z.of_nat p) 8) + u8 (Z.of_nat p) = Z.of_nat p).
  { unfold u8. rewrite Z.shiftr_div_pow2 by lia. change (2 ^ 8) with 256.
    rewrite (Z.mod_small (Z.of_nat p / 256)) by (split; [apply Z.div_pos; lia|apply Z.div_lt_upper_bound; lia]).
    pose proof (Z.div_mod (Z.of_nat p) 256). lia. }
  pose proof (settle _ _ _ Hp Hlt) as Hs.
  assert (Ht : text {| crt := <[p:=SPACE_CELL]> m; crt_index := u8 15; cursor_hi := u8 (Z.shiftr (Z.of_nat p) 8); cursor_lo := u8 (Z.of_nat p) |} = t).
  { unfold text, cursor. cbn [crt cursor_hi cursor_lo]. rewrite Hc, Nat2Z.id. apply Hs. }
  split_and!; [|exact Ht|done]. split; cbn [crt cursor_hi cursor_lo].
  - apply Z.mod_pos_bound. lia.
  - apply Z.mod_pos_bound. lia.
  - rewrite Ht. unfold cursor. cbn [cursor_hi cursor_lo]. by rewrite Hc, Nat2Z.id.
Qed.

(** The first part of [cgaputc]: the character, or the move of the cursor. *)
Lemma cga_char s c p t : settled (crt (scr s)) p t ->
  wp (if c =? NL then ret (Z.of_nat p + (80 - Z.of_nat p mod 80))
      else if (c =? BACKSPACE) && negb (echodisabled s) then ret (if 0 <? Z.of_nat p then Z.of_nat p - 1 else Z.of_nat p)
      else if negb (echodisabled s) then
        with_crt (fun m => store m (Z.to_nat (Z.of_nat p)) (Z.lor (Z.land c 255) 1792)) then! ret (Z.of_nat p + 1)
      else ret (Z.of_nat p)) s
    (fun q s' => exists n, q = Z.of_nat n /\ partial (crt (scr s')) n (term_char (echodisabled s) t c) /\ s' = new_scr (scr s') s).
Proof.
  intros Hs. pose proof (settled_length _ _ _ Hs) as Hlen. unfold term_char. destruct (Z.eqb_spec c NL) as [->|Hc].
  - apply wp_ret. exists (p + (80 - p mod 80))%nat. rewrite Hlen. split_and!; [|by apply partial_newline|by destruct s].
    pose proof (Nat.mod_upper_bound p 80). rewrite Nat2Z.inj_add, Nat2Z.inj_sub, Nat2Z.inj_mod by lia. done.
  - destruct (echodisabled s); cbn [negb].
    { rewrite andb_false_r. apply wp_ret. exists p. split_and!; [done|by apply partial_same|by destruct s]. }
    destruct (Z.eqb_spec c BACKSPACE) as [->|Hb]; cbn [andb].
    + apply wp_ret. exists (p - 1)%nat. split_and!; [|by apply partial_back|by destruct s].
      destruct (Z.ltb_spec 0 (Z.of_nat p)); lia.
    + unfold with_crt. repeat first [apply wp_bind|apply wp_gets]. rewrite Nat2Z.id, store_in by (destruct Hs; lia).
      apply wp_ret, wp_modify, wp_ret. exists (S p). split_and!; [lia|by apply partial_char|by destruct s].
Qed.

(** Scrolling. *)
Lemma cga_scroll s p t : partial (crt (scr s)) p t ->
  wp (if 24 <=? Z.of_nat p / 80 then
        with_crt (cells_up 80 (23 * 80)) then!
        with_crt (cells_clear (Z.to_nat (Z.of_nat p - 80)) (Z.to_nat (24 * 80 - (Z.of_nat p - 80)))) then!
        ret (Z.of_nat p - 80)
      else ret (Z.of_nat p)) s
    (fun q s' => exists n, q = Z.of_nat n /\ (n < 24 * 80)%nat /\
       partial (crt (scr s')) n (if (24 * 80 <=? length t)%nat then drop 80 t else t) /\ s' = new_scr (scr s') s).
Proof.
  intros Hp. rewrite (partial_length _ _ _ Hp). destruct (Z.leb_spec 24 (Z.of_nat p / 80)) as [H|H].
  - assert (p = 24 * 80)%nat as ->.
    { pose proof (Z.mul_div_le (Z.of_nat p) 80). destruct Hp. lia. }
    destruct (partial_scroll _ _ Hp) as (m1 & m2 & E1 & E2 & Hp').
    unfold with_crt. repeat first [apply wp_bind|apply wp_gets]. rewrite E1. apply wp_ret, wp_modify.
    repeat first [apply wp_bind|apply wp_gets]. cbn [with_scr scr crt].
    change (Z.to_nat (Z.of_nat (24 * 80) - 80)) with (23 * 80)%nat. change (Z.to_nat (24 * 80 - (Z.of_nat (24 * 80) - 80))) with 80%nat.
    rewrite E2. apply wp_ret, wp_modify, wp_ret. exists (23 * 80)%nat. split_and!; [done|lia| |by destruct s].
    by rewrite Nat.leb_refl.
  - assert (p < 24 * 80)%nat.
    { destruct (Nat.lt_ge_cases p (24 * 80)); [done|]. assert (24 <= Z.of_nat p / 80) by (apply Z.div_le_lower_bound; lia). lia. }
    rewrite (proj2 (Nat.leb_gt _ _)) by done. apply wp_ret. exists p. split_and!; [done|done|done|by destruct s].
Qed.

(** [cgaputc] on a screen that is in order never panics and shows what the
    terminal shows. *)
Lemma cgaputc_shows s c : screen_ok (scr s) ->
  wp (cgaputc c) s (fun _ s' => screen_ok (scr s') /\ text (scr s') = term_put (echodisabled s) (text (scr s)) c /\
    s' = new_scr (scr s') s).
Proof.
  intros Hs. unfold cgaputc. repeat first [apply wp_bind|apply wp_modify|apply wp_gets]. unfold crt_in.
  cbn [with_scr scr crt crt_index cursor_hi cursor_lo echodisabled].
  change (u8 14 =? 14) with true. change (u8 15 =? 14) with false. change (u8 15 =? 15) with true. cbv iota.
  rewrite cursor_read by apply Hs. fold (cursor (scr s)).
  assert (Hc : 0 <= cursor (scr s)) by (destruct Hs as [[] [] _]; unfold cursor; lia).
  rewrite <- (Z2Nat.id _ Hc). destruct Hs as [_ _ Hs]. set (p := Z.to_nat (cursor (scr s))) in *.
  match goal with |- wp _ ?x _ => set (s1 := x) end. eapply wp_mono; [apply (cga_char s1 c p (text (scr s))); exact Hs|]. cbn beta.
  intros q s2 (n & -> & Hn & Hs2). rewrite (proj2 (Z.ltb_ge (Z.of_nat n) 0)), (proj2 (Z.ltb_ge (25 * 80) (Z.of_nat n))) by (destruct Hn; lia).
  cbn [orb]. apply wp_bind. eapply wp_mono; [by apply (cga_scroll s2 n)|]. cbn beta. intros q s3 (k & -> & Hk & Hp & Hs3).
  eapply wp_mono; [by apply (cga_moves s3 _ k _ Hp Hk)|]. cbn beta. intros _ s4 (Hok & Ht & Hs4).
  split_and!; [done|done|]. rewrite Hs4, Hs3, Hs2 at 1. done.
Qed.

(** ** [consputc] and its callers *)

(** What goes to the serial port for a character. *)
Definition serial_bytes (c : Z) : list Z := if c =? BACKSPACE then [8; 32; 8] else [u8 c].

Definition serial_put (p : serial) (cs : list Z) : serial :=
  {| uart := uart p; received := received p; sent := sent p ++ if uart p then flat_map serial_bytes cs else [] |}.

(** The state after the characters [cs] have been put out on the screen [d]. *)
Definition put_out (s : console) (cs : list Z) (d : screen) : console :=
  {| scr := d; input := input s; kbd := kbd s; com1 := serial_put (com1 s) cs;
     echodisabled := echodisabled s; panicked := panicked s; wakeups := wakeups s |}.

(** [prints s cs s']: [s'] is [s] after [cs] has gone to the screen and the
    serial port. *)
Definition prints (s : console) (cs : list Z) (s' : console) : Prop :=
  screen_ok (scr s') /\ text (scr s') = fold_left (term_put (echodisabled s)) cs (text (scr s)) /\
  s' = put_out s cs (scr s').

Lemma serial_put_nil p : serial_put p [] = p.
Proof. destruct p as [u ? ?]. unfold serial_put. cbn. destruct u; by rewrite app_nil_r. Qed.

Lemma serial_put_app p l k : serial_put (serial_put p l) k = serial_put p (l ++ k).
Proof.
  destruct p as [u ? ?]. unfold serial_put. cbn. f_equal. rewrite flat_map_app. destruct u; by rewrite <- app_assoc.
Qed.

Lemma prints_nil s : screen_ok (scr s) -> prints s [] s.
Proof.
  intros Hs. split_and!; [done|done|]. destruct s. unfold put_out. cbn. by rewrite serial_put_nil.
Qed.

Lemma prints_app s l s1 k s2 : prints s l s1 -> prints s1 k s2 -> prints s (l ++ k) s2.
Proof.
  intros (Ho1 & Ht1 & E1) (Ho2 & Ht2 & E2). split_and!; [done| |].
  - rewrite fold_left_app, <- Ht1, Ht2. by rewrite E1.
  - rewrite E2, E1. unfold put_out. cbn. by rewrite serial_put_app.
Qed.

Lemma consputc_prints s c : screen_ok (scr s) -> panicked s = false -> wp (consputc c) s (fun _ s' => prints s [c] s').
Proof.
  intros Hs Hp. unfold consputc. apply wp_bind, wp_gets. rewrite Hp. cbv iota. apply wp_bind.
  enough (Hu : wp (if c =? BACKSPACE then uartputc 8 then! uartputc 32 then! uartputc 8 else uartputc c) s
    (fun _ s' => s' = put_out s [c] (scr s))).
  { eapply wp_mono; [exact Hu|]. cbn beta. intros _ s1 ->. eapply wp_mono; [by apply cgaputc_shows|]. cbn beta.
    intros _ s' (Ho & Ht & E). split_and!; [done|done|]. by rewrite E. }
  unfold uartputc, put_out, serial_put. cbn [flat_map]. rewrite app_nil_r. unfold serial_bytes.
  destruct s as [d i k [u rc sn] ec pa wk]. destruct (c =? BACKSPACE), u; cbn; unfold with_com1; cbn; rewrite <- ?app_assoc, ?app_nil_r; done.
Qed.

Lemma put_all_prints s cs : screen_ok (scr s) -> panicked s = false -> wp (put_all consputc cs) s (fun _ s' => prints s cs s').
Proof.
  revert s. induction cs as [|c cs IH]; intros s Hs Hp; cbn [put_all]; [by apply wp_ret, prints_nil|].
  apply wp_bind. eapply wp_mono; [by apply consputc_prints|]. cbn beta. intros _ s1 H1.
  eapply wp_mono; [apply IH|].
  - apply H1.
  - destruct H1 as (_ & _ & ->). done.
  - cbn beta. intros _ s2 H2. by apply (prints_app s [c] s1 cs).
Qed.

(** A call that leaves the console alone. *)
Definition leaves (m : M console unit) : Prop := forall s, m s = Ret tt s.

Lemma wp_leaves m s (Q : unit -> console -> Prop) : leaves m -> Q tt s -> wp m s Q.
Proof. intros Hm Hq. unfold wp. by rewrite Hm. Qed.

(** [write] to the console shows the bytes on the screen, scrolled when the
    24 lines are full, sends them to the serial port and returns their
    number; it never panics on a screen that is in order, and leaves it in
    order. *)
Theorem consolewrite_shows (iunlock ilock : M console unit) s bytes :
  leaves iunlock -> leaves ilock -> screen_ok (scr s) -> panicked s = false ->
  wp (consolewrite iunlock ilock bytes) s (fun n s' => n = Z.of_nat (length bytes) /\ screen_ok (scr s') /\
    text (scr s') = fold_left (term_put (echodisabled s)) bytes (text (scr s)) /\
    s' = put_out s bytes (scr s')).
Proof.
  intros Hu Hl Hs Hp. unfold consolewrite. apply wp_bind, (wp_leaves _ _ _ Hu), wp_bind.
  eapply wp_mono; [by apply put_all_prints|]. cbn beta. intros _ s' Hp'. apply wp_bind, (wp_leaves _ _ _ Hl), wp_ret. done.
Qed.

(** [clrscr] gives an empty screen that is in order, wherever the cursor
    was. *)
Theorem clrscr_clears s : (24 * 80 <= length (crt (scr s)))%nat ->
  wp sys_clrscr s (fun _ s' => screen_ok (scr s') /\ text (scr s') = [] /\ s' = new_scr (scr s') s).
Proof.
  intros Hl. unfold sys_clrscr, setcp, with_crt, cells_clear. repeat first [apply wp_bind|apply wp_gets].
  rewrite decide_True by lia. apply wp_ret, wp_modify. repeat first [apply wp_bind|apply wp_modify].
  cbn [with_scr scr crt crt_index cursor_hi cursor_lo].
  change (u8 14 =? 14) with true. change (u8 14 =? 15) with false. change (u8 15 =? 14) with false. change (u8 15 =? 15) with true. cbv iota.
  change (u8 (Z.shiftr (0 + 80 * 0) 8)) with 0. change (u8 (0 + 80 * 0)) with 0.
  split_and!; [|done|by destruct s]. split; [done|done|]. cbn [crt]. change (Z.to_nat (cursor _)) with O.
  split; [rewrite splice_length; rewrite ?length_replicate; lia|lia|done|].
  intros i c Hi Hc. rewrite lookup_splice_in in Hc by (rewrite length_replicate; lia).
  by apply lookup_replicate in Hc as [-> _].
Qed.

(** ** Formats *)

(** The characters of a number. *)
Definition number (xx base : Z) (sign : bool) : list Z :=
  if sign && (xx <? 0) then MINUS :: glyphs digits (numeral base (- xx)) else glyphs digits (numeral base (u32 xx)).

Lemma printint_prints xx base sign s : base = 10 \/ base = 16 -> - 2 ^ 31 <= xx < 2 ^ 31 ->
  printint xx base sign s = put_all consputc (number xx base sign) s.
Proof.
  intros Hb Hx. unfold printint, number.
  assert (Hr : forall x, 0 <= x < 2 ^ 32 -> 0 <= x < base ^ Z.of_nat 15) by (intros x Hr; destruct Hb as [-> | ->]; lia).
  assert (Hd : (Z.to_nat base <= length digits)%nat) by (destruct Hb as [-> | ->]; vm_compute; lia).
  destruct (sign && (xx <? 0)) eqn:E.
  - apply andb_true_iff in E as [_ E%Z.ltb_lt]. rewrite u32_small by lia.
    rewrite (print_digits consputc digits base (- xx) true 14 s); [done|lia|done|apply Hr; lia|lia|lia].
  - pose proof (u32_bounds xx).
    rewrite (print_digits consputc digits base (u32 xx) false 14 s); [done|lia|done|apply Hr; lia|lia|lia].
Qed.

(** What [cprintf] prints, as a value. *)
Fixpoint formatted (fmt : list Z) (args : list arg) : option (list Z) :=
  match fmt with
  | [] => None
  | c :: fmt1 =>
      if c =? 0 then Some []
      else if negb (c =? 37) then (c ::.) <$> formatted fmt1 args
      else
        match fmt1 with
        | [] => None
        | c :: fmt' =>
            if c =? 0 then Some []
            else if c =? 100 then
              a ← word_arg args; (number (s32 a.1) 10 true ++.) <$> formatted fmt' a.2
            else if (c =? 120) || (c =? 112) then
              a ← word_arg args; (number (s32 a.1) 16 false ++.) <$> formatted fmt' a.2
            else if c =? 115 then
              a ← str_arg args; n ← strlen a.1; (take n a.1 ++.) <$> formatted fmt' a.2
            else if c =? 37 then (37 ::.) <$> formatted fmt' args
            else ([37; c] ++.) <$> formatted fmt' args
        end
  end.

Lemma cprintf_puts fmt args cs s : formatted fmt args = Some cs -> cprintf fmt args s = put_all consputc cs s.
Proof.
  unfold cprintf. remember (length fmt) as n eqn:Hn. revert fmt Hn args cs s.
  induction n as [n IH] using lt_wf_ind. intros [|c fmt1] -> args cs s Hf; [done|]. cbn [formatted cprintf_loop length] in *.
  destruct (c =? 0); [by simplify_eq|]. destruct (Z.eqb_spec c 37) as [->|Hc]; cbn [negb] in *; cycle 1.
  { eapply (put_then consputc _ _ [c]); [apply put_one| |exact Hf]. intros. eapply IH; [|done..]. lia. }
  destruct fmt1 as [|c fmt']; [done|]. cbn [length] in IH. destruct (c =? 0); [by simplify_eq|].
  assert (IH' : forall args cs s, formatted fmt' args = Some cs -> cprintf_loop fmt' args s = put_all consputc cs s)
    by (intros; eapply IH; [|done..]; lia). clear IH.
  destruct (c =? 100); [|destruct ((c =? 120) || (c =? 112)); [|destruct (c =? 115); [|destruct (c =? 37)]]].
  - destruct (word_arg args) as [[x args']|]; [|done]. cbn [mbind option_bind fst snd] in Hf.
    eapply (put_then consputc); [|by apply IH'|exact Hf]. intros. apply printint_prints; [by left|apply s32_bounds].
  - destruct (word_arg args) as [[x args']|]; [|done]. cbn [mbind option_bind fst snd] in Hf.
    eapply (put_then consputc); [|by apply IH'|exact Hf]. intros. apply printint_prints; [by right|apply s32_bounds].
  - destruct (str_arg args) as [[str args']|]; [|done]. cbn [mbind option_bind fst snd] in Hf.
    destruct (strlen str) as [k|] eqn:Ek; [|done]. cbn [mbind option_bind] in Hf.
    eapply (put_then consputc); [|by apply IH'|exact Hf]. intros. by apply put_str_all.
  - eapply (put_then consputc _ _ [37]); [apply put_one|by apply IH'|exact Hf].
  - rewrite put_two. eapply (put_then consputc _ _ [37; c]); [|by apply IH'|exact Hf]. intros s'. cbn [put_all]. unfold bind, ret.
    destruct (consputc 37 s') as [? s1|]; [|done]. by destruct (consputc c s1) as [[] ?|].
Qed.

(** [cprintf] prints its format with each [%d] replaced by the decimal
    numeral of its argument, [%x] and [%p] by the hexadecimal one, and [%s] by
    the string. *)
Theorem cprintf_prints fmt args cs s : formatted fmt args = Some cs -> screen_ok (scr s) -> panicked s = false ->
  wp (cprintf fmt args) s (fun _ s' => prints s cs s').
Proof. intros Hf Hs Hp. unfold wp. rewrite (cprintf_puts _ _ _ _ Hf). by apply put_all_prints. Qed.

(** ** A screen *)

(** A machine with a serial port, as it starts. *)
Definition fresh_console : console := {|
  scr := {| crt := replicate (24 * 80) 0; crt_index := 0; cursor_hi := 0; cursor_lo := 0 |};
  input := {| buf := replicate 128 0; r := 0; w := 0; e := 0 |};
  kbd := {| scancodes := []; shift := 0 |};
  com1 := {| uart := true; received := []; sent := [] |};
  echodisabled := false; panicked := false; wakeups := 0 |}.

Lemma fresh_screen : screen_ok (scr fresh_console).
Proof.
  split; [done|done|]. change (Z.to_nat (cursor (scr fresh_console))) with O. cbn [crt scr fresh_console].
  split; [rewrite length_replicate; lia|lia|done|]. by intros i c Hi [-> _]%lookup_replicate.
Qed.

Lemma consolewrite_shows_witness : exists s', consolewrite (ret tt) (ret tt) (chars "login: ") fresh_console = Ret 7 s' /\
  text (scr s') = cell_of <$> chars "login: ".
Proof.
  pose proof (consolewrite_shows (ret tt) (ret tt) fresh_console (chars "login: ") (fun _ => eq_refl) (fun _ => eq_refl) fresh_screen eq_refl) as H.
  apply (proj1 (wp_iff _ _ _)) in H as (n & s' & E & -> & _ & Ht & _). exists s'. split; [exact E|]. rewrite Ht. vm_compute. reflexivity.
Defined.

Lemma clrscr_clears_witness : exists s', sys_clrscr fresh_console = Ret tt s' /\ text (scr s') = [].
Proof.
  pose proof (clrscr_clears fresh_console ltac:(cbn [crt scr fresh_console]; rewrite length_replicate; lia)) as H.
  apply (proj1 (wp_iff _ _ _)) in H as ([] & s' & E & _ & Ht & _). by exists s'.
Defined.

Lemma cprintf_prints_witness : exists s',
  cprintf (chars "pid %d %s: %x%%" ++ [0]) [Word (-12); Ptr (Some (chars "sh" ++ [0])); Word 48879] fresh_console = Ret tt s' /\
  sent (com1 s') = chars "pid -12 sh: beef%".
Proof.
  pose proof (cprintf_prints (chars "pid %d %s: %x%%" ++ [0]) [Word (-12); Ptr (Some (chars "sh" ++ [0])); Word 48879]
    (chars "pid -12 sh: beef%") fresh_console ltac:(vm_compute; reflexivity) fresh_screen eq_refl) as H.
  apply (proj1 (wp_iff _ _ _)) in H as ([] & s' & E & _ & _ & Hs). exists s'. split; [exact E|]. rewrite Hs. vm_compute. reflexivity.
Defined.
