(* ===== verification/ConsoleIn.v ===== *)
(** * The line discipline

    [consoleintr] and [consoleread] of [Console] implement an abstract
    terminal, [tty]: the complete lines that wait to be read, and the line
    that is being edited.  The ring buffer represents the two one after the
    other; its indices wrap around at 2^32. *)

From S2P Require Import Prelude CStr Format Console ConsoleOut.

(** ** Abstract terminal *)

Record tty : Type := { ready : list Z; line : list Z }.

Definition tty_size (t : tty) : nat := length (ready t) + length (line t).

(** A character ends the line: a newline, ^D, or the last that fits. *)
Definition completes (t : tty) (c : Z) : bool := (c =? NL) || (c =? 4) || (tty_size t =? 127)%nat.

(** The character that is stored for the one typed. *)
Definition translate (c : Z) : Z := if c =? 13 then NL else c.

(** The three groups of control characters. *)
Definition is_erase (c : Z) : bool := (c =? 8) || (c =? 127).

Definition tty_append (t : tty) (c : Z) : tty :=
  if completes t c then {| ready := ready t ++ line t ++ [c]; line := [] |}
  else {| ready := ready t; line := line t ++ [c] |}.

Definition tty_char (t : tty) (c : Z) : tty :=
  if c =? 16 then t
  else if c =? 21 then {| ready := ready t; line := [] |}
  else if is_erase c then {| ready := ready t; line := take (length (line t) - 1) (line t) |}
  else if negb (c =? 0) && (tty_size t <? 128)%nat then tty_append t (translate c)
  else t.

(** What is echoed. *)
Definition echo (t : tty) (c : Z) : list Z :=
  if c =? 16 then []
  else if c =? 21 then replicate (length (line t)) BACKSPACE
  else if is_erase c then (if (length (line t) =? 0)%nat then [] else [BACKSPACE])
  else if negb (c =? 0) && (tty_size t <? 128)%nat then [translate c]
  else [].

(** Taking bytes from the complete lines, for a read of [n] more bytes out of
    [target]. *)
Fixpoint tty_take (fuel : nat) (target : Z) (dst : list Z) (n : Z) (l : list Z) : progress * list Z :=
  match fuel with
  | O => (Done (target - n) dst, l)
  | S fuel' =>
      match l with
      | [] => (Asleep dst n, l)
      | c :: l' =>
          if c =? 4 then (Done (target - n) dst, if n <? target then l else l')
          else if c =? NL then (Done (target - n + 1) (dst ++ [c]), l')
          else tty_take fuel' target (dst ++ [c]) (n - 1) l'
      end
  end.

(** ** The ring *)

Record rep (i : input_buf) (t : tty) : Prop := {
  rp_buf : length (buf i) = 128%nat;
  rp_r : 0 <= r i < 2 ^ 32;
  rp_w : w i = u32 (r i + Z.of_nat (length (ready t)));
  rp_e : e i = u32 (r i + Z.of_nat (tty_size t));
  rp_size : (tty_size t <= 128)%nat;
  rp_bytes k c : (ready t ++ line t) !! k = Some c -> buf i !! Z.to_nat ((r i + Z.of_nat k) mod 128) = Some c;
  rp_line : Forall (fun c => c <> NL /\ c <> 4) (line t)
}.

Lemma u32_mod128 x : u32 x mod 128 = x mod 128.
Proof. unfold u32. apply Z.mod_mod_divide. by exists (2 ^ 25). Qed.

Lemma u32_add x y : u32 (u32 x + y) = u32 (x + y).
Proof. unfold u32. by rewrite Zplus_mod_idemp_l. Qed.

Lemma u32_sub x y : u32 (u32 x - y) = u32 (x - y).
Proof. unfold u32. by rewrite Zminus_mod_idemp_l. Qed.

(** Two positions less than 2^32 apart are equal when their indices are. *)
Lemma u32_inj r0 a b : 0 <= a < 2 ^ 32 -> 0 <= b < 2 ^ 32 -> u32 (r0 + a) = u32 (r0 + b) -> a = b.
Proof.
  intros Ha Hb H. assert (E : u32 (u32 (r0 + a) - r0) = u32 (u32 (r0 + b) - r0)) by by rewrite H.
  rewrite !u32_sub in E. replace (r0 + a - r0) with a in E by lia. replace (r0 + b - r0) with b in E by lia.
  by rewrite !u32_small in E.
Qed.

(** Two positions of the ring are different bytes. *)
Lemma mod128_inj r0 a b : 0 <= a < 128 -> 0 <= b < 128 -> (r0 + a) mod 128 = (r0 + b) mod 128 -> a = b.
Proof.
  intros Ha Hb H. assert (E : ((r0 + a) mod 128 - r0) mod 128 = ((r0 + b) mod 128 - r0) mod 128) by by rewrite H.
  rewrite !Zminus_mod_idemp_l in E. replace (r0 + a - r0) with a in E by lia. replace (r0 + b - r0) with b in E by lia.
  by rewrite !Z.mod_small in E.
Qed.

Section rep.
Context (i : input_buf) (t : tty) (Hrep : rep i t).

Lemma rep_e_w : (e i =? w i) = (length (line t) =? 0)%nat.
Proof.
  pose proof (rp_size _ _ Hrep). unfold tty_size in *. rewrite (rp_e _ _ Hrep), (rp_w _ _ Hrep). unfold tty_size.
  destruct (Nat.eqb_spec (length (line t)) 0) as [->|Hn].
  - rewrite Nat.add_0_r. apply Z.eqb_refl.
  - apply Z.eqb_neq. intros E. apply u32_inj in E; lia.
Qed.

Lemma rep_r_w : (r i =? w i) = (length (ready t) =? 0)%nat.
Proof.
  pose proof (rp_size _ _ Hrep). unfold tty_size in *. rewrite (rp_w _ _ Hrep).
  rewrite <- (u32_small (r i)) at 1 by apply Hrep. replace (r i) with (r i + 0) at 1 by lia.
  destruct (Nat.eqb_spec (length (ready t)) 0) as [->|Hn]; [apply Z.eqb_refl|].
  apply Z.eqb_neq. intros E. apply u32_inj in E; lia.
Qed.

Lemma rep_used : u32 (e i - r i) = Z.of_nat (tty_size t).
Proof.
  pose proof (rp_size _ _ Hrep). rewrite (rp_e _ _ Hrep), u32_sub, u32_small; lia.
Qed.

Lemma rep_edited : u32 (e i - w i) = Z.of_nat (length (line t)).
Proof.
  pose proof (rp_size _ _ Hrep). rewrite (rp_e _ _ Hrep), (rp_w _ _ Hrep), u32_sub. unfold u32 at 2.
  unfold u32. rewrite Zminus_mod_idemp_r. fold (u32 (r i + Z.of_nat (tty_size t) - (r i + Z.of_nat (length (ready t))))).
  unfold tty_size in *. rewrite u32_small; lia.
Qed.

(** The last byte of the line is just before [e]. *)
Lemma rep_last l c : line t = l ++ [c] -> buf i !! Z.to_nat (u32 (e i - 1) mod INPUT_BUF) = Some c.
Proof.
  intros E. pose proof (rp_bytes _ _ Hrep (length (ready t) + length l) c) as Hb.
  rewrite E, lookup_app_r, Nat.add_comm, Nat.add_sub, lookup_mid in Hb by lia. specialize (Hb eq_refl).
  unfold INPUT_BUF. rewrite u32_mod128, (rp_e _ _ Hrep), <- Z.add_opp_r. rewrite <- (u32_mod128 (_ + _)), u32_add, u32_mod128.
  unfold tty_size. rewrite E, length_app. cbn [length]. rewrite <- Hb. do 3 f_equal. lia.
Qed.

Lemma rep_erase l c : line t = l ++ [c] ->
  rep {| buf := buf i; r := r i; w := w i; e := u32 (e i - 1) |} {| ready := ready t; line := l |}.
Proof.
  intros E. pose proof (rp_size _ _ Hrep) as Hs. unfold tty_size in Hs. rewrite E, length_app in Hs. cbn [length] in Hs.
  split; cbn [buf r w e ready line]; [apply Hrep..| | | |].
  - rewrite (rp_e _ _ Hrep), u32_sub. unfold tty_size. rewrite E, length_app. cbn [length ready line]. f_equal. lia.
  - unfold tty_size. cbn [ready line]. lia.
  - intros k x Hk. apply (rp_bytes _ _ Hrep). rewrite E, app_assoc. by apply lookup_app_l_Some.
  - pose proof (rp_line _ _ Hrep) as Hl. rewrite E in Hl. by apply Forall_app in Hl as [? _].
Qed.

(** A byte is stored at [e]. *)
Lemma rep_store c : (tty_size t < 128)%nat ->
  exists b, store (buf i) (Z.to_nat (e i mod INPUT_BUF)) c = Some b /\
    length b = 128%nat /\
    (forall k x, (ready t ++ line t ++ [c]) !! k = Some x -> b !! Z.to_nat ((r i + Z.of_nat k) mod 128) = Some x).
Proof.
  intros Hlt. unfold INPUT_BUF. rewrite (rp_e _ _ Hrep), u32_mod128.
  pose proof (Z.mod_pos_bound (r i + Z.of_nat (tty_size t)) 128 ltac:(lia)) as Hm.
  rewrite store_in by (rewrite (rp_buf _ _ Hrep); lia). eexists. split; [done|]. split; [rewrite length_insert; apply Hrep|].
  intros k x Hk. rewrite app_assoc in Hk. destruct (decide (k = tty_size t)) as [->|Hne].
  - rewrite lookup_app_r in Hk by (rewrite length_app; unfold tty_size; lia). unfold tty_size in Hk at 1.
    rewrite length_app, Nat.sub_diag in Hk. injection Hk as <-. apply list_lookup_insert_eq. rewrite (rp_buf _ _ Hrep). lia.
  - assert (k < S (tty_size t))%nat.
    { apply lookup_lt_Some in Hk. rewrite !length_app in Hk. cbn [length] in Hk. unfold tty_size. lia. }
    rewrite list_lookup_insert_ne.
    + apply (rp_bytes _ _ Hrep). rewrite lookup_app_l in Hk; [done|]. rewrite length_app. unfold tty_size in *. lia.
    + intros E. pose proof (Z.mod_pos_bound (r i + Z.of_nat k) 128 ltac:(lia)). apply Z2Nat.inj in E; [|lia..].
      apply mod128_inj in E; lia.
Qed.

(** The first complete byte is at [r]. *)
Lemma rep_take c l : ready t = c :: l -> buf i !! Z.to_nat (r i mod INPUT_BUF) = Some c /\
  rep {| buf := buf i; r := u32 (r i + 1); w := w i; e := e i |} {| ready := l; line := line t |}.
Proof.
  intros E. pose proof (rp_size _ _ Hrep) as Hs. unfold tty_size in Hs. rewrite E in Hs. cbn [length] in Hs. split.
  - pose proof (rp_bytes _ _ Hrep 0 c) as Hb. rewrite E, Z.add_0_r in Hb. by apply Hb.
  - split; cbn [buf r w e ready line].
    + apply Hrep.
    + apply u32_bounds.
    + rewrite (rp_w _ _ Hrep), u32_add, E. cbn [length]. f_equal. lia.
    + rewrite (rp_e _ _ Hrep), u32_add. unfold tty_size. rewrite E. cbn [length ready line]. f_equal. lia.
    + unfold tty_size. cbn [ready line]. lia.
    + intros k x Hk. pose proof (rp_bytes _ _ Hrep (S k) x) as Hb. rewrite E in Hb. rewrite <- u32_mod128, u32_add, u32_mod128.
      rewrite <- (Hb Hk). do 3 f_equal. lia.
    + apply Hrep.
Qed.
End rep.

(** ** One character *)

(** The console in order, with the terminal [t]. *)
Record tty_ok (s : console) (t : tty) : Prop := {
  tk_rep : rep (input s) t;
  tk_scr : screen_ok (scr s);
  tk_panicked : panicked s = false
}.

(** [echoes s cs s']: from [s] to [s'] the characters [cs] have been put out,
    and besides that only the ring and the count of wake-ups have changed. *)
Definition echoes (s : console) (cs : list Z) (s' : console) : Prop :=
  screen_ok (scr s') /\ text (scr s') = fold_left (term_put (echodisabled s)) cs (text (scr s)) /\
  s' = {| scr := scr s'; input := input s'; kbd := kbd s; com1 := serial_put (com1 s) cs;
          echodisabled := echodisabled s; panicked := panicked s; wakeups := wakeups s' |}.

Lemma echoes_nil s : screen_ok (scr s) -> echoes s [] s.
Proof. intros Hs. split_and!; [done|done|]. destruct s. cbn. by rewrite serial_put_nil. Qed.

Lemma echoes_app s l s1 k s2 : echoes s l s1 -> echoes s1 k s2 -> echoes s (l ++ k) s2.
Proof.
  intros (Ho1 & Ht1 & E1) (Ho2 & Ht2 & E2). split_and!; [done| |].
  - rewrite fold_left_app, <- Ht1, Ht2. by rewrite E1.
  - rewrite E2, E1. cbn. by rewrite serial_put_app.
Qed.

(** Changes of the ring are not seen on the screen. *)
Lemma echoes_input f s l s' : echoes (with_input f s) l s' -> echoes s l s'.
Proof. intros (Ho & Ht & E). split_and!; done. Qed.

Lemma echoes_then f s l s' : echoes s l s' -> echoes s l (with_input f s').
Proof. intros (Ho & Ht & E). split_and!; [done|done|]. rewrite E. done. Qed.

Lemma prints_echoes s l s' : prints s l s' -> echoes s l s' /\ input s' = input s /\ wakeups s' = wakeups s.
Proof.
  intros (Ho & Ht & E). split_and!; [|by rewrite E..]. split_and!; [done|done|]. rewrite E at 1. unfold put_out. by rewrite E.
Qed.

Lemma echoes_keeps s l s' t : echoes s l s' -> tty_ok s t -> forall t', rep (input s') t' -> tty_ok s' t'.
Proof. intros (Ho & Ht & E) Hk t' Hr. split; [done|done|]. rewrite E. apply Hk. Qed.

Lemma wp_erase_char s t l c : tty_ok s t -> line t = l ++ [c] ->
  wp erase_char s (fun _ s' => tty_ok s' {| ready := ready t; line := l |} /\ echoes s [BACKSPACE] s' /\ wakeups s' = wakeups s).
Proof.
  intros Hk Hl. unfold erase_char, set_e. apply wp_bind, wp_gets, wp_bind, wp_modify.
  eapply wp_mono; [apply consputc_prints; apply Hk|]. cbn beta. intros _ s' Hp.
  destruct (prints_echoes _ _ _ Hp) as (He & Hi & Hw). apply echoes_input in He. split; [|done].
  eapply echoes_keeps; [exact He|exact Hk|]. rewrite Hi. by apply (rep_erase (input s) t (tk_rep _ _ Hk) l c).
Qed.

Lemma wp_kill_line n s t : tty_ok s t -> (length (line t) < n)%nat ->
  wp (kill_line n) s (fun _ s' => tty_ok s' {| ready := ready t; line := [] |} /\
    echoes s (replicate (length (line t)) BACKSPACE) s' /\ wakeups s' = wakeups s).
Proof.
  revert s t. induction n as [|n IH]; intros s t Hk Hn; [lia|]. cbn [kill_line].
  apply wp_bind, wp_gets. rewrite (rep_e_w _ _ (tk_rep _ _ Hk)).
  destruct (line t) as [|c l _] eqn:El using rev_ind.
  - cbn. apply wp_ret. split_and!; [|by apply echoes_nil, Hk|done]. destruct t as [rd ln]. cbn in *. by rewrite El in Hk.
  - rewrite length_app in *. cbn [length] in *. rewrite (proj2 (Nat.eqb_neq _ 0)) by lia. cbn [negb].
    unfold input_at. apply wp_bind, wp_bind, wp_gets. eapply wp_lift; [by apply (rep_last _ _ (tk_rep _ _ Hk) l)|].
    pose proof (rp_line _ _ (tk_rep _ _ Hk)) as Hc. rewrite El in Hc. apply Forall_app in Hc as [_ Hc]. apply Forall_cons_iff in Hc as [[Hc _] _].
    rewrite (proj2 (Z.eqb_neq c NL)) by done. cbn [negb]. apply wp_bind.
    eapply wp_mono; [by apply (wp_erase_char s t l c)|]. cbn beta. intros _ s1 (Hk1 & He1 & Hw1).
    eapply wp_mono; [apply (IH s1 _ Hk1); cbn [line]; lia|]. cbn beta. intros _ s2 (Hk2 & He2 & Hw2). cbn [ready line] in *.
    split_and!; [done| |congruence]. rewrite Nat.add_comm. by apply (echoes_app s [BACKSPACE] s1).
Qed.

(** What [put_char] does to the ring. *)
Lemma rep_append i t c b : rep i t -> (tty_size t < 128)%nat -> length b = 128%nat ->
  (forall k x, (ready t ++ line t ++ [c]) !! k = Some x -> b !! Z.to_nat ((r i + Z.of_nat k) mod 128) = Some x) ->
  let i' := {| buf := b; r := r i; w := w i; e := u32 (e i + 1) |} in
  (e i' =? u32 (r i' + INPUT_BUF)) = (tty_size t =? 127)%nat /\
  rep (if completes t c then {| buf := b; r := r i; w := u32 (e i + 1); e := u32 (e i + 1) |} else i') (tty_append t c).
Proof.
  intros Hr Hlt Hlen Hb i'. pose proof (rp_e _ _ Hr) as He.
  assert (He' : u32 (e i + 1) = u32 (r i + Z.of_nat (S (tty_size t)))) by (rewrite He, u32_add; f_equal; lia).
  split.
  - unfold i'. cbn [e r]. rewrite He'. unfold INPUT_BUF. destruct (Nat.eqb_spec (tty_size t) 127) as [->|Hn]; [apply Z.eqb_refl|].
    apply Z.eqb_neq. intros E. apply u32_inj in E; lia.
  - unfold tty_append. destruct (completes t c) eqn:Ec; subst i'.
    + split; cbn [buf r w e ready line]; [done|apply Hr|..].
      * rewrite He'. f_equal. rewrite !length_app. cbn [length]. unfold tty_size. lia.
      * rewrite He'. f_equal. unfold tty_size. cbn [ready line]. rewrite !length_app. cbn [length]. lia.
      * unfold tty_size in *. cbn [ready line]. rewrite !length_app. cbn [length]. lia.
      * by rewrite app_nil_r.
      * constructor.
    + unfold completes in Ec. apply orb_false_iff in Ec as [[Hc%Z.eqb_neq Hd%Z.eqb_neq]%orb_false_iff Hn%Nat.eqb_neq].
      split; cbn [buf r w e ready line]; [done|apply Hr|apply Hr|..].
      * rewrite He'. f_equal. unfold tty_size. cbn [ready line]. rewrite length_app. cbn [length]. lia.
      * unfold tty_size in *. cbn [ready line]. rewrite !length_app. cbn [length]. lia.
      * done.
      * apply Forall_app. split; [apply Hr|]. by repeat constructor.
Qed.

Lemma u8_byte c : byte c -> u8 c = c.
Proof. apply Z.mod_small. Qed.

Lemma wp_put_char s t c : tty_ok s t -> (tty_size t < 128)%nat -> byte c ->
  wp (put_char c) s (fun _ s' => tty_ok s' (tty_append t c) /\ echoes s [c] s' /\
    wakeups s' = (wakeups s + if completes t c then 1 else 0)%nat).
Proof.
  intros Hk Hlt Hc. destruct (rep_store _ _ (tk_rep _ _ Hk) c Hlt) as (b & Hst & Hlen & Hb).
  destruct (rep_append _ _ _ _ (tk_rep _ _ Hk) Hlt Hlen Hb) as [Hfull Hrep].
  unfold put_char. apply wp_bind, wp_gets, wp_bind. rewrite (u8_byte c Hc). eapply wp_lift; [exact Hst|].
  apply wp_bind, wp_modify, wp_bind. eapply wp_mono; [apply consputc_prints; apply Hk|]. cbn beta. intros _ s' Hp.
  destruct (prints_echoes _ _ _ Hp) as (He & Hi & Hw). apply echoes_input in He. cbn [with_input input] in Hi.
  apply wp_bind, wp_gets. rewrite Hi. cbn [e r] in *. rewrite Hfull. fold (completes t c). destruct (completes t c).
  - apply wp_bind, wp_modify, wp_modify. cbn [with_input scr input kbd com1 echodisabled panicked wakeups].
    rewrite Hi. cbn [buf r e w] in *.
    assert (He2 : echoes s [c] {| scr := scr s'; input := {| buf := b; r := r (input s); w := u32 (e (input s) + 1); e := u32 (e (input s) + 1) |};
      kbd := kbd s'; com1 := com1 s'; echodisabled := echodisabled s'; panicked := panicked s'; wakeups := S (wakeups s') |}).
    { destruct He as (Ho & Ht & E). split_and!; [done|done|]. cbn. rewrite E. done. }
    split_and!; [eapply echoes_keeps; [exact He2|exact Hk|exact Hrep]|done|]. cbn in Hw |- *. lia.
  - apply wp_ret. split_and!; [eapply echoes_keeps; [exact He|exact Hk|by rewrite Hi]|done|]. cbn in Hw. lia.
Qed.

Lemma translate_byte c : byte c -> byte (translate c).
Proof. unfold translate. by destruct (c =? 13). Qed.

(** The line is complete with the character. *)
Definition commits (t : tty) (c : Z) : bool :=
  negb (c =? 16) && negb (c =? 21) && negb (is_erase c) && negb (c =? 0) && (tty_size t <? 128)%nat && completes t (translate c).

(** [intr_char] does one step of the terminal and puts out its echo; it wakes
    the reader when a line is complete. *)
Lemma wp_intr_char s t d c : tty_ok s t -> byte c ->
  wp (intr_char d c) s (fun d' s' => d' = (d || (c =? 16)) /\ tty_ok s' (tty_char t c) /\ echoes s (echo t c) s' /\
    wakeups s' = (wakeups s + if commits t c then 1 else 0)%nat).
Proof.
  intros Hk Hc. pose proof (tk_rep _ _ Hk) as Hr. unfold intr_char, tty_char, echo, commits.
  destruct (c =? 16); cbn [negb andb].
  { apply wp_ret. rewrite orb_true_r. split_and!; [done|done|apply echoes_nil, Hk|lia]. }
  rewrite orb_false_r. destruct (c =? 21); cbn [negb andb].
  { apply wp_bind, wp_gets. rewrite (rep_edited _ _ Hr), Nat2Z.id. apply wp_bind.
    eapply wp_mono; [apply wp_kill_line; [exact Hk|lia]|]. cbn beta. intros _ s' (Hk' & He & Hw). apply wp_ret. split_and!; [done..|lia]. }
  fold (is_erase c). destruct (is_erase c); cbn [negb andb].
  { apply wp_bind, wp_gets, wp_bind. rewrite (rep_e_w _ _ Hr). destruct (line t) as [|x l _] eqn:El using rev_ind.
    - apply wp_ret, wp_ret. destruct t as [rd ln]. cbn in El. subst ln. split_and!; [done|done|apply echoes_nil, Hk|lia].
    - rewrite length_app. cbn [length]. rewrite (proj2 (Nat.eqb_neq _ 0)), Nat.add_sub by lia. cbn [negb].
      rewrite take_app_length. eapply wp_mono; [by apply (wp_erase_char s t l x)|]. cbn beta. intros _ s' (Hk' & He & Hw).
      apply wp_ret. split_and!; [done..|lia]. }
  apply wp_bind, wp_gets. rewrite (rep_used _ _ Hr). unfold INPUT_BUF.
  replace (Z.of_nat (tty_size t) <? 128) with (tty_size t <? 128)%nat
    by (destruct (Nat.ltb_spec (tty_size t) 128), (Z.ltb_spec (Z.of_nat (tty_size t)) 128); lia).
  destruct (c =? 0); cbn [negb andb].
  { apply wp_ret. split_and!; [done|done|apply echoes_nil, Hk|lia]. }
  destruct (Nat.ltb_spec (tty_size t) 128) as [Hlt|Hge]; cbn [andb].
  - apply wp_bind. fold (translate c). eapply wp_mono; [apply (wp_put_char s t (translate c) Hk Hlt); by apply translate_byte|].
    cbn beta. intros _ s' (Hk' & He & Hw). by apply wp_ret.
  - apply wp_ret. split_and!; [done|done|apply echoes_nil, Hk|lia].
Qed.

(** ** Interrupts *)

(** What an interrupt handler reads: [src s] is the list of the characters
    that [getc] gives, one after the other, before it gives -1. *)
Class Source (getc : M console Z) (src : console -> list Z) : Prop := {
  src_end s : src s = [] -> exists s', getc s = Ret (-1) s' /\ src s' = [] /\
    s' = {| scr := scr s; input := input s; kbd := kbd s'; com1 := com1 s'; echodisabled := echodisabled s;
            panicked := panicked s; wakeups := wakeups s |} /\ sent (com1 s') = sent (com1 s) /\ uart (com1 s') = uart (com1 s);
  src_next s c l : src s = c :: l -> byte c /\ exists s', getc s = Ret c s' /\ src s' = l /\
    s' = {| scr := scr s; input := input s; kbd := kbd s'; com1 := com1 s'; echodisabled := echodisabled s;
            panicked := panicked s; wakeups := wakeups s |} /\ sent (com1 s') = sent (com1 s) /\ uart (com1 s') = uart (com1 s);
  src_echo s s' : kbd s' = kbd s -> uart (com1 s') = uart (com1 s) -> received (com1 s') = received (com1 s) -> src s' = src s
}.

(** What the characters [cs] do to the terminal, what they echo, and how often
    they complete a line. *)
Definition tty_chars (t : tty) (cs : list Z) : tty := fold_left tty_char cs t.

Fixpoint echo_all (t : tty) (cs : list Z) : list Z :=
  match cs with
  | [] => []
  | c :: cs' => echo t c ++ echo_all (tty_char t c) cs'
  end.

Fixpoint commits_all (t : tty) (cs : list Z) : nat :=
  match cs with
  | [] => 0
  | c :: cs' => (if commits t c then 1 else 0) + commits_all (tty_char t c) cs'
  end.

(** The output [cs] and the changes of the input devices between two
    states. *)
Definition types (s : console) (cs : list Z) (s' : console) : Prop :=
  screen_ok (scr s') /\ text (scr s') = fold_left (term_put (echodisabled s)) cs (text (scr s)) /\
  sent (com1 s') = sent (serial_put (com1 s) cs) /\ uart (com1 s') = uart (com1 s) /\
  echodisabled s' = echodisabled s /\ panicked s' = panicked s.

Lemma types_app s l s1 k s2 : types s l s1 -> types s1 k s2 -> types s (l ++ k) s2.
Proof.
  intros (Ho1 & Ht1 & Hs1 & Hu1 & He1 & Hp1) (Ho2 & Ht2 & Hs2 & Hu2 & He2 & Hp2). split_and!; [done| | |congruence..].
  - rewrite fold_left_app, <- Ht1, Ht2. by rewrite He1.
  - rewrite Hs2. unfold serial_put. cbn [sent]. rewrite Hs1, Hu1. unfold serial_put. cbn [sent]. rewrite flat_map_app, <- app_assoc.
    by destruct (uart (com1 s)).
Qed.

Lemma echoes_types s l s' : echoes s l s' -> types s l s'.
Proof. intros (Ho & Ht & E). split_and!; [done|done|by rewrite E..]. Qed.

Section source.
Context (getc : M console Z) (src : console -> list Z) `{!Source getc src}.

Lemma wp_consoleintr_loop n s t d : tty_ok s t -> (length (src s) < n)%nat ->
  wp (consoleintr_loop n getc d) s (fun d' s' => tty_ok s' (tty_chars t (src s)) /\ src s' = [] /\
    types s (echo_all t (src s)) s' /\ wakeups s' = (wakeups s + commits_all t (src s))%nat /\
    d' = (d || existsb (Z.eqb 16) (src s))).
Proof.
  revert s t d. induction n as [|n IH]; intros s t d Hk Hn; [lia|]. cbn [consoleintr_loop].
  destruct (src s) as [|c l] eqn:Es.
  - destruct (src_end s Es) as (s' & Hg & Hs' & E & Hsent & Hu). apply wp_bind. unfold wp at 1. rewrite Hg. cbn [Z.leb].
    change (0 <=? -1) with false. cbv iota. apply wp_ret. cbn [echo_all commits_all tty_chars fold_left existsb].
    rewrite orb_false_r, Nat.add_0_r.
    split_and!; [|done| |by rewrite E|done].
    + rewrite E. split; apply Hk.
    + split_and!; try (rewrite E; try apply Hk; done). by rewrite Hsent, serial_put_nil.
  - destruct (src_next s c l Es) as (Hc & s1 & Hg & Hs1 & E1 & Hsent & Hu). apply wp_bind. unfold wp at 1. rewrite Hg.
    assert (Hk1 : tty_ok s1 t) by (rewrite E1; split; apply Hk).
    assert (Hty1 : types s [] s1).
    { split_and!; try (rewrite E1; try apply Hk; done). by rewrite Hsent, serial_put_nil. }
    rewrite (proj2 (Z.leb_le 0 c)) by (unfold byte in Hc; lia). apply wp_bind.
    eapply wp_mono; [by apply (wp_intr_char s1 t d c)|]. cbn beta. intros d2 s2 (-> & Hk2 & He2 & Hw2).
    assert (Hs2 : src s2 = l).
    { rewrite <- Hs1. destruct He2 as (_ & _ & ->). by apply src_echo. }
    eapply wp_mono; [apply (IH s2 _ _ Hk2); rewrite Hs2; cbn [length] in Hn; lia|]. cbn beta. rewrite Hs2.
    intros d3 s3 (Hk3 & Hs3 & Hty3 & Hw3 & ->). cbn [echo_all commits_all tty_chars fold_left existsb]. split_and!; [done|done| | |].
    + apply (types_app s [] s1); [done|]. eapply types_app; [by apply echoes_types|done].
    + rewrite Hw3, Hw2. assert (wakeups s1 = wakeups s) as -> by by rewrite E1. lia.
    + rewrite Z.eqb_sym, orb_assoc. done.
Qed.
End source.

(** ** The serial port *)

Definition uart_src (s : console) : list Z := if uart (com1 s) then u8 <$> received (com1 s) else [].

#[export] Instance uart_source : Source uartgetc uart_src.
Proof.
  split.
  - intros s Hs. exists s. unfold uart_src, uartgetc in *. rewrite bind_gets. destruct s as [d i k [[] rc sn] ec pa wk]; cbn in *.
    + destruct rc; [|done]. by split_and!.
    + by split_and!.
  - intros s c l Hs. unfold uart_src, uartgetc in *. destruct s as [d i k [[] rc sn] ec pa wk]; cbn in *; [|done].
    destruct rc as [|x rc]; [done|]. cbn in Hs. injection Hs as <- <-. split; [apply Z.mod_pos_bound; lia|].
    eexists. split; [done|]. by split_and!.
  - intros s s' Hk Hu Hr. unfold uart_src. by rewrite Hu, Hr.
Qed.

(** ** The keyboard *)

(** One byte from the keyboard: the character, 0 if it gives none, and the
    modifiers after it. *)
Definition kbd_step (sh data : Z) : Z * Z :=
  if data =? 224 then (0, Z.lor sh E0ESC)
  else if negb (Z.land data 128 =? 0) then
    let data := if negb (Z.land sh E0ESC =? 0) then data else Z.land data 127 in
    (0, Z.ldiff sh (Z.lor (shiftcode !!! Z.to_nat data) E0ESC))
  else
    let esc := negb (Z.land sh E0ESC =? 0) in
    let data := if esc then Z.lor data 128 else data in
    let sh := if esc then Z.ldiff sh E0ESC else sh in
    let sh := Z.lxor (Z.lor sh (shiftcode !!! Z.to_nat data)) (togglecode !!! Z.to_nat data) in
    let c := (charcode !!! Z.to_nat (Z.land sh (Z.lor CTL SHIFT))) !!! Z.to_nat data in
    (if negb (Z.land sh CAPSLOCK =? 0) then
       if (97 <=? c) && (c <=? 122) then c + 65 - 97
       else if (65 <=? c) && (c <=? 90) then c + 97 - 65
       else c
     else c, sh).

Fixpoint kbd_chars (sh : Z) (codes : list Z) : list Z :=
  match codes with
  | [] => []
  | d :: codes' => let '(c, sh') := kbd_step sh (u8 d) in c :: kbd_chars sh' codes'
  end.

Definition kbd_src (s : console) : list Z := kbd_chars (shift (kbd s)) (scancodes (kbd s)).

(** A table of 256 bytes. *)
Definition byte_table (l : list Z) : Prop := length l = 256%nat /\ Forall byte l.

Lemma byte_tables : byte_table shiftcode /\ byte_table togglecode /\ Forall byte_table charcode.
Proof.
  assert (H : forall l, ((length l =? 256)%nat && forallb (fun c => (0 <=? c) && (c <? 256)) l) = true -> byte_table l).
  { intros l [Hn%Nat.eqb_eq Hb]%andb_true_iff. split; [done|]. rewrite forallb_forall in Hb. apply List.Forall_forall. intros c Hc%Hb.
    apply andb_true_iff in Hc as [?%Z.leb_le ?%Z.ltb_lt]. done. }
  split_and!; [apply H; vm_compute; reflexivity..|]. unfold charcode.
  repeat (apply List.Forall_cons; [apply H; vm_compute; reflexivity|]). constructor.
Qed.

Lemma table_get l d : byte_table l -> 0 <= d < 256 -> l !! Z.to_nat d = Some (l !!! Z.to_nat d) /\ byte (l !!! Z.to_nat d).
Proof.
  intros [Hl Hb] Hd. assert (E : l !! Z.to_nat d = Some (l !!! Z.to_nat d)) by (apply list_lookup_lookup_total_lt; lia).
  split; [done|]. rewrite list.Forall_forall in Hb. apply Hb. by eapply list_elem_of_lookup_2.
Qed.

Lemma charcode_get sh : charcode !! Z.to_nat (Z.land sh (Z.lor CTL SHIFT)) = Some (charcode !!! Z.to_nat (Z.land sh (Z.lor CTL SHIFT))) /\
  byte_table (charcode !!! Z.to_nat (Z.land sh (Z.lor CTL SHIFT))).
Proof.
  change (Z.lor CTL SHIFT) with (Z.ones 2). rewrite Z.land_ones by lia. pose proof (Z.mod_pos_bound sh (2 ^ 2) ltac:(lia)) as Hm.
  assert (E : charcode !! Z.to_nat (sh mod 2 ^ 2) = Some (charcode !!! Z.to_nat (sh mod 2 ^ 2)))
    by (apply list_lookup_lookup_total_lt; cbn [length charcode]; lia).
  split; [done|]. destruct byte_tables as (_ & _ & H). rewrite list.Forall_forall in H. apply H. by eapply list_elem_of_lookup_2.
Qed.

(** [kbdgetc] takes one byte and does [kbd_step]. *)
Lemma kbdgetc_step s d codes : scancodes (kbd s) = d :: codes ->
  kbdgetc s = Ret (kbd_step (shift (kbd s)) (u8 d)).1
    (with_kbd (fun _ => {| scancodes := codes; shift := (kbd_step (shift (kbd s)) (u8 d)).2 |}) s) /\
  byte (kbd_step (shift (kbd s)) (u8 d)).1.
Proof.
  intros Hs. assert (Hd : 0 <= u8 d < 256) by (apply Z.mod_pos_bound; lia).
  unfold kbdgetc, set_shift. rewrite bind_gets, Hs, bind_modify. generalize dependent (u8 d). intros x Hx. unfold kbd_step.
  destruct byte_tables as (Hsc & Htg & _). destruct (x =? 224); [by rewrite bind_modify|].
  destruct (negb (Z.land x 128 =? 0)) eqn:E.
  - set (y := if negb (Z.land (shift (kbd s)) E0ESC =? 0) then x else Z.land x 127). assert (Hy : 0 <= y < 256).
    { unfold y. clear E. destruct (negb _); [done|]. change 127 with (Z.ones 7). rewrite Z.land_ones by lia. pose proof (Z.mod_pos_bound x (2 ^ 7)). lia. }
    destruct (table_get _ _ Hsc Hy) as [Ey _]. rewrite Ey. cbn [lift]. unfold bind at 1, ret. rewrite bind_modify. done.
  - set (esc := negb (Z.land (shift (kbd s)) E0ESC =? 0)). set (y := if esc then Z.lor x 128 else x).
    assert (Hy : 0 <= y < 256).
    { unfold y. destruct esc; [|done]. split; [apply Z.lor_nonneg; lia|].
      destruct (Z.eq_dec (Z.lor x 128) 0); [lia|]. change 256 with (2 ^ 8). apply Z.log2_lt_pow2; [pose proof (proj2 (Z.lor_nonneg x 128)); lia|].
      rewrite Z.log2_lor by lia. apply Z.max_lub_lt; [|done]. destruct (Z.eq_dec x 0) as [->|]; [done|]. apply Z.log2_lt_pow2; lia. }
    destruct (table_get _ _ Hsc Hy) as [Ey _]. destruct (table_get _ _ Htg Hy) as [Ty _]. rewrite Ey, Ty. cbn [lift].
    unfold bind at 1 2, ret at 1 2. rewrite bind_modify. set (sh := Z.lxor _ _). destruct (charcode_get sh) as [Ec Hc]. rewrite Ec. cbn [lift].
    destruct (table_get _ _ Hc Hy) as [Gy By]. unfold bind at 1, ret at 1. rewrite Gy. cbn [lift]. unfold bind at 1, ret at 1.
    clear Gy. revert By. generalize ((charcode !!! Z.to_nat (Z.land sh (Z.lor CTL SHIFT))) !!! Z.to_nat y). intros c By.
    cbn [fst snd]. destruct (negb (Z.land sh CAPSLOCK =? 0)); [|done]. unfold byte in *. destruct ((97 <=? c) && (c <=? 122)) eqn:E1.
    { apply andb_true_iff in E1 as [?%Z.leb_le ?%Z.leb_le]. split; [done|lia]. }
    destruct ((65 <=? c) && (c <=? 90)) eqn:E2; [|done].
    apply andb_true_iff in E2 as [?%Z.leb_le ?%Z.leb_le]. split; [done|lia].
Qed.

#[export] Instance kbd_source : Source kbdgetc kbd_src.
Proof.
  split.
  - intros s Hs. exists s. unfold kbd_src in Hs. destruct (scancodes (kbd s)) as [|d l] eqn:E.
    + unfold kbdgetc. rewrite bind_gets, E. split_and!; try done; [unfold kbd_src; by rewrite E|by destruct s].
    + cbn [kbd_chars] in Hs. by destruct (kbd_step _ _).
  - intros s c l Hs. unfold kbd_src in Hs. destruct (scancodes (kbd s)) as [|d codes] eqn:E; [done|].
    destruct (kbdgetc_step s d codes E) as [Hg Hc]. cbn [kbd_chars] in Hs.
    destruct (kbd_step (shift (kbd s)) (u8 d)) as [x sh]. cbn [fst snd] in *. injection Hs as <- <-.
    split; [done|]. eexists. split; [exact Hg|]. by split_and!.
  - intros s s' Hk _ _. unfold kbd_src. by rewrite Hk.
Qed.
