(* ===== verification/Tty.v ===== *)
(** * Typing and reading lines

    The console from the keys to [read]: [consoleread] takes the complete
    lines of the terminal of [ConsoleIn], what is typed on the keyboard is
    what a process reads, and no process waits for a line that is there. *)

From S2P Require Import Prelude CStr Format Ptable Console ConsoleOut ConsoleIn.

(** ** [consoleread] *)

Definition or_killed (killed : bool) (p : progress) : progress :=
  match p with
  | Asleep dst n => if killed then Done (-1) dst else p
  | Done _ _ => p
  end.

Section read.
Context (iunlock ilock : M console unit) (Hu : leaves iunlock) (Hl : leaves ilock).

Lemma wp_consoleread_loop fuel s t killed target dst n : tty_ok s t -> fuel = Z.to_nat n ->
  wp (consoleread_loop ilock fuel killed target dst n) s (fun p s' =>
    p = or_killed killed (tty_take fuel target dst n (ready t)).1 /\
    tty_ok s' {| ready := (tty_take fuel target dst n (ready t)).2; line := line t |} /\
    s' = with_input (fun _ => input s') s).
Proof.
  assert (Hsame : forall s t, tty_ok s t -> tty_ok s {| ready := ready t; line := line t |} /\ s = with_input (fun _ => input s) s).
  { intros s0 t0 H. split; [by destruct t0|by destruct s0]. }
  revert s t dst n. induction fuel as [|fuel IH]; intros s t dst n Hk Hf; cbn [consoleread_loop tty_take].
  { rewrite (proj2 (Z.ltb_ge 0 n)) by lia. apply wp_bind, (wp_leaves _ _ _ Hl), wp_ret. split; [done|]. by apply Hsame. }
  rewrite (proj2 (Z.ltb_lt 0 n)) by lia. apply wp_bind, wp_gets. rewrite (rep_r_w _ _ (tk_rep _ _ Hk)).
  destruct (ready t) as [|c l] eqn:Er; cbn [length Nat.eqb].
  { destruct (Hsame s t Hk) as [Hk' He]. rewrite Er in Hk'. destruct killed; [apply wp_bind, (wp_leaves _ _ _ Hl)|]; by apply wp_ret. }
  destruct (rep_take _ _ (tk_rep _ _ Hk) c l Er) as [Hc Hr]. unfold input_at, set_r. apply wp_bind, wp_bind, wp_gets.
  eapply wp_lift; [exact Hc|]. apply wp_bind, wp_modify.
  assert (Hk1 : tty_ok (with_input (fun i => {| buf := buf i; r := u32 (r (input s) + 1); w := w i; e := e i |}) s) {| ready := l; line := line t |}).
  { split; [exact Hr|apply Hk..]. }
  destruct (c =? 4).
  - destruct (n <? target).
    + apply wp_bind, wp_modify, wp_bind, (wp_leaves _ _ _ Hl), wp_ret. split; [done|]. cbn [with_input input fst snd]. split; [|done].
      split; [|apply Hk..]. pose proof (tk_rep _ _ Hk) as Hr0. destruct s as [? [] ? ? ? ? ?], t. cbn in *. by rewrite <- Er.
    + apply wp_bind, wp_ret, wp_bind, (wp_leaves _ _ _ Hl), wp_ret. by split_and!.
  - destruct (c =? NL).
    + apply wp_bind, (wp_leaves _ _ _ Hl), wp_ret. split_and!; [|done|done]. cbn. f_equal. lia.
    + eapply wp_mono; [apply (IH _ _ (dst ++ [c]) (n - 1) Hk1); lia|]. cbn beta. cbn [ready line].
      intros p s' (-> & Hk' & Hs'). split_and!; [done|done|]. by rewrite Hs' at 1.
Qed.

(** [consoleread] gives what the terminal has: the bytes up to the end of a
    line, at most [n]; ^D ends it without being stored.  It sleeps when there
    are too few, or fails when the process has been killed. *)
Theorem consoleread_takes s t killed n : tty_ok s t ->
  wp (consoleread iunlock ilock killed n) s (fun p s' =>
    p = or_killed killed (tty_take (Z.to_nat n) n [] n (ready t)).1 /\
    tty_ok s' {| ready := (tty_take (Z.to_nat n) n [] n (ready t)).2; line := line t |} /\
    s' = with_input (fun _ => input s') s).
Proof. intros Hk. unfold consoleread. apply wp_bind, (wp_leaves _ _ _ Hu). by apply wp_consoleread_loop. Qed.
End read.

(** A complete line is taken whole. *)
Lemma tty_take_line fuel target dst n l rest : Forall (fun c => c <> NL /\ c <> 4) l -> (length l < fuel)%nat ->
  tty_take fuel target dst n (l ++ NL :: rest) = (Done (target - n + Z.of_nat (S (length l))) (dst ++ l ++ [NL]), rest).
Proof.
  revert dst n l. induction fuel as [|fuel IH]; intros dst n l Hl Hn; [lia|]. cbn [tty_take].
  destruct l as [|c l]; cbn [app].
  - done.
  - apply Forall_cons_iff in Hl as [[H1 H2] Hl]. rewrite (proj2 (Z.eqb_neq c 4)), (proj2 (Z.eqb_neq c NL)) by done.
    rewrite (IH (dst ++ [c]) (n - 1) l Hl) by (cbn in Hn; lia). rewrite <- app_assoc. cbn [length app]. do 2 f_equal. lia.
Qed.

(** ** Interrupts *)

Section intr.
Context (procdump : M console unit).
Hypothesis procdump_prints : forall s, screen_ok (scr s) -> panicked s = false ->
  wp procdump s (fun _ s' => exists cs, prints s cs s').
Context (getc : M console Z) (src : console -> list Z) `{!Source getc src}.

(** The console interrupt does the steps of the terminal for all the
    characters that wait, and wakes the reader once for each complete line.
    The process listing of ^P comes after their echo. *)
Lemma wp_consoleintr n s t : tty_ok s t -> (length (src s) < n)%nat ->
  wp (consoleintr procdump n getc) s (fun _ s' => exists listing,
    tty_ok s' (tty_chars t (src s)) /\ src s' = [] /\
    types s (echo_all t (src s) ++ listing) s' /\ wakeups s' = (wakeups s + commits_all t (src s))%nat /\
    (existsb (Z.eqb 16) (src s) = false -> listing = [])).
Proof.
  intros Hk Hn. unfold consoleintr. apply wp_bind. eapply wp_mono; [by apply (wp_consoleintr_loop getc src n s t false)|]. cbn beta.
  intros d s1 (Hk1 & Hs1 & Hty & Hw & ->). cbn [orb]. destruct (existsb _ _) eqn:Ex.
  - eapply wp_mono; [apply procdump_prints; apply Hk1|]. cbn beta. intros _ s2 (cs & Hp). exists cs.
    destruct (prints_echoes _ _ _ Hp) as (He & Hi & Hw2).
    split_and!.
    + eapply echoes_keeps; [exact He|exact Hk1|]. rewrite Hi. apply Hk1.
    + rewrite <- Hs1. destruct He as (_ & _ & ->). by apply src_echo.
    + eapply types_app; [exact Hty|by apply echoes_types].
    + congruence.
    + done.
  - apply wp_ret. exists []. rewrite app_nil_r. by split_and!.
Qed.
End intr.

(** The process listing of a table whose names are terminated. *)
Lemma put_format fmt args cs k s (Q : unit -> console -> Prop) : formatted fmt args = Some cs -> screen_ok (scr s) -> panicked s = false ->
  (forall s', prints s cs s' -> screen_ok (scr s') -> panicked s' = false -> wp k s' Q) ->
  wp (cprintf fmt args then! k) s Q.
Proof.
  intros Hf Hs Hp Hk. apply wp_bind. eapply wp_mono; [by apply cprintf_prints|]. cbn beta. intros _ s' Hpr. apply Hk; [done|apply Hpr|].
  destruct Hpr as (_ & _ & ->). done.
Qed.

Lemma dump_pcs_prints pcs s : screen_ok (scr s) -> panicked s = false -> wp (dump_pcs pcs) s (fun _ s' => exists cs, prints s cs s').
Proof.
  revert s. induction pcs as [|pc pcs IH]; intros s Hs Hp; cbn [dump_pcs]; [exists []; by apply prints_nil|].
  destruct (pc =? 0); [exists []; by apply prints_nil|].
  eapply put_format; [done|done|done|]. intros s1 H1 Hs1 Hp1. eapply wp_mono; [by apply IH|]. cbn beta. intros _ s2 (cs & H2).
  eexists. by eapply prints_app.
Qed.

Lemma procdump_prints pcs i ptable s : Forall (fun p => is_Some (strlen (p_name p))) ptable ->
  screen_ok (scr s) -> panicked s = false -> wp (procdump pcs i ptable) s (fun _ s' => exists cs, prints s cs s').
Proof.
  intros Hn. revert i s. induction Hn as [|p ptable [n Hn] _ IH]; intros i s Hs Hp; cbn [procdump]; [exists []; by apply prints_nil|].
  assert (Hrest : forall cs s', prints s cs s' -> wp (procdump pcs (S i) ptable) s' (fun _ s2 => exists cs, prints s cs s2)).
  { intros cs s' H'. eapply wp_mono; [apply IH; [apply H'|]; destruct H' as (_ & _ & ->); done|].
    cbn beta. intros _ s2 (cs2 & H2). eexists. by eapply prints_app. }
  apply wp_bind. case_decide; [by apply wp_ret, (Hrest []), prints_nil|].
  assert (Hf : exists cs, formatted (chars "%d %s %s" ++ [0]) [Word (p_pid p); Ptr (Some (states (p_state p))); Ptr (Some (p_name p))] = Some cs).
  { cbn -[number numeral]. rewrite Hn. destruct (p_state p); cbn -[number numeral]; eauto. }
  destruct Hf as [cs Hf]. eapply put_format; [exact Hf|done|done|]. intros s1 H1 Hs1 Hp1.
  assert (Hend : forall cs s', prints s cs s' -> wp (cprintf [NL; 0] []) s' (fun _ s2 => wp (procdump pcs (S i) ptable) s2 (fun _ s2 => exists cs, prints s cs s2))).
  { intros cs' s' H'. eapply wp_mono; [apply (cprintf_prints _ _ [NL]); [done|apply H'|destruct H' as (_ & _ & ->); done]|].
    cbn beta. intros _ s2 H2. eapply Hrest. by eapply prints_app. }
  apply wp_bind. case_decide; [|by apply wp_ret, (Hend cs)].
  eapply wp_mono; [by apply dump_pcs_prints|]. cbn beta. intros _ s2 (cs2 & H2). eapply Hend. by eapply prints_app.
Qed.

(** ** Typing on the keyboard *)

(** The modifiers after some bytes of the keyboard. *)
Fixpoint kbd_mods (sh : Z) (codes : list Z) : Z :=
  match codes with
  | [] => sh
  | d :: codes' => kbd_mods (kbd_step sh (u8 d)).2 codes'
  end.

Lemma kbd_chars_app sh a b : kbd_chars sh (a ++ b) = kbd_chars sh a ++ kbd_chars (kbd_mods sh a) b.
Proof.
  revert sh. induction a as [|d a IH]; intros sh; [done|]. cbn [app kbd_chars kbd_mods].
  destruct (kbd_step sh (u8 d)) as [c sh']. cbn [app snd]. by rewrite IH.
Qed.

Lemma kbd_mods_app sh a b : kbd_mods sh (a ++ b) = kbd_mods (kbd_mods sh a) b.
Proof. revert sh. induction a as [|d a IH]; intros sh; [done|]. apply IH. Qed.

(** The key with a character in a map, among those of the main part of the
    keyboard; the map gives 0 for the modifier keys. *)
Definition find_key (map : list Z) (c : Z) : option Z := head (filter (fun d => map !!! Z.to_nat d = c) (seqZ 1 87)).

(** The bytes for pressing and releasing the key of a character, with the
    left shift key or the left control key held if need be. *)
Definition keystrokes (c : Z) : option (list Z) :=
  match find_key normalmap c with
  | Some d => Some [d; d + 128]
  | None =>
      match find_key shiftmap c with
      | Some d => Some [42; d; d + 128; 170]
      | None => (fun d => [29; d; d + 128; 157]) <$> find_key ctlmap c
      end
  end.

Definition type_text (text : list Z) : option (list Z) := mjoin <$> mapM keystrokes text.

(** Every byte that a key gives: its key strokes give this character, zeros
    around it, and no modifier is held afterwards. *)
Lemma keystrokes_char c k : 0 < c < 256 -> keystrokes c = Some k -> filter (fun x => x <> 0) (kbd_chars 0 k) = [c] /\ kbd_mods 0 k = 0.
Proof.
  set (good c := match keystrokes c with
    | Some k => bool_decide (filter (fun x => x <> 0) (kbd_chars 0 k) = [c]) && (kbd_mods 0 k =? 0)
    | None => true end).
  assert (H : forallb good (seqZ 1 255) = true) by (vm_compute; reflexivity).
  intros Hc Hk. rewrite forallb_forall in H. specialize (H c). rewrite <- list_elem_of_In, elem_of_seqZ in H.
  specialize (H ltac:(lia)). unfold good in H. rewrite Hk in H. apply andb_true_iff in H as [?%bool_decide_eq_true_1 ?%Z.eqb_eq]. done.
Qed.

Lemma type_text_chars text k : Forall (fun c => 0 < c < 256) text -> type_text text = Some k ->
  filter (fun x => x <> 0) (kbd_chars 0 k) = text /\ kbd_mods 0 k = 0.
Proof.
  unfold type_text. intros Ht. revert k. induction Ht as [|c text Hc _ IH]; intros k Hk.
  - cbn in Hk. by simplify_eq.
  - cbn [mapM] in Hk. destruct (keystrokes c) as [k1|] eqn:E1; [|done]. rewrite obind_some in Hk.
    destruct (mapM keystrokes text) as [ks|] eqn:E2; [|done]. injection Hk as <-. change (mjoin (k1 :: ks)) with (k1 ++ mjoin ks).
    destruct (keystrokes_char c k1 Hc E1) as [F1 M1]. destruct (IH (mjoin ks) eq_refl) as [F2 M2].
    rewrite kbd_chars_app, kbd_mods_app, list.filter_app, F1, M1, F2, M2. done.
Qed.

(** The zeros change nothing. *)
Lemma tty_chars_filter t cs : tty_chars t (filter (fun x => x <> 0) cs) = tty_chars t cs /\
  echo_all t (filter (fun x => x <> 0) cs) = echo_all t cs.
Proof.
  revert t. induction cs as [|c cs IH]; intros t; [done|]. rewrite filter_cons. case_decide as Hc.
  - destruct (IH (tty_char t c)) as [H1 H2]. split; [exact H1|]. cbn [echo_all]. by rewrite H2.
  - rewrite Hc. destruct (IH t) as [-> ->]. done.
Qed.

Lemma no_dump_filter cs : existsb (Z.eqb 16) (filter (fun x => x <> 0) cs) = false -> existsb (Z.eqb 16) cs = false.
Proof.
  induction cs as [|c cs IH]; [done|]. rewrite filter_cons. cbn [existsb]. case_decide as Hc.
  - cbn [existsb]. intros [-> ?%IH]%orb_false_iff. done.
  - rewrite Hc. done.
Qed.

(** ** A line *)

(** The text of a line, by its keys: ^U takes it all back, a backspace the
    last character. *)
Definition edit_key (l : list Z) (c : Z) : list Z :=
  if c =? 21 then [] else if is_erase c then take (length l - 1) l else l ++ [c].

Definition edited (l keys : list Z) : list Z := fold_left edit_key keys l.

(** A key that is not the end of a line, nor the process listing. *)
Definition in_line (c : Z) : Prop := 0 < c < 256 /\ c <> NL /\ c <> 13 /\ c <> 4 /\ c <> 16.

Lemma edited_length l keys : (length (edited l keys) <= length l + length keys)%nat.
Proof.
  revert l. induction keys as [|c keys IH]; intros l; cbn [edited fold_left]; [lia|]. fold (edited (edit_key l c) keys).
  specialize (IH (edit_key l c)). cbn [length]. enough (length (edit_key l c) <= S (length l))%nat by lia.
  unfold edit_key. destruct (c =? 21); [cbn; lia|]. destruct (is_erase c); [rewrite length_take; lia|rewrite length_app; cbn; lia].
Qed.

Lemma edited_clean l keys : Forall in_line keys -> Forall (fun c => c <> NL /\ c <> 4) l ->
  Forall (fun c => c <> NL /\ c <> 4) (edited l keys).
Proof.
  intros Hk. revert l. induction Hk as [|c keys (_ & Hc & _ & Hd & _) _ IH]; intros l Hl; [done|]. apply IH. unfold edit_key.
  destruct (c =? 21); [done|]. destruct (is_erase c); [by apply Forall_take|]. apply Forall_app. by repeat constructor.
Qed.

Lemma tty_edits l keys : Forall in_line keys -> (length l + length keys <= 127)%nat ->
  tty_chars {| ready := []; line := l |} keys = {| ready := []; line := edited l keys |}.
Proof.
  intros Hk. revert l. induction Hk as [|c keys Hc _ IH]; intros l Hl; [done|]. cbn [tty_chars fold_left edited length] in *.
  assert (E : tty_char {| ready := []; line := l |} c = {| ready := []; line := edit_key l c |}).
  { destruct Hc as (Hp & Hn & Hr & Hd & Hl16). unfold tty_char, edit_key. cbn [ready line].
    rewrite (proj2 (Z.eqb_neq c 16)) by done. destruct (c =? 21); [done|]. destruct (is_erase c); [done|].
    rewrite (proj2 (Z.eqb_neq c 0)) by lia. cbn [negb andb]. unfold tty_size. cbn [ready line length].
    rewrite (proj2 (Nat.ltb_lt _ _)) by lia. unfold translate. rewrite (proj2 (Z.eqb_neq c 13)) by done.
    unfold tty_append, completes, tty_size. cbn [ready line length].
    rewrite (proj2 (Z.eqb_neq c NL)), (proj2 (Z.eqb_neq c 4)), (proj2 (Nat.eqb_neq _ 127)) by (done || lia). done. }
  rewrite E. apply IH. pose proof (edited_length l [c]) as He. cbn [edited fold_left length] in He. lia.
Qed.

Lemma tty_newline l : (length l <= 127)%nat -> tty_char {| ready := []; line := l |} NL = {| ready := l ++ [NL]; line := [] |}.
Proof.
  intros Hl. unfold tty_char, tty_append, tty_size, completes. cbn [ready line length]. change (NL =? 16) with false. change (NL =? 21) with false.
  change (is_erase NL) with false. change (NL =? 0) with false. cbn [negb andb]. rewrite (proj2 (Nat.ltb_lt _ _)) by lia. done.
Qed.

Definition idle : tty := {| ready := []; line := [] |}.

(** The state of an idle keyboard on which a text has been typed. *)
Definition typing (s : console) (text : list Z) : Prop :=
  shift (kbd s) = 0 /\ type_text text = Some (scancodes (kbd s)).

Lemma in_line_keys keys : Forall in_line keys -> Forall (fun c => 0 < c < 256) (keys ++ [NL]).
Proof.
  intros Hk. apply Forall_app. split; [|by repeat constructor]. eapply list.Forall_impl; [exact Hk|]. by intros c [? _].
Qed.

(** The keyboard interrupt for a line. *)
Lemma wp_kbdintr_line procdump s keys : tty_ok s idle -> typing s (keys ++ [NL]) -> Forall in_line keys -> (length keys <= 127)%nat ->
  wp (kbdintr procdump) s (fun _ s' => tty_ok s' {| ready := edited [] keys ++ [NL]; line := [] |} /\
    types s (echo_all idle (keys ++ [NL])) s').
Proof.
  intros Hk [Hsh Ht] Hin Hlen. destruct (type_text_chars _ _ (in_line_keys _ Hin) Ht) as [Hc _].
  rewrite <- Hsh in Hc at 1. fold (kbd_src s) in Hc.
  unfold kbdintr. apply wp_bind, wp_gets. unfold consoleintr. apply wp_bind.
  assert (Hn : forall sh l, length (kbd_chars sh l) = length l).
  { intros sh l. revert sh. induction l as [|d l IH]; intros sh; [done|]. cbn [kbd_chars]. destruct (kbd_step _ _). cbn. by rewrite IH. }
  eapply wp_mono; [apply (wp_consoleintr_loop kbdgetc kbd_src _ s idle false Hk)|].
  { unfold kbd_src. rewrite Hn. lia. }
  cbn beta. intros d s' (Hk' & _ & Hty & _ & ->). rewrite no_dump_filter.
  - apply wp_ret. destruct (tty_chars_filter idle (kbd_src s)) as [E1 E2]. rewrite Hc in E1, E2. rewrite <- E1 in Hk'. rewrite <- E2 in Hty.
    split; [|done]. unfold tty_chars in Hk'. rewrite fold_left_app in Hk'. fold (tty_chars idle keys) in Hk'. unfold idle in Hk'.
    rewrite tty_edits in Hk' by (cbn; done || lia). cbn [fold_left] in Hk'. rewrite tty_newline in Hk'; [done|].
    pose proof (edited_length [] keys). cbn in *. lia.
  - rewrite Hc, existsb_app. cbn [existsb]. change (16 =? NL) with false. rewrite !orb_false_r. clear -Hin.
    induction Hin as [|c keys (_ & _ & _ & _ & Hc) _ IH]; [done|]. cbn [existsb]. rewrite (proj2 (Z.eqb_neq 16 c)) by done. done.
Qed.

(** C29. From the keys to the process: on an idle console, the bytes that the
    keyboard sends when a line of at most 127 keys is typed, corrected with
    backspace and ^U and ended with the return key, make the next [read] of the
    console, for 128 bytes or more, return exactly the corrected line with its newline, and leave the console
    idle. *)
Theorem typed_line_is_read procdump (iunlock ilock : M console unit) s keys killed n :
  leaves iunlock -> leaves ilock -> tty_ok s idle -> typing s (keys ++ [NL]) -> Forall in_line keys -> (length keys <= 127)%nat -> 128 <= n ->
  wp (kbdintr procdump then! consoleread iunlock ilock killed n) s (fun p s' =>
    p = Done (Z.of_nat (length (edited [] keys ++ [NL]))) (edited [] keys ++ [NL]) /\ tty_ok s' idle).
Proof.
  intros Hu Hl Hk Ht Hin Hlen Hn. apply wp_bind. eapply wp_mono; [by apply wp_kbdintr_line|]. cbn beta. intros _ s1 [Hk1 _].
  pose proof (edited_length [] keys) as He. cbn [length] in He.
  eapply wp_mono; [by apply (consoleread_takes iunlock ilock Hu Hl s1 _ killed n Hk1)|]. cbn beta. cbn [ready line].
  intros p s2 (-> & Hk2 & _).
  pose proof (tty_take_line (Z.to_nat n) n [] n (edited [] keys) [] (edited_clean [] keys Hin (List.Forall_nil _)) ltac:(lia)) as E.
  rewrite E in *. split; [|done]. cbn. f_equal. rewrite length_app. cbn. lia.
Qed.

(** ** Passwords *)

Lemma term_put_off t c : c <> NL -> (length t < 24 * 80)%nat -> term_put true t c = t.
Proof.
  intros Hc Ht. unfold term_put, term_char. rewrite (proj2 (Z.eqb_neq c NL)) by done. by rewrite (proj2 (Nat.leb_gt _ _)).
Qed.

Lemma term_put_all_off t cs : Forall (fun c => c <> NL) cs -> (length t < 24 * 80)%nat -> fold_left (term_put true) cs t = t.
Proof.
  intros Hc Ht. induction Hc as [|c cs Hc _ IH]; [done|]. cbn [fold_left]. by rewrite term_put_off.
Qed.

(** Plain characters are echoed as they are. *)
Definition plain (c : Z) : Prop := in_line c /\ c <> 21 /\ is_erase c = false.

Lemma echo_plain l keys : Forall plain keys -> (length l + length keys <= 127)%nat ->
  echo_all {| ready := []; line := l |} (keys ++ [NL]) = keys ++ [NL].
Proof.
  intros Hk. revert l. induction Hk as [|c keys (Hin & Hu & He) _ IH]; intros l Hl; cbn [app echo_all length] in *.
  - rewrite app_nil_r. unfold echo. change (NL =? 16) with false. change (NL =? 21) with false. change (is_erase NL) with false.
    change (NL =? 0) with false. unfold tty_size. cbn [ready line length negb andb]. by rewrite (proj2 (Nat.ltb_lt _ _)) by lia.
  - pose proof (tty_edits l [c] (proj2 (Forall_cons_iff _ _ _) (conj Hin (List.Forall_nil _))) ltac:(cbn; lia)) as Ht. cbn [tty_chars fold_left edited] in Ht. rewrite Ht.
    unfold edit_key. rewrite (proj2 (Z.eqb_neq c 21)), He, IH by (done || (rewrite length_app; cbn; lia)).
    change (c :: keys ++ [NL]) with ([c] ++ keys ++ [NL]). f_equal.
    unfold echo. destruct Hin as (Hp & Hn & Hr & Hd & H16). rewrite (proj2 (Z.eqb_neq c 16)), (proj2 (Z.eqb_neq c 21)), He by done.
    rewrite (proj2 (Z.eqb_neq c 0)) by lia. unfold tty_size. cbn [ready line length negb andb].
    rewrite (proj2 (Nat.ltb_lt _ _)) by lia. unfold translate. by rewrite (proj2 (Z.eqb_neq c 13)).
Qed.

(** A password typed while echo is off is not shown on the screen, where only
    the newline moves the cursor, but every character of it is sent to the
    serial port. *)
Theorem password_on_serial procdump s keys : tty_ok s idle -> typing s (keys ++ [NL]) -> Forall plain keys -> (length keys <= 127)%nat ->
  echodisabled s = true -> uart (com1 s) = true ->
  wp (kbdintr procdump) s (fun _ s' => text (scr s') = term_put true (text (scr s)) NL /\
    sent (com1 s') = sent (com1 s) ++ keys ++ [NL]).
Proof.
  intros Hk Ht Hpl Hlen Hoff Hu.
  assert (Hin : Forall in_line keys) by (eapply list.Forall_impl; [exact Hpl|]; by intros c [? _]).
  eapply wp_mono; [by apply wp_kbdintr_line|]. cbn beta. intros _ s' [_ (_ & Hte & Hse & _)].
  unfold idle in Hte, Hse. rewrite echo_plain in Hte, Hse by (done || (cbn; lia)). rewrite Hoff in Hte. split.
  - rewrite Hte, fold_left_app, (term_put_all_off _ keys); [done| |].
    + eapply list.Forall_impl; [exact Hin|]. by intros c (_ & ? & _).
    + pose proof (so_settled _ (tk_scr _ _ Hk)) as Hs. rewrite (settled_length _ _ _ Hs). apply Hs.
  - rewrite Hse. unfold serial_put. cbn [sent]. rewrite Hu. f_equal. pose proof (in_line_keys _ Hin) as Hb. clear -Hb.
    induction Hb as [|c l Hc _ IH]; [done|]. cbn [flat_map]. rewrite IH. unfold serial_bytes.
    rewrite (proj2 (Z.eqb_neq c BACKSPACE)) by (unfold BACKSPACE; lia). by rewrite u8_byte by (unfold byte; lia).
Qed.

(** ** Interrupts and a reader

    The console with one process that reads it: interrupts of the keyboard and
    of the serial port, output of any process, and the calls of [read], in any
    order.  The reader sleeps with the bytes it has, the room that is left and
    the number of wake-ups it has seen, and runs again after one more. *)

(** The bytes of the ring that are complete. *)
Definition ready_bytes (i : input_buf) : list Z :=
  (fun k => buf i !!! Z.to_nat ((r i + k) mod INPUT_BUF)) <$> seqZ 0 (u32 (w i - r i)).

Lemma ready_bytes_rep i t : rep i t -> ready_bytes i = ready t.
Proof.
  intros Hr. unfold ready_bytes, INPUT_BUF. pose proof (rp_size _ _ Hr) as Hs. unfold tty_size in Hs.
  rewrite (rp_w _ _ Hr), u32_sub. replace (r i + Z.of_nat (length (ready t)) - r i) with (Z.of_nat (length (ready t))) by lia.
  rewrite u32_small by lia. apply list_eq. intros k. rewrite list_lookup_fmap. destruct (ready t !! k) as [c|] eqn:E.
  - rewrite lookup_seqZ_lt by (apply lookup_lt_Some in E; lia). cbn.
    rewrite (list_lookup_total_correct _ _ c); [done|]. apply (rp_bytes _ _ Hr). by apply lookup_app_l_Some.
  - apply lookup_ge_None in E. by rewrite lookup_seqZ_ge by lia.
Qed.

Record machine : Type := {
  con : console;
  sleeper : option (list Z * Z * Z * nat);    (* dst, n, target, wake-ups seen *)
  got : list Z;                               (* what reads have returned *)
  history : list Z                            (* the lines that were completed *)
}.

Definition type_keys (codes : list Z) : console -> console :=
  with_kbd (fun k => {| scancodes := scancodes k ++ codes; shift := shift k |}).

Definition receive (bytes : list Z) : console -> console :=
  with_com1 (fun p => {| uart := uart p; received := received p ++ bytes; sent := sent p |}).

(** After an interrupt, and after a step of the reader. *)
Definition interrupted (m : machine) (c' : console) : machine :=
  {| con := c'; sleeper := sleeper m; got := got m;
     history := history m ++ drop (length (ready_bytes (input (con m)))) (ready_bytes (input c')) |}.

Definition reader_ran (m : machine) (target : Z) (p : progress) (c' : console) : machine :=
  match p with
  | Asleep dst n => {| con := c'; sleeper := Some (dst, n, target, wakeups c'); got := got m; history := history m |}
  | Done _ dst => {| con := c'; sleeper := None; got := got m ++ dst; history := history m |}
  end.

Section machine.
Context (procdump iunlock ilock : M console unit) (Hu : leaves iunlock) (Hl : leaves ilock).
Hypothesis procdump_prints : forall s, screen_ok (scr s) -> panicked s = false ->
  wp procdump s (fun _ s' => exists cs, prints s cs s').

Inductive step : machine -> machine -> Prop :=
  | step_kbd m codes c' : kbdintr procdump (type_keys codes (con m)) = Ret tt c' -> step m (interrupted m c')
  | step_uart m bytes c' : uartintr procdump (receive bytes (con m)) = Ret tt c' -> step m (interrupted m c')
  | step_write m bytes v c' : consolewrite iunlock ilock bytes (con m) = Ret v c' -> step m (interrupted m c')
  | step_echo m v c' : sys_echoswitch (con m) = Ret v c' -> step m (interrupted m c')
  | step_read m n p c' : sleeper m = None -> consoleread iunlock ilock false n (con m) = Ret p c' -> step m (reader_ran m n p c')
  | step_wake m dst n target k p c' : sleeper m = Some (dst, n, target, k) -> (k < wakeups (con m))%nat ->
      consoleread_wakes ilock false target dst n (con m) = Ret p c' -> step m (reader_ran m target p c').

(** What the sleeping reader has so far. *)
Definition partial_read (m : machine) : list Z := match sleeper m with Some (dst, _, _, _) => dst | None => [] end.

Record machine_ok (m : machine) (t : tty) : Prop := {
  mo_tty : tty_ok (con m) t;
  mo_fifo : exists consumed, history m = consumed ++ ready t /\
    got m ++ partial_read m = filter (fun c => c <> 4) consumed;
  mo_awake dst n target k : sleeper m = Some (dst, n, target, k) ->
    (k <= wakeups (con m))%nat /\ (ready t = [] \/ (k < wakeups (con m))%nat)
}.

Lemma tty_take_used fuel target dst n l : exists used, l = used ++ (tty_take fuel target dst n l).2 /\
  match (tty_take fuel target dst n l).1 with
  | Asleep dst' n' => dst' = dst ++ filter (fun c => c <> 4) used /\ (tty_take fuel target dst n l).2 = []
  | Done v dst' => dst' = dst ++ filter (fun c => c <> 4) used
  end.
Proof.
  revert dst n l. induction fuel as [|fuel IH]; intros dst n l; cbn [tty_take].
  { exists []. split; [done|]. by rewrite app_nil_r. }
  destruct l as [|c l]; [exists []; cbn; by rewrite app_nil_r|].
  destruct (Z.eqb_spec c 4) as [->|Hc]; [|destruct (Z.eqb_spec c NL) as [->|Hn]].
  - destruct (n <? target); [exists []|exists [4]]; cbn; by rewrite app_nil_r.
  - exists [NL]. done.
  - destruct (IH (dst ++ [c]) (n - 1) l) as (used & Hl' & Hp). exists (c :: used). cbn [app]. split; [by f_equal|].
    rewrite filter_cons_True by done. destruct (tty_take _ _ _ _ _).1; rewrite <- app_assoc in Hp; done.
Qed.

Lemma tty_chars_ready t cs : exists more, ready (tty_chars t cs) = ready t ++ more /\ (commits_all t cs = 0%nat -> more = []).
Proof.
  revert t. induction cs as [|c cs IH]; intros t; [exists []; by rewrite app_nil_r|].
  destruct (IH (tty_char t c)) as (more & Hm & H0).
  assert (Hc : exists m1, ready (tty_char t c) = ready t ++ m1 /\ (commits t c = false -> m1 = [])).
  { unfold tty_char, commits. destruct (c =? 16); [exists []; by rewrite app_nil_r|]. destruct (c =? 21); [exists []; by rewrite app_nil_r|].
    destruct (is_erase c); [exists []; by rewrite app_nil_r|]. cbn [negb andb].
    destruct (negb (c =? 0) && (tty_size t <? 128)%nat); [|exists []; by rewrite app_nil_r]. cbn [andb].
    unfold tty_append. destruct (completes t (translate c)); [by eexists|exists []; by rewrite app_nil_r]. }
  destruct Hc as (m1 & Hm1 & H1). exists (m1 ++ more). change (tty_chars t (c :: cs)) with (tty_chars (tty_char t c) cs).
  rewrite Hm, Hm1, app_assoc. split; [done|]. cbn [commits_all]. destruct (commits t c); [done|]. intros Hz.
  rewrite H1, H0 by (done || lia). done.
Qed.

(** A change of the console by something else than the reader. *)
Lemma machine_interrupted m t c' t' : machine_ok m t -> tty_ok c' t' ->
  (exists more, ready t' = ready t ++ more /\ (wakeups c' = wakeups (con m) -> more = [])) -> (wakeups (con m) <= wakeups c')%nat ->
  machine_ok (interrupted m c') t'.
Proof.
  intros [Hk (consumed & Hh & Hg) Ha] Hk' (more & Hr & Hm) Hw. split; cbn [interrupted con sleeper got history].
  - done.
  - exists consumed. rewrite (ready_bytes_rep _ _ (tk_rep _ _ Hk)), (ready_bytes_rep _ _ (tk_rep _ _ Hk')), Hr, drop_app_length, Hh.
    by rewrite app_assoc.
  - intros dst n target k Hs. destruct (Ha _ _ _ _ Hs) as [Hle [He|Hlt]]; (split; [lia|]); [|right; lia].
    destruct (decide (wakeups c' = wakeups (con m))) as [E|E]; [left; by rewrite Hr, He, (Hm E)|right; lia].
Qed.

(** A run of the reader. *)
Lemma machine_reads m t dst n target c' : tty_ok (con m) t -> got m ++ partial_read m = got m ++ dst ->
  (exists consumed, history m = consumed ++ ready t /\ got m ++ partial_read m = filter (fun c => c <> 4) consumed) ->
  let q := tty_take (Z.to_nat n) target dst n (ready t) in
  tty_ok c' {| ready := q.2; line := line t |} ->
  machine_ok (reader_ran m target q.1 c') {| ready := q.2; line := line t |}.
Proof.
  intros Hk Hd (consumed & Hh & Hg) q Hk'. destruct (tty_take_used (Z.to_nat n) target dst n (ready t)) as (used & Hused & Hp).
  fold q in Hused, Hp. destruct q as [[dst' n'|v dst'] l]; cbn [fst snd] in *.
  - destruct Hp as [-> ->]. rewrite app_nil_r in Hused. split; cbn [reader_ran con sleeper got history ready].
    + done.
    + exists (consumed ++ used). rewrite app_nil_r, Hh, Hused. split; [done|]. unfold partial_read. cbn [sleeper].
      rewrite list.filter_app, <- Hg, Hd, <- app_assoc. done.
    + intros ? ? ? ? [= <- <- <- <-]. split; [lia|by left].
  - split; cbn [reader_ran con sleeper got history ready].
    + done.
    + exists (consumed ++ used). rewrite Hh, Hused at 1. rewrite app_assoc. split; [done|]. unfold partial_read. cbn [sleeper].
      rewrite app_nil_r, list.filter_app, <- Hg, Hd, Hp, <- app_assoc. done.
    + done.
Qed.

Lemma tty_ok_kbd f s t : tty_ok s t -> tty_ok (with_kbd f s) t.
Proof. intros [? ? ?]. by split. Qed.

Lemma tty_ok_com1 f s t : tty_ok s t -> tty_ok (with_com1 f s) t.
Proof. intros [? ? ?]. by split. Qed.

Lemma kbd_chars_length sh l : length (kbd_chars sh l) = length l.
Proof. revert sh. induction l as [|d l IH]; intros sh; [done|]. cbn [kbd_chars]. destruct (kbd_step _ _). cbn. by rewrite IH. Qed.

(** The handlers return, from any console in order. *)
Lemma wp_kbdintr s t : tty_ok s t -> wp (kbdintr procdump) s (fun _ s' =>
  tty_ok s' (tty_chars t (kbd_src s)) /\ wakeups s' = (wakeups s + commits_all t (kbd_src s))%nat).
Proof.
  intros Hk. unfold kbdintr. apply wp_bind, wp_gets.
  eapply wp_mono; [apply (wp_consoleintr procdump procdump_prints kbdgetc kbd_src _ s t Hk)|].
  - unfold kbd_src. rewrite kbd_chars_length. lia.
  - cbn beta. intros _ s' (_ & ? & _ & _ & ? & _). done.
Qed.

Lemma wp_uartintr s t : tty_ok s t -> wp (uartintr procdump) s (fun _ s' =>
  tty_ok s' (tty_chars t (uart_src s)) /\ wakeups s' = (wakeups s + commits_all t (uart_src s))%nat).
Proof.
  intros Hk. unfold uartintr. apply wp_bind, wp_gets.
  eapply wp_mono; [apply (wp_consoleintr procdump procdump_prints uartgetc uart_src _ s t Hk)|].
  - unfold uart_src. destruct (uart (com1 s)); [rewrite length_fmap|cbn]; lia.
  - cbn beta. intros _ s' (_ & ? & _ & _ & ? & _). done.
Qed.

Lemma wp_ret_inv {S A} (m : M S A) s (Q : A -> S -> Prop) a s' : m s = Ret a s' -> wp m s Q -> Q a s'.
Proof. unfold wp. by intros ->. Qed.

Lemma machine_step m m' t : machine_ok m t -> step m m' -> exists t', machine_ok m' t'.
Proof.
  intros Hm Hs. pose proof (mo_tty _ _ Hm) as Hk.
  assert (Hchars : forall cs c', tty_ok c' (tty_chars t cs) -> wakeups c' = (wakeups (con m) + commits_all t cs)%nat ->
    exists t', machine_ok (interrupted m c') t').
  { intros cs c' Hk' Hw. exists (tty_chars t cs). eapply machine_interrupted; [exact Hm|done| |lia].
    destruct (tty_chars_ready t cs) as (more & Hr & H0). exists more. split; [done|]. intros E. apply H0. lia. }
  destruct Hs as [m codes c' E|m bytes c' E|m bytes v c' E|m v c' E|m n p c' Hsl E|m dst n target k p c' Hsl Hlt E].
  - eapply wp_ret_inv in E; [|apply wp_kbdintr, tty_ok_kbd, Hk]. cbn beta in E. destruct E as [Hk' Hw]. eapply Hchars; [exact Hk'|exact Hw].
  - eapply wp_ret_inv in E; [|apply wp_uartintr, tty_ok_com1, Hk]. cbn beta in E. destruct E as [Hk' Hw]. eapply Hchars; [exact Hk'|exact Hw].
  - eapply wp_ret_inv in E; [|by apply (consolewrite_shows iunlock ilock _ _ Hu Hl); apply Hk]. cbn beta in E.
    destruct E as (_ & Ho & _ & E). apply (Hchars []); [|rewrite E; cbn; lia]. split; [|done|]; rewrite E; apply Hk.
  - unfold sys_echoswitch in E. rewrite bind_modify in E. injection E as _ <-. apply (Hchars []); [|cbn; lia]. split; apply Hk.
  - eapply wp_ret_inv in E; [|by apply (consoleread_takes iunlock ilock Hu Hl _ _ _ _ Hk)]. cbn beta in E.
    destruct E as (-> & Hk' & _). eexists. assert (Hq : or_killed false (tty_take (Z.to_nat n) n [] n (ready t)).1 = (tty_take (Z.to_nat n) n [] n (ready t)).1)
      by by destruct (_).1. rewrite Hq. eapply machine_reads; [done| |apply Hm|done]. unfold partial_read. by rewrite Hsl.
  - unfold consoleread_wakes in E. eapply wp_ret_inv in E; [|by apply (wp_consoleread_loop ilock Hl _ _ _ _ _ _ _ Hk)]. cbn beta in E.
    destruct E as (-> & Hk' & _). eexists. assert (Hq : or_killed false (tty_take (Z.to_nat n) target dst n (ready t)).1 = (tty_take (Z.to_nat n) target dst n (ready t)).1)
      by by destruct (_).1. rewrite Hq. eapply machine_reads; [done| |apply Hm|done]. unfold partial_read. by rewrite Hsl.
Qed.

Definition start (c : console) : machine := {| con := c; sleeper := None; got := []; history := [] |}.

Lemma machine_reachable c m : tty_ok c idle -> rtc step (start c) m -> exists t, machine_ok m t.
Proof.
  intros Hc Hr. assert (H0 : exists t, machine_ok (start c) t).
  { exists idle. split; [done|by exists []|done]. }
  revert H0. induction Hr as [m|m1 m2 m3 Hs _ IH]; [done|]. intros [t Ht]. apply IH. by eapply machine_step.
Qed.

(** Nothing that is typed is lost, repeated or reordered: at any time the
    bytes that reads have returned, and those a sleeping reader has, are the
    completed lines up to those still in the ring, without the ^D's. *)
Theorem console_fifo c m : tty_ok c idle -> rtc step (start c) m ->
  exists consumed, history m = consumed ++ ready_bytes (input (con m)) /\
    got m ++ partial_read m = filter (fun x => x <> 4) consumed.
Proof.
  intros Hc Hr. destruct (machine_reachable c m Hc Hr) as [t Ht]. rewrite (ready_bytes_rep _ _ (tk_rep _ _ (mo_tty _ _ Ht))). apply Ht.
Qed.

(** No reader sleeps beside a complete line: a sleeping reader that has not
    been woken has nothing to read.  The interrupt handlers always return. *)
Theorem console_wakes c m : tty_ok c idle -> rtc step (start c) m ->
  (forall dst n target k, sleeper m = Some (dst, n, target, k) -> (k < wakeups (con m))%nat \/ ready_bytes (input (con m)) = []) /\
  (forall codes, exists c', kbdintr procdump (type_keys codes (con m)) = Ret tt c') /\
  (forall bytes, exists c', uartintr procdump (receive bytes (con m)) = Ret tt c').
Proof.
  intros Hc Hr. destruct (machine_reachable c m Hc Hr) as [t Ht]. pose proof (mo_tty _ _ Ht) as Hk. split_and!.
  - intros dst n target k Hs. rewrite (ready_bytes_rep _ _ (tk_rep _ _ Hk)). destruct (mo_awake _ _ Ht _ _ _ _ Hs) as [_ [?|?]]; auto.
  - intros codes. pose proof (wp_kbdintr _ _ (tty_ok_kbd (fun k => {| scancodes := scancodes k ++ codes; shift := shift k |}) _ _ Hk)) as H.
    apply (proj1 (wp_iff _ _ _)) in H as ([] & c' & E & _). by exists c'.
  - intros bytes. pose proof (wp_uartintr _ _ (tty_ok_com1 (fun p => {| uart := uart p; received := received p ++ bytes; sent := sent p |}) _ _ Hk)) as H.
    apply (proj1 (wp_iff _ _ _)) in H as ([] & c' & E & _). by exists c'.
Qed.
End machine.

(** ** An idle console *)

Lemma fresh_idle : tty_ok fresh_console idle.
Proof.
  split; [|exact fresh_screen|done]. split; cbn [input fresh_console buf r w e idle ready line]; try done.
  - cbn. lia.
Qed.

Lemma fresh_typing text codes : type_text text = Some codes -> typing (type_keys codes fresh_console) text /\ tty_ok (type_keys codes fresh_console) idle.
Proof. intros Ht. split; [by split|]. apply tty_ok_kbd, fresh_idle. Qed.

(** "lx", backspace, "s". *)
Lemma typed_line_is_read_witness : exists codes, type_text ([108; 120; 8; 115] ++ [NL]) = Some codes /\
  exists s', (kbdintr (ret tt) then! consoleread (ret tt) (ret tt) false 128) (type_keys codes fresh_console) = Ret (Done 3 (chars "ls" ++ [NL])) s'.
Proof.
  destruct (type_text ([108; 120; 8; 115] ++ [NL])) as [codes|] eqn:E; [|vm_compute in E; discriminate].
  exists codes. split; [done|]. destruct (fresh_typing _ _ E) as [Ht Hk].
  pose proof (typed_line_is_read (ret tt) (ret tt) (ret tt) (type_keys codes fresh_console) [108; 120; 8; 115] false 128
    (fun _ => eq_refl) (fun _ => eq_refl) Hk Ht ltac:(repeat (apply List.Forall_cons; [repeat split; done|]); constructor)
    ltac:(cbn; lia) ltac:(lia)) as H.
  apply (proj1 (wp_iff _ _ _)) in H as (p & s' & Hr & -> & _). exists s'. exact Hr.
Defined.

Lemma password_on_serial_witness : exists codes s', type_text (chars "Secret1" ++ [NL]) = Some codes /\
  (sys_echoswitch then! kbdintr (ret tt)) (type_keys codes fresh_console) = Ret tt s' /\
  text (scr s') = replicate 80 SPACE_CELL /\ sent (com1 s') = chars "Secret1" ++ [NL].
Proof.
  destruct (type_text (chars "Secret1" ++ [NL])) as [codes|] eqn:E; [|vm_compute in E; discriminate].
  destruct (fresh_typing _ _ E) as [Ht Hk]. exists codes.
  set (s0 := {| scr := scr fresh_console; input := input fresh_console; kbd := kbd (type_keys codes fresh_console); com1 := com1 fresh_console;
               echodisabled := true; panicked := false; wakeups := 0 |}).
  assert (Hk0 : tty_ok s0 idle) by (split; apply Hk).
  pose proof (password_on_serial (ret tt) s0 (chars "Secret1") Hk0 Ht
    ltac:(repeat (apply List.Forall_cons; [repeat split; done|]); constructor) ltac:(cbn; lia) eq_refl eq_refl) as H.
  apply (proj1 (wp_iff _ _ _)) in H as ([] & s' & Hr & Htx & Hse). exists s'. split; [done|]. split; [exact Hr|].
  split; [rewrite Htx; vm_compute; reflexivity|exact Hse].
Defined.

Lemma consoleread_takes_witness : exists s', consoleread (ret tt) (ret tt) false 10 fresh_console = Ret (Asleep [] 10) s'.
Proof.
  pose proof (consoleread_takes (ret tt) (ret tt) (fun _ => eq_refl) (fun _ => eq_refl) fresh_console idle false 10 fresh_idle) as H.
  apply (proj1 (wp_iff _ _ _)) in H as (p & s' & E & -> & _). exists s'. exact E.
Defined.

(** A reader waits, "a" and return are typed, and the reader runs again. *)
Definition waiting : machine := reader_ran (start fresh_console) 10 (Asleep [] 10) fresh_console.

Definition result {A} (o : outcome console A) : console := match o with Ret _ c => c | Stop _ c => c end.

Definition typed_a : console := result (kbdintr (ret tt) (type_keys [30; 158; 28; 156] fresh_console)).

Definition read_a : console := result (consoleread_wakes (ret tt) false 10 [] 10 typed_a).

Lemma reads_a : rtc (step (ret tt) (ret tt) (ret tt)) (start fresh_console)
  (reader_ran (interrupted waiting typed_a) 10 (Done 2 [97; NL]) read_a).
Proof.
  eapply rtc_l; [by apply (step_read (ret tt) (ret tt) (ret tt) (start fresh_console) 10 (Asleep [] 10) fresh_console)|].
  eapply rtc_l; [apply (step_kbd (ret tt) (ret tt) (ret tt) waiting [30; 158; 28; 156] typed_a); vm_compute; reflexivity|].
  apply rtc_once. apply (step_wake (ret tt) (ret tt) (ret tt) (interrupted waiting typed_a) [] 10 10 0); [done|vm_compute; lia|vm_compute; reflexivity].
Qed.

Lemma nothing_prints (s : console) : screen_ok (scr s) -> panicked s = false -> wp (ret tt) s (fun _ s' => exists cs, prints s cs s').
Proof. intros Hs Hp. exists []. by apply prints_nil. Qed.

Lemma console_fifo_witness : exists m consumed, (got m = [97; NL]) /\ history m = consumed ++ ready_bytes (input (con m)) /\
  got m ++ partial_read m = filter (fun x => x <> 4) consumed.
Proof.
  destruct (console_fifo (ret tt) (ret tt) (ret tt) (fun _ => eq_refl) (fun _ => eq_refl) nothing_prints fresh_console _ fresh_idle reads_a) as (consumed & H1 & H2).
  exists (reader_ran (interrupted waiting typed_a) 10 (Done 2 [97; NL]) read_a), consumed. split; [reflexivity|]. split; [exact H1|exact H2].
Defined.

Lemma waiting_reachable : rtc (step (ret tt) (ret tt) (ret tt)) (start fresh_console) waiting.
Proof. apply rtc_once. by apply (step_read (ret tt) (ret tt) (ret tt) (start fresh_console) 10 (Asleep [] 10) fresh_console). Qed.

Lemma console_wakes_witness : exists c', kbdintr (ret tt) (type_keys [30; 158] (con waiting)) = Ret tt c'.
Proof.
  exact (proj1 (proj2 (console_wakes (ret tt) (ret tt) (ret tt) (fun _ => eq_refl) (fun _ => eq_refl) nothing_prints
    fresh_console _ fresh_idle waiting_reachable)) [30; 158]).
Defined.
