(* ===== verification/Printf.v ===== *)
(** * Formatted output of user programs

    [user/printf.c]: [printf] and [fprintf] write one character at a time.
    The output is the format with each conversion replaced by its argument,
    and [atoi] reads back the numbers. *)

From S2P Require Import Prelude CStr USys Format.

Definition digits : list Z := chars "0123456789ABCDEF".

Section printf.
Context {W : Type} `{Syscalls W}.

Definition putc (fd c : Z) : M W unit := u_write fd [u8 c] then! ret tt.

(** [buf] is written before it is read. *)
Definition printint (fd xx base : Z) (sgn : bool) : M W unit :=
  let neg := sgn && (xx <? 0) in
  let x := if neg then u32 (- xx) else u32 xx in
  let! '(buf, i) := lift (digit_loop 32 digits x base (replicate 16 0) 0) in
  let! bi := (if neg then let! buf := lift (store buf i MINUS) in ret (buf, S i) else ret (buf, i)) in
  put_back (putc fd) bi.1 bi.2.

(** [state] is 0, or the percent sign after one has been read. *)
Fixpoint vprintf (fd : Z) (fmt : list Z) (ap : list arg) (state : Z) : M W unit :=
  match fmt with
  | [] => halt Undefined
  | c :: fmt' =>
      if c =? 0 then ret tt
      else if state =? 0 then
        if c =? 37 then vprintf fd fmt' ap 37
        else putc fd c then! vprintf fd fmt' ap state
      else if state =? 37 then
        if c =? 100 then
          let! a := lift (word_arg ap) in
          printint fd (s32 a.1) 10 true then! vprintf fd fmt' a.2 0
        else if (c =? 120) || (c =? 112) then
          let! a := lift (word_arg ap) in
          printint fd (s32 a.1) 16 false then! vprintf fd fmt' a.2 0
        else if c =? 115 then
          let! a := lift (str_arg ap) in
          put_str (putc fd) a.1 then! vprintf fd fmt' a.2 0
        else if c =? 99 then
          let! a := lift (word_arg ap) in
          putc fd a.1 then! vprintf fd fmt' a.2 0
        else if c =? 37 then putc fd c then! vprintf fd fmt' ap 0
        else putc fd 37 then! putc fd c then! vprintf fd fmt' ap 0
      else vprintf fd fmt' ap state
  end.

Definition fprintf (fd : Z) (fmt : list Z) (args : list arg) : M W unit := vprintf fd fmt args 0.

Definition printf (fmt : list Z) (args : list arg) : M W unit := vprintf 1 fmt args 0.
End printf.

(** ** What is printed *)

Definition number (xx base : Z) (sgn : bool) : list Z :=
  if sgn && (xx <? 0) then MINUS :: glyphs digits (numeral base (- xx)) else glyphs digits (numeral base (u32 xx)).

(** The text of a format; [esc] is whether a percent sign has just been
    read. *)
Fixpoint expand (fmt : list Z) (args : list arg) (esc : bool) : option (list Z) :=
  match fmt with
  | [] => None
  | c :: fmt' =>
      if c =? 0 then Some []
      else if negb esc then
        if c =? 37 then expand fmt' args true else ([c] ++.) <$> expand fmt' args false
      else if c =? 100 then a ← word_arg args; (number (s32 a.1) 10 true ++.) <$> expand fmt' a.2 false
      else if (c =? 120) || (c =? 112) then a ← word_arg args; (number (s32 a.1) 16 false ++.) <$> expand fmt' a.2 false
      else if c =? 115 then a ← str_arg args; n ← strlen a.1; (take n a.1 ++.) <$> expand fmt' a.2 false
      else if c =? 99 then a ← word_arg args; ([a.1] ++.) <$> expand fmt' a.2 false
      else if c =? 37 then ([37] ++.) <$> expand fmt' args false
      else ([37; c] ++.) <$> expand fmt' args false
  end.

Section proofs.
Context {W : Type} `{Syscalls W}.

Lemma printint_puts fd xx base sgn (s : W) : base = 10 \/ base = 16 -> - 2 ^ 31 <= xx < 2 ^ 31 ->
  printint fd xx base sgn s = put_all (putc fd) (number xx base sgn) s.
Proof.
  intros Hb Hx. unfold printint, number.
  assert (Hr : forall x, 0 <= x < 2 ^ 32 -> 0 <= x < base ^ Z.of_nat 15) by (intros x Hr; destruct Hb as [-> | ->]; lia).
  assert (Hd : (Z.to_nat base <= length digits)%nat) by (destruct Hb as [-> | ->]; vm_compute; lia).
  destruct (sgn && (xx <? 0)) eqn:E.
  - apply andb_true_iff in E as [_ E%Z.ltb_lt]. rewrite u32_small by lia.
    rewrite (print_digits (putc fd) digits base (- xx) true 14 s); [done|lia|done|apply Hr; lia|lia|lia].
  - pose proof (u32_bounds xx).
    rewrite (print_digits (putc fd) digits base (u32 xx) false 14 s); [done|lia|done|apply Hr; lia|lia|lia].
Qed.

Lemma vprintf_puts fd fmt args esc cs (s : W) : expand fmt args esc = Some cs ->
  vprintf fd fmt args (if esc : bool then 37 else 0) s = put_all (putc fd) cs s.
Proof.
  revert args esc cs s. induction fmt as [|c fmt IH]; intros args esc cs s He; [done|]. cbn [expand vprintf] in *.
  destruct (c =? 0); [by simplify_eq|].
  assert (IH0 : forall args cs s, expand fmt args false = Some cs -> vprintf fd fmt args 0 s = put_all (putc fd) cs s) by (intros; by apply (IH _ false)).
  destruct esc; cbn [negb] in He; cycle 1.
  { change (0 =? 0) with true. cbv iota. destruct (c =? 37); [by apply (IH args true)|]. eapply (put_then (putc fd) _ _ [c]); [apply put_one|by apply IH0|exact He]. }
  change (37 =? 0) with false. change (37 =? 37) with true. cbv iota.
  destruct (c =? 100); [|destruct ((c =? 120) || (c =? 112)); [|destruct (c =? 115); [|destruct (c =? 99); [|destruct (Z.eqb_spec c 37) as [->|]]]]].
  - destruct (word_arg args) as [[x args']|]; [|done]. cbn [mbind option_bind fst snd] in He.
    eapply (put_then (putc fd)); [|by apply IH0|exact He]. intros. apply printint_puts; [by left|apply s32_bounds].
  - destruct (word_arg args) as [[x args']|]; [|done]. cbn [mbind option_bind fst snd] in He.
    eapply (put_then (putc fd)); [|by apply IH0|exact He]. intros. apply printint_puts; [by right|apply s32_bounds].
  - destruct (str_arg args) as [[str args']|]; [|done]. cbn [mbind option_bind fst snd] in He.
    destruct (strlen str) as [k|] eqn:Ek; [|done]. cbn [mbind option_bind] in He.
    eapply (put_then (putc fd)); [|by apply IH0|exact He]. intros. by apply put_str_all.
  - destruct (word_arg args) as [[x args']|]; [|done]. cbn [mbind option_bind fst snd] in He.
    eapply (put_then (putc fd) _ _ [x]); [apply put_one|by apply IH0|exact He].
  - eapply (put_then (putc fd) _ _ [37]); [apply put_one|by apply IH0|exact He].
  - rewrite (put_two (putc fd) 37 c). eapply (put_then (putc fd) _ _ [37; c]); [|by apply IH0|exact He]. intros s'. cbn [put_all].
    unfold bind at 1 2. destruct (putc fd 37 s') as [? s1|]; [|done]. apply put_one.
Qed.

(** [printf] writes to descriptor 1, one character per [write], its format
    with each conversion replaced by its argument. *)
Theorem printf_writes fmt args cs (s : W) : expand fmt args false = Some cs -> printf fmt args s = put_all (putc 1) cs s.
Proof. apply vprintf_puts. Qed.
End proofs.

(** ** Reading the numbers back *)

Lemma glyph_digit d : digit d -> digits !!! Z.to_nat d = d + 48.
Proof.
  unfold digit. intros Hd. assert (d = 0 \/ d = 1 \/ d = 2 \/ d = 3 \/ d = 4 \/ d = 5 \/ d = 6 \/ d = 7 \/ d = 8 \/ d = 9) by lia.
  destruct_or?; subst d; reflexivity.
Qed.

Lemma glyphs_ascii ds : Forall digit ds -> glyphs digits ds = ascii_digits ds.
Proof.
  induction 1 as [|d ds Hd _ IH]; [done|]. change (glyphs digits (d :: ds)) with (digits !!! Z.to_nat d :: glyphs digits ds).
  by rewrite (glyph_digit d Hd), IH.
Qed.

Lemma value_decimal ds : value 10 ds = decimal 0 ds.
Proof.
  unfold value, decimal. generalize 0 as a. induction ds as [|d ds IH]; intros a; [done|]. cbn [fold_left]. by rewrite IH, (Z.mul_comm 10).
Qed.

(** C33. [atoi] reads back what [fprintf] with [%d] writes, for every number that
    is not negative: on any system and any descriptor the call does the same as
    [write] of certain bytes, one after the other, and [atoi] of those bytes is
    the number. *)
Theorem atoi_fprintf {W : Type} `{Syscalls W} fd n rest : 0 <= n < 2 ^ 31 ->
  exists cs, (forall s : W, fprintf fd (chars "%d" ++ [0]) [Word n] s = put_all (fun c => u_write fd [c] then! ret tt) cs s) /\
    atoi (cs ++ 0 :: rest) = Some n.
Proof.
  intros Hn. assert (Hx : expand (chars "%d" ++ [0]) [Word n] false = Some (number n 10 true)) by (cbn -[number]; by rewrite s32_small, app_nil_r by lia).
  assert (Hnum : number n 10 true = ascii_digits (numeral 10 n)).
  { unfold number. rewrite (proj2 (Z.ltb_ge n 0)), andb_false_r, u32_small by lia. apply glyphs_ascii, numeral_range. lia. }
  pose proof (numeral_range 10 ltac:(lia) n) as Hr. exists (number n 10 true). split.
  - intros s. unfold fprintf. rewrite (vprintf_puts fd _ _ false _ s Hx), Hnum. apply put_all_ext. unfold ascii_digits.
    apply list.Forall_fmap. eapply list.Forall_impl; [exact Hr|]. intros d Hd. unfold putc. cbn. unfold u8. unfold digit in Hd. by rewrite Z.mod_small by lia.
  - pose proof (numeral_value 10 ltac:(lia) n ltac:(lia)) as Hv. rewrite value_decimal in Hv. rewrite Hnum, atoi_digits; [by rewrite Hv| |exact Hr|lia|lia].
    intros E. unfold numeral in E. apply (f_equal length) in E. rewrite length_rev in E. cbn in E. lia.
Qed.

Lemma atoi_fprintf_witness : exists cs, (forall s : toy, fprintf 1 (chars "%d" ++ [0]) [Word 1000] s = put_all (fun c => u_write 1 [c] then! ret tt) cs s) /\
  atoi (cs ++ 0 :: []) = Some 1000.
Proof. exact (atoi_fprintf 1 1000 [] ltac:(lia)). Defined.

Lemma printf_writes_witness : exists w, printf (chars "uid=%d %s" ++ [NL; 0]) [Word 1; Ptr None]
  {| toy_files := {[chars "/dev/console" := []]}; toy_fds := [None; Some (chars "/dev/console", O)]; toy_out := [] |} = Ret tt w /\
  toy_files w !! chars "/dev/console" = Some (chars "uid=1 (null)" ++ [NL]).
Proof.
  rewrite (printf_writes _ _ (chars "uid=1 (null)" ++ [NL])) by (vm_compute; reflexivity).
  eexists. split; [vm_compute; reflexivity|]. vm_compute. reflexivity.
Defined.
