(* ===== verification/Mkfs.v ===== *)
(** * The file-system image builder ([tools/mkfs.c])

    [mkfs] writes the disk image from which the kernel starts: the super
    block, the directories /, /dev, /bin, /home, /home/root and /etc, the files
    given on its command line, and the free bit map.

    The image is the list of its blocks.  The host's files are the arguments
    of [main]: the name on the command line and the contents, [None] when
    [open] fails.  [assert] that fails and [exit(1)] stop the program.  The
    structures are stored least significant byte first, which is what
    [xshort] and [xint] are for. *)

From S2P Require Import Prelude CStr Mem BufIface Lock Txn Fs.

Definition NINODES : Z := 200.
Definition LOGSIZE : Z := 30.
Definition nbitmap : Z := FSSIZE / (Z.of_nat BSIZE * 8) + 1.
Definition ninodeblocks : Z := NINODES / IPB + 1.
Definition nlog : Z := LOGSIZE.
Definition nmeta : Z := 2 + nlog + ninodeblocks + nbitmap.
Definition nblocks : Z := FSSIZE - nmeta.

(** The super block, as [main] fills it in. *)
Definition mkfs_sb : superblock :=
  {| sb_size := FSSIZE; sb_nblocks := nblocks; sb_ninodes := NINODES; sb_nlog := nlog; sb_logstart := 2;
     sb_inodestart := 2 + nlog; sb_bmapstart := 2 + nlog + ninodeblocks |}.

Record mk : Type := { img : list block; freeinode : Z; freeblock : Z }.

Definition zeroes : block := replicate BSIZE 0.

Definition take_inode : M mk Z := fun s =>
  Ret (freeinode s) {| img := img s; freeinode := u32 (freeinode s + 1); freeblock := freeblock s |}.

Definition take_block : M mk Z := fun s =>
  Ret (freeblock s) {| img := img s; freeinode := freeinode s; freeblock := u32 (freeblock s + 1) |}.

(** [write] beyond the end of the image makes it longer. *)
Definition wsect (sec : Z) (buf : block) : M mk unit :=
  let k := at_ (u32 (sec * Z.of_nat BSIZE) / Z.of_nat BSIZE) in
  modify (fun s =>
    {| img := if decide (k < length (img s))%nat then <[k := buf]> (img s)
              else img s ++ replicate (k - length (img s)) zeroes ++ [buf];
       freeinode := freeinode s; freeblock := freeblock s |}).

(** [read] beyond the end of the image fails. *)
Definition rsect (sec : Z) : M mk block :=
  let! m := gets img in
  match m !! at_ (u32 (sec * Z.of_nat BSIZE) / Z.of_nat BSIZE) with
  | Some d => ret d
  | None => halt Exited
  end.

(** The 128 bytes of an inode; those after the fields are zero. *)
Definition dinode_bytes (di : dinode) : option block := put_dinode di (replicate 128 0) 0.

Definition winode (inum : Z) (ip : dinode) : M mk unit :=
  let bn := IBLOCK inum mkfs_sb in
  let! buf := rsect bn in
  let! b := lift (dinode_bytes ip) in
  wsect bn (splice buf (ioff inum) b).

Definition rinode (inum : Z) : M mk dinode :=
  let bn := IBLOCK inum mkfs_sb in
  let! buf := rsect bn in
  lift (dinode_at buf (ioff inum)).

Definition ialloc (type mode : Z) : M mk Z :=
  let! inum := take_inode in
  winode inum {| di_type := type; di_major := 0; di_minor := 0; di_nlink := 1; di_size := 0;
                 di_addrs := replicate (S NDIRECT) 0; di_mode := mode; di_uid := 0; di_gid := 0 |} then!
  ret inum.

(** [for(i = 0; i < used; i++) buf[i/8] = buf[i/8] | (0x1 << (i%8))]. *)
Fixpoint bitmap (used : nat) : option block :=
  match used with
  | O => Some zeroes
  | S i =>
      buf ← bitmap i;
      x ← buf !! (i / 8)%nat;
      store buf (i / 8) (u8 (Z.lor x (Z.shiftl 1 (Z.of_nat i mod 8))))
  end.

Definition balloc (used : Z) : M mk unit :=
  if used <? Z.of_nat BSIZE * 8 then
    let! buf := lift (bitmap (at_ used)) in
    wsect (sb_bmapstart mkfs_sb) buf
  else halt (Panicked "assert").

(** Entry [j] of the addresses of an inode, allocated if it is 0. *)
Definition addr_slot (din : dinode) (j : nat) : M mk (dinode * Z) :=
  let! a := lift (di_addrs din !! j) in
  if a =? 0 then
    let! b := take_block in
    ret (di_with_addrs (<[j := b]> (di_addrs din)) din, b)
  else ret (din, a).

(** The block of the image for block [fbn] of a file, allocated if there is
    none. *)
Definition file_block (din : dinode) (fbn : Z) : M mk (dinode * Z) :=
  if fbn <? Z.of_nat NDIRECT then addr_slot din (at_ fbn)
  else
    let! p := addr_slot din NDIRECT in
    let! indirect := rsect p.2 in
    let! e := lift (load 4 indirect (4 * at_ (fbn - Z.of_nat NDIRECT))) in
    if e =? 0 then
      let! b := take_block in
      let! indirect := lift (put 4 indirect (4 * at_ (fbn - Z.of_nat NDIRECT)) b) in
      wsect p.2 indirect then!
      let! x := lift (load 4 indirect (4 * at_ (fbn - Z.of_nat NDIRECT))) in
      ret (p.1, x)
    else ret (p.1, e).

(** The loop of [iappend], with the bytes [p] left; each round takes at least
    one. *)
Fixpoint iappend_loop (fuel : nat) (din : dinode) (off : Z) (p : list Z) : M mk (dinode * Z) :=
  match fuel with
  | O => halt Undefined
  | S fuel' =>
      if 0 <? Z.of_nat (length p) then
        let fbn := off / Z.of_nat BSIZE in
        if fbn <? MAXFILE then
          let! r := file_block din fbn in
          let n1 := Z.min (Z.of_nat (length p)) ((fbn + 1) * Z.of_nat BSIZE - off) in
          let! buf := rsect r.2 in
          wsect r.2 (splice buf (at_ (off - fbn * Z.of_nat BSIZE)) (take (at_ n1) p)) then!
          iappend_loop fuel' r.1 (off + n1) (drop (at_ n1) p)
        else halt (Panicked "assert")
      else ret (din, off)
  end.

Definition iappend (inum : Z) (p : list Z) : M mk unit :=
  let! din := rinode inum in
  let! r := iappend_loop (S (length p)) din (di_size din) p in
  winode inum (di_with_size r.2 r.1).

(** [bzero(&de, sizeof(de)); de.inum = ...; strcpy(de.name, name);
    iappend(dir, &de, sizeof(de))]. *)
Definition add_entry (dir inum : Z) (name : string) : M mk unit :=
  let! nm := lift (strcpy (replicate DIRSIZ 0) 0 (chars name ++ [0])) in
  iappend dir (le_bytes 2 inum ++ nm).

Definition DEFAULT_MODE : Z := 511.

(** A directory with its entries "." and "..". *)
Definition new_dir (parent : Z) (name : string) : M mk Z :=
  let! ino := ialloc T_DIR DEFAULT_MODE in
  add_entry ino ino "." then!
  add_entry ino parent ".." then!
  add_entry parent ino name then!
  ret ino.

(** The inode numbers of /bin, /home/root and /etc. *)
Record dirs : Type := { binino : Z; superuserino : Z; etcino : Z }.

Definition makedirs : M mk dirs :=
  let! rootino := ialloc T_DIR DEFAULT_MODE in
  if negb (rootino =? ROOTINO) then halt (Panicked "assert")
  else
    add_entry rootino rootino "." then!
    add_entry rootino rootino ".." then!
    let! devino := new_dir rootino "dev" in
    let! binino := new_dir rootino "bin" in
    let! homeino := new_dir rootino "home" in
    let! superuserino := new_dir homeino "root" in
    let! etcino := new_dir rootino "etc" in
    ret {| binino := binino; superuserino := superuserino; etcino := etcino |}.

(** [strncmp(s, prefix, n) == 0] for a prefix of [n] characters; [s] is
    terminated. *)
Definition has_prefix (s : list Z) (prefix : string) : option bool :=
  c ← strncmp s (chars prefix ++ [0]) (String.length prefix);
  Some (c =? 0).

(** Where an argument goes: the directory, the name and the mode. *)
Definition place (d : dirs) (arg : list Z) : option (Z * list Z * Z) :=
  u ← has_prefix arg "user/";
  let shortname := if u : bool then drop 5 arg else arg in
  if bool_decide (shortname !! 0%nat = Some 95) then Some (binino d, drop 1 shortname, DEFAULT_MODE)
  else
    p ← has_prefix arg "passwd"; g ← has_prefix arg "group";
    m ← has_prefix arg "motd"; i ← has_prefix arg "issue";
    if p || g || m || i then Some (etcino d, shortname, 420) else Some (superuserino d, shortname, DEFAULT_MODE).

(** [index(shortname, '/') == 0]. *)
Definition no_slash (arg : list Z) : option bool :=
  u ← has_prefix arg "user/";
  r ← strchr (if u : bool then drop 5 arg else arg) SLASH;
  Some (bool_decide (r = None)).

(** [while((cc = read(fd, buf, sizeof(buf))) > 0) iappend(inum, buf, cc)]. *)
Fixpoint copy_file (fuel : nat) (inum : Z) (data : list Z) : M mk unit :=
  match fuel with
  | O => halt Undefined
  | S fuel' =>
      if (0 <? length data)%nat then
        iappend inum (take BSIZE data) then!
        copy_file fuel' inum (drop BSIZE data)
      else ret tt
  end.

(** One argument: the terminated name and the contents. *)
Definition add_file (d : dirs) (arg : list Z * option (list Z)) : M mk unit :=
  let! ok := lift (no_slash arg.1) in
  if negb ok then halt (Panicked "assert")
  else
    match arg.2 with
    | None => halt Exited
    | Some data =>
        let! pl := lift (place d arg.1) in
        let '(dirino, shortname, mode) := pl in
        let! inum := ialloc T_FILE mode in
        let! nm := lift (strncpy (replicate DIRSIZ 0) 0 shortname DIRSIZ) in
        iappend dirino (le_bytes 2 inum ++ nm) then!
        copy_file (S (length data)) inum data
    end.

Fixpoint add_files (d : dirs) (args : list (list Z * option (list Z))) : M mk unit :=
  match args with
  | [] => ret tt
  | a :: args' => add_file d a then! add_files d args'
  end.

(** [for(i = 0; i < FSSIZE; i++) wsect(i, zeroes)]. *)
Fixpoint clear_image (n : nat) (i : Z) : M mk unit :=
  match n with
  | O => ret tt
  | S n' => wsect i zeroes then! clear_image n' (i + 1)
  end.

Definition sb_words (q : superblock) : list Z :=
  [sb_size q; sb_nblocks q; sb_ninodes q; sb_nlog q; sb_logstart q; sb_inodestart q; sb_bmapstart q].

(** [args] are the arguments after the name of the image, which is new. *)
Definition mkfs (args : list (list Z * option (list Z))) : M mk unit :=
  clear_image (at_ FSSIZE) 0 then!
  let! buf := lift (put_words (sb_words mkfs_sb) zeroes 0) in
  wsect 1 buf then!
  let! d := makedirs in
  add_files d args then!
  let! fb := gets freeblock in
  balloc fb.

Definition new_image : mk := {| img := []; freeinode := 1; freeblock := nmeta |}.
