(* ===== verification/MkfsBuild.v ===== *)
(** * Building the image

    What [ialloc] and [iappend] of [Mkfs] do to the image.  The free bit map is
    written last, so the proofs look at the image as if it were there already:
    [view] has the map of the blocks taken so far.  In this view the blocks
    that [mkfs] takes are allocated as [balloc] of the kernel would, and the
    lemmas about files of [FsData] apply. *)

From S2P Require Import Prelude CStr Mem BufIface Lock Txn Fs FsAlloc FsInode FsData FsDir FsPath Mkfs.

Abbreviation q := mkfs_sb.

(** The log is not used: any block from the inodes on. *)
Definition geo : tgeo := {| tg_lo := 32; tg_cap := 0; tg_ops := 0 |}.

Lemma mkfs_geo : fs_geo geo q (at_ FSSIZE).
Proof. split; vm_compute; try split; congruence. Qed.

(** ** The bit map *)

Definition map_block (n : nat) : block := default zeroes (bitmap n).

Lemma bitmap_step n d : bitmap n = Some d -> length d = BSIZE -> (n < 4096)%nat ->
  bitmap (S n) = Some (set_bit d (Z.of_nat n) true).
Proof.
  intros E Hl Hn. cbn [bitmap]. rewrite E, obind_some.
  assert (Hlt : (n / 8 < BSIZE)%nat) by (apply Nat.Div0.div_lt_upper_bound; unfold BSIZE; lia).
  destruct (lookup_lt_is_Some_2 d (n / 8)) as [x Hx]; [lia|]. rewrite Hx, obind_some, store_in by lia.
  unfold set_bit. replace (at_ (Z.of_nat n / 8)) with (n / 8)%nat by (change 8 with (Z.of_nat 8); rewrite <- Nat2Z.inj_div; lia).
  by rewrite Hx, Z.shiftl_1_l.
Qed.

Lemma bitmap_ok n : (n <= 4096)%nat -> bitmap n = Some (map_block n) /\ length (map_block n) = BSIZE.
Proof.
  unfold map_block. induction n as [|n IH]; intros Hn; [done|]. destruct IH as [E Hl]; [lia|].
  destruct (bitmap n) as [d|] eqn:Ed; [|done]. rewrite (bitmap_step n d Ed Hl) by lia. split; [done|].
  change (length (set_bit d (Z.of_nat n) true) = BSIZE). by rewrite set_bit_length.
Qed.

Lemma map_block_S n : (n < 4096)%nat -> map_block (S n) = set_bit (map_block n) (Z.of_nat n) true.
Proof.
  intros Hn. destruct (bitmap_ok n) as [E Hl]; [lia|]. unfold map_block at 1. by rewrite (bitmap_step n _ E Hl Hn).
Qed.

Lemma map_bit n b : (n <= 4096)%nat -> 0 <= b < 4096 -> bit_of (map_block n) b = (b <? Z.of_nat n).
Proof.
  induction n as [|n IH]; intros Hn Hb.
  - rewrite (proj2 (Z.ltb_ge b (Z.of_nat 0))) by lia. unfold bit_of. change (map_block 0) with zeroes.
    destruct (zeroes !! at_ (b / 8)) as [x|] eqn:E; [|done]. apply lookup_replicate in E as [-> _]. apply Z.testbit_0_l.
  - rewrite map_block_S, bit_of_set by (unfold BPB; try apply bitmap_ok; lia). case_decide as E.
    + subst b. by rewrite (proj2 (Z.ltb_lt _ _)) by lia.
    + rewrite IH by lia. destruct (Z.ltb_spec b (Z.of_nat n)), (Z.ltb_spec b (Z.of_nat (S n))); lia.
Qed.

(** ** The view of the image *)

Definition MAPBLOCK : nat := 83.

Definition view (s : mk) : list block := <[MAPBLOCK := map_block (at_ (freeblock s))]> (img s).

Record ready (s : mk) : Prop := {
  rd_len : length (img s) = at_ FSSIZE;
  rd_wf : blocks_wf (img s);
  rd_free : nmeta <= freeblock s <= FSSIZE;
  rd_zero n : freeblock s <= n < FSSIZE -> img s !! at_ n = Some zeroes
}.

Lemma view_length s : ready s -> length (view s) = at_ FSSIZE.
Proof. intros R. unfold view. rewrite length_insert. apply R. Qed.

Lemma view_geo s : ready s -> fs_geo geo q (length (view s)).
Proof. intros R. rewrite view_length by done. apply mkfs_geo. Qed.

Lemma view_other s n : 0 <= n -> n <> Z.of_nat MAPBLOCK -> view s !! at_ n = img s !! at_ n.
Proof. intros H1 H2. unfold view. apply list_lookup_insert_ne. unfold MAPBLOCK in *. lia. Qed.

Lemma view_map s : ready s -> view s !! MAPBLOCK = Some (map_block (at_ (freeblock s))).
Proof. intros R. apply list_lookup_insert_eq. rewrite (rd_len _ R). unfold MAPBLOCK, FSSIZE. lia. Qed.

Lemma view_wf s : ready s -> blocks_wf (view s).
Proof.
  intros R. unfold view, blocks_wf. apply Forall_insert; [apply R|].
  pose proof (rd_free _ R). apply bitmap_ok. unfold FSSIZE in *. lia.
Qed.

Lemma bblock_map b : 0 <= b < FSSIZE -> at_ (BBLOCK b q) = MAPBLOCK.
Proof. intros Hb. rewrite (bblock_one geo q (at_ FSSIZE) b mkfs_geo); [done|done|done]. Qed.

Lemma view_used s b : ready s -> 0 <= b < FSSIZE -> used (view s) q b = (b <? freeblock s).
Proof.
  intros R Hb. unfold used. rewrite bblock_map, view_map by done. pose proof (rd_free _ R) as Hf.
  assert (0 <= nmeta) by done. unfold FSSIZE in *. rewrite Z.mod_small by (unfold BPB; lia). rewrite map_bit by lia. by rewrite Z2Nat.id by lia.
Qed.

Lemma data_start_q : data_start q = nmeta.
Proof. reflexivity. Qed.

Lemma view_meta s : ready s -> meta_used (view s) q.
Proof.
  intros R b Hb. rewrite data_start_q in Hb. pose proof (rd_free _ R). rewrite view_used by (done || lia). apply Z.ltb_lt. lia.
Qed.

(** ** Sectors *)

Lemma sector n : 0 <= n < FSSIZE -> at_ (u32 (n * Z.of_nat BSIZE) / Z.of_nat BSIZE) = at_ n.
Proof.
  intros Hn. unfold FSSIZE, BSIZE in *. rewrite u32_small by lia. by rewrite Z.div_mul.
Qed.

Lemma wp_rsect s n d (Q : block -> mk -> Prop) : ready s -> 0 <= n < FSSIZE -> img s !! at_ n = Some d -> Q d s -> wp (rsect n) s Q.
Proof. intros R Hn Hd HQ. unfold rsect. apply wp_bind, wp_gets. rewrite sector, Hd by done. by apply wp_ret. Qed.

Definition with_img (s : mk) (m : list block) : mk := {| img := m; freeinode := freeinode s; freeblock := freeblock s |}.

Lemma wp_wsect s n d (Q : unit -> mk -> Prop) : ready s -> 0 <= n < freeblock s -> n <> Z.of_nat MAPBLOCK -> length d = BSIZE ->
  (ready (with_img s (<[at_ n := d]> (img s))) -> view (with_img s (<[at_ n := d]> (img s))) = <[at_ n := d]> (view s) ->
   Q tt (with_img s (<[at_ n := d]> (img s)))) ->
  wp (wsect n d) s Q.
Proof.
  intros R Hn Hm Hd HQ. pose proof (rd_free _ R) as Hf. unfold wsect. apply wp_modify. rewrite sector by lia.
  rewrite decide_True by (rewrite (rd_len _ R); lia). apply HQ.
  - split; cbn [with_img img freeblock].
    + rewrite length_insert. apply R.
    + apply Forall_insert; [apply R|done].
    + done.
    + intros k Hk. rewrite list_lookup_insert_ne by lia. by apply R.
  - unfold view. cbn [with_img img freeblock]. apply list_insert_insert_ne. unfold MAPBLOCK in *. lia.
Qed.

(** ** Taking a block *)

Definition next_block (s : mk) : mk := {| img := img s; freeinode := freeinode s; freeblock := freeblock s + 1 |}.

Lemma take_block_next s : ready s -> take_block s = Ret (freeblock s) (next_block s).
Proof.
  intros R. unfold take_block, next_block. pose proof (rd_free _ R) as H. unfold FSSIZE in H.
  assert (0 <= nmeta) by done. rewrite u32_small by lia. done.
Qed.

Lemma next_block_ready s : ready s -> freeblock s < FSSIZE -> ready (next_block s) /\ allocated q (view s) (view (next_block s)) (freeblock s).
Proof.
  intros R Hlt. pose proof (rd_free _ R) as Hf. assert (0 <= nmeta) by done. split.
  - split; cbn [next_block img freeblock]; [apply R|apply R|lia|]. intros n Hn. apply R. lia.
  - split.
    + rewrite data_start_q. change (sb_size q) with FSSIZE. lia.
    + rewrite view_used by (done || lia). apply Z.ltb_ge. lia.
    + intros b Hb. rewrite view_used by (done || lia). apply Z.ltb_lt. lia.
    + rewrite bblock_map, view_map by (done || lia). eexists. split; [done|].
      rewrite Z.mod_small by (unfold BPB, FSSIZE in *; lia).
      assert (E : set_bit (map_block (at_ (freeblock s))) (freeblock s) true = map_block (at_ (freeblock s + 1))).
      { replace (at_ (freeblock s + 1)) with (S (at_ (freeblock s))) by lia. rewrite map_block_S by (unfold FSSIZE in *; lia).
        by rewrite Z2Nat.id by lia. }
      rewrite E. unfold view. cbn [next_block img freeblock]. rewrite list_insert_insert_eq. symmetry. apply list_insert_id.
      rewrite list_lookup_insert_ne by (change nmeta with 84 in Hf; unfold MAPBLOCK; lia). apply R. lia.
Qed.

(** ** The blocks of a file *)

(** The blocks that block [fbn] of a file still needs. *)
Definition missing (v : list block) (di : dinode) (fbn : Z) : Z :=
  (if addr_of v di fbn =? 0 then 1 else 0) + (if (Z.of_nat NDIRECT <=? fbn) && (ind_of di =? 0) then 1 else 0).

(** The file has its block [fbn], at [x], and its bytes are unchanged. *)
Record got_block (s : mk) (di : dinode) (fbn : Z) (di' : dinode) (x : Z) (s' : mk) : Prop := {
  gb_ready : ready s';
  gb_evolves : evolves q (view s) di (view s') di';
  gb_bytes k : 0 <= k < MAXFILE * Z.of_nat BSIZE -> byte_at (view s') di' k = byte_at (view s) di k;
  gb_addr : x = addr_of (view s') di' fbn;
  gb_there : x <> 0;
  gb_size : di_size di' = di_size di;
  gb_inode : freeinode s' = freeinode s;
  gb_free : freeblock s <= freeblock s' <= freeblock s + missing (view s) di fbn
}.

Lemma missing_bounds v di fbn : 0 <= missing v di fbn.
Proof. unfold missing. destruct (_ =? 0), (_ && _); lia. Qed.

Lemma got_old s di fbn : ready s -> file_ok q (view s) di -> addr_of (view s) di fbn <> 0 ->
  got_block s di fbn di (addr_of (view s) di fbn) s.
Proof.
  intros R F Ha. pose proof (missing_bounds (view s) di fbn). split; try done; [by apply evolves_refl|lia].
Qed.

Lemma ind_range s di : ready s -> file_ok q (view s) di -> ind_of di <> 0 -> nmeta <= ind_of di < freeblock s.
Proof.
  intros R F Hi. destruct (fo_data _ _ _ F (ind_of di)) as [Hr Hu]; [by apply ind_in|]. rewrite data_start_q in Hr.
  change (sb_size q) with FSSIZE in Hr. assert (0 <= nmeta) by done. rewrite view_used in Hu by (done || lia). apply Z.ltb_lt in Hu. lia.
Qed.

Lemma addr_range s di fbn : ready s -> file_ok q (view s) di -> 0 <= fbn < MAXFILE -> addr_of (view s) di fbn <> 0 ->
  nmeta <= addr_of (view s) di fbn < freeblock s.
Proof.
  intros R F Hf Ha. destruct (fo_data _ _ _ F _ (addr_in _ _ _ Hf Ha)) as [Hr Hu]. rewrite data_start_q in Hr.
  change (sb_size q) with FSSIZE in Hr. assert (0 <= nmeta) by done. rewrite view_used in Hu by (done || lia). apply Z.ltb_lt in Hu. lia.
Qed.

Lemma data_block s n : ready s -> nmeta <= n < freeblock s -> exists d, img s !! at_ n = Some d /\ view s !! at_ n = Some d /\ length d = BSIZE /\
  0 <= n < FSSIZE /\ n <> Z.of_nat MAPBLOCK.
Proof.
  intros R Hn. pose proof (rd_free _ R) as Hf. change nmeta with 84 in *.
  destruct (lookup_lt_is_Some_2 (img s) (at_ n)) as [d Hd]; [rewrite (rd_len _ R); lia|].
  exists d. split; [done|]. rewrite view_other by (unfold MAPBLOCK; lia). split; [done|]. split; [|unfold MAPBLOCK; lia].
  by eapply blocks_len; [apply R|].
Qed.

(** A direct block. *)
Lemma wp_direct s di fbn : ready s -> file_ok q (view s) di -> 0 <= fbn < Z.of_nat NDIRECT ->
  freeblock s + missing (view s) di fbn <= FSSIZE ->
  wp (file_block di fbn) s (fun r s' => got_block s di fbn r.1 r.2 s').
Proof.
  intros R F Hf Hroom. unfold file_block, addr_slot. rewrite (proj2 (Z.ltb_lt _ _)) by lia.
  destruct (lookup_lt_is_Some_2 (di_addrs di) (at_ fbn)) as [a Ea]; [rewrite (wd_length _ (fo_wf _ _ _ F)); lia|].
  assert (Ead : addr_of (view s) di fbn = a) by (rewrite addr_of_direct by done; by rewrite Ea).
  apply wp_bind. eapply wp_lift; [exact Ea|]. destruct (Z.eqb_spec a 0) as [E0|E0].
  - assert (Hmi : missing (view s) di fbn = 1).
    { unfold missing. rewrite Ead, E0. rewrite (proj2 (Z.leb_gt _ _)) by lia. done. }
    apply wp_bind. unfold wp at 1. rewrite take_block_next by done. apply wp_ret. cbn [fst snd].
    destruct (next_block_ready s R) as [R' Hal]; [lia|].
    destruct (taken_direct geo q (view s) (view (next_block s)) di _ (view_geo s R) (view_wf s R) F Hal fbn Hf ltac:(congruence)) as (E & B & Ea' & Ei).
    split; [done|exact E|exact B|done| |done|done|cbn [next_block freeblock]; lia].
    pose proof (rd_free _ R). change nmeta with 84 in *. lia.
  - apply wp_ret. cbn [fst snd]. rewrite <- Ead in E0 |- *. by apply got_old.
Qed.

(** A block of the indirect block, which is there. *)
Lemma wp_entry s di fbn : ready s -> file_ok q (view s) di -> Z.of_nat NDIRECT <= fbn < MAXFILE -> ind_of di <> 0 ->
  freeblock s + missing (view s) di fbn <= FSSIZE ->
  wp (let! indirect := rsect (ind_of di) in
      let! e := lift (load 4 indirect (4 * at_ (fbn - Z.of_nat NDIRECT))) in
      if e =? 0 then
        let! b := take_block in
        let! indirect := lift (put 4 indirect (4 * at_ (fbn - Z.of_nat NDIRECT)) b) in
        wsect (ind_of di) indirect then!
        let! x := lift (load 4 indirect (4 * at_ (fbn - Z.of_nat NDIRECT))) in
        ret (di, x)
      else ret (di, e)) s (fun r s' => got_block s di fbn r.1 r.2 s').
Proof.
  intros R F Hf Hi Hroom. pose proof (ind_range s di R F Hi) as Hir. destruct (data_block s _ R Hir) as (d & Hd & Hvd & Hl & Hr & Hne).
  assert (Hoff : (4 * at_ (fbn - Z.of_nat NDIRECT) + 4 <= length d)%nat) by (rewrite Hl; unfold BSIZE, MAXFILE, NDIRECT in *; lia).
  apply wp_bind. eapply wp_rsect; [done|done|exact Hd|].
  destruct (load 4 d (4 * at_ (fbn - Z.of_nat NDIRECT))) as [a|] eqn:Ea; [|by rewrite load_in in Ea].
  assert (Ead : addr_of (view s) di fbn = a) by (rewrite addr_of_indirect by (done || lia); by rewrite Hvd, obind_some, Ea).
  apply wp_bind. eapply wp_lift; [done|]. destruct (Z.eqb_spec a 0) as [E0|E0].
  - assert (Hmi : missing (view s) di fbn = 1).
    { unfold missing. by rewrite Ead, E0, (proj2 (Z.eqb_neq _ _) Hi), andb_false_r. }
    apply wp_bind. unfold wp at 1. rewrite take_block_next by done.
    destruct (next_block_ready s R) as [R' Hal]; [lia|].
    destruct (put_succeeds 4 d (4 * at_ (fbn - Z.of_nat NDIRECT)) (freeblock s) Hoff) as (d' & Hput & Hl').
    apply wp_bind. eapply wp_lift; [exact Hput|]. apply wp_bind.
    apply wp_wsect; [done|cbn [next_block freeblock]; lia|done|congruence|]. intros R2 Hv2.
    assert (Hb : word (freeblock s)) by (pose proof (rd_free _ R); unfold word, FSSIZE in *; change nmeta with 84 in *; lia).
    apply wp_bind. eapply wp_lift; [exact (load_put_same _ _ _ _ _ Hput)|]. apply wp_ret. cbn [fst snd].
    rewrite Z.mod_small by exact Hb.
    destruct (taken_slot geo q (view s) (view (next_block s)) di _ (view_geo s R) (view_wf s R) F Hal fbn d d' Hf Hi ltac:(congruence) Hvd Hput)
      as (E & B & Ea'). rewrite <- Hv2 in E, B, Ea'.
    split; [done|exact E|exact B|done| |done|done|cbn [with_img next_block freeblock]; lia].
    pose proof (rd_free _ R). change nmeta with 84 in *. lia.
  - apply wp_ret. cbn [fst snd]. rewrite <- Ead in E0 |- *. by apply got_old.
Qed.

Lemma wp_file_block s di fbn : ready s -> file_ok q (view s) di -> 0 <= fbn < MAXFILE ->
  freeblock s + missing (view s) di fbn <= FSSIZE ->
  wp (file_block di fbn) s (fun r s' => got_block s di fbn r.1 r.2 s').
Proof.
  intros R F Hf Hroom. destruct (Z.ltb_spec fbn (Z.of_nat NDIRECT)) as [Hlt|Hge]; [apply wp_direct; (done || lia)|].
  unfold file_block. rewrite (proj2 (Z.ltb_ge _ _)) by lia. unfold addr_slot.
  destruct (lookup_lt_is_Some_2 (di_addrs di) NDIRECT) as [a Ea]; [rewrite (wd_length _ (fo_wf _ _ _ F)); lia|].
  assert (Ei : ind_of di = a) by (unfold ind_of; by rewrite Ea).
  apply wp_bind, wp_bind. eapply wp_lift; [exact Ea|]. destruct (Z.eqb_spec a 0) as [E0|E0].
  - rewrite E0 in Ei. assert (Ha0 : addr_of (view s) di fbn = 0) by by apply addr_of_none.
    assert (Hmi : missing (view s) di fbn = 2).
    { unfold missing. rewrite Ha0, Ei, (proj2 (Z.leb_le _ _)) by lia. done. }
    apply wp_bind. unfold wp at 1. rewrite take_block_next by done. apply wp_ret. cbn [fst snd].
    destruct (next_block_ready s R) as [R1 Hal]; [lia|].
    destruct (taken_indirect geo q (view s) (view (next_block s)) di _ (view_geo s R) (view_wf s R) F Hal Ei) as (E1 & B1 & I1).
    set (di1 := di_with_addrs (<[NDIRECT := freeblock s]> (di_addrs di)) di) in *.
    pose proof (rd_free _ R) as Hfree. assert (Hn1 : ind_of di1 <> 0) by (change nmeta with 84 in *; lia).
    rewrite <- I1.
    eapply wp_mono; [apply (wp_entry (next_block s) di1 fbn R1 (ev_file _ _ _ _ _ E1)); [lia|done|]|].
    + cbn [next_block freeblock]. unfold missing. rewrite (proj2 (Z.eqb_neq _ _) Hn1), andb_false_r. destruct (_ =? 0); lia.
    + intros r s' [G1 G2 G3 G4 G5 G6 G7 G8]. destruct (data_start_pos geo q (view s) (view_geo s R)) as [D0 _]. split; try done.
      * by eapply evolves_trans.
      * intros k Hk. by rewrite G3, B1.
      * cbn [next_block freeblock] in G8. unfold missing in G8 at 1. rewrite (proj2 (Z.eqb_neq _ _) Hn1), andb_false_r in G8.
        destruct (_ =? 0); lia.
  - apply wp_ret. cbn [fst snd]. rewrite <- Ei. by apply wp_entry; [done|done|lia|congruence|].
Qed.

(** ** Appending bytes *)

(** The blocks that a file of [n] bytes takes, with its indirect block. *)
Definition blocks_for (n : Z) : Z := (n + 511) / 512 + (if 6144 <? n then 1 else 0).

Definition full_to (v : list block) (di : dinode) (off : Z) : Prop :=
  forall k, 0 <= k < off -> addr_of v di (k / Z.of_nat BSIZE) <> 0.

Lemma blocks_for_mono m n : m <= n -> blocks_for m <= blocks_for n.
Proof.
  intros H. unfold blocks_for. assert ((m + 511) / 512 <= (n + 511) / 512) by (apply Z.div_le_mono; lia).
  destruct (Z.ltb_spec 6144 m), (Z.ltb_spec 6144 n); lia.
Qed.

Lemma blocks_for_nonneg n : 0 <= n -> 0 <= blocks_for n.
Proof. intros H. unfold blocks_for. assert (0 <= (n + 511) / 512) by (apply Z.div_pos; lia). destruct (6144 <? n); lia. Qed.

Lemma missing_le v di off m : full_to v di off -> 0 <= off -> 0 < m <= 512 - off mod 512 ->
  missing v di (off / 512) <= blocks_for (off + m) - blocks_for off.
Proof.
  intros Hfull H0 Hm. pose proof (Z.div_mod off 512 ltac:(lia)) as Hd. pose proof (Z.mod_pos_bound off 512 ltac:(lia)) as Hb.
  set (b := off / 512) in *. set (o := off mod 512) in *. change (Z.of_nat BSIZE) with 512 in Hfull.
  assert (Hind : forall k, 0 <= k < off -> Z.of_nat NDIRECT <= k / 512 -> ind_of di <> 0).
  { intros k Hk Hk12 Hi. apply (Hfull k Hk). by apply addr_of_none. }
  destruct (Z.eq_dec o 0) as [Ho|Ho].
  - unfold blocks_for. replace (off + m + 511) with (b * 512 + (m + 511)) by lia. replace (off + 511) with (b * 512 + 511) by lia.
    rewrite !Z.div_add_l by lia. rewrite (Z.div_small 511) by lia.
    assert ((m + 511) / 512 = 1) as -> by (symmetry; apply (Z.div_unique _ _ _ (m - 1)); lia).
    unfold missing. destruct (addr_of v di b =? 0), (Z.leb_spec (Z.of_nat NDIRECT) b) as [H12|H12], (Z.eqb_spec (ind_of di) 0) as [Hi|Hi]; cbn [andb];
      destruct (Z.ltb_spec 6144 (off + m)), (Z.ltb_spec 6144 off); try lia; unfold NDIRECT in *; try lia;
      exfalso; apply (Hind 6144); (lia || done).
  - assert (Hprev : (off - 1) / 512 = b) by (symmetry; apply (Z.div_unique _ _ _ (o - 1)); lia).
    assert (Ha : addr_of v di b <> 0) by (rewrite <- Hprev; apply Hfull; lia).
    pose proof (blocks_for_mono off (off + m) ltac:(lia)). unfold missing. rewrite (proj2 (Z.eqb_neq _ _) Ha).
    destruct (Z.leb_spec (Z.of_nat NDIRECT) b) as [H12|H12]; [|cbn; lia].
    rewrite (proj2 (Z.eqb_neq (ind_of di) 0)); [cbn; lia|]. apply (Hind (off - 1)); [lia|]. by rewrite Hprev.
Qed.

(** [src] was written to the file from [off] on. *)
Record appended (s : mk) (di : dinode) (off : Z) (src : list Z) (di' : dinode) (s' : mk) : Prop := {
  ap_ready : ready s';
  ap_evolves : evolves q (view s) di (view s') di';
  ap_bytes k : 0 <= k < MAXFILE * Z.of_nat BSIZE -> byte_at (view s') di' k = over (view s) di off src k;
  ap_full : full_to (view s') di' (off + Z.of_nat (length src));
  ap_size : di_size di' = di_size di;
  ap_inode : freeinode s' = freeinode s;
  ap_free : freeblock s <= freeblock s' <= freeblock s + blocks_for (off + Z.of_nat (length src)) - blocks_for off
}.

Lemma evolves_full v di v' di' off : evolves q v di v' di' -> full_to v di off -> off <= MAXFILE * Z.of_nat BSIZE -> full_to v' di' off.
Proof.
  intros E H Hoff k Hk. rewrite (ev_addr _ _ _ _ _ E); [by apply H|apply block_range; lia|by apply H].
Qed.

Lemma div_off off : off - off / Z.of_nat BSIZE * Z.of_nat BSIZE = off mod Z.of_nat BSIZE.
Proof. pose proof (Z.div_mod off (Z.of_nat BSIZE) ltac:(done)). lia. Qed.

(** One round of the loop. *)
Lemma wp_append_block s di off src : ready s -> file_ok q (view s) di -> full_to (view s) di off -> 0 <= off -> (0 < length src)%nat ->
  Z.of_nat (length src) <= 512 - off mod 512 -> off + Z.of_nat (length src) <= MAXFILE * Z.of_nat BSIZE ->
  freeblock s + blocks_for (off + Z.of_nat (length src)) - blocks_for off <= FSSIZE ->
  wp (let! r := file_block di (off / Z.of_nat BSIZE) in
      let! buf := rsect r.2 in
      wsect r.2 (splice buf (at_ (off - off / Z.of_nat BSIZE * Z.of_nat BSIZE)) src) then! ret r) s
    (fun r s' => appended s di off src r.1 s').
Proof.
  intros R F Hfull H0 Hlen Hfit Hmax Hroom. set (m := Z.of_nat (length src)) in *. set (bn := off / Z.of_nat BSIZE).
  pose proof (block_range off ltac:(lia)) as Hbn. fold bn in Hbn.
  pose proof (missing_le (view s) di off m Hfull H0 ltac:(lia)) as Hmi. change (off / 512) with bn in Hmi.
  apply wp_bind. eapply wp_mono; [apply (wp_file_block s di bn R F Hbn); lia|].
  intros [di1 x] s1 [G1 G2 G3 G4 G5 G6 G7 G8]. cbn [fst snd] in *. pose proof (ev_file _ _ _ _ _ G2) as F1.
  pose proof (addr_range s1 di1 bn G1 F1 Hbn ltac:(congruence)) as Hx. rewrite <- G4 in Hx.
  destruct (data_block s1 x G1 Hx) as (d & Hd & Hvd & Hl & Hr & Hne).
  apply wp_bind. eapply wp_rsect; [done|done|exact Hd|]. rewrite div_off. set (o := at_ (off mod Z.of_nat BSIZE)).
  assert (Ho : (o + length src <= length d)%nat).
  { rewrite Hl. unfold o. pose proof (offset_range off). change (Z.of_nat BSIZE) with 512 in *. unfold BSIZE. lia. }
  assert (Hoz : Z.of_nat o = off mod 512) by (unfold o; pose proof (offset_range off); change (Z.of_nat BSIZE) with 512 in *; lia).
  clearbody o. apply wp_bind. apply wp_wsect; [done|change nmeta with 84 in *; lia|done|by rewrite splice_length|]. intros R2 Hv2. apply wp_ret. cbn [fst snd].
  set (d' := splice d o src) in *. set (s2 := with_img s1 _) in *.
  pose proof (view_geo s1 G1) as Gg. assert (Hnz : addr_of (view s1) di1 bn <> 0) by congruence.
  assert (Ev : view s2 = <[at_ (addr_of (view s1) di1 bn) := d']> (view s1)) by (by rewrite <- G4).
  destruct (data_start_pos geo q (view s) (view_geo s R)) as [D0 _].
  split; try done.
  - eapply evolves_trans; [done|exact G2|]. rewrite Ev. by apply (overwrite_evolves geo).
  - intros k Hk. rewrite Ev, (overwrite_byte geo q (view s1) di1 bn d' Gg F1 Hbn Hnz k Hk). unfold over. fold m.
    pose proof (offset_range k) as Hok. pose proof (Z.div_mod k (Z.of_nat BSIZE) ltac:(done)) as Hkd.
    pose proof (Z.div_mod off (Z.of_nat BSIZE) ltac:(done)) as Hod. fold bn in Hod. change (Z.of_nat BSIZE) with 512 in *.
    destruct (decide (off <= k < off + m)) as [Hin|Hout].
    + assert (k / 512 = bn) as Ekb by (symmetry; apply (Z.div_unique _ _ _ (k - 512 * bn)); lia).
      rewrite decide_True by done. unfold d'. rewrite lookup_splice_in by lia. do 2 f_equal. lia.
    + rewrite <- G3 by done. case_decide as Ek; [|done]. unfold d'. rewrite lookup_splice_out by lia.
      unfold byte_at. change (Z.of_nat BSIZE) with 512. rewrite Ek, <- G4, (proj2 (Z.eqb_neq x 0)) by done. by rewrite Hvd.
  - fold m. rewrite Ev. intros k Hk. rewrite (overwrite_addr geo q (view s1) di1 bn d' Gg F1 Hbn Hnz).
    destruct (Z.lt_ge_cases k off).
    + apply (evolves_full (view s) di (view s1) di1 off G2 Hfull); lia.
    + assert (k / Z.of_nat BSIZE = bn) as ->; [|done]. pose proof (Z.div_mod off (Z.of_nat BSIZE) ltac:(done)) as Hod. fold bn in Hod.
      change (Z.of_nat BSIZE) with 512 in *. pose proof (Z.mod_pos_bound off 512). symmetry. apply (Z.div_unique _ _ _ (k - 512 * bn)); lia.
  - fold m. unfold s2. cbn [with_img freeblock]. lia.
Qed.

Lemma appended_nothing s di off : ready s -> file_ok q (view s) di -> full_to (view s) di off -> appended s di off [] di s.
Proof.
  intros R F Hfull. split; try done.
  - by apply evolves_refl.
  - intros k Hk. unfold over. by rewrite decide_False by (cbn; lia).
  - cbn. by rewrite Z.add_0_r.
  - cbn. rewrite Z.add_0_r. lia.
Qed.

Lemma appended_trans s di off x y di1 s1 di2 s2 : 0 <= off -> ready s ->
  off + Z.of_nat (length (x ++ y)) <= MAXFILE * Z.of_nat BSIZE ->
  appended s di off x di1 s1 -> appended s1 di1 (off + Z.of_nat (length x)) y di2 s2 -> appended s di off (x ++ y) di2 s2.
Proof.
  intros H0 R Hmax A B. destruct (data_start_pos geo q (view s) (view_geo s R)) as [D0 _].
  destruct A as [A1 A2 A3 A4 A5 A6 A7], B as [B1 B2 B3 B4 B5 B6 B7]. rewrite length_app in *. split; try congruence.
  - by eapply evolves_trans.
  - intros k Hk. rewrite B3 by done. unfold over in *. rewrite length_app.
    destruct (decide (off + Z.of_nat (length x) <= k < off + Z.of_nat (length x) + Z.of_nat (length y))).
    + rewrite decide_True by lia. rewrite lookup_app_r by lia. do 2 f_equal. lia.
    + rewrite A3 by done. destruct (decide (off <= k < off + Z.of_nat (length x))).
      * rewrite decide_True by lia. rewrite lookup_app_l by lia. done.
      * by rewrite decide_False by lia.
  - rewrite length_app. by replace (off + Z.of_nat (length x + length y)) with (off + Z.of_nat (length x) + Z.of_nat (length y)) by lia.
  - rewrite length_app. replace (off + Z.of_nat (length x + length y)) with (off + Z.of_nat (length x) + Z.of_nat (length y)) by lia. lia.
Qed.

Lemma wp_iappend_loop fuel s di off src : ready s -> file_ok q (view s) di -> full_to (view s) di off -> 0 <= off ->
  off + Z.of_nat (length src) <= MAXFILE * Z.of_nat BSIZE ->
  freeblock s + blocks_for (off + Z.of_nat (length src)) - blocks_for off <= FSSIZE -> (length src < fuel)%nat ->
  wp (iappend_loop fuel di off src) s (fun r s' => r.2 = off + Z.of_nat (length src) /\ appended s di off src r.1 s').
Proof.
  revert s di off src. induction fuel as [|fuel IH]; intros s di off src R F Hfull H0 Hmax Hroom Hfuel; [lia|].
  cbn [iappend_loop]. destruct (Z.ltb_spec 0 (Z.of_nat (length src))) as [Hp|Hp].
  2: { destruct src; [|cbn in Hp; lia]. apply wp_ret. split; [cbn; lia|]. by apply appended_nothing. }
  pose proof (block_range off ltac:(lia)) as Hbn. rewrite (proj2 (Z.ltb_lt _ MAXFILE)) by lia.
  set (m := Z.min (Z.of_nat (length src)) ((off / Z.of_nat BSIZE + 1) * Z.of_nat BSIZE - off)).
  pose proof (Z.div_mod off (Z.of_nat BSIZE) ltac:(done)) as Hd. pose proof (offset_range off) as Ho.
  assert (Hm : 0 < m <= 512 - off mod 512) by (unfold m; change (Z.of_nat BSIZE) with 512 in *; lia).
  assert (Hm1 : length (take (at_ m) src) = at_ m) by (rewrite length_take; lia).
  assert (Hm2 : Z.of_nat (length (drop (at_ m) src)) = Z.of_nat (length src) - m) by (rewrite length_drop; lia).
  pose proof (blocks_for_mono (off + m) (off + Z.of_nat (length src)) ltac:(lia)) as Hmono.
  pose proof (wp_append_block s di off (take (at_ m) src) R F Hfull H0 ltac:(lia) ltac:(lia) ltac:(lia)) as Hw.
  rewrite Hm1, Z2Nat.id in Hw by lia. specialize (Hw ltac:(lia)).
  apply (proj1 (wp_iff _ _ _)) in Hw as (r & s1 & E & A).
  assert (Hstep : forall (k : dinode * Z -> M mk (dinode * Z)) (Q : dinode * Z -> mk -> Prop), wp (k r) s1 Q ->
    wp (let! r := file_block di (off / Z.of_nat BSIZE) in let! buf := rsect r.2 in
        wsect r.2 (splice buf (at_ (off - off / Z.of_nat BSIZE * Z.of_nat BSIZE)) (take (at_ m) src)) then! k r) s Q).
  { intros k Q Hk. unfold wp in *. revert E. unfold bind. destruct (file_block _ _ s) as [r' t|]; [|done].
    destruct (rsect r'.2 t) as [b t'|]; [|done]. destruct (wsect _ _ t') as [? t''|]; [|done]. by intros [= -> ->]. }
  apply Hstep. pose proof (ap_free _ _ _ _ _ _ A) as Hf. rewrite Hm1, Z2Nat.id in Hf by lia.
  eapply wp_mono; [apply (IH s1 r.1 (off + m))|].
  - apply A.
  - apply (ap_evolves _ _ _ _ _ _ A).
  - pose proof (ap_full _ _ _ _ _ _ A) as Hf1. by rewrite Hm1, Z2Nat.id in Hf1 by lia.
  - lia.
  - lia.
  - rewrite Hm2. replace (off + m + (Z.of_nat (length src) - m)) with (off + Z.of_nat (length src)) by lia. lia.
  - rewrite length_drop. lia.
  - intros r2 s2 [E2 A2]. split; [lia|]. rewrite <- (take_drop (at_ m) src). eapply appended_trans; [done|done| |exact A|].
    + by rewrite take_drop.
    + by rewrite Hm1, Z2Nat.id by lia.
Qed.
