(* ===== verification/MkfsFiles.v ===== *)
(** * The files of the image

    [built s fs]: the image holds the files [fs], in the order of their inode
    numbers from 1 on.  [ialloc] adds an empty file and [iappend] appends to
    one; the others keep their contents. *)

From S2P Require Import Prelude CStr Mem BufIface Lock Txn Fs FsAlloc FsInode FsData FsDir FsPath Mkfs MkfsBuild.

(** What [mkfs] stores in an inode: its type, its mode and its contents. *)
Record node : Type := { n_type : Z; n_mode : Z; n_data : list Z }.

(** ** Inodes *)

Lemma load_splice_at k d o b p : (o + length b <= length d)%nat -> (p + k <= length b)%nat ->
  load k (splice d o b) (o + p) = load k b p.
Proof.
  intros Ho Hp. rewrite !load_in by (try rewrite splice_length; lia). do 2 f_equal. apply list_eq. intros i.
  destruct (decide (i < k)%nat); [|rewrite !lookup_take_ge by lia; done].
  rewrite !lookup_take_lt, !lookup_drop, lookup_splice_in by lia. f_equal. lia.
Qed.

Lemma dinode_at_splice d o b : (o + 128 <= length d)%nat -> length b = 128%nat -> dinode_at (splice d o b) o = dinode_at b 0.
Proof.
  intros Ho Hb. unfold dinode_at.
  assert (H : forall k p, (p + k <= 128)%nat -> load k (splice d o b) (o + p) = load k b p) by (intros; apply load_splice_at; lia).
  pose proof (H 2%nat 0%nat ltac:(lia)) as H0. rewrite Nat.add_0_r in H0.
  assert (Hw : forall n p, (p + 4 * n <= 128)%nat -> load_words n (splice d o b) (o + p) = load_words n b p).
  { induction n as [|n IH]; intros p Hp; cbn [load_words]; [done|]. rewrite H by lia. rewrite <- Nat.add_assoc, IH by lia. done. }
  rewrite H0, !H, Hw by (unfold NDIRECT; lia). done.
Qed.

Lemma load_splice_out k d o b p : (o + length b <= length d)%nat -> (p + k <= o \/ o + length b <= p)%nat ->
  load k (splice d o b) p = load k d p.
Proof.
  intros Ho Hp. unfold load. rewrite splice_length by lia. case_decide; [|done]. by rewrite slice_splice_other.
Qed.

Lemma inode_block s inum : ready s -> 0 <= inum < NINODES ->
  exists d, img s !! at_ (IBLOCK inum q) = Some d /\ view s !! at_ (IBLOCK inum q) = Some d /\ length d = BSIZE /\
    0 <= IBLOCK inum q < freeblock s /\ 32 <= IBLOCK inum q /\ IBLOCK inum q <> Z.of_nat MAPBLOCK.
Proof.
  intros R Hi. pose proof (iblock_range geo q _ inum mkfs_geo Hi) as (_ & Hr & Hlo & _). pose proof (rd_free _ R) as Hf.
  change nmeta with 84 in Hf. change (sb_bmapstart q) with 83 in Hr. change (tg_lo geo) with 32 in Hlo.
  destruct (lookup_lt_is_Some_2 (img s) (at_ (IBLOCK inum q))) as [d Hd]; [rewrite (rd_len _ R); lia|].
  exists d. split; [done|]. rewrite view_other by (unfold MAPBLOCK; lia). split; [done|]. split; [by eapply blocks_len; [apply R|]|].
  unfold MAPBLOCK. lia.
Qed.

(** The state with only the inode [inum] changed. *)
Record put_inode (s : mk) (inum : Z) (di : dinode) (s' : mk) : Prop := {
  pi_ready : ready s';
  pi_written : inode_written q (view s) (view s') inum di;
  pi_next : freeinode s' = freeinode s;
  pi_free : freeblock s' = freeblock s
}.

Lemma wp_winode s inum di : ready s -> 0 <= inum < NINODES -> wf_dinode di ->
  wp (winode inum di) s (fun _ s' => put_inode s inum di s').
Proof.
  intros R Hi Hw. destruct (inode_block s inum R Hi) as (d & Hd & Hvd & Hl & Hr & _ & Hne).
  destruct (put_dinode_ok di (replicate 128 0) 0 Hw ltac:(rewrite length_replicate; lia)) as (b & Hb & Hlb & Hat & _).
  rewrite length_replicate in Hlb. pose proof (ioff_range inum) as Hoff.
  unfold winode. apply wp_bind. pose proof (rd_free _ R). eapply wp_rsect; [done|lia|exact Hd|].
  apply wp_bind. eapply wp_lift; [exact Hb|].
  apply wp_wsect; [done|done|done|rewrite splice_length; lia|]. intros R' Hv. split; [done| |done|done]. rewrite Hv.
  eapply put_inode_written; [by apply view_geo|done|exact Hvd|rewrite splice_length; lia| |].
  - rewrite dinode_at_splice; [exact Hat|lia|done].
  - intros k p Hp. apply load_splice_out; lia.
Qed.

Lemma wp_rinode s inum di (Q : dinode -> mk -> Prop) : ready s -> 0 <= inum < NINODES -> disk_inode (view s) q inum = Some di -> Q di s ->
  wp (rinode inum) s Q.
Proof.
  intros R Hi Hdi HQ. destruct (inode_block s inum R Hi) as (d & Hd & Hvd & Hl & Hr & _ & Hne). pose proof (rd_free _ R).
  unfold rinode. apply wp_bind. eapply wp_rsect; [done|lia|exact Hd|]. unfold disk_inode in Hdi. rewrite Hvd in Hdi.
  by eapply wp_lift.
Qed.

(** ** Files that are left alone *)

Section other.
Context (v v' : list block) (di di' dj : dinode).
Hypotheses (G : fs_geo geo q (length v)) (E : evolves q v di v' di') (F : file_ok q v dj) (Hsep : forall n, own v dj n -> ~ own v di n).

Lemma other_block n : own v dj n -> v' !! at_ n = v !! at_ n.
Proof.
  intros Ho. destruct (data_start_pos geo q v G) as (D0 & _). destruct (own_range _ _ _ _ D0 F Ho) as (R1 & R2 & R3).
  apply (ev_frame _ _ _ _ _ E); [done|done|by apply Hsep|by right].
Qed.

Lemma other_addr bn : addr_of v' dj bn = addr_of v dj bn.
Proof. apply addr_of_same; [done| |done]. intros Hi. apply other_block. by apply ind_in. Qed.

Lemma other_own n : own v' dj n <-> own v dj n.
Proof.
  unfold own. split; intros [Hn [H|(b & Hb & H)]]; (split; [done|]); [by left| |by left|];
    right; exists b; (split; [done|]); by rewrite other_addr in *.
Qed.

Lemma other_byte k : 0 <= k < MAXFILE * Z.of_nat BSIZE -> byte_at v' dj k = byte_at v dj k.
Proof.
  intros Hk. unfold byte_at. rewrite other_addr. destruct (Z.eqb_spec (addr_of v dj (k / Z.of_nat BSIZE)) 0) as [|Hn]; [done|].
  rewrite other_block; [done|]. apply addr_in; [by apply block_range|done].
Qed.

Lemma other_file : file_ok q v' dj.
Proof.
  destruct (data_start_pos geo q v G) as (D0 & _). split; [apply F| | |].
  - intros n Ho%other_own. destruct (own_range _ _ _ _ D0 F Ho) as (R1 & R2 & R3). destruct (fo_data _ _ _ F n Ho).
    split; [done|]. by apply (ev_used _ _ _ _ _ E).
  - intros b1 b2 H1 H2. rewrite !other_addr. by apply (fo_inj _ _ _ F).
  - intros b1 H1. rewrite other_addr. by apply (fo_ind _ _ _ F).
Qed.

Lemma other_apart n : own v' dj n -> ~ own v' di' n.
Proof.
  intros Ho%other_own Ho'. destruct (ev_own _ _ _ _ _ E n Ho') as [H|H]; [by apply (Hsep n)|].
  destruct (data_start_pos geo q v G) as (D0 & _). destruct (own_range _ _ _ _ D0 F Ho) as (_ & _ & R3). congruence.
Qed.
End other.

(** ** The image holds files *)

Definition inode_has (f : node) (di : dinode) : Prop :=
  di_type di = n_type f /\ di_major di = 0 /\ di_minor di = 0 /\ di_nlink di = 1 /\ di_size di = Z.of_nat (length (n_data f)) /\
  di_mode di = n_mode f /\ di_uid di = 0 /\ di_gid di = 0.

Record file_is (v : list block) (inum : Z) (f : node) (di : dinode) : Prop := {
  fi_disk : disk_inode v q inum = Some di;
  fi_has : inode_has f di;
  fi_whole : whole q v di;
  fi_bytes k c : n_data f !! k = Some c -> byte_at v di (Z.of_nat k) = c
}.

(** The blocks of all files. *)
Definition total (fs : list node) : Z := foldr (fun f a => blocks_for (Z.of_nat (length (n_data f))) + a) 0 fs.

Definition inum_of (k : nat) : Z := 1 + Z.of_nat k.

Record built (hd : Z -> option block) (s : mk) (fs : list node) : Prop := {
  bu_ready : ready s;
  bu_next : freeinode s = inum_of (length fs);
  bu_count : inum_of (length fs) <= NINODES;
  bu_files k f : fs !! k = Some f -> exists di, file_is (view s) (inum_of k) f di;
  bu_unused j : j = 0 \/ inum_of (length fs) <= j < NINODES -> exists di, disk_inode (view s) q j = Some di /\ di_type di = 0;
  bu_apart j k dj dk n : j <> k -> (j < length fs)%nat -> (k < length fs)%nat -> disk_inode (view s) q (inum_of j) = Some dj ->
    disk_inode (view s) q (inum_of k) = Some dk -> own (view s) dj n -> ~ own (view s) dk n;
  bu_head n : 0 <= n < 32 -> img s !! at_ n = hd n;
  bu_free : freeblock s <= nmeta + total fs
}.

Lemma total_cons f fs : total (f :: fs) = blocks_for (Z.of_nat (length (n_data f))) + total fs.
Proof. done. Qed.

Lemma nodes_total_app fs gs : total (fs ++ gs) = total fs + total gs.
Proof. induction fs as [|f fs IH]; [done|]. cbn [app]. rewrite !total_cons, IH. lia. Qed.

Lemma total_insert fs k f g : fs !! k = Some f ->
  total (<[k := g]> fs) = total fs - blocks_for (Z.of_nat (length (n_data f))) + blocks_for (Z.of_nat (length (n_data g))).
Proof.
  revert k. induction fs as [|h fs IH]; intros k Hk; [done|]. destruct k as [|k].
  - injection Hk as ->. change (<[0%nat := g]> (f :: fs)) with (g :: fs). rewrite !total_cons. lia.
  - change (<[S k := g]> (h :: fs)) with (h :: <[k := g]> fs). rewrite !total_cons, (IH k Hk). lia.
Qed.

(** ** [ialloc] *)

Definition empty_inode (type mode : Z) : dinode :=
  {| di_type := type; di_major := 0; di_minor := 0; di_nlink := 1; di_size := 0;
     di_addrs := replicate (S NDIRECT) 0; di_mode := mode; di_uid := 0; di_gid := 0 |}.

Lemma empty_wf type mode : short type -> word mode -> wf_dinode (empty_inode type mode).
Proof.
  intros Ht Hm. split; cbn [empty_inode di_type di_major di_minor di_nlink di_size di_addrs di_mode di_uid di_gid]; try done.
  - by apply Forall_replicate.
Qed.

Lemma empty_addr v type mode bn : addr_of v (empty_inode type mode) bn = 0.
Proof.
  unfold addr_of, ind_of. cbn [empty_inode di_addrs]. change (replicate (S NDIRECT) 0 !! NDIRECT) with (Some 0). cbn [default from_option id Z.eqb].
  destruct (bn <? Z.of_nat NDIRECT); [|done]. destruct (replicate (S NDIRECT) 0 !! at_ bn) as [x|] eqn:E; [|done].
  by apply lookup_replicate in E as [-> _].
Qed.

Lemma empty_own v type mode n : ~ own v (empty_inode type mode) n.
Proof.
  intros [Hn [->|(bn & _ & E)]]; [done|]. rewrite empty_addr in E. done.
Qed.

Lemma empty_whole v type mode : short type -> word mode -> whole q v (empty_inode type mode).
Proof.
  intros Ht Hm. split.
  - split; [by apply empty_wf| | |].
    + intros n Ho. by apply empty_own in Ho.
    + intros b1 b2 _ _. by rewrite empty_addr.
    + intros b1 _. by rewrite empty_addr.
  - cbn [empty_inode di_size]. unfold MAXFILE, BSIZE. lia.
  - intros k Hk. cbn [empty_inode di_size] in Hk. lia.
Qed.

(** A file is still there after another inode has been written. *)
Lemma file_is_written s s' inum di j f dj : ready s -> 0 <= inum < NINODES -> put_inode s inum di s' ->
  0 <= j < NINODES -> j <> inum -> file_is (view s) j f dj -> file_is (view s') j f dj.
Proof.
  intros R Hi [P1 P2 P3 P4] Hj Hne [F1 F2 F3 F4]. pose proof (view_geo s R) as G. pose proof (wh_file _ _ _ F3) as F.
  split.
  - by rewrite (iw_others _ _ _ _ _ P2).
  - done.
  - split; [by apply (written_file geo q (view s) (view s') inum di)|apply F3|].
    intros k Hk. rewrite (written_addr geo q (view s) (view s') inum di) by done. by apply (wh_holes _ _ _ F3).
  - intros k c Hk. rewrite (written_byte geo q (view s) (view s') inum di); [by apply F4|done|done|done|done|].
    pose proof (wh_size _ _ _ F3). destruct F2 as (_ & _ & _ & _ & Hs & _). apply lookup_lt_Some in Hk. lia.
Qed.

Lemma put_inode_head s inum di s' n : ready s -> 0 <= inum < NINODES -> put_inode s inum di s' -> 0 <= n < 32 -> img s' !! at_ n = img s !! at_ n.
Proof.
  intros R Hi P Hn. destruct (inode_block s inum R Hi) as (_ & _ & _ & _ & _ & H32 & _).
  rewrite <- (view_other s'), <- (view_other s) by (unfold MAPBLOCK; lia). apply (iw_blocks _ _ _ _ _ (pi_written _ _ _ _ P)); lia.
Qed.

Lemma inum_range hd s fs k f : built hd s fs -> fs !! k = Some f -> 0 <= inum_of k < NINODES /\ (k < length fs)%nat.
Proof.
  intros B Hk. pose proof (bu_count _ _ _ B) as Hc. pose proof (lookup_lt_Some _ _ _ Hk). unfold inum_of in *. lia.
Qed.

Lemma wp_mkfs_ialloc hd s fs type mode : built hd s fs -> inum_of (length fs) < NINODES -> short type -> word mode ->
  wp (ialloc type mode) s (fun i s' => i = inum_of (length fs) /\ built hd s' (fs ++ [{| n_type := type; n_mode := mode; n_data := [] |}])).
Proof.
  intros B Hc Ht Hm. pose proof (bu_ready _ _ _ B) as R. unfold ialloc, take_inode. apply wp_bind. unfold wp at 1. rewrite (bu_next _ _ _ B).
  set (i := inum_of (length fs)) in *. assert (Hi : 0 <= i < NINODES) by (unfold i, inum_of in *; lia).
  rewrite u32_small by (unfold NINODES in *; lia).
  set (s0 := {| img := img s; freeinode := i + 1; freeblock := freeblock s |}).
  assert (R0 : ready s0) by (split; apply R). assert (Ev : view s0 = view s) by done.
  apply wp_bind. fold (empty_inode type mode). eapply wp_mono; [apply (wp_winode s0 i); [done|done|by apply empty_wf]|]. cbn beta.
  intros _ s' P. apply wp_ret. split; [done|]. pose proof (pi_written _ _ _ _ P) as W. rewrite Ev in W.
  assert (Hlook : forall k f, (fs ++ [{| n_type := type; n_mode := mode; n_data := [] |}]) !! k = Some f ->
    (fs !! k = Some f /\ inum_of k <> i /\ 0 <= inum_of k < NINODES) \/ (k = length fs /\ f = {| n_type := type; n_mode := mode; n_data := [] |})).
  { intros k f [Hk|[Hge Hk]]%lookup_app_Some.
    - left. destruct (inum_range hd s fs k f B Hk) as [Hr Hlt]. split_and!; try done; unfold i, inum_of in *; lia.
    - right. destruct (k - length fs)%nat eqn:E; [|done]. injection Hk as <-. split; [lia|done]. }
  split.
  - apply P.
  - rewrite (pi_next _ _ _ _ P). cbn [s0 freeinode]. rewrite length_app. cbn [length]. unfold i, inum_of. lia.
  - rewrite length_app. cbn [length]. unfold i, inum_of in *. lia.
  - intros k f [(Hk & Hne & Hr)|[-> ->]]%Hlook.
    + destruct (bu_files _ _ _ B k f Hk) as [dj Hf]. exists dj. by apply (file_is_written s0 s' i (empty_inode type mode)).
    + exists (empty_inode type mode). split; [apply W|done|by apply empty_whole|done].
  - intros j Hj. rewrite length_app in Hj. cbn [length] in Hj. destruct (bu_unused _ _ _ B j) as (dj & Hd & H0); [unfold i, inum_of in *; lia|].
    exists dj. split; [|done]. rewrite (iw_others _ _ _ _ _ W); [done| |]; change (sb_ninodes q) with NINODES; unfold i, inum_of in *; lia.
  - intros j k dj dk n Hne Hj Hk Hdj Hdk Ho. rewrite length_app in Hj, Hk. cbn [length] in Hj, Hk.
    destruct (decide (k = length fs)) as [->|Hk'].
    { fold i in Hdk. rewrite (iw_this _ _ _ _ _ W) in Hdk. injection Hdk as <-. apply empty_own. }
    destruct (decide (j = length fs)) as [->|Hj'].
    { fold i in Hdj. rewrite (iw_this _ _ _ _ _ W) in Hdj. injection Hdj as <-. by apply empty_own in Ho. }
    destruct (lookup_lt_is_Some_2 fs j) as [fj Hfj]; [lia|]. destruct (lookup_lt_is_Some_2 fs k) as [fk Hfk]; [lia|].
    destruct (bu_files _ _ _ B j fj Hfj) as [dj' Fj]. destruct (bu_files _ _ _ B k fk Hfk) as [dk' Fk].
    destruct (Hlook j fj) as [(_ & N1 & R1)|[-> _]]; [by apply lookup_app_l_Some| |lia].
    destruct (Hlook k fk) as [(_ & N2 & R2)|[-> _]]; [by apply lookup_app_l_Some| |lia].
    rewrite (iw_others _ _ _ _ _ W) in Hdj, Hdk by done. rewrite (fi_disk _ _ _ _ Fj) in Hdj. rewrite (fi_disk _ _ _ _ Fk) in Hdk. simplify_eq.
    pose proof (view_geo s R) as G.
    rewrite (written_own geo q (view s) (view s') i (empty_inode type mode)) in Ho |- *; try done; try apply Fj; try apply Fk.
    eapply (bu_apart _ _ _ B j k); try done; [lia|lia|apply Fj|apply Fk].
  - intros n Hn. rewrite (put_inode_head s0 i (empty_inode type mode) s') by done. by apply B.
  - rewrite (pi_free _ _ _ _ P). cbn [s0 freeblock]. rewrite nodes_total_app, total_cons. cbn [n_data length]. change (total []) with 0.
    change (blocks_for (Z.of_nat 0)) with 0. pose proof (bu_free _ _ _ B). lia.
Qed.

(** ** [iappend] *)

Definition append (f : node) (p : list Z) : node := {| n_type := n_type f; n_mode := n_mode f; n_data := n_data f ++ p |}.

(** The steps of [iappend] on the file [k], whose inode is [di]: the data
    blocks, and then the inode. *)
Record appending (hd : Z -> option block) (s : mk) (fs : list node) (k : nat) (f : node) (p : list Z) (di di1 : dinode) (s1 s' : mk) : Prop := {
  ag_built : built hd s fs;
  ag_file : fs !! k = Some f;
  ag_is : file_is (view s) (inum_of k) f di;
  ag_size : Z.of_nat (length (n_data f ++ p)) <= MAXFILE * Z.of_nat BSIZE;
  ag_data : appended s di (di_size di) p di1 s1;
  ag_inode : put_inode s1 (inum_of k) (di_with_size (Z.of_nat (length (n_data f ++ p))) di1) s'
}.

Section appending.
Context (hd : Z -> option block) (s : mk) (fs : list node) (k : nat) (f : node) (p : list Z) (di di1 : dinode) (s1 s' : mk).
Hypothesis A : appending hd s fs k f p di di1 s1 s'.

Let R : ready s := bu_ready _ _ _ (ag_built _ _ _ _ _ _ _ _ _ _ A).
Let R1 : ready s1 := ap_ready _ _ _ _ _ _ (ag_data _ _ _ _ _ _ _ _ _ _ A).
Let E : evolves q (view s) di (view s1) di1 := ap_evolves _ _ _ _ _ _ (ag_data _ _ _ _ _ _ _ _ _ _ A).
Let G : fs_geo geo q (length (view s)) := view_geo s R.
Let G1 : fs_geo geo q (length (view s1)) := view_geo s1 R1.
Let W : inode_written q (view s1) (view s') (inum_of k) (di_with_size (Z.of_nat (length (n_data f ++ p))) di1) :=
  pi_written _ _ _ _ (ag_inode _ _ _ _ _ _ _ _ _ _ A).

Lemma appending_range : 0 <= inum_of k < NINODES.
Proof. apply (inum_range hd s fs k f); apply A. Qed.

Lemma appending_len : di_size di = Z.of_nat (length (n_data f)).
Proof. apply (fi_has _ _ _ _ (ag_is _ _ _ _ _ _ _ _ _ _ A)). Qed.

Lemma appending_inodes j : 0 <= j < NINODES -> disk_inode (view s1) q j = disk_inode (view s) q j.
Proof.
  intros Hj. apply (evolves_inodes geo q (view s) di (view s1) di1); try done; [by apply view_meta|].
  apply (wh_file _ _ _ (fi_whole _ _ _ _ (ag_is _ _ _ _ _ _ _ _ _ _ A))).
Qed.

Lemma appending_file : file_is (view s') (inum_of k) (append f p) (di_with_size (Z.of_nat (length (n_data f ++ p))) di1).
Proof.
  pose proof (ag_is _ _ _ _ _ _ _ _ _ _ A) as Hf. pose proof (ag_data _ _ _ _ _ _ _ _ _ _ A) as D. pose proof appending_len as Hlen.
  pose proof (ag_size _ _ _ _ _ _ _ _ _ _ A) as Hmax. pose proof appending_range as Hi.
  assert (Hend : di_size di + Z.of_nat (length p) = Z.of_nat (length (n_data f ++ p))) by (rewrite length_app; lia).
  assert (F1 : file_ok q (view s1) (di_with_size (Z.of_nat (length (n_data f ++ p))) di1)).
  { apply file_ok_size; [apply E|]. unfold word, MAXFILE, BSIZE in *. lia. }
  split.
  - apply W.
  - destruct (ev_fields _ _ _ _ _ E) as (E1&E2&E3&E4&E5&E6&E7), (fi_has _ _ _ _ Hf) as (H1&H2&H3&H4&H5&H6&H7&H8).
    unfold inode_has. cbn [append n_type n_mode n_data di_with_size di_type di_major di_minor di_nlink di_size di_mode di_uid di_gid].
    split_and!; congruence.
  - split.
    + by apply (written_file geo q (view s1) (view s') _ _ G1 Hi W).
    + cbn [di_with_size di_size]. lia.
    + cbn [di_with_size di_size]. intros i Hir. rewrite (written_addr geo q (view s1) (view s') _ _ G1 Hi W _ _ F1).
      apply (ap_full _ _ _ _ _ _ D). lia.
  - cbn [append n_data]. intros i c Hc. pose proof (lookup_lt_Some _ _ _ Hc) as Hlt.
    rewrite (written_byte geo q (view s1) (view s') _ _ G1 Hi W _ _ F1) by lia.
    change (byte_at (view s1) (di_with_size (Z.of_nat (length (n_data f ++ p))) di1) (Z.of_nat i)) with (byte_at (view s1) di1 (Z.of_nat i)).
    rewrite (ap_bytes _ _ _ _ _ _ D) by lia. unfold over. apply lookup_app_Some in Hc as [Hc|[Hge Hc]].
    + pose proof (lookup_lt_Some _ _ _ Hc). rewrite decide_False by lia. by apply (fi_bytes _ _ _ _ Hf).
    + pose proof (lookup_lt_Some _ _ _ Hc). rewrite decide_True by lia.
      replace (at_ (Z.of_nat i - di_size di)) with (i - length (n_data f))%nat by lia. by rewrite Hc.
Qed.

(** Another file. *)
Lemma appending_other j g dj : j <> k -> fs !! j = Some g -> file_is (view s) (inum_of j) g dj ->
  file_is (view s') (inum_of j) g dj /\ (forall n, own (view s') dj n <-> own (view s) dj n) /\
  forall n, own (view s') dj n -> ~ own (view s') (di_with_size (Z.of_nat (length (n_data f ++ p))) di1) n.
Proof.
  intros Hne Hg Hf. pose proof (ag_built _ _ _ _ _ _ _ _ _ _ A) as B. pose proof (ag_is _ _ _ _ _ _ _ _ _ _ A) as Hk.
  destruct (inum_range hd s fs j g B Hg) as [Hj Hjl]. pose proof appending_range as Hi.
  pose proof (lookup_lt_Some _ _ _ (ag_file _ _ _ _ _ _ _ _ _ _ A)) as Hkl.
  pose proof (wh_file _ _ _ (fi_whole _ _ _ _ Hf)) as F.
  assert (Hsep : forall n, own (view s) dj n -> ~ own (view s) di n).
  { intros n Ho. eapply (bu_apart _ _ _ B j k); try done; [apply Hf|apply Hk]. }
  assert (F1 : file_ok q (view s1) dj) by (by apply (other_file (view s) (view s1) di di1 dj G E F Hsep)).
  assert (Hown : forall n, own (view s') dj n <-> own (view s) dj n).
  { intros n. rewrite (written_own geo q (view s1) (view s') _ _ G1 Hi W _ _ F1). by apply (other_own (view s) (view s1) di di1). }
  split; [|split; [done|]].
  - apply (file_is_written s1 s' (inum_of k) (di_with_size (Z.of_nat (length (n_data f ++ p))) di1)); try done; [apply A|unfold inum_of; lia|].
    destruct Hf as [H1 H2 H3 H4]. split.
    + by rewrite appending_inodes.
    + done.
    + split; [done|apply H3|]. intros i Hir. rewrite (other_addr (view s) (view s1) di di1 dj G E F Hsep). by apply (wh_holes _ _ _ H3).
    + intros i c Hc. rewrite (other_byte (view s) (view s1) di di1 dj G E F Hsep); [by apply H4|].
      pose proof (wh_size _ _ _ H3). destruct H2 as (_ & _ & _ & _ & Hs & _). apply lookup_lt_Some in Hc. lia.
  - intros n Ho. apply Hown in Ho. assert (Fk : file_ok q (view s1) (di_with_size (Z.of_nat (length (n_data f ++ p))) di1)).
    { apply file_ok_size; [apply E|]. pose proof (ag_size _ _ _ _ _ _ _ _ _ _ A). unfold word, MAXFILE, BSIZE in *. lia. }
    rewrite (written_own geo q (view s1) (view s') _ _ G1 Hi W _ _ Fk).
    change (own (view s1) (di_with_size (Z.of_nat (length (n_data f ++ p))) di1) n) with (own (view s1) di1 n).
    apply (other_apart (view s) (view s1) di di1 dj G E F Hsep). by apply (other_own (view s) (view s1) di di1 dj G E F Hsep).
Qed.

Lemma appending_head n : 0 <= n < 32 -> img s' !! at_ n = img s !! at_ n.
Proof.
  intros Hn. rewrite (put_inode_head s1 (inum_of k) _ s' n R1 appending_range (ag_inode _ _ _ _ _ _ _ _ _ _ A) Hn).
  rewrite <- (view_other s1), <- (view_other s) by (unfold MAPBLOCK; lia). pose proof (rd_free _ R) as Hf. change nmeta with 84 in Hf.
  apply (ev_frame _ _ _ _ _ E); [change (sb_size q) with FSSIZE; lia|rewrite view_used by (done || lia); apply Z.ltb_lt; lia| |].
  - intros Ho. destruct (fo_data _ _ _ (wh_file _ _ _ (fi_whole _ _ _ _ (ag_is _ _ _ _ _ _ _ _ _ _ A))) n Ho) as [Hr _].
    change (data_start q) with 84 in Hr. lia.
  - left. change (sb_bmapstart q) with 83. lia.
Qed.
End appending.

Lemma appending_built hd s fs k f p di di1 s1 s' : appending hd s fs k f p di di1 s1 s' -> built hd s' (<[k := append f p]> fs).
Proof.
  intros A. pose proof (ag_built _ _ _ _ _ _ _ _ _ _ A) as B. pose proof (ag_file _ _ _ _ _ _ _ _ _ _ A) as Hk.
  pose proof (ag_is _ _ _ _ _ _ _ _ _ _ A) as Hf. pose proof (ag_inode _ _ _ _ _ _ _ _ _ _ A) as P. pose proof (ag_data _ _ _ _ _ _ _ _ _ _ A) as D.
  pose proof (lookup_lt_Some _ _ _ Hk) as Hkl. pose proof (pi_written _ _ _ _ P) as W. pose proof (appending_range _ _ _ _ _ _ _ _ _ _ A) as Hi.
  assert (Hdisk : forall j, 0 <= j < NINODES -> j <> inum_of k -> disk_inode (view s') q j = disk_inode (view s) q j).
  { intros j Hj Hne. rewrite (iw_others _ _ _ _ _ W) by done. by apply (appending_inodes _ _ _ _ _ _ _ _ _ _ A). }
  split.
  - apply P.
  - rewrite (pi_next _ _ _ _ P), (ap_inode _ _ _ _ _ _ D), length_insert. apply B.
  - rewrite length_insert. apply B.
  - intros j g Hj. destruct (decide (j = k)) as [->|Hne].
    + rewrite list_lookup_insert_eq in Hj by done. injection Hj as <-. eexists. exact (appending_file _ _ _ _ _ _ _ _ _ _ A).
    + rewrite list_lookup_insert_ne in Hj by done. destruct (bu_files _ _ _ B j g Hj) as [dj Fj]. exists dj.
      by apply (appending_other _ _ _ _ _ _ _ _ _ _ A).
  - intros j Hj. rewrite length_insert in Hj. destruct (bu_unused _ _ _ B j Hj) as (dj & Hd & H0). exists dj. split; [|done].
    rewrite Hdisk; [done|unfold inum_of, NINODES in *; lia|]. unfold inum_of in *. lia.
  - intros i j di' dj n Hne Hil Hjl Hdi Hdj Ho. rewrite length_insert in Hil, Hjl.
    destruct (lookup_lt_is_Some_2 fs i Hil) as [fi Hfi]. destruct (lookup_lt_is_Some_2 fs j Hjl) as [fj Hfj].
    destruct (bu_files _ _ _ B i fi Hfi) as [di0 Fi]. destruct (bu_files _ _ _ B j fj Hfj) as [dj0 Fj].
    destruct (inum_range hd s fs i fi B Hfi) as [Ri _]. destruct (inum_range hd s fs j fj B Hfj) as [Rj _].
    destruct (decide (i = k)) as [->|Hik]; [|destruct (decide (j = k)) as [->|Hjk]].
    + rewrite (iw_this _ _ _ _ _ W) in Hdi. injection Hdi as <-. rewrite Hdisk, (fi_disk _ _ _ _ Fj) in Hdj by (unfold inum_of in *; lia).
      injection Hdj as <-. intros Hoj. by apply (appending_other _ _ _ _ _ _ _ _ _ _ A j fj dj0 ltac:(done) Hfj Fj) in Hoj.
    + rewrite (iw_this _ _ _ _ _ W) in Hdj. injection Hdj as <-. rewrite Hdisk, (fi_disk _ _ _ _ Fi) in Hdi by (unfold inum_of in *; lia).
      injection Hdi as <-. by apply (appending_other _ _ _ _ _ _ _ _ _ _ A i fi di0 ltac:(done) Hfi Fi).
    + rewrite Hdisk, (fi_disk _ _ _ _ Fi) in Hdi by (unfold inum_of in *; lia). rewrite Hdisk, (fi_disk _ _ _ _ Fj) in Hdj by (unfold inum_of in *; lia).
      injection Hdi as <-. injection Hdj as <-.
      rewrite (proj1 (proj2 (appending_other _ _ _ _ _ _ _ _ _ _ A i fi di0 ltac:(done) Hfi Fi))) in Ho.
      rewrite (proj1 (proj2 (appending_other _ _ _ _ _ _ _ _ _ _ A j fj dj0 ltac:(done) Hfj Fj))).
      eapply (bu_apart _ _ _ B i j); try done; [apply Fi|apply Fj].
  - intros n Hn. rewrite (appending_head _ _ _ _ _ _ _ _ _ _ A n Hn). by apply B.
  - rewrite (pi_free _ _ _ _ P), (total_insert fs k f _ Hk). cbn [append n_data]. pose proof (ap_free _ _ _ _ _ _ D) as Hfr.
    rewrite (appending_len _ _ _ _ _ _ _ _ _ _ A) in Hfr. rewrite length_app. pose proof (bu_free _ _ _ B).
    replace (Z.of_nat (length (n_data f)) + Z.of_nat (length p)) with (Z.of_nat (length (n_data f) + length p)) in Hfr by lia. lia.
Qed.

(** The disk has room for the files, and each file is small enough. *)
Record fits (fs : list node) : Prop := {
  ft_blocks : nmeta + total fs <= FSSIZE;
  ft_size : Forall (fun f => Z.of_nat (length (n_data f)) <= MAXFILE * Z.of_nat BSIZE) fs
}.

Lemma wp_iappend hd s fs k f p : built hd s fs -> fs !! k = Some f -> fits (<[k := append f p]> fs) ->
  wp (iappend (inum_of k) p) s (fun _ s' => built hd s' (<[k := append f p]> fs)).
Proof.
  intros B Hk [Hblk Hsz]. destruct (bu_files _ _ _ B k f Hk) as [di Hf]. destruct (inum_range hd s fs k f B Hk) as [Hi Hkl].
  pose proof (bu_ready _ _ _ B) as R. destruct (fi_has _ _ _ _ Hf) as (_ & _ & _ & _ & Hlen & _).
  assert (Hmax : Z.of_nat (length (n_data f ++ p)) <= MAXFILE * Z.of_nat BSIZE).
  { rewrite list.Forall_forall in Hsz. apply (Hsz (append f p)). eapply list_elem_of_lookup_2. by apply list_lookup_insert_eq. }
  pose proof (wh_file _ _ _ (fi_whole _ _ _ _ Hf)) as F. rewrite length_app in Hmax.
  unfold iappend. apply wp_bind. eapply wp_rinode; [done|done|apply Hf|]. apply wp_bind.
  eapply wp_mono; [apply (wp_iappend_loop (S (length p)) s di (di_size di) p R F); [exact (wh_holes _ _ _ (fi_whole _ _ _ _ Hf))|lia|lia| |lia]|].
  { rewrite (total_insert fs k f _ Hk) in Hblk. cbn [append n_data] in Hblk. rewrite length_app in Hblk. rewrite Hlen. pose proof (bu_free _ _ _ B).
    replace (Z.of_nat (length (n_data f)) + Z.of_nat (length p)) with (Z.of_nat (length (n_data f) + length p)) by lia. lia. }
  intros [di1 off] s1 [Hoff D]. cbn [fst snd] in *.
  assert (Eoff : off = Z.of_nat (length (n_data f ++ p))) by (rewrite length_app; lia).
  eapply wp_mono; [apply (wp_winode s1 (inum_of k) (di_with_size off di1)); [apply D|done|]|].
  { apply wf_size; [apply (ev_file _ _ _ _ _ (ap_evolves _ _ _ _ _ _ D))|]. unfold word, MAXFILE, BSIZE in *. lia. }
  cbn beta. intros _ s' P. rewrite Eoff in P. eapply appending_built. split; try done. rewrite length_app. lia.
Qed.
