(* ===== verification/MkfsTree.v ===== *)
(** * The tree that [mkfs] builds

    [image args] is the tree of files that the arguments stand for, as a
    list of directories and files by inode number.  [mkfs] writes an image
    that holds it ([mkfs_image]). *)

From S2P Require Import Prelude CStr Mem BufIface Lock Txn Fs FsAlloc FsInode FsData FsDir FsPath Mkfs MkfsBuild MkfsFiles.

(** ** Directories and files *)

(** A directory has entries, an inode number and a name each. *)
Inductive item : Type :=
| Dir (es : list (Z * list Z))
| File (mode : Z) (data : list Z).

Definition dirent (e : Z * list Z) : list Z := le_bytes 2 e.1 ++ padded DIRSIZ e.2.

Definition node_of (x : item) : node :=
  match x with
  | Dir es => {| n_type := T_DIR; n_mode := DEFAULT_MODE; n_data := concat (dirent <$> es) |}
  | File mode data => {| n_type := T_FILE; n_mode := mode; n_data := data |}
  end.

(** The entry [e] in directory [k]. *)
Definition add_to (l : list item) (k : nat) (e : Z * list Z) : list item :=
  match l !! k with
  | Some (Dir es) => <[k := Dir (es ++ [e])]> l
  | _ => l
  end.

(** What [makedirs] makes. *)
Definition base : list item :=
  [Dir [(1, chars "."); (1, chars ".."); (2, chars "dev"); (3, chars "bin"); (4, chars "home"); (6, chars "etc")];
   Dir [(2, chars "."); (1, chars "..")]; Dir [(3, chars "."); (1, chars "..")];
   Dir [(4, chars "."); (1, chars ".."); (5, chars "root")]; Dir [(5, chars "."); (4, chars "..")];
   Dir [(6, chars "."); (1, chars "..")]].

(** Where an argument goes: the part of the name after "user/"; a name that
    starts with an underscore is that of a program. *)
Definition bare (a : list Z) : list Z := if decide (chars "user/" `prefix_of` a) then drop 5 a else a.

Inductive where_ : Type := InBin | InEtc | InHome.

#[export] Instance where_eq_dec : EqDecision where_.
Proof. solve_decision. Defined.

Definition target (a : list Z) : where_ :=
  if decide (bare a !! 0%nat = Some 95) then InBin
  else if decide (chars "passwd" `prefix_of` a \/ chars "group" `prefix_of` a \/ chars "motd" `prefix_of` a \/ chars "issue" `prefix_of` a) then InEtc
  else InHome.

Definition name_of (a : list Z) : list Z := match target a with InBin => drop 1 (bare a) | _ => bare a end.
Definition mode_of (a : list Z) : Z := match target a with InEtc => 420 | _ => DEFAULT_MODE end.
Definition dir_index (w : where_) : nat := match w with InBin => 2%nat | InEtc => 5%nat | InHome => 4%nat end.
Definition dir_path (w : where_) : list Z :=
  match w with InBin => chars "/bin/" | InEtc => chars "/etc/" | InHome => chars "/home/root/" end.

Definition add_item (l : list item) (a : list Z * list Z) : list item :=
  add_to l (dir_index (target a.1)) (inum_of (length l), name_of a.1) ++ [File (mode_of a.1) a.2].

Definition image (args : list (list Z * list Z)) : list item := foldl add_item base args.

(** ** Room *)

(** [fs'] has the files of [fs], at least as long. *)
Definition grows (fs fs' : list node) : Prop :=
  forall k f, fs !! k = Some f -> exists f', fs' !! k = Some f' /\ (length (n_data f) <= length (n_data f'))%nat.

Lemma grows_total fs fs' : grows fs fs' -> total fs <= total fs'.
Proof.
  revert fs'. induction fs as [|f fs IH]; intros fs' H.
  - induction fs' as [|f' fs' IH]; [done|]. rewrite total_cons. pose proof (blocks_for_nonneg (Z.of_nat (length (n_data f'))) ltac:(lia)).
    assert (total [] <= total fs'); [|lia]. apply IH. intros k f Hk. by rewrite lookup_nil in Hk.
  - destruct fs' as [|f' fs']; [destruct (H 0%nat f eq_refl) as (? & Hk & _); done|]. rewrite !total_cons.
    destruct (H 0%nat f eq_refl) as (f2 & [= <-] & Hle).
    pose proof (blocks_for_mono (Z.of_nat (length (n_data f))) (Z.of_nat (length (n_data f'))) ltac:(lia)).
    assert (total fs <= total fs'); [|lia]. apply IH. intros k g Hk. exact (H (S k) g Hk).
Qed.

Lemma fits_grows fs fs' : grows fs fs' -> fits fs' -> fits fs.
Proof.
  intros H [F1 F2]. split; [pose proof (grows_total _ _ H); lia|]. rewrite list.Forall_forall in *. intros f Hf.
  apply list_elem_of_lookup in Hf as [k Hk]. destruct (H k f Hk) as (f' & Hk' & Hle).
  specialize (F2 f' (list_elem_of_lookup_2 _ _ _ Hk')). cbn beta in F2. lia.
Qed.

Lemma grows_refl fs : grows fs fs.
Proof. intros k f Hk. by exists f. Qed.

Lemma grows_trans fs1 fs2 fs3 : grows fs1 fs2 -> grows fs2 fs3 -> grows fs1 fs3.
Proof.
  intros H1 H2 k f Hk. destruct (H1 k f Hk) as (g & Hg & L1). destruct (H2 k g Hg) as (h & Hh & L2). exists h. split; [done|lia].
Qed.

Lemma grows_app fs gs : grows fs (fs ++ gs).
Proof. intros k f Hk. exists f. split; [by apply lookup_app_l_Some|done]. Qed.

Lemma grows_insert fs k f g : fs !! k = Some f -> (length (n_data f) <= length (n_data g))%nat -> grows fs (<[k := g]> fs).
Proof.
  intros Hk Hle j h Hj. pose proof (lookup_lt_Some _ _ _ Hk). destruct (decide (j = k)) as [->|Hne].
  - exists g. rewrite list_lookup_insert_eq by done. split; [done|]. congruence.
  - exists h. by rewrite list_lookup_insert_ne.
Qed.

Lemma grows_cover fs fs' k f : fs !! k = Some f -> (forall g, fs' !! k = Some g -> (length (n_data g) <= length (n_data f))%nat) ->
  (forall j, j <> k -> fs' !! j = fs !! j) -> grows fs' fs.
Proof.
  intros Hk H1 H2 j g Hj. destruct (decide (j = k)) as [->|Hne]; [exists f; split; [done|by apply H1]|]. exists g. by rewrite <- H2.
Qed.

(** ** [copy_file] *)

Lemma append_append f x y : append (append f x) y = append f (x ++ y).
Proof. unfold append. cbn. by rewrite app_assoc. Qed.

Lemma append_nil f : append f [] = f.
Proof. unfold append. rewrite app_nil_r. by destruct f. Qed.

Lemma wp_copy_file fuel hd s fs k f data : built hd s fs -> fs !! k = Some f -> fits (<[k := append f data]> fs) -> (length data < fuel)%nat ->
  wp (copy_file fuel (inum_of k) data) s (fun _ s' => built hd s' (<[k := append f data]> fs)).
Proof.
  revert s fs f data. induction fuel as [|fuel IH]; intros s fs f data B Hk Hfit Hf; [lia|]. cbn [copy_file].
  pose proof (lookup_lt_Some _ _ _ Hk) as Hlt. destruct (Nat.ltb_spec 0 (length data)) as [Hp|Hp].
  - apply wp_bind. eapply wp_mono; [apply (wp_iappend hd s fs k f); [done|done|]|].
    { refine (fits_grows _ _ _ Hfit). apply (grows_cover _ _ k (append f data)); [by apply list_lookup_insert_eq| |].
      - intros g. rewrite list_lookup_insert_eq by done. intros [= <-]. cbn [append n_data]. rewrite !length_app, length_take. lia.
      - intros j Hj. by rewrite !list_lookup_insert_ne. }
    cbn beta. intros _ s1 B1. eapply wp_mono; [apply (IH s1 _ (append f (take BSIZE data)) (drop BSIZE data) B1)|].
    + by apply list_lookup_insert_eq.
    + by rewrite append_append, take_drop, list_insert_insert_eq.
    + rewrite length_drop. unfold BSIZE. lia.
    + cbn beta. intros _ s2. by rewrite append_append, take_drop, list_insert_insert_eq.
  - destruct data; [|simpl in Hp; lia]. apply wp_ret. rewrite append_nil, list_insert_id by done. done.
Qed.

(** ** Entries *)

Lemma dirent_length e : length (dirent e) = 16%nat.
Proof. unfold dirent. by rewrite length_app, le_bytes_length, padded_length. Qed.

Lemma add_to_nodes l k es e : l !! k = Some (Dir es) ->
  node_of <$> add_to l k e = <[k := append (node_of (Dir es)) (dirent e)]> (node_of <$> l).
Proof.
  intros Hk. unfold add_to. rewrite Hk, list_fmap_insert. f_equal. unfold append. cbn [node_of n_type n_mode n_data].
  rewrite fmap_app, concat_app. cbn [fmap list_fmap concat]. by rewrite app_nil_r.
Qed.

Lemma wp_entry_at hd s l k es e : built hd s (node_of <$> l) -> l !! k = Some (Dir es) -> fits (node_of <$> add_to l k e) ->
  wp (iappend (inum_of k) (dirent e)) s (fun _ s' => built hd s' (node_of <$> add_to l k e)).
Proof.
  intros B Hk. rewrite (add_to_nodes l k es e Hk). intros Hf. apply wp_iappend; [done| |done]. by rewrite list_lookup_fmap, Hk.
Qed.

Lemma wp_add_entry hd s l k es i name (Q : unit -> mk -> Prop) : built hd s (node_of <$> l) -> l !! k = Some (Dir es) ->
  strcpy (replicate DIRSIZ 0) 0 (chars name ++ [0]) = Some (padded DIRSIZ (chars name)) ->
  fits (node_of <$> add_to l k (i, chars name)) ->
  (forall s', built hd s' (node_of <$> add_to l k (i, chars name)) -> Q tt s') ->
  wp (add_entry (inum_of k) i name) s Q.
Proof.
  intros B Hk Hn Hf HQ. unfold add_entry. apply wp_bind. eapply wp_lift; [exact Hn|].
  eapply wp_mono; [by apply (wp_entry_at hd s l k es (i, chars name))|]. cbn beta. intros [] s'. apply HQ.
Qed.

(** ** [makedirs] *)

Lemma add_to_grows l k e : grows (node_of <$> l) (node_of <$> add_to l k e).
Proof.
  unfold add_to. destruct (l !! k) as [[es|]|] eqn:Hk; try apply grows_refl. rewrite list_fmap_insert.
  apply (grows_insert _ _ (node_of (Dir es))); [by rewrite list_lookup_fmap, Hk|]. cbn [node_of n_data].
  rewrite fmap_app, concat_app, length_app. lia.
Qed.

Lemma add_to_last l es e : add_to (l ++ [Dir es]) (length l) e = l ++ [Dir (es ++ [e])].
Proof. unfold add_to. rewrite list_lookup_middle by done. by rewrite insert_app_r_alt, Nat.sub_diag by lia. Qed.

Definition new_entries (l : list item) (k : nat) : list (Z * list Z) := [(inum_of (length l), chars "."); (inum_of k, chars "..")].
Definition new_tree (l : list item) (k : nat) (name : string) : list item :=
  add_to (l ++ [Dir (new_entries l k)]) k (inum_of (length l), chars name).

Lemma ialloc_nodes hd s l type mode x : built hd s (node_of <$> l) -> inum_of (length l) < NINODES -> FsInode.short type -> word mode ->
  node_of x = {| n_type := type; n_mode := mode; n_data := [] |} ->
  wp (ialloc type mode) s (fun i s' => i = inum_of (length l) /\ built hd s' (node_of <$> l ++ [x])).
Proof.
  intros B Hc Ht Hm Hx. eapply wp_mono; [apply (wp_mkfs_ialloc hd s (node_of <$> l)); try done; by rewrite length_fmap|]. cbn beta.
  rewrite length_fmap. intros i s' [-> B']. split; [done|]. rewrite fmap_app. cbn [fmap list_fmap]. by rewrite Hx.
Qed.

Lemma wp_new_dir hd s l k es name (Q : Z -> mk -> Prop) : built hd s (node_of <$> l) -> l !! k = Some (Dir es) -> inum_of (length l) < NINODES ->
  strcpy (replicate DIRSIZ 0) 0 (chars name ++ [0]) = Some (padded DIRSIZ (chars name)) ->
  fits (node_of <$> new_tree l k name) ->
  (forall s', built hd s' (node_of <$> new_tree l k name) -> Q (inum_of (length l)) s') ->
  wp (new_dir (inum_of k) name) s Q.
Proof.
  intros B Hk Hc Hn Hfit HQ. unfold new_dir. apply wp_bind.
  assert (F2 : fits (node_of <$> l ++ [Dir (new_entries l k)])) by (refine (fits_grows _ _ _ Hfit); apply add_to_grows).
  eapply wp_mono; [by apply (ialloc_nodes hd s l T_DIR DEFAULT_MODE (Dir []))|]. cbn beta. intros i s1 [-> B1].
  apply wp_bind. eapply (wp_add_entry hd s1 _ (length l)); [exact B1|by apply list_lookup_middle|reflexivity| |].
  { refine (fits_grows _ _ _ F2). rewrite add_to_last. replace (l ++ [Dir (new_entries l k)]) with
      (add_to (l ++ [Dir [(inum_of (length l), chars ".")]]) (length l) (inum_of k, chars "..")) by apply add_to_last. apply add_to_grows. }
  rewrite add_to_last. cbn [app]. intros s2 B2.
  apply wp_bind. eapply (wp_add_entry hd s2 _ (length l)); [exact B2|by apply list_lookup_middle|reflexivity|by rewrite add_to_last|].
  rewrite add_to_last. cbn [app]. intros s3 B3.
  apply wp_bind. eapply (wp_add_entry hd s3 _ k); [exact B3|by apply lookup_app_l_Some|exact Hn|exact Hfit|]. intros s4 B4.
  apply wp_ret. by apply HQ.
Qed.

(** The directories of [base]. *)
Definition dirs0 : dirs := {| binino := 3; superuserino := 5; etcino := 6 |}.

Ltac small_fits := split; [vm_compute; discriminate|by_decide].

Lemma wp_makedirs hd s : built hd s [] -> wp makedirs s (fun d s' => d = dirs0 /\ built hd s' (node_of <$> base)).
Proof.
  intros B. unfold makedirs. apply wp_bind. eapply wp_mono; [by apply (ialloc_nodes hd s [] T_DIR DEFAULT_MODE (Dir []))|]. cbn beta.
  intros i s1 [-> B1]. change (inum_of (length [])) with (inum_of 0). change (negb (inum_of 0 =? ROOTINO)) with false. cbv iota.
  apply wp_bind. eapply (wp_add_entry hd s1 _ 0); [exact B1|reflexivity|reflexivity|small_fits|]. intros s2 B2.
  apply wp_bind. eapply (wp_add_entry hd s2 _ 0); [exact B2|reflexivity|reflexivity|small_fits|]. intros s3 B3.
  apply wp_bind. eapply (wp_new_dir hd s3 _ 0); [exact B3|reflexivity|reflexivity|reflexivity|small_fits|]. intros s4 B4.
  apply wp_bind. eapply (wp_new_dir hd s4 _ 0); [exact B4|reflexivity|reflexivity|reflexivity|small_fits|]. intros s5 B5.
  apply wp_bind. eapply (wp_new_dir hd s5 _ 0); [exact B5|reflexivity|reflexivity|reflexivity|small_fits|]. intros s6 B6.
  apply wp_bind. change (wp (new_dir (inum_of 3) "root") s6 (fun a s' => wp (let! etcino := new_dir (inum_of 0) "etc" in
    ret {| binino := 3; superuserino := a; etcino := etcino |}) s' (fun d s' => d = dirs0 /\ built hd s' (node_of <$> base)))).
  eapply (wp_new_dir hd s6 _ 3); [exact B6|reflexivity|reflexivity|reflexivity|small_fits|]. intros s7 B7.
  apply wp_bind. eapply (wp_new_dir hd s7 _ 0); [exact B7|reflexivity|reflexivity|reflexivity|small_fits|]. intros s8 B8.
  apply wp_ret. split; [reflexivity|exact B8].
Qed.

(** ** The arguments *)

Lemma upto_nul_prefix l : upto_nul l `prefix_of` l.
Proof.
  induction l as [|c l IH]; [done|]. cbn [upto_nul]. destruct (c =? 0); [apply prefix_nil|]. by apply prefix_cons.
Qed.

Lemma prefix_nul (p a : list Z) : nonul p -> p `prefix_of` a ++ [0] -> p `prefix_of` a.
Proof.
  revert a. induction p as [|c p IH]; intros a Hp H; [apply prefix_nil|]. apply List.Forall_cons_iff in Hp as [Hc Hp].
  destruct a as [|b a]; cbn [app] in H; [apply prefix_cons_inv_1 in H; congruence|].
  pose proof (prefix_cons_inv_1 _ _ _ _ H) as ->. apply prefix_cons, IH; [done|]. by apply prefix_cons_inv_2 in H.
Qed.

Lemma has_prefix_spec a p : nonul a -> nonul (chars p) -> length (chars p) = String.length p ->
  has_prefix (a ++ [0]) p = Some (bool_decide (chars p `prefix_of` a)).
Proof.
  intros Ha Hp Hl. unfold has_prefix. rewrite <- Hl.
  assert (Hr : forall x : list Z, nonul x -> readable (length (chars p)) (x ++ [0])).
  { intros x _. destruct (Nat.le_gt_cases (length (chars p)) (length (x ++ [0%Z]))); [by left|]. right. rewrite take_ge by lia. apply elem_of_app. right. by left. }
  destruct (strncmp_zero (length (chars p)) (a ++ [0]) (chars p ++ [0])) as (c & -> & Hc); [by apply Hr|by apply Hr|].
  cbn [mbind option_bind]. f_equal. rewrite take_app_length, (upto_nul_all (chars p)) in Hc by done.
  destruct (Z.eqb_spec c 0) as [->|Hn]; symmetry.
  - apply bool_decide_eq_true. destruct Hc as [Hc _]. specialize (Hc eq_refl). apply prefix_nul; [done|].
    rewrite <- Hc at 1. etrans; [apply upto_nul_prefix|]. exists (drop (length (chars p)) (a ++ [0])). by rewrite take_drop.
  - apply bool_decide_eq_false. intros [r ->]. apply Hn, Hc. rewrite <- app_assoc, take_app_length. by apply upto_nul_all.
Qed.

Lemma bare_nul a : (if bool_decide (chars "user/" `prefix_of` a) then drop 5 (a ++ [0]) else a ++ [0]) = bare a ++ [0].
Proof.
  unfold bare. case_decide as H; [|by rewrite bool_decide_eq_false_2]. rewrite bool_decide_eq_true_2 by done.
  destruct H as [r ->]. done.
Qed.

Lemma bare_nonul a : nonul a -> nonul (bare a).
Proof. intros H. unfold bare. case_decide; [|done]. by apply Forall_drop. Qed.

Lemma name_nonul a : nonul a -> nonul (name_of a).
Proof. intros H%bare_nonul. unfold name_of. destruct (target a); try done. by apply Forall_drop. Qed.

Lemma place_target a : nonul a -> place dirs0 (a ++ [0]) = Some (inum_of (dir_index (target a)), name_of a ++ [0], mode_of a).
Proof.
  intros Ha. unfold place. rewrite !has_prefix_spec by (done || by_decide). cbn [mbind option_bind]. rewrite bare_nul.
  unfold name_of, mode_of. unfold target at 1 2 3.
  destruct (bare a) as [|c b] eqn:E.
  - cbn [app]. rewrite bool_decide_eq_false_2 by done. rewrite decide_False by done.
    case_decide as H; [|rewrite !bool_decide_eq_false_2 by tauto; done].
    destruct H as [H|[H|[H|H]]]; rewrite (bool_decide_eq_true_2 _ H), ?orb_true_r; done.
  - cbn [app lookup list_lookup drop]. case_bool_decide as H1.
    + by rewrite decide_True.
    + rewrite decide_False by done. case_decide as H; [|rewrite !bool_decide_eq_false_2 by tauto; done].
      destruct H as [H|[H|[H|H]]]; rewrite (bool_decide_eq_true_2 _ H), ?orb_true_r; done.
Qed.

Lemma strchr_absent l c : nonul l -> c ∉ l -> strchr (l ++ [0]) c = Some None.
Proof.
  induction 1 as [|b l Hb _ IH]; intros Hc; [done|]. cbn [app strchr]. rewrite (proj2 (Z.eqb_neq b 0)) by done.
  apply not_elem_of_cons in Hc as [Hne Hc]. rewrite (proj2 (Z.eqb_neq b c)) by congruence. by rewrite IH.
Qed.

Lemma no_slash_bare a : nonul a -> SLASH ∉ bare a -> no_slash (a ++ [0]) = Some true.
Proof.
  intros Ha Hs. unfold no_slash. rewrite has_prefix_spec by (done || by_decide). cbn [mbind option_bind].
  rewrite bare_nul, strchr_absent by (try apply bare_nonul; done). done.
Qed.

Lemma add_to_app l k es e x : l !! k = Some (Dir es) -> add_to (l ++ [x]) k e = add_to l k e ++ [x].
Proof.
  intros Hk. unfold add_to. rewrite Hk, (lookup_app_l_Some _ _ _ _ Hk). apply insert_app_l. by eapply lookup_lt_Some.
Qed.

Lemma add_to_length l k e : length (add_to l k e) = length l.
Proof. unfold add_to. destruct (l !! k) as [[]|]; by rewrite ?length_insert. Qed.

Lemma name_entry name : nonul name -> strncpy (replicate DIRSIZ 0) 0 (name ++ [0]) DIRSIZ = Some (padded DIRSIZ name).
Proof.
  intros Hn. rewrite strncpy_padded.
  - rewrite splice_whole; [|by rewrite padded_length]. f_equal. unfold padded. f_equal. f_equal.
    destruct (Nat.le_gt_cases DIRSIZ (length name)); [by rewrite take_app_le|].
    rewrite (take_ge name), take_ge by (rewrite ?length_app; simpl; lia). by rewrite upto_nul_app, upto_nul_all.
  - done.
  - destruct (Nat.le_gt_cases DIRSIZ (length (name ++ [0%Z]))); [by left|]. right. rewrite take_ge by lia.
    apply elem_of_app. right. by left.
Qed.

(** An argument of the command line whose name can be used. *)
Definition usable (a : list Z) : Prop := nonul a /\ SLASH ∉ bare a.

Lemma mode_word a : word (mode_of a).
Proof. unfold mode_of. destruct (target a); done. Qed.

Lemma wp_add_file hd s l es a data : built hd s (node_of <$> l) -> l !! dir_index (target a) = Some (Dir es) -> inum_of (length l) < NINODES ->
  usable a -> fits (node_of <$> add_item l (a, data)) ->
  wp (add_file dirs0 (a ++ [0], Some data)) s (fun _ s' => built hd s' (node_of <$> add_item l (a, data))).
Proof.
  intros B Hk Hc [Ha Hs] Hfit. unfold add_file. cbn [fst snd].
  apply wp_bind. eapply wp_lift; [by apply no_slash_bare|]. cbn [negb].
  apply wp_bind. eapply wp_lift; [by apply place_target|]. cbv beta iota zeta.
  apply wp_bind. eapply wp_mono; [apply (ialloc_nodes hd s l T_FILE (mode_of a) (File (mode_of a) [])); try done; apply mode_word|].
  cbn beta. intros i s1 [-> B1].
  apply wp_bind. eapply wp_lift; [by apply name_entry, name_nonul|].
  set (e := (inum_of (length l), name_of a)). set (k := dir_index (target a)) in *.
  assert (Ek : add_to (l ++ [File (mode_of a) []]) k e = add_to l k e ++ [File (mode_of a) []]) by (by eapply add_to_app).
  assert (Efin : <[length l := append (node_of (File (mode_of a) [])) data]> (node_of <$> add_to l k e ++ [File (mode_of a) []]) =
    node_of <$> add_item l (a, data)).
  { unfold add_item. fold k e. cbn [fst snd]. rewrite !fmap_app. rewrite insert_app_r_alt; rewrite length_fmap, add_to_length; [|lia].
    by rewrite Nat.sub_diag. }
  assert (Hlast : (node_of <$> add_to l k e ++ [File (mode_of a) []]) !! length l = Some (node_of (File (mode_of a) []))).
  { rewrite list_lookup_fmap, list_lookup_middle; [done|]. by rewrite add_to_length. }
  apply wp_bind. eapply wp_mono; [apply (wp_entry_at hd s1 _ k es e B1); [by apply lookup_app_l_Some|]|].
  - rewrite Ek. refine (fits_grows _ _ _ Hfit). rewrite <- Efin. eapply grows_insert; [exact Hlast|]. cbn [append node_of n_data length]. lia.
  - cbn beta. rewrite Ek. intros _ s2 B2.
    eapply wp_mono; [apply (wp_copy_file _ hd s2 _ (length l) _ data B2 Hlast)|]; [by rewrite Efin|lia|].
    cbn beta. intros _ s3. by rewrite Efin.
Qed.

(** ** The tree *)

(** The entries that the arguments add to directory [k], when the first of
    them gets the place [n] in the list. *)
Fixpoint entries_for (k n : nat) (args : list (list Z * list Z)) : list (Z * list Z) :=
  match args with
  | [] => []
  | a :: args' => (if decide (dir_index (target a.1) = k) then [(inum_of n, name_of a.1)] else []) ++ entries_for k (S n) args'
  end.

Definition all_dirs (l : list item) : Prop := forall k, (k < 6)%nat -> exists es, l !! k = Some (Dir es).

Lemma dir_index_lt w : (dir_index w < 6)%nat.
Proof. destruct w; simpl; lia. Qed.

Lemma add_to_lookup l k e j : add_to l k e !! j =
  if decide (j = k) then (fun x => match x with Dir es => Dir (es ++ [e]) | x => x end) <$> l !! j else l !! j.
Proof.
  unfold add_to. case_decide as H.
  - subst j. destruct (l !! k) as [[es|m d]|] eqn:E; cbn [fmap option_fmap option_map]; try done.
    apply list_lookup_insert_eq. by eapply lookup_lt_Some.
  - destruct (l !! k) as [[es|m d]|]; try done. by rewrite list_lookup_insert_ne.
Qed.

Lemma add_item_dir l a k es : l !! k = Some (Dir es) ->
  add_item l a !! k = Some (Dir (es ++ if decide (dir_index (target a.1) = k) then [(inum_of (length l), name_of a.1)] else [])).
Proof.
  intros Hk. unfold add_item. apply lookup_app_l_Some. rewrite add_to_lookup. rewrite Hk.
  destruct (decide (k = dir_index (target a.1))) as [->|Hne]; [by rewrite decide_True|]. rewrite decide_False by congruence.
  by rewrite app_nil_r.
Qed.

Lemma add_item_file l a k m d : l !! k = Some (File m d) -> add_item l a !! k = Some (File m d).
Proof. intros Hk. unfold add_item. apply lookup_app_l_Some. rewrite add_to_lookup, Hk. by case_decide. Qed.

Lemma add_item_last l a : add_item l a !! length l = Some (File (mode_of a.1) a.2).
Proof. unfold add_item. by rewrite list_lookup_middle by (by rewrite add_to_length). Qed.

Lemma add_item_length l a : length (add_item l a) = S (length l).
Proof. unfold add_item. rewrite length_app, add_to_length. simpl. lia. Qed.

Lemma add_item_dirs l a : all_dirs l -> all_dirs (add_item l a).
Proof. intros H k Hk. destruct (H k Hk) as [es He]. eexists. by apply add_item_dir. Qed.

Lemma image_length l args : length (foldl add_item l args) = (length l + length args)%nat.
Proof. revert l. induction args as [|a args IH]; intros l; cbn [foldl length]; [lia|]. rewrite IH, add_item_length. lia. Qed.

Lemma image_dir l args k es : l !! k = Some (Dir es) -> foldl add_item l args !! k = Some (Dir (es ++ entries_for k (length l) args)).
Proof.
  revert l es. induction args as [|a args IH]; intros l es Hk; cbn [foldl entries_for]; [by rewrite app_nil_r|].
  rewrite (IH _ _ (add_item_dir l a k es Hk)), add_item_length, <- app_assoc. done.
Qed.

Lemma image_old l args k m d : l !! k = Some (File m d) -> foldl add_item l args !! k = Some (File m d).
Proof. revert l. induction args as [|a args IH]; intros l Hk; cbn [foldl]; [done|]. by apply IH, add_item_file. Qed.

Lemma image_file l args i a : args !! i = Some a -> foldl add_item l args !! (length l + i)%nat = Some (File (mode_of a.1) a.2).
Proof.
  revert l i. induction args as [|b args IH]; intros l i Hi; [done|]. cbn [foldl]. destruct i as [|i].
  - injection Hi as ->. rewrite Nat.add_0_r. apply image_old, add_item_last.
  - rewrite <- (IH (add_item l b) i Hi), add_item_length. f_equal. lia.
Qed.

Lemma add_item_grows l a : grows (node_of <$> l) (node_of <$> add_item l a).
Proof. unfold add_item. rewrite fmap_app. eapply grows_trans; [apply add_to_grows|apply grows_app]. Qed.

Lemma image_grows l args : grows (node_of <$> l) (node_of <$> foldl add_item l args).
Proof. revert l. induction args as [|a args IH]; intros l; [apply grows_refl|]. eapply grows_trans; [apply add_item_grows|apply IH]. Qed.

(** The command line that [main] has for them. *)
Definition argv (args : list (list Z * list Z)) : list (list Z * option (list Z)) := (fun a => (a.1 ++ [0], Some a.2)) <$> args.

Lemma wp_add_files hd s l args : built hd s (node_of <$> l) -> all_dirs l -> inum_of (length l + length args) <= NINODES ->
  Forall (fun a => usable a.1) args -> fits (node_of <$> foldl add_item l args) ->
  wp (add_files dirs0 (argv args)) s (fun _ s' => built hd s' (node_of <$> foldl add_item l args)).
Proof.
  revert s l. induction args as [|[a d] args IH]; intros s l B Hd Hc Hu Hfit; [by apply wp_ret|].
  apply Forall_cons_iff in Hu as [Hu1 Hu2]. destruct (Hd _ (dir_index_lt (target a))) as [es He].
  unfold argv. cbn [fmap list_fmap add_files foldl length fst snd] in *. apply wp_bind.
  eapply wp_mono; [eapply wp_add_file; try done; [unfold inum_of in *; lia|]|].
  - refine (fits_grows _ _ _ Hfit). apply image_grows.
  - cbn beta. intros _ s1 B1. apply IH; try done; [by apply add_item_dirs|].
    rewrite add_item_length. unfold inum_of in *. lia.
Qed.
