(* ===== verification/MkfsImage.v ===== *)
(** * The image that [mkfs] writes

    The image has the geometry, the free map and the tree that the kernel
    relies on, an empty log, and every file of the command line at its path
    ([mkfs_image]). *)

From S2P Require Import Prelude CStr Mem BufIface Lock Txn Fs FsAlloc FsInode FsData FsDir FsPath Mkfs MkfsBuild MkfsFiles MkfsTree.

(** ** The empty image *)

Lemma clear_image_zeroes n i s : 0 <= i -> i + Z.of_nat n <= FSSIZE -> img s = replicate (at_ i) zeroes ->
  clear_image n i s = Ret tt (with_img s (replicate (at_ (i + Z.of_nat n)) zeroes)).
Proof.
  revert i s. induction n as [|n IH]; intros i s Hi Hn Him.
  - rewrite Z.add_0_r, <- Him. by destruct s.
  - cbn [clear_image]. unfold bind, wsect, modify. rewrite sector by lia. rewrite Him, length_replicate, decide_False by lia.
    rewrite Nat.sub_diag. cbn [replicate app].
    rewrite IH; [|lia|lia|].
    + do 3 f_equal. lia.
    + cbn [img]. replace (at_ (i + 1)) with (at_ i + 1)%nat by lia. by rewrite replicate_add.
Qed.

Definition super_block : block := default zeroes (put_words (sb_words mkfs_sb) zeroes 0).

Definition blank : mk := {| img := <[1%nat := super_block]> (replicate (at_ FSSIZE) zeroes); freeinode := 1; freeblock := nmeta |}.

Lemma super_block_ok : put_words (sb_words mkfs_sb) zeroes 0 = Some super_block /\ length super_block = BSIZE /\ superblock_of super_block = Some mkfs_sb.
Proof. split_and!; vm_compute; reflexivity. Qed.

Lemma blank_block n : 0 <= n < FSSIZE -> n <> 1 -> img blank !! at_ n = Some zeroes.
Proof.
  intros Hn H1. unfold blank. cbn [img]. rewrite list_lookup_insert_ne by lia. apply lookup_replicate_2. lia.
Qed.

Lemma blank_ready : ready blank.
Proof.
  split.
  - unfold blank. cbn [img]. by rewrite length_insert, length_replicate.
  - unfold blank, blocks_wf. cbn [img]. apply Forall_insert; [|apply super_block_ok]. apply Forall_replicate. apply length_replicate.
  - cbn [blank freeblock]. change nmeta with 84. unfold FSSIZE. lia.
  - cbn [blank freeblock]. change nmeta with 84. intros n Hn. apply blank_block; lia.
Qed.

Lemma ioff_cases inum : ioff inum = 0%nat \/ ioff inum = 128%nat \/ ioff inum = 256%nat \/ ioff inum = 384%nat.
Proof. unfold ioff. change IPB with 4. pose proof (Z.mod_pos_bound inum 4 ltac:(lia)). lia. Qed.

Lemma blank_inode j : 0 <= j < NINODES -> exists di, disk_inode (view blank) q j = Some di /\ di_type di = 0.
Proof.
  intros Hj. destruct (inode_block blank j blank_ready Hj) as (d & Hd & Hv & _ & Hr & H32 & _). unfold disk_inode. rewrite Hv.
  cbn [blank freeblock] in Hr. change nmeta with 84 in Hr. rewrite blank_block in Hd by (unfold FSSIZE; lia). injection Hd as <-.
  destruct (ioff_cases j) as [-> |[-> |[-> | ->]]]; eexists; (split; [vm_compute; reflexivity|reflexivity]).
Qed.

Definition first_blocks (n : Z) : option block := img blank !! at_ n.

Lemma blank_built : built first_blocks blank [].
Proof.
  split; try done.
  - exact blank_ready.
  - intros j Hj. apply blank_inode. unfold inum_of in Hj. cbn [length] in Hj. unfold NINODES in *. lia.
  - intros j k dj dk n _ Hj. cbn [length] in Hj. lia.
Qed.

(** ** The end of [main] *)

Lemma wp_mkfs_balloc s : ready s -> wp (balloc (freeblock s)) s (fun _ s' => img s' = view s).
Proof.
  intros R. pose proof (rd_free _ R) as Hf. change nmeta with 84 in Hf. unfold FSSIZE in Hf. unfold balloc.
  rewrite (proj2 (Z.ltb_lt _ _)) by (unfold BSIZE; lia). apply wp_bind. destruct (bitmap_ok (at_ (freeblock s))) as [E _]; [lia|].
  eapply wp_lift; [exact E|]. unfold wsect. apply wp_modify. cbn [img]. rewrite sector by done.
  change (at_ (sb_bmapstart mkfs_sb)) with MAPBLOCK. rewrite decide_True by (rewrite (rd_len _ R); unfold MAPBLOCK, FSSIZE; lia). done.
Qed.

Lemma wp_mkfs args : inum_of (6 + length args) <= NINODES -> Forall (fun a => usable a.1) args -> fits (node_of <$> image args) ->
  wp (mkfs (argv args)) new_image (fun _ s' => exists s, built first_blocks s (node_of <$> image args) /\ img s' = view s).
Proof.
  intros Hc Hu Hfit. destruct super_block_ok as (Hsb & Hsl & _). unfold mkfs. apply wp_bind. unfold wp at 1.
  rewrite clear_image_zeroes by (try done; unfold FSSIZE; lia).
  apply wp_bind. eapply wp_lift; [exact Hsb|]. apply wp_bind. unfold wsect. apply wp_modify. rewrite sector by done.
  cbn [with_img img freeinode freeblock new_image].
  rewrite decide_True by (rewrite length_replicate; unfold FSSIZE; lia).
  change (at_ 1) with 1%nat. rewrite Z.add_0_l, Z2Nat.id by done. fold blank.
  apply wp_bind. eapply wp_mono; [apply (wp_makedirs first_blocks blank), blank_built|]. cbn beta. intros d s1 [-> B1].
  apply wp_bind. eapply wp_mono; [apply (wp_add_files first_blocks s1 base args B1); try done|].
  { intros k Hk. do 6 (destruct k as [|k]; [eexists; reflexivity|]). lia. }
  cbn beta. intros _ s2 B2. apply wp_bind, wp_gets. eapply wp_mono; [apply wp_mkfs_balloc, B2|]. cbn beta. intros _ s3 E. by exists s2.
Qed.

(** ** Reading the tree back *)

(** The first entry with the name. *)
Fixpoint assoc (es : list (Z * list Z)) (name : list Z) : option Z :=
  match es with
  | [] => None
  | (i, n) :: es' => if decide (dname n = dname name) then Some i else assoc es' name
  end.

(** Following a path in the tree. *)
Fixpoint walk (l : list item) (i : Z) (path : list (list Z)) : option Z :=
  match path with
  | [] => Some i
  | e :: path' =>
      match l !! at_ (i - 1) with
      | Some (Dir es) => match assoc es e with Some j => walk l j path' | None => None end
      | _ => None
      end
  end.

(** The entries of directories are for items of the tree. *)
Definition closed (l : list item) : Prop :=
  forall k es e, l !! k = Some (Dir es) -> e ∈ es -> exists j, e.1 = inum_of j /\ (j < length l)%nat.

Lemma entries_length es : length (concat (dirent <$> es)) = (16 * length es)%nat.
Proof. induction es as [|e es IH]; [done|].
  change (concat (dirent <$> e :: es)) with (dirent e ++ concat (dirent <$> es)). rewrite length_app, dirent_length, IH. cbn [length]. lia.
Qed.

Lemma entries_lookup es k e i : es !! k = Some e -> (i < 16)%nat -> concat (dirent <$> es) !! (16 * k + i)%nat = dirent e !! i.
Proof.
  revert k. induction es as [|x es IH]; intros k Hk Hi; [done|]. change (concat (dirent <$> x :: es)) with (dirent x ++ concat (dirent <$> es)).
  destruct k as [|k].
  - injection Hk as ->. rewrite Nat.mul_0_r, Nat.add_0_l, lookup_app_l by (rewrite dirent_length; lia). done.
  - rewrite lookup_app_r, dirent_length by (rewrite dirent_length; lia).
    replace (16 * S k + i - 16)%nat with (16 * k + i)%nat by lia. by apply IH.
Qed.

Section directory.
Context (v : list block) (inum : Z) (es : list (Z * list Z)) (di : dinode).
Hypotheses (F : file_is v inum (node_of (Dir es)) di) (Hes : forall e, e ∈ es -> 0 < e.1 < 2 ^ 16).

Lemma directory_size : di_size di = DESIZE * Z.of_nat (length es).
Proof.
  destruct (fi_has _ _ _ _ F) as (_ & _ & _ & _ & -> & _). cbn [node_of n_data]. rewrite entries_length. unfold DESIZE. lia.
Qed.

Lemma directory_type : di_type di = T_DIR.
Proof. apply (fi_has _ _ _ _ F). Qed.

Lemma directory_count : at_ (di_size di / DESIZE) = length es.
Proof. rewrite directory_size, Z.mul_comm, Z.div_mul by done. lia. Qed.

Lemma directory_entry k e : es !! k = Some e -> raw_entry v di (DESIZE * Z.of_nat k) = dirent e.
Proof.
  intros Hk. apply list_eq. intros i. unfold raw_entry. rewrite list_lookup_fmap.
  destruct (decide (i < 16)%nat) as [Hi|Hi].
  - rewrite lookup_seqZ_lt by (unfold DESIZE; lia). cbn [fmap option_fmap option_map].
    destruct (lookup_lt_is_Some_2 (dirent e) i) as [c Hc]; [by rewrite dirent_length|]. rewrite Hc. f_equal.
    replace (DESIZE * Z.of_nat k + Z.of_nat i) with (Z.of_nat (16 * k + i)) by (unfold DESIZE; lia).
    apply (fi_bytes _ _ _ _ F). cbn [node_of n_data]. by rewrite (entries_lookup es k e).
  - rewrite lookup_seqZ_ge by (unfold DESIZE; lia). by rewrite lookup_ge_None_2 by (rewrite dirent_length; lia).
Qed.

Lemma directory_inum k e : es !! k = Some e -> entry_inum v di (DESIZE * Z.of_nat k) = e.1.
Proof.
  intros Hk. unfold entry_inum. rewrite (directory_entry k e Hk). unfold dirent.
  rewrite take_app_length' by (by rewrite le_bytes_length). rewrite le_value_bytes. apply Z.mod_small.
  pose proof (Hes e (list_elem_of_lookup_2 _ _ _ Hk)). change (8 * Z.of_nat 2) with 16. lia.
Qed.

Lemma directory_name k e : es !! k = Some e -> entry_name v di (DESIZE * Z.of_nat k) = dname e.2.
Proof.
  intros Hk. unfold entry_name. rewrite (directory_entry k e Hk). unfold dirent.
  rewrite drop_app_length' by (by rewrite le_bytes_length). exact (upto_padded DIRSIZ e.2).
Qed.

Lemma directory_from name pre suf : es = pre ++ suf ->
  snd <$> find_from v di name (length suf) (DESIZE * Z.of_nat (length pre)) = assoc suf name.
Proof.
  revert pre. induction suf as [|[i n] suf IH]; intros pre E; [done|]. cbn [length find_from assoc].
  assert (Hk : es !! length pre = Some (i, n)) by (rewrite E; by apply list_lookup_middle).
  unfold hit. rewrite (directory_inum _ _ Hk), (directory_name _ _ Hk). cbn [fst snd].
  pose proof (Hes _ (list_elem_of_lookup_2 _ _ _ Hk)) as Hi. cbn [fst] in Hi.
  destruct (decide (dname n = dname name)) as [En|En].
  - by rewrite decide_True by (split; [lia|done]).
  - rewrite decide_False by tauto. rewrite <- (IH (pre ++ [(i, n)])) by (by rewrite E, <- app_assoc).
    do 2 f_equal. rewrite length_app. cbn [length]. unfold DESIZE. lia.
Qed.

Lemma directory_find name : snd <$> dir_find v di name = assoc es name.
Proof. unfold dir_find. rewrite directory_count. exact (directory_from name [] es eq_refl). Qed.
End directory.

Section read_back.
Context (hd : Z -> option block) (s : mk) (l : list item).
Hypotheses (B : built hd s (node_of <$> l)) (C : closed l).

Lemma items_count : inum_of (length l) <= NINODES.
Proof. rewrite <- (length_fmap node_of l). apply B. Qed.

Lemma item_inode k x : l !! k = Some x -> exists di, file_is (view s) (inum_of k) (node_of x) di /\ live q (view s) (inum_of k) di.
Proof.
  intros Hk. destruct (bu_files _ _ _ B k (node_of x)) as [di F]; [by rewrite list_lookup_fmap, Hk|]. exists di. split; [done|].
  pose proof items_count as Hc. pose proof (lookup_lt_Some _ _ _ Hk). split; [change (sb_ninodes q) with NINODES; unfold inum_of in *; lia|].
  split; [apply F|]. destruct (fi_has _ _ _ _ F) as (-> & _). by destruct x.
Qed.

Lemma item_live inum di : live q (view s) inum di -> exists k x, inum = inum_of k /\ l !! k = Some x /\ file_is (view s) inum (node_of x) di.
Proof.
  intros (Hr & Hd & Ht). change (sb_ninodes q) with NINODES in Hr.
  destruct (decide (inum = 0 \/ inum_of (length l) <= inum < NINODES)) as [Hu|Hu].
  { rewrite <- (length_fmap node_of l) in Hu. destruct (bu_unused _ _ _ B inum Hu) as (d & Hd' & H0). congruence. }
  destruct (lookup_lt_is_Some_2 l (at_ (inum - 1))) as [x Hx]; [unfold inum_of in *; lia|].
  exists (at_ (inum - 1)), x. assert (E : inum = inum_of (at_ (inum - 1))) by (unfold inum_of in *; lia). split; [done|]. split; [done|].
  destruct (item_inode _ _ Hx) as (d & F & _). rewrite <- E in F. pose proof (fi_disk _ _ _ _ F). by simplify_eq.
Qed.

Lemma entries_small k es e : l !! k = Some (Dir es) -> e ∈ es -> 0 < e.1 < 2 ^ 16.
Proof.
  intros Hk He. destruct (C k es e Hk He) as (j & -> & Hj). pose proof items_count. unfold inum_of, NINODES in *. lia.
Qed.

Lemma read_tree : disk_tree q (view s).
Proof.
  split.
  - intros inum di Hl. destruct (item_live inum di Hl) as (k & x & _ & _ & F). destruct (fi_has _ _ _ _ F) as (_ & _ & _ & -> & _). done.
  - intros inum di Hl Ht. destruct (item_live inum di Hl) as (k & x & _ & _ & F). split; [apply F|done|].
    destruct (fi_has _ _ _ _ F) as (Ht' & _). destruct x as [es|m d]; [|rewrite Ht in Ht'; done].
    rewrite (directory_size _ _ _ _ F), Z.mul_comm. by apply Z.mod_mul.
  - intros inum di k Hl Ht Hk _. destruct (item_live inum di Hl) as (j & x & _ & Hx & F). destruct (fi_has _ _ _ _ F) as (Ht' & _).
    destruct x as [es|m d]; [|rewrite Ht in Ht'; done]. rewrite (directory_count _ _ _ _ F) in Hk.
    destruct (lookup_lt_is_Some_2 es k Hk) as [e He]. pose proof (list_elem_of_lookup_2 _ _ _ He) as Hin.
    rewrite (directory_inum _ _ _ _ F (fun e => entries_small _ _ e Hx) k e He). destruct (C _ _ _ Hx Hin) as (n & -> & Hn).
    destruct (lookup_lt_is_Some_2 l n Hn) as [y Hy]. destruct (item_inode n y Hy) as (d & _ & Hd). by exists d.
Qed.

Lemma assoc_in es name j : assoc es name = Some j -> exists n, (j, n) ∈ es.
Proof.
  induction es as [|[i n] es IH]; [done|]. cbn [assoc]. case_decide.
  - intros [= ->]. exists n. by left.
  - intros (m & Hm)%IH. exists m. by right.
Qed.

Lemma read_path path k : (k < length l)%nat -> resolve false (view s) q (inum_of k) path = walk l (inum_of k) path.
Proof.
  revert k. induction path as [|e path IH]; intros k Hk; [done|]. cbn [resolve walk].
  destruct (lookup_lt_is_Some_2 l k Hk) as [x Hx]. destruct (item_inode k x Hx) as (di & F & _). rewrite (fi_disk _ _ _ _ F).
  replace (at_ (inum_of k - 1)) with k by (unfold inum_of; lia). rewrite Hx. destruct (fi_has _ _ _ _ F) as (-> & _).
  destruct x as [es|m d]; [|done]. cbn [node_of n_type andb negb T_DIR]. change (T_DIR =? T_DIR) with true. cbn [negb].
  pose proof (directory_find _ _ _ _ F (fun e => entries_small _ _ e Hx) e) as Hf. rewrite <- Hf.
  destruct (dir_find (view s) di e) as [[o j]|]; [|done]. cbn [fmap option_fmap option_map snd] in *. symmetry in Hf.
  destruct (assoc_in _ _ _ Hf) as [n Hn]. destruct (C _ _ _ Hx Hn) as (m & Hm & Hlt). cbn [fst] in Hm. rewrite Hm. by apply IH.
Qed.
End read_back.

(** ** Paths *)

Lemma closed_base : closed base.
Proof.
  intros k es e Hk He. assert (H : Forall (fun x => match x with Dir es => Forall (fun e : Z * list Z => 1 <= e.1 <= 6) es | _ => True end) base).
  { repeat constructor; simpl; lia. }
  rewrite list.Forall_forall in H. specialize (H _ (list_elem_of_lookup_2 _ _ _ Hk)). cbn beta iota in H.
  rewrite list.Forall_forall in H. specialize (H e He). exists (at_ (e.1 - 1)). unfold inum_of. cbn [base length]. lia.
Qed.

Lemma closed_add l a : closed l -> closed (add_item l a).
Proof.
  intros C k es e Hk He. rewrite add_item_length. unfold add_item in Hk. apply lookup_app_Some in Hk as [Hk|[_ Hk]].
  - rewrite add_to_lookup in Hk. case_decide as Ek.
    + destruct (l !! k) as [[es'|]|] eqn:El; try done. injection Hk as <-. apply elem_of_app in He as [He|He].
      * destruct (C k es' e El He) as (j & -> & Hj). exists j. split; [done|lia].
      * apply list_elem_of_singleton in He as ->. exists (length l). split; [done|lia].
    + destruct (C k es e Hk He) as (j & -> & Hj). exists j. split; [done|lia].
  - destruct (k - _)%nat; done.
Qed.

Lemma closed_image args : closed (image args).
Proof.
  unfold image. assert (H : forall l, closed l -> closed (foldl add_item l args)); [|apply H, closed_base].
  induction args as [|a args IH]; intros l Hl; [done|]. by apply IH, closed_add.
Qed.

Lemma assoc_app es es' name : assoc (es ++ es') name = match assoc es name with Some i => Some i | None => assoc es' name end.
Proof. induction es as [|[i n] es IH]; [done|]. cbn [app assoc]. by case_decide. Qed.

Lemma assoc_entries k n args i a name : args !! i = Some a -> dir_index (target a.1) = k -> dname (name_of a.1) = dname name ->
  (forall j b, (j < i)%nat -> args !! j = Some b -> dir_index (target b.1) = k -> dname (name_of b.1) <> dname name) ->
  assoc (entries_for k n args) name = Some (inum_of (n + i)).
Proof.
  revert n i. induction args as [|b args IH]; intros n i Ha Hk Hn Hd; [done|]. cbn [entries_for]. rewrite assoc_app. destruct i as [|i].
  - injection Ha as ->. rewrite decide_True by done. cbn [assoc]. rewrite decide_True by done. by rewrite Nat.add_0_r.
  - assert (E : assoc (if decide (dir_index (target b.1) = k) then [(inum_of n, name_of b.1)] else []) name = None).
    { case_decide as Hb; [|done]. cbn [assoc]. rewrite decide_False; [done|]. apply (Hd 0%nat b); [lia|done|done]. }
    rewrite E, (IH (S n) i); try done; [f_equal; unfold inum_of; lia|]. intros j c Hj Hc. apply (Hd (S j)); [lia|done].
Qed.

Definition path_of (a : list Z) : list Z := dir_path (target a) ++ name_of a ++ [0].

Lemma split_name cur name : nonul name -> SLASH ∉ name -> split_path cur (name ++ [0]) = [cur ++ name].
Proof.
  revert cur. induction name as [|c name IH]; intros cur Hn Hs; [by rewrite app_nil_r|].
  apply Forall_cons_iff in Hn as [Hc Hn]. apply not_elem_of_cons in Hs as [Hcs Hs]. cbn [app split_path].
  rewrite (proj2 (Z.eqb_neq c 0)), (proj2 (Z.eqb_neq c SLASH)) by congruence. rewrite IH, <- app_assoc by done. done.
Qed.

Lemma elems_name name : nonul name -> SLASH ∉ name -> name <> [] -> elems (name ++ [0]) = [take DIRSIZ name].
Proof. intros Hn Hs He. unfold elems. rewrite split_name by done. cbn [app]. by rewrite filter_cons_True. Qed.

Lemma elems_path a name : nonul name -> SLASH ∉ name -> name <> [] -> elems (dir_path a ++ name ++ [0]) =
  match a with InBin => [chars "bin"] | InEtc => [chars "etc"] | InHome => [chars "home"; chars "root"] end ++ [take DIRSIZ name].
Proof. intros Hn Hs He. rewrite <- (elems_name name) by done. by destruct a. Qed.

Lemma name_no_slash a : SLASH ∉ bare a -> SLASH ∉ name_of a.
Proof. intros H. unfold name_of. destruct (target a); try done. intros Hi. apply H. by eapply subseteq_drop. Qed.

(** ** The theorem *)

(** What the command line has to satisfy: names that can be used, different
    from each other and from the names of the directories' own entries, and
    room for the files. *)
Record mkfs_ok (args : list (list Z * list Z)) : Prop := {
  mo_names : Forall (fun a => usable a.1 /\ name_of a.1 <> [] /\ take DIRSIZ (name_of a.1) ∉ [chars "."; chars ".."]) args;
  mo_distinct : NoDup ((fun a => (target a.1, take DIRSIZ (name_of a.1))) <$> args);
  mo_count : (length args <= 193)%nat;
  mo_room : fits (node_of <$> image args)
}.

Record image_ok (m : list block) (args : list (list Z * list Z)) : Prop := {
  io_super : m !! 1%nat ≫= superblock_of = Some mkfs_sb;
  io_log : m !! 2%nat = Some zeroes;
  io_geo : fs_geo geo mkfs_sb (length m) /\ length m = at_ FSSIZE /\ blocks_wf m;
  io_meta : meta_used m mkfs_sb;
  io_tree : disk_tree mkfs_sb m;
  io_items k x : image args !! k = Some x -> exists di, live mkfs_sb m (inum_of k) di /\ file_is m (inum_of k) (node_of x) di;
  io_apart j k dj dk n : j <> k -> live mkfs_sb m j dj -> live mkfs_sb m k dk -> own m dj n -> ~ own m dk n;
  io_paths path : resolve false m mkfs_sb ROOTINO path = walk (image args) ROOTINO path;
  io_files i a : args !! i = Some a -> exists di, resolve false m mkfs_sb ROOTINO (elems (path_of a.1)) = Some (7 + Z.of_nat i) /\
    live mkfs_sb m (7 + Z.of_nat i) di /\ di_type di = T_FILE /\ di_mode di = mode_of a.1 /\ di_uid di = 0 /\ di_gid di = 0 /\
    di_size di = Z.of_nat (length a.2) /\ forall k c, a.2 !! k = Some c -> byte_at m di (Z.of_nat k) = c
}.

Lemma dname_nonul name : nonul name -> dname name = take DIRSIZ name.
Proof. intros Hn. unfold dname. apply upto_nul_all. by apply Forall_take. Qed.

Lemma walk_file args i a : mkfs_ok args -> args !! i = Some a -> walk (image args) ROOTINO (elems (path_of a.1)) = Some (7 + Z.of_nat i).
Proof.
  intros M Ha. pose proof (mo_names _ M) as Hnames. rewrite list.Forall_forall in Hnames.
  destruct (Hnames a (list_elem_of_lookup_2 _ _ _ Ha)) as ([Hnul Hsl] & Hne & Hdots). pose proof (name_nonul _ Hnul) as Hnn.
  assert (E : forall es, assoc es (take DIRSIZ (name_of a.1)) = None ->
    assoc (es ++ entries_for (dir_index (target a.1)) 6 args) (take DIRSIZ (name_of a.1)) = Some (7 + Z.of_nat i)).
  { intros es Hes. rewrite assoc_app, Hes, (assoc_entries _ 6 args i a); try done; [f_equal; unfold inum_of; lia| |].
    - by rewrite <- (dname_nonul (name_of a.1)), dname_name.
    - intros j b Hj Hb Hk Heq. assert (j = i); [|lia]. eapply (NoDup_lookup _ j i _ (mo_distinct _ M)).
      + by rewrite list_lookup_fmap, Hb.
      + rewrite list_lookup_fmap, Ha. cbn [fmap option_fmap option_map]. f_equal. f_equal.
        * destruct (target a.1), (target b.1); done.
        * destruct (Hnames b (list_elem_of_lookup_2 _ _ _ Hb)) as ([Hbn _] & _).
          rewrite <- (dname_nonul (name_of a.1)), dname_name, !dname_nonul in Heq by (try apply name_nonul; done). done. }
  assert (Hdot : forall i j, assoc [(i, chars "."); (j, chars "..")] (take DIRSIZ (name_of a.1)) = None).
  { intros x y. cbn [assoc]. rewrite <- (dname_nonul (name_of a.1)), dname_name, (dname_nonul (name_of a.1)) by done.
    change (dname (chars ".")) with (chars "."). change (dname (chars "..")) with (chars "..").
    rewrite !decide_False; [done|intros Hx; apply Hdots; rewrite <- Hx; by_decide..]. }
  unfold path_of. rewrite elems_path by (try apply name_no_slash; done).
  pose proof (image_dir base args) as D. change (length base) with 6%nat in D. fold (image args) in D.
  destruct (target a.1); cbn [app walk].
  - rewrite (D 0%nat _ eq_refl : image args !! at_ (ROOTINO - 1) = _).
    change (assoc _ (chars "bin")) with (Some 3). cbv iota beta. rewrite (D 2%nat _ eq_refl : image args !! at_ (3 - 1) = _). by rewrite E.
  - rewrite (D 0%nat _ eq_refl : image args !! at_ (ROOTINO - 1) = _).
    change (assoc _ (chars "etc")) with (Some 6). cbv iota beta. rewrite (D 5%nat _ eq_refl : image args !! at_ (6 - 1) = _). by rewrite E.
  - rewrite (D 0%nat _ eq_refl : image args !! at_ (ROOTINO - 1) = _).
    change (assoc _ (chars "home")) with (Some 4). cbv iota beta. rewrite (D 3%nat _ eq_refl : image args !! at_ (4 - 1) = _).
    change (assoc _ (chars "root")) with (Some 5). cbv iota beta. rewrite (D 4%nat _ eq_refl : image args !! at_ (5 - 1) = _). by rewrite E.
Qed.

Lemma built_image s m args : mkfs_ok args -> built first_blocks s (node_of <$> image args) -> m = view s -> image_ok m args.
Proof.
  intros M B ->. pose proof (bu_ready _ _ _ B) as R. pose proof (closed_image args) as C.
  assert (Hhead : forall n, 0 <= n < 32 -> view s !! at_ n = first_blocks n).
  { intros n Hn. rewrite view_other by (unfold MAPBLOCK; lia). by apply B. }
  assert (Hlen : length (image args) = (6 + length args)%nat) by apply image_length.
  assert (Hpath : forall path, resolve false (view s) q ROOTINO path = walk (image args) ROOTINO path).
  { intros path. apply (read_path _ _ _ B C path 0). lia. }
  split.
  - change 1%nat with (at_ 1). rewrite Hhead by lia. unfold first_blocks, blank. cbn [img]. change (at_ 1) with 1%nat.
    rewrite list_lookup_insert_eq by (rewrite length_replicate; unfold FSSIZE; lia). apply super_block_ok.
  - change 2%nat with (at_ 2). rewrite Hhead by lia. apply blank_block; unfold FSSIZE; lia.
  - split_and!; [by apply view_geo|by apply view_length|by apply view_wf].
  - by apply view_meta.
  - by eapply read_tree.
  - intros k x Hk. destruct (item_inode _ _ _ B k x Hk) as (di & F & L). by exists di.
  - intros j k dj dk n Hne Hj Hk. destruct (item_live _ _ _ B j dj Hj) as (a & x & -> & Hx & Fx).
    destruct (item_live _ _ _ B k dk Hk) as (b & y & -> & Hy & Fy).
    apply (bu_apart _ _ _ B a b); [congruence|rewrite length_fmap; by eapply lookup_lt_Some..|apply Fx|apply Fy].
  - exact Hpath.
  - intros i a Ha. pose proof (image_file base args i a Ha) as Hi. fold (image args) in Hi. change (length base) with 6%nat in Hi.
    destruct (item_inode _ _ _ B _ _ Hi) as (di & F & L). exists di. rewrite Hpath, (walk_file args i a M Ha).
    replace (inum_of (6 + i)) with (7 + Z.of_nat i) in L by (unfold inum_of; lia).
    destruct (fi_has _ _ _ _ F) as (H1 & H2 & H3 & H4 & H5 & H6 & H7 & H8). pose proof (fi_bytes _ _ _ _ F). by split_and!.
Qed.

(** C9. [mkfs] terminates without failing when the names on the command line are
    usable and different and the files fit on the disk, and the image it
    leaves is one that the kernel can start from: the super block describes
    the disk, the log is empty, the metadata blocks are marked as used, every
    entry of a directory is for an inode in use, no block belongs to two
    files, a path leads where it does in the tree of the arguments, and each
    file is found at its path (programs in /bin, the account files in /etc,
    the others in /home/root), owned by root, with its mode and contents. *)
Theorem mkfs_image args : mkfs_ok args -> exists s', mkfs (argv args) new_image = Ret tt s' /\ image_ok (img s') args.
Proof.
  intros M. destruct (proj1 (wp_iff _ _ _) (wp_mkfs args ltac:(pose proof (mo_count _ M); unfold inum_of, NINODES; lia)
    ltac:(eapply list.Forall_impl; [apply M|]; cbn beta; tauto) (mo_room _ M))) as ([] & s' & E & s & B & Him).
  exists s'. split; [done|]. by apply (built_image s).
Qed.

Definition sample_args : list (list Z * list Z) :=
  [(chars "user/_cat", replicate 700 7); (chars "passwd", chars "root:x:0:0"); (chars "README", chars "xv6"); (chars "user/_sh", [])].

Lemma sample_args_ok : mkfs_ok sample_args.
Proof.
  split; [|by_decide|vm_compute; lia|].
  - repeat constructor; try discriminate; by_decide.
  - split; [vm_compute; discriminate|by_decide].
Qed.

Lemma mkfs_image_witness : exists s', mkfs (argv sample_args) new_image = Ret tt s' /\ image_ok (img s') sample_args /\
  exists di, resolve false (img s') mkfs_sb ROOTINO [chars "bin"; chars "cat"] = Some 7 /\ di_size di = 700 /\ byte_at (img s') di 600 = 7.
Proof.
  destruct (mkfs_image sample_args sample_args_ok) as (s' & E & I). exists s'. split; [exact E|]. split; [exact I|].
  destruct (io_files _ _ I 0%nat _ eq_refl) as (di & H1 & _ & _ & _ & _ & _ & H2 & H3). exists di.
  split; [exact H1|]. split; [exact H2|]. apply (H3 600%nat). vm_compute. reflexivity.
Defined.
