(* ===== verification/Ide.v ===== *)
(** * The disk driver ([kernel/ide.c])

    Requests wait in a queue that is linked through the buffers; the first one
    is the one the disk works on.  [iderw] appends a buffer to the queue and
    sleeps; the interrupt takes the first buffer off, and starts the disk on
    the next one.

    The disk controller is part of the state: its registers, the command it
    works on, and the two disks.  [settle] is the end of the command; it
    happens before the interrupt, or while the driver polls the status.  A
    sector can be damaged, in which case commands on it end with the error
    bit.  Every routine runs with [idelock] held and is one step; [iderw] is
    two, up to [sleep] and from there on. *)

From S2P Require Import Prelude BufIface Lock Bio.

(** ** The controller *)

Definition SECTOR_SIZE : Z := 512.
Definition IDE_BSY : Z := 128.
Definition IDE_DRDY : Z := 64.
Definition IDE_DF : Z := 32.
Definition IDE_ERR : Z := 1.
Definition IDE_CMD_READ : Z := 32.
Definition IDE_CMD_WRITE : Z := 48.
Definition IDE_CMD_RDMUL : Z := 196.
Definition IDE_CMD_WRMUL : Z := 197.

(** What the controller does: nothing, reads a sector, waits for the data of
    a sector to write, or writes it. *)
Inductive activity : Type :=
| Idle
| Reading (drive : nat) (sector : Z)
| Wanting (drive : nat) (sector : Z)
| Writing (drive : nat) (sector : Z) (data : block).

Record device : Type := {
  disks : list (list block);
  damaged : nat -> Z -> bool;
  r_count : Z; r_lba0 : Z; r_lba1 : Z; r_lba2 : Z; r_drive : Z;
  act : activity;
  err : bool;
  sector_buf : block
}.

Definition selected (d : device) : nat := if Z.testbit (r_drive d) 4 then 1 else 0.

Definition lba (d : device) : Z :=
  r_lba0 d + 2 ^ 8 * r_lba1 d + 2 ^ 16 * r_lba2 d + 2 ^ 24 * Z.land (r_drive d) 15.

Definition with_act (a : activity) (d : device) : device :=
  {| disks := disks d; damaged := damaged d; r_count := r_count d; r_lba0 := r_lba0 d; r_lba1 := r_lba1 d;
     r_lba2 := r_lba2 d; r_drive := r_drive d; act := a; err := err d; sector_buf := sector_buf d |}.

(** The state after a command: the disks, the error bit and the data. *)
Definition finish (ds : list (list block)) (e : bool) (data : block) (d : device) : device :=
  {| disks := ds; damaged := damaged d; r_count := r_count d; r_lba0 := r_lba0 d; r_lba1 := r_lba1 d;
     r_lba2 := r_lba2 d; r_drive := r_drive d; act := Idle; err := e; sector_buf := data |}.

Definition sector_at (ds : list (list block)) (drive : nat) (n : Z) : option block := ds !! drive ≫= fun m => m !! at_ n.

Definition put_sector (ds : list (list block)) (drive : nat) (n : Z) (data : block) : list (list block) :=
  alter (fun m => <[at_ n := data]> m) drive ds.

(** The command ends. *)
Definition settle (d : device) : device :=
  match act d with
  | Reading k n =>
      match sector_at (disks d) k n with
      | Some b => if damaged d k n then finish (disks d) true (sector_buf d) d else finish (disks d) false b d
      | None => finish (disks d) true (sector_buf d) d
      end
  | Writing k n data =>
      match sector_at (disks d) k n with
      | Some _ => if damaged d k n then finish (disks d) true (sector_buf d) d
                  else finish (put_sector (disks d) k n data) false (sector_buf d) d
      | None => finish (disks d) true (sector_buf d) d
      end
  | _ => d
  end.

(** A read of the status port; no disk answers with 0. *)
Definition status (d : device) : Z :=
  match disks d !! selected d with
  | None => 0
  | Some _ =>
      match act d with
      | Idle | Wanting _ _ => Z.lor IDE_DRDY (if err d then IDE_ERR else 0)
      | _ => IDE_BSY
      end
  end.

(** A write to a port: the registers of the sector, the drive, the command.
    Commands on one sector only are modelled; others end with an error. *)
Definition dev_outb (port v : Z) (d : device) : device :=
  let regs c l0 l1 l2 dr :=
    {| disks := disks d; damaged := damaged d; r_count := c; r_lba0 := l0; r_lba1 := l1; r_lba2 := l2; r_drive := dr;
       act := act d; err := err d; sector_buf := sector_buf d |} in
  let v := u8 v in
  if port =? 498 then regs v (r_lba0 d) (r_lba1 d) (r_lba2 d) (r_drive d)
  else if port =? 499 then regs (r_count d) v (r_lba1 d) (r_lba2 d) (r_drive d)
  else if port =? 500 then regs (r_count d) (r_lba0 d) v (r_lba2 d) (r_drive d)
  else if port =? 501 then regs (r_count d) (r_lba0 d) (r_lba1 d) v (r_drive d)
  else if port =? 502 then regs (r_count d) (r_lba0 d) (r_lba1 d) (r_lba2 d) v
  else if port =? 503 then
    if negb (r_count d =? 1) then finish (disks d) true (sector_buf d) d
    else if v =? IDE_CMD_READ then with_act (Reading (selected d) (lba d)) d
    else if v =? IDE_CMD_WRITE then with_act (Wanting (selected d) (lba d)) d
    else finish (disks d) true (sector_buf d) d
  else d.

(** The data port. *)
Definition dev_outsl (data : block) (d : device) : device :=
  match act d with
  | Wanting k n => with_act (Writing k n data) d
  | _ => d
  end.

(** ** The driver *)

Record ide : Type := {
  ibufs : list buf;
  qnext : list (option nat);
  idequeue : option nat;
  havedisk1 : bool;
  dev : device;
  woken : list nat       (* calls of wakeup *)
}.

Definition with_dev (f : device -> device) (s : ide) : ide :=
  {| ibufs := ibufs s; qnext := qnext s; idequeue := idequeue s; havedisk1 := havedisk1 s; dev := f (dev s); woken := woken s |}.
Definition with_queue (q : option nat) (s : ide) : ide :=
  {| ibufs := ibufs s; qnext := qnext s; idequeue := q; havedisk1 := havedisk1 s; dev := dev s; woken := woken s |}.
Definition with_qnext (l : list (option nat)) (s : ide) : ide :=
  {| ibufs := ibufs s; qnext := l; idequeue := idequeue s; havedisk1 := havedisk1 s; dev := dev s; woken := woken s |}.
Definition with_ibufs (l : list buf) (s : ide) : ide :=
  {| ibufs := l; qnext := qnext s; idequeue := idequeue s; havedisk1 := havedisk1 s; dev := dev s; woken := woken s |}.

Definition outb (port v : Z) : M ide unit := modify (with_dev (dev_outb port v)).
Definition outsl (data : block) : M ide unit := modify (with_dev (dev_outsl data)).
Definition inb_status : M ide Z := gets (fun s => status (dev s)).

Definition getb (i : nat) : M ide buf := fun s => lift (ibufs s !! i) s.
Definition setb (i : nat) (f : buf -> buf) : M ide unit :=
  let! b := getb i in modify (fun s => with_ibufs (<[i := f b]> (ibufs s)) s).

Definition get_qnext (i : nat) : M ide (option nat) := fun s => lift (qnext s !! i) s.
Definition set_qnext (i : nat) (n : option nat) : M ide unit := fun s =>
  match store (qnext s) i n with
  | Some l => Ret tt (with_qnext l s)
  | None => Stop Undefined s
  end.

(** The loop polls while the disk is busy.  A disk that is not there never
    gets ready. *)
Definition idewait (checkerr : bool) : M ide Z :=
  modify (with_dev settle) then!
  let! r := inb_status in
  if negb (Z.land r (Z.lor IDE_BSY IDE_DRDY) =? IDE_DRDY) then halt (Sleeping "ide")
  else if checkerr && negb (Z.land r (Z.lor IDE_DF IDE_ERR) =? 0) then ret (-1)
  else ret 0.

(** The loop of [ideinit] that looks for disk 1. *)
Fixpoint probe (n : nat) : M ide unit :=
  match n with
  | O => ret tt
  | S n' =>
      let! r := inb_status in
      if negb (r =? 0) then
        modify (fun s => {| ibufs := ibufs s; qnext := qnext s; idequeue := idequeue s; havedisk1 := true; dev := dev s; woken := woken s |})
      else probe n'
  end.

(** [initlock] names the lock and [ioapicenable] routes the interrupt. *)
Definition ideinit : M ide unit :=
  let! _ := idewait false in
  outb 502 (Z.lor 224 (Z.shiftl 1 4)) then!
  probe 1000 then!
  outb 502 (Z.lor 224 (Z.shiftl 0 4)).

Definition idestart (b : option nat) : M ide unit :=
  match b with
  | None => halt (Panicked "idestart")
  | Some i =>
      let! b := getb i in
      if FSSIZE <=? b_blockno b then halt (Panicked "incorrect blockno")
      else
        let sector_per_block := Z.of_nat BSIZE / SECTOR_SIZE in
        let sector := s32 (b_blockno b * sector_per_block) in
        let read_cmd := if sector_per_block =? 1 then IDE_CMD_READ else IDE_CMD_RDMUL in
        let write_cmd := if sector_per_block =? 1 then IDE_CMD_WRITE else IDE_CMD_WRMUL in
        if 7 <? sector_per_block then halt (Panicked "idestart")
        else
          let! _ := idewait false in
          outb 1014 0 then!
          outb 498 sector_per_block then!
          outb 499 (Z.land sector 255) then!
          outb 500 (Z.land (Z.shiftr sector 8) 255) then!
          outb 501 (Z.land (Z.shiftr sector 16) 255) then!
          outb 502 (Z.lor (Z.lor 224 (Z.shiftl (Z.land (b_dev b) 1) 4)) (Z.land (Z.shiftr sector 24) 15)) then!
          if negb (Z.land (b_flags b) B_DIRTY =? 0) then
            outb 503 write_cmd then!
            outsl (b_data b)
          else outb 503 read_cmd
  end.

(** [insl(0x1f0, b->data, BSIZE/4)]. *)
Definition insl (i : nat) : M ide unit :=
  let! data := gets (fun s => sector_buf (dev s)) in setb i (with_data data).

Definition wakeup (i : nat) : M ide unit :=
  modify (fun s => {| ibufs := ibufs s; qnext := qnext s; idequeue := idequeue s; havedisk1 := havedisk1 s; dev := dev s;
                      woken := woken s ++ [i] |}).

Definition ideintr : M ide unit :=
  let! q := gets idequeue in
  match q with
  | None => ret tt
  | Some i =>
      let! n := get_qnext i in
      modify (with_queue n) then!
      let! b := getb i in
      (if Z.land (b_flags b) B_DIRTY =? 0 then
         let! r := idewait true in
         if 0 <=? r then insl i else ret tt
       else ret tt) then!
      setb i (fun b => with_flags (Z.lor (b_flags b) B_VALID) b) then!
      setb i (fun b => with_flags (Z.land (b_flags b) (Z.lnot B_DIRTY)) b) then!
      wakeup i then!
      let! q := gets idequeue in
      match q with
      | None => ret tt
      | Some _ => idestart q
      end
  end.

(** The pointer [pp] of [iderw] is to [idequeue] or to the [qnext] member of a
    buffer. *)
Definition load_pp (pp : option nat) : M ide (option nat) :=
  match pp with None => gets idequeue | Some j => get_qnext j end.
Definition store_pp (pp : option nat) (v : option nat) : M ide unit :=
  match pp with None => modify (with_queue v) | Some j => set_qnext j v end.

(** Each round goes to another buffer of the queue. *)
Fixpoint queue_end (fuel : nat) (pp : option nat) : M ide (option nat) :=
  match fuel with
  | O => halt Undefined
  | S fuel' =>
      let! p := load_pp pp in
      match p with
      | None => ret pp
      | Some j => queue_end fuel' (Some j)
      end
  end.

(** The loop of [iderw] around [sleep], from its test on: whether the request
    is finished. *)
Definition iderw_wait (i : nat) : M ide bool :=
  let! b := getb i in
  ret (Z.land (b_flags b) (Z.lor B_VALID B_DIRTY) =? B_VALID).

(** [iderw] by process [pid] until it sleeps ([false]) or returns. *)
Definition iderw (pid : Z) (i : nat) : M ide bool :=
  let! b := getb i in
  let! have1 := gets havedisk1 in
  if negb (holdingsleep pid (b_lock b)) then halt (Panicked "iderw: buf not locked")
  else if Z.land (b_flags b) (Z.lor B_VALID B_DIRTY) =? B_VALID then halt (Panicked "iderw: nothing to do")
  else if negb (b_dev b =? 0) && negb have1 then halt (Panicked "iderw: ide disk 1 not present")
  else
    set_qnext i None then!
    let! n := gets (fun s => length (ibufs s)) in
    let! pp := queue_end (S n) None in
    store_pp pp (Some i) then!
    let! q := gets idequeue in
    (if decide (q = Some i) then idestart (Some i) else ret tt) then!
    iderw_wait i.
