(* ===== verification/IdeQueue.v ===== *)
(** * The disk driver serves its requests

    The queue of [Ide] is a list of buffers; the interrupts serve them one
    after the other, in the order in which [iderw] was called, and wake their
    processes.  For one request the driver does what the memory disk of [Bio]
    does. *)

From S2P Require Import Prelude BufIface Lock Bio Ide.

(** ** Requests *)

Definition drive (b : buf) : nat := at_ (b_dev b).

(** What the disk does for the buffer. *)
Definition activity_of (b : buf) : activity :=
  if dirty b then Writing (drive b) (b_blockno b) (b_data b) else Reading (drive b) (b_blockno b).

(** A buffer to be read or written, with a sector that is there and not
    damaged. *)
Record request_ok (d : device) (b : buf) : Prop := {
  rq_flags : b_flags b = 0 \/ b_flags b = B_DIRTY \/ b_flags b = Z.lor B_VALID B_DIRTY;
  rq_dev : b_dev b = 0 \/ b_dev b = 1;
  rq_block : 0 <= b_blockno b < FSSIZE;
  rq_sector : is_Some (sector_at (disks d) (drive b) (b_blockno b));
  rq_good : damaged d (drive b) (b_blockno b) = false
}.

(** The effect of a request on its buffer and on the disks. *)
Definition serve (b : buf) (ds : list (list block)) : buf * list (list block) :=
  if dirty b then (with_flags B_VALID b, put_sector ds (drive b) (b_blockno b) (b_data b))
  else (with_flags B_VALID (with_data (default [] (sector_at ds (drive b) (b_blockno b))) b), ds).

Definition serve_at (i : nat) (p : list buf * list (list block)) : list buf * list (list block) :=
  match p.1 !! i with
  | Some b => (<[i := (serve b p.2).1]> p.1, (serve b p.2).2)
  | None => p
  end.

(** ** The queue *)

Fixpoint chain (next : list (option nat)) (p : option nat) (q : list nat) : Prop :=
  match q with
  | [] => p = None
  | i :: q' => p = Some i /\ exists n, next !! i = Some n /\ chain next n q'
  end.

Record queue_ok (s : ide) (q : list nat) : Prop := {
  qu_len : length (qnext s) = length (ibufs s);
  qu_chain : chain (qnext s) (idequeue s) q;
  qu_nodup : NoDup q;
  qu_bufs i : i ∈ q -> exists b, ibufs s !! i = Some b /\ request_ok (dev s) b;
  qu_act : match q with [] => act (dev s) = Idle | i :: _ => exists b, ibufs s !! i = Some b /\ act (dev s) = activity_of b end;
  qu_there : is_Some (disks (dev s) !! selected (dev s))
}.

Lemma chain_other next p q i n : i ∉ q -> chain next p q -> chain (<[i := n]> next) p q.
Proof.
  revert p. induction q as [|j q IH]; intros p Hi Hc; [done|]. apply not_elem_of_cons in Hi as [Hne Hi].
  destruct Hc as [-> (m & Hm & Hc)]. split; [done|]. exists m. rewrite list_lookup_insert_ne by done. auto.
Qed.

Lemma chain_length next p q : chain next p q -> Forall (fun i => (i < length next)%nat) q.
Proof.
  revert p. induction q as [|j q IH]; intros p Hc; [constructor|]. destruct Hc as [_ (n & Hn & Hc)].
  constructor; [by eapply lookup_lt_Some|by eapply IH].
Qed.

Lemma nodup_length (q : list nat) n : NoDup q -> Forall (fun i => (i < n)%nat) q -> (length q <= n)%nat.
Proof.
  intros Hd Hf. rewrite <- (length_seq n 0). apply submseteq_length, NoDup_submseteq; [done|].
  intros i Hi. rewrite list.Forall_forall in Hf. apply elem_of_seq. specialize (Hf i Hi). lia.
Qed.

(** ** The controller's registers *)

Lemma lba_split n : 0 <= n < 2 ^ 24 ->
  u8 (Z.land n 255) + 2 ^ 8 * u8 (Z.land (Z.shiftr n 8) 255) + 2 ^ 16 * u8 (Z.land (Z.shiftr n 16) 255) + 2 ^ 24 * 0 = n.
Proof.
  intros Hn. change 255 with (Z.ones 8). rewrite !Z.land_ones, !Z.shiftr_div_pow2 by lia. unfold u8.
  change (2 ^ 8) with 256. change (2 ^ 16) with 65536. change (2 ^ 24) with 16777216 in *.
  rewrite !Z.mod_mod by lia. assert (E : n / 65536 = n / 256 / 256) by (by rewrite Z.div_div).
  pose proof (Z.div_mod n 256 ltac:(lia)). pose proof (Z.div_mod (n / 256) 256 ltac:(lia)). rewrite E.
  rewrite (Z.mod_small (n / 256 / 256)); [lia|]. rewrite <- E. split; [apply Z.div_pos; lia|]. apply Z.div_lt_upper_bound; lia.
Qed.

Lemma settle_idle d : act d = Idle -> settle d = d.
Proof. intros H. unfold settle. by rewrite H. Qed.

Lemma with_dev_id f s : f (dev s) = dev s -> with_dev f s = s.
Proof. intros H. destruct s. unfold with_dev. cbn in *. by rewrite H. Qed.

Lemma wp_idewait s c (Q : Z -> ide -> Prop) : act (dev s) = Idle -> is_Some (disks (dev s) !! selected (dev s)) ->
  Q (if c && err (dev s) then -1 else 0) s -> wp (idewait c) s Q.
Proof.
  intros Ha [m Hm] HQ. unfold idewait. apply wp_bind, wp_modify. rewrite with_dev_id by (by apply settle_idle).
  apply wp_bind, wp_gets. unfold status. rewrite Hm, Ha. destruct (err (dev s)), c; exact HQ.
Qed.

Lemma wp_getb s i b (Q : buf -> ide -> Prop) : ibufs s !! i = Some b -> Q b s -> wp (getb i) s Q.
Proof. intros H HQ. unfold wp, getb. by rewrite H. Qed.

Lemma wp_setb s i b f (Q : unit -> ide -> Prop) : ibufs s !! i = Some b -> Q tt (with_ibufs (<[i := f b]> (ibufs s)) s) -> wp (setb i f) s Q.
Proof. intros H HQ. unfold setb. apply wp_bind. by eapply wp_getb. Qed.

(** The drive register. *)
Lemma drive_reg b n : b_dev b = 0 \/ b_dev b = 1 -> 0 <= n < 2 ^ 24 ->
  let r := u8 (Z.lor (Z.lor 224 (Z.shiftl (Z.land (b_dev b) 1) 4)) (Z.land (Z.shiftr n 24) 15)) in
  Z.land r 15 = 0 /\ (if Z.testbit r 4 then 1%nat else 0%nat) = drive b.
Proof.
  intros Hd Hn. assert (E : Z.shiftr n 24 = 0) by (rewrite Z.shiftr_div_pow2 by lia; apply Z.div_small; lia).
  rewrite E. unfold drive. destruct Hd as [-> | ->]; done.
Qed.

Lemma wp_idestart s i b (Q : unit -> ide -> Prop) : act (dev s) = Idle -> is_Some (disks (dev s) !! selected (dev s)) ->
  ibufs s !! i = Some b -> request_ok (dev s) b ->
  (forall d, disks d = disks (dev s) -> damaged d = damaged (dev s) -> act d = activity_of b -> selected d = drive b ->
    Q tt (with_dev (fun _ => d) s)) ->
  wp (idestart (Some i)) s Q.
Proof.
  intros Ha Hs Hb [Rf Rd Rb Rs Rg] HQ. unfold idestart. apply wp_bind. eapply wp_getb; [exact Hb|].
  rewrite (proj2 (Z.leb_gt _ _)) by lia. change (Z.of_nat BSIZE / SECTOR_SIZE) with 1. cbv zeta. change (7 <? 1) with false. change (1 =? 1) with true.
  cbv iota. rewrite Z.mul_1_r. assert (Hn : 0 <= b_blockno b < 2 ^ 24) by (unfold FSSIZE in Rb; lia).
  rewrite (s32_small (b_blockno b)) by (unfold FSSIZE in Rb; lia).
  apply wp_bind. apply wp_idewait; [done..|].
  destruct (drive_reg b (b_blockno b) Rd Hn) as [E1 E2]. pose proof (lba_split (b_blockno b) Hn) as E3. cbv zeta in E1, E2.
  do 6 (apply wp_bind, wp_modify). set (dr := u8 (Z.lor _ _)) in *.
  set (d := {| disks := disks (dev s); damaged := damaged (dev s); r_count := 1; r_lba0 := u8 (Z.land (b_blockno b) 255);
    r_lba1 := u8 (Z.land (Z.shiftr (b_blockno b) 8) 255); r_lba2 := u8 (Z.land (Z.shiftr (b_blockno b) 16) 255); r_drive := dr;
    act := act (dev s); err := err (dev s); sector_buf := sector_buf (dev s) |}).
  match goal with |- wp _ ?t _ => change t with (with_dev (fun _ => d) s) end.
  assert (L1 : lba d = b_blockno b) by (unfold lba, d; cbn [r_lba0 r_lba1 r_lba2 r_drive]; by rewrite E1).
  assert (L2 : selected d = drive b) by exact E2.
  unfold activity_of, dirty in HQ. destruct (negb (Z.land (b_flags b) B_DIRTY =? 0)).
  - apply wp_bind, wp_modify, wp_modify.
    change (Q tt (with_dev (fun _ => with_act (Writing (selected d) (lba d) (b_data b)) d) s)). apply HQ; try done. by rewrite <- L1, <- L2.
  - apply wp_modify. change (Q tt (with_dev (fun _ => with_act (Reading (selected d) (lba d)) d) s)). apply HQ; try done. by rewrite <- L1, <- L2.
Qed.

(** ** The interrupt *)

Lemma put_sector_disk ds k n data j : is_Some (put_sector ds k n data !! j) <-> is_Some (ds !! j).
Proof. unfold put_sector. by rewrite !lookup_lt_is_Some, length_alter. Qed.

Lemma put_sector_some ds k n data j m : is_Some (sector_at ds j m) -> is_Some (sector_at (put_sector ds k n data) j m).
Proof.
  unfold sector_at, put_sector. destruct (decide (k = j)) as [->|Hne]; [|by rewrite list_lookup_alter_ne].
  rewrite list_lookup_alter_eq. destruct (ds !! j) as [l|]; [|done]. cbn [fmap option_fmap option_map mbind option_bind].
  by rewrite !lookup_lt_is_Some, length_insert.
Qed.

Lemma sector_disk ds k n : is_Some (sector_at ds k n) -> is_Some (ds !! k).
Proof. unfold sector_at. destruct (ds !! k); [done|by intros []]. Qed.

Lemma serve_sectors b ds j m : is_Some (sector_at ds j m) -> is_Some (sector_at (serve b ds).2 j m).
Proof. intros H. unfold serve. destruct (dirty b); [by apply put_sector_some|done]. Qed.

Lemma request_device d d' b : disks d' = disks d -> damaged d' = damaged d -> request_ok d b -> request_ok d' b.
Proof. intros E1 E2 [R1 R2 R3 R4 R5]. split; rewrite ?E1, ?E2; done. Qed.

(** The buffer's data when its command has ended. *)
Definition data_after (b : buf) (d : device) : block :=
  if dirty b then sector_buf d else default [] (sector_at (disks d) (drive b) (b_blockno b)).

Lemma settle_request d b : request_ok d b -> act d = activity_of b -> settle d = finish (serve b (disks d)).2 false (data_after b d) d.
Proof.
  intros [_ _ _ [x Hx] Hg] Ha. unfold settle, activity_of, data_after, serve in *. rewrite Ha.
  destruct (dirty b); rewrite Hx, Hg; done.
Qed.

Lemma flags_done b : b_flags b = 0 \/ b_flags b = B_DIRTY \/ b_flags b = Z.lor B_VALID B_DIRTY ->
  Z.land (Z.lor (b_flags b) B_VALID) (Z.lnot B_DIRTY) = B_VALID.
Proof. by intros [-> |[-> | ->]]. Qed.

Lemma flags_todo b : b_flags b = 0 \/ b_flags b = B_DIRTY \/ b_flags b = Z.lor B_VALID B_DIRTY ->
  (Z.land (b_flags b) (Z.lor B_VALID B_DIRTY) =? B_VALID) = false.
Proof. by intros [-> |[-> | ->]]. Qed.

(** The state when the first request has been taken off the queue and its
    buffer is finished. *)
Definition finished (s : ide) (i : nat) (b : buf) (n : option nat) : ide :=
  {| ibufs := <[i := (serve b (disks (dev s))).1]> (ibufs s); qnext := qnext s; idequeue := n; havedisk1 := havedisk1 s;
     dev := settle (dev s); woken := woken s ++ [i] |}.

(** [ideintr] up to the test whether there is another request. *)
Lemma wp_intr_first s i q b n (Q : unit -> ide -> Prop) : queue_ok s (i :: q) -> ibufs s !! i = Some b -> qnext s !! i = Some n ->
  wp (match n with None => ret tt | Some _ => idestart n end) (finished s i b n) Q -> wp ideintr (with_dev settle s) Q.
Proof.
  intros [Ql Qc Qd Qb Qa Qt] Hb Hn HQ. destruct (Qb i ltac:(by left)) as (b' & Hb' & R). rewrite Hb in Hb'. injection Hb' as <-.
  destruct Qa as (b' & Hb' & Ha). rewrite Hb in Hb'. injection Hb' as <-. pose proof (settle_request _ _ R Ha) as Hs.
  pose proof (lookup_lt_Some _ _ _ Hb) as Hlt. destruct Qc as [Hq _].
  unfold ideintr. apply wp_bind, wp_gets. change (idequeue (with_dev settle s)) with (idequeue s). rewrite Hq.
  apply wp_bind. unfold get_qnext. eapply wp_lift; [exact Hn|]. apply wp_bind, wp_modify. apply wp_bind. eapply wp_getb; [exact Hb|].
  set (s1 := with_queue n (with_dev settle s)). apply wp_bind.
  assert (Hdone : forall s2 b2, s2 = with_ibufs (<[i := b2]> (ibufs s)) s1 -> b_flags b2 = b_flags b -> with_flags B_VALID b2 = (serve b (disks (dev s))).1 ->
    wp (setb i (fun b => with_flags (Z.lor (b_flags b) B_VALID) b) then! setb i (fun b => with_flags (Z.land (b_flags b) (Z.lnot B_DIRTY)) b) then!
      wakeup i then! let! q := gets idequeue in match q with None => ret tt | Some _ => idestart q end) s2 Q).
  { intros s2 b2 -> Hf Hv. apply wp_bind. eapply wp_setb; [apply list_lookup_insert_eq; exact Hlt|]. apply wp_bind.
    eapply wp_setb; [apply list_lookup_insert_eq; cbn [ibufs with_ibufs]; by rewrite length_insert|]. apply wp_bind, wp_modify, wp_bind, wp_gets.
    cbn [ibufs qnext idequeue havedisk1 dev woken with_ibufs with_queue with_dev s1]. rewrite !list_insert_insert_eq.
    cbn [b_flags with_flags]. rewrite Hf, (flags_done b (rq_flags _ _ R)).
    assert (E : with_flags B_VALID (with_flags (Z.lor (b_flags b) B_VALID) b2) = (serve b (disks (dev s))).1) by (by rewrite <- Hv).
    rewrite E. exact HQ. }
  assert (Hid : with_ibufs (<[i := b]> (ibufs s)) s1 = s1) by (rewrite list_insert_id by done; done).
  destruct (dirty b) eqn:Hdirty; unfold dirty in Hdirty.
  - apply negb_true_iff in Hdirty. rewrite Hdirty. apply wp_ret. apply (Hdone _ b); [done|done|].
    unfold serve, dirty. by rewrite Hdirty.
  - apply negb_false_iff in Hdirty. rewrite Hdirty. apply wp_bind. apply wp_idewait.
    + cbn [s1 dev with_queue with_dev]. by rewrite Hs.
    + cbn [s1 dev with_queue with_dev]. rewrite Hs. cbn [finish disks]. unfold serve, dirty. by rewrite Hdirty.
    + cbn [s1 dev with_queue with_dev]. rewrite Hs. cbn [finish err andb]. change (0 <=? 0) with true. cbv iota.
      unfold insl. apply wp_bind, wp_gets. eapply wp_setb; [exact Hb|]. eapply Hdone; [done|done|].
      cbn [s1 dev with_queue with_dev]. rewrite Hs. cbn [finish sector_buf]. unfold data_after, serve, dirty. by rewrite Hdirty.
Qed.

(** What an interrupt does: the first request is served. *)
Record served (i : nat) (s s' : ide) : Prop := {
  sv_effect : (ibufs s', disks (dev s')) = serve_at i (ibufs s, disks (dev s));
  sv_woken : woken s' = woken s ++ [i];
  sv_disk1 : havedisk1 s' = havedisk1 s;
  sv_damaged : damaged (dev s') = damaged (dev s)
}.

Lemma wp_ideintr s i q : queue_ok s (i :: q) -> wp ideintr (with_dev settle s) (fun _ s' => queue_ok s' q /\ served i s s').
Proof.
  intros Hq. pose proof Hq as [Ql Qc Qd Qb Qa Qt]. destruct Qc as [Hi (n & Hn & Hc)]. apply list.NoDup_cons in Qd as [Hni Hnd].
  destruct (Qb i ltac:(by left)) as (b & Hb & R). destruct Qa as (b' & Hb' & Ha). rewrite Hb in Hb'. injection Hb' as <-.
  pose proof (settle_request _ _ R Ha) as Hs. pose proof (lookup_lt_Some _ _ _ Hb) as Hlt.
  assert (Hsel : is_Some (disks (settle (dev s)) !! selected (settle (dev s)))).
  { rewrite Hs. cbn [finish disks]. change (selected (finish _ _ _ (dev s))) with (selected (dev s)). unfold serve. destruct (dirty b); [|done].
    by apply put_sector_disk. }
  assert (Hreq : forall j, j ∈ q -> exists bj, <[i := (serve b (disks (dev s))).1]> (ibufs s) !! j = Some bj /\ request_ok (settle (dev s)) bj).
  { intros j Hj. destruct (Qb j ltac:(by right)) as (bj & Hbj & [R1 R2 R3 R4 R5]). exists bj. rewrite list_lookup_insert_ne by (by intros ->).
    split; [done|]. rewrite Hs. split; try done. cbn [finish disks]. by apply serve_sectors. }
  assert (Hsv : forall s', ibufs s' = <[i := (serve b (disks (dev s))).1]> (ibufs s) -> disks (dev s') = disks (settle (dev s)) ->
    woken s' = woken s ++ [i] -> havedisk1 s' = havedisk1 s -> damaged (dev s') = damaged (settle (dev s)) -> served i s s').
  { intros s' E1 E2 E3 E4 E5. split; [|done|done|by rewrite E5, Hs]. rewrite E1, E2, Hs. unfold serve_at. cbn [fst snd]. by rewrite Hb. }
  apply (wp_intr_first s i q b n _ Hq Hb Hn). destruct q as [|j q]; cbn [chain] in Hc.
  - subst n. apply wp_ret. split; [|by apply Hsv]. split; cbn [finished qnext ibufs idequeue dev].
    + by rewrite length_insert.
    + done.
    + done.
    + intros j Hj. by apply elem_of_nil in Hj.
    + by rewrite Hs.
    + done.
  - destruct Hc as [-> (m & Hm & Hc)]. destruct (Hreq j ltac:(by left)) as (bj & Hbj & Rj).
    apply (wp_idestart _ j bj); cbn [finished dev ibufs]; try done; [by rewrite Hs|].
    intros d D1 D2 D3 D4. split; [|by apply Hsv]. split; cbn [with_dev finished qnext ibufs idequeue dev].
    + by rewrite length_insert.
    + split; [done|]. by exists m.
    + done.
    + intros k Hk. destruct (Hreq k Hk) as (bk & Hbk & Rk). exists bk. split; [done|]. by eapply request_device.
    + by exists bj.
    + rewrite D1, D4. eapply sector_disk. apply Rj.
Qed.

(** ** A new request *)

Lemma queue_end_spec fuel s pp p q : load_pp pp s = Ret p s -> chain (qnext s) p q -> (length q < fuel)%nat ->
  queue_end fuel pp s = Ret (match list.last q with Some j => Some j | None => pp end) s.
Proof.
  revert pp p q. induction fuel as [|fuel IH]; intros pp p q Hl Hc Hf; [lia|]. cbn [queue_end]. unfold bind. rewrite Hl.
  destruct q as [|i q]; cbn [chain] in Hc; [by subst p|]. destruct Hc as [-> (n & Hn & Hc)].
  rewrite (IH (Some i) n q); [|cbn [load_pp]; unfold get_qnext; by rewrite Hn|done|cbn [length] in Hf; lia].
  destruct q as [|j q]; [done|]. rewrite list.last_cons_cons, (list.last_cons j q). by destruct (list.last q).
Qed.

Lemma chain_append next p q i j : chain next p q -> NoDup q -> i ∉ q -> next !! i = Some None -> list.last q = Some j ->
  chain (<[j := Some i]> next) p (q ++ [i]).
Proof.
  revert p. induction q as [|k q IH]; intros p Hc Hd Hi Hn Hl; [done|]. destruct Hc as [-> (n & Hk & Hc)].
  apply list.NoDup_cons in Hd as [Hkq Hd]. apply not_elem_of_cons in Hi as [Hik Hi].
  assert (Hij : i <> j). { intros ->. apply list.last_Some_elem_of in Hl. apply elem_of_cons in Hl as [->|?]; done. }
  split; [done|]. destruct q as [|m q].
  - injection Hl as ->. exists (Some i). rewrite list_lookup_insert_eq by (by eapply lookup_lt_Some). split; [done|].
    cbn [app chain]. split; [done|]. exists None. by rewrite list_lookup_insert_ne.
  - rewrite list.last_cons_cons in Hl. exists n. split; [|by apply IH]. rewrite list_lookup_insert_ne; [done|].
    intros ->. apply Hkq. by apply list.last_Some_elem_of.
Qed.

(** The state with the buffer [i] at the end of the queue [q]. *)
Definition enqueued (s : ide) (q : list nat) (i : nat) : ide :=
  let l := <[i := None]> (qnext s) in
  match list.last q with
  | Some j => with_qnext (<[j := Some i]> l) s
  | None => with_queue (Some i) (with_qnext l s)
  end.

Lemma enqueued_fields s q i : ibufs (enqueued s q i) = ibufs s /\ dev (enqueued s q i) = dev s /\ woken (enqueued s q i) = woken s /\
  havedisk1 (enqueued s q i) = havedisk1 s /\ length (qnext (enqueued s q i)) = length (qnext s).
Proof. unfold enqueued. destruct (list.last q); cbn [with_qnext with_queue ibufs dev woken havedisk1 qnext]; by rewrite ?length_insert. Qed.

Lemma enqueued_chain s q i : chain (qnext s) (idequeue s) q -> NoDup q -> i ∉ q -> (i < length (qnext s))%nat ->
  chain (qnext (enqueued s q i)) (idequeue (enqueued s q i)) (q ++ [i]).
Proof.
  intros Hc Hd Hi Hlt. unfold enqueued. pose proof (chain_other _ _ _ i None Hi Hc) as Hc'.
  destruct (list.last q) as [j|] eqn:Hl; cbn [with_qnext with_queue idequeue qnext].
  - apply chain_append; try done. by apply list_lookup_insert_eq.
  - apply list.last_None in Hl as ->. split; [done|]. exists None. by rewrite list_lookup_insert_eq.
Qed.

Record requested (s : ide) (s' : ide) : Prop := {
  rd_bufs : ibufs s' = ibufs s;
  rd_disks : disks (dev s') = disks (dev s);
  rd_damaged : damaged (dev s') = damaged (dev s);
  rd_woken : woken s' = woken s;
  rd_disk1 : havedisk1 s' = havedisk1 s
}.

Lemma wp_iderw s q pid i b : queue_ok s q -> i ∉ q -> ibufs s !! i = Some b -> request_ok (dev s) b ->
  holdingsleep pid (b_lock b) = true -> b_dev b = 0 \/ havedisk1 s = true ->
  wp (iderw pid i) s (fun r s' => r = false /\ queue_ok s' (q ++ [i]) /\ requested s s').
Proof.
  intros [Ql Qc Qd Qb Qa Qt] Hi Hb R Hlock H1. pose proof (lookup_lt_Some _ _ _ Hb) as Hlt.
  unfold iderw. apply wp_bind. eapply wp_getb; [exact Hb|]. apply wp_bind, wp_gets. rewrite Hlock, (flags_todo b (rq_flags _ _ R)). cbn [negb].
  replace (negb (b_dev b =? 0) && negb (havedisk1 s)) with false; [|destruct H1 as [-> | ->]; [done|by rewrite andb_false_r]].
  apply wp_bind. unfold wp at 1, set_qnext. rewrite store_in by lia. apply wp_bind, wp_gets. apply wp_bind. unfold wp at 1.
  rewrite (queue_end_spec _ _ None (idequeue s) q); [|done|by apply chain_other|].
  2:{ cbn [with_qnext ibufs]. pose proof (nodup_length q (length (qnext s)) Qd (chain_length _ _ _ Qc)). lia. }
  apply wp_bind. destruct (enqueued_fields s q i) as (E1 & E2 & E3 & E4 & E5).
  assert (Hpp : store_pp match list.last q with Some j => Some j | None => None end (Some i) (with_qnext (<[i := None]> (qnext s)) s) = Ret tt (enqueued s q i)).
  { unfold enqueued. destruct (list.last q) as [j|] eqn:El; [|done]. cbn [store_pp]. unfold set_qnext. cbn [with_qnext qnext].
    rewrite store_in; [done|]. rewrite length_insert. apply list.last_Some_elem_of in El.
    pose proof (chain_length _ _ _ Qc) as Hf. rewrite list.Forall_forall in Hf. by apply Hf. }
  unfold wp at 1. rewrite Hpp. pose proof (enqueued_chain s q i Qc Qd Hi ltac:(lia)) as Hch.
  assert (Hnd : NoDup (q ++ [i])). { apply list.NoDup_app. split; [done|]. split; [|apply list.NoDup_singleton]. intros x Hx ->%list_elem_of_singleton. done. }
  assert (Hreq : forall j, j ∈ q ++ [i] -> exists bj, ibufs s !! j = Some bj /\ request_ok (dev s) bj).
  { intros j [Hj|Hj]%elem_of_app; [by apply Qb|]. apply list_elem_of_singleton in Hj as ->. by exists b. }
  apply wp_bind, wp_gets, wp_bind. assert (Hhd : idequeue (enqueued s q i) = head (q ++ [i])).
  { destruct (q ++ [i]) as [|x r]; [exact Hch|exact (proj1 Hch)]. }
  rewrite Hhd. assert (Hend : forall s', ibufs s' = ibufs s -> disks (dev s') = disks (dev s) -> damaged (dev s') = damaged (dev s) ->
    woken s' = woken s -> havedisk1 s' = havedisk1 s -> queue_ok s' (q ++ [i]) ->
    wp (iderw_wait i) s' (fun r s' => r = false /\ queue_ok s' (q ++ [i]) /\ requested s s')).
  { intros s' F1 F2 F3 F4 F5 Hq. unfold iderw_wait. apply wp_bind. eapply wp_getb; [rewrite F1; exact Hb|]. apply wp_ret.
    by rewrite (flags_todo b (rq_flags _ _ R)). }
  destruct q as [|x q].
  - cbn [app head]. rewrite decide_True by done. apply (wp_idestart _ i b); rewrite ?E1, ?E2; try done.
    intros d D1 D2 D3 D4. apply Hend; cbn [with_dev ibufs dev woken havedisk1]; try congruence.
    split; cbn [with_dev ibufs dev qnext idequeue]; rewrite ?E1; try done; [congruence| | |].
    + intros j Hj. destruct (Hreq j Hj) as (bj & ? & ?). exists bj. split; [done|]. by eapply request_device.
    + by exists b.
    + rewrite D1, D4. eapply sector_disk, R.
  - cbn [app head]. rewrite decide_False by (intros [= ->]; apply Hi; by left). apply wp_ret.
    apply Hend; try congruence. split; rewrite ?E1, ?E2; try done. congruence.
Qed.

(** ** Serving the queue *)

(** [n] times the disk finishes its command and interrupts. *)
Fixpoint interrupts (n : nat) : M ide unit :=
  match n with
  | O => ret tt
  | S n' => modify (with_dev settle) then! ideintr then! interrupts n'
  end.

Lemma wp_interrupts s q1 q2 : queue_ok s (q1 ++ q2) ->
  wp (interrupts (length q1)) s (fun _ s' => queue_ok s' q2 /\ woken s' = woken s ++ q1 /\
    (ibufs s', disks (dev s')) = foldl (fun p i => serve_at i p) (ibufs s, disks (dev s)) q1).
Proof.
  revert s. induction q1 as [|i q1 IH]; intros s Hq; cbn [length interrupts foldl].
  - apply wp_ret. by rewrite app_nil_r.
  - apply wp_bind, wp_modify, wp_bind. eapply wp_mono; [exact (wp_ideintr s i (q1 ++ q2) Hq)|]. cbn beta. intros _ s1 [Hq1 [S1 S2 _ _]].
    eapply wp_mono; [exact (IH s1 Hq1)|]. cbn beta. intros _ s2 (Hq2 & Hw & He). split; [done|].
    split; [by rewrite Hw, S2, <- app_assoc|]. by rewrite He, S1.
Qed.

(** C24. A request that is made while others wait is served after them: as many
    interrupts as there are requests before it and one more finish it, and the
    buffers and the disks are then what serving the requests one after the
    other, in the order they were made, gives: a write stores the buffer's
    data in its sector and a read fills the buffer with what the sector holds
    at that point.  Nobody else's buffer or sector changes, and the processes
    are woken in the same order. *)
Theorem ide_serves s q pid i b : queue_ok s q -> i ∉ q -> ibufs s !! i = Some b -> request_ok (dev s) b ->
  holdingsleep pid (b_lock b) = true -> b_dev b = 0 \/ havedisk1 s = true ->
  exists s1 s2 b2, iderw pid i s = Ret false s1 /\ interrupts (S (length q)) s1 = Ret tt s2 /\
    (ibufs s2, disks (dev s2)) = foldl (fun p j => serve_at j p) (ibufs s, disks (dev s)) (q ++ [i]) /\
    queue_ok s2 [] /\ woken s2 = woken s ++ q ++ [i] /\
    ibufs s2 !! i = Some b2 /\ b_flags b2 = B_VALID /\ iderw_wait i s2 = Ret true s2.
Proof.
  intros Hq Hi Hb R Hl H1. destruct (proj1 (wp_iff _ _ _) (wp_iderw s q pid i b Hq Hi Hb R Hl H1)) as (r & s1 & E & -> & Hq1 & [D1 D2 D3 D4 D5]).
  rewrite <- (app_nil_r (q ++ [i])) in Hq1.
  destruct (proj1 (wp_iff _ _ _) (wp_interrupts s1 (q ++ [i]) [] Hq1)) as ([] & s2 & E2 & Hq2 & Hw & He).
  rewrite length_app, Nat.add_comm in E2. rewrite D1, D2 in He. rewrite D4 in Hw.
  assert (Hb2 : exists b2, ibufs s2 !! i = Some b2 /\ b_flags b2 = B_VALID).
  { rewrite foldl_app in He. cbn [foldl] in He. assert (Hx : forall p l, is_Some (p.1 !! i) -> is_Some ((foldl (fun p j => serve_at j p) p l).1 !! i)).
    { intros p l. revert p. induction l as [|k l IH]; intros p Hp; [done|]. cbn [foldl]. apply IH. unfold serve_at.
      destruct (p.1 !! k); [|done]. cbn [fst]. by rewrite lookup_lt_is_Some, length_insert, <- lookup_lt_is_Some. }
    destruct (Hx (ibufs s, disks (dev s)) q) as [x Hxi]; [by exists b|]. unfold serve_at at 1 in He. rewrite Hxi in He. injection He as -> _.
    exists ((serve x (foldl (fun p j => serve_at j p) (ibufs s, disks (dev s)) q).2).1).
    rewrite list_lookup_insert_eq by (by eapply lookup_lt_Some). split; [done|]. unfold serve. by destruct (dirty x). }
  destruct Hb2 as (b2 & Hb2 & Hf). exists s1, s2, b2. split_and!; try done. unfold iderw_wait, bind, getb. rewrite Hb2. cbn [lift ret]. by rewrite Hf.
Qed.

(** ** The driver and its processes *)

(** The driver, the buffers whose processes sleep in [iderw], and all
    requests so far. *)
Record system : Type := { drv : ide; sleepers : list nat; submitted : list nat }.

Inductive step : system -> system -> Prop :=
| step_request m pid i b r d : i ∉ sleepers m -> ibufs (drv m) !! i = Some b -> request_ok (dev (drv m)) b ->
    holdingsleep pid (b_lock b) = true -> b_dev b = 0 \/ havedisk1 (drv m) = true -> iderw pid i (drv m) = Ret r d ->
    step m {| drv := d; sleepers := if r then sleepers m else i :: sleepers m; submitted := submitted m ++ [i] |}
| step_use m i b : i ∉ sleepers m ->
    step m {| drv := with_ibufs (<[i := b]> (ibufs (drv m))) (drv m); sleepers := sleepers m; submitted := submitted m |}
| step_interrupt m d : act (dev (drv m)) <> Idle -> ideintr (with_dev settle (drv m)) = Ret tt d ->
    step m {| drv := d; sleepers := sleepers m; submitted := submitted m |}
| step_wake m i r d : i ∈ sleepers m -> iderw_wait i (drv m) = Ret r d ->
    step m {| drv := d; sleepers := if r then filter (fun j => j <> i) (sleepers m) else sleepers m; submitted := submitted m |}.

Record system_ok (m : system) (q : list nat) : Prop := {
  so_queue : queue_ok (drv m) q;
  so_order : submitted m = woken (drv m) ++ q;
  so_sleep i : i ∈ q -> i ∈ sleepers m;
  so_done i : i ∈ sleepers m -> i ∈ q \/ exists b, ibufs (drv m) !! i = Some b /\ b_flags b = B_VALID
}.

Lemma queue_busy s i q : queue_ok s (i :: q) -> act (dev s) <> Idle.
Proof. intros [_ _ _ _ (b & _ & ->) _]. unfold activity_of. by destruct (dirty b). Qed.

Lemma queue_ibufs s q l : queue_ok s q -> length l = length (ibufs s) -> (forall i, i ∈ q -> l !! i = ibufs s !! i) -> queue_ok (with_ibufs l s) q.
Proof.
  intros [Ql Qc Qd Qb Qa Qt] Hlen Hsame. split; cbn [with_ibufs qnext ibufs idequeue dev]; try done; [congruence| |].
  - intros i Hi. rewrite Hsame by done. by apply Qb.
  - destruct q as [|i q]; [done|]. rewrite Hsame by (by left). done.
Qed.

Lemma serve_at_lookup i j p : i <> j -> (serve_at i p).1 !! j = p.1 !! j.
Proof. intros Hne. unfold serve_at. destruct (p.1 !! i); [|done]. cbn [fst]. by rewrite list_lookup_insert_ne. Qed.

Lemma iderw_wait_state i s r s' : iderw_wait i s = Ret r s' -> s' = s /\ exists b, ibufs s !! i = Some b /\
  r = (Z.land (b_flags b) (Z.lor B_VALID B_DIRTY) =? B_VALID).
Proof.
  unfold iderw_wait, bind, getb, lift, ret. destruct (ibufs s !! i) as [b|] eqn:E; [|done]. intros [= <- <-]. split; [done|]. by exists b.
Qed.

Lemma step_ok m m' q : step m m' -> system_ok m q -> exists q', system_ok m' q'.
Proof.
  intros Hstep [Oq Oo Os Od]. destruct Hstep as [m pid i b r d Hi Hb R Hl H1 E|m i b Hi|m d Ha E|m i r d Hi E].
  - assert (Hiq : i ∉ q) by (by intros ?%Os). destruct (proj1 (wp_iff _ _ _) (wp_iderw _ q pid i b Oq Hiq Hb R Hl H1)) as (r' & d' & E' & -> & Hq & [D1 D2 D3 D4 D5]).
    rewrite E in E'. injection E' as -> ->. exists (q ++ [i]). split; cbn [drv sleepers submitted]; [done|by rewrite Oo, D4, <- app_assoc| |].
    + intros j [Hj|Hj]%elem_of_app; [right; by apply Os|]. apply list_elem_of_singleton in Hj as ->. by left.
    + intros j [->|Hj]%elem_of_cons; [left; apply elem_of_app; right; by left|]. destruct (Od j Hj) as [?|Hv]; [left; apply elem_of_app; by left|].
      right. by rewrite D1.
  - exists q. split; cbn [drv sleepers submitted]; try done.
    + apply queue_ibufs; [done|apply length_insert|]. intros j Hj%Os. rewrite list_lookup_insert_ne; [done|by intros ->].
    + intros j Hj. destruct (Od j Hj) as [?|Hv]; [by left|]. right. cbn [with_ibufs ibufs]. rewrite list_lookup_insert_ne; [done|by intros ->].
  - destruct q as [|i q]; [by destruct Oq as [_ _ _ _ Hid _]|].
    destruct (proj1 (wp_iff _ _ _) (wp_ideintr _ i q Oq)) as ([] & d' & E' & Hq & [S1 S2 S3 S4]). rewrite E in E'. injection E' as ->.
    exists q. split; cbn [drv sleepers submitted]; [done|by rewrite Oo, S2, <- app_assoc|by intros j Hj; apply Os; right|].
    destruct (qu_bufs _ _ Oq i ltac:(by left)) as (b & Hb & R). intros j Hj. destruct (decide (j = i)) as [->|Hne].
    + right. unfold serve_at in S1. cbn [fst snd] in S1. rewrite Hb in S1. injection S1 as -> _.
      rewrite list_lookup_insert_eq by (by eapply lookup_lt_Some). eexists. split; [done|]. unfold serve. by destruct (dirty b).
    + assert (Hs : ibufs d' !! j = ibufs (drv m) !! j).
      { change (ibufs d') with (ibufs d', disks (dev d')).1. rewrite S1. by apply serve_at_lookup. }
      destruct (Od j Hj) as [[->|?]%elem_of_cons|Hv]; [done|by left|right; by rewrite Hs].
  - destruct (iderw_wait_state _ _ _ _ E) as [-> (b & Hb & ->)]. exists q. split; cbn [drv sleepers submitted]; try done.
    + intros j Hj. destruct (_ =? _) eqn:Hv; [|by apply Os]. apply list_elem_of_filter. split; [|by apply Os]. intros ->.
      destruct (qu_bufs _ _ Oq i Hj) as (b' & Hb' & R). rewrite Hb in Hb'. injection Hb' as <-. by rewrite (flags_todo b (rq_flags _ _ R)) in Hv.
    + intros j Hj. apply Od. destruct (_ =? _); [|done]. by apply list_elem_of_filter in Hj as [_ ?].
Qed.

(** Nothing is waiting. *)
Definition quiet (m : system) : Prop := queue_ok (drv m) [] /\ sleepers m = [] /\ submitted m = woken (drv m).

Lemma reachable_ok m m' : rtc step m m' -> quiet m -> exists q, system_ok m' q.
Proof.
  intros Hr (Hq & Hs & Hw). assert (H0 : exists q, system_ok m q).
  { exists []. split; [done|by rewrite app_nil_r|by intros i ?%elem_of_nil|]. intros i Hi. rewrite Hs in Hi. by apply elem_of_nil in Hi. }
  clear Hq Hs Hw. induction Hr as [|x y z H _ IH]; [done|]. apply IH. destruct H0 as [q H0]. by eapply step_ok.
Qed.

(** C25. In every state that the driver and its processes reach, whatever the order
    of requests, interrupts and wake-ups: the requests have been answered in
    the order they were made (the wake-ups so far followed by the queue are
    the requests), and no process sleeps for ever: either its request is
    finished, so that it returns when it runs, or the disk is working, and
    after as many interrupts as there are requests up to its own it is
    finished. *)
Theorem ide_no_lost_request m m' : quiet m -> rtc step m m' ->
  exists q, submitted m' = woken (drv m') ++ q /\ chain (qnext (drv m')) (idequeue (drv m')) q /\
  forall i, i ∈ sleepers m' ->
    iderw_wait i (drv m') = Ret true (drv m') \/
    (act (dev (drv m')) <> Idle /\
     exists n s', (n <= length q)%nat /\ interrupts n (drv m') = Ret tt s' /\ iderw_wait i s' = Ret true s').
Proof.
  intros Hq Hr. destruct (reachable_ok m m' Hr Hq) as [q [Oq Oo Os Od]]. exists q. split; [done|]. split; [apply Oq|]. intros i Hi.
  assert (Hw : forall s b, ibufs s !! i = Some b -> b_flags b = B_VALID -> iderw_wait i s = Ret true s).
  { intros s b Hb Hf. unfold iderw_wait, bind, getb. rewrite Hb. cbn [lift ret]. by rewrite Hf. }
  destruct (Od i Hi) as [Hin|(b & Hb & Hf)]; [right|left; by eapply Hw]. split; [destruct q; [by apply elem_of_nil in Hin|by eapply queue_busy]|].
  apply list_elem_of_split in Hin as (q1 & q2 & ->). change (i :: q2) with ([i] ++ q2) in Oq. rewrite app_assoc in Oq.
  destruct (proj1 (wp_iff _ _ _) (wp_interrupts (drv m') (q1 ++ [i]) q2 Oq)) as ([] & s' & E & Hq2 & _ & He).
  exists (length (q1 ++ [i])), s'. split; [rewrite !length_app; cbn [length]; lia|]. split; [done|].
  rewrite foldl_app in He. cbn [foldl] in He. set (p := foldl _ _ q1) in He.
  assert (Hx : exists b, p.1 !! i = Some b).
  { destruct (qu_bufs _ _ Oq i) as (b & Hb & _); [apply elem_of_app; left; apply elem_of_app; right; by left|]. exists b. subst p.
    pose proof (qu_nodup _ _ Oq) as Hnd. rewrite <- app_assoc in Hnd. apply list.NoDup_app in Hnd as (_ & Hnot & _).
    assert (Hi1 : i ∉ q1) by (intros Hbad; apply (Hnot i Hbad); by left). clear -Hb Hi1.
    revert Hb. generalize (disks (dev (drv m'))) as ds, (ibufs (drv m')) as l. induction q1 as [|k q1 IH]; intros ds l Hb; [done|].
    apply not_elem_of_cons in Hi1 as [Hne Hi1]. cbn [foldl]. destruct (serve_at k (l, ds)) as [l' ds'] eqn:E. apply IH; [done|].
    change l' with (l', ds').1. rewrite <- E, serve_at_lookup; [done|congruence]. }
  destruct Hx as [b Hb]. unfold serve_at in He. rewrite Hb in He. injection He as He _.
  eapply Hw; [rewrite He; apply list_lookup_insert_eq; by eapply lookup_lt_Some|]. unfold serve. by destruct (dirty b).
Qed.

(** ** The two drivers *)

(** For one request on disk 1 the driver and its interrupt do what [iderw] of
    the memory disk does: the same buffer and the same disk. *)
Theorem ide_like_memide s t i b m t' : queue_ok s [] -> ibufs s = bufs t -> disks (dev s) !! 1%nat = Some m -> memdisk t = m ->
  bufs t !! i = Some b -> b_dev b = 1 -> request_ok (dev s) b -> havedisk1 s = true -> Bio.iderw i t = Ret tt t' ->
  exists s1 s2, Ide.iderw (mypid t) i s = Ret false s1 /\ interrupts 1 s1 = Ret tt s2 /\
    ibufs s2 = bufs t' /\ disks (dev s2) !! 1%nat = Some (memdisk t').
Proof.
  intros Hq Hbufs Hm Htm Hb Hd R H1 E. unfold Bio.iderw in E. rewrite Hb in E.
  destruct (holdingsleep (mypid t) (b_lock b)) eqn:Hl; [|done]. cbn [negb] in E. rewrite (flags_todo b (rq_flags _ _ R)), Hd in E.
  change (negb (1 =? 1)) with false in E. cbv iota in E. destruct (Z.of_nat (length (memdisk t)) <=? b_blockno b); [done|].
  pose proof Hb as Hb'. rewrite <- Hbufs in Hb'.
  destruct (ide_serves s [] (mypid t) i b Hq ltac:(by intros ?%elem_of_nil) Hb' R Hl ltac:(by right)) as (s1 & s2 & _ & E1 & E2 & He & _).
  exists s1, s2. split; [done|]. split; [done|]. cbn [app foldl] in He. unfold serve_at in He. cbn [fst snd] in He. rewrite Hb' in He.
  injection He as -> ->. assert (Hdr : drive b = 1%nat) by (unfold drive; by rewrite Hd). unfold serve, dirty. rewrite Hdr, <- Hbufs in *.
  destruct (Z.land (b_flags b) B_DIRTY =? 0) eqn:Hz; cbn [negb] in *.
  - unfold sector_at. rewrite Hm. cbn [mbind option_bind default from_option]. rewrite Htm in E. destruct (m !! at_ (b_blockno b)) as [x|]; [|done].
    injection E as <-. cbn [with_bufs bufs memdisk fst snd]. rewrite Htm, Hm. split; [|done]. f_equal. unfold with_flags, with_data. cbn. f_equal.
    destruct (rq_flags _ _ R) as [-> |[F|F]]; [done|rewrite F in Hz; done..].
  - injection E as <-. cbn [bufs memdisk fst snd]. unfold put_sector. rewrite list_lookup_alter_eq, Hm, Htm. split; [|done].
    do 2 f_equal. destruct (rq_flags _ _ R) as [F|[-> | ->]]; [rewrite F in Hz; done|done..].
Qed.

(** ** A small machine *)

Definition sample_disk (n : Z) : list block := [replicate BSIZE n; replicate BSIZE (n + 1); replicate BSIZE (n + 2)].
Definition sample_buf (fl blockno : Z) (data : block) : buf :=
  {| b_flags := fl; b_dev := 1; b_blockno := blockno; b_lock := {| sl_locked := true; sl_pid := 3 |}; b_refcnt := 1; b_data := data |}.

Definition sample_ide (bad : nat -> Z -> bool) : ide :=
  {| ibufs := [sample_buf 0 2 (replicate BSIZE 0); sample_buf B_DIRTY 2 (replicate BSIZE 9); sample_buf 0 2 (replicate BSIZE 0)];
     qnext := [None; None; None]; idequeue := None; havedisk1 := true; woken := [];
     dev := {| disks := [sample_disk 10; sample_disk 20]; damaged := bad; r_count := 0; r_lba0 := 0; r_lba1 := 0; r_lba2 := 0;
               r_drive := 224; act := Idle; err := false; sector_buf := [] |} |}.

Definition healthy (k : nat) (n : Z) : bool := false.

Lemma sample_quiet : queue_ok (sample_ide healthy) [].
Proof. split; [done|done|by apply list.NoDup_nil|by intros i ?%elem_of_nil|done|by eexists]. Qed.

Lemma sample_request i b : ibufs (sample_ide healthy) !! i = Some b -> request_ok (dev (sample_ide healthy)) b.
Proof.
  intros Hb. do 3 (destruct i as [|i]; [injection Hb as <-; split; [cbn; tauto|by right|done|by eexists|done]|]). done.
Qed.

Definition after {A} (o : outcome ide A) : ide := match o with Ret _ s => s | Stop _ s => s end.

Lemma ide_serves_witness : exists s1 s2 b2, iderw 3 0 (sample_ide healthy) = Ret false s1 /\ interrupts 1 s1 = Ret tt s2 /\
  ibufs s2 !! 0%nat = Some b2 /\ b_flags b2 = B_VALID /\ b_data b2 = replicate BSIZE 22.
Proof.
  destruct (ide_serves (sample_ide healthy) [] 3 0 _ sample_quiet ltac:(by intros ?%elem_of_nil) eq_refl (sample_request 0 _ eq_refl) eq_refl
    ltac:(by right)) as (s1 & s2 & b2 & E1 & E2 & He & _ & _ & Hb & Hf & _).
  exists s1, s2, b2. split; [exact E1|]. split; [exact E2|]. split; [exact Hb|]. split; [exact Hf|].
  cbn [app foldl] in He. injection He as He _. rewrite He in Hb. cbn in Hb. injection Hb as <-. reflexivity.
Defined.

(** A read, a write of the same sector and a read wait together: the first
    read gets the old data and the second the new. *)
Definition sample_busy : system :=
  {| drv := after (iderw 3 1 (after (iderw 3 0 (sample_ide healthy)))); sleepers := [1; 0]%nat; submitted := [0; 1]%nat |}.

Lemma sample_reached : rtc step {| drv := sample_ide healthy; sleepers := []; submitted := [] |} sample_busy.
Proof.
  eapply rtc_l; [refine (step_request {| drv := sample_ide healthy; sleepers := []; submitted := [] |} 3 0 _ false _ _ eq_refl (sample_request 0 _ eq_refl) eq_refl _ _);
    [by intros ?%elem_of_nil|by right|vm_compute; reflexivity]|].
  eapply rtc_l; [refine (step_request _ 3 1 (sample_buf B_DIRTY 2 (replicate BSIZE 9)) false _ _ _ _ eq_refl _ _);
    [by intros ?%list_elem_of_singleton|reflexivity| |by right|vm_compute; reflexivity]|].
  - split; [cbn; tauto|by right|done|by eexists|done].
  - apply rtc_refl.
Qed.

Lemma ide_no_lost_request_witness : exists q, submitted sample_busy = woken (drv sample_busy) ++ q /\ q = [0; 1]%nat /\
  exists n s', (n <= 2)%nat /\ interrupts n (drv sample_busy) = Ret tt s' /\ iderw_wait 1 s' = Ret true s'.
Proof.
  destruct (ide_no_lost_request {| drv := sample_ide healthy; sleepers := []; submitted := [] |} sample_busy) as (q & Hq & _ & H).
  - split; [exact sample_quiet|done].
  - exact sample_reached.
  - exists q. split; [exact Hq|]. assert (E : q = [0; 1]%nat) by (symmetry; exact Hq). split; [exact E|]. subst q.
    destruct (H 1%nat ltac:(by left)) as [Hd|[_ Hn]]; [exfalso; clear -Hd; revert Hd; vm_compute; discriminate|exact Hn].
Defined.

Lemma ide_like_memide_witness : exists s1 s2,
  let t := {| bufs := ibufs (sample_ide healthy); bprev := []; bnext := []; mypid := 3; memdisk := sample_disk 20; wlog := [] |} in
  Ide.iderw 3 1 (sample_ide healthy) = Ret false s1 /\ interrupts 1 s1 = Ret tt s2 /\
  disks (dev s2) !! 1%nat = Some [replicate BSIZE 20; replicate BSIZE 21; replicate BSIZE 9].
Proof.
  destruct (ide_like_memide (sample_ide healthy)
    {| bufs := ibufs (sample_ide healthy); bprev := []; bnext := []; mypid := 3; memdisk := sample_disk 20; wlog := [] |}
    1 _ (sample_disk 20) _ sample_quiet eq_refl eq_refl eq_refl eq_refl eq_refl (sample_request 1 _ eq_refl) eq_refl eq_refl)
    as (s1 & s2 & E1 & E2 & _ & E3).
  exists s1, s2. split; [exact E1|]. split; [exact E2|exact E3].
Defined.

(** A read of a damaged sector ends like one that succeeded: the buffer is
    marked valid, with the data it had before, and the process is woken. *)
Theorem ide_error_valid : exists s, interrupts 1 (after (iderw 3 0 (sample_ide (fun _ _ => true)))) = Ret tt s /\
  woken s = [0%nat] /\ iderw_wait 0 s = Ret true s /\ (b_data <$> ibufs s !! 0%nat) = Some (replicate BSIZE 0).
Proof. eexists. split_and!; vm_compute; reflexivity. Qed.

(** [ideinit] finds disk 1 exactly if it is there. *)
Theorem ideinit_probes s : act (dev s) = Idle -> is_Some (disks (dev s) !! selected (dev s)) -> havedisk1 s = false ->
  wp ideinit s (fun _ s' => (havedisk1 s' = true <-> is_Some (disks (dev s) !! 1%nat)) /\ disks (dev s') = disks (dev s) /\ selected (dev s') = 0%nat).
Proof.
  intros Ha Hs H0. unfold ideinit. apply wp_bind. apply wp_idewait; [done..|]. apply wp_bind, wp_modify. set (s1 := with_dev _ s).
  assert (Hsel : selected (dev s1) = 1%nat) by reflexivity. assert (Hd : disks (dev s1) = disks (dev s)) by reflexivity.
  assert (Hact : act (dev s1) = Idle) by exact Ha. apply wp_bind.
  assert (Hp : forall n, wp (probe (S n)) s1 (fun _ s' => (havedisk1 s' = true <-> is_Some (disks (dev s) !! 1%nat)) /\ dev s' = dev s1)).
  { destruct (disks (dev s) !! 1%nat) as [m|] eqn:E.
    - intros n. cbn [probe]. apply wp_bind, wp_gets. unfold status. rewrite Hsel, Hd, E, Hact.
      replace (negb (Z.lor IDE_DRDY (if err (dev s1) then IDE_ERR else 0) =? 0)) with true by (by destruct (err (dev s1))).
      apply wp_modify. split; [|done]. split; [done|by cbn].
    - assert (Hz : forall n, wp (probe n) s1 (fun _ s' => s' = s1)).
      { induction n as [|n IH]; cbn [probe]; [by apply wp_ret|]. apply wp_bind, wp_gets. unfold status. rewrite Hsel, Hd, E. exact IH. }
      intros n. eapply wp_mono; [apply Hz|]. cbn beta. intros _ s' ->. split; [|done]. cbn [s1 with_dev havedisk1]. rewrite H0.
      split; [done|by intros []]. }
  eapply wp_mono; [apply (Hp 999%nat)|]. cbn beta. intros _ s' [Hh Hdev]. apply wp_modify. cbn [with_dev havedisk1 dev].
  split; [done|]. rewrite Hdev. done.
Qed.
