(* ===== verification/Tools.v ===== *)
(** * The small user programs

    [user/cat.c], [user/wc.c], [user/echo.c], [user/rm.c], [user/mkdir.c],
    [user/ln.c], [user/kill.c], [user/ls.c], and the [main] functions of
    [user/chmod.c] and [user/grep.c], with [stat] of [user/ulib.c].

    The programs are written against [Syscalls] and [Files], the further calls
    they make, and print with [printf] of [Printf].  [args] are the arguments
    after the name of the program, each with its terminator.  A program ends
    by [exit], which stops it.  Loops that read a descriptor have fuel, one
    unit for each [read]. *)

From S2P Require Import Prelude CStr USys Auth Format Printf Perm Grep BufIface Txn Fs.

Class Files (W : Type) `{Syscalls W} : Type := {
  f_fstat : Z -> M W (option stat);
  f_unlink : list Z -> M W Z;
  f_mkdir : list Z -> M W Z;
  f_link : list Z -> list Z -> M W Z;
  f_kill : Z -> M W Z;
  f_chmod : list Z -> Z -> M W Z
}.

(** A format, with its terminator and with a newline before it. *)
Definition fmt (s : string) : list Z := chars s ++ [0].
Definition fmtn (s : string) : list Z := chars s ++ [NL; 0].

(** A string argument of a format. *)
Definition str (s : list Z) : arg := Ptr (Some s).

Section tools.
Context {W : Type} `{Syscalls W} `{!Files W}.

Definition exit {A : Type} : M W A := halt Exited.

(** ** cat *)

(** [char buf[512]] is static and keeps what was read last. *)
Fixpoint cat (fuel : nat) (fd : Z) (buf : list Z) : M W (list Z) :=
  match fuel with
  | O => halt Undefined
  | S fuel' =>
      let! r := u_read fd (Z.of_nat (length buf)) in
      let buf := splice buf 0 r.2 in
      if 0 <? r.1 then
        let! n := u_write 1 (take (Z.to_nat r.1) buf) in
        if negb (n =? r.1) then printf (fmtn "cat: write error") [] then! exit
        else cat fuel' fd buf
      else if r.1 <? 0 then printf (fmtn "cat: read error") [] then! exit
      else ret buf
  end.

Fixpoint cat_files (fuel : nat) (args : list (list Z)) (buf : list Z) : M W unit :=
  match args with
  | [] => exit
  | a :: args' =>
      let! fd := u_open a 0 in
      if fd <? 0 then printf (fmtn "cat: cannot open %s") [str a] then! exit
      else
        let! buf := cat fuel fd buf in
        u_close fd then!
        cat_files fuel args' buf
  end.

Definition cat_main (fuel : nat) (args : list (list Z)) : M W unit :=
  match args with
  | [] => let! _ := cat fuel 0 (replicate 512 0) in exit
  | _ => cat_files fuel args (replicate 512 0)
  end.

(** ** wc *)

Record counts : Type := { c_l : Z; c_w : Z; c_c : Z; c_inword : bool }.

(** [" \r\t\n\v"]. *)
Definition blanks : list Z := [32; 13; 9; 10; 11; 0].

Definition count_byte (k : counts) (b : Z) : option counts :=
  let c := s32 (c_c k + 1) in
  let l := if b =? NL then s32 (c_l k + 1) else c_l k in
  r ← strchr blanks b;
  Some match r with
       | Some _ => {| c_l := l; c_w := c_w k; c_c := c; c_inword := false |}
       | None =>
           if negb (c_inword k) then {| c_l := l; c_w := s32 (c_w k + 1); c_c := c; c_inword := true |}
           else {| c_l := l; c_w := c_w k; c_c := c; c_inword := true |}
       end.

Fixpoint count_bytes (k : counts) (bs : list Z) : option counts :=
  match bs with
  | [] => Some k
  | b :: bs' => k ← count_byte k b; count_bytes k bs'
  end.

Fixpoint wc_loop (fuel : nat) (fd : Z) (buf : list Z) (k : counts) : M W (list Z * counts) :=
  match fuel with
  | O => halt Undefined
  | S fuel' =>
      let! r := u_read fd (Z.of_nat (length buf)) in
      let buf := splice buf 0 r.2 in
      if 0 <? r.1 then
        let! k := lift (count_bytes k (take (Z.to_nat r.1) buf)) in
        wc_loop fuel' fd buf k
      else if r.1 <? 0 then printf (fmtn "wc: read error") [] then! exit
      else ret (buf, k)
  end.

Definition no_counts : counts := {| c_l := 0; c_w := 0; c_c := 0; c_inword := false |}.

Definition wc (fuel : nat) (fd : Z) (name : list Z) (buf : list Z) : M W (list Z) :=
  let! r := wc_loop fuel fd buf no_counts in
  printf (fmtn "%d %d %d %s") [Word (c_l r.2); Word (c_w r.2); Word (c_c r.2); str name] then!
  ret r.1.

Fixpoint wc_files (fuel : nat) (args : list (list Z)) (buf : list Z) : M W unit :=
  match args with
  | [] => exit
  | a :: args' =>
      let! fd := u_open a 0 in
      if fd <? 0 then printf (fmtn "wc: cannot open %s") [str a] then! exit
      else
        let! buf := wc fuel fd a buf in
        u_close fd then!
        wc_files fuel args' buf
  end.

Definition wc_main (fuel : nat) (args : list (list Z)) : M W unit :=
  match args with
  | [] => let! _ := wc fuel 0 [0] (replicate 512 0) in exit
  | _ => wc_files fuel args (replicate 512 0)
  end.

(** ** echo *)

Fixpoint echo_main (args : list (list Z)) : M W unit :=
  match args with
  | [] => exit
  | a :: args' =>
      printf (fmt "%s%s") [str a; str (if decide (args' = []) then [NL; 0] else [32; 0])] then!
      echo_main args'
  end.

(** ** rm, mkdir, ln, kill *)

Fixpoint rm_files (args : list (list Z)) : M W unit :=
  match args with
  | [] => exit
  | a :: args' =>
      let! r := f_unlink a in
      if r <? 0 then fprintf 2 (fmtn "rm: %s failed to delete") [str a] then! exit
      else rm_files args'
  end.

Definition rm_main (args : list (list Z)) : M W unit :=
  match args with
  | [] => fprintf 2 (fmtn "Usage: rm files...") [] then! exit
  | _ => rm_files args
  end.

Fixpoint mkdir_files (args : list (list Z)) : M W unit :=
  match args with
  | [] => exit
  | a :: args' =>
      let! r := f_mkdir a in
      if r <? 0 then fprintf 2 (fmtn "mkdir: %s failed to create") [str a] then! exit
      else mkdir_files args'
  end.

Definition mkdir_main (args : list (list Z)) : M W unit :=
  match args with
  | [] => fprintf 2 (fmtn "Usage: mkdir files...") [] then! exit
  | _ => mkdir_files args
  end.

Definition ln_main (args : list (list Z)) : M W unit :=
  match args with
  | [old; new] =>
      let! r := f_link old new in
      (if r <? 0 then fprintf 2 (fmtn "link %s %s: failed") [str old; str new] else ret tt) then!
      exit
  | _ => fprintf 2 (fmtn "Usage: ln old new") [] then! exit
  end.

Fixpoint kill_each (args : list (list Z)) : M W unit :=
  match args with
  | [] => exit
  | a :: args' =>
      let! n := lift (atoi a) in
      f_kill n then!
      kill_each args'
  end.

Definition kill_main (args : list (list Z)) : M W unit :=
  match args with
  | [] => fprintf 2 (fmtn "usage: kill pid...") [] then! exit
  | _ => kill_each args
  end.

(** ** ls *)

(** [stat] of the user library. *)
Definition ustat (n : list Z) : M W (option stat) :=
  let! fd := u_open n 0 in
  if fd <? 0 then ret None
  else
    let! r := f_fstat fd in
    u_close fd then!
    ret r.

(** [for(p=path+strlen(path); p >= path && *p != '/'; p--) ; p++]: the offset
    of [p], from the offset [n] on. *)
Fixpoint after_slash (path : list Z) (n : nat) : option nat :=
  c ← path !! n;
  if c =? SLASH then Some (S n)
  else match n with
       | O => Some O
       | S n' => after_slash path n'
       end.

(** The string returned, and the static buffer. *)
Definition fmtname (path buf : list Z) : option (list Z * list Z) :=
  n ← strlen path;
  k ← after_slash path n;
  let p := drop k path in
  len ← strlen p;
  if (DIRSIZ <=? len)%nat then Some (p, buf)
  else
    if decide (len <= length buf)%nat then
      buf ← umemset (splice buf 0 (take len p)) len 32 (DIRSIZ - len);
      Some (buf, buf)
    else None.

(** What [ls] and [lsl] print of a file, with the static buffer of
    [fmtname]. *)
Definition show_short (path : list Z) (st : stat) (nbuf : list Z) : M W (list Z) :=
  let! r := lift (fmtname path nbuf) in
  printf (fmtn "%s %d %d %d") [str r.1; Word (st_type st); Word (st_ino st); Word (st_size st)] then!
  ret r.2.

(** [junk] is what the buffers of [uidtouser] and [gidtogroup] hold. *)
Definition show_long (junk : list Z) (path : list Z) (st : stat) (nbuf : list Z) : M W (list Z) :=
  put_all (putc 1) (printperm (st_mode st) (st_type st =? T_DIR)) then!
  let! u := uidtouser junk (st_uid st) in
  let! g := gidtogroup junk (st_gid st) in
  let! r := lift (fmtname path nbuf) in
  printf (fmtn "%s %s %s %d %d %d") [Ptr u; Ptr g; str r.1; Word (st_type st); Word (st_ino st); Word (st_size st)] then!
  ret r.2.

Section listing.
Context (show : list Z -> stat -> list Z -> M W (list Z)).

(** The loop over the entries; [p] is the offset in [buf] after the slash. *)
Fixpoint ls_entries (fuel : nat) (fd : Z) (buf : list Z) (p : nat) (nbuf : list Z) : M W (list Z) :=
  match fuel with
  | O => halt Undefined
  | S fuel' =>
      let! r := u_read fd DESIZE in
      if r.1 =? DESIZE then
        let! inum := lift (Mem.load 2 r.2 0) in
        if inum =? 0 then ls_entries fuel' fd buf p nbuf
        else
          let! buf := lift (store (splice buf p (take DIRSIZ (drop 2 r.2))) (p + DIRSIZ) 0) in
          let! st := ustat buf in
          match st with
          | None => printf (fmtn "ls: cannot stat %s") [str buf] then! ls_entries fuel' fd buf p nbuf
          | Some st => let! nbuf := show buf st nbuf in ls_entries fuel' fd buf p nbuf
          end
      else ret nbuf
  end.

(** [buf] is the uninitialised array of 512 bytes. *)
Definition ls_with (fuel : nat) (path buf nbuf : list Z) : M W (list Z) :=
  let! fd := u_open path 0 in
  if fd <? 0 then fprintf 2 (fmtn "ls: cannot open %s") [str path] then! ret nbuf
  else
    let! st := f_fstat fd in
    match st with
    | None => fprintf 2 (fmtn "ls: cannot stat %s") [str path] then! u_close fd then! ret nbuf
    | Some st =>
        let! nbuf :=
          (if st_type st =? T_FILE then show path st nbuf
           else if st_type st =? T_DIR then
             let! n := lift (strlen path) in
             if 512 <? Z.of_nat n + 1 + Z.of_nat DIRSIZ + 1 then printf (fmtn "ls: path too long") [] then! ret nbuf
             else
               let! buf := lift (strcpy buf 0 path) in
               let! n := lift (strlen buf) in
               let! buf := lift (store buf n SLASH) in
               ls_entries fuel fd buf (S n) nbuf
           else ret nbuf) in
        u_close fd then!
        ret nbuf
    end.

Fixpoint ls_each (fuel : nat) (args : list (list Z)) (buf nbuf : list Z) : M W unit :=
  match args with
  | [] => exit
  | a :: args' => let! nbuf := ls_with fuel a buf nbuf in ls_each fuel args' buf nbuf
  end.
End listing.

Definition ls (fuel : nat) (path buf nbuf : list Z) : M W (list Z) := ls_with show_short fuel path buf nbuf.
Definition lsl (junk : list Z) (fuel : nat) (path buf nbuf : list Z) : M W (list Z) := ls_with (show_long junk) fuel path buf nbuf.

(** [strstr(argv[1], "-l") != NULL]. *)
Definition has_l (a : list Z) : option bool :=
  r ← strstr a (chars "-l" ++ [0]);
  Some match r with Some _ => true | None => false end.

Definition ls_main (fuel : nat) (junk buf : list Z) (args : list (list Z)) : M W unit :=
  let nbuf := replicate (S DIRSIZ) 0 in
  match args with
  | [] => let! _ := ls fuel (fmt ".") buf nbuf in exit
  | a :: args' =>
      let! l := lift (has_l a) in
      if l : bool then
        match args' with
        | [] => let! _ := lsl junk fuel (fmt ".") buf nbuf in exit
        | _ => ls_each (show_long junk) fuel args' buf nbuf
        end
      else ls_each show_short fuel args buf nbuf
  end.

(** ** chmod *)

Fixpoint chmod_octal (mode : Z) (files : list (list Z)) : M W unit :=
  match files with
  | [] => exit
  | f :: files' => f_chmod f (octtodec mode) then! chmod_octal mode files'
  end.

Fixpoint chmod_files (whom symbol perm : Z) (files : list (list Z)) : M W unit :=
  match files with
  | [] => exit
  | f :: files' =>
      let! fd := u_open f 0 in
      if fd <? 0 then printf (fmtn "chmod: cannot open %s") [str f] then! exit
      else
        let! st := f_fstat fd in
        match st with
        | None => printf (fmtn "chmod: cannot stat %s") [str f] then! u_close fd then! exit
        | Some st => f_chmod f (chmod_symbolic whom symbol perm (st_mode st)) then! chmod_files whom symbol perm files'
        end
  end.

Definition chmod_main (args : list (list Z)) : M W unit :=
  match args with
  | a :: (_ :: _) as files =>
      let! plus := lift (strstr a (chars "+" ++ [0])) in
      let! minus := lift (strstr a (chars "-" ++ [0])) in
      match plus, minus with
      | None, None =>
          let! mode := lift (atoi a) in
          if mode <? 0 then printf (fmtn "chmod: invalid mode") [] then! exit
          else chmod_octal mode (tail args)
      | _, _ =>
          let! n := lift (strlen a) in
          if negb (n =? 3)%nat then printf (fmtn "chmod: invalid mode format") [] then! exit
          else
            let! whom := lift (a !! 0%nat) in
            let! symbol := lift (a !! 1%nat) in
            let! perm := lift (a !! 2%nat) in
            if negb ((whom =? ch_u) || (whom =? ch_g) || (whom =? ch_o) || (whom =? ch_a)) then printf (fmtn "chmod: invalid whom") [] then! exit
            else if negb ((symbol =? ch_plus) || (symbol =? ch_minus)) then printf (fmtn "chmod: invalid operator") [] then! exit
            else if negb ((perm =? ch_r) || (perm =? ch_w) || (perm =? ch_x)) then printf (fmtn "chmod: invalid permission") [] then! exit
            else chmod_files whom symbol perm (tail args)
      end
  | _ => printf (fmtn "chmod: invalid arg count") [] then! exit
  end.

(** ** grep *)

Fixpoint grep_files (fuel : nat) (pattern : list Z) (files : list (list Z)) : M W unit :=
  match files with
  | [] => exit
  | f :: files' =>
      let! fd := u_open f 0 in
      if fd <? 0 then printf (fmtn "grep: cannot open %s") [str f] then! exit
      else grep fuel pattern fd then! u_close fd then! grep_files fuel pattern files'
  end.

Definition grep_main (fuel : nat) (args : list (list Z)) : M W unit :=
  match args with
  | [] => fprintf 2 (fmtn "usage: grep pattern [file ...]") [] then! exit
  | [pattern] => grep fuel pattern 0 then! exit
  | pattern :: files => grep_files fuel pattern files
  end.
End tools.
