(* ===== verification/ToolsOut.v ===== *)
(** * What the small programs print

    [Streams] is what a program sees of the system: the bytes that are left to
    read on a descriptor, the files by path, and what has been printed.  The
    laws leave it open how many bytes a [read] returns, as for a pipe.  The
    programs print what they are for, whatever the sizes of the reads. *)

From S2P Require Import Prelude CStr USys Auth Format Printf Perm Grep Mem BufIface Txn Fs FsDir Tools.

Class Streams (W : Type) `{Syscalls W} `{!Files W} : Type := {
  reading : Z -> W -> option (list Z);
  status : Z -> W -> option stat;
  named : list Z -> W -> option (stat * list Z);
  printed : W -> list Z
}.

Section same.
Context {W : Type} `{Streams W}.

(** The descriptor is as it was. *)
Definition same_fd (w w' : W) (fd : Z) : Prop := reading fd w' = reading fd w /\ status fd w' = status fd w.

Definition same_files (w w' : W) : Prop := forall path, named path w' = named path w.
End same.

Class StreamLaws (W : Type) `{Streams W} : Prop := {
  read_law fd n (w : W) bs st : reading fd w = Some bs -> status fd w = Some st -> 0 < n ->
    exists data rest w', u_read fd n w = Ret (Z.of_nat (length data), data) w' /\ bs = data ++ rest /\
      Z.of_nat (length data) <= n /\ (data = [] -> bs = []) /\
      (st_type st = T_DIR -> n <= Z.of_nat (length bs) -> Z.of_nat (length data) = n) /\
      reading fd w' = Some rest /\ status fd w' = Some st /\ printed w' = printed w /\ same_files w w';
  write_law data (w : W) :
    exists w', u_write 1 data w = Ret (Z.of_nat (length data)) w' /\ printed w' = printed w ++ data /\
      (forall fd, same_fd w w' fd) /\ same_files w w';
  open_law path (w : W) st bs : named (upto_nul path) w = Some (st, bs) -> 0 ∈ path ->
    exists fd w', 0 <= fd /\ u_open path 0 w = Ret fd w' /\ reading fd w' = Some bs /\ status fd w' = Some st /\
      printed w' = printed w /\ same_files w w' /\ forall k, is_Some (status k w) -> k <> fd /\ same_fd w w' k;
  open_missing path (w : W) : named (upto_nul path) w = None -> 0 ∈ path -> u_open path 0 w = Ret (-1) w;
  fstat_law fd (w : W) st : status fd w = Some st -> f_fstat fd w = Ret (Some st) w;
  close_law fd (w : W) :
    exists r w', u_close fd w = Ret r w' /\ printed w' = printed w /\ same_files w w' /\ forall k, k <> fd -> same_fd w w' k
}.

Section programs.
Context {W : Type} {sys : Syscalls W} {files : Files W} {streams : Streams W} {laws : StreamLaws W}.
Implicit Types (w : W) (bs : list Z) (args : list (list Z)).

Lemma same_files_trans w1 w2 w3 : same_files w1 w2 -> same_files w2 w3 -> same_files w1 w3.
Proof. intros H1 H2 p. by rewrite H2, H1. Qed.

(** ** Output *)

Lemma put_all_streams cs w : Forall byte cs ->
  exists w', put_all (putc 1) cs w = Ret tt w' /\ printed w' = printed w ++ cs /\ (forall fd, same_fd w w' fd) /\ same_files w w'.
Proof.
  intros Hb. revert w. induction Hb as [|c cs Hc _ IH]; intros w; cbn [put_all]; [exists w; by rewrite app_nil_r|].
  unfold bind at 1, putc at 1, bind at 1. destruct (write_law [u8 c] w) as (w1 & -> & Hp & Hf & Hn). cbn [ret].
  destruct (IH w1) as (w2 & E & Hp2 & Hf2 & Hn2). exists w2. split; [exact E|]. unfold u8 in Hp. rewrite Z.mod_small in Hp by exact Hc.
  split; [by rewrite Hp2, Hp, <- app_assoc|]. split; [|by eapply same_files_trans].
  intros fd. destruct (Hf fd) as [A1 A2], (Hf2 fd) as [B1 B2]. split; congruence.
Qed.

Lemma printf_prints f al cs w : expand f al false = Some cs -> Forall byte cs ->
  exists w', printf f al w = Ret tt w' /\ printed w' = printed w ++ cs /\ (forall fd, same_fd w w' fd) /\ same_files w w'.
Proof. intros He Hb. rewrite (printf_writes _ _ cs) by exact He. by apply put_all_streams. Qed.

Lemma splice_front (buf data : list Z) : (length data <= length buf)%nat ->
  length (splice buf 0 data) = length buf /\ take (length data) (splice buf 0 data) = data.
Proof.
  intros Hl. split; [by apply splice_length|]. unfold splice. rewrite take_0, app_nil_l. by apply take_app_length.
Qed.

(** ** cat *)

Lemma cat_spec fuel fd buf w bs st : reading fd w = Some bs -> status fd w = Some st -> (0 < length buf)%nat -> (length bs < fuel)%nat ->
  exists buf' w', cat fuel fd buf w = Ret buf' w' /\ length buf' = length buf /\ printed w' = printed w ++ bs /\ same_files w w'.
Proof.
  revert buf w bs. induction fuel as [|fuel IH]; intros buf w bs Hr Hs Hb Hf; [lia|]. cbn [cat]. unfold bind at 1.
  destruct (read_law fd (Z.of_nat (length buf)) w bs st Hr Hs ltac:(lia)) as (data & rest & w1 & -> & -> & Hle & Hnil & _ & Hr1 & Hs1 & Hp1 & Hn1).
  cbn [fst snd]. destruct (splice_front buf data ltac:(lia)) as [Hlen Htake]. destruct data as [|c data].
  - specialize (Hnil eq_refl). change (0 <? Z.of_nat (length (@nil Z))) with false. cbv iota. change (Z.of_nat (length (@nil Z)) <? 0) with false. cbv iota.
    rewrite Hnil. eexists _, w1. split; [done|]. by rewrite app_nil_r.
  - rewrite (proj2 (Z.ltb_lt 0 _)) by (cbn [length]; lia). unfold bind at 1. rewrite Nat2Z.id, Htake.
    destruct (write_law (c :: data) w1) as (w2 & -> & Hp2 & Hf2 & Hn2). rewrite Z.eqb_refl. cbn [negb].
    destruct (Hf2 fd) as [F1 F2]. rewrite length_app in Hf. cbn [length] in Hf.
    destruct (IH (splice buf 0 (c :: data)) w2 rest) as (b3 & w3 & E & Hl3 & Hp3 & Hn3); [congruence|congruence|lia|lia|].
    exists b3, w3. split; [exact E|]. split; [lia|]. split; [by rewrite Hp3, Hp2, Hp1, <- app_assoc|].
    eapply same_files_trans; [exact Hn1|]. by eapply same_files_trans.
Qed.

(** The contents of the files that the arguments name. *)
Definition contents w args (bss : list (list Z)) : Prop :=
  Forall2 (fun a bs => 0 ∈ a /\ exists st, named (upto_nul a) w = Some (st, bs)) args bss.

Lemma contents_same w w' args bss : same_files w w' -> contents w args bss -> contents w' args bss.
Proof. intros Hs. apply Forall2_impl. intros a bs [H0 [st Hn]]. split; [done|]. exists st. by rewrite Hs. Qed.

(** [cat] prints the files one after the other and exits, however the bytes
    of a file are spread over the reads. *)
Theorem cat_prints fuel args bss w : args <> [] -> contents w args bss -> Forall (fun bs => (length bs < fuel)%nat) bss ->
  exists w', cat_main fuel args w = Stop Exited w' /\ printed w' = printed w ++ concat bss.
Proof.
  intros Hne Hc Hf. unfold cat_main. destruct args as [|a0 args0]; [done|]. generalize dependent (a0 :: args0). clear a0 args0. intros args _ Hc.
  assert (Hb : (0 < length (replicate 512 0%Z))%nat) by (rewrite length_replicate; lia). revert Hb. generalize (replicate 512 0) as buf.
  revert w bss Hc Hf. induction args as [|a args IH]; intros w bss Hc Hf buf Hb; inversion Hc as [|x bs xs bss' [H0 [st Hn]] Hc']; subst; cbn [cat_files].
  { exists w. by rewrite app_nil_r. }
  apply Forall_cons_iff in Hf as [Hf1 Hf2]. unfold bind at 1.
  destruct (open_law a w st bs Hn H0) as (fd & w1 & Hfd & -> & Hr & Hs & Hp & Hn1 & _). rewrite (proj2 (Z.ltb_ge fd 0)) by lia.
  unfold bind at 1. destruct (cat_spec fuel fd buf w1 bs st Hr Hs Hb Hf1) as (buf' & w2 & -> & Hl & Hp2 & Hn2).
  unfold bind at 1. destruct (close_law fd w2) as (r & w3 & -> & Hp3 & Hn3 & _).
  destruct (IH w3 bss') with (buf := buf') as (w4 & E & Hp4); [|done|lia|].
  { eapply contents_same; [|exact Hc']. eapply same_files_trans; [exact Hn1|]. by eapply same_files_trans. }
  exists w4. split; [exact E|]. cbn [concat]. by rewrite Hp4, Hp3, Hp2, Hp, <- app_assoc.
Qed.
End programs.

(** ** Numbers and lines *)

Lemma number_bytes x b : b = 10 \/ b = 16 -> Forall byte (number x b true).
Proof.
  intros Hb. assert (Hd : forall z, Forall byte (glyphs digits (numeral b z))).
  { intros z. pose proof (numeral_range b ltac:(lia) z) as Hr. unfold glyphs. apply Forall_fmap. eapply list.Forall_impl; [exact Hr|].
    cbn beta. intros d Hd. unfold compose. assert (Hin : digits !!! Z.to_nat d ∈ digits).
    { apply list_elem_of_lookup. exists (Z.to_nat d). apply list_lookup_lookup_total_lt. change (length digits) with 16%nat. lia. }
    assert (Hall : Forall byte digits) by by_decide. rewrite list.Forall_forall in Hall. by apply Hall. }
  unfold number. destruct (_ && _); [constructor; [done|]|]; apply Hd.
Qed.

(** The text of a format, conversion by conversion. *)
Lemma expand_c c f al : c <> 0 -> c <> 37 -> expand (c :: f) al false = ([c] ++.) <$> expand f al false.
Proof. intros H0 H1. cbn [expand]. by rewrite (proj2 (Z.eqb_neq c 0)), (proj2 (Z.eqb_neq c 37)) by done. Qed.

Lemma expand_d x f al : expand (37 :: 100 :: f) (Word x :: al) false = (number (s32 x) 10 true ++.) <$> expand f al false.
Proof. done. Qed.

Lemma expand_s name r f al : nonul name -> expand (37 :: 115 :: f) (str (name ++ 0 :: r) :: al) false = (name ++.) <$> expand f al false.
Proof.
  intros Hn. change (expand (37 :: 115 :: f) (str (name ++ 0 :: r) :: al) false) with
    (n ← strlen (name ++ 0 :: r); (take n (name ++ 0 :: r) ++.) <$> expand f al false).
  rewrite strlen_app by done. cbn [mbind option_bind]. by rewrite take_app_length.
Qed.

(** ** wc *)

Definition blank (b : Z) : bool := (b =? 32) || (b =? 13) || (b =? 9) || (b =? 10) || (b =? 11).

(** The pieces of a text between blanks; [cur] is the piece read so far. *)
Fixpoint split_blank (cur bs : list Z) : list (list Z) :=
  match bs with
  | [] => [cur]
  | b :: bs' => if blank b then cur :: split_blank [] bs' else split_blank (cur ++ [b]) bs'
  end.

Definition words_of (cur bs : list Z) : list (list Z) := filter (fun x => x <> []) (split_blank cur bs).
Definition lines_of (bs : list Z) : list Z := filter (fun b => b = NL) bs.

Lemma words_blank cur b bs : blank b = true -> length (words_of cur (b :: bs)) = ((if decide (cur = []) then 0 else 1) + length (words_of [] bs))%nat.
Proof.
  intros Hb. unfold words_of. cbn [split_blank]. rewrite Hb. case_decide as Hc.
  - subst cur. by rewrite filter_cons_False by tauto.
  - by rewrite filter_cons_True by done.
Qed.

Lemma words_step cur b bs : blank b = false -> words_of cur (b :: bs) = words_of (cur ++ [b]) bs.
Proof. intros Hb. unfold words_of. cbn [split_blank]. by rewrite Hb. Qed.

Lemma strchr_blanks b : byte b -> strchr blanks b = Some (if blank b then Some (default O (list_find (fun x => x = b) blanks ≫= fun p => Some p.1)) else None).
Proof.
  intros Hb. assert (H : Forall (fun b => strchr blanks b = Some (if blank b then Some (default O (list_find (fun x => x = b) blanks ≫= fun p => Some p.1)) else None)) (seqZ 0 256)) by by_decide.
  rewrite list.Forall_forall in H. apply H, elem_of_seqZ. unfold byte in Hb. lia.
Qed.

Lemma count_bytes_spec cur k bs : Forall byte bs -> c_inword k = (if decide (cur = []) then false else true) ->
  0 <= c_l k -> 0 <= c_w k -> 0 <= c_c k -> c_l k + Z.of_nat (length bs) < 2 ^ 31 -> c_w k + Z.of_nat (length bs) + 1 < 2 ^ 31 -> c_c k + Z.of_nat (length bs) < 2 ^ 31 ->
  exists k', count_bytes k bs = Some k' /\ c_l k' = c_l k + Z.of_nat (length (lines_of bs)) /\ c_c k' = c_c k + Z.of_nat (length bs) /\
    c_w k' = c_w k + Z.of_nat (length (words_of cur bs)) - (if decide (cur = []) then 0 else 1).
Proof.
  intros Hb. revert cur k. induction Hb as [|b bs Hb _ IH]; intros cur k Hin H1 H2 H3 H4 H5 H6; cbn [count_bytes].
  - exists k. split; [done|]. unfold words_of, lines_of. cbn [split_blank]. split; [cbn; lia|]. split; [cbn; lia|].
    destruct (decide (cur = [])) as [->|Hc]; [by rewrite filter_cons_False by tauto; cbn; lia|]. rewrite filter_cons_True by done. cbn. lia.
  - cbn [length] in *. unfold count_byte. rewrite strchr_blanks by done. cbn [mbind option_bind].
    rewrite (s32_small (c_c k + 1)) by lia.
    set (l := if b =? NL then s32 (c_l k + 1) else c_l k). assert (Hl : l = c_l k + (if decide (b = NL) then 1 else 0)).
    { unfold l. destruct (Z.eqb_spec b NL); [rewrite decide_True, s32_small by (done || lia)|rewrite decide_False by done]; lia. }
    assert (Hlines : Z.of_nat (length (lines_of (b :: bs))) = (if decide (b = NL) then 1 else 0) + Z.of_nat (length (lines_of bs))).
    { unfold lines_of. rewrite filter_cons. case_decide; cbn [length]; lia. }
    assert (Hl2 : 0 <= l <= c_l k + 1) by (case_decide; lia).
    destruct (blank b) eqn:Hbl.
    + destruct (IH [] {| c_l := l; c_w := c_w k; c_c := c_c k + 1; c_inword := false |}) as (k' & E & E1 & E2 & E3); cbn [c_l c_w c_c c_inword] in *; try done; try lia.
      exists k'. split; [exact E|]. rewrite words_blank by done. rewrite decide_True in E3 by done. split; [lia|]. split; [lia|]. destruct (decide (cur = [])); lia.
    + assert (Hne : cur ++ [b] <> []) by (by destruct cur). rewrite words_step by done. destruct (c_inword k) eqn:Hk; cbn [negb].
      * destruct (IH (cur ++ [b]) {| c_l := l; c_w := c_w k; c_c := c_c k + 1; c_inword := true |}) as (k' & E & E1 & E2 & E3); cbn [c_l c_w c_c c_inword] in *; try lia; [by rewrite decide_False|].
        exists k'. split; [exact E|]. rewrite decide_False in E3 by done. split; [lia|]. split; [lia|]. destruct (decide (cur = [])); [done|lia].
      * rewrite (s32_small (c_w k + 1)) by lia.
        destruct (IH (cur ++ [b]) {| c_l := l; c_w := c_w k + 1; c_c := c_c k + 1; c_inword := true |}) as (k' & E & E1 & E2 & E3); cbn [c_l c_w c_c c_inword] in *; try lia; [by rewrite decide_False|].
        exists k'. split; [exact E|]. rewrite decide_False in E3 by done. split; [lia|]. split; [lia|]. destruct (decide (cur = [])); [lia|done].
Qed.

Lemma count_bytes_app k x y : count_bytes k (x ++ y) = k' ← count_bytes k x; count_bytes k' y.
Proof. revert k. induction x as [|b x IH]; intros k; [done|]. cbn [app count_bytes]. destruct (count_byte k b); [|done]. apply IH. Qed.

(** What [wc] prints of a file. *)
Definition wc_line (bs name : list Z) : list Z :=
  number (Z.of_nat (length (lines_of bs))) 10 true ++ [32] ++ number (Z.of_nat (length (words_of [] bs))) 10 true ++ [32] ++
  number (Z.of_nat (length bs)) 10 true ++ [32] ++ name ++ [NL].

Section wc.
Context {W : Type} {sys : Syscalls W} {files : Files W} {streams : Streams W} {laws : StreamLaws W}.
Implicit Types (w : W) (bs : list Z) (args : list (list Z)).

Lemma wc_loop_spec fuel fd buf w bs st k k' : reading fd w = Some bs -> status fd w = Some st -> (0 < length buf)%nat -> (length bs < fuel)%nat ->
  count_bytes k bs = Some k' ->
  exists buf' w', wc_loop fuel fd buf k w = Ret (buf', k') w' /\ length buf' = length buf /\ printed w' = printed w /\ same_files w w'.
Proof.
  revert buf w bs k. induction fuel as [|fuel IH]; intros buf w bs k Hr Hs Hb Hf Hk; [lia|]. cbn [wc_loop]. unfold bind at 1.
  destruct (read_law fd (Z.of_nat (length buf)) w bs st Hr Hs ltac:(lia)) as (data & rest & w1 & -> & -> & Hle & Hnil & _ & Hr1 & Hs1 & Hp1 & Hn1).
  cbn [fst snd]. destruct (splice_front buf data ltac:(lia)) as [Hlen Htake]. destruct data as [|c data].
  - specialize (Hnil eq_refl). rewrite Hnil in Hk. injection Hk as ->. eexists _, w1. split; [reflexivity|done].
  - rewrite (proj2 (Z.ltb_lt 0 _)) by (cbn [length]; lia). unfold bind at 1. rewrite Nat2Z.id, Htake.
    rewrite count_bytes_app in Hk. destruct (count_bytes k (c :: data)) as [k1|]; [|done]. cbn [lift ret mbind option_bind] in *.
    rewrite length_app in Hf. cbn [length] in Hf.
    destruct (IH (splice buf 0 (c :: data)) w1 rest k1) as (b3 & w3 & E & Hl3 & Hp3 & Hn3); try done; [lia|lia|].
    exists b3, w3. split; [exact E|]. split; [lia|]. split; [congruence|]. by eapply same_files_trans.
Qed.

Lemma wc_expand bs name k : nonul name -> c_l k = Z.of_nat (length (lines_of bs)) -> c_w k = Z.of_nat (length (words_of [] bs)) -> c_c k = Z.of_nat (length bs) ->
  Z.of_nat (length bs) + 1 < 2 ^ 31 -> 0 <= c_l k < 2 ^ 31 -> 0 <= c_w k < 2 ^ 31 ->
  expand (fmtn "%d %d %d %s") [Word (c_l k); Word (c_w k); Word (c_c k); str (name ++ [0])] false = Some (wc_line bs name).
Proof.
  intros Hn El Ew Ec Hb Hl Hw. change (fmtn "%d %d %d %s") with [37; 100; 32; 37; 100; 32; 37; 100; 32; 37; 115; 10; 0].
  rewrite expand_d, expand_c, expand_d, expand_c, expand_d, expand_c, expand_s, expand_c by done.
  rewrite !s32_small, El, Ew, Ec by lia. done.
Qed.

Lemma wc_spec fuel fd buf w bs st name : reading fd w = Some bs -> status fd w = Some st -> (0 < length buf)%nat -> (length bs < fuel)%nat ->
  bytes bs -> bytes name -> nonul name -> Z.of_nat (length bs) + 1 < 2 ^ 31 ->
  exists buf' w', wc fuel fd (name ++ [0]) buf w = Ret buf' w' /\ length buf' = length buf /\ printed w' = printed w ++ wc_line bs name /\ same_files w w'.
Proof.
  intros Hr Hs Hb Hf Hbs Hname Hnn Hlen.
  destruct (count_bytes_spec [] no_counts bs Hbs eq_refl) as (k & Hk & E1 & E2 & E3); cbn [no_counts c_l c_w c_c]; try lia.
  rewrite decide_True in E3 by done. cbn [no_counts c_l c_w c_c] in *. unfold wc, bind at 1.
  destruct (wc_loop_spec fuel fd buf w bs st no_counts k Hr Hs Hb Hf Hk) as (buf' & w1 & -> & Hl & Hp1 & Hn1). cbn [fst snd].
  assert (Hlw : (length (lines_of bs) <= length bs)%nat) by apply length_filter.
  assert (Hww : (length (words_of [] bs) <= length bs + 1)%nat).
  { unfold words_of. etrans; [apply length_filter|]. clear. generalize (@nil Z) as cur. induction bs as [|b bs IH]; intros cur; [done|].
    cbn [split_blank]. destruct (blank b); cbn [length]; [specialize (IH [])|specialize (IH (cur ++ [b]))]; lia. }
  unfold bind at 1. destruct (printf_prints (fmtn "%d %d %d %s") [Word (c_l k); Word (c_w k); Word (c_c k); str (name ++ [0])] (wc_line bs name) w1)
    as (w2 & -> & Hp2 & _ & Hn2).
  - apply wc_expand; try done; lia.
  - unfold wc_line. rewrite !Forall_app. split_and!; try (apply number_bytes; by left); try by_decide. exact Hname.
  - exists buf', w2. split; [done|]. split; [done|]. split; [by rewrite Hp2, Hp1|by eapply same_files_trans].
Qed.

(** [wc] prints a line for each file, with the number of newlines, of words
    (the pieces between blanks that are not empty) and of bytes, however the
    bytes of a file are spread over the reads. *)
Theorem wc_counts fuel names bss w : names <> [] -> contents w ((fun n => n ++ [0]) <$> names) bss ->
  Forall (fun bs => (length bs < fuel)%nat /\ bytes bs /\ Z.of_nat (length bs) + 1 < 2 ^ 31) bss -> Forall (fun n => bytes n /\ nonul n) names ->
  exists w', wc_main fuel ((fun n => n ++ [0]) <$> names) w = Stop Exited w' /\
    printed w' = printed w ++ concat (zip_with wc_line bss names).
Proof.
  intros Hne Hc Hf Hn. unfold wc_main. destruct names as [|n0 names0]; [done|]. cbn [fmap list_fmap]. fold ((fun n => n ++ [0]) <$> names0).
  change ((n0 ++ [0]) :: ((fun n => n ++ [0]) <$> names0)) with ((fun n : list Z => n ++ [0]) <$> n0 :: names0).
  generalize dependent (n0 :: names0). clear n0 names0. intros names _ Hc Hn.
  assert (Hb : (0 < length (replicate 512 0%Z))%nat) by (rewrite length_replicate; lia). revert Hb. generalize (replicate 512 0%Z) as buf.
  revert w bss Hc Hf. induction Hn as [|name names [Hn1 Hn2] _ IH]; intros w bss Hc Hf buf Hb; cbn [fmap list_fmap] in Hc;
    inversion Hc as [|x bs xs bss' [H0 [st Hnm]] Hc']; subst; cbn [fmap list_fmap wc_files].
  { exists w. by rewrite app_nil_r. }
  apply Forall_cons_iff in Hf as [(Hf1 & Hf2 & Hf3) Hf]. unfold bind at 1.
  destruct (open_law (name ++ [0]) w st bs Hnm H0) as (fd & w1 & Hfd & -> & Hr & Hs & Hp & Hn3 & _). rewrite (proj2 (Z.ltb_ge fd 0)) by lia.
  unfold bind at 1. destruct (wc_spec fuel fd buf w1 bs st name Hr Hs Hb Hf1 Hf2 Hn1 Hn2 Hf3) as (buf' & w2 & -> & Hl & Hp2 & Hn4).
  unfold bind at 1. destruct (close_law fd w2) as (r & w3 & -> & Hp3 & Hn5 & _).
  destruct (IH w3 bss') with (buf := buf') as (w4 & E & Hp4); [|done|lia|].
  { eapply contents_same; [|exact Hc']. eapply same_files_trans; [exact Hn3|]. by eapply same_files_trans. }
  exists w4. split; [exact E|]. cbn [zip_with concat]. by rewrite Hp4, Hp3, Hp2, Hp, <- app_assoc.
Qed.

(** ** echo *)

Fixpoint joined (names : list (list Z)) : list Z :=
  match names with
  | [] => []
  | n :: names' => n ++ (if decide (names' = []) then [NL] else [32]) ++ joined names'
  end.

(** [echo] prints its arguments with a blank between them and a newline at
    the end, and nothing if there are none. *)
Theorem echo_prints names w : Forall (fun n => bytes n /\ nonul n) names ->
  exists w', echo_main ((fun n => n ++ [0]) <$> names) w = Stop Exited w' /\ printed w' = printed w ++ joined names.
Proof.
  intros Hn. revert w. induction Hn as [|n names [Hb Hz] _ IH]; intros w; [exists w; by rewrite app_nil_r|].
  cbn [fmap list_fmap echo_main joined]. fold ((fun n => n ++ [0]) <$> names). unfold bind at 1.
  set (sep := if decide (((fun n => n ++ [0]) <$> names) = []) then [NL; 0] else [32; 0]).
  assert (Hsep : exists c, sep = [c; 0] /\ (if decide (names = []) then [NL] else [32]) = [c] /\ byte c /\ c <> 0).
  { subst sep. destruct names; [exists NL|exists 32]; by split_and!. }
  destruct Hsep as (c & Hs & Hc & Hcb & Hc0).
  destruct (printf_prints (fmt "%s%s") [str (n ++ [0]); str sep] (n ++ [c]) w) as (w1 & E1 & Hp1 & _).
  - rewrite Hs. change (fmt "%s%s") with [37; 115; 37; 115; 0]. change [c; 0] with ([c] ++ [0]). rewrite !expand_s by (done || by constructor). done.
  - apply Forall_app. split; [exact Hb|]. by constructor.
  - rewrite E1.
    destruct (IH w1) as (w2 & E2 & Hp2). exists w2. split; [exact E2|]. by rewrite Hp2, Hp1, Hc, <- !app_assoc.
Qed.
End wc.

(** ** ls *)

(** The name that [ls] shows. *)
Definition shown_name (name : list Z) : list Z := name ++ replicate (DIRSIZ - length name) 32.

(** A directory prefix: nothing, or something that ends with a slash. *)
Definition prefix_ok (pre : list Z) : Prop := pre = [] \/ list.last pre = Some SLASH.

Lemma after_slash_spec pre name r m : prefix_ok pre -> SLASH ∉ name -> (m <= length name)%nat ->
  after_slash (pre ++ name ++ 0 :: r) (length pre + m) = Some (length pre).
Proof.
  intros Hp Hs. induction m as [|m IH]; intros Hm.
  - rewrite Nat.add_0_r. assert (Hc : exists c, (pre ++ name ++ 0 :: r) !! length pre = Some c /\ c <> SLASH).
    { rewrite lookup_app_r, Nat.sub_diag by lia. destruct name as [|c name]; [by exists 0|]. exists c. split; [done|]. intros ->. apply Hs. by left. }
    destruct Hc as (c & Hc & Hne). destruct Hp as [->|Hl].
    + cbn [length after_slash app]. cbn [app length] in Hc. cbn in Hc. rewrite Hc. cbn [mbind option_bind]. by rewrite (proj2 (Z.eqb_neq c SLASH)).
    + rewrite list.last_lookup in Hl. destruct (length pre) as [|k] eqn:E; [by destruct pre|]. cbn [after_slash]. rewrite Hc.
      cbn [mbind option_bind]. rewrite (proj2 (Z.eqb_neq c SLASH)) by done. cbn [Nat.pred] in Hl.
      assert (Hk : (pre ++ name ++ 0 :: r) !! k = Some SLASH) by (by apply lookup_app_l_Some). destruct k; cbn [after_slash]; rewrite Hk; done.
  - rewrite Nat.add_succ_r. cbn [after_slash]. assert (Hc : exists c, (pre ++ name ++ 0 :: r) !! S (length pre + m) = Some c /\ c <> SLASH).
    { rewrite lookup_app_r by lia. replace (S (length pre + m) - length pre)%nat with (S m) by lia.
      destruct (decide (S m < length name)%nat) as [Hlt|Hge].
      - destruct (lookup_lt_is_Some_2 name (S m) Hlt) as [c Hc]. exists c. split; [by apply lookup_app_l_Some|]. intros ->. apply Hs.
        by eapply list_elem_of_lookup_2.
      - exists 0. split; [|done]. rewrite lookup_app_r by lia. by replace (S m - length name)%nat with O by lia. }
    destruct Hc as (c & -> & Hne). cbn [mbind option_bind]. rewrite (proj2 (Z.eqb_neq c SLASH)) by done. apply IH. lia.
Qed.

Lemma fmtname_spec pre name r buf : prefix_ok pre -> SLASH ∉ name -> nonul pre -> nonul name -> length buf = S DIRSIZ -> buf !! DIRSIZ = Some 0 ->
  exists p buf', fmtname (pre ++ name ++ 0 :: r) buf = Some (p, buf') /\ length buf' = S DIRSIZ /\ buf' !! DIRSIZ = Some 0 /\
    exists r', p = shown_name name ++ 0 :: r'.
Proof.
  intros Hp Hs Hn1 Hn2 Hl Hz. unfold fmtname. rewrite app_assoc, strlen_app by (by apply Forall_app). cbn [mbind option_bind].
  rewrite <- app_assoc, length_app, after_slash_spec by done. cbn [mbind option_bind]. rewrite drop_app_length, strlen_app by done. cbn [mbind option_bind].
  destruct (Nat.leb_spec DIRSIZ (length name)) as [Hd|Hd].
  - eexists _, buf. split; [done|]. split; [done|]. split; [done|]. exists r. unfold shown_name.
    replace (DIRSIZ - length name)%nat with O by lia. by rewrite app_nil_r.
  - rewrite decide_True by lia. rewrite take_app_length. unfold umemset.
    rewrite stosb_splice by (rewrite splice_length; unfold DIRSIZ in *; lia). cbn [mbind option_bind].
    assert (E : splice (splice buf 0 name) (length name) (replicate (DIRSIZ - length name) (u8 32)) = shown_name name ++ [0]).
    { unfold splice, shown_name. rewrite take_0, app_nil_l, Nat.add_0_l, take_app_length, length_replicate, <- app_assoc. do 2 f_equal.
      rewrite drop_app_ge, drop_drop by lia. replace (length name + (length name + (DIRSIZ - length name) - length name))%nat with DIRSIZ by lia.
      rewrite (drop_S _ 0 DIRSIZ Hz), drop_ge by lia. done. }
    rewrite E. eexists _, _. split; [done|]. unfold shown_name. rewrite !length_app, length_replicate. split; [cbn [length]; lia|].
    split; [|by exists []]. rewrite lookup_app_r by (rewrite length_app, length_replicate; lia). rewrite length_app, length_replicate.
    by replace (DIRSIZ - (length name + (DIRSIZ - length name)))%nat with O by lia.
Qed.

(** The parts of a directory entry. *)
Definition ent_inum (e : list Z) : Z := le_value (take 2 e).
Definition ent_name (e : list Z) : list Z := dname (drop 2 e).

Definition short_line (name : list Z) (st : stat) : list Z :=
  shown_name name ++ [32] ++ number (s32 (st_type st)) 10 true ++ [32] ++ number (s32 (st_ino st)) 10 true ++ [32] ++
  number (s32 (st_size st)) 10 true ++ [NL].

(** An entry that [ls] can show. *)
Definition ent_ok (e : list Z) : Prop := length e = 16%nat /\ bytes e /\ SLASH ∉ ent_name e.

Lemma upto_nul_split nm rest : exists r, nm ++ 0 :: rest = upto_nul nm ++ 0 :: r.
Proof.
  induction nm as [|c nm [r IH]]; [by exists rest|]. cbn [upto_nul app]. destruct (Z.eqb_spec c 0) as [->|]; [eexists; done|].
  exists r. cbn [app]. by rewrite IH.
Qed.

Lemma shown_nonul name : nonul name -> nonul (shown_name name).
Proof. intros Hn. unfold shown_name. apply Forall_app. split; [done|]. by apply Forall_replicate. Qed.

Lemma shown_bytes name : bytes name -> bytes (shown_name name).
Proof. intros Hn. unfold shown_name, bytes. apply Forall_app. split; [done|]. by apply Forall_replicate. Qed.

Lemma upto_bytes l : bytes l -> bytes (upto_nul l).
Proof. induction 1 as [|c l Hc _ IH]; cbn [upto_nul]; [constructor|]. destruct (c =? 0); constructor; done. Qed.

Section ls.
Context {W : Type} {sys : Syscalls W} {files : Files W} {streams : Streams W} {laws : StreamLaws W}.
Implicit Types (w : W) (d : list Z).

(** What [ls] prints for an entry of the directory [d]. *)
Definition entry_line w d (e : list Z) : list Z :=
  if ent_inum e =? 0 then []
  else match named (d ++ SLASH :: ent_name e) w with
       | Some (st, _) => short_line (ent_name e) st
       | None => chars "ls: cannot stat " ++ (d ++ SLASH :: ent_name e) ++ [NL]
       end.

Lemma show_short_prints pre name r st nbuf w : prefix_ok pre -> SLASH ∉ name -> nonul pre -> nonul name -> bytes name ->
  length nbuf = S DIRSIZ -> nbuf !! DIRSIZ = Some 0 ->
  exists nbuf' w', show_short (pre ++ name ++ 0 :: r) st nbuf w = Ret nbuf' w' /\ length nbuf' = S DIRSIZ /\ nbuf' !! DIRSIZ = Some 0 /\
    printed w' = printed w ++ short_line name st /\ (forall fd, same_fd w w' fd) /\ same_files w w'.
Proof.
  intros Hp Hs H1 H2 Hb Hl Hz. destruct (fmtname_spec pre name r nbuf Hp Hs H1 H2 Hl Hz) as (p & nbuf' & E & Hl' & Hz' & r' & ->).
  unfold show_short, bind at 1. rewrite E. cbn [lift ret fst snd]. unfold bind at 1.
  destruct (printf_prints (fmtn "%s %d %d %d") [str (shown_name name ++ 0 :: r'); Word (st_type st); Word (st_ino st); Word (st_size st)]
    (short_line name st) w) as (w' & -> & Hp' & Hf & Hn).
  - change (fmtn "%s %d %d %d") with [37; 115; 32; 37; 100; 32; 37; 100; 32; 37; 100; 10; 0].
    rewrite expand_s, expand_c, expand_d, expand_c, expand_d, expand_c, expand_d, expand_c by (done || by apply shown_nonul). done.
  - unfold short_line. rewrite !Forall_app. split_and!; try (apply number_bytes; by left); try by_decide. by apply shown_bytes.
  - by exists nbuf', w'.
Qed.

(** [stat] of a path opens the file and closes it again. *)
Lemma ustat_spec path w : 0 ∈ path -> exists w', ustat path w = Ret (fst <$> named (upto_nul path) w) w' /\ printed w' = printed w /\
  same_files w w' /\ forall k, is_Some (status k w) -> same_fd w w' k.
Proof.
  intros H0. unfold ustat, bind at 1. destruct (named (upto_nul path) w) as [[st bs]|] eqn:En.
  - destruct (open_law path w st bs En H0) as (fd & w1 & Hfd & -> & Hr & Hs & Hp & Hn & Hk). rewrite (proj2 (Z.ltb_ge fd 0)) by lia.
    unfold bind at 1. rewrite (fstat_law fd w1 st Hs). unfold bind at 1.
    destruct (close_law fd w1) as (r & w2 & -> & Hp2 & Hn2 & Hk2). exists w2. split; [done|]. split; [congruence|]. split; [by eapply same_files_trans|].
    intros k Hks. destruct (Hk k Hks) as [Hne [A1 A2]], (Hk2 k (proj1 (Hk k Hks))) as [B1 B2]. split; congruence.
  - rewrite (open_missing path w En H0). exists w. by split_and!.
Qed.

(** The path of an entry, in the buffer of [ls]. *)
Lemma entry_buf d e buf : length e = 16%nat -> (S (length d) + DIRSIZ < length buf)%nat -> take (S (length d)) buf = d ++ [SLASH] ->
  exists buf' r, store (splice buf (S (length d)) (take DIRSIZ (drop 2 e))) (S (length d) + DIRSIZ) 0 = Some buf' /\ length buf' = length buf /\
    take (S (length d)) buf' = d ++ [SLASH] /\ buf' = (d ++ [SLASH]) ++ ent_name e ++ 0 :: r.
Proof.
  intros He Hl Ht. set (nm := take DIRSIZ (drop 2 e)). assert (Hnm : length nm = DIRSIZ) by (unfold nm; rewrite length_take, length_drop; unfold DIRSIZ; lia).
  assert (Es : splice buf (S (length d)) nm = (d ++ [SLASH]) ++ nm ++ drop (S (length d) + DIRSIZ) buf) by (unfold splice; by rewrite Ht, Hnm).
  assert (Hd1 : length (d ++ [SLASH]) = S (length d)) by (rewrite length_app; simpl; lia).
  destruct (drop (S (length d) + DIRSIZ) buf) as [|x rest] eqn:Er.
  { apply (f_equal length) in Er. rewrite length_drop in Er. cbn [length] in Er. lia. }
  rewrite Es, store_in by (rewrite !length_app, Hnm; cbn [length]; lia).
  destruct (upto_nul_split nm rest) as [r Hr]. exists ((d ++ [SLASH]) ++ nm ++ 0 :: rest), r.
  split; [f_equal; rewrite app_assoc, insert_app_r_alt; rewrite length_app, Hd1, Hnm; [|lia]; by rewrite Nat.sub_diag, <- app_assoc|].
  split.
  { apply (f_equal length) in Er. rewrite length_drop in Er. cbn [length] in Er. rewrite !length_app, Hnm. cbn [length]. lia. }
  split; [by rewrite <- Hd1, take_app_length|]. unfold ent_name, dname. fold nm. by rewrite <- Hr.
Qed.

Lemma ls_entries_spec fuel fd d ents st buf nbuf w : reading fd w = Some (concat ents) -> status fd w = Some st -> st_type st = T_DIR ->
  Forall ent_ok ents -> nonul d -> bytes d -> (length ents < fuel)%nat -> (S (length d) + DIRSIZ < length buf)%nat ->
  take (S (length d)) buf = d ++ [SLASH] -> length nbuf = S DIRSIZ -> nbuf !! DIRSIZ = Some 0 ->
  exists nbuf' w', ls_entries show_short fuel fd buf (S (length d)) nbuf w = Ret nbuf' w' /\ same_files w w' /\
    printed w' = printed w ++ concat (entry_line w d <$> ents).
Proof.
  intros Hr Hs Hty Hok Hnd Hbd. revert fuel buf nbuf w Hr Hs. induction Hok as [|e ents [He [Heb Hes]] _ IH]; intros fuel buf nbuf w Hr Hs Hf Hl Ht Hnl Hnz;
    (destruct fuel as [|fuel]; [cbn [length] in Hf; lia|]); cbn [ls_entries]; unfold bind at 1;
    destruct (read_law fd DESIZE w _ st Hr Hs ltac:(done)) as (data & rest & w1 & -> & Hdata & Hle & _ & Hfull & Hr1 & Hs1 & Hp1 & Hn1); cbn [fst snd].
  { cbn [concat] in Hdata. symmetry in Hdata. apply app_eq_nil in Hdata as [-> ->]. exists nbuf, w1. split; [done|]. split; [done|]. by rewrite app_nil_r. }
  cbn [concat] in Hdata, Hfull. specialize (Hfull Hty ltac:(rewrite length_app, He; unfold DESIZE; lia)). rewrite Hfull. rewrite Z.eqb_refl.
  apply app_inj_1 in Hdata as [<- <-]; [|unfold DESIZE in Hfull; lia].
  unfold bind at 1. rewrite load_in by (rewrite He; lia). rewrite drop_0. cbn [lift ret]. fold (ent_inum e).
  assert (Hline : forall w2, same_files w w2 -> concat (entry_line w2 d <$> ents) = concat (entry_line w d <$> ents)).
  { intros w2 H2. f_equal. apply list_fmap_ext. intros i x _. unfold entry_line. by rewrite H2. }
  cbn [length] in Hf. change (entry_line w d <$> e :: ents) with (entry_line w d e :: (entry_line w d <$> ents)). cbn [concat]. unfold entry_line at 1.
  destruct (ent_inum e =? 0).
  { destruct (IH fuel buf nbuf w1 Hr1 Hs1) as (nb & w2 & E & Hn2 & Hp2); try done; [lia|]. exists nb, w2. split; [exact E|].
    split; [by eapply same_files_trans|]. rewrite Hp2, Hp1, Hline by done. done. }
  destruct (entry_buf d e buf He Hl Ht) as (buf' & r & E1 & Hlen' & Ht' & Ebuf). unfold bind at 1. rewrite E1. cbn [lift ret].
  assert (Hnn : nonul (ent_name e)) by apply upto_nul_nonul.
  assert (Hpn : nonul (d ++ [SLASH])) by (unfold nonul; apply Forall_app; split; [done|by constructor]).
  assert (Hpn2 : nonul ((d ++ [SLASH]) ++ ent_name e)) by (unfold nonul; by apply Forall_app).
  assert (Hup : upto_nul buf' = d ++ SLASH :: ent_name e).
  { rewrite Ebuf, app_assoc, upto_nul_app by done. by rewrite <- app_assoc. }
  assert (H0 : 0 ∈ buf') by (rewrite Ebuf; apply elem_of_app; right; apply elem_of_app; right; by left).
  unfold bind at 1. destruct (ustat_spec buf' w1 H0) as (w2 & -> & Hp2 & Hn2 & Hk2). rewrite Hup, (Hn1 (d ++ SLASH :: ent_name e)).
  destruct (Hk2 fd ltac:(by exists st)) as [K1 K2].
  assert (Hgo : forall nb w3 out, length nb = S DIRSIZ -> nb !! DIRSIZ = Some 0 -> printed w3 = printed w2 ++ out -> (forall k, same_fd w2 w3 k) -> same_files w2 w3 ->
    exists nbuf' w', ls_entries show_short fuel fd buf' (S (length d)) nb w3 = Ret nbuf' w' /\ same_files w w' /\
      printed w' = printed w ++ out ++ concat (entry_line w d <$> ents)).
  { intros nb w3 out Hnb1 Hnb2 Hp3 Hk3 Hn3. destruct (Hk3 fd) as [J1 J2].
    destruct (IH fuel buf' nb w3) as (nb' & w4 & E4 & Hn4 & Hp4); try done; [congruence|congruence|lia|lia|].
    assert (H13 : same_files w w3) by (eapply same_files_trans; [exact Hn1|]; by eapply same_files_trans).
    exists nb', w4. split; [exact E4|]. split; [by eapply same_files_trans|]. by rewrite Hp4, Hp3, Hp2, Hp1, (Hline w3 H13), <- app_assoc. }
  assert (Hpre : prefix_ok (d ++ [SLASH])) by (right; apply list.last_snoc).
  destruct (named (d ++ SLASH :: ent_name e) w) as [[st' bs']|]; cbn [fmap option_fmap option_map fst].
  - destruct (show_short_prints (d ++ [SLASH]) (ent_name e) r st' nbuf w2) as (nb & w3 & Es & Hb1 & Hb2 & Hp3 & Hk3 & Hn3); try done.
    + unfold ent_name, dname. apply upto_bytes. by apply Forall_take, Forall_drop.
    + rewrite <- Ebuf in Es. unfold bind at 1. rewrite Es. by apply Hgo.
  - rewrite app_assoc in Ebuf.
    destruct (printf_prints (fmtn "ls: cannot stat %s") [str (((d ++ [SLASH]) ++ ent_name e) ++ 0 :: r)] (chars "ls: cannot stat " ++ (d ++ SLASH :: ent_name e) ++ [NL]) w2)
      as (w3 & Es & Hp3 & Hk3 & Hn3).
    + change (fmtn "ls: cannot stat %s") with (chars "ls: cannot stat " ++ [37; 115; 10; 0]).
      change (chars "ls: cannot stat " ++ [37; 115; 10; 0]) with [108; 115; 58; 32; 99; 97; 110; 110; 111; 116; 32; 115; 116; 97; 116; 32; 37; 115; 10; 0].
      do 16 (rewrite expand_c by done). rewrite expand_s, expand_c by done.
      rewrite <- (app_assoc d). done.
    + rewrite !Forall_app. split_and!; [by_decide|done| |by_decide]. constructor; [done|]. unfold ent_name, dname. apply upto_bytes. by apply Forall_take, Forall_drop.
    + rewrite <- Ebuf in Es. unfold bind at 1. rewrite Es. by apply Hgo.
Qed.

(** [ls] of a directory prints a line for each entry in use, in the order of
    the entries: the name padded with blanks, and the type, inode number and
    size that [stat] gives for the path of the entry. *)
Theorem ls_lists fuel d ents st buf nbuf w : named d w = Some (st, concat ents) -> st_type st = T_DIR -> Forall ent_ok ents ->
  nonul d -> bytes d -> (length ents < fuel)%nat -> length buf = 512%nat -> (length d + 16 <= 512)%nat ->
  length nbuf = S DIRSIZ -> nbuf !! DIRSIZ = Some 0 ->
  exists nbuf' w', ls fuel (d ++ [0]) buf nbuf w = Ret nbuf' w' /\ printed w' = printed w ++ concat (entry_line w d <$> ents).
Proof.
  intros Hn Hty Hok Hnd Hbd Hf Hlb Hld Hl Hz. unfold ls, ls_with, bind at 1.
  destruct (open_law (d ++ [0]) w st (concat ents)) as (fd & w1 & Hfd & -> & Hr & Hs & Hp & Hn1 & _).
  { by rewrite upto_nul_app by done. }
  { apply elem_of_app. right. by left. }
  rewrite (proj2 (Z.ltb_ge fd 0)) by lia. unfold bind at 1. rewrite (fstat_law fd w1 st Hs). rewrite Hty. change (T_DIR =? T_FILE) with false.
  change (T_DIR =? T_DIR) with true. cbv iota. unfold bind at 1. unfold bind at 1. rewrite strlen_app by done. cbn [lift ret].
  rewrite (proj2 (Z.ltb_ge 512 _)) by (unfold DIRSIZ; lia). unfold bind at 1.
  rewrite strcpy_app by (try done; lia). cbn [lift ret]. unfold bind at 1.
  assert (Eb : splice buf 0 (d ++ [0]) = d ++ 0 :: drop (S (length d)) buf).
  { unfold splice. rewrite take_0, app_nil_l, length_app. cbn [length]. rewrite <- app_assoc. do 3 f_equal. lia. }
  rewrite Eb, strlen_app by done. cbn [lift ret]. unfold bind at 1. rewrite store_in by (rewrite length_app; cbn [length]; lia). cbn [lift ret].
  rewrite insert_app_r_alt, Nat.sub_diag by lia. cbn [insert list_insert].
  destruct (ls_entries_spec fuel fd d ents st (d ++ SLASH :: drop (S (length d)) buf) nbuf w1) as (nb & w2 & -> & Hn2 & Hp2); try done.
  - rewrite length_app. cbn [length]. rewrite length_drop. unfold DIRSIZ. lia.
  - change (SLASH :: drop (S (length d)) buf) with ([SLASH] ++ drop (S (length d)) buf). rewrite app_assoc. apply take_app_length'. rewrite length_app. simpl. lia.
  - unfold bind at 1. destruct (close_law fd w2) as (r & w3 & -> & Hp3 & _). exists nb, w3. split; [done|]. rewrite Hp3, Hp2, Hp. do 2 f_equal.
    apply list_fmap_ext. intros i x _. unfold entry_line. by rewrite Hn1.
Qed.
End ls.

(** ** A world *)

(** Files by path, open descriptors with what is left to read, and what has
    been printed.  A [read] of anything but a directory returns at most three
    bytes. *)
Record desk : Type := {
  d_files : gmap (list Z) (stat * list Z);
  d_fds : list (option (stat * list Z));
  d_printed : list Z
}.

Definition with_fds (l : list (option (stat * list Z))) (w : desk) : desk :=
  {| d_files := d_files w; d_fds := l; d_printed := d_printed w |}.

Definition fd_at (fd : Z) (w : desk) : option (stat * list Z) := if fd <? 0 then None else mjoin (d_fds w !! Z.to_nat fd).

Definition desk_open (path : list Z) (omode : Z) : M desk Z := fun w =>
  match d_files w !! upto_nul path with
  | None => Ret (-1) w
  | Some f => Ret (Z.of_nat (length (d_fds w))) (with_fds (d_fds w ++ [Some f]) w)
  end.

Definition desk_read (fd n : Z) : M desk (Z * list Z) := fun w =>
  match fd_at fd w with
  | Some (st, bs) =>
      let k := if st_type st =? T_DIR then Z.to_nat n else Nat.min (Z.to_nat n) 3 in
      Ret (Z.of_nat (length (take k bs)), take k bs) (with_fds (<[Z.to_nat fd := Some (st, drop k bs)]> (d_fds w)) w)
  | None => Ret (-1, []) w
  end.

Definition desk_write (fd : Z) (data : list Z) : M desk Z := fun w =>
  Ret (Z.of_nat (length data)) {| d_files := d_files w; d_fds := d_fds w; d_printed := if fd =? 1 then d_printed w ++ data else d_printed w |}.

Definition desk_close (fd : Z) : M desk Z := fun w =>
  if fd <? 0 then Ret (-1) w else Ret 0 (with_fds (<[Z.to_nat fd := None]> (d_fds w)) w).

#[export] Instance desk_syscalls : Syscalls desk := {
  u_open := desk_open; u_read := desk_read; u_write := desk_write; u_close := desk_close;
  u_printf s := modify (fun w => {| d_files := d_files w; d_fds := d_fds w; d_printed := d_printed w ++ s |}); u_malloc _ := ret true
}.

#[export] Instance desk_files : Files desk := {
  f_fstat fd := gets (fun w => fst <$> fd_at fd w);
  f_unlink _ := ret (-1); f_mkdir _ := ret (-1); f_link _ _ := ret (-1); f_kill _ := ret (-1); f_chmod _ _ := ret (-1)
}.

#[export] Instance desk_streams : Streams desk := {
  reading fd w := snd <$> fd_at fd w; status fd w := fst <$> fd_at fd w; named path w := d_files w !! path; printed := d_printed
}.

Lemma fd_at_other fd k x w : fd <> k -> 0 <= k -> fd_at fd (with_fds (<[Z.to_nat k := x]> (d_fds w)) w) = fd_at fd w.
Proof.
  intros Hne Hk. unfold fd_at. destruct (Z.ltb_spec fd 0); [done|]. cbn [with_fds d_fds]. by rewrite list_lookup_insert_ne by lia.
Qed.

Lemma fd_at_range fd w x : fd_at fd w = Some x -> 0 <= fd /\ (Z.to_nat fd < length (d_fds w))%nat.
Proof.
  unfold fd_at. destruct (Z.ltb_spec fd 0); [done|]. destruct (d_fds w !! Z.to_nat fd) eqn:E; [|done]. intros _. split; [lia|]. by eapply lookup_lt_Some.
Qed.

Lemma fd_at_this fd x w : 0 <= fd -> (Z.to_nat fd < length (d_fds w))%nat -> fd_at fd (with_fds (<[Z.to_nat fd := x]> (d_fds w)) w) = x.
Proof. intros H0 Hl. unfold fd_at. rewrite (proj2 (Z.ltb_ge fd 0)) by lia. cbn [with_fds d_fds]. by rewrite list_lookup_insert_eq. Qed.

#[export] Instance desk_laws : StreamLaws desk.
Proof.
  split.
  - intros fd n w bs st Hr Hs Hn. cbn in Hr, Hs. destruct (fd_at fd w) as [[st' bs']|] eqn:E; [|done]. cbn in Hr, Hs. injection Hr as ->. injection Hs as ->.
    destruct (fd_at_range _ _ _ E) as [H0 Hl]. set (k := if st_type st =? T_DIR then Z.to_nat n else Nat.min (Z.to_nat n) 3).
    exists (take k bs), (drop k bs), (with_fds (<[Z.to_nat fd := Some (st, drop k bs)]> (d_fds w)) w).
    assert (Hk : (0 < k <= Z.to_nat n)%nat) by (unfold k; destruct (_ =? _); lia).
    split; [cbn [u_read desk_syscalls]; unfold desk_read; by rewrite E|]. split; [by rewrite take_drop|]. split; [rewrite length_take; lia|].
    split; [destruct bs, k; [done|done|lia|done]|]. split; [intros Ht Hle; unfold k; rewrite Ht, Z.eqb_refl, length_take; lia|].
    cbn [reading status printed desk_streams]. rewrite fd_at_this by done. done.
  - intros data w. eexists. split; [done|]. by split_and!.
  - intros path w st bs Hn H0. cbn in Hn. exists (Z.of_nat (length (d_fds w))), (with_fds (d_fds w ++ [Some (st, bs)]) w).
    split; [lia|]. split; [cbn [u_open desk_syscalls]; unfold desk_open; by rewrite Hn|].
    assert (Hnew : fd_at (Z.of_nat (length (d_fds w))) (with_fds (d_fds w ++ [Some (st, bs)]) w) = Some (st, bs)).
    { unfold fd_at. rewrite (proj2 (Z.ltb_ge _ 0)), Nat2Z.id by lia. cbn [with_fds d_fds]. by rewrite list_lookup_middle. }
    cbn [reading status printed desk_streams]. rewrite Hnew. split_and!; try done. intros k [st' Hk].
    destruct (fd_at k w) as [x|] eqn:E; [|done]. destruct (fd_at_range _ _ _ E) as [Hk0 Hl]. split; [lia|].
    assert (Hsame : fd_at k (with_fds (d_fds w ++ [Some (st, bs)]) w) = fd_at k w).
    { unfold fd_at. destruct (k <? 0); [done|]. cbn [with_fds d_fds]. by rewrite lookup_app_l by done. }
    unfold same_fd. cbn [reading status desk_streams]. by rewrite Hsame.
  - intros path w Hn H0. cbn in Hn. cbn [u_open desk_syscalls]. unfold desk_open. by rewrite Hn.
  - intros fd w st Hs. cbn in Hs. cbn [f_fstat desk_files]. unfold gets. by rewrite Hs.
  - intros fd w. cbn [u_close desk_syscalls]. unfold desk_close. destruct (Z.ltb_spec fd 0); eexists _, _; (split; [done|]); split_and!; try done.
    intros k Hk. unfold same_fd. cbn [reading status desk_streams]. by rewrite fd_at_other.
Qed.

Definition a_file (size : Z) : stat :=
  {| st_dev := 1; st_ino := 9; st_type := T_FILE; st_nlink := 1; st_size := size; st_mode := 511; st_uid := 0; st_gid := 0 |}.
Definition a_dir (size : Z) : stat :=
  {| st_dev := 1; st_ino := 2; st_type := T_DIR; st_nlink := 1; st_size := size; st_mode := 511; st_uid := 0; st_gid := 0 |}.

Definition poem : list Z := chars "one two" ++ [NL] ++ chars "  three" ++ [NL].
Definition note_ents : list (list Z) := [le_bytes 2 9 ++ padded DIRSIZ (chars "a"); le_bytes 2 0 ++ padded DIRSIZ (chars "gone"); le_bytes 2 5 ++ padded DIRSIZ (chars "lost")].

Definition a_desk : desk :=
  {| d_files := {[chars "n/a" := (a_file 15, poem); chars "b" := (a_file 3, chars "xyz"); chars "n" := (a_dir 48, concat note_ents)]};
     d_fds := [Some (a_file 0, []); None; None]; d_printed := [] |}.

Lemma cat_prints_witness : exists w', cat_main 20 [chars "n/a" ++ [0]; chars "b" ++ [0]] a_desk = Stop Exited w' /\ printed w' = poem ++ chars "xyz".
Proof.
  refine (cat_prints 20 _ [poem; chars "xyz"] a_desk _ _ _); [discriminate| |by_decide].
  repeat constructor; try by_decide; eexists; vm_compute; reflexivity.
Defined.

Lemma wc_counts_witness : exists w', wc_main 20 [chars "n/a" ++ [0]] a_desk = Stop Exited w' /\ printed w' = chars "2 3 16 n/a" ++ [NL].
Proof.
  destruct (wc_counts 20 [chars "n/a"] [poem] a_desk) as (w' & E & Hp); [discriminate| |by_decide|by_decide|].
  - repeat constructor; try by_decide; eexists; vm_compute; reflexivity.
  - exists w'. split; [exact E|]. rewrite Hp. vm_compute. reflexivity.
Defined.

Lemma echo_prints_witness : exists w', echo_main [chars "a" ++ [0]; chars "b" ++ [0]] a_desk = Stop Exited w' /\ printed w' = chars "a b" ++ [NL].
Proof. exact (echo_prints [chars "a"; chars "b"] a_desk ltac:(by_decide)). Defined.

Lemma ls_lists_witness : exists nbuf' w', ls 10 (chars "n" ++ [0]) (replicate 512 7) (replicate 15 0) a_desk = Ret nbuf' w' /\
  printed w' = chars "a              2 9 15" ++ [NL] ++ chars "ls: cannot stat n/lost" ++ [NL].
Proof.
  destruct (ls_lists 10 (chars "n") note_ents (a_dir 48) (replicate 512 7) (replicate 15 0) a_desk) as (nb & w' & E & Hp);
    [vm_compute; reflexivity|reflexivity| |by_decide|by_decide|vm_compute; lia|reflexivity|vm_compute; lia|reflexivity|reflexivity|].
  - repeat constructor; by_decide.
  - exists nb, w'. split; [exact E|]. rewrite Hp. vm_compute. reflexivity.
Defined.
