(* ===== verification/Trap.v ===== *)
(** * Traps, the clock and the process system calls

    [trap] of [kernel/trap.c], the calls of [kernel/sysproc.c], and the numbers
    of the system calls in [kernel/syscall.h], [kernel/syscall.c] and
    [user/usys.S].

    [trap] ends in one of three ways: it returns to the code that was
    interrupted, the process exits, or the process gives up the processor in
    [yield] and goes on later with [trap_resumed].  The handlers of the
    devices and of the system calls, modelled elsewhere, are arguments.  What
    [cprintf] prints and the acknowledgement of the interrupt are left out. *)

From S2P Require Import Prelude CStr Pipe Ptable File Proc.

Definition T_SYSCALL : Z := 64.
Definition T_IRQ0 : Z := 32.
Definition IRQ_TIMER : Z := 0.
Definition IRQ_KBD : Z := 1.
Definition IRQ_COM1 : Z := 4.
Definition IRQ_IDE : Z := 14.
Definition IRQ_SPURIOUS : Z := 31.
Definition DPL_USER : Z := 3.

(** The members of [struct trapframe] that [trap] reads. *)
Record trapframe : Type := { tf_trapno : Z; tf_cs : Z }.

Record tst : Type := { ks : kst; ticks : Z }.

Definition with_ks (k : kst) (s : tst) : tst := {| ks := k; ticks := ticks s |}.

(** A routine on the process table. *)
Definition onk {A : Type} (m : M kst A) : M tst A := fun s =>
  match m (ks s) with
  | Ret a k => Ret a (with_ks k s)
  | Stop r k => Stop r (with_ks k s)
  end.

(** The address of [ticks], on which [sys_sleep] sleeps. *)
Definition ticks_chan : chan := ChAddr 0.

Inductive fate : Type := Returns | Exits | Yields.

Section trap.
Context (syscall : nat -> M tst unit) (ideintr kbdintr uartintr : M tst unit).

(** [myproc()->killed], for the process [p] of this processor. *)
Definition killed (p : nat) : M tst bool := let! x := onk (getp p) in ret (p_killed x).

(** [if(myproc() && myproc()->killed && (tf->cs&3) == DPL_USER) exit()]. *)
Definition exit_if_killed (cur : option nat) (tf : trapframe) (k : M tst fate) : M tst fate :=
  match cur with
  | None => k
  | Some p =>
      let! dead := killed p in
      if dead && (Z.land (tf_cs tf) 3 =? DPL_USER) then onk (exit p) then! ret Exits else k
  end.

(** From the return of [yield] on. *)
Definition trap_resumed (cur : option nat) (tf : trapframe) : M tst fate := exit_if_killed cur tf (ret Returns).

(** From the switch on the trap number to the end. *)
Definition trap_handler (cpu : nat) (cur : option nat) (tf : trapframe) : M tst unit :=
  let n := tf_trapno tf in
  if n =? T_IRQ0 + IRQ_TIMER then
    if (cpu =? 0)%nat then
      modify (fun s => {| ks := ks s; ticks := u32 (ticks s + 1) |}) then!
      onk (wakeup1 ticks_chan)
    else ret tt
  else if n =? T_IRQ0 + IRQ_IDE then ideintr
  else if n =? T_IRQ0 + IRQ_IDE + 1 then ret tt
  else if n =? T_IRQ0 + IRQ_KBD then kbdintr
  else if n =? T_IRQ0 + IRQ_COM1 then uartintr
  else if (n =? T_IRQ0 + 7) || (n =? T_IRQ0 + IRQ_SPURIOUS) then ret tt
  else
    match cur with
    | None => halt (Panicked "trap")
    | Some p =>
        if Z.land (tf_cs tf) 3 =? 0 then halt (Panicked "trap")
        else onk (setp p (set_killed true))
    end.

(** A trap on processor [cpu], which runs the process [cur] or none. *)
Definition trap (cpu : nat) (cur : option nat) (tf : trapframe) : M tst fate :=
  if tf_trapno tf =? T_SYSCALL then
    match cur with
    | None => halt Undefined
    | Some p =>
        let! dead := killed p in
        if dead : bool then onk (exit p) then! ret Exits
        else
          syscall p then!
          let! dead := killed p in
          if dead : bool then onk (exit p) then! ret Exits else ret Returns
    end
  else
    trap_handler cpu cur tf then!
    exit_if_killed cur tf (
      match cur with
      | None => trap_resumed cur tf
      | Some p =>
          let! x := onk (getp p) in
          if in_state RUNNING x && (tf_trapno tf =? T_IRQ0 + IRQ_TIMER) then onk (yield p) then! ret Yields
          else trap_resumed cur tf
      end).
End trap.

(** ** The system calls of [kernel/sysproc.c]

    An argument is [None] when [argint] cannot fetch it. *)

Definition sys_fork (cur : nat) (kstack_ok copy_ok : bool) : M tst Z := onk (fork cur kstack_ok copy_ok).
Definition sys_exit (cur : nat) : M tst unit := onk (exit cur).
Definition sys_wait (cur : nat) : M tst (option Z) := onk (wait cur).

Definition sys_kill (pid : option Z) : M tst Z :=
  match pid with
  | None => ret (-1)
  | Some pid => onk (kill pid)
  end.

Definition sys_getpid (cur : nat) : M tst Z := let! p := onk (getp cur) in ret (p_pid p).

(** The loop of [sys_sleep] from its test on, until it returns or sleeps,
    which is [None]; the comparison is of unsigned numbers. *)
Definition sleep_loop (cur : nat) (ticks0 n : Z) : M tst (option Z) :=
  let! t := gets ticks in
  if u32 (t - ticks0) <? u32 n then
    let! dead := killed cur in
    if dead : bool then ret (Some (-1))
    else onk (sleep cur ticks_chan) then! ret None
  else ret (Some 0).

(** The result and [ticks0]. *)
Definition sys_sleep (cur : nat) (n : option Z) : M tst (option Z * Z) :=
  match n with
  | None => ret (Some (-1), 0)
  | Some n =>
      let! ticks0 := gets ticks in
      let! r := sleep_loop cur ticks0 n in
      ret (r, ticks0)
  end.

Definition sys_uptime : M tst Z := let! xticks := gets ticks in ret (s32 xticks).

(** ** The numbers of the system calls *)

Inductive call : Type :=
| fork_ | exit_ | wait_ | pipe_ | read_ | kill_ | exec_ | fstat_ | chdir_ | dup_ | getpid_ | sbrk_ | sleep_ | uptime_
| open_ | write_ | mknod_ | unlink_ | link_ | mkdir_ | close_ | getuid_ | geteuid_ | setuid_ | setgroups_ | chmod_
| chown_ | echoswitch_ | clrscr_.

#[export] Instance call_eq_dec : EqDecision call.
Proof. solve_decision. Defined.

(** [kernel/syscall.h]. *)
Definition SYS (c : call) : Z :=
  match c with
  | fork_ => 1 | exit_ => 2 | wait_ => 3 | pipe_ => 4 | read_ => 5 | kill_ => 6 | exec_ => 7 | fstat_ => 8 | chdir_ => 9
  | dup_ => 10 | getpid_ => 11 | sbrk_ => 12 | sleep_ => 13 | uptime_ => 14 | open_ => 15 | write_ => 16 | mknod_ => 17
  | unlink_ => 18 | link_ => 19 | mkdir_ => 20 | close_ => 21 | getuid_ => 22 | geteuid_ => 23 | setuid_ => 24
  | setgroups_ => 25 | chmod_ => 26 | chown_ => 27 | echoswitch_ => 28 | clrscr_ => 29
  end.

(** The initialiser of [syscalls] in [kernel/syscall.c]: an index and the call
    whose handler is stored there. *)
Definition syscalls_init : list (Z * call) :=
  (fun c => (SYS c, c)) <$>
  [fork_; exit_; wait_; pipe_; read_; kill_; exec_; fstat_; chdir_; dup_; getpid_; sbrk_; sleep_; uptime_; open_; write_;
   mknod_; unlink_; link_; mkdir_; close_; getuid_; geteuid_; setuid_; setgroups_; chmod_; chown_; echoswitch_; clrscr_].

(** An array with designated initialisers: as long as its last index asks, and
    null where there is none. *)
Definition designated {A : Type} (l : list (Z * A)) : list (option A) :=
  let n := foldr Z.max (-1) (fst <$> l) in
  (fun i => snd <$> list.last (filter (fun p => p.1 = i) l)) <$> seqZ 0 (n + 1).

Definition syscalls : list (option call) := designated syscalls_init.

(** The stub of [user/usys.S]: the number it loads and the trap it makes. *)
Definition stub (c : call) : Z * Z := (SYS c, T_SYSCALL).
