(* ===== verification/TrapProps.v ===== *)
(** * What traps do

    A killed process does not run again in user space, code that runs in the
    kernel is not ended by a trap, a system call reaches its handler, and a
    process that sleeps for a number of ticks sleeps until they have passed and
    is runnable then. *)

From S2P Require Import Prelude CStr Mem Kalloc Vm VmSpace VmUser VmGrow Syscall Pipe Ptable File Proc Trap.

(** ** The end of a trap *)

Lemma onk_ret {A} (m : M kst A) s a k : m (ks s) = Ret a k -> onk m s = Ret a (with_ks k s).
Proof. intros H. unfold onk. by rewrite H. Qed.

Lemma onk_getp s p x : procs (ks s) !! p = Some x -> onk (getp p) s = Ret x s.
Proof. intros H. unfold onk, getp. rewrite H. by destruct s. Qed.

Lemma onk_getp_inv s p x s' : onk (getp p) s = Ret x s' -> s' = s /\ procs (ks s) !! p = Some x.
Proof. unfold onk, getp, lift, ret. destruct (procs (ks s) !! p) as [y|]; [|done]. intros [= <- <-]. by destruct s. Qed.

Lemma killed_inv p s d s' : killed p s = Ret d s' -> s' = s /\ exists x, procs (ks s) !! p = Some x /\ p_killed x = d.
Proof.
  unfold killed, bind. destruct (onk (getp p) s) as [x s1|] eqn:E; [|done]. apply onk_getp_inv in E as [-> Hx]. intros [= <- <-].
  split; [done|]. by exists x.
Qed.

(** The process is there and has not been killed. *)
Definition unkilled (s : tst) (p : nat) : Prop := exists x, procs (ks s) !! p = Some x /\ p_killed x = false.

(** The processor ran user code: a system call, or a trap in user mode. *)
Definition from_user (tf : trapframe) : Prop := tf_trapno tf = T_SYSCALL \/ Z.land (tf_cs tf) 3 = DPL_USER.

Lemma exit_if_killed_alive p tf k s s' : exit_if_killed (Some p) tf k s = Ret Returns s' -> (k s = Ret Returns s' -> unkilled s' p) -> from_user tf -> tf_trapno tf <> T_SYSCALL ->
  unkilled s' p.
Proof.
  intros E Hk [?|Hu] Hn; [done|]. unfold exit_if_killed, bind in E. destruct (killed p s) as [d s1|] eqn:Ek; [|done].
  apply killed_inv in Ek as [-> _]. rewrite Hu in E. change (DPL_USER =? DPL_USER) with true in E. rewrite andb_true_r in E. destruct d; [|by apply Hk].
  by destruct (onk (exit p) s).
Qed.

Lemma resumed_alive p tf s s' : trap_resumed (Some p) tf s = Ret Returns s' -> from_user tf -> tf_trapno tf <> T_SYSCALL -> unkilled s' p.
Proof.
  intros E [?|Hu] Hn; [done|]. unfold trap_resumed, exit_if_killed, bind in E. destruct (killed p s) as [d s1|] eqn:Ek; [|done].
  apply killed_inv in Ek as [-> (x & Hx & Hd)]. rewrite Hu in E. change (DPL_USER =? DPL_USER) with true in E. rewrite andb_true_r in E. destruct d.
  - by destruct (onk (exit p) s).
  - injection E as <-. by exists x.
Qed.

Section end_of_trap.
Context (syscall : nat -> M tst unit) (ideintr kbdintr uartintr : M tst unit).

(** C15. Whatever the handlers of the devices and of the system calls do, a trap
    from user space that returns there, at once or after [yield], leaves a
    process that has not been killed: no trap brings a killed process back to
    its program. *)
Theorem killed_never_returns cpu p tf s s' : from_user tf ->
  (trap syscall ideintr kbdintr uartintr cpu (Some p) tf s = Ret Returns s' \/ (tf_trapno tf <> T_SYSCALL /\ trap_resumed (Some p) tf s = Ret Returns s')) ->
  unkilled s' p.
Proof.
  intros Hu [E|[Hn E]]; [|by eapply resumed_alive]. unfold trap in E. destruct (Z.eqb_spec (tf_trapno tf) T_SYSCALL) as [Hs|Hs].
  - unfold bind in E. destruct (killed p s) as [d s1|]; [|done]. destruct d; [by destruct (onk (exit p) s1)|].
    destruct (syscall p s1) as [[] s2|]; [|done]. destruct (killed p s2) as [d s3|] eqn:Ek; [|done]. apply killed_inv in Ek as [-> (x & Hx & Hd)].
    destruct d; [by destruct (onk (exit p) s2)|]. injection E as <-. by exists x.
  - unfold bind at 1 in E. destruct (trap_handler _ _ _ cpu (Some p) tf s) as [[] s1|]; [|done].
    eapply exit_if_killed_alive; [exact E| |done|done]. unfold bind at 1. destruct (onk (getp p) s1) as [x s2|]; [|done].
    destruct (in_state RUNNING x && _); [unfold bind; by destruct (onk (yield p) s2)|]. intros E2. by eapply resumed_alive.
Qed.

(** A trap while the processor runs in the kernel never ends the process,
    killed or not. *)
Theorem kernel_not_ended cpu cur tf s r s' : tf_trapno tf <> T_SYSCALL -> Z.land (tf_cs tf) 3 <> DPL_USER ->
  trap syscall ideintr kbdintr uartintr cpu cur tf s = Ret r s' -> r <> Exits.
Proof.
  intros Hn Hc E. unfold trap in E. rewrite (proj2 (Z.eqb_neq _ _) Hn) in E. unfold bind at 1 in E.
  destruct (trap_handler _ _ _ cpu cur tf s) as [[] s1|]; [|done].
  assert (Hx : forall k t, exit_if_killed cur tf k t = Ret r s' -> exists t', k t' = Ret r s').
  { intros k t Ek. unfold exit_if_killed in Ek. destruct cur as [p|]; [|by exists t]. unfold bind in Ek. destruct (killed p t) as [d t'|]; [|done].
    rewrite (proj2 (Z.eqb_neq _ _) Hc), andb_false_r in Ek. by exists t'. }
  assert (Hr : forall t, trap_resumed cur tf t = Ret r s' -> r <> Exits) by (intros t [t' [= <- _]]%Hx; done).
  apply Hx in E as [t E]. destruct cur as [p|]; [|by eapply Hr]. unfold bind at 1 in E. destruct (onk (getp p) t) as [x t2|]; [|done].
  destruct (in_state RUNNING x && _); [|by eapply Hr]. unfold bind in E. destruct (onk (yield p) t2); [|done]. injection E as <- _. done.
Qed.

(** The trap numbers that [trap] knows. *)
Definition known (n : Z) : Prop :=
  n = T_SYSCALL \/ n = T_IRQ0 + IRQ_TIMER \/ n = T_IRQ0 + IRQ_IDE \/ n = T_IRQ0 + IRQ_IDE + 1 \/ n = T_IRQ0 + IRQ_KBD \/
  n = T_IRQ0 + IRQ_COM1 \/ n = T_IRQ0 + 7 \/ n = T_IRQ0 + IRQ_SPURIOUS.

(** A fault of a program (a trap number that [trap] does not know, in user
    mode) makes the process exit, as if it had called [exit] after being
    killed; the same trap in the kernel is a panic. *)
Theorem fault_ends_process cpu p x tf s : ~ known (tf_trapno tf) -> procs (ks s) !! p = Some x ->
  (Z.land (tf_cs tf) 3 = DPL_USER -> trap syscall ideintr kbdintr uartintr cpu (Some p) tf s =
    (onk (exit p) then! ret Exits) (with_ks (with_procs (ks s) (<[p := set_killed true x]> (procs (ks s)))) s)) /\
  (Z.land (tf_cs tf) 3 = 0 -> trap syscall ideintr kbdintr uartintr cpu (Some p) tf s = Stop (Panicked "trap") s).
Proof.
  intros Hk Hx. unfold known in Hk. unfold trap, trap_handler.
  rewrite !(proj2 (Z.eqb_neq (tf_trapno tf) _)) by tauto. cbn [orb]. split; intros Hc; rewrite Hc.
  - change (DPL_USER =? 0) with false. cbv iota. set (k := with_procs (ks s) (<[p := set_killed true x]> (procs (ks s)))).
    assert (E : onk (setp p (set_killed true)) s = Ret tt (with_ks k s)) by (apply onk_ret; unfold setp; by rewrite Hx).
    unfold bind at 1. rewrite E. unfold exit_if_killed, bind at 1.
    assert (Ek : killed p (with_ks k s) = Ret true (with_ks k s)).
    { unfold killed, bind. rewrite (onk_getp _ p (set_killed true x)); [done|]. cbn [with_ks ks k with_procs procs].
      apply list_lookup_insert_eq. by eapply lookup_lt_Some. }
    rewrite Ek, Hc. done.
  - done.
Qed.

End end_of_trap.

(** ** The clock *)

Section clock.
Context (ideintr kbdintr uartintr : M tst unit).

Definition timer : trapframe := {| tf_trapno := T_IRQ0 + IRQ_TIMER; tf_cs := 0 |}.

(** A clock interrupt on processor 0, seen by the other processors' users. *)
Definition tick : M tst unit := trap_handler ideintr kbdintr uartintr 0 None timer.

Definition waits (s : tst) (p : nat) : Prop :=
  exists x, procs (ks s) !! p = Some x /\ p_state x = SLEEPING /\ p_chan x = Some ticks_chan /\ p_killed x = false.

(** The test of [sys_sleep] by a process that runs and has not been killed. *)
Lemma sleep_loop_test s p x ticks0 n : procs (ks s) !! p = Some x -> p_killed x = false ->
  if u32 (ticks s - ticks0) <? u32 n then exists s', sleep_loop p ticks0 n s = Ret None s' /\ ticks s' = ticks s /\ waits s' p
  else sleep_loop p ticks0 n s = Ret (Some 0) s.
Proof.
  intros Hx Hk. unfold sleep_loop. rewrite bind_gets. destruct (u32 (ticks s - ticks0) <? u32 n); [|done].
  assert (Ed : killed p s = Ret false s) by (unfold killed, bind; rewrite (onk_getp s p x Hx), Hk; done). unfold bind. rewrite Ed.
  rewrite (onk_ret _ s tt (with_procs (ks s) (<[p := set_state SLEEPING (set_chan (Some ticks_chan) x)]> (procs (ks s))))); [|unfold sleep, setp; by rewrite Hx].
  eexists. split; [done|]. split; [done|]. eexists. split; [cbn [with_ks ks with_procs procs]; apply list_lookup_insert_eq; by eapply lookup_lt_Some|]. done.
Qed.

(** What other processes and other interrupts may do to the process [p]: wake
    it up, and nothing else. *)
Definition others (p : nat) (k k' : kst) : Prop :=
  forall x, procs k !! p = Some x -> exists x', procs k' !! p = Some x' /\ p_killed x' = p_killed x /\ p_chan x' = p_chan x /\
    (p_state x' = p_state x \/ p_state x = SLEEPING /\ p_state x' = RUNNABLE).

(** The process [p] is in [sys_sleep] for [n] ticks, which it called at
    [ticks0], and the clock has ticked that many times since: in any order the
    clock ticks, others do something, and the process gets the processor and
    goes back to sleep. *)
Inductive in_sleep (p : nat) (n ticks0 : Z) : tst -> nat -> Prop :=
  | is_call s s' : 0 <= ticks s < 2 ^ 32 -> sys_sleep p (Some n) s = Ret (None, ticks0) s' -> in_sleep p n ticks0 s' 0
  | is_tick s s' c : in_sleep p n ticks0 s c -> tick s = Ret tt s' -> in_sleep p n ticks0 s' (S c)
  | is_other s k c : in_sleep p n ticks0 s c -> others p (ks s) k -> in_sleep p n ticks0 (with_ks k s) c
  | is_run s s1 s2 c : in_sleep p n ticks0 s c -> onk (schedule p) s = Ret tt s1 -> sleep_loop p ticks0 n s1 = Ret None s2 ->
      in_sleep p n ticks0 s2 c.

(** It sleeps, and then the ticks are not over, or it waits for the processor. *)
Record sleeps_well (p : nat) (n ticks0 : Z) (s : tst) (c : nat) (x : proc) : Prop := {
  sw_proc : procs (ks s) !! p = Some x;
  sw_killed : p_killed x = false;
  sw_start : 0 <= ticks0 < 2 ^ 32;
  sw_ticks : ticks s = u32 (ticks0 + Z.of_nat c);
  sw_state : p_state x = SLEEPING /\ p_chan x = Some ticks_chan /\ (Z.of_nat c < 2 ^ 32 -> Z.of_nat c < u32 n) \/ p_state x = RUNNABLE
}.

Lemma elapsed ticks0 c : Z.of_nat c < 2 ^ 32 -> u32 (u32 (ticks0 + Z.of_nat c) - ticks0) = Z.of_nat c.
Proof.
  intros H. unfold u32. rewrite Zminus_mod_idemp_l. replace (ticks0 + Z.of_nat c - ticks0) with (Z.of_nat c) by lia. apply Z.mod_small. lia.
Qed.

(** The test of [sys_sleep] by a process that has the processor. *)
Lemma sleep_loop_inv s p x ticks0 n s' : procs (ks s) !! p = Some x -> sleep_loop p ticks0 n s = Ret None s' ->
  u32 (ticks s - ticks0) < u32 n /\ ticks s' = ticks s /\ p_killed x = false /\
  procs (ks s') !! p = Some (set_state SLEEPING (set_chan (Some ticks_chan) x)).
Proof.
  intros Hx. unfold sleep_loop. rewrite bind_gets. destruct (Z.ltb_spec (u32 (ticks s - ticks0)) (u32 n)) as [Hlt|]; [|done].
  assert (Ed : killed p s = Ret (p_killed x) s) by (unfold killed, bind; by rewrite (onk_getp s p x Hx)). unfold bind. rewrite Ed.
  destruct (p_killed x) eqn:Hk; [done|].
  rewrite (onk_ret _ s tt (with_procs (ks s) (<[p := set_state SLEEPING (set_chan (Some ticks_chan) x)]> (procs (ks s))))); [|unfold sleep, setp; by rewrite Hx].
  intros [= <-]. split; [done|]. split; [done|]. split; [done|]. cbn [with_ks ks with_procs procs]. apply list_lookup_insert_eq. by eapply lookup_lt_Some.
Qed.

Lemma schedule_runs p s x : procs (ks s) !! p = Some x ->
  (p_state x = RUNNABLE -> exists s', onk (schedule p) s = Ret tt s') /\
  forall s', onk (schedule p) s = Ret tt s' -> ticks s' = ticks s /\ exists y, procs (ks s') !! p = Some y /\ p_killed y = p_killed x.
Proof.
  intros Hx. pose proof (lookup_lt_Some _ _ _ Hx) as Hlt. unfold onk, schedule. rewrite (getp_bind _ _ x) by done.
  destruct (in_state RUNNABLE x) eqn:Es; [|split; [intros H%in_state_true; congruence|done]].
  rewrite (setp_bind _ _ x) by done. rewrite (setp_eq _ p (set_state RUNNING x)) by (cbn; by apply list_lookup_insert_eq).
  split; [intros _; by eexists|]. intros s' [= <-]. split; [done|]. eexists. split; [cbn; apply list_lookup_insert_eq; by rewrite length_insert|done].
Qed.

Lemma in_sleep_well p n ticks0 s c : in_sleep p n ticks0 s c -> exists x, sleeps_well p n ticks0 s c x.
Proof.
  induction 1 as [s s' Ht E|s s' c _ [x [W1 W2 W3 W4 W5]] E|s k c _ [x [W1 W2 W3 W4 W5]] O|s s1 s2 c _ [x [W1 W2 W3 W4 W5]] E1 E2].
  - unfold sys_sleep in E. rewrite bind_gets in E. unfold bind in E. destruct (sleep_loop p (ticks s) n s) as [r s1|] eqn:El; [|done].
    injection E as -> <- ->. destruct (procs (ks s) !! p) as [x|] eqn:Hx.
    2: { unfold sleep_loop in El. rewrite bind_gets in El. destruct (_ <? _); [|done]. unfold killed, onk, getp, bind in El. by rewrite Hx in El. }
    destruct (sleep_loop_inv s p x (ticks s) n s' Hx El) as (H1 & H2 & H3 & H4). eexists. split; [exact H4|done|done| |].
    + rewrite H2, Z.add_0_r. symmetry. by apply u32_small.
    + left. split; [done|]. split; [done|]. intros _. rewrite Z.sub_diag in H1. done.
  - injection E as <-. exists (wake_on ticks_chan x). split.
    + cbn [with_ks ks with_procs procs]. by rewrite list_lookup_fmap, W1.
    + unfold wake_on. by destruct (_ && _).
    + done.
    + cbn [with_ks ticks]. rewrite W4. unfold u32. rewrite Zplus_mod_idemp_l. f_equal. lia.
    + right. unfold wake_on, in_state. destruct W5 as [(Hs & Hc & _)|Hs]; [by rewrite Hs, Hc, !bool_decide_eq_true_2|by rewrite Hs].
  - destruct (O x W1) as (y & Hy & Hk & Hc & Hs). exists y. split; cbn [with_ks ks ticks]; try done; [congruence|].
    destruct W5 as [(A1 & A2 & A3)|A]; [|right; intuition congruence]. destruct Hs as [Hs|[_ Hs]]; [left|by right].
    split; [congruence|]. split; [congruence|done].
  - destruct (schedule_runs p s x W1) as [_ Hr]. destruct (Hr s1 E1) as (T1 & y & Hy & Hk).
    destruct (sleep_loop_inv s1 p y ticks0 n s2 Hy E2) as (H1 & H2 & H3 & H4). eexists. split; [exact H4|done|done|congruence|].
    left. split; [done|]. split; [done|]. intros Hlt. rewrite T1, W4, elapsed in H1 by done. done.
Qed.

(** C31. [sleep(n)] by a process that nobody kills, in any interleaving with the
    clock and with what others do: as long as fewer than [n] ticks have passed
    since the call, the process goes back to sleep whenever it gets the
    processor; from the [n]-th tick on it is runnable, and the next time it
    gets the processor the call returns 0.  The counter may wrap around
    meanwhile; fewer than 2^32 ticks pass before the process gets the
    processor.  [n] counts as an unsigned number, so a negative one means
    2^32 + n ticks. *)
Theorem sleep_ticks p n ticks0 s c : in_sleep p n ticks0 s c -> Z.of_nat c < 2 ^ 32 ->
  (u32 n <= Z.of_nat c -> exists s1, onk (schedule p) s = Ret tt s1) /\
  (forall s1, onk (schedule p) s = Ret tt s1 ->
     if Z.of_nat c <? u32 n then exists s2, sleep_loop p ticks0 n s1 = Ret None s2 else sleep_loop p ticks0 n s1 = Ret (Some 0) s1).
Proof.
  intros Hin Hc. destruct (in_sleep_well p n ticks0 s c Hin) as [x [W1 W2 W3 W4 W5]]. destruct (schedule_runs p s x W1) as [Hrun Hr]. split.
  - intros Hn. apply Hrun. destruct W5 as [(_ & _ & H)|H]; [lia|done].
  - intros s1 E. destruct (Hr s1 E) as (T1 & y & Hy & Hk). pose proof (sleep_loop_test s1 p y ticks0 n Hy ltac:(congruence)) as Hl.
    rewrite T1, W4, elapsed in Hl by done. destruct (Z.of_nat c <? u32 n); [|done]. destruct Hl as (s2 & E2 & _). by exists s2.
Qed.
End clock.

(** ** Dispatch *)

(** The table with the code of the handlers in it. *)
Definition table {T : Type} (handler : call -> M T Z) : list (option (M T Z)) := option_map handler <$> syscalls.

(** The stub of a call in the library reaches the handler of that call in the
    kernel, and every number that no stub loads gives -1. *)
Theorem stub_reaches_handler {T : Type} (handler : call -> M T Z) :
  (forall c, Syscall.syscall (table handler) (stub c).1 = handler c) /\
  (forall n, (forall c, (stub c).1 <> n) -> Syscall.syscall (table handler) n = ret (-1)).
Proof.
  split; [by intros []|]. intros n Hn. unfold Syscall.syscall. destruct ((0 <? n) && _) eqn:E; [|done]. exfalso.
  apply andb_true_iff in E as [E1%Z.ltb_lt E2%Z.ltb_lt]. change (Z.of_nat (length (table handler))) with 30 in E2.
  assert (H : Forall (fun n => exists c, SYS c = n) (seqZ 1 29)).
  { repeat (apply Forall_cons_2; [first [by exists fork_|by exists exit_|by exists wait_|by exists pipe_|by exists read_|by exists kill_|by exists exec_
      |by exists fstat_|by exists chdir_|by exists dup_|by exists getpid_|by exists sbrk_|by exists sleep_|by exists uptime_|by exists open_
      |by exists write_|by exists mknod_|by exists unlink_|by exists link_|by exists mkdir_|by exists close_|by exists getuid_|by exists geteuid_
      |by exists setuid_|by exists setgroups_|by exists chmod_|by exists chown_|by exists echoswitch_|by exists clrscr_]|]). constructor. }
  rewrite list.Forall_forall in H. destruct (H n) as [c Hc]; [apply elem_of_seqZ; lia|]. by apply (Hn c).
Qed.

(** ** Concrete runs *)

(** The second process runs; the clock is about to wrap around. *)
Definition clock : tst := {| ks := run4; ticks := 2 ^ 32 - 2 |}.

Definition no_call (_ : nat) : M tst unit := ret tt.

Lemma killed_never_returns_witness : unkilled clock 1.
Proof.
  apply (killed_never_returns no_call (ret tt) (ret tt) (ret tt) 1 1 {| tf_trapno := T_IRQ0 + IRQ_KBD; tf_cs := 27 |} clock clock);
    [right; reflexivity|left; vm_compute; reflexivity].
Defined.

(** The process sleeps for 3 ticks; after the second it runs too early, and
    after the third it returns. *)
Lemma sleep_ticks_witness : exists s s1, in_sleep (ret tt) (ret tt) (ret tt) 1 3 (2 ^ 32 - 2) s 3 /\ onk (schedule 1) s = Ret tt s1 /\
  sleep_loop 1 (2 ^ 32 - 2) 3 s1 = Ret (Some 0) s1.
Proof.
  assert (H : exists s, in_sleep (ret tt) (ret tt) (ret tt) 1 3 (2 ^ 32 - 2) s 3).
  { pose (tick1 := tick (ret tt) (ret tt) (ret tt)). pose (s0 := after (sys_sleep 1 (Some 3) clock)). pose (s1 := after (tick1 s0)).
    pose (s2 := after (tick1 s1)). pose (s3 := after (onk (schedule 1) s2)). pose (s4 := after (sleep_loop 1 (2 ^ 32 - 2) 3 s3)).
    exists (after (tick1 s4)). apply (is_tick _ _ _ _ _ _ s4); [|reflexivity]. apply (is_run _ _ _ _ _ _ s2 s3); [|vm_compute; reflexivity..].
    apply (is_tick _ _ _ _ _ _ s1); [|reflexivity]. apply (is_tick _ _ _ _ _ _ s0); [|reflexivity].
    apply (is_call _ _ _ _ _ _ clock); [cbn; lia|vm_compute; reflexivity]. }
  destruct H as [s H]. destruct (sleep_ticks (ret tt) (ret tt) (ret tt) 1 3 (2 ^ 32 - 2) s 3 H) as [H1 H2]; [lia|].
  destruct H1 as [s1 E1]; [vm_compute; congruence|]. exists s, s1. split; [exact H|]. split; [exact E1|exact (H2 s1 E1)].
Defined.

(** A page fault ends the process; nobody else is killed. *)
Example fault_run : exists s', trap no_call (ret tt) (ret tt) (ret tt) 0 (Some 1%nat) {| tf_trapno := 14; tf_cs := 27 |} clock = Ret Exits s' /\
  (p_state <$> procs (ks s') !! 1%nat) = Some ZOMBIE /\ length (filter (fun x => p_killed x = true) (procs (ks s'))) = 1%nat.
Proof. eexists. vm_compute. split; [reflexivity|]. split; reflexivity. Qed.
