(* ===== verification/Sched.v ===== *)
(** * The scheduler on several processors ([scheduler], [sched] and the
    routines of [kernel/proc.c] that use [ptable.lock])

    The machine has the process table, the spin locks, and processors each of
    which runs its scheduler or a process.  Every thread (the scheduler of a
    processor, a process) has the instructions it is about to execute: the
    calls of [acquire] and [release], the operations on the table, [sched].  A
    routine of the kernel is a list of such instructions.  A processor executes
    one instruction of its thread at a time, in any order with the others; a
    process between two routines may call any of them, and a device may
    interrupt a processor whose interrupts are on.  Nothing is assumed about
    the locks when an instruction is executed: [acquire], [release], [popcli]
    and [sched] test what the code tests and panic as the code does.

    Lock number 0 is [ptable.lock]; the other numbers are the other spin locks
    of the kernel.  What a process does with its own memory and files is not
    in this file, nor are the registers that [swtch] saves.

    Proved: a process is on at most one processor, exactly when its state is
    RUNNING, and nothing panics; a processor runs each other process at most
    once before it runs one that waits for it. *)

From S2P Require Import Prelude CStr Pipe Ptable File Proc Lock.

(** ** Instructions *)

(** How a process gives the processor up. *)
Inductive leave : Type := Yield | Sleep (c : chan) | Exit.

Inductive instr : Type :=
  | Acq (l : nat)                       (* acquire *)
  | Spin (l : nat)                      (* the loop of acquire *)
  | Rel (l : nat)                       (* release *)
  | Sti                                 (* sti *)
  | Iret                                (* return from a trap: interrupts are on again *)
  | Scan (k : nat)                      (* the loop of scheduler, at entry k *)
  | Wake (c : chan)                     (* wakeup1 *)
  | Kill (pid : Z)                      (* the loop of kill *)
  | Claim (kstack_ok copy_ok : bool)    (* the search of allocproc, for fork *)
  | Inherit (np : nat)                  (* what fork copies to the child *)
  | Start (np : nat)                    (* np->state = RUNNABLE in fork *)
  | Discard (np : nat) (late : bool)    (* np->state = UNUSED in allocproc and fork *)
  | Children                            (* the loop of wait *)
  | Orphans                             (* the loop of exit *)
  | NotInit                             (* the test of exit *)
  | Leave (v : leave)                   (* the change of state, and sched *)
  | Unchan                              (* p->chan = 0 in sleep *)
  | Intena (b : bool)                   (* mycpu()->intena = intena in sched *)
  | Preempt                             (* the test before yield in trap *)
  | Panic (msg : string).

(** ** The routines *)

Definition ptable : nat := 0.

Definition yield_code : list instr := [Acq ptable; Leave Yield; Rel ptable].

(** [sleep(c, lk)] for another lock than [ptable.lock]. *)
Definition sleep_code (lk : nat) (c : chan) : list instr :=
  [Acq ptable; Rel lk; Leave (Sleep c); Unchan; Rel ptable; Acq lk].

Definition wakeup_code (c : chan) : list instr := [Acq ptable; Wake c; Rel ptable].
Definition kill_code (pid : Z) : list instr := [Acq ptable; Kill pid; Rel ptable].

(** [fork] has [allocproc] in it; whether [kalloc] and [copyuvm] succeed is a
    parameter.  After the search: *)
Definition fork_code (kstack_ok copy_ok : bool) : list instr := [Acq ptable; Claim kstack_ok copy_ok].
Definition fork_rest (kstack_ok copy_ok : bool) (np : nat) : list instr :=
  if negb kstack_ok then [Discard np false]
  else if negb copy_ok then [Discard np true]
  else [Inherit np; Acq ptable; Start np; Rel ptable].

Definition wait_code : list instr := [Acq ptable; Children].

(** [exit], without the closing of its files. *)
Definition exit_code : list instr := [NotInit; Acq ptable; Orphans; Leave Exit; Panic "zombie exit"].

(** Where a new process starts. *)
Definition forkret_code : list instr := [Rel ptable].

(** One round of [scheduler]. *)
Definition scheduler_code : list instr := [Sti; Acq ptable; Scan 0].

(** Code under a spin lock of its own sleeps and wakes up others. *)
Inductive act : Type := SleepOn (c : chan) | WakeOn (c : chan).

Definition act_code (lk : nat) (a : act) : list instr :=
  match a with SleepOn c => sleep_code lk c | WakeOn c => wakeup_code c end.

(** What a process calls. *)
Inductive routine : Type :=
  | CallYield
  | CallLocked (lk : nat) (body : list act)   (* acquire(&lk); ... release(&lk) *)
  | CallWakeup (c : chan)
  | CallKill (pid : Z)
  | CallFork (kstack_ok copy_ok : bool)
  | CallWait
  | CallExit
  | CallTrapret.                              (* the return to user mode *)

Definition locked_code (lk : nat) (body : list act) : list instr := Acq lk :: (body ≫= act_code lk) ++ [Rel lk].

Definition routine_code (r : routine) : list instr :=
  match r with
  | CallYield => yield_code
  | CallLocked lk body => locked_code lk body
  | CallWakeup c => wakeup_code c
  | CallKill pid => kill_code pid
  | CallFork kok cok => fork_code kok cok
  | CallWait => wait_code
  | CallExit => exit_code
  | CallTrapret => [Iret]
  end.

(** The lock around other code is not [ptable.lock]. *)
Definition routine_ok (r : routine) : Prop := match r with CallLocked lk _ => lk <> ptable | _ => True end.

(** An interrupt: the clock, with [tickslock] and [wakeup(&ticks)] on
    processor 0, or a device whose handler takes a lock and wakes processes. *)
Inductive interrupt : Type :=
  | Clock (first : option (nat * chan))
  | Device (lk : nat) (wakes : list chan).

Definition interrupt_code (h : interrupt) : list instr :=
  match h with
  | Clock (Some (lk, c)) => locked_code lk [WakeOn c] ++ [Preempt]
  | Clock None => [Preempt]
  | Device lk cs => locked_code lk (WakeOn <$> cs)
  end.

Definition interrupt_ok (h : interrupt) : Prop :=
  match h with Clock (Some (lk, _)) => lk <> ptable | Clock None => True | Device lk _ => lk <> ptable end.

(** ** The machine *)

(** [c_code] are the instructions of the processor's scheduler, and [c_panic]
    the message when it has stopped in [panic]. *)
Record pcpu : Type := { c_cli : Spinlock.cpu; c_proc : option nat; c_code : list instr; c_panic : option string }.

(** [m_code] are the instructions of the processes, by slot. *)
Record smach : Type := { m_k : kst; m_locks : nat -> Spinlock.spinlock; m_cpus : list pcpu; m_code : list (list instr) }.

Definition with_intena (b : bool) (c : Spinlock.cpu) : Spinlock.cpu :=
  {| Spinlock.ncli := Spinlock.ncli c; Spinlock.intena := b; Spinlock.iflag := Spinlock.iflag c |}.

Definition with_iflag (b : bool) (c : Spinlock.cpu) : Spinlock.cpu :=
  {| Spinlock.ncli := Spinlock.ncli c; Spinlock.intena := Spinlock.intena c; Spinlock.iflag := b |}.

Definition set_lock (l : nat) (x : Spinlock.spinlock) (f : nat -> Spinlock.spinlock) : nat -> Spinlock.spinlock :=
  fun q => if (q =? l)%nat then x else f q.

(** The instructions of the thread that the processor runs. *)
Definition current (m : smach) (c : pcpu) : list instr :=
  match c_proc c with None => c_code c | Some p => default [] (m_code m !! p) end.

(** Processor [i] goes on with the instructions [r]. *)
Definition advance (i : nat) (c : pcpu) (cli : Spinlock.cpu) (r : list instr) (m : smach) : smach :=
  match c_proc c with
  | None => {| m_k := m_k m; m_locks := m_locks m;
               m_cpus := <[i := {| c_cli := cli; c_proc := None; c_code := r; c_panic := None |}]> (m_cpus m); m_code := m_code m |}
  | Some p => {| m_k := m_k m; m_locks := m_locks m;
                 m_cpus := <[i := {| c_cli := cli; c_proc := Some p; c_code := c_code c; c_panic := None |}]> (m_cpus m);
                 m_code := <[p := r]> (m_code m) |}
  end.

Definition panic_at (i : nat) (c : pcpu) (msg : string) (m : smach) : smach :=
  {| m_k := m_k m; m_locks := m_locks m;
     m_cpus := <[i := {| c_cli := c_cli c; c_proc := c_proc c; c_code := c_code c; c_panic := Some msg |}]> (m_cpus m); m_code := m_code m |}.

Definition with_k (k : kst) (m : smach) : smach := {| m_k := k; m_locks := m_locks m; m_cpus := m_cpus m; m_code := m_code m |}.
Definition with_lock (l : nat) (x : Spinlock.spinlock) (m : smach) : smach :=
  {| m_k := m_k m; m_locks := set_lock l x (m_locks m); m_cpus := m_cpus m; m_code := m_code m |}.

(** ** Execution *)

(** [release], with its test, the store and [popcli]. *)
Definition release (i : nat) (l : Spinlock.spinlock) (c : Spinlock.cpu) : (Spinlock.spinlock * Spinlock.cpu) + string :=
  match Spinlock.release_enter l i c with
  | (_, (_, Spinlock.Panic msg)) => inr msg
  | (l1, (c1, _)) =>
      match Spinlock.release_store l1 c1 with
      | (_, (_, Spinlock.Panic msg)) => inr msg
      | (l2, (c2, _)) => inl (l2, c2)
      end
  end.

(** [sched] up to its [swtch], for a process in the state [st]. *)
Definition sched (i : nat) (l : Spinlock.spinlock) (c : Spinlock.cpu) (st : procstate) : Spinlock.cpu + string :=
  match Spinlock.holding l i c with
  | inr msg => inr msg
  | inl (c1, false) => inr "sched ptable.lock"%string
  | inl (c1, true) =>
      if negb (Spinlock.ncli c1 =? 1) then inr "sched locks"%string
      else if bool_decide (st = RUNNING) then inr "sched running"%string
      else if Spinlock.iflag c1 then inr "sched interruptible"%string
      else inl c1
  end.

(** [allocproc] as long as it holds the lock; the slot. *)
Definition claim : M kst (option nat) :=
  let! l := gets procs in
  match first_slot (in_state UNUSED) l 0 with
  | None => ret None
  | Some i =>
      let! pid := gets nextpid in
      setp i (fun p => set_pid pid (set_state EMBRYO p)) then!
      modify (fun s => {| procs := procs s; nextpid := s32 (nextpid s + 1); initproc := initproc s;
                          files := files s; irefs := irefs s; pipes := pipes s |}) then!
      ret (Some i)
  end.

(** The slot is given back, when [kalloc] has no stack for it ([allocproc])
    or, [late], when [copyuvm] fails ([fork]). *)
Definition discard (np : nat) (late : bool) : M kst unit :=
  setp np (fun p => set_state UNUSED (set_mem (p_sz p) false (if late then false else p_pgdir p) p)).

(** What the child gets in [fork]; the files are not in this file. *)
Definition inherit (p np : nat) : M kst unit :=
  let! x := getp p in
  setp np (fun y => set_name (p_name x) (set_parent (Some p) (set_mem (p_sz x) true true y))).

(** One pass of [wait] over the table, and what the process does next. *)
Definition children (p : nat) (r : list instr) : M kst (list instr) :=
  let! l := gets procs in
  let! me := getp p in
  match wait_scan p l 0 false with
  | (_, Some i) => setp i reap then! ret (Rel ptable :: r)
  | (havekids, None) =>
      if negb havekids || p_killed me then ret (Rel ptable :: r)
      else ret (Leave (Sleep (ChProc p)) :: Unchan :: Children :: r)
  end.

(** [wakeup1(curproc->parent)] and the loop that passes on the children. *)
Definition orphans (p : nat) : M kst unit :=
  let! x := getp p in
  (match p_parent x with Some q => wakeup1 (ChProc q) | None => ret tt end) then!
  pass_children p NPROC 0.

Definition do_leave (p : nat) (v : leave) : M kst unit :=
  match v with
  | Yield => yield p
  | Sleep c => sleep p c
  | Exit => setp p (set_state ZOMBIE)
  end.

(** An operation on the table, and the instructions after it; one that C
    leaves undefined stops the processor. *)
Definition table_op (i : nat) (c : pcpu) (op : M kst (list instr)) (m : smach) : smach :=
  match op (m_k m) with
  | Ret r k => advance i c (c_cli c) r (with_k k m)
  | Stop (Panicked msg) _ => panic_at i c msg m
  | Stop _ _ => panic_at i c "undefined" m
  end.

(** The loop of [scheduler] at entry [k]: the end of the round, the next
    entry, or the switch to a process that is runnable. *)
Definition scan (i : nat) (c : pcpu) (k : nat) (m : smach) : smach :=
  if (NPROC <=? k)%nat then advance i c (c_cli c) (Rel ptable :: scheduler_code) m
  else match procs (m_k m) !! k with
  | None => panic_at i c "undefined" m
  | Some x =>
      if in_state RUNNABLE x then
        {| m_k := with_procs (m_k m) (<[k := set_state RUNNING x]> (procs (m_k m))); m_locks := m_locks m;
           m_cpus := <[i := {| c_cli := c_cli c; c_proc := Some k; c_code := [Scan (S k)]; c_panic := None |}]> (m_cpus m);
           m_code := m_code m |}
      else advance i c (c_cli c) [Scan (S k)] m
  end.

(** The process [p] leaves in the state that [v] says, and the scheduler of
    the processor goes on where it was. *)
Definition depart (i : nat) (c : pcpu) (p : nat) (v : leave) (r : list instr) (m : smach) : smach :=
  match do_leave p v (m_k m) with
  | Stop _ _ => panic_at i c "undefined" m
  | Ret _ k =>
      match procs k !! p with
      | None => panic_at i c "undefined" m
      | Some x =>
          match sched i (m_locks m ptable) (c_cli c) (p_state x) with
          | inr msg => panic_at i c msg m
          | inl cli =>
              {| m_k := k; m_locks := m_locks m;
                 m_cpus := <[i := {| c_cli := cli; c_proc := None; c_code := c_code c; c_panic := None |}]> (m_cpus m);
                 m_code := <[p := Intena (Spinlock.intena cli) :: r]> (m_code m) |}
          end
      end
  end.

(** The new process [np] starts in [forkret]. *)
Definition new_process (kok cok : bool) (r : list instr) (i : nat) (c : pcpu) (m : smach) : smach :=
  match claim (m_k m) with
  | Stop _ _ => panic_at i c "undefined" m
  | Ret None k => advance i c (c_cli c) (Rel ptable :: r) (with_k k m)
  | Ret (Some np) k =>
      advance i c (c_cli c) (Rel ptable :: fork_rest kok cok np ++ r)
        {| m_k := k; m_locks := m_locks m; m_cpus := m_cpus m; m_code := <[np := forkret_code]> (m_code m) |}
  end.

(** Processor [i] executes an instruction; [None] when it waits for a lock,
    has stopped, or runs a process outside these routines. *)
Definition exec (i : nat) (m : smach) : option smach :=
  c ← m_cpus m !! i;
  match c_panic c, current m c with
  | Some _, _ | None, [] => None
  | None, ins :: r =>
      let op o := Some (table_op i c (o then! ret r) m) in
      let proc f := Some (match c_proc c with Some p => f p | None => panic_at i c "no process" m end) in
      match ins with
      | Acq l =>
          match Spinlock.acquire_enter (m_locks m l) i (c_cli c) with
          | (_, Spinlock.Panic msg) => Some (panic_at i c msg m)
          | (cli, _) => Some (advance i c cli (Spin l :: r) m)
          end
      | Spin l =>
          if Spinlock.locked (m_locks m l) =? 0
          then Some (advance i c (c_cli c) r (with_lock l (Spinlock.acquire_record (Spinlock.acquire_xchg (m_locks m l)).1 i) m))
          else None
      | Rel l =>
          match release i (m_locks m l) (c_cli c) with
          | inr msg => Some (panic_at i c msg m)
          | inl (x, cli) => Some (advance i c cli r (with_lock l x m))
          end
      | Sti | Iret => Some (advance i c (with_iflag true (c_cli c)) r m)
      | Scan k => Some (scan i c k m)
      | Wake ch => op (wakeup1 ch)
      | Kill pid => op (let! _ := kill pid in ret tt)
      | Claim kok cok => proc (fun p => new_process kok cok r i c m)
      | Inherit np => proc (fun p => table_op i c (inherit p np then! ret r) m)
      | Start np => op (setp np (set_state RUNNABLE))
      | Discard np late => op (discard np late)
      | Children => proc (fun p => table_op i c (children p r) m)
      | Orphans => proc (fun p => table_op i c (orphans p then! ret r) m)
      | NotInit => proc (fun p => if bool_decide (initproc (m_k m) = Some p) then panic_at i c "init exiting" m else advance i c (c_cli c) r m)
      | Leave v => proc (fun p => depart i c p v r m)
      | Unchan => proc (fun p => table_op i c (setp p (set_chan None) then! ret r) m)
      | Intena b => Some (advance i c (with_intena b (c_cli c)) r m)
      | Preempt =>
          let running := match c_proc c with
                         | Some p => match procs (m_k m) !! p with Some x => in_state RUNNING x | None => false end
                         | None => false
                         end in
          Some (advance i c (c_cli c) (if running then yield_code ++ r else r) m)
      | Panic msg => Some (panic_at i c msg m)
      end
  end.

(** A processor executes an instruction, a process calls a routine, or a
    processor whose interrupts are on takes an interrupt. *)
Inductive step : smach -> smach -> Prop :=
  | s_exec m i m' : exec i m = Some m' -> step m m'
  | s_call m i c p r :
      m_cpus m !! i = Some c -> c_panic c = None -> c_proc c = Some p -> current m c = [] -> routine_ok r ->
      step m (advance i c (c_cli c) (routine_code r) m)
  | s_interrupt m i c h :
      m_cpus m !! i = Some c -> c_panic c = None -> Spinlock.iflag (c_cli c) = true -> interrupt_ok h ->
      step m (advance i c (with_iflag false (c_cli c)) (interrupt_code h ++ Iret :: current m c) m).

(** Every processor enters [scheduler], with the table [k] of [userinit]: the
    processes in it have not run. *)
Definition started (n : nat) (k : kst) : smach :=
  {| m_k := k; m_locks := fun _ => Spinlock.initlock;
     m_cpus := replicate n {| c_cli := {| Spinlock.ncli := 0; Spinlock.intena := false; Spinlock.iflag := false |};
                              c_proc := None; c_code := scheduler_code; c_panic := None |};
     m_code := replicate NPROC forkret_code |}.

(** ** The operations on the table *)

(** Nothing is started, stopped or taken out of [fork]'s hands: a sleeping
    process may become runnable and a zombie may be reaped. *)
Definition tame1 (a b : procstate) : Prop := b = a \/ (a = SLEEPING /\ b = RUNNABLE) \/ (a = ZOMBIE /\ b = UNUSED).
Definition tame (k k' : kst) : Prop := Forall2 (fun x y => tame1 (p_state x) (p_state y)) (procs k) (procs k').

Lemma tame1_trans a b c : tame1 a b -> tame1 b c -> tame1 a c.
Proof. unfold tame1. naive_solver congruence. Qed.

Lemma tame_refl k : tame k k.
Proof. apply Forall2_same_length_lookup. split; [done|]. intros i x y Hx Hy. simplify_eq. by left. Qed.

Lemma tame_trans k1 k2 k3 : tame k1 k2 -> tame k2 k3 -> tame k1 k3.
Proof.
  unfold tame. rewrite !Forall2_same_length_lookup. intros [L1 H1] [L2 H2]. split; [congruence|]. intros i x z Hx Hz.
  destruct (lookup_lt_is_Some_2 (procs k2) i) as [y Hy]; [rewrite <- L1; by eapply lookup_lt_Some|].
  eapply tame1_trans; [by apply (H1 i x y)|by apply (H2 i)].
Qed.

Lemma tame_length k k' : tame k k' -> length (procs k') = length (procs k).
Proof. intros H. symmetry. by eapply Forall2_length. Qed.

Lemma tame_map f k : (forall x, tame1 (p_state x) (p_state (f x))) -> tame k (with_procs k (f <$> procs k)).
Proof.
  intros H. unfold tame. cbn [with_procs procs]. apply Forall2_fmap_r, Forall2_same_length_lookup. split; [done|].
  intros i x y Hx Hy. simplify_eq. apply H.
Qed.

Lemma tame_setp i f k x : procs k !! i = Some x -> tame1 (p_state x) (p_state (f x)) ->
  exists k', setp i f k = Ret tt k' /\ tame k k' /\ procs k' !! i = Some (f x).
Proof.
  intros Hx Hf. eexists. split; [by apply setp_eq|]. pose proof (lookup_lt_Some _ _ _ Hx) as Hlt. split.
  - unfold tame. cbn [with_procs procs]. apply Forall2_same_length_lookup. split; [by rewrite length_insert|]. intros j y z Hy Hz.
    destruct (decide (j = i)) as [->|Hj].
    + rewrite list_lookup_insert_eq in Hz by done. by simplify_eq.
    + rewrite list_lookup_insert_ne in Hz by done. simplify_eq. by left.
  - cbn [with_procs procs]. by apply list_lookup_insert_eq.
Qed.

(** An operation that returns, whatever the table, and is tame. *)
Definition quietly {A} (o : outcome kst A) (k : kst) (P : A -> Prop) : Prop := exists a k', o = Ret a k' /\ tame k k' /\ P a.

Lemma quietly_then {A} (op : M kst unit) (f : M kst A) k P : quietly (op k) k (fun _ => True) ->
  (forall k', tame k k' -> quietly (f k') k' P) -> quietly ((op then! f) k) k P.
Proof.
  intros (a & k1 & E & C & _) H. destruct (H k1 C) as (b & k2 & E2 & C2 & Hb). exists b, k2. split; [|split; [by eapply tame_trans|done]].
  unfold bind. by rewrite E.
Qed.

Lemma quietly_ret {A} (a : A) k (P : A -> Prop) : P a -> quietly (ret a k) k P.
Proof. intros H. exists a, k. split; [done|]. split; [apply tame_refl|done]. Qed.

Lemma quietly_setp i f k : (i < length (procs k))%nat -> (forall x, procs k !! i = Some x -> tame1 (p_state x) (p_state (f x))) ->
  quietly (setp i f k) k (fun _ => True).
Proof.
  intros [x Hx]%lookup_lt_is_Some_2 Hf. destruct (tame_setp i f k x Hx (Hf x Hx)) as (k' & E & C & _). by exists tt, k'.
Qed.

Lemma wake_on_tame c x : tame1 (p_state x) (p_state (wake_on c x)).
Proof.
  unfold wake_on. destruct (in_state SLEEPING x && _) eqn:E; [|by left]. apply andb_true_iff in E as [E%in_state_true _]. right. left. done.
Qed.

Lemma quietly_wakeup c k : quietly (wakeup1 c k) k (fun _ => True).
Proof. exists tt. eexists. split; [done|]. split; [|done]. apply tame_map, wake_on_tame. Qed.

Lemma quietly_kill pid k : quietly ((let! _ := kill pid in ret tt) k) k (fun _ => True).
Proof.
  unfold kill. rewrite bind_assoc, bind_gets. destruct (first_slot _ _ _) as [i|] eqn:Ef; [|by apply quietly_ret].
  apply first_slot_some in Ef as (j & x & -> & Hx & _). rewrite bind_assoc. pose proof (lookup_lt_Some _ _ _ Hx) as Hlt. cbn [Nat.add] in *.
  apply quietly_then; [apply quietly_setp; [done|by left]|]. intros k1 C1. rewrite bind_assoc.
  apply quietly_then; [|intros; by apply quietly_ret]. apply quietly_setp; [by rewrite (tame_length _ _ C1)|]. intros y _.
  destruct (in_state SLEEPING y) eqn:Es; [apply in_state_true in Es; right; by left|by left].
Qed.

Lemma quietly_inherit p np k : (p < length (procs k))%nat -> (np < length (procs k))%nat -> quietly (inherit p np k) k (fun _ => True).
Proof.
  intros [x Hx]%lookup_lt_is_Some_2 Hnp. unfold inherit. rewrite (getp_bind _ _ x) by done. apply quietly_setp; [done|by left].
Qed.

Lemma reparent_state c init x : p_state (reparent c init x) = p_state x.
Proof. unfold reparent. by case_bool_decide. Qed.

Lemma quietly_pass c k : length (procs k) = NPROC -> quietly (pass_children c NPROC 0 k) k (fun _ => True).
Proof.
  intros Hlen. pose proof (pass_children_map c NPROC [] (procs k) k Hlen eq_refl) as E. cbn [length app] in E.
  exists tt. eexists. split; [exact E|]. split; [|done]. rewrite <- list_fmap_compose. apply tame_map. intros x. cbn [compose]. unfold wake_init.
  destruct (initproc k) as [q|]; [destruct (existsb _ _)|]; rewrite ?reparent_state; [|by left..].
  rewrite <- (reparent_state c (Some q) x). apply wake_on_tame.
Qed.

Lemma quietly_orphans p k : (p < NPROC)%nat -> length (procs k) = NPROC -> quietly (orphans p k) k (fun _ => True).
Proof.
  intros Hp Hlen. destruct (lookup_lt_is_Some_2 (procs k) p) as [x Hx]; [lia|]. unfold orphans. rewrite (getp_bind _ _ x) by done.
  apply quietly_then; [destruct (p_parent x); [apply quietly_wakeup|by apply quietly_ret]|].
  intros k' C. apply quietly_pass. by rewrite (tame_length _ _ C).
Qed.

Lemma quietly_children p r k : (p < length (procs k))%nat ->
  quietly (children p r k) k (fun r' => r' = Rel ptable :: r \/ r' = Leave (Sleep (ChProc p)) :: Unchan :: Children :: r).
Proof.
  intros [x Hx]%lookup_lt_is_Some_2. unfold children. rewrite bind_gets, (getp_bind _ _ x) by done.
  destruct (wait_scan p (procs k) 0 false) as [hk [i|]] eqn:Ew.
  - apply wait_scan_some in Ew as (y & _ & Hy & _ & Hz & _). rewrite Nat.sub_0_r in Hy.
    apply quietly_then; [|intros; apply quietly_ret; by left]. apply quietly_setp; [by eapply lookup_lt_Some|].
    intros y' Hy'. simplify_eq. right. right. done.
  - destruct (negb hk || p_killed x); apply quietly_ret; [by left|by right].
Qed.

(** ** The locks *)

Definition taken (i : nat) : Spinlock.spinlock := {| Spinlock.locked := 1; Spinlock.lcpu := Some i |}.

Lemma enter_not_mine i l c : l <> taken i -> (l = Spinlock.initlock \/ exists j, l = taken j) -> Spinlock.cpu_ok c ->
  exists c', Spinlock.acquire_enter l i c = (c', Spinlock.Spin) /\ Spinlock.cpu_ok c' /\ Spinlock.ncli c' = Spinlock.ncli c + 1.
Proof.
  intros Hn Hl Hc. unfold Spinlock.acquire_enter. destruct (Spinlock.pushcli_ok c Hc) as [Hp _].
  destruct (Spinlock.holding_ok l i _ Hp) as (c' & -> & Hc' & Hd).
  assert (Spinlock.holding_val l i = false) as ->.
  { unfold Spinlock.holding_val. destruct Hl as [->|[j ->]]; [done|]. cbn [taken Spinlock.locked Spinlock.lcpu Z.eqb negb andb].
    apply bool_decide_eq_false_2. congruence. }
  exists c'. split; [done|]. split; [done|]. rewrite Hd. done.
Qed.

Lemma holding_taken i c : Spinlock.cpu_ok c -> exists c', Spinlock.holding (taken i) i c = inl (c', true) /\ Spinlock.cpu_ok c' /\ Spinlock.ncli c' = Spinlock.ncli c.
Proof.
  intros Hc. destruct (Spinlock.holding_ok (taken i) i c Hc) as (c' & E & H). exists c'. split; [|done]. rewrite E.
  unfold Spinlock.holding_val, taken. cbn [Spinlock.locked Spinlock.lcpu Z.eqb negb andb]. by rewrite bool_decide_eq_true_2.
Qed.

Lemma release_taken i c : Spinlock.cpu_ok c -> 0 < Spinlock.ncli c ->
  exists c', release i (taken i) c = inl (Spinlock.initlock, c') /\ Spinlock.cpu_ok c' /\ Spinlock.ncli c' = Spinlock.ncli c - 1.
Proof.
  intros Hc Hn. unfold release, Spinlock.release_enter. destruct (holding_taken i c Hc) as (c1 & -> & Hc1 & Hn1).
  unfold Spinlock.release_store. destruct (Spinlock.popcli_ok c1 Hc1) as (c2 & -> & Hc2 & Hn2); [lia|]. exists c2.
  split; [done|]. split; [done|lia].
Qed.

Lemma sched_taken i c st : Spinlock.cpu_ok c -> Spinlock.ncli c = 1 -> st <> RUNNING ->
  exists c', sched i (taken i) c st = inl c' /\ Spinlock.cpu_ok c' /\ Spinlock.ncli c' = 1.
Proof.
  intros Hc Hn Hst. unfold sched. destruct (holding_taken i c Hc) as (c1 & -> & Hc1 & Hn1). rewrite Hn1, Hn. cbn [Z.eqb Pos.eqb negb].
  rewrite bool_decide_eq_false_2 by done. destruct Hc1 as [H1 H2]. rewrite H2 by lia. exists c1. split; [done|]. split; [done|lia].
Qed.

Definition drop_lock (l : nat) (h : list nat) : list nat := filter (fun q => q <> l) h.

Lemma drop_alone l : drop_lock l [l] = [].
Proof. unfold drop_lock. by rewrite filter_cons_False by tauto. Qed.

Lemma drop_first l q : q <> l -> drop_lock l [l; q] = [q].
Proof. intros H. unfold drop_lock. by rewrite filter_cons_False, filter_cons_True by tauto. Qed.

Lemma drop_second l q : q <> l -> drop_lock l [q; l] = [q].
Proof. intros H. unfold drop_lock. by rewrite filter_cons_True, filter_cons_False by tauto. Qed.

Lemma drop_none l h : (l ∉ h) -> drop_lock l h = h.
Proof.
  unfold drop_lock. induction h as [|q h IH]; [done|]. intros H. rewrite filter_cons_True by set_solver. f_equal. apply IH. set_solver.
Qed.

Lemma drop_length l h : NoDup h -> l ∈ h -> length h = S (length (drop_lock l h)).
Proof.
  induction h as [|q h IH]; [set_solver|]. intros [Hq Hnd]%list.NoDup_cons Hl. unfold drop_lock. destruct (decide (q = l)) as [->|Hql].
  - rewrite filter_cons_False by tauto. fold (drop_lock l h). by rewrite drop_none.
  - rewrite filter_cons_True by done. fold (drop_lock l h). cbn [length]. rewrite IH; [done|done|set_solver].
Qed.

(** ** Code that keeps the discipline of the locks

    [safe b h code]: from the locks [h] the instructions take no lock twice,
    release only what is held, come to [sched] with [ptable.lock] alone, and
    end with no lock; [b] is whether the thread is a scheduler. *)
Fixpoint safe (b : bool) (h : list nat) (code : list instr) : Prop :=
  match code with
  | [] => h = [] /\ b = false
  | Acq l :: r => (l ∉ h) /\ safe b (l :: h) r
  | Rel l :: r => l ∈ h /\ safe b (drop_lock l h) r
  | Sti :: r | Iret :: r | Preempt :: r => h = [] /\ safe b [] r
  | Scan k :: r => b = true /\ h = [ptable] /\ (k <= NPROC)%nat /\ r = []
  | Wake _ :: r | Kill _ :: r => safe b h r
  | Claim _ _ :: r | Children :: r => b = false /\ h = [ptable] /\ safe b [] r
  | Inherit np :: r => b = false /\ (np < NPROC)%nat /\ safe b h r
  | Start _ :: r | Discard _ _ :: r | Orphans :: r | NotInit :: r | Unchan :: r => b = false /\ safe b h r
  | Leave v :: r => b = false /\ h = [ptable] /\ (v <> Exit -> safe b [ptable] r)
  | Intena _ :: r => safe b h r
  | Spin _ :: _ | Panic _ :: _ => False
  end.

(** The same for the thread of a processor, which may be in [acquire]. *)
Definition safe_now (b : bool) (h : list nat) (code : list instr) : Prop :=
  match code with Spin l :: r => (l ∉ h) /\ safe b (l :: h) r | _ => safe b h code end.

(** The slots that [fork] has taken and not yet started. *)
Definition owns (code : list instr) : list nat :=
  omap (fun x => match x with Start np | Discard np _ => Some np | _ => None end) code.

Lemma owns_app c1 c2 : owns (c1 ++ c2) = owns c1 ++ owns c2.
Proof. apply omap_app. Qed.

Lemma safe_acts b lk body r : lk <> ptable -> b = false \/ Forall (fun a => exists c, a = WakeOn c) body ->
  safe b [lk] r -> safe b [lk] ((body ≫= act_code lk) ++ r).
Proof.
  intros Hlk Hb Hr. induction body as [|a body IH]; [done|]. rewrite bind_cons, <- app_assoc.
  assert (IH' : safe b [lk] ((body ≫= act_code lk) ++ r)) by (apply IH; destruct Hb as [Hb|Hb]; [by left|right; by inversion Hb]).
  assert (Hp : ptable ∉ [lk]) by (rewrite list_elem_of_singleton; congruence).
  destruct a as [c|c]; cbn [act_code sleep_code wakeup_code app safe].
  - assert (b = false) as -> by (destruct Hb as [Hb|Hb]; [done|inversion Hb as [|? ? (? & ?)]; congruence]).
    rewrite drop_second, drop_alone by done. split; [done|]. split; [set_solver|]. split; [done|]. split; [done|]. intros _.
    split; [done|]. split; [set_solver|]. split; [set_solver|]. exact IH'.
  - rewrite drop_first by done. split; [done|]. split; [set_solver|]. exact IH'.
Qed.

Lemma safe_locked b lk body r : lk <> ptable -> b = false \/ Forall (fun a => exists c, a = WakeOn c) body ->
  safe b [] r -> safe b [] (locked_code lk body ++ r).
Proof.
  intros Hlk Hb Hr. unfold locked_code. cbn [app safe]. split; [set_solver|]. rewrite <- app_assoc. apply safe_acts; [done..|].
  cbn [app safe]. rewrite drop_alone. split; [set_solver|]. done.
Qed.

Lemma safe_yield r : safe false [] r -> safe false [] (yield_code ++ r).
Proof. intros Hr. cbn. split; [set_solver|]. split; [done|]. split; [done|]. intros _. split; [set_solver|]. done. Qed.

Lemma safe_routine r : routine_ok r -> safe false [] (routine_code r).
Proof.
  intros Hok. destruct r; cbn [routine_code].
  - by apply (safe_yield []).
  - rewrite <- (app_nil_r (locked_code _ _)). by apply safe_locked; [|left|].
  - cbn. split; [set_solver|]. split; [set_solver|]. done.
  - cbn. split; [set_solver|]. split; [set_solver|]. done.
  - cbn. split; [set_solver|]. done.
  - cbn. split; [set_solver|]. done.
  - cbn. split; [done|]. split; [set_solver|]. done.
  - done.
Qed.

Lemma safe_interrupt b h r : interrupt_ok h -> safe b [] r -> safe b [] (interrupt_code h ++ r).
Proof.
  assert (Hw : forall cs, Forall (fun a => exists c, a = WakeOn c) (WakeOn <$> cs)) by (intros cs; apply Forall_fmap, Forall_true; by eexists).
  intros Hok Hr. destruct h as [[[lk c]|]|lk cs]; cbn [interrupt_code].
  - rewrite <- app_assoc. apply safe_locked; [done|right; apply (Hw [c])|]. done.
  - done.
  - apply safe_locked; [done|right; apply Hw|done].
Qed.

Lemma owns_acts lk body : owns (body ≫= act_code lk) = [].
Proof. induction body as [|[c|c] body IH]; [done|..]; rewrite bind_cons, owns_app, IH; done. Qed.

Lemma owns_locked lk body : owns (locked_code lk body) = [].
Proof. unfold locked_code. cbn. fold (owns ((body ≫= act_code lk) ++ [Rel lk])). by rewrite owns_app, owns_acts. Qed.

Lemma owns_routine r : owns (routine_code r) = [].
Proof. destruct r; [done|apply owns_locked|done..]. Qed.

Lemma owns_interrupt h : owns (interrupt_code h) = [].
Proof. destruct h as [[[lk c]|]|lk cs]; cbn [interrupt_code]; rewrite ?owns_app, ?owns_locked; done. Qed.

(** ** The invariant *)

Definition code_at (m : smach) (p : nat) : list instr := default [] (m_code m !! p).

Definition spinning (code : list instr) : Z := match code with Spin _ :: _ => 1 | _ => 0 end.

Definition is_sched (c : pcpu) : bool := match c_proc c with None => true | Some _ => false end.

(** The states in which a process waits to go on, and those in which it has
    started and not ended. *)
Definition waiting (st : procstate) : Prop := st = EMBRYO \/ st = RUNNABLE \/ st = SLEEPING.
Definition active (st : procstate) : Prop := st = RUNNABLE \/ st = SLEEPING \/ st = RUNNING.

Definition has_state (m : smach) (p : nat) (P : procstate -> Prop) : Prop := exists x, procs (m_k m) !! p = Some x /\ P (p_state x).

(** Processor [i] holds the locks [h]. *)
Record cpu_inv (m : smach) (i : nat) (c : pcpu) (h : list nat) : Prop := {
  ci_nodup : NoDup h;
  ci_held l : l ∈ h <-> m_locks m l = taken i;
  ci_cli : Spinlock.cpu_ok (c_cli c);
  ci_run p : c_proc c = Some p -> has_state m p (eq RUNNING);
  ci_back p : c_proc c = Some p -> exists k, (k <= NPROC)%nat /\ c_code c = [Scan k];
  ci_panic msg : c_panic c = Some msg -> msg = "init exiting"%string;
  ci_code : c_panic c = None ->
    Spinlock.ncli (c_cli c) = Z.of_nat (length h) + spinning (current m c) /\ safe_now (is_sched c) h (current m c)
}.

Record sched_inv (m : smach) : Prop := {
  si_lock l : m_locks m l = Spinlock.initlock \/ exists i, m_locks m l = taken i;
  si_cpu i c : m_cpus m !! i = Some c -> exists h, cpu_inv m i c h;
  si_one i j c d p : m_cpus m !! i = Some c -> m_cpus m !! j = Some d -> c_proc c = Some p -> c_proc d = Some p -> i = j;
  si_run p : has_state m p (eq RUNNING) -> exists i c, m_cpus m !! i = Some c /\ c_proc c = Some p;
  si_len : length (procs (m_k m)) = NPROC;
  si_codes : length (m_code m) = NPROC;
  si_wait p : has_state m p waiting -> safe false [ptable] (code_at m p);
  si_new p : has_state m p (eq EMBRYO) -> owns (code_at m p) = [];
  si_owns p : has_state m p active -> NoDup (owns (code_at m p)) /\ forall np, np ∈ owns (code_at m p) -> has_state m np (eq EMBRYO);
  si_apart p q np : has_state m p active -> has_state m q active -> np ∈ owns (code_at m p) -> np ∈ owns (code_at m q) -> p = q
}.

Lemma safe_spin b h code : safe b h code -> spinning code = 0 /\ safe_now b h code.
Proof. by destruct code as [|[]]. Qed.

Lemma has_state_lt m p P : sched_inv m -> has_state m p P -> (p < NPROC)%nat.
Proof. intros I (x & Hx & _). rewrite <- (si_len m I). by eapply lookup_lt_Some. Qed.

Lemma has_state_impl m p (P Q : procstate -> Prop) : has_state m p P -> (forall st, P st -> Q st) -> has_state m p Q.
Proof. intros (x & Hx & H) HPQ. exists x. split; [done|by apply HPQ]. Qed.

Lemma running_active m p : has_state m p (eq RUNNING) -> has_state m p active.
Proof. intros H. eapply has_state_impl; [done|]. intros ? <-. by right; right. Qed.

Lemma current_some m c p : c_proc c = Some p -> current m c = code_at m p.
Proof. unfold current. by intros ->. Qed.

(** *** A processor goes on in the same thread *)

(** What the thread may have taken from [allocproc]. *)
Definition owns_ok (m : smach) (c : pcpu) (r : list instr) : Prop :=
  match c_proc c with
  | None => True
  | Some p => NoDup (owns r) /\ forall np, np ∈ owns r -> has_state m np (eq EMBRYO) /\
                forall q, q <> p -> has_state m q active -> np ∉ owns (code_at m q)
  end.

Lemma owns_ok_sub m i c r : sched_inv m -> m_cpus m !! i = Some c -> sublist (owns r) (owns (current m c)) -> owns_ok m c r.
Proof.
  intros I Hc Hs. unfold owns_ok. destruct (c_proc c) as [p|] eqn:Hp; [|done]. rewrite (current_some m c p Hp) in Hs.
  destruct (si_cpu m I i c Hc) as [h Hh]. pose proof (running_active m p (ci_run _ _ _ _ Hh p Hp)) as Ha.
  destruct (si_owns m I p Ha) as [Hn He]. split; [by eapply sublist_NoDup|]. intros np Hnp.
  assert (Hnp' : np ∈ owns (code_at m p)) by (by eapply sublist_subseteq). split; [by apply He|].
  intros q Hq Hqa Hnq. destruct Hq. symmetry. by eapply (si_apart m I p q np).
Qed.

(** The machine after it, in one form for both kinds of thread. *)
Definition moved (i : nat) (c c' : pcpu) (r : list instr) (f : nat -> Spinlock.spinlock) (m : smach) : smach :=
  {| m_k := m_k m; m_locks := f; m_cpus := <[i := c']> (m_cpus m);
     m_code := match c_proc c with None => m_code m | Some p => <[p := r]> (m_code m) end |}.

Lemma moved_other i c c' r f m q : c_proc c <> Some q -> code_at (moved i c c' r f m) q = code_at m q.
Proof. intros Hq. unfold code_at, moved. cbn. destruct (c_proc c) as [p|]; [|done]. rewrite list_lookup_insert_ne; congruence. Qed.

Lemma moved_same i c c' r f m p : c_proc c = Some p -> (p < length (m_code m))%nat -> code_at (moved i c c' r f m) p = r.
Proof. intros Hp Hlt. unfold code_at, moved. cbn. by rewrite Hp, list_lookup_insert_eq. Qed.

(** A processor changes, and keeps its process. *)
Lemma insert_proc (l : list pcpu) i c c' j d : l !! i = Some c -> c_proc c' = c_proc c -> <[i := c']> l !! j = Some d ->
  exists d', l !! j = Some d' /\ c_proc d' = c_proc d.
Proof.
  intros Hc Hp Hd. destruct (decide (j = i)) as [->|Hj].
  - rewrite list_lookup_insert_eq in Hd by (by eapply lookup_lt_Some). injection Hd as <-. by exists c.
  - rewrite list_lookup_insert_ne in Hd by done. by exists d.
Qed.

Lemma inv_moved m i c cli r f h : sched_inv m -> m_cpus m !! i = Some c ->
  (forall l j, j <> i -> f l = taken j <-> m_locks m l = taken j) -> (forall l, f l = Spinlock.initlock \/ exists j, f l = taken j) ->
  NoDup h -> (forall l, l ∈ h <-> f l = taken i) -> Spinlock.cpu_ok cli -> Spinlock.ncli cli = Z.of_nat (length h) + spinning r ->
  safe_now (is_sched c) h r -> owns_ok m c r ->
  sched_inv (advance i c cli r {| m_k := m_k m; m_locks := f; m_cpus := m_cpus m; m_code := m_code m |}).
Proof.
  intros I Hc Hf Hfl Hh Hheld Hcli Hn Hs Ho. pose proof (lookup_lt_Some _ _ _ Hc) as Hlt. destruct (si_cpu m I i c Hc) as [h0 Hi].
  set (c' := {| c_cli := cli; c_proc := c_proc c; c_code := match c_proc c with None => r | _ => c_code c end; c_panic := None |}).
  replace (advance _ _ _ _ _) with (moved i c c' r f m)
    by (unfold advance, moved, c'; by destruct (c_proc c)).
  pose proof (moved_other i c c' r f m) as Hat.
  assert (Hme : forall p, c_proc c = Some p -> code_at (moved i c c' r f m) p = r).
  { intros p Hp. apply moved_same; [done|]. rewrite (si_codes m I). eapply (has_state_lt m), (ci_run _ _ _ _ Hi p Hp). done. }
  pose proof (fun j d => insert_proc (m_cpus m) i c c' j d Hc eq_refl) as Hcp.
  assert (Hrun : forall p, c_proc c = Some p -> has_state m p (eq RUNNING)) by apply (ci_run _ _ _ _ Hi).
  split.
  - done.
  - intros j d Hd. cbn in Hd. destruct (decide (j = i)) as [->|Hj].
    + rewrite list_lookup_insert_eq in Hd by done. injection Hd as <-. exists h. split; try done.
      * intros p Hp. cbn in Hp. cbn [c' c_code]. rewrite Hp. by apply (ci_back _ _ _ _ Hi p).
      * intros _. replace (current _ c') with r; [done|]. unfold current. cbn [c' c_proc c_code].
        destruct (c_proc c) as [p|] eqn:Hp; [|done]. symmetry. by apply Hme.
    + rewrite list_lookup_insert_ne in Hd by done. destruct (si_cpu m I j d Hd) as [hd [J1 J2 J3 J4 J5 J6 J7]]. exists hd. split; try done.
      * intros l. cbn. rewrite J2. symmetry. by apply Hf.
      * intros Hnp. replace (current _ d) with (current m d); [by apply J7|]. unfold current. destruct (c_proc d) as [q|] eqn:Hq; [|done].
        symmetry. apply Hat. intros Hp. apply Hj. by eapply (si_one m I j i d c q).
  - intros j j' d d' p (e & He & E1)%Hcp (e' & He' & E2)%Hcp Hd Hd'. eapply (si_one m I j j' e e' p); congruence.
  - intros p Hp. destruct (si_run m I p Hp) as (j & d & Hd & E). destruct (decide (j = i)) as [->|Hj].
    + exists i, c'. cbn. rewrite list_lookup_insert_eq by done. split; [done|]. cbn. congruence.
    + exists j, d. cbn. by rewrite list_lookup_insert_ne.
  - apply (si_len m I).
  - cbn. destruct (c_proc c); rewrite ?length_insert; apply (si_codes m I).
  - intros p Hp. rewrite Hat; [by apply (si_wait m I)|]. intros Hcp'. destruct Hp as (x & Hx & Hw), (Hrun p Hcp') as (y & Hy & Hr).
    cbn in Hx. simplify_eq. destruct Hw as [E|[E|E]]; congruence.
  - intros p Hp. rewrite Hat; [by apply (si_new m I)|]. intros Hcp'. destruct Hp as (x & Hx & Hw), (Hrun p Hcp') as (y & Hy & Hr).
    cbn in Hx. simplify_eq. congruence.
  - intros p Hp. destruct (decide (c_proc c = Some p)) as [E|E]; [|rewrite Hat by done; by apply (si_owns m I)].
    rewrite Hme by done. unfold owns_ok in Ho. rewrite E in Ho. split; [apply Ho|]. intros np Hnp. by apply Ho.
  - intros p q np Hp Hq. unfold owns_ok in Ho.
    destruct (decide (c_proc c = Some p)) as [E|E], (decide (c_proc c = Some q)) as [E'|E']; [congruence|..].
    + rewrite Hme, Hat by done. rewrite E in Ho. intros H1 H2. destruct Ho as [_ Ho]. destruct (Ho np H1) as [_ Ho']. 
      destruct (decide (q = p)) as [->|Hqp]; [done|]. by destruct (Ho' q Hqp Hq).
    + rewrite Hat, Hme by done. rewrite E' in Ho. intros H1 H2. destruct Ho as [_ Ho]. destruct (Ho np H2) as [_ Ho']. 
      destruct (decide (p = q)) as [->|Hqp]; [done|]. by destruct (Ho' p Hqp Hp).
    + rewrite !Hat by done. by apply (si_apart m I).
Qed.

(** *** The table changes, and no process starts or stops running *)

Definition tabled (k : kst) (codes : list (list instr)) (m : smach) : smach :=
  {| m_k := k; m_locks := m_locks m; m_cpus := m_cpus m; m_code := codes |}.

Lemma inv_tabled m k codes (m' := tabled k codes m) : sched_inv m -> length (procs k) = NPROC -> length codes = NPROC ->
  (forall p, has_state m' p (eq RUNNING) <-> has_state m p (eq RUNNING)) ->
  (forall p, has_state m p (eq RUNNING) -> code_at m' p = code_at m p) ->
  (forall p, has_state m' p waiting -> safe false [ptable] (code_at m' p)) ->
  (forall p, has_state m' p (eq EMBRYO) -> owns (code_at m' p) = []) ->
  (forall p, has_state m' p active -> has_state m p active /\ code_at m' p = code_at m p \/ owns (code_at m' p) = []) ->
  (forall p np, has_state m' p active -> np ∈ owns (code_at m' p) -> has_state m np (eq EMBRYO) -> has_state m' np (eq EMBRYO)) ->
  sched_inv m'.
Proof.
  intros I Hlen Hclen Hrun Hrc Hw He Ha Ho. split; try done.
  - apply (si_lock m I).
  - intros i c Hc. destruct (si_cpu m I i c Hc) as [h [J1 J2 J3 J4 J5 J6 J7]]. exists h. split; try done.
    + intros p Hp. by apply Hrun, J4.
    + intros Hp. replace (current m' c) with (current m c); [by apply J7|]. destruct (c_proc c) as [p|] eqn:E.
      * rewrite !(current_some _ c p) by done. symmetry. by apply Hrc, J4.
      * unfold current. by rewrite E.
  - apply (si_one m I).
  - intros p Hp. by apply (si_run m I), Hrun.
  - intros p Hp. destruct (Ha p Hp) as [[Hp' E]|E]; [|rewrite E; split; [constructor|set_solver]].
    destruct (si_owns m I p Hp') as [Hn Hnp]. rewrite E. split; [done|]. intros np Hin. eapply Ho; [done|by rewrite E|by apply Hnp].
  - intros p q np Hp Hq H1 H2. destruct (Ha p Hp) as [[Hp' E]|E]; [|rewrite E in H1; set_solver].
    destruct (Ha q Hq) as [[Hq' E']|E']; [|rewrite E' in H2; set_solver]. rewrite E in H1. rewrite E' in H2. by eapply (si_apart m I).
Qed.

Lemma tame_back m k p P (Q : procstate -> Prop) : tame (m_k m) k -> has_state (with_k k m) p P ->
  (forall a b, tame1 a b -> P b -> Q a) -> has_state m p Q.
Proof.
  intros C (y & Hy & Py) H. cbn in Hy. destruct (Forall2_lookup_r _ _ _ _ _ C Hy) as (x & Hx & Hxy). exists x. split; [done|]. by eapply H.
Qed.

Lemma tame_forth m k p P (Q : procstate -> Prop) : tame (m_k m) k -> has_state m p P ->
  (forall a b, tame1 a b -> P a -> Q b) -> has_state (with_k k m) p Q.
Proof.
  intros C (x & Hx & Px) H. destruct (Forall2_lookup_l _ _ _ _ _ C Hx) as (y & Hy & Hxy). exists y. split; [done|]. by eapply H.
Qed.

Lemma inv_tame m k : sched_inv m -> tame (m_k m) k -> sched_inv (with_k k m).
Proof.
  intros I C. apply (inv_tabled m k (m_code m)); try done.
  - rewrite (tame_length _ _ C). apply (si_len m I).
  - apply (si_codes m I).
  - intros p. split; intros H; [eapply tame_back|eapply tame_forth]; try done; unfold tame1; naive_solver congruence.
  - intros p Hp. apply (si_wait m I). eapply tame_back; [done..|]. unfold tame1, waiting. naive_solver congruence.
  - intros p Hp. apply (si_new m I). eapply tame_back; [done..|]. unfold tame1. naive_solver congruence.
  - intros p Hp. left. split; [|done]. eapply tame_back; [done..|]. unfold tame1, active. naive_solver congruence.
  - intros p np _ _ H. eapply tame_forth; [done..|]. unfold tame1. naive_solver congruence.
Qed.

(** One entry changes. *)
Definition changed (np : nat) (y : proc) (m : smach) (k : kst) : Prop := procs k = <[np := y]> (procs (m_k m)).

Lemma changed_other m k codes np y p P : changed np y m k -> p <> np -> has_state (tabled k codes m) p P <-> has_state m p P.
Proof. intros C Hp. unfold has_state. cbn. rewrite C, list_lookup_insert_ne by done. done. Qed.

Lemma changed_same m k codes np x y P : changed np y m k -> procs (m_k m) !! np = Some x -> has_state (tabled k codes m) np P <-> P (p_state y).
Proof.
  intros C Hx. unfold has_state. cbn. rewrite C, list_lookup_insert_eq by (by eapply lookup_lt_Some). split.
  - by intros (? & [= <-] & ?).
  - intros H. by exists y.
Qed.

Lemma changed_was m np x P : procs (m_k m) !! np = Some x -> has_state m np P <-> P (p_state x).
Proof. intros Hx. unfold has_state. rewrite Hx. split; [by intros (? & [= <-] & ?)|]. intros H. by exists x. Qed.

(** [fork] starts a slot of its own or gives it back. *)
Lemma inv_settle m k np x y : sched_inv m -> procs (m_k m) !! np = Some x -> p_state x = EMBRYO -> changed np y m k ->
  p_state y = RUNNABLE \/ p_state y = UNUSED -> (forall q, has_state m q active -> np ∉ owns (code_at m q)) -> sched_inv (with_k k m).
Proof.
  intros I Hx Hs C Hy Hno. pose proof (fun codes p P => changed_other m k codes np y p P C) as Oth.
  pose proof (fun codes P => changed_same m k codes np x y P C Hx) as Same. pose proof (fun P => changed_was m np x P Hx) as Was.
  assert (He : has_state m np (eq EMBRYO)) by (by apply Was).
  apply (inv_tabled m k (m_code m)); try done.
  - rewrite C, length_insert. apply (si_len m I).
  - apply (si_codes m I).
  - intros p. destruct (decide (p = np)) as [->|Hp]; [|by apply Oth]. rewrite Same, Was, Hs. destruct Hy as [->| ->]; done.
  - intros p. destruct (decide (p = np)) as [->|Hp]; [|rewrite Oth by done; apply (si_wait m I)].
    intros _. apply (si_wait m I). apply Was. rewrite Hs. by left.
  - intros p. destruct (decide (p = np)) as [->|Hp]; [|rewrite Oth by done; apply (si_new m I)]. intros _. by apply (si_new m I).
  - intros p. destruct (decide (p = np)) as [->|Hp]; [intros _; right; by apply (si_new m I)|]. rewrite Oth by done. by left.
  - intros p q Hp Hq Hqe. destruct (decide (q = np)) as [->|Hqn]; [|by apply Oth]. exfalso. destruct (decide (p = np)) as [->|Hpn].
    + change (np ∈ owns (code_at m np)) in Hq. rewrite (si_new m I np He) in Hq. set_solver.
    + rewrite Oth in Hp by done. by eapply Hno.
Qed.

(** [allocproc] takes a slot. *)
Lemma inv_claimed m k np x y : sched_inv m -> procs (m_k m) !! np = Some x -> p_state x = UNUSED -> changed np y m k -> p_state y = EMBRYO ->
  sched_inv (tabled k (<[np := forkret_code]> (m_code m)) m).
Proof.
  intros I Hx Hs C Hy. pose proof (fun codes p P => changed_other m k codes np y p P C) as Oth.
  pose proof (fun codes P => changed_same m k codes np x y P C Hx) as Same. pose proof (fun P => changed_was m np x P Hx) as Was.
  assert (Hlt : (np < NPROC)%nat) by (rewrite <- (si_len m I); by eapply lookup_lt_Some).
  set (codes := <[np := forkret_code]> (m_code m)).
  assert (Hne : forall p, p <> np -> code_at (tabled k codes m) p = code_at m p)
    by (intros p Hp; unfold code_at, codes; cbn; by rewrite list_lookup_insert_ne).
  assert (Heq : code_at (tabled k codes m) np = forkret_code)
    by (unfold code_at, codes; cbn; rewrite list_lookup_insert_eq; [done|by rewrite (si_codes m I)]).
  apply inv_tabled; try done.
  - rewrite C, length_insert. apply (si_len m I).
  - unfold codes. rewrite length_insert. apply (si_codes m I).
  - intros p. destruct (decide (p = np)) as [->|Hp]; [|by apply Oth]. rewrite Same, Was, Hs, Hy. done.
  - intros p Hp. apply Hne. intros ->. apply Was in Hp. congruence.
  - intros p. destruct (decide (p = np)) as [->|Hp]; [|rewrite Oth, Hne by done; apply (si_wait m I)].
    intros _. rewrite Heq. cbn. split; [set_solver|done].
  - intros p. destruct (decide (p = np)) as [->|Hp]; [by rewrite Heq|rewrite Oth, Hne by done; apply (si_new m I)].
  - intros p. destruct (decide (p = np)) as [->|Hp]; [rewrite Heq; by right|]. rewrite Oth, Hne by done. by left.
  - intros p q Hp Hq Hqe. destruct (decide (q = np)) as [->|Hqn]; [|by apply Oth]. by apply Same.
Qed.

(** *** A processor takes up or gives up a process *)

Definition switched (i : nat) (c' : pcpu) (k : kst) (codes : list (list instr)) (m : smach) : smach :=
  {| m_k := k; m_locks := m_locks m; m_cpus := <[i := c']> (m_cpus m); m_code := codes |}.

Definition takes_up (c c' : pcpu) (p : nat) (x y : proc) : Prop :=
  c_proc c = None /\ c_proc c' = Some p /\ p_state x = RUNNABLE /\ p_state y = RUNNING.
Definition gives_up (c c' : pcpu) (p : nat) (x y : proc) : Prop :=
  c_proc c = Some p /\ c_proc c' = None /\ p_state x = RUNNING /\ (waiting (p_state y) /\ p_state y <> EMBRYO \/ p_state y = ZOMBIE).

Lemma switch_states c c' p x y : takes_up c c' p x y \/ gives_up c c' p x y ->
  p_state x <> EMBRYO /\ p_state y <> EMBRYO /\ active (p_state x).
Proof. unfold takes_up, gives_up, active, waiting. intuition congruence. Qed.

(** No other processor has the process. *)
Lemma switch_alone m i c c' p x y j d : sched_inv m -> m_cpus m !! i = Some c -> procs (m_k m) !! p = Some x ->
  takes_up c c' p x y \/ gives_up c c' p x y -> j <> i -> m_cpus m !! j = Some d -> c_proc d <> Some p.
Proof.
  intros I Hc Hx [(E1 & E2 & Hn & _)|(E1 & _)] Hj Hd E; [|apply Hj; by eapply (si_one m I j i d c p)].
  destruct (si_cpu m I j d Hd) as [hd Hh]. destruct (ci_run _ _ _ _ Hh p E) as (z & Hz & Hr). congruence.
Qed.

Lemma inv_switched m i c c' p x y k codes h (m' := switched i c' k codes m) : sched_inv m -> m_cpus m !! i = Some c -> procs (m_k m) !! p = Some x ->
  changed p y m k -> takes_up c c' p x y \/ gives_up c c' p x y -> length codes = NPROC ->
  (forall q, q <> p -> code_at m' q = code_at m q) -> owns (code_at m' p) = owns (code_at m p) ->
  (waiting (p_state y) -> safe false [ptable] (code_at m' p)) ->
  cpu_inv m' i c' h -> sched_inv m'.
Proof.
  intros I Hc Hx C Hsw Hclen Hcode Hown Hw Hi. pose proof (lookup_lt_Some _ _ _ Hc) as Hlt.
  pose proof (fun j d => switch_alone m i c c' p x y j d I Hc Hx Hsw) as Alone. destruct (switch_states _ _ _ _ _ Hsw) as (Sx & Sy & Ax).
  assert (Oth : forall q P, q <> p -> has_state m' q P <-> has_state m q P) by (intros q P Hq; by apply (changed_other m k codes p y)).
  assert (Same : forall P, has_state m' p P <-> P (p_state y)) by (intros P; by apply (changed_same m k codes p x)).
  assert (Act : forall q, has_state m' q active -> has_state m q active).
  { intros q. destruct (decide (q = p)) as [->|Hq]; [intros _; by apply (changed_was m p x)|by apply Oth]. }
  assert (Own : forall q, owns (code_at m' q) = owns (code_at m q)) by (intros q; destruct (decide (q = p)) as [->|Hq]; [done|by rewrite Hcode]).
  split; try done.
  - apply (si_lock m I).
  - intros j d Hd. cbn in Hd. destruct (decide (j = i)) as [->|Hj].
    + rewrite list_lookup_insert_eq in Hd by done. injection Hd as <-. by exists h.
    + rewrite list_lookup_insert_ne in Hd by done. destruct (si_cpu m I j d Hd) as [hd [J1 J2 J3 J4 J5 J6 J7]]. pose proof (Alone j d Hj Hd) as Hdp.
      exists hd. split; try done.
      * intros q Hq. apply Oth; [congruence|by apply J4].
      * intros Hp. replace (current m' d) with (current m d); [by apply J7|]. unfold current. destruct (c_proc d) as [q|] eqn:Hq; [|done].
        symmetry. apply Hcode. congruence.
  - intros j j' d d' q Hd Hd' Ed Ed'. cbn in Hd, Hd'.
    assert (Hx' : c_proc c' = Some q -> q = p) by (destruct Hsw as [(_ & E & _)|(_ & E & _)]; congruence).
    destruct (decide (j = i)) as [->|Hj], (decide (j' = i)) as [->|Hj']; [done|..].
    + rewrite list_lookup_insert_eq in Hd by done. rewrite list_lookup_insert_ne in Hd' by done. injection Hd as <-.
      destruct (Alone j' d' Hj' Hd'). by rewrite Ed', (Hx' Ed).
    + rewrite list_lookup_insert_eq in Hd' by done. rewrite list_lookup_insert_ne in Hd by done. injection Hd' as <-.
      destruct (Alone j d Hj Hd). by rewrite Ed, (Hx' Ed').
    + rewrite list_lookup_insert_ne in Hd, Hd' by done. by eapply (si_one m I j j' d d' q).
  - intros q. destruct (decide (q = p)) as [->|Hq].
    + rewrite Same. intros Hr. exists i, c'. cbn. rewrite list_lookup_insert_eq by done. split; [done|].
      destruct Hsw as [(_ & E & _)|(_ & _ & _ & [[Hy _]|Hy])]; [done| |congruence]. unfold waiting in Hy. intuition congruence.
    + rewrite Oth by done. intros Hr. destruct (si_run m I q Hr) as (j & d & Hd & E). exists j, d. cbn. split; [|done].
      rewrite list_lookup_insert_ne; [done|]. intros ->. rewrite Hc in Hd. injection Hd as <-. destruct Hsw as [(E1 & _)|(E1 & _)]; congruence.
  - cbn. rewrite C, length_insert. apply (si_len m I).
  - intros q. destruct (decide (q = p)) as [->|Hq]; [by rewrite Same|]. rewrite Oth, Hcode by done. apply (si_wait m I).
  - intros q. rewrite Own. destruct (decide (q = p)) as [->|Hq]; [rewrite Same; congruence|]. rewrite Oth by done. apply (si_new m I).
  - intros q Hq. rewrite Own. destruct (si_owns m I q (Act q Hq)) as [Hn He]. split; [done|]. intros np Hnp.
    specialize (He np Hnp). apply Oth; [|done]. intros ->. apply (changed_was m p x) in He; [|done]. congruence.
  - intros q q' np Hq Hq'. rewrite !Own. apply (si_apart m I); by apply Act.
Qed.

Lemma inv_scan m i c k r h : sched_inv m -> m_cpus m !! i = Some c -> c_panic c = None -> current m c = Scan k :: r -> cpu_inv m i c h ->
  sched_inv (scan i c k m).
Proof.
  intros I Hc Hn Hr Hi. destruct (ci_code _ _ _ _ Hi Hn) as [Hcli Hs]. rewrite Hr in Hcli, Hs. cbn [safe_now safe spinning] in Hcli, Hs.
  destruct Hs as (Hb & -> & Hk & ->). assert (Hp : c_proc c = None) by (unfold is_sched in Hb; by destruct (c_proc c)).
  assert (Hm : forall r', safe true [ptable] r' -> sched_inv (advance i c (c_cli c) r' m)).
  { intros r' [Hsp Hs]%safe_spin. apply (inv_moved m i c (c_cli c) r' (m_locks m) [ptable]); try done; try apply Hi; [apply (si_lock m I)|lia|by rewrite Hb|].
    unfold owns_ok. by rewrite Hp. }
  unfold scan. destruct (NPROC <=? k)%nat eqn:Ek.
  { apply Hm. cbn. split; [set_solver|]. split; [done|]. split; [set_solver|]. split; [done|]. split; [done|]. split; [lia|done]. }
  apply Nat.leb_gt in Ek. destruct (lookup_lt_is_Some_2 (procs (m_k m)) k) as [x Hx]; [by rewrite (si_len m I)|]. rewrite Hx.
  destruct (in_state RUNNABLE x) eqn:Es; [|apply Hm; cbn; split; [done|]; split; [done|]; split; [lia|done]]. apply in_state_true in Es.
  assert (Hw : has_state m k waiting) by (exists x; rewrite Es; split; [done|]; right; by left).
  destruct (safe_spin _ _ _ (si_wait m I k Hw)) as [Hsp Hsafe].
  eapply (inv_switched m i c _ k x _ _ (m_code m) [ptable]); try done; [by left|apply (si_codes m I)|by intros _; apply (si_wait m I)|].
  split; try done; cbn [c_proc c_cli c_code c_panic]; try apply Hi.
  - intros ? [= <-]. exists (set_state RUNNING x). cbn. rewrite list_lookup_insert_eq by (by eapply lookup_lt_Some). done.
  - intros ? _. exists (S k). split; [lia|done].
  - intros _. erewrite (current_some _ _ k) by done. split; [|exact Hsafe]. rewrite Hcli. f_equal. symmetry. exact Hsp.
Qed.

Definition leave_state (v : leave) : procstate := match v with Yield => RUNNABLE | Sleep _ => SLEEPING | Exit => ZOMBIE end.

Lemma leave_ret p v k x : procs k !! p = Some x ->
  exists k' y, do_leave p v k = Ret tt k' /\ procs k' = <[p := y]> (procs k) /\ p_state y = leave_state v.
Proof.
  intros Hx. destruct v; cbn [do_leave]; unfold yield, sleep; rewrite (setp_eq _ p x) by done; eexists _, _; (split; [done|]; split; done).
Qed.

Lemma inv_depart m i c p v r h : sched_inv m -> m_cpus m !! i = Some c -> c_panic c = None -> c_proc c = Some p ->
  current m c = Leave v :: r -> cpu_inv m i c h -> sched_inv (depart i c p v r m).
Proof.
  intros I Hc Hn Hp Hr Hi. destruct (ci_code _ _ _ _ Hi Hn) as [Hcli Hs]. rewrite Hr in Hcli, Hs. cbn [safe_now safe spinning] in Hcli, Hs.
  destruct Hs as (_ & -> & Hs). destruct (ci_run _ _ _ _ Hi p Hp) as (x & Hx & Hst). unfold is_sched in Hs. rewrite Hp in Hs.
  destruct (leave_ret p v (m_k m) x Hx) as (k' & y & E & Hk' & Hy). unfold depart. rewrite E.
  assert (Hlt : (p < length (procs (m_k m)))%nat) by (by eapply lookup_lt_Some).
  rewrite Hk', list_lookup_insert_eq by done.
  assert (Hl : m_locks m ptable = taken i) by (apply (ci_held _ _ _ _ Hi); set_solver). rewrite Hl.
  destruct (sched_taken i (c_cli c) (p_state y)) as (cli & Es & Hok & Hd); [apply Hi|rewrite Hcli; done|rewrite Hy; by destruct v|]. rewrite Es.
  set (codes := <[p := Intena (Spinlock.intena cli) :: r]> (m_code m)).
  assert (Hcp : code_at (switched i {| c_cli := cli; c_proc := None; c_code := c_code c; c_panic := None |} k' codes m) p = Intena (Spinlock.intena cli) :: r).
  { unfold code_at, codes. cbn. rewrite list_lookup_insert_eq; [done|]. rewrite (si_codes m I), <- (si_len m I). done. }
  eapply (inv_switched m i c _ p x y k' codes [ptable]); try done.
  - right. split; [done|]. split; [done|]. split; [done|]. rewrite Hy. unfold waiting. destruct v; cbn; [left|left|by right]; split; tauto || done.
  - unfold codes. rewrite length_insert. apply (si_codes m I).
  - intros q Hq. unfold code_at, codes. cbn. by rewrite list_lookup_insert_ne.
  - rewrite Hcp, <- (current_some m c p Hp), Hr. done.
  - rewrite Hcp, Hy. intros Hw. cbn. apply Hs. intros ->. unfold waiting in Hw. cbn in Hw. intuition congruence.
  - destruct (ci_back _ _ _ _ Hi p Hp) as (n & Hnk & Ec). split; try done; cbn [c_proc c_cli c_code c_panic]; try apply Hi.
    intros _. unfold current, is_sched. cbn [c_proc c_code]. rewrite Ec. split; [by rewrite Hd|]. cbn. done.
Qed.

(** *** Every step keeps the invariant *)

(** The thread goes on with the locks it has. *)
Lemma inv_go m i c cli r h : sched_inv m -> m_cpus m !! i = Some c -> cpu_inv m i c h -> Spinlock.cpu_ok cli -> Spinlock.ncli cli = Z.of_nat (length h) ->
  safe (is_sched c) h r -> owns_ok m c r -> sched_inv (advance i c cli r m).
Proof.
  intros I Hc Hi Hok Hn [Hsp Hs]%safe_spin Ho.
  apply (inv_moved m i c cli r (m_locks m) h); try done; try apply Hi; [apply (si_lock m I)|]. rewrite Hsp. lia.
Qed.

Lemma inv_table_op m i c op h : sched_inv m -> m_cpus m !! i = Some c -> cpu_inv m i c h -> Spinlock.ncli (c_cli c) = Z.of_nat (length h) ->
  quietly (op (m_k m)) (m_k m) (fun r => safe (is_sched c) h r /\ sublist (owns r) (owns (current m c))) -> sched_inv (table_op i c op m).
Proof.
  intros I Hc Hi Hn (r & k & E & C & Hs & Ho). unfold table_op. rewrite E. pose proof (inv_tame m k I C) as I'.
  eapply (inv_go (with_k k m)); try done; [|apply Hi|by eapply owns_ok_sub].
  destruct Hi as [J1 J2 J3 J4 J5 J6 J7]. split; try done. intros p Hp. eapply tame_forth; [done|by apply J4|].
  unfold tame1. naive_solver congruence.
Qed.

Lemma quietly_run {A} (op : M kst unit) k (r : A) (P : A -> Prop) : quietly (op k) k (fun _ => True) -> P r -> quietly ((op then! ret r) k) k P.
Proof. intros H Hr. apply quietly_then; [done|]. intros. by apply quietly_ret. Qed.

Lemma inv_acquire m i c l r cli h : sched_inv m -> m_cpus m !! i = Some c -> cpu_inv m i c h -> Spinlock.cpu_ok cli ->
  Spinlock.ncli cli = Z.of_nat (length h) + 1 -> (l ∉ h) -> safe (is_sched c) (l :: h) r -> owns r = owns (current m c) ->
  sched_inv (advance i c cli (Spin l :: r) m).
Proof.
  intros I Hc Hi Hok Hn Hl Hs Ho. apply (inv_moved m i c cli _ (m_locks m) h); try done; try apply Hi; [apply (si_lock m I)|].
  eapply owns_ok_sub; [done..|]. cbn. by fold (owns r); rewrite Ho.
Qed.

Lemma set_lock_eq l x f : set_lock l x f l = x.
Proof. unfold set_lock. by rewrite Nat.eqb_refl. Qed.

Lemma set_lock_ne l x f q : q <> l -> set_lock l x f q = f q.
Proof. intros H. unfold set_lock. by rewrite (proj2 (Nat.eqb_neq q l)). Qed.

Lemma inv_taken m i c l r h : sched_inv m -> m_cpus m !! i = Some c -> cpu_inv m i c h -> c_panic c = None -> current m c = Spin l :: r ->
  Spinlock.locked (m_locks m l) = 0 -> sched_inv (advance i c (c_cli c) r (with_lock l (taken i) m)).
Proof.
  intros I Hc Hi Hn Hr Hl. destruct (ci_code _ _ _ _ Hi Hn) as [Hcli Hs]. rewrite Hr in Hcli, Hs. cbn [safe_now spinning] in Hcli, Hs.
  destruct Hs as [Hlh Hs]. apply safe_spin in Hs as [Hsp Hs]. assert (Hfree : m_locks m l = Spinlock.initlock).
  { destruct (si_lock m I l) as [->|[j E]]; [done|]. by rewrite E in Hl. }
  apply (inv_moved m i c (c_cli c) r _ (l :: h)); try done.
  - intros q j Hj. destruct (decide (q = l)) as [->|Hq]; [|by rewrite set_lock_ne]. rewrite set_lock_eq, Hfree. unfold taken, Spinlock.initlock. naive_solver congruence.
  - intros q. destruct (decide (q = l)) as [->|Hq]; [rewrite set_lock_eq; right; by exists i|]. rewrite set_lock_ne by done. apply (si_lock m I).
  - apply list.NoDup_cons. split; [done|apply Hi].
  - intros q. rewrite elem_of_cons. destruct (decide (q = l)) as [->|Hq]; [rewrite set_lock_eq; tauto|].
    rewrite set_lock_ne, <- (ci_held _ _ _ _ Hi) by done. tauto.
  - apply Hi.
  - rewrite Hsp, Hcli. cbn [length]. lia.
  - eapply owns_ok_sub; [done..|]. rewrite Hr. done.
Qed.

Lemma inv_released m i c l r h : sched_inv m -> m_cpus m !! i = Some c -> cpu_inv m i c h -> c_panic c = None -> current m c = Rel l :: r ->
  exists cli, release i (m_locks m l) (c_cli c) = inl (Spinlock.initlock, cli) /\ sched_inv (advance i c cli r (with_lock l Spinlock.initlock m)).
Proof.
  intros I Hc Hi Hn Hr. destruct (ci_code _ _ _ _ Hi Hn) as [Hcli Hs]. rewrite Hr in Hcli, Hs. cbn [safe_now safe spinning] in Hcli, Hs.
  destruct Hs as [Hlh Hs]. apply safe_spin in Hs as [Hsp Hs]. pose proof (proj1 (ci_held _ _ _ _ Hi l) Hlh) as Hl. rewrite Hl.
  pose proof (drop_length l h (ci_nodup _ _ _ _ Hi) Hlh) as Hlen.
  destruct (release_taken i (c_cli c)) as (cli & E & Hok & Hd); [apply Hi|lia|]. exists cli. split; [done|].
  apply (inv_moved m i c cli r _ (drop_lock l h)); try done.
  - intros q j Hj. destruct (decide (q = l)) as [->|Hq]; [|by rewrite set_lock_ne]. rewrite set_lock_eq, Hl. unfold taken, Spinlock.initlock. naive_solver congruence.
  - intros q. destruct (decide (q = l)) as [->|Hq]; [rewrite set_lock_eq; by left|]. rewrite set_lock_ne by done. apply (si_lock m I).
  - apply list.NoDup_filter, Hi.
  - intros q. unfold drop_lock. rewrite list_elem_of_filter. destruct (decide (q = l)) as [->|Hq].
    + rewrite set_lock_eq. unfold taken, Spinlock.initlock. naive_solver congruence.
    + rewrite set_lock_ne, <- (ci_held _ _ _ _ Hi) by done. tauto.
  - rewrite Hsp, Hd, Hcli. lia.
  - eapply owns_ok_sub; [done..|]. rewrite Hr. done.
Qed.

Lemma inv_panic m i c p : sched_inv m -> m_cpus m !! i = Some c -> c_proc c = Some p -> sched_inv (panic_at i c "init exiting" m).
Proof.
  intros I Hc Hp. pose proof (lookup_lt_Some _ _ _ Hc) as Hlt. destruct (si_cpu m I i c Hc) as [h [J1 J2 J3 J4 J5 J6 J7]].
  pose proof (fun j d => insert_proc (m_cpus m) i c {| c_cli := c_cli c; c_proc := c_proc c; c_code := c_code c; c_panic := Some "init exiting"%string |} j d Hc eq_refl) as Hcp.
  split; try apply I.
  - intros j d Hd. cbn in Hd. destruct (decide (j = i)) as [->|Hj].
    2: { rewrite list_lookup_insert_ne in Hd by done. destruct (si_cpu m I j d Hd) as [hd []]. by exists hd. }
    rewrite list_lookup_insert_eq in Hd by done. injection Hd as <-. exists h. split; try done. by intros ? [= <-].
  - intros j j' d d' q (e & He & E1)%Hcp (e' & He' & E2)%Hcp Hd Hd'. eapply (si_one m I j j' e e' q); congruence.
  - intros q Hq. destruct (si_run m I q Hq) as (j & d & Hd & E). destruct (decide (j = i)) as [->|Hj].
    + eexists i, _. cbn. rewrite list_lookup_insert_eq by done. split; [done|]. cbn. congruence.
    + exists j, d. cbn. by rewrite list_lookup_insert_ne.
Qed.

Lemma claim_spec k : (exists np x, procs k !! np = Some x /\ p_state x = UNUSED /\ exists y k', p_state y = EMBRYO /\ claim k = Ret (Some np) k' /\
    procs k' = <[np := y]> (procs k)) \/ claim k = Ret None k.
Proof.
  unfold claim. rewrite bind_gets. destruct (first_slot _ _ _) as [np|] eqn:Ef; [left|by right].
  apply first_slot_some in Ef as (j & x & -> & Hx & Hu%in_state_true). cbn [Nat.add] in *. exists j, x. split; [done|]. split; [done|].
  rewrite bind_gets, (setp_bind _ _ x) by done. eexists (set_pid (nextpid k) (set_state EMBRYO x)), _. done.
Qed.

Lemma safe_fork_rest kok cok np r : (np < NPROC)%nat -> safe false [] r -> safe false [] (fork_rest kok cok np ++ r).
Proof.
  intros Hnp Hr. unfold fork_rest. destruct kok; [destruct cok|]; cbn; [|done..]. split; [done|]. split; [done|]. split; [set_solver|].
  split; [done|]. split; [set_solver|]. done.
Qed.

Lemma owns_fork_rest kok cok np r : owns (fork_rest kok cok np ++ r) = np :: owns r.
Proof. rewrite owns_app. unfold fork_rest. by destruct kok; [destruct cok|]. Qed.

Lemma inv_new_process m i c p kok cok r h : sched_inv m -> m_cpus m !! i = Some c -> cpu_inv m i c h -> c_panic c = None -> c_proc c = Some p ->
  current m c = Claim kok cok :: r -> sched_inv (new_process kok cok r i c m).
Proof.
  intros I Hc Hi Hn Hp Hr. destruct (ci_code _ _ _ _ Hi Hn) as [Hcli Hs]. rewrite Hr in Hcli, Hs. cbn [safe_now safe spinning] in Hcli, Hs.
  destruct Hs as (Hb & -> & Hs). pose proof (ci_run _ _ _ _ Hi p Hp) as Hrun.
  assert (Hrel : forall r', safe (is_sched c) [] r' -> safe (is_sched c) [ptable] (Rel ptable :: r'))
    by (intros r' H; cbn [safe]; rewrite drop_alone; split; [set_solver|done]).
  unfold new_process. destruct (claim_spec (m_k m)) as [(np & x & Hx & Hu & y & k' & Hy & -> & Hk)| ->].
  - pose proof (inv_claimed m k' np x y I Hx Hu Hk Hy) as I1. set (m1 := tabled k' _ m) in I1.
    assert (Hlt : (np < NPROC)%nat) by (rewrite <- (si_len m I); by eapply lookup_lt_Some).
    assert (Hne : p <> np) by (intros ->; apply (changed_was m np x) in Hrun; [congruence|done]).
    assert (Hat : forall q, q <> np -> code_at m1 q = code_at m q) by (intros q Hq; unfold code_at; cbn; by rewrite list_lookup_insert_ne).
    assert (Hi1 : cpu_inv m1 i c [ptable]).
    { destruct Hi as [J1 J2 J3 J4 J5 J6 J7]. split; try done.
      - intros q Hq. assert (q = p) as -> by congruence. by apply (changed_other m k' _ np y).
      - intros _. rewrite (current_some m1 c p), (Hat p), <- (current_some m c p) by done. by apply J7. }
    assert (Hown : forall q, has_state m q active -> np ∉ owns (code_at m q)).
    { intros q Hq Hin. destruct (si_owns m I q Hq) as [_ He]. apply He in Hin. apply (changed_was m np x) in Hin; [congruence|done]. }
    destruct (si_owns m I p (running_active m p Hrun)) as [Hnd He]. rewrite <- (current_some m c p Hp), Hr in Hnd, He. cbn in Hnd, He. fold (owns r) in Hnd, He.
    assert (Hr' : owns r = owns (code_at m p)) by (rewrite <- (current_some m c p Hp), Hr; done).
    apply (inv_go m1 i c _ _ [ptable]); [done|done|done|apply Hi|by rewrite Hcli| |].
    + apply Hrel. rewrite Hb. apply safe_fork_rest; [done|]. by rewrite <- Hb.
    + unfold owns_ok. rewrite Hp. change (owns (Rel ptable :: fork_rest kok cok np ++ r)) with (owns (fork_rest kok cok np ++ r)). rewrite owns_fork_rest.
      assert (Hnp : np ∉ owns r) by (rewrite Hr'; by apply Hown, running_active). split; [by apply list.NoDup_cons|].
      intros n [->|Hin]%elem_of_cons; (split; [|intros q Hq Hqa]).
      * by apply (changed_same m k' _ np x y).
      * destruct (decide (q = np)) as [->|Hqn]; [by rewrite (si_new m1 I1 np) by (by apply (changed_same m k' _ np x y)); set_solver|].
        rewrite Hat by done. apply Hown. by apply (changed_other m k' (<[np := forkret_code]> (m_code m)) np y) in Hqa.
      * apply (changed_other m k' _ np y); [done|by intros ->|by apply He].
      * destruct (decide (q = np)) as [->|Hqn]; [by rewrite (si_new m1 I1 np) by (by apply (changed_same m k' _ np x y)); set_solver|].
        rewrite Hat by done. apply (changed_other m k' (<[np := forkret_code]> (m_code m)) np y) in Hqa; [|done|done]. intros Hin'. destruct Hq.
        symmetry. eapply (si_apart m I p q n); [by apply running_active|done|by rewrite <- Hr'|done].
  - eapply (inv_go (with_k (m_k m) m)); [by destruct m|done|by destruct m|apply Hi|by rewrite Hcli|by apply Hrel|].
    eapply owns_ok_sub; [by destruct m|done|]. replace (current (with_k (m_k m) m) c) with (current m c) by done. by rewrite Hr.
Qed.

Lemma advance_with_k i c cli r k m : advance i c cli r (with_k k m) = with_k k (advance i c cli r m).
Proof. unfold advance. by destruct (c_proc c). Qed.

Lemma advance_k i c cli r m : m_k (advance i c cli r m) = m_k m.
Proof. unfold advance. by destruct (c_proc c). Qed.

Lemma advance_code i c cli r m p : c_proc c = Some p -> (p < length (m_code m))%nat -> code_at (advance i c cli r m) p = r.
Proof. intros Hp Hlt. unfold advance. rewrite Hp. unfold code_at. cbn. by rewrite list_lookup_insert_eq. Qed.

Lemma advance_other i c cli r m p q : c_proc c = Some p -> q <> p -> code_at (advance i c cli r m) q = code_at m q.
Proof. intros Hp Hq. unfold advance. rewrite Hp. unfold code_at. cbn. by rewrite list_lookup_insert_ne. Qed.

(** [Start] and [Discard]. *)
Lemma inv_settle_op m i c p np f r h : sched_inv m -> m_cpus m !! i = Some c -> cpu_inv m i c h -> c_proc c = Some p ->
  Spinlock.ncli (c_cli c) = Z.of_nat (length h) -> safe false h r -> owns (current m c) = np :: owns r ->
  (forall x, p_state (f x) = RUNNABLE \/ p_state (f x) = UNUSED) -> sched_inv (table_op i c (setp np f then! ret r) m).
Proof.
  intros I Hc Hi Hp Hn Hs Ho Hf. pose proof (ci_run _ _ _ _ Hi p Hp) as Hrun. pose proof (running_active m p Hrun) as Ha.
  destruct (si_owns m I p Ha) as [Hnd He]. rewrite <- (current_some m c p Hp), Ho in Hnd, He. apply list.NoDup_cons in Hnd as [Hnp Hnd].
  destruct (He np) as (x & Hx & Hst); [set_solver|]. unfold table_op. rewrite (setp_bind _ _ x) by done. cbn [ret]. rewrite advance_with_k.
  assert (I1 : sched_inv (advance i c (c_cli c) r m)).
  { eapply inv_go; try done; [apply Hi|unfold is_sched; by rewrite Hp|]. eapply owns_ok_sub; [done..|]. rewrite Ho. by apply sublist_cons. }
  assert (Hhas : forall q P, has_state (advance i c (c_cli c) r m) q P <-> has_state m q P) by (intros q P; unfold has_state; by rewrite advance_k).
  eapply (inv_settle _ _ np x (f x)); [done|by rewrite advance_k|done| |done|].
  - unfold changed. by rewrite advance_k.
  - intros q Hq%Hhas. destruct (decide (q = p)) as [->|Hqp].
    + rewrite (advance_code _ _ _ _ _ p); [done|done|]. rewrite (si_codes m I). eapply (has_state_lt m p); [exact I|exact Ha].
    + rewrite (advance_other _ _ _ _ _ p) by done. intros Hin. destruct Hqp. symmetry. eapply (si_apart m I p q np); [done..| |done].
      rewrite <- (current_some m c p Hp), Ho. set_solver.
Qed.

Lemma inv_exec m i m' : sched_inv m -> exec i m = Some m' -> sched_inv m'.
Proof.
  intros I E. unfold exec in E. destruct (m_cpus m !! i) as [c|] eqn:Hc; [|done]. cbn [mbind option_bind] in E.
  destruct (c_panic c) eqn:Hn; [done|].
  destruct (current m c) as [|ins r] eqn:Hr; [done|]. destruct (si_cpu m I i c Hc) as [h Hi].
  destruct (ci_code _ _ _ _ Hi Hn) as [Hcli Hs]. rewrite Hr in Hcli, Hs.
  assert (Hok : Spinlock.cpu_ok (c_cli c)) by apply Hi.
  assert (Hq : forall o : M kst unit, quietly (o (m_k m)) (m_k m) (fun _ => True) -> spinning (ins :: r) = 0 -> safe (is_sched c) h r -> owns (ins :: r) = owns r ->
    sched_inv (table_op i c (o then! ret r) m)).
  { intros o Ho Hsp Hsr Hor. rewrite Hsp in Hcli. eapply inv_table_op; [done..|lia|]. apply quietly_run; [done|]. split; [done|]. rewrite Hr, Hor. done. }
  assert (Hg : forall cli r', Spinlock.cpu_ok cli -> spinning (ins :: r) = 0 -> Spinlock.ncli cli = Spinlock.ncli (c_cli c) -> safe (is_sched c) h r' ->
    owns (ins :: r) = owns r' -> sched_inv (advance i c cli r' m)).
  { intros cli r' Hk Hsp Hkn Hsr Hor. eapply inv_go; try done; [lia|]. eapply owns_ok_sub; [done..|]. rewrite Hr, Hor. done. }
  assert (Hproc : is_sched c = false -> exists p, c_proc c = Some p /\ (p < NPROC)%nat).
  { unfold is_sched. destruct (c_proc c) as [p|] eqn:Hp; [|done]. intros _. exists p. split; [done|]. eapply has_state_lt; [done|]. by apply (ci_run _ _ _ _ Hi). }
  pose proof (si_len m I) as Hlen.
  destruct ins; cbn [safe_now safe] in Hs; cbn beta zeta in E.
  - destruct Hs as [Hl Hs]. destruct (enter_not_mine i (m_locks m l) (c_cli c)) as (cli & E' & Hok' & Hd);
      [by rewrite <- (ci_held _ _ _ _ Hi)|apply (si_lock m I)|done|]. rewrite E' in E. injection E as <-. cbn in Hcli.
    eapply inv_acquire; try done; [lia|]. by rewrite Hr.
  - destruct (Spinlock.locked (m_locks m l) =? 0) eqn:El; [|done]. injection E as <-. apply Z.eqb_eq in El. by eapply inv_taken.
  - destruct (inv_released m i c l r h I Hc Hi Hn Hr) as (cli & E' & I'). rewrite E' in E. by injection E as <-.
  - injection E as <-. destruct Hs as [-> Hs]. cbn in Hcli. apply Hg; try done. split; cbn; lia.
  - injection E as <-. destruct Hs as [-> Hs]. cbn in Hcli. apply Hg; try done. split; cbn; lia.
  - injection E as <-. by eapply inv_scan.
  - injection E as <-. apply Hq; try done. apply quietly_wakeup.
  - injection E as <-. apply Hq; try done. apply quietly_kill.
  - destruct Hs as (Hb & _). destruct (Hproc Hb) as (p & Hp & _). rewrite Hp in E. injection E as <-. by eapply inv_new_process.
  - destruct Hs as (Hb & Hnp & Hs). destruct (Hproc Hb) as (p & Hp & Hlt). rewrite Hp in E. injection E as <-. apply Hq; try done.
    apply quietly_inherit; lia.
  - destruct Hs as (Hb & Hs). destruct (Hproc Hb) as (p & Hp & _). injection E as <-. eapply inv_settle_op; try done; [cbn in Hcli; lia|by rewrite <- Hb|by rewrite Hr|].
    by left.
  - destruct Hs as (Hb & Hs). destruct (Hproc Hb) as (p & Hp & _). injection E as <-. eapply inv_settle_op; try done; [cbn in Hcli; lia|by rewrite <- Hb|by rewrite Hr|].
    by right.
  - destruct Hs as (Hb & -> & Hs). destruct (Hproc Hb) as (p & Hp & Hlt). rewrite Hp in E. injection E as <-. eapply inv_table_op; [done..|cbn in Hcli |- *; lia|].
    destruct (quietly_children p r (m_k m)) as (r' & k' & E' & C & Hr'); [lia|]. exists r', k'. split; [done|]. split; [done|].
    rewrite Hr, Hb in *. destruct Hr' as [->| ->]; (split; [|done]); cbn [safe]; rewrite ?drop_alone; split_and!; try done; set_solver.
  - destruct Hs as (Hb & Hs). destruct (Hproc Hb) as (p & Hp & Hlt). rewrite Hp in E. injection E as <-. apply Hq; try done. by apply quietly_orphans.
  - destruct Hs as (Hb & Hs). destruct (Hproc Hb) as (p & Hp & Hlt). rewrite Hp in E. injection E as <-. case_bool_decide; [by eapply inv_panic|by apply Hg].
  - destruct Hs as (Hb & _). destruct (Hproc Hb) as (p & Hp & _). rewrite Hp in E. injection E as <-. by eapply inv_depart.
  - destruct Hs as (Hb & Hs). destruct (Hproc Hb) as (p & Hp & Hlt). rewrite Hp in E. injection E as <-. apply Hq; try done.
    apply quietly_setp; [lia|by left].
  - injection E as <-. by apply Hg.
  - injection E as <-. destruct Hs as [-> Hs]. destruct (c_proc c) as [p|] eqn:Hp; [|by apply Hg].
    destruct (procs (m_k m) !! p) as [x|]; [destruct (in_state RUNNING x)|]; apply Hg; try done.
    unfold is_sched in *. rewrite Hp in *. by apply safe_yield.
  - done.
Qed.

Lemma sched_inv_step m m' : sched_inv m -> step m m' -> sched_inv m'.
Proof.
  intros I S. destruct S as [m0 i m1 E|m0 i c p r Hc Hn Hp Hr Hok|m0 i c h Hc Hn Hf Hok]; [by eapply inv_exec|..];
    destruct (si_cpu m0 I i c Hc) as [hs Hi]; destruct (ci_code _ _ _ _ Hi Hn) as [Hcli Hs].
  - rewrite Hr in Hcli, Hs. destruct Hs as [-> _]. eapply inv_go; [done..|apply Hi|cbn in Hcli |- *; lia| |].
    + unfold is_sched. rewrite Hp. by apply safe_routine.
    + eapply owns_ok_sub; [done..|]. rewrite owns_routine. apply sublist_nil_l.
  - assert (H0 : Spinlock.ncli (c_cli c) = 0) by (destruct (ci_cli _ _ _ _ Hi); destruct (decide (0 < Spinlock.ncli (c_cli c))); [intuition congruence|lia]).
    assert (hs = [] /\ spinning (current m0 c) = 0) as [-> Hsp].
    { unfold spinning in *. destruct hs; cbn [length] in Hcli; destruct (current m0 c) as [|[]]; split; (done || (exfalso; lia)). }
    eapply inv_go; [done..| |cbn; lia| |].
    + split; cbn; [lia|done].
    + apply safe_interrupt; [done|]. cbn. split; [done|]. by destruct (current m0 c) as [|[]].
    + eapply owns_ok_sub; [done..|]. rewrite owns_app, owns_interrupt. done.
Qed.

Lemma inv_started n k : length (procs k) = NPROC -> Forall (fun x => p_state x <> RUNNING) (procs k) -> sched_inv (started n k).
Proof.
  intros Hlen Hn.
  assert (Hcode : forall p, code_at (started n k) p = forkret_code \/ code_at (started n k) p = []).
  { intros p. unfold code_at, started. cbn [m_code]. destruct (replicate NPROC forkret_code !! p) eqn:E; [|by right].
    apply lookup_replicate in E as [-> _]. by left. }
  assert (Hin : forall p P, has_state (started n k) p P -> (p < NPROC)%nat) by (intros p P (x & Hx & _); rewrite <- Hlen; by eapply lookup_lt_Some).
  assert (Hown : forall p, owns (code_at (started n k) p) = []) by (intros p; by destruct (Hcode p) as [->| ->]).
  split; try done.
  - by left.
  - intros i c [-> _]%lookup_replicate. exists []. split; try done; [by apply list.NoDup_nil|intros l; cbn; set_solver|].
    intros _. cbn. split; [done|]. split; [done|]. split; [set_solver|]. split; [done|]. split; [done|]. split; [lia|done].
  - intros i j c d p [-> _]%lookup_replicate. done.
  - intros p (x & Hx & Hr). rewrite list.Forall_forall in Hn. destruct (Hn x); [by eapply list_elem_of_lookup_2|done].
  - intros p Hp. unfold code_at, started. cbn [m_code]. rewrite lookup_replicate_2 by (by eapply Hin). cbn. split; [set_solver|done].
  - intros p _. rewrite Hown. split; [constructor|set_solver].
  - intros p q np _ _. rewrite Hown. set_solver.
Qed.

Lemma inv_reach n k m : length (procs k) = NPROC -> Forall (fun x => p_state x <> RUNNING) (procs k) -> rtc step (started n k) m -> sched_inv m.
Proof.
  intros Hlen Hn R. pose proof (inv_started n k Hlen Hn) as I0. clear Hlen Hn. induction R as [|m1 m2 m3 S R IH]; [done|]. apply IH. by eapply sched_inv_step.
Qed.

(** C30. Processors that enter [scheduler] on a table in which nothing runs, and
    then execute, call routines and take interrupts in any order, run each
    process on at most one of them: a process is in state RUNNING exactly when
    one processor has it.  No [acquire], [release], [popcli] or [sched] of the
    process code ever panics, nor does a process come back from [exit]; the
    only panic is the one of [exit] when init calls it. *)
Theorem one_processor n k m : length (procs k) = NPROC -> Forall (fun x => p_state x <> RUNNING) (procs k) -> rtc step (started n k) m ->
  (forall p x, procs (m_k m) !! p = Some x -> p_state x = RUNNING <-> exists i c, m_cpus m !! i = Some c /\ c_proc c = Some p) /\
  (forall i j c d p, m_cpus m !! i = Some c -> m_cpus m !! j = Some d -> c_proc c = Some p -> c_proc d = Some p -> i = j) /\
  (forall i c msg, m_cpus m !! i = Some c -> c_panic c = Some msg -> msg = "init exiting"%string).
Proof.
  intros Hlen Hn R. pose proof (inv_reach n k m Hlen Hn R) as I. split; [|split].
  - intros p x Hx. split.
    + intros Hr. apply (si_run m I). by exists x.
    + intros (i & c & Hc & Hp). destruct (si_cpu m I i c Hc) as [h Hi]. destruct (ci_run _ _ _ _ Hi p Hp) as (y & Hy & Hr). congruence.
  - apply (si_one m I).
  - intros i c msg Hc Hp. destruct (si_cpu m I i c Hc) as [h Hi]. by eapply (ci_panic _ _ _ _ Hi).
Qed.

(** ** A waiting process is not passed over *)

(** The entry at which the scheduler of the processor is, or will be. *)
Definition pos (code : list instr) : nat := match list.last code with Some (Scan k) => k | _ => 0 end.

Definition on (i : nat) (m : smach) : option nat := c ← m_cpus m !! i; c_proc c.

(** Whether processor [i] has taken up a process in the step. *)
Definition dispatched (i : nat) (m m' : smach) : nat := match on i m, on i m' with None, Some _ => 1 | _, _ => 0 end.

(** Steps in which process [p] does not get a processor, with the number of
    times that processor [i] takes up another one. *)
Inductive passed_over (p i : nat) : smach -> nat -> smach -> Prop :=
  | po_refl m : passed_over p i m 0 m
  | po_step m m1 m2 n : step m m1 -> ~ has_state m1 p (eq RUNNING) -> passed_over p i m1 n m2 -> passed_over p i m (dispatched i m m1 + n) m2.

(** How many processes the scheduler can still take up before it comes to
    entry [p]. *)
Definition before (p k : nat) : nat := if (k <=? p)%nat then p - k else NPROC - k + p.

Definition left_over (p i : nat) (m : smach) : nat := match m_cpus m !! i with Some c => before p (pos (c_code c)) | None => 0 end.

Lemma pos_app c r : r <> [] -> pos (c ++ r) = pos r.
Proof. intros Hr. unfold pos. rewrite list.last_app. destruct (list.last r) eqn:E; [done|]. by apply list.last_None in E. Qed.

Lemma pos_cons x r : r <> [] -> pos (x :: r) = pos r.
Proof. apply (pos_app [x]). Qed.

Definition keeps_runnable (m m' : smach) : Prop := forall p, has_state m p (eq RUNNABLE) -> has_state m' p (eq RUNNABLE).

(** The processor takes up no process, and its scheduler stays where it is. *)
Definition same_place (i : nat) (c : pcpu) (m m' : smach) : Prop :=
  exists c', m_cpus m' = <[i := c']> (m_cpus m) /\ (c_proc c' = c_proc c \/ c_proc c' = None) /\ pos (c_code c') = pos (c_code c).

Lemma advance_place i c cli r m0 m : m_cpus m0 = m_cpus m -> (c_proc c = None -> pos r = pos (c_code c)) -> same_place i c m (advance i c cli r m0).
Proof.
  intros E H. unfold advance, same_place. destruct (c_proc c) as [p|]; cbn; eexists; rewrite E; (split; [done|]; split; [by left|]); cbn; [done|by apply H].
Qed.

Lemma panic_place i c msg m : same_place i c m (panic_at i c msg m).
Proof. eexists. split; [done|]. split; [by left|done]. Qed.

Lemma keeps_k m m' : m_k m' = m_k m -> keeps_runnable m m'.
Proof. intros E p (x & Hx & H). exists x. by rewrite E. Qed.

Lemma keeps_tame m m' : tame (m_k m) (m_k m') -> keeps_runnable m m'.
Proof.
  intros C p (x & Hx & Hs). destruct (Forall2_lookup_l _ _ _ _ _ C Hx) as (y & Hy & Hxy). exists y. split; [done|].
  unfold tame1 in Hxy. intuition congruence.
Qed.

Lemma keeps_changed m m' np x y : procs (m_k m) !! np = Some x -> p_state x <> RUNNABLE -> procs (m_k m') = <[np := y]> (procs (m_k m)) -> keeps_runnable m m'.
Proof.
  intros Hx Hs E p (z & Hz & Hr). exists z. rewrite E, list_lookup_insert_ne; [done|]. intros ->. congruence.
Qed.

Lemma table_op_place i c op m : (forall r k, op (m_k m) = Ret r k -> tame (m_k m) k /\ (c_proc c = None -> pos r = pos (c_code c))) ->
  same_place i c m (table_op i c op m) /\ keeps_runnable m (table_op i c op m).
Proof.
  intros H. unfold table_op. destruct (op (m_k m)) as [r k|st k] eqn:E.
  - destruct (H r k eq_refl) as [C Hp]. split; [by apply advance_place|]. apply keeps_tame. by rewrite advance_k.
  - destruct st; (split; [apply panic_place|by apply keeps_k]).
Qed.

Lemma quiet_place i c (o : M kst unit) r m : quietly (o (m_k m)) (m_k m) (fun _ => True) -> (c_proc c = None -> pos r = pos (c_code c)) ->
  same_place i c m (table_op i c (o then! ret r) m) /\ keeps_runnable m (table_op i c (o then! ret r) m).
Proof.
  intros (a & k & E & C & _) Hr. apply table_op_place. intros r' k'. unfold bind. rewrite E. intros [= <- <-]. done.
Qed.

Lemma setp_place i c np f r m p : sched_inv m -> c_proc c = Some p -> has_state m np (fun st => st <> RUNNABLE) ->
  same_place i c m (table_op i c (setp np f then! ret r) m) /\ keeps_runnable m (table_op i c (setp np f then! ret r) m).
Proof.
  intros I Hp (x & Hx & Hs). unfold table_op. rewrite (setp_bind _ _ x) by done. cbn [ret]. split; [apply advance_place; [done|congruence]|].
  eapply keeps_changed; [done..|]. by rewrite advance_k.
Qed.

Lemma depart_place i c p v r m : has_state m p (eq RUNNING) ->
  same_place i c m (depart i c p v r m) /\ keeps_runnable m (depart i c p v r m).
Proof.
  intros (x & Hx & Hs). destruct (leave_ret p v (m_k m) x Hx) as (k' & y & E & Hk' & Hy). unfold depart. rewrite E.
  rewrite Hk', list_lookup_insert_eq by (by eapply lookup_lt_Some). destruct (sched _ _ _ _) as [cli|msg].
  - split; [eexists; split; [done|]; split; [by right|done]|]. eapply (keeps_changed _ _ p x y); [done|congruence|done].
  - split; [apply panic_place|by apply keeps_k].
Qed.

Lemma new_process_place kok cok r i c m p : c_proc c = Some p ->
  same_place i c m (new_process kok cok r i c m) /\ keeps_runnable m (new_process kok cok r i c m).
Proof.
  intros Hp. unfold new_process. destruct (claim_spec (m_k m)) as [(np & x & Hx & Hu & y & k' & Hy & -> & Hk)| ->].
  - split; [apply advance_place; [done|congruence]|]. eapply (keeps_changed _ _ np x y); [done|congruence|]. by rewrite advance_k.
  - split; [apply advance_place; [done|congruence]|]. apply keeps_k. by rewrite advance_k.
Qed.

(** The instruction is one of a process [p]. *)
Ltac of_process Hb E p Hp :=
  unfold is_sched in Hb;
  match type of Hb with match ?o with _ => _ end = _ => destruct o as [p|] eqn:Hp end; [|done]; injection E as <-.

(** What an instruction does to the processors: the search of [scheduler]
    apart, it takes up no process and stops no runnable one. *)
Lemma exec_cases m i c m' : sched_inv m -> m_cpus m !! i = Some c -> exec i m = Some m' ->
  same_place i c m m' /\ keeps_runnable m m' \/ exists k, c_proc c = None /\ c_code c = [Scan k] /\ m' = scan i c k m.
Proof.
  intros I Hc E. destruct (si_cpu m I i c Hc) as [h Hi]. unfold exec in E. rewrite Hc in E. cbn [mbind option_bind] in E.
  destruct (c_panic c) eqn:Hn; [done|]. destruct (current m c) as [|ins r] eqn:Hr; [done|].
  destruct (ci_code _ _ _ _ Hi Hn) as [Hcli Hs]. rewrite Hr in Hs. pose proof (si_len m I) as Hlen.
  assert (Hrun : forall p, c_proc c = Some p -> has_state m p (eq RUNNING)) by apply (ci_run _ _ _ _ Hi).
  assert (Hcp : c_proc c = None -> c_code c = ins :: r) by (unfold current in Hr; by destruct (c_proc c)).
  assert (Hpos : forall h', safe (is_sched c) h' r -> c_proc c = None -> pos r = pos (c_code c)).
  { intros h' Hs' Hp. rewrite (Hcp Hp), pos_cons; [done|]. intros ->. unfold is_sched in Hs'. rewrite Hp in Hs'. by destruct Hs'. }
  assert (Hg : forall h' cli m0, safe (is_sched c) h' r -> m_cpus m0 = m_cpus m -> m_k m0 = m_k m ->
    same_place i c m (advance i c cli r m0) /\ keeps_runnable m (advance i c cli r m0)).
  { intros h' cli m0 Hs' E1 E2. split; [apply advance_place; [done|]; by eapply Hpos|]. apply keeps_k. by rewrite advance_k. }
  assert (Hown : forall np p, c_proc c = Some p -> np ∈ owns (ins :: r) -> has_state m np (fun st => st <> RUNNABLE)).
  { intros np p Hp Hnp. destruct (si_owns m I p (running_active m p (Hrun p Hp))) as [_ He]. rewrite <- (current_some m c p Hp), Hr in He.
    eapply has_state_impl; [by apply He|]. by intros ? <-. }
  destruct ins; cbn [safe_now safe] in Hs; cbn beta zeta in E; try (left; done).
  - left. destruct Hs as [_ Hs]. destruct (Spinlock.acquire_enter _ _ _) as [cli []]; injection E as <-;
      try (split; [apply advance_place; [done|]|apply keeps_k; by rewrite advance_k]; intros Hp; rewrite <- (Hpos _ Hs Hp); apply pos_cons;
        intros ->; unfold is_sched in Hs; rewrite Hp in Hs; by destruct Hs).
    split; [apply panic_place|by apply keeps_k].
  - left. destruct Hs as [_ Hs]. destruct (Spinlock.locked _ =? 0); [|done]. injection E as <-. by eapply Hg.
  - left. destruct Hs as [_ Hs]. destruct (release _ _ _) as [[x cli]|msg]; injection E as <-; [by eapply Hg|].
    split; [apply panic_place|by apply keeps_k].
  - left. injection E as <-. destruct Hs. by eapply Hg.
  - left. injection E as <-. destruct Hs. by eapply Hg.
  - right. injection E as <-. destruct Hs as (Hb & _ & _ & ->). unfold is_sched in Hb. destruct (c_proc c) eqn:Hp; [done|]. exists k. auto.
  - left. injection E as <-. apply quiet_place; [apply quietly_wakeup|]. by eapply Hpos.
  - left. injection E as <-. apply quiet_place; [apply quietly_kill|]. by eapply Hpos.
  - left. destruct Hs as (Hb & _). of_process Hb E p Hp. by eapply new_process_place.
  - left. destruct Hs as (Hb & Hnp & _). of_process Hb E p Hp.
    apply quiet_place; [|congruence]. pose proof (has_state_lt m p _ I (Hrun p eq_refl)). apply quietly_inherit; lia.
  - left. destruct Hs as (Hb & _). of_process Hb E p Hp.
    eapply setp_place; [done..|]. apply (Hown np p eq_refl). cbn. set_solver.
  - left. destruct Hs as (Hb & _). of_process Hb E p Hp.
    eapply setp_place; [done..|]. apply (Hown np p eq_refl). cbn. set_solver.
  - left. destruct Hs as (Hb & _). of_process Hb E p Hp.
    apply table_op_place. intros r' k' E'. split; [|congruence]. pose proof (has_state_lt m p _ I (Hrun p eq_refl)).
    destruct (quietly_children p r (m_k m)) as (r1 & k1 & E1 & C & _); [lia|]. congruence.
  - left. destruct Hs as (Hb & _). of_process Hb E p Hp.
    apply quiet_place; [|congruence]. apply quietly_orphans; [by eapply (has_state_lt m), Hrun|done].
  - left. destruct Hs as (Hb & Hs). of_process Hb E p Hp.
    case_bool_decide; [split; [apply panic_place|by apply keeps_k]|]. by eapply Hg.
  - left. destruct Hs as (Hb & _). of_process Hb E p Hp. apply depart_place. by apply Hrun.
  - left. destruct Hs as (Hb & _). of_process Hb E p Hp.
    apply quiet_place; [|congruence]. pose proof (has_state_lt m p _ I (Hrun p eq_refl)). apply quietly_setp; [lia|by left].
  - left. injection E as <-. by eapply Hg.
  - left. injection E as <-. destruct Hs as [_ Hs]. split; [|apply keeps_k; by rewrite advance_k]. apply advance_place; [done|].
    intros Hp. rewrite Hp. by apply (Hpos _ Hs).
Qed.

(** The search takes up the entry where it is, if that is runnable. *)
Lemma scan_left m i c k p : sched_inv m -> m_cpus m !! i = Some c -> c_proc c = None -> c_code c = [Scan k] -> has_state m p (eq RUNNABLE) ->
  ~ has_state (scan i c k m) p (eq RUNNING) ->
  has_state (scan i c k m) p (eq RUNNABLE) /\ (dispatched i m (scan i c k m) + left_over p i (scan i c k m) <= left_over p i m)%nat.
Proof.
  intros I Hc Hp Hcode (y & Hy & Hs) Hnr. pose proof (lookup_lt_Some _ _ _ Hc) as Hlt. pose proof (lookup_lt_Some _ _ _ Hy) as Hpl. rewrite (si_len m I) in Hpl.
  unfold dispatched, on, left_over. rewrite Hc, Hcode. cbn [mbind option_bind]. rewrite Hp. cbn [pos list.last].
  unfold scan in *. destruct (NPROC <=? k)%nat eqn:Ek; [apply Nat.leb_le in Ek|apply Nat.leb_gt in Ek].
  - unfold advance. rewrite Hp. cbn. rewrite list_lookup_insert_eq by done. cbn. split; [by exists y|]. unfold before.
    destruct (k <=? p)%nat eqn:Ekp; [apply Nat.leb_le in Ekp; lia|]. cbn. lia.
  - destruct (lookup_lt_is_Some_2 (procs (m_k m)) k) as [x Hx]; [by rewrite (si_len m I)|]. rewrite Hx in *.
    assert (Hne : in_state RUNNABLE x = true -> k <> p).
    { intros Hr ->. rewrite Hr in Hnr. apply Hnr. eexists. cbn. by rewrite list_lookup_insert_eq by (by eapply lookup_lt_Some). }
    assert (Hkp : k <> p).
    { destruct (in_state RUNNABLE x) eqn:Er; [by apply Hne|]. intros ->. rewrite Hx in Hy. injection Hy as ->.
      rewrite (proj2 (in_state_true _ _)) in Er by done. done. }
    assert (Hbef : (1 + before p (S k) <= before p k)%nat).
    { unfold before. destruct (k <=? p)%nat eqn:E1; [apply Nat.leb_le in E1|apply Nat.leb_gt in E1].
      - rewrite (proj2 (Nat.leb_le (S k) p)) by lia. lia.
      - rewrite (proj2 (Nat.leb_gt (S k) p)) by lia. lia. }
    destruct (in_state RUNNABLE x) eqn:Er.
    + cbn. rewrite list_lookup_insert_eq by done. cbn [c_proc c_code pos list.last]. split; [|done].
      exists y. cbn. by rewrite list_lookup_insert_ne.
    + unfold advance. rewrite Hp. cbn [m_cpus]. rewrite list_lookup_insert_eq by done. cbn [mbind option_bind c_proc c_code pos list.last].
      split; [by exists y|lia].
Qed.

Lemma place_left m m' i j c p : m_cpus m !! j = Some c -> same_place j c m m' -> dispatched i m m' = 0%nat /\ left_over p i m' = left_over p i m.
Proof.
  intros Hc (c' & E & Hp & Hpos). pose proof (lookup_lt_Some _ _ _ Hc) as Hlt. unfold dispatched, on, left_over. rewrite E.
  destruct (decide (i = j)) as [->|Hij].
  - rewrite Hc, list_lookup_insert_eq by done. cbn. rewrite Hpos. destruct Hp as [->| ->]; by destruct (c_proc c).
  - rewrite list_lookup_insert_ne by done. destruct (m_cpus m !! i) as [d|]; [|done]. cbn. by destruct (c_proc d).
Qed.

Lemma scan_cpus i c k m : c_proc c = None -> exists c', m_cpus (scan i c k m) = m_cpus m \/ m_cpus (scan i c k m) = <[i := c']> (m_cpus m).
Proof.
  intros Hp. unfold scan, advance, panic_at. rewrite Hp. destruct (NPROC <=? k)%nat; [eexists; by right|].
  destruct (procs (m_k m) !! k) as [x|]; [destruct (in_state RUNNABLE x)|]; eexists; by right.
Qed.

Lemma scan_other m i j c k p : i <> j -> c_proc c = None -> dispatched i m (scan j c k m) = 0%nat /\ left_over p i (scan j c k m) = left_over p i m.
Proof.
  intros Hij Hp. destruct (scan_cpus j c k m Hp) as (c' & [E|E]); unfold dispatched, on, left_over; rewrite E, ?list_lookup_insert_ne by done;
    destruct (m_cpus m !! i) as [d|]; cbn; by try destruct (c_proc d).
Qed.

Lemma step_left m m' p i : sched_inv m -> step m m' -> has_state m p (eq RUNNABLE) -> ~ has_state m' p (eq RUNNING) ->
  has_state m' p (eq RUNNABLE) /\ (dispatched i m m' + left_over p i m' <= left_over p i m)%nat.
Proof.
  intros I S Hp Hnr. assert (H : exists j c, m_cpus m !! j = Some c /\ (same_place j c m m' /\ keeps_runnable m m' \/
    exists k, c_proc c = None /\ c_code c = [Scan k] /\ m' = scan j c k m)).
  { destruct S as [m j m' E|m j c q r Hc Hn Hq Hr Hok|m j c h Hc Hn Hf Hok].
    - destruct (m_cpus m !! j) as [c|] eqn:Hc; [|unfold exec in E; by rewrite Hc in E]. exists j, c. split; [done|]. by apply exec_cases.
    - exists j, c. split; [done|]. left. split; [apply advance_place; [done|congruence]|]. apply keeps_k. by rewrite advance_k.
    - exists j, c. split; [done|]. left. split; [apply advance_place; [done|]|apply keeps_k; by rewrite advance_k].
      intros Hq. destruct (si_cpu m I j c Hc) as [hs Hi]. destruct (ci_code _ _ _ _ Hi Hn) as [_ Hs]. unfold current, is_sched in *. rewrite Hq in *.
      rewrite pos_app by done. apply pos_cons. intros E. rewrite E in Hs. by destruct Hs. }
  destruct H as (j & c & Hc & [[Hpl Hk]|(k & Hcp & Hcode & ->)]).
  - split; [by apply Hk|]. destruct (place_left m m' i j c p Hc Hpl) as [-> ->]. lia.
  - destruct (scan_left m j c k p I Hc Hcp Hcode Hp Hnr) as [H1 H2]. split; [done|]. destruct (decide (i = j)) as [->|Hij]; [done|].
    destruct (scan_other m i j c k p Hij Hcp) as [-> ->]. lia.
Qed.

(** C32. Nobody starves: while a process is runnable and gets no processor, it
    stays runnable, and each processor takes up other processes at most
    NPROC - 1 times in all.  So while some processor goes on taking up
    processes, the process gets a processor before that one has taken up NPROC
    others, whatever the processes, the interrupts and the other processors
    do. *)
Theorem bounded_bypass n k m1 m2 p i c : length (procs k) = NPROC -> Forall (fun x => p_state x <> RUNNING) (procs k) -> rtc step (started n k) m1 ->
  has_state m1 p (eq RUNNABLE) -> passed_over p i m1 c m2 -> has_state m2 p (eq RUNNABLE) /\ (c <= NPROC - 1)%nat.
Proof.
  intros Hlen Hn R Hp W. pose proof (inv_reach n k m1 Hlen Hn R) as I. clear Hlen Hn R.
  assert (Hw : has_state m2 p (eq RUNNABLE) /\ (c + left_over p i m2 <= left_over p i m1)%nat).
  { induction W as [m|m m' m2 c S Hnr W IH]; [split; [done|lia]|].
    destruct (step_left m m' p i I S Hp Hnr) as [Hp' Hl]. destruct IH as [H1 H2]; [done|by eapply sched_inv_step|]. split; [done|lia]. }
  destruct Hw as [Hp2 Hc]. split; [done|]. assert (left_over p i m1 <= NPROC - 1)%nat; [|lia]. pose proof (has_state_lt m1 p _ I Hp) as Hlt.
  unfold left_over, before. destruct (m_cpus m1 !! i) as [d|]; [|lia]. destruct (_ <=? p)%nat eqn:E; [lia|]. apply Nat.leb_gt in E. lia.
Qed.

(** ** Concrete runs *)

(** Processor [i] executes [n] instructions. *)
Fixpoint execs (n i : nat) (m : smach) : option smach :=
  match n with O => Some m | S n' => exec i m ≫= execs n' i end.

Definition calls (i : nat) (r : routine) (m : smach) : option smach :=
  c ← m_cpus m !! i;
  match c_panic c, c_proc c, current m c with None, Some _, [] => Some (advance i c (c_cli c) (routine_code r) m) | _, _, _ => None end.

Lemma execs_rtc n i m m' : execs n i m = Some m' -> rtc step m m'.
Proof.
  revert m. induction n as [|n IH]; intros m E; [injection E as ->; apply rtc_refl|]. cbn [execs] in E.
  destruct (exec i m) as [m1|] eqn:E1; [|done]. eapply rtc_l; [by eapply s_exec|]. by apply IH.
Qed.

Lemma calls_rtc i r m m' : routine_ok r -> calls i r m = Some m' -> rtc step m m'.
Proof.
  intros Hok E. unfold calls in E. destruct (m_cpus m !! i) as [c|] eqn:Hc; [|done]. cbn [mbind option_bind] in E.
  destruct (c_panic c) eqn:Hn; [done|]. destruct (c_proc c) as [p|] eqn:Hp; [|done]. destruct (current m c) eqn:Hr; [|done].
  injection E as <-. apply rtc_once. by eapply s_call.
Qed.

Lemma bind_rtc (o : option smach) f m0 m : o ≫= f = Some m -> (forall m1, o = Some m1 -> rtc step m0 m1) ->
  (forall m1 m2, f m1 = Some m2 -> rtc step m1 m2) -> rtc step m0 m.
Proof. destruct o as [m1|]; [|done]. cbn. intros E H1 H2. eapply rtc_trans; [by apply H1|by apply H2]. Qed.

(** Two processors after boot: the first starts the first process, which forks,
    and the second starts the child. *)
Definition two_running : option smach :=
  ((execs 5 0 (started 2 booted) ≫= calls 0 (CallFork true true)) ≫= execs 9 0) ≫= execs 5 1.

Lemma two_running_reached m : two_running = Some m -> rtc step (started 2 booted) m.
Proof.
  unfold two_running. intros E. eapply bind_rtc; [exact E| |intros; by eapply execs_rtc]. intros m1 E1. eapply bind_rtc; [exact E1| |intros; by eapply execs_rtc].
  intros m2 E2. eapply bind_rtc; [exact E2|intros; by eapply execs_rtc|]. intros m3 m4. by apply calls_rtc.
Qed.

Lemma one_processor_witness : exists m, two_running = Some m /\ on 0 m = Some 0%nat /\ on 1 m = Some 1%nat /\
  (forall i j c d p, m_cpus m !! i = Some c -> m_cpus m !! j = Some d -> c_proc c = Some p -> c_proc d = Some p -> i = j).
Proof.
  assert (Eon : (m ← two_running; Some (on 0 m, on 1 m)) = Some (Some 0, Some 1)%nat) by (vm_compute; reflexivity).
  pose proof two_running_reached as R. revert Eon R. generalize two_running. intros [m|] Eon R; [|discriminate].
  injection Eon as E0 E1. exists m. split; [reflexivity|]. split; [exact E0|]. split; [exact E1|].
  apply (one_processor 2 booted m); [vm_compute; reflexivity| |exact (R m eq_refl)].
  apply (bool_decide_unpack _). vm_compute. exact I.
Defined.

(** The first process has yielded after its [fork], and waits. *)
Definition yielded : option smach :=
  (((execs 5 0 (started 1 booted) ≫= calls 0 (CallFork true true)) ≫= execs 9 0) ≫= calls 0 CallYield) ≫= execs 3 0.

Lemma yielded_reached m : yielded = Some m -> rtc step (started 1 booted) m.
Proof.
  unfold yielded. intros E. eapply bind_rtc; [exact E| |intros; by eapply execs_rtc]. intros m1 E1. eapply bind_rtc; [exact E1| |intros m3 m4; by apply calls_rtc].
  intros m2 E2. eapply bind_rtc; [exact E2| |intros; by eapply execs_rtc]. intros m3 E3.
  eapply bind_rtc; [exact E3|intros; by eapply execs_rtc|]. intros m4 m5. by apply calls_rtc.
Qed.

(** The processor takes up the child, and the first process still waits. *)
Lemma bounded_bypass_witness : exists m m', yielded = Some m /\ exec 0 m = Some m' /\ on 0 m' = Some 1%nat /\
  passed_over 0 0 m 1 m' /\ has_state m' 0 (eq RUNNABLE) /\ (1 <= NPROC - 1)%nat.
Proof.
  assert (E : (m ← yielded; m' ← exec 0 m; Some (on 0 m, on 0 m', p_state <$> procs (m_k m) !! 0%nat, p_state <$> procs (m_k m') !! 0%nat)) =
    Some (None, Some 1%nat, Some RUNNABLE, Some RUNNABLE)) by (vm_compute; reflexivity).
  pose proof yielded_reached as R. revert E R. generalize yielded. intros [m|] E R; [|discriminate].
  change ((m' ← exec 0 m; Some (on 0 m, on 0 m', p_state <$> procs (m_k m) !! 0%nat, p_state <$> procs (m_k m') !! 0%nat)) =
    Some (None, Some 1%nat, Some RUNNABLE, Some RUNNABLE)) in E.
  destruct (exec 0 m) as [m'|] eqn:E1; [|discriminate]. injection E as A1 A2 A3 A4.
  assert (P : passed_over 0 0 m 1 m').
  { replace 1%nat with (dispatched 0 m m' + 0)%nat by (unfold dispatched; rewrite A1, A2; reflexivity).
    apply (po_step 0 0 m m' m' 0); [by eapply s_exec| |apply po_refl]. intros (x & Hx & Hr). rewrite Hx in A4. cbn in A4. congruence. }
  exists m, m'. split; [reflexivity|]. split; [exact E1|]. split; [exact A2|]. split; [exact P|].
  apply (bounded_bypass 1 booted m m' 0 0 1); [vm_compute; reflexivity| |exact (R m eq_refl)| |exact P].
  - apply (bool_decide_unpack _). vm_compute. exact I.
  - destruct (procs (m_k m) !! 0%nat) as [x|] eqn:Hx; [|discriminate]. exists x. cbn in A3. split; [exact Hx|congruence].
Defined.
