(* ===== verification/Mp.v ===== *)
(** * The processors of the machine ([kernel/mp.c], [mycpu] of [kernel/proc.c])

    The kernel finds its processors in tables that the BIOS leaves in memory:
    a floating structure with a signature and a checksum, which points to a
    configuration table with an entry per processor.  The state is the memory,
    by virtual address and with holes where nothing is mapped, and the
    variables of [mp.c].

    Proved: the search finds the first structure with signature and checksum;
    [mpinit] reads the processors off a table, as many as fit, and [mycpu]
    then tells them apart; an entry of an unknown type makes [mpinit] loop for
    ever. *)

From S2P Require Import Prelude CStr Mem Kalloc.

Definition NCPU : nat := 8.

Definition MPPROC : Z := 0.
Definition MPBUS : Z := 1.
Definition MPIOAPIC : Z := 2.
Definition MPIOINTR : Z := 3.
Definition MPLINTR : Z := 4.

(** [cpus] has the ids of the entries of the array of that name; [ports] the
    bytes written to ports, the last one first, and [imcr] what port 0x23
    reads. *)
Record mpst : Type := {
  memory : Z -> option Z;
  lapic : Z;
  ncpu : nat;
  cpus : list Z;
  ioapicid : Z;
  imcr : Z;
  ports : list (Z * Z)
}.

Definition with_lapic (x : Z) (s : mpst) : mpst :=
  {| memory := memory s; lapic := x; ncpu := ncpu s; cpus := cpus s; ioapicid := ioapicid s; imcr := imcr s; ports := ports s |}.
Definition with_ioapicid (x : Z) (s : mpst) : mpst :=
  {| memory := memory s; lapic := lapic s; ncpu := ncpu s; cpus := cpus s; ioapicid := x; imcr := imcr s; ports := ports s |}.
Definition with_cpu (id : Z) (s : mpst) : mpst :=
  {| memory := memory s; lapic := lapic s; ncpu := S (ncpu s); cpus := <[ncpu s := id]> (cpus s); ioapicid := ioapicid s;
     imcr := imcr s; ports := ports s |}.

Definition outb (port x : Z) : M mpst unit :=
  modify (fun s => {| memory := memory s; lapic := lapic s; ncpu := ncpu s; cpus := cpus s; ioapicid := ioapicid s;
                      imcr := if port =? 0x23 then u8 x else imcr s; ports := (port, u8 x) :: ports s |}).

(** A byte of memory, and a number of [n] bytes. *)
Definition rd (a : Z) : M mpst Z := fun s => lift (memory s (u32 a)) s.

Fixpoint rdn (n : nat) (a : Z) : M mpst Z :=
  match n with
  | O => ret 0
  | S n' => let! b := rd a in let! r := rdn n' (a + 1) in ret (b + 256 * r)
  end.

(** ** [mp.c] *)

Fixpoint sum_loop (n : nat) (addr acc : Z) : M mpst Z :=
  match n with
  | O => ret (u8 acc)
  | S n' => let! b := rd addr in sum_loop n' (addr + 1) (acc + b)
  end.

Definition sum (addr : Z) (len : nat) : M mpst Z := sum_loop len addr 0.

(** [memcmp(p, l, length l) == 0]. *)
Fixpoint same (p : Z) (l : list Z) : M mpst bool :=
  match l with
  | [] => ret true
  | c :: l' => let! b := rd p in if b =? c then same (p + 1) l' else ret false
  end.

Definition sizeof_mp : Z := 16.

Fixpoint mpsearch1_loop (fuel : nat) (p e : Z) : M mpst (option Z) :=
  match fuel with
  | O => ret None
  | S fuel' =>
      if p <? e then
        let! m := same p (chars "_MP_") in
        let! ok := (if m : bool then let! t := sum p (Z.to_nat sizeof_mp) in ret (t =? 0) else ret false) in
        if ok : bool then ret (Some p) else mpsearch1_loop fuel' (u32 (p + sizeof_mp)) e
      else ret None
  end.

Definition mpsearch1 (a len : Z) : M mpst (option Z) :=
  let addr := P2V a in
  mpsearch1_loop (S (Z.to_nat (len / sizeof_mp))) addr (u32 (addr + len)).

Definition mpsearch : M mpst (option Z) :=
  let bda := P2V 0x400 in
  let! b15 := rd (bda + 0x0F) in
  let! b14 := rd (bda + 0x0E) in
  let p := Z.shiftl (Z.lor (Z.shiftl b15 8) b14) 4 in
  let! mp :=
    (if negb (p =? 0) then mpsearch1 p 1024
     else
       let! b20 := rd (bda + 0x14) in
       let! b19 := rd (bda + 0x13) in
       let p := Z.lor (Z.shiftl b20 8) b19 * 1024 in
       mpsearch1 (u32 (p - 1024)) 1024) in
  match mp with
  | Some mp => ret (Some mp)
  | None => mpsearch1 0xF0000 0x10000
  end.

(** Members of [struct mp] and [struct mpconf]. *)
Definition physaddr (mp : Z) : M mpst Z := rdn 4 (mp + 4).
Definition imcrp (mp : Z) : M mpst Z := rd (mp + 12).
Definition conf_length (conf : Z) : M mpst Z := rdn 2 (conf + 4).
Definition version (conf : Z) : M mpst Z := rd (conf + 6).
Definition lapicaddr (conf : Z) : M mpst Z := rdn 4 (conf + 36).
Definition sizeof_mpconf : Z := 44.
Definition sizeof_mpproc : Z := 20.
Definition sizeof_mpioapic : Z := 8.

(** The configuration table and the floating structure. *)
Definition mpconfig : M mpst (option (Z * Z)) :=
  let! mp := mpsearch in
  match mp with
  | None => ret None
  | Some mp =>
      let! pa := physaddr mp in
      if pa =? 0 then ret None
      else
        let conf := P2V pa in
        let! m := same conf (chars "PCMP") in
        if negb m then ret None
        else
          let! v := version conf in
          if negb (v =? 1) && negb (v =? 4) then ret None
          else
            let! len := conf_length conf in
            let! t := sum conf (Z.to_nat len) in
            if negb (t =? 0) then ret None else ret (Some (conf, mp))
  end.

(** The loop of [mpinit] over the entries, with [ismp]; [None] when it has not
    ended after [fuel] rounds.  The [break] of its last case leaves the switch
    only, so the loop goes on with the same entry. *)
Fixpoint mp_entries (fuel : nat) (p e : Z) (ismp : bool) : M mpst (option bool) :=
  match fuel with
  | O => ret None
  | S fuel' =>
      if p <? e then
        let! t := rd p in
        if t =? MPPROC then
          let! n := gets ncpu in
          (if (n <? NCPU)%nat then let! id := rd (p + 1) in modify (with_cpu id) else ret tt) then!
          mp_entries fuel' (u32 (p + sizeof_mpproc)) e ismp
        else if t =? MPIOAPIC then
          let! id := rd (p + 1) in
          modify (with_ioapicid id) then!
          mp_entries fuel' (u32 (p + sizeof_mpioapic)) e ismp
        else if (t =? MPBUS) || (t =? MPIOINTR) || (t =? MPLINTR) then mp_entries fuel' (u32 (p + 8)) e ismp
        else mp_entries fuel' p e false
      else ret (Some ismp)
  end.

(** [None] when the loop has not ended. *)
Definition mpinit (fuel : nat) : M mpst (option unit) :=
  let! r := mpconfig in
  match r with
  | None => halt (Panicked "Expect to run on an SMP")
  | Some (conf, mp) =>
      let! la := lapicaddr conf in
      modify (with_lapic la) then!
      let! len := conf_length conf in
      let! ismp := mp_entries fuel (u32 (conf + sizeof_mpconf)) (u32 (conf + len)) true in
      match ismp with
      | None => ret None
      | Some ismp =>
          if negb ismp then halt (Panicked "Didn't find a suitable machine")
          else
            let! i := imcrp mp in
            (if negb (i =? 0) then
               outb 0x22 0x70 then!
               let! x := gets imcr in
               outb 0x23 (Z.lor x 1)
             else ret tt) then!
            ret (Some tt)
      end
  end.

(** ** [mycpu] *)

(** The loop of [mycpu] over the first [n] processors, from number [i] on. *)
Fixpoint mycpu_loop (apicid : Z) (l : list Z) (i : nat) : M mpst nat :=
  match l with
  | [] => halt (Panicked "unknown apicid")
  | id :: l' => if id =? apicid then ret i else mycpu_loop apicid l' (S i)
  end.

(** The number of the processor; [apicid] is what [lapicid] returns on it, and
    [iflag] whether interrupts are on. *)
Definition mycpu (iflag : bool) (apicid : Z) : M mpst nat :=
  if iflag then halt (Panicked "mycpu called with interrupts enabled")
  else
    let! n := gets ncpu in
    let! l := gets cpus in
    mycpu_loop apicid (take n l) 0.

(** ** Memory that holds given bytes *)

Definition holds (s : mpst) (a : Z) (l : list Z) : Prop :=
  0 <= a /\ a + Z.of_nat (length l) <= 2 ^ 32 /\ forall i b, l !! i = Some b -> memory s (a + Z.of_nat i) = Some b.

Definition zsum (l : list Z) : Z := foldr Z.add 0 l.

Lemma holds_app s a l1 l2 : holds s a (l1 ++ l2) -> holds s a l1 /\ holds s (a + Z.of_nat (length l1)) l2.
Proof.
  intros (H1 & H2 & H3). rewrite length_app in H2. split; (split; [lia|]; split; [lia|]); intros i b Hi.
  - apply H3. by apply lookup_app_l_Some.
  - rewrite <- Z.add_assoc, <- Nat2Z.inj_add. apply H3. rewrite lookup_app_r by lia. by rewrite Nat.add_comm, Nat.add_sub.
Qed.

Lemma holds_cons s a b l : holds s a (b :: l) -> rd a s = Ret b s /\ holds s (a + 1) l.
Proof.
  intros H. destruct (holds_app s a [b] l H) as [(H1 & H2 & H3) H']. split; [|exact H'].
  unfold rd. cbn [length] in H2. rewrite u32_small by lia. pose proof (H3 0%nat b eq_refl) as E. rewrite Z.add_0_r in E. by rewrite E.
Qed.

Lemma holds_rd s a l i b : holds s a l -> l !! i = Some b -> rd (a + Z.of_nat i) s = Ret b s.
Proof.
  intros (H1 & H2 & H3) Hi. pose proof (lookup_lt_Some _ _ _ Hi). unfold rd. rewrite u32_small by lia. by rewrite (H3 i b Hi).
Qed.

Lemma holds_slice s a l n m : holds s a l -> (n + m <= length l)%nat -> holds s (a + Z.of_nat n) (take m (drop n l)).
Proof.
  intros H Hn. rewrite <- (take_drop n l) in H. apply holds_app in H as [_ H]. rewrite length_take, Nat.min_l in H by lia.
  rewrite <- (take_drop m (drop n l)) in H. by apply holds_app in H as [H _].
Qed.

Lemma holds_rdn l : forall s a, holds s a l -> rdn (length l) a s = Ret (le_value l) s.
Proof.
  induction l as [|b l IH]; intros s a H; [done|]. apply holds_cons in H as [E H]. cbn [rdn length le_value]. unfold bind. by rewrite E, (IH _ _ H).
Qed.

Lemma holds_number s a l n m : holds s a l -> (n + m <= length l)%nat -> rdn m (a + Z.of_nat n) s = Ret (le_value (take m (drop n l))) s.
Proof.
  intros H Hn. pose proof (holds_rdn _ _ _ (holds_slice s a l n m H Hn)) as E. by rewrite length_take, length_drop, Nat.min_l in E by lia.
Qed.

Lemma holds_sum_loop l : forall s a acc, holds s a l -> sum_loop (length l) a acc s = Ret (u8 (acc + zsum l)) s.
Proof.
  induction l as [|b l IH]; intros s a acc H; cbn [sum_loop length zsum foldr]; [by rewrite Z.add_0_r|].
  apply holds_cons in H as [E H]. unfold bind. rewrite E, (IH _ _ _ H). by rewrite Z.add_assoc.
Qed.

Lemma holds_same k : forall s a l, holds s a l -> length l = length k -> same a k s = Ret (bool_decide (l = k)) s.
Proof.
  induction k as [|c k IH]; intros s a [|b l] H Hl; try done. apply holds_cons in H as [E H]. cbn [same]. unfold bind. rewrite E.
  destruct (Z.eqb_spec b c) as [->|Hn].
  - rewrite (IH _ _ l H) by (by injection Hl). unfold ret. f_equal. apply bool_decide_ext. split; congruence.
  - unfold ret. by rewrite bool_decide_eq_false_2 by congruence.
Qed.

(** ** The search *)

(** The bytes of a floating structure: the signature, and a sum of 0. *)
Definition is_mp (l : list Z) : Prop := take 4 l = chars "_MP_" /\ u8 (zsum l) = 0.

#[export] Instance is_mp_dec l : Decision (is_mp l).
Proof. unfold is_mp. apply _. Defined.

Lemma search_step s p l : holds s p l -> length l = 16%nat ->
  (let! m := same p (chars "_MP_") in if m : bool then let! t := sum p (Z.to_nat sizeof_mp) in ret (t =? 0) else ret false) s = Ret (bool_decide (is_mp l)) s.
Proof.
  intros H Hl. unfold bind. pose proof (holds_slice s p l 0 4 H ltac:(lia)) as H4. rewrite Z.add_0_r, drop_0 in H4.
  rewrite (holds_same _ _ _ (take 4 l) H4) by (rewrite length_take; by rewrite Hl). case_bool_decide as E4.
  - unfold sum. change (Z.to_nat sizeof_mp) with 16%nat. rewrite <- Hl, (holds_sum_loop _ _ _ _ H). unfold ret. f_equal. unfold is_mp.
    rewrite Z.add_0_l. destruct (Z.eqb_spec (u8 (zsum l)) 0); [by rewrite bool_decide_eq_true_2|by rewrite bool_decide_eq_false_2 by tauto].
  - unfold ret. rewrite bool_decide_eq_false_2; [done|]. by intros [? _].
Qed.

Lemma search_loop ls : forall fuel s p, holds s p (mjoin ls) -> Forall (fun l => length l = 16%nat) ls -> p + 16 * Z.of_nat (length ls) < 2 ^ 32 -> (length ls < fuel)%nat ->
  mpsearch1_loop fuel p (p + 16 * Z.of_nat (length ls)) s = Ret ((fun k => p + 16 * Z.of_nat k.1) <$> list_find is_mp ls) s.
Proof.
  induction ls as [|l ls IH]; intros [|fuel] s p H Hls Hb Hf; cbn [length] in *; try lia; cbn [mpsearch1_loop].
  - by rewrite (proj2 (Z.ltb_ge _ _)) by lia.
  - inversion_clear Hls as [|? ? Hl Hls']. cbn [mjoin list_join] in H. apply holds_app in H as [H1 H2]. rewrite Hl in H2.
    rewrite (proj2 (Z.ltb_lt _ _)) by lia. pose proof (search_step s p l H1 Hl) as E. rewrite <- bind_assoc. rewrite (bind_ret_eq _ _ _ _ _ E).
    cbn [list_find]. destruct (decide (is_mp l)) as [Hm|Hm]; [rewrite bool_decide_eq_true_2 by done|rewrite bool_decide_eq_false_2 by done].
    + unfold ret. cbn. f_equal. f_equal. lia.
    + rewrite u32_small by (destruct H2; unfold sizeof_mp; lia). unfold sizeof_mp.
      replace (p + 16 * Z.of_nat (S (length ls))) with (p + 16 + 16 * Z.of_nat (length ls)) by lia.
      rewrite (IH fuel s (p + 16)); [|done|done|lia|lia]. f_equal. destruct (list_find is_mp ls) as [[k x]|]; [|done]. cbn. f_equal. lia.
Qed.

(** The search of an area finds the first of its sixteen-byte pieces that has
    the signature and the sum of a floating structure, and nothing when there
    is none. *)
Theorem mpsearch1_finds s a ls : holds s (P2V a) (mjoin ls) -> Forall (fun l => length l = 16%nat) ls -> P2V a + 16 * Z.of_nat (length ls) < 2 ^ 32 ->
  mpsearch1 a (16 * Z.of_nat (length ls)) s = Ret ((fun k => P2V a + 16 * Z.of_nat k.1) <$> list_find is_mp ls) s.
Proof.
  intros H Hls Hb. unfold mpsearch1, sizeof_mp. rewrite (Z.mul_comm 16 (Z.of_nat (length ls))), Z.div_mul, Nat2Z.id by lia.
  rewrite (Z.mul_comm _ 16). rewrite u32_small by (destruct H; lia). apply search_loop; [done..|lia].
Qed.

(** ** The configuration table *)

Inductive entry : Type :=
  | Eproc (id : Z) (rest : list Z)
  | Eioapic (id : Z) (rest : list Z)
  | Eother (t : Z) (rest : list Z).

Definition encode (e : entry) : list Z :=
  match e with
  | Eproc id r => MPPROC :: id :: r
  | Eioapic id r => MPIOAPIC :: id :: r
  | Eother t r => t :: r
  end.

Definition entry_ok (e : entry) : Prop :=
  match e with
  | Eproc _ r => length r = 18%nat
  | Eioapic _ r => length r = 6%nat
  | Eother t r => (t = MPBUS \/ t = MPIOINTR \/ t = MPLINTR) /\ length r = 7%nat
  end.

Definition proc_ids (es : list entry) : list Z := omap (fun e => match e with Eproc id _ => Some id | _ => None end) es.
Definition ioapic_ids (es : list entry) : list Z := omap (fun e => match e with Eioapic id _ => Some id | _ => None end) es.

Definition note (s : mpst) (e : entry) : mpst :=
  match e with
  | Eproc id _ => if (ncpu s <? NCPU)%nat then with_cpu id s else s
  | Eioapic id _ => with_ioapicid id s
  | Eother _ _ => s
  end.

Lemma note_holds s e a l : holds s a l -> holds (note s e) a l.
Proof. destruct e; cbn [note]; [destruct (ncpu s <? NCPU)%nat| |]; done. Qed.

Lemma encode_length e : entry_ok e -> (8 <= length (encode e))%nat.
Proof. destruct e; cbn; lia. Qed.

(** One round of the loop. *)
Lemma entry_step fuel s p e ex b : holds s p (encode ex) -> entry_ok ex -> p < e -> p + Z.of_nat (length (encode ex)) < 2 ^ 32 ->
  mp_entries (S fuel) p e b s = mp_entries fuel (p + Z.of_nat (length (encode ex))) e b (note s ex).
Proof.
  intros H Hok Hpe Hb. cbn [mp_entries]. rewrite (proj2 (Z.ltb_lt _ _)) by done. pose proof (proj1 H) as H0.
  destruct ex as [id r|id r|t r]; cbn [encode entry_ok length note] in *; pose proof (holds_cons _ _ _ _ H) as [E1 H1]; rewrite (bind_ret_eq _ _ _ _ _ E1).
  - rewrite Z.eqb_refl, bind_gets. pose proof (holds_cons _ _ _ _ H1) as [E2 _]. destruct (ncpu s <? NCPU)%nat.
    + unfold bind at 1, bind at 1. rewrite E2. rewrite u32_small by (unfold sizeof_mpproc; lia). unfold modify, sizeof_mpproc. f_equal; lia.
    + unfold bind at 1. rewrite u32_small by (unfold sizeof_mpproc; lia). unfold ret, sizeof_mpproc. f_equal; lia.
  - change (MPIOAPIC =? MPPROC) with false. rewrite Z.eqb_refl. pose proof (holds_cons _ _ _ _ H1) as [E2 _]. rewrite (bind_ret_eq _ _ _ _ _ E2), bind_modify.
    rewrite u32_small by (unfold sizeof_mpioapic; lia). unfold sizeof_mpioapic. f_equal; lia.
  - destruct Hok as [[->|[->| ->]] Hr]; cbn [MPPROC MPBUS MPIOAPIC MPIOINTR MPLINTR Z.eqb Pos.eqb orb]; (rewrite u32_small by lia; f_equal; lia).
Qed.

Lemma table_words_length es : Forall entry_ok es -> (8 * length es <= length (es ≫= encode))%nat.
Proof.
  induction 1 as [|e es He _ IH]; [cbn; lia|]. change ((e :: es) ≫= encode) with (encode e ++ (es ≫= encode)). rewrite length_app. cbn [length].
  pose proof (encode_length e He). lia.
Qed.

Lemma entries_loop es : forall fuel s p b, holds s p (es ≫= encode) -> Forall entry_ok es -> p + Z.of_nat (length (es ≫= encode)) < 2 ^ 32 -> (length es < fuel)%nat ->
  mp_entries fuel p (p + Z.of_nat (length (es ≫= encode))) b s = Ret (Some b) (foldl note s es).
Proof.
  induction es as [|e es IH]; intros fuel s p b H Hok Hb Hf.
  - destruct fuel as [|fuel]; [cbn in Hf; lia|]. cbn [mp_entries mbind list_bind length]. by rewrite (proj2 (Z.ltb_ge _ _)) by lia.
  - inversion_clear Hok as [|? ? He Hes]. change ((e :: es) ≫= encode) with (encode e ++ (es ≫= encode)) in *. rewrite length_app in *.
    apply holds_app in H as [H1 H2]. pose proof (encode_length e He). destruct fuel as [|fuel]; [lia|].
    rewrite (entry_step fuel s p _ e b) by (done || lia). cbn [foldl].
    rewrite <- (IH fuel (note s e) (p + Z.of_nat (length (encode e))) b); [f_equal; lia|by apply note_holds|done|lia|cbn in Hf; lia].
Qed.

(** What the entries leave in the variables. *)
Lemma noted es : forall s, (ncpu s <= NCPU)%nat -> length (cpus s) = NCPU ->
  let s' := foldl note s es in
  take (ncpu s') (cpus s') = take NCPU (take (ncpu s) (cpus s) ++ proc_ids es) /\ (ncpu s' <= NCPU)%nat /\ length (cpus s') = NCPU /\
  ioapicid s' = default (ioapicid s) (list.last (ioapic_ids es)) /\ lapic s' = lapic s /\ memory s' = memory s /\ imcr s' = imcr s /\ ports s' = ports s.
Proof.
  induction es as [|e es IH]; intros s Hn Hl; cbn [foldl].
  { rewrite app_nil_r. split; [|done]. rewrite take_take. f_equal. lia. }
  assert (Hs : (ncpu (note s e) <= NCPU)%nat /\ length (cpus (note s e)) = NCPU).
  { destruct e as [id r| |]; cbn [note]; [|done..]. destruct (Nat.ltb_spec (ncpu s) NCPU); [|done]. cbn. rewrite length_insert. split; [lia|done]. }
  destruct Hs as [Hn1 Hl1]. destruct (IH (note s e) Hn1 Hl1) as (E1 & E2 & E3 & E4 & E5 & E6 & E7 & E8). split_and!; try done.
  - rewrite E1. destruct e as [id r|id r|t r]; cbn [note proc_ids omap list_omap]; [|done..]. destruct (Nat.ltb_spec (ncpu s) NCPU) as [Hlt|Hge].
    + cbn [with_cpu ncpu cpus]. rewrite (take_S_r _ _ id) by (apply list_lookup_insert_eq; lia). rewrite take_insert_ge by lia. by rewrite <- app_assoc.
    + rewrite !take_app_le by (rewrite length_take; lia). done.
  - rewrite E4. destruct e as [id r|id r|t r]; cbn [note ioapic_ids omap list_omap]; [by destruct (_ <? _)%nat| |done].
    cbn [with_ioapicid ioapicid]. fold (ioapic_ids es). rewrite list.last_cons. by destruct (list.last (ioapic_ids es)).
  - rewrite E5. by destruct e; cbn [note]; [destruct (ncpu s <? NCPU)%nat| |].
  - rewrite E6. by destruct e; cbn [note]; [destruct (ncpu s <? NCPU)%nat| |].
  - rewrite E7. by destruct e; cbn [note]; [destruct (ncpu s <? NCPU)%nat| |].
  - rewrite E8. by destruct e; cbn [note]; [destruct (ncpu s <? NCPU)%nat| |].
Qed.

(** A configuration table: a header of 44 bytes and the entries, with the
    signature, a version, its length and a sum of 0. *)
Record table_ok (h : list Z) (es : list entry) : Prop := {
  t_header : length h = 44%nat;
  t_bytes : bytes h;
  t_entries : Forall entry_ok es;
  t_signature : take 4 h = chars "PCMP";
  t_version : h !! 6%nat = Some 1 \/ h !! 6%nat = Some 4;
  t_length : le_value (take 2 (drop 4 h)) = Z.of_nat (length (h ++ (es ≫= encode)));
  t_sum : u8 (zsum (h ++ (es ≫= encode))) = 0
}.

Lemma mpconfig_table s mp fl h es : mpsearch s = Ret (Some mp) s -> holds s mp fl -> length fl = 16%nat ->
  let pa := le_value (take 4 (drop 4 fl)) in pa <> 0 -> holds s (P2V pa) (h ++ (es ≫= encode)) -> table_ok h es ->
  mpconfig s = Ret (Some (P2V pa, mp)) s.
Proof.
  intros Em Hf Hl pa Hpa Ht T. unfold mpconfig. rewrite (bind_ret_eq _ _ _ _ _ Em). unfold physaddr.
  rewrite (bind_ret_eq _ _ _ _ _ (holds_number s mp fl 4 4 Hf ltac:(lia))). fold pa. rewrite (proj2 (Z.eqb_neq _ _)) by done.
  pose proof Ht as Hall. apply holds_app in Ht as [Hh _]. pose proof (t_header _ _ T) as Hlen.
  pose proof (holds_slice _ _ h 0 4 Hh ltac:(lia)) as H4. rewrite Z.add_0_r, drop_0 in H4.
  rewrite (bind_ret_eq _ _ _ _ _ (holds_same (chars "PCMP") s _ (take 4 h) H4 ltac:(rewrite length_take, Hlen; reflexivity))).
  rewrite bool_decide_eq_true_2 by apply T. cbn [negb]. unfold version.
  assert (Ev : exists v, rd (P2V pa + 6) s = Ret v s /\ (v = 1 \/ v = 4)).
  { destruct (t_version _ _ T) as [E|E]; eexists; (split; [exact (holds_rd _ _ _ 6 _ Hh E)|tauto]). }
  destruct Ev as (v & Ev & Hv). rewrite (bind_ret_eq _ _ _ _ _ Ev).
  assert (Hn : negb (v =? 1) && negb (v =? 4) = false) by (destruct Hv as [->| ->]; done). rewrite Hn. unfold conf_length.
  rewrite (bind_ret_eq _ _ _ _ _ (holds_number _ _ h 4 2 Hh ltac:(lia))), (t_length _ _ T), Nat2Z.id. unfold sum.
  rewrite (bind_ret_eq _ _ _ _ _ (holds_sum_loop _ _ _ 0 Hall)), Z.add_0_l, (t_sum _ _ T). done.
Qed.

(** Rounds enough for a table, whose length is a number of 16 bits. *)
Definition max_rounds : nat := Z.to_nat 8192.

Lemma table_entries h es : table_ok h es -> (length es < max_rounds)%nat.
Proof.
  intros T. pose proof (table_words_length es (t_entries _ _ T)) as Hn. pose proof (t_length _ _ T) as Hl. rewrite length_app, (t_header _ _ T) in Hl.
  assert (Hb : 0 <= le_value (take 2 (drop 4 h)) < 2 ^ 16).
  { pose proof (le_value_bounds (take 2 (drop 4 h))) as H. rewrite length_take, length_drop, (t_header _ _ T) in H. apply H.
    apply Forall_take, Forall_drop, T. }
  unfold max_rounds. lia.
Qed.

Lemma mpinit_table s mp fl h es : mpsearch s = Ret (Some mp) s -> holds s mp fl -> length fl = 16%nat ->
  let pa := le_value (take 4 (drop 4 fl)) in pa <> 0 -> holds s (P2V pa) (h ++ (es ≫= encode)) -> P2V pa + Z.of_nat (length (h ++ (es ≫= encode))) < 2 ^ 32 -> table_ok h es ->
  length (cpus s) = NCPU -> ncpu s = 0%nat ->
  let s1 := foldl note (with_lapic (le_value (take 4 (drop 36 h))) s) es in
  exists s', mpinit max_rounds s = Ret (Some tt) s' /\ ncpu s' = ncpu s1 /\ cpus s' = cpus s1 /\ ioapicid s' = ioapicid s1 /\ lapic s' = lapic s1.
Proof.
  intros Em Hf Hl pa Hpa Ht Hend T Hc Hn s1. unfold mpinit. rewrite (bind_ret_eq _ _ _ _ _ (mpconfig_table s mp fl h es Em Hf Hl Hpa Ht T)).
  pose proof (t_header _ _ T) as Hlen. pose proof (proj1 Ht) as H0. pose proof (holds_app _ _ _ _ Ht) as [Hh He]. rewrite Hlen in He.
  unfold lapicaddr. rewrite (bind_ret_eq _ _ _ _ _ (holds_number _ _ h 36 4 Hh ltac:(lia))), bind_modify. set (s0 := with_lapic _ s).
  unfold conf_length. rewrite (bind_ret_eq _ _ _ _ _ (holds_number s0 _ h 4 2 Hh ltac:(lia))), (t_length _ _ T). rewrite length_app, Hlen in *.
  fold pa. rewrite !u32_small by (unfold sizeof_mpconf; lia).
  replace (P2V pa + Z.of_nat (44 + length (es ≫= encode))) with (P2V pa + sizeof_mpconf + Z.of_nat (length (es ≫= encode))) by (unfold sizeof_mpconf; lia).
  rewrite (bind_ret_eq _ _ _ _ _ (entries_loop es max_rounds s0 _ true He (t_entries _ _ T) ltac:(unfold sizeof_mpconf; lia) (table_entries _ _ T))).
  cbn [negb]. fold s1. destruct (noted es s0) as (_ & _ & _ & _ & _ & Emem & _); [change (ncpu s0) with (ncpu s); rewrite Hn; unfold NCPU; lia|done|]. change (memory s1 = memory s) in Emem.
  destruct (lookup_lt_is_Some_2 fl 12) as [b Hb]; [lia|].
  assert (Ei : imcrp mp s1 = Ret b s1) by (unfold imcrp; apply (holds_rd s1 mp fl 12); [|done]; unfold holds; by rewrite Emem).
  rewrite (bind_ret_eq _ _ _ _ _ Ei). destruct (negb (b =? 0)); eexists; (split; [reflexivity|done]).
Qed.

(** With a good table in memory [mpinit] ends, within as many rounds as a table
    can have entries, and knows the processors of the table in its order, the
    first eight when there are more, the last I/O controller and the address
    of the local one; [mycpu] on a processor then returns its number, when the
    processors have different ids. *)
Theorem mpinit_reads s mp fl h es : mpsearch s = Ret (Some mp) s -> holds s mp fl -> length fl = 16%nat ->
  let pa := le_value (take 4 (drop 4 fl)) in pa <> 0 -> holds s (P2V pa) (h ++ (es ≫= encode)) -> P2V pa + Z.of_nat (length (h ++ (es ≫= encode))) < 2 ^ 32 -> table_ok h es ->
  length (cpus s) = NCPU -> ncpu s = 0%nat ->
  exists s', mpinit max_rounds s = Ret (Some tt) s' /\ take (ncpu s') (cpus s') = take NCPU (proc_ids es) /\
    ioapicid s' = default (ioapicid s) (list.last (ioapic_ids es)) /\ lapic s' = le_value (take 4 (drop 36 h)) /\
    (NoDup (take NCPU (proc_ids es)) -> forall i id, take NCPU (proc_ids es) !! i = Some id -> mycpu false id s' = Ret i s').
Proof.
  intros Em Hf Hl pa Hpa Ht Hend T Hc Hn. destruct (mpinit_table s mp fl h es Em Hf Hl Hpa Ht Hend T Hc Hn) as (s' & E & E1 & E2 & E3 & E4).
  destruct (noted es (with_lapic (le_value (take 4 (drop 36 h))) s)) as (N1 & _ & _ & N4 & N5 & _); [cbn; rewrite Hn; unfold NCPU; lia|done|].
  exists s'. rewrite E1, E2, E3, E4, N1, N4, N5. cbn [with_lapic ncpu cpus ioapicid lapic]. rewrite Hn, take_0, app_nil_l.
  split; [done|]. split; [done|]. split; [done|]. split; [done|]. intros Hd i id Hi. unfold mycpu. rewrite !bind_gets, E1, E2, N1.
  cbn [with_lapic ncpu cpus]. rewrite Hn, take_0, app_nil_l. clear -Hd Hi. revert Hd Hi. generalize (take NCPU (proc_ids es)). intros l.
  assert (H : forall k, NoDup l -> l !! i = Some id -> mycpu_loop id l k s' = Ret (k + i)%nat s'); [|apply H].
  revert i. induction l as [|x l IH]; intros i k Hd Hi; [done|]. inversion_clear Hd as [|? ? Hx Hl]. cbn [mycpu_loop].
  destruct i as [|i]; cbn in Hi; [injection Hi as ->; rewrite Z.eqb_refl, Nat.add_0_r; done|].
  rewrite (proj2 (Z.eqb_neq _ _)); [|intros ->; apply Hx; by eapply list_elem_of_lookup_2]. rewrite (IH i (S k)) by done. f_equal. lia.
Qed.

(** An entry of a type that [mpinit] does not know stops its loop from ending:
    the panic it has for such a machine is never reached. *)
Theorem mpinit_stuck es t s p e b fuel : holds s p ((es ≫= encode) ++ [t]) -> Forall entry_ok es -> ~ (0 <= t <= 4) ->
  p + Z.of_nat (length ((es ≫= encode) ++ [t])) < 2 ^ 32 -> p + Z.of_nat (length (es ≫= encode)) < e ->
  exists s', mp_entries fuel p e b s = Ret None s'.
Proof.
  revert s p b fuel. induction es as [|x es IH]; intros s p b fuel H Hok Ht Hb He.
  - cbn in H, He. apply holds_cons in H as [E _]. exists s. revert b. induction fuel as [|fuel IHf]; intros b; [done|]. cbn [mp_entries].
    rewrite (proj2 (Z.ltb_lt _ _)) by lia. rewrite (bind_ret_eq _ _ _ _ _ E). unfold MPPROC, MPIOAPIC, MPBUS, MPIOINTR, MPLINTR.
    rewrite !(proj2 (Z.eqb_neq t _)) by lia. apply IHf.
  - destruct fuel as [|fuel]; [by exists s|]. inversion_clear Hok as [|? ? Hx Hes].
    change ((x :: es) ≫= encode) with (encode x ++ (es ≫= encode)) in *. rewrite <- app_assoc in H. rewrite !length_app in *. cbn [length] in *.
    apply holds_app in H as [H1 H2]. pose proof (encode_length x Hx). rewrite (entry_step fuel s p e x b) by (done || lia).
    apply (IH (note s x)); [by apply note_holds|done|done|lia|lia].
Qed.

(** ** A machine with two processors *)

Definition checksum (l : list Z) : Z := u8 (- zsum l).

(** A floating structure that points to 0x9000, and a table with two
    processors, with the ids 3 and 7, a bus and an I/O controller. *)
Definition float : list Z :=
  let l x := chars "_MP_" ++ le_bytes 4 0x9000 ++ [1; 4; x; 0; 0; 0; 0; 0] in l (checksum (l 0)).

Definition two : list entry :=
  [Eproc 3 (replicate 18 0); Eother MPBUS (replicate 7 65); Eproc 7 (replicate 18 1); Eioapic 2 (replicate 6 0)].

Definition header : list Z :=
  let l x := chars "PCMP" ++ le_bytes 2 (Z.of_nat (44 + length (two ≫= encode))) ++ [4; x] ++ replicate 28 32 ++ le_bytes 4 0xFEE00000 ++ [0; 0; 0; 0] in
  l (checksum (l 0 ++ (two ≫= encode))).

(** The extended BIOS data area is at 0x8000, and the structure is its third
    piece. *)
Definition bios (a : Z) : option Z :=
  let at_ x l := if (x <=? a) && (a <? x + Z.of_nat (length l)) then l !! Z.to_nat (a - x) else None in
  if (a <? KERNBASE) || (KERNBASE + 0x100000 <=? a) then None
  else match at_ (KERNBASE + 0x40E) (le_bytes 2 0x800) with
  | Some b => Some b
  | None =>
      match at_ (KERNBASE + 0x8020) float with
      | Some b => Some b
      | None =>
          match at_ (KERNBASE + 0x9000) (header ++ (two ≫= encode)) with
          | Some b => Some b
          | None => Some 0
          end
      end
  end.

Definition pc2 : mpst :=
  {| memory := bios; lapic := 0; ncpu := 0; cpus := replicate NCPU 0; ioapicid := 0; imcr := 0; ports := [] |}.

Lemma holds_check s a l : forallb (fun i => bool_decide (memory s (a + Z.of_nat i) = l !! i)) (seq 0 (length l)) = true ->
  0 <= a -> a + Z.of_nat (length l) <= 2 ^ 32 -> holds s a l.
Proof.
  intros H H0 H1. split; [done|]. split; [done|]. intros i b Hi. rewrite forallb_forall in H. pose proof (lookup_lt_Some _ _ _ Hi) as Hlt.
  specialize (H i). rewrite bool_decide_eq_true in H. rewrite H; [done|]. apply in_seq. lia.
Qed.

(** The search only reads, so its value says all. *)
Definition reads {A} (m : M mpst A) : Prop := forall s a s', m s = Ret a s' -> s' = s.

Lemma reads_ret {A} (a : A) : reads (ret a).
Proof. by intros s b s' [= _ <-]. Qed.

Lemma reads_bind {A B} (m : M mpst A) (f : A -> M mpst B) : reads m -> (forall a, reads (f a)) -> reads (bind m f).
Proof. intros Hm Hf s b s'. unfold bind. destruct (m s) as [a s1|] eqn:E; [|done]. apply Hm in E as ->. apply Hf. Qed.

Lemma reads_rd a : reads (rd a).
Proof. intros s b s'. unfold rd, lift. destruct (memory s (u32 a)); [|done]. by intros [= _ <-]. Qed.

Lemma reads_sum n : forall a acc, reads (sum_loop n a acc).
Proof. induction n; intros a acc; [apply reads_ret|]. apply reads_bind; [apply reads_rd|done]. Qed.

Lemma reads_same l : forall p, reads (same p l).
Proof. induction l as [|c l IH]; intros p; [apply reads_ret|]. apply reads_bind; [apply reads_rd|]. intros b. destruct (b =? c); [apply IH|apply reads_ret]. Qed.

Lemma reads_search fuel : forall p e, reads (mpsearch1_loop fuel p e).
Proof.
  induction fuel as [|fuel IH]; intros p e; cbn [mpsearch1_loop]; [apply reads_ret|]. destruct (p <? e); [|apply reads_ret].
  apply reads_bind; [apply reads_same|]. intros [|]; apply reads_bind; try apply reads_ret; try (intros [|]; [apply reads_ret|apply IH]).
  apply reads_bind; [apply reads_sum|intros; apply reads_ret].
Qed.

Lemma reads_mpsearch : reads mpsearch.
Proof.
  unfold mpsearch. do 2 (apply reads_bind; [apply reads_rd|intros ?]). apply reads_bind.
  - destruct (negb _); [apply reads_search|]. do 2 (apply reads_bind; [apply reads_rd|intros ?]). apply reads_search.
  - intros [|]; [apply reads_ret|apply reads_search].
Qed.

Definition value {A} (o : outcome mpst A) : option A := match o with Ret a _ => Some a | Stop _ _ => None end.

Lemma reads_value {A} (m : M mpst A) s a : reads m -> value (m s) = Some a -> m s = Ret a s.
Proof. intros H E. destruct (m s) as [b s'|] eqn:Em; [|done]. injection E as ->. by rewrite (H s a s' Em). Qed.

Lemma mpsearch1_finds_witness : mpsearch1 0x8000 64 pc2 = Ret (Some (KERNBASE + 0x8020)) pc2.
Proof.
  apply (mpsearch1_finds pc2 0x8000 [replicate 16 0; replicate 16 0; float; replicate 16 0]);
    [apply holds_check; vm_compute; [reflexivity|discriminate..]|apply (bool_decide_unpack _); vm_compute; exact I|vm_compute; reflexivity].
Defined.

Lemma mpinit_reads_witness : exists s', mpinit max_rounds pc2 = Ret (Some tt) s' /\ take (ncpu s') (cpus s') = [3; 7] /\ ioapicid s' = 2 /\
  lapic s' = 0xFEE00000 /\ (NoDup [3; 7] -> forall i id, [3; 7] !! i = Some id -> mycpu false id s' = Ret i s').
Proof.
  assert (T : table_ok header two).
  { split; [reflexivity|apply (bool_decide_unpack _); vm_compute; exact I| |reflexivity|right; vm_compute; reflexivity|vm_compute; reflexivity|vm_compute; reflexivity].
    repeat constructor. }
  assert (Hf : holds pc2 (KERNBASE + 0x8020) float) by (apply holds_check; vm_compute; [reflexivity|discriminate..]).
  assert (Ht : holds pc2 (P2V 0x9000) (header ++ (two ≫= encode))) by (apply holds_check; vm_compute; [reflexivity|discriminate..]).
  destruct (mpinit_reads pc2 (KERNBASE + 0x8020) float header two (reads_value mpsearch pc2 _ reads_mpsearch ltac:(vm_compute; reflexivity)) Hf eq_refl
    ltac:(vm_compute; discriminate) Ht ltac:(vm_compute; reflexivity) T eq_refl eq_refl) as (s' & E & E1 & E2 & E3 & E4).
  exists s'. split; [exact E|]. split; [exact E1|]. split; [exact E2|]. split; [exact E3|exact E4].
Defined.

Lemma mpinit_stuck_witness : exists s', mp_entries 1000 (KERNBASE + 0x8020) (KERNBASE + 0x8030) true pc2 = Ret None s'.
Proof.
  apply (mpinit_stuck [] 95); [apply holds_check; vm_compute; [reflexivity|discriminate..]|constructor|lia|vm_compute; reflexivity|vm_compute; reflexivity].
Defined.
