(* ===== verification/Apic.v ===== *)
(** * Interrupt controllers and the clock chip ([kernel/ioapic.c],
    [kernel/lapic.c])

    The I/O controller is a register number and a table of registers behind
    it; the local controller an array of registers of which the one for
    commands also acts on the other processors; the clock chip a register of
    time that changes while it is read.  Proved: the interrupts the drivers
    enable, and no others, reach the processor they name with the vector on
    which [trap] dispatches; [lapicstartap] starts a processor once, at the
    address it is given; [cmostime] returns a time that the clock showed at one
    moment, although it reads the six registers one after the other. *)

From S2P Require Import Prelude CStr Pipe Ptable File Proc Trap.

(** ** The I/O controller *)

Module Io.
Definition REG_ID : Z := 0.
Definition REG_VER : Z := 1.
Definition REG_TABLE : Z := 0x10.
Definition INT_DISABLED : Z := 0x00010000.

(** The two words [struct ioapic] maps: the number of a register, and the
    registers that appear in the other word. *)
Record ioapic : Type := { reg : Z; data : Z -> Z }.

Definition set_data (r x : Z) (f : Z -> Z) : Z -> Z := fun q => if q =? r then x else f q.

Definition ioapicread (r : Z) : M ioapic Z :=
  modify (fun s => {| reg := u32 r; data := data s |}) then!
  gets (fun s => data s (reg s)).

Definition ioapicwrite (r x : Z) : M ioapic unit :=
  modify (fun s => {| reg := u32 r; data := data s |}) then!
  modify (fun s => {| reg := reg s; data := set_data (reg s) (u32 x) (data s) |}).

Fixpoint init_loop (n : nat) (i : Z) : M ioapic unit :=
  match n with
  | O => ret tt
  | S n' =>
      ioapicwrite (REG_TABLE + 2 * i) (Z.lor INT_DISABLED (T_IRQ0 + i)) then!
      ioapicwrite (REG_TABLE + 2 * i + 1) 0 then!
      init_loop n' (i + 1)
  end.

(** The result is whether the id is the one [mpinit] found; otherwise a message
    is printed. *)
Definition ioapicinit (ioapicid : Z) : M ioapic bool :=
  let! v := ioapicread REG_VER in
  let maxintr := Z.land (Z.shiftr v 16) 0xFF in
  let! i := ioapicread REG_ID in
  let id := Z.shiftr i 24 in
  init_loop (Z.to_nat (maxintr + 1)) 0 then!
  ret (id =? ioapicid).

Definition ioapicenable (irq cpunum : Z) : M ioapic unit :=
  ioapicwrite (REG_TABLE + 2 * irq) (T_IRQ0 + irq) then!
  ioapicwrite (REG_TABLE + 2 * irq + 1) (Z.shiftl cpunum 24).

Fixpoint enable_all (l : list (Z * Z)) : M ioapic unit :=
  match l with
  | [] => ret tt
  | (irq, cpu) :: l' => ioapicenable irq cpu then! enable_all l'
  end.

(** What the chip does with an interrupt on line [irq]: the vector and the
    processor it goes to, when it is not masked. *)
Definition delivers (s : ioapic) (irq : Z) : option (Z * Z) :=
  let low := data s (REG_TABLE + 2 * irq) in
  if Z.testbit low 16 then None else Some (Z.land low 0xFF, Z.shiftr (data s (REG_TABLE + 2 * irq + 1)) 24).

Lemma write_data r x s : ioapicwrite r x s = Ret tt {| reg := u32 r; data := set_data (u32 r) (u32 x) (data s) |}.
Proof. done. Qed.

Lemma set_same r x f : set_data r x f r = x.
Proof. unfold set_data. by rewrite Z.eqb_refl. Qed.

Lemma set_other r x f q : q <> r -> set_data r x f q = f q.
Proof. intros H. unfold set_data. by rewrite (proj2 (Z.eqb_neq _ _) H). Qed.

(** A pair of registers is written. *)
Lemma write_entry irq x y s : 0 <= irq < 256 ->
  exists s', (ioapicwrite (REG_TABLE + 2 * irq) x then! ioapicwrite (REG_TABLE + 2 * irq + 1) y) s = Ret tt s' /\
    delivers s' irq = (if Z.testbit x 16 then None else Some (Z.land (u32 x) 0xFF, Z.shiftr (u32 y) 24)) /\
    forall j, j <> irq -> delivers s' j = delivers s j.
Proof.
  intros Hi. unfold REG_TABLE. eexists. split; [reflexivity|]. unfold delivers, REG_TABLE. cbn [data reg].
  rewrite (u32_small (16 + 2 * irq)), (u32_small (16 + 2 * irq + 1)) by lia.
  split; [|intros j Hj; by rewrite !set_other by lia]. rewrite (set_other (16 + 2 * irq + 1)), !set_same by lia. unfold u32 at 1.
  by rewrite Z.mod_pow2_bits_low by lia.
Qed.

Lemma init_loop_masks n : forall i s, 0 <= i -> i + Z.of_nat n <= 256 -> exists s', init_loop n i s = Ret tt s' /\
  (forall j, i <= j < i + Z.of_nat n -> delivers s' j = None) /\ (forall j, j < i -> delivers s' j = delivers s j).
Proof.
  induction n as [|n IH]; intros i s Hi Hn; cbn [init_loop]; [exists s; split; [done|]; split; [lia|done]|].
  destruct (write_entry i (Z.lor INT_DISABLED (T_IRQ0 + i)) 0 s) as (s1 & E1 & Hd & Ho); [lia|]. rewrite Z.lor_spec in Hd.
  destruct (IH (i + 1) s1) as (s2 & E2 & Hm & Hk); [lia|lia|]. exists s2. split; [|split].
  - rewrite <- bind_assoc, (bind_ret_eq _ _ _ _ _ E1). exact E2.
  - intros j Hj. destruct (decide (j = i)) as [->|Hne]; [rewrite Hk by lia; exact Hd|]. apply Hm. lia.
  - intros j Hj. rewrite Hk by lia. apply Ho. lia.
Qed.

Lemma enable_all_routes l : forall s, NoDup (fst <$> l) -> Forall (fun p => 0 <= p.1 < 224 /\ 0 <= p.2 < 256) l ->
  exists s', enable_all l s = Ret tt s' /\ forall j, delivers s' j = match list_find (fun p => p.1 = j) l with
                                                               | Some (_, (_, cpu)) => Some (T_IRQ0 + j, cpu) | None => delivers s j end.
Proof.
  induction l as [|[irq cpu] l IH]; intros s Hd Hl; cbn [enable_all]; [by exists s|]. rewrite fmap_cons in Hd.
  apply list.NoDup_cons in Hd as [Hn Hd]. apply Forall_cons_iff in Hl as [[H1 H2] Hl]. cbn [fst snd] in *.
  destruct (write_entry irq (T_IRQ0 + irq) (Z.shiftl cpu 24) s) as (s1 & E1 & Hi & Ho); [lia|].
  destruct (IH s1 Hd Hl) as (s2 & E2 & H). exists s2. split; [unfold ioapicenable; by rewrite (bind_ret_eq _ _ _ _ _ E1)|].
  intros j. rewrite H. cbn [list_find]. destruct (decide ((irq, cpu).1 = j)) as [Ej|Hne]; cbn [fst] in *.
  - subst j. destruct (list_find _ l) as [[k [q c]]|] eqn:Ef.
    + apply list_find_Some in Ef as (Hk & Eq & _). cbn in Eq. subst q. destruct Hn. apply list_elem_of_fmap. exists (irq, c).
      split; [done|by eapply list_elem_of_lookup_2].
    + rewrite Hi, Z.bits_above_log2; [|unfold T_IRQ0; lia|unfold T_IRQ0; apply Z.log2_lt_pow2; lia]. rewrite !u32_small.
      * change 0xFF with (Z.ones 8). rewrite Z.land_ones, Z.mod_small by (unfold T_IRQ0; lia). rewrite Z.shiftr_shiftl_l, Z.shiftl_0_r by lia. done.
      * rewrite Z.shiftl_mul_pow2 by lia. lia.
      * unfold T_IRQ0. lia.
  - rewrite Ho by done. destruct (list_find _ l) as [[k [q c]]|]; done.
Qed.

(** After [ioapicinit] and the calls of [ioapicenable] of the drivers, an
    interrupt on a line that a driver has enabled goes to the processor the
    driver named, with the vector from which [trap] takes the line, and an
    interrupt on any other line goes nowhere. *)
Theorem ioapic_routes id l s : NoDup (fst <$> l) -> Forall (fun p => 0 <= p.1 < 224 /\ 0 <= p.2 < 256) l ->
  exists b s', (let! b := ioapicinit id in enable_all l then! ret b) s = Ret b s' /\
    forall j, 0 <= j <= Z.land (Z.shiftr (data s REG_VER) 16) 0xFF ->
      delivers s' j = match list_find (fun p => p.1 = j) l with Some (_, (_, cpu)) => Some (T_IRQ0 + j, cpu) | None => None end.
Proof.
  intros Hd Hl. set (mx := Z.land (Z.shiftr (data s REG_VER) 16) 0xFF).
  assert (Hmx : 0 <= mx < 256) by (unfold mx; change 0xFF with (Z.ones 8); rewrite Z.land_ones by lia; apply Z.mod_pos_bound; lia).
  set (s0 := {| reg := u32 REG_ID; data := data s |}).
  destruct (init_loop_masks (Z.to_nat (mx + 1)) 0 s0) as (s1 & E1 & Hm & _); [lia|lia|].
  destruct (enable_all_routes l s1 Hd Hl) as (s2 & E2 & H). eexists _, s2. split.
  - assert (Ei : ioapicinit id s = Ret (Z.shiftr (data s (u32 REG_ID)) 24 =? id) s1).
    { unfold ioapicinit, ioapicread. rewrite !bind_assoc, bind_modify, bind_gets, !bind_assoc, bind_modify, bind_gets. cbn [data reg].
      change (u32 REG_VER) with REG_VER. fold mx s0. by rewrite (bind_ret_eq _ _ _ _ _ E1). }
    rewrite (bind_ret_eq _ _ _ _ _ Ei), (bind_ret_eq _ _ _ _ _ E2). done.
  - intros j Hj. rewrite H. destruct (list_find _ l) as [[k [q c]]|]; [done|]. apply Hm. lia.
Qed.

(** The lines of the keyboard, the serial port and the disk, as [consoleinit],
    [uartinit] and [ideinit] enable them on a machine with two processors. *)
Lemma ioapic_routes_witness : exists b s',
  (let! b := ioapicinit 2 in enable_all [(IRQ_KBD, 0); (IRQ_COM1, 0); (IRQ_IDE, 1)] then! ret b) {| reg := 0; data := fun r => if r =? 1 then 0x170011 else 0x2000000 |} = Ret b s' /\
  forall j, 0 <= j <= 23 -> delivers s' j = match list_find (fun p => p.1 = j) [(IRQ_KBD, 0); (IRQ_COM1, 0); (IRQ_IDE, 1)] with
                                      | Some (_, (_, cpu)) => Some (T_IRQ0 + j, cpu) | None => None end.
Proof.
  apply (ioapic_routes 2 [(IRQ_KBD, 0); (IRQ_COM1, 0); (IRQ_IDE, 1)] {| reg := 0; data := fun r => if r =? 1 then 0x170011 else 0x2000000 |}).
  - apply (bool_decide_unpack _). vm_compute. exact I.
  - repeat constructor; vm_compute; congruence.
Defined.
End Io.

(** ** The local controller *)

Module Lapic.
Definition ID : Z := 0x0020 / 4.
Definition VER : Z := 0x0030 / 4.
Definition TPR : Z := 0x0080 / 4.
Definition EOI : Z := 0x00B0 / 4.
Definition SVR : Z := 0x00F0 / 4.
Definition ENABLE : Z := 0x00000100.
Definition ESR : Z := 0x0280 / 4.
Definition ICRLO : Z := 0x0300 / 4.
Definition INIT : Z := 0x00000500.
Definition STARTUP : Z := 0x00000600.
Definition DELIVS : Z := 0x00001000.
Definition ASSERT : Z := 0x00004000.
Definition LEVEL : Z := 0x00008000.
Definition BCAST : Z := 0x00080000.
Definition ICRHI : Z := 0x0310 / 4.
Definition TIMER : Z := 0x0320 / 4.
Definition X1 : Z := 0x0000000B.
Definition PERIODIC : Z := 0x00020000.
Definition PCINT : Z := 0x0340 / 4.
Definition LINT0 : Z := 0x0350 / 4.
Definition LINT1 : Z := 0x0360 / 4.
Definition ERROR : Z := 0x0370 / 4.
Definition MASKED : Z := 0x00010000.
Definition TICR : Z := 0x0380 / 4.
Definition TDCR : Z := 0x03E0 / 4.
Definition IRQ_ERROR : Z := 19.

Definition CMOS_PORT : Z := 0x70.

(** A processor that has not been started: it stops at reset, takes a startup
    message after an INIT, and then runs from the page of the message. *)
Inductive other : Type := Halted | Waiting | Started (at_ : Z).

(** What another processor does with a command; a level-triggered INIT without
    ASSERT only synchronises. *)
Definition receive (cmd : Z) (p : other) : other :=
  let mode := Z.land cmd 0x700 in
  if mode =? INIT then if Z.testbit cmd 14 then Waiting else p
  else if mode =? STARTUP then match p with Waiting => Started (Z.shiftl (Z.land cmd 0xFF) 12) | _ => p end
  else p.

(** [present] is whether [lapic] is set; [regs] the registers; [busy] how often
    the delivery status still reads as pending; [others] the processors by
    their ids; [warm] the warm reset vector, and [cmos] the bytes written to
    the ports of the clock chip, the last one first. *)
Record lst : Type := {
  present : bool;
  regs : Z -> Z;
  busy : nat;
  others : Z -> other;
  warm : Z * Z;
  cmos : list (Z * Z)
}.

Definition write_reg (r x : Z) (s : lst) : lst :=
  let f := Io.set_data r (u32 x) (regs s) in
  {| present := present s; regs := f; busy := busy s;
     others := if r =? ICRLO then
                 fun id => if Z.testbit (u32 x) 19 || (id =? Z.shiftr (f ICRHI) 24) then receive (u32 x) (others s id) else others s id
               else others s;
     warm := warm s; cmos := cmos s |}.

Definition lapicw (index value : Z) : M lst unit := modify (write_reg index value).

Definition read_reg (r : Z) : M lst Z := fun s =>
  if (r =? ICRLO) && negb (busy s =? 0)%nat then
    Ret (Z.lor (regs s r) DELIVS) {| present := present s; regs := regs s; busy := pred (busy s); others := others s; warm := warm s; cmos := cmos s |}
  else Ret (if r =? ICRLO then Z.ldiff (regs s r) DELIVS else regs s r) s.

(** [while(lapic[ICRLO] & DELIVS);] *)
Fixpoint wait_delivered (fuel : nat) : M lst unit :=
  match fuel with
  | O => halt Undefined
  | S fuel' => let! x := read_reg ICRLO in if Z.land x DELIVS =? 0 then ret tt else wait_delivered fuel'
  end.

Definition lapicinit (fuel : nat) : M lst unit :=
  let! p := gets present in
  if negb p then ret tt
  else
    lapicw SVR (Z.lor ENABLE (T_IRQ0 + IRQ_SPURIOUS)) then!
    lapicw TDCR X1 then!
    lapicw TIMER (Z.lor PERIODIC (T_IRQ0 + IRQ_TIMER)) then!
    lapicw TICR 10000000 then!
    lapicw LINT0 MASKED then!
    lapicw LINT1 MASKED then!
    let! v := read_reg VER in
    (if 4 <=? Z.land (Z.shiftr v 16) 0xFF then lapicw PCINT MASKED else ret tt) then!
    lapicw ERROR (T_IRQ0 + IRQ_ERROR) then!
    lapicw ESR 0 then!
    lapicw ESR 0 then!
    lapicw EOI 0 then!
    lapicw ICRHI 0 then!
    lapicw ICRLO (Z.lor (Z.lor BCAST INIT) LEVEL) then!
    wait_delivered fuel then!
    lapicw TPR 0.

Definition lapicid : M lst Z :=
  let! p := gets present in
  if negb p then ret 0 else let! x := read_reg ID in ret (Z.shiftr x 24).

Definition lapiceoi : M lst unit :=
  let! p := gets present in
  if p : bool then lapicw EOI 0 else ret tt.

Definition outb (port x : Z) : M lst unit :=
  modify (fun s => {| present := present s; regs := regs s; busy := busy s; others := others s; warm := warm s; cmos := (port, u8 x) :: cmos s |}).

Definition set_warm (w : Z * Z) : M lst unit :=
  modify (fun s => {| present := present s; regs := regs s; busy := busy s; others := others s; warm := w; cmos := cmos s |}).

Fixpoint send_startup (n : nat) (apicid addr : Z) : M lst unit :=
  match n with
  | O => ret tt
  | S n' =>
      lapicw ICRHI (Z.shiftl apicid 24) then!
      lapicw ICRLO (Z.lor STARTUP (Z.shiftr addr 12)) then!
      send_startup n' apicid addr
  end.

Definition lapicstartap (apicid addr : Z) : M lst unit :=
  outb CMOS_PORT 0xF then!
  outb (CMOS_PORT + 1) 0x0A then!
  set_warm (0, u16 (Z.shiftr addr 4)) then!
  lapicw ICRHI (Z.shiftl apicid 24) then!
  lapicw ICRLO (Z.lor (Z.lor INIT LEVEL) ASSERT) then!
  lapicw ICRLO (Z.lor INIT LEVEL) then!
  send_startup 2 apicid addr.
(** *** What the commands do *)

(** The page number of a startup message survives the encoding. *)
Lemma startup_message k : 0 <= k < 256 -> let x := u32 (Z.lor STARTUP k) in
  Z.testbit x 19 = false /\ (forall p, receive x p = match p with Waiting => Started (Z.shiftl k 12) | _ => p end).
Proof.
  intros Hk x. assert (H : forallb (fun k => let x := u32 (Z.lor STARTUP k) in negb (Z.testbit x 19) && (Z.land x 0x700 =? STARTUP) && (Z.land x 0xFF =? k)) (seqZ 0 256) = true)
    by (vm_compute; reflexivity).
  rewrite forallb_forall in H. specialize (H k). fold x in H. rewrite !andb_true_iff, negb_true_iff, !Z.eqb_eq in H.
  destruct H as [[H1 H2] H3]; [apply list_elem_of_In, elem_of_seqZ; lia|]. split; [done|]. intros p. unfold receive. rewrite H2, H3. done.
Qed.

Lemma lapicw_bind {A} r x (k : unit -> M lst A) s : bind (lapicw r x) k s = k tt (write_reg r x s).
Proof. done. Qed.

(** A command to the processor [id]. *)
Lemma command id x s : 0 <= id < 256 -> Z.testbit (u32 x) 19 = false -> regs s ICRHI = u32 (Z.shiftl id 24) ->
  let s' := write_reg ICRLO x s in
  others s' id = receive (u32 x) (others s id) /\ (forall j, j <> id -> others s' j = others s j) /\ regs s' ICRHI = regs s ICRHI.
Proof.
  intros Hid Hx Hhi s'. unfold s', write_reg. cbn [others regs]. rewrite Z.eqb_refl, Hx, Io.set_other, Hhi by done.
  assert (E : Z.shiftr (u32 (Z.shiftl id 24)) 24 = id).
  { rewrite u32_small by (rewrite Z.shiftl_mul_pow2 by lia; lia). by rewrite Z.shiftr_shiftl_l, Z.shiftl_0_r by lia. }
  rewrite E, Z.eqb_refl. cbn [orb]. split; [done|]. split; [|done]. intros j Hj. by rewrite (proj2 (Z.eqb_neq _ _) Hj).
Qed.

Lemma address id s : let s' := write_reg ICRHI (Z.shiftl id 24) s in others s' = others s /\ regs s' ICRHI = u32 (Z.shiftl id 24).
Proof. unfold write_reg. cbn [others regs]. split; [done|]. by rewrite Io.set_same. Qed.

(** [lapicstartap] makes the processor with the given id run from the given
    page, once, although it sends two startup messages, and leaves all the
    other processors as they are. *)
Theorem lapicstartap_starts id addr s : 0 <= id < 256 -> 0 <= addr < 2 ^ 20 -> addr mod 4096 = 0 ->
  exists s', lapicstartap id addr s = Ret tt s' /\ others s' id = Started addr /\ forall j, j <> id -> others s' j = others s j.
Proof.
  intros Hid Ha Hal. set (k := Z.shiftr addr 12). assert (Ek : k = addr / 4096) by (unfold k; by rewrite Z.shiftr_div_pow2 by lia).
  assert (Hk : 0 <= k < 256) by (rewrite Ek; split; [apply Z.div_pos; lia|apply Z.div_lt_upper_bound; lia]).
  assert (Esh : Z.shiftl k 12 = addr) by (rewrite Z.shiftl_mul_pow2, Ek by lia; pose proof (Z.div_mod addr 4096); lia).
  destruct (startup_message k Hk) as [Hb Hr]. unfold lapicstartap, outb, set_warm. rewrite !bind_modify. cbn [present regs busy others warm cmos send_startup].
  rewrite !lapicw_bind. fold k. set (s1 := {| present := _; regs := _; busy := _; others := _; warm := _; cmos := _ |}).
  eexists. split; [reflexivity|]. change (others s) with (others s1). clearbody s1.
  destruct (address id s1) as [A1 B1]. set (s2 := write_reg ICRHI _ s1) in *.
  destruct (command id (Z.lor (Z.lor INIT LEVEL) ASSERT) s2 Hid eq_refl B1) as (A2 & O2 & B2). set (s3 := write_reg ICRLO _ s2) in *.
  destruct (command id (Z.lor INIT LEVEL) s3 Hid eq_refl ltac:(congruence)) as (A3 & O3 & B3). set (s4 := write_reg ICRLO _ s3) in *.
  destruct (address id s4) as [A4 B4]. set (s5 := write_reg ICRHI _ s4) in *.
  destruct (command id (Z.lor STARTUP k) s5 Hid Hb B4) as (A5 & O5 & B5). set (s6 := write_reg ICRLO _ s5) in *.
  destruct (address id s6) as [A6 B6]. set (s7 := write_reg ICRHI _ s6) in *.
  destruct (command id (Z.lor STARTUP k) s7 Hid Hb B6) as (A7 & O7 & B7). rewrite Hr in A5, A7. split.
  - rewrite A7, A6, A5, A4, A3, A2. cbn. by rewrite Esh.
  - intros j Hj. by rewrite O7, A6, O5, A4, O3, O2, A1.
Qed.

Lemma lapicstartap_starts_witness : exists s', lapicstartap 3 0x7000 {| present := true; regs := fun _ => 0; busy := 0; others := fun _ => Halted; warm := (0, 0); cmos := [] |} = Ret tt s' /\
  others s' 3 = Started 0x7000 /\ forall j, j <> 3 -> others s' j = Halted.
Proof. apply (lapicstartap_starts 3 0x7000 {| present := true; regs := fun _ => 0; busy := 0; others := fun _ => Halted; warm := (0, 0); cmos := [] |}); [lia|lia|reflexivity]. Defined.

Lemma wait_delivered_ends fuel : forall s, (busy s < fuel)%nat -> exists s', wait_delivered fuel s = Ret tt s' /\ regs s' = regs s /\ others s' = others s.
Proof.
  induction fuel as [|fuel IH]; intros s Hf; [lia|]. cbn [wait_delivered]. unfold bind, read_reg. rewrite Z.eqb_refl. cbn [andb].
  destruct (Nat.eqb_spec (busy s) 0) as [E|E]; cbn [negb].
  - exists s. split; [|done].
    assert (E0 : Z.land (Z.ldiff (regs s ICRLO) DELIVS) DELIVS = 0).
    { apply Z.bits_inj'. intros n Hn. rewrite Z.land_spec, Z.ldiff_spec, Z.bits_0. by destruct (Z.testbit DELIVS n), (Z.testbit (regs s ICRLO) n). }
    by rewrite E0.
  - assert (E0 : Z.land (Z.lor (regs s ICRLO) DELIVS) DELIVS = DELIVS).
    { apply Z.bits_inj'. intros n Hn. rewrite Z.land_spec, Z.lor_spec. by destruct (Z.testbit DELIVS n), (Z.testbit (regs s ICRLO) n). }
    rewrite E0. change (DELIVS =? 0) with false. cbv iota. apply (IH {| present := _; regs := _; busy := _; others := _; warm := _; cmos := _ |}). cbn. lia.
Qed.

(** [lapicinit] ends once its message is delivered; the timer then interrupts
    periodically with the vector of the clock in [trap], the lines of the old
    controller are masked, and no other processor is started or stopped. *)
Theorem lapicinit_timer fuel s : present s = true -> (busy s < fuel)%nat ->
  exists s', lapicinit fuel s = Ret tt s' /\ Z.land (regs s' TIMER) 0xFF = T_IRQ0 + IRQ_TIMER /\ Z.testbit (regs s' TIMER) 17 = true /\
    Z.testbit (regs s' TIMER) 16 = false /\ Z.testbit (regs s' SVR) 8 = true /\ Z.testbit (regs s' LINT0) 16 = true /\ Z.testbit (regs s' LINT1) 16 = true /\
    forall j, others s' j = others s j.
Proof.
  intros Hp Hf. unfold lapicinit. rewrite bind_gets, Hp. cbn [negb]. rewrite !lapicw_bind. unfold bind at 1, read_reg at 1.
  change (VER =? ICRLO) with false. cbn [andb].
  set (m := if 4 <=? _ then lapicw PCINT MASKED else ret tt). set (s1 := write_reg LINT1 _ _).
  assert (Hm : exists s2, m s1 = Ret tt s2 /\ (forall r, r <> PCINT -> regs s2 r = regs s1 r) /\ others s2 = others s1 /\ busy s2 = busy s1).
  { unfold m. destruct (4 <=? _); eexists; (split; [reflexivity|]); [|done]. split; [|done]. intros r Hr. cbn [write_reg regs]. by rewrite Io.set_other. }
  destruct Hm as (s2 & Em & Hr2 & Ho2 & Hb2). rewrite (bind_ret_eq _ _ _ _ _ Em), !lapicw_bind. clear m Em.
  set (s3 := write_reg ICRLO _ _). destruct (wait_delivered_ends fuel s3) as (s4 & E4 & Hr4 & Ho4); [cbn; rewrite Hb2; exact Hf|].
  rewrite (bind_ret_eq _ _ _ _ _ E4). eexists. split; [reflexivity|]. cbn [write_reg regs others].
  rewrite !(Io.set_other TPR) by done. rewrite Hr4. unfold s3. cbn [write_reg regs]. rewrite !Io.set_other by done. rewrite !Hr2 by done.
  unfold s1. cbn [write_reg regs]. split; [done|]. split; [done|]. split; [done|]. split; [done|]. split; [done|]. split; [done|].
  intros j. change (TPR =? ICRLO) with false. cbv iota. rewrite Ho4. unfold s3. cbn [write_reg others]. rewrite Z.eqb_refl.
  change (receive (u32 (Z.lor (Z.lor BCAST INIT) LEVEL)) ?p) with p.
  destruct (_ || _); (transitivity (others s2 j); [done|]); by rewrite Ho2.
Qed.

Lemma lapicinit_timer_witness : exists s', lapicinit 3 {| present := true; regs := fun _ => 0x50014; busy := 2; others := fun _ => Halted; warm := (0, 0); cmos := [] |} = Ret tt s' /\
  Z.land (regs s' TIMER) 0xFF = T_IRQ0 + IRQ_TIMER /\ Z.testbit (regs s' TIMER) 17 = true /\
  Z.testbit (regs s' TIMER) 16 = false /\ Z.testbit (regs s' SVR) 8 = true /\ Z.testbit (regs s' LINT0) 16 = true /\ Z.testbit (regs s' LINT1) 16 = true /\
  forall j, others s' j = Halted.
Proof.
  apply (lapicinit_timer 3 {| present := true; regs := fun _ => 0x50014; busy := 2; others := fun _ => Halted; warm := (0, 0); cmos := [] |}); [reflexivity|cbn; lia].
Defined.
End Lapic.

(** ** The clock chip *)

Module Cmos.
Record rtcdate : Type := { second : Z; minute : Z; hour : Z; day : Z; month : Z; year : Z }.

#[export] Instance rtcdate_eq_dec : EqDecision rtcdate.
Proof. solve_decision. Defined.

Definition CMOS_STATA : Z := 0x0a.
Definition CMOS_STATB : Z := 0x0b.
Definition CMOS_UIP : Z := Z.shiftl 1 7.
Definition SECS : Z := 0x00.
Definition MINS : Z := 0x02.
Definition HOURS : Z := 0x04.
Definition DAY : Z := 0x07.
Definition MONTH : Z := 0x08.
Definition YEAR : Z := 0x09.

Section cmos.
(** The byte in register [r] when the chip is read for the [i]th time. *)
Context (chip : nat -> Z -> Z).

(** The state is the number of reads so far. *)
Definition cmos_read (r : Z) : M nat Z := fun i => Ret (chip i r) (S i).

Definition fill_rtcdate : M nat rtcdate :=
  let! s := cmos_read SECS in
  let! m := cmos_read MINS in
  let! h := cmos_read HOURS in
  let! d := cmos_read DAY in
  let! mo := cmos_read MONTH in
  let! y := cmos_read YEAR in
  ret {| second := s; minute := m; hour := h; day := d; month := mo; year := y |}.

Fixpoint stable (fuel : nat) : M nat rtcdate :=
  match fuel with
  | O => halt Undefined
  | S fuel' =>
      let! t1 := fill_rtcdate in
      let! a := cmos_read CMOS_STATA in
      if negb (Z.land a CMOS_UIP =? 0) then stable fuel'
      else
        let! t2 := fill_rtcdate in
        if bool_decide (t1 = t2) then ret t1 else stable fuel'
  end.

(** [CONV(x)] *)
Definition conv (x : Z) : Z := Z.shiftr x 4 * 10 + Z.land x 0xf.

Definition cmostime (fuel : nat) : M nat rtcdate :=
  let! sb := cmos_read CMOS_STATB in
  let bcd := Z.land sb (Z.shiftl 1 2) =? 0 in
  let! t := stable fuel in
  let f x := if bcd then conv x else x in
  ret {| second := f (second t); minute := f (minute t); hour := f (hour t); day := f (day t); month := f (month t);
         year := f (year t) + 2000 |}.
End cmos.

(** *** A clock that runs *)

Definition to_bcd (x : Z) : Z := 16 * (x / 10) + x mod 10.

Lemma conv_bcd x : 0 <= x < 100 -> conv (to_bcd x) = x.
Proof.
  intros Hx. assert (H : forallb (fun x => conv (to_bcd x) =? x) (seqZ 0 100) = true) by (vm_compute; reflexivity).
  rewrite forallb_forall in H. apply Z.eqb_eq, H, list_elem_of_In, elem_of_seqZ. lia.
Qed.

Definition map_date (f : Z -> Z) (t : rtcdate) : rtcdate :=
  {| second := f (second t); minute := f (minute t); hour := f (hour t); day := f (day t); month := f (month t); year := f (year t) |}.

Definition two_digits (t : rtcdate) : Prop :=
  0 <= second t < 100 /\ 0 <= minute t < 100 /\ 0 <= hour t < 100 /\ 0 <= day t < 100 /\ 0 <= month t < 100 /\ 0 <= year t < 100.

Section running.
(** The clock counts seconds and shows the date of its count, whose seconds
    are the count modulo 60. *)
Context (civil : Z -> rtcdate) (time : nat -> Z) (uip : nat -> bool) (statb : Z).
Hypothesis civil_second : forall t, second (civil t) = t mod 60.
Hypothesis civil_digits : forall t, two_digits (civil t).

(** The registers of the chip; in which form is a bit of register B. *)
Definition show (x : Z) : Z := if Z.land statb (Z.shiftl 1 2) =? 0 then to_bcd x else x.

Definition rtc (i : nat) (r : Z) : Z :=
  let t := civil (time i) in
  if r =? CMOS_STATA then (if uip i then CMOS_UIP else 0)
  else if r =? CMOS_STATB then statb
  else if r =? SECS then show (second t) else if r =? MINS then show (minute t) else if r =? HOURS then show (hour t)
  else if r =? DAY then show (day t) else if r =? MONTH then show (month t) else show (year t).

(** Time does not run backwards, and less than a minute passes while the two
    dates are read. *)
Hypothesis time_mono : forall i, time i <= time (S i).
Hypothesis time_slow : forall i, time (i + 13) - time i < 60.

Lemma time_le i n : time i <= time (i + n).
Proof. induction n as [|n IH]; [by rewrite Nat.add_0_r|]. rewrite Nat.add_succ_r. pose proof (time_mono (i + n)). lia. Qed.

(** The date that six reads from instant [i] on give. *)
Definition seen (i : nat) : rtcdate :=
  {| second := show (second (civil (time i))); minute := show (minute (civil (time (1 + i)%nat))); hour := show (hour (civil (time (2 + i)%nat)));
     day := show (day (civil (time (3 + i)%nat))); month := show (month (civil (time (4 + i)%nat))); year := show (year (civil (time (5 + i)%nat))) |}.

Lemma fill_at i : fill_rtcdate rtc i = Ret (seen i) (6 + i)%nat.
Proof. reflexivity. Qed.

Lemma seen_still i : (forall n, (n <= 5)%nat -> time (n + i)%nat = time i) -> seen i = map_date show (civil (time i)).
Proof. intros H. unfold seen. by rewrite (H 1%nat), (H 2%nat), (H 3%nat), (H 4%nat), (H 5%nat) by lia. Qed.

Lemma show_inj x y : 0 <= x < 100 -> 0 <= y < 100 -> show x = show y -> x = y.
Proof.
  intros Hx Hy. unfold show. destruct (_ =? 0); [|done]. intros E. rewrite <- (conv_bcd x Hx), <- (conv_bcd y Hy). by rewrite E.
Qed.

(** The count has not changed between two equal displays of the seconds. *)
Lemma no_tick i : show (second (civil (time i))) = show (second (civil (time (7 + i)%nat))) -> forall n, (n <= 7)%nat -> time (n + i)%nat = time i.
Proof.
  intros E n Hn. apply show_inj in E; [|apply civil_digits..]. rewrite !civil_second in E.
  pose proof (time_le i 7) as L1. pose proof (time_le (7 + i) 6) as L2. pose proof (time_slow i) as L3.
  rewrite (Nat.add_comm i) in L1, L3. rewrite (Nat.add_comm _ 6) in L2. cbn [Nat.add] in L1, L2, L3, E.
  assert (E7 : time (S (S (S (S (S (S (S i))))))) = time i).
  { pose proof (Z.div_mod (time i) 60). pose proof (Z.div_mod (time (S (S (S (S (S (S (S i)))))))) 60). lia. }
  pose proof (time_le i n) as L4. pose proof (time_le (i + n) (7 - n)) as L5. replace (i + n + (7 - n))%nat with (S (S (S (S (S (S (S i))))))) in L5 by lia.
  rewrite Nat.add_comm. lia.
Qed.

Lemma round_eq fuel i : stable rtc (S fuel) i =
  if uip (6 + i)%nat then stable rtc fuel (7 + i)%nat
  else if bool_decide (seen i = seen (7 + i)) then Ret (seen i) (13 + i)%nat else stable rtc fuel (13 + i)%nat.
Proof.
  cbn [stable]. rewrite (bind_ret_eq _ _ _ _ _ (fill_at i)). unfold bind at 1, cmos_read at 1.
  change (rtc (6 + i) CMOS_STATA) with (if uip (6 + i)%nat then CMOS_UIP else 0). destruct (uip (6 + i)%nat); [done|].
  change (Z.land 0 CMOS_UIP =? 0) with true. cbn [negb]. rewrite (bind_ret_eq _ _ _ _ _ (fill_at (7 + i))). by case_bool_decide.
Qed.

(** One round of the loop returns the date it started at, or goes on. *)
Lemma stable_round fuel i : stable rtc (S fuel) i = Ret (map_date show (civil (time i))) (13 + i)%nat \/
  (exists n, (7 <= n <= 13)%nat /\ stable rtc (S fuel) i = stable rtc fuel (n + i)%nat).
Proof.
  rewrite round_eq. destruct (uip (6 + i)%nat); [right; exists 7%nat; split; [lia|done]|].
  case_bool_decide as E; [left|right; exists 13%nat; split; [lia|done]]. rewrite seen_still; [done|].
  intros n Hn. apply no_tick; [|lia]. by injection E.
Qed.

(** A stretch of reads without an update or a tick ends the loop. *)
Definition calm (q : nat) : Prop := forall j, (q <= j < q + 26)%nat -> uip j = false /\ time j = time q.

Lemma stable_calm fuel q i : calm q -> (q <= i < q + 13)%nat -> stable rtc (S fuel) i = Ret (map_date show (civil (time i))) (13 + i)%nat.
Proof.
  intros Hq Hi. assert (H : forall n, (n <= 12)%nat -> time (n + i)%nat = time i).
  { intros n Hn. destruct (Hq (n + i)%nat) as [_ H2]; [lia|]. destruct (Hq i) as [_ H3]; [lia|]. congruence. }
  rewrite round_eq, (proj1 (Hq (6 + i)%nat ltac:(lia))).
  assert (E1 : seen i = map_date show (civil (time i))) by (apply seen_still; intros; apply H; lia).
  assert (E2 : seen (7 + i) = map_date show (civil (time (7 + i)%nat))).
  { apply seen_still. intros n Hn. rewrite Nat.add_assoc, !H by lia. done. }
  rewrite E1, E2, (H 7%nat) by lia. by rewrite bool_decide_eq_true_2.
Qed.

Lemma stable_ends q : calm q -> forall fuel i, (i < q + 13)%nat -> (q - i < fuel)%nat ->
  exists j n, stable rtc fuel i = Ret (map_date show (civil (time j))) n /\ (i <= j < n)%nat.
Proof.
  intros Hq fuel. induction fuel as [|fuel IH]; intros i Hi Hf; [lia|]. destruct (decide (q <= i)%nat) as [Hqi|Hqi].
  - rewrite (stable_calm fuel q i Hq) by lia. exists i, (13 + i)%nat. split; [done|lia].
  - destruct (stable_round fuel i) as [E|(n & Hn & E)]; rewrite E; [exists i, (13 + i)%nat; split; [done|lia]|].
    destruct (IH (n + i)%nat) as (j & m & E2 & Hj); [lia|lia|]. exists j, m. split; [done|lia].
Qed.

(** [cmostime] returns as soon as the clock leaves it the time for two reads
    of the date, and what it returns is the date, in decimal and with the
    century, at one moment during the call: it never mixes the seconds of one
    minute with the minutes of the next. *)
Theorem cmostime_moment q i : calm q -> (i < q)%nat ->
  exists j n, cmostime rtc (q - i) i = Ret {| second := second (civil (time j)); minute := minute (civil (time j)); hour := hour (civil (time j));
    day := day (civil (time j)); month := month (civil (time j)); year := year (civil (time j)) + 2000 |} n /\ (i < j < n)%nat.
Proof.
  intros Hq Hi. destruct (stable_ends q Hq (q - i) (S i)) as (j & n & E & Hj); [lia|lia|]. exists j, n. split; [|lia].
  unfold cmostime. unfold bind at 1, cmos_read at 1. change (rtc i CMOS_STATB) with statb. rewrite (bind_ret_eq _ _ _ _ _ E).
  pose proof (civil_digits (time j)) as (H1 & H2 & H3 & H4 & H5 & H6). unfold ret, map_date, show. cbn [second minute hour day month year].
  destruct (Z.land statb (Z.shiftl 1 2) =? 0); [rewrite !conv_bcd by done|]; done.
Qed.
End running.

(** A clock at the end of a minute, which ticks at its tenth read. *)
Definition demo_civil (t : Z) : rtcdate :=
  {| second := t mod 60; minute := t / 60 mod 60; hour := 23; day := 31; month := 12; year := 26 |}.

Definition demo_time (i : nat) : Z := if (i <? 10)%nat then 59 else 60.

Lemma cmostime_moment_witness : exists j n, cmostime (rtc demo_civil demo_time (fun i => (i =? 8)%nat) 2) 15 0%nat =
  Ret {| second := second (demo_civil (demo_time j)); minute := minute (demo_civil (demo_time j)); hour := 23; day := 31; month := 12; year := 2026 |} n /\ (0 < j < n)%nat.
Proof.
  apply (cmostime_moment demo_civil demo_time (fun i => (i =? 8)%nat) 2) with (q := 15%nat) (i := 0%nat).
  - done.
  - intros t. pose proof (Z.mod_pos_bound t 60). pose proof (Z.mod_pos_bound (t / 60) 60). split_and!; cbn; lia.
  - intros i. unfold demo_time. destruct (Nat.ltb_spec i 10), (Nat.ltb_spec (S i) 10); lia.
  - intros i. unfold demo_time. destruct (Nat.ltb_spec i 10), (Nat.ltb_spec (i + 13) 10); lia.
  - intros j Hj. unfold demo_time. destruct (Nat.ltb_spec j 10); [lia|]. split; [apply Nat.eqb_neq; lia|done].
  - lia.
Defined.
End Cmos.
