(* ===== verification/Boot.v ===== *)
(** * The boot loader ([bootloader/bootmain.c])

    The first sector of the disk has the loader, the sectors behind it the
    kernel as an ELF file.  The loader reads the first page of the file to a
    scratch area, and then each segment to its physical address, in whole
    sectors: more than it needs, before and behind the segment.  The state is
    the memory and the disk controller of [Ide].

    Proved: when the segments lie in increasing order, with room for the
    sectors that reach beyond them, every segment is in memory at the end with
    its bytes and its zeros, and the loader jumps to the entry point.  The page
    directory of [kernel/main.c] with which [entry.S] turns paging on shows
    that memory at its physical and at its kernel addresses. *)

From S2P Require Import Prelude CStr Mem BufIface Lock Bio Ide Kalloc Vm.
















(** ** Reading sectors *)

Section loader.
(** The sectors of the boot disk. *)
Context (disk : list block).
Hypothesis disk_blocks : blocks_wf disk.
Hypothesis disk_size : Z.of_nat (length disk) < 2 ^ 24.








(** ** Reading a range of the file *)









(** ** Segments *)













(** ** The kernel *)





End loader.

(** ** A small kernel *)





(** ** The first page directory ([entrypgdir] of [kernel/main.c]) *)

Definition PTE_PS : Z := 0x080.

Definition entrypgdir : list Z :=
  <[Z.to_nat (Z.shiftr KERNBASE PDXSHIFT) := Z.lor (Z.lor (Z.lor 0 PTE_P) PTE_W) PTE_PS]>
    (<[0%nat := Z.lor (Z.lor (Z.lor 0 PTE_P) PTE_W) PTE_PS]> (replicate NPDENTRIES 0)).

(** An address in a page of four megabytes, as the processor translates it. *)
Definition translate (pgdir : list Z) (va : Z) : option Z :=
  pde ← pgdir !! Z.to_nat (PDX va);
  if has PTE_P pde && has PTE_PS pde then Some (Z.shiftl (Z.shiftr pde PDXSHIFT) PDXSHIFT + va mod 2 ^ PDXSHIFT) else None.

(** The first four megabytes of memory, and no more, are visible at their
    physical addresses, from which the loader enters the kernel, and at the
    addresses for which the kernel is linked. *)
Theorem entry_maps va : 0 <= va < 2 ^ 32 ->
  translate entrypgdir va = if decide (va < 2 ^ 22) then Some va else if decide (KERNBASE <= va < KERNBASE + 2 ^ 22) then Some (V2P va) else None.
Proof.
  intros Hva. assert (Epdx : PDX va = va / 2 ^ 22).
  { unfold PDX, PDXSHIFT. change 0x3FF with (Z.ones 10). rewrite Z.land_ones, Z.shiftr_div_pow2 by lia. apply Z.mod_small.
    split; [apply Z.div_pos; lia|apply Z.div_lt_upper_bound; lia]. }
  unfold translate. rewrite Epdx. pose proof (Z.div_mod va (2 ^ 22) ltac:(lia)) as Hdm. pose proof (Z.mod_pos_bound va (2 ^ 22) ltac:(lia)) as Hm.
  assert (Hq : 0 <= va / 2 ^ 22 < 1024) by (split; [apply Z.div_pos; lia|apply Z.div_lt_upper_bound; lia]).
  assert (E : entrypgdir !! Z.to_nat (va / 2 ^ 22) = Some (if decide (va / 2 ^ 22 = 512) then 0x83 else if decide (va / 2 ^ 22 = 0) then 0x83 else 0)).
  { unfold entrypgdir. change (Z.to_nat (Z.shiftr KERNBASE PDXSHIFT)) with 512%nat. change (Z.lor (Z.lor (Z.lor 0 PTE_P) PTE_W) PTE_PS) with 0x83.
    destruct (decide (va / 2 ^ 22 = 512)) as [->|H1]; [done|]. rewrite list_lookup_insert_ne by lia.
    destruct (decide (va / 2 ^ 22 = 0)) as [->|H2]; [done|]. rewrite list_lookup_insert_ne by lia. apply lookup_replicate_2. unfold NPDENTRIES. lia. }
  rewrite E. cbn [mbind option_bind]. unfold KERNBASE, V2P, KERNBASE. change PDXSHIFT with 22.
  destruct (decide (va / 2 ^ 22 = 512)) as [H1|H1]; [|destruct (decide (va / 2 ^ 22 = 0)) as [H2|H2]].
  - rewrite decide_False, decide_True by lia. change (has PTE_P 131 && has PTE_PS 131) with true. cbv iota.
    change (Z.shiftl (Z.shiftr 131 22) 22) with 0. f_equal. rewrite u32_small by lia. lia.
  - rewrite decide_True by lia. change (has PTE_P 131 && has PTE_PS 131) with true. cbv iota.
    change (Z.shiftl (Z.shiftr 131 22) 22) with 0. f_equal. lia.
  - rewrite !decide_False by lia. done.
Qed.
