(* ===== verification/Start.v ===== *)
(** * Starting the other processors ([startothers] of [kernel/main.c])

    The boot processor gives each of the others, one after the other, a stack
    and the place to go, in three words below a piece of code in low memory,
    makes it run that code, and waits until it is up.  The state has the page
    allocator of [Kalloc] and the local controller of [Apic]; what a processor
    that starts at the code does is to take the three words
    ([kernel/entryother.S]) and to report ([mpmain]).

    Proved: all the processors of the table but the boot processor come up,
    each with a stack of its own. *)

From S2P Require Import Prelude CStr Mem BufIface Kalloc Vm VmSpace VmUser VmGrow VmCopy VmMove Syscall VmDemo Pipe Ptable File Proc Trap Apic.

Definition KSTACKSIZE : Z := 4096.

(** The physical address of the entry code. *)
Definition code : Z := 0x7000.

(** The words at [code-4], [code-8] and [code-12], the code, and for each
    processor that has started the words it has taken. *)
Record start : Type := {
  heap : kmem;
  apic : Lapic.lst;
  words : Z * Z * Z;
  text : list Z;
  up : gmap Z (Z * Z * Z)
}.

Definition on_heap {A : Type} (m : M kmem A) : M start A := fun s =>
  match m (heap s) with
  | Ret a k => Ret a {| heap := k; apic := apic s; words := words s; text := text s; up := up s |}
  | Stop r k => Stop r {| heap := k; apic := apic s; words := words s; text := text s; up := up s |}
  end.

Definition on_apic {A : Type} (m : M Lapic.lst A) : M start A := fun s =>
  match m (apic s) with
  | Ret a k => Ret a {| heap := heap s; apic := k; words := words s; text := text s; up := up s |}
  | Stop r k => Stop r {| heap := heap s; apic := k; words := words s; text := text s; up := up s |}
  end.

Definition set_words (w : Z * Z * Z) : M start unit :=
  modify (fun s => {| heap := heap s; apic := apic s; words := w; text := text s; up := up s |}).

Definition set_text (l : list Z) : M start unit :=
  modify (fun s => {| heap := heap s; apic := apic s; words := words s; text := l; up := up s |}).

(** The processor [id] runs, when it has been started at the code. *)
Definition boots (id : Z) : M start unit :=
  modify (fun s => match Lapic.others (apic s) id with
                   | Lapic.Started a =>
                       if a =? code then {| heap := heap s; apic := apic s; words := words s; text := text s; up := <[id := words s]> (up s) |} else s
                   | _ => s
                   end).

(** [while(c->started == 0);], during which the other processor runs. *)
Definition wait_started (id : Z) : M start unit :=
  boots id then!
  let! u := gets up in
  if bool_decide (is_Some (u !! id)) then ret tt else halt (Sleeping "started").

Section start.
(** The addresses of [mpenter] and [entrypgdir], the linked image of
    entryother.S, and the number of the processor that runs. *)
Context (mpenter entrypgdir : Z) (entryother : list Z) (me : nat).

(** The loop over the processors with the ids [l], from number [i] on. *)
Fixpoint start_loop (l : list Z) (i : nat) : M start unit :=
  match l with
  | [] => ret tt
  | id :: l' =>
      (if (i =? me)%nat then ret tt
       else
         let! stack := on_heap kalloc in
         set_words (u32 (stack + KSTACKSIZE), mpenter, V2P entrypgdir) then!
         on_apic (Lapic.lapicstartap id code) then!
         wait_started id) then!
      start_loop l' (S i)
  end.

(** [cpus] are the ids of the processors [mpinit] has found. *)
Definition startothers (cpus : list Z) : M start unit :=
  set_text entryother then!
  start_loop cpus 0.
End start.

(** ** Every processor gets its own stack *)

Section starts.
Variable end_ : Z.
Hypothesis end_above : KERNLINK <= end_.
Context (mpenter entrypgdir : Z) (entryother : list Z) (me : nat).

(** The processors that are started: all but number [me]. *)
Fixpoint started (l : list Z) (i : nat) : list Z :=
  match l with
  | [] => []
  | id :: l' => if (i =? me)%nat then started l' (S i) else id :: started l' (S i)
  end.

Lemma started_sub l : forall i id, id ∈ started l i -> id ∈ l.
Proof.
  induction l as [|x l IH]; intros i id H; cbn [started] in H; [done|]. destruct (i =? me)%nat; [right; by eapply IH|].
  apply elem_of_cons in H as [->|H]; [left|right; by eapply IH].
Qed.

(** The words a processor takes that has the stack on page [p]. *)
Definition taken (p : Z) : Z * Z * Z := (p + KERNBASE + KSTACKSIZE, mpenter, V2P entrypgdir).

(** One processor comes up. *)
Lemma wp_start_one id s p fl (Q : unit -> start -> Prop) : heap_ok end_ (heap s) (p :: fl) -> 0 <= id < 256 ->
  (forall s', heap_ok end_ (heap s') fl -> up s' = <[id := taken p]> (up s) -> Q tt s') ->
  wp (let! stack := on_heap kalloc in
      set_words (u32 (stack + KSTACKSIZE), mpenter, V2P entrypgdir) then!
      on_apic (Lapic.lapicstartap id code) then! wait_started id) s Q.
Proof.
  intros H Hid HQ. destruct (proj1 (wp_iff _ _ _) (wp_kalloc end_ end_above (heap s) (p :: fl) H)) as (v & k & Ek & _ & -> & Hk).
  destruct (heap_head end_ end_above (heap s) p fl H) as (Hp & _ & _). apply (heap_page_range end_ end_above) in Hp.
  assert (Ev : u32 (P2V p + KSTACKSIZE) = p + KERNBASE + KSTACKSIZE).
  { unfold P2V, KSTACKSIZE, EXTMEM, PHYSTOP, KERNBASE in *. rewrite (u32_small (p + _)) by lia. apply u32_small. lia. }
  apply wp_iff. unfold bind at 1, on_heap. rewrite Ek, Ev. unfold set_words. rewrite bind_modify. cbn [heap apic words text up].
  destruct (Lapic.lapicstartap_starts id code (apic s) Hid) as (ap & Ea & Hst & _); [unfold code; lia|done|].
  unfold bind at 1, on_apic. cbn [heap apic words text up]. rewrite Ea. unfold wait_started, boots. rewrite bind_modify, bind_gets.
  cbn [heap apic words text up]. rewrite Hst, Z.eqb_refl. cbn [heap apic words text up]. rewrite bool_decide_eq_true_2 by (by rewrite lookup_insert_eq).
  eexists _, _. split; [reflexivity|]. by apply HQ.
Qed.

Lemma wp_start_loop l : forall i s fl, heap_ok end_ (heap s) fl -> NoDup l -> Forall (fun id => 0 <= id < 256) l -> (length (started l i) <= length fl)%nat ->
  wp (start_loop mpenter entrypgdir me l i) s (fun _ s' =>
    (forall k id p, started l i !! k = Some id -> fl !! k = Some p -> up s' !! id = Some (taken p)) /\
    forall id, id ∉ started l i -> up s' !! id = up s !! id).
Proof.
  induction l as [|id l IH]; intros i s fl H Hd Hr Hn; cbn [start_loop started] in *; [by apply wp_ret|].
  apply list.NoDup_cons in Hd as [Hid Hd]. apply Forall_cons_iff in Hr as [Hi Hr]. apply wp_bind. destruct (i =? me)%nat; [apply wp_ret; by apply IH|].
  destruct fl as [|p fl]; [cbn in Hn; lia|]. apply (wp_start_one id s p fl); [done|done|]. intros s1 H1 Hup.
  eapply wp_mono; [apply (IH (S i) s1 fl H1 Hd Hr); cbn in Hn; lia|]. intros [] s2 [G1 G2].
  assert (Hnot : id ∉ started l (S i)) by (intros Hin; apply Hid; by eapply started_sub). split.
  - intros [|k] id' p' Hk Hp; cbn in Hk, Hp; [|by eapply G1]. simplify_eq. rewrite G2, Hup by done. by rewrite lookup_insert_eq.
  - intros id' Hn'. apply not_elem_of_cons in Hn' as [Hne Hn']. rewrite G2, Hup by done. by rewrite lookup_insert_ne.
Qed.

(** [startothers] starts every processor but its own, and the stacks they get
    are different pages: the words below the code are not changed for the next
    processor before this one has taken them. *)
Theorem startothers_stacks cpus s fl : heap_ok end_ (heap s) fl -> NoDup cpus -> Forall (fun id => 0 <= id < 256) cpus -> up s = ∅ -> (length cpus <= length fl)%nat ->
  wp (startothers mpenter entrypgdir entryother me cpus) s (fun _ s' =>
    (forall i id, cpus !! i = Some id -> i <> me -> exists p, p ∈ fl /\ up s' !! id = Some (taken p)) /\
    (forall id, cpus !! me = Some id -> up s' !! id = None) /\
    forall id id' w, up s' !! id = Some w -> up s' !! id' = Some w -> id = id').
Proof.
  intros H Hd Hr Hup Hn. unfold startothers. apply wp_bind, wp_modify.
  assert (Hlen : forall l i, (length (started l i) <= length l)%nat).
  { induction l as [|x l IH]; intros i; [done|]. cbn [started length]. destruct (i =? me)%nat; [specialize (IH (S i)); lia|cbn; specialize (IH (S i)); lia]. }
  eapply wp_mono; [apply (wp_start_loop cpus 0 _ fl); [done|done|done|specialize (Hlen cpus 0%nat); lia]|]. intros [] s2 [G1 G2]. cbn [up] in G2. rewrite Hup in G2.
  assert (Hin : forall l j i id, l !! i = Some id -> (j + i)%nat <> me -> id ∈ started l j).
  { induction l as [|x l IH]; intros j i id Hl Hne; [done|]. cbn [started]. destruct i as [|i]; cbn in Hl.
    - injection Hl as ->. rewrite Nat.add_0_r in Hne. rewrite (proj2 (Nat.eqb_neq _ _) Hne). left.
    - assert (Hx : id ∈ started l (S j)) by (apply (IH (S j) i); [done|lia]). destruct (j =? me)%nat; [done|by right]. }
  assert (Hsome : forall id, id ∈ started cpus 0 -> exists k p, started cpus 0 !! k = Some id /\ fl !! k = Some p /\ up s2 !! id = Some (taken p)).
  { intros id Hs. apply list_elem_of_lookup in Hs as [k Hk]. destruct (lookup_lt_is_Some_2 fl k) as [p Hp].
    - pose proof (lookup_lt_Some _ _ _ Hk). specialize (Hlen cpus 0%nat). lia.
    - exists k, p. split; [done|]. split; [done|]. by eapply G1. }
  split; [|split].
  - intros i id Hi Hne. destruct (Hsome id (Hin cpus 0%nat i id Hi Hne)) as (k & p & _ & Hp & E). exists p. split; [by eapply list_elem_of_lookup_2|done].
  - intros id Hi. rewrite G2; [done|].
    assert (Hno : forall l j i, NoDup l -> l !! i = Some id -> (j + i)%nat = me -> id ∉ started l j).
    { induction l as [|x l IH]; intros j i Hdl Hl Hme; [done|]. apply list.NoDup_cons in Hdl as [Hx Hdl]. cbn [started]. destruct i as [|i]; cbn in Hl.
      - injection Hl as ->. rewrite Nat.add_0_r in Hme. rewrite Hme, Nat.eqb_refl. intros Hs. apply Hx. by eapply started_sub.
      - rewrite (proj2 (Nat.eqb_neq j me)) by lia. apply not_elem_of_cons. split; [intros ->; apply Hx; by eapply list_elem_of_lookup_2|].
        apply (IH (S j) i); [done|done|lia]. }
    by apply (Hno cpus 0%nat me).
  - intros id id' w E E'. assert (Hs : forall x, up s2 !! x = Some w -> x ∈ started cpus 0).
    { intros x Ex. destruct (decide (x ∈ started cpus 0)) as [|Hx]; [done|]. rewrite G2 in Ex by done. done. }
    destruct (Hsome id (Hs id E)) as (k & p & Hk & Hp & E1). destruct (Hsome id' (Hs id' E')) as (k' & p' & Hk' & Hp' & E2).
    assert (Ep : p = p') by (rewrite E in E1; rewrite E' in E2; injection E1 as ->; injection E2; lia). subst p'.
    assert (k = k') by (eapply NoDup_lookup; [apply (hp_nodup _ _ _ H)|done|done]). congruence.
Qed.
End starts.

(** Two processors, of which the first runs. *)
Lemma startothers_stacks_witness : exists s (fl : list Z), wp (startothers 0x80103000 0x80109000 [] 0 [3; 7]) s (fun _ s' =>
    (forall i id, [3; 7] !! i = Some id -> i <> 0%nat -> exists p, p ∈ fl /\ up s' !! id = Some (taken 0x80103000 0x80109000 p)) /\
    (forall id, [3; 7] !! 0%nat = Some id -> up s' !! id = None) /\
    forall id id' w, up s' !! id = Some w -> up s' !! id' = Some w -> id = id').
Proof.
  destruct demo_heap as (k & fl & H & Hl).
  set (s0 := {| heap := k; apic := {| Lapic.present := true; Lapic.regs := fun _ => 0; Lapic.busy := 0; Lapic.others := fun _ => Lapic.Halted; Lapic.warm := (0, 0); Lapic.cmos := [] |};
            words := (0, 0, 0); text := []; up := ∅ |}). exists s0, fl.
  apply (startothers_stacks demo_end ltac:(vm_compute; discriminate) 0x80103000 0x80109000 [] 0 [3; 7] s0 fl H).
  - apply (bool_decide_unpack _). vm_compute. exact I.
  - repeat constructor; vm_compute; congruence.
  - reflexivity.
  - rewrite Hl. apply Nat.leb_le. vm_compute. reflexivity.
Defined.
